(* ===== verification/_CoqProject ===== *)
-Q . S2P
Prelude.v
Spinlock.v
PageAlloc.v
Pmm.v
Kmalloc.v
KmallocCorrect.v
Vmm.v
VmmTables.v
VmmCorrect.v
VmmSpaces.v
VmmTheorems.v
Elf.v
ElfCorrect.v
ElfTheorems.v
KHeap.v
Sched.v
SchedCorrect.v
WaitQueueCorrect.v
SchedTheorems.v
Sync.v
CString.v
Printf.v
PrintfCorrect.v
Path.v
Passwd.v
Pipe.v
Ramfs.v
RamfsCorrect.v
Vfs.v
VfsCorrect.v
Fat32.v
Fat32Correct.v
Fat32Chains.v
Fat32Files.v
Fat32Sync.v
Fat32Dir.v
Fat32Entries.v
Fat32Theorems.v
Fat32Example.v
Pci.v
Virtio.v
VirtioCorrect.v
VirtioTheorems.v
Acpi.v
AcpiCorrect.v
Font.v
FbConsole.v
FbTerm.v
Ansi.v
AnsiCorrect.v
AnsiSpec.v
Vt.v
VtCorrect.v
Net.v
Socket.v
NetRx.v
NetCorrect.v
SocketCorrect.v
NetTheorems.v
Fd.v
FdCorrect.v
Process.v
ProcessCorrect.v
ProcessWait.v
ProcessExit.v
ProcessFork.v
ProcessTheorems.v
Procfs.v
ProcfsCorrect.v
Exec.v
ExecCorrect.v
SysFile.v
SysFileCorrect.v
Tty.v
TtyCorrect.v
Shell.v
ShellCorrect.v
ShellLine.v
ShellExpand.v
ShellTheorems.v
