(* ===== verification/Prelude.v ===== *)
(** * Verification of arc_os

    arc_os is a small operating system for x86-64: a kernel in C ([src/kernel]), a C library
    ([src/libc]) and programs ([src/userland]).  This development translates most of the
    kernel, part of the C library and the command language of the shell into executable
    functions and proves what they do.

    ** Conventions

    Kernel code is a function [K S A] on the state [S] of its component (this file): it
    returns a value and the new state ([Done]), stops the machine ([Panic]: KERNEL_PANIC,
    or a fault in the kernel), or has no described behaviour ([Stuck]: an endless loop or
    spin, an access outside an array, a dangling pointer).  A theorem that says [Done]
    therefore also says that no array is left and that the code terminates.  Machine
    integers are [Z], wrapped with [u8] ... [i64] where the code computes at that width;
    pointers are addresses, and objects on the heap are entries of a map from addresses.
    [zoom] runs a routine of one component on its part of a larger state.  Loops that
    walk a structure have fuel that the code's own data bounds (the number of headers, of
    threads, of processes, the length of a string); the theorems show that it is never
    used up.  Calls that may sleep return [Away] or make one more pass when the thread is
    woken ([Ran], [Blk]).  Hardware (page-table walks apart, which are modelled) and the boot
    loader are parameters or interfaces with laws: the configuration space and the ports of
    PCI devices, the tables of the firmware, a virtio disk that serves the request it was
    notified of after some polls.

    ** Components

    - Memory.  [Spinlock]; [PageAlloc] (the interface of the page allocator) and its
      implementation [Pmm] (mm/pmm.c); [Kmalloc], [KmallocCorrect] (mm/kmalloc.c: the heap
      is a list of blocks) and the interface [KHeap] that its clients use; [Vmm] and
      [VmmTables] to [VmmTheorems] (mm/vmm.c: four levels of tables in physical memory refine
      a finite map of pages; the heap's demands on paging are discharged by it);
      [Elf], [ElfCorrect], [ElfTheorems] (proc/elf.c).
    - Threads.  [Sched] to [SchedTheorems], [WaitQueueCorrect] (proc/sched.c,
      thread.c, waitqueue.c, pit.c, the context switch); [Sync] (mutex.c, semaphore.c,
      condvar.c as interleaved steps).
    - Processes.  [Process] to [ProcessTheorems] (proc/process.c, signal.c and the system calls
      on processes: fork, exit, wait, kill, signals, identities); [Exec], [ExecCorrect] (the
      arguments of exec); [Fd], [FdCorrect] (proc/fd.c and the calls on descriptors);
      [SysFile], [SysFileCorrect] (the calls of arch/x86_64/syscall.c on paths and open files);
      [Pipe] (fs/pipe.c as two interleaved threads).
    - Files.  [CString] (lib), [Path], [Passwd], [Ramfs], [Vfs] with devfs and their
      [...Correct] files (fs); [Fat32] to [Fat32Example] (fs/fat32.c over an interface of
      block devices); [Procfs], [ProcfsCorrect] (fs/procfs.c).
    - Devices.  [Pci] (drivers/pci.c); [Virtio], [VirtioCorrect], [VirtioTheorems] (virtio.c,
      virtio_blk.c, blkdev.c; the driver is an instance of the block devices that FAT32 is
      verified over); [Acpi], [AcpiCorrect] (acpi.c).
    - Network.  [Net], [Socket], [NetRx] and [NetCorrect], [SocketCorrect], [NetTheorems] (net:
      Ethernet, ARP, IPv4, ICMP, UDP, TCP, loopback, sockets).
    - Terminals.  [Printf], [PrintfCorrect] (lib/kprintf.c and libc/src/printf.c); [Font],
      [FbConsole], [FbTerm] (drivers/fb_console.c, font8x16.c: pixels refine a grid of
      cells); [Ansi], [AnsiCorrect] (ansi.c over an interface of consoles), [AnsiSpec] (what
      the escape sequences mean); [Vt], [VtCorrect] (vt.c); [Tty], [TtyCorrect] (tty.c, keyboard.c).
    - Shell.  [Shell] (userland/shell/shell.c: variables, jobs, expansion, splitting,
      redirections, one line of the main loop), [ShellCorrect] (variables), [ShellLine]
      (splitting), [ShellExpand] (expansion), [ShellTheorems] (a whole line).

    Each file's own header says which functions it has.  Names are those of the C code.

    ** What the theorems show

    - Refinement: the heap is a list of blocks, page tables a map of pages, ramfs and FAT32
      volumes trees with contents, the framebuffer a terminal, a tty a line editor, the shell's
      variables a map, a command line its meaning.
    - Functional behaviour on every branch, with the errors: allocation, mapping, loading
      of programs, path resolution, scheduling, wait and exit, reads and writes, transfers of
      sectors, enumeration of devices.
    - Invariants and safety: reference counts of pipe ends, mutual exclusion, bounded
      buffers, the range of every variable of the parsers and drivers, permissions.
    - Round trips: write and read, sync and mount, a packet from socket to socket, a typed
      line to its reader, a signal frame and sigreturn, the arguments of exec.
    - Liveness and termination: a thread in the queue runs, no wakeup of a mutex is lost,
      wait returns once a child has exited.

    Lemmas named in the list of findings show behaviour that is not what the code means,
    most of them by a concrete run.

    ** Simplifications

    The heap is one object per system, but its pages and the page tables of the virtual memory
    manager are separate states: [VmmTheorems] proves that the latter satisfy what the former
    needs.  User memory is a map of bytes per process, not read through the page tables.
    In [Pipe] and [Fd] a pipe's queues are flags for one sleeper each; exit uses the real
    queues.  FAT32 and procfs have node tables of their own beside that of [Vfs].  In
    [SysFile] a read or write that goes on in a pipe or in the terminal ends with a value that
    says so.  [Sync] lets a thread that is not blocked always go on, which the code does not where
    a [sched_yield] left the scheduler's lock taken; its theorems claim no progress.  A virtio
    request is served in one step, at a poll.  Output to
    the log, the serial port and the terminal is recorded.  Messages that only report
    progress are left out.

    ** Not modelled

    Start-up and the processor ([kmain.c], [limine.c], GDT, IDT, PIC, APIC, SMP, entry code, user
    mode entry) is port and register access in a fixed order without data of its own.
    The virtio network driver is left out: the stack is verified over an interface that sends a
    frame.  In [syscall.c] the table of calls, the calls that pass their arguments to [Socket],
    brk and the rest of exec are left out, as are the shell's built-in commands, fork and exec
    of its commands, the other programs, and the parts of the C library that only make system
    calls. *)
From stdpp Require Export base gmap list numbers strings.
From stdpp Require Import options.
From Stdlib Require Export Lia ZifyBool.

#[export] Set Default Goal Selector "1".
Global Open Scope Z_scope.

(** [lia] here also reads boolean comparisons and division by constants. *)
Ltac Zify.zify_post_hook ::= ZifyBool.elim_bool_cstr; Z.to_euclidean_division_equations.

(** ** Outcomes of kernel code *)

(** [outcome S A] is what a kernel routine does from a state: it returns a
    value, it stops the machine ([KERNEL_PANIC], an endless [cli; hlt]), or it
    is [Stuck]: it spins for ever on a lock or in a loop, or its behaviour is
    undefined in C (an access outside an array, a dangling pointer). *)
Inductive outcome (S A : Type) : Type :=
  | Done (a : A) (s : S)
  | Panic (s : S)
  | Stuck.
Arguments Done {S A} a s.
Arguments Panic {S A} s.
Arguments Stuck {S A}.

Definition K (S A : Type) : Type := S → outcome S A.

#[export] Instance K_ret S : MRet (K S) := λ A a s, Done a s.
#[export] Instance K_bind S : MBind (K S) := λ A B f m s,
  match m s with
  | Done a s' => f a s'
  | Panic s' => Panic s'
  | Stuck => Stuck
  end.

Definition kget {S A} (f : S → A) : K S A := λ s, Done (f s) s.
Definition kmod {S} (f : S → S) : K S unit := λ s, Done tt (f s).
Definition kpanic {S A} : K S A := λ s, Panic s.
Definition kstuck {S A} : K S A := λ _, Stuck.

(** A read or a write whose failure is undefined behaviour. *)
Definition kopt {S A} (o : S → option A) : K S A := λ s,
  match o s with Some a => Done a s | None => Stuck end.
Definition kupd {S} (o : S → option S) : K S unit := λ s,
  match o s with Some s' => Done tt s' | None => Stuck end.

Lemma bind_Done {S A B} (m : K S A) (f : A → K S B) s a s' :
  m s = Done a s' → (m ≫= f) s = f a s'.
Proof. unfold mbind, K_bind. by intros ->. Qed.
Lemma bind_Panic {S A B} (m : K S A) (f : A → K S B) s s' :
  m s = Panic s' → (m ≫= f) s = Panic s'.
Proof. unfold mbind, K_bind. by intros ->. Qed.
Lemma bind_assoc {S A B C} (m : K S A) (f : A → K S B) (g : B → K S C) s :
  ((m ≫= f) ≫= g) s = (m ≫= λ x, f x ≫= g) s.
Proof. unfold mbind, K_bind. by destruct (m s). Qed.
(** The continuation of a sequence of three steps whose outcome is known. *)
Lemma bind3_Done {S X Y T A} (m1 : K S X) (m2 : X → K S Y) (m3 : X → Y → K S T)
    (k : T → K S A) s r s' :
  (m1 ≫= λ x, m2 x ≫= λ y, m3 x y) s = Done r s' →
  (m1 ≫= λ x, m2 x ≫= λ y, m3 x y ≫= k) s = k r s'.
Proof.
  unfold mbind, K_bind. destruct (m1 s) as [x s1| |]; [|done..].
  destruct (m2 x s1) as [y s2| |]; [|done..]. by intros ->.
Qed.
Lemma mret_bind {S A B} (a : A) (f : A → K S B) s : ((mret a : K S A) ≫= f) s = f a s.
Proof. done. Qed.
Lemma kget_bind {S A B} (h : S → A) (f : A → K S B) s : (kget h ≫= f) s = f (h s) s.
Proof. done. Qed.
Lemma kmod_bind {S B} (h : S → S) (f : unit → K S B) s : (kmod h ≫= f) s = f tt (h s).
Proof. done. Qed.
Lemma kopt_bind {S A B} (o : S → option A) (f : A → K S B) s a :
  o s = Some a → (kopt o ≫= f) s = f a s.
Proof. intros H. apply bind_Done. unfold kopt. by rewrite H. Qed.

(** [kbind H] runs the first routine of the goal with its result [H]. *)
Ltac kbind H := rewrite (bind_Done _ _ _ _ _ H).

(** Run a routine of a component on the part of the state that is its own. *)
Definition zoom {S T A} (get : S → T) (set : T → S → S) (m : K T A) : K S A :=
  λ s, match m (get s) with
       | Done a t => Done a (set t s)
       | Panic t => Panic (set t s)
       | Stuck => Stuck
       end.

(** Reading a run backwards: a sequence that returned ran each of its parts. *)
Lemma bind_inv {S A B} (m : K S A) (f : A → K S B) s b s' :
  (m ≫= f) s = Done b s' → ∃ a s1, m s = Done a s1 ∧ f a s1 = Done b s'.
Proof. unfold mbind, K_bind. destruct (m s) as [a s1| |]; [|done..]. by exists a, s1. Qed.
Lemma zoom_inv {S T A} (get : S → T) (set : T → S → S) (m : K T A) s a s' :
  zoom get set m s = Done a s' → ∃ t, m (get s) = Done a t ∧ s' = set t s.
Proof. unfold zoom. destruct (m (get s)) as [a' t| |]; [|done..]. intros [= <- <-]. by exists t. Qed.
Lemma kupd_inv {S} (o : S → option S) s a s' : kupd o s = Done a s' → o s = Some s'.
Proof. unfold kupd. destruct (o s); [|done]. by intros [= _ <-]. Qed.
Lemma kopt_inv {S A} (o : S → option A) s a s' : kopt o s = Done a s' → o s = Some a ∧ s' = s.
Proof. unfold kopt. destruct (o s); [|done]. by intros [= <- <-]. Qed.

(** [kinv E as x s F] takes the first step off the run [E]. *)
Tactic Notation "kinv" hyp(E) "as" simple_intropattern(x) simple_intropattern(s) simple_intropattern(F) :=
  apply bind_inv in E as (x & s & F & E); cbv beta in E.

(** The loop [for (i = ...; ...; i++) body], over the list of its indices. *)
Fixpoint kfor {S A} (l : list A) (body : A → K S unit) : K S unit :=
  match l with
  | [] => mret tt
  | x :: l' => body x ≫= λ _, kfor l' body
  end.

(** ** Machine integers *)

Definition u8 (x : Z) : Z := x mod 2 ^ 8.
Definition u16 (x : Z) : Z := x mod 2 ^ 16.
Definition u32 (x : Z) : Z := x mod 2 ^ 32.
Definition u64 (x : Z) : Z := x mod 2 ^ 64.

(** Two's complement reading of the low 32 and 64 bits. *)
Definition i32 (x : Z) : Z :=
  let y := x mod 2 ^ 32 in if y <? 2 ^ 31 then y else y - 2 ^ 32.
Definition i64 (x : Z) : Z :=
  let y := x mod 2 ^ 64 in if y <? 2 ^ 63 then y else y - 2 ^ 64.

Lemma u8_small x : 0 ≤ x < 2 ^ 8 → u8 x = x.
Proof. apply Z.mod_small. Qed.
Lemma u16_small x : 0 ≤ x < 2 ^ 16 → u16 x = x.
Proof. apply Z.mod_small. Qed.
Lemma u32_small x : 0 ≤ x < 2 ^ 32 → u32 x = x.
Proof. apply Z.mod_small. Qed.
Lemma u64_small x : 0 ≤ x < 2 ^ 64 → u64 x = x.
Proof. apply Z.mod_small. Qed.
Lemma u8_range x : 0 ≤ u8 x < 2 ^ 8.
Proof. by apply Z.mod_pos_bound. Qed.
Lemma u16_range x : 0 ≤ u16 x < 2 ^ 16.
Proof. by apply Z.mod_pos_bound. Qed.
Lemma u32_range x : 0 ≤ u32 x < 2 ^ 32.
Proof. by apply Z.mod_pos_bound. Qed.
Lemma u64_range x : 0 ≤ u64 x < 2 ^ 64.
Proof. by apply Z.mod_pos_bound. Qed.
Lemma i32_small z : 0 ≤ z < 2 ^ 31 → i32 z = z.
Proof. intros Hz. unfold i32. rewrite Z.mod_small by lia. destruct (Z.ltb_spec z (2 ^ 31)); [done|lia]. Qed.
Lemma i32_range z : - 2 ^ 31 ≤ i32 z < 2 ^ 31.
Proof. unfold i32. pose proof (Z.mod_pos_bound z (2 ^ 32)). destruct (Z.ltb_spec (z mod 2 ^ 32) (2 ^ 31)); lia. Qed.

(** The ranges of the machine widths. *)
Create HintDb width discriminated.
#[export] Hint Resolve u8_range u16_range u32_range u64_range i32_range : width.

(** [usimpl] drops the wrap-arounds whose argument is in range. *)
Ltac usimpl :=
  repeat match goal with
  | |- context [u64 ?x] => rewrite (u64_small x) by lia
  | |- context [u32 ?x] => rewrite (u32_small x) by lia
  | |- context [u16 ?x] => rewrite (u16_small x) by lia
  | |- context [u8 ?x] => rewrite (u8_small x) by lia
  end.

(** *** Single bits *)

Lemma testbit_shiftl_1 b n : 0 ≤ b → Z.testbit (Z.shiftl 1 b) n = bool_decide (n = b).
Proof.
  intros Hb. rewrite Z.shiftl_1_l.
  destruct (decide (n = b)) as [->|Hne].
  - rewrite Z.pow2_bits_true by done. by rewrite bool_decide_eq_true_2.
  - rewrite Z.pow2_bits_false by done. by rewrite bool_decide_eq_false_2.
Qed.

Lemma testbit_u64 x n : Z.testbit (u64 x) n = bool_decide (n < 64) && Z.testbit x n.
Proof.
  unfold u64. destruct (decide (n < 64)).
  - rewrite bool_decide_eq_true_2 by done. by rewrite Z.mod_pow2_bits_low.
  - rewrite bool_decide_eq_false_2 by done.
    destruct (decide (0 ≤ n)).
    + rewrite Z.mod_pow2_bits_high by lia. done.
    + rewrite Z.testbit_neg_r by lia. done.
Qed.

(** The test [q & (1 << b)]. *)
Lemma land_bit_zero q b :
  0 ≤ b → (Z.land q (Z.shiftl 1 b) =? 0) = negb (Z.testbit q b).
Proof.
  intros Hb. destruct (Z.testbit q b) eqn:E; simpl.
  - apply Z.eqb_neq. intros H0.
    assert (Z.testbit (Z.land q (Z.shiftl 1 b)) b = false) as H1
      by (rewrite H0; apply Z.testbit_0_l).
    rewrite Z.land_spec, E, testbit_shiftl_1 in H1 by done.
    by rewrite bool_decide_eq_true_2 in H1.
  - apply Z.eqb_eq, Z.bits_inj'. intros n Hn.
    rewrite Z.land_spec, testbit_shiftl_1, Z.testbit_0_l by done.
    case_bool_decide; [subst; by rewrite E | apply andb_false_r].
Qed.

(** The test [(q >> b) & 1]. *)
Lemma shiftr_land_1 q b : 0 ≤ b → Z.land (Z.shiftr q b) 1 = Z.b2z (Z.testbit q b).
Proof.
  intros Hb. apply Z.bits_inj'. intros n Hn.
  rewrite Z.land_spec, Z.shiftr_spec by done.
  destruct (decide (n = 0)) as [->|Hn0].
  - rewrite Z.add_0_l. change (Z.testbit 1 0) with true.
    rewrite andb_true_r. by destruct (Z.testbit q b).
  - assert (Z.testbit 1 n = false) as ->.
    { change 1 with (2 ^ 0). by apply Z.pow2_bits_false. }
    rewrite andb_false_r. destruct (Z.testbit q b); simpl.
    + change 1 with (2 ^ 0). by rewrite Z.pow2_bits_false.
    + by rewrite Z.testbit_0_l.
Qed.

Lemma lor_range x y w : 0 ≤ w → 0 ≤ x < 2 ^ w → 0 ≤ y < 2 ^ w → 0 ≤ Z.lor x y < 2 ^ w.
Proof.
  intros Hw Hx Hy. split; [apply Z.lor_nonneg; lia|].
  destruct (decide (Z.lor x y = 0)) as [->|]; [lia|].
  apply Z.log2_lt_pow2; [pose proof (Z.lor_nonneg x y); lia|].
  rewrite Z.log2_lor by lia.
  apply Z.max_lub_lt.
  - destruct (decide (x = 0)) as [->|]; [|apply Z.log2_lt_pow2; lia].
    simpl. destruct (decide (w = 0)) as [->|]; [|lia].
    exfalso. assert (y = 0) as -> by lia. done.
  - destruct (decide (y = 0)) as [->|]; [|apply Z.log2_lt_pow2; lia].
    simpl. destruct (decide (w = 0)) as [->|]; [|lia].
    exfalso. assert (x = 0) as -> by lia. done.
Qed.

(** Joining the halves of a word. *)
Lemma lor_add x y n : 0 ≤ n → 0 ≤ x < 2 ^ n → Z.lor x (y * 2 ^ n) = x + y * 2 ^ n.
Proof.
  intros Hn Hx. assert (Z.land x (y * 2 ^ n) = 0) as Hz.
  { apply Z.bits_inj'. intros i Hi. rewrite Z.land_spec, Z.testbit_0_l.
    destruct (decide (i < n)); [by rewrite Z.mul_pow2_bits_low, andb_false_r|].
    rewrite <-(Z.mod_small x (2 ^ n)), Z.mod_pow2_bits_high by lia. done. }
  by rewrite (Z.add_nocarry_lxor _ _ Hz), (Z.lxor_lor _ _ Hz).
Qed.

(** One bit of a word. *)
Lemma land_bit x k : 0 ≤ k → (Z.land x (2 ^ k) =? 0) = negb (Z.testbit x k).
Proof.
  intros Hk. destruct (Z.testbit x k) eqn:E; simpl.
  - apply Z.eqb_neq. intros H. apply (f_equal (λ z, Z.testbit z k)) in H. by rewrite Z.land_spec, Z.pow2_bits_true, E, Z.testbit_0_l in H.
  - apply Z.eqb_eq, Z.bits_inj'. intros i Hi. rewrite Z.land_spec, Z.testbit_0_l. destruct (decide (i = k)) as [->|]; [by rewrite E|].
    by rewrite Z.pow2_bits_false, andb_false_r by congruence.
Qed.

(** Clearing the low bits with a 64-bit mask rounds down. *)
Lemma land_align x n :
  0 ≤ n ≤ 64 → 0 ≤ x < 2 ^ 64 →
  Z.land x (u64 (Z.lnot (2 ^ n - 1))) = x / 2 ^ n * 2 ^ n.
Proof.
  intros Hn Hx. rewrite <-Z.shiftr_div_pow2, <-Z.shiftl_mul_pow2 by lia.
  rewrite <-Z.ldiff_ones_r by lia. rewrite Z.sub_1_r, <-Z.ones_equiv.
  apply Z.bits_inj'. intros i Hi.
  rewrite Z.land_spec, testbit_u64, Z.lnot_spec, Z.ldiff_spec by lia.
  case_bool_decide; [done|]. simpl. rewrite andb_false_r.
  rewrite (Z.bits_above_log2 x i); [done|lia|].
  destruct (decide (x = 0)) as [->|]; [simpl; lia|].
  assert (Z.log2 x < 64); [apply Z.log2_lt_pow2; lia|lia].
Qed.

(** ** Bytes of words *)

(** The little-endian bytes of a word of [n] bytes, and the word of some bytes. *)
Definition le_bytes (n v : Z) : list Z := (λ i, v / 2 ^ (8 * i) mod 256) <$> seqZ 0 n.
Definition le64 (v : Z) : list Z := le_bytes 8 v.
Definition le_val (l : list Z) : Z := foldr (λ b acc, b + 256 * acc) 0 l.

Lemma le_bytes_length n v : 0 ≤ n → length (le_bytes n v) = Z.to_nat n.
Proof. intros. unfold le_bytes. by rewrite length_fmap, length_seqZ. Qed.

Lemma le_bytes_succ n v : 0 ≤ n → 0 ≤ v → le_bytes (Z.succ n) v = v mod 256 :: le_bytes n (v / 256).
Proof.
  intros Hn Hv. unfold le_bytes. rewrite seqZ_cons, Z.pred_succ by lia. cbn [fmap list_fmap]. f_equal; [by rewrite Z.div_1_r|].
  change (Z.succ 0) with (1 + 0). rewrite <-fmap_add_seqZ, <-list_fmap_compose. apply list_fmap_ext. intros _ i Hi%list_elem_of_lookup_2%elem_of_seqZ.
  simpl. rewrite Z.div_div by lia. do 2 f_equal. change 256 with (2 ^ 8). rewrite <-Z.pow_add_r by lia. f_equal. lia.
Qed.
Lemma le_val_le_bytes n : 0 ≤ n → ∀ v, 0 ≤ v < 2 ^ (8 * n) → le_val (le_bytes n v) = v.
Proof.
  intros Hn. pattern n. apply natlike_ind; [| |done]; clear n Hn.
  - intros v Hv. simpl in *. unfold le_bytes. simpl. lia.
  - intros n Hn IH v Hv. rewrite le_bytes_succ by lia. cbn [le_val foldr]. fold (le_val (le_bytes n (v / 256))).
    rewrite IH; [lia|]. rewrite Z.mul_succ_r, Z.pow_add_r in Hv by lia. change (2 ^ 8) with 256 in Hv.
    remember (2 ^ (8 * n)) as k. nia.
Qed.
Lemma le_bytes_le_val l : Forall (λ b, 0 ≤ b < 256) l → le_bytes (Z.of_nat (length l)) (le_val l) = l.
Proof.
  induction 1 as [|b l Hb Hl IH]; [done|]. cbn [length le_val foldr]. fold (le_val l). rewrite Nat2Z.inj_succ.
  assert (0 ≤ le_val l) by (clear IH; induction Hl as [|c l' Hc _ IH']; simpl; [lia|]; fold (le_val l') in *; lia).
  rewrite le_bytes_succ by lia. replace ((b + 256 * le_val l) mod 256) with b by lia. replace ((b + 256 * le_val l) / 256) with (le_val l) by lia. by rewrite IH.
Qed.
Lemma le_val_le64 v : 0 ≤ v < 2 ^ 64 → le_val (le64 v) = v.
Proof. by apply (le_val_le_bytes 8). Qed.

(** ** Packed strings *)

(** Strings one after the other, each with its NUL, and their offsets. *)
Definition layout (ts : list (list Z)) : list Z := concat ((λ t, t ++ [0]) <$> ts).
(** The offsets of the arguments in the layout. *)
Fixpoint offsets (o : nat) (ts : list (list Z)) : list Z :=
  match ts with
  | [] => []
  | t :: ts' => Z.of_nat o :: offsets (o + S (length t)) ts'
  end.

Lemma layout_snoc ts t : layout (ts ++ [t]) = layout ts ++ t ++ [0].
Proof. unfold layout. rewrite fmap_app, concat_app. cbn. by rewrite app_nil_r. Qed.
Lemma offsets_snoc ts t : ∀ o, offsets o (ts ++ [t]) = offsets o ts ++ [Z.of_nat (o + length (layout ts))].
Proof.
  induction ts as [|u ts IH]; intros o; cbn; [by rewrite Nat.add_0_r|]. rewrite IH. unfold layout. cbn. rewrite !length_app. cbn. do 4 f_equal. lia.
Qed.
Lemma offsets_length ts : ∀ o, length (offsets o ts) = length ts.
Proof. induction ts as [|t ts IH]; intros o; cbn; [done|]. by rewrite IH. Qed.

(** The string [t] is at offset [a] of an array, with its NUL. *)
Definition string_at (line : list Z) (a : Z) (t : list Z) : Prop :=
  0 ≤ a ∧ 0 ∉ t ∧ ∃ r, drop (Z.to_nat a) line = t ++ 0 :: r.
Lemma layout_strings ts : ∀ pre R, Forall (λ t, 0 ∉ t) ts → Forall2 (string_at (pre ++ layout ts ++ R)) (offsets (length pre) ts) ts.
Proof.
  induction ts as [|t ts IH]; intros pre R Ht; [by constructor|]. apply Forall_cons in Ht as [Ht0 Ht]. cbn [offsets]. constructor.
  - split_and!; [lia|done|]. rewrite Nat2Z.id, drop_app_length. unfold layout. cbn. rewrite <-!app_assoc. by eexists.
  - replace (length pre + S (length t))%nat with (length (pre ++ t ++ [0])) by (rewrite !length_app; cbn; lia).
    replace (pre ++ layout (t :: ts) ++ R) with ((pre ++ t ++ [0]) ++ layout ts ++ R); [by apply IH|].
    unfold layout. cbn. by rewrite <-!app_assoc.
Qed.

(** ** Arrays *)

(** C arrays are lists indexed by [Z]; an access outside them is [None]. *)
Definition zget {A} (l : list A) (i : Z) : option A :=
  if i <? 0 then None else l !! Z.to_nat i.
Definition zset {A} (l : list A) (i : Z) (x : A) : option (list A) :=
  if (0 <=? i) && (i <? Z.of_nat (length l)) then Some (<[Z.to_nat i := x]> l)
  else None.

Section arrays.
Context {A : Type}.
Implicit Types (l : list A) (i : Z).

Lemma zget_is_Some l i : is_Some (zget l i) ↔ 0 ≤ i < Z.of_nat (length l).
Proof.
  unfold zget. destruct (i <? 0) eqn:E.
  - split; [by intros [? ?]|lia].
  - rewrite lookup_lt_is_Some. lia.
Qed.
Lemma zget_Some_range l i x : zget l i = Some x → 0 ≤ i < Z.of_nat (length l).
Proof. intros H. apply zget_is_Some. eauto. Qed.
Lemma zget_lt l i : 0 ≤ i < Z.of_nat (length l) → ∃ x, zget l i = Some x.
Proof. intros H. by apply zget_is_Some in H. Qed.
Lemma zget_nat l (i : nat) : zget l (Z.of_nat i) = l !! i.
Proof. unfold zget. destruct (Z.ltb_spec (Z.of_nat i) 0); [lia|]. by rewrite Nat2Z.id. Qed.

Lemma zset_lt l i x :
  0 ≤ i < Z.of_nat (length l) → zset l i x = Some (<[Z.to_nat i := x]> l).
Proof.
  intros [H1%Z.leb_le H2%Z.ltb_lt]. unfold zset. by rewrite H1, H2.
Qed.
Lemma zset_Some l i x l' :
  zset l i x = Some l' ↔ 0 ≤ i < Z.of_nat (length l) ∧ l' = <[Z.to_nat i := x]> l.
Proof.
  unfold zset. destruct (Z.leb_spec 0 i), (Z.ltb_spec i (Z.of_nat (length l))); simpl;
    split; try (intros [= <-]; split; [lia|done]); intros; destruct_and?; try lia;
    naive_solver.
Qed.
Lemma length_zset l i x l' : zset l i x = Some l' → length l' = length l.
Proof. intros [_ ->]%zset_Some. apply length_insert. Qed.
Lemma zget_zset_eq l i x l' : zset l i x = Some l' → zget l' i = Some x.
Proof.
  intros [H ->]%zset_Some. unfold zget. destruct (i <? 0) eqn:E; [lia|].
  apply list_lookup_insert_eq. lia.
Qed.
Lemma zget_zset_ne l i j x l' : zset l i x = Some l' → i ≠ j → zget l' j = zget l j.
Proof.
  intros [H ->]%zset_Some Hne. unfold zget. destruct (j <? 0) eqn:E; [done|].
  apply list_lookup_insert_ne. lia.
Qed.
End arrays.

(** ** Buffers *)

(** The bytes of a buffer from an offset, and the buffer with others in their place; [None] outside it. *)
Definition part (l : list Z) (off n : Z) : option (list Z) :=
  if (0 <=? off) && (0 <=? n) && (off + n <=? Z.of_nat (length l)) then Some (take (Z.to_nat n) (drop (Z.to_nat off) l)) else None.
Definition patch (l : list Z) (off : Z) (new : list Z) : option (list Z) :=
  if (0 <=? off) && (off + Z.of_nat (length new) <=? Z.of_nat (length l))
  then Some (take (Z.to_nat off) l ++ new ++ drop (Z.to_nat off + length new) l) else None.

Section buffers.
Context {A : Type}.
Implicit Types (l : list A).

(** The list [l] with [b] in the place of the elements from number [off]. *)
Definition write_at l (off : nat) (b : list A) : list A := take off l ++ b ++ drop (off + length b) l.

Lemma write_at_nil l off : write_at l off [] = l.
Proof. unfold write_at. cbn. by rewrite Nat.add_0_r, take_drop. Qed.
Lemma length_write_at l off b : (off + length b ≤ length l)%nat → length (write_at l off b) = length l.
Proof. intros. unfold write_at. rewrite !length_app, length_take, length_drop. lia. Qed.
Lemma write_at_app_l l l' off b : (off + length b ≤ length l)%nat → write_at (l ++ l') off b = write_at l off b ++ l'.
Proof. intros. unfold write_at. rewrite take_app_le, drop_app_le by lia. by rewrite <-!app_assoc. Qed.
Lemma write_at_app_r l l' off b : write_at (l ++ l') (length l + off) b = l ++ write_at l' off b.
Proof.
  unfold write_at. rewrite take_app_ge, drop_app_ge by lia. rewrite <-!app_assoc. do 2 f_equal; [f_equal; lia|]. f_equal. f_equal. lia.
Qed.
Lemma write_at_seq l off b c : (off + length b + length c ≤ length l)%nat →
  write_at (write_at l off b) (off + length b) c = write_at l off (b ++ c).
Proof.
  intros. unfold write_at at 1. rewrite <-(Nat.add_0_r (off + length b)) at 1 2.
  assert (length (take off l ++ b) = (off + length b)%nat) as Hl by (rewrite length_app, length_take; lia).
  unfold write_at. rewrite (app_assoc (take off l) b). rewrite <-Hl at 1 2. rewrite take_app_add, drop_app_ge by lia.
  rewrite take_0, app_nil_r, <-!app_assoc. do 3 f_equal. rewrite Hl, drop_drop, length_app. f_equal. lia.
Qed.
Lemma write_at_take l off b : (off + length b ≤ length l)%nat → take (length b) (drop off (write_at l off b)) = b.
Proof.
  intros. unfold write_at. rewrite drop_app_ge by (rewrite length_take; lia). rewrite length_take.
  replace (off - off `min` length l)%nat with 0%nat by lia. by rewrite drop_0, take_app_length.
Qed.
Lemma write_at_take_ne l off b k n : (off + length b ≤ length l)%nat → (k + n ≤ off ∨ off + length b ≤ k)%nat →
  take n (drop k (write_at l off b)) = take n (drop k l).
Proof.
  intros Hl Hk. apply list_eq. intros i. destruct (decide (i < n)%nat); [|by rewrite !lookup_take_ge by lia].
  rewrite !lookup_take_lt, !lookup_drop by lia. unfold write_at. destruct Hk.
  - rewrite lookup_app_l by (rewrite length_take; lia). by rewrite lookup_take_lt by lia.
  - rewrite app_assoc, lookup_app_r by (rewrite length_app, length_take; lia). rewrite lookup_drop, length_app, length_take. f_equal. lia.
Qed.
Lemma write_at_take_in l off b k n : (off ≤ k)%nat → (k + n ≤ off + length b)%nat → (off ≤ length l)%nat →
  take n (drop k (write_at l off b)) = take n (drop (k - off) b).
Proof.
  intros H1 H2 H3. unfold write_at. rewrite drop_app_ge by (rewrite length_take; lia). rewrite length_take.
  replace (off `min` length l)%nat with off by lia. rewrite drop_app_le by lia. apply take_app_le. rewrite length_drop. lia.
Qed.
End buffers.
Lemma part_ok (l : list Z) off n : 0 ≤ off → 0 ≤ n → off + n ≤ Z.of_nat (length l) → part l off n = Some (take (Z.to_nat n) (drop (Z.to_nat off) l)).
Proof.
  intros. unfold part. destruct (Z.leb_spec 0 off); [|lia]. destruct (Z.leb_spec 0 n); [|lia].
  by destruct (Z.leb_spec (off + n) (Z.of_nat (length l))); [|lia].
Qed.
Lemma patch_ok (l : list Z) off b : 0 ≤ off → off + Z.of_nat (length b) ≤ Z.of_nat (length l) →
  patch l off b = Some (write_at l (Z.to_nat off) b).
Proof. intros H1 H2. unfold patch, write_at. by rewrite (proj2 (Z.leb_le _ _) H1), (proj2 (Z.leb_le _ _) H2). Qed.

(** ** Lists of consecutive integers *)

#[global] Arguments seqZ : simpl never.
#[global] Arguments Z.shiftl : simpl never.
#[global] Arguments Z.shiftr : simpl never.
#[global] Arguments Z.land : simpl never.
#[global] Arguments Z.lor : simpl never.
#[global] Arguments Z.of_nat : simpl never.
#[global] Arguments replicate : simpl never.

Lemma seqZ_snoc m n : 0 ≤ n → seqZ m (n + 1) = seqZ m n ++ [m + n].
Proof.
  intros Hn. rewrite seqZ_app by lia. done.
Qed.

(** ** Loops *)

Lemma kfor_app {S A} (l1 l2 : list A) (body : A → K S unit) s :
  kfor (l1 ++ l2) body s = (kfor l1 body ≫= λ _, kfor l2 body) s.
Proof.
  revert s. induction l1 as [|x l1 IH]; intros s; [done|].
  simpl. unfold mbind, K_bind. destruct (body x s); [|done..]. by rewrite IH.
Qed.

Lemma kfor_fmap {S A B} (f : A → B) (l : list A) (body : B → K S unit) s :
  kfor (f <$> l) body s = kfor l (λ x, body (f x)) s.
Proof.
  revert s. induction l as [|x l IH]; intros s; [done|]. simpl.
  unfold mbind, K_bind. destruct (body (f x) s); [apply IH|done..].
Qed.
Lemma kfor_ext {S A} (l : list A) (b1 b2 : A → K S unit) s :
  (∀ x s, x ∈ l → b1 x s = b2 x s) → kfor l b1 s = kfor l b2 s.
Proof.
  revert s. induction l as [|x l IH]; intros s Hb; [done|]. simpl.
  unfold mbind, K_bind. rewrite Hb by set_solver. destruct (b2 x s); [|done..].
  apply IH. intros y s' Hy. apply Hb. set_solver.
Qed.

(** A loop that keeps an invariant indexed by the iterations already done. *)
Lemma kfor_ind {S A} (P : list A → S → Prop) (body : A → K S unit) l s :
  P [] s →
  (∀ done x rest s, l = done ++ x :: rest → P done s →
     ∃ s', body x s = Done tt s' ∧ P (done ++ [x]) s') →
  ∃ s', kfor l body s = Done tt s' ∧ P l s'.
Proof.
  intros H0 Hstep.
  assert (∀ rest dn s, l = dn ++ rest → P dn s →
    ∃ s', kfor rest body s = Done tt s' ∧ P l s') as Hgen.
  { clear H0 s. induction rest as [|x rest IH]; intros dn s Hl HP.
    - rewrite app_nil_r in Hl. subst. by exists s.
    - destruct (Hstep dn x rest s Hl HP) as (s1 & Hb & HP1).
      destruct (IH (dn ++ [x]) s1) as (s2 & Hk & HP2).
      { by rewrite <-app_assoc. } { done. }
      exists s2. split; [|done]. simpl. unfold mbind, K_bind. by rewrite Hb. }
  by apply (Hgen l []).
Qed.

(** A loop over consecutive integers, with the invariant indexed by the next one. *)
Lemma kfor_seqZ_ind {S} (P : Z → S → Prop) (body : Z → K S unit) m n s :
  0 ≤ n → P m s →
  (∀ i s, m ≤ i < m + n → P i s → ∃ s', body i s = Done tt s' ∧ P (i + 1) s') →
  ∃ s', kfor (seqZ m n) body s = Done tt s' ∧ P (m + n) s'.
Proof.
  intros Hn H0 Hstep.
  destruct (kfor_ind (λ dn s, P (m + Z.of_nat (length dn)) s) body (seqZ m n) s)
    as (s' & Hk & HP).
  - by rewrite Z.add_0_r.
  - intros dn x rest s0 Hl HP.
    assert (x = m + Z.of_nat (length dn) ∧ Z.of_nat (length dn) < n) as [-> Hlt].
    { apply lookup_seqZ. rewrite Hl. by apply list_lookup_middle. }
    destruct (Hstep (m + Z.of_nat (length dn)) s0) as (s1 & Hb & HP1); [lia|done|].
    exists s1. split; [done|]. rewrite length_app. simpl.
    by replace (m + Z.of_nat (length dn + 1)) with (m + Z.of_nat (length dn) + 1) by lia.
  - exists s'. split; [done|]. rewrite length_seqZ in HP. by rewrite Z2Nat.id in HP.
Qed.

(** Unfold the monad on the goal. *)
Ltac kunfold := unfold mbind, mret, K_bind, K_ret, kget, kmod, kopt, kupd, zoom.
