(* ===== verification/Spinlock.v ===== *)
(** * Spinlocks

    [kernel/proc/spinlock.h] as one CPU sees it.  Acquiring a lock saves the
    processor flags, clears the interrupt flag and takes the lock; a lock that
    is already taken can never be released while this CPU spins with interrupts
    off, so on this CPU the acquire does not return.  Releasing restores the
    flags saved by the acquire. *)
From S2P Require Import Prelude.

Record Spinlock : Type := { locked : Z; saved_flags : Z }.

Definition SPINLOCK_INIT : Spinlock := {| locked := 0; saved_flags := 0 |}.

(** RFLAGS.IF is bit 9; [cli] clears it. *)
Definition cli (rflags : Z) : Z := Z.land rflags (u64 (Z.lnot 0x200)).

Definition spinlock_acquire (lock : Spinlock) (rflags : Z) : option (Spinlock * Z) :=
  if locked lock =? 0
  then Some ({| locked := 1; saved_flags := rflags |}, cli rflags)
  else None.

Definition spinlock_release (lock : Spinlock) : Spinlock * Z :=
  ({| locked := 0; saved_flags := saved_flags lock |}, saved_flags lock).

Lemma spinlock_acquire_free lock rflags :
  locked lock = 0 →
  spinlock_acquire lock rflags = Some ({| locked := 1; saved_flags := rflags |}, cli rflags).
Proof. intros H. unfold spinlock_acquire. by rewrite H. Qed.
