(* ===== verification/PageAlloc.v ===== *)
(** * The page allocator interface

    What the physical memory manager promises to its clients (the virtual
    memory manager, the kernel heap, the ELF loader): [pmm_alloc_page] hands out
    a frame that was free, or 0 when there is none, and [pmm_free_page] gives a
    frame back.  The clients are verified against this class; [Pmm] is an
    instance. *)
From S2P Require Import Prelude.

Definition PAGE_SIZE : Z := 4096.

(** Result of an allocation over the set of free frame numbers: the address of
    the lowest free frame, or 0 and no change when no frame is free. *)
Definition alloc_spec (F : gset Z) (r : Z) (F' : gset Z) : Prop :=
  (F = ∅ ∧ r = 0 ∧ F' = F) ∨
  ∃ p, p ∈ F ∧ (∀ q, q ∈ F → p ≤ q) ∧ r = p * 4096 ∧ F' = F ∖ {[p]}.

(** Result of a release: the frame becomes free if it is one of the managed
    frames and not frame 0. *)
Definition free_spec (total : Z) (F : gset Z) (addr : Z) (F' : gset Z) : Prop :=
  F' = if decide (0 < addr / 4096 < total) then {[addr / 4096]} ∪ F else F.

Class PageAlloc (S : Type) : Type := {
  pa_alloc_page : K S Z;
  pa_free_page : Z → K S unit;
  pa_ok : S → Prop;
  pa_total : S → Z;
  pa_free : S → gset Z;
  pa_frames s p : pa_ok s → p ∈ pa_free s → 0 < p < pa_total s;
  pa_total_le s : pa_ok s → pa_total s ≤ 2 ^ 40;
  pa_alloc_law s : pa_ok s →
    ∃ r s', pa_alloc_page s = Done r s' ∧ pa_ok s' ∧ pa_total s' = pa_total s ∧
      alloc_spec (pa_free s) r (pa_free s');
  pa_free_law s addr : pa_ok s → 0 ≤ addr →
    ∃ s', pa_free_page addr s = Done tt s' ∧ pa_ok s' ∧ pa_total s' = pa_total s ∧
      free_spec (pa_total s) (pa_free s) addr (pa_free s');
}.
