(* ===== verification/Pmm.v ===== *)
(** * The physical memory manager

    [kernel/mm/pmm.c]: a bitmap with one bit per physical page (1 = allocated),
    a count of free pages and a spinlock.  The file models every function of
    the component, proves that they keep the invariant [pmm_ok], and shows that
    they implement an allocator over the abstract set [free_set] of free page
    numbers. *)
From S2P Require Import Prelude Spinlock PageAlloc.

Definition PAGE_ALIGN_UP (x : Z) : Z :=
  Z.land (u64 (u64 (x + PAGE_SIZE) - 1)) (u64 (Z.lnot (PAGE_SIZE - 1))).
Definition PAGE_ALIGN_DOWN (x : Z) : Z := Z.land x (u64 (Z.lnot (PAGE_SIZE - 1))).

Definition BITS_PER_QWORD : Z := 64.

(** ** Boot memory map *)

Definition MEMMAP_USABLE : Z := 0.

Record MemoryMapEntry : Type := { base : Z; length_ : Z; type_ : Z }.

(** The fields of [BootInfo] the memory managers read. *)
Record BootInfo : Type := {
  memory_map : list MemoryMapEntry;
  bi_hhdm_offset : Z;
  kernel_phys_base : Z;
}.

(** ** State *)

Record Pmm : Type := mkPmm {
  pmm_lock : Spinlock;
  cpu_flags : Z;              (* RFLAGS of the CPU that runs the code *)
  bitmap : list Z;            (* qwords *)
  bitmap_size : Z;            (* in bytes *)
  total_pages : Z;
  free_pages : Z;
  highest_addr : Z;
  hhdm_offset : Z;
}.

Definition set_lock (l : Spinlock) (f : Z) (s : Pmm) : Pmm :=
  mkPmm l f (bitmap s) (bitmap_size s) (total_pages s) (free_pages s)
    (highest_addr s) (hhdm_offset s).
Definition set_bitmap (bm : list Z) (s : Pmm) : Pmm :=
  mkPmm (pmm_lock s) (cpu_flags s) bm (bitmap_size s) (total_pages s) (free_pages s)
    (highest_addr s) (hhdm_offset s).
Definition set_free_pages (n : Z) (s : Pmm) : Pmm :=
  mkPmm (pmm_lock s) (cpu_flags s) (bitmap s) (bitmap_size s) (total_pages s) n
    (highest_addr s) (hhdm_offset s).

Definition pmm_acquire : K Pmm unit :=
  kupd (λ s, '(l, f) ← spinlock_acquire (pmm_lock s) (cpu_flags s); Some (set_lock l f s)).
Definition pmm_release : K Pmm unit :=
  kmod (λ s, let '(l, f) := spinlock_release (pmm_lock s) in set_lock l f s).

(** ** Bitmap helpers *)

Definition pmm_bitmap_set (bm : list Z) (bit : Z) : option (list Z) :=
  q ← zget bm (bit / BITS_PER_QWORD);
  zset bm (bit / BITS_PER_QWORD) (Z.lor q (Z.shiftl 1 (bit mod BITS_PER_QWORD))).

Definition pmm_bitmap_clear (bm : list Z) (bit : Z) : option (list Z) :=
  q ← zget bm (bit / BITS_PER_QWORD);
  zset bm (bit / BITS_PER_QWORD)
    (Z.land q (u64 (Z.lnot (Z.shiftl 1 (bit mod BITS_PER_QWORD))))).

Definition pmm_bitmap_test (bm : list Z) (bit : Z) : option Z :=
  q ← zget bm (bit / BITS_PER_QWORD);
  Some (Z.land (Z.shiftr q (bit mod BITS_PER_QWORD)) 1).

(** The inner loop of [bitmap_find_first_free]: [Some r] when it returns [r]. *)
Fixpoint ffs_bits (q qword_idx total : Z) (bits : list Z) : option Z :=
  match bits with
  | [] => None
  | bit_idx :: rest =>
      let page := u64 (u64 (qword_idx * BITS_PER_QWORD) + bit_idx) in
      if total <=? page then Some total
      else if Z.land q (Z.shiftl 1 bit_idx) =? 0 then Some page
      else ffs_bits q qword_idx total rest
  end.

(** Its outer loop; [None] when it reads outside the bitmap. *)
Fixpoint ffs_qwords (bm : list Z) (total : Z) (qwords : list Z) : option Z :=
  match qwords with
  | [] => Some total
  | qword_idx :: rest =>
      q ← zget bm qword_idx;
      if q =? u64 (-1) then ffs_qwords bm total rest
      else match ffs_bits q qword_idx total (seqZ 0 BITS_PER_QWORD) with
           | Some r => Some r
           | None => ffs_qwords bm total rest
           end
  end.

Definition bitmap_find_first_free (s : Pmm) : option Z :=
  ffs_qwords (bitmap s) (total_pages s) (seqZ 0 (bitmap_size s / 8)).

(** The loop of [bitmap_find_contiguous], from its variables. *)
Fixpoint fc_loop (bm : list Z) (count total : Z) (pages : list Z)
    (run_start run_length : Z) : option Z :=
  match pages with
  | [] => Some total
  | i :: rest =>
      b ← pmm_bitmap_test bm i;
      if b =? 0 then
        let run_start := if run_length =? 0 then i else run_start in
        let run_length := u64 (run_length + 1) in
        if count <=? run_length then Some run_start
        else fc_loop bm count total rest run_start run_length
      else fc_loop bm count total rest run_start 0
  end.

Definition bitmap_find_contiguous (count : Z) (s : Pmm) : option Z :=
  fc_loop (bitmap s) count (total_pages s) (seqZ 0 (total_pages s)) 0 0.

(** ** Initialisation *)

Fixpoint pmm_find_bitmap_region (map : list MemoryMapEntry) (size : Z) : Z :=
  match map with
  | [] => 0
  | e :: rest =>
      if (type_ e =? MEMMAP_USABLE) && (size <=? length_ e) then
        let addr := PAGE_ALIGN_UP (base e) in
        if u64 (addr + size) <=? u64 (base e + length_ e) then addr
        else pmm_find_bitmap_region rest size
      else pmm_find_bitmap_region rest size
  end.

(** Pass 1: the highest end of a region. *)
Definition pmm_highest (map : list MemoryMapEntry) : Z :=
  fold_left (λ h e, let top := u64 (base e + length_ e) in if h <? top then top else h) map 0.

Definition pmm_set_used (page : Z) : K Pmm unit :=
  kupd (λ s, bm ← pmm_bitmap_set (bitmap s) page; Some (set_bitmap bm s)).
Definition pmm_set_unused (page : Z) : K Pmm unit :=
  kupd (λ s, bm ← pmm_bitmap_clear (bitmap s) page; Some (set_bitmap bm s)).
Definition add_free_pages (d : Z) : K Pmm unit :=
  kmod (λ s, set_free_pages (u64 (free_pages s + d)) s).

(** Pass 3 on one entry of the map. *)
Definition pmm_free_entry (e : MemoryMapEntry) : K Pmm unit :=
  if negb (type_ e =? MEMMAP_USABLE) then mret tt else
  let start_page := u64 (u64 (base e + PAGE_SIZE) - 1) / PAGE_SIZE in
  let end_page := u64 (base e + length_ e) / PAGE_SIZE in
  kfor (seqZ start_page (end_page - start_page)) (λ p,
    pmm_set_unused p;; add_free_pages 1).

(** [if (page is free) mark it allocated], the common shape of the reservations. *)
Definition pmm_reserve (page : Z) : K Pmm unit :=
  b ← kopt (λ s, pmm_bitmap_test (bitmap s) page);
  if b =? 0 then pmm_set_used page;; add_free_pages (-1) else mret tt.

Definition pmm_init (info : BootInfo) : K Pmm unit :=
  let highest := pmm_highest (memory_map info) in
  let total := highest / PAGE_SIZE in
  let size := u64 (u64 (u64 (total + BITS_PER_QWORD) - 1) / BITS_PER_QWORD * 8) in
  let bitmap_phys := pmm_find_bitmap_region (memory_map info) size in
  kmod (λ s, mkPmm (pmm_lock s) (cpu_flags s) (bitmap s) size total (free_pages s)
               highest (bi_hhdm_offset info));;
  if bitmap_phys =? 0 then kpanic else
  kmod (λ s, set_free_pages 0 (set_bitmap (replicate (Z.to_nat (size / 8)) (u64 (-1))) s));;
  kfor (memory_map info) pmm_free_entry;;
  (if 0 <? total then pmm_reserve 0 else mret tt);;
  let bitmap_pages := u64 (u64 (size + PAGE_SIZE) - 1) / PAGE_SIZE in
  let bitmap_start_page := bitmap_phys / PAGE_SIZE in
  kfor (seqZ 0 bitmap_pages) (λ p,
    let page := u64 (bitmap_start_page + p) in
    if page <? total then pmm_reserve page else mret tt).

(** ** Allocation *)

Definition pmm_alloc_page : K Pmm Z :=
  pmm_acquire;;
  fp ← kget free_pages;
  if fp =? 0 then pmm_release;; mret 0 else
  page ← kopt bitmap_find_first_free;
  total ← kget total_pages;
  if total <=? page then pmm_release;; mret 0 else
  pmm_set_used page;;
  add_free_pages (-1);;
  pmm_release;;
  mret (u64 (page * PAGE_SIZE)).

Definition pmm_free_page (phys_addr : Z) : K Pmm unit :=
  let page := phys_addr / PAGE_SIZE in
  total ← kget total_pages;
  if (page =? 0) || (total <=? page) then mret tt else
  pmm_acquire;;
  b ← kopt (λ s, pmm_bitmap_test (bitmap s) page);
  (if negb (b =? 0) then pmm_set_unused page;; add_free_pages 1 else mret tt);;
  pmm_release.

Definition pmm_alloc_contiguous (count : Z) : K Pmm Z :=
  pmm_acquire;;
  fp ← kget free_pages;
  if (count =? 0) || (fp <? count) then pmm_release;; mret 0 else
  start ← kopt (bitmap_find_contiguous count);
  total ← kget total_pages;
  if total <=? start then pmm_release;; mret 0 else
  kfor (seqZ 0 count) (λ i, pmm_set_used (u64 (start + i));; add_free_pages (-1));;
  pmm_release;;
  mret (u64 (start * PAGE_SIZE)).

Definition pmm_get_total_pages (s : Pmm) : Z := total_pages s.
Definition pmm_get_free_pages (s : Pmm) : Z := free_pages s.

(** ** The bitmap as a set of pages *)

(** A page outside the bitmap counts as used. *)
Definition page_used (bm : list Z) (p : Z) : bool :=
  match zget bm (p / BITS_PER_QWORD) with
  | Some q => Z.testbit q (p mod BITS_PER_QWORD)
  | None => true
  end.

Definition free_set_of (bm : list Z) (total : Z) : gset Z :=
  list_to_set (filter (λ p, page_used bm p = false) (seqZ 0 total)).
Definition free_set (s : Pmm) : gset Z := free_set_of (bitmap s) (total_pages s).

(** The bitmap has a bit for each page and holds 64-bit words. *)
Definition bitmap_wf (bm : list Z) (total : Z) : Prop :=
  total ≤ BITS_PER_QWORD * Z.of_nat (length bm) < 2 ^ 64 ∧ Forall (λ q, 0 ≤ q < 2 ^ 64) bm.

(** What holds at every point, also inside the critical sections. *)
Record pmm_core (s : Pmm) : Prop := {
  ok_wf : bitmap_wf (bitmap s) (total_pages s);
  ok_size : bitmap_size s = 8 * Z.of_nat (length (bitmap s));
  ok_total : 0 ≤ total_pages s ≤ 2 ^ 40;  (* physical addresses have 52 bits *)
  ok_count : free_pages s = Z.of_nat (size (free_set s));
}.

(** The invariant of the component between two calls: moreover page 0 is never
    free (its address is the failure value) and the lock is free. *)
Record pmm_ok (s : Pmm) : Prop := {
  ok_core : pmm_core s;
  ok_page0 : 0 ∉ free_set s;
  ok_lock : locked (pmm_lock s) = 0;
}.

Lemma elem_of_free_set_of bm total p :
  p ∈ free_set_of bm total ↔ 0 ≤ p < total ∧ page_used bm p = false.
Proof.
  unfold free_set_of. rewrite elem_of_list_to_set, list_elem_of_filter, elem_of_seqZ. naive_solver.
Qed.

Lemma elem_of_free_set s p :
  p ∈ free_set s ↔ 0 ≤ p < total_pages s ∧ page_used (bitmap s) p = false.
Proof. apply elem_of_free_set_of. Qed.

Lemma page_div_mod p b :
  0 ≤ p → 0 ≤ b → p / 64 = b / 64 ∧ p mod 64 = b mod 64 ↔ p = b.
Proof.
  intros Hp Hb. split; [|by intros ->]. intros [H1 H2].
  by rewrite (Z.div_mod p 64), (Z.div_mod b 64), H1, H2.
Qed.

Section bitmap.
Context (bm : list Z) (total : Z) (Hwf : bitmap_wf bm total).
Implicit Types (p b : Z).

Lemma bitmap_word b : 0 ≤ b < total → ∃ q, zget bm (b / 64) = Some q ∧ 0 ≤ q < 2 ^ 64.
Proof.
  intros Hb. destruct Hwf as [Hlen Hall]. unfold BITS_PER_QWORD in *.
  destruct (zget_lt bm (b / 64)) as [q Hq]; [lia|].
  exists q. split; [done|]. rewrite Forall_forall in Hall. apply Hall.
  unfold zget in Hq. destruct (b / 64 <? 0); [done|]. by eapply list_elem_of_lookup_2.
Qed.

Lemma bitmap_test_spec b :
  0 ≤ b < total → pmm_bitmap_test bm b = Some (Z.b2z (page_used bm b)).
Proof.
  intros Hb. destruct (bitmap_word b Hb) as (q & Hq & _).
  unfold pmm_bitmap_test, page_used, BITS_PER_QWORD. rewrite Hq. simpl.
  by rewrite shiftr_land_1 by lia.
Qed.

(** Both updates replace a word by one that differs in a single bit. *)
Lemma bitmap_upd_spec b q v (f : bool) :
  0 ≤ b < total → zget bm (b / 64) = Some q → 0 ≤ v < 2 ^ 64 →
  (∀ n, 0 ≤ n < 64 → Z.testbit v n = if decide (n = b mod 64) then f else Z.testbit q n) →
  ∃ bm', zset bm (b / 64) v = Some bm' ∧ bitmap_wf bm' total ∧ length bm' = length bm ∧
    ∀ p, 0 ≤ p → page_used bm' p = if decide (p = b) then f else page_used bm p.
Proof.
  intros Hb Hq Hv Hbits. pose proof (zget_Some_range _ _ _ Hq) as Hr.
  exists (<[Z.to_nat (b / 64) := v]> bm). pose proof (zset_lt bm (b / 64) v Hr) as Hset.
  split; [done|]. split_and!.
  - destruct Hwf as [Hlen Hall]. split; [by rewrite length_insert|].
    apply Forall_insert; done.
  - by rewrite length_insert.
  - intros p Hp. unfold page_used, BITS_PER_QWORD.
    destruct (decide (b / 64 = p / 64)) as [Heq|Hne].
    + rewrite <-Heq, (zget_zset_eq _ _ _ _ Hset), Hq, Hbits by lia.
      pose proof (page_div_mod p b). repeat case_decide; naive_solver lia.
    + rewrite (zget_zset_ne _ _ _ _ _ Hset Hne).
      rewrite decide_False; [done|]. naive_solver.
Qed.

Lemma bitmap_set_spec b :
  0 ≤ b < total →
  ∃ bm', pmm_bitmap_set bm b = Some bm' ∧ bitmap_wf bm' total ∧ length bm' = length bm ∧
    ∀ p, 0 ≤ p → page_used bm' p = if decide (p = b) then true else page_used bm p.
Proof.
  intros Hb. destruct (bitmap_word b Hb) as (q & Hq & Hqr).
  unfold pmm_bitmap_set, BITS_PER_QWORD. rewrite Hq. simpl.
  apply (bitmap_upd_spec b q); [done|done| |].
  - apply lor_range; [lia|lia|]. rewrite Z.shiftl_1_l.
    split; [apply Z.pow_nonneg; lia|apply Z.pow_lt_mono_r; lia].
  - intros n Hn. rewrite Z.lor_spec, testbit_shiftl_1 by lia.
    case_decide; case_bool_decide; try congruence.
    + apply orb_true_r. + apply orb_false_r.
Qed.

Lemma bitmap_clear_spec b :
  0 ≤ b < total →
  ∃ bm', pmm_bitmap_clear bm b = Some bm' ∧ bitmap_wf bm' total ∧ length bm' = length bm ∧
    ∀ p, 0 ≤ p → page_used bm' p = if decide (p = b) then false else page_used bm p.
Proof.
  intros Hb. destruct (bitmap_word b Hb) as (q & Hq & Hqr).
  unfold pmm_bitmap_clear, BITS_PER_QWORD. rewrite Hq. simpl.
  apply (bitmap_upd_spec b q); [done|done| |].
  - split; [apply Z.land_nonneg; lia|].
    destruct (decide (Z.land q (u64 (Z.lnot (Z.shiftl 1 (b mod 64)))) = 0)) as [->|]; [lia|].
    apply Z.log2_lt_pow2.
    { pose proof (Z.land_nonneg q (u64 (Z.lnot (Z.shiftl 1 (b mod 64))))). lia. }
    pose proof (u64_range (Z.lnot (Z.shiftl 1 (b mod 64)))).
    eapply Z.le_lt_trans; [apply Z.log2_land; lia|].
    destruct (decide (q = 0)) as [->|]; [simpl; lia|].
    apply Z.min_lt_iff. left. apply Z.log2_lt_pow2; lia.
  - intros n Hn. rewrite Z.land_spec, testbit_u64, Z.lnot_spec, testbit_shiftl_1 by lia.
    rewrite bool_decide_eq_true_2 by lia. simpl.
    case_decide; case_bool_decide; simpl; try congruence.
    + apply andb_false_r. + apply andb_true_r.
Qed.
End bitmap.

(** ** The searches *)

Section search.
Context (bm : list Z) (total : Z) (Hwf : bitmap_wf bm total).
Implicit Types (p b r : Z).

Definition least_free_from (lo r : Z) : Prop :=
  r ≤ total ∧ (∀ p, lo ≤ p < r → page_used bm p = true) ∧
  (r < total → lo ≤ r ∧ page_used bm r = false).

Lemma page_used_word qi q b :
  zget bm qi = Some q → 0 ≤ b < 64 → page_used bm (qi * 64 + b) = Z.testbit q b.
Proof.
  intros Hq Hb. unfold page_used, BITS_PER_QWORD.
  replace ((qi * 64 + b) / 64) with qi by lia.
  replace ((qi * 64 + b) mod 64) with b by lia. by rewrite Hq.
Qed.

Lemma ffs_bits_spec qi q (n : nat) b :
  zget bm qi = Some q → 0 ≤ b → b + Z.of_nat n = 64 →
  match ffs_bits q qi total (seqZ b (Z.of_nat n)) with
  | Some r => least_free_from (qi * 64 + b) r
  | None => ∀ p, qi * 64 + b ≤ p < qi * 64 + 64 → page_used bm p = true
  end.
Proof using Hwf.
  intros Hq. pose proof (zget_Some_range _ _ _ Hq) as Hr.
  unfold least_free_from. destruct Hwf as [Hlen _]. unfold BITS_PER_QWORD in *.
  revert b. induction n as [|n IH]; intros b Hb Hn; simpl; [intros; lia|].
  rewrite seqZ_cons by lia.
  replace (Z.pred (Z.of_nat (S n))) with (Z.of_nat n) by lia. simpl.
  unfold BITS_PER_QWORD. usimpl.
  destruct (Z.leb_spec total (qi * 64 + b)); simpl.
  { split_and!; [lia|intros; lia|lia]. }
  rewrite land_bit_zero by lia.
  pose proof (page_used_word qi q b Hq ltac:(lia)) as Hpu.
  destruct (Z.testbit q b); simpl.
  - specialize (IH (Z.succ b) ltac:(lia) ltac:(lia)).
    replace (qi * 64 + Z.succ b) with (qi * 64 + b + 1) in IH by lia.
    assert (∀ p, qi * 64 + b ≤ p → p = qi * 64 + b ∨ qi * 64 + b + 1 ≤ p) by lia.
    destruct (ffs_bits _ _ _ _) as [r|].
    + destruct IH as (? & Hused & Hfree). split_and!; [lia| |naive_solver lia].
      intros p Hp. destruct (decide (p = qi * 64 + b)) as [->|]; [done|]. apply Hused. lia.
    + intros p Hp. destruct (decide (p = qi * 64 + b)) as [->|]; [done|]. apply IH. lia.
  - split_and!; [lia|intros; lia|done].
Qed.

Local Arguments ffs_bits : simpl never.

(** A word of ones has no free page. *)
Lemma full_word_used qi q p :
  zget bm qi = Some q → q = u64 (-1) → qi * 64 ≤ p < qi * 64 + 64 → page_used bm p = true.
Proof.
  intros Hq -> Hp. replace p with (qi * 64 + (p - qi * 64)) by lia.
  rewrite (page_used_word _ _ _ Hq) by lia.
  change (u64 (-1)) with (Z.ones 64). apply Z.ones_spec_low. lia.
Qed.

Lemma ffs_qwords_spec (n : nat) i :
  0 ≤ i → i + Z.of_nat n = Z.of_nat (length bm) →
  ∃ r, ffs_qwords bm total (seqZ i (Z.of_nat n)) = Some r ∧ least_free_from (i * 64) r.
Proof using Hwf.
  unfold least_free_from.
  revert i. induction n as [|n IH]; intros i Hi Hn; simpl.
  { exists total. split; [done|]. destruct Hwf as [Hlen _]. unfold BITS_PER_QWORD in *.
    split_and!; [lia| |lia]. intros p Hp. lia. }
  rewrite seqZ_cons by lia.
  replace (Z.pred (Z.of_nat (S n))) with (Z.of_nat n) by lia. simpl.
  destruct (zget_lt bm i) as [q Hq]; [lia|]. rewrite Hq. simpl.
  destruct (IH (Z.succ i)) as (r & Hr & Hleast); [lia..|].
  assert ((∀ p, i * 64 ≤ p < i * 64 + 64 → page_used bm p = true) →
    r ≤ total ∧ (∀ p, i * 64 ≤ p < r → page_used bm p = true) ∧
    (r < total → i * 64 ≤ r ∧ page_used bm r = false)) as Hext.
  { intros Hused. destruct Hleast as (? & Hu & Hf). split_and!; [done| |naive_solver lia].
    intros p Hp. destruct (decide (p < i * 64 + 64)); [apply Hused|apply Hu]; lia. }
  destruct (Z.eqb_spec q (u64 (-1))) as [Hones|Hones].
  { exists r. split; [done|]. apply Hext. intros p. by apply (full_word_used i q). }
  pose proof (ffs_bits_spec i q 64 0 Hq) as Hbits. rewrite Z.add_0_r in Hbits.
  change (Z.of_nat 64) with BITS_PER_QWORD in Hbits.
  specialize (Hbits ltac:(lia) eq_refl).
  destruct (ffs_bits q i total (seqZ 0 BITS_PER_QWORD)) as [r'|].
  - exists r'. split; [done|]. by apply Hbits.
  - exists r. split; [done|]. by apply Hext.
Qed.
End search.

Lemma find_first_free_spec s :
  pmm_core s →
  ∃ r, bitmap_find_first_free s = Some r ∧
    least_free_from (bitmap s) (total_pages s) 0 r.
Proof.
  intros [Hwf Hsize _ _]. unfold bitmap_find_first_free.
  replace (bitmap_size s / 8) with (Z.of_nat (length (bitmap s))) by lia.
  by apply (ffs_qwords_spec _ _ Hwf _ 0).
Qed.

Definition run_free (bm : list Z) (start count : Z) : Prop :=
  ∀ p, start ≤ p < start + count → page_used bm p = false.

(** [r] starts the first run of [count] free pages, or is [total] if there is none. *)
Definition first_run (bm : list Z) (total count r : Z) : Prop :=
  (∀ r', 0 ≤ r' < r → r' + count ≤ total → ¬ run_free bm r' count) ∧
  (r = total ∨ 0 ≤ r ∧ r + count ≤ total ∧ run_free bm r count).

Lemma fc_loop_spec bm total count (n : nat) i rs rl :
  bitmap_wf bm total → 0 < count →
  0 ≤ i → i + Z.of_nat n = total →
  0 ≤ rl < count → rl ≤ i → (rl ≠ 0 → rs = i - rl) → run_free bm (i - rl) rl →
  (∀ r', 0 ≤ r' < i - rl → ¬ run_free bm r' count) →
  ∃ r, fc_loop bm count total (seqZ i (Z.of_nat n)) rs rl = Some r ∧
       first_run bm total count r.
Proof.
  intros Hwf Hc. destruct Hwf as [Hlen Hall] eqn:E. clear E. unfold BITS_PER_QWORD in Hlen.
  revert i rs rl. induction n as [|n IH]; intros i rs rl Hi Hn Hrl Hrli Hrs Hrun Hno.
  { rewrite seqZ_nil by lia. exists total. split; [done|]. split; [|by left].
    intros r' Hr' Hfit. apply Hno. lia. }
  rewrite seqZ_cons by lia. replace (Z.pred (Z.of_nat (S n))) with (Z.of_nat n) by lia.
  cbn [fc_loop]. rewrite (bitmap_test_spec _ _ Hwf) by lia. simpl.
  destruct (page_used bm i) eqn:Hi_used; simpl.
  - destruct (IH (Z.succ i) rs 0) as (r & Hr & Hfirst); [lia..| |intros p Hp; lia| |by exists r].
    + by intros [].
    + intros r' Hr'. destruct (decide (r' < i - rl)); [apply Hno; lia|].
      intros Hf. rewrite (Hf i) in Hi_used by lia. done.
  - set (rs' := if rl =? 0 then i else rs).
    assert (rs' = i - rl) as ->.
    { unfold rs'. destruct (Z.eqb_spec rl 0); [lia|auto]. }
    rewrite u64_small by lia.
    assert (run_free bm (i - rl) (rl + 1)) as Hrun'.
    { intros p Hp. destruct (decide (p = i)) as [->|]; [done|]. apply Hrun. lia. }
    destruct (Z.leb_spec count (rl + 1)).
    + exists (i - rl). split; [done|]. assert (rl + 1 = count) as <- by lia.
      split; [intros r' Hr' _; by apply Hno|]. right. split_and!; [lia..|done].
    + destruct (IH (Z.succ i) (i - rl) (rl + 1)) as (r & Hr & Hfirst); [lia..| | |by exists r].
      * by replace (Z.succ i - (rl + 1)) with (i - rl) by lia.
      * by replace (Z.succ i - (rl + 1)) with (i - rl) by lia.
Qed.

Lemma find_contiguous_spec s count :
  pmm_core s → 0 < count →
  ∃ r, bitmap_find_contiguous count s = Some r ∧
       first_run (bitmap s) (total_pages s) count r.
Proof.
  intros Hok Hc. unfold bitmap_find_contiguous. pose proof (ok_total _ Hok) as [Ht _].
  replace (seqZ 0 (total_pages s)) with (seqZ 0 (Z.of_nat (Z.to_nat (total_pages s))))
    by (f_equal; lia).
  apply fc_loop_spec; try apply Hok; try lia; intros ? ?; lia.
Qed.

(** ** Changing one page *)

(** The fields neither allocation nor release changes. *)
Definition pmm_frame (s : Pmm) : Spinlock * Z * Z * Z * Z * Z :=
  (pmm_lock s, cpu_flags s, bitmap_size s, total_pages s, highest_addr s, hhdm_offset s).

Lemma pmm_frame_inv s s' :
  pmm_frame s = pmm_frame s' →
  pmm_lock s = pmm_lock s' ∧ cpu_flags s = cpu_flags s' ∧ total_pages s = total_pages s'.
Proof. unfold pmm_frame. by intros [= -> -> _ -> _ _]. Qed.

Lemma size_free_set_of_le bm total : 0 ≤ total → Z.of_nat (size (free_set_of bm total)) ≤ total.
Proof.
  intros Ht. transitivity (Z.of_nat (length (seqZ 0 total))); [|rewrite length_seqZ; lia].
  apply Nat2Z.inj_le. unfold free_set_of. rewrite size_list_to_set.
  - apply length_filter.
  - apply NoDup_filter, NoDup_seqZ.
Qed.

Lemma free_set_of_upd bm bm' total b (f : bool) :
  (∀ p, 0 ≤ p → page_used bm' p = if decide (p = b) then f else page_used bm p) →
  0 ≤ b < total →
  free_set_of bm' total =
    if f then free_set_of bm total ∖ {[b]} else {[b]} ∪ free_set_of bm total.
Proof.
  intros Hupd Hb. apply set_eq. intros p. rewrite elem_of_free_set_of.
  destruct f; rewrite ?elem_of_difference, ?elem_of_union, elem_of_singleton, elem_of_free_set_of;
    (destruct (decide (0 ≤ p)); [rewrite Hupd by done; case_decide; naive_solver|naive_solver lia]).
Qed.

Lemma set_used_spec s p :
  pmm_core s → p ∈ free_set s →
  ∃ s', (pmm_set_used p;; add_free_pages (-1)) s = Done tt s' ∧ pmm_core s' ∧
    free_set s' = free_set s ∖ {[p]} ∧ pmm_frame s' = pmm_frame s.
Proof.
  intros [Hwf Hsize Htot Hcnt] Hp. pose proof Hp as [Hpr Hpu]%elem_of_free_set.
  destruct (bitmap_set_spec _ _ Hwf p Hpr) as (bm' & Hset & Hwf' & Hlen & Hupd).
  pose proof (free_set_of_upd _ _ _ _ true Hupd Hpr) as Hfs. simpl in Hfs.
  pose proof (size_free_set_of_le (bitmap s) (total_pages s) ltac:(lia)) as Hle.
  assert (size (free_set s) = S (size (free_set s ∖ {[p]}))) as Hsz.
  { rewrite size_difference by set_solver. rewrite size_singleton.
    assert (size (free_set s) ≠ 0%nat); [|lia].
    apply size_non_empty_iff. set_solver. }
  eexists. split_and!.
  - kunfold. unfold pmm_set_used, add_free_pages. kunfold. rewrite Hset. reflexivity.
  - split; simpl; [done|lia|done|]. unfold free_set. simpl. rewrite Hfs.
    unfold free_set in *. unfold PAGE_SIZE in *. rewrite u64_small by lia. lia.
  - done.
  - done.
Qed.

Lemma set_unused_spec s p :
  pmm_core s → 0 ≤ p < total_pages s → p ∉ free_set s →
  ∃ s', (pmm_set_unused p;; add_free_pages 1) s = Done tt s' ∧ pmm_core s' ∧
    free_set s' = {[p]} ∪ free_set s ∧ pmm_frame s' = pmm_frame s.
Proof.
  intros [Hwf Hsize Htot Hcnt] Hpr Hp.
  destruct (bitmap_clear_spec _ _ Hwf p Hpr) as (bm' & Hset & Hwf' & Hlen & Hupd).
  pose proof (free_set_of_upd _ _ _ _ false Hupd Hpr) as Hfs. simpl in Hfs.
  pose proof (size_free_set_of_le (bitmap s) (total_pages s) ltac:(lia)) as Hle.
  assert (size ({[p]} ∪ free_set s) = S (size (free_set s))) as Hsz.
  { rewrite size_union by set_solver. by rewrite size_singleton. }
  eexists. split_and!.
  - kunfold. unfold pmm_set_unused, add_free_pages. kunfold. rewrite Hset. reflexivity.
  - split; simpl; [done|lia|done|]. unfold free_set. simpl. rewrite Hfs.
    unfold free_set in *. unfold PAGE_SIZE in *. rewrite u64_small by lia. lia.
  - done.
  - done.
Qed.

Lemma test_spec s p :
  pmm_core s → 0 ≤ p < total_pages s →
  pmm_bitmap_test (bitmap s) p = Some (Z.b2z (bool_decide (p ∉ free_set s))).
Proof.
  intros Hcore Hp. rewrite (bitmap_test_spec _ _ (ok_wf _ Hcore)) by done. do 2 f_equal.
  destruct (page_used (bitmap s) p) eqn:E.
  - rewrite bool_decide_eq_true_2; [done|]. rewrite elem_of_free_set, E. by intros [_ [=]].
  - rewrite bool_decide_eq_false_2; [done|]. rewrite elem_of_free_set, E. by intros [].
Qed.

(** Entering and leaving the critical section. *)
Lemma pmm_core_lock l f s : pmm_core (set_lock l f s) ↔ pmm_core s.
Proof. by split; intros []. Qed.
Lemma pmm_acquire_spec s :
  locked (pmm_lock s) = 0 →
  pmm_acquire s =
    Done tt (set_lock {| locked := 1; saved_flags := cpu_flags s |} (cli (cpu_flags s)) s).
Proof. intros H. unfold pmm_acquire. kunfold. by rewrite spinlock_acquire_free. Qed.

(** ** Allocation and release *)

Lemma pmm_ok_frames s p : pmm_ok s → p ∈ free_set s → 0 < p < total_pages s.
Proof.
  intros [_ H0 _] Hp. pose proof Hp as [? _]%elem_of_free_set.
  destruct (decide (p = 0)) as [->|]; [done|lia].
Qed.

(** Leaving the critical section that [pmm_acquire] entered restores the flags. *)
Lemma pmm_release_spec s s0 l :
  pmm_core s → 0 ∉ free_set s →
  pmm_frame s = pmm_frame (set_lock {| locked := 1; saved_flags := cpu_flags s0 |} l s0) →
  ∃ s', pmm_release s = Done tt s' ∧ pmm_ok s' ∧ cpu_flags s' = cpu_flags s0 ∧
    total_pages s' = total_pages s0 ∧ free_set s' = free_set s.
Proof.
  intros Hcore H0 Hframe. unfold pmm_frame in Hframe. simpl in Hframe. simplify_eq.
  eexists. split; [reflexivity|]. split_and!; simpl; [|by destruct (pmm_lock s); simplify_eq..|done].
  split; [by apply pmm_core_lock|done|done].
Qed.

Lemma alloc_page_lemma s :
  pmm_ok s →
  ∃ r s', pmm_alloc_page s = Done r s' ∧ pmm_ok s' ∧ cpu_flags s' = cpu_flags s ∧
    total_pages s' = total_pages s ∧ alloc_spec (free_set s) r (free_set s').
Proof.
  intros [Hcore H0 Hlock]. unfold pmm_alloc_page.
  kbind (pmm_acquire_spec s Hlock). set (sl := set_lock _ _ s).
  assert (pmm_core sl) as Hcl by by apply pmm_core_lock.
  assert (free_set sl = free_set s) as Hfl by done.
  rewrite kget_bind. destruct (Z.eqb_spec (free_pages sl) 0) as [Hz|Hz].
  { destruct (pmm_release_spec sl s (cli (cpu_flags s))) as (s' & Hr & Hok & Hf & Ht & Hfs); [done..|].
    exists 0, s'. kbind Hr. split_and!; [done..|]. left.
    rewrite Hfs, Hfl. split_and!; [|done|done]. apply leibniz_equiv, size_empty_inv.
    rewrite (ok_count _ Hcl) in Hz. rewrite Hfl in Hz. lia. }
  destruct (find_first_free_spec sl Hcl) as (p & Hp & Hle & Hused & Hfree).
  rewrite (kopt_bind _ _ _ _ Hp), kget_bind.
  destruct (Z.leb_spec (total_pages sl) p) as [Hge|Hlt].
  { exfalso. apply Hz. rewrite (ok_count _ Hcl).
    assert (free_set sl = ∅) as ->; [|by rewrite size_empty].
    apply elem_of_equiv_empty_L. intros q [Hq Hqu]%elem_of_free_set.
    rewrite Hused in Hqu by lia. done. }
  destruct (Hfree Hlt) as [Hp0 Hpu].
  assert (p ∈ free_set sl) as Hpf by (by apply elem_of_free_set).
  destruct (set_used_spec sl p Hcl Hpf) as (s1 & Hs1 & Hc1 & Hfs1 & Hfr1).
  destruct (pmm_release_spec s1 s (cli (cpu_flags s))) as (s' & Hr & Hok & Hf & Ht & Hfs).
  { done. } { rewrite Hfs1. set_solver. } { done. }
  exists (u64 (p * PAGE_SIZE)), s'. rewrite <-bind_assoc. kbind Hs1. kbind Hr.
  split_and!; [done..|]. right. exists p. rewrite <-Hfl. split_and!.
  - done.
  - intros q [Hq Hqu]%elem_of_free_set. destruct (decide (q < p)); [|lia].
    rewrite Hused in Hqu by lia. done.
  - pose proof (ok_total _ Hcl). unfold PAGE_SIZE. by rewrite u64_small by lia.
  - by rewrite Hfs.
Qed.

Lemma free_page_lemma s addr :
  pmm_ok s → 0 ≤ addr →
  ∃ s', pmm_free_page addr s = Done tt s' ∧ pmm_ok s' ∧ cpu_flags s' = cpu_flags s ∧
    total_pages s' = total_pages s ∧
    free_spec (total_pages s) (free_set s) addr (free_set s').
Proof.
  intros Hok Haddr. pose proof Hok as [Hcore H0 Hlock].
  unfold pmm_free_page, free_spec. rewrite kget_bind. unfold PAGE_SIZE.
  set (p := addr / 4096). assert (0 ≤ p) by lia.
  destruct (Z.eqb_spec p 0), (Z.leb_spec (total_pages s) p); simpl;
    [exists s; rewrite decide_False by lia; split_and!; done..|].
  rewrite decide_True by lia. kbind (pmm_acquire_spec s Hlock). set (sl := set_lock _ _ s).
  assert (pmm_core sl) as Hcl by by apply pmm_core_lock.
  rewrite (kopt_bind (λ s, pmm_bitmap_test (bitmap s) p) _ sl _
    (test_spec sl p Hcl ltac:(simpl; lia))).
  assert (∃ s1, (if negb (Z.b2z (bool_decide (p ∉ free_set sl)) =? 0)
      then pmm_set_unused p;; add_free_pages 1 else mret tt) sl = Done tt s1 ∧
      pmm_core s1 ∧ free_set s1 = {[p]} ∪ free_set sl ∧ pmm_frame s1 = pmm_frame sl)
    as (s1 & Hs1 & Hc1 & Hfs1 & Hfr1).
  { case_bool_decide as Hin; simpl.
    - apply set_unused_spec; [done|simpl; lia|done].
    - exists sl. split_and!; [done|done| |done]. set_solver. }
  destruct (pmm_release_spec s1 s (cli (cpu_flags s))) as (s' & Hr & Hok' & Hf & Ht & Hfs).
  { done. }
  { rewrite Hfs1. change (free_set sl) with (free_set s). set_solver by lia. }
  { done. }
  exists s'. kbind Hs1. split_and!; [done..|]. by rewrite Hfs, Hfs1.
Qed.

#[export] Instance pmm_page_alloc : PageAlloc Pmm := {|
  pa_alloc_page := pmm_alloc_page;
  pa_free_page := pmm_free_page;
  pa_ok := pmm_ok;
  pa_total := total_pages;
  pa_free := free_set;
  pa_frames := pmm_ok_frames;
  pa_total_le s Hs := proj2 (ok_total s (ok_core s Hs));
  pa_alloc_law s Hs := let '(ex_intro _ r (ex_intro _ s' (conj H1 (conj H2 (conj _ H3))))) :=
    alloc_page_lemma s Hs in ex_intro _ r (ex_intro _ s' (conj H1 (conj H2 H3)));
  pa_free_law s addr Hs Ha := let '(ex_intro _ s' (conj H1 (conj H2 (conj _ H3)))) :=
    free_page_lemma s addr Hs Ha in ex_intro _ s' (conj H1 (conj H2 H3));
|}.

(** ** Runs of pages *)

Definition pages (start count : Z) : gset Z := list_to_set (seqZ start count).

Lemma elem_of_pages p start count : p ∈ pages start count ↔ start ≤ p < start + count.
Proof. unfold pages. by rewrite elem_of_list_to_set, elem_of_seqZ. Qed.
Lemma pages_snoc start n : 0 ≤ n → pages start (n + 1) = {[start + n]} ∪ pages start n.
Proof. intros. apply set_eq. intros p. rewrite elem_of_union, elem_of_singleton, !elem_of_pages. lia. Qed.
Lemma pages_nil start n : n ≤ 0 → pages start n = ∅.
Proof. intros. apply set_eq. intros p. rewrite elem_of_pages. split; [lia|by intros ?%not_elem_of_empty]. Qed.
Lemma size_pages start n : Z.of_nat (size (pages start n)) = Z.max 0 n.
Proof.
  unfold pages. rewrite size_list_to_set by apply NoDup_seqZ. rewrite length_seqZ. lia.
Qed.

Lemma run_free_pages s start count :
  0 ≤ start → 0 < count →
  pages start count ⊆ free_set s ↔
  start + count ≤ total_pages s ∧ run_free (bitmap s) start count.
Proof.
  intros Hs Hc. split.
  - intros Hsub. assert (start + count - 1 ∈ free_set s) as [? _]%elem_of_free_set.
    { apply Hsub, elem_of_pages. lia. }
    split; [lia|]. intros p Hp. by apply (elem_of_free_set s), Hsub, elem_of_pages.
  - intros [Hle Hrun] p Hp%elem_of_pages. apply elem_of_free_set. split; [lia|by apply Hrun].
Qed.

Lemma alloc_contiguous_loop s start count :
  pmm_core s → 0 ≤ start → 0 < count → pages start count ⊆ free_set s →
  ∃ s', kfor (seqZ 0 count) (λ i, pmm_set_used (u64 (start + i));; add_free_pages (-1)) s
      = Done tt s' ∧
    pmm_core s' ∧ free_set s' = free_set s ∖ pages start count ∧ pmm_frame s' = pmm_frame s.
Proof.
  intros Hcore Hst Hc Hsub. pose proof (ok_total _ Hcore) as Ht.
  apply (kfor_seqZ_ind (λ i s', pmm_core s' ∧ free_set s' = free_set s ∖ pages start i ∧
    pmm_frame s' = pmm_frame s)); [lia| |].
  - split_and!; [done| |done]. rewrite pages_nil by lia. set_solver.
  - intros i s1 Hi (Hc1 & Hf1 & Hfr1).
    assert (start + i ∈ free_set s) as Hin by (apply Hsub, elem_of_pages; lia).
    pose proof Hin as [? _]%elem_of_free_set. rewrite u64_small by lia.
    destruct (set_used_spec s1 (start + i)) as (s2 & Hs2 & Hc2 & Hf2 & Hfr2).
    { done. } { rewrite Hf1, elem_of_difference, elem_of_pages. split; [done|lia]. }
    exists s2. split_and!; [done|done| |by rewrite Hfr2].
    rewrite Hf2, Hf1, pages_snoc by lia. set_solver.
Qed.

Lemma alloc_contiguous_lemma s count :
  pmm_ok s → 0 ≤ count →
  ∃ r s', pmm_alloc_contiguous count s = Done r s' ∧ pmm_ok s' ∧
    cpu_flags s' = cpu_flags s ∧ total_pages s' = total_pages s ∧
    ((r = 0 ∧ free_set s' = free_set s ∧
      (count = 0 ∨ ∀ start, 0 ≤ start → ¬ pages start count ⊆ free_set s)) ∨
     (∃ start, 0 < start ∧ r = start * PAGE_SIZE ∧ pages start count ⊆ free_set s ∧
      (∀ start', 0 ≤ start' < start → ¬ pages start' count ⊆ free_set s) ∧
      free_set s' = free_set s ∖ pages start count)).
Proof.
  intros [Hcore H0 Hlock] Hc. unfold pmm_alloc_contiguous.
  kbind (pmm_acquire_spec s Hlock). set (sl := set_lock _ _ s).
  assert (pmm_core sl) as Hcl by by apply pmm_core_lock.
  destruct (pmm_release_spec sl s (cli (cpu_flags s))) as (s0 & Hr0 & Hok0 & Hf0 & Ht0 & Hfs0); [done..|].
  rewrite kget_bind.
  destruct (decide (count = 0 ∨ free_pages sl < count)) as [Hfail|Hgo].
  { replace ((count =? 0) || (free_pages sl <? count)) with true by lia.
    exists 0, s0. kbind Hr0. split_and!; [done..|]. left. split_and!; [done|done|].
    destruct (decide (count = 0)); [by left|right]. intros start _ Hsub%subseteq_size.
    pose proof (size_pages start count). rewrite (ok_count _ Hcl) in Hfail.
    change (free_set sl) with (free_set s) in Hfail. lia. }
  replace ((count =? 0) || (free_pages sl <? count)) with false by lia.
  destruct (find_contiguous_spec sl count Hcl) as (r & Hr & Hfirst & Hres); [lia|].
  assert (∀ start, 0 ≤ start < r → ¬ pages start count ⊆ free_set s) as Hmin.
  { intros start Hst [? ?]%run_free_pages; [|lia..]. by apply (Hfirst start). }
  rewrite (kopt_bind _ _ _ _ Hr), kget_bind.
  destruct (Z.leb_spec (total_pages sl) r) as [Hge|Hlt].
  { exists 0, s0. kbind Hr0. split_and!; [done..|]. left. split_and!; [done|done|]. right.
    intros start Hst Hsub. apply (Hmin start); [|done]. split; [done|].
    apply run_free_pages in Hsub; [|lia..]. change (total_pages sl) with (total_pages s) in *. lia. }
  destruct Hres as [->|(Hr0' & Hfit & Hrun)]; [lia|].
  assert (pages r count ⊆ free_set s) as Hsub by (apply run_free_pages; [lia..|done]).
  assert (r ≠ 0) as Hrne.
  { intros ->. apply H0, Hsub, elem_of_pages. lia. }
  destruct (alloc_contiguous_loop sl r count Hcl Hr0') as (s1 & Hs1 & Hc1 & Hfs1 & Hfr1); [lia|done|].
  destruct (pmm_release_spec s1 s (cli (cpu_flags s))) as (s' & Hrel & Hok' & Hf & Ht & Hfs).
  { done. } { rewrite Hfs1. set_solver. } { done. }
  exists (u64 (r * PAGE_SIZE)), s'. kbind Hs1. kbind Hrel. split_and!; [done..|].
  right. exists r. pose proof (ok_total _ Hcl). unfold PAGE_SIZE in *. rewrite u64_small by lia.
  split_and!; [lia|done|done|done|]. by rewrite Hfs.
Qed.

(** ** Initialisation *)

Lemma PAGE_ALIGN_UP_spec x :
  0 ≤ x → x + PAGE_SIZE ≤ 2 ^ 64 → PAGE_ALIGN_UP x = (x + 4095) / 4096 * 4096.
Proof.
  unfold PAGE_ALIGN_UP, PAGE_SIZE. intros H0 H1.
  destruct (decide (x + 4096 = 2 ^ 64)) as [He|Hne].
  - rewrite He. replace x with (2 ^ 64 - 4096) by lia. done.
  - rewrite !(u64_small (x + 4096)), (u64_small (x + 4096 - 1)) by lia.
    change 4096 with (2 ^ 12) at 2. rewrite land_align by lia.
    replace (x + 4096 - 1) with (x + 4095) by lia. done.
Qed.

Definition is_usable (e : MemoryMapEntry) : Prop := type_ e = MEMMAP_USABLE.
#[export] Instance is_usable_dec e : Decision (is_usable e) := decide (type_ e = MEMMAP_USABLE).

(** The pages that lie entirely in a usable entry. *)
Definition entry_pages (e : MemoryMapEntry) : gset Z :=
  if decide (is_usable e)
  then pages ((base e + 4095) / 4096) ((base e + length_ e) / 4096 - (base e + 4095) / 4096)
  else ∅.
Definition usable_pages (map : list MemoryMapEntry) : gset Z :=
  foldr (λ e F, entry_pages e ∪ F) ∅ map.

(** Size in bytes of the bitmap for a map, and where it is put. *)
Definition map_total (map : list MemoryMapEntry) : Z := pmm_highest map / PAGE_SIZE.
Definition map_bitmap_size (map : list MemoryMapEntry) : Z := (map_total map + 63) / 64 * 8.
Definition map_bitmap_phys (map : list MemoryMapEntry) : Z :=
  pmm_find_bitmap_region map (map_bitmap_size map).

(** What the boot protocol promises of the memory map: entries are within the
    52-bit physical address space and usable entries do not overlap. *)
Definition entry_ok (e : MemoryMapEntry) : Prop :=
  0 ≤ base e ∧ 0 ≤ length_ e ∧ base e + length_ e ≤ 2 ^ 52.
Definition entries_disjoint (e1 e2 : MemoryMapEntry) : Prop :=
  is_usable e1 → is_usable e2 →
  base e1 + length_ e1 ≤ base e2 ∨ base e2 + length_ e2 ≤ base e1.
Fixpoint memmap_ok (map : list MemoryMapEntry) : Prop :=
  match map with
  | [] => True
  | e :: rest => entry_ok e ∧ Forall (entries_disjoint e) rest ∧ memmap_ok rest
  end.

Lemma memmap_ok_app m1 e m2 :
  memmap_ok (m1 ++ e :: m2) → entry_ok e ∧ Forall (λ e1, entries_disjoint e1 e) m1.
Proof.
  induction m1 as [|e1 m1 IH]; simpl.
  - intros (? & _ & _). by split.
  - intros (? & Hall & Hok). destruct (IH Hok) as [He Hd]. split; [done|].
    constructor; [|done]. rewrite Forall_app, Forall_cons in Hall. naive_solver.
Qed.

Lemma usable_pages_app m1 m2 : usable_pages (m1 ++ m2) = usable_pages m1 ∪ usable_pages m2.
Proof. induction m1 as [|e m1 IH]; simpl; [set_solver|]. rewrite IH. set_solver. Qed.

Lemma elem_of_usable_pages p map :
  p ∈ usable_pages map ↔ ∃ e, e ∈ map ∧ p ∈ entry_pages e.
Proof.
  induction map as [|e m IH]; simpl; [set_solver|].
  rewrite elem_of_union, IH. setoid_rewrite elem_of_cons. naive_solver.
Qed.

Lemma elem_of_entry_pages p e :
  p ∈ entry_pages e ↔
  is_usable e ∧ base e ≤ p * 4096 ∧ (p + 1) * 4096 ≤ base e + length_ e.
Proof.
  unfold entry_pages. case_decide; [|set_solver]. rewrite elem_of_pages. split.
  - intros. split_and!; [done|lia..].
  - intros (? & ? & ?). lia.
Qed.

Lemma pmm_highest_ge h map :
  let f h e := let top := u64 (base e + length_ e) in if h <? top then top else h in
  Forall entry_ok map → 0 ≤ h ≤ 2 ^ 52 →
  h ≤ fold_left f map h ≤ 2 ^ 52 ∧
  Forall (λ e, base e + length_ e ≤ fold_left f map h) map.
Proof.
  intros f. revert h. induction map as [|e m IH]; intros h Hall Hh; simpl; [split; [lia|done]|].
  apply Forall_cons in Hall as [(? & ? & ?) Hall].
  assert (f h e = Z.max h (base e + length_ e)) as ->.
  { unfold f. rewrite u64_small by lia. destruct (Z.ltb_spec h (base e + length_ e)); lia. }
  destruct (IH (Z.max h (base e + length_ e)) Hall ltac:(lia)) as [? ?].
  split; [lia|]. constructor; [lia|done].
Qed.

Lemma memmap_ok_entries map : memmap_ok map → Forall entry_ok map.
Proof. induction map as [|e m IH]; simpl; [done|]. intros (? & _ & ?). constructor; auto. Qed.

Lemma map_total_spec map :
  memmap_ok map →
  0 ≤ map_total map ≤ 2 ^ 40 ∧
  ∀ p, p ∈ usable_pages map → 0 ≤ p < map_total map.
Proof.
  intros Hok. pose proof (memmap_ok_entries _ Hok) as Hall.
  assert (0 ≤ pmm_highest map ≤ 2 ^ 52 ∧ Forall (λ e, base e + length_ e ≤ pmm_highest map) map)
    as [Hr Htop] by (apply (pmm_highest_ge 0 map Hall); lia).
  unfold map_total, PAGE_SIZE. split; [lia|].
  intros p (e & He & (_ & ? & ?)%elem_of_entry_pages)%elem_of_usable_pages.
  rewrite Forall_forall in Hall, Htop. specialize (Hall _ He). specialize (Htop _ He).
  destruct Hall as (? & ? & ?). lia.
Qed.

Lemma free_entry_spec s e F :
  pmm_core s → free_set s = F → entry_ok e → (is_usable e → base e + length_ e ≤ (total_pages s + 1) * 4096 - 1) →
  entry_pages e ## F →
  ∃ s', pmm_free_entry e s = Done tt s' ∧ pmm_core s' ∧
    free_set s' = entry_pages e ∪ F ∧ pmm_frame s' = pmm_frame s.
Proof.
  intros Hcore HF (Hb & Hl & Hm) Htop Hdis. unfold pmm_free_entry, MEMMAP_USABLE, PAGE_SIZE.
  unfold entry_pages in *. destruct (Z.eqb_spec (type_ e) 0) as [Hu|Hu]; simpl.
  2:{ rewrite decide_False in * by done. exists s. split_and!; [done|done|set_solver|done]. }
  rewrite decide_True in * by done. specialize (Htop Hu).
  rewrite !u64_small by (rewrite ?u64_small; lia).
  replace (base e + 4096 - 1) with (base e + 4095) by lia.
  set (st := (base e + 4095) / 4096) in *. set (en := (base e + length_ e) / 4096) in *.
  destruct (decide (en - st < 0)).
  { rewrite seqZ_nil by lia. exists s. rewrite pages_nil by lia. split_and!; [done|done|set_solver|done]. }
  destruct (kfor_seqZ_ind (λ i s', pmm_core s' ∧ free_set s' = pages st (i - st) ∪ F ∧
    pmm_frame s' = pmm_frame s) (λ p, pmm_set_unused p;; add_free_pages 1) st (en - st) s)
    as (s' & Hk & Hc' & Hf' & Hfr'); [lia| | |].
  - rewrite pages_nil by lia. split_and!; [done|set_solver|done].
  - intros i s1 Hi (Hc1 & Hf1 & Hfr1).
    assert (total_pages s1 = total_pages s) as Htot by (by apply pmm_frame_inv in Hfr1 as (_ & _ & ?)).
    destruct (set_unused_spec s1 i) as (s2 & Hs2 & Hc2 & Hf2 & Hfr2); [done|lia| |].
    { rewrite Hf1, elem_of_union, elem_of_pages. intros [?|HiF]; [lia|].
      apply (Hdis i); [|done]. apply elem_of_pages. lia. }
    exists s2. split_and!; [done|done| |by rewrite Hfr2].
    rewrite Hf2, Hf1. replace (i + 1 - st) with (i - st + 1) by lia.
    rewrite pages_snoc by lia. replace (st + (i - st)) with i by lia. set_solver.
  - exists s'. replace (st + (en - st) - st) with (en - st) in Hf' by lia. done.
Qed.

Lemma reserve_spec s p :
  pmm_core s → 0 ≤ p < total_pages s →
  ∃ s', pmm_reserve p s = Done tt s' ∧ pmm_core s' ∧
    free_set s' = free_set s ∖ {[p]} ∧ pmm_frame s' = pmm_frame s.
Proof.
  intros Hcore Hp. unfold pmm_reserve.
  rewrite (kopt_bind (λ s, pmm_bitmap_test (bitmap s) p) _ s _ (test_spec s p Hcore Hp)).
  case_bool_decide as Hin; simpl.
  - exists s. split_and!; [done|done|set_solver|done].
  - apply set_used_spec; [done|]. by destruct (decide (p ∈ free_set s)).
Qed.

(** The reservation loop over the pages of the bitmap. *)
Lemma reserve_loop_spec s start n :
  pmm_core s → 0 ≤ start → 0 ≤ n → start + n < 2 ^ 64 →
  ∃ s', kfor (seqZ 0 n) (λ p, let page := u64 (start + p) in
          if page <? total_pages s then pmm_reserve page else mret tt) s = Done tt s' ∧
    pmm_core s' ∧ free_set s' = free_set s ∖ pages start n ∧ pmm_frame s' = pmm_frame s.
Proof.
  intros Hcore Hst Hn Hw.
  apply (kfor_seqZ_ind (λ i s', pmm_core s' ∧ free_set s' = free_set s ∖ pages start i ∧
    pmm_frame s' = pmm_frame s)); [lia| |].
  - rewrite pages_nil by lia. split_and!; [done|set_solver|done].
  - intros i s1 Hi (Hc1 & Hf1 & Hfr1). cbv zeta. rewrite u64_small by lia.
    assert (total_pages s1 = total_pages s) as Htot by (by apply pmm_frame_inv in Hfr1 as (_ & _ & ?)).
    rewrite pages_snoc by lia. destruct (Z.ltb_spec (start + i) (total_pages s)).
    + destruct (reserve_spec s1 (start + i)) as (s2 & Hs2 & Hc2 & Hf2 & Hfr2); [done|lia|].
      exists s2. split_and!; [done|done| |by rewrite Hfr2]. rewrite Hf2, Hf1. set_solver.
    + exists s1. split_and!; [done|done| |done]. rewrite Hf1.
      assert (start + i ∉ free_set s) by (rewrite elem_of_free_set; lia). set_solver.
Qed.

Lemma free_entries_spec s map :
  memmap_ok map → pmm_core s → free_set s = ∅ → total_pages s = map_total map →
  ∃ s', kfor map pmm_free_entry s = Done tt s' ∧ pmm_core s' ∧
    free_set s' = usable_pages map ∧ pmm_frame s' = pmm_frame s.
Proof.
  intros Hok Hcore HF Htot.
  apply (kfor_ind (λ dn s', pmm_core s' ∧ free_set s' = usable_pages dn ∧
    pmm_frame s' = pmm_frame s)); [done|].
  intros dn e rest s1 Hmap (Hc1 & Hf1 & Hfr1). rewrite Hmap in Hok.
  destruct (memmap_ok_app _ _ _ Hok) as [He Hdis].
  assert (total_pages s1 = total_pages s) as Htot1 by (by apply pmm_frame_inv in Hfr1 as (_ & _ & ?)).
  destruct (free_entry_spec s1 e (usable_pages dn)) as (s2 & Hs2 & Hc2 & Hf2 & Hfr2); [done..| | |].
  - intros _. rewrite Htot1, Htot. unfold map_total, PAGE_SIZE.
    assert (Forall (λ e, base e + length_ e ≤ pmm_highest map) map) as Htop.
    { apply (pmm_highest_ge 0 map); [|lia]. rewrite Hmap. by apply memmap_ok_entries. }
    rewrite Forall_forall in Htop. specialize (Htop e).
    assert (e ∈ map) by (rewrite Hmap; set_solver). specialize (Htop ltac:(done)). lia.
  - intros p (Hu & ? & ?)%elem_of_entry_pages (e1 & He1 & (Hu1 & ? & ?)%elem_of_entry_pages)%elem_of_usable_pages.
    rewrite Forall_forall in Hdis. destruct (Hdis e1 He1 Hu1 Hu); lia.
  - exists s2. split_and!; [done|done| |by rewrite Hfr2].
    rewrite Hf2, usable_pages_app. simpl. set_solver.
Qed.

Lemma find_bitmap_region_spec map size :
  Forall entry_ok map → 0 ≤ size ≤ 2 ^ 52 → pmm_find_bitmap_region map size ≠ 0 →
  let phys := pmm_find_bitmap_region map size in
  phys mod 4096 = 0 ∧
  ∃ e, e ∈ map ∧ is_usable e ∧ base e ≤ phys ∧ phys + size ≤ base e + length_ e.
Proof.
  intros Hall Hsize. induction Hall as [|e m (Hb & Hl & Hm) Hall IH]; simpl; [done|].
  rewrite PAGE_ALIGN_UP_spec by (unfold PAGE_SIZE; lia). rewrite !u64_small by lia.
  assert (pmm_find_bitmap_region m size ≠ 0 →
    pmm_find_bitmap_region m size mod 4096 = 0 ∧ ∃ e0, e0 ∈ e :: m ∧ is_usable e0 ∧
      base e0 ≤ pmm_find_bitmap_region m size ∧
      pmm_find_bitmap_region m size + size ≤ base e0 + length_ e0) as Hrest.
  { intros Hne. destruct (IH Hne) as (? & e0 & ? & ?). split; [done|]. exists e0. set_solver. }
  destruct (Z.eqb_spec (type_ e) MEMMAP_USABLE), (Z.leb_spec size (length_ e)); simpl; try done.
  destruct (Z.leb_spec ((base e + 4095) / 4096 * 4096 + size) (base e + length_ e)); [|done].
  intros _. split; [lia|]. exists e. split_and!; [set_solver|done|lia|lia].
Qed.

(** The state right after the bitmap is filled with ones. *)
Lemma fresh_bitmap_core (s : Pmm) total :
  0 ≤ total ≤ 2 ^ 40 → total_pages s = total → free_pages s = 0 →
  bitmap_size s = (total + 63) / 64 * 8 →
  bitmap s = replicate (Z.to_nat ((total + 63) / 64 * 8 / 8)) (u64 (-1)) →
  pmm_core s ∧ free_set s = ∅.
Proof.
  intros Ht Htot Hfree Hsz Hbm.
  assert (Z.of_nat (length (bitmap s)) = (total + 63) / 64) as Hlen.
  { rewrite Hbm, length_replicate. lia. }
  assert (free_set s = ∅) as Hempty.
  { apply elem_of_equiv_empty_L. intros p [Hp Hu]%elem_of_free_set.
    unfold page_used, BITS_PER_QWORD in Hu.
    destruct (zget_lt (bitmap s) (p / 64)) as [q Hq]; [lia|]. rewrite Hq in Hu.
    assert (q = u64 (-1)) as ->.
    { unfold zget in Hq. destruct (_ <? 0); [done|]. rewrite Hbm in Hq.
      by apply lookup_replicate in Hq as [-> _]. }
    change (u64 (-1)) with (Z.ones 64) in Hu. rewrite Z.ones_spec_low in Hu by lia. done. }
  split; [|done]. split.
  - split; [unfold BITS_PER_QWORD; lia|]. rewrite Hbm. apply Forall_replicate. done.
  - lia.
  - lia.
  - by rewrite Hempty, size_empty.
Qed.

Lemma pmm_init_lemma info s :
  memmap_ok (memory_map info) → locked (pmm_lock s) = 0 →
  map_bitmap_phys (memory_map info) ≠ 0 →
  ∃ s', pmm_init info s = Done tt s' ∧ pmm_ok s' ∧
    total_pages s' = map_total (memory_map info) ∧ cpu_flags s' = cpu_flags s ∧
    free_set s' = usable_pages (memory_map info) ∖
      ({[0]} ∪ pages (map_bitmap_phys (memory_map info) / 4096)
                 ((map_bitmap_size (memory_map info) + 4095) / 4096)).
Proof.
  set (map := memory_map info). intros Hok Hlock Hphys.
  destruct (map_total_spec map Hok) as [Ht Husable]. unfold pmm_init. fold map.
  assert (u64 (u64 (u64 (pmm_highest map / PAGE_SIZE + BITS_PER_QWORD) - 1) / BITS_PER_QWORD * 8)
    = map_bitmap_size map) as ->.
  { fold (map_total map). unfold map_bitmap_size, BITS_PER_QWORD.
    rewrite (u64_small (map_total map + 64)), !u64_small by (rewrite ?u64_small; lia). f_equal. f_equal. lia. }
  fold (map_bitmap_phys map). fold (map_total map). rewrite kmod_bind.
  destruct (find_bitmap_region_spec map (map_bitmap_size map)) as (Hal & e & Hemap & Hu & Hbase & Hfit);
    [by apply memmap_ok_entries|unfold map_bitmap_size; lia|done|].
  fold (map_bitmap_phys map) in *.
  assert (0 ≤ map_bitmap_phys map ≤ 2 ^ 52 ∧ 0 ≤ map_bitmap_size map ≤ 2 ^ 52).
  { pose proof (memmap_ok_entries _ Hok) as Hall. rewrite Forall_forall in Hall.
    destruct (Hall e Hemap) as (? & ? & ?). unfold map_bitmap_size in *. lia. }
  destruct (Z.eqb_spec (map_bitmap_phys map) 0); [done|]. rewrite kmod_bind.
  set (s0 := set_free_pages 0 _).
  destruct (fresh_bitmap_core s0 (map_total map)) as [Hc0 Hf0]; [done..|].
  destruct (free_entries_spec s0 map Hok Hc0 Hf0) as (s1 & Hs1 & Hc1 & Hf1 & Hfr1); [done|].
  kbind Hs1.
  assert (∃ s2, (if 0 <? map_total map then pmm_reserve 0 else mret tt) s1 = Done tt s2 ∧
    pmm_core s2 ∧ free_set s2 = usable_pages map ∖ {[0]} ∧ pmm_frame s2 = pmm_frame s0)
    as (s2 & Hs2 & Hc2 & Hf2 & Hfr2).
  { assert (total_pages s1 = map_total map) as Ht1 by (by apply pmm_frame_inv in Hfr1 as (_ & _ & ?)).
    destruct (Z.ltb_spec 0 (map_total map)).
    - destruct (reserve_spec s1 0 Hc1) as (s2 & ? & ? & ? & ?); [lia|].
      exists s2. split_and!; [done|done|congruence|congruence].
    - exists s1. split_and!; [done|done| |done]. rewrite Hf1.
      assert (0 ∉ usable_pages map); [|set_solver]. intros ?%Husable. lia. }
  kbind Hs2. rewrite !(u64_small (map_bitmap_size map + PAGE_SIZE)), u64_small by (unfold PAGE_SIZE; lia).
  assert (total_pages s2 = map_total map) as Ht2 by (by apply pmm_frame_inv in Hfr2 as (_ & _ & ?)).
  replace (map_bitmap_size map + PAGE_SIZE - 1) with (map_bitmap_size map + 4095)
    by (unfold PAGE_SIZE; lia).
  rewrite <-Ht2.
  destruct (reserve_loop_spec s2 (map_bitmap_phys map / PAGE_SIZE)
    ((map_bitmap_size map + 4095) / PAGE_SIZE) Hc2) as (s3 & Hs3 & Hc3 & Hf3 & Hfr3);
    [unfold PAGE_SIZE; lia..|].
  exists s3. rewrite Hfr2 in Hfr3. apply pmm_frame_inv in Hfr3 as (Hl3 & Hfl3 & Ht3).
  unfold PAGE_SIZE in *. split_and!; [done| |by rewrite Ht3, Ht2|by rewrite Hfl3|].
  - split; [done| |by rewrite Hl3]. rewrite Hf3, Hf2. set_solver.
  - rewrite Hf3, Hf2. set_solver.
Qed.

(** ** Properties *)

(** C23. From a boot memory map whose entries are in range and whose usable
    entries do not overlap, [pmm_init] either finds no region for its bitmap and
    panics, or returns with the invariant established, interrupts as they were,
    and exactly these pages free: the whole pages of usable entries, except page
    0 and the pages of the bitmap, which itself lies inside a usable entry. *)
Theorem pmm_init_correct info s :
  memmap_ok (memory_map info) → locked (pmm_lock s) = 0 →
  let map := memory_map info in
  (map_bitmap_phys map = 0 ∧ ∃ s', pmm_init info s = Panic s') ∨
  ((∃ e, e ∈ map ∧ is_usable e ∧ base e ≤ map_bitmap_phys map ∧
      map_bitmap_phys map + map_bitmap_size map ≤ base e + length_ e) ∧
   ∃ s', pmm_init info s = Done tt s' ∧ pmm_ok s' ∧
     total_pages s' = map_total map ∧ cpu_flags s' = cpu_flags s ∧
     free_set s' = usable_pages map ∖
       ({[0]} ∪ pages (map_bitmap_phys map / 4096) ((map_bitmap_size map + 4095) / 4096))).
Proof.
  intros Hok Hlock map. destruct (map_total_spec map Hok) as [Ht _].
  destruct (decide (map_bitmap_phys map = 0)) as [Hz|Hnz]; [left|right].
  - split; [done|]. unfold pmm_init. fold map. fold (map_total map).
    replace (u64 (u64 (u64 (map_total map + BITS_PER_QWORD) - 1) / BITS_PER_QWORD * 8))
      with (map_bitmap_size map).
    2:{ unfold map_bitmap_size, BITS_PER_QWORD.
        rewrite (u64_small (map_total map + 64)), !u64_small by (rewrite ?u64_small; lia).
        f_equal. f_equal. lia. }
    fold (map_bitmap_phys map). rewrite Hz, kmod_bind. simpl. eexists. reflexivity.
  - split; [|by apply pmm_init_lemma].
    destruct (find_bitmap_region_spec map (map_bitmap_size map)) as (_ & ?); [..|done|done].
    + by apply memmap_ok_entries.
    + unfold map_bitmap_size. lia.
Qed.

(** C5. [pmm_alloc_page] always returns, releases the lock and restores the
    interrupt flag on every path, keeps the invariant, and takes the lowest free
    page out of the free set (or returns 0 and changes nothing when there is
    none). *)
Theorem pmm_alloc_page_correct s :
  pmm_ok s →
  ∃ r s', pmm_alloc_page s = Done r s' ∧ pmm_ok s' ∧ cpu_flags s' = cpu_flags s ∧
    total_pages s' = total_pages s ∧ alloc_spec (free_set s) r (free_set s').
Proof. apply alloc_page_lemma. Qed.

(** [pmm_free_page] always returns with the invariant and the interrupt flag
    kept; it makes the page of the address free, and ignores page 0 and pages
    out of range; freeing a free page changes nothing, so the count of free
    pages stays exact under double frees. *)
Theorem pmm_free_page_correct s addr :
  pmm_ok s → 0 ≤ addr →
  ∃ s', pmm_free_page addr s = Done tt s' ∧ pmm_ok s' ∧ cpu_flags s' = cpu_flags s ∧
    total_pages s' = total_pages s ∧
    free_spec (total_pages s) (free_set s) addr (free_set s').
Proof. apply free_page_lemma. Qed.

(** [pmm_alloc_contiguous] returns the start of the first run of [count] free
    pages and takes exactly that run out of the free set; it returns 0, changing
    nothing, exactly when [count] is 0 or no such run exists. *)
Theorem pmm_alloc_contiguous_correct s count :
  pmm_ok s → 0 ≤ count →
  ∃ r s', pmm_alloc_contiguous count s = Done r s' ∧ pmm_ok s' ∧
    cpu_flags s' = cpu_flags s ∧ total_pages s' = total_pages s ∧
    ((r = 0 ∧ free_set s' = free_set s ∧
      (count = 0 ∨ ∀ start, 0 ≤ start → ¬ pages start count ⊆ free_set s)) ∨
     (∃ start, 0 < start ∧ r = start * PAGE_SIZE ∧ pages start count ⊆ free_set s ∧
      (∀ start', 0 ≤ start' < start → ¬ pages start' count ⊆ free_set s) ∧
      free_set s' = free_set s ∖ pages start count)).
Proof. apply alloc_contiguous_lemma. Qed.

(** *** Witnesses *)

(** A machine with eight pages; pages 1 to 4 are free. *)
Definition pmm_example : Pmm :=
  mkPmm SPINLOCK_INIT 0x202 [2 ^ 64 - 31] 8 8 4 0x8000 0.

Lemma pmm_example_ok : pmm_ok pmm_example.
Proof.
  split; [split|..].
  - split; [done|]. by repeat constructor.
  - done.
  - done.
  - vm_compute. reflexivity.
  - refine (bool_decide_unpack _ _). vm_compute. exact I.
  - done.
Qed.

Definition boot_example : BootInfo := {|
  memory_map := [ {| base := 0; length_ := 0x1000; type_ := 1 |};
                  {| base := 0x1000; length_ := 0x7000; type_ := 0 |} ];
  bi_hhdm_offset := 0xFFFF800000000000;
  kernel_phys_base := 0x200000;
|}.

Lemma boot_example_ok : memmap_ok (memory_map boot_example).
Proof.
  assert (entries_disjoint {| base := 0; length_ := 0x1000; type_ := 1 |}
    {| base := 0x1000; length_ := 0x7000; type_ := 0 |}) by done.
  repeat split; try done. by constructor.
Qed.

Lemma pmm_init_correct_witness :
  ∃ s', pmm_init boot_example (mkPmm SPINLOCK_INIT 0x202 [] 0 0 0 0 0) = Done tt s' ∧
    free_set s' = pages 2 6.
Proof.
  destruct (pmm_init_correct boot_example (mkPmm SPINLOCK_INIT 0x202 [] 0 0 0 0 0)
    boot_example_ok eq_refl) as [[H _]|[_ (s' & H & _ & _ & _ & Hf)]].
  - vm_compute in H. discriminate H.
  - exists s'. split; [exact H|]. rewrite Hf. vm_compute. reflexivity.
Defined.

Lemma pmm_alloc_page_correct_witness :
  ∃ s', pmm_alloc_page pmm_example = Done 4096 s' ∧ free_set s' = pages 2 3.
Proof.
  destruct (pmm_alloc_page_correct pmm_example pmm_example_ok)
    as (r & s' & H & _ & _ & _ & [(H0 & _)|(p & _ & Hmin & Hr & Hf)]).
  - vm_compute in H0. discriminate H0.
  - exists s'. vm_compute in H. injection H as <- <-. split; vm_compute; reflexivity.
Defined.

Lemma pmm_free_page_correct_witness :
  ∃ s', pmm_free_page 0x5000 pmm_example = Done tt s' ∧
    free_spec 8 (free_set pmm_example) 0x5000 (free_set s').
Proof.
  destruct (pmm_free_page_correct pmm_example 0x5000 pmm_example_ok ltac:(lia))
    as (s' & H & _ & _ & _ & Hf).
  exists s'. split; [exact H|exact Hf].
Defined.

Lemma pmm_alloc_contiguous_correct_witness :
  ∃ s', pmm_alloc_contiguous 3 pmm_example = Done 4096 s' ∧ free_set s' = pages 4 1.
Proof.
  destruct (pmm_alloc_contiguous_correct pmm_example 3 pmm_example_ok ltac:(lia))
    as (r & s' & H & _ & _ & _ & _).
  exists s'. vm_compute in H. injection H as <- <-. split; vm_compute; reflexivity.
Defined.

(** *** A region at physical address 0 *)

(** The search for the bitmap's region returns the address of the region it
    finds, and 0 when there is none; a region found at address 0 is therefore
    reported as missing, and the machine panics although a later region would
    do. *)
Lemma pmm_init_panics_on_region_at_zero :
  let map := [ {| base := 0; length_ := 0x4000; type_ := MEMMAP_USABLE |};
               {| base := 0x10000; length_ := 0x4000; type_ := MEMMAP_USABLE |} ] in
  let info := {| memory_map := map; bi_hhdm_offset := 0; kernel_phys_base := 0 |} in
  memmap_ok map ∧ ∃ s', pmm_init info (mkPmm SPINLOCK_INIT 0x202 [] 0 0 0 0 0) = Panic s'.
Proof.
  split; [|vm_compute; by eexists].
  assert (entries_disjoint {| base := 0; length_ := 0x4000; type_ := MEMMAP_USABLE |}
    {| base := 0x10000; length_ := 0x4000; type_ := MEMMAP_USABLE |}) by (intros _ _; by left).
  repeat split; try done. by constructor.
Qed.
