(* ===== verification/Kmalloc.v ===== *)
(** * The kernel heap

    [kernel/mm/kmalloc.c]: a first-fit allocator over a doubly linked list of
    blocks, each a 48-byte header followed by its payload, in address order from
    [HEAP_START].  Memory is a store of headers, keyed by their address, and a
    store of bytes; writing a header over bytes forgets them, and filling a
    range with [memset] destroys the headers it overlaps, so a stale pointer
    finds poison where a header was.

    The heap grows by taking pages from the physical memory manager and mapping
    them; what it needs of both is the class [HeapBacking].

    The refinement: the concrete linked list represents an abstract list of
    blocks ([heap_repr]), and every operation is a function on that list. *)
From S2P Require Import Prelude PageAlloc.

(** ** What the heap needs of the memory managers below it *)

Definition HEAP_START : Z := 0xFFFFFFFFC0000000.
Definition HEAP_SIZE_MAX : Z := 512 * 1024 * 1024.
Definition HEAP_MAX : Z := HEAP_START + HEAP_SIZE_MAX.
Definition VMM_FLAG_WRITABLE_NOEXEC : Z := 5.

(** [hb_mapped b v]: the kernel's tables map [v], writable and not executable;
    [hb_exhausted b]: no frame of physical memory is free. *)
Class HeapBacking (B : Type) : Type := {
  hb_alloc_page : K B Z;                   (* pmm_alloc_page *)
  hb_map_page : Z → Z → Z → K B unit;      (* vmm_map_page virt phys flags *)
  hb_ok : B → Prop;
  hb_mapped : B → Z → Prop;
  hb_exhausted : B → Prop;
  hb_alloc_law b : hb_ok b → ∃ r b', hb_alloc_page b = Done r b' ∧ hb_ok b' ∧
    (r = 0 ∧ hb_exhausted b' ∨ r mod 4096 = 0 ∧ 0 < r < 2 ^ 52) ∧ ∀ v, hb_mapped b v → hb_mapped b' v;
  hb_map_law b virt phys : hb_ok b → phys mod 4096 = 0 → 0 < phys < 2 ^ 52 →
    HEAP_START ≤ virt < HEAP_MAX → virt mod 4096 = 0 →
    (∃ b', hb_map_page virt phys VMM_FLAG_WRITABLE_NOEXEC b = Done tt b' ∧ hb_ok b' ∧
       (∀ v, hb_mapped b v ∨ virt ≤ v < virt + 4096 → hb_mapped b' v)) ∨
    (∃ b', hb_map_page virt phys VMM_FLAG_WRITABLE_NOEXEC b = Panic b' ∧ hb_exhausted b');
}.

(** ** State *)

Definition BLOCK_MAGIC : Z := 0xDEADBEEF.
Definition FREED_POISON : Z := 0xCC.
Definition HEAP_INIT_PAGES : Z := 4.
Definition ALIGN_SIZE : Z := 16.
Definition ALIGN_MASK : Z := u64 (Z.lnot (ALIGN_SIZE - 1)).
Definition GFP_ZERO : Z := 1.

Record BlockHeader : Type := mkHdr {
  magic : Z; bsize : Z; free : Z; next : Z; prev : Z
}.

(** [sizeof(BlockHeader)] is 40 (the [int] is padded to 8 bytes). *)
Definition HEADER_SIZE : Z := Z.land (40 + ALIGN_SIZE - 1) ALIGN_MASK.

Record Heap (B : Type) : Type := mkHeap {
  backing : B;
  heap_start_block : Z;
  heap_current_end : Z;
  hdrs : gmap Z BlockHeader;
  bytes : gmap Z Z;
}.
Arguments mkHeap {B}.
Arguments backing {B}.
Arguments heap_start_block {B}.
Arguments heap_current_end {B}.
Arguments hdrs {B}.
Arguments bytes {B}.

Section kmalloc.
Context {B : Type} `{HeapBacking B}.
Implicit Types (s : Heap B).

Definition set_backing (b : B) s : Heap B :=
  mkHeap b (heap_start_block s) (heap_current_end s) (hdrs s) (bytes s).
Definition set_end (e : Z) s : Heap B :=
  mkHeap (backing s) (heap_start_block s) e (hdrs s) (bytes s).
Definition set_mem (h : gmap Z BlockHeader) (m : gmap Z Z) s : Heap B :=
  mkHeap (backing s) (heap_start_block s) (heap_current_end s) h m.

(** ** Memory accesses *)

Definition range_set (m : gmap Z Z) (a n c : Z) : gmap Z Z :=
  foldr (λ i m, <[i:=c]> m) m (seqZ a n).
Definition range_del (m : gmap Z Z) (a n : Z) : gmap Z Z :=
  foldr (λ i m, delete i m) m (seqZ a n).
(** Headers that do not overlap [a, a + n). *)
Definition hdrs_outside (h : gmap Z BlockHeader) (a n : Z) : gmap Z BlockHeader :=
  filter (λ '(b, _), b + HEADER_SIZE ≤ a ∨ a + n ≤ b ∨ n ≤ 0) h.

Definition kmemset (a c n : Z) : K (Heap B) unit :=
  kmod (λ s, set_mem (hdrs_outside (hdrs s) a n) (range_set (bytes s) a n c) s).
(** The copy goes upwards byte by byte, as [memcpy] does. *)
Definition kmemcpy (dst src n : Z) : K (Heap B) unit :=
  kmod (λ s, set_mem (hdrs_outside (hdrs s) dst n)
    (fold_left (λ m i, partial_alter (λ _, m !! (src + i)) (dst + i) m) (seqZ 0 n) (bytes s)) s).

(** Reading the header at an address, through a pointer known to be one. *)
Definition hdr (a : Z) : K (Heap B) BlockHeader := kopt (λ s, hdrs s !! a).
(** Updating some of its fields. *)
Definition upd_hdr (a : Z) (f : BlockHeader → BlockHeader) : K (Heap B) unit :=
  h ← hdr a; kmod (λ s, set_mem (<[a := f h]> (hdrs s)) (bytes s) s).
(** Writing all fields of a header where there was none. *)
Definition new_hdr (a : Z) (h : BlockHeader) : K (Heap B) unit :=
  kmod (λ s, set_mem (<[a := h]> (hdrs s)) (range_del (bytes s) a HEADER_SIZE) s).

Definition set_size (n : Z) (h : BlockHeader) := mkHdr (magic h) n (free h) (next h) (prev h).
Definition set_free (f : Z) (h : BlockHeader) := mkHdr (magic h) (bsize h) f (next h) (prev h).
Definition set_next (a : Z) (h : BlockHeader) := mkHdr (magic h) (bsize h) (free h) a (prev h).
Definition set_prev (a : Z) (h : BlockHeader) := mkHdr (magic h) (bsize h) (free h) (next h) a.

(** The eight bytes at an address as a little-endian word, if all are known. *)
Definition load64 (m : gmap Z Z) (a : Z) : option Z :=
  foldr (λ i acc, v ← acc; b ← m !! (a + i); Some (b + 256 * v)) (Some 0) (seqZ 0 8).

(** Reading [magic] through a pointer that may be stale. *)
Definition load_magic (a : Z) : K (Heap B) Z :=
  kopt (λ s, match hdrs s !! a with
             | Some h => Some (magic h)
             | None => v ← load64 (bytes s) a; if v =? BLOCK_MAGIC then None else Some v
             end).

(** ** Operations *)

Fixpoint heap_grow_loop (pages : nat) : K (Heap B) Z :=
  match pages with
  | O => mret 0
  | S pages' =>
      e ← kget heap_current_end;
      if HEAP_MAX <=? e then mret (-1) else
      phys ← zoom backing set_backing hb_alloc_page;
      if phys =? 0 then mret (-1) else
      zoom backing set_backing (hb_map_page e phys VMM_FLAG_WRITABLE_NOEXEC);;
      kmod (set_end (u64 (e + PAGE_SIZE)));;
      heap_grow_loop pages'
  end.

Definition heap_grow (min_bytes : Z) : K (Heap B) Z :=
  heap_grow_loop (Z.to_nat (u64 (u64 (min_bytes + PAGE_SIZE) - 1) / PAGE_SIZE)).

Definition align_up (size : Z) : Z :=
  Z.land (u64 (u64 (size + ALIGN_SIZE) - 1)) ALIGN_MASK.

Definition kmalloc_init : K (Heap B) unit :=
  kmod (set_end HEAP_START);;
  r ← heap_grow (HEAP_INIT_PAGES * PAGE_SIZE);
  if negb (r =? 0) then kpanic else
  kmod (λ s, mkHeap (backing s) HEAP_START (heap_current_end s) (hdrs s) (bytes s));;
  new_hdr HEAP_START (mkHdr BLOCK_MAGIC (HEAP_INIT_PAGES * PAGE_SIZE - HEADER_SIZE) 1 0 0).

Definition split_block (block size : Z) : K (Heap B) unit :=
  h ← hdr block;
  if bsize h <? u64 (u64 (size + HEADER_SIZE) + ALIGN_SIZE) then mret tt else
  let remaining := u64 (u64 (bsize h - size) - HEADER_SIZE) in
  let new_block := u64 (u64 (block + HEADER_SIZE) + size) in
  new_hdr new_block (mkHdr BLOCK_MAGIC remaining 1 (next h) block);;
  (if negb (next h =? 0) then upd_hdr (next h) (set_prev new_block) else mret tt);;
  upd_hdr block (set_next new_block);;
  upd_hdr block (set_size size).

Definition block_allocate (block size flags : Z) : K (Heap B) Z :=
  split_block block size;;
  upd_hdr block (set_free 0);;
  let ptr := u64 (block + HEADER_SIZE) in
  (if negb (Z.land flags GFP_ZERO =? 0) then kmemset ptr 0 size else mret tt);;
  mret ptr.

(** One iteration absorbs the next block; the fuel bounds the iterations. *)
Fixpoint coalesce_forward (fuel : nat) (block : Z) : K (Heap B) unit :=
  match fuel with
  | O => kstuck
  | S fuel' =>
      h ← hdr block;
      if next h =? 0 then mret tt else
      absorbed ← hdr (next h);
      if free absorbed =? 0 then mret tt else
      upd_hdr block (set_size (u64 (bsize h + u64 (HEADER_SIZE + bsize absorbed))));;
      upd_hdr block (set_next (next absorbed));;
      (if negb (next absorbed =? 0) then upd_hdr (next absorbed) (set_prev block) else mret tt);;
      kmemset (next h) FREED_POISON HEADER_SIZE;;
      coalesce_forward fuel' block
  end.

(** A list of blocks has at most as many blocks as there are headers. *)
Definition walk_fuel s : nat := S (size (hdrs s)).

Fixpoint last_block (fuel : nat) (block : Z) : K (Heap B) Z :=
  match fuel with
  | O => kstuck
  | S fuel' =>
      h ← hdr block;
      if next h =? 0 then mret block else last_block fuel' (next h)
  end.

(** Returns the address of a block, or 0. *)
Definition heap_grow_for (size : Z) : K (Heap B) Z :=
  fuel ← kget walk_fuel;
  start ← kget heap_start_block;
  block ← last_block fuel start;
  h ← hdr block;
  let need := if negb (free h =? 0) then u64 (u64 (size - bsize h) + HEADER_SIZE)
              else u64 (size + 2 * HEADER_SIZE) in
  old_end ← kget heap_current_end;
  r ← heap_grow need;
  if negb (r =? 0) then mret 0 else
  new_end ← kget heap_current_end;
  let grown := u64 (new_end - old_end) in
  if negb (free h =? 0) then
    upd_hdr block (set_size (u64 (bsize h + grown)));; mret block
  else
    new_hdr old_end (mkHdr BLOCK_MAGIC (u64 (grown - HEADER_SIZE)) 1 0 block);;
    upd_hdr block (set_next old_end);;
    mret old_end.

(** The first-fit search: the address of the block found, or 0. *)
Fixpoint first_fit (fuel : nat) (block size : Z) : K (Heap B) Z :=
  match fuel with
  | O => kstuck
  | S fuel' =>
      if block =? 0 then mret 0 else
      h ← hdr block;
      if negb (magic h =? BLOCK_MAGIC) then kpanic else
      if negb (free h =? 0) && (size <=? bsize h) then mret block
      else first_fit fuel' (next h) size
  end.

Definition kmalloc (size flags : Z) : K (Heap B) Z :=
  if size =? 0 then mret 0 else
  let size := align_up size in
  fuel ← kget walk_fuel;
  start ← kget heap_start_block;
  block ← first_fit fuel start size;
  if negb (block =? 0) then block_allocate block size flags else
  block ← heap_grow_for size;
  if block =? 0 then mret 0 else block_allocate block size flags.

Definition kfree (ptr : Z) : K (Heap B) unit :=
  if ptr =? 0 then mret tt else
  let block := u64 (ptr - HEADER_SIZE) in
  m ← load_magic block;
  if negb (m =? BLOCK_MAGIC) then kpanic else
  h ← hdr block;
  if negb (free h =? 0) then mret tt else
  kmemset ptr FREED_POISON (bsize h);;
  upd_hdr block (set_free 1);;
  fuel ← kget walk_fuel;
  coalesce_forward fuel block;;
  h ← hdr block;
  if prev h =? 0 then mret tt else
  hp ← hdr (prev h);
  if free hp =? 0 then mret tt else
  fuel ← kget walk_fuel;
  coalesce_forward fuel (prev h).

Definition krealloc (ptr new_size : Z) : K (Heap B) Z :=
  if ptr =? 0 then kmalloc new_size 0 else
  if new_size =? 0 then kfree ptr;; mret 0 else
  let block := u64 (ptr - HEADER_SIZE) in
  m ← load_magic block;
  if negb (m =? BLOCK_MAGIC) then kpanic else
  let new_size := align_up new_size in
  h ← hdr block;
  if new_size <=? bsize h then split_block block new_size;; mret ptr else
  absorb ← (if next h =? 0 then mret false else
            hn ← hdr (next h);
            mret (negb (free hn =? 0) &&
              (new_size <=? u64 (u64 (bsize h + HEADER_SIZE) + bsize hn))));
  if absorb : bool then
    fuel ← kget walk_fuel;
    coalesce_forward fuel block;;
    upd_hdr block (set_free 0);;
    split_block block new_size;;
    mret ptr
  else
  new_ptr ← kmalloc new_size 0;
  if new_ptr =? 0 then mret 0 else
  h ← hdr block;
  kmemcpy new_ptr ptr (bsize h);;
  kfree ptr;;
  mret new_ptr.

Record HeapStats : Type := mkStats {
  total_used : Z; total_free : Z; total_blocks : Z; free_blocks : Z;
  largest_free : Z; heap_mapped : Z
}.

Fixpoint stats_loop (fuel : nat) (block : Z) (out : HeapStats) : K (Heap B) HeapStats :=
  match fuel with
  | O => kstuck
  | S fuel' =>
      if block =? 0 then mret out else
      h ← hdr block;
      let blocks := u64 (total_blocks out + 1) in
      let out := if negb (free h =? 0) then
          mkStats (total_used out) (u64 (total_free out + bsize h)) blocks
            (u64 (free_blocks out + 1))
            (if largest_free out <? bsize h then bsize h else largest_free out) (heap_mapped out)
        else
          mkStats (u64 (total_used out + bsize h)) (total_free out) blocks
            (free_blocks out) (largest_free out) (heap_mapped out) in
      stats_loop fuel' (next h) out
  end.

Definition kmalloc_get_stats : K (Heap B) HeapStats :=
  fuel ← kget walk_fuel;
  start ← kget heap_start_block;
  out ← stats_loop fuel start (mkStats 0 0 0 0 0 0);
  e ← kget heap_current_end;
  mret (mkStats (total_used out) (total_free out) (total_blocks out) (free_blocks out)
    (largest_free out) (u64 (e - HEAP_START))).

End kmalloc.
Arguments walk_fuel : simpl never.

(** ** Abstract blocks *)

Record blk : Type := mkBlk { b_addr : Z; b_size : Z; b_free : bool }.

Definition b_end (b : blk) : Z := b_addr b + 48 + b_size b.
Definition payload (b : blk) : Z := b_addr b + 48.

(** The header of a block between two neighbours. *)
Definition hdr_of (b : blk) (p n : Z) : BlockHeader :=
  mkHdr BLOCK_MAGIC (b_size b) (Z.b2z (b_free b)) n p.

Definition head_addr (bs : list blk) (n : Z) : Z :=
  match bs with [] => n | b :: _ => b_addr b end.
Definition last_addr (p : Z) (bs : list blk) : Z :=
  match last bs with None => p | Some b => b_addr b end.

(** The headers of a run of blocks whose neighbours are [p] and [n]. *)
Fixpoint hl (p : Z) (bs : list blk) (n : Z) : list (Z * BlockHeader) :=
  match bs with
  | [] => []
  | b :: rest => (b_addr b, hdr_of b p (head_addr rest n)) :: hl (b_addr b) rest n
  end.
Definition hdr_map (bs : list blk) : gmap Z BlockHeader := list_to_map (hl 0 bs 0).

(** Blocks follow each other between [lo] and [hi], possibly with gaps. *)
Fixpoint geom (lo : Z) (bs : list blk) (hi : Z) : Prop :=
  match bs with
  | [] => lo ≤ hi
  | b :: rest => lo ≤ b_addr b ∧ geom (b_end b) rest hi
  end.

Definition blk_ok (b : blk) : Prop :=
  b_addr b mod 16 = 0 ∧ b_size b mod 16 = 0 ∧ 0 ≤ b_size b.

(** The memory managers are in order, and the heap is mapped up to [e]. *)
Definition back_ok {B} `{HeapBacking B} (b : B) (e : Z) : Prop :=
  hb_ok b ∧ ∀ v, HEAP_START ≤ v < e → hb_mapped b v.

(** The concrete heap [s] represents the list of blocks [bs]. *)
Record heap_repr {B} `{HeapBacking B} (s : Heap B) (bs : list blk) : Prop := {
  hr_nonempty : bs ≠ [];
  hr_start : heap_start_block s = head_addr bs 0;
  hr_hdrs : hdrs s = hdr_map bs;
  hr_blks : Forall blk_ok bs;
  hr_geom : geom HEAP_START bs (heap_current_end s);
  hr_end : heap_current_end s mod 4096 = 0 ∧ heap_current_end s ≤ HEAP_MAX;
  hr_back : back_ok (backing s) (heap_current_end s);
}.

Definition used (bs : list blk) : list blk := filter (λ b, b_free b = false) bs.

Lemma HEADER_SIZE_eq : HEADER_SIZE = 48.
Proof. reflexivity. Qed.

Lemma align_up_spec size :
  0 ≤ size ≤ 2 ^ 63 → align_up size = (size + 15) / 16 * 16.
Proof.
  intros Hs. unfold align_up, ALIGN_MASK, ALIGN_SIZE.
  rewrite (u64_small (size + 16)), (u64_small (size + 16 - 1)) by lia.
  change (16 - 1) with (2 ^ 4 - 1). rewrite land_align by lia.
  replace (size + 16 - 1) with (size + 15) by lia. done.
Qed.

(** *** Lists of headers *)

Lemma head_addr_app l1 l2 n : head_addr (l1 ++ l2) n = head_addr l1 (head_addr l2 n).
Proof. by destruct l1. Qed.
Lemma last_addr_cons p b l : last_addr p (b :: l) = last_addr (b_addr b) l.
Proof. unfold last_addr. destruct l; [done|]. by rewrite last_cons_cons; destruct (last (b0 :: l)) eqn:E; [|apply last_None in E]. Qed.
Lemma last_addr_app p l1 l2 : last_addr p (l1 ++ l2) = last_addr (last_addr p l1) l2.
Proof.
  revert p. induction l1 as [|b l1 IH]; intros p; [done|].
  simpl. rewrite !last_addr_cons. apply IH.
Qed.

Lemma last_addr_snoc p l b : last_addr p (l ++ [b]) = b_addr b.
Proof. unfold last_addr. by rewrite last_snoc. Qed.

Lemma hl_app p l1 l2 n :
  hl p (l1 ++ l2) n = hl p l1 (head_addr l2 n) ++ hl (last_addr p l1) l2 n.
Proof.
  revert p. induction l1 as [|b l1 IH]; intros p; [done|].
  simpl. rewrite IH, head_addr_app, last_addr_cons. done.
Qed.
Lemma hl_keys p bs n : (hl p bs n).*1 = b_addr <$> bs.
Proof. revert p. induction bs as [|b bs IH]; intros p; [done|]. simpl. by rewrite IH. Qed.

(** *** Geometry *)

Lemma geom_app lo l1 l2 hi :
  geom lo (l1 ++ l2) hi ↔ ∃ mid, geom lo l1 mid ∧ geom mid l2 hi.
Proof.
  revert lo. induction l1 as [|b l1 IH]; intros lo; simpl.
  - split; [intros Hg; exists lo; split; [lia|done]|].
    intros (mid & ? & Hg). destruct l2; simpl in *; [lia|]. destruct Hg. split; [lia|done].
  - rewrite IH. naive_solver.
Qed.
Lemma geom_le lo bs hi : Forall blk_ok bs → geom lo bs hi → lo ≤ hi.
Proof.
  intros Hok. revert lo. induction Hok as [|b bs (_ & _ & ?) Hok IH]; intros lo; simpl; [done|].
  intros [? Hg]. specialize (IH _ Hg). unfold b_end in IH. lia.
Qed.
Lemma geom_weaken lo lo' bs hi hi' : lo' ≤ lo → hi ≤ hi' → geom lo bs hi → geom lo' bs hi'.
Proof.
  revert lo lo'. induction bs as [|b bs IH]; intros lo lo'; simpl; [lia|].
  intros ? ? [? Hg]. split; [lia|]. by apply (IH (b_end b)).
Qed.
Lemma geom_In lo bs hi b :
  Forall blk_ok bs → geom lo bs hi → b ∈ bs → lo ≤ b_addr b ∧ b_end b ≤ hi.
Proof.
  intros Hok Hg Hb. apply list_elem_of_split in Hb as (l1 & l2 & ->).
  apply Forall_app in Hok as [Hok1 Hok2]. apply Forall_cons in Hok2 as [Hb Hok2].
  apply geom_app in Hg as (mid & Hg1 & Hg2). simpl in Hg2. destruct Hg2 as [? Hg2].
  apply geom_le in Hg1; [|done]. apply geom_le in Hg2; [|done]. lia.
Qed.

(** In a well-formed list the other blocks are before or after a given one. *)
Lemma geom_others lo l1 b l2 hi c :
  Forall blk_ok (l1 ++ b :: l2) → geom lo (l1 ++ b :: l2) hi → c ∈ l1 ++ l2 →
  b_end c ≤ b_addr b ∨ b_end b ≤ b_addr c.
Proof.
  intros Hok Hg Hc. apply Forall_app in Hok as [Hok1 Hok2]. apply Forall_cons in Hok2 as [Hb Hok2].
  apply geom_app in Hg as (mid & Hg1 & Hg2). simpl in Hg2. destruct Hg2 as [? Hg2].
  apply elem_of_app in Hc as [Hc|Hc].
  - apply (geom_In _ _ _ c) in Hg1; [|done..]. lia.
  - apply (geom_In _ _ _ c) in Hg2; [|done..]. lia.
Qed.

Lemma geom_NoDup lo bs hi : Forall blk_ok bs → geom lo bs hi → NoDup (b_addr <$> bs).
Proof.
  intros Hok. revert lo. induction Hok as [|b bs Hb Hok IH]; intros lo; simpl.
  { intros _. constructor. }
  intros [? Hg]. constructor; [|by apply (IH _ Hg)].
  intros (c & Heq & Hc)%list_elem_of_fmap. destruct (geom_In _ _ _ c Hok Hg Hc).
  destruct Hb as (_ & _ & ?). unfold b_end in *. lia.
Qed.

(** The headers of a list around one of its blocks: the rest does not mention it. *)
Definition hdr_rest (l1 : list blk) (x y : Z) (l2 : list blk) : gmap Z BlockHeader :=
  list_to_map (hl 0 l1 x ++ hl y l2 0).

Lemma hdr_map_middle l1 b l2 lo hi :
  Forall blk_ok (l1 ++ b :: l2) → geom lo (l1 ++ b :: l2) hi →
  hdr_map (l1 ++ b :: l2) =
    <[b_addr b := hdr_of b (last_addr 0 l1) (head_addr l2 0)]>
      (hdr_rest l1 (b_addr b) (b_addr b) l2).
Proof.
  intros Hok Hg. unfold hdr_map, hdr_rest. rewrite hl_app. simpl.
  rewrite <-list_to_map_cons. apply list_to_map_proper.
  - rewrite fmap_app. simpl. rewrite !hl_keys.
    pose proof (geom_NoDup _ _ _ Hok Hg) as Hnd. by rewrite fmap_app in Hnd.
  - by rewrite Permutation_middle.
Qed.

Lemma hdr_map_segment l1 mid l2 lo hi :
  Forall blk_ok (l1 ++ mid ++ l2) → geom lo (l1 ++ mid ++ l2) hi →
  hdr_map (l1 ++ mid ++ l2) =
    list_to_map (hl (last_addr 0 l1) mid (head_addr l2 0)) ∪
      hdr_rest l1 (head_addr mid (head_addr l2 0)) (last_addr (last_addr 0 l1) mid) l2.
Proof.
  intros Hok Hg. unfold hdr_map, hdr_rest. rewrite !hl_app, head_addr_app, <-list_to_map_app.
  apply list_to_map_proper.
  - rewrite !fmap_app, !hl_keys. pose proof (geom_NoDup _ _ _ Hok Hg) as Hnd.
    by rewrite !fmap_app in Hnd.
  - rewrite !app_assoc. apply Permutation_app_tail, Permutation_app_comm.
Qed.

(** Well-formed lists of blocks of a heap that ends at [hi]. *)
Definition wf_blocks (bs : list blk) (hi : Z) : Prop :=
  Forall blk_ok bs ∧ geom HEAP_START bs hi ∧ hi ≤ HEAP_MAX.

Lemma wf_range bs hi b :
  wf_blocks bs hi → b ∈ bs →
  0 < HEAP_START ≤ b_addr b ∧ b_end b ≤ hi < 2 ^ 64 ∧ 0 ≤ b_size b ∧
  b_addr b mod 16 = 0 ∧ b_size b mod 16 = 0.
Proof.
  intros (Hok & Hg & Hhi) Hb. destruct (geom_In _ _ _ b Hok Hg Hb).
  rewrite Forall_forall in Hok. destruct (Hok b Hb) as (? & ? & ?).
  unfold HEAP_MAX, HEAP_START, HEAP_SIZE_MAX in *. lia.
Qed.
Lemma wf_range_mid l1 b l2 hi :
  wf_blocks (l1 ++ b :: l2) hi →
  0 < HEAP_START ≤ b_addr b ∧ b_end b ≤ hi < 2 ^ 64 ∧ 0 ≤ b_size b ∧
  b_addr b mod 16 = 0 ∧ b_size b mod 16 = 0.
Proof. intros Hwf. apply (wf_range _ _ _ Hwf). set_solver. Qed.

(** Replacing a segment of the list keeps it well formed when the new segment
    is well formed and covers no more than the old one. *)
Lemma wf_replace l1 mid mid' l2 hi :
  wf_blocks (l1 ++ mid ++ l2) hi → Forall blk_ok mid' →
  (∀ lo e, geom lo mid e → geom lo mid' e) →
  wf_blocks (l1 ++ mid' ++ l2) hi.
Proof.
  intros (Hok & Hg & Hhi) Hok' Hgeom. rewrite !Forall_app in Hok. destruct Hok as (? & ? & ?).
  split_and!; [by rewrite !Forall_app| |done].
  apply geom_app in Hg as (m1 & Hg1 & Hg2). apply geom_app in Hg2 as (m2 & Hg2 & Hg3).
  apply geom_app. exists m1. split; [done|]. apply geom_app. exists m2. split; [|done].
  by apply Hgeom.
Qed.

Section repr.
Context {B : Type} `{HeapBacking B}.
Implicit Types (s : Heap B).

Lemma heap_repr_wf s bs : heap_repr s bs → wf_blocks bs (heap_current_end s).
Proof. intros [? ? ? ? ? [? ?] ?]. by split_and!. Qed.

Lemma heap_repr_mem s bs bs' m :
  heap_repr s bs → bs' ≠ [] → head_addr bs' 0 = head_addr bs 0 →
  wf_blocks bs' (heap_current_end s) → heap_repr (set_mem (hdr_map bs') m s) bs'.
Proof.
  intros [? Hst ? ? ? ? ?] Hne Hhd (? & ? & ?). split; simpl; [done|congruence|done..].
Qed.

(** [hdr] and [upd_hdr] on a state whose headers are known. *)
Lemma hdr_Done s a h : hdrs s !! a = Some h → hdr a s = Done h s.
Proof. intros Ha. unfold hdr, kopt. by rewrite Ha. Qed.
Lemma upd_hdr_Done s a h f :
  hdrs s !! a = Some h → upd_hdr a f s = Done tt (set_mem (<[a:=f h]> (hdrs s)) (bytes s) s).
Proof. intros Ha. unfold upd_hdr. by kbind (hdr_Done s a h Ha). Qed.
Lemma hdr_bind {A} s a h (k : BlockHeader → K (Heap B) A) :
  hdrs s !! a = Some h → (hdr a ≫= k) s = k h s.
Proof. intros Ha. by apply bind_Done, hdr_Done. Qed.
Lemma upd_hdr_bind {A} s a h f (k : unit → K (Heap B) A) :
  hdrs s !! a = Some h →
  (upd_hdr a f ≫= k) s = k tt (set_mem (<[a:=f h]> (hdrs s)) (bytes s) s).
Proof. intros Ha. by apply bind_Done, upd_hdr_Done. Qed.
Lemma set_mem_set_mem h m h' m' s : set_mem h m (set_mem h' m' s) = set_mem h m s.
Proof. done. Qed.
End repr.

Lemma hdr_map_lookup l1 b l2 hi :
  wf_blocks (l1 ++ b :: l2) hi →
  hdr_map (l1 ++ b :: l2) !! b_addr b = Some (hdr_of b (last_addr 0 l1) (head_addr l2 0)).
Proof.
  intros (Hok & Hg & _). rewrite (hdr_map_middle l1 b l2 _ _ Hok Hg). apply lookup_insert_eq.
Qed.

(** Bytes outside [lo, hi) are unchanged. *)
Definition agree_out (lo hi : Z) (m m' : gmap Z Z) : Prop :=
  ∀ i, ¬ (lo ≤ i < hi) → m' !! i = m !! i.

Lemma agree_out_refl lo hi m : agree_out lo hi m m.
Proof. done. Qed.
Lemma agree_out_trans lo hi m1 m2 m3 :
  agree_out lo hi m1 m2 → agree_out lo hi m2 m3 → agree_out lo hi m1 m3.
Proof. intros H1 H2 i Hi. by rewrite H2, H1. Qed.
Lemma agree_out_weaken lo hi lo' hi' m1 m2 :
  agree_out lo hi m1 m2 → lo' ≤ lo → hi ≤ hi' → agree_out lo' hi' m1 m2.
Proof. intros H1 ? ? i Hi. apply H1. lia. Qed.

Lemma lookup_range_set m a n c i :
  range_set m a n c !! i = if decide (a ≤ i < a + n) then Some c else m !! i.
Proof.
  unfold range_set. assert (∀ l, foldr (λ i m, <[i:=c]> m) m l !! i =
    if decide (i ∈ l) then Some c else m !! i) as ->.
  { induction l as [|x l IH]; simpl; [done|]. rewrite lookup_insert, IH.
    repeat case_decide; set_solver. }
  repeat case_decide; rewrite elem_of_seqZ in *; try done; lia.
Qed.
Lemma lookup_range_del m a n i :
  range_del m a n !! i = if decide (a ≤ i < a + n) then None else m !! i.
Proof.
  unfold range_del. assert (∀ l, foldr (λ i m, delete i m) m l !! i =
    if decide (i ∈ l) then None else m !! i) as ->.
  { induction l as [|x l IH]; simpl; [done|]. rewrite lookup_delete, IH.
    repeat case_decide; set_solver. }
  repeat case_decide; rewrite elem_of_seqZ in *; try done; lia.
Qed.
Lemma agree_range_set m a n c : agree_out a (a + n) m (range_set m a n c).
Proof. intros i Hi. rewrite lookup_range_set. by rewrite decide_False. Qed.
Lemma agree_range_del m a n : agree_out a (a + n) m (range_del m a n).
Proof. intros i Hi. rewrite lookup_range_del. by rewrite decide_False. Qed.

(** ** Splitting *)

Definition split_abs (b : blk) (size : Z) : list blk :=
  if b_size b <? size + 64 then [b]
  else [mkBlk (b_addr b) size (b_free b);
        mkBlk (b_addr b + 48 + size) (b_size b - size - 48) true].

(** Proves equality of maps built by insertions on a common rest. *)
Ltac map_inserts :=
  apply map_eq; intros ?k;
  repeat first [rewrite lookup_insert | case_decide]; subst; try done; try lia; try congruence.

Section split.
Context {B : Type} `{HeapBacking B}.
Implicit Types (s : Heap B).

Lemma split_abs_wf l1 b l2 size hi :
  wf_blocks (l1 ++ b :: l2) hi → 0 ≤ size ≤ b_size b → size mod 16 = 0 →
  wf_blocks (l1 ++ split_abs b size ++ l2) hi.
Proof.
  intros Hwf Hs Hal. pose proof (wf_range_mid _ _ _ _ Hwf) as (? & ? & ? & ? & ?).
  apply (wf_replace l1 [b] _ l2 hi Hwf); unfold split_abs;
    destruct (Z.ltb_spec (b_size b) (size + 64)); simpl.
  - constructor; [|done]. split_and!; done.
  - repeat constructor; simpl; lia.
  - done.
  - intros lo e [? He]. unfold b_end in *. simpl. lia.
Qed.

(** The map after the stores of [split_block], when it does split. *)
Lemma split_map l1 b l2 size hi :
  wf_blocks (l1 ++ b :: l2) hi → 0 ≤ size → size + 64 ≤ b_size b → size mod 16 = 0 →
  let na := b_addr b + 48 + size in
  let h := hdr_of b (last_addr 0 l1) (head_addr l2 0) in
  let m1 := <[na := mkHdr BLOCK_MAGIC (b_size b - size - 48) 1 (head_addr l2 0) (b_addr b)]>
              (hdr_map (l1 ++ b :: l2)) in
  let m2 := match l2 with
            | [] => m1
            | c :: l2' => <[b_addr c := set_prev na (hdr_of c (b_addr b) (head_addr l2' 0))]> m1
            end in
  <[b_addr b := set_size size (set_next na h)]> (<[b_addr b := set_next na h]> m2) =
  hdr_map (l1 ++ split_abs b size ++ l2).
Proof.
  intros Hwf Hs Hfit Hal na h m1 m2.
  pose proof (wf_range_mid _ _ _ _ Hwf) as (? & ? & ? & ? & ?).
  pose proof (split_abs_wf l1 b l2 size hi Hwf ltac:(lia) Hal) as Hwf'.
  unfold split_abs in *. destruct (Z.ltb_spec (b_size b) (size + 64)); [lia|].
  destruct l2 as [|c l2'].
  - destruct Hwf as (Hok & Hg & _). destruct Hwf' as (Hok' & Hg' & _).
    unfold m2, m1. pose proof (hdr_map_segment l1 [b] [] _ _ Hok Hg) as E1.
    pose proof (hdr_map_segment l1 [_; _] [] _ _ Hok' Hg') as E2. simpl in E1, E2. rewrite E1.
    simpl. rewrite E2. unfold hdr_rest. simpl. rewrite <-!insert_union_l, !map_empty_union.
    unfold h, na, hdr_of, set_size, set_next. simpl. map_inserts.
  - pose proof (wf_range _ _ c Hwf ltac:(set_solver)) as (? & ? & ? & ? & ?).
    assert (b_end b ≤ b_addr c).
    { destruct Hwf as (Hok & Hg & _). apply geom_app in Hg as (? & _ & Hg). simpl in Hg. lia. }
    destruct Hwf as (Hok & Hg & _). destruct Hwf' as (Hok' & Hg' & _).
    unfold b_end in *. unfold m2, m1.
    pose proof (hdr_map_segment l1 [b; c] l2' _ _ Hok Hg) as E1.
    pose proof (hdr_map_segment l1 [_; _; c] l2' _ _ Hok' Hg') as E2. simpl in E1, E2. rewrite E1.
    simpl. rewrite E2. unfold last_addr at 2 4. simpl. rewrite <-!insert_union_l, !map_empty_union.
    unfold h, na, hdr_of, set_size, set_next, set_prev. simpl. map_inserts.
Qed.

Lemma split_block_spec s l1 b l2 size :
  wf_blocks (l1 ++ b :: l2) (heap_current_end s) → hdrs s = hdr_map (l1 ++ b :: l2) →
  0 ≤ size ≤ b_size b → size mod 16 = 0 →
  ∃ m, split_block (b_addr b) size s =
      Done tt (set_mem (hdr_map (l1 ++ split_abs b size ++ l2)) m s) ∧
    agree_out (b_addr b + 48 + size) (b_end b) (bytes s) m.
Proof.
  intros Hwf Hh Hs Hal. pose proof (wf_range_mid _ _ _ _ Hwf) as (? & ? & ? & ? & ?).
  unfold HEAP_START in *. unfold b_end in *.
  assert (hdrs s !! b_addr b = Some (hdr_of b (last_addr 0 l1) (head_addr l2 0))) as Hb
    by (rewrite Hh; by eapply hdr_map_lookup).
  unfold split_block. kbind (hdr_Done s _ _ Hb). rewrite HEADER_SIZE_eq. unfold ALIGN_SIZE.
  cbn [bsize next hdr_of]. rewrite (u64_small (size + 48)), (u64_small (size + 48 + 16)) by lia.
  replace (size + 48 + 16) with (size + 64) by lia.
  destruct (Z.ltb_spec (b_size b) (size + 64)) as [Hsmall|Hbig].
  { exists (bytes s). split; [|done]. unfold split_abs.
    destruct (Z.ltb_spec (b_size b) (size + 64)); [|lia]. simpl. rewrite <-Hh. by destruct s. }
  rewrite !u64_small by (rewrite ?u64_small; lia).
  pose proof (split_map l1 b l2 size _ Hwf ltac:(lia) Hbig Hal) as Hmap. cbv zeta in Hmap.
  exists (range_del (bytes s) (b_addr b + 48 + size) 48). split.
  2:{ apply (agree_out_weaken (b_addr b + 48 + size) (b_addr b + 48 + size + 48));
        [apply agree_range_del|lia..]. }
  unfold new_hdr. rewrite kmod_bind. set (na := b_addr b + 48 + size) in *.
  rewrite HEADER_SIZE_eq, Hh. destruct l2 as [|c l2']; cbn [head_addr] in *.
  - rewrite Z.eqb_refl. cbn [negb]. rewrite mret_bind.
    rewrite (upd_hdr_bind _ _ (hdr_of b (last_addr 0 l1) 0))
      by (simpl; rewrite lookup_insert_ne by lia; by rewrite <-Hh).
    rewrite (upd_hdr_Done _ (b_addr b) (set_next na (hdr_of b (last_addr 0 l1) 0)))
      by (simpl; apply lookup_insert_eq).
    simpl. by rewrite Hmap.
  - pose proof (wf_range _ _ c Hwf ltac:(set_solver)) as (? & ? & ? & ? & ?).
    assert (b_addr b + 48 + b_size b ≤ b_addr c) as Hbc.
    { destruct Hwf as (Hok & Hg & _). apply geom_app in Hg as (? & _ & Hg). simpl in Hg.
      unfold b_end in Hg. lia. }
    destruct (Z.eqb_spec (b_addr c) 0); [lia|]. cbn [negb].
    assert (hdr_map (l1 ++ b :: c :: l2') !! b_addr c = Some (hdr_of c (b_addr b) (head_addr l2' 0))) as Hc.
    { pose proof (hdr_map_lookup (l1 ++ [b]) c l2' (heap_current_end s)) as Hl.
      rewrite <-app_assoc, last_addr_app in Hl. by apply Hl. }
    rewrite (upd_hdr_bind _ _ (hdr_of c (b_addr b) (head_addr l2' 0)))
      by (simpl; by rewrite lookup_insert_ne by lia).
    rewrite (upd_hdr_bind _ _ (hdr_of b (last_addr 0 l1) (b_addr c)))
      by (simpl; rewrite !lookup_insert_ne by lia; by rewrite <-Hh).
    rewrite (upd_hdr_Done _ (b_addr b) (set_next na (hdr_of b (last_addr 0 l1) (b_addr c))))
      by (simpl; apply lookup_insert_eq).
    simpl. by rewrite Hmap.
Qed.
End split.

(** ** Coalescing *)

Definition merge_blk (b c : blk) : blk :=
  mkBlk (b_addr b) (b_size b + 48 + b_size c) (b_free b).

(** A block absorbs the free blocks that follow it. *)
Fixpoint coalesce_abs (b : blk) (l : list blk) : blk * list blk :=
  match l with
  | [] => (b, [])
  | c :: l' => if b_free c then coalesce_abs (merge_blk b c) l' else (b, c :: l')
  end.

Lemma hdr_map_key bs k h : hdr_map bs !! k = Some h → ∃ b, b ∈ bs ∧ k = b_addr b.
Proof.
  intros Hk%elem_of_list_to_map_2. apply (list_elem_of_fmap_2 fst) in Hk.
  rewrite hl_keys in Hk. simpl in Hk. apply list_elem_of_fmap in Hk as (b & -> & Hb). by exists b.
Qed.

Lemma hdr_rest_None l1 x y l2 a :
  (∀ c, c ∈ l1 ++ l2 → b_addr c ≠ a) → hdr_rest l1 x y l2 !! a = None.
Proof.
  intros Hne. apply not_elem_of_list_to_map_1. rewrite fmap_app, !hl_keys, <-fmap_app.
  intros (c & -> & Hc)%list_elem_of_fmap. by apply (Hne c).
Qed.

Lemma hdrs_outside_delete M a n :
  0 < n → (∀ k h, M !! k = Some h → k ≠ a → k + 48 ≤ a ∨ a + n ≤ k) →
  hdrs_outside M a n = delete a M.
Proof.
  intros Hn Hout. apply map_eq. intros k. unfold hdrs_outside. rewrite HEADER_SIZE_eq.
  rewrite lookup_delete. case_decide as Hk.
  - subst. apply map_lookup_filter_None. right. intros h _. lia.
  - destruct (M !! k) as [h|] eqn:E.
    + apply map_lookup_filter_Some. split; [done|]. destruct (Hout k h E); [congruence|tauto..].
    + apply map_lookup_filter_None. by left.
Qed.

(** Nothing overlaps a range of bytes that lies in a block's payload. *)
Lemma hdrs_outside_payload l1 b l2 hi a n :
  wf_blocks (l1 ++ b :: l2) hi → b_addr b + 48 ≤ a → a + n ≤ b_end b →
  hdrs_outside (hdr_map (l1 ++ b :: l2)) a n = hdr_map (l1 ++ b :: l2).
Proof.
  intros Hwf Ha Hn. apply map_filter_id. intros k h Hk.
  apply hdr_map_key in Hk as (c & Hc & ->). rewrite HEADER_SIZE_eq.
  pose proof (wf_range _ _ c Hwf Hc) as (? & ? & ? & ? & ?).
  destruct Hwf as (Hok & Hg & _).
  assert (c = b ∨ c ∈ l1 ++ l2) as [->|Hc'] by set_solver; [lia|].
  destruct (geom_others _ _ _ _ _ _ Hok Hg Hc'); unfold b_end in *; lia.
Qed.

Section coalesce.
Context {B : Type} `{HeapBacking B}.
Implicit Types (s : Heap B).

Lemma merge_wf l1 b c l2 hi :
  wf_blocks (l1 ++ b :: c :: l2) hi → wf_blocks (l1 ++ merge_blk b c :: l2) hi.
Proof.
  intros Hwf. pose proof (wf_range _ _ b Hwf ltac:(set_solver)) as (? & ? & ? & ? & ?).
  pose proof (wf_range _ _ c Hwf ltac:(set_solver)) as (? & ? & ? & ? & ?).
  apply (wf_replace l1 [b; c] [merge_blk b c] l2 hi Hwf).
  - constructor; [|done]. split_and!; simpl; lia.
  - intros lo e (? & ? & ?). simpl in *. unfold b_end in *. simpl in *. lia.
Qed.

(** The map after one iteration of the loop. *)
Lemma absorb_map l1 b c l2 hi :
  wf_blocks (l1 ++ b :: c :: l2) hi →
  let h := hdr_of b (last_addr 0 l1) (b_addr c) in
  let h2 := set_next (head_addr l2 0) (set_size (b_size b + 48 + b_size c) h) in
  let m1 := <[b_addr b := h2]> (<[b_addr b := set_size (b_size b + 48 + b_size c) h]>
              (hdr_map (l1 ++ b :: c :: l2))) in
  let m2 := match l2 with
            | [] => m1
            | d :: l2' => <[b_addr d := set_prev (b_addr b) (hdr_of d (b_addr c) (head_addr l2' 0))]> m1
            end in
  hdrs_outside m2 (b_addr c) 48 = hdr_map (l1 ++ merge_blk b c :: l2).
Proof.
  intros Hwf h h2 m1 m2. pose proof (merge_wf _ _ _ _ _ Hwf) as Hwf'.
  pose proof (wf_range _ _ b Hwf ltac:(set_solver)) as (? & ? & ? & ? & ?).
  pose proof (wf_range _ _ c Hwf ltac:(set_solver)) as (? & ? & ? & ? & ?).
  assert (∀ x, x ∈ (l1 ++ [b]) ++ l2 → b_end x ≤ b_addr c ∨ b_end c ≤ b_addr x) as Hothers.
  { intros x Hx. destruct Hwf as (Hok & Hg & _). change (b :: c :: l2) with ([b] ++ c :: l2) in *.
    rewrite app_assoc in *. by eapply geom_others. }
  assert (∀ x, x ∈ l1 ++ b :: c :: l2 → 0 ≤ b_size x) as Hsz
    by (intros x Hx; apply (wf_range _ _ x Hwf Hx)).
  rewrite hdrs_outside_delete; [|lia|].
  2:{ intros k hk Hk Hne. assert (∃ x, x ∈ l1 ++ b :: c :: l2 ∧ k = b_addr x) as (x & Hx & ->).
      { unfold m2, m1 in Hk. destruct l2 as [|d l2'];
          rewrite !lookup_insert in Hk; repeat case_decide; subst;
          first [by eapply hdr_map_key | eexists; split; [|reflexivity]; set_solver]. }
      assert (x ∈ (l1 ++ [b]) ++ l2) as Hx' by (assert (x ≠ c) by congruence; set_solver).
      specialize (Hsz x Hx). destruct (Hothers x Hx'); unfold b_end in *; lia. }
  assert (∀ y l2', l2' ⊆ l2 → hdr_rest l1 (b_addr b) y l2' !! b_addr c = None) as Hrest.
  { intros y l2' Hsub. apply hdr_rest_None. intros x Hx Heq.
    destruct (Hothers x ltac:(set_solver)); specialize (Hsz x ltac:(set_solver));
      unfold b_end in *; lia. }
  assert (b_addr b < b_addr c).
  { destruct Hwf as (_ & Hg & _). apply geom_app in Hg as (? & _ & ? & ? & _).
    unfold b_end in *. lia. }
  destruct Hwf as (Hok & Hg & _). destruct Hwf' as (Hok' & Hg' & _).
  destruct l2 as [|d l2']; unfold m2, m1; simpl.
  - pose proof (hdr_map_segment l1 [b; c] [] _ _ Hok Hg) as E1.
    pose proof (hdr_map_segment l1 [merge_blk b c] [] _ _ Hok' Hg') as E2. simpl in E1, E2.
    rewrite E1, E2. unfold hdr_rest in *. simpl in *. pose proof (Hrest 0 [] ltac:(done)) as Hn. unfold hdr_rest in Hn. simpl in Hn.
    rewrite <-!insert_union_l, !map_empty_union.
    apply map_eq. intros k. rewrite lookup_delete, !lookup_insert.
    unfold h2, h, hdr_of, set_size, set_next. simpl.
    repeat case_decide; subst; try done; try lia.
  - pose proof (hdr_map_segment l1 [b; c; d] l2' _ _ Hok Hg) as E1.
    pose proof (hdr_map_segment l1 [merge_blk b c; d] l2' _ _ Hok' Hg') as E2. simpl in E1, E2.
    rewrite E1, E2. unfold last_addr at 2 4. simpl. pose proof (Hrest (b_addr d) l2' ltac:(set_solver)) as Hn.
    destruct (Hothers d ltac:(set_solver)) as [Hd|Hd]; specialize (Hsz d ltac:(set_solver));
      unfold b_end in *; [exfalso|];
      [apply geom_app in Hg as (? & _ & Hg); simpl in Hg; unfold b_end in Hg; lia|].
    rewrite <-!insert_union_l, !map_empty_union.
    apply map_eq. intros k. rewrite lookup_delete, !lookup_insert.
    unfold h2, h, hdr_of, set_size, set_next, set_prev. simpl.
    repeat case_decide; subst; try done; try lia.
Qed.

Lemma coalesce_abs_addr b l : b_addr (coalesce_abs b l).1 = b_addr b.
Proof. revert b. induction l as [|c l IH]; intros b; simpl; [done|]. destruct (b_free c); [by rewrite IH|done]. Qed.
Lemma coalesce_abs_free b l : b_free (coalesce_abs b l).1 = b_free b.
Proof. revert b. induction l as [|c l IH]; intros b; simpl; [done|]. destruct (b_free c); [by rewrite IH|done]. Qed.
Lemma coalesce_abs_used b l : used (coalesce_abs b l).2 = used l.
Proof.
  revert b. induction l as [|c l IH]; intros b; simpl; [done|].
  destruct (b_free c) eqn:E; [|done]. rewrite IH. unfold used.
  by rewrite filter_cons_False by congruence.
Qed.
Lemma coalesce_abs_size b l : Forall blk_ok l → b_size b ≤ b_size (coalesce_abs b l).1.
Proof.
  intros Hok. revert b. induction Hok as [|c l (_ & _ & ?) Hok IH]; intros b; simpl; [done|].
  destruct (b_free c); [|done]. specialize (IH (merge_blk b c)). simpl in IH. lia.
Qed.
(** What is absorbed does not reach the blocks that stay. *)
Lemma coalesce_abs_reach b l lo hi :
  Forall blk_ok l → geom lo l hi → lo ≤ head_addr (coalesce_abs b l).2 hi.
Proof.
  intros Hok. revert b lo. induction Hok as [|c l (_ & _ & ?) Hok IH]; intros b lo; simpl; [done|].
  intros [? Hg]. destruct (b_free c); simpl; [|done].
  specialize (IH (merge_blk b c) _ Hg). unfold b_end in IH. lia.
Qed.
Lemma coalesce_abs_wf l1 b l2 hi :
  wf_blocks (l1 ++ b :: l2) hi →
  wf_blocks (l1 ++ (coalesce_abs b l2).1 :: (coalesce_abs b l2).2) hi.
Proof.
  revert b. induction l2 as [|c l2 IH]; intros b Hwf; simpl; [done|].
  destruct (b_free c); [|done]. apply IH. by apply merge_wf.
Qed.

Lemma absorb_spec fuel s l1 b c l2 :
  wf_blocks (l1 ++ b :: c :: l2) (heap_current_end s) →
  hdrs s = hdr_map (l1 ++ b :: c :: l2) → b_free c = true →
  coalesce_forward (S fuel) (b_addr b) s =
  coalesce_forward fuel (b_addr b)
    (set_mem (hdr_map (l1 ++ merge_blk b c :: l2)) (range_set (bytes s) (b_addr c) 48 204) s).
Proof.
  intros Hwf Hh Hc. pose proof (wf_range _ _ b Hwf ltac:(set_solver)) as (? & ? & ? & ? & ?).
  pose proof (wf_range _ _ c Hwf ltac:(set_solver)) as (? & ? & ? & ? & ?).
  pose proof (hdr_map_lookup l1 b (c :: l2) _ Hwf) as Hlb.
  assert (wf_blocks ((l1 ++ [b]) ++ c :: l2) (heap_current_end s)) as Hwf2 by (by rewrite <-app_assoc).
  pose proof (hdr_map_lookup (l1 ++ [b]) c l2 _ Hwf2) as Hlc.
  rewrite <-app_assoc, last_addr_app in Hlc. simpl in Hlc. unfold last_addr at 1 in Hlc. simpl in Hlc.
  pose proof (wf_range_mid _ _ _ _ (merge_wf _ _ _ _ _ Hwf)) as (_ & ? & _).
  cbn [coalesce_forward].
  erewrite hdr_bind by (rewrite Hh; exact Hlb). simpl.
  destruct (Z.eqb_spec (b_addr c) 0); [lia|].
  erewrite hdr_bind by (rewrite Hh; exact Hlc). simpl. rewrite Hc. simpl.
  erewrite upd_hdr_bind by (rewrite Hh; exact Hlb). simpl.
  unfold b_end in *. simpl in *. rewrite HEADER_SIZE_eq. rewrite (u64_small (48 + b_size c)), u64_small by lia.
  erewrite upd_hdr_bind by (simpl; by rewrite lookup_insert_eq). simpl.
  pose proof (absorb_map l1 b c l2 _ Hwf) as Hmap. simpl in Hmap.
  replace (b_size b + (48 + b_size c)) with (b_size b + 48 + b_size c) by lia.
  destruct l2 as [|d l2']; simpl.
  - rewrite mret_bind. unfold kmemset. rewrite kmod_bind. simpl. rewrite Hh.
    unfold set_mem. simpl. simpl in Hmap. unfold FREED_POISON. rewrite <-Hmap. done.
  - pose proof (wf_range _ _ d Hwf ltac:(set_solver)) as (? & ? & ? & ? & ?).
    assert (b_addr c < b_addr d ∧ b_addr b < b_addr c) as [? ?].
    { destruct Hwf as (_ & Hg & _). apply geom_app in Hg as (? & _ & ? & ? & ? & _).
      unfold b_end in *. lia. }
    destruct (Z.eqb_spec (b_addr d) 0); [lia|]. simpl.
    assert (wf_blocks ((l1 ++ [b; c]) ++ d :: l2') (heap_current_end s)) as Hwf3 by (by rewrite <-app_assoc).
    pose proof (hdr_map_lookup (l1 ++ [b; c]) d l2' _ Hwf3) as Hld.
    rewrite <-app_assoc, last_addr_app in Hld. simpl in Hld. unfold last_addr at 1 in Hld. simpl in Hld.
    erewrite upd_hdr_bind by (simpl; rewrite !lookup_insert_ne, Hh by lia; exact Hld). simpl.
    unfold kmemset. rewrite kmod_bind. simpl. rewrite Hh.
    unfold set_mem. simpl. unfold FREED_POISON. rewrite <-Hmap. done.
Qed.

Lemma coalesce_stop fuel s l1 b l2 :
  wf_blocks (l1 ++ b :: l2) (heap_current_end s) → hdrs s = hdr_map (l1 ++ b :: l2) →
  (∀ c l2', l2 = c :: l2' → b_free c = false) →
  coalesce_forward (S fuel) (b_addr b) s = Done tt s.
Proof.
  intros Hwf Hh Hc. cbn [coalesce_forward].
  erewrite hdr_bind by (rewrite Hh; exact (hdr_map_lookup _ _ _ _ Hwf)). simpl.
  destruct l2 as [|c l2]; simpl; [done|].
  pose proof (wf_range _ _ c Hwf ltac:(set_solver)) as (? & _).
  destruct (Z.eqb_spec (b_addr c) 0); [lia|].
  assert (wf_blocks ((l1 ++ [b]) ++ c :: l2) (heap_current_end s)) as Hwf2 by (by rewrite <-app_assoc).
  pose proof (hdr_map_lookup (l1 ++ [b]) c l2 _ Hwf2) as Hlc. rewrite <-app_assoc in Hlc.
  erewrite hdr_bind by (rewrite Hh; exact Hlc). simpl. by rewrite (Hc c l2 eq_refl).
Qed.

Lemma coalesce_spec fuel s l1 b l2 :
  wf_blocks (l1 ++ b :: l2) (heap_current_end s) → hdrs s = hdr_map (l1 ++ b :: l2) →
  (length l2 < fuel)%nat →
  let r := coalesce_abs b l2 in
  ∃ m, coalesce_forward fuel (b_addr b) s = Done tt (set_mem (hdr_map (l1 ++ r.1 :: r.2)) m s) ∧
    agree_out (b_end b) (head_addr r.2 (heap_current_end s)) (bytes s) m.
Proof.
  revert b s fuel. induction l2 as [|c l2 IH]; intros b s [|fuel] Hwf Hh Hlen; simpl in Hlen; try lia.
  - exists (bytes s). split; [|done]. cbn [coalesce_abs fst snd]. rewrite (coalesce_stop fuel s l1 b []); [|done..].
    rewrite <-Hh. by destruct s.
  - cbn [coalesce_abs]. destruct (b_free c) eqn:Hc.
    2:{ exists (bytes s). split; [|done]. cbn [fst snd].
        rewrite (coalesce_stop fuel s l1 b (c :: l2)); [by rewrite <-Hh; destruct s|done..|].
        by intros ? ? [= <- <-]. }
    rewrite (absorb_spec fuel s l1 b c l2 Hwf Hh Hc).
    destruct (IH (merge_blk b c) (set_mem (hdr_map (l1 ++ merge_blk b c :: l2))
      (range_set (bytes s) (b_addr c) 48 204) s) fuel) as (m & Hm & Hag);
      [by apply merge_wf|done|lia|].
    simpl in Hm, Hag. exists m. rewrite Hm. split; [done|].
    destruct Hwf as (Hok & Hg & _). rewrite !Forall_app, !Forall_cons in Hok.
    destruct Hok as (_ & (_ & _ & ?) & (_ & _ & ?) & Hok).
    apply geom_app in Hg as (? & _ & ? & ? & Hg).
    pose proof (coalesce_abs_reach (merge_blk b c) l2 _ _ Hok Hg).
    eapply agree_out_trans; (eapply agree_out_weaken; [first [apply agree_range_set|exact Hag]|..]);
      unfold b_end in *; simpl in *; lia.
Qed.
End coalesce.

(** ** Payloads that an operation leaves alone *)

Definition keeps (bs : list blk) (m m' : gmap Z Z) : Prop :=
  ∀ c, c ∈ bs → ∀ i, payload c ≤ i < b_end c → m' !! i = m !! i.

Lemma keeps_refl bs m : keeps bs m m.
Proof. done. Qed.
Lemma keeps_trans bs m1 m2 m3 : keeps bs m1 m2 → keeps bs m2 m3 → keeps bs m1 m3.
Proof. intros H1 H2 c Hc i Hi. rewrite (H2 c Hc i Hi). by apply (H1 c). Qed.
Lemma keeps_sub bs bs' m m' : (∀ c, c ∈ bs' → c ∈ bs) → keeps bs m m' → keeps bs' m m'.
Proof. intros Hs H1 c Hc. apply H1. by apply Hs. Qed.
Lemma keeps_agree bs lo hi m m' :
  (∀ c, c ∈ bs → b_end c ≤ lo ∨ hi ≤ b_addr c) → agree_out lo hi m m' → keeps bs m m'.
Proof.
  intros Hs Hag c Hc i Hi. apply Hag. unfold payload in Hi. destruct (Hs c Hc); lia.
Qed.

Lemma used_app l1 l2 : used (l1 ++ l2) = used l1 ++ used l2.
Proof. apply filter_app. Qed.
Lemma used_cons_free b l : b_free b = true → used (b :: l) = used l.
Proof. intros Hb. unfold used. by rewrite filter_cons_False by congruence. Qed.
Lemma used_cons_used b l : b_free b = false → used (b :: l) = b :: used l.
Proof. intros Hb. unfold used. by rewrite filter_cons_True. Qed.
Lemma elem_of_used b bs : b ∈ used bs ↔ b ∈ bs ∧ b_free b = false.
Proof. unfold used. rewrite list_elem_of_filter. tauto. Qed.
Lemma used_split b bs : b ∈ used bs → ∃ l1 l2, bs = l1 ++ b :: l2 ∧ b_free b = false.
Proof. intros [Hb ?]%elem_of_used. apply list_elem_of_split in Hb as (l1 & l2 & ->). by exists l1, l2. Qed.

(** The blocks before and after the tail of a well-formed list. *)
Lemma wf_before l1 b l2 hi c : wf_blocks (l1 ++ b :: l2) hi → c ∈ l1 → b_end c ≤ b_addr b.
Proof.
  intros (Hok & Hg & _) Hc. apply Forall_app in Hok as [Hok _].
  apply geom_app in Hg as (mid & Hg & ? & _). destruct (geom_In _ _ _ c Hok Hg Hc). lia.
Qed.
Lemma wf_after l1 b l2 hi c :
  wf_blocks (l1 ++ b :: l2) hi → c ∈ l2 → b_end b ≤ head_addr l2 hi ≤ b_addr c.
Proof.
  intros (Hok & Hg & _) Hc. apply Forall_app in Hok as [_ Hok]. apply Forall_cons in Hok as [_ Hok].
  apply geom_app in Hg as (mid & _ & _ & Hg). destruct l2 as [|d l2]; [set_solver|]. simpl.
  destruct Hg as [? Hg]. apply Forall_cons in Hok as [(_ & _ & ?) Hok].
  apply elem_of_cons in Hc as [->|Hc]; [lia|].
  destruct (geom_In _ _ _ c Hok Hg Hc). unfold b_end in *. lia.
Qed.

Lemma size_hdr_map bs hi : wf_blocks bs hi → size (hdr_map bs) = length bs.
Proof.
  intros (Hok & Hg & _). unfold hdr_map. rewrite map_size_list_to_map.
  - rewrite <-(length_fmap fst), hl_keys. apply length_fmap.
  - rewrite hl_keys. by eapply geom_NoDup.
Qed.

(** Changing the size or the flag of one block. *)
Lemma hdr_map_update l1 b b' l2 hi h :
  wf_blocks (l1 ++ b :: l2) hi → wf_blocks (l1 ++ b' :: l2) hi → b_addr b' = b_addr b →
  h = hdr_of b' (last_addr 0 l1) (head_addr l2 0) →
  <[b_addr b := h]> (hdr_map (l1 ++ b :: l2)) = hdr_map (l1 ++ b' :: l2).
Proof.
  intros (Hok & Hg & _) (Hok' & Hg' & _) Ha ->.
  rewrite (hdr_map_middle _ _ _ _ _ Hok Hg), (hdr_map_middle _ _ _ _ _ Hok' Hg'), Ha.
  apply insert_insert_eq.
Qed.

Definition set_bfree (f : bool) (b : blk) : blk := mkBlk (b_addr b) (b_size b) f.

Lemma set_bfree_wf f l1 b l2 hi :
  wf_blocks (l1 ++ b :: l2) hi → wf_blocks (l1 ++ set_bfree f b :: l2) hi.
Proof.
  intros Hwf. apply (wf_replace l1 [b] [set_bfree f b] l2 hi Hwf); [|done].
  destruct Hwf as (Hok & _). rewrite Forall_app, Forall_cons in Hok.
  constructor; [|done]. apply Hok.
Qed.

(** ** Freeing *)

Section kfree.
Context {B : Type} `{HeapBacking B}.
Implicit Types (s : Heap B).

Lemma coalesce_keeps s l1 b l2 :
  wf_blocks (l1 ++ b :: l2) (heap_current_end s) → hdrs s = hdr_map (l1 ++ b :: l2) →
  ∃ m, coalesce_forward (walk_fuel s) (b_addr b) s =
      Done tt (set_mem (hdr_map (l1 ++ (coalesce_abs b l2).1 :: (coalesce_abs b l2).2)) m s) ∧
    keeps (l1 ++ b :: (coalesce_abs b l2).2) (bytes s) m.
Proof.
  intros Hwf Hh. destruct (coalesce_spec (walk_fuel s) s l1 b l2 Hwf Hh) as (m & Hm & Hag).
  { unfold walk_fuel. rewrite Hh, (size_hdr_map _ _ Hwf), length_app. simpl. lia. }
  exists m. split; [done|]. eapply keeps_agree; [|exact Hag]. intros c Hc.
  pose proof (wf_range_mid _ _ _ _ Hwf) as (_ & _ & ? & _).
  apply elem_of_app in Hc as [Hc|[->|Hc]%elem_of_cons].
  - pose proof (wf_before _ _ _ _ _ Hwf Hc). left. unfold b_end in *. lia.
  - by left.
  - right. by apply (wf_after _ _ _ _ c (coalesce_abs_wf _ _ _ _ Hwf)).
Qed.

(** The second coalescing step of [kfree], into the block before. *)
Lemma coalesce_prev s l1 b l2 :
  wf_blocks (l1 ++ b :: l2) (heap_current_end s) → hdrs s = hdr_map (l1 ++ b :: l2) →
  b_free b = true →
  let bs' := match last l1 with
    | Some p => if b_free p then
        removelast l1 ++ (coalesce_abs p (b :: l2)).1 :: (coalesce_abs p (b :: l2)).2
        else l1 ++ b :: l2
    | None => b :: l2
    end in
  ∃ m, (h ← hdr (b_addr b);
        if prev h =? 0 then mret tt else
        hp ← hdr (prev h);
        if free hp =? 0 then mret tt else
        fuel ← kget walk_fuel;
        coalesce_forward fuel (prev h)) s = Done tt (set_mem (hdr_map bs') m s) ∧
    wf_blocks bs' (heap_current_end s) ∧ used bs' = used (l1 ++ l2) ∧
    keeps (used (l1 ++ l2)) (bytes s) m ∧ bs' ≠ [] ∧
    head_addr bs' 0 = head_addr (l1 ++ b :: l2) 0.
Proof.
  intros Hwf Hh Hb bs'. erewrite hdr_bind by (rewrite Hh; exact (hdr_map_lookup _ _ _ _ Hwf)).
  simpl. destruct l1 as [|p l1 _] using rev_ind.
  { exists (bytes s). simpl in Hh, bs'. subst bs'. rewrite <-Hh.
    split_and!; [by destruct s|done|by apply used_cons_free|done..]. }
  subst bs'. rewrite last_snoc, !last_addr_snoc. simpl.
  rewrite <-app_assoc in Hwf, Hh. simpl in Hwf, Hh.
  pose proof (wf_range_mid _ _ _ _ Hwf) as (? & ? & ? & ? & ?).
  destruct (Z.eqb_spec (b_addr p) 0); [lia|].
  erewrite hdr_bind by (rewrite Hh; exact (hdr_map_lookup _ _ _ _ Hwf)). simpl.
  destruct (b_free p) eqn:Hp; simpl.
  2:{ exists (bytes s). rewrite <-app_assoc. simpl. rewrite <-Hh.
      split_and!; [by destruct s|done| |done|by destruct l1|done].
      rewrite <-app_assoc. rewrite !used_app. simpl.
      by rewrite !(used_cons_used p), used_cons_free. }
  rewrite kget_bind. destruct (coalesce_keeps s l1 p (b :: l2) Hwf Hh) as (m & Hm & Hk).
  exists m. rewrite removelast_last, Hm. simpl. rewrite Hb.
  pose proof (coalesce_abs_wf _ _ _ _ Hwf) as Hwf'. simpl in Hwf'. rewrite Hb in Hwf'.
  split_and!; [done|done| | |by destruct l1|].
  - rewrite <-app_assoc, !used_app. simpl. rewrite !used_cons_free, coalesce_abs_used; [done..|].
    by rewrite coalesce_abs_free.
  - eapply keeps_sub; [|exact Hk]. intros c Hc. simpl. rewrite Hb.
    rewrite <-app_assoc, used_app in Hc. simpl in Hc. rewrite used_cons_free in Hc by done.
    rewrite <-(coalesce_abs_used (merge_blk p b) l2) in Hc.
    rewrite elem_of_app, elem_of_cons. rewrite elem_of_app, !elem_of_used in Hc. tauto.
  - rewrite !head_addr_app. simpl. by rewrite coalesce_abs_addr.
Qed.

Lemma u64_payload l1 b l2 hi :
  wf_blocks (l1 ++ b :: l2) hi → u64 (payload b - HEADER_SIZE) = b_addr b.
Proof.
  intros Hwf. pose proof (wf_range_mid _ _ _ _ Hwf) as (? & ? & ? & ? & ?).
  unfold payload, b_end in *. rewrite HEADER_SIZE_eq, u64_small; lia.
Qed.

Lemma load_magic_bind {A} s l1 b l2 (k : Z → K (Heap B) A) :
  wf_blocks (l1 ++ b :: l2) (heap_current_end s) → hdrs s = hdr_map (l1 ++ b :: l2) →
  (load_magic (u64 (payload b - HEADER_SIZE)) ≫= k) s = k BLOCK_MAGIC s.
Proof.
  intros Hwf Hh. apply bind_Done. rewrite (u64_payload _ _ _ _ Hwf).
  unfold load_magic, kopt. by rewrite Hh, (hdr_map_lookup _ _ _ _ Hwf).
Qed.

Lemma kfree_lemma s l1 b l2 :
  heap_repr s (l1 ++ b :: l2) → b_free b = false →
  ∃ m bs', kfree (payload b) s = Done tt (set_mem (hdr_map bs') m s) ∧
    heap_repr (set_mem (hdr_map bs') m s) bs' ∧ used bs' = used (l1 ++ l2) ∧
    keeps (used (l1 ++ l2)) (bytes s) m.
Proof.
  intros Hr Hb. pose proof (heap_repr_wf _ _ Hr) as Hwf. pose proof (hr_hdrs _ _ Hr) as Hh.
  pose proof (wf_range_mid _ _ _ _ Hwf) as (? & ? & ? & ? & ?).
  unfold kfree. destruct (Z.eqb_spec (payload b) 0); [unfold payload in *; lia|].
  rewrite (load_magic_bind s l1 b l2) by done. simpl. rewrite (u64_payload _ _ _ _ Hwf).
  erewrite hdr_bind by (rewrite Hh; exact (hdr_map_lookup _ _ _ _ Hwf)). simpl. rewrite Hb. simpl.
  unfold kmemset. rewrite kmod_bind. rewrite Hh.
  rewrite (hdrs_outside_payload l1 b l2 _ _ _ Hwf) by (unfold payload, b_end; lia).
  erewrite upd_hdr_bind by (simpl; exact (hdr_map_lookup _ _ _ _ Hwf)). simpl.
  pose proof (set_bfree_wf true _ _ _ _ Hwf) as Hwf1.
  erewrite (hdr_map_update l1 b (set_bfree true b) l2 _ _ Hwf Hwf1) by done.
  rewrite kget_bind. set (s1 := set_mem _ _ _).
  destruct (coalesce_keeps s1 l1 (set_bfree true b) l2 Hwf1 eq_refl) as (m1 & Hm1 & Hk1).
  change (b_addr (set_bfree true b)) with (b_addr b) in Hm1. kbind Hm1. set (r := coalesce_abs (set_bfree true b) l2) in *.
  pose proof (coalesce_abs_wf _ _ _ _ Hwf1) as Hwf2. fold r in Hwf2.
  assert (b_addr r.1 = b_addr b) as Ha by exact (coalesce_abs_addr (set_bfree true b) l2).
  destruct (coalesce_prev (set_mem (hdr_map (l1 ++ r.1 :: r.2)) m1 s1) l1 r.1 r.2 Hwf2 eq_refl)
    as (m2 & Hm2 & Hwf3 & Hu & Hk2 & Hne & Hhd); [exact (coalesce_abs_free (set_bfree true b) l2)|].
  rewrite Ha in Hm2. eexists m2, _. split; [exact Hm2|].
  assert (used (l1 ++ r.2) = used (l1 ++ l2)) as Hu2.
  { rewrite !used_app. f_equal. apply coalesce_abs_used. }
  rewrite Hu2 in Hu, Hk2. split_and!; [|done|].
  - apply (heap_repr_mem _ _ _ _ Hr); [done| |done].
    rewrite Hhd, !head_addr_app. simpl. by rewrite Ha.
  - eapply keeps_trans; [|exact Hk2]. eapply keeps_trans.
    + eapply (keeps_agree _ (payload b) (b_end b)); [|eapply agree_out_weaken;
        [apply (agree_range_set (bytes s) (payload b) (b_size b) FREED_POISON)|done|unfold payload, b_end; lia]].
      intros c [Hc _]%elem_of_used. destruct Hwf as (Hok & Hg & _).
      destruct (geom_others _ _ _ _ _ _ Hok Hg Hc); unfold payload; [left; lia|by right].
    + eapply keeps_sub; [|exact Hk1]. intros c. rewrite <-Hu2, elem_of_used, !elem_of_app, elem_of_cons. tauto.
Qed.

(** A block that is already free is left alone. *)
Lemma kfree_double s bs b :
  heap_repr s bs → b ∈ bs → b_free b = true → kfree (payload b) s = Done tt s.
Proof.
  intros Hr Hb Hf. apply list_elem_of_split in Hb as (l1 & l2 & ->).
  pose proof (heap_repr_wf _ _ Hr) as Hwf. pose proof (hr_hdrs _ _ Hr) as Hh.
  pose proof (wf_range_mid _ _ _ _ Hwf) as (? & ? & ? & ? & ?).
  unfold kfree. destruct (Z.eqb_spec (payload b) 0); [unfold payload in *; lia|].
  rewrite (load_magic_bind s l1 b l2) by done. simpl. rewrite (u64_payload _ _ _ _ Hwf).
  erewrite hdr_bind by (rewrite Hh; exact (hdr_map_lookup _ _ _ _ Hwf)). simpl. by rewrite Hf.
Qed.
End kfree.

(** ** Allocating *)

(** Splitting leaves the block first, and at most one free block after it. *)
Lemma split_abs_cons b size :
  0 ≤ size ≤ b_size b → ∃ x r, split_abs b size = x :: r ∧ b_addr x = b_addr b ∧
    b_free x = b_free b ∧ size ≤ b_size x ∧ b_end x ≤ b_end b ∧ used r = [].
Proof.
  intros Hs. unfold split_abs. destruct (Z.ltb_spec (b_size b) (size + 64)).
  - exists b, []. split_and!; [done..|lia|lia|done].
  - eexists _, _. split_and!; [done..| | |done]; unfold b_end; simpl; lia.
Qed.

(** The blocks a list becomes when [b] is allocated for [size] bytes. *)
Definition alloc_result (l1 : list blk) (b : blk) (l2 : list blk) (size : Z)
    (b' : blk) (bs' : list blk) : Prop :=
  b_addr b' = b_addr b ∧ b_free b' = false ∧ size ≤ b_size b' ∧ b_end b' ≤ b_end b ∧
  ∃ r, bs' = l1 ++ b' :: r ++ l2 ∧ used r = [].

Lemma alloc_result_used l1 b l2 size b' bs' :
  b_free b = true → alloc_result l1 b l2 size b' bs' →
  used bs' ≡ₚ b' :: used (l1 ++ b :: l2).
Proof.
  intros Hb (_ & Hf & _ & _ & r & -> & Hr). rewrite !used_app.
  rewrite (used_cons_used b'), (used_cons_free b), used_app, Hr by done. simpl.
  by rewrite Permutation_middle.
Qed.

Definition zeroed (a n : Z) (m : gmap Z Z) : Prop :=
  ∀ i, a ≤ i < a + n → m !! i = Some 0.

Section kmalloc_proofs.
Context {B : Type} `{HeapBacking B}.
Implicit Types (s : Heap B).

Lemma block_allocate_spec s l1 b l2 size flags :
  wf_blocks (l1 ++ b :: l2) (heap_current_end s) → hdrs s = hdr_map (l1 ++ b :: l2) →
  0 ≤ size ≤ b_size b → size mod 16 = 0 →
  ∃ m b' bs', block_allocate (b_addr b) size flags s = Done (payload b) (set_mem (hdr_map bs') m s) ∧
    wf_blocks bs' (heap_current_end s) ∧ alloc_result l1 b l2 size b' bs' ∧
    agree_out (b_addr b) (b_end b) (bytes s) m ∧
    (Z.odd flags = true → zeroed (payload b) size m).
Proof.
  intros Hwf Hh Hs Hal. pose proof (wf_range_mid _ _ _ _ Hwf) as (? & ? & ? & ? & ?).
  destruct (split_block_spec s l1 b l2 size Hwf Hh Hs Hal) as (m & Hm & Hag).
  destruct (split_abs_cons b size Hs) as (x & r & Hx & Ha & Hf & Hsx & Hex & Hr).
  pose proof (split_abs_wf l1 b l2 size _ Hwf Hs Hal) as Hwf1.
  rewrite Hx in Hm, Hwf1. simpl in Hm, Hwf1.
  unfold block_allocate. kbind Hm. rewrite <-Ha.
  erewrite upd_hdr_bind by (simpl; exact (hdr_map_lookup _ _ _ _ Hwf1)). simpl.
  pose proof (set_bfree_wf false _ _ _ _ Hwf1) as Hwf2.
  erewrite (hdr_map_update l1 x (set_bfree false x) (r ++ l2) _ _ Hwf1 Hwf2) by done.
  rewrite HEADER_SIZE_eq, Ha. rewrite u64_small by (unfold b_end in *; lia).
  assert (alloc_result l1 b l2 size (set_bfree false x) (l1 ++ set_bfree false x :: r ++ l2)) as Hres.
  { split_and!; [done..|]. by exists r. }
  unfold GFP_ZERO. change 1 with (Z.ones 1). rewrite Z.land_ones by lia. rewrite Z.pow_1_r.
  destruct (Z.eqb_spec (flags mod 2) 0) as [Hz|Hz]; simpl.
  - rewrite mret_bind. exists m, (set_bfree false x), (l1 ++ set_bfree false x :: r ++ l2).
    split_and!; [done|done|done| |].
    + eapply agree_out_weaken; [exact Hag|lia|lia].
    + rewrite Zmod_odd in Hz. destruct (Z.odd flags); lia.
  - unfold kmemset. rewrite kmod_bind. simpl.
    rewrite (hdrs_outside_payload l1 (set_bfree false x) (r ++ l2) _ _ _ Hwf2)
      by (unfold b_end in *; simpl; lia).
    eexists _, (set_bfree false x), (l1 ++ set_bfree false x :: r ++ l2).
    split_and!; [done|done|done| |].
    + eapply agree_out_trans.
      * eapply agree_out_weaken; [exact Hag|lia|lia].
      * eapply agree_out_weaken; [apply agree_range_set|lia|unfold b_end; lia].
    + intros _ i Hi. unfold payload in Hi. by rewrite lookup_range_set, decide_True.
Qed.

(** The first block that is free and large enough. *)
Definition fits (size : Z) (b : blk) : Prop := b_free b = true ∧ size ≤ b_size b.

Lemma first_fit_spec fuel s l1 l2 size :
  wf_blocks (l1 ++ l2) (heap_current_end s) → hdrs s = hdr_map (l1 ++ l2) →
  (length l2 < fuel)%nat →
  (∃ m1 b m2, l2 = m1 ++ b :: m2 ∧ fits size b ∧ Forall (λ c, ¬ fits size c) m1 ∧
     first_fit fuel (head_addr l2 0) size s = Done (b_addr b) s) ∨
  (Forall (λ c, ¬ fits size c) l2 ∧ first_fit fuel (head_addr l2 0) size s = Done 0 s).
Proof.
  revert l1 fuel. induction l2 as [|b l2 IH]; intros l1 [|fuel] Hwf Hh Hf; simpl in Hf; try lia.
  { right. by split. }
  pose proof (wf_range_mid _ _ _ _ Hwf) as (? & ? & ? & ? & ?).
  cbn [first_fit head_addr]. destruct (Z.eqb_spec (b_addr b) 0); [lia|].
  erewrite hdr_bind by (rewrite Hh; exact (hdr_map_lookup _ _ _ _ Hwf)). simpl.
  destruct (negb (Z.b2z (b_free b) =? 0) && (size <=? b_size b)) eqn:E.
  - left. exists [], b, l2. split_and!; [done| |by constructor|done].
    split; destruct (b_free b); simpl in *; lia.
  - assert (¬ fits size b) as Hn by (intros [E1 ?]; rewrite E1 in E; simpl in E; lia).
    replace (l1 ++ b :: l2) with ((l1 ++ [b]) ++ l2) in Hwf, Hh by (by rewrite <-app_assoc).
    destruct (IH (l1 ++ [b]) fuel Hwf Hh ltac:(lia)) as [(m1 & c & m2 & -> & ? & ? & E2)|[? E2]].
    + left. exists (b :: m1), c, m2. split_and!; [done..|by constructor|done].
    + right. split; [by constructor|done].
Qed.

Lemma last_block_spec fuel s l1 l2 b :
  wf_blocks (l1 ++ l2 ++ [b]) (heap_current_end s) → hdrs s = hdr_map (l1 ++ l2 ++ [b]) →
  (length l2 < fuel)%nat →
  last_block fuel (head_addr (l2 ++ [b]) 0) s = Done (b_addr b) s.
Proof.
  revert l1 fuel. induction l2 as [|c l2 IH]; intros l1 [|fuel] Hwf Hh Hf; simpl in Hf; try lia.
  - cbn [last_block head_addr app].
    erewrite hdr_bind by (rewrite Hh; exact (hdr_map_lookup _ _ _ _ Hwf)). done.
  - change ((c :: l2) ++ [b]) with (c :: (l2 ++ [b])) in *. cbn [last_block head_addr].
    erewrite hdr_bind by (rewrite Hh; exact (hdr_map_lookup _ _ _ _ Hwf)). simpl.
    assert (head_addr (l2 ++ [b]) 0 ≠ 0).
    { destruct l2 as [|d l2]; simpl; [pose proof (wf_range _ _ b Hwf ltac:(set_solver))|
        pose proof (wf_range _ _ d Hwf ltac:(set_solver))]; lia. }
    destruct (Z.eqb_spec (head_addr (l2 ++ [b]) 0) 0); [done|].
    replace (l1 ++ c :: l2 ++ [b]) with ((l1 ++ [c]) ++ l2 ++ [b]) in Hwf, Hh by (by rewrite <-app_assoc).
    apply (IH (l1 ++ [c]) fuel Hwf Hh). lia.
Qed.

(** ** Growing *)

(** The only way an operation panics: mapping a heap page finds no frame for a
    page table. *)
Definition exhausted {A} (o : outcome (Heap B) A) : Prop :=
  ∃ s', o = Panic s' ∧ hb_exhausted (backing s').

Lemma exhausted_bind {A C} (m : K (Heap B) A) (f : A → K (Heap B) C) s :
  exhausted (m s) → exhausted ((m ≫= f) s).
Proof. intros (s' & HP & HF). exists s'. split; [by apply bind_Panic|done]. Qed.

Definition end_ok (e : Z) : Prop := HEAP_START ≤ e ≤ HEAP_MAX ∧ e mod 4096 = 0.

(** The only reasons for which the heap does not grow: no frame is free, or it has
    reached its limit. *)
Definition cannot_grow (s : Heap B) : Prop :=
  hb_exhausted (backing s) ∨ HEAP_MAX ≤ heap_current_end s.

Lemma heap_grow_loop_spec pages s :
  back_ok (backing s) (heap_current_end s) → end_ok (heap_current_end s) →
  (exhausted (heap_grow_loop pages s)) ∨
  ∃ r bk k, heap_grow_loop pages s =
      Done r (set_end (heap_current_end s + 4096 * k) (set_backing bk s)) ∧
    back_ok bk (heap_current_end s + 4096 * k) ∧ end_ok (heap_current_end s + 4096 * k) ∧ 0 ≤ k ∧
    (r = 0 ∧ k = Z.of_nat pages ∨ r = -1 ∧ (hb_exhausted bk ∨ HEAP_MAX ≤ heap_current_end s + 4096 * k)).
Proof.
  revert s. induction pages as [|pages IH]; intros s Hb He; cbn [heap_grow_loop].
  { right. exists 0, (backing s), 0. rewrite Z.mul_0_r, Z.add_0_r.
    split_and!; [by destruct s|done|apply He..|done|by left]. }
  rewrite kget_bind. destruct (Z.leb_spec HEAP_MAX (heap_current_end s)).
  { right. exists (-1), (backing s), 0. rewrite Z.mul_0_r, Z.add_0_r.
    split_and!; [by destruct s|done|apply He..|done|right; split; [done|by right]]. }
  destruct Hb as [Hb Hmap].
  destruct (hb_alloc_law (backing s) Hb) as (phys & bk & Ha & Hbk & Hphys & Hmap1).
  assert (zoom backing set_backing hb_alloc_page s = Done phys (set_backing bk s)) as Hz
    by (unfold zoom; by rewrite Ha).
  kbind Hz. clear Hz. destruct (Z.eqb_spec phys 0) as [|Hp].
  { right. exists (-1), bk, 0. rewrite Z.mul_0_r, Z.add_0_r.
    destruct Hphys as [[_ Hx]|]; [|lia].
    split_and!; [by destruct s|split; auto|apply He..|done|right; split; [done|by left]]. }
  destruct Hphys as [[]|[Hp1 Hp2]]; [done|].
  destruct (hb_map_law bk (heap_current_end s) phys Hbk Hp1 Hp2)
    as [(bk' & Hm & Hbk' & Hmap2)|(bk' & Hm & Hx)]; [destruct He; lia|by destruct He|..].
  2:{ left. apply exhausted_bind. eexists. unfold zoom. simpl. by rewrite Hm. }
  assert (zoom backing set_backing (hb_map_page (heap_current_end s) phys VMM_FLAG_WRITABLE_NOEXEC)
    (set_backing bk s) = Done tt (set_backing bk' (set_backing bk s))) as Hz
    by (unfold zoom; simpl; by rewrite Hm).
  kbind Hz. clear Hz. rewrite kmod_bind.
  assert (u64 (heap_current_end s + PAGE_SIZE) = heap_current_end s + 4096) as ->.
  { unfold end_ok, HEAP_MAX, HEAP_START, HEAP_SIZE_MAX, PAGE_SIZE in *. apply u64_small. lia. }
  set (s1 := set_end (heap_current_end s + 4096) (set_backing bk' (set_backing bk s))).
  destruct (IH s1) as [HP|(r & bk2 & k & Hr & ? & ? & ? & Hrk)]; [| |by left|].
  { split; [done|]. simpl. intros v Hv. apply Hmap2.
    destruct (decide (v < heap_current_end s)); [left; apply Hmap1, Hmap; lia|right; lia]. }
  { unfold end_ok, HEAP_MAX, HEAP_START, HEAP_SIZE_MAX in *. simpl. lia. }
  right. exists r, bk2, (k + 1). simpl in *.
  replace (heap_current_end s + 4096 * (k + 1)) with (heap_current_end s + 4096 + 4096 * k) by lia.
  split_and!; [exact Hr|done..|lia|]. destruct Hrk as [[-> ->]|]; [left; split; lia|by right].
Qed.

Lemma heap_repr_end_ok s bs : heap_repr s bs → end_ok (heap_current_end s).
Proof.
  intros [? ? ? Hok Hg [? ?] ?]. apply (geom_le _ _ _ Hok) in Hg. by split_and!.
Qed.

(** Growing the mapped range does not change the blocks. *)
Lemma heap_repr_grow s bs bk e :
  heap_repr s bs → back_ok bk e → heap_current_end s ≤ e → end_ok e →
  heap_repr (set_end e (set_backing bk s)) bs.
Proof.
  intros [? ? ? ? Hg ? ?] ? ? (? & ?). split; simpl; try done; [|lia].
  eapply geom_weaken; [| |exact Hg]; lia.
Qed.

Lemma heap_grow_spec s need :
  back_ok (backing s) (heap_current_end s) → end_ok (heap_current_end s) → 0 ≤ need ≤ 2 ^ 63 + 96 →
  (exhausted (heap_grow need s)) ∨
  ∃ r bk e, heap_grow need s = Done r (set_end e (set_backing bk s)) ∧
    back_ok bk e ∧ heap_current_end s ≤ e ∧ end_ok e ∧
    (r = 0 ∧ heap_current_end s + need ≤ e ∨ r = -1 ∧ (hb_exhausted bk ∨ HEAP_MAX ≤ e)).
Proof.
  intros Hb He Hn. unfold heap_grow, PAGE_SIZE.
  rewrite (u64_small (need + 4096)), u64_small by lia.
  destruct (heap_grow_loop_spec (Z.to_nat ((need + 4096 - 1) / 4096)) s Hb He)
    as [?|(r & bk & k & Hr & ? & ? & ? & Hk)]; [by left|right].
  eexists r, bk, _. split_and!; [exact Hr|done|lia|done|].
  destruct Hk as [[-> Hk]|]; [left; split; [done|]|by right].
  rewrite Hk, Z2Nat.id by lia. lia.
Qed.

(** The last block, extended over the pages that were added. *)
Lemma extend_last s l1 b bk e :
  heap_repr s (l1 ++ [b]) → back_ok bk e → heap_current_end s ≤ e → end_ok e →
  let b' := mkBlk (b_addr b) (b_size b + (e - heap_current_end s)) (b_free b) in
  heap_repr (set_mem (hdr_map (l1 ++ [b'])) (bytes s) (set_end e (set_backing bk s))) (l1 ++ [b']).
Proof.
  intros Hr Hbk He (? & ?) b'. pose proof (heap_repr_end_ok _ _ Hr) as [_ ?].
  pose proof (heap_repr_wf _ _ Hr) as Hwf. destruct Hr as [? Hst Hh Hok Hg Hend Hbs].
  pose proof (wf_range_mid _ _ _ _ Hwf) as (? & ? & ? & ? & ?).
  apply Forall_app in Hok as [Hok1 Hok2]. apply geom_app in Hg as (mid & Hg1 & ? & ?).
  split; simpl; try done; [by destruct l1| | | |lia].
  - by rewrite Hst, !head_addr_app.
  - apply Forall_app. split; [done|]. constructor; [|done]. split_and!; simpl; lia.
  - apply geom_app. exists mid. split; [done|]. unfold b_end in *. simpl in *. unfold b_end; simpl. lia.
Qed.

(** A new free block after the last one. *)
Lemma append_block s bs b bk e n :
  heap_repr s bs → back_ok bk e → end_ok e → b_addr b = heap_current_end s →
  b_size b = n → 0 ≤ n → n mod 16 = 0 → b_end b ≤ e →
  heap_repr (set_mem (hdr_map (bs ++ [b])) (range_del (bytes s) (b_addr b) 48)
    (set_end e (set_backing bk s))) (bs ++ [b]).
Proof.
  intros Hr Hbk [? ?] Ha <- Hn Hm He. pose proof (heap_repr_end_ok _ _ Hr) as [_ ?].
  destruct Hr as [? Hst Hh Hok Hg Hend Hbs]. split; simpl; try done; [by destruct bs| | | |lia].
  - rewrite Hst, head_addr_app. by destruct bs.
  - apply Forall_app. split; [done|]. constructor; [|done]. split_and!; [lia|done..].
  - apply geom_app. exists (heap_current_end s). split; [done|]. simpl. lia.
Qed.

(** The map after the new header is written and the last one points to it. *)
Lemma append_map l1 b c hi :
  wf_blocks (l1 ++ [b; c]) hi → b_free c = true →
  <[b_addr b := set_next (b_addr c) (hdr_of b (last_addr 0 l1) 0)]>
    (<[b_addr c := mkHdr BLOCK_MAGIC (b_size c) 1 0 (b_addr b)]> (hdr_map (l1 ++ [b]))) =
  hdr_map (l1 ++ [b; c]).
Proof.
  intros Hwf Hc. assert (b_addr b < b_addr c).
  { pose proof (wf_range_mid _ _ _ _ Hwf) as (? & ? & ? & ? & ?).
    destruct Hwf as (_ & Hg & _). apply geom_app in Hg as (? & _ & ? & ? & _).
    unfold b_end in *. lia. }
  assert (wf_blocks (l1 ++ [b]) hi) as Hwf1.
  { destruct Hwf as (Hok & Hg & ?). replace (l1 ++ [b; c]) with ((l1 ++ [b]) ++ [c]) in *
      by (by rewrite <-app_assoc).
    apply Forall_app in Hok as [? [(_ & _ & ?) _]%Forall_cons].
    apply geom_app in Hg as (mid & Hg & ? & ?). split_and!; [done| |done].
    simpl in *. eapply geom_weaken; [..|exact Hg]; unfold b_end in *; lia. }
  destruct Hwf as (Hok & Hg & _). destruct Hwf1 as (Hok1 & Hg1 & _).
  pose proof (hdr_map_segment l1 [b; c] [] _ _ Hok Hg) as E1.
  pose proof (hdr_map_segment l1 [b] [] _ _ Hok1 Hg1) as E2. simpl in E1, E2. rewrite E1, E2.
  rewrite <-!insert_union_l, !map_empty_union. unfold hdr_of, set_next. simpl. rewrite Hc.
  map_inserts.
Qed.

(** The outcome of growing when no block fits. *)
Definition grown (s : Heap B) (bs : list blk) (size : Z) (o : outcome (Heap B) Z) : Prop :=
  (exhausted (o)) ∨
  (∃ s', o = Done 0 s' ∧ heap_repr s' bs ∧ bytes s' = bytes s ∧ cannot_grow s') ∨
  (∃ s' l1 b, o = Done (b_addr b) s' ∧ heap_repr s' (l1 ++ [b]) ∧ fits size b ∧
     used (l1 ++ [b]) = used bs ∧ keeps (used bs) (bytes s) (bytes s')).

Lemma heap_grow_for_spec s bs size :
  heap_repr s bs → Forall (λ c, ¬ fits size c) bs → 0 ≤ size ≤ 2 ^ 63 → size mod 16 = 0 →
  grown s bs size (heap_grow_for size s).
Proof.
  intros Hr Hnf Hs Hal. pose proof (heap_repr_wf _ _ Hr) as Hwf. pose proof (hr_hdrs _ _ Hr) as Hh.
  pose proof (heap_repr_end_ok _ _ Hr) as Heo.
  destruct bs as [|b l1 _] using rev_ind; [by destruct (hr_nonempty _ _ Hr)|].
  pose proof (wf_range_mid _ _ _ _ Hwf) as (? & ? & ? & ? & ?).
  unfold heap_grow_for. rewrite !kget_bind, (hr_start _ _ Hr).
  assert (last_block (walk_fuel s) (head_addr (l1 ++ [b]) 0) s = Done (b_addr b) s) as Hl.
  { apply (last_block_spec _ s [] l1 b); [done..|]. unfold walk_fuel.
    rewrite Hh, (size_hdr_map _ _ Hwf), length_app. simpl. lia. }
  kbind Hl. clear Hl.
  erewrite hdr_bind by (rewrite Hh; exact (hdr_map_lookup _ _ _ _ Hwf)). cbn [free hdr_of bsize next].
  rewrite kget_bind. rewrite HEADER_SIZE_eq.
  apply Forall_app in Hnf as [_ [Hnf _]%Forall_cons].
  assert (b_free b = true → b_size b < size) as Hlt by (intros; unfold fits in Hnf; lia).
  set (need := if _ : bool then _ else _).
  assert (need = if b_free b then size - b_size b + 48 else size + 96) as Hneed.
  { subst need. unfold b_end in *. destruct (b_free b); simpl.
    - specialize (Hlt eq_refl). rewrite (u64_small (size - _)), u64_small; lia.
    - rewrite u64_small; lia. }
  clearbody need.
  destruct (heap_grow_spec s need (hr_back _ _ Hr) Heo) as [HP|(r & bk & e & Hg & ? & ? & He & Hre)].
  { destruct (b_free b); [specialize (Hlt eq_refl)|]; unfold b_end in *; lia. }
  { left. by apply exhausted_bind. }
  right. kbind Hg. destruct Hre as [[-> Hge]|[-> Hx]]; simpl.
  2:{ left. eexists. split_and!; [done|by apply heap_repr_grow|done|exact Hx]. }
  right. rewrite kget_bind. cbn [heap_current_end set_end].
  assert (u64 (e - heap_current_end s) = e - heap_current_end s) as ->.
  { unfold end_ok, HEAP_MAX, HEAP_START, HEAP_SIZE_MAX in *. apply u64_small. lia. }
  destruct (b_free b) eqn:Hf; simpl.
  - specialize (Hlt eq_refl). eexists _, l1, (mkBlk _ _ _).
    pose proof (extend_last s l1 b bk e Hr ltac:(done) ltac:(done) He) as Hr'. simpl in Hr'.
    rewrite Hf in Hr'. rewrite (u64_small (b_size b + _))
      by (unfold end_ok, HEAP_MAX, HEAP_START, HEAP_SIZE_MAX in *; unfold b_end in *; lia).
    erewrite upd_hdr_bind by (simpl; rewrite Hh; exact (hdr_map_lookup _ _ _ _ Hwf)). simpl.
    rewrite Hh. erewrite (hdr_map_update l1 b (mkBlk (b_addr b)
      (b_size b + (e - heap_current_end s)) true) [] e); [|..|done|unfold hdr_of; by rewrite Hf].
    + split_and!; [done|exact Hr'|split; simpl; lia| |done].
      rewrite !used_app. by rewrite !used_cons_free.
    + destruct Hwf as (? & Hg' & ?). split_and!; [done| |by apply He].
      eapply geom_weaken; [..|exact Hg']; lia.
    + exact (heap_repr_wf _ _ Hr').
  - set (c := mkBlk (heap_current_end s) (e - heap_current_end s - 48) true).
    eexists _, (l1 ++ [b]), c. destruct He as [? ?]. destruct Heo as [? ?].
    assert (heap_repr (set_mem (hdr_map ((l1 ++ [b]) ++ [c])) (range_del (bytes s) (b_addr c) 48)
      (set_end e (set_backing bk s))) ((l1 ++ [b]) ++ [c])) as Hr'.
    { eapply append_block; [exact Hr|done|done|done|done|simpl; lia..|]. unfold b_end. simpl. lia. }
    rewrite u64_small by (unfold HEAP_MAX, HEAP_START, HEAP_SIZE_MAX in *; lia).
    unfold new_hdr. rewrite kmod_bind. simpl.
    erewrite upd_hdr_bind by (simpl; rewrite lookup_insert_ne by (unfold b_end in *; lia);
      rewrite Hh; exact (hdr_map_lookup _ _ _ _ Hwf)). simpl. rewrite Hh, HEADER_SIZE_eq.
    pose proof (heap_repr_wf _ _ Hr') as Hwf'. rewrite <-app_assoc in Hwf'.
    pose proof (append_map l1 b c _ Hwf' eq_refl) as Hmap. simpl in Hmap. rewrite Hmap.
    rewrite <-app_assoc in Hr' at 1. split_and!; [done|exact Hr'|split; simpl; lia| |].
    + rewrite used_app. simpl. by rewrite app_nil_r.
    + eapply keeps_agree; [|apply agree_range_del]. intros x [Hx _]%elem_of_used.
      left. simpl. by apply (wf_range _ _ _ Hwf Hx).
Qed.

(** ** [kmalloc] *)

(** [b] is a new block for [size] bytes: it was not in use, the blocks in use keep
    their contents, and it is zeroed when the flags ask for it. *)
Definition allocated (s : Heap B) (bs : list blk) (size flags : Z) (s' : Heap B) (b : blk) : Prop :=
  ∃ bs', heap_repr s' bs' ∧ used bs' ≡ₚ b :: used bs ∧ size ≤ b_size b ∧
    payload b mod 16 = 0 ∧ keeps (used bs) (bytes s) (bytes s') ∧
    (Z.odd flags = true → zeroed (payload b) size (bytes s')).

Definition alloc_outcome (s : Heap B) (bs : list blk) (size flags : Z) (o : outcome (Heap B) Z) : Prop :=
  (exhausted (o)) ∨
  (∃ s', o = Done 0 s' ∧ heap_repr s' bs ∧ bytes s' = bytes s ∧ cannot_grow s') ∨
  (∃ s' b, o = Done (payload b) s' ∧ allocated s bs size flags s' b).

Lemma allocate_in s s0 bs l1 b l2 size flags :
  heap_repr s (l1 ++ b :: l2) → fits size b → 0 ≤ size → size mod 16 = 0 →
  used (l1 ++ b :: l2) = used bs → keeps (used bs) (bytes s0) (bytes s) →
  ∃ s' b', block_allocate (b_addr b) size flags s = Done (payload b') s' ∧
    allocated s0 bs size flags s' b' ∧ backing s' = backing s ∧ b_addr b' = b_addr b.
Proof.
  intros Hr [Hf Hfit] Hs Hal Hu Hk0. pose proof (heap_repr_wf _ _ Hr) as Hwf.
  pose proof (wf_range_mid _ _ _ _ Hwf) as (? & ? & ? & ? & ?).
  destruct (block_allocate_spec s l1 b l2 size flags Hwf (hr_hdrs _ _ Hr) ltac:(lia) Hal)
    as (m & b' & bs' & Hm & Hwf' & Hres & Hag & Hz).
  pose proof (alloc_result_used _ _ _ _ _ _ Hf Hres) as Hperm. rewrite Hu in Hperm.
  destruct Hres as (Ha & ? & ? & ? & r & -> & ?). assert (payload b' = payload b) as Hpl
    by (unfold payload; by rewrite Ha).
  exists (set_mem (hdr_map (l1 ++ b' :: r ++ l2)) m s), b'. rewrite Hpl. split_and!; [done| |done..].
  exists (l1 ++ b' :: r ++ l2). split_and!; [|done|done| | |by rewrite Hpl].
  - apply (heap_repr_mem _ _ _ _ Hr); [by destruct l1| |done].
    rewrite !head_addr_app. simpl. by rewrite Ha.
  - unfold payload. lia.
  - eapply keeps_trans; [exact Hk0|]. eapply keeps_agree; [|exact Hag]. intros c Hc.
    rewrite <-Hu, used_app, used_cons_free, <-used_app in Hc by done.
    apply elem_of_used in Hc as [Hc _]. destruct Hwf as (Hok & Hg & _).
    destruct (geom_others _ _ _ _ _ _ Hok Hg Hc); tauto.
Qed.

Lemma align_up_bounds size :
  0 < size ≤ 2 ^ 62 → size ≤ align_up size ≤ 2 ^ 63 ∧ align_up size mod 16 = 0.
Proof. intros Hs. rewrite align_up_spec by lia. lia. Qed.

Lemma first_fit_repr s bs size :
  heap_repr s bs →
  (∃ l1 b l2, bs = l1 ++ b :: l2 ∧ fits size b ∧ Forall (λ c, ¬ fits size c) l1 ∧
     first_fit (walk_fuel s) (heap_start_block s) size s = Done (b_addr b) s) ∨
  (Forall (λ c, ¬ fits size c) bs ∧
     first_fit (walk_fuel s) (heap_start_block s) size s = Done 0 s).
Proof.
  intros Hr. pose proof (heap_repr_wf _ _ Hr) as Hwf. pose proof (hr_hdrs _ _ Hr) as Hh.
  rewrite (hr_start _ _ Hr). apply (first_fit_spec _ s [] bs); [done..|].
  unfold walk_fuel. rewrite Hh, (size_hdr_map _ _ Hwf). lia.
Qed.

(** A free block that is large enough is used, the one at the lowest address
    first, and nothing is asked of the memory managers. *)
Lemma kmalloc_fits s bs size flags :
  heap_repr s bs → 0 < size ≤ 2 ^ 62 → Exists (fits (align_up size)) bs →
  ∃ l1 b l2 s' b', bs = l1 ++ b :: l2 ∧ fits (align_up size) b ∧
    Forall (λ c, ¬ fits (align_up size) c) l1 ∧ b_addr b' = b_addr b ∧ backing s' = backing s ∧
    kmalloc size flags s = Done (payload b') s' ∧ allocated s bs (align_up size) flags s' b'.
Proof.
  intros Hr Hs Hex. destruct (align_up_bounds size Hs) as [? ?].
  unfold kmalloc. destruct (Z.eqb_spec size 0); [lia|]. rewrite !kget_bind.
  destruct (first_fit_repr s bs (align_up size) Hr) as [(l1 & b & l2 & -> & Hf & Hn & Hff)|[Hn _]].
  2:{ rewrite Exists_exists in Hex. destruct Hex as (c & Hc & Hfc).
      rewrite Forall_forall in Hn. by destruct (Hn c Hc). }
  kbind Hff. pose proof (wf_range_mid _ _ _ _ (heap_repr_wf _ _ Hr)) as (? & _).
  destruct (Z.eqb_spec (b_addr b) 0); [lia|]. simpl.
  destruct (allocate_in s s _ l1 b l2 (align_up size) flags Hr Hf ltac:(lia) ltac:(done) eq_refl)
    as (s' & b' & ? & ? & ? & ?); [apply keeps_refl|].
  by exists l1, b, l2, s', b'.
Qed.

Lemma kmalloc_lemma s bs size flags :
  heap_repr s bs → 0 < size ≤ 2 ^ 62 →
  alloc_outcome s bs (align_up size) flags (kmalloc size flags s).
Proof.
  intros Hr Hs. destruct (align_up_bounds size Hs) as [? ?].
  destruct (first_fit_repr s bs (align_up size) Hr) as [(l1 & b & l2 & Hbs & Hf & _)|[Hn Hff]].
  { right. right. destruct (kmalloc_fits s bs size flags Hr Hs) as (? & ? & ? & s' & b' & H').
    - rewrite Hbs, Exists_app, Exists_cons. tauto.
    - exists s', b'. tauto. }
  unfold kmalloc. destruct (Z.eqb_spec size 0); [lia|]. rewrite !kget_bind. kbind Hff. simpl.
  destruct (heap_grow_for_spec s bs (align_up size) Hr Hn) as
    [HP|[(s' & HD & ? & ? & ?)|(s' & l1 & b & HD & Hr' & Hf & Hu & Hk)]]; [lia|done|..].
  - left. by apply exhausted_bind.
  - right. left. kbind HD. simpl. by exists s'.
  - right. right. kbind HD.
    pose proof (wf_range_mid _ _ _ _ (heap_repr_wf _ _ Hr')) as (? & _).
    destruct (Z.eqb_spec (b_addr b) 0); [lia|].
    destruct (allocate_in s' s bs l1 b [] (align_up size) flags Hr' Hf ltac:(lia) ltac:(done) Hu Hk)
      as (s2 & b' & ? & ? & ? & ?). by exists s2, b'.
Qed.
End kmalloc_proofs.

(** ** [krealloc] *)

Lemma lookup_memcpy (m : gmap Z Z) dst src n j :
  (dst + n ≤ src ∨ src + n ≤ dst) → 0 ≤ n →
  fold_left (λ m i, partial_alter (λ _, m !! (src + i)) (dst + i) m) (seqZ 0 n) m !! j =
  if decide (dst ≤ j < dst + n) then m !! (src + (j - dst)) else m !! j.
Proof.
  intros Hd Hn. assert (∀ k, 0 ≤ k → k ≤ n → ∀ j,
    fold_left (λ m i, partial_alter (λ _, m !! (src + i)) (dst + i) m) (seqZ 0 k) m !! j =
    if decide (dst ≤ j < dst + k) then m !! (src + (j - dst)) else m !! j) as Hk; [|by apply Hk; lia].
  clear j. intros k Hk0. pattern k. apply natlike_ind; [|clear k Hk0; intros k Hk IH|done]; simpl.
  { intros _ j. rewrite decide_False by lia. done. }
  intros Hkn j. replace (Z.succ k) with (k + 1) by lia. rewrite seqZ_snoc by lia.
  rewrite fold_left_app. simpl. destruct (decide (j = dst + k)) as [->|Hne].
  - rewrite lookup_partial_alter_eq, IH by lia.
    rewrite decide_False, decide_True by lia. f_equal. lia.
  - rewrite lookup_partial_alter_ne, IH by lia.
    repeat case_decide; try done; lia.
Qed.

Lemma align_up_idemp size : 0 < size ≤ 2 ^ 62 → align_up (align_up size) = align_up size.
Proof.
  intros Hs. destruct (align_up_bounds size Hs). rewrite (align_up_spec (align_up size)) by lia. lia.
Qed.

Section krealloc.
Context {B : Type} `{HeapBacking B}.
Implicit Types (s : Heap B).

(** The block [b] becomes [b'], with room for [size] bytes; the other blocks in
    use are unchanged and the contents are carried over. *)
Definition reallocated (s : Heap B) (bs : list blk) (b : blk) (size : Z) (s' : Heap B) (b' : blk) : Prop :=
  ∃ bs' U, heap_repr s' bs' ∧ used bs ≡ₚ b :: U ∧ used bs' ≡ₚ b' :: U ∧ size ≤ b_size b' ∧
    keeps U (bytes s) (bytes s') ∧
    ∀ i, 0 ≤ i < size → i < b_size b → bytes s' !! (payload b' + i) = bytes s !! (payload b + i).

Lemma used_middle l1 b l2 : b_free b = false → used (l1 ++ b :: l2) ≡ₚ b :: used (l1 ++ l2).
Proof. intros Hb. rewrite !used_app, used_cons_used by done. by rewrite Permutation_middle. Qed.

(** Blocks in use do not overlap. *)
Lemma used_disjoint bs hi b V c :
  wf_blocks bs hi → used bs ≡ₚ b :: V → c ∈ V → b_end c ≤ b_addr b ∨ b_end b ≤ b_addr c.
Proof.
  intros (Hok & Hg & _) Hu Hc.
  assert (b ∈ used bs) as (l1 & l2 & -> & Hf)%used_split by (rewrite Hu; by left).
  rewrite (used_middle _ _ _ Hf) in Hu. apply (inj (cons b)) in Hu.
  rewrite <-Hu in Hc. apply elem_of_used in Hc as [Hc _]. by eapply geom_others.
Qed.

(** Shrinking in place. *)
Lemma realloc_split s s0 bs0 b0 l1 b l2 size :
  heap_repr s (l1 ++ b :: l2) → b_free b = false → 0 ≤ size ≤ b_size b → size mod 16 = 0 →
  used bs0 ≡ₚ b0 :: used (l1 ++ l2) → keeps (used (l1 ++ l2)) (bytes s0) (bytes s) →
  payload b = payload b0 →
  (∀ i, 0 ≤ i < size → i < b_size b0 → bytes s !! (payload b + i) = bytes s0 !! (payload b0 + i)) →
  ∃ s' b', split_block (b_addr b) size s = Done tt s' ∧ payload b' = payload b ∧
    reallocated s0 bs0 b0 size s' b'.
Proof.
  intros Hr Hb Hs Hal Hu Hk Hp Hc. pose proof (heap_repr_wf _ _ Hr) as Hwf.
  pose proof (wf_range_mid _ _ _ _ Hwf) as (? & ? & ? & ? & ?).
  destruct (split_block_spec s l1 b l2 size Hwf (hr_hdrs _ _ Hr) Hs Hal) as (m & Hm & Hag).
  destruct (split_abs_cons b size Hs) as (x & r & Hx & Ha & Hf & Hsx & Hex & Hru).
  pose proof (split_abs_wf l1 b l2 size _ Hwf Hs Hal) as Hwf1. rewrite Hx in Hm, Hwf1.
  exists (set_mem (hdr_map (l1 ++ (x :: r) ++ l2)) m s), x. unfold payload at 1. rewrite Ha.
  split_and!; [done|done|]. exists (l1 ++ (x :: r) ++ l2), (used (l1 ++ l2)).
  split_and!; [| |simpl| | |]; [|done| |done|..].
  - apply (heap_repr_mem _ _ _ _ Hr); [by destruct l1| |done].
    rewrite !head_addr_app. simpl. by rewrite Ha.
  - rewrite used_middle by congruence. by rewrite !used_app, Hru.
  - eapply keeps_trans; [exact Hk|]. eapply keeps_agree; [|exact Hag].
    intros c [Hc' _]%elem_of_used. destruct Hwf as (Hok & Hg & _).
    destruct (geom_others _ _ _ _ _ _ Hok Hg Hc'); [left; lia|by right].
  - intros i Hi Hib. rewrite <-Hc by done. simpl.
    replace (payload x) with (payload b) by (unfold payload; by rewrite Ha).
    apply Hag. unfold payload. lia.
Qed.

(** Growing in place, over the free blocks that follow. *)
Lemma realloc_absorb s l1 b c l2 size :
  heap_repr s (l1 ++ b :: c :: l2) → b_free b = false → b_free c = true →
  0 ≤ size ≤ b_size b + 48 + b_size c → size mod 16 = 0 →
  ∃ s' b', (coalesce_forward (walk_fuel s) (b_addr b);; upd_hdr (b_addr b) (set_free 0);;
            split_block (b_addr b) size) s = Done tt s' ∧ payload b' = payload b ∧
    reallocated s (l1 ++ b :: c :: l2) b size s' b'.
Proof.
  intros Hr Hb Hc Hs Hal. pose proof (heap_repr_wf _ _ Hr) as Hwf.
  destruct (coalesce_keeps s l1 b (c :: l2) Hwf (hr_hdrs _ _ Hr)) as (m & Hm & Hk). kbind Hm.
  pose proof (coalesce_abs_wf _ _ _ _ Hwf) as Hwf1.
  pose proof (coalesce_abs_addr b (c :: l2)) as Ha. pose proof (coalesce_abs_free b (c :: l2)) as Hf.
  pose proof (coalesce_abs_used b (c :: l2)) as Hu.
  assert (b_size b + 48 + b_size c ≤ b_size (coalesce_abs b (c :: l2)).1) as Hsz.
  { simpl. rewrite Hc. apply (coalesce_abs_size (merge_blk b c)). destruct Hwf as (Hok & _).
    rewrite Forall_app, !Forall_cons in Hok. tauto. }
  destruct (coalesce_abs b (c :: l2)) as [b1 l2'] eqn:E. simpl in *.
  erewrite upd_hdr_bind by (simpl; rewrite <-Ha; exact (hdr_map_lookup _ _ _ _ Hwf1)). simpl.
  rewrite <-Ha. erewrite (hdr_map_update l1 b1 b1 l2' _ _ Hwf1 Hwf1);
    [|done|unfold set_free, hdr_of; simpl; by rewrite Hf, Hb].
  set (s1 := set_mem _ m (set_mem _ m s)).
  assert (heap_repr s1 (l1 ++ b1 :: l2')) as Hr1.
  { apply (heap_repr_mem _ _ _ _ Hr); [by destruct l1| |done]. rewrite !head_addr_app. simpl. by rewrite Ha. }
  assert (payload b1 = payload b) as Hp by (unfold payload; by rewrite Ha).
  assert (used (l1 ++ l2') = used (l1 ++ c :: l2)) as Hu'
    by (rewrite !used_app; by f_equal).
  destruct (realloc_split s1 s (l1 ++ b :: c :: l2) b l1 b1 l2' size Hr1) as (s' & b' & ? & ? & ?);
    [congruence|lia|done| | |done| |].
  - rewrite Hu'. by apply used_middle.
  - eapply keeps_sub; [|exact Hk]. intros x. rewrite elem_of_used, !elem_of_app, elem_of_cons. tauto.
  - intros i Hi Hib. rewrite Hp. apply (Hk b); [set_solver|]. unfold payload, b_end in *. lia.
  - exists s', b'. split_and!; [done|congruence|done].
Qed.

(** Copying into a new block and freeing the old one. *)
Lemma realloc_move s bs b s1 b' size :
  heap_repr s bs → b ∈ used bs → allocated s bs size 0 s1 b' → b_size b < size →
  ∃ s', (h ← hdr (b_addr b); kmemcpy (payload b') (payload b) (bsize h);; kfree (payload b)) s1 =
      Done tt s' ∧ reallocated s bs b size s' b'.
Proof.
  intros Hr Hb (bs1 & Hr1 & Hu1 & Hs1 & _ & Hk1 & _) Hlt.
  pose proof (heap_repr_wf _ _ Hr1) as Hwf.
  assert (b ∈ used bs1) as Hb1 by (rewrite Hu1; by right).
  assert (b' ∈ used bs1) as Hb'1 by (rewrite Hu1; by left).
  destruct (used_split _ _ Hb1) as (l1 & l2 & -> & Hf).
  apply list_elem_of_split in Hb as (u1 & u2 & Hsplit).
  assert (used (l1 ++ l2) ≡ₚ b' :: u1 ++ u2) as HU.
  { rewrite Hsplit, (used_middle _ _ _ Hf) in Hu1. apply (inj (cons b)).
    rewrite Hu1, <-Permutation_middle. constructor. }
  assert (b' ∈ l1 ++ l2) as Hb'2 by (apply (elem_of_used b'); rewrite HU; by left).
  assert (b_end b' ≤ b_addr b ∨ b_end b ≤ b_addr b') as Hdisj
    by (destruct Hwf as (Hok & Hg & _); by eapply geom_others).
  pose proof (wf_range_mid _ _ _ _ Hwf) as (? & ? & ? & ? & ?).
  assert (b' ∈ l1 ++ b :: l2) as Hb'3 by (apply elem_of_used in Hb'1; tauto).
  erewrite hdr_bind by (rewrite (hr_hdrs _ _ Hr1); exact (hdr_map_lookup _ _ _ _ Hwf)). simpl.
  unfold kmemcpy. rewrite kmod_bind. rewrite (hr_hdrs _ _ Hr1).
  assert (hdrs_outside (hdr_map (l1 ++ b :: l2)) (payload b') (b_size b) = hdr_map (l1 ++ b :: l2)) as ->.
  { apply list_elem_of_split in Hb'3 as (m1 & m2 & E). rewrite E in *.
    apply (hdrs_outside_payload _ _ _ _ _ _ Hwf); unfold payload, b_end; lia. }
  set (m := fold_left _ _ _). pose proof (λ j, lookup_memcpy (bytes s1) (payload b') (payload b) (b_size b) j
    ltac:(unfold payload, b_end in *; lia) ltac:(lia)) as Hm. fold m in Hm.
  destruct (kfree_lemma (set_mem (hdr_map (l1 ++ b :: l2)) m s1) l1 b l2) as (m' & bs2 & Hfr & Hr2 & Hu2 & Hk2);
    [|done|].
  { apply (heap_repr_mem _ _ _ _ Hr1); [by destruct l1|done..]. }
  eexists. split; [exact Hfr|]. exists bs2, (u1 ++ u2). rewrite Hu2, HU, Hsplit.
  split_and!; [done|by rewrite Permutation_middle|done|done|..].
  - intros c Hc i Hi. simpl. rewrite (Hk2 c) by (rewrite ?HU; set_solver). simpl.
    rewrite Hm, decide_False.
    + apply (Hk1 c); [rewrite Hsplit; set_solver|done].
    + destruct (used_disjoint _ _ b' (used bs) c Hwf Hu1); [rewrite Hsplit; set_solver|..];
        unfold payload, b_end in *; lia.
  - intros i Hi Hib. simpl. rewrite (Hk2 b') by (first [rewrite HU; set_solver|unfold payload, b_end; lia]).
    simpl. rewrite Hm, decide_True by lia. rewrite (Hk1 b); [f_equal; lia| |unfold payload, b_end; lia].
    rewrite Hsplit. set_solver.
Qed.
End krealloc.
