(* ===== verification/KmallocCorrect.v ===== *)
(** * The kernel heap: correctness

    The theorems about [kmalloc_init], [kmalloc], [kfree], [krealloc] and
    [kmalloc_get_stats] ([kernel/mm/kmalloc.c]) in terms of the abstract list of
    blocks of [Kmalloc], and their instances on a concrete heap. *)
From S2P Require Import Prelude PageAlloc Kmalloc.

Section heap.
Context {B : Type} `{HeapBacking B}.
Implicit Types (s : Heap B).

Definition realloc_outcome s (bs : list blk) (b : blk) (size : Z) (o : outcome (Heap B) Z) : Prop :=
  (exhausted (o)) ∨
  (∃ s', o = Done 0 s' ∧ heap_repr s' bs ∧ bytes s' = bytes s ∧ cannot_grow s') ∨
  (∃ s' b', o = Done (payload b') s' ∧ reallocated s bs b size s' b').

(** Whether the next block is free and makes the block large enough. *)
Lemma realloc_test s l1 b l2 size {A} (k : bool → K (Heap B) A) :
  heap_repr s (l1 ++ b :: l2) →
  ((if next (hdr_of b (last_addr 0 l1) (head_addr l2 0)) =? 0 then mret false else
    hn ← hdr (next (hdr_of b (last_addr 0 l1) (head_addr l2 0)));
    mret (negb (free hn =? 0) && (size <=? u64 (u64 (b_size b + HEADER_SIZE) + bsize hn)))) ≫= k) s =
  k (match l2 with c :: _ => b_free c && (size <=? b_size b + 48 + b_size c) | [] => false end) s.
Proof.
  intros Hr. pose proof (heap_repr_wf _ _ Hr) as Hwf. apply bind_Done.
  destruct l2 as [|c l2]; simpl; [done|].
  pose proof (wf_range_mid _ _ _ _ Hwf) as (? & ? & ? & ? & ?).
  pose proof (wf_range_mid _ _ _ _ (merge_wf _ _ _ _ _ Hwf)) as (_ & ? & ? & _).
  pose proof (wf_range _ _ c Hwf ltac:(set_solver)) as (? & ? & ? & _). unfold b_end in *. simpl in *.
  destruct (Z.eqb_spec (b_addr c) 0); [lia|].
  replace (l1 ++ b :: c :: l2) with ((l1 ++ [b]) ++ c :: l2) in Hwf, Hr by (by rewrite <-app_assoc).
  erewrite hdr_bind by (rewrite (hr_hdrs _ _ Hr); exact (hdr_map_lookup _ _ _ _ Hwf)). simpl.
  rewrite HEADER_SIZE_eq, (u64_small (b_size b + 48)), u64_small by lia.
  by destruct (b_free c).
Qed.

Lemma krealloc_lemma s bs b size :
  heap_repr s bs → b ∈ used bs → 0 < size ≤ 2 ^ 61 →
  realloc_outcome s bs b (align_up size) (krealloc (payload b) size s).
Proof.
  intros Hr Hb Hs. destruct (align_up_bounds size ltac:(lia)) as [? Hal].
  assert (align_up size ≤ 2 ^ 62) by (rewrite align_up_spec by lia; lia).
  destruct (used_split _ _ Hb) as (l1 & l2 & -> & Hf).
  pose proof (heap_repr_wf _ _ Hr) as Hwf. pose proof (hr_hdrs _ _ Hr) as Hh.
  pose proof (wf_range_mid _ _ _ _ Hwf) as (? & ? & ? & ? & ?).
  unfold krealloc. destruct (Z.eqb_spec (payload b) 0); [unfold payload in *; lia|].
  destruct (Z.eqb_spec size 0); [lia|].
  rewrite (load_magic_bind s l1 b l2) by done. simpl. rewrite (u64_payload _ _ _ _ Hwf).
  erewrite hdr_bind by (rewrite Hh; exact (hdr_map_lookup _ _ _ _ Hwf)). cbn [bsize hdr_of].
  destruct (Z.leb_spec (align_up size) (b_size b)) as [Hle|Hgt].
  { right. right.
    destruct (realloc_split s s (l1 ++ b :: l2) b l1 b l2 (align_up size) Hr) as (s' & b' & Hd & Hp & ?);
      [done|lia|done|by apply used_middle|by apply keeps_refl|done|done|].
    exists s', b'. kbind Hd. by rewrite <-Hp. }
  rewrite (realloc_test s l1 b l2 (align_up size) _ Hr).
  destruct (match l2 with c :: _ => _ | [] => false end) eqn:E.
  { right. right. destruct l2 as [|c l2]; [done|]. apply andb_prop in E as [Hc Hfit].
    pose proof (wf_range _ _ c Hwf ltac:(set_solver)) as (? & ? & ? & _). rewrite kget_bind.
    destruct (realloc_absorb s l1 b c l2 (align_up size) Hr Hf Hc) as (s' & b' & Hd & Hp & ?);
      [lia|done|].
    exists s', b'. split; [|done]. rewrite Hp. exact (bind3_Done _ _ _ _ _ _ _ Hd). }
  destruct (kmalloc_lemma s (l1 ++ b :: l2) (align_up size) 0 Hr) as
    [HP|[(s' & HD & ? & ? & ?)|(s' & b' & HD & Hall)]]; [lia|..].
  - left. by apply exhausted_bind.
  - right. left. kbind HD. by exists s'.
  - right. right. kbind HD. rewrite (align_up_idemp size) in Hall by lia.
    assert (payload b' ≠ 0) as Hp. { destruct Hall as (bs' & Hr' & Hu & _).
      assert (b' ∈ used bs') as [Hb' _]%elem_of_used by (rewrite Hu; by left).
      pose proof (wf_range _ _ b' (heap_repr_wf _ _ Hr') Hb'). unfold payload. lia. }
    destruct (Z.eqb_spec (payload b') 0); [done|].
    destruct (realloc_move s (l1 ++ b :: l2) b s' b' (align_up size) Hr Hb Hall) as (s2 & Hd & ?); [lia|].
    exists s2, b'. split; [|done]. exact (bind3_Done _ _ _ _ _ _ _ Hd).
Qed.

(** ** Initialisation *)

Lemma kmalloc_init_lemma s :
  hb_ok (backing s) → hdrs s = ∅ →
  (∃ s', kmalloc_init s = Panic s' ∧ cannot_grow s') ∨
  ∃ s', kmalloc_init s = Done tt s' ∧ heap_repr s' [mkBlk HEAP_START (4 * 4096 - 48) true].
Proof.
  intros Hb Hh. unfold kmalloc_init. rewrite kmod_bind.
  destruct (heap_grow_spec (set_end HEAP_START s) (HEAP_INIT_PAGES * PAGE_SIZE))
    as [(s' & HP & Hx)|(r & bk & e & Hg & ? & ? & (? & ?) & Hre)]; [split; [done|simpl; lia]| |..].
  { unfold end_ok, HEAP_MAX, HEAP_START, HEAP_SIZE_MAX. simpl. lia. }
  { unfold HEAP_INIT_PAGES, PAGE_SIZE. lia. }
  { left. exists s'. split; [by apply bind_Panic|by left]. }
  kbind Hg. destruct Hre as [[-> Hre]|[-> Hx]]; simpl; [right|left; eexists; split; [done|exact Hx]].
  rewrite kmod_bind. unfold new_hdr. simpl. eexists. split; [done|].
  split; simpl; [done|done| |..].
  - by rewrite Hh.
  - constructor; [|done]. split_and!; done.
  - unfold b_end, HEAP_INIT_PAGES, PAGE_SIZE in *. simpl in *. lia.
  - split; [done|lia].
  - done.
Qed.

(** ** Statistics *)

Definition frees (bs : list blk) : list blk := filter (λ b, b_free b = true) bs.
Definition sum_size (bs : list blk) : Z := foldr (λ b n, b_size b + n) 0 bs.
Definition max_size (bs : list blk) : Z := foldr (λ b n, Z.max (b_size b) n) 0 bs.
Definition stats_of (bs : list blk) (mapped : Z) : HeapStats :=
  mkStats (sum_size (used bs)) (sum_size (frees bs)) (Z.of_nat (length bs))
    (Z.of_nat (length (frees bs))) (max_size (frees bs)) mapped.

Lemma frees_cons b l : frees (b :: l) = if b_free b then b :: frees l else frees l.
Proof. unfold frees. rewrite filter_cons. by destruct (b_free b). Qed.
Lemma used_cons b l : used (b :: l) = if b_free b then used l else b :: used l.
Proof. destruct (b_free b) eqn:E; [by apply used_cons_free|by apply used_cons_used]. Qed.

Lemma sum_size_bound lo bs hi :
  Forall blk_ok bs → geom lo bs hi →
  0 ≤ sum_size (used bs) ∧ 0 ≤ sum_size (frees bs) ∧
  sum_size (used bs) + sum_size (frees bs) + 48 * Z.of_nat (length bs) ≤ hi - lo.
Proof.
  intros Hok. revert lo. induction Hok as [|b bs (_ & _ & ?) Hok IH]; intros lo; simpl; [lia|].
  intros [? Hg]. specialize (IH _ Hg). unfold b_end in IH.
  rewrite used_cons, frees_cons. destruct (b_free b); simpl; lia.
Qed.

Lemma stats_loop_spec fuel s l1 l2 u f n k g :
  wf_blocks (l1 ++ l2) (heap_current_end s) → hdrs s = hdr_map (l1 ++ l2) →
  (length l2 < fuel)%nat → 0 ≤ u → 0 ≤ f → 0 ≤ k ≤ n → 0 ≤ g →
  u + sum_size (used l2) + f + sum_size (frees l2) + n + Z.of_nat (length l2) < 2 ^ 64 →
  0 ≤ sum_size (used l2) → 0 ≤ sum_size (frees l2) →
  stats_loop fuel (head_addr l2 0) (mkStats u f n k g 0) s =
  Done (mkStats (u + sum_size (used l2)) (f + sum_size (frees l2)) (n + Z.of_nat (length l2))
    (k + Z.of_nat (length (frees l2))) (Z.max g (max_size (frees l2))) 0) s.
Proof.
  revert l1 fuel u f n k g. induction l2 as [|b l2 IH];
    intros l1 [|fuel] u f n k g Hwf Hh Hf Hu Hf' Hk Hg Hsum Hpu Hpf; simpl in Hf; try lia.
  { simpl. unfold mret, K_ret. repeat f_equal; lia. }
  pose proof (wf_range_mid _ _ _ _ Hwf) as (? & ? & ? & ? & ?).
  cbn [stats_loop head_addr]. destruct (Z.eqb_spec (b_addr b) 0); [lia|].
  erewrite hdr_bind by (rewrite Hh; exact (hdr_map_lookup _ _ _ _ Hwf)). simpl.
  replace (l1 ++ b :: l2) with ((l1 ++ [b]) ++ l2) in Hwf, Hh by (by rewrite <-app_assoc).
  assert (0 ≤ sum_size (used l2) ∧ 0 ≤ sum_size (frees l2)) as [? ?].
  { destruct Hwf as (Hok & Hge & _). apply Forall_app in Hok as [_ Hok].
    apply geom_app in Hge as (? & _ & Hge). pose proof (sum_size_bound _ _ _ Hok Hge). lia. }
  rewrite used_cons, frees_cons in *. destruct (b_free b); simpl in *;
    rewrite !u64_small by lia; rewrite (IH (l1 ++ [b])); try done; try lia.
  - f_equal. f_equal; try lia. destruct (Z.ltb_spec g (b_size b)); lia.
  - destruct (Z.ltb_spec g (b_size b)); lia.
  - f_equal. f_equal; lia.
Qed.

Lemma max_size_nonneg bs : 0 ≤ max_size bs.
Proof. induction bs; simpl; lia. Qed.

Lemma kmalloc_get_stats_lemma s bs :
  heap_repr s bs →
  kmalloc_get_stats s = Done (stats_of bs (heap_current_end s - HEAP_START)) s.
Proof.
  intros Hr. pose proof (heap_repr_wf _ _ Hr) as Hwf. pose proof (hr_hdrs _ _ Hr) as Hh.
  pose proof (heap_repr_end_ok _ _ Hr) as [? _]. pose proof Hwf as (Hok & Hg & _).
  pose proof (sum_size_bound _ _ _ Hok Hg). unfold HEAP_MAX, HEAP_START, HEAP_SIZE_MAX in *.
  unfold kmalloc_get_stats. rewrite !kget_bind, (hr_start _ _ Hr).
  pose proof (stats_loop_spec (walk_fuel s) s [] bs 0 0 0 0 0 Hwf Hh) as Hl.
  kbind (Hl ltac:(unfold walk_fuel; rewrite Hh, (size_hdr_map _ _ Hwf); lia)
    ltac:(lia) ltac:(lia) ltac:(lia) ltac:(lia) ltac:(lia) ltac:(lia) ltac:(lia)).
  rewrite kget_bind. simpl. rewrite u64_small by (unfold HEAP_START; lia).
  unfold stats_of, mret, K_ret. pose proof (max_size_nonneg (frees bs)). repeat f_equal; lia.
Qed.
End heap.

(** ** The theorems *)

Section theorems.
Context {B : Type} `{HeapBacking B}.
Implicit Types (s : Heap B).

(** C1. [kmalloc] of a size up to 2^62 on a heap that represents the blocks [bs]
    either panics, and then only because mapping a heap page found no free frame, or returns
    NULL and leaves the blocks as they were, and then only because no frame is free or the heap is at its limit, or returns a 16-byte aligned payload of at least
    [size] bytes that was not in use, zeroed if [GFP_ZERO] is set, and the contents
    of every block in use are unchanged. *)
Theorem kmalloc_correct s bs size flags :
  heap_repr s bs → 0 < size ≤ 2 ^ 62 →
  alloc_outcome s bs (align_up size) flags (kmalloc size flags s).
Proof. apply kmalloc_lemma. Qed.

(** When a free block is large enough [kmalloc] succeeds, takes the first
    such block in address order, and asks nothing of the memory managers. *)
Theorem kmalloc_first_fit s bs size flags :
  heap_repr s bs → 0 < size ≤ 2 ^ 62 → Exists (fits (align_up size)) bs →
  ∃ l1 b l2 s' b', bs = l1 ++ b :: l2 ∧ fits (align_up size) b ∧
    Forall (λ c, ¬ fits (align_up size) c) l1 ∧ b_addr b' = b_addr b ∧ backing s' = backing s ∧
    kmalloc size flags s = Done (payload b') s' ∧ allocated s bs (align_up size) flags s' b'.
Proof. apply kmalloc_fits. Qed.

(** C24. [kfree] of the payload of a block in use always completes: exactly that
    block leaves the blocks in use, the linked list is again well formed (with the free
    neighbours merged), and the contents of the other blocks are unchanged. *)
Theorem kfree_correct s bs b :
  heap_repr s bs → b ∈ used bs →
  ∃ s' bs', kfree (payload b) s = Done tt s' ∧ heap_repr s' bs' ∧
    used bs ≡ₚ b :: used bs' ∧ keeps (used bs') (bytes s) (bytes s') ∧
    backing s' = backing s ∧ heap_current_end s' = heap_current_end s.
Proof.
  intros Hr (l1 & l2 & -> & Hf)%used_split.
  destruct (kfree_lemma s l1 b l2 Hr Hf) as (m & bs' & ? & ? & Hu & ?).
  eexists _, bs'. rewrite Hu. split_and!; [done|done|by apply used_middle|done..].
Qed.

(** C25. [krealloc] of a block in use to a size up to 2^61 panics only when mapping
    a page finds no free frame, or returns NULL, with every block as it was, only when the heap cannot grow, or returns a block with room for
    the size that replaces the old one and starts with its contents, up to the
    smaller of the two sizes; the other blocks in use and their contents are unchanged. *)
Theorem krealloc_correct s bs b size :
  heap_repr s bs → b ∈ used bs → 0 < size ≤ 2 ^ 61 →
  realloc_outcome s bs b (align_up size) (krealloc (payload b) size s).
Proof. apply krealloc_lemma. Qed.

(** [kmalloc_init] panics, when there are no frames for the initial pages, or leaves a heap of one free block that spans the
    initial pages. *)
Theorem kmalloc_init_correct s :
  hb_ok (backing s) → hdrs s = ∅ →
  (∃ s', kmalloc_init s = Panic s' ∧ cannot_grow s') ∨
  ∃ s', kmalloc_init s = Done tt s' ∧ heap_repr s' [mkBlk HEAP_START (4 * 4096 - 48) true].
Proof. apply kmalloc_init_lemma. Qed.

(** [kmalloc_get_stats] reports the sums, counts and the maximum over the
    blocks, none of which overflows. *)
Theorem kmalloc_get_stats_correct s bs :
  heap_repr s bs →
  kmalloc_get_stats s = Done (stats_of bs (heap_current_end s - HEAP_START)) s.
Proof. apply kmalloc_get_stats_lemma. Qed.
End theorems.

(** ** A concrete heap *)

(** Pages handed out in address order from a limited supply; mapping a page
    always succeeds. *)
#[refine]
Instance bump_backing : HeapBacking Z := {
  hb_alloc_page := λ n, if n <=? 0 then Done 0 n else Done (n * 4096) (n - 1);
  hb_map_page := λ _ _ _, mret tt;
  hb_ok := λ n, n < 2 ^ 40;
  hb_mapped := λ _ _, True;
  hb_exhausted := λ n, n ≤ 0;
}.
Proof.
  - intros n Hn. destruct (Z.leb_spec n 0).
    + exists 0, n. split_and!; [done|done|by left|done].
    + exists (n * 4096), (n - 1). split_and!; [done|lia|right; lia|done].
  - intros n virt phys ? _ _ _ _. left. by eexists.
Defined.

Definition boot_heap : Heap Z := mkHeap 16 0 0 ∅ ∅.
Definition after (o : outcome (Heap Z) Z) : Heap Z :=
  match o with Done _ s => s | _ => boot_heap end.
(** After [kmalloc_init], two allocations of 100 and 200 bytes. *)
Definition heap_example : Heap Z :=
  after ((kmalloc_init;; kmalloc 100 0;; kmalloc 200 1) boot_heap).
Definition block1 : blk := mkBlk HEAP_START 112 false.
Definition block2 : blk := mkBlk (HEAP_START + 160) 208 false.
Definition blocks_example : list blk :=
  [block1; block2; mkBlk (HEAP_START + 416) (16384 - 416 - 48) true].

Lemma heap_example_repr : heap_repr heap_example blocks_example.
Proof.
  split.
  - done.
  - vm_compute. reflexivity.
  - vm_compute. reflexivity.
  - repeat constructor; vm_compute; congruence.
  - vm_compute. repeat split; congruence.
  - vm_compute. split; [reflexivity|congruence].
  - split; [vm_compute; reflexivity|done].
Defined.

Lemma kmalloc_correct_witness :
  alloc_outcome heap_example blocks_example 32 1 (kmalloc 30 1 heap_example) ∧
  alloc_outcome heap_example blocks_example 20000 0 (kmalloc 20000 0 heap_example).
Proof.
  split.
  - apply (kmalloc_correct heap_example blocks_example 30 1); [apply heap_example_repr|lia].
  - apply (kmalloc_correct heap_example blocks_example 20000 0); [apply heap_example_repr|lia].
Defined.

Lemma kmalloc_first_fit_witness : ∃ l1 b l2 s' b', blocks_example = l1 ++ b :: l2 ∧
  fits (align_up 30) b ∧ Forall (λ c, ¬ fits (align_up 30) c) l1 ∧ b_addr b' = b_addr b ∧
  backing s' = backing heap_example ∧ kmalloc 30 0 heap_example = Done (payload b') s' ∧
  allocated heap_example blocks_example (align_up 30) 0 s' b'.
Proof.
  apply kmalloc_first_fit; [apply heap_example_repr|lia|].
  do 2 right. left. split; vm_compute; [done|congruence].
Defined.

Lemma kfree_correct_witness : ∃ s' bs', kfree (payload block1) heap_example = Done tt s' ∧
  heap_repr s' bs' ∧ used blocks_example ≡ₚ block1 :: used bs' ∧
  keeps (used bs') (bytes heap_example) (bytes s') ∧
  backing s' = backing heap_example ∧ heap_current_end s' = heap_current_end heap_example.
Proof. apply kfree_correct; [apply heap_example_repr|left]. Defined.

Lemma krealloc_correct_witness :
  realloc_outcome heap_example blocks_example block1 (align_up 1000)
    (krealloc (payload block1) 1000 heap_example).
Proof. apply krealloc_correct; [apply heap_example_repr|left|lia]. Defined.

Lemma kmalloc_init_correct_witness :
  (∃ s', kmalloc_init boot_heap = Panic s' ∧ cannot_grow s') ∨
  ∃ s', kmalloc_init boot_heap = Done tt s' ∧ heap_repr s' [mkBlk HEAP_START (4 * 4096 - 48) true].
Proof. apply kmalloc_init_correct; done. Defined.

Lemma kmalloc_get_stats_correct_witness :
  kmalloc_get_stats heap_example = Done (mkStats 320 15920 3 1 15920 16384) heap_example.
Proof.
  rewrite (kmalloc_get_stats_correct heap_example blocks_example heap_example_repr).
  reflexivity.
Defined.

(** A request of 2^64 - 1 bytes is rounded up to zero: the caller gets a block of
    zero bytes instead of NULL. *)
Lemma kmalloc_huge_request :
  ∃ s', kmalloc (2 ^ 64 - 1) 0 heap_example = Done (HEAP_START + 416 + 48) s' ∧
    bsize <$> hdrs s' !! (HEAP_START + 416) = Some 0.
Proof. eexists. split; vm_compute; reflexivity. Qed.
