(* ===== verification/Vmm.v ===== *)
(** * The virtual memory manager

    [kernel/mm/vmm.c] and the page-table definitions of
    [kernel/arch/x86_64/paging.h]: four-level x86-64 page tables kept in frames
    of physical memory.  Physical memory is a map from the address of a frame to
    its 512 quadwords.  The kernel reaches a frame through the direct map, so a
    pointer [phys_to_virt(p)] is represented by [p] itself.

    The physical memory manager is any instance of [PageAlloc]; [Pmm] is one.

    The state has the CR3 register and the list of addresses whose translation
    was invalidated; [invlpg] and the CR3 write have no other effect here. *)
From S2P Require Import Prelude Spinlock PageAlloc Pmm.

(** ** Constants of the architecture *)

Definition PTE_PRESENT : Z := Z.shiftl 1 0.
Definition PTE_WRITABLE : Z := Z.shiftl 1 1.
Definition PTE_USER : Z := Z.shiftl 1 2.
Definition PTE_HUGE : Z := Z.shiftl 1 7.
Definition PTE_NX : Z := Z.shiftl 1 63.
Definition PTE_ADDR_MASK : Z := 0x000FFFFFFFFFF000.
Definition PT_ENTRIES : Z := 512.
Definition PML4_INDEX (va : Z) : Z := Z.land (Z.shiftr va 39) 0x1FF.
Definition PDPT_INDEX (va : Z) : Z := Z.land (Z.shiftr va 30) 0x1FF.
Definition PD_INDEX (va : Z) : Z := Z.land (Z.shiftr va 21) 0x1FF.
Definition PT_INDEX (va : Z) : Z := Z.land (Z.shiftr va 12) 0x1FF.

Definition VMM_FLAG_WRITABLE : Z := Z.shiftl 1 0.
Definition VMM_FLAG_USER : Z := Z.shiftl 1 1.
Definition VMM_FLAG_NOEXEC : Z := Z.shiftl 1 2.

Definition PAGE_SIZE_2MB : Z := 0x200000.
Definition PAGE_MASK_2MB : Z := PAGE_SIZE_2MB - 1.
Definition PAGE_SIZE_1GB : Z := 0x40000000.
Definition PAGE_MASK_1GB : Z := PAGE_SIZE_1GB - 1.
Definition PTE_ADDR_MASK_2MB : Z := 0x000FFFFFFFE00000.
Definition PAGE_OFFSET_MASK : Z := PAGE_SIZE - 1.
Definition PML4_KERNEL_START : Z := 256.
Definition USER_STACK_TOP : Z := 0x00007FFFFFFFE000.
Definition USER_STACK_PAGES : Z := 4.
Definition VMM_ENOMEM : Z := 12.

(** The test [e & bit]. *)
Definition has (e bit : Z) : bool := negb (Z.land e bit =? 0).

(** ** State *)

Record Vmm (P : Type) : Type := mkVmm {
  vpmm : P;
  vmm_lock : Spinlock;
  vmm_rflags : Z;               (* RFLAGS where the lock is taken *)
  kernel_pml4_phys : Z;
  vmm_hhdm_offset : Z;
  pmem : gmap Z (list Z);
  cr3 : Z;
  invalidated : list Z;
}.
Arguments mkVmm {P}.
Arguments vpmm {P}.
Arguments vmm_lock {P}.
Arguments vmm_rflags {P}.
Arguments kernel_pml4_phys {P}.
Arguments vmm_hhdm_offset {P}.
Arguments pmem {P}.
Arguments cr3 {P}.
Arguments invalidated {P}.

Section vmm.
Context {P : Type} `{PageAlloc P}.
Implicit Types (s : Vmm P).

Definition set_vpmm (p : P) s : Vmm P :=
  mkVmm p (vmm_lock s) (vmm_rflags s) (kernel_pml4_phys s) (vmm_hhdm_offset s) (pmem s) (cr3 s) (invalidated s).
Definition set_vlock (l : Spinlock) (f : Z) s : Vmm P :=
  mkVmm (vpmm s) l f (kernel_pml4_phys s) (vmm_hhdm_offset s) (pmem s) (cr3 s) (invalidated s).
Definition set_kernel_pml4 (r : Z) s : Vmm P :=
  mkVmm (vpmm s) (vmm_lock s) (vmm_rflags s) r (vmm_hhdm_offset s) (pmem s) (cr3 s) (invalidated s).
Definition set_hhdm (h : Z) s : Vmm P :=
  mkVmm (vpmm s) (vmm_lock s) (vmm_rflags s) (kernel_pml4_phys s) h (pmem s) (cr3 s) (invalidated s).
Definition set_pmem (m : gmap Z (list Z)) s : Vmm P :=
  mkVmm (vpmm s) (vmm_lock s) (vmm_rflags s) (kernel_pml4_phys s) (vmm_hhdm_offset s) m (cr3 s) (invalidated s).

Definition pmm_alloc : K (Vmm P) Z := zoom vpmm set_vpmm pa_alloc_page.
Definition pmm_free (phys : Z) : K (Vmm P) unit := zoom vpmm set_vpmm (pa_free_page phys).

(** [table[i]] and [table[i] = v]. *)
Definition rd (table i : Z) : K (Vmm P) Z := kopt (λ s, t ← pmem s !! table; zget t i).
Definition wr (table i v : Z) : K (Vmm P) unit :=
  kupd (λ s, t ← pmem s !! table; t' ← zset t i v; Some (set_pmem (<[table := t']> (pmem s)) s)).
(** [memset(p, 0, PAGE_SIZE)] and [memcpy(d, s, PAGE_SIZE)] on frames. *)
Definition zero_page (p : Z) : K (Vmm P) unit :=
  kmod (λ s, set_pmem (<[p := replicate 512 0]> (pmem s)) s).
Definition copy_page (d q : Z) : K (Vmm P) unit :=
  kupd (λ s, t ← pmem s !! q; Some (set_pmem (<[d := t]> (pmem s)) s)).

Definition vmm_acquire : K (Vmm P) unit :=
  kupd (λ s, '(l, f) ← spinlock_acquire (vmm_lock s) (vmm_rflags s); Some (set_vlock l f s)).
Definition vmm_release : K (Vmm P) unit :=
  kmod (λ s, let '(l, f) := spinlock_release (vmm_lock s) in set_vlock l f s).
Definition paging_invlpg (vaddr : Z) : K (Vmm P) unit :=
  kmod (λ s, mkVmm (vpmm s) (vmm_lock s) (vmm_rflags s) (kernel_pml4_phys s) (vmm_hhdm_offset s)
    (pmem s) (cr3 s) (invalidated s ++ [vaddr])).
Definition paging_write_cr3 (r : Z) : K (Vmm P) unit :=
  kmod (λ s, mkVmm (vpmm s) (vmm_lock s) (vmm_rflags s) (kernel_pml4_phys s) (vmm_hhdm_offset s)
    (pmem s) r (invalidated s)).

(** A loop that its body can leave early: [true] says it did. *)
Fixpoint kuntil {A} (l : list A) (body : A → K (Vmm P) bool) : K (Vmm P) bool :=
  match l with
  | [] => mret false
  | x :: l' => b ← body x; if b : bool then mret true else kuntil l' body
  end.

(** ** Page tables *)

Definition alloc_table_page : K (Vmm P) Z :=
  phys ← pmm_alloc;
  if phys =? 0 then kpanic else zero_page phys;; mret phys.

Definition vmm_flags_to_pte (flags : Z) : Z :=
  let pte := PTE_PRESENT in
  let pte := if has flags VMM_FLAG_WRITABLE then Z.lor pte PTE_WRITABLE else pte in
  let pte := if has flags VMM_FLAG_USER then Z.lor pte PTE_USER else pte in
  if has flags VMM_FLAG_NOEXEC then Z.lor pte PTE_NX else pte.

Definition pte_to_vmm_flags (pte_flags : Z) : Z :=
  let flags := 0 in
  let flags := if has pte_flags PTE_WRITABLE then Z.lor flags VMM_FLAG_WRITABLE else flags in
  let flags := if has pte_flags PTE_USER then Z.lor flags VMM_FLAG_USER else flags in
  if has pte_flags PTE_NX then Z.lor flags VMM_FLAG_NOEXEC else flags.

Definition ensure_table (table index : Z) : K (Vmm P) Z :=
  e ← rd table index;
  (if negb (has e PTE_PRESENT) then
     new_table ← alloc_table_page;
     wr table index (Z.lor (Z.lor (Z.lor new_table PTE_PRESENT) PTE_WRITABLE) PTE_USER)
   else mret tt);;
  e ← rd table index;
  mret (Z.land e PTE_ADDR_MASK).

(** The table and index of the PT entry, or [None] for NULL. *)
Definition walk_to_pt_entry (pml4_phys virt : Z) : K (Vmm P) (option (Z * Z)) :=
  e4 ← rd pml4_phys (PML4_INDEX virt);
  if negb (has e4 PTE_PRESENT) then mret None else
  let pdpt := Z.land e4 PTE_ADDR_MASK in
  e3 ← rd pdpt (PDPT_INDEX virt);
  if negb (has e3 PTE_PRESENT) then mret None else
  let pd := Z.land e3 PTE_ADDR_MASK in
  e2 ← rd pd (PD_INDEX virt);
  if negb (has e2 PTE_PRESENT) then mret None else
  mret (Some (Z.land e2 PTE_ADDR_MASK, PT_INDEX virt)).

Definition free_pd_entries (pd : Z) : K (Vmm P) unit :=
  kfor (seqZ 0 PT_ENTRIES) (λ i,
    e ← rd pd i;
    if negb (has e PTE_PRESENT) || has e PTE_HUGE then mret tt
    else pmm_free (Z.land e PTE_ADDR_MASK)).

Definition vmm_map_page_in (pml4_phys virt phys flags : Z) : K (Vmm P) unit :=
  pdpt ← ensure_table pml4_phys (PML4_INDEX virt);
  pd ← ensure_table pdpt (PDPT_INDEX virt);
  pt ← ensure_table pd (PD_INDEX virt);
  wr pt (PT_INDEX virt) (Z.lor phys (vmm_flags_to_pte flags)).

Definition vmm_unmap_page_in (pml4_phys virt : Z) : K (Vmm P) unit :=
  pte ← walk_to_pt_entry pml4_phys virt;
  match pte with
  | None => mret tt
  | Some (pt, i) => wr pt i 0;; paging_invlpg virt
  end.

Definition vmm_get_phys_in (pml4_phys virt : Z) : K (Vmm P) Z :=
  pte ← walk_to_pt_entry pml4_phys virt;
  match pte with
  | None => mret 0
  | Some (pt, i) =>
      e ← rd pt i;
      if negb (has e PTE_PRESENT) then mret 0
      else mret (u64 (Z.land e PTE_ADDR_MASK + Z.land virt PAGE_OFFSET_MASK))
  end.

Definition vmm_map_page (virt phys flags : Z) : K (Vmm P) unit :=
  vmm_acquire;;
  r ← kget kernel_pml4_phys;
  vmm_map_page_in r virt phys flags;;
  vmm_release.

Definition vmm_unmap_page (virt : Z) : K (Vmm P) unit :=
  vmm_acquire;;
  r ← kget kernel_pml4_phys;
  vmm_unmap_page_in r virt;;
  vmm_release.

Definition vmm_get_phys (virt : Z) : K (Vmm P) Z :=
  pml4 ← kget kernel_pml4_phys;
  e4 ← rd pml4 (PML4_INDEX virt);
  if negb (has e4 PTE_PRESENT) then mret 0 else
  e3 ← rd (Z.land e4 PTE_ADDR_MASK) (PDPT_INDEX virt);
  if negb (has e3 PTE_PRESENT) then mret 0 else
  if has e3 PTE_HUGE then mret (u64 (Z.land e3 PTE_ADDR_MASK + Z.land virt PAGE_MASK_1GB)) else
  e2 ← rd (Z.land e3 PTE_ADDR_MASK) (PD_INDEX virt);
  if negb (has e2 PTE_PRESENT) then mret 0 else
  if has e2 PTE_HUGE then mret (u64 (Z.land e2 PTE_ADDR_MASK_2MB + Z.land virt PAGE_MASK_2MB)) else
  e1 ← rd (Z.land e2 PTE_ADDR_MASK) (PT_INDEX virt);
  if negb (has e1 PTE_PRESENT) then mret 0 else
  mret (u64 (Z.land e1 PTE_ADDR_MASK + Z.land virt PAGE_OFFSET_MASK)).

(** One iteration per page mapped; the fuel bounds the iterations. *)
Fixpoint map_range_loop (fuel : nat) (virt_start phys_start size flags offset : Z) : K (Vmm P) unit :=
  match fuel with
  | O => kstuck
  | S fuel' =>
      if offset <? size then
        let virt := u64 (virt_start + offset) in
        let phys := u64 (phys_start + offset) in
        let remaining := u64 (size - offset) in
        if (Z.land virt PAGE_MASK_2MB =? 0) && (Z.land phys PAGE_MASK_2MB =? 0)
           && (PAGE_SIZE_2MB <=? remaining) then
          pml4 ← kget kernel_pml4_phys;
          pdpt ← ensure_table pml4 (PML4_INDEX virt);
          pd ← ensure_table pdpt (PDPT_INDEX virt);
          wr pd (PD_INDEX virt) (Z.lor (Z.lor phys (vmm_flags_to_pte flags)) PTE_HUGE);;
          map_range_loop fuel' virt_start phys_start size flags (u64 (offset + PAGE_SIZE_2MB))
        else
          vmm_map_page virt phys flags;;
          map_range_loop fuel' virt_start phys_start size flags (u64 (offset + PAGE_SIZE))
      else mret tt
  end.

Definition map_range_2mb (virt_start phys_start size flags : Z) : K (Vmm P) unit :=
  map_range_loop (S (Z.to_nat ((size + 4095) / 4096))) virt_start phys_start size flags 0.

(** ** Address spaces *)

Definition vmm_create_user_pml4 : K (Vmm P) Z :=
  pml4_phys ← alloc_table_page;
  kern_pml4 ← kget kernel_pml4_phys;
  kfor (seqZ PML4_KERNEL_START (PT_ENTRIES - PML4_KERNEL_START)) (λ i,
    e ← rd kern_pml4 i; wr pml4_phys i e);;
  mret pml4_phys.

Definition vmm_destroy_user_pml4 (pml4_phys : Z) : K (Vmm P) unit :=
  kfor (seqZ 0 PML4_KERNEL_START) (λ i,
    e4 ← rd pml4_phys i;
    if negb (has e4 PTE_PRESENT) then mret tt else
    kfor (seqZ 0 PT_ENTRIES) (λ j,
      e3 ← rd (Z.land e4 PTE_ADDR_MASK) j;
      if negb (has e3 PTE_PRESENT) || has e3 PTE_HUGE then mret tt else
      free_pd_entries (Z.land e3 PTE_ADDR_MASK);;
      e3 ← rd (Z.land e4 PTE_ADDR_MASK) j;
      pmm_free (Z.land e3 PTE_ADDR_MASK));;
    e4 ← rd pml4_phys i;
    pmm_free (Z.land e4 PTE_ADDR_MASK));;
  pmm_free pml4_phys.

Definition fork_copy_page (src_pte dst_pml4 vaddr : Z) : K (Vmm P) Z :=
  let src_phys := Z.land src_pte PTE_ADDR_MASK in
  let flags := Z.land src_pte (u64 (Z.lnot PTE_ADDR_MASK)) in
  dst_phys ← pmm_alloc;
  if dst_phys =? 0 then mret (-1) else
  copy_page dst_phys src_phys;;
  vmm_map_page_in dst_pml4 vaddr dst_phys (pte_to_vmm_flags flags);;
  mret 0.

Definition vaddr_of (i4 i3 i2 i1 : Z) : Z :=
  Z.lor (Z.lor (Z.lor (Z.shiftl i4 39) (Z.shiftl i3 30)) (Z.shiftl i2 21)) (Z.shiftl i1 12).

Definition vmm_fork_address_space (src_pml4_phys : Z) : K (Vmm P) Z :=
  dst_pml4_phys ← vmm_create_user_pml4;
  if dst_pml4_phys =? 0 then mret 0 else
  failed ← kuntil (seqZ 0 PML4_KERNEL_START) (λ pml4_idx,
    e4 ← rd src_pml4_phys pml4_idx;
    if negb (has e4 PTE_PRESENT) then mret false else
    kuntil (seqZ 0 PT_ENTRIES) (λ pdpt_idx,
      e3 ← rd (Z.land e4 PTE_ADDR_MASK) pdpt_idx;
      if negb (has e3 PTE_PRESENT) then mret false else
      if has e3 PTE_HUGE then mret false else
      kuntil (seqZ 0 PT_ENTRIES) (λ pd_idx,
        e2 ← rd (Z.land e3 PTE_ADDR_MASK) pd_idx;
        if negb (has e2 PTE_PRESENT) then mret false else
        if has e2 PTE_HUGE then mret false else
        kuntil (seqZ 0 PT_ENTRIES) (λ pt_idx,
          e1 ← rd (Z.land e2 PTE_ADDR_MASK) pt_idx;
          if negb (has e1 PTE_PRESENT) then mret false else
          r ← fork_copy_page e1 dst_pml4_phys (vaddr_of pml4_idx pdpt_idx pd_idx pt_idx);
          mret (negb (r =? 0))))));
  if failed : bool then vmm_destroy_user_pml4 dst_pml4_phys;; mret 0
  else mret dst_pml4_phys.

Definition free_pt_and_leaves (pt_phys : Z) : K (Vmm P) unit :=
  kfor (seqZ 0 PT_ENTRIES) (λ i,
    e ← rd pt_phys i;
    if has e PTE_PRESENT then pmm_free (Z.land e PTE_ADDR_MASK) else mret tt);;
  pmm_free pt_phys.

Definition free_pd_and_children (pd_phys : Z) : K (Vmm P) unit :=
  kfor (seqZ 0 PT_ENTRIES) (λ i,
    e ← rd pd_phys i;
    if negb (has e PTE_PRESENT) || has e PTE_HUGE then mret tt
    else free_pt_and_leaves (Z.land e PTE_ADDR_MASK));;
  pmm_free pd_phys.

Definition vmm_free_user_pages (pml4_phys : Z) : K (Vmm P) unit :=
  kfor (seqZ 0 PML4_KERNEL_START) (λ pml4_idx,
    e4 ← rd pml4_phys pml4_idx;
    if negb (has e4 PTE_PRESENT) then mret tt else
    kfor (seqZ 0 PT_ENTRIES) (λ pdpt_idx,
      e3 ← rd (Z.land e4 PTE_ADDR_MASK) pdpt_idx;
      if negb (has e3 PTE_PRESENT) || has e3 PTE_HUGE then mret tt
      else free_pd_and_children (Z.land e3 PTE_ADDR_MASK));;
    e4 ← rd pml4_phys pml4_idx;
    pmm_free (Z.land e4 PTE_ADDR_MASK));;
  pmm_free pml4_phys.

Definition vmm_map_user_stack (pml4_phys : Z) : K (Vmm P) Z :=
  failed ← kuntil ((λ i, USER_STACK_TOP - USER_STACK_PAGES * PAGE_SIZE + i * PAGE_SIZE)
                     <$> seqZ 0 USER_STACK_PAGES) (λ vaddr,
    phys ← pmm_alloc;
    if phys =? 0 then mret true else
    zero_page phys;;
    vmm_map_page_in pml4_phys vaddr phys (Z.lor VMM_FLAG_USER VMM_FLAG_WRITABLE);;
    mret false);
  mret (if failed : bool then - VMM_ENOMEM else 0).

(** ** Initialisation *)

Definition highest_phys (info : BootInfo) : Z :=
  let h := fold_left (λ h e, let top := u64 (base e + length_ e) in if h <? top then top else h)
             (memory_map info) 0 in
  Z.land (u64 (h + PAGE_MASK_2MB)) (u64 (Z.lnot PAGE_MASK_2MB)).

(** [kernel_start] and [kernel_end] are the linker symbols. *)
Definition vmm_init (kernel_start kernel_end : Z) (info : BootInfo) : K (Vmm P) unit :=
  kmod (set_hhdm (bi_hhdm_offset info));;
  r ← alloc_table_page;
  kmod (set_kernel_pml4 r);;
  map_range_2mb (bi_hhdm_offset info) 0 (highest_phys info) (Z.lor VMM_FLAG_WRITABLE VMM_FLAG_NOEXEC);;
  let kernel_size := PAGE_ALIGN_UP (u64 (kernel_end - kernel_start)) in
  kfor ((λ i, i * PAGE_SIZE) <$> seqZ 0 (kernel_size / PAGE_SIZE)) (λ off,
    vmm_map_page (u64 (kernel_start + off)) (u64 (kernel_phys_base info + off)) VMM_FLAG_WRITABLE);;
  paging_write_cr3 r.

End vmm.
