(* ===== verification/VmmTables.v ===== *)
(** * Page tables: the trees they form

    The invariant of the page tables of [kernel/mm/vmm.c] and what changing one
    entry does to the translations of every address space.  Each frame that
    holds a table has a level (4 for a PML4, 1 for a page table); a present entry of a
    table leads to a table of the level below or is a huge page, and no table
    hangs from two entries, except that the kernel half of every PML4 leads to
    the same tables. *)
From S2P Require Import Prelude Spinlock PageAlloc Pmm Vmm.

(** ** Entries *)

Abbreviation memory := (gmap Z (list Z)).

Definition ent (m : memory) (f i : Z) : option Z := t ← m !! f; zget t i.
Definition child (e : Z) : Z := Z.land e PTE_ADDR_MASK.
Definition present (e : Z) : bool := has e PTE_PRESENT.
Definition huge (e : Z) : bool := has e PTE_HUGE.

(** The index of an address in the tables of level [n]. *)
Definition IDX (n : nat) (v : Z) : Z := Z.land (Z.shiftr v (12 + 9 * (Z.of_nat n - 1))) 0x1FF.

(** An entry of a table of level [n] that leads to a table. *)
Definition tentry (n : nat) (e : Z) : bool := present e && ((n =? 4)%nat || negb (huge e)).

(** ** Walks *)

(** The leaf entry that translates [v], with its level, from a table of level [n]. *)
Fixpoint walk (n : nat) (m : memory) (g v : Z) : option (nat * Z) :=
  match n with
  | O => None
  | S n' =>
      e ← ent m g (IDX n v);
      if negb (present e) then None else
      if (n =? 1)%nat then Some (1%nat, e) else
      if tentry n e then walk n' m (child e) v else Some (n, e)
  end.

(** The table [d] levels below, on the way of [v]. *)
Fixpoint reach (n d : nat) (m : memory) (g v : Z) : option Z :=
  match d with
  | O => Some g
  | S d' => e ← ent m g (IDX n v);
            if tentry n e then reach (n - 1) d' m (child e) v else None
  end.

(** The leaf of an address in an address space. *)
Definition xl (m : memory) (r v : Z) : option (nat * Z) := walk 4 m r v.

(** ** The invariant *)

Definition frame_ok (f : Z) : Prop := f mod 4096 = 0 ∧ 0 < f < 2 ^ 52.

Record vm_tables (m : memory) (lvl : gmap Z nat) (F : gset Z) : Prop := {
  vt_level f n : lvl !! f = Some n → (1 ≤ n ≤ 4)%nat;
  vt_frame f n : lvl !! f = Some n → frame_ok f ∧ f / 4096 ∉ F;
  vt_mem f n : lvl !! f = Some n → ∃ t, m !! f = Some t ∧ length t = 512%nat;
  vt_child f n i e : lvl !! f = Some n → (2 ≤ n)%nat → ent m f i = Some e →
    tentry n e = true → lvl !! child e = Some (n - 1)%nat;
  vt_inj f f' n i i' e e' : lvl !! f = Some n → lvl !! f' = Some n → (2 ≤ n)%nat →
    ent m f i = Some e → ent m f' i' = Some e' → tentry n e = true → tentry n e' = true →
    child e = child e' → (f = f' ∧ i = i') ∨ (n = 4%nat ∧ i = i' ∧ 256 ≤ i);
}.

(** ** Bits of entries *)

Lemma mask_bits n : 0 ≤ n → Z.testbit PTE_ADDR_MASK n = bool_decide (12 ≤ n < 52).
Proof.
  intros Hn. change PTE_ADDR_MASK with (Z.shiftl (Z.ones 40) 12).
  rewrite Z.shiftl_spec by done. case_bool_decide.
  - apply Z.ones_spec_low. lia.
  - destruct (decide (n < 12)); [by rewrite Z.testbit_neg_r by lia|]. apply Z.ones_spec_high. lia.
Qed.
Lemma frame_bits c n : frame_ok c → 0 ≤ n → Z.testbit c n = true → 12 ≤ n < 52.
Proof.
  intros [Hm Hc] Hn Ht. split.
  - destruct (decide (12 ≤ n)); [done|]. exfalso.
    replace c with (c / 4096 * 2 ^ 12) in Ht by lia.
    rewrite <-Z.shiftl_mul_pow2, Z.shiftl_spec, Z.testbit_neg_r in Ht by lia. done.
  - destruct (decide (n < 52)); [done|]. exfalso.
    rewrite Z.bits_above_log2 in Ht; [done|lia|].
    assert (Z.log2 c < 52) by (apply Z.log2_lt_pow2; lia). lia.
Qed.
Lemma frame_mask c : frame_ok c → Z.land c PTE_ADDR_MASK = c.
Proof.
  intros Hc. apply Z.bits_inj'. intros n Hn. rewrite Z.land_spec, mask_bits by done.
  destruct (Z.testbit c n) eqn:E; [|done].
  pose proof (frame_bits c n Hc Hn E). by rewrite bool_decide_eq_true_2.
Qed.
Lemma frame_land c : frame_ok c → Z.land c (u64 (Z.lnot PTE_ADDR_MASK)) = 0.
Proof.
  intros Hc. rewrite <-(frame_mask c Hc), <-Z.land_assoc.
  replace (Z.land PTE_ADDR_MASK (u64 (Z.lnot PTE_ADDR_MASK))) with 0 by reflexivity.
  apply Z.land_0_r.
Qed.
Lemma child_lor c fl : frame_ok c → Z.land fl PTE_ADDR_MASK = 0 → child (Z.lor c fl) = c.
Proof.
  intros Hc Hfl. unfold child. by rewrite Z.land_lor_distr_l, Hfl, Z.lor_0_r, frame_mask.
Qed.
Lemma has_lor c fl b : frame_ok c → Z.land b PTE_ADDR_MASK = 0 → has (Z.lor c fl) b = has fl b.
Proof.
  intros Hc Hb. unfold has. rewrite Z.land_lor_distr_l.
  replace (Z.land c b) with 0; [done|].
  rewrite <-(frame_mask c Hc), <-Z.land_assoc, (Z.land_comm _ b), Hb. by rewrite Z.land_0_r.
Qed.

Lemma IDX_range n v : 0 ≤ IDX n v < 512.
Proof.
  unfold IDX. change 511 with (Z.ones 9). rewrite Z.land_ones by lia.
  apply Z.mod_pos_bound. lia.
Qed.

(** The entry that [ensure_table] writes. *)
Definition table_entry (c : Z) : Z :=
  Z.lor (Z.lor (Z.lor c PTE_PRESENT) PTE_WRITABLE) PTE_USER.
Lemma table_entry_spec n c :
  frame_ok c → tentry n (table_entry c) = true ∧ child (table_entry c) = c.
Proof.
  intros Hc. unfold table_entry. rewrite <-!Z.lor_assoc. split.
  - unfold tentry, present, huge. rewrite (has_lor c _ PTE_PRESENT), (has_lor c _ PTE_HUGE) by done.
    by destruct (n =? 4)%nat.
  - by apply child_lor.
Qed.
Lemma not_present_tentry n e : present e = false → tentry n e = false.
Proof. unfold tentry. by intros ->. Qed.
Lemma tentry_present n e : tentry n e = true → present e = true.
Proof. unfold tentry. by intros [? _]%andb_prop. Qed.

(** ** Memory *)

Lemma ent_insert_ne m f t g i : f ≠ g → ent (<[f:=t]> m) g i = ent m g i.
Proof. intros Hne. unfold ent. by rewrite lookup_insert_ne. Qed.
Lemma ent_insert_eq m f t i : ent (<[f:=t]> m) f i = zget t i.
Proof. unfold ent. by rewrite lookup_insert_eq. Qed.
Lemma zget_zeros i : 0 ≤ i < 512 → zget (replicate 512 0) i = Some 0.
Proof.
  intros Hi. unfold zget. destruct (Z.ltb_spec i 0); [lia|].
  apply lookup_replicate_2. lia.
Qed.
Lemma ent_range m lvl F f n i e : vm_tables m lvl F → lvl !! f = Some n → ent m f i = Some e → 0 ≤ i < 512.
Proof.
  intros Hvt Hf He. destruct (vt_mem _ _ _ Hvt f n Hf) as (t & Ht & Hl).
  unfold ent in He. rewrite Ht in He. simpl in He. apply zget_Some_range in He. lia.
Qed.
Lemma ent_Some m lvl F f n i : vm_tables m lvl F → lvl !! f = Some n → 0 ≤ i < 512 → ∃ e, ent m f i = Some e.
Proof.
  intros Hvt Hf Hi. destruct (vt_mem _ _ _ Hvt f n Hf) as (t & Ht & Hl).
  unfold ent. rewrite Ht. simpl. apply zget_lt. lia.
Qed.

(** [m'] is [m] with the entry [i] of [f] replaced by [e]. *)
Definition set_ent (m : memory) (f i e : Z) (m' : memory) : Prop :=
  (∀ g j, ent m' g j = if decide (g = f ∧ j = i) then Some e else ent m g j) ∧
  (∀ g, is_Some (m !! g) → is_Some (m' !! g)) ∧
  (∀ g t, m !! g = Some t → ∃ t', m' !! g = Some t' ∧ length t' = length t) ∧
  (∀ g, g ≠ f → m' !! g = m !! g).

Lemma wr_spec {P} `{PageAlloc P} (s : Vmm P) f i e t :
  pmem s !! f = Some t → length t = 512%nat → 0 ≤ i < 512 →
  ∃ m', wr f i e s = Done tt (set_pmem m' s) ∧ set_ent (pmem s) f i e m'.
Proof.
  intros Ht Hl Hi. unfold wr, kupd. rewrite Ht. simpl. rewrite zset_lt by lia. simpl.
  eexists. split; [done|]. split_and!.
  - intros g j. unfold ent. destruct (decide (g = f)) as [->|Hne].
    + rewrite lookup_insert_eq. simpl. rewrite Ht. simpl.
      pose proof (zset_lt t i e ltac:(lia)) as Hz. destruct (decide (j = i)) as [->|Hj].
      * rewrite decide_True by done. by rewrite (zget_zset_eq _ _ _ _ Hz).
      * rewrite decide_False by tauto. by rewrite (zget_zset_ne _ _ _ _ _ Hz).
    + rewrite lookup_insert_ne by done. by rewrite decide_False by tauto.
  - intros g Hg. rewrite lookup_insert. by case_decide.
  - intros g t' Hg. rewrite lookup_insert. case_decide; [|by eauto].
    subst. eexists. split; [done|]. rewrite length_insert. congruence.
  - intros g Hg. by rewrite lookup_insert_ne.
Qed.

(** ** Walks in a well-formed memory *)

Section walks.
Context (m : memory) (lvl : gmap Z nat) (F : gset Z) (Hvt : vm_tables m lvl F).

Lemma reach_level n d g v f :
  lvl !! g = Some n → (d < n)%nat → reach n d m g v = Some f → lvl !! f = Some (n - d)%nat.
Proof.
  revert n g. induction d as [|d IH]; intros n g Hg Hd Hr; simpl in Hr.
  { injection Hr as <-. by rewrite Nat.sub_0_r. }
  apply bind_Some in Hr as (e & He & Hr). destruct (tentry n e) eqn:Ht; [|done].
  apply IH in Hr; [|exact (vt_child _ _ _ Hvt _ _ _ _ Hg ltac:(lia) He Ht)|lia].
  rewrite Hr. f_equal. lia.
Qed.

(** Entries that lead to tables are the same in [m'], above level [k]. *)
Definition keeps_tables (k : nat) (m' : memory) : Prop :=
  ∀ g n i e, lvl !! g = Some n → (k < n)%nat → ent m g i = Some e → tentry n e = true →
    ent m' g i = Some e.

Lemma reach_stable k m' n d g v f :
  keeps_tables k m' → lvl !! g = Some n → (k + d ≤ n)%nat → (1 ≤ k)%nat →
  reach n d m g v = Some f → reach n d m' g v = Some f.
Proof.
  intros Hk. revert n g. induction d as [|d IH]; intros n g Hg Hd Hk1 Hr; simpl in *; [done|].
  apply bind_Some in Hr as (e & He & Hr). destruct (tentry n e) eqn:Ht; [|done].
  rewrite (Hk g n _ e Hg ltac:(lia) He Ht). simpl. rewrite Ht. apply IH; [|lia|done|done].
  exact (vt_child _ _ _ Hvt _ _ _ _ Hg ltac:(lia) He Ht).
Qed.

Lemma walk_reach n d g v f :
  (d < n)%nat → reach n d m g v = Some f → walk n m g v = walk (n - d) m f v.
Proof.
  revert n g. induction d as [|d IH]; intros n g Hd Hr; simpl in Hr.
  { injection Hr as <-. by rewrite Nat.sub_0_r. }
  apply bind_Some in Hr as (e & He & Hr). destruct (tentry n e) eqn:Ht; [|done].
  destruct n as [|n]; [lia|]. cbn [walk]. rewrite He. simpl.
  rewrite (tentry_present _ _ Ht). simpl. destruct n as [|n]; [lia|]. rewrite Ht.
  replace (S (S n) - S d)%nat with (S n - d)%nat by lia. apply IH; [lia|].
  by replace (S (S n) - 1)%nat with (S n) in Hr by lia.
Qed.

(** Walks only read tables. *)
Lemma walk_agree m' n g v :
  (∀ f k i, lvl !! f = Some k → ent m' f i = ent m f i) → lvl !! g = Some n →
  walk n m' g v = walk n m g v.
Proof.
  intros Hag. revert g. induction n as [|n IH]; intros g Hg; simpl; [done|].
  rewrite (Hag g _ _ Hg). destruct (ent m g _) as [e|] eqn:He; simpl; [|done].
  destruct (present e); simpl; [|done]. destruct (Nat.eqb_spec n 0) as [->|Hn]; simpl; [done|].
  destruct n as [|n]; [done|]. destruct (tentry (S (S n)) e) eqn:Ht; [|done].
  apply IH. exact (vt_child _ _ _ Hvt _ _ _ _ Hg ltac:(lia) He Ht).
Qed.

(** Changing an entry of a table of level [k] does not concern the walks that do
    not come by it. *)
Lemma walk_miss m' n k g v f i e :
  set_ent m f i e m' → lvl !! f = Some k → lvl !! g = Some n →
  ¬ ((k ≤ n)%nat ∧ reach n (n - k) m g v = Some f ∧ IDX k v = i) →
  walk n m' g v = walk n m g v.
Proof.
  intros (Hset & _) Hf. revert g. induction n as [|n IH]; intros g Hg Hmiss; simpl; [done|].
  rewrite Hset. destruct (decide (g = f ∧ IDX (S n) v = i)) as [[-> Hi]|Hne].
  { destruct Hmiss. rewrite Hf in Hg. injection Hg as ->. rewrite Nat.sub_diag. simpl. done. }
  destruct (ent m g _) as [e0|] eqn:He; simpl; [|done].
  destruct (present e0); simpl; [|done]. destruct n as [|n]; simpl; [done|].
  destruct (tentry (S (S n)) e0) eqn:Ht; [|done]. apply IH.
  { exact (vt_child _ _ _ Hvt _ _ _ _ Hg ltac:(lia) He Ht). }
  intros (? & Hr & ?). apply Hmiss. split_and!; [lia| |done].
  replace (S (S n) - k)%nat with (S (S n - k)) by lia. cbn [reach]. rewrite He. simpl.
  rewrite Ht. replace (S (S n) - 1)%nat with (S n) by lia. done.
Qed.

(** Two walks that meet in a table below their roots took the same indices. *)
Definition same_page (k : nat) (v v' : Z) : Prop :=
  ∀ j, (k ≤ j ≤ 4)%nat → IDX j v = IDX j v'.

Lemma reach_inj n d r r' v v' f :
  lvl !! r = Some n → lvl !! r' = Some n → (d < n)%nat → (n ≤ 4)%nat →
  reach n d m r v = Some f → reach n d m r' v' = Some f →
  (∀ j, (n - d < j ≤ n)%nat → IDX j v = IDX j v') ∧
  (r = r' ∨ (n = 4%nat ∧ (0 < d)%nat ∧ 256 ≤ IDX 4 v)).
Proof.
  revert n r r'. induction d as [|d IH]; intros n r r' Hr Hr' Hd Hn H1 H2; simpl in *.
  { split; [intros; lia|left; congruence]. }
  apply bind_Some in H1 as (e & He & H1). destruct (tentry n e) eqn:Ht; [|done].
  apply bind_Some in H2 as (e' & He' & H2). destruct (tentry n e') eqn:Ht'; [|done].
  pose proof (vt_child _ _ _ Hvt _ _ _ _ Hr ltac:(lia) He Ht) as Hc.
  pose proof (vt_child _ _ _ Hvt _ _ _ _ Hr' ltac:(lia) He' Ht') as Hc'.
  destruct (IH (n - 1)%nat (child e) (child e') Hc Hc' ltac:(lia) ltac:(lia) H1 H2) as [Hidx [Heq|]]; [|lia].
  destruct (vt_inj _ _ _ Hvt _ _ _ _ _ _ _ Hr Hr' ltac:(lia) He He' Ht Ht' Heq) as [[-> Hi]|(-> & Hi & ?)].
  - split; [|by left]. intros j Hj. destruct (decide (j = n)) as [->|]; [done|]. apply Hidx. lia.
  - split; [|right; split_and!; [done|lia|done]].
    intros j Hj. destruct (decide (j = 4%nat)) as [->|]; [done|]. apply Hidx. lia.
Qed.

Lemma reach_same n d g v v' :
  (∀ j, (n - d < j ≤ n)%nat → IDX j v = IDX j v') → (d < n)%nat →
  reach n d m g v = reach n d m g v'.
Proof.
  revert n g. induction d as [|d IH]; intros n g Hidx Hd; simpl; [done|].
  rewrite (Hidx n) by lia. destruct (ent m g _) as [e|]; simpl; [|done].
  destruct (tentry n e); [|done]. apply IH; [|lia]. intros j Hj. apply Hidx. lia.
Qed.

Lemma walk_same n g v v' :
  (∀ j, (1 ≤ j ≤ n)%nat → IDX j v = IDX j v') → walk n m g v = walk n m g v'.
Proof.
  revert g. induction n as [|n IH]; intros g Hidx; simpl; [done|].
  rewrite (Hidx (S n)) by lia. destruct (ent m g _) as [e|]; simpl; [|done].
  rewrite (IH (child e)); [done|]. intros j Hj. apply Hidx. lia.
Qed.
End walks.
