(* ===== verification/VmmCorrect.v ===== *)
(** * The virtual memory manager: correctness

    The operations of [kernel/mm/vmm.c] on the translations [xl] of every address
    space: mapping and unmapping change the translation of one page and no
    other, and walking the tables gives the translation back. *)
From S2P Require Import Prelude Spinlock PageAlloc Pmm Vmm VmmTables.

Lemma reach_snoc m n d g v f e :
  reach n d m g v = Some f → ent m f (IDX (n - d) v) = Some e → tentry (n - d) e = true →
  reach n (S d) m g v = Some (child e).
Proof.
  revert n g. induction d as [|d IH]; intros n g Hr He Ht.
  - simpl in Hr. injection Hr as ->. rewrite Nat.sub_0_r in He, Ht.
    simpl. rewrite He. simpl. by rewrite Ht.
  - remember (S d) as d'. rewrite Heqd' in Hr. simpl in Hr.
    apply bind_Some in Hr as (e0 & He0 & Hr). destruct (tentry n e0) eqn:Ht0; [|done].
    simpl. rewrite He0. simpl. rewrite Ht0. subst d'.
    replace (n - S d)%nat with (n - 1 - d)%nat in * by lia. by apply IH.
Qed.

Section vmm_proofs.
Context {P : Type} `{PageAlloc P}.
Implicit Types (s : Vmm P) (lvl : gmap Z nat).

Definition vm_ok s (lvl : gmap Z nat) : Prop :=
  pa_ok (vpmm s) ∧ vm_tables (pmem s) lvl (pa_free (vpmm s)).

(** The state with another memory and another state of the page allocator. *)
Definition upd (m : memory) (p : P) s : Vmm P := set_pmem m (set_vpmm p s).

Lemma upd_id s : upd (pmem s) (vpmm s) s = s.
Proof. by destruct s. Qed.

Lemma rd_bind {A} s f i e (k : Z → K (Vmm P) A) :
  ent (pmem s) f i = Some e → (rd f i ≫= k) s = k e s.
Proof. intros He. apply bind_Done. unfold rd, kopt. unfold ent in He. by rewrite He. Qed.

Lemma alloc_frame_ok (p : P) q : pa_ok p → q ∈ pa_free p → frame_ok (q * 4096).
Proof.
  intros Hp Hq. pose proof (pa_frames p q Hp Hq). pose proof (pa_total_le p Hp).
  split; [apply Z_mod_mult|lia].
Qed.

(** The machine stops, and no frame is free. *)
Definition out_of_frames {A} (o : outcome (Vmm P) A) : Prop :=
  ∃ s', o = Panic s' ∧ pa_free (vpmm s') = ∅.

Lemma out_of_frames_bind {A B} (m : K (Vmm P) A) (f : A → K (Vmm P) B) s :
  out_of_frames (m s) → out_of_frames ((m ≫= f) s).
Proof. intros (s' & HP & HF). exists s'. split; [by apply bind_Panic|done]. Qed.

(** [alloc_table_page] takes a frame and clears it. *)
Lemma alloc_table_page_spec s :
  pa_ok (vpmm s) →
  (pa_free (vpmm s) = ∅ ∧ out_of_frames (alloc_table_page s)) ∨
  ∃ q p', alloc_table_page s = Done (q * 4096) (upd (<[q * 4096 := replicate 512 0]> (pmem s)) p' s) ∧
    pa_ok p' ∧ pa_total p' = pa_total (vpmm s) ∧ q ∈ pa_free (vpmm s) ∧
    pa_free p' = pa_free (vpmm s) ∖ {[q]}.
Proof.
  intros Hp. unfold alloc_table_page, pmm_alloc.
  destruct (pa_alloc_law (vpmm s) Hp) as (r & p' & Ha & Hok & Htot & [(HF & -> & HF')|(q & Hq & _ & -> & HF')]).
  - left. split; [done|]. eexists. unfold zoom, mbind, K_bind. rewrite Ha. simpl. split; [done|]. simpl. by rewrite HF'.
  - right. exists q, p'. split_and!; try done. unfold zoom, mbind, K_bind. rewrite Ha.
    pose proof (pa_frames _ _ Hp Hq). destruct (Z.eqb_spec (q * 4096) 0); [lia|]. done.
Qed.

(** Hanging a fresh, empty table below an entry that is not present. *)
Section add_table.
Context (m m' : memory) (lvl : gmap Z nat) (F : gset Z) (f i e c : Z) (k : nat).
Context (Hvt : vm_tables m lvl F) (Hf : lvl !! f = Some k) (Hk : (2 ≤ k)%nat).
Context (He : ent m f i = Some e) (Hnp : present e = false).
Context (Hc : frame_ok c) (HcF : c / 4096 ∈ F).
Context (Hset : set_ent (<[c := replicate 512 0]> m) f i (table_entry c) m').

Lemma fresh_table : lvl !! c = None.
Proof.
  destruct (lvl !! c) as [n|] eqn:E; [|done].
  by destruct (vt_frame _ _ _ Hvt c n E) as [_ ?].
Qed.

Lemma add_table_ent g j :
  ent m' g j = if decide (g = f ∧ j = i) then Some (table_entry c)
               else if decide (g = c) then zget (replicate 512 0) j else ent m g j.
Proof.
  destruct Hset as [Hs _]. rewrite Hs. repeat case_decide; try done.
  - subst. by rewrite ent_insert_eq.
  - by rewrite ent_insert_ne.
Qed.

Lemma fc_ne : f ≠ c.
Proof. intros ->. rewrite fresh_table in Hf. done. Qed.

Lemma zeros_not_tentry j x n : zget (replicate 512 0) j = Some x → tentry n x = false.
Proof.
  unfold zget. destruct (j <? 0); [done|]. intros [-> _]%lookup_replicate. by destruct n.
Qed.

Lemma add_table_keeps : keeps_tables m lvl 1 m'.
Proof.
  intros g n j x Hg Hn Hx Ht. rewrite add_table_ent.
  destruct (decide (g = f ∧ j = i)) as [[-> ->]|].
  { rewrite He in Hx. injection Hx as <-. by rewrite not_present_tentry in Ht. }
  destruct (decide (g = c)) as [->|]; [|done]. by rewrite fresh_table in Hg.
Qed.

Lemma add_table_vt : vm_tables m' (<[c := (k - 1)%nat]> lvl) (F ∖ {[c / 4096]}).
Proof.
  pose proof fresh_table as Hfr. pose proof (vt_level _ _ _ Hvt f k Hf).
  pose proof (table_entry_spec k c Hc) as [Hte Hch].
  split.
  - intros g n. rewrite lookup_insert. case_decide; [intros [= <-]; lia|by apply (vt_level _ _ _ Hvt)].
  - intros g n. rewrite lookup_insert. case_decide; [intros [= <-]; subst; set_solver|].
    intros Hg. destruct (vt_frame _ _ _ Hvt g n Hg). set_solver.
  - intros g n. destruct Hset as (_ & _ & Hlen & _). rewrite lookup_insert. case_decide.
    + intros _. subst. destruct (Hlen g (replicate 512 0)) as (t & Ht & Hl); [by rewrite lookup_insert_eq|].
      exists t. split; [done|]. by rewrite Hl, length_replicate.
    + intros Hg. destruct (vt_mem _ _ _ Hvt g n Hg) as (t & Ht & Hl).
      destruct (Hlen g t) as (t' & Ht' & Hl'); [by rewrite lookup_insert_ne|]. exists t'. split; [done|lia].
  - intros g n j x Hg Hn. rewrite add_table_ent. destruct (decide (g = f ∧ j = i)) as [[-> ->]|].
    + intros Hx _. injection Hx as Hx. rewrite <-Hx, Hch, lookup_insert_eq. rewrite lookup_insert_ne in Hg by (by apply not_eq_sym, fc_ne).
      rewrite Hf in Hg. by injection Hg as ->.
    + destruct (decide (g = c)) as [->|]; [intros Hz; by rewrite (zeros_not_tentry _ _ _ Hz)|].
      rewrite lookup_insert_ne in Hg by done. intros Hx Ht.
      pose proof (vt_child _ _ _ Hvt g n j x Hg Hn Hx Ht) as Hx'.
      rewrite lookup_insert_ne; [done|]. intros Heq. by rewrite <-Heq, Hfr in Hx'.
  - assert (∀ g n j x, <[c:=(k - 1)%nat]> lvl !! g = Some n → (2 ≤ n)%nat → ent m' g j = Some x →
      tentry n x = true → (g = f ∧ j = i ∧ child x = c) ∨
      (lvl !! g = Some n ∧ ent m g j = Some x ∧ child x ≠ c)) as Hcases.
    { intros g n j x Hg Hn. rewrite add_table_ent. destruct (decide (g = f ∧ j = i)) as [[-> ->]|].
      - intros Hx _. injection Hx as Hx. left. by rewrite <-Hx.
      - destruct (decide (g = c)) as [->|]; [intros Hz; by rewrite (zeros_not_tentry _ _ _ Hz)|].
        rewrite lookup_insert_ne in Hg by done. intros Hx Ht. right. split_and!; [done..|].
        pose proof (vt_child _ _ _ Hvt g n j x Hg Hn Hx Ht). congruence. }
    intros g g' n j j' x x' Hg Hg' Hn Hx Hx' Ht Ht' Heq.
    destruct (Hcases g n j x Hg Hn Hx Ht) as [(-> & -> & ?)|(Hg1 & Hx1 & ?)];
      destruct (Hcases g' n j' x' Hg' Hn Hx' Ht') as [(-> & -> & ?)|(Hg1' & Hx1' & ?)]; [by left|congruence..|].
    by apply (vt_inj _ _ _ Hvt g g' n j j' x x').
Qed.

(** Nothing is mapped below an empty table. *)
Lemma add_table_walk n g v : lvl !! g = Some n → walk n m' g v = walk n m g v.
Proof.
  intros Hg. pose proof (vt_level _ _ _ Hvt g n Hg). pose proof (vt_level _ _ _ Hvt f k Hf).
  pose proof fc_ne as Hfc.
  destruct (decide ((k ≤ n)%nat ∧ reach n (n - k) m g v = Some f ∧ IDX k v = i)) as [(Hkn & Hr & Hi)|Hmiss].
  - pose proof (reach_stable _ _ _ Hvt 1 m' n (n - k) g v f add_table_keeps Hg ltac:(lia) ltac:(lia) Hr) as Hr'.
    rewrite (walk_reach _ n (n - k) g v f ltac:(lia) Hr').
    rewrite (walk_reach _ n (n - k) g v f ltac:(lia) Hr).
    replace (n - (n - k))%nat with k by lia. destruct k as [|k0] eqn:Ek; [lia|]. cbn [walk].
    rewrite Hi, He. simpl. rewrite Hnp. simpl. rewrite add_table_ent, decide_True by done. simpl.
    destruct (table_entry_spec (S k0) c Hc) as [Hte Hch].
    rewrite (tentry_present _ _ Hte). simpl. destruct k0 as [|k0]; [lia|]. rewrite Hte, Hch. simpl.
    rewrite add_table_ent, decide_False by (intros [? _]; congruence).
    rewrite decide_True, zget_zeros by (done || apply IDX_range). done.
  - assert (vm_tables (<[c := replicate 512 0]> m) lvl (F ∖ {[c / 4096]})) as Hvt1.
    { assert (∀ g j, lvl !! g ≠ None → ent (<[c := replicate 512 0]> m) g j = ent m g j) as Hag.
      { intros g0 j0 Hg0. apply ent_insert_ne. intros <-. by rewrite fresh_table in Hg0. }
      split.
      - apply Hvt.
      - intros g0 n0 Hg0. destruct (vt_frame _ _ _ Hvt g0 n0 Hg0). set_solver.
      - intros g0 n0 Hg0. rewrite lookup_insert_ne; [by eapply vt_mem|].
        intros <-. by rewrite fresh_table in Hg0.
      - intros g0 n0 j0 x0 Hg0 ?. rewrite Hag by congruence. by apply (vt_child _ _ _ Hvt).
      - intros g0 g1 n0 j0 j1 x0 x1 Hg0 Hg1 ?. rewrite !Hag by congruence. by apply (vt_inj _ _ _ Hvt). }
    assert (∀ g0 n0 j0, lvl !! g0 = Some n0 → ent (<[c := replicate 512 0]> m) g0 j0 = ent m g0 j0) as Hag.
    { intros g0 n0 j0 Hg0. apply ent_insert_ne. intros <-. by rewrite fresh_table in Hg0. }
    rewrite (walk_miss _ _ _ Hvt1 m' n k g v f i _ Hset Hf Hg); [by eapply walk_agree|].
    intros (? & Hr & ?). apply Hmiss. split_and!; [done| |done].
    eapply (reach_stable _ _ _ Hvt1 1); [|done|lia|lia|exact Hr].
    intros g0 n0 j0 x0 Hg0 ? Hx ?. by rewrite <-(Hag g0 n0).
Qed.
End add_table.

(** The parts of the state that mapping a page does not change. *)
Definition env_eq s s' : Prop :=
  kernel_pml4_phys s' = kernel_pml4_phys s ∧ vmm_hhdm_offset s' = vmm_hhdm_offset s ∧
  cr3 s' = cr3 s ∧ invalidated s' = invalidated s ∧
  locked (vmm_lock s') = locked (vmm_lock s) ∧ vmm_rflags s' = vmm_rflags s ∧
  (locked (vmm_lock s) ≠ 0 → vmm_lock s' = vmm_lock s).

Lemma env_eq_trans s1 s2 s3 : env_eq s1 s2 → env_eq s2 s3 → env_eq s1 s3.
Proof.
  intros (? & ? & ? & ? & ? & ? & Hl1) (? & ? & ? & ? & ? & ? & Hl2).
  split_and!; try congruence. intros Hl. rewrite Hl2 by congruence. by apply Hl1.
Qed.

(** What [ensure_table] and the mapping routines leave of the rest. *)
Record grows s (lvl : gmap Z nat) s' (lvl' : gmap Z nat) (n : nat) : Prop := {
  gr_env : env_eq s s';
  gr_ok : vm_ok s' lvl';
  gr_lvl : lvl ⊆ lvl';
  gr_frames : (size (pa_free (vpmm s)) ≤ size (pa_free (vpmm s')) + n)%nat;
  gr_free : pa_free (vpmm s') ⊆ pa_free (vpmm s);
  gr_total : pa_total (vpmm s') = pa_total (vpmm s);
  gr_other : ∀ g, lvl' !! g = None → pmem s' !! g = pmem s !! g;
  gr_new : ∀ g k, lvl' !! g = Some k → lvl !! g = None → g / 4096 ∈ pa_free (vpmm s) ∧ k ≠ 4%nat;
}.

Lemma grows_refl s lvl : vm_ok s lvl → grows s lvl s lvl 0.
Proof. intros Hok. split; try done; [lia|congruence]. Qed.

Lemma grows_trans s1 l1 s2 l2 s3 l3 n m :
  grows s1 l1 s2 l2 n → grows s2 l2 s3 l3 m → grows s1 l1 s3 l3 (n + m).
Proof.
  intros [E1 Hok1 HL1 Hn1 Hf1 Ht1 Ho1 Hw1] [E2 Hok2 HL2 Hn2 Hf2 Ht2 Ho2 Hw2].
  split; [|done|by etrans|lia|set_solver|congruence|..].
  - by eapply env_eq_trans.
  - intros g Hg. rewrite Ho2 by done. apply Ho1.
    destruct (l2 !! g) eqn:E; [|done]. eapply lookup_weaken in E; [|exact HL2]. congruence.
  - intros g k Hg Hg1. destruct (l2 !! g) as [k2|] eqn:E.
    + assert (l3 !! g = Some k2) as Hg' by (by eapply lookup_weaken).
      rewrite Hg in Hg'. injection Hg' as ->. by apply Hw1.
    + destruct (Hw2 g k Hg E). split; [set_solver|done].
Qed.

Lemma ensure_table_spec s lvl f k i e :
  vm_ok s lvl → lvl !! f = Some k → (2 ≤ k)%nat → ent (pmem s) f i = Some e →
  (present e = true → tentry k e = true) →
  (pa_free (vpmm s) = ∅ ∧ out_of_frames (ensure_table f i s)) ∨
  ∃ s' lvl' e', ensure_table f i s = Done (child e') s' ∧ grows s lvl s' lvl' 1 ∧
    ent (pmem s') f i = Some e' ∧ tentry k e' = true ∧ keeps_tables (pmem s) lvl 1 (pmem s') ∧
    ∀ n g v, lvl !! g = Some n → walk n (pmem s') g v = walk n (pmem s) g v.
Proof.
  intros [Hp Hvt] Hf Hk He Ht. unfold ensure_table. rewrite (rd_bind s f i e) by done.
  destruct (has e PTE_PRESENT) eqn:Hpe; simpl.
  { right. exists s, lvl, e. rewrite mret_bind, (rd_bind s f i e) by done.
    split_and!; [done| |done|by apply Ht|by intros ???? ? ? ? ?|done].
    destruct (grows_refl s lvl (conj Hp Hvt)). split; try done. lia. }
  rewrite bind_assoc.
  destruct (alloc_table_page_spec s Hp) as [(HF & Ha)|(q & p' & Ha & Hp' & Htot & Hq & HF)].
  { left. split; [done|]. by apply out_of_frames_bind. }
  right. pose proof (alloc_frame_ok _ _ Hp Hq) as Hc.
  assert (q * 4096 / 4096 = q) as Hq4 by lia.
  assert (lvl !! (q * 4096) = None) as Hfr.
  { eapply fresh_table; [exact Hvt|]. by rewrite Hq4. }
  assert (f ≠ q * 4096) as Hne by congruence.
  destruct (vt_mem _ _ _ Hvt f k Hf) as (t & Htab & Hlen).
  pose proof (ent_range _ _ _ _ _ _ _ Hvt Hf He) as Hi.
  destruct (wr_spec (upd (<[q * 4096 := replicate 512 0]> (pmem s)) p' s) f i (table_entry (q * 4096)) t)
    as (m' & Hwr & Hset); [simpl; by rewrite lookup_insert_ne|done|done|].
  simpl in Hset. set (s2 := set_pmem m' (upd (<[q * 4096 := replicate 512 0]> (pmem s)) p' s)) in *.
  pose proof (table_entry_spec k (q * 4096) Hc) as [Hte Hch].
  assert (ent m' f i = Some (table_entry (q * 4096))) as He'.
  { destruct Hset as [Hs _]. by rewrite Hs, decide_True. }
  exists s2, (<[q * 4096 := (k - 1)%nat]> lvl), (table_entry (q * 4096)).
  assert (q * 4096 / 4096 ∈ pa_free (vpmm s)) as HqF by (by rewrite Hq4).
  split_and!.
  - kbind Ha. unfold table_entry in Hwr. kbind Hwr. by rewrite (rd_bind s2 f i _ _ He').
  - split; simpl.
    + done.
    + split; [done|]. simpl. rewrite HF. pose proof (add_table_vt (pmem s) m' lvl _ f i e (q * 4096) k
        Hvt Hf Hk He Hpe Hc HqF Hset) as Hv. by rewrite Hq4 in Hv.
    + by apply insert_subseteq.
    + rewrite HF, size_difference by set_solver. rewrite size_singleton. lia.
    + rewrite HF. set_solver.
    + done.
    + intros g Hg. apply lookup_insert_None in Hg as [Hg1 Hg2].
      destruct Hset as (_ & _ & _ & Hs). rewrite Hs by congruence. by rewrite lookup_insert_ne.
    + intros g n. rewrite lookup_insert. case_decide; [|congruence]. intros [= <-] _. subst.
      split; [done|]. pose proof (vt_level _ _ _ Hvt f k Hf). lia.
  - done.
  - done.
  - simpl. exact (add_table_keeps (pmem s) m' lvl _ f i e (q * 4096) Hvt He Hpe HqF Hset).
  - intros n g v Hg. simpl. exact (add_table_walk (pmem s) m' lvl _ f i e (q * 4096) k
        Hvt Hf Hk He Hpe Hc HqF Hset n g v Hg).
Qed.

(** One level down on the way of [v], where no huge page maps it. *)
Definition no_huge (m : memory) (r v : Z) : Prop := ∀ n e, xl m r v = Some (n, e) → n = 1%nat.

Lemma no_huge_entry m lvl F r d v f e :
  vm_tables m lvl F → no_huge m r v → (d < 3)%nat → reach 4 d m r v = Some f →
  ent m f (IDX (4 - d) v) = Some e → present e = true → tentry (4 - d) e = true.
Proof.
  intros Hvt Hnh Hd Hr He Hpe. destruct (tentry (4 - d) e) eqn:Ht; [done|].
  specialize (Hnh (4 - d)%nat e). unfold xl in Hnh.
  rewrite (walk_reach _ 4 d r v f ltac:(lia) Hr) in Hnh.
  destruct (4 - d)%nat as [|[|n]] eqn:E; [lia..|]. cbn [walk] in Hnh. rewrite He in Hnh. simpl in Hnh.
  rewrite Hpe, Ht in Hnh. simpl in Hnh. by specialize (Hnh eq_refl).
Qed.

Lemma ensure_step s lvl r d v f :
  vm_ok s lvl → lvl !! r = Some 4%nat → no_huge (pmem s) r v → (d < 3)%nat →
  reach 4 d (pmem s) r v = Some f →
  (pa_free (vpmm s) = ∅ ∧ out_of_frames (ensure_table f (IDX (4 - d) v) s)) ∨
  ∃ s' lvl' c, ensure_table f (IDX (4 - d) v) s = Done c s' ∧ grows s lvl s' lvl' 1 ∧
    reach 4 (S d) (pmem s') r v = Some c ∧
    (∀ r' v', lvl !! r' = Some 4%nat → xl (pmem s') r' v' = xl (pmem s) r' v').
Proof.
  intros [Hp Hvt] Hr Hnh Hd Hre.
  pose proof (reach_level _ _ _ Hvt 4 d r v f Hr ltac:(lia) Hre) as Hf.
  destruct (ent_Some _ _ _ _ _ (IDX (4 - d) v) Hvt Hf (IDX_range _ _)) as (e & He).
  destruct (ensure_table_spec s lvl f (4 - d) (IDX (4 - d) v) e (conj Hp Hvt) Hf ltac:(lia) He)
    as [?|(s' & lvl' & e' & Hen & Hgr & He' & Ht' & Hkeep & Hw)].
  { by eapply no_huge_entry. }
  { by left. }
  right. exists s', lvl', (child e'). split_and!; [done..| |].
  - apply (reach_snoc _ 4 d r v f e'); [|done|done].
    eapply (reach_stable _ _ _ Hvt 1); [exact Hkeep|done|lia|lia|done].
  - intros r' v' Hr'. by apply Hw.
Qed.

Lemma grows_no_huge s (lvl : gmap Z nat) s' r v :
  lvl !! r = Some 4%nat → no_huge (pmem s) r v →
  (∀ r' v', lvl !! r' = Some 4%nat → xl (pmem s') r' v' = xl (pmem s) r' v') →
  no_huge (pmem s') r v.
Proof. intros Hr Hnh Hx n e. rewrite Hx by done. apply Hnh. Qed.

Lemma small_free (F F' : gset Z) n :
  (size F ≤ size F' + n)%nat → F' = ∅ → (n < 3)%nat → (size F < 3)%nat.
Proof. intros Hs -> Hn. rewrite size_empty in Hs. lia. Qed.

(** The tables on the way of [v] exist after the three calls of [ensure_table]. *)
Definition tables_for (r v : Z) : K (Vmm P) Z :=
  pdpt ← ensure_table r (PML4_INDEX v);
  pd ← ensure_table pdpt (PDPT_INDEX v);
  ensure_table pd (PD_INDEX v).

Lemma tables_for_spec s lvl r v :
  vm_ok s lvl → lvl !! r = Some 4%nat → no_huge (pmem s) r v →
  ((size (pa_free (vpmm s)) < 3)%nat ∧ out_of_frames (tables_for r v s)) ∨
  ∃ s' lvl' pt, tables_for r v s = Done pt s' ∧ grows s lvl s' lvl' 3 ∧
    reach 4 3 (pmem s') r v = Some pt ∧
    (∀ r' v', lvl !! r' = Some 4%nat → xl (pmem s') r' v' = xl (pmem s) r' v').
Proof.
  intros Hok Hr Hnh. unfold tables_for.
  destruct (ensure_step s lvl r 0 v r Hok Hr Hnh ltac:(lia) eq_refl)
    as [[HF HP]|(s1 & l1 & c1 & H1 & Hg1 & Hr1 & Hx1)].
  { left. split; [rewrite HF, size_empty; lia|]. by apply out_of_frames_bind. }
  assert (l1 !! r = Some 4%nat) as Hrl1 by (eapply lookup_weaken, gr_lvl; [done|exact Hg1]).
  pose proof (grows_no_huge _ _ _ _ _ Hr Hnh Hx1) as Hnh1.
  destruct (ensure_step s1 l1 r 1 v c1 (gr_ok _ _ _ _ _ Hg1) Hrl1 Hnh1 ltac:(lia) Hr1)
    as [[HF HP]|(s2 & l2 & c2 & H2 & Hg2 & Hr2 & Hx2)].
  { left. split; [eapply small_free; [apply (gr_frames _ _ _ _ _ Hg1)|done|lia]|].
    kbind H1. by apply out_of_frames_bind. }
  assert (l2 !! r = Some 4%nat) as Hrl2 by (eapply lookup_weaken, gr_lvl; [done|exact Hg2]).
  pose proof (grows_no_huge _ _ _ _ _ Hrl1 Hnh1 Hx2) as Hnh2.
  pose proof (grows_trans _ _ _ _ _ _ _ _ Hg1 Hg2) as Hg12.
  destruct (ensure_step s2 l2 r 2 v c2 (gr_ok _ _ _ _ _ Hg2) Hrl2 Hnh2 ltac:(lia) Hr2)
    as [[HF HP]|(s3 & l3 & c3 & H3 & Hg3 & Hr3 & Hx3)].
  { left. split; [eapply small_free; [apply (gr_frames _ _ _ _ _ Hg12)|done|lia]|].
    kbind H1. kbind H2. exact HP. }
  right. exists s3, l3, c3. split_and!; [by kbind H1; kbind H2|exact (grows_trans _ _ _ _ _ _ _ _ Hg12 Hg3)|done|].
  intros r' v' Hr'. rewrite Hx3, Hx2, Hx1; [done..|by eapply lookup_weaken, gr_lvl|].
  eapply lookup_weaken; [exact Hr'|]. apply (gr_lvl _ _ _ _ _ Hg12).
Qed.

(** ** Changing a leaf *)

(** Writing an entry that leads to no table keeps the tables. *)
Lemma set_leaf_vt m m' lvl F f k i e :
  vm_tables m lvl F → lvl !! f = Some k → set_ent m f i e m' →
  k = 1%nat ∨ tentry k e = false → vm_tables m' lvl F.
Proof.
  intros Hvt Hf (Hset & _ & Hlen & _) Hleaf.
  assert (∀ g n j x, lvl !! g = Some n → (2 ≤ n)%nat → ent m' g j = Some x → tentry n x = true →
    ent m g j = Some x) as Hold.
  { intros g n j x Hg Hn. rewrite Hset. case_decide as Hd; [|done]. destruct Hd as [-> ->].
    rewrite Hf in Hg. injection Hg as <-. intros [= <-] Ht. destruct Hleaf; [lia|congruence]. }
  split; try apply Hvt.
  - intros g n Hg. destruct (vt_mem _ _ _ Hvt g n Hg) as (t & Ht & Hl).
    destruct (Hlen g t Ht) as (t' & ? & ?). exists t'. split; [done|lia].
  - intros g n j x Hg Hn Hx Ht. apply (vt_child _ _ _ Hvt g n j x); eauto.
  - intros g g' n j j' x x' Hg Hg' Hn Hx Hx' Ht Ht'. apply (vt_inj _ _ _ Hvt g g' n j j' x x'); eauto.
Qed.

(** The page of level [k] of [v] in the space of [r], and in the others if it is
    the kernel's. *)
Definition concerns (k : nat) (r v r' v' : Z) : Prop :=
  same_page k v v' ∧ (r' = r ∨ 256 ≤ IDX 4 v).

Definition leaf (k : nat) (e : Z) : option (nat * Z) := if present e then Some (k, e) else None.

Lemma set_leaf_xl m m' lvl F r v f k e :
  vm_tables m lvl F → lvl !! r = Some 4%nat → (1 ≤ k ≤ 3)%nat → reach 4 (4 - k) m r v = Some f →
  set_ent m f (IDX k v) e m' → k = 1%nat ∨ tentry k e = false →
  (∀ v', same_page k v v' → xl m' r v' = leaf k e) ∧
  (∀ r' v', lvl !! r' = Some 4%nat → ¬ concerns k r v r' v' → xl m' r' v' = xl m r' v').
Proof.
  intros Hvt Hr Hk Hre Hset Hleaf.
  pose proof (reach_level _ _ _ Hvt 4 (4 - k) r v f Hr ltac:(lia) Hre) as Hf.
  replace (4 - (4 - k))%nat with k in Hf by lia. split.
  - intros v' Hsame. assert (reach 4 (4 - k) m r v' = Some f) as Hre'.
    { rewrite <-Hre. apply reach_same; [|lia]. intros j Hj. symmetry. apply Hsame. lia. }
    assert (reach 4 (4 - k) m' r v' = Some f) as Hre2.
    { eapply (reach_stable _ _ _ Hvt k); [|done|lia|lia|exact Hre'].
      intros g n j x Hg Hn Hx Ht. destruct Hset as [Hs _]. rewrite Hs, decide_False; [done|].
      intros [-> _]. rewrite Hf in Hg. injection Hg. lia. }
    unfold xl. rewrite (walk_reach _ 4 (4 - k) r v' f ltac:(lia) Hre2).
    replace (4 - (4 - k))%nat with k by lia. destruct k as [|k]; [lia|]. cbn [walk].
    destruct Hset as [Hs _]. rewrite Hs, decide_True by (split; [done|symmetry; apply Hsame; lia]).
    simpl. unfold leaf. destruct (present e); simpl; [|done]. destruct k as [|k]; [done|].
    destruct Hleaf as [|Hleaf]; [lia|]. by rewrite Hleaf.
  - intros r' v' Hr' Hnc. eapply (walk_miss _ _ _ Hvt); [exact Hset|exact Hf|done|].
    intros (_ & Hre' & Hi). apply Hnc.
    destruct (reach_inj _ _ _ Hvt 4 (4 - k) r r' v v' f Hr Hr' ltac:(lia) ltac:(lia) Hre Hre') as [Hidx Hor].
    split; [|destruct Hor as [->|(_ & _ & ?)]; [by left|by right]].
    intros j Hj. destruct (decide (j = k)) as [->|]; [done|]. apply Hidx. lia.
Qed.

Lemma set_leaf_spec s lvl r v f k e :
  vm_ok s lvl → lvl !! r = Some 4%nat → (1 ≤ k ≤ 3)%nat →
  reach 4 (4 - k) (pmem s) r v = Some f → k = 1%nat ∨ tentry k e = false →
  ∃ s', wr f (IDX k v) e s = Done tt s' ∧ grows s lvl s' lvl 0 ∧ vpmm s' = vpmm s ∧
    (∀ v', same_page k v v' → xl (pmem s') r v' = leaf k e) ∧
    (∀ r' v', lvl !! r' = Some 4%nat → ¬ concerns k r v r' v' → xl (pmem s') r' v' = xl (pmem s) r' v').
Proof.
  intros [Hp Hvt] Hr Hk Hre Hleaf.
  pose proof (reach_level _ _ _ Hvt 4 (4 - k) r v f Hr ltac:(lia) Hre) as Hf.
  replace (4 - (4 - k))%nat with k in Hf by lia.
  destruct (vt_mem _ _ _ Hvt _ _ Hf) as (t & Ht & Hl).
  destruct (wr_spec s f (IDX k v) e t Ht Hl (IDX_range _ _)) as (m' & Hw & Hset).
  exists (set_pmem m' s). split; [done|]. split; [|split; [done|]].
  - split; simpl; try done; try lia; try congruence.
    + split; [done|]. by eapply set_leaf_vt.
    + intros g Hg. destruct Hset as (_ & _ & _ & Hs). apply Hs. congruence.
  - by eapply set_leaf_xl.
Qed.

(** ** Mapping a page *)

Definition page_addr (phys : Z) : Prop := phys mod 4096 = 0 ∧ 0 ≤ phys < 2 ^ 52.

Lemma flags_to_pte_mask flags : Z.land (vmm_flags_to_pte flags) PTE_ADDR_MASK = 0.
Proof. unfold vmm_flags_to_pte. by repeat destruct (has flags _). Qed.
Lemma pte_present phys flags : page_addr phys → present (Z.lor phys (vmm_flags_to_pte flags)) = true.
Proof.
  intros [? ?]. unfold present. destruct (decide (phys = 0)) as [->|].
  - unfold vmm_flags_to_pte. by repeat destruct (has flags _).
  - rewrite has_lor by (done || split; lia). unfold vmm_flags_to_pte. by repeat destruct (has flags _).
Qed.
Lemma pte_child phys flags : page_addr phys → child (Z.lor phys (vmm_flags_to_pte flags)) = phys.
Proof.
  intros [? ?]. destruct (decide (phys = 0)) as [->|].
  - unfold vmm_flags_to_pte. by repeat destruct (has flags _).
  - apply child_lor; [split; lia|apply flags_to_pte_mask].
Qed.

Lemma map_page_in_lemma s lvl r v phys flags :
  vm_ok s lvl → lvl !! r = Some 4%nat → no_huge (pmem s) r v → page_addr phys →
  ((size (pa_free (vpmm s)) < 3)%nat ∧ out_of_frames (vmm_map_page_in r v phys flags s)) ∨
  ∃ s' lvl', vmm_map_page_in r v phys flags s = Done tt s' ∧ grows s lvl s' lvl' 3 ∧
    (∀ v', same_page 1 v v' → xl (pmem s') r v' = Some (1%nat, Z.lor phys (vmm_flags_to_pte flags))) ∧
    (∀ r' v', lvl !! r' = Some 4%nat → ¬ concerns 1 r v r' v' → xl (pmem s') r' v' = xl (pmem s) r' v').
Proof.
  intros Hok Hr Hnh Hphys.
  assert (vmm_map_page_in r v phys flags s =
    (tables_for r v ≫= λ pt, wr pt (PT_INDEX v) (Z.lor phys (vmm_flags_to_pte flags))) s) as ->.
  { unfold vmm_map_page_in, tables_for, mbind, K_bind.
    destruct (ensure_table r _ s) as [? s1| |]; [|done..]. by destruct (ensure_table a _ s1). }
  destruct (tables_for_spec s lvl r v Hok Hr Hnh) as [[? HP]|(s1 & l1 & pt & H1 & Hg1 & Hr1 & Hx1)].
  { left. split; [done|]. by apply out_of_frames_bind. }
  right. kbind H1. assert (l1 !! r = Some 4%nat) as Hrl1 by (eapply lookup_weaken, gr_lvl; [done|exact Hg1]).
  destruct (set_leaf_spec s1 l1 r v pt 1 (Z.lor phys (vmm_flags_to_pte flags)) (gr_ok _ _ _ _ _ Hg1) Hrl1
    ltac:(lia) Hr1 (or_introl eq_refl)) as (s2 & H2 & Hg2 & _ & Hhit & Hmiss).
  exists s2, l1. split_and!; [done| | |].
  - pose proof (grows_trans _ _ _ _ _ _ _ _ Hg1 Hg2) as Hg. by rewrite Nat.add_0_r in Hg.
  - intros v' Hv'. rewrite Hhit by done. unfold leaf. by rewrite pte_present.
  - intros r' v' Hr' Hnc. rewrite Hmiss; [by apply Hx1| |done]. eapply lookup_weaken; [done|]. apply (gr_lvl _ _ _ _ _ Hg1).
Qed.

(** ** Walking the tables *)

(** Where a leaf of level [n] sends the address [v]. *)
Definition phys_of (n : nat) (e v : Z) : Z :=
  match n with
  | 3%nat => u64 (Z.land e PTE_ADDR_MASK + Z.land v PAGE_MASK_1GB)
  | 2%nat => u64 (Z.land e PTE_ADDR_MASK_2MB + Z.land v PAGE_MASK_2MB)
  | _ => u64 (Z.land e PTE_ADDR_MASK + Z.land v PAGE_OFFSET_MASK)
  end.
Definition translate (m : memory) (r v : Z) : Z :=
  match xl m r v with Some (n, e) => phys_of n e v | None => 0 end.

(** Reading the next table on the way of [v]. *)
Lemma rd_level s lvl g n v :
  vm_ok s lvl → lvl !! g = Some n →
  ∃ e, ent (pmem s) g (IDX n v) = Some e ∧
    ∀ A (k : Z → K (Vmm P) A), (rd g (IDX n v) ≫= k) s = k e s.
Proof.
  intros [Hp Hvt] Hg. destruct (ent_Some _ _ _ _ _ (IDX n v) Hvt Hg (IDX_range _ _)) as (e & He).
  exists e. split; [done|]. intros A k. by apply rd_bind.
Qed.

Lemma child_level s lvl g n i e :
  vm_ok s lvl → lvl !! g = Some (S (S n)) → ent (pmem s) g i = Some e → tentry (S (S n)) e = true →
  lvl !! child e = Some (S n).
Proof. intros [_ Hvt] Hg He Ht. exact (vt_child _ _ _ Hvt _ _ _ _ Hg ltac:(lia) He Ht). Qed.

Lemma get_phys_lemma s lvl v :
  vm_ok s lvl → lvl !! kernel_pml4_phys s = Some 4%nat →
  vmm_get_phys v s = Done (translate (pmem s) (kernel_pml4_phys s) v) s.
Proof.
  intros Hok Hr. unfold vmm_get_phys. rewrite kget_bind. set (r := kernel_pml4_phys s) in *.
  change (PML4_INDEX v) with (IDX 4 v). change (PDPT_INDEX v) with (IDX 3 v).
  change (PD_INDEX v) with (IDX 2 v). change (PT_INDEX v) with (IDX 1 v).
  unfold translate, xl. cbn [walk].
  destruct (rd_level s lvl r 4 v) as (e4 & He4 & E); [done..|]. rewrite E; clear E. rewrite He4. simpl.
  unfold present at 1. destruct (has e4 PTE_PRESENT) eqn:H4; simpl; [|done].
  assert (tentry 4 e4 = true) as Ht4 by (unfold tentry, present; by rewrite H4). rewrite Ht4.
  pose proof (child_level s lvl r 2 _ e4 Hok Hr He4 Ht4) as Hc3. fold (child e4).
  destruct (rd_level s lvl (child e4) 3 v) as (e3 & He3 & E); [done..|]. rewrite E; clear E. rewrite He3. simpl.
  unfold present at 1. destruct (has e3 PTE_PRESENT) eqn:H3; simpl; [|done].
  unfold tentry at 1, present at 1, huge at 1. rewrite H3. simpl.
  destruct (has e3 PTE_HUGE) eqn:Hh3; simpl; [done|].
  assert (tentry 3 e3 = true) as Ht3 by (unfold tentry, present, huge; by rewrite H3, Hh3).
  pose proof (child_level s lvl _ 1 _ e3 Hok Hc3 He3 Ht3) as Hc2. fold (child e3).
  destruct (rd_level s lvl (child e3) 2 v) as (e2 & He2 & E); [done..|]. rewrite E; clear E. rewrite He2. simpl.
  unfold present at 1. destruct (has e2 PTE_PRESENT) eqn:H2; simpl; [|done].
  unfold tentry at 1, present at 1, huge at 1. rewrite H2. simpl.
  destruct (has e2 PTE_HUGE) eqn:Hh2; simpl; [done|].
  assert (tentry 2 e2 = true) as Ht2 by (unfold tentry, present, huge; by rewrite H2, Hh2).
  pose proof (child_level s lvl _ 0 _ e2 Hok Hc2 He2 Ht2) as Hc1. fold (child e2).
  destruct (rd_level s lvl (child e2) 1 v) as (e1 & He1 & E); [done..|]. rewrite E; clear E. rewrite He1. simpl.
  unfold present at 1. by destruct (has e1 PTE_PRESENT) eqn:H1.
Qed.

Lemma walk_to_pt_entry_spec s lvl r v :
  vm_ok s lvl → lvl !! r = Some 4%nat → no_huge (pmem s) r v →
  walk_to_pt_entry r v s = Done ((λ pt, (pt, IDX 1 v)) <$> reach 4 3 (pmem s) r v) s ∧
  (reach 4 3 (pmem s) r v = None → xl (pmem s) r v = None).
Proof.
  intros Hok Hr Hnh. pose proof Hok as [_ Hvt].
  pose proof (λ d f e, no_huge_entry _ _ _ r d v f e Hvt Hnh) as Htab.
  unfold walk_to_pt_entry, xl.
  change (PML4_INDEX v) with (IDX 4 v). change (PDPT_INDEX v) with (IDX 3 v).
  change (PD_INDEX v) with (IDX 2 v). change (PT_INDEX v) with (IDX 1 v).
  cbn [walk reach].
  destruct (rd_level s lvl r 4 v) as (e4 & He4 & E); [done..|]. rewrite E; clear E. rewrite He4. simpl.
  unfold present at 1. destruct (has e4 PTE_PRESENT) eqn:H4; simpl; [|by rewrite (not_present_tentry 4 e4 H4)].
  assert (tentry 4 e4 = true) as Ht4 by (unfold tentry, present; by rewrite H4). rewrite Ht4.
  pose proof (child_level s lvl r 2 _ e4 Hok Hr He4 Ht4) as Hc3. fold (child e4).
  assert (reach 4 1 (pmem s) r v = Some (child e4)) as Hre1 by (by apply (reach_snoc _ 4 0 r v r e4)).
  destruct (rd_level s lvl (child e4) 3 v) as (e3 & He3 & E); [done..|]. rewrite E; clear E. rewrite He3. simpl.
  unfold present at 1. destruct (has e3 PTE_PRESENT) eqn:H3; simpl; [|by rewrite (not_present_tentry 3 e3 H3)].
  pose proof (Htab 1%nat (child e4) e3 ltac:(lia) Hre1 He3 H3) as Ht3. simpl in Ht3. rewrite Ht3.
  pose proof (child_level s lvl _ 1 _ e3 Hok Hc3 He3 Ht3) as Hc2. fold (child e3).
  assert (reach 4 2 (pmem s) r v = Some (child e3)) as Hre2 by (by apply (reach_snoc _ 4 1 r v (child e4) e3)).
  destruct (rd_level s lvl (child e3) 2 v) as (e2 & He2 & E); [done..|]. rewrite E; clear E. rewrite He2. simpl.
  unfold present at 1. destruct (has e2 PTE_PRESENT) eqn:H2; simpl; [|by rewrite (not_present_tentry 2 e2 H2)].
  pose proof (Htab 2%nat (child e3) e2 ltac:(lia) Hre2 He2 H2) as Ht2. simpl in Ht2. rewrite Ht2.
  split; [done|by intros ?].
Qed.

Lemma get_phys_in_lemma s lvl r v :
  vm_ok s lvl → lvl !! r = Some 4%nat → no_huge (pmem s) r v →
  vmm_get_phys_in r v s = Done (translate (pmem s) r v) s.
Proof.
  intros Hok Hr Hnh. destruct (walk_to_pt_entry_spec s lvl r v Hok Hr Hnh) as [Hw Hnone].
  unfold vmm_get_phys_in. kbind Hw. unfold translate.
  destruct (reach 4 3 (pmem s) r v) as [pt|] eqn:Hre; simpl; [|by rewrite Hnone].
  unfold xl. rewrite (walk_reach _ 4 3 r v pt ltac:(lia) Hre). cbn [walk Nat.sub].
  pose proof Hok as [_ Hvt].
  pose proof (reach_level _ _ _ Hvt 4 3 r v pt Hr ltac:(lia) Hre) as Hpt.
  destruct (rd_level s lvl pt 1 v) as (e1 & He1 & E); [done..|]. rewrite E; clear E. rewrite He1. simpl.
  unfold present at 1. by destruct (has e1 PTE_PRESENT).
Qed.

Lemma unmap_page_in_lemma s lvl r v :
  vm_ok s lvl → lvl !! r = Some 4%nat → no_huge (pmem s) r v →
  ∃ s', vmm_unmap_page_in r v s = Done tt s' ∧ vm_ok s' lvl ∧ vpmm s' = vpmm s ∧
    locked (vmm_lock s') = locked (vmm_lock s) ∧ kernel_pml4_phys s' = kernel_pml4_phys s ∧
    (∀ g, lvl !! g = None → pmem s' !! g = pmem s !! g) ∧
    (∀ v', same_page 1 v v' → xl (pmem s') r v' = None) ∧
    (∀ r' v', lvl !! r' = Some 4%nat → ¬ concerns 1 r v r' v' → xl (pmem s') r' v' = xl (pmem s) r' v') ∧
    (pmem s' = pmem s ∨ v ∈ invalidated s').
Proof.
  intros Hok Hr Hnh. destruct (walk_to_pt_entry_spec s lvl r v Hok Hr Hnh) as [Hw Hnone].
  unfold vmm_unmap_page_in. kbind Hw.
  destruct (reach 4 3 (pmem s) r v) as [pt|] eqn:Hre; simpl.
  - destruct (set_leaf_spec s lvl r v pt 1 0 Hok Hr ltac:(lia) Hre (or_introl eq_refl))
      as (s2 & H2 & Hg & Hvp & Hhit & Hmiss).
    kbind H2. unfold paging_invlpg, kmod. eexists. split; [done|]. simpl.
    pose proof (gr_env _ _ _ _ _ Hg) as (? & ? & ? & ? & ? & ? & ?). pose proof (gr_ok _ _ _ _ _ Hg) as [? ?].
    split_and!; [done|done|done|done|by apply (gr_other _ _ _ _ _ Hg)|done|done|].
    right. set_solver.
  - exists s. split_and!; try done; [|by left]. intros v' Hv'.
    unfold xl. rewrite <-(walk_same _ 4 r v v') by (intros j Hj; apply Hv'; lia). by apply Hnone.
Qed.
End vmm_proofs.
