(* ===== verification/VmmSpaces.v ===== *)
(** * The virtual memory manager: ranges and address spaces

    Mapping of ranges ([map_range_2mb]), the locked operations on the kernel's
    tables ([vmm_map_page], [vmm_unmap_page]) and new address spaces
    ([vmm_create_user_pml4]) of [kernel/mm/vmm.c], and the heap's view of the two
    memory managers. *)
From S2P Require Import Prelude Spinlock PageAlloc Pmm Vmm VmmTables VmmCorrect.

(** ** Addresses and indices *)

Lemma IDX_div n v : (1 ≤ n)%nat → IDX n v = v / 2 ^ (12 + 9 * (Z.of_nat n - 1)) mod 512.
Proof.
  intros Hn. unfold IDX. change 511 with (Z.ones 9). rewrite Z.land_ones by lia.
  by rewrite Z.shiftr_div_pow2 by lia.
Qed.

Lemma idx_values v :
  IDX 1 v = v / 4096 mod 512 ∧ IDX 2 v = v / 4096 / 512 mod 512 ∧
  IDX 3 v = v / 4096 / 512 / 512 mod 512 ∧ IDX 4 v = v / 4096 / 512 / 512 / 512 mod 512.
Proof.
  rewrite !IDX_div by lia. rewrite !Z.div_div by lia.
  split_and!; do 2 f_equal; reflexivity.
Qed.

(** The addresses of one page are those with the same bits 12 to 47. *)
Lemma same_page_iff v v' : same_page 1 v v' ↔ v / 4096 mod 2 ^ 36 = v' / 4096 mod 2 ^ 36.
Proof.
  pose proof (idx_values v) as (H1 & H2 & H3 & H4).
  pose proof (idx_values v') as (H1' & H2' & H3' & H4').
  assert (∀ a b, a mod 2 ^ 36 = b mod 2 ^ 36 ↔
    a mod 512 = b mod 512 ∧ a / 512 mod 512 = b / 512 mod 512 ∧
    a / 512 / 512 mod 512 = b / 512 / 512 mod 512 ∧
    a / 512 / 512 / 512 mod 512 = b / 512 / 512 / 512 mod 512) as Hd by (intros; lia).
  rewrite Hd. split.
  - intros Hs. rewrite <-H1, <-H1', <-H2, <-H2', <-H3, <-H3', <-H4, <-H4'.
    split_and!; apply Hs; lia.
  - intros (E1 & E2 & E3 & E4) j Hj.
    destruct j as [|[|[|[|[|j]]]]]; [lia|congruence..|lia].
Qed.
Lemma same_page2_iff v v' : same_page 2 v v' ↔ v / 2097152 mod 2 ^ 27 = v' / 2097152 mod 2 ^ 27.
Proof.
  pose proof (idx_values v) as (H1 & H2 & H3 & H4).
  pose proof (idx_values v') as (H1' & H2' & H3' & H4').
  assert (∀ a b, a mod 2 ^ 27 = b mod 2 ^ 27 ↔
    a mod 512 = b mod 512 ∧ a / 512 mod 512 = b / 512 mod 512 ∧
    a / 512 / 512 mod 512 = b / 512 / 512 mod 512) as Hd by (intros; lia).
  assert (∀ x, x / 2097152 = x / 4096 / 512) as Hx by (intros; by rewrite Z.div_div).
  rewrite !Hx, Hd. split.
  - intros Hs. rewrite <-H2, <-H2', <-H3, <-H3', <-H4, <-H4'. split_and!; apply Hs; lia.
  - intros (E2 & E3 & E4) j Hj. destruct j as [|[|[|[|[|j]]]]]; [lia|lia|congruence..|lia].
Qed.

Lemma land_offset v : Z.land v PAGE_OFFSET_MASK = v mod 4096.
Proof. change PAGE_OFFSET_MASK with (Z.ones 12). by rewrite Z.land_ones by lia. Qed.
Lemma land_2mb v : Z.land v PAGE_MASK_2MB = v mod 2097152.
Proof. change PAGE_MASK_2MB with (Z.ones 21). by rewrite Z.land_ones by lia. Qed.

Section spaces.
Context {P : Type} `{PageAlloc P}.
Implicit Types (s : Vmm P) (lvl : gmap Z nat).

(** ** The kernel's tables *)

Lemma map_page_lemma s lvl v phys flags :
  vm_ok s lvl → lvl !! kernel_pml4_phys s = Some 4%nat → locked (vmm_lock s) = 0 →
  no_huge (pmem s) (kernel_pml4_phys s) v → page_addr phys →
  let r := kernel_pml4_phys s in
  ((size (pa_free (vpmm s)) < 3)%nat ∧ out_of_frames (vmm_map_page v phys flags s)) ∨
  ∃ s' lvl', vmm_map_page v phys flags s = Done tt s' ∧ grows s lvl s' lvl' 3 ∧
    (∀ v', same_page 1 v v' → xl (pmem s') r v' = Some (1%nat, Z.lor phys (vmm_flags_to_pte flags))) ∧
    (∀ r' v', lvl !! r' = Some 4%nat → ¬ concerns 1 r v r' v' → xl (pmem s') r' v' = xl (pmem s) r' v').
Proof.
  intros Hok Hr Hlock Hnh Hphys r. unfold vmm_map_page.
  set (s1 := set_vlock {| locked := 1; saved_flags := vmm_rflags s |} (cli (vmm_rflags s)) s).
  assert (vmm_acquire s = Done tt s1) as Ha.
  { unfold vmm_acquire, kupd. by rewrite (spinlock_acquire_free _ _ Hlock). }
  kbind Ha. rewrite kget_bind.
  destruct (map_page_in_lemma s1 lvl r v phys flags Hok Hr Hnh Hphys)
    as [[? HP]|(s' & lvl' & Hm & Hg & Hhit & Hmiss)].
  { left. split; [done|]. by apply out_of_frames_bind. }
  right. kbind Hm. unfold vmm_release, kmod. simpl. eexists _, lvl'. split; [done|].
  destruct Hg as [(? & ? & ? & ? & ? & ? & Hl) [? ?] ? ? ? ? ? ?]. simpl in *.
  rewrite (Hl ltac:(done)). split; [|done]. split; simpl; try done.
Qed.

Lemma unmap_page_lemma s lvl v :
  vm_ok s lvl → lvl !! kernel_pml4_phys s = Some 4%nat → locked (vmm_lock s) = 0 →
  no_huge (pmem s) (kernel_pml4_phys s) v →
  let r := kernel_pml4_phys s in
  ∃ s', vmm_unmap_page v s = Done tt s' ∧ vm_ok s' lvl ∧ locked (vmm_lock s') = 0 ∧
    kernel_pml4_phys s' = r ∧
    (∀ v', same_page 1 v v' → xl (pmem s') r v' = None) ∧
    (∀ r' v', lvl !! r' = Some 4%nat → ¬ concerns 1 r v r' v' → xl (pmem s') r' v' = xl (pmem s) r' v').
Proof.
  intros Hok Hr Hlock Hnh r. unfold vmm_unmap_page.
  set (s1 := set_vlock {| locked := 1; saved_flags := vmm_rflags s |} (cli (vmm_rflags s)) s).
  assert (vmm_acquire s = Done tt s1) as Ha.
  { unfold vmm_acquire, kupd. by rewrite (spinlock_acquire_free _ _ Hlock). }
  kbind Ha. rewrite kget_bind.
  destruct (unmap_page_in_lemma s1 lvl r v Hok Hr Hnh) as (s' & Hu & [? ?] & ? & ? & ? & ? & ? & ? & ?).
  kbind Hu. unfold vmm_release, kmod. simpl. eexists. split; [done|]. split_and!; try done.
Qed.

(** ** Huge pages *)

Definition huge_entry (phys flags : Z) : Z := Z.lor (Z.lor phys (vmm_flags_to_pte flags)) PTE_HUGE.

Lemma huge_entry_spec phys flags :
  page_addr phys → phys mod 2097152 = 0 →
  present (huge_entry phys flags) = true ∧ tentry 2 (huge_entry phys flags) = false ∧
  Z.land (huge_entry phys flags) PTE_ADDR_MASK_2MB = phys.
Proof.
  intros [Hm Hp] H2. unfold huge_entry. rewrite <-Z.lor_assoc.
  set (fl := Z.lor (vmm_flags_to_pte flags) PTE_HUGE).
  assert (present fl = true ∧ huge fl = true ∧ Z.land fl PTE_ADDR_MASK_2MB = 0) as (Hfl & Hfh & Hfm).
  { unfold fl, vmm_flags_to_pte. by repeat destruct (has flags _). }
  assert (Z.land phys PTE_ADDR_MASK_2MB = phys) as Hmask.
  { destruct (decide (phys = 0)) as [->|Hne]; [done|]. apply Z.bits_inj'. intros n Hn.
    rewrite Z.land_spec. destruct (Z.testbit phys n) eqn:E; [|done]. simpl.
    pose proof (frame_bits phys n ltac:(split; lia) Hn E).
    change PTE_ADDR_MASK_2MB with (Z.shiftl (Z.ones 31) 21). rewrite Z.shiftl_spec by done.
    destruct (decide (21 ≤ n)); [apply Z.ones_spec_low; lia|]. exfalso.
    replace phys with (phys / 2097152 * 2 ^ 21) in E by lia.
    rewrite <-Z.shiftl_mul_pow2, Z.shiftl_spec, Z.testbit_neg_r in E by lia. done. }
  assert (∀ b, Z.land b PTE_ADDR_MASK = 0 → has (Z.lor phys fl) b = has fl b) as Hhas.
  { intros b Hb. destruct (decide (phys = 0)) as [->|Hne]; [done|]. apply has_lor; [split; lia|done]. }
  unfold present, tentry, huge in *. rewrite !Hhas by done. unfold present. rewrite !Hhas by done.
  rewrite Hfl, Hfh. split_and!; [done|done|].
  by rewrite Z.land_lor_distr_l, Hmask, Hfm, Z.lor_0_r.
Qed.

(** Mapping a 2 MB page. *)
Definition map_huge (r v e : Z) : K (Vmm P) unit :=
  pdpt ← ensure_table r (PML4_INDEX v);
  pd ← ensure_table pdpt (PDPT_INDEX v);
  wr pd (PD_INDEX v) e.

Lemma map_huge_spec s lvl r v phys flags :
  vm_ok s lvl → lvl !! r = Some 4%nat → no_huge (pmem s) r v → page_addr phys → phys mod 2097152 = 0 →
  out_of_frames (map_huge r v (huge_entry phys flags) s) ∨
  ∃ s' lvl', map_huge r v (huge_entry phys flags) s = Done tt s' ∧ grows s lvl s' lvl' 2 ∧
    (∀ v', same_page 2 v v' → xl (pmem s') r v' = Some (2%nat, huge_entry phys flags)) ∧
    (∀ r' v', lvl !! r' = Some 4%nat → ¬ concerns 2 r v r' v' → xl (pmem s') r' v' = xl (pmem s) r' v').
Proof.
  intros Hok Hr Hnh Hphys H2. destruct (huge_entry_spec phys flags Hphys H2) as (Hpe & Hte & _).
  unfold map_huge.
  destruct (ensure_step s lvl r 0 v r Hok Hr Hnh ltac:(lia) eq_refl)
    as [[HF HP]|(s1 & l1 & c1 & H1 & Hg1 & Hr1 & Hx1)].
  { left. by apply out_of_frames_bind. }
  assert (l1 !! r = Some 4%nat) as Hrl1 by (eapply lookup_weaken, gr_lvl; [done|exact Hg1]).
  pose proof (grows_no_huge _ _ _ _ _ Hr Hnh Hx1) as Hnh1. kbind H1.
  destruct (ensure_step s1 l1 r 1 v c1 (gr_ok _ _ _ _ _ Hg1) Hrl1 Hnh1 ltac:(lia) Hr1)
    as [[HF HP]|(s2 & l2 & c2 & Hs2 & Hg2 & Hr2 & Hx2)].
  { left. by apply out_of_frames_bind. }
  kbind Hs2. assert (l2 !! r = Some 4%nat) as Hrl2 by (eapply lookup_weaken, gr_lvl; [done|exact Hg2]).
  pose proof (grows_trans _ _ _ _ _ _ _ _ Hg1 Hg2) as Hg12.
  destruct (set_leaf_spec s2 l2 r v c2 2 (huge_entry phys flags) (gr_ok _ _ _ _ _ Hg2) Hrl2
    ltac:(lia) Hr2 (or_intror Hte)) as (s3 & H3 & Hg3 & _ & Hhit & Hmiss).
  right. exists s3, l2. split_and!; [done| | |].
  - exact (grows_trans _ _ _ _ _ _ _ _ Hg12 Hg3).
  - intros v' Hv'. rewrite Hhit by done. unfold leaf. by rewrite Hpe.
  - intros r' v' Hr' Hnc. assert (l1 !! r' = Some 4%nat) by (eapply lookup_weaken, gr_lvl; [done|exact Hg1]).
    assert (l2 !! r' = Some 4%nat) by (eapply lookup_weaken, gr_lvl; [done|exact Hg2]).
    by rewrite Hmiss, Hx2, Hx1.
Qed.

(** ** Ranges *)

Section range.
Context (s0 : Vmm P) (lvl0 : gmap Z nat) (vs ps sz flags : Z).
Let r := kernel_pml4_phys s0.
Context (Hr0 : lvl0 !! r = Some 4%nat).
Context (Hvs : vs mod 4096 = 0) (Hps : ps mod 4096 = 0) (Hsz : sz mod 4096 = 0).
Context (Hv0 : 0 ≤ vs) (Hv1 : vs + sz ≤ 2 ^ 64) (Hp0 : 0 ≤ ps) (Hp1 : ps + sz ≤ 2 ^ 52) (Hs0 : 0 ≤ sz).
(** The range lies in one of the blocks of 2^48 addresses, as canonical addresses do. *)
Context (Hcan : ∀ v, vs ≤ v < vs + sz → v / 2 ^ 48 = vs / 2 ^ 48).

(** The first [off] bytes are mapped, the rest is not yet, and nothing else changed. *)
Definition range_inv (off : Z) s lvl : Prop :=
  (∃ n, grows s0 lvl0 s lvl n) ∧
  (∀ v, vs ≤ v < vs + off → translate (pmem s) r v = ps + (v - vs)) ∧
  (∀ v, vs + off ≤ v < vs + sz → xl (pmem s) r v = None) ∧
  (∀ v', (∀ v, vs ≤ v < vs + sz → ¬ same_page 1 v v') → xl (pmem s) r v' = xl (pmem s0) r v').

Lemma page_in_range v v' :
  vs ≤ v < vs + sz → vs ≤ v' < vs + sz → same_page 1 v v' → v / 4096 = v' / 4096.
Proof.
  intros Hv Hv' Hs. apply same_page_iff in Hs.
  pose proof (Hcan v Hv). pose proof (Hcan v' Hv'). lia.
Qed.
Lemma page2_in_range v v' :
  vs ≤ v < vs + sz → vs ≤ v' < vs + sz → same_page 2 v v' → v / 2097152 = v' / 2097152.
Proof.
  intros Hv Hv' Hs. apply same_page2_iff in Hs.
  pose proof (Hcan v Hv). pose proof (Hcan v' Hv'). lia.
Qed.

(** One iteration: a page of [n] bytes is mapped at the current offset. *)
Lemma range_step off n k s lvl s' lvl' c :
  range_inv off s lvl → 0 ≤ off → off + n ≤ sz → 0 < n →
  grows s lvl s' lvl' c →
  (∀ v', vs + off ≤ v' < vs + off + n → translate (pmem s') r v' = ps + (v' - vs)) →
  (∀ v', ¬ same_page k (vs + off) v' → xl (pmem s') r v' = xl (pmem s) r v') →
  (∀ v', vs ≤ v' < vs + sz → same_page k (vs + off) v' → vs + off ≤ v' < vs + off + n) →
  (∀ v', same_page k (vs + off) v' → ∃ v, vs + off ≤ v < vs + off + n ∧ same_page 1 v v') →
  range_inv (off + n) s' lvl'.
Proof.
  intros ([c0 Hg0] & Hdone & Htodo & Hrest) Ho Hn Hpos Hg Hhit Hmiss Honly Hcov. split_and!.
  - eexists. by eapply grows_trans.
  - intros v Hv. destruct (decide (vs + off ≤ v)); [apply Hhit; lia|].
    unfold translate. rewrite Hmiss; [apply Hdone; lia|].
    intros Hs. apply Honly in Hs; lia.
  - intros v Hv. rewrite Hmiss; [apply Htodo; lia|]. intros Hs. apply Honly in Hs; lia.
  - intros v' Hv'. rewrite Hmiss; [by apply Hrest|]. intros Hs.
    destruct (Hcov v' Hs) as (v & ? & ?). by apply (Hv' v); [lia|].
Qed.

Lemma range_no_huge off s lvl : range_inv off s lvl → 0 ≤ off < sz → no_huge (pmem s) r (vs + off).
Proof. intros (_ & _ & Htodo & _) Ho n e. rewrite Htodo by lia. done. Qed.

Lemma range_root off s lvl :
  range_inv off s lvl → vm_ok s lvl ∧ lvl !! r = Some 4%nat ∧ kernel_pml4_phys s = r ∧
    locked (vmm_lock s) = locked (vmm_lock s0).
Proof.
  intros ([n Hg] & _). destruct Hg as [(? & ? & ? & ? & ? & ?) ? ? ? ? ? ? ?].
  split_and!; [done|by eapply lookup_weaken|done|done].
Qed.

Lemma translate_4k m v e : xl m r v = Some (1%nat, e) → translate m r v = u64 (child e + Z.land v PAGE_OFFSET_MASK).
Proof. intros E. unfold translate. by rewrite E. Qed.

Lemma range_4k off s lvl :
  range_inv off s lvl → 0 ≤ off < sz → off mod 4096 = 0 → locked (vmm_lock s0) = 0 →
  out_of_frames (vmm_map_page (vs + off) (ps + off) flags s) ∨
  ∃ s' lvl', vmm_map_page (vs + off) (ps + off) flags s = Done tt s' ∧ range_inv (off + 4096) s' lvl'.
Proof.
  intros Hinv Ho Hal Hlk. destruct (range_root _ _ _ Hinv) as (Hok & Hr & Hk & Hl).
  destruct (map_page_lemma s lvl (vs + off) (ps + off) flags) as [[_ HP]|(s' & lvl' & Hm & Hg & Hhit & Hmiss)].
  - done.
  - by rewrite Hk.
  - congruence.
  - rewrite Hk. by eapply range_no_huge.
  - split; lia.
  - by left.
  - right. exists s', lvl'. split; [done|]. rewrite Hk in *.
    apply (range_step off 4096 1 s lvl s' lvl' 3); try done; try lia.
    + intros v' Hv'. rewrite (translate_4k _ _ _ (Hhit v' ltac:(apply same_page_iff; f_equal; lia))).
      rewrite pte_child by (split; lia). rewrite land_offset, u64_small by lia. lia.
    + intros v' Hn. apply Hmiss; [done|]. by intros [? _].
    + intros v' Hv' Hs. apply page_in_range in Hs; lia.
    + intros v' Hs. exists (vs + off). split; [lia|done].
Qed.

Lemma range_2mb off s lvl :
  range_inv off s lvl → 0 ≤ off → off + 2097152 ≤ sz → (vs + off) mod 2097152 = 0 →
  (ps + off) mod 2097152 = 0 →
  out_of_frames (map_huge r (vs + off) (huge_entry (ps + off) flags) s) ∨
  ∃ s' lvl', map_huge r (vs + off) (huge_entry (ps + off) flags) s = Done tt s' ∧
    range_inv (off + 2097152) s' lvl'.
Proof.
  intros Hinv Ho Hfit Hav Hap. destruct (range_root _ _ _ Hinv) as (Hok & Hr & Hk & Hl).
  assert (page_addr (ps + off)) as Hpa by (split; lia).
  destruct (map_huge_spec s lvl r (vs + off) (ps + off) flags Hok Hr) as [HP|(s' & lvl' & Hm & Hg & Hhit & Hmiss)];
    [eapply range_no_huge; [done|lia]|done|done|by left|].
  right. exists s', lvl'. split; [done|].
  destruct (huge_entry_spec (ps + off) flags Hpa Hap) as (_ & _ & Hmask).
  apply (range_step off 2097152 2 s lvl s' lvl' 2); try done; try lia.
  - intros v' Hv'. unfold translate. rewrite (Hhit v') by (apply same_page2_iff; f_equal; lia).
    unfold phys_of. rewrite Hmask, land_2mb, u64_small by lia. lia.
  - intros v' Hn. apply Hmiss; [done|]. by intros [? _].
  - intros v' Hv' Hs. apply page2_in_range in Hs; lia.
  - intros v' Hs. exists ((vs + off) + v' mod 2097152). split; [lia|].
    apply same_page2_iff in Hs. apply same_page_iff. lia.
Qed.

Lemma map_range_loop_spec fuel off s lvl :
  range_inv off s lvl → 0 ≤ off ≤ sz → off mod 4096 = 0 → locked (vmm_lock s0) = 0 →
  (sz - off) / 4096 < Z.of_nat fuel →
  out_of_frames (map_range_loop fuel vs ps sz flags off s) ∨
  ∃ s' lvl', map_range_loop fuel vs ps sz flags off s = Done tt s' ∧ range_inv sz s' lvl'.
Proof.
  revert off s lvl. induction fuel as [|fuel IH]; intros off s lvl Hinv Ho Hal Hlk Hf; [lia|].
  cbn [map_range_loop]. destruct (Z.ltb_spec off sz) as [Hlt|Hge].
  2:{ right. exists s, lvl. split; [done|]. by replace sz with off by lia. }
  rewrite (u64_small (vs + off)), (u64_small (ps + off)), (u64_small (sz - off)) by lia.
  rewrite !land_2mb. change PAGE_SIZE_2MB with 2097152. unfold PAGE_SIZE.
  destruct (_ && _) eqn:E.
  - rewrite kget_bind. destruct (range_root _ _ _ Hinv) as (_ & _ & Hk & _). rewrite Hk.
    assert (∀ k : K (Vmm P) unit, (pdpt ← ensure_table r (PML4_INDEX (vs + off));
      pd ← ensure_table pdpt (PDPT_INDEX (vs + off));
      wr pd (PD_INDEX (vs + off)) (Z.lor (Z.lor (ps + off) (vmm_flags_to_pte flags)) PTE_HUGE);; k) s =
      (map_huge r (vs + off) (huge_entry (ps + off) flags) ≫= λ _, k) s) as ->.
    { intros k. unfold map_huge, mbind, K_bind. destruct (ensure_table r _ s) as [? s1| |]; [|done..].
      by destruct (ensure_table a _ s1). }
    destruct (range_2mb off s lvl Hinv) as [HP|(s' & lvl' & Hm & Hinv')]; [lia..| |].
    { left. by apply out_of_frames_bind. }
    kbind Hm. rewrite u64_small by lia. apply (IH _ s' lvl'); [done|lia..].
  - destruct (range_4k off s lvl Hinv) as [HP|(s' & lvl' & Hm & Hinv')]; [lia|done|done|..].
    { left. by apply out_of_frames_bind. }
    kbind Hm. rewrite u64_small by lia. apply (IH _ s' lvl'); [done|lia..].
Qed.

Lemma map_range_lemma :
  vm_ok s0 lvl0 → locked (vmm_lock s0) = 0 → (∀ v, vs ≤ v < vs + sz → xl (pmem s0) r v = None) →
  out_of_frames (map_range_2mb vs ps sz flags s0) ∨
  ∃ s' lvl', map_range_2mb vs ps sz flags s0 = Done tt s' ∧ range_inv sz s' lvl'.
Proof.
  intros Hok Hlk Hnone. apply (map_range_loop_spec _ 0 s0 lvl0); [|lia|done|done|].
  - split_and!; [exists 0%nat; by apply grows_refl|intros; lia|intros; apply Hnone; lia|done].
  - rewrite Nat2Z.inj_succ, Z2Nat.id by lia. lia.
Qed.
End range.

(** ** New address spaces *)

(** The state of the copy of the kernel half after the entries below [i]. *)
Definition copy_inv s (q i : Z) s' : Prop :=
  ∃ m, s' = set_pmem m s ∧ (∀ g, g ≠ q → m !! g = pmem s !! g) ∧
    (∃ t, m !! q = Some t ∧ length t = 512%nat) ∧
    ∀ j, 0 ≤ j < 512 → ent m q j = if decide (256 ≤ j < i) then ent (pmem s) (kernel_pml4_phys s) j else Some 0.

Lemma copy_kernel_half s q :
  pmem s !! q = Some (replicate 512 0) → q ≠ kernel_pml4_phys s →
  (∃ t, pmem s !! kernel_pml4_phys s = Some t ∧ length t = 512%nat) →
  ∃ s', kfor (seqZ PML4_KERNEL_START (PT_ENTRIES - PML4_KERNEL_START))
      (λ i, e ← rd (kernel_pml4_phys s) i; wr q i e) s = Done tt s' ∧ copy_inv s q 512 s'.
Proof.
  intros Hq Hne (tk & Htk & Hlk).
  change (PT_ENTRIES - PML4_KERNEL_START) with 256. change PML4_KERNEL_START with 256.
  apply (kfor_seqZ_ind (copy_inv s q)); [lia| |].
  - exists (pmem s). split_and!; [by destruct s|done|by exists (replicate 512 0)|].
    intros j Hj. rewrite decide_False by lia. unfold ent. rewrite Hq. by apply zget_zeros.
  - intros i s1 Hi (m & -> & Hm & (t & Ht & Hl) & Hent).
    assert (∃ e, ent (pmem s) (kernel_pml4_phys s) i = Some e) as (e & He).
    { unfold ent. rewrite Htk. apply zget_lt. lia. }
    rewrite (rd_bind _ _ _ e) by (simpl; unfold ent in *; by rewrite Hm).
    destruct (wr_spec (set_pmem m s) q i e t Ht Hl ltac:(lia)) as (m' & Hw & (Hs & _ & Hlen & Hoth)).
    exists (set_pmem m' s). split; [done|]. exists m'. split_and!; [done| | |].
    + intros g Hg. rewrite Hoth by done. by apply Hm.
    + destruct (Hlen q t Ht) as (t' & ? & ?). exists t'. split; [done|lia].
    + intros j Hj. rewrite Hs. simpl. destruct (decide (q = q ∧ j = i)) as [[_ ->]|].
      * by rewrite decide_True by lia.
      * rewrite Hent by done. destruct (decide (256 ≤ j < i)).
        -- by rewrite decide_True by lia.
        -- rewrite decide_False by naive_solver lia. done.
Qed.

(** A PML4 whose kernel half is that of another one and whose user half is empty. *)
Section new_pml4.
Context (m m' : memory) (lvl : gmap Z nat) (F : gset Z) (kp q : Z).
Context (Hvt : vm_tables m lvl F) (Hk : lvl !! kp = Some 4%nat).
Context (Hq : frame_ok q) (HqF : q / 4096 ∈ F).
Context (Hm : ∀ g, g ≠ q → m' !! g = m !! g) (Hlen : ∃ t, m' !! q = Some t ∧ length t = 512%nat).
Context (Hent : ∀ j, 0 ≤ j < 512 → ent m' q j = if decide (256 ≤ j < 512) then ent m kp j else Some 0).

Lemma new_pml4_fresh : lvl !! q = None.
Proof.
  destruct (lvl !! q) as [n|] eqn:E; [|done]. by destruct (vt_frame _ _ _ Hvt q n E) as [_ ?].
Qed.

(** Where an entry of the new tables that leads to a table comes from. *)
Lemma new_pml4_source g n j x :
  <[q := 4%nat]> lvl !! g = Some n → (2 ≤ n)%nat → ent m' g j = Some x → tentry n x = true →
  (g = q ∧ n = 4%nat ∧ 256 ≤ j ∧ ent m kp j = Some x) ∨ (g ≠ q ∧ lvl !! g = Some n ∧ ent m g j = Some x).
Proof.
  intros Hg Hn Hx Ht. destruct (decide (g = q)) as [->|Hne].
  - left. rewrite lookup_insert_eq in Hg. injection Hg as <-.
    assert (0 ≤ j < 512) as Hj.
    { destruct Hlen as (t & Htq & Hl). unfold ent in Hx. rewrite Htq in Hx. simpl in Hx.
      apply zget_Some_range in Hx. lia. }
    rewrite Hent in Hx by done. destruct (decide (256 ≤ j < 512)); [split_and!; (done || lia)|].
    injection Hx as <-. done.
  - right. rewrite lookup_insert_ne in Hg by done. unfold ent in *. rewrite Hm in Hx by done. done.
Qed.

Lemma new_pml4_vt : vm_tables m' (<[q := 4%nat]> lvl) (F ∖ {[q / 4096]}).
Proof.
  pose proof new_pml4_fresh as Hfr. split.
  - intros g n. rewrite lookup_insert. case_decide; [intros [= <-]; lia|by apply (vt_level _ _ _ Hvt)].
  - intros g n. rewrite lookup_insert. case_decide; [intros _; subst; set_solver|].
    intros Hg. destruct (vt_frame _ _ _ Hvt g n Hg). set_solver.
  - intros g n. rewrite lookup_insert. case_decide; [by intros _; subst|].
    intros Hg. rewrite Hm by congruence. by eapply vt_mem.
  - intros g n j x Hg Hn Hx Ht.
    assert (lvl !! child x = Some (n - 1)%nat) as Hc.
    { destruct (new_pml4_source g n j x Hg Hn Hx Ht) as [(-> & -> & _ & Hx')|(_ & Hg' & Hx')].
      - by apply (vt_child _ _ _ Hvt kp 4 j x).
      - by apply (vt_child _ _ _ Hvt g n j x). }
    rewrite lookup_insert_ne; [done|]. intros Heq. by rewrite <-Heq, Hfr in Hc.
  - intros g g' n j j' x x' Hg Hg' Hn Hx Hx' Ht Ht' Heq.
    destruct (new_pml4_source g n j x Hg Hn Hx Ht) as [(-> & -> & Hj & Hx1)|(_ & Hg1 & Hx1)];
      destruct (new_pml4_source g' _ j' x' Hg' Hn Hx' Ht') as [(-> & Hn' & Hj' & Hx1')|(_ & Hg1' & Hx1')].
    + right. destruct (vt_inj _ _ _ Hvt kp kp 4 j j' x x') as [[_ ->]|(_ & -> & _)]; done.
    + right. destruct (vt_inj _ _ _ Hvt kp g' 4 j j' x x') as [[_ ->]|(_ & -> & _)]; done.
    + right. subst. destruct (vt_inj _ _ _ Hvt g kp 4 j j' x x') as [[_ ->]|(_ & -> & _)]; done.
    + by apply (vt_inj _ _ _ Hvt g g' n j j' x x').
Qed.

Lemma new_pml4_xl :
  (∀ v, xl m' q v = if decide (256 ≤ IDX 4 v) then xl m kp v else None) ∧
  (∀ r v, lvl !! r = Some 4%nat → xl m' r v = xl m r v).
Proof.
  assert (∀ n g v, lvl !! g = Some n → walk n m' g v = walk n m g v) as Hag.
  { intros n g v Hg. apply (walk_agree _ _ _ Hvt); [|done]. intros f k i Hf. unfold ent.
    rewrite Hm; [done|]. intros ->. by rewrite new_pml4_fresh in Hf. }
  split; [|intros; by apply Hag]. intros v. unfold xl. cbn [walk]. pose proof (IDX_range 4 v).
  rewrite Hent by done. destruct (decide (256 ≤ IDX 4 v)).
  - rewrite decide_True by lia. destruct (ent m kp (IDX 4 v)) as [e|] eqn:He; simpl; [|done].
    destruct (present e); simpl; [|done]. destruct (tentry 4 e) eqn:Ht; [|done].
    apply (Hag 3%nat). exact (vt_child _ _ _ Hvt kp 4 (IDX 4 v) e Hk ltac:(lia) He Ht).
  - rewrite decide_False by lia. done.
Qed.
End new_pml4.

Lemma create_user_pml4_lemma s lvl :
  vm_ok s lvl → lvl !! kernel_pml4_phys s = Some 4%nat →
  out_of_frames (vmm_create_user_pml4 s) ∨
  ∃ q s', vmm_create_user_pml4 s = Done q s' ∧ vm_ok s' (<[q := 4%nat]> lvl) ∧ lvl !! q = None ∧ env_eq s s' ∧
    frame_ok q ∧ q / 4096 ∈ pa_free (vpmm s) ∧ pa_free (vpmm s') = pa_free (vpmm s) ∖ {[q / 4096]} ∧
    (∀ g, g ≠ q → pmem s' !! g = pmem s !! g) ∧
    (∀ v, xl (pmem s') q v = if decide (256 ≤ IDX 4 v) then xl (pmem s) (kernel_pml4_phys s) v else None) ∧
    (∀ r v, lvl !! r = Some 4%nat → xl (pmem s') r v = xl (pmem s) r v).
Proof.
  intros [Hp Hvt] Hk. unfold vmm_create_user_pml4.
  destruct (alloc_table_page_spec s Hp) as [(HF & Ha)|(q & p' & Ha & Hp' & Htot & Hq & HF)].
  { left. by apply out_of_frames_bind. }
  right. pose proof (alloc_frame_ok _ _ Hp Hq) as Hfr. assert (q * 4096 / 4096 = q) as Hq4 by lia.
  assert (q * 4096 / 4096 ∈ pa_free (vpmm s)) as HqF by (by rewrite Hq4).
  assert (lvl !! (q * 4096) = None) as Hn by (by eapply new_pml4_fresh).
  assert (q * 4096 ≠ kernel_pml4_phys s) as Hne by congruence.
  kbind Ha. rewrite kget_bind. set (s1 := upd _ p' s) in *.
  destruct (copy_kernel_half s1 (q * 4096)) as (s' & Hc & (m & -> & Hm & Hlen & Hent)).
  { simpl. by rewrite lookup_insert_eq. }
  { done. }
  { simpl. rewrite lookup_insert_ne by done. by eapply vt_mem. }
  change (kernel_pml4_phys s1) with (kernel_pml4_phys s) in *.
  change (pmem s1) with (<[q * 4096 := replicate 512 0]> (pmem s)) in *.
  kbind Hc. exists (q * 4096), (set_pmem m s1).
  assert (∀ g, g ≠ q * 4096 → m !! g = pmem s !! g) as Hm' by (intros g Hg; rewrite Hm by done; by rewrite lookup_insert_ne).
  assert (∀ j, 0 ≤ j < 512 → ent m (q * 4096) j =
    if decide (256 ≤ j < 512) then ent (pmem s) (kernel_pml4_phys s) j else Some 0) as Hent'.
  { intros j Hj. rewrite Hent by done. case_decide; [|done]. by rewrite ent_insert_ne. }
  refine (conj eq_refl (conj (conj Hp' _) (conj Hn (conj _ (conj Hfr (conj HqF (conj _ (conj Hm' (conj
    (proj1 (new_pml4_xl (pmem s) m lvl _ _ _ Hvt Hk HqF Hm' Hent'))
    (proj2 (new_pml4_xl (pmem s) m lvl _ _ _ Hvt Hk HqF Hm' Hent'))))))))))).
  - simpl. rewrite HF. pose proof (new_pml4_vt (pmem s) m lvl _ _ _ Hvt Hk Hfr HqF Hm' Hlen Hent') as Hv.
    by rewrite Hq4 in Hv.
  - unfold env_eq. by split_and!.
  - simpl. by rewrite HF, Hq4.
Qed.
End spaces.
