(* ===== verification/VmmTheorems.v ===== *)
(** * The virtual memory manager: theorems

    The properties of [kernel/mm/vmm.c], the initialisation of the kernel's
    tables, and the instance by which the two memory managers back the kernel heap. *)
From S2P Require Import Prelude Spinlock PageAlloc Pmm Kmalloc Vmm VmmTables VmmCorrect VmmSpaces.

(** ** Initialisation *)

(** A single empty PML4. *)
Lemma vm_tables_root m q F :
  frame_ok q → q / 4096 ∉ F → m !! q = Some (replicate 512 0) →
  vm_tables m {[ q := 4%nat ]} F ∧ ∀ v, xl m q v = None.
Proof.
  intros Hq HF Hm.
  assert (∀ g n i x, ({[ q := 4%nat ]} : gmap Z nat) !! g = Some n → ent m g i = Some x → x = 0) as Hz.
  { intros g n i x [<- _]%lookup_singleton_Some. unfold ent. rewrite Hm. simpl. unfold zget.
    destruct (i <? 0); [done|]. by intros [-> _]%lookup_replicate. }
  split.
  - split.
    + intros f n [_ <-]%lookup_singleton_Some. lia.
    + intros f n [<- _]%lookup_singleton_Some. done.
    + intros f n [<- _]%lookup_singleton_Some. exists (replicate 512 0). split; [done|apply length_replicate].
    + intros f n i e Hf _ He. by rewrite (Hz f n i e Hf He).
    + intros f f' n i i' e e' Hf _ _ He _. by rewrite (Hz f n i e Hf He).
  - intros v. unfold xl. cbn [walk]. unfold ent. rewrite Hm. cbn [mbind option_bind].
    by rewrite zget_zeros by apply IDX_range.
Qed.

Section init.
Context {P : Type} `{PageAlloc P}.
Implicit Types (s : Vmm P) (lvl : gmap Z nat).

(** A loop that goes on until it has no frame left. *)
Lemma kfor_frames (I : Z → Vmm P → Prop) (body : Z → K (Vmm P) unit) m n s :
  0 ≤ n → I m s →
  (∀ i s, m ≤ i < m + n → I i s → out_of_frames (body i s) ∨ ∃ s', body i s = Done tt s' ∧ I (i + 1) s') →
  out_of_frames (kfor (seqZ m n) body s) ∨ ∃ s', kfor (seqZ m n) body s = Done tt s' ∧ I (m + n) s'.
Proof.
  intros Hn. revert m s. pattern n. apply natlike_ind; [|clear n Hn; intros n Hn IH|done]; intros m s HI Hstep.
  { right. exists s. by rewrite Z.add_0_r. }
  rewrite seqZ_cons by lia. cbn [kfor].
  destruct (Hstep m s ltac:(lia) HI) as [HP|(s1 & H1 & HI1)]; [left; by apply out_of_frames_bind|].
  kbind H1. rewrite Z.pred_succ.
  replace (m + Z.succ n) with (Z.succ m + n) by lia. apply IH; [done|].
  intros i s2 Hi. apply Hstep. lia.
Qed.

(** Mapping [n] pages one by one. *)
Lemma map_pages_lemma s lvl vs ps n flags :
  let r := kernel_pml4_phys s in
  vm_ok s lvl → lvl !! r = Some 4%nat → locked (vmm_lock s) = 0 →
  vs mod 4096 = 0 → ps mod 4096 = 0 → 0 ≤ n → 0 ≤ vs → vs + n * 4096 ≤ 2 ^ 64 → 0 ≤ ps →
  ps + n * 4096 ≤ 2 ^ 52 → (∀ v, vs ≤ v < vs + n * 4096 → v / 2 ^ 48 = vs / 2 ^ 48) →
  (∀ v, vs ≤ v < vs + n * 4096 → xl (pmem s) r v = None) →
  out_of_frames (kfor (seqZ 0 n) (λ i, vmm_map_page (vs + i * 4096) (ps + i * 4096) flags) s) ∨
  ∃ s' lvl', kfor (seqZ 0 n) (λ i, vmm_map_page (vs + i * 4096) (ps + i * 4096) flags) s = Done tt s' ∧
    range_inv s lvl vs ps (n * 4096) (n * 4096) s' lvl'.
Proof.
  intros r Hok Hr Hlk Hvs Hps Hn ? ? ? ? Hcan Hnone.
  destruct (kfor_frames (λ i s', ∃ lvl', range_inv s lvl vs ps (n * 4096) (i * 4096) s' lvl')
    (λ i, vmm_map_page (vs + i * 4096) (ps + i * 4096) flags) 0 n s Hn) as [HP|(s' & Hd & lvl' & Hi)].
  - exists lvl. split_and!; [exists 0%nat; by apply grows_refl|intros; lia|intros; apply Hnone; lia|done].
  - intros i s1 Hi (l1 & Hinv).
    destruct (range_4k s lvl vs ps (n * 4096) flags Hr Hvs Hps ltac:(lia) ltac:(lia) ltac:(lia)
      Hcan (i * 4096) s1 l1 Hinv) as [HP|(s2 & l2 & Hd & Hinv2)];
      [lia|lia|done|by left|].
    right. exists s2. split; [done|]. exists l2. by replace ((i + 1) * 4096) with (i * 4096 + 4096) by lia.
  - by left.
  - right. exists s', lvl'. by split.
Qed.

(** What the boot protocol guarantees of the two ranges the kernel maps. *)
Record boot_ranges (kernel_start kernel_end : Z) (info : BootInfo) : Prop := {
  br_hhdm : bi_hhdm_offset info mod 2097152 = 0;
  br_hhdm_half : 2 ^ 64 - 2 ^ 47 ≤ bi_hhdm_offset info;
  br_top : highest_phys info mod 2097152 = 0 ∧ 0 ≤ highest_phys info ≤ 2 ^ 46;
  br_below : bi_hhdm_offset info + highest_phys info ≤ kernel_start;
  br_kstart : kernel_start mod 4096 = 0;
  br_kend : kernel_start ≤ kernel_end ≤ 2 ^ 64 - 4096;
  br_kphys : kernel_phys_base info mod 4096 = 0 ∧ 0 ≤ kernel_phys_base info ≤ 2 ^ 46;
  br_ksize : kernel_end - kernel_start ≤ 2 ^ 46;
}.

Definition kernel_pages (kernel_start kernel_end : Z) : Z := (kernel_end - kernel_start + 4095) / 4096.

Lemma page_align_up x : 0 ≤ x < 2 ^ 63 → PAGE_ALIGN_UP x = (x + 4095) / 4096 * 4096.
Proof.
  intros Hx. unfold PAGE_ALIGN_UP, PAGE_SIZE. rewrite (u64_small (x + 4096)), (u64_small (x + 4096 - 1)) by lia.
  change (4096 - 1) with (2 ^ 12 - 1). rewrite land_align by lia.
  by replace (x + 4096 - 1) with (x + 4095) by lia.
Qed.

Lemma vmm_init_lemma s ks ke info :
  pa_ok (vpmm s) → locked (vmm_lock s) = 0 → boot_ranges ks ke info →
  out_of_frames (vmm_init ks ke info s) ∨
  ∃ s' lvl, vmm_init ks ke info s = Done tt s' ∧ vm_ok s' lvl ∧
    lvl !! kernel_pml4_phys s' = Some 4%nat ∧ locked (vmm_lock s') = 0 ∧ cr3 s' = kernel_pml4_phys s' ∧
    (∀ p, 0 ≤ p < highest_phys info →
       translate (pmem s') (kernel_pml4_phys s') (bi_hhdm_offset info + p) = p) ∧
    (∀ off, 0 ≤ off < kernel_pages ks ke * 4096 →
       translate (pmem s') (kernel_pml4_phys s') (ks + off) = kernel_phys_base info + off) ∧
    (∀ v, (∀ v0, bi_hhdm_offset info ≤ v0 < bi_hhdm_offset info + highest_phys info → ¬ same_page 1 v0 v) →
       (∀ v0, ks ≤ v0 < ks + kernel_pages ks ke * 4096 → ¬ same_page 1 v0 v) →
       xl (pmem s') (kernel_pml4_phys s') v = None).
Proof.
  intros Hp Hlk [Hh Hhalf [Ht1 Ht2] Hbelow Hks Hke [Hkp1 Hkp2] Hksz].
  set (h := bi_hhdm_offset info) in *. set (top := highest_phys info) in *. set (n := kernel_pages ks ke).
  assert (n * 4096 <= ke - ks + 4095) as Hn by (unfold n, kernel_pages; lia).
  assert (0 ≤ n) as Hn0 by (unfold n, kernel_pages; lia).
  assert (∀ s, kfor (seqZ 0 n) (λ i, vmm_map_page (u64 (ks + i * 4096)) (u64 (kernel_phys_base info + i * 4096))
      VMM_FLAG_WRITABLE) s = kfor (seqZ 0 n) (λ i, vmm_map_page (ks + i * 4096)
      (kernel_phys_base info + i * 4096) VMM_FLAG_WRITABLE) s) as Hext0.
  { intros s'. apply kfor_ext. intros i s2 Hi%elem_of_seqZ. rewrite !u64_small by lia. done. }
  unfold vmm_init. rewrite kmod_bind. fold h.
  destruct (alloc_table_page_spec (set_hhdm h s) Hp) as [(HF & Ha)|(q & p' & Ha & Hp' & _ & Hq & HF)].
  { left. by apply out_of_frames_bind. }
  kbind Ha. rewrite kmod_bind. set (s1 := set_kernel_pml4 _ _).
  pose proof (alloc_frame_ok _ _ Hp Hq) as Hfr.
  destruct (vm_tables_root (pmem s1) (q * 4096) (pa_free p') Hfr) as [Hvt Hx].
  { simpl in HF. rewrite HF. assert (q * 4096 / 4096 = q) as -> by lia. set_solver. }
  { simpl. by rewrite lookup_insert_eq. }
  assert (vm_ok s1 {[q * 4096 := 4%nat]}) as Hok1 by done.
  assert (({[q * 4096 := 4%nat]} : gmap Z nat) !! kernel_pml4_phys s1 = Some 4%nat) as Hr1
    by (simpl; apply lookup_singleton_eq).
  destruct (map_range_lemma s1 {[q * 4096 := 4%nat]} h 0 top (Z.lor VMM_FLAG_WRITABLE VMM_FLAG_NOEXEC))
    as [HP|(s2 & l2 & Hs2 & ([n2 Hg2] & Hdone & _ & Hrest))]; try done; try lia.
  { left. by apply out_of_frames_bind. }
  fold top. kbind Hs2. rewrite u64_small by lia. rewrite page_align_up by lia.
  change ((ke - ks + 4095) / 4096) with n. unfold PAGE_SIZE. rewrite Z.div_mul by lia.
  destruct Hg2 as [(Hk2 & ? & ? & ? & Hl2 & ? & ?) Hok2 Hlvl2 ? ? ? ? ?].
  assert (l2 !! kernel_pml4_phys s2 = Some 4%nat) as Hr2 by (rewrite Hk2; by eapply lookup_weaken).
  assert (kfor ((λ i, i * 4096) <$> seqZ 0 n) (λ off, vmm_map_page (u64 (ks + off))
    (u64 (kernel_phys_base info + off)) VMM_FLAG_WRITABLE) s2 = kfor (seqZ 0 n) (λ i,
    vmm_map_page (ks + i * 4096) (kernel_phys_base info + i * 4096) VMM_FLAG_WRITABLE) s2) as Hext
    by (rewrite kfor_fmap; apply Hext0).
  destruct (map_pages_lemma s2 l2 ks (kernel_phys_base info) n VMM_FLAG_WRITABLE)
    as [HP|(s3 & l3 & Hs3 & ([n3 Hg3] & Hdone3 & _ & Hrest3))]; try done; try lia.
  { simpl in Hl2. congruence. }
  { intros v Hv. rewrite Hk2, Hrest; [by rewrite Hx|]. intros v0 Hv0 Hs%same_page_iff. lia. }
  { left. apply out_of_frames_bind. by rewrite Hext. }
  right. rewrite <-Hext in Hs3. kbind Hs3. unfold paging_write_cr3, kmod. eexists _, l3. split; [done|].
  simpl. destruct Hg3 as [(Hk3 & ? & ? & ? & Hl3 & ? & ?) Hok3 Hlvl3 ? ? ? ? ?].
  simpl in Hl2, Hk2. rewrite Hk3, Hk2 in *.
  split_and!; [by destruct Hok3|by eapply lookup_weaken|congruence|done|..].
  - intros p Hp0. unfold translate in *. rewrite Hrest3; [|intros v0 Hv0 Hs%same_page_iff; lia].
    pose proof (Hdone (h + p) ltac:(lia)) as E. simpl in E. rewrite E. lia.
  - intros off Hoff. rewrite Hdone3 by lia. lia.
  - intros v Hv1 Hv2. by rewrite Hrest3, Hrest, Hx.
Qed.
End init.

(** ** Backing the kernel heap *)

Section backing.
Context {P : Type} `{PageAlloc P}.
Implicit Types (s : Vmm P) (lvl : gmap Z nat).

Definition heap_ok s : Prop :=
  ∃ lvl, vm_ok s lvl ∧ lvl !! kernel_pml4_phys s = Some 4%nat ∧ locked (vmm_lock s) = 0 ∧
    ∀ v, HEAP_START ≤ v < HEAP_MAX → no_huge (pmem s) (kernel_pml4_phys s) v.
Definition heap_mapped s (v : Z) : Prop :=
  ∃ phys, page_addr phys ∧ xl (pmem s) (kernel_pml4_phys s) v =
    Some (1%nat, Z.lor phys (vmm_flags_to_pte VMM_FLAG_WRITABLE_NOEXEC)).

Lemma heap_alloc_law s :
  heap_ok s → ∃ r s', pmm_alloc s = Done r s' ∧ heap_ok s' ∧
    (r = 0 ∧ pa_free (vpmm s') = ∅ ∨ r mod 4096 = 0 ∧ 0 < r < 2 ^ 52) ∧ ∀ v, heap_mapped s v → heap_mapped s' v.
Proof.
  intros (lvl & [Hp Hvt] & Hr & Hl & Hnh).
  destruct (pa_alloc_law (vpmm s) Hp) as (r & p' & Ha & Hp' & _ & Hspec).
  exists r, (set_vpmm p' s). split; [unfold pmm_alloc, zoom; by rewrite Ha|].
  assert (pa_free p' ⊆ pa_free (vpmm s)) as Hsub by (destruct Hspec as [(_ & _ & ->)|(q & _ & _ & _ & ->)]; set_solver).
  split; [|split; [|done]].
  - exists lvl. split; [|done]. split; [done|]. simpl. split; try apply Hvt.
    intros f n Hf. destruct (vt_frame _ _ _ Hvt f n Hf). split; [done|set_solver].
  - destruct Hspec as [(Hf0 & -> & Hf1)|(q & Hq & _ & -> & _)]; [left; split; [done|cbn; by rewrite Hf1]|right].
    destruct (alloc_frame_ok _ _ Hp Hq). done.
Qed.

Lemma heap_map_law s virt phys :
  heap_ok s → phys mod 4096 = 0 → 0 < phys < 2 ^ 52 → HEAP_START ≤ virt < HEAP_MAX → virt mod 4096 = 0 →
  (∃ s', vmm_map_page virt phys VMM_FLAG_WRITABLE_NOEXEC s = Done tt s' ∧ heap_ok s' ∧
     (∀ v, heap_mapped s v ∨ virt ≤ v < virt + 4096 → heap_mapped s' v)) ∨
  (∃ s', vmm_map_page virt phys VMM_FLAG_WRITABLE_NOEXEC s = Panic s' ∧ pa_free (vpmm s') = ∅).
Proof.
  intros (lvl & Hok & Hr & Hl & Hnh) Hp1 Hp2 Hv Hal.
  destruct (map_page_lemma s lvl virt phys VMM_FLAG_WRITABLE_NOEXEC Hok Hr Hl (Hnh virt Hv))
    as [[_ HP]|(s' & lvl' & Hm & Hg & Hhit & Hmiss)]; [split; lia|by right|left].
  exists s'. split; [done|]. destruct (gr_env _ _ _ _ _ Hg) as (Hk & _ & _ & _ & Hlk & _).
  assert (∀ v, ¬ same_page 1 virt v → xl (pmem s') (kernel_pml4_phys s) v = xl (pmem s) (kernel_pml4_phys s) v) as Hm'.
  { intros v Hns. apply Hmiss; [done|]. by intros [? _]. }
  split.
  - exists lvl'. rewrite Hk. split_and!; [apply Hg|eapply lookup_weaken; [done|apply Hg]|congruence|].
    intros v Hv' n e. destruct (decide (virt / 4096 mod 2 ^ 36 = v / 4096 mod 2 ^ 36)) as [Hs|Hs].
    + rewrite Hhit by (by apply same_page_iff). by intros [= <- _].
    + rewrite Hm' by (by rewrite same_page_iff). by apply Hnh.
  - intros v Hor. unfold heap_mapped. rewrite Hk.
    destruct (decide (virt / 4096 mod 2 ^ 36 = v / 4096 mod 2 ^ 36)) as [Hs|Hs].
    + exists phys. split; [split; lia|]. apply Hhit. by apply same_page_iff.
    + destruct Hor as [Hmp|?]; [|by destruct Hs; f_equal; lia].
      rewrite Hm' by (by rewrite same_page_iff). done.
Qed.

#[export] Instance vmm_heap_backing : HeapBacking (Vmm P) := {|
  hb_alloc_page := pmm_alloc;
  hb_map_page := vmm_map_page;
  hb_ok := heap_ok;
  hb_mapped := heap_mapped;
  hb_exhausted s := pa_free (vpmm s) = ∅;
  hb_alloc_law := heap_alloc_law;
  hb_map_law := heap_map_law;
|}.
End backing.

(** ** The theorems *)

Section theorems.
Context {P : Type} `{PageAlloc P}.
Implicit Types (s : Vmm P) (lvl : gmap Z nat).

(** C2. [vmm_map_page_in] panics only when fewer than three frames are free;
    otherwise the page of [virt] is mapped to [phys] with the flags in the address
    space [r], every other page of every address space keeps its translation (the page of a
    kernel address may also appear in the spaces that share it), the tables stay
    well formed, and no frame that is not a table is touched. *)
Theorem vmm_map_page_in_correct s lvl r virt phys flags :
  vm_ok s lvl → lvl !! r = Some 4%nat → no_huge (pmem s) r virt → page_addr phys →
  ((size (pa_free (vpmm s)) < 3)%nat ∧ out_of_frames (vmm_map_page_in r virt phys flags s)) ∨
  ∃ s' lvl', vmm_map_page_in r virt phys flags s = Done tt s' ∧ grows s lvl s' lvl' 3 ∧
    (∀ v', same_page 1 virt v' →
       xl (pmem s') r v' = Some (1%nat, Z.lor phys (vmm_flags_to_pte flags))) ∧
    (∀ r' v', lvl !! r' = Some 4%nat → ¬ concerns 1 r virt r' v' → xl (pmem s') r' v' = xl (pmem s) r' v').
Proof. apply map_page_in_lemma. Qed.

(** [vmm_unmap_page_in] always completes: the page of [virt] has no
    translation any more in the space [r], every other page keeps its own, no frame
    other than the tables is touched, and a change of the tables is followed by an
    invalidation of [virt]. *)
Theorem vmm_unmap_page_in_correct s lvl r virt :
  vm_ok s lvl → lvl !! r = Some 4%nat → no_huge (pmem s) r virt →
  ∃ s', vmm_unmap_page_in r virt s = Done tt s' ∧ vm_ok s' lvl ∧ vpmm s' = vpmm s ∧
    locked (vmm_lock s') = locked (vmm_lock s) ∧ kernel_pml4_phys s' = kernel_pml4_phys s ∧
    (∀ g, lvl !! g = None → pmem s' !! g = pmem s !! g) ∧
    (∀ v', same_page 1 virt v' → xl (pmem s') r v' = None) ∧
    (∀ r' v', lvl !! r' = Some 4%nat → ¬ concerns 1 r virt r' v' → xl (pmem s') r' v' = xl (pmem s) r' v') ∧
    (pmem s' = pmem s ∨ virt ∈ invalidated s').
Proof. apply unmap_page_in_lemma. Qed.

(** After [vmm_map_page_in] the walk [vmm_get_phys_in] finds, for every
    address of the page, the byte of the frame at the same offset; after a
    further [vmm_unmap_page_in] it finds nothing. *)
Theorem vmm_map_get_unmap s lvl r virt phys flags off :
  vm_ok s lvl → lvl !! r = Some 4%nat → no_huge (pmem s) r virt → page_addr phys →
  (3 ≤ size (pa_free (vpmm s)))%nat → virt mod 4096 = 0 → 0 ≤ virt < 2 ^ 48 → 0 ≤ off < 4096 →
  ∃ s' s'', vmm_map_page_in r virt phys flags s = Done tt s' ∧
    vmm_get_phys_in r (virt + off) s' = Done (phys + off) s' ∧
    vmm_unmap_page_in r virt s' = Done tt s'' ∧
    vmm_get_phys_in r (virt + off) s'' = Done 0 s''.
Proof.
  intros Hok Hr Hnh [Hp1 Hp2] Hsz Hal Hv Hoff.
  assert (same_page 1 virt (virt + off)) as Hsame by (apply same_page_iff; f_equal; lia).
  destruct (map_page_in_lemma s lvl r virt phys flags Hok Hr Hnh (conj Hp1 Hp2))
    as [[? _]|(s1 & l1 & Hm & Hg & Hhit & _)]; [lia|].
  assert (l1 !! r = Some 4%nat) as Hr1 by (eapply lookup_weaken, gr_lvl; [done|exact Hg]).
  pose proof (gr_ok _ _ _ _ _ Hg) as Hok1.
  assert (∀ v, same_page 1 virt v → no_huge (pmem s1) r v) as Hnh1.
  { intros v Hs n e. rewrite Hhit by done. by intros [= <- _]. }
  destruct (unmap_page_in_lemma s1 l1 r virt Hok1 Hr1) as (s2 & Hu & Hok2 & _ & _ & _ & _ & Hun & _); [by apply Hnh1|].
  exists s1, s2. split_and!; [done| |done|].
  - rewrite (get_phys_in_lemma s1 l1) by auto. unfold translate. rewrite Hhit by done. simpl.
    rewrite land_offset. fold (child (Z.lor phys (vmm_flags_to_pte flags))).
    rewrite pte_child by done. rewrite u64_small by lia. do 2 f_equal. lia.
  - rewrite (get_phys_in_lemma s2 l1); [|done|done|intros n e; by rewrite Hun].
    unfold translate. by rewrite Hun.
Qed.

(** [vmm_get_phys] computes the translation of the kernel's tables, 4 KB,
    2 MB and 1 GB pages included. *)
Theorem vmm_get_phys_correct s lvl virt :
  vm_ok s lvl → lvl !! kernel_pml4_phys s = Some 4%nat →
  vmm_get_phys virt s = Done (translate (pmem s) (kernel_pml4_phys s) virt) s.
Proof. apply get_phys_lemma. Qed.

(** [vmm_create_user_pml4] panics only when no frame is free; otherwise
    the new address space has the kernel's translations in the upper half and none in the
    user half, and no other address space changes. *)
Theorem vmm_create_user_pml4_correct s lvl :
  vm_ok s lvl → lvl !! kernel_pml4_phys s = Some 4%nat →
  out_of_frames (vmm_create_user_pml4 s) ∨
  ∃ q s', vmm_create_user_pml4 s = Done q s' ∧ vm_ok s' (<[q := 4%nat]> lvl) ∧ lvl !! q = None ∧ env_eq s s' ∧
    frame_ok q ∧ q / 4096 ∈ pa_free (vpmm s) ∧ pa_free (vpmm s') = pa_free (vpmm s) ∖ {[q / 4096]} ∧
    (∀ g, g ≠ q → pmem s' !! g = pmem s !! g) ∧
    (∀ v, xl (pmem s') q v = if decide (256 ≤ IDX 4 v) then xl (pmem s) (kernel_pml4_phys s) v else None) ∧
    (∀ r v, lvl !! r = Some 4%nat → xl (pmem s') r v = xl (pmem s) r v).
Proof. apply create_user_pml4_lemma. Qed.

(** C26. [vmm_init] panics only when no frame is free; otherwise CR3 holds the new
    tables, which are well formed, map every physical address below the top of memory
    at its place in the direct map, map the kernel image, and map nothing else. *)
Theorem vmm_init_correct s kernel_start kernel_end info :
  pa_ok (vpmm s) → locked (vmm_lock s) = 0 → boot_ranges kernel_start kernel_end info →
  out_of_frames (vmm_init kernel_start kernel_end info s) ∨
  ∃ s' lvl, vmm_init kernel_start kernel_end info s = Done tt s' ∧ vm_ok s' lvl ∧
    lvl !! kernel_pml4_phys s' = Some 4%nat ∧ locked (vmm_lock s') = 0 ∧ cr3 s' = kernel_pml4_phys s' ∧
    (∀ p, 0 ≤ p < highest_phys info →
       translate (pmem s') (kernel_pml4_phys s') (bi_hhdm_offset info + p) = p) ∧
    (∀ off, 0 ≤ off < kernel_pages kernel_start kernel_end * 4096 →
       translate (pmem s') (kernel_pml4_phys s') (kernel_start + off) = kernel_phys_base info + off) ∧
    (∀ v, (∀ v0, bi_hhdm_offset info ≤ v0 < bi_hhdm_offset info + highest_phys info → ¬ same_page 1 v0 v) →
       (∀ v0, kernel_start ≤ v0 < kernel_start + kernel_pages kernel_start kernel_end * 4096 → ¬ same_page 1 v0 v) →
       xl (pmem s') (kernel_pml4_phys s') v = None).
Proof. apply vmm_init_lemma. Qed.

(** C27. After [vmm_init] the memory managers are ready to back the kernel heap,
    when the kernel image ends below it. *)
Theorem vmm_init_backs_heap s kernel_start kernel_end info :
  pa_ok (vpmm s) → locked (vmm_lock s) = 0 → boot_ranges kernel_start kernel_end info →
  kernel_end ≤ HEAP_START - 4096 →
  out_of_frames (vmm_init kernel_start kernel_end info s) ∨
  ∃ s', vmm_init kernel_start kernel_end info s = Done tt s' ∧ hb_ok s'.
Proof.
  intros Hp Hl Hbr Hke. destruct (vmm_init_lemma s _ _ _ Hp Hl Hbr) as [HP|(s' & lvl & Hi & Hok & Hr & Hlk & _ & _ & _ & Hnone)];
    [by left|right]. exists s'. split; [done|]. exists lvl. split_and!; try done.
  destruct Hbr. intros v Hv n e. rewrite Hnone; [done|..];
    intros v0 Hv0 Hs%same_page_iff; unfold kernel_pages, HEAP_MAX, HEAP_START, HEAP_SIZE_MAX in *; lia.
Qed.
End theorems.

(** ** A concrete machine *)

(** Sixty-four pages of memory; page 0 is reserved and page 1 holds an empty PML4. *)
Definition pmm64 (used : Z) (n : Z) : Pmm := mkPmm SPINLOCK_INIT 0x202 [used] 8 64 n 0x40000 0.

Lemma pmm64_ok : pmm_ok (pmm64 1 63) ∧ pmm_ok (pmm64 3 62).
Proof.
  split; (split; [split|..]).
  all: try done.
  all: try (split; [done|]; by repeat constructor).
  all: try (vm_compute; reflexivity).
  all: refine (bool_decide_unpack _ _); vm_compute; exact I.
Qed.

Definition vmm_example : Vmm Pmm :=
  mkVmm (pmm64 3 62) SPINLOCK_INIT 0x202 4096 0xFFFF800000000000 {[ 4096 := replicate 512 0 ]} 4096 [].
Definition levels_example : gmap Z nat := {[ 4096 := 4%nat ]}.

Lemma vmm_example_ok :
  vm_ok vmm_example levels_example ∧ ∀ v, no_huge (pmem vmm_example) 4096 v.
Proof.
  destruct (vm_tables_root (pmem vmm_example) 4096 (free_set (pmm64 3 62))) as [Hvt Hx].
  - split; [done|lia].
  - refine (bool_decide_unpack _ _). vm_compute. exact I.
  - apply lookup_singleton_eq.
  - split; [split; [apply pmm64_ok|exact Hvt]|]. intros v n e. by rewrite Hx.
Qed.

Lemma vmm_map_page_in_correct_witness :
  ∃ s' lvl', vmm_map_page_in 4096 0x400000 0x5000 3 vmm_example = Done tt s' ∧
    grows vmm_example levels_example s' lvl' 3 ∧
    xl (pmem s') 4096 0x400123 = Some (1%nat, Z.lor 0x5000 7).
Proof.
  destruct (vmm_map_page_in_correct vmm_example levels_example 4096 0x400000 0x5000 3
    (proj1 vmm_example_ok) eq_refl (proj2 vmm_example_ok _) ltac:(split; lia))
    as [[Hsz _]|(s' & lvl' & Hm & Hg & Hhit & _)].
  - exfalso. revert Hsz. vm_compute. lia.
  - exists s', lvl'. split; [exact Hm|]. split; [exact Hg|]. apply Hhit.
    by apply same_page_iff.
Defined.

Lemma vmm_unmap_page_in_correct_witness :
  ∃ s', vmm_unmap_page_in 4096 0x400000 vmm_example = Done tt s' ∧ xl (pmem s') 4096 0x400000 = None.
Proof.
  destruct (vmm_unmap_page_in_correct vmm_example levels_example 4096 0x400000
    (proj1 vmm_example_ok) eq_refl (proj2 vmm_example_ok _)) as (s' & Hu & _ & _ & _ & _ & _ & Hn & _).
  exists s'. split; [exact Hu|]. apply Hn. by intros j _.
Defined.

Lemma vmm_map_get_unmap_witness :
  ∃ s' s'', vmm_map_page_in 4096 0x400000 0x5000 3 vmm_example = Done tt s' ∧
    vmm_get_phys_in 4096 (0x400000 + 0x123) s' = Done (0x5000 + 0x123) s' ∧
    vmm_unmap_page_in 4096 0x400000 s' = Done tt s'' ∧
    vmm_get_phys_in 4096 (0x400000 + 0x123) s'' = Done 0 s''.
Proof.
  apply (vmm_map_get_unmap vmm_example levels_example 4096 0x400000 0x5000 3 0x123
    (proj1 vmm_example_ok) eq_refl (proj2 vmm_example_ok _)); [split; lia| |done|lia|lia].
  vm_compute. lia.
Defined.

Lemma vmm_get_phys_correct_witness :
  vmm_get_phys 0xFFFF800000001000 vmm_example =
    Done (translate (pmem vmm_example) 4096 0xFFFF800000001000) vmm_example.
Proof. apply (vmm_get_phys_correct vmm_example levels_example); [apply vmm_example_ok|done]. Defined.

Lemma vmm_create_user_pml4_correct_witness :
  ∃ q s', vmm_create_user_pml4 vmm_example = Done q s' ∧ vm_ok s' (<[q := 4%nat]> levels_example).
Proof.
  destruct (vmm_create_user_pml4_correct vmm_example levels_example (proj1 vmm_example_ok) eq_refl)
    as [(s' & HP & _)|(q & s' & Hc & Hok & _)].
  - exfalso. vm_compute in HP. discriminate HP.
  - exists q, s'. by split.
Defined.

(** The machine at boot: one 2 MB page of memory and a kernel image of two pages. *)
Definition boot64 : BootInfo := {|
  memory_map := [ {| base := 0; length_ := 0x40000; type_ := 0 |} ];
  bi_hhdm_offset := 0xFFFF800000000000;
  kernel_phys_base := 0x10000;
|}.
Definition vmm_boot : Vmm Pmm := mkVmm (pmm64 1 63) SPINLOCK_INIT 0x202 0 0 ∅ 0 [].

Lemma boot64_ranges : boot_ranges 0xFFFFFFFF80000000 0xFFFFFFFF80001800 boot64.
Proof. split; vm_compute; repeat split; congruence. Qed.

Lemma vmm_init_correct_witness :
  ∃ s', vmm_init 0xFFFFFFFF80000000 0xFFFFFFFF80001800 boot64 vmm_boot = Done tt s' ∧
    translate (pmem s') (kernel_pml4_phys s') (0xFFFF800000000000 + 0x12345) = 0x12345.
Proof.
  destruct (@vmm_init_correct Pmm pmm_page_alloc vmm_boot 0xFFFFFFFF80000000 0xFFFFFFFF80001800 boot64
    (proj1 pmm64_ok) eq_refl boot64_ranges) as [(s' & HP & _)|(s' & lvl & Hi & _ & _ & _ & _ & Hd & _)].
  - exfalso. vm_compute in HP. discriminate HP.
  - exists s'. split; [exact Hi|]. apply Hd. vm_compute. split; congruence.
Defined.

Lemma vmm_init_backs_heap_witness :
  ∃ s', vmm_init 0xFFFFFFFF80000000 0xFFFFFFFF80001800 boot64 vmm_boot = Done tt s' ∧ hb_ok s'.
Proof.
  destruct (@vmm_init_backs_heap Pmm pmm_page_alloc vmm_boot 0xFFFFFFFF80000000 0xFFFFFFFF80001800 boot64
    (proj1 pmm64_ok) eq_refl boot64_ranges ltac:(vm_compute; congruence)) as [(s' & HP & _)|H'].
  - exfalso. vm_compute in HP. discriminate HP.
  - exact H'.
Defined.
