(* ===== verification/Elf.v ===== *)
(** * The ELF loader

    [kernel/proc/elf.c]: the file is a list of bytes, and a read outside it is undefined; the
    memory it is loaded into is that of [Vmm], whose frames are lists of 64-bit words. *)
From S2P Require Import Prelude Spinlock PageAlloc Pmm Vmm.

Definition USER_VADDR_MAX : Z := 0x0000800000000000.
Definition ELF_MAGIC0 : Z := 0x7F.
Definition ELF_MAGIC1 : Z := 69.
Definition ELF_MAGIC2 : Z := 76.
Definition ELF_MAGIC3 : Z := 70.
Definition ELFCLASS64 : Z := 2.
Definition ELFDATA2LSB : Z := 1.
Definition ET_EXEC : Z := 2.
Definition EM_X86_64 : Z := 62.
Definition PT_LOAD : Z := 1.
Definition PF_X : Z := 1.
Definition PF_W : Z := 2.
Definition ELF_EINVAL : Z := 22.
Definition ELF_ENOMEM : Z := 12.
Definition SIZEOF_EHDR : Z := 64.

Record Elf64_Ehdr : Type := mkEhdr {
  e_ident : list Z; e_type : Z; e_machine : Z; e_version : Z; e_entry : Z; e_phoff : Z; e_shoff : Z; e_flags : Z;
  e_ehsize : Z; e_phentsize : Z; e_phnum : Z; e_shentsize : Z; e_shnum : Z; e_shstrndx : Z
}.
(** [p_paddr] and [p_align] are never read. *)
Record Elf64_Phdr : Type := mkPhdr { p_type : Z; p_flags : Z; p_offset : Z; p_vaddr : Z; p_filesz : Z; p_memsz : Z }.
Record ElfLoadResult : Type := mkElfResult { entry_point : Z; elf_brk_start : Z }.

(** ** Reading the file *)

(** The [n] bytes at [off], and the little-endian number they make. *)
Definition slice (data : list Z) (off n : Z) : option (list Z) :=
  if (0 <=? off) && (0 <=? n) && (off + n <=? Z.of_nat (length data))
  then Some (take (Z.to_nat n) (drop (Z.to_nat off) data)) else None.
Definition field (data : list Z) (off n : Z) : option Z := l ← slice data off n; Some (le_val l).

Definition ehdr_of (data : list Z) : option Elf64_Ehdr :=
  ident ← slice data 0 16;
  ty ← field data 16 2; mach ← field data 18 2; ver ← field data 20 4;
  entry ← field data 24 8; phoff ← field data 32 8; shoff ← field data 40 8; fl ← field data 48 4;
  ehsize ← field data 52 2; phentsize ← field data 54 2; phnum ← field data 56 2;
  shentsize ← field data 58 2; shnum ← field data 60 2; shstrndx ← field data 62 2;
  Some (mkEhdr ident ty mach ver entry phoff shoff fl ehsize phentsize phnum shentsize shnum shstrndx).
Definition phdr_of (data : list Z) (off : Z) : option Elf64_Phdr :=
  ty ← field data off 4; fl ← field data (off + 4) 4; o ← field data (off + 8) 8; va ← field data (off + 16) 8;
  fsz ← field data (off + 32) 8; msz ← field data (off + 40) 8;
  Some (mkPhdr ty fl o va fsz msz).

Definition ident_is (eh : Elf64_Ehdr) (i : nat) (v : Z) : bool := bool_decide (e_ident eh !! i = Some v).
(** 0, or the error. *)
Definition elf_validate_header (eh : Elf64_Ehdr) (size : Z) : Z :=
  if negb (ident_is eh 0 ELF_MAGIC0 && ident_is eh 1 ELF_MAGIC1 && ident_is eh 2 ELF_MAGIC2 && ident_is eh 3 ELF_MAGIC3)
  then - ELF_EINVAL else
  if negb (ident_is eh 4 ELFCLASS64) then - ELF_EINVAL else
  if negb (ident_is eh 5 ELFDATA2LSB) then - ELF_EINVAL else
  if negb (e_type eh =? ET_EXEC) then - ELF_EINVAL else
  if negb (e_machine eh =? EM_X86_64) then - ELF_EINVAL else
  if (e_phoff eh =? 0) || (e_phnum eh =? 0) then - ELF_EINVAL else
  if size <? u64 (e_phoff eh + e_phnum eh * e_phentsize eh) then - ELF_EINVAL else 0.

(** ** Pages *)

(** The bytes of a frame, and the frame of some bytes. *)
Definition page_bytes (ws : list Z) : list Z := concat (le64 <$> ws).
Fixpoint words_of (n : nat) (l : list Z) : list Z :=
  match n with O => [] | S n' => le_val (take 8 l) :: words_of n' (drop 8 l) end.
Definition overwrite (l : list Z) (off : Z) (new : list Z) : list Z :=
  take (Z.to_nat off) l ++ new ++ drop (Z.to_nat off + length new) l.

Section elf.
Context {P : Type} `{PageAlloc P}.
Implicit Types (s : Vmm P).

(** [memcpy] of some bytes to an offset of a frame. *)
Definition page_store (phys off : Z) (l : list Z) : K (Vmm P) unit :=
  kupd (λ s, t ← pmem s !! phys;
    if (0 <=? off) && (off + Z.of_nat (length l) <=? 4096)
    then Some (set_pmem (<[phys := words_of 512 (overwrite (page_bytes t) off l)]> (pmem s)) s) else None).

Definition elf_copy_page_data (phys vaddr : Z) (ph : Elf64_Phdr) (data : list Z) : K (Vmm P) unit :=
  if p_filesz ph =? 0 then mret tt else
  let file_start := p_vaddr ph in
  let file_end := u64 (p_vaddr ph + p_filesz ph) in
  let page_start := vaddr in
  let page_end := u64 (vaddr + PAGE_SIZE) in
  let copy_start := if page_start <? file_start then file_start else page_start in
  let copy_end := if file_end <? page_end then file_end else page_end in
  if copy_start <? copy_end then
    let file_offset := u64 (p_offset ph + u64 (copy_start - p_vaddr ph)) in
    l ← kopt (λ _, slice data file_offset (copy_end - copy_start));
    page_store phys (copy_start - page_start) l
  else mret tt.

Definition elf_flags (ph : Elf64_Phdr) : Z :=
  let f := VMM_FLAG_USER in
  let f := if negb (Z.land (p_flags ph) PF_W =? 0) then Z.lor f VMM_FLAG_WRITABLE else f in
  if Z.land (p_flags ph) PF_X =? 0 then Z.lor f VMM_FLAG_NOEXEC else f.

(** One page of a segment; [true] when there is no memory. *)
Definition load_page (ph : Elf64_Phdr) (data : list Z) (pml4 vaddr : Z) : K (Vmm P) bool :=
  phys ← pmm_alloc;
  if phys =? 0 then mret true else
  zero_page phys;;
  elf_copy_page_data phys vaddr ph data;;
  vmm_map_page_in pml4 vaddr phys (elf_flags ph);;
  mret false.

(** The error and the new highest address. *)
Definition elf_load_segment (ph : Elf64_Phdr) (data : list Z) (pml4 highest : Z) : K (Vmm P) (Z * Z) :=
  let file_size := Z.of_nat (length data) in
  let top := u64 (p_vaddr ph + p_memsz ph) in
  if (USER_VADDR_MAX <=? p_vaddr ph) || (USER_VADDR_MAX <? top) then mret (- ELF_EINVAL, highest) else
  if (0 <? p_filesz ph) && (file_size <? u64 (p_offset ph + p_filesz ph)) then mret (- ELF_EINVAL, highest) else
  let seg_start := PAGE_ALIGN_DOWN (p_vaddr ph) in
  let seg_end := PAGE_ALIGN_UP top in
  failed ← kuntil ((λ i, seg_start + i * PAGE_SIZE) <$> seqZ 0 ((seg_end - seg_start) / PAGE_SIZE)) (load_page ph data pml4);
  if failed : bool then mret (- ELF_ENOMEM, highest) else
  mret (0, if highest <? top then top else highest).

(** The loop over the [n] program headers from number [i]. *)
Fixpoint load_headers (n : nat) (i : Z) (eh : Elf64_Ehdr) (data : list Z) (pml4 highest : Z) : K (Vmm P) (Z * Z) :=
  match n with
  | O => mret (0, highest)
  | S n' =>
      let off := u64 (e_phoff eh + i * e_phentsize eh) in
      ty ← kopt (λ _, field data off 4);
      if negb (ty =? PT_LOAD) then load_headers n' (i + 1) eh data pml4 highest else
      ph ← kopt (λ _, phdr_of data off);
      if p_memsz ph =? 0 then load_headers n' (i + 1) eh data pml4 highest else
      r ← elf_load_segment ph data pml4 highest;
      if negb (r.1 =? 0) then mret r else load_headers n' (i + 1) eh data pml4 r.2
  end.

(** The error and, when it is 0, the result. *)
Definition elf_load (data : list Z) (pml4 : Z) : K (Vmm P) (Z * ElfLoadResult) :=
  let size := Z.of_nat (length data) in
  let none := mkElfResult 0 0 in
  if size <? SIZEOF_EHDR then mret (- ELF_EINVAL, none) else
  eh ← kopt (λ _, ehdr_of data);
  let err := elf_validate_header eh size in
  if negb (err =? 0) then mret (err, none) else
  r ← load_headers (Z.to_nat (e_phnum eh)) 0 eh data pml4 0;
  if negb (r.1 =? 0) then mret (r.1, none) else
  mret (0, mkElfResult (e_entry eh) (PAGE_ALIGN_UP r.2)).
End elf.
