(* ===== verification/ElfCorrect.v ===== *)
(** * Correctness of the ELF loader

    After a successful load of a well-formed file, the user addresses of its segments hold the bytes of
    the file and zeros after them, with the permissions of the headers, and no other user address is mapped. *)
From S2P Require Import Prelude Spinlock PageAlloc Pmm Vmm VmmTables VmmCorrect VmmSpaces VmmTheorems Elf.

(** ** Bytes and words *)

Definition is_byte (b : Z) : Prop := 0 ≤ b < 256.

Lemma le64_le_val l : length l = 8%nat → Forall is_byte l → le64 (le_val l) = l.
Proof.
  intros Hl Hb. do 9 (destruct l as [|? l]; try done). rewrite !Forall_cons in Hb. unfold is_byte in Hb. destruct Hb as (? & ? & ? & ? & ? & ? & ? & ? & _). clear Hl.
  set (v := le_val _). change (le64 v) with ((λ i, v / 2 ^ (8 * i) mod 256) <$> [0; 1; 2; 3; 4; 5; 6; 7]). cbn [fmap list_fmap].
  subst v. unfold le_val. cbn [foldr].
  change (2 ^ (8 * 0)) with 1. change (2 ^ (8 * 1)) with 256. change (2 ^ (8 * 2)) with (256 * 256).
  change (2 ^ (8 * 3)) with (256 * 256 * 256). change (2 ^ (8 * 4)) with (256 * 256 * 256 * 256).
  change (2 ^ (8 * 5)) with (256 * 256 * 256 * 256 * 256). change (2 ^ (8 * 6)) with (256 * 256 * 256 * 256 * 256 * 256).
  change (2 ^ (8 * 7)) with (256 * 256 * 256 * 256 * 256 * 256 * 256).
  rewrite <-!Z.div_div by lia. rewrite Z.div_1_r. repeat (f_equal; [lia|]). f_equal; lia.
Qed.
Lemma page_words n : ∀ l, length l = (8 * n)%nat → Forall is_byte l → page_bytes (words_of n l) = l.
Proof.
  induction n as [|n IH]; intros l Hl Hb; [by destruct l|]. unfold page_bytes in *. cbn [words_of fmap list_fmap concat].
  rewrite IH by (try (by apply Forall_drop); rewrite length_drop; lia).
  rewrite le64_le_val; [apply take_drop|rewrite length_take; lia|by apply Forall_take].
Qed.
Lemma words_length n l : length (words_of n l) = n.
Proof. revert l. induction n as [|n IH]; intros l; cbn; [done|]. by rewrite IH. Qed.
Lemma page_bytes_zero n : page_bytes (replicate n 0) = replicate (8 * n) 0.
Proof.
  induction n as [|n IH]; [done|]. replace (8 * S n)%nat with (8 + 8 * n)%nat by lia. rewrite replicate_add, <-IH. done.
Qed.

(** ** What a segment puts at an address *)

Definition seg_byte (ph : Elf64_Phdr) (data : list Z) (a : Z) : Z :=
  if (p_vaddr ph <=? a) && (a <? p_vaddr ph + p_filesz ph) then default 0 (zget data (p_offset ph + (a - p_vaddr ph))) else 0.
Definition seg_page (ph : Elf64_Phdr) (data : list Z) (pg : Z) : list Z := (λ o, seg_byte ph data (pg + o)) <$> seqZ 0 4096.

(** A header the loader can trust: the segment is in the user half, and its part of the file in the file. *)
Record phdr_ok (ph : Elf64_Phdr) (data : list Z) : Prop := {
  po_vaddr : 0 ≤ p_vaddr ph;
  po_memsz : 0 < p_memsz ph;
  po_user : p_vaddr ph + p_memsz ph ≤ USER_VADDR_MAX;
  po_filesz : 0 ≤ p_filesz ph ≤ p_memsz ph;
  po_file : 0 ≤ p_offset ph ∧ p_offset ph + p_filesz ph ≤ Z.of_nat (length data);
}.

Lemma seg_page_length ph data pg : length (seg_page ph data pg) = 4096%nat.
Proof. unfold seg_page. by rewrite length_fmap, length_seqZ. Qed.
Lemma seg_page_bytes ph data pg : Forall is_byte data → Forall is_byte (seg_page ph data pg).
Proof.
  intros Hd. apply Forall_fmap, Forall_forall. intros o _. cbn. unfold seg_byte. destruct (_ && _); [|unfold is_byte; lia].
  unfold zget. destruct (_ <? 0); [unfold is_byte; cbn; lia|]. destruct (data !! _) as [b|] eqn:E; [|unfold is_byte; cbn; lia].
  cbn. by eapply (Forall_lookup_1 _ _ _ _ Hd).
Qed.

Lemma seg_page_lookup ph data pg (i : nat) : (i < 4096)%nat → seg_page ph data pg !! i = Some (seg_byte ph data (pg + Z.of_nat i)).
Proof. intros Hi. unfold seg_page. rewrite list_lookup_fmap, lookup_seqZ_lt by lia. cbn. do 3 f_equal. Qed.

Lemma slice_ok data off n : 0 ≤ off → 0 ≤ n → off + n ≤ Z.of_nat (length data) →
  slice data off n = Some (take (Z.to_nat n) (drop (Z.to_nat off) data)).
Proof.
  intros. unfold slice. destruct (Z.leb_spec 0 off); [|lia]. destruct (Z.leb_spec 0 n); [|lia].
  destruct (Z.leb_spec (off + n) (Z.of_nat (length data))); [done|lia].
Qed.

(** The bytes that one page receives: the overlap of the page with the part of the segment that is in the file. *)
Lemma overwrite_seg ph data pg cs ce : phdr_ok ph data → 0 ≤ pg →
  cs = Z.max (p_vaddr ph) pg → ce = Z.min (p_vaddr ph + p_filesz ph) (pg + 4096) → cs < ce →
  overwrite (replicate 4096 0) (cs - pg) (take (Z.to_nat (ce - cs)) (drop (Z.to_nat (p_offset ph + (cs - p_vaddr ph))) data)) = seg_page ph data pg.
Proof.
  intros [] Hpg Hcs Hce Hlt. set (l := take _ _).
  assert (length l = Z.to_nat (ce - cs)) as Hl by (unfold l; rewrite length_take, length_drop; lia).
  apply list_eq_same_length with 4096%nat; [by rewrite seg_page_length| |].
  { unfold overwrite. rewrite !length_app, length_take, length_drop, length_replicate, Hl. lia. }
  intros i x y Hi Hx Hy. rewrite seg_page_lookup in Hy by done. injection Hy as <-. unfold overwrite in Hx.
  unfold seg_byte. destruct (decide (Z.of_nat i < cs - pg)) as [H1|H1].
  - rewrite lookup_app_l in Hx by (rewrite length_take, length_replicate; lia). apply lookup_take_Some in Hx as [[-> _]%lookup_replicate _].
    destruct (Z.leb_spec (p_vaddr ph) (pg + Z.of_nat i)); [|done]. destruct (Z.ltb_spec (pg + Z.of_nat i) (p_vaddr ph + p_filesz ph)); [lia|done].
  - rewrite lookup_app_r in Hx by (rewrite length_take, length_replicate; lia). rewrite length_take, length_replicate in Hx.
    destruct (decide (Z.of_nat i < ce - pg)) as [H2|H2].
    + rewrite lookup_app_l in Hx by lia. apply lookup_take_Some in Hx as [Hx _]. rewrite lookup_drop in Hx.
      destruct (Z.leb_spec (p_vaddr ph) (pg + Z.of_nat i)); [|lia]. destruct (Z.ltb_spec (pg + Z.of_nat i) (p_vaddr ph + p_filesz ph)); [|lia].
      cbn. unfold zget. destruct (Z.ltb_spec (p_offset ph + (pg + Z.of_nat i - p_vaddr ph)) 0); [lia|].
      replace (Z.to_nat (p_offset ph + (pg + Z.of_nat i - p_vaddr ph))) with (Z.to_nat (p_offset ph + (cs - p_vaddr ph)) + (i - Z.to_nat (cs - pg) `min` 4096))%nat by lia.
      by rewrite Hx.
    + rewrite lookup_app_r in Hx by lia. rewrite lookup_drop in Hx. apply lookup_replicate in Hx as [-> _].
      destruct (Z.leb_spec (p_vaddr ph) (pg + Z.of_nat i)); [|done]. destruct (Z.ltb_spec (pg + Z.of_nat i) (p_vaddr ph + p_filesz ph)); [lia|done].
Qed.

(** ** Frames that are not tables *)

Lemma vm_tables_frame m lvl F F' f t : vm_tables m lvl F → lvl !! f = None → F' ⊆ F → vm_tables (<[f := t]> m) lvl F'.
Proof.
  intros Hvt Hf HF. assert (∀ g n i, lvl !! g = Some n → ent (<[f := t]> m) g i = ent m g i) as He.
  { intros g n i Hg. apply ent_insert_ne. congruence. }
  split.
  - apply Hvt.
  - intros g n Hg. destruct (vt_frame _ _ _ Hvt g n Hg). split; [done|set_solver].
  - intros g n Hg. rewrite lookup_insert_ne by congruence. by apply (vt_mem _ _ _ Hvt g n).
  - intros g n i e Hg Hn. rewrite (He g n) by done. by apply (vt_child _ _ _ Hvt).
  - intros g g' n i i' e e' Hg Hg' Hn. rewrite (He g n), (He g' n) by done. by apply (vt_inj _ _ _ Hvt).
Qed.
Lemma xl_frame m lvl F f t r v : vm_tables m lvl F → lvl !! f = None → lvl !! r = Some 4%nat → xl (<[f := t]> m) r v = xl m r v.
Proof.
  intros Hvt Hf Hr. apply (walk_agree m lvl F Hvt); [|done]. intros g k i Hg. apply ent_insert_ne. congruence.
Qed.

Section load.
Context {P : Type} `{PageAlloc P}.
Context (r : Z).
Implicit Types (s : Vmm P) (lvl : gmap Z nat) (img : gmap Z (list Z * Z)).

(** The user half of the space [r] is the image [img]: pages with their bytes and flags. *)
Record loaded img s lvl : Prop := {
  ld_ok : vm_ok s lvl;
  ld_root : lvl !! r = Some 4%nat;
  ld_page pg bs fl : img !! pg = Some (bs, fl) → pg mod 4096 = 0 ∧ 0 ≤ pg < USER_VADDR_MAX ∧
    ∃ phys, frame_ok phys ∧ lvl !! phys = None ∧ phys / 4096 ∉ pa_free (vpmm s) ∧ pmem s !! phys = Some (words_of 512 bs) ∧
      ∀ v, same_page 1 pg v → xl (pmem s) r v = Some (1%nat, Z.lor phys (vmm_flags_to_pte fl));
  ld_none v : 0 ≤ v < USER_VADDR_MAX → img !! (v / 4096 * 4096) = None → xl (pmem s) r v = None;
}.

Definition frames s : nat := size (pa_free (vpmm s)).

(** The copy into a cleared frame. *)
Lemma copy_page_data_ok s phys pg ph data : phdr_ok ph data → Z.of_nat (length data) < 2 ^ 63 → 0 ≤ pg < USER_VADDR_MAX →
  pmem s !! phys = Some (replicate 512 0) →
  elf_copy_page_data phys pg ph data s = Done tt (set_pmem (<[phys := words_of 512 (seg_page ph data pg)]> (pmem s)) s).
Proof.
  unfold USER_VADDR_MAX. intros Hok Hlen Hpg Hm. pose proof Hok as [Hv Hms Hu [Hf1 Hf2] [Ho1 Ho2]]. unfold USER_VADDR_MAX in Hu.
  assert (seg_page ph data pg = replicate 4096 0 → set_pmem (<[phys := words_of 512 (seg_page ph data pg)]> (pmem s)) s = s) as Hzero.
  { intros ->. rewrite insert_id; [by destruct s|]. rewrite Hm. f_equal. }
  assert ((∀ o, 0 ≤ o < 4096 → ¬ (p_vaddr ph ≤ pg + o < p_vaddr ph + p_filesz ph)) → seg_page ph data pg = replicate 4096 0) as Hout.
  { intros Hno. apply list_eq_same_length with 4096%nat; [apply length_replicate|by rewrite seg_page_length|]. intros i x y Hi.
    rewrite seg_page_lookup by done. intros [= <-] [-> _]%lookup_replicate. specialize (Hno (Z.of_nat i) ltac:(lia)). unfold seg_byte.
    destruct (Z.leb_spec (p_vaddr ph) (pg + Z.of_nat i)); [|done]. destruct (Z.ltb_spec (pg + Z.of_nat i) (p_vaddr ph + p_filesz ph)); [lia|done]. }
  unfold elf_copy_page_data. destruct (Z.eqb_spec (p_filesz ph) 0) as [E0|E0].
  { rewrite Hzero; [done|]. apply Hout. lia. }
  rewrite (u64_small (p_vaddr ph + p_filesz ph)) by lia. rewrite (u64_small (pg + PAGE_SIZE)) by (unfold PAGE_SIZE; lia).
  unfold PAGE_SIZE. cbn zeta.
  set (cs := if pg <? p_vaddr ph then p_vaddr ph else pg). set (ce := if p_vaddr ph + p_filesz ph <? pg + 4096 then _ else _).
  assert (cs = Z.max (p_vaddr ph) pg) as Hcs by (unfold cs; destruct (Z.ltb_spec pg (p_vaddr ph)); lia).
  assert (ce = Z.min (p_vaddr ph + p_filesz ph) (pg + 4096)) as Hce by (unfold ce; destruct (Z.ltb_spec (p_vaddr ph + p_filesz ph) (pg + 4096)); lia).
  destruct (Z.ltb_spec cs ce) as [Hlt|Hge]; [|rewrite Hzero; [done|]; apply Hout; lia].
  rewrite (u64_small (cs - p_vaddr ph)), (u64_small (p_offset ph + (cs - p_vaddr ph))) by lia.
  rewrite (kopt_bind _ _ _ (take (Z.to_nat (ce - cs)) (drop (Z.to_nat (p_offset ph + (cs - p_vaddr ph))) data))) by (apply slice_ok; lia).
  unfold page_store, kupd. rewrite Hm. cbn [mbind option_bind]. rewrite page_bytes_zero. change (8 * 512)%nat with 4096%nat.
  rewrite length_take, length_drop. destruct (Z.leb_spec 0 (cs - pg)); [|lia]. destruct (Z.leb_spec (cs - pg + Z.of_nat (Z.to_nat (ce - cs) `min` (length data - Z.to_nat (p_offset ph + (cs - p_vaddr ph))))) 4096); [|lia].
  cbn [andb]. rewrite (overwrite_seg ph data pg cs ce); [done|exact Hok|lia|exact Hcs|exact Hce|exact Hlt].
Qed.

Lemma pmm_alloc_spec s : pa_ok (vpmm s) →
  (pa_free (vpmm s) = ∅ ∧ ∃ p', pmm_alloc s = Done 0 (set_vpmm p' s) ∧ pa_ok p') ∨
  ∃ q p', pmm_alloc s = Done (q * 4096) (set_vpmm p' s) ∧ pa_ok p' ∧ q ∈ pa_free (vpmm s) ∧ pa_free p' = pa_free (vpmm s) ∖ {[q]} ∧ q * 4096 ≠ 0.
Proof.
  intros Hp. unfold pmm_alloc, zoom.
  destruct (pa_alloc_law (vpmm s) Hp) as (x & p' & -> & Hok & _ & [(HF & -> & HF')|(q & Hq & _ & -> & HF')]).
  - left. split; [done|]. by exists p'.
  - right. exists q, p'. pose proof (pa_frames _ _ Hp Hq). split_and!; try done. lia.
Qed.

Lemma same_user_page a b : 0 ≤ a < USER_VADDR_MAX → 0 ≤ b < USER_VADDR_MAX → same_page 1 a b → a / 4096 = b / 4096.
Proof. unfold USER_VADDR_MAX. intros Ha Hb Hs%same_page_iff. rewrite !Z.mod_small in Hs by lia. done. Qed.

(** Putting a frame that was just filled behind a page that is not mapped. *)
Lemma loaded_map img s lvl pg q p' bs fl :
  loaded img s lvl → pg mod 4096 = 0 → 0 ≤ pg < USER_VADDR_MAX → img !! pg = None →
  q ∈ pa_free (vpmm s) → pa_ok p' → pa_free p' = pa_free (vpmm s) ∖ {[q]} → (4 ≤ frames s)%nat →
  let s2 := upd (<[q * 4096 := words_of 512 bs]> (pmem s)) p' s in
  ∃ s' lvl', vmm_map_page_in r pg (q * 4096) fl s2 = Done tt s' ∧ loaded (<[pg := (bs, fl)]> img) s' lvl' ∧
    (frames s ≤ frames s' + 4)%nat.
Proof.
  intros [[Hp Hvt] Hr Hpage Hnone] Hal Hpg Hi Hq Hp' HF Hsz s2. set (f := q * 4096) in *.
  assert (f / 4096 = q) as Hfq by (unfold f; lia). pose proof (alloc_frame_ok _ _ Hp Hq) as Hfr.
  assert (lvl !! f = None) as Hf.
  { destruct (lvl !! f) as [n|] eqn:E; [|done]. destruct (vt_frame _ _ _ Hvt f n E) as [_ []]. by rewrite Hfq. }
  assert (pa_free p' ⊆ pa_free (vpmm s)) as Hsub by (rewrite HF; apply subseteq_difference_l; reflexivity).
  assert (q ∉ pa_free p') as Hqn by (rewrite HF; apply not_elem_of_difference; right; by apply elem_of_singleton).
  assert (size (pa_free p') = frames s - 1)%nat as Hsz'.
  { unfold frames. rewrite HF, size_difference, size_singleton; [done|]. by apply singleton_subseteq_l. }
  assert (vm_ok s2 lvl) as Hok2.
  { split; [exact Hp'|]. exact (vm_tables_frame _ _ _ _ _ _ Hvt Hf Hsub). }
  assert (∀ r' v, lvl !! r' = Some 4%nat → xl (pmem s2) r' v = xl (pmem s) r' v) as Hx2 by (intros r' v Hr'; by apply (xl_frame _ lvl (pa_free (vpmm s)))).
  assert (xl (pmem s2) r pg = None) as Hxpg.
  { rewrite Hx2 by done. apply Hnone; [done|]. rewrite <-Hi. f_equal. lia. }
  destruct (map_page_in_lemma s2 lvl r pg f fl Hok2 Hr) as [[HP _]|(s3 & l3 & E & Hg & Hhit & Hmiss)].
  { intros n e. by rewrite Hxpg. } { destruct Hfr. split; lia. } { change (vpmm s2) with p' in HP. lia. }
  exists s3, l3. split; [done|]. destruct Hg as [_ Hok3 Hl3 Hsz3 Hfree3 _ Hother Hnew].
  assert (∀ g, lvl !! g = None → g / 4096 ∉ pa_free (vpmm s2) → l3 !! g = None) as Hnt.
  { intros g Hg0 HgF. destruct (l3 !! g) as [k|] eqn:Ek; [|done]. by destruct (Hnew g k Ek Hg0). }
  assert (∀ v, 0 ≤ v → ¬ same_page 1 pg v → xl (pmem s3) r v = xl (pmem s) r v) as Hkeep.
  { intros v _ Hns. rewrite Hmiss, Hx2; [done|done|done|]. intros [Hs _]. done. }
  change (vpmm s2) with p' in *. split; [|unfold frames in *; lia].
  split; [done|by eapply lookup_weaken| |].
  - intros pg' bs' fl'. destruct (decide (pg' = pg)) as [->|Hne].
    + rewrite lookup_insert_eq. intros [= <- <-]. split; [exact Hal|]. split; [exact Hpg|]. exists f.
      assert (l3 !! f = None) as Hf3 by (apply Hnt; [exact Hf|by rewrite Hfq]).
      split_and!; [exact Hfr|exact Hf3|rewrite Hfq; exact (λ Hx, Hqn (Hfree3 _ Hx))|rewrite Hother by exact Hf3; apply lookup_insert_eq|exact Hhit].
    + rewrite lookup_insert_ne by done. intros Hin. destruct (Hpage pg' bs' fl' Hin) as (Hal' & Hpg' & ph' & Hfr' & Hl' & HF' & Hm' & Hx').
      split; [exact Hal'|]. split; [exact Hpg'|]. exists ph'. assert (ph' ≠ f) as Hne' by (intros ->; by rewrite Hfq in HF').
      assert (l3 !! ph' = None) as Hf3 by (apply Hnt; [exact Hl'|exact (λ Hx, HF' (Hsub _ Hx))]).
      split_and!; [exact Hfr'|exact Hf3|exact (λ Hx, HF' (Hsub _ (Hfree3 _ Hx)))|rewrite Hother by exact Hf3; exact (eq_trans (lookup_insert_ne _ _ _ _ (not_eq_sym Hne')) Hm')|].
      intros v Hv. destruct (decide (0 ≤ v)) as [Hv0|Hv0]; [rewrite Hkeep; [by apply Hx'|done|]|].
      * intros Hs. apply Hne. assert (same_page 1 pg pg') as Hss by (intros j Hj; rewrite (Hs j Hj); by rewrite (Hv j Hj)).
        apply same_user_page in Hss; [lia|done..].
      * rewrite Hmiss, Hx2; [by apply Hx'|done|done|]. intros [Hs _]. apply Hne.
        assert (same_page 1 pg pg') as Hss by (intros j Hj; rewrite (Hs j Hj); by rewrite (Hv j Hj)).
        apply same_user_page in Hss; [lia|done..].
  - intros v Hv. destruct (decide (v / 4096 * 4096 = pg)) as [->|Hne]; [by rewrite lookup_insert_eq|].
    rewrite lookup_insert_ne by done. intros Hin. rewrite Hkeep; [by apply Hnone|lia|].
    intros Hs%same_user_page; [|done..]. apply Hne. lia.
Qed.

Lemma load_page_ok img s lvl pg ph data :
  loaded img s lvl → phdr_ok ph data → Z.of_nat (length data) < 2 ^ 63 → pg mod 4096 = 0 → 0 ≤ pg < USER_VADDR_MAX → img !! pg = None →
  (4 ≤ frames s)%nat →
  ∃ s' lvl', load_page ph data r pg s = Done false s' ∧ loaded (<[pg := (seg_page ph data pg, elf_flags ph)]> img) s' lvl' ∧
    (frames s ≤ frames s' + 4)%nat.
Proof.
  intros Hl Hok Hlen Hal Hpg Hi Hsz. unfold load_page.
  destruct (pmm_alloc_spec s (proj1 (ld_ok _ _ _ Hl))) as [(HF & _)|(q & p' & E & Hp' & Hq & HF & Hq0)].
  { unfold frames in Hsz. rewrite HF, size_empty in Hsz. lia. }
  kbind E. rewrite (proj2 (Z.eqb_neq _ _) Hq0). rewrite (bind_Done _ _ _ tt (set_pmem (<[q * 4096 := replicate 512 0]> (pmem s)) (set_vpmm p' s))) by done.
  set (s1 := set_pmem _ _).
  pose proof (copy_page_data_ok s1 (q * 4096) pg ph data Hok Hlen Hpg (lookup_insert_eq _ _ _)) as Ec. kbind Ec.
  assert (set_pmem (<[q * 4096 := words_of 512 (seg_page ph data pg)]> (pmem s1)) s1 = upd (<[q * 4096 := words_of 512 (seg_page ph data pg)]> (pmem s)) p' s) as Es.
  { unfold s1, upd, set_pmem, set_vpmm. cbn [pmem vpmm]. rewrite insert_insert_eq. reflexivity. }
  rewrite Es.
  destruct (loaded_map img s lvl pg q p' (seg_page ph data pg) (elf_flags ph) Hl Hal Hpg Hi Hq Hp' HF Hsz) as (s' & lvl' & Em & Hl' & Hf').
  exists s', lvl'. split; [by kbind Em|done].
Qed.
End load.
