(* ===== verification/ElfTheorems.v ===== *)
(** * What the ELF loader guarantees

    The loop over the pages of a segment and over the program headers, and the theorem that a
    well-formed file that fits in memory is loaded. *)
From S2P Require Import Prelude Spinlock PageAlloc Pmm Vmm VmmTables VmmCorrect VmmSpaces VmmTheorems Elf ElfCorrect.

(** ** The specification *)

(** What the processor allows on a page, from the bits of its entry: 0 for present, 1 for writing, 2 for user mode, and 63 against execution. *)
Record Access : Type := mkAccess { acc_present : bool; acc_write : bool; acc_user : bool; acc_exec : bool }.
Definition access_of (e : Z) : Access := mkAccess (Z.testbit e 0) (Z.testbit e 1) (Z.testbit e 2) (negb (Z.testbit e 63)).
(** What a program header asks for: bit 0 of its flags is for execution and bit 1 for writing. *)
Definition asked (ph : Elf64_Phdr) : Access := mkAccess true (Z.testbit (p_flags ph) 1) true (Z.testbit (p_flags ph) 0).

(** The pages of a segment. *)
Definition seg_pages (ph : Elf64_Phdr) : list Z :=
  (λ i, p_vaddr ph / 4096 * 4096 + i * 4096) <$> seqZ 0 ((p_vaddr ph + p_memsz ph + 4095) / 4096 - p_vaddr ph / 4096).
Definition add_pages (ph : Elf64_Phdr) (data : list Z) (pgs : list Z) (img : gmap Z (list Z * Z)) : gmap Z (list Z * Z) :=
  foldl (λ img pg, <[pg := (seg_page ph data pg, elf_flags ph)]> img) img pgs.
(** The pages of all segments, with their bytes and flags. *)
Definition add_segments (data : list Z) (phs : list Elf64_Phdr) (img : gmap Z (list Z * Z)) : gmap Z (list Z * Z) :=
  foldl (λ img ph, add_pages ph data (seg_pages ph) img) img phs.
Fixpoint segs_disjoint (phs : list Elf64_Phdr) : Prop :=
  match phs with
  | [] => True
  | ph :: phs' => (∀ ph' pg, ph' ∈ phs' → pg ∈ seg_pages ph → pg ∉ seg_pages ph') ∧ segs_disjoint phs'
  end.

(** The headers of the file and those that ask for memory. *)
Definition program_headers (eh : Elf64_Ehdr) (data : list Z) (i n : Z) : option (list Elf64_Phdr) :=
  mapM (λ i, phdr_of data (e_phoff eh + i * e_phentsize eh)) (seqZ i n).
Definition is_load (ph : Elf64_Phdr) : Prop := p_type ph = PT_LOAD ∧ p_memsz ph ≠ 0.
#[export] Instance is_load_dec ph : Decision (is_load ph).
Proof. unfold is_load. apply _. Defined.
Definition loadable (phs : list Elf64_Phdr) : list Elf64_Phdr := filter is_load phs.

Definition page_count (phs : list Elf64_Phdr) : nat := sum_list_with (λ ph, length (seg_pages ph)) phs.
Definition highest (phs : list Elf64_Phdr) (h : Z) : Z := foldl (λ h ph, Z.max h (p_vaddr ph + p_memsz ph)) h phs.

Lemma page_align_down x : 0 ≤ x < 2 ^ 63 → PAGE_ALIGN_DOWN x = x / 4096 * 4096.
Proof. intros. unfold PAGE_ALIGN_DOWN, PAGE_SIZE. change 4096 with (2 ^ 12) at 1. rewrite land_align by lia. done. Qed.

Lemma elem_of_seg_pages ph pg : 0 ≤ p_vaddr ph → 0 < p_memsz ph →
  pg ∈ seg_pages ph ↔ pg mod 4096 = 0 ∧ p_vaddr ph / 4096 * 4096 ≤ pg < p_vaddr ph + p_memsz ph.
Proof.
  intros Hv Hm. unfold seg_pages. rewrite list_elem_of_fmap. setoid_rewrite elem_of_seqZ. split.
  - intros (i & -> & Hi). lia.
  - intros [Hal Hpg]. exists (pg / 4096 - p_vaddr ph / 4096). lia.
Qed.
Lemma NoDup_seg_pages ph : NoDup (seg_pages ph).
Proof. apply NoDup_fmap_2; [intros i j; lia|apply NoDup_seqZ]. Qed.

Lemma add_pages_cons ph data pg pgs img :
  add_pages ph data (pg :: pgs) img = add_pages ph data pgs (<[pg := (seg_page ph data pg, elf_flags ph)]> img).
Proof. reflexivity. Qed.
Lemma add_segments_cons data ph phs img :
  add_segments data (ph :: phs) img = add_segments data phs (add_pages ph data (seg_pages ph) img).
Proof. reflexivity. Qed.
Lemma add_pages_lookup ph data pgs img pg :
  add_pages ph data pgs img !! pg = if decide (pg ∈ pgs) then Some (seg_page ph data pg, elf_flags ph) else img !! pg.
Proof.
  revert img. induction pgs as [|p pgs IH]; intros img; [done|].
  rewrite add_pages_cons, IH. destruct (decide (pg ∈ pgs)) as [Hin|Hin].
  - rewrite decide_True; [done|]. by apply list_elem_of_further.
  - destruct (decide (pg = p)) as [->|Hne].
    + rewrite lookup_insert_eq, decide_True; [done|]. apply list_elem_of_here.
    + rewrite lookup_insert_ne by done. rewrite decide_False; [done|]. by intros [->|?]%elem_of_cons.
Qed.
Lemma add_segments_other data phs img pg :
  (∀ ph, ph ∈ phs → pg ∉ seg_pages ph) → add_segments data phs img !! pg = img !! pg.
Proof.
  revert img. induction phs as [|ph phs IH]; intros img Hno; [done|].
  rewrite add_segments_cons, IH, add_pages_lookup, decide_False; [done|apply Hno, list_elem_of_here|].
  intros ph' Hph'. by apply Hno, list_elem_of_further.
Qed.
Lemma add_segments_lookup data phs img ph pg : segs_disjoint phs → ph ∈ phs → pg ∈ seg_pages ph →
  add_segments data phs img !! pg = Some (seg_page ph data pg, elf_flags ph).
Proof.
  revert img. induction phs as [|ph' phs IH]; intros img; [by intros _ ?%elem_of_nil|]. intros [Hd Hds] Hin Hpg.
  rewrite add_segments_cons. apply elem_of_cons in Hin as [->|Hin]; [|by apply IH].
  rewrite add_segments_other, add_pages_lookup, decide_True; [done..|]. intros ph Hph. by apply (Hd ph).
Qed.

(** The byte at a user address of the space [r]. *)
Definition user_byte (m : memory) (r v : Z) : option Z :=
  match xl m r v with Some (1%nat, e) => t ← m !! child e; page_bytes t !! Z.to_nat (v mod 4096) | _ => None end.
(** The address is on a page of the segment. *)
Definition on_segment (ph : Elf64_Phdr) (v : Z) : Prop := p_vaddr ph / 4096 ≤ v / 4096 ∧ v / 4096 * 4096 < p_vaddr ph + p_memsz ph.

(** A file the loader can load: an executable for this machine with its headers in the file, segments in user space
    with their contents in the file, no two of them on one page. *)
Record elf_ok (data : list Z) (eh : Elf64_Ehdr) (phs : list Elf64_Phdr) : Prop := {
  eo_bytes : Forall is_byte data;
  eo_size : Z.of_nat (length data) < 2 ^ 63;
  eo_ehdr : ehdr_of data = Some eh;
  eo_valid : elf_validate_header eh (Z.of_nat (length data)) = 0;
  eo_phdrs : program_headers eh data 0 (e_phnum eh) = Some phs;
  eo_range : 0 ≤ e_phoff eh ∧ 0 ≤ e_phentsize eh ∧ 0 ≤ e_phnum eh;
  eo_fit : e_phoff eh + e_phnum eh * e_phentsize eh ≤ Z.of_nat (length data);
  eo_segs : Forall (λ ph, phdr_ok ph data) (loadable phs);
  eo_disjoint : segs_disjoint (loadable phs);
}.

(** ** The loops *)

Section load.
Context {P : Type} `{PageAlloc P}.
Context (r : Z) (data : list Z) (Hlen : Z.of_nat (length data) < 2 ^ 63).
Implicit Types (s : Vmm P) (lvl : gmap Z nat) (img : gmap Z (list Z * Z)).

Lemma load_pages_ok ph pgs : phdr_ok ph data → ∀ img s lvl,
  loaded r img s lvl → NoDup pgs → (∀ pg, pg ∈ pgs → pg mod 4096 = 0 ∧ 0 ≤ pg < USER_VADDR_MAX ∧ img !! pg = None) →
  (4 * length pgs ≤ frames s)%nat →
  ∃ s' lvl', kuntil pgs (load_page ph data r) s = Done false s' ∧ loaded r (add_pages ph data pgs img) s' lvl' ∧
    (frames s ≤ frames s' + 4 * length pgs)%nat.
Proof.
  intros Hok. induction pgs as [|pg pgs IH]; intros img s lvl Hl Hnd Hpgs Hsz.
  { exists s, lvl. split; [done|]. split; [done|]. lia. }
  apply NoDup_cons in Hnd as [Hnin Hnd]. cbn [length] in Hsz.
  destruct (Hpgs pg (list_elem_of_here _ _)) as (Hal & Hpg & Hi).
  destruct (load_page_ok r img s lvl pg ph data Hl Hok Hlen Hal Hpg Hi ltac:(lia)) as (s1 & l1 & E1 & Hl1 & Hf1).
  destruct (IH _ s1 l1 Hl1 Hnd) as (s2 & l2 & E2 & Hl2 & Hf2).
  { intros pg' Hin. destruct (Hpgs pg' (list_elem_of_further _ _ _ Hin)) as (? & ? & ?). split; [done|]. split; [done|].
    rewrite lookup_insert_ne; [done|]. by intros ->. }
  { lia. }
  exists s2, l2. split; [cbn [kuntil]; by kbind E1|]. split; [done|]. cbn [length]. lia.
Qed.

Lemma load_segment_ok ph img s lvl h : phdr_ok ph data → loaded r img s lvl →
  (∀ pg, pg ∈ seg_pages ph → img !! pg = None) → (4 * length (seg_pages ph) ≤ frames s)%nat →
  ∃ s' lvl', elf_load_segment ph data r h s = Done (0, Z.max h (p_vaddr ph + p_memsz ph)) s' ∧
    loaded r (add_pages ph data (seg_pages ph) img) s' lvl' ∧ (frames s ≤ frames s' + 4 * length (seg_pages ph))%nat.
Proof.
  intros Hok Hl Hi Hsz. pose proof Hok as [Hv Hms Hu [Hf1 Hf2] [Ho1 Ho2]]. unfold USER_VADDR_MAX in Hu.
  unfold elf_load_segment. rewrite (u64_small (p_vaddr ph + p_memsz ph)), (u64_small (p_offset ph + p_filesz ph)) by lia.
  rewrite page_align_down, page_align_up by lia. unfold USER_VADDR_MAX, PAGE_SIZE.
  destruct (Z.leb_spec 0x0000800000000000 (p_vaddr ph)); [lia|].
  destruct (Z.ltb_spec 0x0000800000000000 (p_vaddr ph + p_memsz ph)); [lia|]. cbn [orb].
  destruct (Z.ltb_spec (Z.of_nat (length data)) (p_offset ph + p_filesz ph)); [lia|]. rewrite andb_false_r.
  replace (((p_vaddr ph + p_memsz ph + 4095) / 4096 * 4096 - p_vaddr ph / 4096 * 4096) / 4096)
    with ((p_vaddr ph + p_memsz ph + 4095) / 4096 - p_vaddr ph / 4096) by lia. fold (seg_pages ph).
  destruct (load_pages_ok ph (seg_pages ph) Hok img s lvl Hl (NoDup_seg_pages ph)) as (s' & lvl' & E & Hl' & Hf').
  { intros pg Hpg. pose proof (Hi pg Hpg). apply elem_of_seg_pages in Hpg as [Hal Hpg]; [|done..]. unfold USER_VADDR_MAX. split; [done|]. split; [lia|done]. }
  { done. }
  exists s', lvl'. split; [|done]. kbind E. unfold mret, K_ret. do 2 f_equal. destruct (Z.ltb_spec h (p_vaddr ph + p_memsz ph)); lia.
Qed.

Lemma phdr_type off ph : phdr_of data off = Some ph → field data off 4 = Some (p_type ph).
Proof.
  unfold phdr_of, mbind, option_bind. repeat (destruct (field data _ _); [|discriminate]). intros Hx. injection Hx as <-. reflexivity.
Qed.

Lemma load_headers_ok eh phs : ∀ n i img s lvl h,
  program_headers eh data i (Z.of_nat n) = Some phs → 0 ≤ i → 0 ≤ e_phoff eh → 0 ≤ e_phentsize eh →
  e_phoff eh + (i + Z.of_nat n) * e_phentsize eh ≤ Z.of_nat (length data) →
  Forall (λ ph, phdr_ok ph data) (loadable phs) → segs_disjoint (loadable phs) → loaded r img s lvl →
  (∀ ph pg, ph ∈ loadable phs → pg ∈ seg_pages ph → img !! pg = None) → (4 * page_count (loadable phs) ≤ frames s)%nat →
  ∃ s' lvl', load_headers n i eh data r h s = Done (0, highest (loadable phs) h) s' ∧
    loaded r (add_segments data (loadable phs) img) s' lvl'.
Proof.
  induction phs as [|ph phs IH]; intros n i img s lvl h Hphs Hi Ho He Hb Hok Hd Hl Hfr Hsz.
  { destruct n as [|n]; [by exists s, lvl|]. unfold program_headers in Hphs. rewrite seqZ_cons in Hphs by lia. cbn in Hphs.
    destruct (phdr_of _ _); [|done]. cbn in Hphs. by destruct (mapM _ _). }
  destruct n as [|n]; [done|]. unfold program_headers in Hphs. rewrite seqZ_cons in Hphs by lia. apply mapM_Some in Hphs.
  apply Forall2_cons_1 in Hphs as [Hph Hphs]. apply mapM_Some in Hphs. replace (Z.pred (Z.of_nat (S n))) with (Z.of_nat n) in Hphs by lia.
  cbn [load_headers]. cbn zeta.
  rewrite (u64_small (e_phoff eh + i * e_phentsize eh)) by (split; nia). rewrite (kopt_bind (λ _, field data _ 4) _ s _ (phdr_type _ _ Hph)).
  unfold loadable in *. rewrite filter_cons in *. destruct (decide (is_load ph)) as [[Hty Hms]|Hno].
  - rewrite Hty. cbn [negb Z.eqb PT_LOAD Pos.eqb]. rewrite (kopt_bind (λ _, phdr_of data _) _ s _ Hph), (proj2 (Z.eqb_neq _ _) Hms).
    apply Forall_cons in Hok as [Hok Hoks]. destruct Hd as [Hd Hds]. cbn [page_count sum_list_with] in Hsz. fold (page_count (filter is_load phs)) in Hsz.
    destruct (load_segment_ok ph img s lvl h Hok Hl) as (s1 & l1 & E1 & Hl1 & Hf1).
    { intros pg. apply Hfr, list_elem_of_here. } { lia. }
    kbind E1. cbn [fst snd negb Z.eqb].
    apply (IH n (i + 1) _ s1 l1); try done; [lia|nia| |lia].
    intros ph' pg Hin Hpg. rewrite add_pages_lookup, decide_False; [by apply (Hfr ph'); [apply list_elem_of_further|]|].
    intros Hpg'. by apply (Hd ph' pg).
  - destruct (Z.eqb_spec (p_type ph) PT_LOAD) as [Hty|Hty]; cbn [negb].
    + rewrite (kopt_bind (λ _, phdr_of data _) _ s _ Hph). destruct (Z.eqb_spec (p_memsz ph) 0) as [Hms|Hms]; [|by destruct Hno].
      apply (IH n (i + 1) img s lvl); try done; [lia|nia].
    + apply (IH n (i + 1) img s lvl); try done; [lia|nia].
Qed.

Lemma ehdr_size eh : ehdr_of data = Some eh → 64 ≤ Z.of_nat (length data).
Proof.
  unfold ehdr_of, mbind, option_bind. destruct (slice data 0 16); [|discriminate]. do 12 (destruct (field data _ _); [|discriminate]).
  unfold field, mbind, option_bind, slice. destruct (Z.leb_spec (62 + 2) (Z.of_nat (length data))); [lia|]. rewrite andb_false_r. discriminate.
Qed.

Lemma loaded_byte img s lvl pg bs fl v : loaded r img s lvl → img !! pg = Some (bs, fl) → length bs = 4096%nat → Forall is_byte bs →
  0 ≤ v < USER_VADDR_MAX → v / 4096 * 4096 = pg →
  ∃ phys, page_addr phys ∧ xl (pmem s) r v = Some (1%nat, Z.lor phys (vmm_flags_to_pte fl)) ∧
    user_byte (pmem s) r v = bs !! Z.to_nat (v mod 4096).
Proof using H P data r.
  intros Hl Hi Hbs Hb Hv Hpg. destruct (ld_page _ _ _ _ Hl pg bs fl Hi) as (Hal & Hu & phys & Hfr & _ & _ & Hm & Hx).
  assert (page_addr phys) as Hpa by (destruct Hfr; split; lia). exists phys. split; [done|].
  assert (xl (pmem s) r v = Some (1%nat, Z.lor phys (vmm_flags_to_pte fl))) as Hxv.
  { apply Hx. apply same_page_iff. f_equal. lia. }
  split; [done|]. unfold user_byte. rewrite Hxv, pte_child, Hm by done. cbn [mbind option_bind]. by rewrite page_words.
Qed.

Lemma elf_load_lemma s lvl eh phs : vm_ok s lvl → lvl !! r = Some 4%nat → (∀ v, 0 ≤ v < USER_VADDR_MAX → xl (pmem s) r v = None) →
  elf_ok data eh phs → (4 * page_count (loadable phs) ≤ frames s)%nat →
  ∃ s' lvl', elf_load data r s = Done (0, mkElfResult (e_entry eh) (PAGE_ALIGN_UP (highest (loadable phs) 0))) s' ∧
    loaded r (add_segments data (loadable phs) ∅) s' lvl'.
Proof using Hlen.
  intros Hok Hr Hnone [Hb _ He Hval Hphs (? & ? & ?) Hfit Hsegs Hd] Hsz. pose proof (ehdr_size eh He).
  destruct (load_headers_ok eh phs (Z.to_nat (e_phnum eh)) 0 ∅ s lvl 0) as (s' & lvl' & E & Hl).
  all: try done. { by rewrite Z2Nat.id. } { lia. } { split; [done|done|done|]. intros v Hv _. by apply Hnone. }
  exists s', lvl'. split; [|done]. unfold elf_load, SIZEOF_EHDR. cbn zeta. destruct (Z.ltb_spec (Z.of_nat (length data)) 64); [lia|].
  rewrite (kopt_bind (λ _, ehdr_of data) _ s eh He), Hval. cbn [Z.eqb negb]. by kbind E.
Qed.
End load.

(** ** Permissions *)

Lemma page_addr_bits phys i : page_addr phys → 0 ≤ i → i < 12 ∨ 52 ≤ i → Z.testbit phys i = false.
Proof.
  intros [Hm Hr] H0 [Hi|Hi].
  - replace phys with (phys / 4096 * 2 ^ 12) by lia. by apply Z.mul_pow2_bits_low.
  - rewrite <-(Z.mod_small phys (2 ^ 52)) by lia. apply Z.mod_pow2_bits_high. lia.
Qed.
Lemma entry_access phys ph : page_addr phys → access_of (Z.lor phys (vmm_flags_to_pte (elf_flags ph))) = asked ph.
Proof.
  intros Hp. unfold access_of, asked. rewrite !Z.lor_spec, !(page_addr_bits phys) by (first [done|lia]). cbn [orb].
  unfold elf_flags, PF_W, PF_X. change (Z.land (p_flags ph) 2) with (Z.land (p_flags ph) (2 ^ 1)). change (Z.land (p_flags ph) 1) with (Z.land (p_flags ph) (2 ^ 0)).
  rewrite !land_bit by lia. by destruct (Z.testbit (p_flags ph) 1), (Z.testbit (p_flags ph) 0).
Qed.

Section theorems.
Context {P : Type} `{PageAlloc P}.
Implicit Types (s : Vmm P) (lvl : gmap Z nat).

(** C11. [elf_load] of a well-formed file into an address space with an empty user half, with four free frames for
    each page of its segments, succeeds; afterwards every address on a page of a segment has a page table entry that is present, open to user mode,
    writable exactly when its header has the flag for writing (bit 1) and executable exactly when it has the flag for execution (bit 0), and
    holds the byte of the file, or 0 past the part of the segment that is in the file; no other user address is
    mapped, and the heap starts on the page after the highest segment. *)
Theorem elf_load_correct s lvl r data eh phs :
  vm_ok s lvl → lvl !! r = Some 4%nat → (∀ v, 0 ≤ v < USER_VADDR_MAX → xl (pmem s) r v = None) →
  elf_ok data eh phs → (4 * page_count (loadable phs) ≤ frames s)%nat →
  ∃ s' lvl', elf_load data r s = Done (0, mkElfResult (e_entry eh) (PAGE_ALIGN_UP (highest (loadable phs) 0))) s' ∧
    vm_ok s' lvl' ∧
    (∀ ph v, ph ∈ loadable phs → on_segment ph v →
       (∃ e, xl (pmem s') r v = Some (1%nat, e) ∧ access_of e = asked ph) ∧
       user_byte (pmem s') r v = Some (seg_byte ph data v)) ∧
    (∀ v, 0 ≤ v < USER_VADDR_MAX → (∀ ph, ph ∈ loadable phs → ¬ on_segment ph v) → xl (pmem s') r v = None).
Proof.
  intros Hok Hr Hnone He Hsz. destruct (elf_load_lemma r data (eo_size _ _ _ He) s lvl eh phs Hok Hr Hnone He Hsz) as (s' & lvl' & E & Hl).
  exists s', lvl'. split; [exact E|]. split; [exact (ld_ok _ _ _ _ Hl)|].
  pose proof (eo_segs _ _ _ He) as Hsegs. rewrite Forall_forall in Hsegs. split.
  - intros ph v Hin [Hv1 Hv2]. destruct (Hsegs ph Hin) as [Hv Hms Hu _ _].
    assert (v / 4096 * 4096 ∈ seg_pages ph) as Hpg by (apply elem_of_seg_pages; lia).
    pose proof (add_segments_lookup data _ ∅ ph _ (eo_disjoint _ _ _ He) Hin Hpg) as Hi.
    destruct (loaded_byte r data _ s' lvl' _ _ _ v Hl Hi) as (phys & Hpa & Hx & Hb);
      [apply seg_page_length|apply seg_page_bytes, (eo_bytes _ _ _ He)|unfold USER_VADDR_MAX in *; lia|done|].
    split; [eexists; split; [exact Hx|by apply entry_access]|]. rewrite Hb, seg_page_lookup by lia. do 2 f_equal. lia.
  - intros v Hv Hno. apply (ld_none _ _ _ _ Hl); [exact Hv|]. rewrite add_segments_other; [apply lookup_empty|].
    intros ph Hin Hpg. destruct (Hsegs ph Hin) as [Hv' Hms Hu _ _]. apply (Hno ph Hin).
    apply elem_of_seg_pages in Hpg as [_ Hpg]; [|done..]. split; lia.
Qed.
End theorems.

(** ** Concrete files *)

(** An executable with the given program headers, which follow the header at once. *)
Definition mk_ehdr (entry phoff phnum : Z) : list Z :=
  [0x7F; 69; 76; 70; 2; 1; 1; 0; 0; 0; 0; 0; 0; 0; 0; 0] ++ le_bytes 2 2 ++ le_bytes 2 62 ++ le_bytes 4 1 ++ le_bytes 8 entry ++ le_bytes 8 phoff ++ le_bytes 8 0 ++
  le_bytes 4 0 ++ le_bytes 2 64 ++ le_bytes 2 56 ++ le_bytes 2 phnum ++ le_bytes 2 0 ++ le_bytes 2 0 ++ le_bytes 2 0.
Definition mk_phdr (fl off va fsz msz : Z) : list Z :=
  le_bytes 4 1 ++ le_bytes 4 fl ++ le_bytes 8 off ++ le_bytes 8 va ++ le_bytes 8 0 ++ le_bytes 8 fsz ++ le_bytes 8 msz ++ le_bytes 8 4096.

(** Code at 0x400000 and data at 0x402010 of which four bytes are in the file. *)
Definition small_elf : list Z :=
  mk_ehdr 0x400000 64 2 ++ mk_phdr 5 176 0x400000 8 8 ++ mk_phdr 6 184 0x402010 4 0x20 ++ [1; 2; 3; 4; 5; 6; 7; 8; 11; 12; 13; 14].
Definition small_ehdr : Elf64_Ehdr := mkEhdr [0x7F; 69; 76; 70; 2; 1; 1; 0; 0; 0; 0; 0; 0; 0; 0; 0] 2 62 1 0x400000 64 0 0 64 56 2 0 0 0.
Definition small_phdrs : list Elf64_Phdr := [mkPhdr 1 5 176 0x400000 8 8; mkPhdr 1 6 184 0x402010 4 0x20].

Lemma small_elf_ok : elf_ok small_elf small_ehdr small_phdrs.
Proof.
  split; try (vm_compute; reflexivity).
  - refine (bool_decide_unpack (Forall (λ b, 0 ≤ b < 256) small_elf) _). vm_compute. exact I.
  - cbn. lia.
  - vm_compute. congruence.
  - change (loadable small_phdrs) with small_phdrs. repeat constructor; cbn; try lia; vm_compute; congruence.
  - change (loadable small_phdrs) with small_phdrs. split; [|split; [by intros ? ? ?%elem_of_nil|done]].
    intros ph' pg Hph. apply list_elem_of_singleton in Hph as ->. change (seg_pages _) with [0x400000] at 1. change (seg_pages _) with [0x402000]. intros ->%list_elem_of_singleton H%list_elem_of_singleton. discriminate H.
Qed.

Lemma elf_load_correct_witness :
  ∃ s', elf_load small_elf 4096 vmm_example = Done (0, mkElfResult 0x400000 0x403000) s' ∧
    user_byte (pmem s') 4096 0x400003 = Some 4 ∧ user_byte (pmem s') 4096 0x402011 = Some 12 ∧
    user_byte (pmem s') 4096 0x402020 = Some 0 ∧ xl (pmem s') 4096 0x401000 = None ∧
    ∃ e, xl (pmem s') 4096 0x400003 = Some (1%nat, e) ∧ access_of e = mkAccess true false true true.
Proof.
  destruct (elf_load_correct vmm_example levels_example 4096 small_elf small_ehdr small_phdrs (proj1 vmm_example_ok) eq_refl)
    as (s' & lvl' & E & _ & Hin & Hout).
  - intros v _. destruct (vm_tables_root (pmem vmm_example) 4096 (free_set (pmm64 3 62))) as [_ Hx]; [split; [done|lia]| | |apply Hx].
    + refine (bool_decide_unpack _ _). vm_compute. exact I.
    + apply lookup_singleton_eq.
  - exact small_elf_ok.
  - vm_compute. lia.
  - change (loadable small_phdrs) with small_phdrs in *. exists s'. split; [exact E|].
    split; [|split; [|split; [|split]]].
    + apply (Hin (mkPhdr 1 5 176 0x400000 8 8)); [apply list_elem_of_here|by split; cbn].
    + apply (Hin (mkPhdr 1 6 184 0x402010 4 0x20)); [apply list_elem_of_further, list_elem_of_here|by split; cbn].
    + apply (Hin (mkPhdr 1 6 184 0x402010 4 0x20)); [apply list_elem_of_further, list_elem_of_here|by split; cbn].
    + apply Hout; [by split|]. intros ph Hph. unfold on_segment. apply elem_of_cons in Hph as [->|Hph]; [cbn; lia|]. apply list_elem_of_singleton in Hph as ->. cbn. lia.
    + apply (Hin (mkPhdr 1 5 176 0x400000 8 8)); [apply list_elem_of_here|by split; cbn].
Defined.

(** A file whose [p_offset + p_filesz] wraps around passes the bounds check, and the copy reads outside the file. *)
Definition wrap_elf : list Z := mk_ehdr 0x400000 64 1 ++ mk_phdr 5 (2 ^ 64 - 8) 0x400000 16 16.
Lemma elf_offset_wraps : elf_load wrap_elf 4096 vmm_example = Stuck.
Proof. vm_compute. reflexivity. Qed.

(** Two segments on one page: the second mapping hides the bytes of the first. *)
Definition shared_elf : list Z :=
  mk_ehdr 0x400000 64 2 ++ mk_phdr 5 176 0x400000 8 8 ++ mk_phdr 6 184 0x400800 4 4 ++ [1; 2; 3; 4; 5; 6; 7; 8; 11; 12; 13; 14].
Lemma elf_shared_page_loses :
  match elf_load shared_elf 4096 vmm_example with
  | Done r s' => r.1 = 0 ∧ user_byte (pmem s') 4096 0x400000 = Some 0 ∧ user_byte (pmem s') 4096 0x400800 = Some 11
  | _ => False
  end.
Proof. vm_compute. repeat split. Qed.
