(* ===== verification/KHeap.v ===== *)
(** * The kernel heap interface

    What the kernel heap ([kernel/mm/kmalloc.c]) promises to the components that
    keep their objects in it: [kmalloc] returns NULL or an address that was not
    in use, and [kfree] of an address in use makes it available again.  It returns
    NULL, or stops the machine, only when the heap cannot grow any more, which no
    [kfree] changes.  The heap of [Kmalloc] is an instance. *)
From S2P Require Import Prelude PageAlloc Kmalloc KmallocCorrect.

Class KHeap (H : Type) : Type := {
  kh_alloc : Z → Z → K H Z;                 (* kmalloc size flags *)
  kh_free : Z → K H unit;                   (* kfree ptr *)
  kh_realloc : Z → Z → K H Z;               (* krealloc ptr size *)
  kh_ok : H → Prop;
  kh_live : H → gset Z;                     (* the addresses handed out *)
  kh_full : H → Prop;                       (* the heap cannot grow *)
  kh_live_pos h a : kh_ok h → a ∈ kh_live h → 0 < a < 2 ^ 64;
  kh_alloc_law h size flags : kh_ok h → 0 < size ≤ 2 ^ 62 →
    (∃ h', kh_alloc size flags h = Panic h' ∧ kh_full h') ∨
    (∃ h', kh_alloc size flags h = Done 0 h' ∧ kh_ok h' ∧ kh_live h' = kh_live h ∧ kh_full h') ∨
    (∃ a h', kh_alloc size flags h = Done a h' ∧ kh_ok h' ∧ a ≠ 0 ∧ a ∉ kh_live h ∧
       kh_live h' = {[ a ]} ∪ kh_live h);
  kh_free_law h a : kh_ok h → a ∈ kh_live h →
    ∃ h', kh_free a h = Done tt h' ∧ kh_ok h' ∧ kh_live h' = kh_live h ∖ {[ a ]} ∧ (kh_full h → kh_full h');
  kh_realloc_null size h : kh_realloc 0 size h = kh_alloc size 0 h;
  kh_realloc_law h a size : kh_ok h → a ∈ kh_live h → 0 < size ≤ 2 ^ 61 →
    (∃ h', kh_realloc a size h = Panic h' ∧ kh_full h') ∨
    (∃ h', kh_realloc a size h = Done 0 h' ∧ kh_ok h' ∧ kh_live h' = kh_live h ∧ kh_full h') ∨
    (∃ a' h', kh_realloc a size h = Done a' h' ∧ kh_ok h' ∧ a' ≠ 0 ∧ a' ∉ kh_live h ∖ {[ a ]} ∧
       kh_live h' = {[ a' ]} ∪ kh_live h ∖ {[ a ]});
}.

(** ** The heap of [kmalloc.c] *)

Section instance.
Context {B : Type} `{HeapBacking B}.
Implicit Types (s : Heap B).

Definition live s : gset Z :=
  list_to_set (map (λ p, p.1 + 48) (filter (λ p, free p.2 = 0) (map_to_list (hdrs s)))).
Definition heap_wf s : Prop := ∃ bs, heap_repr s bs.

Lemma elem_of_live s bs a : heap_repr s bs → a ∈ live s ↔ ∃ b, b ∈ used bs ∧ a = payload b.
Proof.
  intros Hr. unfold live. rewrite elem_of_list_to_set, list_elem_of_In, in_map_iff. split.
  - intros ([k h] & <- & [Hf Hk]%list_elem_of_In%list_elem_of_filter). simpl in *.
    apply elem_of_map_to_list in Hk. rewrite (hr_hdrs _ _ Hr) in Hk.
    destruct (hdr_map_key _ _ _ Hk) as (b & Hb & ->). exists b. split; [|done].
    apply list_elem_of_split in Hb as (l1 & l2 & ->).
    rewrite (hdr_map_lookup _ _ _ _ (heap_repr_wf _ _ Hr)) in Hk. injection Hk as <-.
    apply elem_of_used. split; [set_solver|]. simpl in Hf. by destruct (b_free b).
  - intros (b & Hb & ->). destruct (used_split _ _ Hb) as (l1 & l2 & -> & Hf).
    exists (b_addr b, hdr_of b (last_addr 0 l1) (head_addr l2 0)). split; [done|].
    apply list_elem_of_In, list_elem_of_filter. simpl. rewrite Hf. split; [done|].
    apply elem_of_map_to_list. rewrite (hr_hdrs _ _ Hr). by apply (hdr_map_lookup _ _ _ _ (heap_repr_wf _ _ Hr)).
Qed.

(** The payload of a block determines it among the blocks in use. *)
Lemma used_payload_inj bs hi b V c :
  wf_blocks bs hi → used bs ≡ₚ b :: V → c ∈ V → payload c ≠ payload b.
Proof.
  intros Hwf Hu Hc Heq. assert (b ∈ used bs) as [Hb _]%elem_of_used by (rewrite Hu; by left).
  assert (c ∈ used bs) as [Hc' _]%elem_of_used by (rewrite Hu; by right).
  pose proof (wf_range _ _ _ Hwf Hb) as (_ & _ & ? & _). pose proof (wf_range _ _ _ Hwf Hc') as (_ & _ & ? & _).
  destruct (used_disjoint _ _ _ _ _ Hwf Hu Hc); unfold payload, b_end in *; lia.
Qed.

Lemma heap_live_pos s a : heap_wf s → a ∈ live s → 0 < a < 2 ^ 64.
Proof.
  intros [bs Hr] Ha. apply (elem_of_live _ _ _ Hr) in Ha as (b & [Hb _]%elem_of_used & ->).
  pose proof (wf_range _ _ _ (heap_repr_wf _ _ Hr) Hb) as (? & ? & ? & _). unfold payload, b_end in *. lia.
Qed.

Lemma heap_kmalloc_law s size flags :
  heap_wf s → 0 < size ≤ 2 ^ 62 →
  (∃ s', kmalloc size flags s = Panic s' ∧ cannot_grow s') ∨
  (∃ s', kmalloc size flags s = Done 0 s' ∧ heap_wf s' ∧ live s' = live s ∧ cannot_grow s') ∨
  (∃ a s', kmalloc size flags s = Done a s' ∧ heap_wf s' ∧ a ≠ 0 ∧ a ∉ live s ∧ live s' = {[ a ]} ∪ live s).
Proof.
  intros [bs Hr] Hs.
  destruct (kmalloc_lemma s bs size flags Hr Hs) as [(s' & HP & Hx)|[(s' & HD & Hr' & _ & Hx)|(s' & b & HD & bs' & Hr' & Hu & _)]].
  - left. exists s'. split; [done|by left].
  - right. left. exists s'. split_and!; [done|by exists bs| |done]. apply set_eq. intros a.
    by rewrite (elem_of_live _ _ _ Hr), (elem_of_live _ _ _ Hr').
  - right. right. exists (payload b), s'. split_and!; [done|by exists bs'| | |].
    + assert (b ∈ used bs') as [Hb _]%elem_of_used by (rewrite Hu; by left).
      pose proof (wf_range _ _ _ (heap_repr_wf _ _ Hr') Hb) as (? & ? & ? & _). unfold payload. lia.
    + intros (c & Hc & Heq)%(elem_of_live _ _ _ Hr).
      by apply (used_payload_inj _ _ _ _ _ (heap_repr_wf _ _ Hr') Hu Hc).
    + apply set_eq. intros a. rewrite elem_of_union, elem_of_singleton.
      rewrite (elem_of_live _ _ _ Hr), (elem_of_live _ _ _ Hr'). setoid_rewrite Hu. set_solver.
Qed.

Lemma heap_kfree_law s a :
  heap_wf s → a ∈ live s → ∃ s', kfree a s = Done tt s' ∧ heap_wf s' ∧ live s' = live s ∖ {[ a ]} ∧ (cannot_grow s → cannot_grow s').
Proof.
  intros [bs Hr] (b & Hb & ->)%(elem_of_live _ _ _ Hr).
  destruct (used_split _ _ Hb) as (l1 & l2 & -> & Hf).
  destruct (kfree_lemma s l1 b l2 Hr Hf) as (m & bs' & HD & Hr' & Hu & _).
  eexists. split; [exact HD|]. split; [by exists bs'|]. split; [|done].
  pose proof (used_middle l1 b l2 Hf) as Hp. rewrite <-Hu in Hp.
  apply set_eq. intros a. rewrite elem_of_difference, elem_of_singleton.
  rewrite (elem_of_live _ _ _ Hr), (elem_of_live _ _ _ Hr'). split.
  - intros (c & Hc & ->). split; [exists c; rewrite Hp; set_solver|].
    by apply (used_payload_inj _ _ _ _ _ (heap_repr_wf _ _ Hr) Hp).
  - intros [(c & Hc & ->) Hne]. exists c. rewrite Hp in Hc. apply elem_of_cons in Hc as [->|Hc]; done.
Qed.

(** The addresses in use when one block is taken from or added to the others. *)
Lemma live_split s bs b U :
  heap_repr s bs → used bs ≡ₚ b :: U →
  live s = {[ payload b ]} ∪ (list_to_set (payload <$> U)) ∧ payload b ∉ (list_to_set (payload <$> U) : gset Z).
Proof.
  intros Hr Hu. split.
  - apply set_eq. intros a. rewrite (elem_of_live _ _ _ Hr). setoid_rewrite Hu.
    rewrite elem_of_union, elem_of_singleton, elem_of_list_to_set, list_elem_of_fmap. set_solver.
  - rewrite elem_of_list_to_set, list_elem_of_fmap. intros (c & Heq & Hc).
    by apply (used_payload_inj _ _ _ _ _ (heap_repr_wf _ _ Hr) Hu Hc).
Qed.
Lemma heap_krealloc_law s a size :
  heap_wf s → a ∈ live s → 0 < size ≤ 2 ^ 61 →
  (∃ s', krealloc a size s = Panic s' ∧ cannot_grow s') ∨
  (∃ s', krealloc a size s = Done 0 s' ∧ heap_wf s' ∧ live s' = live s ∧ cannot_grow s') ∨
  (∃ a' s', krealloc a size s = Done a' s' ∧ heap_wf s' ∧ a' ≠ 0 ∧ a' ∉ live s ∖ {[ a ]} ∧
     live s' = {[ a' ]} ∪ live s ∖ {[ a ]}).
Proof.
  intros [bs Hr] (b & Hb & ->)%(elem_of_live _ _ _ Hr) Hs.
  destruct (krealloc_lemma s bs b size Hr Hb Hs)
    as [(s' & HP & Hx)|[(s' & HD & Hr' & _ & Hx)|(s' & b' & HD & bs' & U & Hr' & Hu & Hu' & _)]].
  - left. exists s'. split; [done|by left].
  - right. left. exists s'. split_and!; [done|by exists bs| |done]. apply set_eq. intros a.
    by rewrite (elem_of_live _ _ _ Hr), (elem_of_live _ _ _ Hr').
  - destruct (live_split _ _ _ _ Hr Hu) as [El Hn]. destruct (live_split _ _ _ _ Hr' Hu') as [El' Hn'].
    right. right. exists (payload b'), s'. split_and!; [done|by exists bs'| | |].
    + assert (b' ∈ used bs') as [Hb' _]%elem_of_used by (rewrite Hu'; by left).
      pose proof (wf_range _ _ _ (heap_repr_wf _ _ Hr') Hb') as (? & ? & ? & _). unfold payload. lia.
    + set_solver.
    + rewrite El, El'. set_solver.
Qed.
Lemma heap_krealloc_null size s : krealloc 0 size s = kmalloc size 0 s.
Proof. done. Qed.

#[export] Instance kmalloc_kheap : KHeap (Heap B) := {|
  kh_alloc := kmalloc;
  kh_free := kfree;
  kh_realloc := krealloc;
  kh_ok := heap_wf;
  kh_live := live;
  kh_full := cannot_grow;
  kh_live_pos := heap_live_pos;
  kh_alloc_law := heap_kmalloc_law;
  kh_free_law := heap_kfree_law;
  kh_realloc_null := heap_krealloc_null;
  kh_realloc_law := heap_krealloc_law;
|}.
End instance.
