(* ===== verification/Sched.v ===== *)
(** * Threads, the scheduler and wait queues

    [kernel/proc/thread.c], [sched.c], [waitqueue.c], the context switch of
    [kernel/arch/x86_64/context_switch.asm] and the timer handler of
    [kernel/arch/x86_64/pit.c], on one CPU.

    Thread control blocks live in a store keyed by their address; the run queue
    and every wait queue are singly linked through the field [next] of the
    blocks themselves.  A switched-out thread remembers, as the return address on its
    stack, where it will resume: in [sched_yield], in another caller of
    [sched_schedule], or at the trampoline of a new thread; the code that runs
    after a context switch is that of the thread switched to. *)
From S2P Require Import Prelude Spinlock KHeap.

(** ** Threads *)

Definition THREAD_CREATED : Z := 0.
Definition THREAD_READY : Z := 1.
Definition THREAD_RUNNING : Z := 2.
Definition THREAD_BLOCKED : Z := 3.
Definition THREAD_DEAD : Z := 4.
Definition THREAD_STOPPED : Z := 5.
Definition THREAD_STACK_SIZE : Z := 16 * 1024.
Definition SIZEOF_THREAD : Z := 112.
Definition SCHED_QUANTUM : Z := 10.

Record ThreadContext : Type := mkCtx { r15 : Z; r14 : Z; r13 : Z; r12 : Z; rbx : Z; rbp : Z; rsp : Z }.

(** Where a thread that was switched out goes on. *)
Inductive Resume : Type := InYield | InSchedule | Trampoline.

Record Thread : Type := mkThread {
  tid : Z; state : Z; context : ThreadContext; stack_base : Z; stack_size : Z;
  kernel_stack_top : Z; entry : Z; arg : Z; next : Z; resume : Resume
}.

Definition set_state (v : Z) (t : Thread) : Thread :=
  mkThread (tid t) v (context t) (stack_base t) (stack_size t) (kernel_stack_top t) (entry t) (arg t) (next t) (resume t).
Definition set_next (v : Z) (t : Thread) : Thread :=
  mkThread (tid t) (state t) (context t) (stack_base t) (stack_size t) (kernel_stack_top t) (entry t) (arg t) v (resume t).
Definition set_context (c : ThreadContext) (how : Resume) (t : Thread) : Thread :=
  mkThread (tid t) (state t) c (stack_base t) (stack_size t) (kernel_stack_top t) (entry t) (arg t) (next t) how.

Record WaitQueue : Type := mkWq { wq_lock : Spinlock; wq_head : Z; wq_tail : Z }.

(** ** State *)

Record Sched (H : Type) : Type := mkSched {
  kheap : H;
  threads : gmap Z Thread;
  queue_head : Z;
  queue_tail : Z;
  idle_thread : Z;
  sched_lock : Spinlock;
  current_thread : Z;
  next_tid : Z;
  rflags : Z;
  cpu : ThreadContext;
  tss_rsp0 : Z;
  syscall_kernel_rsp : Z;
  cpu_cr3 : Z;
  pit_ticks : Z;
  wqs : gmap Z WaitQueue;
  locks : gmap Z Spinlock;
}.
Arguments mkSched {H}.
Arguments kheap {H}.
Arguments threads {H}.
Arguments queue_head {H}.
Arguments queue_tail {H}.
Arguments idle_thread {H}.
Arguments sched_lock {H}.
Arguments current_thread {H}.
Arguments next_tid {H}.
Arguments rflags {H}.
Arguments cpu {H}.
Arguments tss_rsp0 {H}.
Arguments syscall_kernel_rsp {H}.
Arguments cpu_cr3 {H}.
Arguments pit_ticks {H}.
Arguments wqs {H}.
Arguments locks {H}.

Section sched.
Context {H : Type} `{KHeap H}.
(** [proc_get_cr3(proc_get_by_tid(tid))]: the tables of the process of a thread,
    those of the kernel if it has none ([kernel/proc/process.c]). *)
Context (cr3_of_tid : Z → Z).
Implicit Types (s : Sched H).

Definition with_heap (h : H) s : Sched H :=
  mkSched h (threads s) (queue_head s) (queue_tail s) (idle_thread s) (sched_lock s) (current_thread s)
    (next_tid s) (rflags s) (cpu s) (tss_rsp0 s) (syscall_kernel_rsp s) (cpu_cr3 s) (pit_ticks s) (wqs s) (locks s).
Definition with_threads (m : gmap Z Thread) s : Sched H :=
  mkSched (kheap s) m (queue_head s) (queue_tail s) (idle_thread s) (sched_lock s) (current_thread s)
    (next_tid s) (rflags s) (cpu s) (tss_rsp0 s) (syscall_kernel_rsp s) (cpu_cr3 s) (pit_ticks s) (wqs s) (locks s).
Definition with_queue (hd tl : Z) s : Sched H :=
  mkSched (kheap s) (threads s) hd tl (idle_thread s) (sched_lock s) (current_thread s)
    (next_tid s) (rflags s) (cpu s) (tss_rsp0 s) (syscall_kernel_rsp s) (cpu_cr3 s) (pit_ticks s) (wqs s) (locks s).
Definition with_idle (t : Z) s : Sched H :=
  mkSched (kheap s) (threads s) (queue_head s) (queue_tail s) t (sched_lock s) (current_thread s)
    (next_tid s) (rflags s) (cpu s) (tss_rsp0 s) (syscall_kernel_rsp s) (cpu_cr3 s) (pit_ticks s) (wqs s) (locks s).
Definition with_sched_lock (l : Spinlock) (f : Z) s : Sched H :=
  mkSched (kheap s) (threads s) (queue_head s) (queue_tail s) (idle_thread s) l (current_thread s)
    (next_tid s) f (cpu s) (tss_rsp0 s) (syscall_kernel_rsp s) (cpu_cr3 s) (pit_ticks s) (wqs s) (locks s).
Definition with_current (t : Z) s : Sched H :=
  mkSched (kheap s) (threads s) (queue_head s) (queue_tail s) (idle_thread s) (sched_lock s) t
    (next_tid s) (rflags s) (cpu s) (tss_rsp0 s) (syscall_kernel_rsp s) (cpu_cr3 s) (pit_ticks s) (wqs s) (locks s).
Definition with_next_tid (n : Z) s : Sched H :=
  mkSched (kheap s) (threads s) (queue_head s) (queue_tail s) (idle_thread s) (sched_lock s) (current_thread s)
    n (rflags s) (cpu s) (tss_rsp0 s) (syscall_kernel_rsp s) (cpu_cr3 s) (pit_ticks s) (wqs s) (locks s).
Definition with_rflags (f : Z) s : Sched H :=
  mkSched (kheap s) (threads s) (queue_head s) (queue_tail s) (idle_thread s) (sched_lock s) (current_thread s)
    (next_tid s) f (cpu s) (tss_rsp0 s) (syscall_kernel_rsp s) (cpu_cr3 s) (pit_ticks s) (wqs s) (locks s).
Definition with_cpu (c : ThreadContext) s : Sched H :=
  mkSched (kheap s) (threads s) (queue_head s) (queue_tail s) (idle_thread s) (sched_lock s) (current_thread s)
    (next_tid s) (rflags s) c (tss_rsp0 s) (syscall_kernel_rsp s) (cpu_cr3 s) (pit_ticks s) (wqs s) (locks s).
Definition with_kernel_stack (top : Z) s : Sched H :=
  mkSched (kheap s) (threads s) (queue_head s) (queue_tail s) (idle_thread s) (sched_lock s) (current_thread s)
    (next_tid s) (rflags s) (cpu s) top top (cpu_cr3 s) (pit_ticks s) (wqs s) (locks s).
Definition with_cr3 (r : Z) s : Sched H :=
  mkSched (kheap s) (threads s) (queue_head s) (queue_tail s) (idle_thread s) (sched_lock s) (current_thread s)
    (next_tid s) (rflags s) (cpu s) (tss_rsp0 s) (syscall_kernel_rsp s) r (pit_ticks s) (wqs s) (locks s).
Definition with_ticks (n : Z) s : Sched H :=
  mkSched (kheap s) (threads s) (queue_head s) (queue_tail s) (idle_thread s) (sched_lock s) (current_thread s)
    (next_tid s) (rflags s) (cpu s) (tss_rsp0 s) (syscall_kernel_rsp s) (cpu_cr3 s) n (wqs s) (locks s).
Definition with_wqs (m : gmap Z WaitQueue) s : Sched H :=
  mkSched (kheap s) (threads s) (queue_head s) (queue_tail s) (idle_thread s) (sched_lock s) (current_thread s)
    (next_tid s) (rflags s) (cpu s) (tss_rsp0 s) (syscall_kernel_rsp s) (cpu_cr3 s) (pit_ticks s) m (locks s).
Definition with_locks (m : gmap Z Spinlock) s : Sched H :=
  mkSched (kheap s) (threads s) (queue_head s) (queue_tail s) (idle_thread s) (sched_lock s) (current_thread s)
    (next_tid s) (rflags s) (cpu s) (tss_rsp0 s) (syscall_kernel_rsp s) (cpu_cr3 s) (pit_ticks s) (wqs s) m.

(** [t->...] and [t->field = v]. *)
Definition th (a : Z) : K (Sched H) Thread := kopt (λ s, threads s !! a).
Definition upd_th (a : Z) (f : Thread → Thread) : K (Sched H) unit :=
  kupd (λ s, t ← threads s !! a; Some (with_threads (<[a := f t]> (threads s)) s)).

(** ** The run queue *)

Definition queue_push (t : Z) : K (Sched H) unit :=
  upd_th t (set_next 0);;
  tail ← kget queue_tail;
  (if negb (tail =? 0) then upd_th tail (set_next t)
   else kmod (λ s, with_queue t (queue_tail s) s));;
  kmod (λ s, with_queue (queue_head s) t s).

Definition queue_pop : K (Sched H) Z :=
  t ← kget queue_head;
  if t =? 0 then mret 0 else
  tt' ← th t;
  kmod (λ s, with_queue (next tt') (queue_tail s) s);;
  hd ← kget queue_head;
  (if hd =? 0 then kmod (λ s, with_queue (queue_head s) 0 s) else mret tt);;
  upd_th t (set_next 0);;
  mret t.

Definition sched_add_thread (t : Z) : K (Sched H) unit :=
  upd_th t (set_state THREAD_READY);; queue_push t.

Fixpoint remove_loop (fuel : nat) (t prev cur : Z) : K (Sched H) unit :=
  match fuel with
  | O => kstuck
  | S fuel' =>
      if cur =? 0 then mret tt else
      if cur =? t then
        c ← th cur;
        (if negb (prev =? 0) then upd_th prev (set_next (next c))
         else kmod (λ s, with_queue (next c) (queue_tail s) s));;
        tail ← kget queue_tail;
        (if cur =? tail then kmod (λ s, with_queue (queue_head s) prev s) else mret tt);;
        upd_th cur (set_next 0)
      else
        c ← th cur;
        remove_loop fuel' t cur (next c)
  end.
Definition sched_remove_thread (t : Z) : K (Sched H) unit :=
  fuel ← kget (λ s, S (size (threads s)));
  hd ← kget queue_head;
  remove_loop fuel t 0 hd.

(** ** Switching *)

Definition context_switch (old new : Z) (how : Resume) : K (Sched H) unit :=
  regs ← kget cpu;
  upd_th old (set_context regs how);;
  n ← th new;
  kmod (with_cpu (context n)).

(** The result says whether another thread runs now; [how] is the return address
    the caller leaves on the stack. *)
Definition sched_schedule (how : Resume) : K (Sched H) bool :=
  old ← kget current_thread;
  next0 ← queue_pop;
  told ← th old;
  idle ← kget idle_thread;
  if (next0 =? 0) && (state told =? THREAD_RUNNING) then mret false else
  let next := if next0 =? 0 then idle else next0 in
  if next =? 0 then mret false else
  (if (state told =? THREAD_RUNNING) && negb (old =? idle) then
     upd_th old (set_state THREAD_READY);; queue_push old
   else mret tt);;
  upd_th next (set_state THREAD_RUNNING);;
  kmod (with_current next);;
  if next =? old then mret false else
  tnext ← th next;
  (if negb (kernel_stack_top tnext =? 0) then kmod (with_kernel_stack (kernel_stack_top tnext)) else mret tt);;
  told ← th old;
  let old_cr3 := cr3_of_tid (tid told) in
  let new_cr3 := cr3_of_tid (tid tnext) in
  (if negb (new_cr3 =? old_cr3) then kmod (with_cr3 new_cr3) else mret tt);;
  context_switch old next how;;
  mret true.

Definition sched_release : K (Sched H) unit :=
  kmod (λ s, let '(l, f) := spinlock_release (sched_lock s) in with_sched_lock l f s).
Definition sched_acquire : K (Sched H) unit :=
  kupd (λ s, '(l, f) ← spinlock_acquire (sched_lock s) (rflags s); Some (with_sched_lock l f s)).

(** What the thread switched to does first: the rest of its own [sched_yield], nothing, or
    the [sti] of the trampoline. *)
Definition resume_current : K (Sched H) unit :=
  cur ← kget current_thread;
  t ← th cur;
  match resume t with
  | InYield => sched_release
  | InSchedule => mret tt
  | Trampoline => kmod (λ s, with_rflags (Z.lor (rflags s) 0x200) s)
  end.

Definition sched_yield : K (Sched H) unit :=
  sched_acquire;;
  switched ← sched_schedule InYield;
  if switched : bool then resume_current else sched_release.

(** The timer interrupt; the heartbeat message is left out. *)
Definition pit_handler : K (Sched H) unit :=
  kmod (λ s, with_ticks (u64 (pit_ticks s + 1)) s);;
  ticks ← kget pit_ticks;
  if ticks mod SCHED_QUANTUM =? 0 then
    switched ← sched_schedule InSchedule;
    if switched : bool then resume_current else mret tt
  else mret tt.

Definition sched_set_idle_thread (t : Z) : K (Sched H) unit :=
  kmod (with_idle t);; upd_th t (set_state THREAD_RUNNING).

(** ** Creating and destroying threads *)

Definition zero_ctx : ThreadContext := mkCtx 0 0 0 0 0 0 0.
Definition new_thread (a : Z) (t : Thread) : K (Sched H) unit :=
  kmod (λ s, with_threads (<[a := t]> (threads s)) s).
Definition heap_alloc (size flags : Z) : K (Sched H) Z := zoom kheap with_heap (kh_alloc size flags).
Definition heap_free (a : Z) : K (Sched H) unit := zoom kheap with_heap (kh_free a).

Definition thread_init : K (Sched H) unit :=
  boot ← heap_alloc SIZEOF_THREAD 1;
  if boot =? 0 then kpanic else
  n ← kget next_tid;
  kmod (with_next_tid (u32 (n + 1)));;
  new_thread boot (mkThread n THREAD_RUNNING zero_ctx 0 0 0 0 0 0 Trampoline);;
  kmod (with_current boot).

(** The address of the block, or 0.  The stack holds the address of the
    trampoline where [ret] pops it. *)
Definition thread_create (entry arg : Z) : K (Sched H) Z :=
  t ← heap_alloc SIZEOF_THREAD 1;
  if t =? 0 then mret 0 else
  stack ← heap_alloc THREAD_STACK_SIZE 0;
  if stack =? 0 then heap_free t;; mret 0 else
  n ← kget next_tid;
  kmod (with_next_tid (u32 (n + 1)));;
  let top := u64 (stack + THREAD_STACK_SIZE) in
  new_thread t (mkThread n THREAD_READY (mkCtx 0 0 0 0 0 0 (u64 (top - 8))) stack THREAD_STACK_SIZE
    top entry arg 0 Trampoline);;
  mret t.

Definition thread_destroy (t : Z) : K (Sched H) unit :=
  if t =? 0 then mret tt else
  tt' ← th t;
  (if negb (stack_base tt' =? 0) then heap_free (stack_base tt') else mret tt);;
  heap_free t;;
  kmod (λ s, with_threads (delete t (threads s)) s).

(** ** Wait queues *)

Definition wq_of (q : Z) : K (Sched H) WaitQueue := kopt (λ s, wqs s !! q).
Definition upd_wq (q : Z) (f : WaitQueue → WaitQueue) : K (Sched H) unit :=
  kupd (λ s, w ← wqs s !! q; Some (with_wqs (<[q := f w]> (wqs s)) s)).
Definition set_wq_head (v : Z) (w : WaitQueue) : WaitQueue := mkWq (wq_lock w) v (wq_tail w).
Definition set_wq_tail (v : Z) (w : WaitQueue) : WaitQueue := mkWq (wq_lock w) (wq_head w) v.

Definition wq_init (q : Z) : K (Sched H) unit :=
  kmod (λ s, with_wqs (<[q := mkWq SPINLOCK_INIT 0 0]> (wqs s)) s).

Definition wq_acquire (q : Z) : K (Sched H) unit :=
  kupd (λ s, w ← wqs s !! q; '(l, f) ← spinlock_acquire (wq_lock w) (rflags s);
    Some (with_rflags f (with_wqs (<[q := mkWq l (wq_head w) (wq_tail w)]> (wqs s)) s))).
Definition wq_release (q : Z) : K (Sched H) unit :=
  kupd (λ s, w ← wqs s !! q;
    let '(l, f) := spinlock_release (wq_lock w) in
    Some (with_rflags f (with_wqs (<[q := mkWq l (wq_head w) (wq_tail w)]> (wqs s)) s))).

(** A spinlock at an address, such as the guard of a mutex. *)
Definition lock_acquire (l : Z) : K (Sched H) unit :=
  kupd (λ s, w ← locks s !! l; '(w', f) ← spinlock_acquire w (rflags s);
    Some (with_rflags f (with_locks (<[l := w']> (locks s)) s))).
Definition lock_release (l : Z) : K (Sched H) unit :=
  kupd (λ s, w ← locks s !! l; let '(w', f) := spinlock_release w in
    Some (with_rflags f (with_locks (<[l := w']> (locks s)) s))).

(** Appending a thread to a wait queue. *)
Definition wq_append (q t : Z) : K (Sched H) unit :=
  upd_th t (set_next 0);;
  w ← wq_of q;
  (if negb (wq_tail w =? 0) then upd_th (wq_tail w) (set_next t) else upd_wq q (set_wq_head t));;
  upd_wq q (set_wq_tail t);;
  upd_th t (set_state THREAD_BLOCKED).

Definition wq_sleep (q lock : Z) : K (Sched H) unit :=
  self ← kget current_thread;
  wq_acquire q;;
  wq_append q self;;
  wq_release q;;
  lock_release lock;;
  sched_yield.

(** Detaching the first waiter, if any, and making it runnable. *)
Definition wq_wake (q : Z) : K (Sched H) Z :=
  wq_acquire q;;
  w ← wq_of q;
  let t := wq_head w in
  if t =? 0 then wq_release q;; mret 0 else
  tt' ← th t;
  upd_wq q (set_wq_head (next tt'));;
  w ← wq_of q;
  (if wq_head w =? 0 then upd_wq q (set_wq_tail 0) else mret tt);;
  upd_th t (set_next 0);;
  sched_add_thread t;;
  wq_release q;;
  mret 1.

Fixpoint wake_all_loop (fuel : nat) (q count : Z) : K (Sched H) Z :=
  match fuel with
  | O => kstuck
  | S fuel' =>
      w ← wq_of q;
      let t := wq_head w in
      if t =? 0 then mret count else
      tt' ← th t;
      upd_wq q (set_wq_head (next tt'));;
      upd_th t (set_next 0);;
      sched_add_thread t;;
      wake_all_loop fuel' q (i32 (count + 1))
  end.
Definition wq_wake_all (q : Z) : K (Sched H) Z :=
  wq_acquire q;;
  fuel ← kget (λ s, S (size (threads s)));
  count ← wake_all_loop fuel q 0;
  upd_wq q (set_wq_tail 0);;
  wq_release q;;
  mret count.

End sched.
