(* ===== verification/SchedCorrect.v ===== *)
(** * The scheduler and the wait queues: correctness

    The linked queues of [kernel/proc/sched.c] and [waitqueue.c] represent lists
    of threads; each operation is the corresponding operation on the lists, and
    scheduling is round robin. *)
From S2P Require Import Prelude Spinlock KHeap Sched.

(** ** Linked lists of threads *)

(** The links that make up the list [l]. *)
Definition chain (m : gmap Z Thread) (l : list Z) : Prop :=
  ∀ i a, l !! i = Some a → a ≠ 0 ∧ ∃ t, m !! a = Some t ∧ next t = default 0 (l !! S i).

Definition qhead (l : list Z) : Z := default 0 (head l).
Definition qtail (l : list Z) : Z := default 0 (last l).

(** A queue with the given ends is the list [l]. *)
Definition queue_is (m : gmap Z Thread) (hd tl : Z) (l : list Z) : Prop :=
  chain m l ∧ NoDup l ∧ hd = qhead l ∧ tl = qtail l.

Lemma chain_nonzero m l a : chain m l → a ∈ l → a ≠ 0.
Proof. intros Hc [i Hi]%list_elem_of_lookup. by apply (Hc i). Qed.
Lemma chain_lookup m l a : chain m l → a ∈ l → ∃ t, m !! a = Some t.
Proof. intros Hc [i Hi]%list_elem_of_lookup. destruct (Hc i a Hi) as (_ & t & ? & _). by exists t. Qed.
Lemma qhead_zero m l : chain m l → qhead l = 0 → l = [].
Proof.
  destruct l as [|a l]; [done|]. intros Hc Hz. unfold qhead in Hz. simpl in Hz.
  by destruct (Hc 0%nat a eq_refl).
Qed.
Lemma qtail_zero m l : chain m l → qtail l = 0 → l = [].
Proof.
  destruct l as [|x l _] using rev_ind; [done|]. unfold qtail. rewrite last_snoc. simpl. intros Hc ->.
  destruct (chain_nonzero _ _ 0 Hc); [set_solver|done].
Qed.

(** Only the links of the members matter. *)
Lemma chain_ext m m' l :
  chain m l → (∀ a t, a ∈ l → m !! a = Some t → ∃ t', m' !! a = Some t' ∧ next t' = next t) → chain m' l.
Proof.
  intros Hc Hm i a Hi. destruct (Hc i a Hi) as (Hnz & t & Ht & Hn). split; [done|].
  destruct (Hm a t) as (t' & Ht' & Hn'); [by eapply list_elem_of_lookup_2|done|]. exists t'. split; [done|congruence].
Qed.
(** Updates that keep the link, or that concern another thread. *)
Lemma chain_upd m l a f t :
  chain m l → m !! a = Some t → (a ∈ l → next (f t) = next t) → chain (<[a := f t]> m) l.
Proof.
  intros Hc Ha Hf. eapply chain_ext; [done|]. intros b u Hb Hu. rewrite lookup_insert.
  case_decide; [subst|by exists u]. exists (f t). split; [done|]. rewrite Ha in Hu. injection Hu as ->. by apply Hf.
Qed.

Lemma chain_cons m a l :
  chain m (a :: l) ↔ a ≠ 0 ∧ (∃ t, m !! a = Some t ∧ next t = qhead l) ∧ chain m l.
Proof.
  split.
  - intros Hc. destruct (Hc 0%nat a eq_refl) as (? & t & ? & Hn). split_and!; [done| |].
    + exists t. split; [done|]. by destruct l.
    + intros i b Hi. by apply (Hc (S i)).
  - intros (Ha & (t & Ht & Hn) & Hc) [|i] b Hb; simpl in Hb.
    + injection Hb as <-. split; [done|]. exists t. split; [done|]. by destruct l.
    + by apply Hc.
Qed.

(** Appending at the tail. *)
Lemma chain_snoc_link m l x tl :
  chain m (l ++ [tl]) → NoDup (l ++ [tl]) → x ∉ l ++ [tl] → x ≠ 0 →
  (∃ t, m !! x = Some t ∧ next t = 0) →
  ∀ t, m !! tl = Some t → chain (<[tl := set_next x t]> m) ((l ++ [tl]) ++ [x]).
Proof.
  intros Hc Hnd Hx Hx0 (tx & Htx & Hnx) t Ht i a Hi.
  destruct (decide (i < length (l ++ [tl]))%nat) as [Hlt|Hge].
  - rewrite lookup_app_l in Hi by done. destruct (Hc i a Hi) as (Hnz & ta & Hta & Hna). split; [done|].
    destruct (decide (a = tl)) as [->|Hne].
    + exists (set_next x t). rewrite lookup_insert_eq. split; [done|]. cbn [next set_next].
      assert (i = length l) as ->.
      { apply (NoDup_lookup _ _ _ _ Hnd Hi). by apply list_lookup_middle. }
      rewrite lookup_app_r by (rewrite length_app; simpl; lia).
      rewrite length_app. simpl. by replace (S (length l) - (length l + 1))%nat with 0%nat by lia.
    + exists ta. rewrite lookup_insert_ne by done. split; [done|]. rewrite Hna.
      rewrite length_app in Hlt. simpl in Hlt.
      assert (i ≠ length l). { intros ->. apply Hne. rewrite list_lookup_middle in Hi by done. congruence. }
      rewrite (lookup_app_l (l ++ [tl]) [x]) by (rewrite length_app; simpl; lia). done.
  - rewrite lookup_app_r in Hi by lia. destruct (i - length (l ++ [tl]))%nat eqn:E; [|done].
    simpl in Hi. injection Hi as <-. split; [done|]. exists tx.
    rewrite lookup_insert_ne by set_solver. split; [done|]. rewrite Hnx.
    rewrite lookup_ge_None_2; [done|]. rewrite length_app. simpl. lia.
Qed.

(** Removing an inner or the last member. *)
Lemma chain_unlink m l1 p c l2 t :
  chain m (l1 ++ p :: c :: l2) → NoDup (l1 ++ p :: c :: l2) → m !! p = Some t →
  chain (<[p := set_next (qhead l2) t]> m) (l1 ++ p :: l2).
Proof.
  intros Hc Hnd Hp.
  assert (∀ l, chain m (l ++ p :: c :: l2) → NoDup (l ++ p :: c :: l2) →
    chain (<[p := set_next (qhead l2) t]> m) (l ++ p :: l2)) as Hgen; [|by apply Hgen].
  clear Hc Hnd l1. induction l as [|a l IH]; intros Hc Hnd; simpl in *.
  - apply chain_cons in Hc as (Hp0 & _ & Hc). apply chain_cons in Hc as (_ & _ & Hc).
    apply chain_cons. split_and!; [done| |].
    + exists (set_next (qhead l2) t). by rewrite lookup_insert_eq.
    + apply (chain_upd _ _ _ (set_next (qhead l2))); [done|done|].
      intros Hin. apply NoDup_cons in Hnd as [Hnd _]. set_solver.
  - apply chain_cons in Hc as (Ha0 & (ta & Hta & Hn) & Hc). apply NoDup_cons in Hnd as [Hna Hnd].
    apply chain_cons. split_and!; [done| |by apply IH].
    exists ta. rewrite lookup_insert_ne by set_solver. split; [done|]. rewrite Hn. by destruct l.
Qed.

Section queue.
Context {H : Type} `{KHeap H}.
Implicit Types (s : Sched H).

Definition runq s (l : list Z) : Prop := queue_is (threads s) (queue_head s) (queue_tail s) l.

Lemma th_bind {A} s a t (k : Thread → K (Sched H) A) :
  threads s !! a = Some t → (th a ≫= k) s = k t s.
Proof. intros Ha. apply bind_Done. unfold th, kopt. by rewrite Ha. Qed.
Lemma upd_th_Done s a t f :
  threads s !! a = Some t → upd_th a f s = Done tt (with_threads (<[a := f t]> (threads s)) s).
Proof. intros Ha. unfold upd_th, kupd. by rewrite Ha. Qed.
Lemma upd_th_bind {A} s a t f (k : unit → K (Sched H) A) :
  threads s !! a = Some t → (upd_th a f ≫= k) s = k tt (with_threads (<[a := f t]> (threads s)) s).
Proof. intros Ha. by apply bind_Done, upd_th_Done. Qed.

(** The state after changes to the threads and to the ends of the run queue. *)
Definition after_queue (m : gmap Z Thread) (hd tl : Z) s : Sched H := with_queue hd tl (with_threads m s).

(** [m'] differs from [m] at most in the links of the threads of [l]. *)
Definition relinked (l : list Z) (m m' : gmap Z Thread) : Prop :=
  ∀ a, (a ∉ l → m' !! a = m !! a) ∧
    ∀ t, m !! a = Some t → ∃ n, m' !! a = Some (set_next n t).

Lemma relinked_refl l m : relinked l m m.
Proof. intros a. split; [done|]. intros t Ht. exists (next t). by destruct t. Qed.
Lemma relinked_upd l m a t n :
  m !! a = Some t → a ∈ l → relinked l m (<[a := set_next n t]> m).
Proof.
  intros Ha Hl b. split.
  - intros Hb. by rewrite lookup_insert_ne by set_solver.
  - intros t' Ht'. rewrite lookup_insert. case_decide; [subst; exists n; congruence|].
    exists (next t'). rewrite Ht'. by destruct t'.
Qed.
Lemma relinked_trans l l' m1 m2 m3 :
  relinked l m1 m2 → relinked l' m2 m3 → relinked (l ++ l') m1 m3.
Proof.
  intros H1 H2 a. split.
  - intros Ha. rewrite (proj1 (H2 a)) by set_solver. apply H1. set_solver.
  - intros t Ht. destruct (proj2 (H1 a) t Ht) as (n & Hn). destruct (proj2 (H2 a) _ Hn) as (n' & Hn').
    exists n'. by rewrite Hn'.
Qed.

Lemma queue_push_spec s l x :
  runq s l → x ∉ l → x ≠ 0 → is_Some (threads s !! x) →
  ∃ m, queue_push x s = Done tt (after_queue m (qhead (l ++ [x])) x s) ∧
    queue_is m (qhead (l ++ [x])) x (l ++ [x]) ∧ relinked (l ++ [x]) (threads s) m.
Proof.
  intros (Hc & Hnd & Hhd & Htl) Hx Hx0 [tx Htx]. unfold queue_push.
  rewrite (upd_th_bind s x tx) by done. rewrite kget_bind. cbn [queue_tail with_threads].
  assert (chain (<[x := set_next 0 tx]> (threads s)) l) as Hc1 by (apply (chain_upd _ _ _ (set_next 0)); set_solver).
  assert (NoDup (l ++ [x])) as Hnd' by (apply NoDup_app; split_and!; [done|set_solver|apply NoDup_singleton]).
  assert (qtail (l ++ [x]) = x) as Hqt by (unfold qtail; by rewrite last_snoc).
  destruct l as [|tl l0 _] using rev_ind.
  - simpl in *. rewrite Htl. unfold qtail. simpl. eexists. split; [done|].
    unfold queue_is. split_and!; [|done|done|done|apply relinked_upd; [done|left]].
    apply chain_cons. split_and!; [done| |done]. eexists. by rewrite lookup_insert_eq.
  - assert (qtail (l0 ++ [tl]) = tl) as Hq by (unfold qtail; by rewrite last_snoc).
    rewrite Hq in Htl. assert (tl ≠ 0) as Htl0 by (eapply chain_nonzero; [exact Hc|set_solver]).
    rewrite Htl. destruct (Z.eqb_spec tl 0); [done|]. simpl.
    destruct (chain_lookup _ _ tl Hc1 ltac:(set_solver)) as (ttl & Httl).
    erewrite upd_th_bind by exact Httl. simpl. eexists. split; [|split].
    + unfold after_queue, with_queue, with_threads, kmod. simpl. repeat f_equal.
      rewrite Hhd. unfold qhead. by destruct l0.
    + unfold queue_is. split_and!; [|done|done|by rewrite Hqt].
      apply chain_snoc_link; try done. exists (set_next 0 tx). by rewrite lookup_insert_eq.
    + intros a. destruct (relinked_trans [x] [tl] (threads s) (<[x:=set_next 0 tx]> (threads s))
        (<[tl:=set_next x ttl]> (<[x:=set_next 0 tx]> (threads s))) (relinked_upd [x] _ _ _ 0 Htx ltac:(left))
        (relinked_upd [tl] _ _ _ x Httl ltac:(left)) a) as [Ho Hs]. split; [|done]. intros Ha. apply Ho. set_solver.
Qed.

Lemma queue_pop_empty s : runq s [] → queue_pop s = Done 0 s.
Proof. intros (_ & _ & Hhd & _). unfold queue_pop. rewrite kget_bind, Hhd. done. Qed.

Lemma queue_pop_spec s x l :
  runq s (x :: l) →
  ∃ m, queue_pop s = Done x (after_queue m (qhead l) (qtail l) s) ∧
    queue_is m (qhead l) (qtail l) l ∧ relinked [x] (threads s) m ∧
    (∀ t, threads s !! x = Some t → m !! x = Some (set_next 0 t)).
Proof.
  intros (Hc & Hnd & Hhd & Htl). apply chain_cons in Hc as (Hx0 & (t & Ht & Hn) & Hc).
  apply NoDup_cons in Hnd as [Hxl Hnd]. unfold queue_pop. rewrite kget_bind, Hhd. unfold qhead at 1 2. simpl.
  destruct (Z.eqb_spec x 0); [done|]. rewrite (th_bind s x t) by done.
  rewrite kmod_bind, kget_bind. cbn [queue_head with_queue]. rewrite Hn.
  assert (queue_tail s = if qhead l =? 0 then x else qtail l) as Htl'.
  { rewrite Htl. unfold qtail. destruct l as [|y l]; [done|].
    destruct (Z.eqb_spec (qhead (y :: l)) 0) as [Hz|Hz]; [|by rewrite last_cons_cons].
    by apply (qhead_zero _ _ Hc) in Hz. }
  exists (<[x := set_next 0 t]> (threads s)). unfold queue_is. split_and!.
  - destruct (Z.eqb_spec (qhead l) 0) as [Hz|Hz].
    + rewrite kmod_bind. erewrite upd_th_bind by exact Ht. simpl.
      apply (qhead_zero _ _ Hc) in Hz as ->. done.
    + rewrite mret_bind. erewrite upd_th_bind by exact Ht. simpl.
      unfold after_queue, with_queue, with_threads, mret, K_ret. simpl. by rewrite Htl'.
  - apply (chain_upd _ _ _ (set_next 0)); [done|done|]. by intros ?.
  - done.
  - done.
  - done.
  - apply relinked_upd; [done|left].
  - intros t' Ht'. rewrite lookup_insert_eq. congruence.
Qed.

(** ** Removal *)

Lemma chain_length m l : chain m l → NoDup l → (length l ≤ size m)%nat.
Proof.
  intros Hc Hnd. rewrite <-size_dom, <-(size_list_to_set (C:=gset Z) l Hnd). apply subseteq_size.
  intros a Ha%elem_of_list_to_set. apply elem_of_dom. destruct (chain_lookup _ _ _ Hc Ha) as (t & ->). done.
Qed.

Lemma qhead_app l1 l2 : l1 ≠ [] → qhead (l1 ++ l2) = qhead l1.
Proof. by destruct l1. Qed.
Lemma qtail_snoc l x : qtail (l ++ [x]) = x.
Proof. unfold qtail. by rewrite last_snoc. Qed.
Lemma qtail_app_cons l1 x l2 : qtail (l1 ++ x :: l2) = qtail (x :: l2).
Proof. unfold qtail. rewrite last_app. destruct (last (x :: l2)) eqn:E; [done|]. by apply last_None in E. Qed.

(** The steps of [sched_remove_thread] when it has found the thread. *)
Definition unlink (prev cur : Z) : K (Sched H) unit :=
  c ← th cur;
  (if negb (prev =? 0) then upd_th prev (set_next (next c))
   else kmod (λ s, with_queue (next c) (queue_tail s) s));;
  tail ← kget queue_tail;
  (if cur =? tail then kmod (λ s, with_queue (queue_head s) prev s) else mret tt);;
  upd_th cur (set_next 0).

Lemma chain_next m l1 c l2 :
  chain m (l1 ++ c :: l2) → ∃ t, m !! c = Some t ∧ next t = qhead l2.
Proof.
  induction l1 as [|a l1 IH]; simpl; intros Hc; apply chain_cons in Hc as (_ & Ht & Hc); [done|by apply IH].
Qed.

Lemma tail_iff l1 x l2 : NoDup (l1 ++ x :: l2) → x = qtail (l1 ++ x :: l2) ↔ l2 = [].
Proof.
  intros Hnd. rewrite qtail_app_cons. apply NoDup_app in Hnd as (_ & _ & [Hx _]%NoDup_cons).
  unfold qtail. destruct l2 as [|y l2]; [done|]. rewrite last_cons_cons. split; [|done].
  intros Heq. destruct (last (y :: l2)) as [z|] eqn:E; simpl in Heq; [|by apply last_None in E].
  apply last_Some_elem_of in E. subst. done.
Qed.

Lemma unlink_spec s l1 x l2 :
  runq s (l1 ++ x :: l2) →
  ∃ m, unlink (qtail l1) x s = Done tt (after_queue m (qhead (l1 ++ l2)) (qtail (l1 ++ l2)) s) ∧
    queue_is m (qhead (l1 ++ l2)) (qtail (l1 ++ l2)) (l1 ++ l2) ∧ relinked (l1 ++ [x]) (threads s) m.
Proof.
  intros (Hc & Hnd & Hhd & Htl). pose proof (tail_iff _ _ _ Hnd) as Hiff. rewrite <-Htl in Hiff.
  assert (NoDup (l1 ++ l2)) as Hnd' by (eapply sublist_NoDup; [exact Hnd|];
    apply sublist_app; [done|by apply sublist_cons]).
  assert (x ∉ l1 ++ l2) as Hx by (rewrite <-Permutation_middle in Hnd; by apply NoDup_cons in Hnd as [? _]).
  destruct (chain_next _ _ _ _ Hc) as (t & Ht & Hn). unfold unlink. rewrite (th_bind s x t), Hn by done.
  destruct l1 as [|p l1 _] using rev_ind; simpl in *.
  - unfold qtail at 1. simpl. rewrite kmod_bind, kget_bind. cbn [queue_tail with_queue].
    exists (<[x := set_next 0 t]> (threads s)). unfold queue_is. split_and!; try done.
    + destruct (Z.eqb_spec x (queue_tail s)) as [E|E]; [rewrite kmod_bind|rewrite mret_bind];
        erewrite upd_th_Done by exact Ht; unfold after_queue, with_queue, with_threads; simpl; repeat f_equal.
      * by apply Hiff in E as ->.
      * rewrite Htl. unfold qtail. destruct l2 as [|y l2]; [by destruct E; apply Hiff|]. by rewrite last_cons_cons.
    + apply (chain_upd _ _ _ (set_next 0)); [by apply chain_cons in Hc as (_ & _ & ?)|done|by intros ?].
    + by apply relinked_upd; [|left].
  - rewrite qtail_snoc. rewrite <-app_assoc in *. simpl in *.
    assert (p ≠ 0) as Hp0 by (eapply chain_nonzero; [exact Hc|set_solver]).
    destruct (Z.eqb_spec p 0); [done|]. simpl.
    destruct (chain_next _ _ _ _ Hc) as (tp & Htp & Hnp).
    assert (p ≠ x) as Hpx by set_solver.
    erewrite upd_th_bind by exact Htp. rewrite kget_bind. cbn [queue_tail with_threads].
    exists (<[x := set_next 0 t]> (<[p := set_next (qhead l2) tp]> (threads s))).
    assert (<[p := set_next (qhead l2) tp]> (threads s) !! x = Some t) as Ht1 by (by rewrite lookup_insert_ne).
    unfold queue_is. split_and!; try done.
    + destruct (Z.eqb_spec x (queue_tail s)) as [E|E]; [rewrite kmod_bind|rewrite mret_bind];
        erewrite upd_th_Done by exact Ht1; unfold after_queue, with_queue, with_threads; simpl; repeat f_equal.
      * rewrite Hhd. by destruct l1.
      * apply Hiff in E as ->. by rewrite qtail_snoc.
      * rewrite Hhd. by destruct l1.
      * rewrite Htl. destruct l2 as [|y l2]; [by destruct E; apply Hiff|].
        rewrite !qtail_app_cons. unfold qtail. by rewrite !last_cons_cons.
    + apply (chain_upd _ _ _ (set_next 0)); [by eapply chain_unlink|done|by intros Hin].
    + intros a. destruct (relinked_trans [p] [x] _ _ _ (relinked_upd [p] _ _ _ (qhead l2) Htp ltac:(left))
        (relinked_upd [x] _ _ _ 0 Ht1 ltac:(left)) a) as [Ho Hs]. split; [|done]. intros Ha. apply Ho. set_solver.
Qed.

Lemma remove_loop_spec fuel s l1 l2 x :
  runq s (l1 ++ l2) → x ≠ 0 → (length l2 < fuel)%nat →
  (x ∉ l2 ∧ remove_loop fuel x (qtail l1) (qhead l2) s = Done tt s) ∨
  (∃ m1 m2, l2 = m1 ++ x :: m2 ∧
    remove_loop fuel x (qtail l1) (qhead l2) s = unlink (qtail (l1 ++ m1)) x s).
Proof.
  revert l1 fuel. induction l2 as [|c l2 IH]; intros l1 [|fuel] Hq Hx0 Hf; simpl in Hf; try lia.
  { left. split; [set_solver|done]. }
  pose proof Hq as (Hc & _). cbn [remove_loop]. change (qhead (c :: l2)) with c.
  assert (c ≠ 0) as Hc0 by (eapply chain_nonzero; [exact Hc|set_solver]).
  destruct (Z.eqb_spec c 0); [done|]. destruct (Z.eqb_spec c x) as [->|Hcx].
  { right. exists [], l2. by rewrite app_nil_r. }
  destruct (chain_next _ _ _ _ Hc) as (t & Ht & Hn). rewrite (th_bind s c t), Hn by done.
  assert (runq s ((l1 ++ [c]) ++ l2)) as Hq' by (by rewrite <-app_assoc).
  pose proof (IH (l1 ++ [c]) fuel Hq' Hx0 ltac:(lia)) as Hr. rewrite qtail_snoc in Hr.
  destruct Hr as [[? Hr]|(m1 & m2 & -> & Hr)].
  - left. split; [set_solver|done].
  - right. exists (c :: m1), m2. split; [done|]. rewrite Hr. by rewrite <-app_assoc.
Qed.

Lemma sched_remove_lemma s l x :
  runq s l → x ≠ 0 →
  (x ∉ l ∧ sched_remove_thread x s = Done tt s) ∨
  (∃ l1 l2 m, l = l1 ++ x :: l2 ∧
    sched_remove_thread x s = Done tt (after_queue m (qhead (l1 ++ l2)) (qtail (l1 ++ l2)) s) ∧
    queue_is m (qhead (l1 ++ l2)) (qtail (l1 ++ l2)) (l1 ++ l2) ∧ relinked (l1 ++ [x]) (threads s) m).
Proof.
  intros Hq Hx0. pose proof Hq as (Hc & Hnd & Hhd & _). unfold sched_remove_thread. rewrite !kget_bind, Hhd.
  destruct (remove_loop_spec (S (size (threads s))) s [] l x Hq Hx0) as [?|(m1 & m2 & -> & Hr)].
  { pose proof (chain_length _ _ Hc Hnd). lia. }
  { by left. }
  right. exists m1, m2. destruct (unlink_spec s m1 x m2 Hq) as (m & Hu & ? & ?). exists m.
  change (qtail []) with 0 in Hr. change ([] ++ m1) with m1 in Hr. by rewrite Hr, Hu.
Qed.
End queue.

(** ** Scheduling *)

(** Every thread of [m] is in [m'] with [f] applied to it, up to its link. *)
Definition evolves (f : Z → Thread → Thread) (m m' : gmap Z Thread) : Prop :=
  ∀ a t, m !! a = Some t → ∃ n, m' !! a = Some (set_next n (f a t)).

Lemma evolves_relinked l m m' : relinked l m m' → evolves (λ _ t, t) m m'.
Proof. intros Hr a t Ht. by apply Hr. Qed.
Lemma evolves_trans f g m1 m2 m3 :
  evolves f m1 m2 → evolves g m2 m3 → (∀ a n t, g a (set_next n t) = set_next n (g a t)) →
  evolves (λ a t, g a (f a t)) m1 m3.
Proof.
  intros H1 H2 Hg a t Ht. destruct (H1 a t Ht) as (n & Hn). destruct (H2 a _ Hn) as (n' & Hn').
  exists n'. rewrite Hn', Hg. by destruct (g a (f a t)).
Qed.
Lemma evolves_upd m a f t :
  m !! a = Some t → evolves (λ b u, if decide (b = a) then f u else u) m (<[a := f t]> m).
Proof.
  intros Ha b u Hu. destruct (decide (b = a)) as [->|Hne].
  - rewrite lookup_insert_eq. rewrite Ha in Hu. injection Hu as ->. exists (next (f u)). by destruct (f u).
  - rewrite lookup_insert_ne by done. exists (next u). rewrite Hu. by destruct u.
Qed.
Lemma evolves_ext f g m m' : evolves f m m' → (∀ a t, m !! a = Some t → f a t = g a t) → evolves g m m'.
Proof. intros Hf Hfg a t Ht. rewrite <-Hfg by done. by apply Hf. Qed.

(** An update of a field other than the link keeps a queue. *)
Lemma queue_is_upd m hd tl l a f t :
  queue_is m hd tl l → m !! a = Some t → next (f t) = next t → queue_is (<[a := f t]> m) hd tl l.
Proof. intros (Hc & ? & ? & ?) Ha Hf. split; [by apply chain_upd|done]. Qed.

Section schedule.
Context {H : Type} `{KHeap H} (cr3_of_tid : Z → Z).
Implicit Types (s : Sched H).

(** The threads after scheduling from [c] to [n]: [c] goes back to the queue if it
    was running, [n] runs, and the registers of [c] are saved if it is switched out. *)
Definition scheduled (c n : Z) (requeue : bool) (regs : ThreadContext) (how : Resume)
    (a : Z) (t : Thread) : Thread :=
  let t := if decide (a = c) then if requeue then set_state THREAD_READY t else t else t in
  let t := if decide (a = n) then set_state THREAD_RUNNING t else t in
  if decide (a = c ∧ n ≠ c) then set_context regs how t else t.

Definition next_of (l : list Z) (idle : Z) : Z := match l with x :: _ => x | [] => idle end.

(** The outcome of [sched_schedule] on the run queue [l], from the thread [c]. *)
Definition schedule_result s (l : list Z) (c : Z) (tc : Thread) (how : Resume) (o : outcome (Sched H) bool) : Prop :=
  let running := state tc =? THREAD_RUNNING in
  let idle := idle_thread s in
  let n := next_of l idle in
  let requeue := running && negb (c =? idle) in
  if decide (l = [] ∧ (running = true ∨ idle = 0)) then o = Done false s
  else ∃ s', o = Done (negb (n =? c)) s' ∧
    runq s' (tail l ++ if requeue then [c] else []) ∧ current_thread s' = n ∧
    evolves (scheduled c n requeue (cpu s) how) (threads s) (threads s') ∧
    (∀ tn, n ≠ c → threads s !! n = Some tn → cpu s' = context tn ∧
       (kernel_stack_top tn ≠ 0 → tss_rsp0 s' = kernel_stack_top tn ∧ syscall_kernel_rsp s' = kernel_stack_top tn) ∧
       (cpu_cr3 s = cr3_of_tid (tid tc) → cpu_cr3 s' = cr3_of_tid (tid tn))) ∧
    idle_thread s' = idle ∧ sched_lock s' = sched_lock s ∧ rflags s' = rflags s ∧ wqs s' = wqs s ∧
    locks s' = locks s ∧ kheap s' = kheap s ∧ pit_ticks s' = pit_ticks s ∧ next_tid s' = next_tid s.

(** The first part: take the next thread and put the old one back. *)
Lemma pick_spec s l c tc :
  runq s l → threads s !! c = Some tc → c ≠ 0 → (state tc = THREAD_RUNNING → c ∉ l) →
  ∃ m1, queue_pop s = Done (qhead l) (after_queue m1 (qhead (tail l)) (qtail (tail l)) s) ∧
    queue_is m1 (qhead (tail l)) (qtail (tail l)) (tail l) ∧ relinked l (threads s) m1.
Proof.
  intros Hq Hc Hc0 Hrun. destruct l as [|x l].
  - exists (threads s). rewrite queue_pop_empty by done.
    destruct Hq as (Hch & Hnd & Hhd & Htl).
    split_and!; [|exact (conj Hch (conj Hnd (conj eq_refl eq_refl)))|apply relinked_refl].
    transitivity (Done 0 (after_queue (threads s) (queue_head s) (queue_tail s) s)); [by destruct s|].
    by rewrite Hhd, Htl.
  - destruct (queue_pop_spec s x l Hq) as (m & Hp & Hqm & Hrel & _). exists m. split_and!; [done|done|].
    intros a. split; [|apply Hrel]. intros Ha. apply Hrel. set_solver.
Qed.

Lemma requeue_spec s l c (b : bool) :
  runq s l → is_Some (threads s !! c) → c ≠ 0 → (b = true → c ∉ l) →
  ∃ s', (if b then upd_th c (set_state THREAD_READY);; queue_push c else mret tt) s = Done tt s' ∧
    s' = after_queue (threads s') (queue_head s') (queue_tail s') s ∧
    runq s' (l ++ if b then [c] else []) ∧
    evolves (λ a t, if decide (a = c) then if b then set_state THREAD_READY t else t else t) (threads s) (threads s').
Proof.
  intros Hq [t Ht] Hc0 Hb. destruct b.
  - erewrite upd_th_bind by exact Ht. set (s1 := with_threads _ s).
    destruct (queue_push_spec s1 l c) as (m & Hp & Hqm & Hrel).
    + by apply (queue_is_upd _ _ _ _ c (set_state THREAD_READY)).
    + by apply Hb.
    + done.
    + simpl. by rewrite lookup_insert_eq.
    + eexists. split; [exact Hp|]. split; [done|]. split; [exact Hqm|].
      eapply evolves_ext; [eapply evolves_trans; [apply (evolves_upd _ c (set_state THREAD_READY) t Ht)|
        eapply evolves_relinked; exact Hrel|done]|]. intros a u Hu. simpl. by case_decide.
  - exists s. rewrite app_nil_r. split_and!; [done|by destruct s|done|].
    intros a u Hu. exists (next u). rewrite Hu. case_decide; by destruct u.
Qed.

(** The last part: make [n] the current thread and switch to it. *)
Definition switch_to (old n : Z) (how : Resume) : K (Sched H) bool :=
  upd_th n (set_state THREAD_RUNNING);;
  kmod (with_current n);;
  if n =? old then mret false else
  tnext ← th n;
  (if negb (kernel_stack_top tnext =? 0) then kmod (with_kernel_stack (kernel_stack_top tnext)) else mret tt);;
  told ← th old;
  let old_cr3 := cr3_of_tid (tid told) in
  let new_cr3 := cr3_of_tid (tid tnext) in
  (if negb (new_cr3 =? old_cr3) then kmod (with_cr3 new_cr3) else mret tt);;
  context_switch old n how;;
  mret true.

Definition switched (c n : Z) (regs : ThreadContext) (how : Resume) (a : Z) (t : Thread) : Thread :=
  let t := if decide (a = n) then set_state THREAD_RUNNING t else t in
  if decide (a = c ∧ n ≠ c) then set_context regs how t else t.

Lemma switch_to_spec s l c n tc tn how :
  runq s l → threads s !! c = Some tc → threads s !! n = Some tn →
  ∃ s', switch_to c n how s = Done (negb (n =? c)) s' ∧ runq s' l ∧ current_thread s' = n ∧
    evolves (switched c n (cpu s) how) (threads s) (threads s') ∧
    (n ≠ c → threads s' = <[c := set_context (cpu s) how tc]> (<[n := set_state THREAD_RUNNING tn]> (threads s))) ∧
    (n ≠ c → cpu s' = context tn ∧
       (kernel_stack_top tn ≠ 0 → tss_rsp0 s' = kernel_stack_top tn ∧ syscall_kernel_rsp s' = kernel_stack_top tn) ∧
       (cpu_cr3 s = cr3_of_tid (tid tc) → cpu_cr3 s' = cr3_of_tid (tid tn))) ∧
    idle_thread s' = idle_thread s ∧ sched_lock s' = sched_lock s ∧ rflags s' = rflags s ∧ wqs s' = wqs s ∧
    locks s' = locks s ∧ kheap s' = kheap s ∧ pit_ticks s' = pit_ticks s ∧ next_tid s' = next_tid s.
Proof.
  intros Hq Hc Hn. unfold switch_to. erewrite upd_th_bind by exact Hn. rewrite kmod_bind.
  pose proof (queue_is_upd _ _ _ _ n (set_state THREAD_RUNNING) tn Hq Hn eq_refl) as Hq1.
  pose proof (evolves_upd _ n (set_state THREAD_RUNNING) tn Hn) as Hev1.
  destruct (Z.eqb_spec n c) as [->|Hne]; simpl.
  - eexists. split; [done|]. simpl. split_and!; try done.
    eapply evolves_ext; [exact Hev1|]. intros a t _. unfold switched. rewrite (decide_False (P := a = c ∧ c ≠ c)) by naive_solver.
    done.
  - set (m1 := <[n := set_state THREAD_RUNNING tn]> (threads s)) in *.
    assert (m1 !! n = Some (set_state THREAD_RUNNING tn)) as Hn1 by (unfold m1; by rewrite lookup_insert_eq).
    assert (m1 !! c = Some tc) as Hc1 by (unfold m1; by rewrite lookup_insert_ne).
    rewrite (th_bind _ n (set_state THREAD_RUNNING tn)) by done. simpl.
    set (s2 := with_current n (with_threads m1 s)).
    assert (∃ a b, (if negb (kernel_stack_top tn =? 0) then kmod (with_kernel_stack (kernel_stack_top tn)) else mret tt) s2 =
      Done tt (mkSched (kheap s) m1 (queue_head s) (queue_tail s) (idle_thread s)
        (sched_lock s) n (next_tid s) (rflags s) (cpu s) a b (cpu_cr3 s) (pit_ticks s) (wqs s) (locks s)) ∧
      (kernel_stack_top tn ≠ 0 → a = kernel_stack_top tn ∧ b = kernel_stack_top tn)) as (a & b & E3 & Hk3).
    { destruct (Z.eqb_spec (kernel_stack_top tn) 0); simpl; eexists _, _; split; done. }
    set (s3 := mkSched _ m1 _ _ _ _ _ _ _ _ a b _ _ _ _) in *. assert (threads s3 = m1) as Hm3 by done.
    kbind E3. rewrite (th_bind s3 c tc) by (by rewrite Hm3).
    assert (∃ r, (if negb (cr3_of_tid (tid tn) =? cr3_of_tid (tid tc)) then kmod (with_cr3 (cr3_of_tid (tid tn)))
      else mret tt) s3 = Done tt (with_cr3 r s3) ∧ (cpu_cr3 s = cr3_of_tid (tid tc) → r = cr3_of_tid (tid tn))) as (r & E4 & Hr).
    { destruct (Z.eqb_spec (cr3_of_tid (tid tn)) (cr3_of_tid (tid tc))) as [E|E]; simpl.
      - exists (cpu_cr3 s). split; [done|]. congruence.
      - by exists (cr3_of_tid (tid tn)). }
    kbind E4. set (s4 := with_cr3 r s3).
    set (m5 := <[c := set_context (cpu s4) how tc]> (threads s4)).
    assert (context_switch c n how s4 = Done tt (with_cpu (context tn) (with_threads m5 s4))) as E5.
    { unfold context_switch. rewrite kget_bind. erewrite upd_th_bind by exact Hc1.
      erewrite th_bind by (simpl; rewrite lookup_insert_ne by done; exact Hn1). done. }
    kbind E5. eexists. split; [done|].
    simpl. split_and!; try done.
    + apply (queue_is_upd _ _ _ _ c (set_context (cpu s) how)); [exact Hq1|done|done].
    + eapply evolves_ext; [eapply evolves_trans; [exact Hev1|apply (evolves_upd _ c (set_context (cpu s) how) tc Hc1)|]|].
      * intros a' k t. cbv beta. by destruct (decide (a' = c)).
      * intros a' t _. unfold switched. simpl. repeat case_decide; naive_solver.
Qed.

Lemma sched_schedule_lemma s l c tc how :
  runq s l → current_thread s = c → threads s !! c = Some tc → c ≠ 0 →
  (state tc = THREAD_RUNNING → c ∉ l) →
  (idle_thread s ≠ 0 → is_Some (threads s !! idle_thread s)) →
  schedule_result s l c tc how (sched_schedule cr3_of_tid how s).
Proof.
  intros Hq Hcur Hc Hc0 Hrun Hidle. unfold schedule_result, sched_schedule. rewrite kget_bind, Hcur.
  destruct (pick_spec s l c tc Hq Hc Hc0 Hrun) as (m1 & Hpop & Hq1 & Hrel1). kbind Hpop.
  destruct (proj2 (Hrel1 c) tc Hc) as (n1 & Hc1).
  set (s1 := after_queue m1 (qhead (tail l)) (qtail (tail l)) s).
  rewrite (th_bind s1 c (set_next n1 tc)) by done. rewrite kget_bind.
  change (idle_thread s1) with (idle_thread s). cbn [state set_next].
  set (running := state tc =? THREAD_RUNNING) in *. set (idle := idle_thread s) in *.
  assert (qhead l = 0 ↔ l = []) as Hz by (split; [by eapply qhead_zero, Hq|by intros ->]).
  set (n := next_of l idle). assert ((if qhead l =? 0 then idle else qhead l) = n) as ->.
  { unfold n, next_of. destruct (Z.eqb_spec (qhead l) 0) as [E|E]; [by apply Hz in E as ->|].
    destruct l; [by destruct E|done]. }
  assert (l = [] → s1 = s) as Hs1.
  { intros ->. unfold s1. rewrite queue_pop_empty in Hpop by done. by injection Hpop as ->. }
  assert (n = 0 ↔ l = [] ∧ idle = 0) as Hn0.
  { unfold n, next_of. destruct l as [|x l]; [naive_solver|]. split; [|by intros [? _]].
    intros ->. by destruct (chain_nonzero _ _ 0 (proj1 Hq)); [left|]. }
  destruct (decide (l = [] ∧ (running = true ∨ idle = 0))) as [[Hl Hor]|Hno].
  { destruct (Z.eqb_spec (qhead l) 0) as [E|E]; [|by destruct E; apply Hz]. simpl. rewrite Hs1 by done.
    destruct Hor as [->|Hi]; [done|]. destruct running; [done|].
    destruct (Z.eqb_spec n 0); [done|]. by destruct n0; apply Hn0. }
  assert ((qhead l =? 0) && running = false) as ->.
  { destruct (Z.eqb_spec (qhead l) 0) as [E|E]; [|done]. apply Hz in E. destruct running; [|done].
    destruct Hno. split; [done|by left]. }
  assert (n ≠ 0) as Hnz by naive_solver. destruct (Z.eqb_spec n 0); [done|].
  assert (is_Some (threads s !! n)) as [tn Htn].
  { unfold n, next_of. destruct l as [|x l]; [apply Hidle; naive_solver|].
    destruct (chain_lookup _ _ x (proj1 Hq) ltac:(left)) as (t & ->). done. }
  set (requeue := running && negb (c =? idle)).
  destruct (requeue_spec s1 (tail l) c requeue Hq1) as (s2 & Hrq & Hs2 & Hq2 & Hev2); [by eexists|done| |].
  { intros Hr. assert (running = true) as Hru by (by apply andb_prop in Hr as [? _]).
    intros Hin. apply (Hrun ltac:(by apply Z.eqb_eq)). destruct l; [done|]. by right. }
  kbind Hrq.
  assert (evolves (λ a t, if decide (a = c) then if requeue then set_state THREAD_READY t else t else t)
    (threads s) (threads s2)) as Hev12.
  { eapply evolves_ext; [eapply evolves_trans; [eapply evolves_relinked; exact Hrel1|exact Hev2|]|done].
    intros a k t. simpl. case_decide; [|done]. by destruct requeue. }
  clear Hev2. destruct (Hev12 n tn Htn) as (k2 & Hn2). destruct (Hev12 c tc Hc) as (k3 & Hc2).
  destruct (switch_to_spec s2 _ c n _ _ how Hq2 Hc2 Hn2) as (s' & Hsw & Hq' & Hcur' & Hev' & _ & Hn' & Hrest).
  exists s'. split; [exact Hsw|]. split; [exact Hq'|]. split; [exact Hcur'|].
  assert (cpu s2 = cpu s ∧ cpu_cr3 s2 = cpu_cr3 s) as [Hcpu Hcr3] by (by rewrite Hs2).
  rewrite Hcpu, Hcr3 in *. split; [|split].
  - eapply evolves_ext; [eapply evolves_trans; [exact Hev12|exact Hev'|]|done].
    intros a k t. unfold switched. by repeat case_decide.
  - intros tn' Hnc Htn'. rewrite Htn in Htn'. injection Htn' as <-. specialize (Hn' Hnc).
    destruct (decide (n = c)); [done|]. rewrite decide_True in Hn' by done. simpl in Hn'.
    by destruct requeue.
  - rewrite Hs2 in Hrest. exact Hrest.
Qed.

(** From a thread that is blocked to another one: nothing changes in the threads that are neither of the two and not in the queue. *)
Lemma schedule_away s l c tc tn how :
  let n := next_of l (idle_thread s) in
  runq s l → current_thread s = c → threads s !! c = Some tc → c ≠ 0 → state tc ≠ THREAD_RUNNING → c ∉ l →
  n ≠ 0 → n ≠ c → threads s !! n = Some tn →
  ∃ s' tn', sched_schedule cr3_of_tid how s = Done true s' ∧ runq s' (tail l) ∧ current_thread s' = n ∧
    cpu s' = context tn ∧ threads s' !! n = Some tn' ∧ resume tn' = resume tn ∧
    threads s' !! c = Some (set_context (cpu s) how tc) ∧
    (∀ a, a ∉ l → a ≠ n → a ≠ c → threads s' !! a = threads s !! a) ∧
    wqs s' = wqs s ∧ locks s' = locks s ∧ kheap s' = kheap s.
Proof.
  intros n Hq Hcur Hc Hc0 Hst Hnin Hn0 Hnc Hn. unfold sched_schedule. rewrite kget_bind, Hcur.
  destruct (pick_spec s l c tc Hq Hc Hc0 ltac:(done)) as (m1 & Hpop & Hq1 & Hrel). kbind Hpop.
  set (s1 := after_queue m1 (qhead (tail l)) (qtail (tail l)) s).
  assert (m1 !! c = Some tc) as Hc1 by (by rewrite (proj1 (Hrel c))).
  rewrite (th_bind s1 c tc) by done. rewrite kget_bind. change (idle_thread s1) with (idle_thread s).
  rewrite (proj2 (Z.eqb_neq (state tc) _) Hst), andb_false_r. cbn [andb].
  assert ((if qhead l =? 0 then idle_thread s else qhead l) = n) as ->.
  { unfold n, next_of. destruct (Z.eqb_spec (qhead l) 0) as [E|E]; [by rewrite (qhead_zero _ _ (proj1 Hq) E)|by destruct l]. }
  destruct (Z.eqb_spec n 0); [done|]. destruct (proj2 (Hrel n) tn Hn) as (k & Hn1).
  destruct (switch_to_spec s1 (tail l) c n tc (set_next k tn) how Hq1 Hc1 Hn1)
    as (s' & Hsw & Hq' & Hcur' & _ & Hth & Hreg & _ & _ & _ & Hwq & Hlk & Hhp & _).
  rewrite (proj2 (Z.eqb_neq _ _) Hnc) in Hsw. specialize (Hth Hnc). destruct (Hreg Hnc) as [Hcpu _].
  exists s', (set_state THREAD_RUNNING (set_next k tn)). split_and!; [exact Hsw|exact Hq'|done|by rewrite Hcpu|..|exact Hwq|exact Hlk|exact Hhp].
  - by rewrite Hth, lookup_insert_ne, lookup_insert_eq.
  - done.
  - by rewrite Hth, lookup_insert_eq.
  - intros a Ha Han Hac. rewrite Hth, !lookup_insert_ne by done. by apply Hrel.
Qed.

(** ** Round robin *)

(** The current thread [c] is running, is not the idle thread, and the run queue
    is [l]. *)
Record running s (c : Z) (l : list Z) : Prop := {
  rn_queue : runq s l;
  rn_current : current_thread s = c;
  rn_state : ∃ t, threads s !! c = Some t ∧ state t = THREAD_RUNNING;
  rn_nonzero : c ≠ 0;
  rn_notin : c ∉ l;
  rn_idle : idle_thread s ∉ c :: l;
  rn_idle_ok : idle_thread s ≠ 0 → is_Some (threads s !! idle_thread s);
}.

Lemma evolves_is_Some f m m' a : evolves f m m' → is_Some (m !! a) → is_Some (m' !! a).
Proof. intros Hev [t Ht]. destruct (Hev a t Ht) as (n & Hn). by eexists. Qed.

(** The thread at the head of the queue gets the CPU, and the one that had it
    goes to the end of the queue. *)
Lemma rotate s c x l how :
  running s c (x :: l) →
  ∃ s' t, sched_schedule cr3_of_tid how s = Done true s' ∧ running s' x (l ++ [c]) ∧
    threads s !! x = Some t ∧ cpu s' = context t ∧ idle_thread s' = idle_thread s ∧
    sched_lock s' = sched_lock s ∧ rflags s' = rflags s ∧
    (∀ a u, threads s !! a = Some u → ∃ u', threads s' !! a = Some u' ∧ (a ≠ c → resume u' = resume u)).
Proof.
  intros [Hq Hcur (tc & Htc & Hst) Hc0 Hnin Hid Hidok].
  destruct (chain_lookup _ _ x (proj1 Hq) ltac:(left)) as (tx & Htx).
  assert (x ≠ 0) as Hx0 by (eapply chain_nonzero; [apply (proj1 Hq)|left]).
  pose proof (sched_schedule_lemma s (x :: l) c tc how Hq Hcur Htc Hc0 ltac:(done) Hidok) as Hr.
  unfold schedule_result in Hr. rewrite decide_False in Hr by (intros [? _]; done). cbn [next_of] in Hr.
  rewrite Hst in Hr. replace (c =? idle_thread s) with false in Hr by (symmetry; apply Z.eqb_neq; set_solver).
  simpl in Hr. assert (x ≠ c) as Hxc by set_solver.
  replace (x =? c) with false in Hr by (symmetry; by apply Z.eqb_neq).
  destruct Hr as (s' & Hd & Hq' & Hcur' & Hev & Hn & Hid' & Hl' & Hf' & _).
  exists s', tx. split; [done|]. destruct (Hn tx Hxc Htx) as (Hcpu & _). rewrite Hid'.
  split; [|split_and!; try done].
  - split; try done; rewrite ?Hid'; try done.
    + destruct (Hev x tx Htx) as (k & Hk). eexists. split; [exact Hk|]. unfold scheduled.
      repeat case_decide; naive_solver.
    + destruct Hq as (_ & [? _]%NoDup_cons & _). set_solver.
    + set_solver.
    + intros Hz. eapply evolves_is_Some; [exact Hev|by apply Hidok].
  - intros a u Hu. destruct (Hev a u Hu) as (k & Hk). eexists. split; [exact Hk|]. intros Hac. unfold scheduled.
    rewrite (decide_False (P := a = c ∧ x ≠ c)) by naive_solver. by repeat case_decide.
Qed.

Fixpoint schedules (n : nat) (how : Resume) : K (Sched H) unit :=
  match n with
  | O => mret tt
  | S n' => sched_schedule cr3_of_tid how ≫= λ _, schedules n' how
  end.

Lemma round_robin_lemma n how s c l x :
  running s c l → l !! n = Some x →
  ∃ s', schedules (S n) how s = Done tt s' ∧ current_thread s' = x ∧
    running s' x (drop (S n) l ++ c :: take n l).
Proof.
  revert s c l. induction n as [|n IH]; intros s c l Hrun Hx.
  - destruct l as [|y l]; [done|]. injection Hx as ->.
    destruct (rotate s c x l how Hrun) as (s' & t & Hd & Hrun' & _). exists s'.
    cbn [schedules]. kbind Hd. split_and!; [done|by apply Hrun'|]. simpl. by rewrite drop_0.
  - destruct l as [|y l]; [done|]. simpl in Hx.
    destruct (rotate s c y l how Hrun) as (s1 & t & Hd & Hrun1 & _).
    destruct (IH s1 y (l ++ [c]) Hrun1) as (s' & Hs' & Hcur & Hrun').
    { rewrite lookup_app_l; [done|]. by eapply lookup_lt_Some. }
    exists s'. split_and!; [|done|].
    + cbn [schedules] in *. kbind Hd. exact Hs'.
    + apply lookup_lt_Some in Hx. rewrite drop_app_le, take_app_le, <-app_assoc in Hrun' by lia. exact Hrun'.
Qed.

(** ** The scheduler's lock *)

(** [sched_yield] to a new thread, or to one that was preempted by the timer, leaves
    the lock taken: that thread does not come back to the release in [sched_yield]. *)
Lemma yield_keeps_lock s c x l t :
  running s c (x :: l) → locked (sched_lock s) = 0 → threads s !! x = Some t → resume t ≠ InYield →
  ∃ s', sched_yield cr3_of_tid s = Done tt s' ∧ current_thread s' = x ∧ locked (sched_lock s') = 1 ∧
    sched_yield cr3_of_tid s' = Stuck.
Proof.
  intros Hrun Hl Ht Hres. unfold sched_yield at 1.
  set (s1 := with_sched_lock {| locked := 1; saved_flags := rflags s |} (cli (rflags s)) s).
  assert (sched_acquire s = Done tt s1) as Ha by (unfold sched_acquire, kupd; by rewrite spinlock_acquire_free).
  kbind Ha. assert (running s1 c (x :: l)) as Hrun1 by (destruct Hrun; by split).
  destruct (rotate s1 c x l InYield Hrun1) as (s' & t' & Hd & Hrun' & Ht' & _ & _ & Hlk & _ & Hres').
  kbind Hd. assert (locked (sched_lock s') = 1) as Hl' by (by rewrite Hlk).
  destruct (Hres' x t Ht) as (u & Hu & Hru). assert (x ≠ c) as Hxc by (destruct Hrun; set_solver).
  unfold resume_current. rewrite kget_bind, (rn_current _ _ _ Hrun'). rewrite (th_bind s' x u) by done.
  rewrite Hru by done. destruct (resume t); [done|exists s'|eexists];
    (split_and!; [reflexivity|by destruct Hrun'|exact Hl'|];
     unfold sched_yield, sched_acquire, mbind, K_bind, kupd, spinlock_acquire; simpl; by rewrite Hl').
Qed.
End schedule.
