(* ===== verification/WaitQueueCorrect.v ===== *)
(** * Wait queues: correctness

    The operations of [kernel/proc/waitqueue.c] on the lists of threads that the
    wait queue and the run queue represent. *)
From S2P Require Import Prelude Spinlock KHeap Sched SchedCorrect.

Section wait.
Context {H : Type} `{KHeap H}.
Implicit Types (s : Sched H).

(** The wait queue at [q] holds the threads [l], and its lock is free. *)
Definition waitq s (q : Z) (l : list Z) : Prop :=
  ∃ w, wqs s !! q = Some w ∧ locked (wq_lock w) = 0 ∧ queue_is (threads s) (wq_head w) (wq_tail w) l.

(** The spinlock left by an acquire and a release. *)
Definition released s : Spinlock := {| locked := 0; saved_flags := rflags s |}.
(** The state after threads, run queue and the wait queue [q] changed. *)
Definition after_wake (m : gmap Z Thread) (hd tl q whd wtl : Z) s : Sched H :=
  with_wqs (<[q := mkWq (released s) whd wtl]> (wqs s)) (after_queue m hd tl s).

Lemma wq_acquire_Done s q w :
  wqs s !! q = Some w → locked (wq_lock w) = 0 →
  wq_acquire q s = Done tt (with_rflags (cli (rflags s))
    (with_wqs (<[q := mkWq {| locked := 1; saved_flags := rflags s |} (wq_head w) (wq_tail w)]> (wqs s)) s)).
Proof.
  intros Hw Hl. unfold wq_acquire, kupd. rewrite Hw. simpl. by rewrite spinlock_acquire_free.
Qed.
Lemma wq_of_bind {A} s q w (k : WaitQueue → K (Sched H) A) :
  wqs s !! q = Some w → (wq_of q ≫= k) s = k w s.
Proof. intros Hw. apply bind_Done. unfold wq_of, kopt. by rewrite Hw. Qed.
Lemma upd_wq_bind {A} s q w f (k : unit → K (Sched H) A) :
  wqs s !! q = Some w → (upd_wq q f ≫= k) s = k tt (with_wqs (<[q := f w]> (wqs s)) s).
Proof. intros Hw. apply bind_Done. unfold upd_wq, kupd. by rewrite Hw. Qed.
Lemma wq_release_Done s q w :
  wqs s !! q = Some w →
  wq_release q s = Done tt (with_rflags (saved_flags (wq_lock w)) (with_wqs
    (<[q := mkWq {| locked := 0; saved_flags := saved_flags (wq_lock w) |} (wq_head w) (wq_tail w)]> (wqs s)) s)).
Proof. intros Hw. unfold wq_release, kupd. rewrite Hw. done. Qed.

(** A queue none of whose members is touched. *)
Lemma queue_is_relinked m m' hd tl l l' :
  queue_is m hd tl l → relinked l' m m' → (∀ a, a ∈ l → a ∉ l') → queue_is m' hd tl l.
Proof.
  intros (Hc & ? & ? & ?) Hr Hd. split; [|done]. eapply chain_ext; [done|].
  intros a t Ha Ht. exists t. rewrite (proj1 (Hr a)) by (by apply Hd). done.
Qed.

(** Making a thread runnable. *)
Lemma add_thread_spec s l x t :
  runq s l → x ∉ l → x ≠ 0 → threads s !! x = Some t →
  ∃ m, sched_add_thread x s = Done tt (after_queue m (qhead (l ++ [x])) x s) ∧
    queue_is m (qhead (l ++ [x])) x (l ++ [x]) ∧
    evolves (λ a u, if decide (a = x) then set_state THREAD_READY u else u) (threads s) m ∧
    (∀ a, a ∉ l ++ [x] → m !! a = threads s !! a).
Proof.
  intros Hq Hx Hx0 Ht. unfold sched_add_thread. erewrite upd_th_bind by exact Ht.
  destruct (queue_push_spec (with_threads (<[x := set_state THREAD_READY t]> (threads s)) s) l x) as (m & Hp & Hqm & Hr).
  - by apply (queue_is_upd _ _ _ _ x (set_state THREAD_READY)).
  - done.
  - done.
  - simpl. by rewrite lookup_insert_eq.
  - exists m. split_and!; [done|done| |].
    + eapply evolves_ext; [eapply evolves_trans; [apply (evolves_upd _ x (set_state THREAD_READY) t Ht)|
        eapply evolves_relinked; exact Hr|done]|done].
    + intros a Ha. rewrite (proj1 (Hr a)) by done. simpl. rewrite lookup_insert_ne; [done|set_solver].
Qed.

Definition woken (l : list Z) (a : Z) (t : Thread) : Thread :=
  if decide (a ∈ l) then set_state THREAD_READY t else t.

Lemma wq_wake_empty s q :
  waitq s q [] → ∃ w, wqs s !! q = Some w ∧
  wq_wake q s = Done 0 (with_wqs (<[q := mkWq (released s) 0 0]> (wqs s)) s).
Proof.
  intros (w & Hw & Hl & (_ & _ & Hhd & Htl)). exists w. split; [done|].
  unfold wq_wake. kbind (wq_acquire_Done s q w Hw Hl).
  erewrite wq_of_bind by (simpl; by rewrite lookup_insert_eq). simpl. rewrite Hhd. simpl.
  erewrite bind_Done; [|apply wq_release_Done; simpl; by rewrite lookup_insert_eq]. simpl.
  rewrite insert_insert_eq, Htl. unfold mret, K_ret. by destruct s.
Qed.

(** The common part of the two wake operations: detach the head and make it runnable. *)
Lemma detach_spec s hd tl x lw l t :
  queue_is (threads s) hd tl (x :: lw) → runq s l →
  (∀ a, a ∈ x :: lw → a ∉ l) → threads s !! x = Some t →
  let s1 := with_threads (<[x := set_next 0 t]> (threads s)) s in
  ∃ m, sched_add_thread x s1 = Done tt (after_queue m (qhead (l ++ [x])) x s) ∧
    queue_is m (qhead (l ++ [x])) x (l ++ [x]) ∧ chain m lw ∧ NoDup lw ∧
    evolves (woken [x]) (threads s) m ∧ (∀ a, a ∉ l ++ [x] → m !! a = threads s !! a).
Proof.
  intros (Hc & Hnd & Hhd & Htl) Hq Hdis Ht s1.
  apply chain_cons in Hc as (Hx0 & _ & Hc). apply NoDup_cons in Hnd as [Hxl Hnd].
  destruct (add_thread_spec s1 l x (set_next 0 t)) as (m & Ha & Hqm & Hev & Hout).
  - destruct Hq as (Hcl & ? & ? & ?). split; [|done]. apply (chain_upd _ _ _ (set_next 0)); [done|done|].
    intros Hin. by destruct (Hdis x ltac:(left)).
  - apply Hdis. left.
  - done.
  - simpl. by rewrite lookup_insert_eq.
  - exists m. split_and!; [done|done| |done| |].
    + eapply chain_ext; [done|]. intros a u Hau Hu. exists u. split; [|done].
      rewrite Hout by (pose proof (Hdis a ltac:(by right)); set_solver). simpl. rewrite lookup_insert_ne; [done|set_solver].
    + eapply evolves_ext; [eapply evolves_trans; [eapply evolves_relinked, (relinked_upd [x] _ x t 0 Ht); left|exact Hev|]|].
      * intros a k u. cbv beta. by destruct (decide (a = x)).
      * intros a u Hu. unfold woken. cbv beta. destruct (decide (a = x)), (decide (a ∈ [x])); set_solver.
    + intros a Ha'. rewrite Hout by done. simpl. rewrite lookup_insert_ne; [done|set_solver].
Qed.

(** Clearing the tail when the last waiter leaves. *)
Lemma set_tail_spec {A} s q l0 w x lw (k : unit → K (Sched H) A) :
  chain (threads s) lw → wq_tail w = qtail (x :: lw) →
  ((if qhead lw =? 0 then upd_wq q (set_wq_tail 0) else mret tt) ≫= k)
    (with_wqs (<[q := mkWq l0 (qhead lw) (wq_tail w)]> (wqs s)) (with_rflags (cli (rflags s)) s)) =
  k tt (with_wqs (<[q := mkWq l0 (qhead lw) (qtail lw)]> (wqs s)) (with_rflags (cli (rflags s)) s)).
Proof.
  intros Hcl Htl. destruct (Z.eqb_spec (qhead lw) 0) as [E|E].
  - erewrite upd_wq_bind by (simpl; by rewrite lookup_insert_eq). simpl. rewrite insert_insert_eq.
    by apply (qhead_zero _ _ Hcl) in E as ->.
  - rewrite mret_bind. do 4 f_equal. rewrite Htl. unfold qtail. destruct lw as [|y lw]; [done|].
    by rewrite last_cons_cons.
Qed.

Lemma wq_wake_lemma s q x lw l :
  waitq s q (x :: lw) → runq s l → (∀ a, a ∈ x :: lw → a ∉ l) →
  ∃ m, wq_wake q s = Done 1 (after_wake m (qhead (l ++ [x])) x q (qhead lw) (qtail lw) s) ∧
    queue_is m (qhead (l ++ [x])) x (l ++ [x]) ∧ queue_is m (qhead lw) (qtail lw) lw ∧
    evolves (woken [x]) (threads s) m ∧ (∀ a, a ∉ l ++ [x] → m !! a = threads s !! a).
Proof.
  intros (w & Hw & Hl & Hqw) Hq Hdis. pose proof Hqw as (Hc & Hnd & Hhd & Htl).
  pose proof Hc as Hc'. apply chain_cons in Hc' as (Hx0 & (t & Ht & Hn) & Hcl).
  set (sA := with_wqs (<[q := mkWq {| locked := 1; saved_flags := rflags s |} (qhead lw) (qtail lw)]> (wqs s))
    (with_rflags (cli (rflags s)) s)).
  destruct (detach_spec sA _ _ x lw l t Hqw Hq Hdis Ht) as (m & Ha & Hqm & Hcm & Hndm & Hev & Hout).
  exists m. split_and!; [|done|by split_and!|done|done].
  unfold wq_wake. kbind (wq_acquire_Done s q w Hw Hl).
  erewrite wq_of_bind by (simpl; by rewrite lookup_insert_eq). simpl. rewrite Hhd. unfold qhead at 1. simpl.
  destruct (Z.eqb_spec x 0); [done|]. rewrite (th_bind _ x t) by done. rewrite Hn.
  change (qhead (x :: lw)) with x.
  erewrite upd_wq_bind by (simpl; by rewrite lookup_insert_eq). simpl. rewrite insert_insert_eq.
  erewrite wq_of_bind by (simpl; by rewrite lookup_insert_eq). simpl.
  etransitivity; [apply (set_tail_spec s q _ w x lw _ Hcl Htl)|]. fold sA.
  erewrite upd_th_bind by exact Ht. kbind Ha.
  erewrite bind_Done; [|apply wq_release_Done; simpl; by rewrite lookup_insert_eq]. simpl.
  rewrite insert_insert_eq. done.
Qed.

(** ** Waking all *)

Lemma after_queue_twice s W W' m m' hd hd' tl tl' :
  with_wqs W (after_queue m hd tl (after_queue m' hd' tl' (with_wqs W' s))) = with_wqs W (after_queue m hd tl s).
Proof. by destruct s. Qed.

Lemma wake_all_loop_spec fuel s q lk tl lw l cnt :
  wqs s !! q = Some (mkWq lk (qhead lw) tl) → chain (threads s) lw → NoDup lw → runq s l →
  (∀ a, a ∈ lw → a ∉ l) → (length lw < fuel)%nat → 0 ≤ cnt → cnt + Z.of_nat (length lw) < 2 ^ 31 →
  ∃ m, wake_all_loop fuel q cnt s = Done (cnt + Z.of_nat (length lw))
      (with_wqs (<[q := mkWq lk 0 tl]> (wqs s)) (after_queue m (qhead (l ++ lw)) (qtail (l ++ lw)) s)) ∧
    queue_is m (qhead (l ++ lw)) (qtail (l ++ lw)) (l ++ lw) ∧
    evolves (woken lw) (threads s) m ∧ (∀ a, a ∉ l ++ lw → m !! a = threads s !! a).
Proof.
  revert fuel s l cnt. induction lw as [|x lw IH]; intros [|fuel] s l cnt Hw Hc Hnd Hq Hdis Hf Hcnt0 Hcnt1; simpl in Hf; try lia.
  - exists (threads s). cbn [wake_all_loop]. erewrite wq_of_bind by exact Hw. simpl. rewrite app_nil_r.
    pose proof Hq as (? & ? & Hhd & Htl). split_and!; [|by split_and!| |done].
    + rewrite <-Hhd, <-Htl. rewrite insert_id by exact Hw. unfold mret, K_ret. rewrite Z.add_0_r. by destruct s.
    + intros a t Ht. exists (next t). rewrite Ht. unfold woken. case_decide; [set_solver|]. by destruct t.
  - pose proof Hc as Hc'. apply chain_cons in Hc' as (Hx0 & (t & Ht & Hn) & Hcl).
    pose proof Hnd as Hnd'. apply NoDup_cons in Hnd' as [Hxl _].
    set (sA := with_wqs (<[q := mkWq lk (qhead lw) tl]> (wqs s)) s).
    destruct (detach_spec sA x (qtail (x :: lw)) x lw l t) as (m & Ha & Hqm & Hcm & Hndm & Hev & Hout);
      [by split_and!|done|done|done|].
    set (sB := after_queue m (qhead (l ++ [x])) x sA) in *.
    destruct (IH fuel sB (l ++ [x]) (cnt + 1)) as (m' & Hl & Hqm' & Hev' & Hout').
    + simpl. by rewrite lookup_insert_eq.
    + done.
    + done.
    + exact Hqm.
    + intros a Ha' [Hin|Hin]%elem_of_app; [apply (Hdis a); [by right|done]|set_solver].
    + lia.
    + lia.
    + simpl in Hcnt1. lia.
    + exists m'. rewrite <-app_assoc in Hl, Hqm'. simpl in Hl, Hqm'. split_and!; [|done| |].
      * cbn [wake_all_loop]. erewrite wq_of_bind by exact Hw. change (qhead (x :: lw)) with x. simpl.
        destruct (Z.eqb_spec x 0); [done|]. rewrite (th_bind _ x t) by done. rewrite Hn.
        erewrite upd_wq_bind by exact Hw. change (set_wq_head (qhead lw) _) with (mkWq lk (qhead lw) tl). fold sA.
        erewrite upd_th_bind by exact Ht. kbind Ha. cbn [length] in Hcnt1. unfold i32. rewrite Z.mod_small by lia.
        destruct (Z.ltb_spec (cnt + 1) (2 ^ 31)); [|lia]. rewrite Hl.
        replace (cnt + 1 + Z.of_nat (length lw)) with (cnt + Z.of_nat (length (x :: lw))) by (simpl; lia).
        change (wqs sB) with (<[q := mkWq lk (qhead lw) tl]> (wqs s)). rewrite insert_insert_eq.
        unfold sB, sA. by rewrite after_queue_twice.
      * eapply evolves_ext; [eapply evolves_trans; [exact Hev|exact Hev'|]|].
        -- intros a k u. unfold woken. by case_decide.
        -- intros a u Hu. unfold woken. repeat case_decide; try done; set_solver.
      * intros a Ha'. rewrite Hout' by set_solver. apply Hout. set_solver.
Qed.

Lemma wq_wake_all_lemma s q lw l :
  waitq s q lw → runq s l → (∀ a, a ∈ lw → a ∉ l) → Z.of_nat (length lw) < 2 ^ 31 →
  ∃ m, wq_wake_all q s = Done (Z.of_nat (length lw))
      (after_wake m (qhead (l ++ lw)) (qtail (l ++ lw)) q 0 0 s) ∧
    queue_is m (qhead (l ++ lw)) (qtail (l ++ lw)) (l ++ lw) ∧
    evolves (woken lw) (threads s) m ∧ (∀ a, a ∉ l ++ lw → m !! a = threads s !! a).
Proof.
  intros (w & Hw & Hl & (Hc & Hnd & Hhd & Htl)) Hq Hdis Hlen. unfold wq_wake_all.
  kbind (wq_acquire_Done s q w Hw Hl). rewrite kget_bind. set (s1 := with_rflags _ _).
  destruct (wake_all_loop_spec (S (size (threads s))) s1 q {| locked := 1; saved_flags := rflags s |} (wq_tail w) lw l 0)
    as (m & Hloop & Hqm & Hev & Hout); try done.
  { simpl. rewrite lookup_insert_eq. by rewrite Hhd. }
  { pose proof (chain_length _ _ Hc Hnd). lia. }
  exists m. split_and!; try done. change (threads s1) with (threads s). kbind Hloop.
  erewrite upd_wq_bind by (simpl; by rewrite lookup_insert_eq). simpl. rewrite !insert_insert_eq.
  erewrite bind_Done; [|apply wq_release_Done; simpl; by rewrite lookup_insert_eq]. simpl.
  rewrite insert_insert_eq. done.
Qed.

(** ** Going to sleep *)

Lemma wq_append_spec s q lk lw x t :
  wqs s !! q = Some (mkWq lk (qhead lw) (qtail lw)) → chain (threads s) lw → NoDup lw →
  x ∉ lw → x ≠ 0 → threads s !! x = Some t →
  ∃ m, wq_append q x s = Done tt (with_wqs (<[q := mkWq lk (qhead (lw ++ [x])) x]> (wqs s)) (with_threads m s)) ∧
    queue_is m (qhead (lw ++ [x])) x (lw ++ [x]) ∧
    evolves (λ a u, if decide (a = x) then set_state THREAD_BLOCKED u else u) (threads s) m ∧
    (∀ a, a ∉ lw ++ [x] → m !! a = threads s !! a).
Proof.
  intros Hw Hc Hnd Hx Hx0 Ht. unfold wq_append. erewrite upd_th_bind by exact Ht.
  erewrite wq_of_bind by exact Hw. cbn [wq_tail].
  assert (NoDup (lw ++ [x])) as Hnd' by (apply NoDup_app; split_and!; [done|set_solver|apply NoDup_singleton]).
  set (m1 := <[x := set_next 0 t]> (threads s)).
  assert (chain m1 lw) as Hc1 by (apply (chain_upd _ _ _ (set_next 0)); set_solver).
  assert (m1 !! x = Some (set_next 0 t)) as Hx1 by (unfold m1; by rewrite lookup_insert_eq).
  assert (relinked [x] (threads s) m1) as Hr1 by (by apply relinked_upd; [|left]).
  assert (∃ m2, (if negb (qtail lw =? 0) then upd_th (qtail lw) (set_next x) else upd_wq q (set_wq_head x))
    (with_threads m1 s) = Done tt (with_wqs (<[q := mkWq lk (qhead (lw ++ [x])) (qtail lw)]> (wqs s)) (with_threads m2 s)) ∧
    chain m2 (lw ++ [x]) ∧ relinked (lw ++ [x]) (threads s) m2) as (m2 & E2 & Hc2 & Hr2).
  { destruct lw as [|y lw0 _] using rev_ind.
    - exists m1. simpl. unfold upd_wq, kupd. simpl. rewrite Hw. simpl. split_and!; [done| |done].
      apply chain_cons. split_and!; [done| |done]. by exists (set_next 0 t).
    - rewrite qtail_snoc. assert (y ≠ 0) by (eapply chain_nonzero; [exact Hc|set_solver]).
      destruct (Z.eqb_spec y 0); [done|]. simpl.
      destruct (chain_lookup _ _ y Hc1 ltac:(set_solver)) as (ty & Hty).
      exists (<[y := set_next x ty]> m1). erewrite upd_th_Done by exact Hty. split_and!.
      + unfold with_wqs, with_threads. simpl. do 2 f_equal. symmetry. apply insert_id. rewrite Hw, qtail_snoc.
        do 2 f_equal. by destruct lw0.
      + apply chain_snoc_link; try done. by exists (set_next 0 t).
      + intros a. destruct (relinked_trans [x] [y] _ _ _ Hr1 (relinked_upd [y] _ _ _ x Hty ltac:(left)) a) as [Ho Hs].
        split; [|done]. intros Ha. apply Ho. set_solver. }
  kbind E2. erewrite upd_wq_bind by (simpl; by rewrite lookup_insert_eq). simpl. rewrite insert_insert_eq.
  destruct (proj2 (Hr2 x) t Ht) as (n & Hn). exists (<[x := set_state THREAD_BLOCKED (set_next n t)]> m2).
  split_and!.
  - erewrite upd_th_Done by exact Hn. done.
  - unfold queue_is. split_and!; [by apply (chain_upd _ _ _ (set_state THREAD_BLOCKED))|done|done|by rewrite qtail_snoc].
  - eapply evolves_ext; [eapply evolves_trans; [eapply evolves_relinked, Hr2|apply (evolves_upd _ x (set_state THREAD_BLOCKED) _ Hn)|]|done].
    intros a k u. cbv beta. by destruct (decide (a = x)).
  - intros a Ha. rewrite lookup_insert_ne by set_solver. by apply Hr2.
Qed.
(** A queue whose members have the same links. *)
Lemma queue_is_same m m' hd tl l :
  queue_is m hd tl l → (∀ a t, a ∈ l → m !! a = Some t → ∃ t', m' !! a = Some t' ∧ next t' = next t) → queue_is m' hd tl l.
Proof. intros (Hc & ? & ? & ?) Hs. split; [by eapply chain_ext|done]. Qed.
(** The thread switched to goes on. *)
Lemma resume_ok (k : Sched H) t : threads k !! current_thread k = Some t →
  ∃ k', resume_current k = Done tt k' ∧ threads k' = threads k ∧ queue_head k' = queue_head k ∧ queue_tail k' = queue_tail k ∧
    current_thread k' = current_thread k ∧ wqs k' = wqs k ∧ locks k' = locks k ∧ kheap k' = kheap k.
Proof.
  intros Et. unfold resume_current. rewrite kget_bind, (th_bind _ _ t) by done. destruct (resume t); [|by eexists..].
  unfold sched_release, kmod. eexists. split; [done|]. by destruct (spinlock_release (sched_lock k)).
Qed.

(** What a thread that goes to sleep needs: it is the current one and in no queue, its caller's lock is there and the scheduler's is
    free, and another thread, the first of the run queue or the idle thread, can run. *)
Record can_sleep s (q lock c : Z) (lw l : list Z) : Prop := {
  cs_waitq : waitq s q lw;
  cs_runq : runq s l;
  cs_current : current_thread s = c ∧ c ≠ 0 ∧ is_Some (threads s !! c);
  cs_apart : c ∉ lw ∧ c ∉ l ∧ ∀ a, a ∈ lw → a ∉ l;
  cs_lock : is_Some (locks s !! lock);
  cs_sched : locked (sched_lock s) = 0;
  cs_next : let n := next_of l (idle_thread s) in n ≠ 0 ∧ n ≠ c ∧ n ∉ lw ∧ is_Some (threads s !! n);
}.
(** The state in which it sleeps: it is blocked, at the end of the wait queue, with its registers saved; the lock of its caller
    is free, and the other thread runs. *)
Record asleep s (q lock c : Z) (lw l : list Z) (s' : Sched H) : Prop := {
  as_waitq : waitq s' q (lw ++ [c]);
  as_thread : ∃ t, threads s' !! c = Some t ∧ state t = THREAD_BLOCKED ∧ context t = cpu s;
  as_lock : ∃ w, locks s' !! lock = Some w ∧ locked w = 0;
  as_locks : ∀ k, k ≠ lock → locks s' !! k = locks s !! k;
  as_runs : current_thread s' = next_of l (idle_thread s) ∧ runq s' (tail l);
}.

Lemma enqueue_self s q lock c lw l : can_sleep s q lock c lw l →
  ∃ m w t, (∀ k : K (Sched H) unit, (wq_acquire q;; wq_append q c;; wq_release q;; lock_release lock;; k) s =
      k (with_rflags (saved_flags w) (with_locks (<[lock := {| locked := 0; saved_flags := saved_flags w |}]> (locks s))
        (with_wqs (<[q := mkWq (released s) (qhead (lw ++ [c])) c]> (wqs s)) (with_threads m s))))) ∧
    queue_is m (qhead (lw ++ [c])) c (lw ++ [c]) ∧ m !! c = Some t ∧ state t = THREAD_BLOCKED ∧
    (∀ a, a ∉ lw ++ [c] → m !! a = threads s !! a).
Proof.
  intros [(w & Hw & Hwl & Hc & Hnd & Hhd & Htl) _ (_ & Hc0 & tc & Htc) (Hnin & _) [lk Hlk] _ _].
  set (s1 := with_rflags (cli (rflags s)) (with_wqs (<[q := mkWq {| locked := 1; saved_flags := rflags s |} (wq_head w) (wq_tail w)]> (wqs s)) s)).
  destruct (wq_append_spec s1 q {| locked := 1; saved_flags := rflags s |} lw c tc) as (m & E & Hq & Hev & Hout); [|done..|].
  { unfold s1. simpl. by rewrite lookup_insert_eq, Hhd, Htl. }
  destruct (Hev c tc Htc) as (k & Hk). rewrite decide_True in Hk by done.
  exists m, lk, (set_next k (set_state THREAD_BLOCKED tc)). split_and!; [|done|done|done|exact Hout].
  intros k'. kbind (wq_acquire_Done s q w Hw Hwl). fold s1. kbind E.
  erewrite bind_Done; [|apply wq_release_Done; simpl; by rewrite lookup_insert_eq]. simpl. rewrite !insert_insert_eq.
  erewrite bind_Done; [done|]. unfold lock_release, kupd. simpl. by rewrite Hlk.
Qed.
Lemma wq_sleep_lemma cr3_of_tid s q lock c lw l : can_sleep s q lock c lw l →
  ∃ s', wq_sleep cr3_of_tid q lock s = Done tt s' ∧ asleep s q lock c lw l s'.
Proof.
  intros Hs. destruct (enqueue_self _ _ _ _ _ _ Hs) as (m & w & t & E & Hq & Ht & Hst & Hout).
  destruct Hs as [_ Hrq (Hcur & Hc0 & _) (Hnw & Hnl & Hap) _ Hsl (Hn0 & Hnc & Hnnw & tn & Htn)].
  set (n := next_of l (idle_thread s)) in *. unfold wq_sleep. rewrite kget_bind, Hcur.
  rewrite E. set (s1 := with_rflags _ _). unfold sched_yield.
  set (s2 := with_sched_lock {| locked := 1; saved_flags := rflags s1 |} (cli (rflags s1)) s1).
  assert (sched_acquire s1 = Done tt s2) as Ea by (unfold sched_acquire, kupd; by rewrite spinlock_acquire_free). kbind Ea.
  assert (∀ a, a ∈ l → m !! a = threads s !! a) as Hl by (intros a Ha; apply Hout; set_solver).
  assert (m !! n = Some tn) as Hn by (rewrite Hout; [done|set_solver]).
  destruct (schedule_away cr3_of_tid s2 l c t tn InYield) as (s3 & tn' & E3 & Hq3 & Hc3 & _ & Hn3 & _ & Ht3 & Ho3 & Hw3 & Hk3 & _);
    [eapply queue_is_same; [done|]; intros a ta Ha Hta; exists ta; split; [by rewrite Hl|done]|done|done|done|by rewrite Hst|done..|].
  kbind E3. destruct (resume_ok s3 tn') as (s' & E4 & Hth & Hh & Htl & Hcu & Hwq & Hlo & _); [by rewrite Hc3|].
  exists s'. split; [exact E4|]. split.
  - eexists. rewrite Hwq, Hw3, Hth. split; [exact (lookup_insert_eq _ _ _)|]. split; [done|]. apply (queue_is_same m); [done|].
    intros a ta [Ha| ->%list_elem_of_singleton]%elem_of_app Hta.
    + exists ta. split; [|done]. rewrite Ho3; [done|set_solver..].
    + rewrite Ht3. rewrite Ht in Hta. injection Hta as <-. by eexists.
  - exists (set_context (cpu s2) InYield t). by rewrite Hth.
  - eexists. rewrite Hlo, Hk3. split; [exact (lookup_insert_eq _ _ _)|done].
  - intros k Hk. rewrite Hlo, Hk3. simpl. by rewrite lookup_insert_ne.
  - split; [by rewrite Hcu, Hc3|]. unfold runq. by rewrite Hth, Hh, Htl.
Qed.
End wait.

(** ** All the queues together

    A thread is in at most one queue: the run queue or one of the wait queues.  Waking keeps
    it so, and moves threads from a wait queue to the end of the run queue. *)

Section queues.
Context {H : Type} `{KHeap H}.
Implicit Types (s : Sched H) (W : gmap Z (list Z)).

(** The run queue is [l] and the wait queues are [W]. *)
Record queues s (l : list Z) W : Prop := {
  qs_run : runq s l;
  qs_wait q w : W !! q = Some w → waitq s q w ∧ Z.of_nat (length w) < 2 ^ 31;
  qs_dis q w a : W !! q = Some w → a ∈ w → a ∉ l;
  qs_one q q' w w' a : W !! q = Some w → W !! q' = Some w' → a ∈ w → a ∈ w' → q = q';
}.

(** The parts of the state that waking does not touch. *)
Definition same_rest s s' : Prop :=
  kheap s' = kheap s ∧ current_thread s' = current_thread s ∧ idle_thread s' = idle_thread s ∧ locks s' = locks s ∧
  rflags s' = rflags s ∧ next_tid s' = next_tid s ∧ sched_lock s' = sched_lock s.

(** A wait queue other than the one that was woken. *)
Lemma waitq_other s m hd tl q whd wtl q' w (lr : list Z) :
  waitq s q' w → q' ≠ q → (∀ a, a ∉ lr → m !! a = threads s !! a) → (∀ a, a ∈ w → a ∉ lr) →
  waitq (after_wake m hd tl q whd wtl s) q' w.
Proof.
  intros (v & Ev & Hv & (Hc & Hn & Hhd & Htl)) Hne Hm Hd. exists v. split_and!; [cbn; by rewrite lookup_insert_ne|done|].
  split_and!; [|done..]. eapply chain_ext; [exact Hc|]. intros a t Ha Ht. exists t. split; [|done]. cbn. by rewrite Hm by (by apply Hd).
Qed.

(** The state after the threads [wk] of the queue [q] were made runnable and [rest] still sleep. *)
Lemma queues_after s l W q wk rest m whd wtl :
  queues s l W → W !! q = Some (wk ++ rest) → whd = qhead rest → wtl = qtail rest →
  queue_is m (qhead (l ++ wk)) (qtail (l ++ wk)) (l ++ wk) → queue_is m whd wtl rest →
  (∀ a, a ∉ l ++ wk → m !! a = threads s !! a) →
  queues (after_wake m (qhead (l ++ wk)) (qtail (l ++ wk)) q whd wtl s) (l ++ wk) (<[q := rest]> W).
Proof.
  intros Hq Eq -> -> Hqm Hqr Hout. destruct (qs_wait _ _ _ Hq q _ Eq) as [(v & Ev & Hv & (_ & Hnd & _)) Hlen].
  assert (∀ q' w a, q' ≠ q → W !! q' = Some w → a ∈ w → a ∉ l ++ wk) as Hother.
  { intros q' w a Hne Ew Ha [Hl|Hk]%elem_of_app; [by eapply qs_dis|]. apply Hne. eapply (qs_one _ _ _ Hq); [done|done|done|].
    apply elem_of_app. by left. }
  split.
  - done.
  - intros q' w. destruct (decide (q' = q)) as [->|Hne].
    + rewrite lookup_insert_eq. intros [= <-]. split; [|rewrite length_app in Hlen; lia].
      eexists. split; [cbn; by rewrite lookup_insert_eq|]. by split.
    + rewrite lookup_insert_ne by done. intros Ew. destruct (qs_wait _ _ _ Hq q' w Ew) as [Hw ?]. split; [|done].
      eapply waitq_other; [done|done|exact Hout|]. intros a. by apply (Hother q' w).
  - intros q' w a. destruct (decide (q' = q)) as [->|Hne].
    + rewrite lookup_insert_eq. intros [= <-] Ha [Hl|Hk]%elem_of_app.
      * eapply (qs_dis _ _ _ Hq q _ a Eq); [apply elem_of_app; by right|done].
      * apply NoDup_app in Hnd as (_ & Hd & _). by eapply Hd.
    + rewrite lookup_insert_ne by done. intros Ew Ha. by eapply Hother.
  - intros q1 q2 w1 w2 a. destruct (decide (q1 = q)) as [->|H1'], (decide (q2 = q)) as [->|H2']; [done|..];
      rewrite ?lookup_insert_eq, ?lookup_insert_ne by done; intros E1 E2 Ha1 Ha2; simplify_eq.
    + symmetry. eapply (qs_one _ _ _ Hq); [exact E2|exact Eq|done|]. apply elem_of_app. by right.
    + eapply (qs_one _ _ _ Hq); [exact E1|exact Eq|done|]. apply elem_of_app. by right.
    + by eapply (qs_one _ _ _ Hq).
Qed.

Lemma wake_all_queues s l W q w : queues s l W → W !! q = Some w →
  ∃ s', wq_wake_all q s = Done (Z.of_nat (length w)) s' ∧ queues s' (l ++ w) (<[q := []]> W) ∧ same_rest s s' ∧
    evolves (woken w) (threads s) (threads s') ∧ (∀ a, a ∉ l ++ w → threads s' !! a = threads s !! a).
Proof.
  intros Hq Eq. destruct (qs_wait _ _ _ Hq q w Eq) as [Hw Hlen].
  destruct (wq_wake_all_lemma s q w l Hw (qs_run _ _ _ Hq)) as (m & E & Hqm & Hev & Hout); [intros a; by eapply qs_dis|done|].
  eexists. split; [exact E|]. split_and!; [|done..].
  apply (queues_after s l W q w []); [done|by rewrite app_nil_r|done..| |done].
  split_and!; [by intros [|]|by constructor|done..].
Qed.

Lemma wake_queues s l W q x w : queues s l W → W !! q = Some (x :: w) →
  ∃ s', wq_wake q s = Done 1 s' ∧ queues s' (l ++ [x]) (<[q := w]> W) ∧ same_rest s s' ∧
    evolves (woken [x]) (threads s) (threads s') ∧ (∀ a, a ∉ l ++ [x] → threads s' !! a = threads s !! a).
Proof.
  intros Hq Eq. destruct (qs_wait _ _ _ Hq q _ Eq) as [Hw Hlen].
  destruct (wq_wake_lemma s q x w l Hw (qs_run _ _ _ Hq)) as (m & E & Hqm & Hqw & Hev & Hout); [intros a; by eapply qs_dis|].
  eexists. split; [exact E|]. split_and!; [|done..].
  pose proof (queues_after s l W q [x] w m (qhead w) (qtail w) Hq Eq eq_refl eq_refl) as Ha. rewrite qtail_snoc in Ha. by apply Ha.
Qed.
End queues.
