(* ===== verification/SchedTheorems.v ===== *)
(** * Scheduler and wait queues: theorems

    What [sched_schedule], [sched_remove_thread] and the wait queue operations do to the
    lists of threads that the queues represent, round-robin order, and the state of
    the scheduler's lock after a yield. *)
From S2P Require Import Prelude Spinlock PageAlloc Kmalloc KmallocCorrect KHeap Sched SchedCorrect WaitQueueCorrect.

Section theorems.
Context {H : Type} `{KHeap H}.
Context (cr3_of_tid : Z → Z).
Implicit Types (s : Sched H).

(** C4. [sched_schedule] on the run queue [l] returns.  It does nothing when nobody else can
    run; otherwise the first thread of the queue (or the idle thread) becomes the current one,
    with its saved registers, kernel stack and address space; the old thread goes to the end
    of the queue exactly when it was running and is not the idle thread, with its registers
    saved if it is switched out; and no other thread changes. *)
Theorem sched_schedule_correct s l c tc how :
  runq s l → current_thread s = c → threads s !! c = Some tc → c ≠ 0 →
  (state tc = THREAD_RUNNING → c ∉ l) →
  (idle_thread s ≠ 0 → is_Some (threads s !! idle_thread s)) →
  schedule_result cr3_of_tid s l c tc how (sched_schedule cr3_of_tid how s).
Proof. apply sched_schedule_lemma. Qed.

(** C28. Scheduling is round robin: when the current thread runs and the queue is [l], the thread
    at position [n] of the queue gets the CPU after exactly [n + 1] calls of [sched_schedule],
    so no runnable thread starves; the threads before it wait behind it in order. *)
Theorem sched_round_robin n how s c l x :
  running s c l → l !! n = Some x →
  ∃ s', schedules cr3_of_tid (S n) how s = Done tt s' ∧ current_thread s' = x ∧
    running s' x (drop (S n) l ++ c :: take n l).
Proof. apply round_robin_lemma. Qed.

(** [sched_remove_thread] takes a thread out of the run queue, wherever it is in it, keeps the
    order of the others and changes no link outside the part of the queue up to it; a thread that is
    not in the queue leaves the state unchanged. *)
Theorem sched_remove_thread_correct s l x :
  runq s l → x ≠ 0 →
  (x ∉ l ∧ sched_remove_thread x s = Done tt s) ∨
  (∃ l1 l2 m, l = l1 ++ x :: l2 ∧
    sched_remove_thread x s = Done tt (after_queue m (qhead (l1 ++ l2)) (qtail (l1 ++ l2)) s) ∧
    queue_is m (qhead (l1 ++ l2)) (qtail (l1 ++ l2)) (l1 ++ l2) ∧ relinked (l1 ++ [x]) (threads s) m).
Proof. apply sched_remove_lemma. Qed.

(** [wq_wake] moves the thread that has waited longest from the wait queue to the end of the run
    queue and makes it ready, leaves the other waiters in order, and restores the interrupt flag
    with the lock released. *)
Theorem wq_wake_correct s q x lw l :
  waitq s q (x :: lw) → runq s l → (∀ a, a ∈ x :: lw → a ∉ l) →
  ∃ m, wq_wake q s = Done 1 (after_wake m (qhead (l ++ [x])) x q (qhead lw) (qtail lw) s) ∧
    queue_is m (qhead (l ++ [x])) x (l ++ [x]) ∧ queue_is m (qhead lw) (qtail lw) lw ∧
    evolves (woken [x]) (threads s) m ∧ (∀ a, a ∉ l ++ [x] → m !! a = threads s !! a).
Proof. apply wq_wake_lemma. Qed.

(** [wq_wake_all] terminates, moves every waiter to the end of the run queue in the order in which they
    went to sleep, returns their number and leaves the wait queue empty. *)
Theorem wq_wake_all_correct s q lw l :
  waitq s q lw → runq s l → (∀ a, a ∈ lw → a ∉ l) → Z.of_nat (length lw) < 2 ^ 31 →
  ∃ m, wq_wake_all q s = Done (Z.of_nat (length lw))
      (after_wake m (qhead (l ++ lw)) (qtail (l ++ lw)) q 0 0 s) ∧
    queue_is m (qhead (l ++ lw)) (qtail (l ++ lw)) (l ++ lw) ∧
    evolves (woken lw) (threads s) m ∧ (∀ a, a ∉ l ++ lw → m !! a = threads s !! a).
Proof. apply wq_wake_all_lemma. Qed.

(** A [sched_yield] that switches to a new thread, or to one the timer interrupted, leaves the
    scheduler's lock taken, and the next [sched_yield] spins for ever with interrupts off. *)
Theorem sched_yield_leaves_lock s c x l t :
  running s c (x :: l) → locked (sched_lock s) = 0 → threads s !! x = Some t → resume t ≠ InYield →
  ∃ s', sched_yield cr3_of_tid s = Done tt s' ∧ current_thread s' = x ∧ locked (sched_lock s') = 1 ∧
    sched_yield cr3_of_tid s' = Stuck.
Proof. apply yield_keeps_lock. Qed.
End theorems.

(** ** Witnesses *)

(** Four threads: one running, one ready, two in the wait queue, and the idle thread. *)
Definition thread_example (n st nx : Z) (how : Resume) : Thread :=
  mkThread n st (mkCtx 0 0 0 0 0 0 (0x8000 + n)) 0 0 (0x9000 + n) 0 0 nx how.
Definition sched_example (l2 : Resume) : Sched (Heap Z) :=
  mkSched heap_example
    (list_to_map [(100, thread_example 1 THREAD_RUNNING 0 InYield); (200, thread_example 2 THREAD_READY 300 l2);
       (300, thread_example 3 THREAD_READY 0 InYield); (400, thread_example 4 THREAD_BLOCKED 500 InYield);
       (500, thread_example 5 THREAD_BLOCKED 0 InYield); (600, thread_example 6 THREAD_RUNNING 0 InYield)])
    200 300 600 SPINLOCK_INIT 100 7 0x202 zero_ctx 0 0 0 0
    {[ 50 := mkWq SPINLOCK_INIT 400 500 ]} ∅.
Lemma sched_example_runq h : runq (sched_example h) [200; 300].
Proof.
  split_and!; [|by repeat constructor; set_solver|done|done].
  apply chain_cons. split_and!; [done|by eexists|]. apply chain_cons. split_and!; [done|by eexists|]. by intros [|[]] ?.
Qed.
Lemma sched_example_waitq h : waitq (sched_example h) 50 [400; 500].
Proof.
  exists (mkWq SPINLOCK_INIT 400 500). split_and!; [done|done|]. split_and!; [|by repeat constructor; set_solver|done|done].
  apply chain_cons. split_and!; [done|by eexists|]. apply chain_cons. split_and!; [done|by eexists|]. by intros [|[]] ?.
Qed.
Lemma sched_example_running h : running (sched_example h) 100 [200; 300].
Proof.
  split; [apply sched_example_runq|done|by eexists|done|set_solver|set_solver|by eexists].
Qed.

Lemma sched_schedule_correct_witness :
  schedule_result (λ _, 0) (sched_example InYield) [200; 300] 100 (thread_example 1 THREAD_RUNNING 0 InYield) InYield
    (sched_schedule (λ _, 0) InYield (sched_example InYield)).
Proof. apply sched_schedule_correct; [apply sched_example_runq|done|done|done|set_solver|by eexists]. Defined.

Lemma sched_round_robin_witness :
  ∃ s', schedules (λ _, 0) 2 InSchedule (sched_example InYield) = Done tt s' ∧ current_thread s' = 300 ∧
    running s' 300 [100; 200].
Proof. apply (sched_round_robin (λ _, 0) 1 InSchedule (sched_example InYield) 100 [200; 300] 300); [apply sched_example_running|done]. Defined.

Lemma sched_remove_thread_correct_witness :
  (300 ∉ [200; 300] ∧ sched_remove_thread 300 (sched_example InYield) = Done tt (sched_example InYield)) ∨
  (∃ l1 l2 m, [200; 300] = l1 ++ 300 :: l2 ∧
    sched_remove_thread 300 (sched_example InYield) =
      Done tt (after_queue m (qhead (l1 ++ l2)) (qtail (l1 ++ l2)) (sched_example InYield)) ∧
    queue_is m (qhead (l1 ++ l2)) (qtail (l1 ++ l2)) (l1 ++ l2) ∧
    relinked (l1 ++ [300]) (threads (sched_example InYield)) m).
Proof. apply sched_remove_thread_correct; [apply sched_example_runq|done]. Defined.

Lemma wq_wake_correct_witness :
  ∃ m, wq_wake 50 (sched_example InYield) = Done 1 (after_wake m 200 400 50 500 500 (sched_example InYield)) ∧
    queue_is m 200 400 [200; 300; 400] ∧ queue_is m 500 500 [500] ∧
    evolves (woken [400]) (threads (sched_example InYield)) m ∧
    (∀ a, a ∉ [200; 300; 400] → m !! a = threads (sched_example InYield) !! a).
Proof.
  apply (wq_wake_correct (sched_example InYield) 50 400 [500] [200; 300]);
    [apply sched_example_waitq|apply sched_example_runq|set_solver].
Defined.

Lemma wq_wake_all_correct_witness :
  ∃ m, wq_wake_all 50 (sched_example InYield) = Done 2 (after_wake m 200 500 50 0 0 (sched_example InYield)) ∧
    queue_is m 200 500 [200; 300; 400; 500] ∧
    evolves (woken [400; 500]) (threads (sched_example InYield)) m ∧
    (∀ a, a ∉ [200; 300; 400; 500] → m !! a = threads (sched_example InYield) !! a).
Proof.
  apply (wq_wake_all_correct (sched_example InYield) 50 [400; 500] [200; 300]);
    [apply sched_example_waitq|apply sched_example_runq|set_solver|done].
Defined.

Lemma sched_yield_leaves_lock_witness :
  ∃ s', sched_yield (λ _, 0) (sched_example InSchedule) = Done tt s' ∧ current_thread s' = 200 ∧
    locked (sched_lock s') = 1 ∧ sched_yield (λ _, 0) s' = Stuck.
Proof.
  eapply (sched_yield_leaves_lock (λ _, 0) (sched_example InSchedule) 100 200 [300]);
    [apply sched_example_running|done|done|done].
Defined.
