(* ===== verification/Sync.v ===== *)
(** * Sleeping locks: mutex, condition variable and semaphore

    [kernel/proc/mutex.c], [condvar.c] and [semaphore.c] on one CPU, under arbitrary
    preemption.  A spinlock is held with interrupts off, so the code between the
    acquire and the release of a guard is one atomic block.  Every operation is a
    sequence of such blocks, and a thread's program counter says which is next.
    The current thread runs its next block, or the CPU goes to some other
    thread that is not blocked: by the timer between any two blocks, or in
    [sched_yield], which a blocked thread cannot leave.  Wait queues are the lists
    of threads they represent (theorems [wq_wake_correct] and
    [wq_wake_all_correct] of [SchedTheorems]).  A thread that is not blocked can always go on in the model.  In the code a
    [sched_yield] to a thread that was not itself switched out in [sched_yield] leaves the scheduler's lock taken (theorem [sched_yield_leaves_lock] of
    [SchedTheorems]), and threads that yield after that do not go on: the code has fewer runs than the model.  The theorems
    are about every state of every run, and none says that a thread gets to run. *)
From S2P Require Import Prelude.

(** ** Mutex and condition variable *)

Record Mutex : Type := mkMutex { owner : Z; waiters : list Z }.
Definition CondVar : Type := list Z.

(** Where a thread is with respect to the mutex and the condition variable. *)
Inductive Pc : Type :=
| Out          (* does not hold the mutex *)
| LockLoop     (* in [mutex_lock], about to acquire the guard and test the owner *)
| LockSleep    (* in [mutex_lock], put on the queue by [wq_sleep] *)
| Held         (* holds the mutex *)
| CvEnqueued   (* in [condvar_wait], on the queue, the mutex not yet released *)
| CvSleep.     (* in [condvar_wait], in [sched_yield] *)
#[export] Instance Pc_eq_dec : EqDecision Pc.
Proof. solve_decision. Defined.

(** [blocked] is the set of threads with state THREAD_BLOCKED. *)
Record Sync : Type := mkSync {
  mtx : Mutex; cond : CondVar; blocked : gset Z; pcs : gmap Z Pc; cur : Z
}.

Definition with_mtx (m : Mutex) (s : Sync) : Sync := mkSync m (cond s) (blocked s) (pcs s) (cur s).
Definition with_cond (c : CondVar) (s : Sync) : Sync := mkSync (mtx s) c (blocked s) (pcs s) (cur s).
Definition with_blocked (b : gset Z) (s : Sync) : Sync := mkSync (mtx s) (cond s) b (pcs s) (cur s).
Definition with_cur (t : Z) (s : Sync) : Sync := mkSync (mtx s) (cond s) (blocked s) (pcs s) t.
Definition goto (p : Pc) (s : Sync) : Sync := mkSync (mtx s) (cond s) (blocked s) (<[cur s := p]> (pcs s)) (cur s).

Definition mutex_init : Mutex := mkMutex 0 [].
Definition condvar_init : CondVar := [].

(** [wq_wake]: the first waiter becomes runnable. *)
Definition wake (q : list Z) (b : gset Z) : list Z * gset Z :=
  match q with [] => ([], b) | x :: q' => (q', b ∖ {[ x ]}) end.

(** One pass of the loop of [mutex_lock], up to [wq_sleep] or to the return. *)
Definition mutex_lock (s : Sync) : Sync :=
  if negb (owner (mtx s) =? 0) then
    goto LockSleep (with_blocked ({[ cur s ]} ∪ blocked s)
      (with_mtx (mkMutex (owner (mtx s)) (waiters (mtx s) ++ [cur s])) s))
  else goto Held (with_mtx (mkMutex (cur s) (waiters (mtx s))) s).

Definition mutex_unlock (s : Sync) : Sync :=
  let '(q, b) := wake (waiters (mtx s)) (blocked s) in
  with_blocked b (with_mtx (mkMutex 0 q) s).

Definition mutex_trylock (s : Sync) : Z * Sync :=
  if negb (owner (mtx s) =? 0) then (-1, s)
  else (0, goto Held (with_mtx (mkMutex (cur s) (waiters (mtx s))) s)).

(** [condvar_wait], its first block: on the queue and blocked, the mutex still held. *)
Definition condvar_enqueue (s : Sync) : Sync :=
  goto CvEnqueued (with_blocked ({[ cur s ]} ∪ blocked s) (with_cond (cond s ++ [cur s]) s)).

Definition condvar_signal (s : Sync) : Sync :=
  let '(q, b) := wake (cond s) (blocked s) in with_blocked b (with_cond q s).

Definition condvar_broadcast (s : Sync) : Sync :=
  with_blocked (blocked s ∖ list_to_set (cond s)) (with_cond [] s).

(** What a thread may do next. *)
Inductive Op : Type :=
| Lock | TryLock | Unlock | Signal | Broadcast | Wait
| Continue.    (* the next block of the operation the thread is in *)

(** A client calls [mutex_lock] and [mutex_trylock] when it does not hold the mutex,
    [mutex_unlock] and [condvar_wait] when it does.  The blocks inside an
    operation follow the code; a blocked thread does not leave [sched_yield]. *)
Definition exec (o : Op) (s : Sync) : option Sync :=
  match o, pcs s !! cur s with
  | Lock, Some Out => Some (mutex_lock s)
  | TryLock, Some Out => Some (mutex_trylock s).2
  | Unlock, Some Held => Some (goto Out (mutex_unlock s))
  | Wait, Some Held => Some (condvar_enqueue s)
  | Signal, Some (Out | Held) => Some (condvar_signal s)
  | Broadcast, Some (Out | Held) => Some (condvar_broadcast s)
  | Continue, Some LockLoop => Some (mutex_lock s)
  | Continue, Some LockSleep => if decide (cur s ∈ blocked s) then None else Some (goto LockLoop s)
  | Continue, Some CvEnqueued => Some (goto CvSleep (mutex_unlock s))
  | Continue, Some CvSleep => if decide (cur s ∈ blocked s) then None else Some (goto LockLoop s)
  | _, _ => None
  end.

Inductive step : Sync → Sync → Prop :=
| step_block o s s' : exec o s = Some s' → step s s'
| step_switch t s : t ∈ dom (pcs s) → t ∉ blocked s → step s (with_cur t s).

(** The threads [ts], none of them in an operation. *)
Definition sync_init (ts : gset Z) (t : Z) : Sync :=
  mkSync mutex_init condvar_init ∅ (gset_to_gmap Out ts) t.

(** ** Semaphore *)

Inductive SemPc : Type := SemOut | SemLoop | SemSleep.
#[export] Instance SemPc_eq_dec : EqDecision SemPc.
Proof. solve_decision. Defined.

Record Semaphore : Type := mkSem { count : Z; sem_waiters : list Z }.
Record SemState : Type := mkSemState {
  sem : Semaphore; sem_blocked : gset Z; sem_pcs : gmap Z SemPc; sem_cur : Z
}.
Definition sem_init (n : Z) : Semaphore := mkSem n [].
Definition sem_goto (p : SemPc) (s : SemState) : SemState :=
  mkSemState (sem s) (sem_blocked s) (<[sem_cur s := p]> (sem_pcs s)) (sem_cur s).
Definition with_sem (c : Z) (q : list Z) (b : gset Z) (s : SemState) : SemState :=
  mkSemState (mkSem c q) b (sem_pcs s) (sem_cur s).

(** Tokens taken from the semaphore by a block, negative when one was added. *)
Definition tokens := Z.

(** One pass of the loop of [sem_wait]. *)
Definition sem_wait (s : SemState) : tokens * SemState :=
  if count (sem s) <=? 0 then
    (0, sem_goto SemSleep (with_sem (count (sem s)) (sem_waiters (sem s) ++ [sem_cur s])
          ({[ sem_cur s ]} ∪ sem_blocked s) s))
  else (1, sem_goto SemOut (with_sem (count (sem s) - 1) (sem_waiters (sem s)) (sem_blocked s) s)).

(** Incrementing the greatest [int32_t] is undefined. *)
Definition sem_post (s : SemState) : option (tokens * SemState) :=
  if count (sem s) =? 2 ^ 31 - 1 then None else
  let '(q, b) := wake (sem_waiters (sem s)) (sem_blocked s) in
  Some (-1, with_sem (count (sem s) + 1) q b s).

Definition sem_trywait (s : SemState) : Z * (tokens * SemState) :=
  if count (sem s) <=? 0 then (-1, (0, s))
  else (0, (1, with_sem (count (sem s) - 1) (sem_waiters (sem s)) (sem_blocked s) s)).

Definition sem_getvalue (s : SemState) : Z := count (sem s).

Inductive SemOp : Type := SemWait | SemPost | SemTryWait | SemContinue.
Definition sem_exec (o : SemOp) (s : SemState) : option (tokens * SemState) :=
  match o, sem_pcs s !! sem_cur s with
  | SemWait, Some SemOut => Some (sem_wait s)
  | SemPost, Some SemOut => sem_post s
  | SemTryWait, Some SemOut => Some (sem_trywait s).2
  | SemContinue, Some SemLoop => Some (sem_wait s)
  | SemContinue, Some SemSleep =>
      if decide (sem_cur s ∈ sem_blocked s) then None else Some (0, sem_goto SemLoop s)
  | _, _ => None
  end.

(** [sem_steps k s s']: a run from [s] to [s'] in which [k] tokens were taken on balance. *)
Inductive sem_steps : Z → SemState → SemState → Prop :=
| sem_steps_refl s : sem_steps 0 s s
| sem_steps_block k o s s1 d s2 : sem_steps k s s1 → sem_exec o s1 = Some (d, s2) → sem_steps (k + d) s s2
| sem_steps_switch k t s s1 : sem_steps k s s1 → t ∈ dom (sem_pcs s1) → t ∉ sem_blocked s1 →
    sem_steps k s (mkSemState (sem s1) (sem_blocked s1) (sem_pcs s1) t).

Definition sem_start (n : Z) (ts : gset Z) (t : Z) : SemState :=
  mkSemState (sem_init n) ∅ (gset_to_gmap SemOut ts) t.

(** ** The mutex invariant *)

(** A thread that will test the owner again without being woken. *)
Definition contender (s : Sync) (t : Z) : Prop :=
  pcs s !! t = Some LockLoop ∨ (pcs s !! t = Some LockSleep ∧ t ∉ blocked s).

Record sync_ok (s : Sync) : Prop := {
  so_null : pcs s !! 0 = None;
  so_held t : pcs s !! t = Some Held ∨ pcs s !! t = Some CvEnqueued ↔ owner (mtx s) = t ∧ t ≠ 0;
  so_mwait t : t ∈ waiters (mtx s) ↔ pcs s !! t = Some LockSleep ∧ t ∈ blocked s;
  so_cwait t : t ∈ cond s ↔ (pcs s !! t = Some CvEnqueued ∨ pcs s !! t = Some CvSleep) ∧ t ∈ blocked s;
  so_blocked t : t ∈ blocked s → t ∈ waiters (mtx s) ∨ t ∈ cond s;
  so_mnodup : NoDup (waiters (mtx s));
  so_cnodup : NoDup (cond s);
  so_progress : owner (mtx s) = 0 → waiters (mtx s) ≠ [] → ∃ t, contender s t;
}.

Lemma sync_init_ok ts t : 0 ∉ ts → sync_ok (sync_init ts t).
Proof.
  intros H0. assert (∀ x p, p ≠ Out → gset_to_gmap Out ts !! x ≠ Some p) as Hp.
  { intros x p Hp [_ E]%lookup_gset_to_gmap_Some. congruence. }
  split; simpl; try (set_solver + || constructor).
  - by apply lookup_gset_to_gmap_None.
  - intros [E|E]; by apply Hp in E.
  - by intros [<- ?].
Qed.

(** Facts of the current thread at a program counter. *)
Lemma so_free s t p : sync_ok s → pcs s !! t = Some p → p = Out ∨ p = LockLoop ∨ p = Held → t ∉ blocked s.
Proof.
  intros Hok Hp Hq Hb. destruct (so_blocked s Hok t Hb) as [Hw|Hw].
  - apply (so_mwait s Hok) in Hw as [? _]. naive_solver.
  - apply (so_cwait s Hok) in Hw as [? _]. naive_solver.
Qed.
Lemma so_owner s t p : sync_ok s → pcs s !! t = Some p → p = Held ∨ p = CvEnqueued → owner (mtx s) = t ∧ t ≠ 0.
Proof. intros Hok Hp Hq. apply (so_held s Hok). naive_solver. Qed.
Lemma so_not_owner s t p : sync_ok s → pcs s !! t = Some p → p ≠ Held → p ≠ CvEnqueued → owner (mtx s) ≠ t.
Proof.
  intros Hok Hp H1 H2 Ho. assert (t ≠ 0) by (intros ->; by rewrite (so_null s Hok) in Hp).
  destruct (proj2 (so_held s Hok t) (conj Ho H)); naive_solver.
Qed.

(** Case analysis on a map updated at the current thread. *)
Ltac at_cur := repeat match goal with
  | |- context [<[_ := _]> _ !! _] => rewrite lookup_insert; case_decide; subst
  | H : context [<[_ := _]> _ !! _] |- _ => rewrite lookup_insert in H; case_decide; subst
  end.

(** Taking the mutex. *)
Lemma take_ok s p :
  sync_ok s → pcs s !! cur s = Some p → p = Out ∨ p = LockLoop → owner (mtx s) = 0 →
  sync_ok (goto Held (with_mtx (mkMutex (cur s) (waiters (mtx s))) s)).
Proof.
  intros Hok Hp Hq Ho. assert (cur s ∉ blocked s) as Hb by (eapply so_free; naive_solver).
  assert (cur s ≠ 0) as H0 by (intros E; rewrite E, (so_null s Hok) in Hp; done).
  destruct Hok as [N Hh Hm Hc Hbl Nm Nc Hpr]. split; simpl; try done.
  - by rewrite lookup_insert_ne.
  - intros t. at_cur; [naive_solver|]. rewrite Hh. naive_solver.
  - intros t. rewrite Hm. at_cur; naive_solver.
  - intros t. rewrite Hc. at_cur; naive_solver.
Qed.
Lemma sleep_ok s p :
  sync_ok s → pcs s !! cur s = Some p → p = Out ∨ p = LockLoop → owner (mtx s) ≠ 0 →
  sync_ok (goto LockSleep (with_blocked ({[ cur s ]} ∪ blocked s)
    (with_mtx (mkMutex (owner (mtx s)) (waiters (mtx s) ++ [cur s])) s))).
Proof.
  intros Hok Hp Hq Ho. assert (cur s ∉ blocked s) as Hb by (eapply so_free; naive_solver).
  assert (cur s ≠ 0) as H0 by (intros E; rewrite E, (so_null s Hok) in Hp; done).
  assert (owner (mtx s) ≠ cur s) as Hne by (eapply so_not_owner; naive_solver).
  destruct Hok as [N Hh Hm Hc Hbl Nm Nc Hpr]. split; simpl; try done.
  - by rewrite lookup_insert_ne.
  - intros t. at_cur; [naive_solver|]. by rewrite Hh.
  - intros t. rewrite elem_of_app, list_elem_of_singleton, Hm. at_cur; set_solver.
  - intros t. rewrite Hc. at_cur; set_solver.
  - intros t. specialize (Hbl t). clear - Hbl. set_solver.
  - apply NoDup_app. split_and!; [done| |apply NoDup_singleton]. intros t Ht ->%list_elem_of_singleton.
    apply Hm in Ht. naive_solver.
Qed.
Lemma mutex_lock_ok s p :
  sync_ok s → pcs s !! cur s = Some p → p = Out ∨ p = LockLoop → sync_ok (mutex_lock s).
Proof.
  intros Hok Hp Hq. unfold mutex_lock. destruct (Z.eqb_spec (owner (mtx s)) 0); simpl.
  - by eapply take_ok.
  - by eapply sleep_ok.
Qed.

(** Releasing the mutex: the thread goes on at [p']. *)
Lemma unlock_ok s p p' :
  sync_ok s → pcs s !! cur s = Some p → (p = Held ∧ p' = Out) ∨ (p = CvEnqueued ∧ p' = CvSleep) →
  sync_ok (goto p' (mutex_unlock s)).
Proof.
  intros Hok Hp Hq. destruct (so_owner s (cur s) p Hok Hp ltac:(naive_solver)) as [Ho H0].
  destruct Hok as [N Hh Hm Hc Hbl Nm Nc Hpr].
  assert (∀ t, pcs s !! t = Some Held ∨ pcs s !! t = Some CvEnqueued → t = cur s) as Hu by (intros t [? _]%Hh; congruence).
  unfold mutex_unlock. destruct (waiters (mtx s)) as [|x q] eqn:Eq; simpl.
  - split; simpl; try done.
    + by rewrite lookup_insert_ne.
    + intros t. specialize (Hu t). clear - Hu Hq Hp H0. at_cur; naive_solver.
    + intros t. rewrite Hm. clear - Hq Hp. at_cur; naive_solver.
    + intros t. rewrite Hc. clear - Hq Hp. at_cur; naive_solver.
  - assert (pcs s !! x = Some LockSleep ∧ x ∈ blocked s) as [Hx Hxb] by (apply Hm; left).
    apply NoDup_cons in Nm as [Hxq Nq]. assert (x ≠ cur s) as Hxc by (clear - Hx Hp Hq; naive_solver).
    split; simpl; try done.
    + by rewrite lookup_insert_ne.
    + intros t. specialize (Hu t). clear - Hu Hq Hp H0. at_cur; naive_solver.
    + intros t. specialize (Hm t). clear - Hm Hq Hp Hxq Hxc. rewrite elem_of_cons in Hm. rewrite elem_of_difference, elem_of_singleton.
      at_cur; naive_solver.
    + intros t. rewrite Hc. rewrite elem_of_difference, elem_of_singleton. clear - Hq Hp Hx Hxc. at_cur; naive_solver.
    + intros t [Ht Hne]%elem_of_difference. destruct (Hbl t Ht); set_solver.
    + intros _ _. exists x. right. simpl. rewrite lookup_insert_ne by done. set_solver.
Qed.

Lemma enqueue_ok s : sync_ok s → pcs s !! cur s = Some Held → sync_ok (condvar_enqueue s).
Proof.
  intros Hok Hp. assert (cur s ∉ blocked s) as Hb by (eapply so_free; naive_solver).
  destruct (so_owner s (cur s) Held Hok Hp ltac:(by left)) as [Ho H0].
  destruct Hok as [N Hh Hm Hc Hbl Nm Nc Hpr]. split; simpl; try done.
  - by rewrite lookup_insert_ne.
  - intros t. at_cur; [naive_solver|]. by rewrite Hh.
  - intros t. rewrite Hm. at_cur; set_solver.
  - intros t. rewrite elem_of_app, list_elem_of_singleton, Hc. at_cur; set_solver.
  - intros t. specialize (Hbl t). clear - Hbl. set_solver.
  - apply NoDup_app. split_and!; [done| |apply NoDup_singleton]. intros t Ht ->%list_elem_of_singleton.
    apply Hc in Ht. naive_solver.
  - intros Ho'. congruence.
Qed.

(** Making waiters of the condition variable runnable. *)
Lemma cv_wake_ok s q b :
  sync_ok s → NoDup q → (∀ t, t ∈ q → t ∈ cond s) →
  (∀ t, t ∈ b ↔ t ∈ blocked s ∧ (t ∈ cond s → t ∈ q)) → sync_ok (with_blocked b (with_cond q s)).
Proof.
  intros [N Hh Hm Hc Hbl Nm Nc Hpr] Hq Hsub Hb. split; simpl; try done.
  - intros t. rewrite Hm, Hb, Hc. naive_solver.
  - intros t. rewrite Hb. specialize (Hc t). specialize (Hsub t). naive_solver.
  - intros t [Ht Hi]%Hb. destruct (Hbl t Ht); naive_solver.
  - intros Ho Hw. destruct (Hpr Ho Hw) as (t & [Ht|[Ht Hn]]); exists t; [by left|right].
    simpl. rewrite Hb. naive_solver.
Qed.
Lemma signal_ok s : sync_ok s → sync_ok (condvar_signal s).
Proof.
  intros Hok. unfold condvar_signal. pose proof (so_cnodup s Hok) as Nc. destruct (cond s) as [|x q] eqn:Eq; simpl.
  - apply cv_wake_ok; [done|constructor|set_solver|]. rewrite Eq. set_solver.
  - apply NoDup_cons in Nc as [Hx Nq]. apply cv_wake_ok; [done|done|rewrite Eq; set_solver|].
    intros t. rewrite Eq, elem_of_difference, elem_of_singleton, elem_of_cons. naive_solver.
Qed.
Lemma broadcast_ok s : sync_ok s → sync_ok (condvar_broadcast s).
Proof.
  intros Hok. apply cv_wake_ok; [done|constructor|set_solver|]. intros t.
  rewrite elem_of_difference, elem_of_list_to_set. set_solver.
Qed.

(** A woken thread goes back to the loop of [mutex_lock]. *)
Lemma retry_ok s p :
  sync_ok s → pcs s !! cur s = Some p → p = LockSleep ∨ p = CvSleep → cur s ∉ blocked s → sync_ok (goto LockLoop s).
Proof.
  intros Hok Hp Hq Hb. assert (cur s ≠ 0) as H0 by (intros E; rewrite E, (so_null s Hok) in Hp; done).
  assert (owner (mtx s) ≠ cur s) as Hne by (eapply so_not_owner; naive_solver).
  destruct Hok as [N Hh Hm Hc Hbl Nm Nc Hpr]. split; simpl; try done.
  - by rewrite lookup_insert_ne.
  - intros t. at_cur; [naive_solver|]. by rewrite Hh.
  - intros t. rewrite Hm. at_cur; naive_solver.
  - intros t. rewrite Hc. at_cur; naive_solver.
  - intros _ _. exists (cur s). left. simpl. by rewrite lookup_insert_eq.
Qed.

Lemma exec_ok o s s' : sync_ok s → exec o s = Some s' → sync_ok s'.
Proof.
  intros Hok He. unfold exec in He.
  destruct o, (pcs s !! cur s) as [[]|] eqn:Ep; simplify_eq/=;
    try (eapply mutex_lock_ok; by eauto); try (eapply unlock_ok; by eauto); try (by apply signal_ok); try (by apply broadcast_ok).
  - unfold mutex_trylock. destruct (Z.eqb_spec (owner (mtx s)) 0); simpl; [|done]. eapply take_ok; naive_solver.
  - by apply enqueue_ok.
  - case_decide; simplify_eq. eapply retry_ok; naive_solver.
  - case_decide; simplify_eq. eapply retry_ok; naive_solver.
Qed.
Lemma step_ok s s' : sync_ok s → step s s' → sync_ok s'.
Proof.
  intros Hok Hs. destruct Hs as [o s s' He|t s]; [by eapply exec_ok|]. by destruct Hok; split.
Qed.
Lemma reachable_ok ts t s : 0 ∉ ts → rtc step (sync_init ts t) s → sync_ok s.
Proof.
  intros H0 Hr. assert (sync_ok (sync_init ts t)) as Hi by (by apply sync_init_ok).
  induction Hr; [done|]. eauto using step_ok.
Qed.

(** A thread that holds the mutex with its next block in [condvar_wait] keeps it as long as
    it stays blocked, and it stays blocked until the condition variable is signalled. *)
Inductive quiet_step : Sync → Sync → Prop :=
| quiet_block o s s' : o ≠ Signal → o ≠ Broadcast → exec o s = Some s' → quiet_step s s'
| quiet_switch t s : t ∈ dom (pcs s) → t ∉ blocked s → quiet_step s (with_cur t s).

Definition stalled (t : Z) (s : Sync) : Prop :=
  sync_ok s ∧ pcs s !! t = Some CvEnqueued ∧ t ∈ blocked s ∧ cur s ≠ t.

Lemma stalled_exec t o s s' :
  stalled t s → o ≠ Signal → o ≠ Broadcast → exec o s = Some s' →
  pcs s' !! t = Some CvEnqueued ∧ t ∈ blocked s' ∧ cur s' = cur s.
Proof.
  intros (Hok & Hp & Hb & Hc) Ho1 Ho2 He. destruct (so_owner s t _ Hok Hp ltac:(by right)) as [Ho H0].
  assert (∀ p, p = Held ∨ p = CvEnqueued → pcs s !! cur s ≠ Some p) as Hnh.
  { intros p Hq E. destruct (so_owner s _ _ Hok E Hq). congruence. }
  unfold exec in He. destruct o, (pcs s !! cur s) as [[]|] eqn:Ep; simplify_eq/=;
    try (by destruct (Hnh Held ltac:(by left))); try (by destruct (Hnh CvEnqueued ltac:(by right)));
    unfold mutex_lock, mutex_trylock in *; try case_decide; simplify_eq/=.
  all: try (replace (owner (mtx s) =? 0) with false by (symmetry; apply Z.eqb_neq; congruence)); simpl;
    rewrite ?lookup_insert_ne by done; set_solver.
Qed.
Lemma stalled_step t s s' : stalled t s → quiet_step s s' → stalled t s'.
Proof.
  intros Hst Hs. pose proof Hst as (Hok & Hp & Hb & Hc). destruct Hs as [o s s' Ho1 Ho2 He|u s Hu Hn].
  - destruct (stalled_exec t o s s' Hst Ho1 Ho2 He) as (? & ? & Hc'). split_and!; try done.
    + by eapply exec_ok.
    + by rewrite Hc'.
  - split_and!; simpl; try done; [|by intros ->]. by destruct Hok; split.
Qed.

(** ** The semaphore invariant *)

Definition sem_contender (s : SemState) (t : Z) : Prop :=
  sem_pcs s !! t = Some SemLoop ∨ (sem_pcs s !! t = Some SemSleep ∧ t ∉ sem_blocked s).

(** [C] is the set of the threads that will test the count again without being woken. *)
Record sem_ok (n k : Z) (C : gset Z) (s : SemState) : Prop := {
  sm_count : count (sem s) = n - k;
  sm_range : 0 ≤ count (sem s) < 2 ^ 31;
  sm_contenders t : t ∈ C ↔ sem_contender s t;
  sm_waiters t : t ∈ sem_waiters (sem s) ↔ sem_pcs s !! t = Some SemSleep ∧ t ∈ sem_blocked s;
  sm_blocked t : t ∈ sem_blocked s → t ∈ sem_waiters (sem s);
  sm_nodup : NoDup (sem_waiters (sem s));
  sm_progress : sem_waiters (sem s) ≠ [] → count (sem s) ≤ Z.of_nat (size C);
}.

Lemma sem_start_ok n ts t : 0 ≤ n < 2 ^ 31 → sem_ok n 0 ∅ (sem_start n ts t).
Proof.
  intros Hn. split; simpl; try done; try lia; try constructor; try set_solver.
  intros [E|[E _]]; by apply lookup_gset_to_gmap_Some in E as [_ ?].
Qed.

Lemma size_remove (C : gset Z) t : t ∈ C → Z.of_nat (size (C ∖ {[ t ]})) = Z.of_nat (size C) - 1.
Proof.
  intros Ht. rewrite size_difference, size_singleton by set_solver.
  assert (size C ≠ 0%nat); [|lia]. intros E%size_empty_iff. set_solver.
Qed.
Lemma size_add (C : gset Z) t : t ∉ C → Z.of_nat (size ({[ t ]} ∪ C)) = Z.of_nat (size C) + 1.
Proof. intros Ht. rewrite size_union, size_singleton by set_solver. lia. Qed.

(** The current thread, in [sem_wait] or calling it, runs one pass. *)
Lemma sem_wait_ok n k C s p d s' :
  sem_ok n k C s → sem_pcs s !! sem_cur s = Some p → p = SemOut ∨ p = SemLoop →
  sem_wait s = (d, s') → sem_ok n (k + d) (C ∖ {[ sem_cur s ]}) s'.
Proof.
  intros [Hn Hr HC Hw Hb Nw Hpr] Hp Hq Hs.
  assert (sem_cur s ∉ sem_blocked s) as Hnb by (intros [E _]%Hb%Hw; naive_solver).
  assert (0 ≤ Z.of_nat (size (C ∖ {[ sem_cur s ]})) ∧ Z.of_nat (size C) - 1 ≤ Z.of_nat (size (C ∖ {[ sem_cur s ]}))) as [Hs0 Hs1].
  { split; [lia|]. destruct (decide (sem_cur s ∈ C)); [rewrite size_remove by done; lia|].
    replace (C ∖ {[ sem_cur s ]}) with C by set_solver. lia. }
  unfold sem_wait in Hs. destruct (Z.leb_spec (count (sem s)) 0); simplify_eq.
  - split; simpl; try lia.
    + intros t. rewrite elem_of_difference, elem_of_singleton, HC. unfold sem_contender. simpl.
      clear - Hp Hq. at_cur; set_solver.
    + intros t. rewrite elem_of_app, list_elem_of_singleton, Hw. clear - Hp Hq Hnb. at_cur; set_solver.
    + intros t. specialize (Hb t). clear - Hb. set_solver.
    + apply NoDup_app. split_and!; [done| |apply NoDup_singleton]. intros t Ht ->%list_elem_of_singleton.
      apply Hnb. by apply Hw.
  - split; simpl; try done; try lia.
    + intros t. rewrite elem_of_difference, elem_of_singleton, HC. unfold sem_contender. simpl.
      clear - Hp Hq. at_cur; naive_solver.
    + intros t. rewrite Hw. clear - Hp Hq. at_cur; naive_solver.
Qed.

Lemma sem_post_ok n k C s d s' :
  sem_ok n k C s → sem_post s = Some (d, s') → ∃ C', sem_ok n (k + d) C' s'.
Proof.
  intros [Hn Hr HC Hw Hb Nw Hpr] Hs. unfold sem_post in Hs.
  destruct (Z.eqb_spec (count (sem s)) (2 ^ 31 - 1)); [done|].
  destruct (sem_waiters (sem s)) as [|x q] eqn:Eq; simplify_eq/=.
  - exists C. split; simpl; try done; try lia.
  - apply NoDup_cons in Nw as [Hx Nq]. destruct (proj1 (Hw x) ltac:(left)) as [Hxp Hxb].
    exists ({[ x ]} ∪ C). split; simpl; try done; try lia.
    + intros t. rewrite elem_of_union, elem_of_singleton, HC. unfold sem_contender. simpl.
      rewrite elem_of_difference, elem_of_singleton. destruct (decide (t = x)) as [->|]; naive_solver.
    + intros t. specialize (Hw t). rewrite elem_of_cons in Hw. rewrite elem_of_difference, elem_of_singleton.
      clear - Hw Hx. naive_solver.
    + intros t [Ht Hne]%elem_of_difference. specialize (Hb t Ht). set_solver.
    + intros _. rewrite size_add; [specialize (Hpr ltac:(done)); lia|].
      intros [E|[_ E]]%HC; [congruence|done].
Qed.

Lemma sem_trywait_ok n k C s d s' :
  sem_ok n k C s → (sem_trywait s).2 = (d, s') → sem_ok n (k + d) C s'.
Proof.
  intros [Hn Hr HC Hw Hb Nw Hpr] Hs. unfold sem_trywait in Hs.
  destruct (Z.leb_spec (count (sem s)) 0); simplify_eq/=; split; simpl; try done; lia.
Qed.

Lemma sem_retry_ok n k C s :
  sem_ok n k C s → sem_pcs s !! sem_cur s = Some SemSleep → sem_cur s ∉ sem_blocked s →
  sem_ok n (k + 0) C (sem_goto SemLoop s).
Proof.
  intros [Hn Hr HC Hw Hb Nw Hpr] Hp Hnb. split; simpl; try done; try lia.
  - intros t. rewrite HC. unfold sem_contender. simpl. clear - Hp Hnb. at_cur; naive_solver.
  - intros t. rewrite Hw. clear - Hp Hnb. at_cur; naive_solver.
Qed.

Lemma sem_steps_ok n k ts t s :
  0 ≤ n < 2 ^ 31 → sem_steps k (sem_start n ts t) s → ∃ C, sem_ok n k C s.
Proof.
  intros Hn Hs. remember (sem_start n ts t) as s0 eqn:E0.
  induction Hs as [s|k o s s1 d s2 Hs IH He|k u s s1 Hs IH Hu Hnb]; subst.
  - exists ∅. by apply sem_start_ok.
  - destruct (IH eq_refl) as [C Hok]. unfold sem_exec in He.
    destruct o, (sem_pcs s1 !! sem_cur s1) as [[]|] eqn:Ep; simplify_eq/=.
    + eexists. eapply sem_wait_ok; naive_solver.
    + by eapply sem_post_ok.
    + eexists. by eapply sem_trywait_ok.
    + eexists. eapply sem_wait_ok; naive_solver.
    + case_decide; simplify_eq. eexists. by apply sem_retry_ok.
  - destruct (IH eq_refl) as [C []]. by exists C; split.
Qed.

(** A contender is not blocked, and its next pass of the loop takes a free mutex. *)
Lemma contender_takes s t : sync_ok s → contender s t → owner (mtx s) = 0 →
  t ∉ blocked s ∧ pcs (mutex_lock (with_cur t s)) !! t = Some Held ∧ owner (mtx (mutex_lock (with_cur t s))) = t.
Proof.
  intros Hok Hc Ho. split.
  - destruct Hc as [Hp|[_ ?]]; [|done]. eapply so_free; naive_solver.
  - unfold mutex_lock. simpl. rewrite Ho. simpl. by rewrite lookup_insert_eq.
Qed.

(** ** Theorems *)

(** C18. Mutual exclusion: in every state reachable by any interleaving, two threads that hold the
    mutex (outside [condvar_wait] or before it releases the mutex) are the same, and it is the owner. *)
Theorem mutex_exclusion ts t0 s t u :
  0 ∉ ts → rtc step (sync_init ts t0) s →
  pcs s !! t = Some Held ∨ pcs s !! t = Some CvEnqueued →
  pcs s !! u = Some Held ∨ pcs s !! u = Some CvEnqueued → t = u ∧ owner (mtx s) = t.
Proof.
  intros H0 Hr Ht Hu. pose proof (reachable_ok ts t0 s H0 Hr) as Hok.
  apply (so_held s Hok) in Ht as [? _]. apply (so_held s Hok) in Hu as [? _]. naive_solver.
Qed.

(** C29. No wakeup is lost: in every state reachable by any interleaving, a blocked thread is in the queue of the mutex or of the
    condition variable, where a wake finds it; and whenever the mutex is free while threads sleep on it, some thread inside
    [mutex_lock] is not blocked and is out of the queue, having been woken or not having slept, and the pass of the loop that
    it makes when it next runs, if nobody takes the mutex before, leaves it the owner. *)
Theorem mutex_no_lost_wakeup ts t0 s :
  0 ∉ ts → rtc step (sync_init ts t0) s →
  (∀ t, t ∈ blocked s → t ∈ waiters (mtx s) ∨ t ∈ cond s) ∧
  (owner (mtx s) = 0 → waiters (mtx s) ≠ [] →
   ∃ t, (pcs s !! t = Some LockLoop ∨ pcs s !! t = Some LockSleep) ∧ t ∉ blocked s ∧ t ∉ waiters (mtx s) ∧
     pcs (mutex_lock (with_cur t s)) !! t = Some Held ∧ owner (mtx (mutex_lock (with_cur t s))) = t).
Proof.
  intros H0 Hr. pose proof (reachable_ok ts t0 s H0 Hr) as Hok. split; [apply (so_blocked s Hok)|]. intros Ho Hw.
  destruct (so_progress s Hok Ho Hw) as (t & Hc). exists t. destruct (contender_takes s t Hok Hc Ho) as (Hb & Hp & Hown).
  split_and!; [by destruct Hc as [?|[? _]]; auto|done| |done|done]. by intros [_ ?]%(so_mwait s Hok).
Qed.

(** A semaphore never hands out more tokens than it was given, and loses no wakeup: after any run
    from count [n] in which [k] tokens were taken on balance the count is [n - k] and not
    negative, and if it is positive while threads sleep, at least as many threads as there are
    tokens (or more) are about to test it again. *)
Theorem semaphore_tokens n k ts t s :
  0 ≤ n < 2 ^ 31 → sem_steps k (sem_start n ts t) s →
  sem_getvalue s = n - k ∧ 0 ≤ n - k < 2 ^ 31 ∧
  (sem_waiters (sem s) ≠ [] → ∃ C, (∀ u, u ∈ C → sem_contender s u) ∧ sem_getvalue s ≤ Z.of_nat (size (C : gset Z))).
Proof.
  intros Hn Hs. destruct (sem_steps_ok n k ts t s Hn Hs) as [C [Hc Hr HC _ _ _ Hpr]].
  unfold sem_getvalue. split_and!; try lia. intros Hw. exists C. split; [apply HC|by apply Hpr].
Qed.

(** A thread that the timer preempts in [condvar_wait] between joining the queue and
    releasing the mutex keeps the mutex: until the condition variable is signalled, the mutex is not
    released and the thread does not run, whatever the other threads do.  Signallers that
    take the mutex first, as the header asks of them, are stuck behind it. *)
Theorem condvar_wait_preempted ts t0 s t s' :
  0 ∉ ts → rtc step (sync_init ts t0) s →
  pcs s !! t = Some CvEnqueued → t ∈ blocked s → cur s ≠ t → rtc quiet_step s s' →
  owner (mtx s') = t ∧ t ∈ blocked s' ∧ cur s' ≠ t.
Proof.
  intros H0 Hr Hp Hb Hc Hq. assert (stalled t s) as Hst by (split_and!; [by eapply reachable_ok|done..]).
  assert (stalled t s') as (Hok & Hp' & ? & ?) by (clear - Hst Hq; induction Hq; eauto using stalled_step).
  split_and!; [|done|done]. apply (so_held s' Hok). by right.
Qed.

(** ** Witnesses *)

(** Runs of the machine, to build reachable states. *)
Inductive Act : Type := Do (o : Op) | Switch (t : Z).
Definition act (a : Act) (s : Sync) : option Sync :=
  match a with
  | Do o => exec o s
  | Switch t => if decide (t ∈ dom (pcs s) ∧ t ∉ blocked s) then Some (with_cur t s) else None
  end.
Definition run (l : list Act) (s : Sync) : option Sync := foldl (λ o a, o ≫= act a) (Some s) l.
Lemma run_app l a s : run (l ++ [a]) s = run l s ≫= act a.
Proof. unfold run. by rewrite foldl_app. Qed.
Lemma run_steps l s s' : run l s = Some s' → rtc step s s'.
Proof.
  revert s'. induction l as [|a l IH] using rev_ind; intros s' Hr; [by injection Hr as ->|].
  rewrite run_app in Hr. destruct (run l s) as [s1|] eqn:E1; [|done]. simpl in Hr.
  eapply rtc_r; [by apply IH|]. destruct a as [o|t]; simpl in Hr; [by eapply step_block|].
  case_decide as Hd; [|done]. injection Hr as <-. destruct Hd. by apply step_switch.
Qed.

Definition two : gset Z := {[ 1; 2 ]}.
(** Thread 2 sleeps behind thread 1, a third thread sleeps too, then thread 1 unlocks. *)
Definition queued : list Act := [Do Lock; Switch 2; Do Lock; Switch 3; Do Lock; Switch 1; Do Unlock].
(** Thread 1 is preempted in [condvar_wait]. *)
Definition preempted : list Act := [Do Lock; Do Wait; Switch 2].

Lemma mutex_exclusion_witness :
  ∃ s, run [Do Lock; Switch 2; Do Lock] (sync_init two 1) = Some s ∧ pcs s !! 1 = Some Held ∧ (1 = 1 ∧ owner (mtx s) = 1).
Proof.
  eexists. split; [vm_compute; reflexivity|]. split; [vm_compute; reflexivity|].
  apply (mutex_exclusion two 1 _ 1 1); [set_solver| |vm_compute; by left|vm_compute; by left].
  eapply (run_steps [Do Lock; Switch 2; Do Lock]). vm_compute. reflexivity.
Defined.

Lemma mutex_no_lost_wakeup_witness :
  ∃ s, run queued (sync_init {[ 1; 2; 3 ]} 1) = Some s ∧
    ∃ t, (pcs s !! t = Some LockLoop ∨ pcs s !! t = Some LockSleep) ∧ t ∉ blocked s ∧ t ∉ waiters (mtx s) ∧
      pcs (mutex_lock (with_cur t s)) !! t = Some Held ∧ owner (mtx (mutex_lock (with_cur t s))) = t.
Proof.
  eexists. split; [vm_compute; reflexivity|].
  apply (mutex_no_lost_wakeup {[ 1; 2; 3 ]} 1); [set_solver| |vm_compute; reflexivity|vm_compute; done].
  eapply (run_steps queued). vm_compute. reflexivity.
Defined.

Lemma semaphore_tokens_witness :
  ∃ s, sem_steps 1 (sem_start 1 two 1) s ∧ sem_getvalue s = 1 - 1 ∧ 0 ≤ 1 - 1 < 2 ^ 31 ∧
  (sem_waiters (sem s) ≠ [] → ∃ C, (∀ u, u ∈ C → sem_contender s u) ∧ sem_getvalue s ≤ Z.of_nat (size (C : gset Z))).
Proof.
  assert (sem_steps 1 (sem_start 1 two 1) (sem_wait (sem_start 1 two 1)).2) as Hs.
  { eapply (sem_steps_block 0 SemWait _ (sem_start 1 two 1) 1); [constructor|reflexivity]. }
  eexists. split; [exact Hs|]. apply (semaphore_tokens 1 1 two 1); [lia|exact Hs].
Defined.

Lemma condvar_wait_preempted_witness :
  ∃ s, run preempted (sync_init two 1) = Some s ∧ ∀ s', rtc quiet_step s s' →
    owner (mtx s') = 1 ∧ 1 ∈ blocked s' ∧ cur s' ≠ 1.
Proof.
  eexists. split; [vm_compute; reflexivity|]. intros s'.
  apply (condvar_wait_preempted two 1); [set_solver| |vm_compute; reflexivity|set_solver|vm_compute; done].
  eapply (run_steps preempted). vm_compute. reflexivity.
Defined.
