(* ===== verification/CString.v ===== *)
(** * Memory and string functions

    [kernel/lib/mem.c], [kernel/lib/string.c] and the string functions that only
    [libc/src/string.c] has, on a byte-addressed memory: a finite map from
    addresses to bytes.  An access to an address outside the map is undefined. *)
From S2P Require Import Prelude.

Abbreviation Mem := (gmap Z Z).

Definition load (a : Z) : K Mem Z := kopt (λ m, m !! a).
Definition store (a v : Z) : K Mem unit := kupd (λ m, _ ← m !! a; Some (<[a := v]> m)).

(** ** mem.c *)

Definition memcpy (dst src n : Z) : K Mem Z :=
  kfor (seqZ 0 n) (λ i, c ← load (src + i); store (dst + i) c);;
  mret dst.

Definition memset (dst c n : Z) : K Mem Z :=
  let val := u8 c in
  kfor (seqZ 0 n) (λ i, store (dst + i) val);;
  mret dst.

Definition memmove (dst src n : Z) : K Mem Z :=
  (if dst <? src then kfor (seqZ 0 n) (λ i, c ← load (src + i); store (dst + i) c)
   else if src <? dst then
     kfor ((λ k, n - k) <$> seqZ 0 n) (λ i, c ← load (src + (i - 1)); store (dst + (i - 1)) c)
   else mret tt);;
  mret dst.

Fixpoint memcmp_loop (l : list Z) (a b : Z) : K Mem Z :=
  match l with
  | [] => mret 0
  | i :: l' =>
      x ← load (a + i);
      y ← load (b + i);
      if negb (x =? y) then mret (x - y) else memcmp_loop l' a b
  end.
Definition memcmp (a b n : Z) : K Mem Z := memcmp_loop (seqZ 0 n) a b.

(** ** string.c

    The loops stop at a NUL byte or at an address outside the memory, so the
    number of addresses bounds the iterations. *)
Definition mem_fuel (m : Mem) : nat := S (size m).

Fixpoint strlen_loop (fuel : nat) (s len : Z) : K Mem Z :=
  match fuel with
  | O => kstuck
  | S fuel' =>
      c ← load (s + len);
      if negb (c =? 0) then strlen_loop fuel' s (len + 1) else mret len
  end.
Definition strlen (s : Z) : K Mem Z := fuel ← kget mem_fuel; strlen_loop fuel s 0.

Fixpoint strcmp_loop (fuel : nat) (a b : Z) : K Mem Z :=
  match fuel with
  | O => kstuck
  | S fuel' =>
      x ← load a;
      y ← load b;
      if negb (x =? 0) && (x =? y) then strcmp_loop fuel' (a + 1) (b + 1) else mret (x - y)
  end.
Definition strcmp (a b : Z) : K Mem Z := fuel ← kget mem_fuel; strcmp_loop fuel a b.

Fixpoint strncmp_loop (l : list Z) (a b : Z) : K Mem Z :=
  match l with
  | [] => mret 0
  | i :: l' =>
      x ← load (a + i);
      y ← load (b + i);
      if negb (x =? y) then mret (x - y) else
      if x =? 0 then mret 0 else strncmp_loop l' a b
  end.
Definition strncmp (a b n : Z) : K Mem Z := strncmp_loop (seqZ 0 n) a b.

(** The first loop of [strncpy], which returns the index it stops at. *)
Fixpoint strncpy_loop (l : list Z) (dst src n : Z) : K Mem Z :=
  match l with
  | [] => mret n
  | i :: l' =>
      c ← load (src + i);
      if c =? 0 then mret i else
      store (dst + i) c;; strncpy_loop l' dst src n
  end.
Definition strncpy (dst src n : Z) : K Mem Z :=
  i ← strncpy_loop (seqZ 0 n) dst src n;
  kfor (seqZ i (n - i)) (λ i, store (dst + i) 0);;
  mret dst.

(** The result is an address, or 0 for NULL. *)
Fixpoint strchr_loop (fuel : nat) (s ch : Z) : K Mem Z :=
  match fuel with
  | O => kstuck
  | S fuel' =>
      c ← load s;
      if negb (c =? 0) then if c =? ch then mret s else strchr_loop fuel' (s + 1) ch
      else mret (if ch =? 0 then s else 0)
  end.
Definition strchr (s c : Z) : K Mem Z := fuel ← kget mem_fuel; strchr_loop fuel s (u8 c).

(** ** The additional functions of the C library *)

Fixpoint strcpy_loop (fuel : nat) (d src : Z) : K Mem unit :=
  match fuel with
  | O => kstuck
  | S fuel' =>
      c ← load src;
      store d c;;
      if negb (c =? 0) then strcpy_loop fuel' (d + 1) (src + 1) else mret tt
  end.
Definition strcpy (dst src : Z) : K Mem Z :=
  fuel ← kget mem_fuel; strcpy_loop fuel dst src;; mret dst.

Definition strcat (dst src : Z) : K Mem Z :=
  len ← strlen dst;
  fuel ← kget mem_fuel;
  strcpy_loop fuel (dst + len) src;;
  mret dst.

Fixpoint strrchr_loop (fuel : nat) (s ch last : Z) : K Mem Z :=
  match fuel with
  | O => kstuck
  | S fuel' =>
      c ← load s;
      if negb (c =? 0) then strrchr_loop fuel' (s + 1) ch (if c =? ch then s else last)
      else mret (if ch =? 0 then s else last)
  end.
Definition strrchr (s c : Z) : K Mem Z := fuel ← kget mem_fuel; strrchr_loop fuel s (u8 c) 0.

Fixpoint strstr_loop (fuel : nat) (haystack needle nlen : Z) : K Mem Z :=
  match fuel with
  | O => kstuck
  | S fuel' =>
      c ← load haystack;
      if negb (c =? 0) then
        r ← strncmp haystack needle nlen;
        if r =? 0 then mret haystack else strstr_loop fuel' (haystack + 1) needle nlen
      else mret 0
  end.
Definition strstr (haystack needle : Z) : K Mem Z :=
  c ← load needle;
  if c =? 0 then mret haystack else
  nlen ← strlen needle;
  fuel ← kget mem_fuel;
  strstr_loop fuel haystack needle nlen.

(** ** What memory holds *)

(** The bytes [l] are at address [a]. *)
Definition bytes_at (m : Mem) (a : Z) (l : list Z) : Prop :=
  ∀ i c, l !! i = Some c → m !! (a + Z.of_nat i) = Some c.
(** The NUL-terminated string [s] is at address [a]. *)
Definition cstr (m : Mem) (a : Z) (s : list Z) : Prop := bytes_at m a (s ++ [0]) ∧ 0 ∉ s.
Definition mapped (m : Mem) (a n : Z) : Prop := ∀ i, 0 ≤ i < n → is_Some (m !! (a + i)).
(** [m'] is [m] with the [n] bytes that [m] has at [s] copied to [d]. *)
Definition copied (m : Mem) (d s n : Z) (m' : Mem) : Prop :=
  ∀ a, m' !! a = if decide (d ≤ a < d + n) then m !! (a - d + s) else m !! a.

Lemma load_Done m a c : m !! a = Some c → load a m = Done c m.
Proof. unfold load, kopt. by intros ->. Qed.
Lemma load_bind {A} m a c (k : Z → K Mem A) : m !! a = Some c → (load a ≫= k) m = k c m.
Proof. intros Hc. apply bind_Done. by apply load_Done. Qed.
Lemma store_Done m a v : is_Some (m !! a) → store a v m = Done tt (<[a := v]> m).
Proof. unfold store, kupd. intros [c Hc]. by rewrite Hc. Qed.
Lemma store_bind {A} m a v (k : unit → K Mem A) :
  is_Some (m !! a) → (store a v ≫= k) m = k tt (<[a := v]> m).
Proof. intros Hc. apply bind_Done. by apply store_Done. Qed.

Lemma copy_forward m d s n :
  0 ≤ n → mapped m s n → mapped m d n → (d ≤ s ∨ s + n ≤ d) →
  ∃ m', kfor (seqZ 0 n) (λ i, c ← load (s + i); store (d + i) c) m = Done tt m' ∧ copied m d s n m'.
Proof.
  intros Hn Hs Hd Hov.
  destruct (kfor_seqZ_ind (copied m d s) (λ i, c ← load (s + i); store (d + i) c) 0 n m) as (m' & Hk & HP).
  - done.
  - intros a. case_decide; [lia|done].
  - intros i m1 Hi HP. destruct (Hs i) as [c Hc]; [lia|].
    assert (m1 !! (s + i) = Some c) as Hl.
    { rewrite HP. case_decide; [lia|]. done. }
    rewrite (load_bind _ _ _ _ Hl). exists (<[d + i := c]> m1). rewrite store_Done.
    + split; [done|]. intros a. rewrite lookup_insert. case_decide as Ha; [subst|].
      * rewrite decide_True by lia. rewrite <-Hc. f_equal. lia.
      * rewrite HP. repeat case_decide; try done; lia.
    + rewrite HP. case_decide; [lia|]. apply Hd. lia.
  - exists m'. split; [done|]. rewrite Z.add_0_l in HP. done.
Qed.

Lemma copy_backward m d s n :
  0 ≤ n → mapped m s n → mapped m d n → s < d →
  ∃ m', kfor ((λ k, n - k) <$> seqZ 0 n) (λ i, c ← load (s + (i - 1)); store (d + (i - 1)) c) m = Done tt m' ∧
    copied m d s n m'.
Proof.
  intros Hn Hs Hd Hlt. rewrite kfor_fmap.
  destruct (kfor_seqZ_ind (λ k, copied m (d + (n - k)) (s + (n - k)) k)
    (λ k, c ← load (s + (n - k - 1)); store (d + (n - k - 1)) c) 0 n m) as (m' & Hk & HP).
  - done.
  - intros a. case_decide; [lia|done].
  - intros k m1 Hk HP. destruct (Hs (n - k - 1)) as [c Hc]; [lia|].
    assert (m1 !! (s + (n - k - 1)) = Some c) as Hl.
    { rewrite HP. case_decide; [lia|]. done. }
    rewrite (load_bind _ _ _ _ Hl). exists (<[d + (n - k - 1) := c]> m1). rewrite store_Done.
    + split; [done|]. intros a. rewrite lookup_insert. case_decide as Ha; [subst|].
      * rewrite decide_True by lia. rewrite <-Hc. f_equal. lia.
      * rewrite HP. repeat case_decide; try lia; try done. f_equal. lia.
    + rewrite HP. case_decide; [lia|]. apply Hd. lia.
  - exists m'. split; [done|]. rewrite Z.add_0_l, Z.sub_diag, !Z.add_0_r in HP. done.
Qed.

Lemma memmove_lemma m d s n :
  0 ≤ n → mapped m s n → mapped m d n → ∃ m', memmove d s n m = Done d m' ∧ copied m d s n m'.
Proof.
  intros Hn Hs Hd. unfold memmove. destruct (Z.ltb_spec d s); [|destruct (Z.ltb_spec s d)].
  - destruct (copy_forward m d s n) as (m' & Hk & HP); try done; [left; lia|]. exists m'. kbind Hk. done.
  - destruct (copy_backward m d s n) as (m' & Hk & HP); try done. exists m'. kbind Hk. done.
  - exists m. split; [done|]. intros a. case_decide; [|done]. f_equal. lia.
Qed.

(** What a copy does to the bytes of the source. *)
Lemma copied_bytes m d s l m' : copied m d s (Z.of_nat (length l)) m' → bytes_at m s l → bytes_at m' d l.
Proof.
  intros Hc Hb i c Hi. pose proof (lookup_lt_Some _ _ _ Hi). rewrite Hc, decide_True by lia.
  rewrite <-(Hb _ _ Hi). f_equal. lia.
Qed.
Lemma bytes_mapped m a l : bytes_at m a l → mapped m a (Z.of_nat (length l)).
Proof.
  intros Hb i Hi. destruct (lookup_lt_is_Some_2 l (Z.to_nat i)) as [c Hc]; [lia|].
  exists c. rewrite <-(Hb _ _ Hc). f_equal. lia.
Qed.

Lemma bytes_at_cons m a c l : bytes_at m a (c :: l) ↔ m !! a = Some c ∧ bytes_at m (a + 1) l.
Proof.
  split.
  - intros Hb. split.
    + rewrite <-(Hb 0%nat c eq_refl). f_equal. lia.
    + intros i x Hi. rewrite <-(Hb (S i) x Hi). f_equal. lia.
  - intros [Hc Hb] [|i] x Hi.
    + injection Hi as <-. rewrite <-Hc. f_equal. lia.
    + rewrite <-(Hb i x Hi). f_equal. lia.
Qed.
Lemma bytes_at_length m a l : bytes_at m a l → (length l ≤ size m)%nat.
Proof.
  intros Hb. rewrite <-size_dom. set (D := list_to_set ((λ i, a + Z.of_nat i) <$> seq 0 (length l)) : gset Z).
  assert (size D = length l) as <-.
  { unfold D. rewrite size_list_to_set, length_fmap, length_seq; [done|].
    apply NoDup_fmap_2; [intros ???; lia|apply NoDup_seq]. }
  apply subseteq_size. intros x. unfold D. rewrite elem_of_list_to_set, list_elem_of_fmap.
  intros (i & -> & Hi). apply elem_of_seq in Hi. destruct (lookup_lt_is_Some_2 l i) as [c Hc]; [lia|].
  apply elem_of_dom. exists c. by apply Hb.
Qed.

Lemma strlen_loop_spec fuel m a s n :
  bytes_at m (a + n) (s ++ [0]) → 0 ∉ s → (length s < fuel)%nat →
  strlen_loop fuel a n m = Done (n + Z.of_nat (length s)) m.
Proof.
  revert fuel n. induction s as [|c s IH]; intros [|fuel] n Hb H0 Hf; simpl in Hf; try lia; cbn [strlen_loop].
  - apply bytes_at_cons in Hb as [Hc _]. rewrite (load_bind _ _ _ _ Hc). simpl.
    replace (n + Z.of_nat 0) with n by lia. done.
  - apply bytes_at_cons in Hb as [Hc Hb]. rewrite (load_bind _ _ _ _ Hc).
    destruct (Z.eqb_spec c 0); [set_solver|]. simpl. rewrite IH; [f_equal; simpl; lia| |set_solver|lia].
    replace (a + (n + 1)) with (a + n + 1) by lia. done.
Qed.
Lemma strlen_spec m a s : cstr m a s → strlen a m = Done (Z.of_nat (length s)) m.
Proof.
  intros [Hb H0]. unfold strlen. rewrite kget_bind. rewrite (strlen_loop_spec _ _ _ s); [done| |done|].
  - by rewrite Z.add_0_r.
  - pose proof (bytes_at_length _ _ _ Hb) as Hl. rewrite length_app in Hl. unfold mem_fuel. simpl in Hl. lia.
Qed.

(** [strcmp] is zero exactly on equal strings. *)
Lemma strcmp_loop_spec fuel m a b s t :
  bytes_at m a (s ++ [0]) → bytes_at m b (t ++ [0]) → 0 ∉ s → 0 ∉ t → (length s < fuel)%nat →
  ∃ r, strcmp_loop fuel a b m = Done r m ∧ (r = 0 ↔ s = t).
Proof.
  revert fuel a b t. induction s as [|c s IH]; intros [|fuel] a b t Ha Hb Hs Ht Hf; simpl in Hf; try lia;
    cbn [strcmp_loop]; apply bytes_at_cons in Ha as [Hca Ha]; rewrite (load_bind _ _ _ _ Hca).
  - destruct t as [|d t]; apply bytes_at_cons in Hb as [Hcb Hb]; rewrite (load_bind _ _ _ _ Hcb); simpl.
    + by exists 0.
    + exists (0 - d). split; [done|]. split; [|done]. intros E. assert (d = 0) by lia. set_solver.
  - destruct (Z.eqb_spec c 0); [set_solver|]. simpl.
    destruct t as [|d t]; apply bytes_at_cons in Hb as [Hcb Hb]; rewrite (load_bind _ _ _ _ Hcb).
    + destruct (Z.eqb_spec c 0); [done|]. exists (c - 0). split; [done|]. split; [lia|done].
    + destruct (Z.eqb_spec c d) as [<-|].
      * destruct (IH fuel (a + 1) (b + 1) t) as (r & Hr & Heq); [done|done|set_solver|set_solver|lia|].
        exists r. split; [done|]. rewrite Heq. split; [by intros ->|by intros [= ->]].
      * exists (c - d). split; [done|]. split; [lia|]. intros [= -> _]. lia.
Qed.
Lemma strcmp_spec m a b s t :
  cstr m a s → cstr m b t → ∃ r, strcmp a b m = Done r m ∧ (r = 0 ↔ s = t).
Proof.
  intros [Ha Hs] [Hb Ht]. unfold strcmp. rewrite kget_bind. apply strcmp_loop_spec; try done.
  pose proof (bytes_at_length _ _ _ Ha) as Hl. rewrite length_app in Hl. unfold mem_fuel. simpl in Hl. lia.
Qed.

(** [strcpy] to a buffer that does not overlap the string. *)
Lemma strcpy_loop_spec fuel m d a s :
  cstr m a s → mapped m d (Z.of_nat (length s) + 1) → (length s < fuel)%nat →
  d + Z.of_nat (length s) < a ∨ a + Z.of_nat (length s) < d →
  ∃ m', strcpy_loop fuel d a m = Done tt m' ∧ copied m d a (Z.of_nat (length s) + 1) m'.
Proof.
  revert fuel m d a. induction s as [|c s IH]; intros [|fuel] m d a [Ha H0] Hd Hf Hov; simpl in Hf; try lia;
    cbn [strcpy_loop]; pose proof Ha as Ha'; apply bytes_at_cons in Ha as [Hc Ha]; rewrite (load_bind _ _ _ _ Hc);
    (rewrite store_bind; [|rewrite <-(Z.add_0_r d); apply Hd; lia]).
  - exists (<[d := 0]> m). split; [done|]. intros x. rewrite lookup_insert. simpl.
    repeat case_decide; subst; try done; try lia. rewrite <-Hc. f_equal. lia.
  - destruct (Z.eqb_spec c 0); [set_solver|]. simpl.
    destruct (IH fuel (<[d := c]> m) (d + 1) (a + 1)) as (m' & Hm & Hcp).
    + split; [|set_solver]. intros i x Hi. rewrite lookup_insert_ne; [by apply Ha|].
      apply lookup_lt_Some in Hi. rewrite length_app in Hi. simpl in *. lia.
    + intros i Hi. rewrite lookup_insert. case_decide; [by eexists|].
      replace (d + 1 + i) with (d + (i + 1)) by lia. apply Hd. simpl. lia.
    + lia.
    + simpl in Hov. lia.
    + exists m'. split; [done|]. intros x. rewrite Hcp. rewrite !lookup_insert. simpl in *.
      repeat case_decide; subst; try done; try lia.
      * f_equal. lia.
      * rewrite <-Hc. f_equal. lia.
Qed.
Lemma strcpy_spec m d a s :
  cstr m a s → mapped m d (Z.of_nat (length s) + 1) →
  d + Z.of_nat (length s) < a ∨ a + Z.of_nat (length s) < d →
  ∃ m', strcpy d a m = Done d m' ∧ copied m d a (Z.of_nat (length s) + 1) m' ∧ cstr m' d s.
Proof.
  intros Hc Hd Hov. unfold strcpy. rewrite kget_bind.
  destruct (strcpy_loop_spec (mem_fuel m) m d a s) as (m' & Hm & Hcp); try done.
  { pose proof (bytes_at_length _ _ _ (proj1 Hc)) as Hl. rewrite length_app in Hl. unfold mem_fuel. simpl in Hl. lia. }
  exists m'. kbind Hm. split_and!; [done|done|]. split; [|apply Hc].
  eapply copied_bytes; [|apply Hc]. rewrite length_app. simpl.
  replace (Z.of_nat (length s + 1)) with (Z.of_nat (length s) + 1) by lia. done.
Qed.

(** ** Theorems *)

(** [memmove] copies correctly whatever the overlap of the two areas: the destination ends up with
    the bytes the source had before the call, and no byte outside the destination changes. *)
Theorem memmove_correct m d s l :
  bytes_at m s l → mapped m d (Z.of_nat (length l)) →
  ∃ m', memmove d s (Z.of_nat (length l)) m = Done d m' ∧ bytes_at m' d l ∧
    ∀ a, ¬ (d ≤ a < d + Z.of_nat (length l)) → m' !! a = m !! a.
Proof.
  intros Hb Hd. destruct (memmove_lemma m d s (Z.of_nat (length l))) as (m' & Hm & Hc); [lia|by apply bytes_mapped|done|].
  exists m'. split_and!; [done|by eapply copied_bytes|]. intros a Ha. by rewrite Hc, decide_False.
Qed.

Definition mem_example : Mem := list_to_map (zip (seqZ 100 8) [72; 101; 108; 108; 111; 0; 7; 7]).
Lemma memmove_correct_witness :
  ∃ m', memmove 102 100 6 mem_example = Done 102 m' ∧ bytes_at m' 102 [72; 101; 108; 108; 111; 0] ∧
    ∀ a, ¬ (102 ≤ a < 102 + 6) → m' !! a = mem_example !! a.
Proof.
  apply (memmove_correct mem_example 102 100 [72; 101; 108; 108; 111; 0]).
  - intros [|[|[|[|[|[|i]]]]]] c Hc; simplify_eq/=; vm_compute; reflexivity.
  - intros i Hi. assert (i = 0 ∨ i = 1 ∨ i = 2 ∨ i = 3 ∨ i = 4 ∨ i = 5) as Hor by (simpl in Hi; lia).
    destruct Hor as [->|[->|[->|[->|[->| ->]]]]]; vm_compute; by eexists.
Defined.
