(* ===== verification/Printf.v ===== *)
(** * Formatted output

    [kernel/lib/kprintf.c] and [libc/src/printf.c].  The variable arguments are the
    list of the 64-bit words that [va_arg] takes one by one; taking more than there
    are is undefined.  Strings and buffers are in a byte-addressed memory. *)
From S2P Require Import Prelude CString.

(** ** Digits, common to both *)

Definition digit_char (d : Z) : Z := if d <? 10 then 48 + d else 97 + (d - 10).
(** The loop that fills [char buf\[21\]]; the list has the digit stored last first, the order in which they are printed. *)
Fixpoint digit_loop (fuel : nat) (val base : Z) (buf : list Z) : option (list Z) :=
  if 0 <? val then
    match fuel with
    | O => None
    | S fuel' =>
        if Z.of_nat (length buf) <? 21 then digit_loop fuel' (val / base) base (digit_char (val mod base) :: buf) else None
    end
  else Some buf.

Definition null_text : list Z := [40; 110; 117; 108; 108; 41].

(** ** kprintf.c *)

Record Log : Type := mkLog {
  lmem : Mem;
  lap : list Z;
  putchar_hook : Z;                 (* 0 is NULL *)
  serial : list Z;
  hooked : list (Z * Z);            (* the hook and the character *)
}.

Definition kprintf_set_putchar_hook (hook : Z) : K Log unit :=
  kmod (λ s, mkLog (lmem s) (lap s) hook (serial s) (hooked s)).
Definition emit (c : Z) : K Log unit :=
  kmod (λ s, mkLog (lmem s) (lap s) (putchar_hook s) (serial s ++ [c])
    (if negb (putchar_hook s =? 0) then hooked s ++ [(putchar_hook s, c)] else hooked s)).
Definition fetch (a : Z) : K Log Z := kopt (λ s, lmem s !! a).
(** [va_arg] *)
Definition next_arg : K Log Z :=
  x ← kopt (λ s, head (lap s));
  kmod (λ s, mkLog (lmem s) (tail (lap s)) (putchar_hook s) (serial s) (hooked s));;
  mret x.

Definition print_uint64 (val base : Z) : K Log unit :=
  if val =? 0 then emit 48 else
  l ← kopt (λ _, digit_loop 64 val base []);
  kfor l emit.
Definition print_int64 (val : Z) : K Log unit :=
  if val <? 0 then
    emit 45;;
    if val =? - 2 ^ 63 then print_uint64 (u64 (2 ^ 63 - 1 + 1)) 10 else print_uint64 (u64 (- val)) 10
  else print_uint64 (u64 val) 10.
Definition print_ptr (val : Z) : K Log unit :=
  emit 48;; emit 120;;
  kfor ((λ k, 60 - 4 * k) <$> seqZ 0 16) (λ shift, emit (digit_char (Z.land (Z.shiftr val shift) 0xF))).

(** [while ( *s) emit( *s++)] *)
Fixpoint emit_string (fuel : nat) (s : Z) : K Log unit :=
  match fuel with
  | O => kstuck
  | S fuel' => c ← fetch s; if negb (c =? 0) then emit c;; emit_string fuel' (s + 1) else mret tt
  end.
(** One conversion, after [%] and an optional [l]. *)
Definition kprintf_conv (is_long : bool) (c : Z) : K Log unit :=
  if c =? 100 then x ← next_arg; print_int64 (if is_long then i64 x else i32 x) else
  if c =? 117 then x ← next_arg; print_uint64 (if is_long then u64 x else u32 x) 10 else
  if c =? 120 then x ← next_arg; print_uint64 (if is_long then u64 x else u32 x) 16 else
  if c =? 112 then x ← next_arg; print_ptr (u64 x) else
  if c =? 115 then
    x ← next_arg;
    if x =? 0 then kfor null_text emit else
    fuel ← kget (λ s, mem_fuel (lmem s));
    emit_string fuel x
  else if c =? 37 then emit 37
  else emit 37;; (if is_long then emit 108 else mret tt);; emit c.
(** [fuel] bounds the number of turns of the loop by the size of the memory that holds the format. *)
Fixpoint kprintf_loop (fuel : nat) (fmt i : Z) : K Log unit :=
  match fuel with
  | O => kstuck
  | S fuel' =>
      c ← fetch (fmt + i);
      if c =? 0 then mret tt else
      if negb (c =? 37) then emit c;; kprintf_loop fuel' fmt (i + 1) else
      d ← fetch (fmt + (i + 1));
      if d =? 0 then mret tt else
      if d =? 108 then
        e ← fetch (fmt + (i + 2));
        if e =? 0 then mret tt else
        kprintf_conv true e;; kprintf_loop fuel' fmt (i + 3)
      else kprintf_conv false d;; kprintf_loop fuel' fmt (i + 2)
  end.
Definition kprintf (fmt : Z) : K Log unit :=
  fuel ← kget (λ s, mem_fuel (lmem s));
  kprintf_loop fuel fmt 0.

(** ** libc/src/printf.c *)

(** The fields of [PrintState], with the memory and the arguments. *)
Record PrintState : Type := mkPs { pmem : Mem; pap : list Z; pbuf : Z; pos : Z; psize : Z }.

Definition ps_putchar (c : Z) : K PrintState unit :=
  kupd (λ s,
    m ← (if negb (pbuf s =? 0) && (u64 (pos s + 1) <? psize s)
         then _ ← pmem s !! (pbuf s + pos s); Some (<[pbuf s + pos s := c]> (pmem s)) else Some (pmem s));
    Some (mkPs m (pap s) (pbuf s) (u64 (pos s + 1)) (psize s))).
Definition ps_fetch (a : Z) : K PrintState Z := kopt (λ s, pmem s !! a).
Definition ps_arg : K PrintState Z :=
  x ← kopt (λ s, head (pap s));
  kmod (λ s, mkPs (pmem s) (tail (pap s)) (pbuf s) (pos s) (psize s));;
  mret x.

Definition ps_print_uint64 (val base width pad : Z) : K PrintState unit :=
  tmp ← kopt (λ _, if val =? 0 then Some [48] else digit_loop 64 val base []);
  let i := Z.of_nat (length tmp) in
  kfor (seqZ i (width - i)) (λ _, ps_putchar pad);;
  kfor tmp ps_putchar.
Definition ps_print_int64 (val width pad : Z) : K PrintState unit :=
  if val <? 0 then
    ps_putchar 45;;
    let width := if 0 <? width then width - 1 else width in
    if val =? - 2 ^ 63 then ps_print_uint64 (u64 (2 ^ 63 - 1 + 1)) 10 width pad else ps_print_uint64 (u64 (- val)) 10 width pad
  else ps_print_uint64 (u64 val) 10 width pad.

Fixpoint ps_string (fuel : nat) (s : Z) : K PrintState unit :=
  match fuel with
  | O => kstuck
  | S fuel' => c ← ps_fetch s; if negb (c =? 0) then ps_putchar c;; ps_string fuel' (s + 1) else mret tt
  end.
Definition ps_conv (is_long : bool) (width pad c : Z) : K PrintState unit :=
  if c =? 100 then x ← ps_arg; ps_print_int64 (if is_long then i64 x else i32 x) width pad else
  if c =? 117 then x ← ps_arg; ps_print_uint64 (if is_long then u64 x else u32 x) 10 width pad else
  if c =? 120 then x ← ps_arg; ps_print_uint64 (if is_long then u64 x else u32 x) 16 width pad else
  if c =? 112 then x ← ps_arg; ps_putchar 48;; ps_putchar 120;; ps_print_uint64 (u64 x) 16 16 48 else
  if c =? 115 then
    x ← ps_arg;
    if x =? 0 then kfor null_text ps_putchar else
    fuel ← kget (λ s, mem_fuel (pmem s));
    ps_string fuel x
  else if c =? 99 then x ← ps_arg; ps_putchar (u8 x)
  else if c =? 37 then ps_putchar 37
  else ps_putchar 37;; (if is_long then ps_putchar 108 else mret tt);; ps_putchar c.

(** The digits of the width: the index behind them and their value; the [int] is wrapped around where C leaves it undefined. *)
Fixpoint width_loop (fuel : nat) (fmt i width : Z) : K PrintState (Z * Z) :=
  match fuel with
  | O => kstuck
  | S fuel' =>
      c ← ps_fetch (fmt + i);
      if (48 <=? c) && (c <=? 57) then width_loop fuel' fmt (i + 1) (i32 (width * 10 + (c - 48)))
      else mret (i, width)
  end.
Fixpoint vsnprintf_loop (fuel : nat) (fmt i : Z) : K PrintState unit :=
  match fuel with
  | O => kstuck
  | S fuel' =>
      c ← ps_fetch (fmt + i);
      if c =? 0 then mret tt else
      if negb (c =? 37) then ps_putchar c;; vsnprintf_loop fuel' fmt (i + 1) else
      d ← ps_fetch (fmt + (i + 1));
      if d =? 0 then mret tt else
      let pad := if d =? 48 then 48 else 32 in
      wf ← kget (λ s, mem_fuel (pmem s));
      w ← width_loop wf fmt (if d =? 48 then i + 2 else i + 1) 0;
      e ← ps_fetch (fmt + w.1);
      if e =? 0 then mret tt else
      if e =? 108 then
        g ← ps_fetch (fmt + (w.1 + 1));
        if g =? 0 then mret tt else
        ps_conv true w.2 pad g;; vsnprintf_loop fuel' fmt (w.1 + 2)
      else ps_conv false w.2 pad e;; vsnprintf_loop fuel' fmt (w.1 + 1)
  end.
(** [buf\[i\] = 0] *)
Definition ps_store0 (a : Z) : K PrintState unit :=
  kupd (λ s, _ ← pmem s !! a; Some (mkPs (<[a := 0]> (pmem s)) (pap s) (pbuf s) (pos s) (psize s))).
(** The state is that of the call: [PrintState ps = \{ buf, 0, size \}]. *)
Definition vsnprintf (buf size fmt : Z) : K PrintState Z :=
  kmod (λ s, mkPs (pmem s) (pap s) buf 0 size);;
  fuel ← kget (λ s, mem_fuel (pmem s));
  vsnprintf_loop fuel fmt 0;;
  p ← kget pos;
  (if negb (buf =? 0) then
     if p <? size then ps_store0 (buf + p)
     else if 0 <? size then ps_store0 (buf + (size - 1)) else mret tt
   else mret tt);;
  mret (i32 p).

(** [printf] and [fprintf] format into a local array, at the address [tmp], and write it with one system call. *)
Record Stdio : Type := mkStdio { io : PrintState; written : list (Z * list Z) }.
Definition write (fd a n : Z) : K Stdio unit :=
  kupd (λ s, l ← mapM (λ i, pmem (io s) !! (a + i)) (seqZ 0 n); Some (mkStdio (io s) (written s ++ [(fd, l)]))).
Definition fprintf (tmp fd fmt : Z) : K Stdio Z :=
  len ← zoom io (λ p s, mkStdio p (written s)) (vsnprintf tmp 1024 fmt);
  let len := if 1024 - 1 <? len then 1024 - 1 else len in
  (if 0 <? len then write fd tmp len else mret tt);;
  mret len.
Definition printf (tmp fmt : Z) : K Stdio Z := fprintf tmp 1 fmt.
