(* ===== verification/PrintfCorrect.v ===== *)
(** * Formatted output: correctness

    Both formatters print what a reference reading of the format says.  The digits of
    a number read back as the number and fit their buffer; [vsnprintf] leaves in its
    buffer as much of the text as fits, terminated, and returns the length of the text. *)
From S2P Require Import Prelude CString Printf.

(** ** Numbers *)

Definition digit_value (c : Z) : Z := if c <? 97 then c - 48 else c - 87.
Definition value (base : Z) (l : list Z) : Z := foldl (λ acc c, acc * base + digit_value c) 0 l.
Definition is_digit (base c : Z) : Prop := (48 ≤ c ≤ 57 ∨ 97 ≤ c ≤ 102) ∧ digit_value c < base.
(** The text of a number. *)
Definition number (base n : Z) : list Z := if n =? 0 then [48] else default [] (digit_loop 64 n base []).
Definition numeral (base n : Z) (l : list Z) : Prop :=
  value base l = n ∧ Forall (is_digit base) l ∧ l ≠ [] ∧ (n ≠ 0 → head l ≠ Some 48).

Lemma digit_char_ok base d : 2 ≤ base ≤ 16 → 0 ≤ d < base → is_digit base (digit_char d) ∧ digit_value (digit_char d) = d.
Proof.
  intros Hb Hd. unfold digit_char, is_digit, digit_value. destruct (Z.ltb_spec d 10).
  - destruct (Z.ltb_spec (48 + d) 97); lia.
  - destruct (Z.ltb_spec (97 + (d - 10)) 97); lia.
Qed.
Lemma value_snoc base l c : value base (l ++ [c]) = value base l * base + digit_value c.
Proof. unfold value. by rewrite foldl_app. Qed.

Lemma digit_loop_0 fuel base buf : digit_loop fuel 0 base buf = Some buf.
Proof. by destruct fuel. Qed.
Lemma digit_loop_ok base (n : nat) : 2 ≤ base ≤ 16 → ∀ fuel val buf, 0 ≤ val < base ^ Z.of_nat n → (n ≤ fuel)%nat → (n + length buf ≤ 21)%nat →
  ∃ l, digit_loop fuel val base buf = Some (l ++ buf) ∧ value base l = val ∧ Forall (is_digit base) l ∧ (length l ≤ n)%nat ∧
    (val ≠ 0 → l ≠ [] ∧ head l ≠ Some 48).
Proof.
  intros Hb. induction n as [|n IH]; intros fuel val buf Hv Hf Hl; (destruct (decide (val = 0)) as [->|Hne]; [exists []; rewrite digit_loop_0; split_and!; cbn; done || lia|]).
  { cbn in Hv. lia. }
  destruct fuel as [|fuel]; [lia|]. cbn [digit_loop]. destruct (Z.ltb_spec 0 val); [|lia].
  destruct (Z.ltb_spec (Z.of_nat (length buf)) 21); [|lia].
  assert (0 ≤ val mod base < base) as Hm by (apply Z.mod_pos_bound; lia).
  destruct (digit_char_ok base (val mod base) Hb Hm) as [Hd Hdv].
  rewrite Nat2Z.inj_succ, Z.pow_succ_r in Hv by lia.
  assert (0 ≤ val / base < base ^ Z.of_nat n) as Hq.
  { split; [apply Z.div_pos; lia|]. apply Z.div_lt_upper_bound; lia. }
  pose proof (Z.div_mod val base ltac:(lia)) as Hdm.
  destruct (IH fuel (val / base) (digit_char (val mod base) :: buf) Hq) as (l & E & Hval & Hall & Hlen & Hhd); [lia|cbn; lia|].
  destruct (decide (val / base = 0)) as [E0|E0].
  - exists [digit_char (val mod base)]. rewrite E0 in *. rewrite digit_loop_0. split_and!; [done|cbn; lia|by apply Forall_singleton|cbn; lia|].
    intros _. split; [done|]. intros [= E48]. rewrite E48 in Hdv. cbn in Hdv. lia.
  - exists (l ++ [digit_char (val mod base)]). rewrite E, <-app_assoc, value_snoc, Hval, Hdv, length_app.
    split_and!; [done|lia|apply Forall_app; by split; [|apply Forall_singleton]|cbn; lia|].
    intros _. destruct (Hhd E0) as [Hl0 Hh]. by destruct l.
Qed.

(** Twenty digits are enough in base 10, sixteen in base 16. *)
Definition enough (base : Z) : nat := if base =? 10 then 20 else 16.
Lemma number_ok base n : base = 10 ∨ base = 16 → 0 ≤ n < 2 ^ 64 →
  (if n =? 0 then Some [48] else digit_loop 64 n base []) = Some (number base n) ∧ numeral base n (number base n) ∧ (length (number base n) ≤ enough base)%nat.
Proof.
  intros Hb Hn. unfold number. destruct (Z.eqb_spec n 0) as [->|Hne].
  { split_and!; [done| |by destruct Hb as [->| ->]; cbn; lia]. split_and!; [by destruct Hb as [->| ->]| |done|done].
    apply Forall_singleton. destruct Hb as [->| ->]; split; cbn; lia. }
  assert (n < base ^ Z.of_nat (enough base)) as Hlt.
  { destruct Hb as [->| ->]; eapply Z.lt_le_trans; [apply Hn|by apply Z.leb_le; vm_compute|apply Hn|by apply Z.leb_le; vm_compute]. }
  destruct (digit_loop_ok base (enough base) ltac:(lia) 64 n [] ltac:(lia)) as (l & E & Hval & Hall & Hlen & Hhd).
  - destruct Hb as [->| ->]; cbn; lia.
  - destruct Hb as [->| ->]; cbn; lia.
  - rewrite E, app_nil_r. cbn. split_and!; [done| |done]. destruct (Hhd Hne). by split_and!.
Qed.

(** ** What a format says *)

Definition signed_text (n : Z) : list Z := if n <? 0 then 45 :: number 10 (- n) else number 10 n.
Definition pad_to (width pad : Z) (t : list Z) : list Z := replicate (Z.to_nat (width - Z.of_nat (length t))) pad ++ t.
Definition nibbles (n : Z) : list Z := (λ k, digit_char (Z.land (Z.shiftr n (60 - 4 * k)) 0xF)) <$> seqZ 0 16.
Definition string_text (strs : Z → option (list Z)) (x : Z) : option (list Z) := if x =? 0 then Some null_text else strs x.

Section format.
(** The strings that the arguments point to. *)
Context (strs : Z → option (list Z)).

(** The text of one conversion of [kprintf] and the arguments behind it. *)
Definition kconv_text (is_long : bool) (c : Z) (args : list Z) : option (list Z * list Z) :=
  if c =? 100 then x ← head args; Some (signed_text (if is_long then i64 x else i32 x), tail args) else
  if c =? 117 then x ← head args; Some (number 10 (if is_long then u64 x else u32 x), tail args) else
  if c =? 120 then x ← head args; Some (number 16 (if is_long then u64 x else u32 x), tail args) else
  if c =? 112 then x ← head args; Some ([48; 120] ++ nibbles (u64 x), tail args) else
  if c =? 115 then x ← head args; t ← string_text strs x; Some (t, tail args) else
  if c =? 37 then Some ([37], args) else Some ([37] ++ (if is_long then [108] else []) ++ [c], args).
Fixpoint kformat (f args : list Z) : option (list Z) :=
  match f with
  | [] => Some []
  | c :: f1 =>
      if negb (c =? 37) then o ← kformat f1 args; Some (c :: o) else
      match f1 with
      | [] => Some []
      | d :: f2 =>
          if d =? 108 then
            match f2 with
            | [] => Some []
            | e :: f3 => r ← kconv_text true e args; o ← kformat f3 r.2; Some (r.1 ++ o)
            end
          else r ← kconv_text false d args; o ← kformat f2 r.2; Some (r.1 ++ o)
      end
  end.

(** The conversions of [vsnprintf], with a width. *)
Definition signed_pad (n width pad : Z) : list Z :=
  if n <? 0 then 45 :: pad_to (if 0 <? width then width - 1 else width) pad (number 10 (- n)) else pad_to width pad (number 10 n).
Definition conv_text (is_long : bool) (width pad c : Z) (args : list Z) : option (list Z * list Z) :=
  if c =? 100 then x ← head args; Some (signed_pad (if is_long then i64 x else i32 x) width pad, tail args) else
  if c =? 117 then x ← head args; Some (pad_to width pad (number 10 (if is_long then u64 x else u32 x)), tail args) else
  if c =? 120 then x ← head args; Some (pad_to width pad (number 16 (if is_long then u64 x else u32 x)), tail args) else
  if c =? 112 then x ← head args; Some ([48; 120] ++ pad_to 16 48 (number 16 (u64 x)), tail args) else
  if c =? 115 then x ← head args; t ← string_text strs x; Some (t, tail args) else
  if c =? 99 then x ← head args; Some ([u8 x], tail args) else
  if c =? 37 then Some ([37], args) else Some ([37] ++ (if is_long then [108] else []) ++ [c], args).
(** The width at the front of a format and what follows it. *)
Fixpoint width_of (f : list Z) (width : Z) : Z * list Z :=
  match f with
  | c :: f' => if (48 <=? c) && (c <=? 57) then width_of f' (i32 (width * 10 + (c - 48))) else (width, f)
  | [] => (width, [])
  end.
Fixpoint vformat (fuel : nat) (f args : list Z) : option (list Z) :=
  match fuel, f with
  | _, [] => Some []
  | O, _ => None
  | S fuel', c :: f1 =>
      if negb (c =? 37) then o ← vformat fuel' f1 args; Some (c :: o) else
      match f1 with
      | [] => Some []
      | d :: f2 =>
          let pad := if d =? 48 then 48 else 32 in
          let w := width_of (if d =? 48 then f2 else f1) 0 in
          match w.2 with
          | [] => Some []
          | e :: f3 =>
              if e =? 108 then
                match f3 with
                | [] => Some []
                | g :: f4 => r ← conv_text true w.1 pad g args; o ← vformat fuel' f4 r.2; Some (r.1 ++ o)
                end
              else r ← conv_text false w.1 pad e args; o ← vformat fuel' f3 r.2; Some (r.1 ++ o)
          end
      end
  end.
End format.

(** The arguments as the conversions read them. *)
Lemma arg_signed (is_long : bool) x : - 2 ^ 63 ≤ (if is_long then i64 x else i32 x) < 2 ^ 63.
Proof.
  destruct is_long; [|pose proof (i32_range x); lia].
  unfold i64. pose proof (u64_range x). unfold u64 in *. destruct (Z.ltb_spec (x mod 2 ^ 64) (2 ^ 63)); lia.
Qed.
Lemma arg_unsigned (is_long : bool) x : 0 ≤ (if is_long then u64 x else u32 x) < 2 ^ 64.
Proof. pose proof (u64_range x). pose proof (u32_range x). destruct is_long; lia. Qed.

(** ** kprintf *)

(** The log with the text [t] added and the arguments [a] left. *)
Definition log_step (t a : list Z) (s : Log) : Log :=
  mkLog (lmem s) a (putchar_hook s) (serial s ++ t)
    (if negb (putchar_hook s =? 0) then hooked s ++ (pair (putchar_hook s) <$> t) else hooked s).
Definition kemits (m : K Log unit) (t a a' : list Z) : Prop := ∀ s, lap s = a → m s = Done tt (log_step t a' s).

Lemma log_step_nil a s : lap s = a → log_step [] a s = s.
Proof. destruct s as [m ap h se ho]. intros <-. unfold log_step. cbn. rewrite !app_nil_r. by destruct (h =? 0). Qed.
Lemma log_step_app t1 t2 a1 a2 s : log_step t2 a2 (log_step t1 a1 s) = log_step (t1 ++ t2) a2 s.
Proof.
  unfold log_step. cbn. rewrite app_assoc, fmap_app. f_equal. destruct (putchar_hook s =? 0); cbn; [done|]. by rewrite app_assoc.
Qed.
Lemma kemits_seq m1 (m2 : K Log unit) t1 t2 a a1 a2 : kemits m1 t1 a a1 → kemits m2 t2 a1 a2 → kemits (m1;; m2) (t1 ++ t2) a a2.
Proof. intros H1 H2 s Hs. kbind (H1 s Hs). rewrite H2 by done. by rewrite log_step_app. Qed.
Lemma kemits_ret a : kemits (mret tt) [] a a.
Proof. intros s Hs. by rewrite log_step_nil. Qed.
Lemma kemits_emit c a : kemits (emit c) [c] a a.
Proof. intros s <-. by destruct s. Qed.
Lemma kemits_list l a : kemits (kfor l emit) l a a.
Proof.
  induction l as [|c l IH]; [apply kemits_ret|]. cbn [kfor]. change (c :: l) with ([c] ++ l).
  eapply kemits_seq; [apply kemits_emit|apply IH].
Qed.
Lemma kemits_number base n a : base = 10 ∨ base = 16 → 0 ≤ n < 2 ^ 64 → kemits (print_uint64 n base) (number base n) a a.
Proof.
  intros Hb Hn s Hs. destruct (number_ok base n Hb Hn) as [E _]. unfold print_uint64. destruct (n =? 0).
  - injection E as <-. by apply kemits_emit.
  - rewrite (kopt_bind (λ _, digit_loop 64 n base []) _ s _ E). by apply kemits_list.
Qed.
Lemma kemits_signed n a : - 2 ^ 63 ≤ n < 2 ^ 63 → kemits (print_int64 n) (signed_text n) a a.
Proof.
  intros Hn. unfold print_int64, signed_text. destruct (Z.ltb_spec n 0); [|rewrite u64_small by lia; apply kemits_number; lia].
  change (45 :: number 10 (- n)) with ([45] ++ number 10 (- n)). eapply kemits_seq; [apply kemits_emit|].
  destruct (Z.eqb_spec n (- 2 ^ 63)) as [->|]; [apply kemits_number; [lia|vm_compute; split; done]|].
  rewrite u64_small by lia. apply kemits_number; lia.
Qed.
Lemma kemits_ptr n a : kemits (print_ptr n) ([48; 120] ++ nibbles n) a a.
Proof.
  unfold print_ptr, nibbles. change ([48; 120] ++ ?l) with ([48] ++ [120] ++ l). do 2 (eapply kemits_seq; [apply kemits_emit|]).
  intros s Hs. rewrite kfor_fmap, <-(kfor_fmap (λ k, digit_char (Z.land (Z.shiftr n (60 - 4 * k)) 0xF)) (seqZ 0 16) emit). by apply kemits_list.
Qed.
(** A string in memory; the size of the memory bounds its length. *)
Lemma kemits_string m t a : ∀ fuel x, bytes_at m x (t ++ [0]) → 0 ∉ t → (length t < fuel)%nat →
  ∀ s, lmem s = m → lap s = a → emit_string fuel x s = Done tt (log_step t a s).
Proof.
  induction t as [|c t IH]; intros [|fuel] x Hb H0 Hf s Hm Ha; cbn [length] in Hf; try lia; cbn [emit_string app] in *;
    apply bytes_at_cons in Hb as [Hc Hb]; rewrite <-Hm in Hc; unfold fetch; rewrite (kopt_bind (λ s, lmem s !! x) _ s _ Hc).
  - by rewrite log_step_nil.
  - apply not_elem_of_cons in H0 as [Hc0 H0]. rewrite (proj2 (Z.eqb_neq c 0)) by done. cbn [negb].
    kbind (kemits_emit c a s Ha). rewrite IH by (done || lia). by rewrite log_step_app.
Qed.
Lemma cstr_fuel m x t : cstr m x t → (length t < mem_fuel m)%nat.
Proof. intros [Hb _]. apply bytes_at_length in Hb. rewrite length_app in Hb. unfold mem_fuel. cbn in Hb. lia. Qed.

Lemma bytes_at_snoc m x l c : bytes_at m x l → bytes_at (<[x + Z.of_nat (length l) := c]> m) x (l ++ [c]).
Proof.
  intros Hb i d [Hd|[Hi Hd]]%lookup_app_Some.
  - rewrite lookup_insert_ne; [by apply Hb|]. apply lookup_lt_Some in Hd. lia.
  - apply list_lookup_singleton_Some in Hd as [Hi0 <-]. replace (x + Z.of_nat i) with (x + Z.of_nat (length l)) by lia. apply lookup_insert_eq.
Qed.

Section kprintf.
Context (m : Mem) (strs : Z → option (list Z)).
Hypothesis Hstrs : ∀ x t, strs x = Some t → cstr m x t.

(** Output by code that may read the memory [m]. *)
Definition kreads (c : K Log unit) (t a a' : list Z) : Prop := ∀ s, lmem s = m → lap s = a → c s = Done tt (log_step t a' s).
Lemma kreads_emits c t a a' : kemits c t a a' → kreads c t a a'.
Proof. intros Hc s _. apply Hc. Qed.
Lemma next_arg_reads (k : Z → K Log unit) x t a a' : kreads (k x) t (tail a) a' → head a = Some x → kreads (next_arg ≫= k) t a a'.
Proof.
  intros Hk Hx s Hm Ha. unfold next_arg. rewrite bind_assoc, <-Ha in *. rewrite (kopt_bind (λ s, head (lap s)) _ s _ Hx), bind_assoc, kmod_bind, mret_bind.
  by rewrite Hk.
Qed.
Lemma kconv_ok is_long c a t a' : kconv_text strs is_long c a = Some (t, a') → kreads (kprintf_conv is_long c) t a a'.
Proof.
  unfold kconv_text, kprintf_conv. intros E.
  destruct (c =? 100); [simplify_option_eq; eapply next_arg_reads; [|done]; apply kreads_emits, kemits_signed, arg_signed|].
  destruct (c =? 117); [simplify_option_eq; eapply next_arg_reads; [|done]; apply kreads_emits, kemits_number; [by left|apply arg_unsigned]|].
  destruct (c =? 120); [simplify_option_eq; eapply next_arg_reads; [|done]; apply kreads_emits, kemits_number; [by right|apply arg_unsigned]|].
  destruct (c =? 112); [simplify_option_eq; eapply next_arg_reads; [|done]; apply kreads_emits, kemits_ptr|].
  destruct (c =? 115).
  { simplify_option_eq. eapply next_arg_reads; [|done]. unfold string_text in *. destruct (_ =? 0); [simplify_eq; exact (kreads_emits _ _ _ _ (kemits_list null_text _))|].
    intros s Hm Ha. rewrite kget_bind, Hm. match goal with E : strs _ = Some _ |- _ => apply Hstrs in E as Hc end.
    by eapply kemits_string; [apply Hc|apply Hc|eapply cstr_fuel, Hc| |]. }
  destruct (c =? 37); [simplify_eq; apply kreads_emits, kemits_emit|].
  simplify_eq. apply kreads_emits. eapply kemits_seq; [apply kemits_emit|]. eapply kemits_seq; [|apply kemits_emit].
  destruct is_long; [apply kemits_emit|apply kemits_ret].
Qed.

Lemma kreads_seq (c1 c2 : K Log unit) t1 t2 a a1 a2 : kreads c1 t1 a a1 → kreads c2 t2 a1 a2 → kreads (c1;; c2) (t1 ++ t2) a a2.
Proof. intros H1 H2 s Hm Ha. kbind (H1 s Hm Ha). rewrite H2 by done. by rewrite log_step_app. Qed.
Lemma fetch_reads (k : Z → K Log unit) x c t a a' : m !! x = Some c → kreads (k c) t a a' → kreads (fetch x ≫= k) t a a'.
Proof. intros Hc Hk s Hm Ha. rewrite <-Hm in Hc. unfold fetch. rewrite (kopt_bind (λ s, lmem s !! x) _ s _ Hc). by apply Hk. Qed.
Lemma kprintf_loop_ok fmt : ∀ fuel f i a o, bytes_at m (fmt + i) (f ++ [0]) → 0 ∉ f → (length f < fuel)%nat → kformat strs f a = Some o →
  ∃ a', kreads (kprintf_loop fuel fmt i) o a a'.
Proof.
  induction fuel as [|fuel IH]; intros f i a o Hb H0 Hf Ho; [lia|]. cbn [kprintf_loop].
  destruct f as [|c f1]; apply bytes_at_cons in Hb as [Hc Hb].
  { exists a. injection Ho as <-. eapply fetch_reads; [exact Hc|]. apply kreads_emits, kemits_ret. }
  apply not_elem_of_cons in H0 as [Hc0 H0]. cbn [kformat length] in *. destruct (c =? 37) eqn:Ec; cbn [negb] in Ho.
  2: { destruct (kformat strs f1 a) as [o1|] eqn:Eo; [|done]. injection Ho as <-.
       destruct (IH f1 (i + 1) a o1) as (a' & Hk); [by rewrite Z.add_assoc|done|lia|done|]. exists a'.
       eapply fetch_reads; [exact Hc|]. rewrite (proj2 (Z.eqb_neq c 0)), Ec by done. change (c :: o1) with ([c] ++ o1).
       eapply kreads_seq; [apply kreads_emits, kemits_emit|done]. }
  assert (∀ k, fmt + (i + k) = fmt + i + k) as Hi by lia.
  destruct f1 as [|d f2]; apply bytes_at_cons in Hb as [Hd Hb]; rewrite <-Z.add_assoc in Hd.
  { exists a. injection Ho as <-. eapply fetch_reads; [exact Hc|]. rewrite (proj2 (Z.eqb_neq c 0)), Ec by done.
    eapply fetch_reads; [exact Hd|]. apply kreads_emits, kemits_ret. }
  apply not_elem_of_cons in H0 as [Hd0 H0]. cbn [length] in *. destruct (d =? 108) eqn:El.
  2: { destruct (kconv_text strs false d a) as [[t a1]|] eqn:Et; [|done]. cbn in Ho.
       destruct (kformat strs f2 a1) as [o2|] eqn:Eo; [|done]. injection Ho as <-.
       destruct (IH f2 (i + 2) a1 o2) as (a' & Hk); [by replace (fmt + (i + 2)) with (fmt + i + 1 + 1) by lia|done|lia|done|].
       exists a'. eapply fetch_reads; [exact Hc|]. rewrite (proj2 (Z.eqb_neq c 0)), Ec by done.
       eapply fetch_reads; [exact Hd|]. rewrite (proj2 (Z.eqb_neq d 0)), El by done. eapply kreads_seq; [by apply kconv_ok|done]. }
  destruct f2 as [|e f3]; apply bytes_at_cons in Hb as [He Hb]; replace (fmt + i + 1 + 1) with (fmt + (i + 2)) in He by lia.
  { exists a. injection Ho as <-. eapply fetch_reads; [exact Hc|]. rewrite (proj2 (Z.eqb_neq c 0)), Ec by done.
    eapply fetch_reads; [exact Hd|]. rewrite (proj2 (Z.eqb_neq d 0)), El by done. eapply fetch_reads; [exact He|]. apply kreads_emits, kemits_ret. }
  apply not_elem_of_cons in H0 as [He0 H0]. cbn [length] in *.
  destruct (kconv_text strs true e a) as [[t a1]|] eqn:Et; [|done]. cbn in Ho.
  destruct (kformat strs f3 a1) as [o3|] eqn:Eo; [|done]. injection Ho as <-.
  destruct (IH f3 (i + 3) a1 o3) as (a' & Hk); [by replace (fmt + (i + 3)) with (fmt + i + 1 + 1 + 1) by lia|done|lia|done|].
  exists a'. eapply fetch_reads; [exact Hc|]. rewrite (proj2 (Z.eqb_neq c 0)), Ec by done. eapply fetch_reads; [exact Hd|].
  rewrite (proj2 (Z.eqb_neq d 0)), El by done. eapply fetch_reads; [exact He|]. rewrite (proj2 (Z.eqb_neq e 0)) by done.
  eapply kreads_seq; [by apply kconv_ok|done].
Qed.
End kprintf.

(** ** vsnprintf *)

Lemma width_of_length f : ∀ w, (length (width_of f w).2 ≤ length f)%nat.
Proof. induction f as [|c f IH]; intros w; cbn; [lia|]. destruct (_ && _); [|done]. specialize (IH (i32 (w * 10 + (c - 48)))). lia. Qed.

Section vsnprintf.
Context (m : Mem) (strs : Z → option (list Z)) (buf size : Z).
Hypothesis Hsize : 0 ≤ size < 2 ^ 64.
Hypothesis Hbuf : buf ≠ 0 → mapped m buf size.

(** The addresses that a call may write. *)
Definition in_buffer (x : Z) : Prop := buf ≠ 0 ∧ buf ≤ x < buf + size.
Definition same_outside (m' : Mem) : Prop := ∀ x, ¬ in_buffer x → m' !! x = m !! x.
(** A string that the call does not overwrite. *)
Definition apart (x : Z) (t : list Z) : Prop := cstr m x t ∧ ∀ i, 0 ≤ i ≤ Z.of_nat (length t) → ¬ in_buffer (x + i).
Hypothesis Hstrs : ∀ x t, strs x = Some t → apart x t.

(** After the text [o], with the arguments [a] left. *)
Record ps_at (o a : list Z) (s : PrintState) : Prop := {
  pa_args : pap s = a;
  pa_buf : pbuf s = buf;
  pa_size : psize s = size;
  pa_pos : pos s = Z.of_nat (length o);
  pa_same : same_outside (pmem s);
  pa_mapped : buf ≠ 0 → mapped (pmem s) buf size;
  pa_text : buf ≠ 0 → bytes_at (pmem s) buf (take (Z.to_nat (size - 1)) o);
}.
Definition emits (c : K PrintState unit) (t a a' : list Z) : Prop :=
  ∀ o s, ps_at o a s → Z.of_nat (length o + length t) < 2 ^ 62 → ∃ s', c s = Done tt s' ∧ ps_at (o ++ t) a' s'.

Lemma emits_ret a : emits (mret tt) [] a a.
Proof. intros o s Hs _. exists s. by rewrite app_nil_r. Qed.
Lemma emits_seq (c1 c2 : K PrintState unit) t1 t2 a a1 a2 : emits c1 t1 a a1 → emits c2 t2 a1 a2 → emits (c1;; c2) (t1 ++ t2) a a2.
Proof.
  intros H1 H2 o s Hs Hl. rewrite length_app in Hl. destruct (H1 o s Hs) as (s1 & E1 & Hs1); [lia|].
  destruct (H2 _ s1 Hs1) as (s2 & E2 & Hs2); [rewrite length_app; lia|]. exists s2. kbind E1. by rewrite app_assoc.
Qed.
Lemma emits_putchar c a : emits (ps_putchar c) [c] a a.
Proof.
  intros o s [Ha Hb Hz Hp Ho Hm Ht] Hl. cbn in Hl. unfold ps_putchar, kupd. rewrite Hb, Hz, Hp, u64_small by lia.
  destruct (Z.eqb_spec buf 0) as [H0|H0]; cbn [negb andb].
  { eexists. split; [reflexivity|]. split; cbn; try done. rewrite length_app. cbn. lia. }
  destruct (Z.ltb_spec (Z.of_nat (length o) + 1) size).
  - destruct (Hm H0 (Z.of_nat (length o))) as [v Ev]; [lia|]. rewrite Ev. cbn. eexists. split; [reflexivity|].
    rewrite take_ge in Ht by lia. split; cbn; try done.
    + rewrite length_app. cbn. lia.
    + intros x Hx. rewrite lookup_insert_ne; [by apply Ho|]. intros <-. apply Hx. split; [done|lia].
    + intros _ i Hi. rewrite lookup_insert. case_decide; [by eexists|by apply Hm].
    + intros _. rewrite take_ge by (rewrite length_app; cbn; lia). by apply bytes_at_snoc, Ht.
  - eexists. split; [reflexivity|]. split; cbn; try done.
    + rewrite length_app. cbn. lia.
    + intros _. rewrite take_app_le by lia. by apply Ht.
Qed.
Lemma emits_list l a : emits (kfor l ps_putchar) l a a.
Proof.
  induction l as [|c l IH]; [apply emits_ret|]. cbn [kfor]. change (c :: l) with ([c] ++ l).
  eapply emits_seq; [apply emits_putchar|apply IH].
Qed.
Lemma emits_pad i n pad a : emits (kfor (seqZ i n) (λ _, ps_putchar pad)) (replicate (Z.to_nat n) pad) a a.
Proof.
  assert ((λ _, pad) <$> seqZ i n = replicate (Z.to_nat n) pad) as <-.
  { unfold seqZ. rewrite <-list_fmap_compose. generalize 0%nat as k. induction (Z.to_nat n) as [|w IH]; intros k; cbn; [done|]. by rewrite IH. }
  intros o s Hs Hl. rewrite <-(kfor_fmap (λ _, pad) (seqZ i n) ps_putchar). by apply emits_list.
Qed.
Lemma emits_number base n width pad a : base = 10 ∨ base = 16 → 0 ≤ n < 2 ^ 64 →
  emits (ps_print_uint64 n base width pad) (pad_to width pad (number base n)) a a.
Proof.
  intros Hb Hn o s. destruct (number_ok base n Hb Hn) as [E _]. unfold ps_print_uint64.
  rewrite (kopt_bind (λ _, if n =? 0 then Some [48] else digit_loop 64 n base []) _ s _ E).
  revert o s. eapply emits_seq; [apply emits_pad|apply emits_list].
Qed.
Lemma emits_signed n width pad a : - 2 ^ 63 ≤ n < 2 ^ 63 → emits (ps_print_int64 n width pad) (signed_pad n width pad) a a.
Proof.
  intros Hn. unfold ps_print_int64, signed_pad. destruct (Z.ltb_spec n 0); [|rewrite u64_small by lia; apply emits_number; lia].
  change (45 :: ?l) with ([45] ++ l). eapply emits_seq; [apply emits_putchar|].
  destruct (Z.eqb_spec n (- 2 ^ 63)) as [->|]; [apply emits_number; [lia|vm_compute; split; done]|].
  rewrite u64_small by lia. apply emits_number; lia.
Qed.

Lemma apart_nil x : apart x [] → m !! x = Some 0 ∧ ¬ in_buffer x.
Proof. intros [[Hb _] Hi]. apply bytes_at_cons in Hb as [Hc _]. split; [done|]. rewrite <-(Z.add_0_r x). apply Hi. cbn. lia. Qed.
Lemma apart_cons x c t : apart x (c :: t) → m !! x = Some c ∧ c ≠ 0 ∧ ¬ in_buffer x ∧ apart (x + 1) t.
Proof.
  intros [[Hb H0] Hi]. apply bytes_at_cons in Hb as [Hc Hb]. apply not_elem_of_cons in H0 as [Hc0 H0]. split_and!; [done|done| |].
  - rewrite <-(Z.add_0_r x). apply Hi. lia.
  - split; [done|]. intros i Hx. rewrite <-Z.add_assoc. apply Hi. cbn. lia.
Qed.
Lemma apart_fuel x t o a s : apart x t → ps_at o a s → (length t < mem_fuel (pmem s))%nat.
Proof.
  intros [[Hb H0] Hi] Hs. apply (cstr_fuel _ x). split; [|done]. intros i c Hc. rewrite (pa_same _ _ _ Hs); [by apply Hb|].
  apply Hi. apply lookup_lt_Some in Hc. rewrite length_app in Hc. cbn in Hc. lia.
Qed.
Lemma fetch_same {A} x c (k : Z → K PrintState A) o a s : m !! x = Some c → ¬ in_buffer x → ps_at o a s → (ps_fetch x ≫= k) s = k c s.
Proof. intros Hc Hx Hs. unfold ps_fetch. apply (kopt_bind (λ s, pmem s !! x)). by rewrite (pa_same _ _ _ Hs). Qed.
Lemma emits_fetch (k : Z → K PrintState unit) x c t a a' : m !! x = Some c → ¬ in_buffer x → emits (k c) t a a' → emits (ps_fetch x ≫= k) t a a'.
Proof. intros Hc Hx Hk o s Hs Hl. rewrite (fetch_same x c k o a s) by done. by apply Hk. Qed.
Lemma emits_arg (k : Z → K PrintState unit) x t a a' : head a = Some x → emits (k x) t (tail a) a' → emits (ps_arg ≫= k) t a a'.
Proof.
  intros Hx Hk o s Hs Hl. unfold ps_arg. rewrite bind_assoc, (kopt_bind (λ s, head (pap s)) _ s x), bind_assoc, kmod_bind, mret_bind
    by (by rewrite (pa_args _ _ _ Hs)). apply Hk; [|done]. destruct Hs as [? ? ? ? ? ? ?]. split; cbn; try done. by f_equal.
Qed.
Lemma emits_string t a : ∀ fuel x, apart x t → (length t < fuel)%nat → emits (ps_string fuel x) t a a.
Proof.
  induction t as [|c t IH]; intros [|fuel] x Ha Hf; cbn [length] in Hf; try lia; cbn [ps_string].
  - apply apart_nil in Ha as [Hc Hx]. eapply emits_fetch; [done|done|]. apply emits_ret.
  - apply apart_cons in Ha as (Hc & Hc0 & Hx & Ha). eapply emits_fetch; [done|done|]. rewrite (proj2 (Z.eqb_neq c 0)) by done.
    change (c :: t) with ([c] ++ t). eapply emits_seq; [apply emits_putchar|]. apply IH; [done|lia].
Qed.
Lemma conv_ok is_long width pad c a t a' : conv_text strs is_long width pad c a = Some (t, a') → emits (ps_conv is_long width pad c) t a a'.
Proof.
  unfold conv_text, ps_conv. intros E.
  destruct (c =? 100); [simplify_option_eq; eapply emits_arg; [done|]; apply emits_signed, arg_signed|].
  destruct (c =? 117); [simplify_option_eq; eapply emits_arg; [done|]; apply emits_number; [by left|apply arg_unsigned]|].
  destruct (c =? 120); [simplify_option_eq; eapply emits_arg; [done|]; apply emits_number; [by right|apply arg_unsigned]|].
  destruct (c =? 112).
  { simplify_option_eq. eapply emits_arg; [done|]. change (48 :: 120 :: ?l) with ([48] ++ [120] ++ l).
    do 2 (eapply emits_seq; [apply emits_putchar|]). apply emits_number; [by right|apply u64_range]. }
  destruct (c =? 115).
  { simplify_option_eq. eapply emits_arg; [done|]. unfold string_text in *. destruct (_ =? 0); [simplify_eq; exact (emits_list null_text _)|].
    match goal with E : strs _ = Some _ |- _ => apply Hstrs in E as Hc end.
    intros o s Hs Hl. rewrite kget_bind. eapply (emits_string _ _ _ _ Hc); [by eapply apart_fuel|exact Hs|done]. }
  destruct (c =? 99); [simplify_option_eq; eapply emits_arg; [done|]; apply emits_putchar|].
  destruct (c =? 37); [simplify_eq; apply emits_putchar|].
  simplify_eq. eapply emits_seq; [apply emits_putchar|]. eapply emits_seq; [|apply emits_putchar].
  destruct is_long; [apply emits_putchar|apply emits_ret].
Qed.

(** How many characters the width takes. *)
Definition width_len (f : list Z) (w : Z) : Z := Z.of_nat (length f) - Z.of_nat (length (width_of f w).2).
Lemma width_ok fmt o a s : ps_at o a s → ∀ f fuel i w, apart (fmt + i) f → (length f < fuel)%nat →
  width_loop fuel fmt i w s = Done (i + width_len f w, (width_of f w).1) s ∧ apart (fmt + (i + width_len f w)) (width_of f w).2.
Proof.
  intros Hs. unfold width_len. induction f as [|c f IH]; intros [|fuel] i w Ha Hf; cbn [length] in Hf; try lia; cbn [width_loop width_of].
  - pose proof (apart_nil _ Ha) as [Hc Hx]. rewrite (fetch_same _ _ _ o a s Hc Hx Hs). cbn. by rewrite Z.add_0_r.
  - pose proof (apart_cons _ _ _ Ha) as (Hc & _ & Hx & Ha'). rewrite (fetch_same _ _ _ o a s Hc Hx Hs).
    destruct ((48 <=? c) && (c <=? 57)); [|cbn [fst snd]; by rewrite Z.sub_diag, Z.add_0_r].
    set (w' := i32 (w * 10 + (c - 48))). destruct (IH fuel (i + 1) w') as [E Hj]; [by rewrite Z.add_assoc|lia|].
    replace (i + (Z.of_nat (length (c :: f)) - Z.of_nat (length (width_of f w').2)))
      with (i + 1 + (Z.of_nat (length f) - Z.of_nat (length (width_of f w').2))) by (cbn [length]; lia). done.
Qed.
Lemma emits_width fmt i f w (k : Z * Z → K PrintState unit) t a a' : apart (fmt + i) f →
  emits (k (i + width_len f w, (width_of f w).1)) t a a' →
  emits (wf ← kget (λ s, mem_fuel (pmem s)); r ← width_loop wf fmt i w; k r) t a a'.
Proof.
  intros Ha Hk o s Hs Hl. rewrite kget_bind.
  destruct (width_ok fmt o a s Hs f (mem_fuel (pmem s)) i w Ha) as [E _]; [by eapply apart_fuel|]. kbind E. by apply Hk.
Qed.
Lemma width_apart fmt i f w : apart (fmt + i) f → apart (fmt + (i + width_len f w)) (width_of f w).2.
Proof.
  revert i w. unfold width_len. induction f as [|c f IH]; intros i w Ha; cbn [width_of]; [by rewrite Z.add_0_r|].
  pose proof (apart_cons _ _ _ Ha) as (_ & _ & _ & Ha'). destruct (_ && _); [|cbn [snd]; by rewrite Z.sub_diag, Z.add_0_r].
  rewrite <-Z.add_assoc in Ha'. apply (IH (i + 1)) with (w := i32 (w * 10 + (c - 48))) in Ha'.
  cbn [length]. match goal with |- apart ?x _ => match type of Ha' with apart ?y _ => replace x with y by lia end end. done.
Qed.

(** What follows the width, when the rest of the loop is known. *)
Lemma directive_ok fuel n fmt j rest w pad a t (loop : Z → K PrintState unit) :
  (∀ f i a t, apart (fmt + i) f → (length f < fuel)%nat → vformat strs n f a = Some t → ∃ a', emits (loop i) t a a') →
  apart (fmt + j) rest → (length rest ≤ fuel)%nat →
  match rest with
  | [] => Some []
  | e :: f3 =>
      if e =? 108 then
        match f3 with
        | [] => Some []
        | g :: f4 => r ← conv_text strs true w pad g a; o ← vformat strs n f4 r.2; Some (r.1 ++ o)
        end
      else r ← conv_text strs false w pad e a; o ← vformat strs n f3 r.2; Some (r.1 ++ o)
  end = Some t →
  ∃ a', emits (e ← ps_fetch (fmt + j);
    if e =? 0 then mret tt else
    if e =? 108 then
      g ← ps_fetch (fmt + (j + 1));
      if g =? 0 then mret tt else ps_conv true w pad g;; loop (j + 2)
    else ps_conv false w pad e;; loop (j + 1)) t a a'.
Proof.
  intros Hloop Ha Hl Ht. destruct rest as [|e f3].
  { exists a. injection Ht as <-. pose proof (apart_nil _ Ha) as [Hc Hx]. eapply emits_fetch; [done|done|]. apply emits_ret. }
  pose proof (apart_cons _ _ _ Ha) as (He & He0 & Hxe & Ha3). rewrite <-Z.add_assoc in Ha3. cbn [length] in Hl. destruct (e =? 108) eqn:El.
  - destruct f3 as [|g f4].
    { exists a. injection Ht as <-. pose proof (apart_nil _ Ha3) as [Hc Hx]. eapply emits_fetch; [done|done|].
      rewrite (proj2 (Z.eqb_neq e 0)), El by done. eapply emits_fetch; [done|done|]. apply emits_ret. }
    pose proof (apart_cons _ _ _ Ha3) as (Hg & Hg0 & Hxg & Ha4). cbn [length] in Hl.
    destruct (conv_text strs true w pad g a) as [[u a1]|] eqn:Eu; [|done]. cbn in Ht.
    destruct (vformat strs n f4 a1) as [t4|] eqn:E4; [|done]. injection Ht as <-.
    destruct (Hloop f4 (j + 2) a1 t4) as (a' & Hk); [by replace (fmt + (j + 2)) with (fmt + (j + 1) + 1) by lia|lia|done|]. exists a'.
    eapply emits_fetch; [done|done|]. rewrite (proj2 (Z.eqb_neq e 0)), El by done. eapply emits_fetch; [done|done|].
    rewrite (proj2 (Z.eqb_neq g 0)) by done. eapply emits_seq; [by apply conv_ok|done].
  - destruct (conv_text strs false w pad e a) as [[u a1]|] eqn:Eu; [|done]. cbn in Ht.
    destruct (vformat strs n f3 a1) as [t3|] eqn:E3; [|done]. injection Ht as <-.
    destruct (Hloop f3 (j + 1) a1 t3) as (a' & Hk); [done|lia|done|]. exists a'.
    eapply emits_fetch; [done|done|]. rewrite (proj2 (Z.eqb_neq e 0)), El by done. eapply emits_seq; [by apply conv_ok|done].
Qed.
Lemma vsnprintf_loop_ok fmt : ∀ fuel n f i a t, apart (fmt + i) f → (length f < fuel)%nat → vformat strs n f a = Some t →
  ∃ a', emits (vsnprintf_loop fuel fmt i) t a a'.
Proof.
  induction fuel as [|fuel IH]; intros n f i a t Ha Hf Ht; [lia|]. cbn [vsnprintf_loop].
  destruct f as [|c f1].
  { exists a. pose proof (apart_nil _ Ha) as [Hc Hx]. destruct n; injection Ht as <-; (eapply emits_fetch; [done|done|]; apply emits_ret). }
  pose proof (apart_cons _ _ _ Ha) as (Hc & Hc0 & Hx & Ha1). destruct n as [|n]; [done|]. cbn [vformat length] in *.
  rewrite <-Z.add_assoc in Ha1. destruct (c =? 37) eqn:Ec; cbn [negb] in Ht.
  2: { destruct (vformat strs n f1 a) as [t1|] eqn:Et; [|done]. injection Ht as <-.
       destruct (IH n f1 (i + 1) a t1) as (a' & Hk); [done|lia|done|]. exists a'.
       eapply emits_fetch; [done|done|]. rewrite (proj2 (Z.eqb_neq c 0)), Ec by done. change (c :: t1) with ([c] ++ t1).
       eapply emits_seq; [apply emits_putchar|done]. }
  destruct f1 as [|d f2].
  { exists a. injection Ht as <-. pose proof (apart_nil _ Ha1) as [Hd Hxd]. eapply emits_fetch; [done|done|].
    rewrite (proj2 (Z.eqb_neq c 0)), Ec by done. eapply emits_fetch; [done|done|]. apply emits_ret. }
  pose proof (apart_cons _ _ _ Ha1) as (Hd & Hd0 & Hxd & Ha2).
  set (g := if d =? 48 then f2 else d :: f2) in *. set (i2 := if d =? 48 then i + 2 else i + 1).
  assert (apart (fmt + i2) g) as Hg by (unfold g, i2; destruct (d =? 48); [by replace (fmt + (i + 2)) with (fmt + (i + 1) + 1) by lia|done]).
  assert (length g ≤ length (d :: f2))%nat as Hgl by (unfold g; destruct (d =? 48); cbn; lia).
  pose proof (width_of_length g 0) as Hwl.
  destruct (directive_ok fuel n fmt (i2 + width_len g 0) (width_of g 0).2 (width_of g 0).1 (if d =? 48 then 48 else 32) a t (vsnprintf_loop fuel fmt))
    as (a' & He); [by eauto|by apply width_apart|cbn in *; lia|done|].
  exists a'. eapply emits_fetch; [done|done|]. rewrite (proj2 (Z.eqb_neq c 0)), Ec by done.
  eapply emits_fetch; [done|done|]. rewrite (proj2 (Z.eqb_neq d 0)) by done. by eapply emits_width.
Qed.

Lemma store0_ok x o a s : in_buffer x → ps_at o a s →
  ∃ s', ps_store0 x s = Done tt s' ∧ same_outside (pmem s') ∧ pmem s' = <[x := 0]> (pmem s).
Proof.
  intros Hx Hs. pose proof Hx as [H0 Hr]. destruct (pa_mapped _ _ _ Hs H0 (x - buf)) as [v Ev]; [lia|].
  replace (buf + (x - buf)) with x in Ev by lia. unfold ps_store0, kupd. rewrite Ev. cbn. eexists. split; [reflexivity|]. cbn.
  split; [|done]. intros y Hy. rewrite lookup_insert_ne by (intros <-; done). by apply (pa_same _ _ _ Hs).
Qed.
Lemma vsnprintf_lemma fmt f a t s : pmem s = m → pap s = a → apart fmt f → vformat strs (length f) f a = Some t → Z.of_nat (length t) < 2 ^ 31 →
  ∃ s', vsnprintf buf size fmt s = Done (Z.of_nat (length t)) s' ∧ same_outside (pmem s') ∧
    (buf ≠ 0 → 0 < size → bytes_at (pmem s') buf (take (Z.to_nat (size - 1)) t ++ [0])).
Proof.
  intros Hm Ha Hf Ht Hlen. unfold vsnprintf. rewrite kmod_bind, kget_bind. cbn [pmem]. rewrite Hm.
  assert (ps_at [] a (mkPs m (pap s) buf 0 size)) as Hs0 by (split; cbn; try done; by rewrite take_nil).
  destruct (vsnprintf_loop_ok fmt (mem_fuel m) (length f) f 0 a t) as (a' & He); [by rewrite Z.add_0_r|by apply (apart_fuel _ _ _ _ _ Hf Hs0)|done|].
  destruct (He [] _ Hs0) as (s1 & E & Hs1); [cbn; lia|]. kbind E. rewrite kget_bind, (pa_pos _ _ _ Hs1). cbn [app] in *.
  rewrite i32_small by lia. destruct (Z.eqb_spec buf 0) as [H0|H0]; cbn [negb].
  { eexists. split; [reflexivity|]. split; [apply Hs1|done]. }
  pose proof (pa_text _ _ _ Hs1 H0) as Htx.
  destruct (Z.ltb_spec (Z.of_nat (length t)) size); [|destruct (Z.ltb_spec 0 size)].
  - destruct (store0_ok (buf + Z.of_nat (length t)) _ _ _ ltac:(split; [done|lia]) Hs1) as (s2 & E2 & Ho & Em). exists s2. kbind E2.
    split_and!; [done|done|]. intros _ _. rewrite Em. rewrite take_ge in Htx |- * by lia. by apply bytes_at_snoc.
  - destruct (store0_ok (buf + (size - 1)) _ _ _ ltac:(split; [done|lia]) Hs1) as (s2 & E2 & Ho & Em). exists s2. kbind E2.
    split_and!; [done|done|]. intros _ _. rewrite Em.
    replace (buf + (size - 1)) with (buf + Z.of_nat (length (take (Z.to_nat (size - 1)) t))) by (rewrite length_take; lia). by apply bytes_at_snoc.
  - eexists. split; [reflexivity|]. split; [apply Hs1|lia].
Qed.
End vsnprintf.

(** More fuel than characters makes no difference to the reading of a format. *)
Lemma vformat_enough strs n : ∀ f a, (length f ≤ n)%nat → vformat strs n f a = vformat strs (length f) f a.
Proof.
  assert (∀ n n' f a, (length f ≤ n)%nat → (length f ≤ n')%nat → vformat strs n f a = vformat strs n' f a) as Hboth; [|by intros; apply Hboth].
  clear n. induction n as [|n IH]; intros [|n'] [|c f1] a Hn Hn'; cbn [length] in *; try lia; try done. cbn [vformat].
  destruct (negb (c =? 37)); [by rewrite (IH n') by lia|]. destruct f1 as [|d f2]; [done|].
  pose proof (width_of_length (if d =? 48 then f2 else d :: f2) 0) as Hw.
  assert (length (if (d =? 48)%Z then f2 else d :: f2) ≤ S (length f2))%nat by (destruct (d =? 48); cbn; lia).
  destruct (width_of (if d =? 48 then f2 else d :: f2) 0) as [w [|e f3]]; [done|]. cbn [fst snd length] in *.
  destruct (e =? 108); [destruct f3 as [|g f4]; [done|]|]; cbn [length] in *;
    (destruct (conv_text _ _ _ _ _ _) as [[t a1]|]; [|done]); cbn; by rewrite (IH n') by lia.
Qed.

(** ** Theorems *)

(** [kprintf] prints on the serial port, and through the hook when one is set, exactly
    the text that the format says for its arguments, whenever there are enough of them and
    those of [%s] are strings or NULL. *)
Theorem kprintf_correct strs s fmt f t : cstr (lmem s) fmt f → (∀ x u, strs x = Some u → cstr (lmem s) x u) → kformat strs f (lap s) = Some t →
  ∃ s', kprintf fmt s = Done tt s' ∧ serial s' = serial s ++ t ∧ lmem s' = lmem s ∧
    hooked s' = hooked s ++ (if putchar_hook s =? 0 then [] else pair (putchar_hook s) <$> t).
Proof.
  intros [Hb H0] Hstrs Ht. destruct (kprintf_loop_ok (lmem s) strs Hstrs fmt (mem_fuel (lmem s)) f 0 (lap s) t) as (a' & Hk);
    [by rewrite Z.add_0_r|done|by apply (cstr_fuel _ fmt)|done|].
  eexists. split; [unfold kprintf; rewrite kget_bind; by apply Hk|]. split_and!; [done|done|]. cbn.
  destruct (putchar_hook s =? 0); cbn; by rewrite ?app_nil_r.
Qed.

(** A number printed in decimal reads back as the number, without leading zeros; its
    digits fit the array they are collected in. *)
Theorem kprintf_number_roundtrip s n : 0 ≤ n < 2 ^ 64 →
  ∃ l s', print_uint64 n 10 s = Done tt s' ∧ serial s' = serial s ++ l ∧ numeral 10 n l ∧ value 10 l = n ∧ (length l ≤ 20)%nat.
Proof.
  intros Hn. destruct (number_ok 10 n ltac:(by left) Hn) as (_ & Hl & Hlen). exists (number 10 n). eexists.
  split; [by apply kemits_number; [left|done|]|]. split_and!; [done|done|apply Hl|done].
Qed.

(** C19. [vsnprintf] writes nothing outside the [size] bytes of its buffer. They hold as much
    of the formatted text as fits before a terminating NUL, and the result is the length of
    the whole text. With a NULL buffer or size 0 nothing is written at all. *)
Theorem vsnprintf_correct strs buf size fmt f t s : 0 ≤ size < 2 ^ 64 → (buf ≠ 0 → mapped (pmem s) buf size) →
  (∀ x u, strs x = Some u → apart (pmem s) buf size x u) → apart (pmem s) buf size fmt f →
  vformat strs (length f) f (pap s) = Some t → Z.of_nat (length t) < 2 ^ 31 →
  ∃ s', vsnprintf buf size fmt s = Done (Z.of_nat (length t)) s' ∧ same_outside (pmem s) buf size (pmem s') ∧
    (buf ≠ 0 → 0 < size → bytes_at (pmem s') buf (take (Z.to_nat (size - 1)) t ++ [0])).
Proof. intros Hs Hb Hst Hf Ht Hl. by apply (vsnprintf_lemma (pmem s) strs buf size Hs Hb Hst fmt f (pap s) t s). Qed.

(** ** Witnesses *)

(** The format [p=%5d %s] at 100, [ok] at 120, a buffer of eight bytes at 200. *)
Definition fmt_example : list Z := [112; 61; 37; 53; 100; 32; 37; 115].
Definition printf_mem : Mem := list_to_map (zip (seqZ 100 9) (fmt_example ++ [0]) ++ zip (seqZ 120 3) [111; 107; 0] ++ zip (seqZ 200 8) (replicate 8 7)).
Definition strs_example (x : Z) : option (list Z) := if x =? 120 then Some [111; 107] else None.
Definition bytes_atb (m : Mem) (a : Z) (l : list Z) : bool := bool_decide (Forall (λ ic, m !! (a + Z.of_nat ic.1) = Some ic.2) (zip (seq 0 (length l)) l)).
Lemma bytes_atb_ok m a l : bytes_atb m a l = true → bytes_at m a l.
Proof.
  intros Hb%bool_decide_eq_true. intros i c Hc. rewrite Forall_lookup in Hb. apply (Hb i (i, c)).
  apply lookup_zip_with_Some. exists i, c. split_and!; [done| |done]. apply lookup_seq. split; [done|]. by eapply lookup_lt_Some.
Qed.
Lemma fmt_cstr : cstr printf_mem 100 fmt_example.
Proof. split; [by apply bytes_atb_ok; vm_compute|]. by apply (bool_decide_unpack _). Qed.
Lemma strs_cstr x u : strs_example x = Some u → cstr printf_mem x u.
Proof.
  unfold strs_example. destruct (Z.eqb_spec x 120) as [->|]; [|done]. intros [= <-]. split; [by apply bytes_atb_ok; vm_compute|].
  by apply (bool_decide_unpack _).
Qed.

Lemma kprintf_correct_witness :
  ∃ s', kprintf 100 (mkLog printf_mem [120] 9 [] []) = Done tt s' ∧ serial s' = [112; 61; 37; 53; 100; 32; 111; 107].
Proof.
  destruct (kprintf_correct strs_example (mkLog printf_mem [120] 9 [] []) 100 fmt_example [112; 61; 37; 53; 100; 32; 111; 107]) as (s' & E & Hs & _);
    [exact fmt_cstr|exact strs_cstr|reflexivity|].
  exists s'. split; [exact E|exact Hs].
Defined.
Lemma kprintf_number_roundtrip_witness :
  ∃ l s', print_uint64 18446744073709551615 10 (mkLog ∅ [] 0 [] []) = Done tt s' ∧ serial s' = l ∧ value 10 l = 18446744073709551615 ∧ (length l ≤ 20)%nat.
Proof.
  destruct (kprintf_number_roundtrip (mkLog ∅ [] 0 [] []) 18446744073709551615) as (l & s' & E & Hs & _ & Hv & Hl); [lia|].
  exists l, s'. split; [exact E|]. split; [exact Hs|]. split; [exact Hv|exact Hl].
Defined.

(** With a buffer of eight bytes the text [p=-   3 ok] is cut off. *)
Lemma example_apart x u : 100 ≤ x → x + Z.of_nat (length u) < 200 → cstr printf_mem x u → apart printf_mem 200 8 x u.
Proof. intros Hx Hl Hc. split; [done|]. intros i Hi [_ Hr]. lia. Qed.
Lemma vsnprintf_correct_witness :
  ∃ s', vsnprintf 200 8 100 (mkPs printf_mem [2 ^ 64 - 3; 120] 0 0 0) = Done 10 s' ∧ same_outside printf_mem 200 8 (pmem s') ∧
    bytes_at (pmem s') 200 [112; 61; 45; 32; 32; 32; 51; 0].
Proof.
  destruct (vsnprintf_correct strs_example 200 8 100 fmt_example [112; 61; 45; 32; 32; 32; 51; 32; 111; 107] (mkPs printf_mem [2 ^ 64 - 3; 120] 0 0 0))
    as (s' & E & Ho & Hb); [lia| | | |vm_compute; reflexivity|cbn; lia|].
  - intros _ i Hi. apply (bytes_mapped printf_mem 200 (replicate 8 7)); [by apply bytes_atb_ok; vm_compute|exact Hi].
  - intros x u Hx. apply example_apart; [| |by apply strs_cstr]; unfold strs_example in Hx; destruct (Z.eqb_spec x 120) as [->|]; try done.
    injection Hx as <-. cbn. lia.
  - apply example_apart; [lia|cbn; lia|exact fmt_cstr].
  - exists s'. split; [exact E|]. split; [exact Ho|]. by apply Hb; [|lia].
Defined.

(** The flag [-] and the conversion [%o] are not known: [%-10s] prints its own characters and
    takes no argument, so that the next [%s] gets the argument that was meant for it. *)
Lemma printf_left_justify : vformat strs_example 7 [37; 45; 49; 48; 115; 37; 115] [120; 0] = Some [37; 45; 49; 48; 115; 111; 107].
Proof. reflexivity. Qed.
Lemma printf_octal : vformat strs_example 3 [48; 37; 111] [420] = Some [48; 37; 111].
Proof. reflexivity. Qed.
(** The sign of a negative number is printed before the padding. *)
Lemma printf_sign_padding : vformat strs_example 3 [37; 53; 100] [2 ^ 64 - 3] = Some [45; 32; 32; 32; 51].
Proof. vm_compute. reflexivity. Qed.
