(* ===== verification/Path.v ===== *)
(** * Path normalisation

    [kernel/fs/path.c]: the output buffer with its write position is the state;
    an input string is the list of its bytes before the terminator. *)
From S2P Require Import Prelude.

Definition EINVAL : Z := 22.
Definition ENAMETOOLONG : Z := 36.
Definition SLASH : Z := 47.
Definition DOT : Z := 46.

Record PathBuf : Type := mkPathBuf { out : list Z; pos : Z }.

(** Writing at the position, without and with advancing it. *)
Definition put (c : Z) : K PathBuf unit :=
  kupd (λ b, o ← zset (out b) (pos b) c; Some (mkPathBuf o (pos b))).
Definition put_next (c : Z) : K PathBuf unit :=
  put c;; kmod (λ b, mkPathBuf (out b) (pos b + 1)).

Definition append_component (out_size : Z) (comp : list Z) : K PathBuf Z :=
  p ← kget pos;
  if out_size <=? u64 (p + 1 + Z.of_nat (length comp)) then mret (- ENAMETOOLONG) else
  put_next SLASH;;
  kfor comp put_next;;
  put 0;;
  mret 0.

(** The loop that scans backward to the previous slash. *)
Fixpoint pop_loop (fuel : nat) : K PathBuf unit :=
  match fuel with
  | O => kstuck
  | S fuel' =>
      b ← kget id;
      if 0 <? pos b then
        c ← kopt (λ b, zget (out b) (pos b - 1));
        if negb (c =? SLASH) then kmod (λ b, mkPathBuf (out b) (pos b - 1));; pop_loop fuel'
        else mret tt
      else mret tt
  end.
Definition pop_component : K PathBuf unit :=
  fuel ← kget (λ b, S (Z.to_nat (pos b)));
  pop_loop fuel;;
  p ← kget pos;
  (if 1 <? p then kmod (λ b, mkPathBuf (out b) (pos b - 1)) else mret tt);;
  put 0.

(** [src + i], advanced over slashes or up to one. *)
Fixpoint skip_slashes (s : list Z) : list Z :=
  match s with c :: s' => if c =? SLASH then skip_slashes s' else s | [] => [] end.
(** The component at the start of [s], and the rest. *)
Fixpoint next_slash (s : list Z) : list Z * list Z :=
  match s with
  | c :: s' => if c =? SLASH then ([], s) else let '(w, r) := next_slash s' in (c :: w, r)
  | [] => ([], [])
  end.

Fixpoint process_loop (fuel : nat) (out_size : Z) (src : list Z) : K PathBuf Z :=
  match fuel with
  | O => kstuck
  | S fuel' =>
      match skip_slashes src with
      | [] => mret 0
      | rest =>
          let '(comp, rest') := next_slash rest in
          if decide (comp = [DOT]) then process_loop fuel' out_size rest' else
          if decide (comp = [DOT; DOT]) then pop_component;; process_loop fuel' out_size rest' else
          err ← append_component out_size comp;
          if negb (err =? 0) then mret err else process_loop fuel' out_size rest'
      end
  end.
Definition process_input (out_size : Z) (src : list Z) : K PathBuf Z :=
  process_loop (S (length src)) out_size src.

(** [None] is a NULL argument; the buffer is the state, of [out_size] bytes. *)
Definition path_normalize (cwd input : option (list Z)) (out_size : Z) : K PathBuf Z :=
  match input with
  | None => mret (- EINVAL)
  | Some inp =>
      if out_size <? 2 then mret (- EINVAL) else
      kmod (λ b, mkPathBuf (out b) 0);;
      put 0;;
      let finish : K PathBuf Z :=
        p ← kget pos;
        if p =? 0 then put_next SLASH;; put 0;; mret 0 else mret 0 in
      if decide (head inp = Some SLASH) then
        err ← process_input out_size inp;
        if negb (err =? 0) then mret err else finish
      else match cwd with
      | None => mret (- EINVAL)
      | Some dir =>
          if decide (head dir = Some SLASH) then
            err ← process_input out_size dir;
            if negb (err =? 0) then mret err else
            err ← process_input out_size inp;
            if negb (err =? 0) then mret err else finish
          else mret (- EINVAL)
      end
  end.

(** ** Specification *)

(** The components of a path: what is between slashes, without the empty ones. *)
Fixpoint split_on (sep : Z) (s : list Z) : list (list Z) :=
  match s with
  | [] => [[]]
  | c :: s' =>
      if c =? sep then [] :: split_on sep s'
      else match split_on sep s' with w :: ws => (c :: w) :: ws | [] => [[c]] end
  end.
Definition comps (s : list Z) : list (list Z) := filter (λ w, w ≠ []) (split_on SLASH s).

(** The directory reached by following the components from the root. *)
Definition follow (st : list (list Z)) (c : list Z) : list (list Z) :=
  if decide (c = [DOT]) then st else if decide (c = [DOT; DOT]) then removelast st else st ++ [c].
Definition canonical (l : list (list Z)) : list (list Z) := foldl follow [] l.
(** Some component leads back to the root from below it. *)
Definition back_at_root (l : list (list Z)) : bool :=
  existsb (λ k, bool_decide (canonical (take k l) ≠ [] ∧ canonical (take (S k) l) = [])) (seq 0 (length l)).
(** The components of a path, each after a slash, with a slash of its own in front of them or not. *)
Definition render (b : bool) (st : list (list Z)) : list Z :=
  (if b then [SLASH] else []) ++ concat ((λ c, SLASH :: c) <$> st).
(** How the path of the components [l] is written: the slash that is left when the path leads back to the root stays in front of
    what follows. *)
Definition spelled (l : list (list Z)) : list Z := render (back_at_root l) (canonical l).

(** ** Components *)

Lemma split_on_cons sep s : ∃ w ws, split_on sep s = w :: ws.
Proof.
  destruct s as [|c s]; [by eexists _, _|]. simpl. destruct (c =? sep); [by eexists _, _|].
  destruct (split_on sep s); by eexists _, _.
Qed.
Lemma comps_slash s : comps (SLASH :: s) = comps s.
Proof. unfold comps. cbn [split_on]. by rewrite Z.eqb_refl. Qed.
Lemma comps_skip s : comps (skip_slashes s) = comps s.
Proof.
  induction s as [|c s IH]; [done|]. simpl. destruct (Z.eqb_spec c SLASH) as [->|]; [|done].
  by rewrite IH, comps_slash.
Qed.
Lemma split_on_word w r :
  SLASH ∉ w → split_on SLASH (w ++ SLASH :: r) = w :: split_on SLASH r ∧ split_on SLASH w = [w].
Proof.
  induction w as [|c w IH]; intros Hw; simpl; [done|].
  destruct (Z.eqb_spec c SLASH); [set_solver|]. destruct IH as [-> ->]; [set_solver|]. done.
Qed.
Lemma next_slash_spec s w r :
  next_slash s = (w, r) → s = w ++ r ∧ SLASH ∉ w ∧ (r = [] ∨ ∃ r', r = SLASH :: r').
Proof.
  revert w r. induction s as [|c s IH]; simpl; intros w r; [intros [= <- <-]; set_solver|].
  destruct (Z.eqb_spec c SLASH) as [->|Hc].
  - intros [= <- <-]. split_and!; [done|set_solver|right; eauto].
  - destruct (next_slash s) as [w' r'] eqn:E. intros [= <- <-]. destruct (IH _ _ eq_refl) as (-> & ? & ?).
    split_and!; [done|set_solver|done].
Qed.
(** The head of [skip_slashes s] starts a non-empty component. *)
Lemma comps_next s c s' w r :
  skip_slashes s = c :: s' → next_slash (c :: s') = (w, r) →
  w ≠ [] ∧ SLASH ∉ w ∧ comps s = w :: comps r ∧ (length r < length s)%nat.
Proof.
  intros Hs Hn. assert (c ≠ SLASH) as Hc.
  { clear Hn. induction s as [|d s IH]; [done|]. simpl in Hs. destruct (Z.eqb_spec d SLASH); [by apply IH|congruence]. }
  assert (length (c :: s') ≤ length s)%nat as Hle.
  { rewrite <-Hs. clear. induction s as [|d s IH]; simpl; [done|]. destruct (d =? SLASH); simpl; lia. }
  destruct (next_slash_spec _ _ _ Hn) as (E & Hw & Hr). assert (w ≠ []) as Hw0.
  { intros ->. cbn in Hn. destruct (Z.eqb_spec c SLASH); [done|]. by destruct (next_slash s'). }
  split_and!; [done|done| |].
  - rewrite <-(comps_skip s), Hs, E. unfold comps. destruct Hr as [->|[r' ->]].
    + rewrite app_nil_r, (proj2 (split_on_word w [] Hw)). rewrite filter_cons, decide_True by done. done.
    + rewrite (proj1 (split_on_word w r' Hw)). cbn [split_on]. rewrite Z.eqb_refl.
      rewrite filter_cons, decide_True by done. done.
  - rewrite E in Hle. rewrite length_app in Hle. destruct w; simpl in *; [done|lia].
Qed.

(** ** The buffer *)

(** What a pop that leaves no component produces is a slash of its own. *)
Definition astep (s : bool * list (list Z)) (c : list Z) : bool * list (list Z) :=
  let '(b, st) := s in
  if decide (c = [DOT]) then s
  else if decide (c = [DOT; DOT]) then
    match st with [] => s | [_] => (true, []) | _ => (b, removelast st) end
  else (b, st ++ [c]).

(** The buffer holds the NUL-terminated string [s]. *)
Definition holds (b : PathBuf) (s : list Z) : Prop :=
  pos b = Z.of_nat (length s) ∧ ∃ rest, out b = s ++ 0 :: rest.
(** Every component is non-empty and has no slash. *)
Definition words (l : list (list Z)) : Prop := Forall (λ c, c ≠ [] ∧ SLASH ∉ c) l.

Ltac len_lia := repeat progress (rewrite ?length_app; simpl); lia.

Lemma put_Done o p c l x r :
  o = l ++ x :: r → p = Z.of_nat (length l) → put c (mkPathBuf o p) = Done tt (mkPathBuf (l ++ c :: r) p).
Proof.
  intros -> ->. unfold put, kupd. simpl. rewrite zset_lt by (rewrite length_app; simpl; lia). simpl.
  rewrite Nat2Z.id. replace (length l) with (length l + 0)%nat by lia. by rewrite insert_app_r.
Qed.
Lemma put_next_Done o p c l x r :
  o = l ++ x :: r → p = Z.of_nat (length l) →
  put_next c (mkPathBuf o p) = Done tt (mkPathBuf ((l ++ [c]) ++ r) (Z.of_nat (length (l ++ [c])))).
Proof.
  intros Ho Hp. unfold put_next. kbind (put_Done o p c l x r Ho Hp). unfold kmod. simpl.
  rewrite <-app_assoc, length_app. subst p. simpl. do 3 f_equal. lia.
Qed.
Lemma put_string w o p l r :
  o = l ++ r → p = Z.of_nat (length l) → (length w ≤ length r)%nat →
  kfor w put_next (mkPathBuf o p) = Done tt (mkPathBuf ((l ++ w) ++ drop (length w) r) (Z.of_nat (length (l ++ w)))).
Proof.
  revert o p l r. induction w as [|c w IH]; intros o p l r Ho Hp Hr.
  - rewrite app_nil_r. subst. done.
  - destruct r as [|x r]; [simpl in Hr; lia|]. cbn [kfor]. kbind (put_next_Done o p c l x r Ho Hp).
    rewrite (IH _ _ (l ++ [c]) r); [|done|done|simpl in Hr; lia]. rewrite <-!app_assoc. done.
Qed.

Lemma append_spec n b s comp :
  holds b s → Z.of_nat (length (out b)) = n → n < 2 ^ 63 → Z.of_nat (length comp) < 2 ^ 63 → comp ≠ [] →
  if n <=? Z.of_nat (length s) + 1 + Z.of_nat (length comp)
  then append_component n comp b = Done (- ENAMETOOLONG) b
  else ∃ b', append_component n comp b = Done 0 b' ∧ holds b' (s ++ SLASH :: comp) ∧ length (out b') = length (out b).
Proof.
  intros [Hp (rest & Ho)] Hn Hn' Hc Hc0. unfold append_component. rewrite kget_bind, Hp.
  assert (length (out b) = length s + S (length rest))%nat as Hlen by (by rewrite Ho, length_app).
  rewrite u64_small by lia. destruct (Z.leb_spec n (Z.of_nat (length s) + 1 + Z.of_nat (length comp))); [done|].
  destruct b as [o p]. simpl in *. kbind (put_next_Done o p SLASH s 0 rest Ho Hp).
  kbind (put_string comp _ _ (s ++ [SLASH]) rest eq_refl eq_refl ltac:(lia)).
  destruct (drop (length comp) rest) as [|x r] eqn:E.
  { apply (f_equal length) in E. rewrite length_drop in E. simpl in E. lia. }
  kbind (put_Done (((s ++ [SLASH]) ++ comp) ++ x :: r) _ 0 ((s ++ [SLASH]) ++ comp) x r eq_refl eq_refl).
  eexists. split; [done|]. rewrite <-app_assoc. simpl. split.
  - split; simpl; [rewrite !length_app; simpl; lia|]. exists r. by rewrite <-!app_assoc.
  - apply (f_equal length) in E. rewrite length_drop in E. rewrite !length_app in *. simpl in *. lia.
Qed.

(** Scanning back over a component without slashes. *)
Lemma pop_loop_spec fuel o l w rest :
  SLASH ∉ w → o = l ++ w ++ rest → (l = [] ∨ ∃ l', l = l' ++ [SLASH]) → (length w < fuel)%nat →
  pop_loop fuel (mkPathBuf o (Z.of_nat (length (l ++ w)))) = Done tt (mkPathBuf o (Z.of_nat (length l))).
Proof.
  revert fuel rest. induction w as [|c w IH] using rev_ind; intros [|fuel] rest Hw Ho Hl Hf; try lia; cbn [pop_loop];
    rewrite kget_bind; simpl.
  - rewrite app_nil_r. destruct Hl as [->|[l' ->]]; [done|]. rewrite length_app. simpl.
    destruct (Z.ltb_spec 0 (Z.of_nat (length l' + 1))); [|lia].
    rewrite (kopt_bind _ _ _ SLASH); [done|]. simpl. replace (Z.of_nat (length l' + 1) - 1) with (Z.of_nat (length l')) by lia.
    rewrite zget_nat, Ho, <-app_assoc. rewrite lookup_app_r, Nat.sub_diag by lia. done.
  - rewrite !length_app in *. simpl in *.
    destruct (Z.ltb_spec 0 (Z.of_nat (length l + (length w + 1)))); [|lia].
    rewrite (kopt_bind _ _ _ c).
    + destruct (Z.eqb_spec c SLASH); [set_solver|]. simpl. rewrite kmod_bind. simpl.
      replace (Z.of_nat (length l + (length w + 1)) - 1) with (Z.of_nat (length l + length w)) by lia.
      apply (IH _ (c :: rest)); [set_solver| |done|lia]. subst o. by rewrite <-!app_assoc.
    + simpl. replace (Z.of_nat (length l + (length w + 1)) - 1) with (Z.of_nat (length l + length w)) by lia.
      rewrite zget_nat, Ho. rewrite lookup_app_r by lia.
      replace (length l + length w - length l)%nat with (length w) by lia. rewrite <-app_assoc.
      rewrite lookup_app_r, Nat.sub_diag by lia. done.
Qed.

Lemma pop_spec b f st :
  holds b (render f st) → words st →
  ∃ b', pop_component b = Done tt b' ∧ length (out b') = length (out b) ∧
    let '(f', st') := astep (f, st) [DOT; DOT] in holds b' (render f' st').
Proof.
  intros [Hp (rest & Ho)] Hst. destruct b as [o p]. simpl in Hp, Ho. unfold pop_component. rewrite kget_bind. simpl.
  destruct st as [|c0 st0 _] using rev_ind.
  - assert (∃ l, render f [] = l ∧ (l = [] ∨ ∃ l', l = l' ++ [SLASH]) ∧ (length l ≤ 1)%nat) as (l & El & Hl & Hl1).
    { destruct f; [exists [SLASH]|exists []]; split_and!; simpl; eauto. right. by exists []. }
    rewrite El in *. rewrite Hp.
    assert (pop_loop (S (Z.to_nat (Z.of_nat (length l)))) (mkPathBuf o (Z.of_nat (length l))) =
      Done tt (mkPathBuf o (Z.of_nat (length l)))) as Hpl.
    { pose proof (pop_loop_spec (S (Z.to_nat (Z.of_nat (length l)))) o l [] (0 :: rest)) as Hx.
      rewrite app_nil_r in Hx. apply Hx; [set_solver|done|done|simpl; lia]. }
    kbind Hpl. rewrite kget_bind. simpl. destruct (Z.ltb_spec 1 (Z.of_nat (length l))); [lia|]. rewrite mret_bind.
    rewrite (put_Done _ _ _ l 0 rest) by done. eexists. split; [done|]. rewrite Ho. split; [done|].
    split; simpl; eauto.
  - apply Forall_app in Hst as [Hst0 Hc0]. apply Forall_singleton in Hc0 as [Hc1 Hc2].
    assert (render f (st0 ++ [c0]) = (render f st0 ++ [SLASH]) ++ c0) as Er.
    { unfold render. rewrite fmap_app, concat_app. simpl. rewrite app_nil_r, <-!app_assoc. done. }
    rewrite Er in *. set (l := render f st0) in *. rewrite Hp.
    assert (pop_loop (S (Z.to_nat (Z.of_nat (length ((l ++ [SLASH]) ++ c0)))))
      (mkPathBuf o (Z.of_nat (length ((l ++ [SLASH]) ++ c0)))) = Done tt (mkPathBuf o (Z.of_nat (length (l ++ [SLASH]))))) as Hpl.
    { apply (pop_loop_spec _ _ _ _ (0 :: rest)); [done| |right; eauto|rewrite length_app; lia].
      by rewrite Ho, <-!app_assoc. }
    kbind Hpl. rewrite kget_bind. simpl. rewrite (length_app l [SLASH]). simpl.
    destruct (decide (l = [])) as [El|El].
    + (* the only component, without a slash in front *)
      rewrite El in *. simpl in *. rewrite mret_bind.
      rewrite (put_Done _ _ _ [SLASH] (default 0 (head (c0 ++ [0]))) (tail (c0 ++ 0 :: rest))).
      2:{ rewrite Ho. by destruct c0. } 2: done.
      eexists. split; [done|]. simpl. split; [rewrite Ho; destruct c0; simpl; rewrite ?length_app; simpl; lia|].
      assert (st0 = [] ∧ f = false) as [-> ->].
      { unfold l, render in El. destruct f; [done|]. destruct st0; [done|]. by simpl in El. }
      simpl. split; simpl; eauto.
    + destruct (Z.ltb_spec 1 (Z.of_nat (length l + 1))); [|destruct El; apply length_zero_iff_nil; lia].
      rewrite kmod_bind. simpl. replace (Z.of_nat (length l + 1) - 1) with (Z.of_nat (length l)) by lia.
      rewrite (put_Done _ _ _ l SLASH (c0 ++ 0 :: rest)) by (rewrite ?Ho, <-?app_assoc; done).
      eexists. split; [done|]. simpl. split; [rewrite Ho; len_lia|].
      rewrite removelast_last. destruct st0 as [|c1 st1]; simpl.
      * destruct f; [|done]. split; simpl; eauto.
      * destruct (st1 ++ [c0]) eqn:E; [by destruct st1|]. split; simpl; eauto.
Qed.

Lemma astep_follow s c : (astep s c).2 = follow s.2 c.
Proof.
  destruct s as [f st]. unfold astep, follow. repeat case_decide; try done. by destruct st as [|? [|? ?]].
Qed.
Lemma foldl_astep l s : (foldl astep s l).2 = foldl follow s.2 l.
Proof. revert s. induction l as [|c l IH]; intros s; simpl; [done|]. by rewrite IH, astep_follow. Qed.
Lemma canonical_snoc l c : canonical (l ++ [c]) = follow (canonical l) c.
Proof. unfold canonical. by rewrite foldl_app. Qed.
Lemma back_at_root_snoc l c :
  back_at_root (l ++ [c]) = back_at_root l || bool_decide (canonical l ≠ [] ∧ follow (canonical l) c = []).
Proof.
  unfold back_at_root. rewrite length_app, seq_app, existsb_app. cbn [length seq existsb]. rewrite orb_false_r. f_equal.
  - assert (∀ f g (ks : list nat), (∀ k, k ∈ ks → f k = g k) → existsb f ks = existsb g ks) as Hext.
    { intros f g ks Hfg. induction ks as [|k ks IH]; [done|]. cbn [existsb]. rewrite Hfg by left. f_equal. apply IH. intros j Hj. apply Hfg. by right. }
    apply Hext. intros k [_ Hk]%elem_of_seq. rewrite !take_app_le by lia. done.
  - rewrite Nat.add_0_l. rewrite take_app_length. rewrite (take_ge (l ++ [c])) by (rewrite length_app; simpl; lia). by rewrite canonical_snoc.
Qed.
(** The flag of [astep] is the slash left at the root. *)
Lemma foldl_astep_spelled l : foldl astep (false, []) l = (back_at_root l, canonical l).
Proof.
  induction l as [|c l IH] using rev_ind; [done|]. rewrite foldl_app, IH, canonical_snoc, back_at_root_snoc. cbn [foldl]. unfold astep, follow.
  repeat case_decide.
  - rewrite bool_decide_false by tauto. by rewrite orb_false_r.
  - destruct (canonical l) as [|x [|y st]]; [rewrite bool_decide_false by tauto; by rewrite orb_false_r|by rewrite orb_true_r|].
    rewrite bool_decide_false by (by intros [_ ?]). by rewrite orb_false_r.
  - rewrite bool_decide_false by (intros [_ E]; by destruct (canonical l)). by rewrite orb_false_r.
Qed.
Lemma words_follow st c : words st → c ≠ [] → SLASH ∉ c → words (follow st c).
Proof.
  intros Hst Hc Hs. unfold follow. repeat case_decide; try done.
  - destruct st as [|x st _] using rev_ind; [done|]. rewrite removelast_last. by apply Forall_app in Hst as [? _].
  - apply Forall_app. split; [done|]. by apply Forall_singleton.
Qed.
Lemma comps_render f st : words st → comps (render f st) = st.
Proof.
  intros Hst. assert (comps (concat ((λ c, SLASH :: c) <$> st)) = st) as E.
  { induction Hst as [|c st [Hc Hs] Hst IH]; [done|]. simpl. rewrite comps_slash. destruct st as [|c' st].
    - simpl. rewrite app_nil_r. unfold comps. rewrite (proj2 (split_on_word c [] Hs)).
      rewrite filter_cons, decide_True by done. done.
    - simpl in *. unfold comps in *. rewrite (proj1 (split_on_word c _ Hs)), filter_cons, decide_True by done.
      f_equal. exact IH. }
  unfold render. destruct f; simpl; [by rewrite comps_slash|done].
Qed.

Definition text (s : bool * list (list Z)) : list Z := render s.1 s.2.
(** The outcome of processing the components [l] from [s] in [n] bytes: all of them, when the string of every prefix fits with its NUL, or
    an error when one does not. *)
Definition processed (n : Z) (b : PathBuf) (s : bool * list (list Z)) (l : list (list Z)) (o : outcome PathBuf Z) : Prop :=
  ∃ r b', o = Done r b' ∧ length (out b') = length (out b) ∧
    ((r = 0 ∧ (let '(f, st) := foldl astep s l in holds b' (render f st) ∧ words st) ∧
        ∀ k, Z.of_nat (length (text (foldl astep s (take k l)))) < n) ∨
     (r = - ENAMETOOLONG ∧ ∃ k, n ≤ Z.of_nat (length (text (foldl astep s (take k l)))))).
Lemma holds_fits b s : holds b s → Z.of_nat (length s) < Z.of_nat (length (out b)).
Proof. intros [_ (rest & ->)]. rewrite length_app. simpl. lia. Qed.

Lemma processed_step n b b1 s c l o :
  Z.of_nat (length (text s)) < n → length (out b1) = length (out b) → processed n b1 (astep s c) l o → processed n b s (c :: l) o.
Proof.
  intros Hs Hl (r & b' & -> & Hl' & Hr). exists r, b'. split_and!; [done|congruence|].
  destruct Hr as [(-> & Hr & Hk)|(-> & k & Hk)]; [left|right].
  - split_and!; [done|done|]. intros [|k]; [done|apply Hk].
  - split; [done|]. by exists (S k).
Qed.

Lemma process_loop_spec fuel n src b f st :
  holds b (render f st) → words st → Z.of_nat (length (out b)) = n → n < 2 ^ 63 →
  Z.of_nat (length src) < 2 ^ 63 → (length src < fuel)%nat →
  processed n b (f, st) (comps src) (process_loop fuel n src b).
Proof.
  revert src b f st. induction fuel as [|fuel IH]; intros src b f st Hb Hst Hn Hn' Hsrc Hf; [lia|].
  assert (Z.of_nat (length (text (f, st))) < n) as Hfit by (pose proof (holds_fits _ _ Hb); by rewrite Hn in *).
  cbn [process_loop]. destruct (skip_slashes src) as [|c s'] eqn:Es.
  { exists 0, b. rewrite <-comps_skip, Es. change (comps []) with (@nil (list Z)). split_and!; [done|done|]. left. split_and!; [done|done|]. intros k. by rewrite take_nil. }
  destruct (next_slash (c :: s')) as [w r] eqn:En. cbv iota.
  destruct (comps_next src c s' w r Es En) as (Hw & Hsl & -> & Hlt).
  assert (Z.of_nat (length w) < 2 ^ 63) as Hlw.
  { destruct (next_slash_spec _ _ _ En) as (E & _ & _). apply (f_equal length) in E. rewrite length_app in E.
    assert (length (c :: s') ≤ length src)%nat; [|lia]. rewrite <-Es. clear.
    induction src as [|d s IH]; simpl; [done|]. destruct (d =? SLASH); simpl; lia. }
  assert (words (astep (f, st) w).2) as Hst' by (rewrite astep_follow; by apply words_follow).
  destruct (decide (w = [DOT])) as [->|Hd].
  { apply (processed_step _ _ b); [done|done|]. apply IH; try done; lia. }
  destruct (decide (w = [DOT; DOT])) as [->|Hdd].
  { destruct (pop_spec b f st Hb Hst) as (b1 & Hp & Hl1 & Hb1). kbind Hp. apply (processed_step _ _ b1); [done|done|].
    destruct (astep (f, st) [DOT; DOT]) as [f1 st1]. apply IH; try done; lia. }
  assert (astep (f, st) w = (f, st ++ [w])) as Ea by (unfold astep; by rewrite !decide_False).
  assert (render f (st ++ [w]) = render f st ++ SLASH :: w) as Er.
  { unfold render. rewrite fmap_app, concat_app. simpl. by rewrite app_nil_r, <-!app_assoc. }
  pose proof (append_spec n b (render f st) w Hb Hn Hn' Hlw Hw) as Happ.
  destruct (Z.leb_spec n (Z.of_nat (length (render f st)) + 1 + Z.of_nat (length w))) as [Hle|Hgt].
  - kbind Happ. exists (- ENAMETOOLONG), b. split_and!; [done|done|]. right. split; [done|]. exists 1%nat. cbn [take foldl]. rewrite take_0. cbn [foldl].
    rewrite Ea. unfold text. cbn [fst snd]. rewrite Er, length_app. cbn [length]. lia.
  - destruct Happ as (b1 & Hap & Hb1 & Hl1). kbind Hap. simpl. apply (processed_step _ _ b1); [done|done|].
    rewrite Ea in *. apply IH; try done; [by rewrite Er|lia..].
Qed.

(** The components that the two arguments ask to follow. *)
Definition request (cwd input : list Z) : list (list Z) :=
  if decide (head input = Some SLASH) then comps input else comps cwd ++ comps input.
(** The buffer holds, NUL-terminated, the absolute path that the components [l] lead to. *)
Definition names (b : PathBuf) (l : list (list Z)) : Prop :=
  ∃ s rest, out b = s ++ 0 :: rest ∧ s = (if decide (spelled l = []) then [SLASH] else spelled l) ∧
    head s = Some SLASH ∧ comps s = canonical l.
(** The string of some prefix of [l] takes, with its NUL, more than [n] bytes. *)
Definition overflows (n : Z) (l : list (list Z)) : Prop := ∃ k, n < Z.of_nat (length (spelled (take k l))) + 1.

(** Two inputs processed one after the other. *)
Lemma process_two n b s l1 l2 o1 (k : Z → K PathBuf Z) :
  processed n b s l1 o1 →
  (∀ b1, length (out b1) = length (out b) → (let '(f, st) := foldl astep s l1 in holds b1 (render f st) ∧ words st) →
     processed n b1 (foldl astep s l1) l2 (k 0 b1)) →
  (∀ b1, k (- ENAMETOOLONG) b1 = Done (- ENAMETOOLONG) b1) →
  processed n b s (l1 ++ l2) (match o1 with Done r b1 => k r b1 | Panic b1 => Panic b1 | Stuck => Stuck end).
Proof.
  intros (r & b1 & -> & Hl & [(-> & Hr & Hfit)|(-> & i & Hi)]) Hk He.
  - destruct (Hk b1 Hl Hr) as (r' & b' & -> & Hl' & Hr'). exists r', b'. split_and!; [done|congruence|].
    rewrite foldl_app. destruct Hr' as [(-> & Hr' & Hfit')|(-> & i & Hi)]; [left|right].
    + split_and!; [done|done|]. intros i. destruct (decide (i ≤ length l1)%nat) as [Hle|Hgt]; [by rewrite take_app_le|].
      rewrite take_app_ge, foldl_app by lia. apply Hfit'.
    + split; [done|]. exists (length l1 + i)%nat. by rewrite firstn_app_2, foldl_app.
  - rewrite He. exists (- ENAMETOOLONG), b1. split_and!; [done|done|right]. split; [done|].
    exists (Nat.min i (length l1)). rewrite take_app_le by lia.
    replace (take (Nat.min i (length l1)) l1) with (take i l1); [done|].
    destruct (decide (i ≤ length l1)%nat); [by rewrite Nat.min_l|]. rewrite Nat.min_r, !take_ge by lia. done.
Qed.

(** The end of [path_normalize]. *)
Lemma finish_spec n b l o :
  2 ≤ n → Z.of_nat (length (out b)) = n → processed n b (false, []) l o →
  ∃ r b', match o with
      | Done err b1 => (if negb (err =? 0) then mret err else
          p ← kget pos; if p =? 0 then put_next SLASH;; put 0;; mret 0 else mret 0) b1
      | Panic b1 => Panic b1
      | Stuck => Stuck
      end = Done r b' ∧ length (out b') = length (out b) ∧
    ((r = 0 ∧ names b' l ∧ ¬ overflows n l) ∨ (r = - ENAMETOOLONG ∧ overflows n l)).
Proof.
  intros Hn Hb (r & b1 & -> & Hl & Hr). assert (∀ k, text (foldl astep (false, []) (take k l)) = spelled (take k l)) as Hsp.
  { intros k. by rewrite foldl_astep_spelled. }
  destruct Hr as [(-> & Hr & Hk)|(-> & k & Hk)].
  2:{ exists (- ENAMETOOLONG), b1. split_and!; [done|done|right]. split; [done|]. exists k. rewrite <-Hsp. lia. }
  assert (¬ overflows n l) as Hno by (intros [k Ho]; specialize (Hk k); rewrite Hsp in Hk; lia).
  rewrite foldl_astep_spelled in Hr. destruct Hr as [[Hp (rest & Ho)] Hst]. fold (spelled l) in Hp, Ho.
  pose proof (comps_render (back_at_root l) _ Hst) as Hc. fold (spelled l) in Hc. simpl. rewrite kget_bind. unfold names.
  destruct (decide (spelled l = [])) as [Er|Er].
  - rewrite Er in *. destruct b1 as [o1 p1]. simpl in *. destruct (Z.eqb_spec p1 0); [|lia]. kbind (put_next_Done o1 p1 SLASH [] 0 rest Ho Hp). simpl.
    destruct rest as [|x rest]; [subst o1; simpl in Hl; lia|].
    kbind (put_Done ([SLASH] ++ x :: rest) (Z.of_nat 1) 0 [SLASH] x rest eq_refl eq_refl).
    eexists 0, _. split; [done|]. split; [subst o1; simpl in *; lia|]. left. split_and!; [done| |done].
    exists [SLASH], rest. split_and!; [done|done|done|]. by rewrite <-Hc.
  - destruct (Z.eqb_spec (pos b1) 0) as [E|E]; [destruct Er; apply length_zero_iff_nil; lia|].
    exists 0, b1. split_and!; [done|done|left]. split_and!; [done| |done]. exists (spelled l), rest. split_and!; [done|done| |done].
    unfold spelled, render in *. destruct (back_at_root l); [done|]. by destruct (canonical l).
Qed.

(** ** Theorems *)

Lemma path_normalize_lemma cwd input b :
  2 ≤ Z.of_nat (length (out b)) < 2 ^ 63 → Z.of_nat (length cwd) < 2 ^ 63 → Z.of_nat (length input) < 2 ^ 63 →
  head cwd = Some SLASH →
  let n := Z.of_nat (length (out b)) in
  ∃ r b', path_normalize (Some cwd) (Some input) n b = Done r b' ∧ length (out b') = length (out b) ∧
    ((r = 0 ∧ names b' (request cwd input) ∧ ¬ overflows n (request cwd input)) ∨
     (r = - ENAMETOOLONG ∧ overflows n (request cwd input))).
Proof.
  intros Hb Hc Hi Ha n. unfold path_normalize. destruct (Z.ltb_spec n 2); [lia|]. rewrite kmod_bind.
  destruct b as [o p]. cbn [out] in *. destruct o as [|x o]; [simpl in Hb; lia|].
  kbind (put_Done (x :: o) 0 0 [] x o eq_refl eq_refl). set (b0 := mkPathBuf ([] ++ 0 :: o) 0).
  assert (holds b0 (render false [])) as Hh by (split; simpl; eauto).
  assert (∀ src b1 f st, length (out b1) = length (out b0) → holds b1 (render f st) → words st →
    Z.of_nat (length src) < 2 ^ 63 → processed n b1 (f, st) (comps src) (process_input n src b1)) as Hpr.
  { intros src b1 f st Hl Hb1 Hst Hs. apply process_loop_spec; try done; [|lia|lia]. rewrite Hl. done. }
  unfold request. destruct (decide (head input = Some SLASH)).
  - apply (finish_spec n b0); [lia|done|]. apply Hpr; try done. constructor.
  - rewrite decide_True by done. unfold mbind, K_bind.
    pose proof (process_two n b0 (false, []) (comps cwd) (comps input) (process_input n cwd b0)
      (λ err, if negb (err =? 0) then mret err else process_input n input)) as Ht.
    assert (words []) as Hw0 by constructor.
    specialize (Ht (Hpr cwd b0 false [] eq_refl Hh Hw0 Hc)). apply (finish_spec n b0) in Ht; [|lia|done| |done].
    + destruct Ht as (r & b' & Hd & Hrest). exists r, b'. split; [|done]. rewrite <-Hd.
      unfold mbind, K_bind. destruct (process_input n cwd b0) as [e b1| |]; [|done..].
      destruct (Z.eqb_spec e 0); [done|]. simpl. destruct (Z.eqb_spec e 0); [done|]. done.
    + intros b1 Hl1 Hf1. simpl. destruct (foldl astep (false, []) (comps cwd)) as [f st]. by apply Hpr; try apply Hf1.
Qed.


(** "/a/.." keeps a slash, to which the next component appends its own: the result
    of normalising "/a/../b" is "//b". *)
Lemma path_normalize_double_slash :
  path_normalize (Some [47]) (Some [47; 97; 47; 46; 46; 47; 98]) 8 (mkPathBuf (replicate 8 7) 0) =
  Done 0 (mkPathBuf [47; 47; 98; 0; 7; 7; 7; 7] 3).
Proof. vm_compute. reflexivity. Qed.

