(* ===== verification/Passwd.v ===== *)
(** * The password file

    [kernel/fs/passwd.c].  A pointer into the buffer is the list of bytes from it to
    the end; a character array of an entry is the string it holds. *)
From S2P Require Import Prelude.

Definition PASSWD_NAME_MAX : Z := 32.
Definition PASSWD_PASS_MAX : Z := 64.
Definition PASSWD_SHELL_MAX : Z := 128.
Definition PASSWD_HOME_MAX : Z := 128.
Definition COLON : Z := 58.
Definition NL : Z := 10.
Definition CR : Z := 13.
Definition HASH : Z := 35.

Record PasswdEntry : Type := mkPasswd {
  name : list Z; password : list Z; uid : Z; gid : Z; home : list Z; shell : list Z
}.

(** The loop condition that ends a field. *)
Definition ends_field (delim c : Z) : bool := (c =? delim) || (c =? NL) || (c =? 0).

Fixpoint copy_loop (src dst : list Z) (max delim : Z) : list Z * list Z :=
  match src with
  | [] => (dst, [])
  | c :: src' =>
      if ends_field delim c then (dst, src)
      else copy_loop src' (if Z.of_nat (length dst) <? max - 1 then dst ++ [c] else dst) max delim
  end.
Definition skip_delim (delim : Z) (src : list Z) : list Z :=
  match src with c :: src' => if c =? delim then src' else src | [] => [] end.
Definition copy_field (src : list Z) (max delim : Z) : list Z * list Z :=
  let '(dst, r) := copy_loop src [] max delim in (dst, skip_delim delim r).

Fixpoint uint_loop (src : list Z) (out delim : Z) : Z * list Z :=
  match src with
  | [] => (out, [])
  | c :: src' =>
      if ends_field delim c then (out, src)
      else uint_loop src' (if (48 <=? c) && (c <=? 57) then u32 (out * 10 + (c - 48)) else out) delim
  end.
Definition parse_uint (src : list Z) (delim : Z) : Z * list Z :=
  let '(n, r) := uint_loop src 0 delim in (n, skip_delim delim r).

(** Advancing to the next newline, and over blank lines. *)
Fixpoint to_newline (src : list Z) : list Z :=
  match src with c :: src' => if c =? NL then src else to_newline src' | [] => [] end.
Fixpoint skip_blank (src : list Z) : list Z :=
  match src with c :: src' => if (c =? NL) || (c =? CR) then skip_blank src' else src | [] => [] end.

(** One line; the rest starts at its newline. *)
Definition parse_line (ptr : list Z) : PasswdEntry * list Z :=
  let '(nm, ptr) := copy_field ptr PASSWD_NAME_MAX COLON in
  let '(pw, ptr) := copy_field ptr PASSWD_PASS_MAX COLON in
  let '(u, ptr) := parse_uint ptr COLON in
  let '(g, ptr) := parse_uint ptr COLON in
  let '(_, ptr) := copy_field ptr 64 COLON in
  let '(hm, ptr) := copy_field ptr PASSWD_HOME_MAX COLON in
  let '(sh, ptr) := copy_field ptr PASSWD_SHELL_MAX COLON in
  (mkPasswd nm pw u g hm sh, to_newline ptr).

(** [count] is the length of the entries kept; [None] is running out of fuel. *)
Fixpoint parse_loop (fuel : nat) (ptr : list Z) (entries : list PasswdEntry) (max_entries : Z) : option (list PasswdEntry) :=
  match fuel with
  | O => None
  | S fuel' =>
      if negb (Z.of_nat (length entries) <? max_entries) then Some entries else
      match skip_blank ptr with
      | [] => Some entries
      | (c :: _) as ptr =>
          if c =? HASH then parse_loop fuel' (to_newline ptr) entries max_entries else
          let '(e, ptr) := parse_line ptr in
          parse_loop fuel' ptr (if decide (name e = []) then entries else entries ++ [e]) max_entries
      end
  end.
(** The entries read, or [None] for the result -1; NULL arguments are [None]. *)
Definition passwd_parse (buf : option (list Z)) (max_entries : Z) : option (option (list PasswdEntry)) :=
  match buf with
  | None => Some None
  | Some b =>
      if max_entries <=? 0 then Some None else
      Some <$> parse_loop (S (length b)) b [] max_entries
  end.

Fixpoint passwd_find_user (entries : list PasswdEntry) (nm : list Z) : option PasswdEntry :=
  match entries with
  | [] => None
  | e :: es => if decide (name e = nm) then Some e else passwd_find_user es nm
  end.
Fixpoint passwd_find_uid (entries : list PasswdEntry) (u : Z) : option PasswdEntry :=
  match entries with
  | [] => None
  | e :: es => if uid e =? u then Some e else passwd_find_uid es u
  end.

(** ** The text of a password file *)

(** Decimal digits, most significant first. *)
Fixpoint dec_digits (fuel : nat) (n : Z) : list Z :=
  match fuel with
  | O => []
  | S fuel' => if n <? 10 then [48 + n] else dec_digits fuel' (n / 10) ++ [48 + n mod 10]
  end.
Definition dec (n : Z) : list Z := dec_digits 10 n.
Definition print_entry (gecos : list Z) (e : PasswdEntry) : list Z :=
  name e ++ COLON :: password e ++ COLON :: dec (uid e) ++ COLON :: dec (gid e) ++ COLON ::
  gecos ++ COLON :: home e ++ COLON :: shell e ++ [NL].

(** A string that fits in an array of [max] bytes and has no separator. *)
Definition field_ok (max : Z) (s : list Z) : Prop :=
  Forall (λ c, ends_field COLON c = false) s ∧ Z.of_nat (length s) < max.
Record entry_ok (e : PasswdEntry) : Prop := {
  eo_name : field_ok PASSWD_NAME_MAX (name e);
  eo_password : field_ok PASSWD_PASS_MAX (password e);
  eo_uid : 0 ≤ uid e < 2 ^ 32;
  eo_gid : 0 ≤ gid e < 2 ^ 32;
  eo_home : field_ok PASSWD_HOME_MAX (home e);
  eo_shell : field_ok PASSWD_SHELL_MAX (shell e);
}.
(** What starts a line that is neither blank nor a comment. *)
Definition starts_line (s : list Z) : Prop := ∃ c r, s = c :: r ∧ c ≠ NL ∧ c ≠ CR ∧ c ≠ HASH.

(** ** Fields *)

Lemma copy_loop_spec src dst max delim d r :
  copy_loop src dst max delim = (d, r) → 0 < max → Z.of_nat (length dst) < max →
  Forall (λ c, ends_field delim c = false) dst →
  Z.of_nat (length d) < max ∧ Forall (λ c, ends_field delim c = false) d ∧ r `suffix_of` src.
Proof.
  intros Hc Hm. revert dst Hc. induction src as [|c src IH]; intros dst Hc Hl Hd; simpl in Hc; [by injection Hc as <- <-|].
  destruct (ends_field delim c) eqn:E; [by injection Hc as <- <-|].
  apply IH in Hc as (? & ? & ?).
  - split_and!; try done. by apply suffix_cons_r.
  - case_match eqn:Em; [|done]. rewrite length_app. simpl. lia.
  - case_match; [|done]. apply Forall_app. split; [done|]. by apply Forall_singleton.
Qed.
Lemma skip_delim_suffix delim s : skip_delim delim s `suffix_of` s.
Proof. destruct s as [|c s]; simpl; [done|]. destruct (c =? delim); [by apply suffix_cons_r|done]. Qed.
Lemma copy_field_ok src max d r :
  copy_field src max COLON = (d, r) → 0 < max → field_ok max d ∧ r `suffix_of` src.
Proof.
  unfold copy_field. destruct (copy_loop src [] max COLON) as [d' r'] eqn:E. intros [= <- <-] Hm.
  destruct (copy_loop_spec _ _ _ _ _ _ E) as (? & ? & ?); [done|simpl; lia|constructor|].
  split; [done|]. etrans; [apply skip_delim_suffix|done].
Qed.
Lemma uint_loop_spec src out delim n r :
  uint_loop src out delim = (n, r) → 0 ≤ out < 2 ^ 32 → 0 ≤ n < 2 ^ 32 ∧ r `suffix_of` src.
Proof.
  revert out. induction src as [|c src IH]; intros out Hc Ho; simpl in Hc; [by injection Hc as <- <-|].
  destruct (ends_field delim c); [by injection Hc as <- <-|].
  apply IH in Hc as [? ?]; [split; [done|by apply suffix_cons_r]|]. case_match; [apply u32_range|done].
Qed.
Lemma parse_uint_ok src n r : parse_uint src COLON = (n, r) → 0 ≤ n < 2 ^ 32 ∧ r `suffix_of` src.
Proof.
  unfold parse_uint. destruct (uint_loop src 0 COLON) as [n' r'] eqn:E. intros [= <- <-].
  apply uint_loop_spec in E as [? ?]; [|lia]. split; [done|]. etrans; [apply skip_delim_suffix|done].
Qed.
Lemma to_newline_suffix s : to_newline s `suffix_of` s.
Proof. induction s as [|c s IH]; simpl; [done|]. destruct (c =? NL); [done|by apply suffix_cons_r]. Qed.
Lemma to_newline_shorter r c s : r `suffix_of` c :: s → c ≠ NL → (length (to_newline r) ≤ length s)%nat.
Proof.
  intros Hs Hc. destruct r as [|x r]; [simpl; lia|]. apply suffix_cons_inv in Hs as [[= -> ->]|Hs].
  - simpl. destruct (Z.eqb_spec c NL); [done|]. apply suffix_length, to_newline_suffix.
  - apply suffix_length. etrans; [apply to_newline_suffix|done].
Qed.
Lemma skip_blank_spec s c r : skip_blank s = c :: r → c ≠ NL ∧ (length (c :: r) ≤ length s)%nat.
Proof.
  induction s as [|d s IH]; simpl; [done|]. destruct (Z.eqb_spec d NL), (Z.eqb_spec d CR); simpl;
    try (intros E; apply IH in E as [? ?]; split; [done|simpl in *; lia]).
  by intros [= <- <-].
Qed.

Lemma parse_line_ok src e r :
  parse_line src = (e, r) → entry_ok e ∧ ∃ r', r = to_newline r' ∧ r' `suffix_of` src.
Proof.
  unfold parse_line.
  destruct (copy_field src _ _) as [nm p1] eqn:E1. destruct (copy_field p1 _ _) as [pw p2] eqn:E2.
  destruct (parse_uint p2 _) as [u p3] eqn:E3. destruct (parse_uint p3 _) as [g p4] eqn:E4.
  destruct (copy_field p4 _ _) as [gc p5] eqn:E5. destruct (copy_field p5 _ _) as [hm p6] eqn:E6.
  destruct (copy_field p6 _ _) as [sh p7] eqn:E7. intros [= <- <-].
  apply copy_field_ok in E1 as [? ?], E2 as [? ?], E5 as [? ?], E6 as [? ?], E7 as [? ?]; try done.
  apply parse_uint_ok in E3 as [? ?], E4 as [? ?]. split; [by split|]. exists p7. split; [done|].
  repeat (etrans; [eassumption|]). done.
Qed.

(** The loop ends: every pass consumes a byte. *)
Lemma parse_loop_total fuel ptr es max :
  (length ptr < fuel)%nat → Forall entry_ok es → 0 < max → Z.of_nat (length es) ≤ max →
  Forall (λ e, name e ≠ []) es →
  ∃ es', parse_loop fuel ptr es max = Some es' ∧ Forall entry_ok es' ∧ Z.of_nat (length es') ≤ max ∧
    Forall (λ e, name e ≠ []) es'.
Proof.
  revert ptr es. induction fuel as [|fuel IH]; intros ptr es Hf Hes Hm Hl Hn; [lia|]. cbn [parse_loop].
  destruct (Z.ltb_spec (Z.of_nat (length es)) max); simpl; [|eauto]. destruct (skip_blank ptr) as [|c r] eqn:E; [eauto|].
  apply skip_blank_spec in E as [Hc Hle]. simpl in Hle. destruct (Z.eqb_spec c HASH) as [->|Hh].
  - apply IH; try done. pose proof (to_newline_shorter (HASH :: r) HASH r ltac:(done) ltac:(done)) as Hs. simpl in *. lia.
  - destruct (parse_line (c :: r)) as [e r'] eqn:El. apply parse_line_ok in El as [He (p & -> & Hp)].
    pose proof (to_newline_shorter p c r Hp Hc).
    apply IH; try done; try lia; case_decide; try done; try (rewrite length_app; simpl; lia);
      (apply Forall_app; split; [done|by apply Forall_singleton]).
Qed.

(** ** Printing and parsing *)

Lemma copy_loop_word w dst max delim rest :
  Forall (λ c, ends_field delim c = false) w → Z.of_nat (length dst + length w) < max →
  (rest = [] ∨ ∃ c r, rest = c :: r ∧ ends_field delim c = true) →
  copy_loop (w ++ rest) dst max delim = (dst ++ w, rest).
Proof.
  revert dst. induction w as [|c w IH]; intros dst Hw Hl Hr.
  - rewrite app_nil_r. simpl. destruct Hr as [->|(c & r & -> & Hc)]; simpl; [done|]. by rewrite Hc.
  - inversion Hw; subst. simpl in *. destruct (ends_field delim c); [done|].
    destruct (Z.ltb_spec (Z.of_nat (length dst)) (max - 1)); [|lia].
    rewrite IH; [by rewrite <-app_assoc|done|rewrite length_app; simpl; lia|done].
Qed.
Lemma copy_field_print max w rest : field_ok max w → copy_field (w ++ COLON :: rest) max COLON = (w, rest).
Proof.
  intros [Hw Hl]. unfold copy_field. rewrite (copy_loop_word w []); [done|done|done|right; eauto].
Qed.
(** The last field ends at the newline. *)
Lemma copy_field_last max w rest : field_ok max w → copy_field (w ++ NL :: rest) max COLON = (w, NL :: rest).
Proof.
  intros [Hw Hl]. unfold copy_field. rewrite (copy_loop_word w []); [done|done|done|right; eauto].
Qed.

Lemma ends_field_digit c : 48 ≤ c ≤ 57 → ends_field COLON c = false.
Proof. unfold ends_field, COLON, NL. lia. Qed.
Lemma uint_loop_digits l out rest :
  Forall (λ c, 48 ≤ c ≤ 57) l → 0 ≤ out →
  foldl (λ n c, n * 10 + (c - 48)) out l < 2 ^ 32 →
  uint_loop (l ++ COLON :: rest) out COLON = (foldl (λ n c, n * 10 + (c - 48)) out l, COLON :: rest).
Proof.
  revert out. induction l as [|c l IH]; intros out Hl Ho Hb; [done|].
  inversion Hl as [|? ? Hc Hl']; subst. simpl in *. rewrite ends_field_digit by done.
  assert (∀ n l, 0 ≤ n → Forall (λ c, 48 ≤ c ≤ 57) l → n ≤ foldl (λ n c, n * 10 + (c - 48)) n l) as Hmono.
  { clear. intros n l. revert n. induction l as [|c l IH]; intros n Hn Hl; simpl; [lia|].
    inversion Hl; subst. etrans; [|apply IH; [lia|done]]. lia. }
  specialize (Hmono (out * 10 + (c - 48)) l ltac:(lia) Hl').
  destruct (Z.leb_spec 48 c), (Z.leb_spec c 57); simpl; try lia. rewrite u32_small by lia.
  apply IH; [done|lia|done].
Qed.
Lemma dec_digits_spec fuel n :
  0 ≤ n < 10 ^ Z.of_nat fuel →
  (fuel ≠ 0)%nat → Forall (λ c, 48 ≤ c ≤ 57) (dec_digits fuel n) ∧
  foldl (λ n c, n * 10 + (c - 48)) 0 (dec_digits fuel n) = n.
Proof.
  revert n. induction fuel as [|fuel IH]; intros n Hn Hf; [done|]. cbn [dec_digits].
  destruct (Z.ltb_spec n 10).
  - split; [apply Forall_singleton; lia|simpl; lia].
  - destruct fuel as [|fuel]; [simpl in Hn; lia|].
    assert (0 ≤ n / 10 < 10 ^ Z.of_nat (S fuel)) as Hd.
    { split; [apply Z.div_pos; lia|]. apply Z.div_lt_upper_bound; [lia|].
      rewrite <-Z.pow_succ_r by lia. replace (Z.succ (Z.of_nat (S fuel))) with (Z.of_nat (S (S fuel))) by lia. lia. }
    destruct (IH (n / 10) Hd) as [Hda Hdf]; [done|]. split.
    + apply Forall_app. split; [done|]. apply Forall_singleton. lia.
    + rewrite foldl_app. cbn [foldl]. rewrite Hdf. lia.
Qed.
Lemma parse_uint_print n rest : 0 ≤ n < 2 ^ 32 → parse_uint (dec n ++ COLON :: rest) COLON = (n, rest).
Proof.
  intros Hn. destruct (dec_digits_spec 10 n) as [Hd Hv]; [simpl; lia|done|]. fold (dec n) in *.
  unfold parse_uint. rewrite uint_loop_digits by (done || lia). by rewrite Hv.
Qed.

Lemma parse_line_print g e rest :
  entry_ok e → field_ok 64 g →
  parse_line (print_entry g e ++ rest) = (e, NL :: rest).
Proof.
  intros [Hn Hp Hu Hg Hh Hs] Hge. unfold print_entry, parse_line.
  repeat (rewrite <-?app_assoc, <-?app_comm_cons). rewrite (copy_field_print _ _ _ Hn).
  rewrite (copy_field_print _ _ _ Hp), (parse_uint_print _ _ Hu), (parse_uint_print _ _ Hg).
  rewrite (copy_field_print _ _ _ Hge), (copy_field_print _ _ _ Hh), (copy_field_last _ _ _ Hs).
  by destruct e.
Qed.

Definition print_passwd (l : list (list Z * PasswdEntry)) : list Z := concat ((λ p, print_entry p.1 p.2) <$> l).

Lemma parse_loop_print fuel l es max b :
  Forall (λ p, entry_ok p.2 ∧ field_ok 64 p.1 ∧ starts_line (name p.2)) l →
  Z.of_nat (length es + length l) ≤ max → (length (print_passwd l) < fuel)%nat →
  (b = [] ∨ b = [NL]) →
  parse_loop fuel (b ++ print_passwd l) es max = Some (es ++ (snd <$> l)).
Proof.
  revert fuel es b. induction l as [|[g e] l IH]; intros fuel es b Hl Hm Hf Hb.
  - destruct fuel as [|fuel]; [simpl in Hf; lia|]. change (print_passwd []) with (@nil Z). cbn [parse_loop fmap list_fmap]. rewrite !app_nil_r.
    destruct (negb _); [done|]. by destruct Hb as [->| ->].
  - apply Forall_cons in Hl as [(He & Hg & (c & r & Hn & Hc1 & Hc2 & Hc3)) Hl]. simpl in He, Hg, Hn.
    destruct fuel as [|fuel]; [lia|]. cbn [parse_loop].
    destruct (Z.ltb_spec (Z.of_nat (length es)) max); [|simpl in Hm; lia]. simpl negb. cbv iota.
    set (t := print_passwd ((g, e) :: l)). assert (t = print_entry g e ++ print_passwd l) as Et by done.
    assert (∃ t', t = c :: t') as [t' Et'].
    { rewrite Et. unfold print_entry. rewrite Hn. simpl. eauto. }
    assert (skip_blank (b ++ t) = c :: t') as ->.
    { rewrite Et'. destruct (Z.eqb_spec c NL), (Z.eqb_spec c CR); try done.
      destruct Hb as [->| ->]; simpl; destruct (Z.eqb_spec c NL), (Z.eqb_spec c CR); done. }
    destruct (Z.eqb_spec c HASH); [done|]. rewrite <-Et', Et, (parse_line_print g e _ He Hg).
    rewrite decide_False by (by rewrite Hn). change (NL :: print_passwd l) with ([NL] ++ print_passwd l). rewrite (IH fuel (es ++ [e]) [NL]).
    + by rewrite <-app_assoc.
    + done.
    + rewrite length_app. simpl in *. lia.
    + fold t in Hf. rewrite Et, length_app in Hf. unfold print_entry in Hf. rewrite Hn in Hf. simpl in Hf. lia.
    + by right.
Qed.

(** ** Theorems *)

(** [passwd_parse] terminates on every buffer and returns at most [max_entries] entries, each with a
    non-empty name and with fields that fit their arrays, hold no separator, newline or NUL, and ids
    of 32 bits. *)
Theorem passwd_parse_bounds buf max :
  0 < max →
  ∃ es, passwd_parse (Some buf) max = Some (Some es) ∧ Forall entry_ok es ∧ Forall (λ e, name e ≠ []) es ∧
    Z.of_nat (length es) ≤ max.
Proof.
  intros Hm. unfold passwd_parse. destruct (Z.leb_spec max 0); [lia|].
  destruct (parse_loop_total (S (length buf)) buf [] max) as (es & -> & ? & ? & ?);
    [lia|constructor|done|simpl; lia|constructor|]. by exists es.
Qed.

(** Parsing a printed password file gives the entries back, whatever the comment fields hold. *)
Theorem passwd_roundtrip l max :
  Forall (λ p, entry_ok p.2 ∧ field_ok 64 p.1 ∧ starts_line (name p.2)) l → Z.of_nat (length l) ≤ max → l ≠ [] →
  passwd_parse (Some (print_passwd l)) max = Some (Some (snd <$> l)).
Proof.
  intros Hl Hm Hn. unfold passwd_parse. destruct (Z.leb_spec max 0); [destruct l; [done|simpl in Hm; lia]|].
  rewrite (parse_loop_print _ l [] max [] Hl); [done|done|lia|by left].
Qed.

(** The lookups return the first entry that matches. *)
Lemma passwd_find_user_spec es nm e :
  passwd_find_user es nm = Some e ↔ ∃ l r, es = l ++ e :: r ∧ name e = nm ∧ Forall (λ x, name x ≠ nm) l.
Proof.
  induction es as [|x es IH]; simpl; [split; [done|]; by intros ([] & ? & ? & _)|].
  destruct (decide (name x = nm)) as [Hx|Hx].
  - split; [intros [= ->]; exists [], es; eauto|]. intros ([|y l] & r & [= -> ->] & Hn & Hl); [done|]. by inversion Hl.
  - rewrite IH. split; intros (l & r & E & Hn & Hl).
    + exists (x :: l), r. subst. by eauto.
    + destruct l as [|y l]; simplify_eq/=. inversion Hl; subst. eauto.
Qed.

Definition root_entry : PasswdEntry := mkPasswd [114; 111; 111; 116] [120] 0 0 [47] [47; 115; 104].
Definition user_entry : PasswdEntry := mkPasswd [98; 111; 98] [] 1000 4294967295 [47; 98] [].
Lemma entries_ok : Forall (λ p, entry_ok p.2 ∧ field_ok 64 p.1 ∧ starts_line (name p.2)) [([], root_entry); ([82], user_entry)].
Proof.
  repeat (constructor; [split_and!; [split; vm_compute; repeat constructor; done|vm_compute; repeat constructor|
    eexists _, _; split_and!; [reflexivity|done..]]|]). constructor.
Qed.

Lemma passwd_parse_bounds_witness :
  ∃ es, passwd_parse (Some [0; 97; 58; 10; 35; 10; 98]) 16 = Some (Some es) ∧ Forall entry_ok es ∧
    Forall (λ e, name e ≠ []) es ∧ Z.of_nat (length es) ≤ 16.
Proof. apply passwd_parse_bounds. lia. Defined.
Lemma passwd_roundtrip_witness :
  passwd_parse (Some (print_passwd [([], root_entry); ([82], user_entry)])) 16 = Some (Some [root_entry; user_entry]).
Proof. apply (passwd_roundtrip [([], root_entry); ([82], user_entry)]); [apply entries_ok|done|done]. Defined.
