(* ===== verification/Pipe.v ===== *)
(** * Pipes

    [kernel/fs/pipe.c] with one reading and one writing thread, interleaved at every
    access to the shared ring: each loop is a machine whose program counter says what
    it does next.  The critical sections of [pipe->lock] run with interrupts off and
    are single steps.  A wait queue of the pipe holds at most the one thread
    that sleeps on it. *)
From S2P Require Import Prelude.

Definition PIPE_BUF_SIZE : Z := 4096.
Definition EPIPE : Z := 32.

(** [readers_wq] and [writers_wq] say whether the reader, the writer, sleeps on the queue. *)
Record PipeNode : Type := mkPipe {
  buf : list Z; head : Z; tail : Z; reader_count : Z; writer_count : Z; readers_wq : bool; writers_wq : bool
}.

(** The next thing [pipe_read] and [pipe_write] do. *)
Inductive ReadPc : Type :=
| RLoop        (* while (total < size) if (head != tail) *)
| RCopy        (* dst[total++] = buf[tail % PIPE_BUF_SIZE] *)
| RAdvance     (* tail++ *)
| REmpty       (* the tests of writer_count and total *)
| RLock        (* the critical section that tests again and goes to sleep *)
| RAsleep      (* in wq_sleep *)
| RFinish      (* after the loop *)
| RReturned (r : Z).
Inductive WritePc : Type :=
| WLoop        (* while (total < size) if (reader_count == 0) *)
| WRoom        (* if (head - tail < PIPE_BUF_SIZE) *)
| WStore       (* buf[head % PIPE_BUF_SIZE] = src[total++] *)
| WAdvance     (* head++ *)
| WLock
| WAsleep
| WFinish
| WReturned (r : Z).
#[export] Instance ReadPc_eq_dec : EqDecision ReadPc.
Proof. solve_decision. Defined.
#[export] Instance WritePc_eq_dec : EqDecision WritePc.
Proof. solve_decision. Defined.

Record Reader : Type := mkReader { rpc : ReadPc; rsize : Z; dst : list Z }.
Record Writer : Type := mkWriter { wpc : WritePc; src : list Z; total : Z }.

Definition set_tail (v : Z) (p : PipeNode) : PipeNode :=
  mkPipe (buf p) (head p) v (reader_count p) (writer_count p) (readers_wq p) (writers_wq p).
Definition set_head (v : Z) (p : PipeNode) : PipeNode :=
  mkPipe (buf p) v (tail p) (reader_count p) (writer_count p) (readers_wq p) (writers_wq p).
Definition set_buf (v : list Z) (p : PipeNode) : PipeNode :=
  mkPipe v (head p) (tail p) (reader_count p) (writer_count p) (readers_wq p) (writers_wq p).
Definition set_counts (r w : Z) (p : PipeNode) : PipeNode :=
  mkPipe (buf p) (head p) (tail p) r w (readers_wq p) (writers_wq p).
Definition set_wqs (r w : bool) (p : PipeNode) : PipeNode :=
  mkPipe (buf p) (head p) (tail p) (reader_count p) (writer_count p) r w.
Definition goto_r (pc : ReadPc) (t : Reader) : Reader := mkReader pc (rsize t) (dst t).
Definition goto_w (pc : WritePc) (t : Writer) : Writer := mkWriter pc (src t) (total t).

(** One step of [pipe_read]; [None] when the thread cannot go on. *)
Definition pipe_read (p : PipeNode) (t : Reader) : option (PipeNode * Reader) :=
  let total := Z.of_nat (length (dst t)) in
  match rpc t with
  | RLoop =>
      if total <? rsize t then
        if negb (head p =? tail p) then Some (p, goto_r RCopy t) else Some (p, goto_r REmpty t)
      else Some (p, goto_r RFinish t)
  | RCopy => c ← zget (buf p) (tail p mod PIPE_BUF_SIZE); Some (p, mkReader RAdvance (rsize t) (dst t ++ [c]))
  | RAdvance => Some (set_tail (u32 (tail p + 1)) p, goto_r RLoop t)
  | REmpty =>
      if writer_count p =? 0 then Some (p, goto_r RFinish t) else
      if 0 <? total then Some (p, goto_r RFinish t) else Some (p, goto_r RLock t)
  | RLock =>
      if (head p =? tail p) && (0 <? writer_count p) then Some (set_wqs true (writers_wq p) p, goto_r RAsleep t)
      else Some (p, goto_r RLoop t)
  | RAsleep => if readers_wq p then None else Some (p, goto_r RLoop t)
  | RFinish =>
      Some (if 0 <? total then set_wqs (readers_wq p) false p else p, goto_r (RReturned total) t)
  | RReturned _ => None
  end.

(** One step of [pipe_write]. *)
Definition pipe_write (p : PipeNode) (t : Writer) : option (PipeNode * Writer) :=
  match wpc t with
  | WLoop =>
      if total t <? Z.of_nat (length (src t)) then
        if reader_count p =? 0 then Some (p, goto_w (WReturned (if 0 <? total t then total t else - EPIPE)) t)
        else Some (p, goto_w WRoom t)
      else Some (p, goto_w WFinish t)
  | WRoom => if u32 (head p - tail p) <? PIPE_BUF_SIZE then Some (p, goto_w WStore t) else Some (p, goto_w WLock t)
  | WStore =>
      c ← zget (src t) (total t);
      b ← zset (buf p) (head p mod PIPE_BUF_SIZE) c;
      Some (set_buf b p, mkWriter WAdvance (src t) (total t + 1))
  | WAdvance => Some (set_head (u32 (head p + 1)) p, goto_w WLoop t)
  | WLock =>
      if (PIPE_BUF_SIZE <=? u32 (head p - tail p)) && (0 <? reader_count p)
      then Some (set_wqs (readers_wq p) true p, goto_w WAsleep t)
      else Some (p, goto_w WLoop t)
  | WAsleep => if writers_wq p then None else Some (p, goto_w WLoop t)
  | WFinish => Some (if 0 <? total t then set_wqs false (writers_wq p) p else p, goto_w (WReturned (total t)) t)
  | WReturned _ => None
  end.

(** The state [pipe_create] sets up when it has memory: zeroed, one reader, one writer. *)
Definition pipe_create : PipeNode := mkPipe (replicate (Z.to_nat PIPE_BUF_SIZE) 0) 0 0 1 1 false false.

Inductive End : Type := ReadEnd | WriteEnd.
(** The result says whether the node is freed. *)
Definition pipe_close (e : End) (p : PipeNode) : PipeNode * bool :=
  let p := match e with
    | ReadEnd => set_wqs (readers_wq p) false (set_counts (u32 (reader_count p - 1)) (writer_count p) p)
    | WriteEnd => set_wqs false (writers_wq p) (set_counts (reader_count p) (u32 (writer_count p - 1)) p)
    end in
  (p, (reader_count p =? 0) && (writer_count p =? 0)).
Definition pipe_addref (e : End) (p : PipeNode) : PipeNode :=
  match e with
  | ReadEnd => set_counts (u32 (reader_count p + 1)) (writer_count p) p
  | WriteEnd => set_counts (reader_count p) (u32 (writer_count p + 1)) p
  end.

(** ** The pipe and its two threads *)

(** [rpast] and [wpast] are the bytes that earlier calls returned and accepted. *)
Record Sys : Type := mkSys { pipe : PipeNode; rd : Reader; wr : Writer; rpast : list Z; wpast : list Z }.
Definition received (s : Sys) : list Z := rpast s ++ dst (rd s).
Definition accepted (s : Sys) : list Z := wpast s ++ take (Z.to_nat (total (wr s))) (src (wr s)).

Inductive step : Sys → Sys → Prop :=
| step_read s p t : pipe_read (pipe s) (rd s) = Some (p, t) → step s (mkSys p t (wr s) (rpast s) (wpast s))
| step_write s p t : pipe_write (pipe s) (wr s) = Some (p, t) → step s (mkSys p (rd s) t (rpast s) (wpast s))
| step_call_read s r n : rpc (rd s) = RReturned r →
    step s (mkSys (pipe s) (mkReader RLoop n []) (wr s) (rpast s ++ dst (rd s)) (wpast s))
| step_call_write s r l : wpc (wr s) = WReturned r →
    step s (mkSys (pipe s) (rd s) (mkWriter WLoop l 0) (rpast s) (accepted s))
| step_close s e : (pipe_close e (pipe s)).2 = false →
    step s (mkSys (pipe_close e (pipe s)).1 (rd s) (wr s) (rpast s) (wpast s))
| step_addref s e : step s (mkSys (pipe_addref e (pipe s)) (rd s) (wr s) (rpast s) (wpast s)).
Definition sys_init : Sys := mkSys pipe_create (mkReader (RReturned 0) 0 []) (mkWriter (WReturned 0) [] 0) [] [].

(** ** The ring *)

(** The ring holds the bytes [q]. *)
Record ring (p : PipeNode) (q : list Z) : Prop := {
  rg_buf : Z.of_nat (length (buf p)) = PIPE_BUF_SIZE;
  rg_head : 0 ≤ head p < 2 ^ 32;
  rg_tail : 0 ≤ tail p < 2 ^ 32;
  rg_size : Z.of_nat (length q) ≤ PIPE_BUF_SIZE;
  rg_dist : head p = u32 (tail p + Z.of_nat (length q));
  rg_data i c : q !! i = Some c → zget (buf p) ((tail p + Z.of_nat i) mod PIPE_BUF_SIZE) = Some c;
}.

(** The byte stored but not yet counted by [head], the byte copied but not yet by [tail]. *)
Definition wpending (s : Sys) (q l : list Z) : Prop :=
  match wpc (wr s) with
  | WAdvance => ∃ c, l = [c] ∧ zget (buf (pipe s)) (head (pipe s) mod PIPE_BUF_SIZE) = Some c ∧
      Z.of_nat (length q) < PIPE_BUF_SIZE
  | WStore => l = [] ∧ Z.of_nat (length q) < PIPE_BUF_SIZE ∧ total (wr s) < Z.of_nat (length (src (wr s)))
  | WRoom => l = [] ∧ total (wr s) < Z.of_nat (length (src (wr s)))
  | _ => l = []
  end.
Definition rpending (s : Sys) (q l : list Z) : Prop :=
  match rpc (rd s) with
  | RAdvance => ∃ c q', q = c :: q' ∧ l = [c]
  | RCopy => q ≠ [] ∧ l = []
  | _ => l = []
  end.

Record sys_ok (s : Sys) (got q rl wl : list Z) : Prop := {
  sy_ring : ring (pipe s) q;
  sy_total : 0 ≤ total (wr s) ≤ Z.of_nat (length (src (wr s)));
  sy_w : wpending s q wl;
  sy_r : rpending s q rl;
  sy_received : received s = got ++ rl;
  sy_accepted : accepted s = got ++ q ++ wl;
}.

Lemma mod_u32 x : u32 x mod PIPE_BUF_SIZE = x mod PIPE_BUF_SIZE.
Proof. unfold u32, PIPE_BUF_SIZE. lia. Qed.

Lemma ring_pop p c q : ring p (c :: q) → ring (set_tail (u32 (tail p + 1)) p) q.
Proof.
  intros [Hb Hh Ht Hs Hd Hg]. simpl in Hs, Hd. split; simpl; try done.
  - apply u32_range.
  - lia.
  - rewrite Hd. unfold u32. lia.
  - intros i x Hi. rewrite <-(Hg (S i) x Hi). f_equal. unfold u32, PIPE_BUF_SIZE. lia.
Qed.
Lemma ring_push p q c :
  ring p q → Z.of_nat (length q) < PIPE_BUF_SIZE → zget (buf p) (head p mod PIPE_BUF_SIZE) = Some c →
  ring (set_head (u32 (head p + 1)) p) (q ++ [c]).
Proof.
  intros [Hb Hh Ht Hs Hd Hg] Hl Hc. split; simpl; try done.
  - apply u32_range.
  - rewrite length_app. simpl. lia.
  - rewrite Hd, length_app. simpl. unfold u32. lia.
  - intros i x Hi. apply lookup_app_Some in Hi as [Hi|[Hle Hi]]; [by apply Hg|].
    apply list_lookup_singleton_Some in Hi as [Hi <-]. rewrite <-Hc, Hd. f_equal. rewrite mod_u32. f_equal. lia.
Qed.
Lemma ring_store p q b c :
  ring p q → Z.of_nat (length q) < PIPE_BUF_SIZE → zset (buf p) (head p mod PIPE_BUF_SIZE) c = Some b →
  ring (set_buf b p) q.
Proof.
  intros [Hb Hh Ht Hs Hd Hg] Hl Hz. split; simpl; try done.
  - by rewrite (length_zset _ _ _ _ Hz).
  - intros i x Hi. rewrite (zget_zset_ne _ _ _ _ _ Hz); [by apply Hg|].
    apply lookup_lt_Some in Hi. rewrite Hd, mod_u32. unfold PIPE_BUF_SIZE in *. lia.
Qed.
Lemma ring_empty p q : ring p q → (head p =? tail p) = bool_decide (q = []).
Proof.
  intros [Hb Hh Ht Hs Hd _]. unfold u32, PIPE_BUF_SIZE in *. case_bool_decide as E.
  - subst. simpl in *. lia.
  - destruct q; [done|]. simpl in *. lia.
Qed.
Lemma ring_count p q : ring p q → u32 (head p - tail p) = Z.of_nat (length q).
Proof. intros [Hb Hh Ht Hs Hd _]. unfold u32, PIPE_BUF_SIZE in *. lia. Qed.
(** Changes that do not concern the ring. *)
Lemma ring_ext p p' q : buf p' = buf p → head p' = head p → tail p' = tail p → ring p q → ring p' q.
Proof. intros E1 E2 E3 []. split; by rewrite ?E1, ?E2, ?E3. Qed.

Lemma sys_init_ok : sys_ok sys_init [] [] [] [].
Proof. by split. Qed.

(** A step that moves only the program counters or the queues. *)
Lemma sys_ok_ext s s' got q rl wl :
  sys_ok s got q rl wl → buf (pipe s') = buf (pipe s) → head (pipe s') = head (pipe s) → tail (pipe s') = tail (pipe s) →
  received s' = received s → wr s' = wr s → wpast s' = wpast s →
  rpending s' q rl → sys_ok s' got q rl wl.
Proof.
  intros [Hr Ht Hw Hp Hre Hac] E1 E2 E3 E4 E5 E6 Hp'. split.
  - by eapply ring_ext.
  - by rewrite E5.
  - unfold wpending in *. by rewrite E1, E2, E5.
  - done.
  - by rewrite E4.
  - unfold accepted in *. by rewrite E5, E6.
Qed.

Lemma read_ok s got q rl wl p t :
  sys_ok s got q rl wl → pipe_read (pipe s) (rd s) = Some (p, t) →
  ∃ got' q' rl', sys_ok (mkSys p t (wr s) (rpast s) (wpast s)) got' q' rl' wl.
Proof.
  intros Hok Hst. pose proof Hok as [Hr Ht Hw Hp Hre Hac]. unfold rpending in Hp.
  destruct s as [pp [pc n d] w rp wp]. unfold pipe_read in Hst. simpl in *.
  destruct pc; simplify_eq/=.
  - rewrite (ring_empty _ _ Hr) in Hst. exists got, q, [].
    destruct (_ <? _); [case_bool_decide|]; simplify_eq/=; eapply sys_ok_ext; by try eassumption.
  - destruct Hp as [Hq ->]. destruct q as [|c q]; [done|]. pose proof (rg_data _ _ Hr 0 c eq_refl) as Hg.
    rewrite Z.add_0_r in Hg. rewrite Hg in Hst. simplify_eq/=. exists got, (c :: q), [c]. split; simpl; try done.
    + by exists c, q.
    + unfold received in *. simpl in *. rewrite app_assoc, Hre. by rewrite app_nil_r.
  - destruct Hp as (c & q' & -> & ->). exists (got ++ [c]), q', []. split; simpl; try done.
    + by eapply ring_pop.
    + unfold wpending in *. simpl in *. destruct (wpc w); naive_solver lia.
    + by rewrite app_nil_r.
    + etrans; [exact Hac|]. by rewrite <-!app_assoc.
  - exists got, q, []. destruct (_ =? _); [|destruct (_ <? _)]; simplify_eq/=; eapply sys_ok_ext; by try eassumption.
  - exists got, q, []. destruct (_ && _); simplify_eq/=; eapply sys_ok_ext; by try eassumption.
  - exists got, q, []. destruct (readers_wq pp); simplify_eq/=. eapply sys_ok_ext; by try eassumption.
  - exists got, q, []. eapply sys_ok_ext; try eassumption; try done; by destruct (_ <? _).
Qed.

Lemma write_ok s got q rl wl p t :
  sys_ok s got q rl wl → pipe_write (pipe s) (wr s) = Some (p, t) →
  ∃ q' wl', sys_ok (mkSys p (rd s) t (rpast s) (wpast s)) got q' rl wl'.
Proof.
  intros Hok Hst. pose proof Hok as [Hr Ht Hw Hp Hre Hac]. unfold wpending in Hw.
  destruct s as [pp r [pc sr tot] rp wp]. unfold pipe_write in Hst. simpl in *.
  assert (∀ p' pc', buf p' = buf pp → head p' = head pp → tail p' = tail pp → wl = [] →
    wpending (mkSys p' r (mkWriter pc' sr tot) rp wp) q wl →
    ∃ q' wl', sys_ok (mkSys p' r (mkWriter pc' sr tot) rp wp) got q' rl wl') as Hmove.
  { intros p' pc' E1 E2 E3 -> Hw'. exists q, []. split; simpl; try done. by eapply ring_ext. }
  destruct pc; simplify_eq/=.
  - destruct (Z.ltb_spec tot (Z.of_nat (length sr))); [destruct (_ =? _)|]; simplify_eq/=; by apply Hmove.
  - destruct Hw as [-> Hlt]. rewrite (ring_count _ _ Hr) in Hst.
    destruct (Z.ltb_spec (Z.of_nat (length q)) PIPE_BUF_SIZE); simplify_eq/=; by apply Hmove.
  - destruct Hw as (-> & Hq & Hlt). destruct (zget sr tot) as [c|] eqn:Ec; simplify_eq/=.
    destruct (zset (buf pp) _ c) as [b|] eqn:Eb; simplify_eq/=. exists q, [c]. split; simpl; try done; try lia.
    + by eapply ring_store.
    + exists c. split_and!; [done|by eapply zget_zset_eq|done].
    + unfold accepted in *. simpl in *. rewrite Z2Nat.inj_add by lia. rewrite app_nil_r in Hac.
      unfold zget in Ec. destruct (tot <? 0); [done|]. rewrite Nat.add_1_r, (take_S_r _ _ c) by done.
      by rewrite app_assoc, Hac, <-app_assoc.
  - destruct Hw as (c & -> & Hg & Hq). exists (q ++ [c]), []. split; simpl; try done.
    + by eapply ring_push.
    + unfold rpending in *. simpl in *. destruct (rpc r); try done.
      * destruct Hp as [? ->]. split; [by destruct q|done].
      * destruct Hp as (c' & q' & -> & ->). by exists c', (q' ++ [c]).
    + by rewrite app_nil_r.
  - destruct (_ && _); simplify_eq/=; by apply Hmove.
  - destruct (writers_wq pp); simplify_eq/=. by apply Hmove.
  - destruct (_ <? _); simplify_eq/=; by apply Hmove.
Qed.

(** A store or a load is never outside the ring or the caller's buffer. *)
Lemma steps_defined s got q rl wl :
  sys_ok s got q rl wl → (rpc (rd s) = RCopy → is_Some (pipe_read (pipe s) (rd s))) ∧
    (wpc (wr s) = WStore → is_Some (pipe_write (pipe s) (wr s))).
Proof.
  intros [Hr Ht Hw Hp _ _]. unfold rpending, wpending in *. split; intros E; rewrite E in *.
  - destruct Hp as [Hq ->]. destruct q as [|c q]; [done|]. pose proof (rg_data _ _ Hr 0 c eq_refl) as Hg.
    rewrite Z.add_0_r in Hg. unfold pipe_read. rewrite E, Hg. by eexists.
  - destruct Hw as (-> & Hq & Hlt). unfold pipe_write. rewrite E. destruct (zget_lt (src (wr s)) (total (wr s))) as [c ->]; [lia|].
    simpl. rewrite zset_lt; [by eexists|]. rewrite (rg_buf _ _ Hr). apply Z.mod_pos_bound. done.
Qed.

Lemma pipe_step_ok s s' got q rl wl :
  sys_ok s got q rl wl → step s s' → ∃ got' q' rl' wl', sys_ok s' got' q' rl' wl'.
Proof.
  intros Hok Hs. destruct Hs as [s p t E|s p t E|s r n E|s r l E|s e Hf|s e].
  - destruct (read_ok _ _ _ _ _ _ _ Hok E) as (? & ? & ? & ?). eauto.
  - destruct (write_ok _ _ _ _ _ _ _ Hok E) as (? & ? & ?). eauto.
  - exists got, q, [], wl. pose proof (sy_r _ _ _ _ _ Hok) as Hr. unfold rpending in Hr. rewrite E in Hr. subst rl.
    eapply sys_ok_ext; try eassumption; try done. unfold received. simpl. by rewrite app_nil_r.
  - exists got, q, rl, []. destruct Hok as [Hr Ht Hw Hp Hre Hac]. unfold wpending in Hw. rewrite E in Hw. subst wl.
    split; simpl; try done; [lia|]. unfold accepted at 1. simpl. rewrite take_0, app_nil_r. done.
  - exists got, q, rl, wl. eapply sys_ok_ext; try eassumption; try done; try (by destruct e). apply Hok.
  - exists got, q, rl, wl. eapply sys_ok_ext; try eassumption; try done; try (by destruct e). apply Hok.
Qed.
Lemma pipe_reachable_ok s : rtc step sys_init s → ∃ got q rl wl, sys_ok s got q rl wl.
Proof.
  intros Hr. assert (∃ got q rl wl, sys_ok sys_init got q rl wl) as Hi by eauto using sys_init_ok.
  induction Hr; [done|]. destruct Hi as (? & ? & ? & ? & Hok). eauto using pipe_step_ok.
Qed.

(** ** A large write while the reader waits *)

Definition waiting (n : Z) : Reader := mkReader RAsleep n [].
(** The writer has put the first [k] bytes of [data] in the ring, and the reader sleeps. *)
Definition filling (n : Z) (data : list Z) (k : Z) (pc : WritePc) (b : list Z) (ww : bool) : Sys :=
  mkSys (mkPipe b k 0 1 1 true ww) (waiting n) (mkWriter pc data k) [] [].

Lemma fill_one n data k b :
  0 ≤ k < PIPE_BUF_SIZE → k < Z.of_nat (length data) → Z.of_nat (length b) = PIPE_BUF_SIZE →
  ∃ b', rtc step (filling n data k WLoop b false) (filling n data (k + 1) WLoop b' false) ∧ length b' = length b.
Proof.
  intros Hk Hd Hb. destruct (zget_lt data k ltac:(lia)) as [c Hc].
  assert (zset b (k mod PIPE_BUF_SIZE) c = Some (<[Z.to_nat k := c]> b)) as Hz.
  { rewrite Z.mod_small by lia. apply zset_lt. lia. }
  exists (<[Z.to_nat k := c]> b). split; [|apply length_insert].
  eapply rtc_l; [eapply step_write; unfold pipe_write; simpl; destruct (Z.ltb_spec k (Z.of_nat (length data))); [done|lia]|].
  eapply rtc_l; [eapply step_write; unfold pipe_write; simpl; unfold u32; rewrite Z.mod_small by (unfold PIPE_BUF_SIZE in *; lia);
    destruct (Z.ltb_spec (k - 0) PIPE_BUF_SIZE); [done|lia]|].
  eapply rtc_l; [eapply step_write; unfold pipe_write; simpl; rewrite Hc; simpl; rewrite Hz; done|].
  eapply rtc_l; [eapply step_write; done|]. simpl. unfold set_buf, set_head, filling, goto_w. simpl.
  unfold u32. rewrite Z.mod_small by (unfold PIPE_BUF_SIZE in *; lia). done.
Qed.
Lemma fill_all n data (k : nat) :
  Z.of_nat k ≤ PIPE_BUF_SIZE → PIPE_BUF_SIZE < Z.of_nat (length data) →
  ∃ b, rtc step (filling n data 0 WLoop (buf pipe_create) false) (filling n data (Z.of_nat k) WLoop b false) ∧
    Z.of_nat (length b) = PIPE_BUF_SIZE.
Proof.
  intros Hk Hd. induction k as [|k IH]; [eexists; split; [apply rtc_refl|done]|].
  destruct IH as (b & Hr & Hb); [lia|]. destruct (fill_one n data (Z.of_nat k) b) as (b' & Hr' & Hb'); [lia|lia|done|].
  exists b'. replace (Z.of_nat (S k)) with (Z.of_nat k + 1) by lia. split; [by etrans|lia].
Qed.

(** ** Theorems *)

(** C22. A pipe is a FIFO under every interleaving of the reader and the writer: the bytes received so far are a
    prefix of the bytes accepted so far, at most PIPE_BUF_SIZE bytes are in between, and no access is
    outside the ring, also when the 32-bit positions wrap around. *)
Theorem pipe_fifo s :
  rtc step sys_init s →
  received s `prefix_of` accepted s ∧
  Z.of_nat (length (accepted s)) ≤ Z.of_nat (length (received s)) + PIPE_BUF_SIZE + 1 ∧
  (rpc (rd s) = RCopy → is_Some (pipe_read (pipe s) (rd s))) ∧
  (wpc (wr s) = WStore → is_Some (pipe_write (pipe s) (wr s))).
Proof.
  intros Hr. destruct (pipe_reachable_ok s Hr) as (got & q & rl & wl & Hok).
  pose proof (steps_defined _ _ _ _ _ Hok) as Hdef. destruct Hok as [Hg Ht Hw Hp Hre Hac].
  assert (∃ q', q = rl ++ q') as [q' Hq'].
  { unfold rpending in Hp. destruct (rpc (rd s)); naive_solver. }
  split_and!; try apply Hdef.
  - rewrite Hre, Hac, Hq', <-app_assoc. exists (q' ++ wl). by rewrite <-!app_assoc.
  - rewrite Hre, Hac, !length_app. pose proof (rg_size _ _ Hg).
    assert (length wl ≤ 1)%nat; [|lia]. unfold wpending in Hw. destruct (wpc (wr s)); naive_solver.
Qed.

(** When the reader sleeps on an empty pipe, a write of more than PIPE_BUF_SIZE bytes fills the ring and
    goes to sleep without having woken the reader: both threads sleep for ever on a full pipe. *)
Theorem pipe_write_deadlock n (data : list Z) :
  0 < n → PIPE_BUF_SIZE < Z.of_nat (length data) →
  ∃ s, rtc step sys_init s ∧ rpc (rd s) = RAsleep ∧ wpc (wr s) = WAsleep ∧
    u32 (head (pipe s) - tail (pipe s)) = PIPE_BUF_SIZE ∧
    pipe_read (pipe s) (rd s) = None ∧ pipe_write (pipe s) (wr s) = None.
Proof.
  intros Hn Hd. destruct (fill_all n data (Z.to_nat PIPE_BUF_SIZE)) as (b & Hr & Hb); [done|done|].
  exists (filling n data PIPE_BUF_SIZE WAsleep b true). split; [|done].
  eapply rtc_l; [by apply (step_call_read _ 0 n)|].
  eapply rtc_l; [eapply step_read; unfold pipe_read; simpl; destruct (Z.ltb_spec (Z.of_nat 0) n); [done|lia]|].
  do 2 (eapply rtc_l; [by eapply step_read|]).
  eapply rtc_l; [by apply (step_call_write _ 0 data)|]. etrans; [exact Hr|].
  eapply rtc_l; [eapply step_write; unfold pipe_write; simpl;
    destruct (Z.ltb_spec (Z.of_nat (Z.to_nat PIPE_BUF_SIZE)) (Z.of_nat (length data))); [done|unfold PIPE_BUF_SIZE in *; lia]|].
  do 2 (eapply rtc_l; [by eapply step_write|]). apply rtc_refl.
Qed.

Lemma pipe_fifo_witness :
  ∃ s, rtc step sys_init s ∧ received s `prefix_of` accepted s ∧
  Z.of_nat (length (accepted s)) ≤ Z.of_nat (length (received s)) + PIPE_BUF_SIZE + 1 ∧
  (rpc (rd s) = RCopy → is_Some (pipe_read (pipe s) (rd s))) ∧
  (wpc (wr s) = WStore → is_Some (pipe_write (pipe s) (wr s))).
Proof.
  exists (mkSys pipe_create (rd sys_init) (mkWriter WRoom [65; 66] 0) [] []).
  assert (rtc step sys_init (mkSys pipe_create (rd sys_init) (mkWriter WRoom [65; 66] 0) [] [])) as Hr.
  { eapply rtc_l; [by apply (step_call_write _ 0 [65; 66])|]. eapply rtc_l; [by eapply step_write|]. apply rtc_refl. }
  split; [exact Hr|]. apply (pipe_fifo _ Hr).
Defined.
Lemma pipe_write_deadlock_witness :
  ∃ s, rtc step sys_init s ∧ rpc (rd s) = RAsleep ∧ wpc (wr s) = WAsleep ∧
    u32 (head (pipe s) - tail (pipe s)) = PIPE_BUF_SIZE ∧
    pipe_read (pipe s) (rd s) = None ∧ pipe_write (pipe s) (wr s) = None.
Proof. apply (pipe_write_deadlock 1 (replicate (Z.to_nat 4097) 0)); [lia|]. rewrite length_replicate, Z2Nat.id; done. Defined.
