(* ===== verification/Ramfs.v ===== *)
(** * Files in memory

    [kernel/fs/ramfs.c] with the nodes of [kernel/fs/vfs.h].  Nodes are
    keyed by their address; a [RamfsNode] starts with its [VfsNode], so both have the
    same key.  The bytes and the directory entries that a node points to are part of
    it; the memory they take comes from the kernel heap. *)
From S2P Require Import Prelude KHeap.

Definition VFS_FILE : Z := 0.
Definition VFS_DIRECTORY : Z := 1.
Definition VFS_PIPE : Z := 2.
Definition VFS_SOCKET : Z := 3.
Definition VFS_NAME_MAX : Z := 256.
Definition ENOENT : Z := 2.
Definition ENOMEM : Z := 12.
Definition EACCES : Z := 13.
Definition EEXIST : Z := 17.
Definition ENOTDIR : Z := 20.
Definition EISDIR : Z := 21.
Definition EINVAL : Z := 22.
Definition ENOTEMPTY : Z := 39.

Definition RAMFS_NAME_MAX : Z := 255.
Definition RAMFS_INIT_CAP : Z := 512.
Definition RAMFS_MAX_CHILDREN : Z := 128.
Definition SIZEOF_RAMFS_NODE : Z := 88.
Definition SIZEOF_RAMFS_DIR_ENTRY : Z := 264.

(** Which table of operations a node points to. *)
Inductive Ops : Type := NoOps | RamfsOps | DevNullOps | DevZeroOps | DevTtyOps | DevDirOps.
#[export] Instance Ops_eq_dec : EqDecision Ops.
Proof. solve_decision. Defined.

Record VfsNode : Type := mkNode {
  inode_num : Z; ntype : Z; nsize : Z; nmode : Z; nuid : Z; ngid : Z; nops : Ops
}.
(** [data] and [children] are the pointers; [contents] has the [capacity] bytes at [data],
    [entries] the first [num_children] entries at [children]. *)
Record RamfsNode : Type := mkRam {
  data : Z; contents : list Z; children : Z; entries : list (list Z * Z)
}.
Definition capacity (r : RamfsNode) : Z := Z.of_nat (length (contents r)).
Definition num_children (r : RamfsNode) : Z := Z.of_nat (length (entries r)).

Record Fs (H : Type) : Type := mkFs {
  fheap : H;
  vnodes : gmap Z VfsNode;
  rams : gmap Z RamfsNode;
  next_inode : Z;
  vfs_root : Z;
  mount_table : list (list Z * Z);
}.
Arguments mkFs {H}.
Arguments fheap {H}.
Arguments vnodes {H}.
Arguments rams {H}.
Arguments next_inode {H}.
Arguments vfs_root {H}.
Arguments mount_table {H}.

Definition set_nsize (v : Z) (n : VfsNode) : VfsNode :=
  mkNode (inode_num n) (ntype n) v (nmode n) (nuid n) (ngid n) (nops n).
Definition set_nmode (v : Z) (n : VfsNode) : VfsNode :=
  mkNode (inode_num n) (ntype n) (nsize n) v (nuid n) (ngid n) (nops n).
Definition set_nowner (u g : Z) (n : VfsNode) : VfsNode :=
  mkNode (inode_num n) (ntype n) (nsize n) (nmode n) u g (nops n).
Definition set_data (p : Z) (l : list Z) (r : RamfsNode) : RamfsNode := mkRam p l (children r) (entries r).
Definition set_entries (l : list (list Z * Z)) (r : RamfsNode) : RamfsNode :=
  mkRam (data r) (contents r) (children r) l.

(** The doubling of [new_cap], a [uint32_t]; [None] when it never reaches [end]. *)
Fixpoint grow_cap (fuel : nat) (new_cap end_ : Z) : option Z :=
  if new_cap <? end_ then
    match fuel with
    | O => None
    | S fuel' => grow_cap fuel' (u32 (new_cap * 2)) end_
    end
  else Some new_cap.

(** [memcpy(l + off, buf, size)] within the [length l] bytes, as one update. *)
Definition overwrite (l : list Z) (off : Z) (buf : list Z) : list Z :=
  take (Z.to_nat off) l ++ buf ++ drop (Z.to_nat off + length buf) l.

Section ramfs.
Context {H : Type} `{KHeap H}.
Implicit Types (s : Fs H).

Definition with_fheap (h : H) s : Fs H := mkFs h (vnodes s) (rams s) (next_inode s) (vfs_root s) (mount_table s).
Definition with_vnodes (m : gmap Z VfsNode) s : Fs H :=
  mkFs (fheap s) m (rams s) (next_inode s) (vfs_root s) (mount_table s).
Definition with_rams (m : gmap Z RamfsNode) s : Fs H :=
  mkFs (fheap s) (vnodes s) m (next_inode s) (vfs_root s) (mount_table s).
Definition with_inode (n : Z) s : Fs H := mkFs (fheap s) (vnodes s) (rams s) n (vfs_root s) (mount_table s).
Definition with_root (a : Z) s : Fs H := mkFs (fheap s) (vnodes s) (rams s) (next_inode s) a (mount_table s).
Definition with_mounts (l : list (list Z * Z)) s : Fs H :=
  mkFs (fheap s) (vnodes s) (rams s) (next_inode s) (vfs_root s) l.

Definition fs_alloc (size flags : Z) : K (Fs H) Z := zoom fheap with_fheap (kh_alloc size flags).
Definition fs_free (a : Z) : K (Fs H) unit := zoom fheap with_fheap (kh_free a).
Definition fs_realloc (a size : Z) : K (Fs H) Z := zoom fheap with_fheap (kh_realloc a size).
Definition vnode (a : Z) : K (Fs H) VfsNode := kopt (λ s, vnodes s !! a).
Definition ram (a : Z) : K (Fs H) RamfsNode := kopt (λ s, rams s !! a).
Definition upd_vnode (a : Z) (f : VfsNode → VfsNode) : K (Fs H) unit :=
  kupd (λ s, n ← vnodes s !! a; Some (with_vnodes (<[a := f n]> (vnodes s)) s)).
Definition upd_ram (a : Z) (f : RamfsNode → RamfsNode) : K (Fs H) unit :=
  kupd (λ s, r ← rams s !! a; Some (with_rams (<[a := f r]> (rams s)) s)).

(** The address of the node, or 0.  The fields are written when it is certain that
    the node is kept. *)
Definition ramfs_alloc_node (type : Z) : K (Fs H) Z :=
  rn ← fs_alloc SIZEOF_RAMFS_NODE 1;
  if rn =? 0 then mret 0 else
  ino ← kget next_inode;
  kmod (with_inode (u64 (ino + 1)));;
  let install (ch : Z) : K (Fs H) Z :=
    kmod (λ s, with_vnodes (<[rn := mkNode ino type 0 0 0 0 RamfsOps]> (vnodes s))
      (with_rams (<[rn := mkRam 0 [] ch []]> (rams s)) s));;
    mret rn in
  if type =? VFS_DIRECTORY then
    ch ← fs_alloc (SIZEOF_RAMFS_DIR_ENTRY * RAMFS_MAX_CHILDREN) 1;
    if ch =? 0 then fs_free rn;; mret 0 else install ch
  else install 0.

(** The result is the count and the bytes copied to the caller's buffer. *)
Definition ramfs_read (node offset size : Z) : K (Fs H) (Z * list Z) :=
  n ← vnode node;
  if negb (ntype n =? VFS_FILE) then mret (- EISDIR, []) else
  if nsize n <=? offset then mret (0, []) else
  let avail := u32 (nsize n - offset) in
  let to_read := if size <? avail then size else avail in
  r ← ram node;
  if capacity r <? offset + to_read then kstuck else
  mret (i32 to_read, take (Z.to_nat to_read) (drop (Z.to_nat offset) (contents r))).

Definition ramfs_write (node : Z) (buf : list Z) (offset : Z) : K (Fs H) Z :=
  n ← vnode node;
  if negb (ntype n =? VFS_FILE) then mret (- EISDIR) else
  let size := Z.of_nat (length buf) in
  let end_ := u32 (offset + size) in
  let finish : K (Fs H) Z :=
    r ← ram node;
    (if capacity r <? offset + size then kstuck else upd_ram node (λ r, set_data (data r) (overwrite (contents r) offset buf) r));;
    (if nsize n <? end_ then upd_vnode node (set_nsize end_) else mret tt);;
    mret (i32 size) in
  r ← ram node;
  if capacity r <? end_ then
    new_cap ← kopt (λ _, grow_cap 32 (if negb (capacity r =? 0) then capacity r else RAMFS_INIT_CAP) end_);
    new_data ← fs_realloc (data r) new_cap;
    if new_data =? 0 then mret (- ENOMEM) else
    upd_ram node (λ r, set_data new_data
      (contents r ++ (if capacity r <? new_cap then replicate (Z.to_nat (new_cap - capacity r)) 0 else [])) r);;
    finish
  else finish.

(** The index, or [None] for UINT32_MAX. *)
Fixpoint find_child (l : list (list Z * Z)) (name : list Z) : option nat :=
  match l with
  | [] => None
  | (n, _) :: l' => if decide (n = name) then Some 0%nat else S <$> find_child l' name
  end.
Definition ramfs_find_child (r : RamfsNode) (name : list Z) : option nat := find_child (entries r) name.

Definition ramfs_lookup (dir : Z) (name : list Z) : K (Fs H) Z :=
  n ← vnode dir;
  if negb (ntype n =? VFS_DIRECTORY) then mret 0 else
  r ← ram dir;
  match ramfs_find_child r name with
  | None => mret 0
  | Some i => kopt (λ _, snd <$> entries r !! i)
  end.

Definition ramfs_create (dir : Z) (name : list Z) (type : Z) : K (Fs H) Z :=
  n ← vnode dir;
  if negb (ntype n =? VFS_DIRECTORY) then mret 0 else
  r ← ram dir;
  if RAMFS_MAX_CHILDREN <=? num_children r then mret 0 else
  old ← ramfs_lookup dir name;
  if negb (old =? 0) then mret 0 else
  child ← ramfs_alloc_node type;
  if child =? 0 then mret 0 else
  upd_ram dir (λ r, set_entries (entries r ++ [(take (Z.to_nat RAMFS_NAME_MAX) name, child)]) r);;
  mret child.

Definition ramfs_free_node (rn : Z) : K (Fs H) unit :=
  r ← ram rn;
  (if negb (data r =? 0) then fs_free (data r) else mret tt);;
  (if negb (children r =? 0) then fs_free (children r) else mret tt);;
  fs_free rn;;
  kmod (λ s, with_vnodes (delete rn (vnodes s)) (with_rams (delete rn (rams s)) s)).

Definition ramfs_unlink (dir : Z) (name : list Z) : K (Fs H) Z :=
  n ← vnode dir;
  if negb (ntype n =? VFS_DIRECTORY) then mret (- ENOTDIR) else
  r ← ram dir;
  match ramfs_find_child r name with
  | None => mret (- ENOENT)
  | Some idx =>
      child ← kopt (λ _, snd <$> entries r !! idx);
      cn ← vnode child;
      cr ← ram child;
      if (ntype cn =? VFS_DIRECTORY) && (0 <? num_children cr) then mret (- ENOTEMPTY) else
      ramfs_free_node child;;
      upd_ram dir (λ r, set_entries (delete idx (entries r)) r);;
      mret 0
  end.

Record VfsDirEntry : Type := mkDirent { de_name : list Z; de_inode : Z; de_type : Z }.
Fixpoint dirents (l : list (list Z * Z)) : K (Fs H) (list VfsDirEntry) :=
  match l with
  | [] => mret []
  | (nm, a) :: l' =>
      n ← vnode a;
      rest ← dirents l';
      mret (mkDirent nm (inode_num n) (ntype n) :: rest)
  end.
Definition ramfs_readdir (dir max : Z) : K (Fs H) (Z * list VfsDirEntry) :=
  n ← vnode dir;
  if negb (ntype n =? VFS_DIRECTORY) then mret (- ENOTDIR, []) else
  r ← ram dir;
  let count := if num_children r <? max then num_children r else max in
  es ← dirents (take (Z.to_nat count) (entries r));
  mret (i32 count, es).

Definition ramfs_truncate (node size : Z) : K (Fs H) unit :=
  n ← vnode node;
  if negb (ntype n =? VFS_FILE) then mret tt else
  r ← ram node;
  if size =? 0 then
    (if negb (data r =? 0) then fs_free (data r) else mret tt);;
    upd_ram node (set_data 0 []);;
    upd_vnode node (set_nsize 0)
  else if size <? nsize n then upd_vnode node (set_nsize size) else mret tt.

Definition ramfs_init : K (Fs H) Z :=
  kmod (with_inode 1);;
  root ← ramfs_alloc_node VFS_DIRECTORY;
  if root =? 0 then mret 0 else
  upd_vnode root (set_nmode 493);;
  mret root.
End ramfs.
