(* ===== verification/RamfsCorrect.v ===== *)
(** * Files in memory: correctness

    The invariant of the node store (ownership of heap memory, a tree of directories, zeroed
    spare room), the contents of files as lists of bytes, and directories as finite
    maps from names to nodes. *)
From S2P Require Import Prelude PageAlloc Kmalloc KmallocCorrect KHeap Ramfs.

(** ** The invariant *)

(** The heap blocks a node owns. *)
Definition owns (a : Z) (r : RamfsNode) : list Z :=
  a :: (if data r =? 0 then [] else [data r]) ++ (if children r =? 0 then [] else [children r]).
Definition owned (m : gmap Z RamfsNode) : list Z := map_to_list m ≫= uncurry owns.
(** The nodes the directories refer to. *)
Definition targets (m : gmap Z RamfsNode) : list Z := map_to_list m ≫= λ p, snd <$> entries p.2.

(** A file: the bytes beyond its size are zero. *)
Record file_ok (n : VfsNode) (r : RamfsNode) : Prop := {
  fo_type : ntype n = VFS_FILE;
  fo_size : 0 ≤ nsize n ≤ capacity r;
  fo_cap : capacity r < 2 ^ 32;
  fo_data : data r = 0 → contents r = [];
  fo_zero : drop (Z.to_nat (nsize n)) (contents r) = replicate (length (contents r) - Z.to_nat (nsize n)) 0;
  fo_dir : children r = 0 ∧ entries r = [];
}.
Record dir_ok (n : VfsNode) (r : RamfsNode) : Prop := {
  do_type : ntype n = VFS_DIRECTORY;
  do_data : data r = 0 ∧ contents r = [];
  do_children : children r ≠ 0;
  do_count : num_children r ≤ RAMFS_MAX_CHILDREN;
  do_names : NoDup (entries r).*1;
}.

(** The bytes of a file. *)
Definition file_bytes (n : VfsNode) (r : RamfsNode) : list Z := take (Z.to_nat (nsize n)) (contents r).
(** The bytes after writing [buf] at [off]: the gap behind the end is zero. *)
Definition splice (l : list Z) (off : Z) (buf : list Z) : list Z :=
  take (Z.to_nat off) (l ++ replicate (Z.to_nat off - length l) 0) ++ buf ++ drop (Z.to_nat off + length buf) l.

Section correct.
Context {H : Type} `{KHeap H}.
Implicit Types (s : Fs H).

Record fs_ok s : Prop := {
  fs_heap : kh_ok (fheap s);
  fs_nodup : NoDup (owned (rams s));
  fs_live a : a ∈ owned (rams s) → a ∈ kh_live (fheap s);
  fs_node a r : rams s !! a = Some r → ∃ n, vnodes s !! a = Some n ∧ nops n = RamfsOps ∧ (file_ok n r ∨ dir_ok n r);
  fs_tree : NoDup (targets (rams s));
  fs_links a : a ∈ targets (rams s) → is_Some (rams s !! a);
}.

(** ** Ownership *)

Lemma owned_split (m : gmap Z RamfsNode) a r : m !! a = Some r → owned m ≡ₚ owns a r ++ owned (delete a m).
Proof. intros Ha. unfold owned. rewrite <-(map_to_list_delete m a r Ha). simpl. done. Qed.
Lemma owned_insert (m : gmap Z RamfsNode) a r : owned (<[a := r]> m) ≡ₚ owns a r ++ owned (delete a m).
Proof. rewrite (owned_split _ a r) by apply lookup_insert_eq. by rewrite delete_insert_eq. Qed.
Lemma targets_split (m : gmap Z RamfsNode) a r : m !! a = Some r → targets m ≡ₚ (entries r).*2 ++ targets (delete a m).
Proof. intros Ha. unfold targets. rewrite <-(map_to_list_delete m a r Ha). simpl. done. Qed.
Lemma targets_insert (m : gmap Z RamfsNode) a r : targets (<[a := r]> m) ≡ₚ (entries r).*2 ++ targets (delete a m).
Proof. rewrite (targets_split _ a r) by apply lookup_insert_eq. by rewrite delete_insert_eq. Qed.
Lemma owned_addr (m : gmap Z RamfsNode) a : is_Some (m !! a) → a ∈ owned m.
Proof. intros [r Ha]. rewrite (owned_split _ _ _ Ha). by left. Qed.

(** Replacing a node by one with the same entries. *)
Lemma fs_ok_update s h a n r n' r' :
  fs_ok s → rams s !! a = Some r → vnodes s !! a = Some n →
  kh_ok h → NoDup (owns a r') → (∀ x, x ∈ owns a r' → x ∈ kh_live h ∧ x ∉ owned (delete a (rams s))) →
  (∀ x, x ∈ owned (delete a (rams s)) → x ∈ kh_live h) →
  nops n' = RamfsOps → (file_ok n' r' ∨ dir_ok n' r') →
  NoDup ((entries r').*2 ++ targets (delete a (rams s))) →
  (∀ x, x ∈ (entries r').*2 → is_Some (rams s !! x)) →
  fs_ok (mkFs h (<[a := n']> (vnodes s)) (<[a := r']> (rams s)) (next_inode s) (vfs_root s) (mount_table s)).
Proof.
  intros [Hh Hnd Hl Hn Ht Hk] Ha Hv Hh' Hnd' Ho Hrest Hops Hok Hnt Hlk. split; simpl.
  - done.
  - rewrite owned_insert. apply NoDup_app. split_and!; [done|naive_solver|].
    rewrite (owned_split _ _ _ Ha) in Hnd. by apply NoDup_app in Hnd as (_ & _ & ?).
  - intros x. rewrite owned_insert, elem_of_app. naive_solver.
  - intros b rb Hb. rewrite lookup_insert in Hb. rewrite lookup_insert. case_decide; simplify_eq; [eauto|]. by apply Hn.
  - by rewrite targets_insert.
  - intros x. rewrite targets_insert, elem_of_app. rewrite lookup_insert. case_decide; [by eexists|].
    intros [Hx|Hx]; [by apply Hlk|]. apply Hk. rewrite (targets_split _ _ _ Ha), elem_of_app. by right.
Qed.

(** ** Growing a file *)

Lemma grow_cap_spec fuel c end_ :
  0 < c < 2 ^ 32 → end_ ≤ 2 ^ 31 → end_ ≤ c * 2 ^ Z.of_nat fuel →
  ∃ n, grow_cap fuel c end_ = Some n ∧ c ≤ n < 2 ^ 32 ∧ end_ ≤ n.
Proof.
  revert c. induction fuel as [|fuel IH]; intros c Hc He Hf; simpl.
  - destruct (Z.ltb_spec c end_); [simpl in Hf; lia|]. exists c. split; [done|lia].
  - destruct (Z.ltb_spec c end_); [|exists c; split; [done|lia]]. rewrite u32_small by lia.
    destruct (IH (c * 2)) as (n & Hn & ? & ?); [lia|lia| |].
    + replace (Z.of_nat (S fuel)) with (Z.of_nat fuel + 1) in Hf by lia. rewrite Z.pow_add_r in Hf by lia. lia.
    + exists n. split; [done|lia].
Qed.

(** The bytes of the larger buffer after a write. *)
Lemma overwrite_splice (c : list Z) size off buf :
  0 ≤ size ≤ Z.of_nat (length c) → 0 ≤ off → off + Z.of_nat (length buf) ≤ Z.of_nat (length c) →
  drop (Z.to_nat size) c = replicate (length c - Z.to_nat size) 0 →
  let size' := if size <? off + Z.of_nat (length buf) then off + Z.of_nat (length buf) else size in
  take (Z.to_nat size') (overwrite c off buf) = splice (take (Z.to_nat size) c) off buf ∧
  drop (Z.to_nat size') (overwrite c off buf) = replicate (length c - Z.to_nat size') 0 ∧
  length (overwrite c off buf) = length c.
Proof.
  intros Hs Ho Hl Hz. assert (length (overwrite c off buf) = length c) as Hlen.
  { unfold overwrite. rewrite !length_app, length_take, length_drop. lia. }
  set (l := take (Z.to_nat size) c). assert (c = l ++ replicate (length c - Z.to_nat size) 0) as Ec.
  { rewrite <-Hz. symmetry. apply take_drop. }
  assert (length l = Z.to_nat size) as Hll by (unfold l; rewrite length_take; lia).
  assert (take (Z.to_nat off) c = take (Z.to_nat off) (l ++ replicate (Z.to_nat off - length l) 0)) as Etake.
  { rewrite Ec at 1. destruct (decide (Z.to_nat off ≤ length l)%nat) as [Hle|Hgt].
    - rewrite !take_app_le by lia. done.
    - rewrite !take_app_ge by lia. f_equal. rewrite !take_replicate. f_equal. lia. }
  intros size'. unfold size'. destruct (Z.ltb_spec size (off + Z.of_nat (length buf))) as [Hlt|Hge].
  - assert (drop (Z.to_nat off + length buf) l = []) as Hd by (apply drop_ge; lia).
    assert (drop (Z.to_nat off + length buf) c = replicate (length c - Z.to_nat (off + Z.of_nat (length buf))) 0) as Hdc.
    { rewrite Ec at 1. rewrite drop_app_ge by lia. rewrite drop_replicate. f_equal. lia. }
    unfold splice, overwrite. rewrite Hd, app_nil_r, <-Etake, Hdc, app_assoc.
    set (w := take (Z.to_nat off) c ++ buf).
    assert (length w = Z.to_nat (off + Z.of_nat (length buf))) as Hw
      by (unfold w; rewrite length_app, length_take; lia).
    rewrite <-Hw, take_app_length, drop_app_length. split_and!; [done|done|].
    rewrite length_app, length_replicate. lia.
  - assert (drop (Z.to_nat off + length buf) c = drop (Z.to_nat off + length buf) l ++ replicate (length c - Z.to_nat size) 0) as Hdc.
    { rewrite Ec at 1. rewrite drop_app_le by lia. done. }
    assert (overwrite c off buf = splice l off buf ++ replicate (length c - Z.to_nat size) 0) as Eo.
    { unfold overwrite, splice. rewrite <-Etake, Hdc. by rewrite <-!app_assoc. }
    assert (length (splice l off buf) = Z.to_nat size) as Hsl.
    { rewrite Eo, length_app, length_replicate in Hlen. lia. }
    rewrite Eo, <-Hsl, take_app_length, drop_app_length. split_and!; [done|done|].
    rewrite length_app, length_replicate. lia.
Qed.

(** ** Writing *)

Lemma fs_ok_heap s h : fs_ok s → kh_ok h → kh_live h = kh_live (fheap s) → fs_ok (with_fheap h s).
Proof. intros [] Hh Hl. split; simpl; try done. by rewrite Hl. Qed.

Lemma vnode_bind {A} s a n (k : VfsNode → K (Fs H) A) : vnodes s !! a = Some n → (vnode a ≫= k) s = k n s.
Proof. intros Hn. by apply kopt_bind. Qed.
Lemma ram_bind {A} s a r (k : RamfsNode → K (Fs H) A) : rams s !! a = Some r → (ram a ≫= k) s = k r s.
Proof. intros Hn. by apply kopt_bind. Qed.
Lemma upd_vnode_Done s a n f : vnodes s !! a = Some n → upd_vnode a f s = Done tt (with_vnodes (<[a := f n]> (vnodes s)) s).
Proof. intros Hn. unfold upd_vnode, kupd. by rewrite Hn. Qed.
Lemma upd_ram_Done s a r f : rams s !! a = Some r → upd_ram a f s = Done tt (with_rams (<[a := f r]> (rams s)) s).
Proof. intros Hn. unfold upd_ram, kupd. by rewrite Hn. Qed.

(** The state with the node at [a] replaced. *)
Definition put_node (h : H) (a : Z) (n : VfsNode) (r : RamfsNode) s : Fs H :=
  mkFs h (<[a := n]> (vnodes s)) (<[a := r]> (rams s)) (next_inode s) (vfs_root s) (mount_table s).

Definition written (n : VfsNode) (buf : list Z) (off : Z) : VfsNode :=
  set_nsize (if nsize n <? off + Z.of_nat (length buf) then off + Z.of_nat (length buf) else nsize n) n.

(** The outcomes of a write: the heap cannot grow, or the bytes are in the file. *)
Definition write_outcome s (a : Z) (n : VfsNode) (r : RamfsNode) (buf : list Z) (off : Z) (o : outcome (Fs H) Z) : Prop :=
  (∃ s', o = Panic s' ∧ kh_full (fheap s')) ∨
  (∃ h, o = Done (- ENOMEM) (with_fheap h s) ∧ fs_ok (with_fheap h s) ∧ kh_full h) ∨
  (∃ h r', let n' := written n buf off in
     o = Done (Z.of_nat (length buf)) (put_node h a n' r' s) ∧ fs_ok (put_node h a n' r' s) ∧
     file_ok n' r' ∧ file_bytes n' r' = splice (file_bytes n r) off buf).

Lemma file_ok_write n r c p buf off :
  file_ok n r → Z.of_nat (length c) < 2 ^ 32 → off + Z.of_nat (length buf) ≤ Z.of_nat (length c) → 0 ≤ off →
  (p = 0 → c = []) → (∃ k, c = contents r ++ replicate k 0) →
  let r' := mkRam p (overwrite c off buf) (children r) (entries r) in
  file_ok (written n buf off) r' ∧ file_bytes (written n buf off) r' = splice (file_bytes n r) off buf.
Proof.
  intros [Ht Hs Hc Hd Hz Hdir] Hlc Hle Ho Hp [k Ek]. unfold capacity in *.
  assert (nsize n ≤ Z.of_nat (length c)) as Hsc by (rewrite Ek, length_app; lia).
  assert (drop (Z.to_nat (nsize n)) c = replicate (length c - Z.to_nat (nsize n)) 0) as Hzc.
  { rewrite Ek, drop_app_le by lia. rewrite Hz, <-replicate_add. f_equal. rewrite length_app, length_replicate. lia. }
  assert (take (Z.to_nat (nsize n)) c = file_bytes n r) as Hfb.
  { unfold file_bytes. rewrite Ek, take_app_le by lia. done. }
  destruct (overwrite_splice c (nsize n) off buf) as (E1 & E2 & E3); [lia|done|done|done|]. rewrite Hfb in E1.
  split; [|unfold file_bytes at 1; simpl; exact E1]. split; simpl; try done.
  - unfold capacity. simpl. rewrite E3. destruct (Z.ltb_spec (nsize n) (off + Z.of_nat (length buf))); lia.
  - unfold capacity. simpl. by rewrite E3.
  - intros ->. apply length_zero_iff_nil. rewrite E3, (Hp eq_refl). done.
  - rewrite E2. by rewrite E3.
Qed.

(** The last part of [ramfs_write], once there is room. *)
Lemma write_finish s a n r buf off :
  vnodes s !! a = Some n → rams s !! a = Some r → off + Z.of_nat (length buf) ≤ capacity r →
  0 ≤ off → off + Z.of_nat (length buf) < 2 ^ 31 →
  (r ← ram a;
   (if capacity r <? off + Z.of_nat (length buf) then kstuck
    else upd_ram a (λ r, set_data (data r) (overwrite (contents r) off buf) r));;
   (if nsize n <? off + Z.of_nat (length buf) then upd_vnode a (set_nsize (off + Z.of_nat (length buf))) else mret tt);;
   mret (i32 (Z.of_nat (length buf)))) s =
  Done (Z.of_nat (length buf))
    (put_node (fheap s) a (written n buf off) (set_data (data r) (overwrite (contents r) off buf) r) s).
Proof.
  intros Hv Hr Hle Ho Hb. rewrite (ram_bind _ _ r) by done.
  destruct (Z.ltb_spec (capacity r) (off + Z.of_nat (length buf))); [lia|].
  kbind (upd_ram_Done s a r (λ r, set_data (data r) (overwrite (contents r) off buf) r) Hr).
  unfold i32, written. rewrite Z.mod_small by lia.
  destruct (Z.ltb_spec (Z.of_nat (length buf)) (2 ^ 31)); [|lia].
  destruct (Z.ltb_spec (nsize n) (off + Z.of_nat (length buf))).
  - erewrite bind_Done; [|by apply upd_vnode_Done]. done.
  - rewrite mret_bind. unfold put_node, with_rams, mret, K_ret. do 2 f_equal.
    symmetry. apply insert_id. rewrite Hv. by destruct n.
Qed.

Lemma owns_file a n r : file_ok n r → owns a r = a :: (if data r =? 0 then [] else [data r]).
Proof. intros [_ _ _ _ _ [Hc _]]. unfold owns. rewrite Hc. simpl. by rewrite app_nil_r. Qed.

(** Replacing the data of a file. *)
Lemma fs_ok_file s h a n r n' r' :
  fs_ok s → rams s !! a = Some r → vnodes s !! a = Some n → nops n' = RamfsOps → file_ok n r → file_ok n' r' →
  kh_ok h → (∀ x, x ∈ a :: owned (delete a (rams s)) → x ∈ kh_live h) →
  (data r' ≠ 0 → data r' ∈ kh_live h ∧ data r' ∉ a :: owned (delete a (rams s))) →
  fs_ok (put_node h a n' r' s).
Proof.
  intros Hok Ha Hv Hops Hf Hf' Hh Hrest Hd.
  pose proof (fs_nodup s Hok) as Hnd. rewrite (owned_split _ _ _ Ha) in Hnd.
  apply NoDup_app in Hnd as (Hnd1 & Hdis & Hnd2).
  assert (a ∉ owned (delete a (rams s))) as Han by (apply Hdis; by left).
  destruct (fo_dir _ _ Hf') as [_ He]. destruct (fo_dir _ _ Hf) as [_ He0].
  eapply fs_ok_update; try done.
  - rewrite (owns_file a n' r' Hf'). destruct (Z.eqb_spec (data r') 0); [apply NoDup_singleton|].
    apply NoDup_cons. split; [|apply NoDup_singleton]. set_solver.
  - intros x. rewrite (owns_file a n' r' Hf'). intros Hx. apply elem_of_cons in Hx as [->|Hx]; [set_solver|].
    destruct (Z.eqb_spec (data r') 0); [set_solver|]. apply list_elem_of_singleton in Hx as ->.
    destruct Hd as [? ?]; [done|]. set_solver.
  - intros x Hx. apply Hrest. by right.
  - by left.
  - rewrite He. simpl. pose proof (fs_tree s Hok) as Ht. rewrite (targets_split _ _ _ Ha) in Ht.
    by apply NoDup_app in Ht as (_ & _ & ?).
  - rewrite He. set_solver.
Qed.

(** Resizing the data of a file next to the blocks [rest]. *)
Lemma realloc_data (h : H) d nc (rest : list Z) :
  kh_ok h → 0 < nc ≤ 2 ^ 61 → (∀ x, x ∈ rest → x ∈ kh_live h) →
  (d ≠ 0 → d ∈ kh_live h ∧ d ∉ rest) →
  (∃ h', kh_realloc d nc h = Panic h' ∧ kh_full h') ∨
  (∃ h', kh_realloc d nc h = Done 0 h' ∧ kh_ok h' ∧ kh_live h' = kh_live h ∧ kh_full h') ∨
  (∃ p h', kh_realloc d nc h = Done p h' ∧ kh_ok h' ∧ p ≠ 0 ∧ p ∉ rest ∧ p ∈ kh_live h' ∧ ∀ x, x ∈ rest → x ∈ kh_live h').
Proof.
  intros Hh Hnc Hrest Hd. destruct (decide (d = 0)) as [->|Hd0].
  - rewrite kh_realloc_null.
    destruct (kh_alloc_law h nc 0) as [?|[?|(p & h' & E & Hh' & Hp & Hpl & Hll)]]; [done|lia|by left|by right; left|].
    right. right. exists p, h'. rewrite Hll. split_and!; try done.
    + intros Hx%Hrest. done.
    + by apply elem_of_union_l, elem_of_singleton.
    + intros x Hx%Hrest. by apply elem_of_union_r.
  - destruct (Hd Hd0) as [Hd1 Hd2].
    destruct (kh_realloc_law h d nc) as [?|[?|(p & h' & E & Hh' & Hp & Hpl & Hll)]]; [done|done|done|by left|by right; left|].
    assert (∀ x, x ∈ rest → x ∈ kh_live h ∖ {[ d ]}) as Hr'.
    { intros x Hx. apply elem_of_difference. split; [by apply Hrest|]. intros ->%elem_of_singleton. done. }
    right. right. exists p, h'. rewrite Hll. split_and!; try done.
    + intros Hx%Hr'. done.
    + by apply elem_of_union_l, elem_of_singleton.
    + intros x Hx%Hr'. by apply elem_of_union_r.
Qed.

Lemma ramfs_write_lemma s a n r buf off :
  fs_ok s → vnodes s !! a = Some n → rams s !! a = Some r → nops n = RamfsOps → file_ok n r →
  0 ≤ off → off + Z.of_nat (length buf) < 2 ^ 31 →
  write_outcome s a n r buf off (ramfs_write a buf off s).
Proof.
  intros Hok Hv Hr Hops Hf Ho Hb. unfold ramfs_write. rewrite (vnode_bind _ _ n) by done.
  rewrite (fo_type _ _ Hf). change (negb (VFS_FILE =? VFS_FILE)) with false. cbv iota zeta.
  rewrite (ram_bind _ _ r) by done.
  rewrite (u32_small (off + Z.of_nat (length buf))) by lia.
  pose proof (fs_nodup s Hok) as Hnd. rewrite (owned_split _ _ _ Hr), (owns_file a n r Hf) in Hnd.
  assert (∀ x, x ∈ owned (rams s) → x ∈ kh_live (fheap s)) as Hlive by apply Hok.
  assert (∀ x, x ∈ a :: owned (delete a (rams s)) → x ∈ kh_live (fheap s)) as Hlr.
  { intros x Hx. apply Hlive. rewrite (owned_split _ _ _ Hr). unfold owns. set_solver. }
  assert (data r ≠ 0 → data r ∈ kh_live (fheap s) ∧ data r ∉ a :: owned (delete a (rams s))) as Hdl.
  { intros Hd. destruct (Z.eqb_spec (data r) 0); [done|]. split.
    - apply Hlive. rewrite (owned_split _ _ _ Hr), (owns_file a n r Hf). destruct (Z.eqb_spec (data r) 0); [done|set_solver].
    - simpl in Hnd. apply NoDup_cons in Hnd as [Hn1 Hnd]. simpl in Hnd. apply NoDup_cons in Hnd as [Hn2 _]. set_solver. }
  destruct (Z.ltb_spec (capacity r) (off + Z.of_nat (length buf))) as [Hgrow|Hfit].
  - destruct (grow_cap_spec 32 (if negb (capacity r =? 0) then capacity r else RAMFS_INIT_CAP) (off + Z.of_nat (length buf)))
      as (nc & Hnc & Hnc1 & Hnc2).
    { unfold RAMFS_INIT_CAP. pose proof (fo_cap _ _ Hf). unfold capacity in *. destruct (Z.eqb_spec (Z.of_nat (length (contents r))) 0); simpl; lia. }
    { lia. }
    { unfold RAMFS_INIT_CAP, capacity. destruct (Z.eqb_spec (Z.of_nat (length (contents r))) 0); simpl; lia. }
    rewrite (kopt_bind _ _ _ nc) by done.
    assert (0 < nc ≤ 2 ^ 61) as Hncb by (unfold RAMFS_INIT_CAP, capacity in *; lia).
    pose proof (realloc_data (fheap s) (data r) nc _ (fs_heap s Hok) Hncb Hlr Hdl) as Hre.
    unfold fs_realloc at 1, zoom. unfold mbind at 1, K_bind at 1.
    destruct Hre as [(h' & -> & Hx)|[(h' & -> & Hh & Hl & Hx)|(p & h' & -> & Hh & Hp & Hpn & Hpl & Hrest)]].
    + left. by eexists.
    + right. left. exists h'. split; [done|]. split; [by apply fs_ok_heap|done].
    + right. right. destruct (Z.eqb_spec p 0); [done|].
      set (s1 := with_fheap h' s). set (ext := if capacity r <? nc then replicate (Z.to_nat (nc - capacity r)) 0 else []).
      set (r1 := set_data p (contents r ++ ext) r).
      kbind (upd_ram_Done s1 a r (λ r, set_data p (contents r ++ if capacity r <? nc then replicate (Z.to_nat (nc - capacity r)) 0 else []) r) Hr).
      fold ext r1. assert (capacity r1 = nc) as Hcap.
      { unfold r1, capacity, ext. simpl. unfold capacity in *. destruct (Z.ltb_spec (Z.of_nat (length (contents r))) nc); [|lia].
        rewrite length_app, length_replicate. lia. }
      rewrite (write_finish (with_rams (<[a := r1]> (rams s1)) s1) a n r1) by (simpl; rewrite ?lookup_insert_eq; done || lia).
      exists h', (set_data (data r1) (overwrite (contents r1) off buf) r1).
      assert (∀ n' r', put_node (fheap (with_rams (<[a := r1]> (rams s1)) s1)) a n' r' (with_rams (<[a := r1]> (rams s1)) s1) = put_node h' a n' r' s) as Eput.
      { intros. unfold put_node. simpl. by rewrite insert_insert_eq. }
      rewrite Eput. destruct (file_ok_write n r (contents r ++ ext) p buf off Hf) as [Hf' Hfb]; try done.
      { unfold r1, capacity in Hcap. simpl in Hcap. lia. }
      { unfold r1, capacity in Hcap. simpl in Hcap. lia. }
      { unfold ext. destruct (capacity r <? nc); [by eexists|exists 0%nat; done]. }
      split_and!; [done| |done|done]. eapply (fs_ok_file s h' a n r); try done.
  - right. right. rewrite (write_finish s a n r) by (done || lia). exists (fheap s), (set_data (data r) (overwrite (contents r) off buf) r).
    destruct (file_ok_write n r (contents r) (data r) buf off Hf) as [Hf' Hfb]; try done.
    { apply Hf. } { apply Hf. } { exists 0%nat. symmetry. apply app_nil_r. }
    split_and!; [done| |done|done]. eapply (fs_ok_file s _ a n r); try done. apply Hok.
Qed.

(** ** Reading *)

Lemma ramfs_read_lemma s a n r off size :
  vnodes s !! a = Some n → rams s !! a = Some r → file_ok n r → 0 ≤ off < 2 ^ 32 → 0 ≤ size < 2 ^ 31 →
  let bytes := take (Z.to_nat size) (drop (Z.to_nat off) (file_bytes n r)) in
  ramfs_read a off size s = Done (Z.of_nat (length bytes), bytes) s.
Proof.
  intros Hv Hr [Ht Hs Hc _ _ _] Ho Hz. unfold ramfs_read. rewrite (vnode_bind _ _ n) by done. rewrite Ht.
  change (negb (VFS_FILE =? VFS_FILE)) with false. cbv iota zeta. unfold capacity in *.
  assert (length (file_bytes n r) = Z.to_nat (nsize n)) as Hlb by (unfold file_bytes; rewrite length_take; lia).
  destruct (Z.leb_spec (nsize n) off).
  { rewrite drop_ge by lia. by rewrite take_nil. }
  rewrite (ram_bind _ _ r) by done. rewrite u32_small by lia.
  set (k := if size <? nsize n - off then size else nsize n - off).
  assert (0 ≤ k ≤ nsize n - off ∧ k < 2 ^ 31 ∨ 0 ≤ k ≤ nsize n - off ∧ k ≤ size) as Hk
    by (unfold k; destruct (Z.ltb_spec size (nsize n - off)); lia).

  assert (take (Z.to_nat size) (drop (Z.to_nat off) (file_bytes n r)) = take (Z.to_nat k) (drop (Z.to_nat off) (contents r))) as ->.
  { unfold file_bytes. replace (Z.to_nat (nsize n)) with (Z.to_nat off + Z.to_nat (nsize n - off))%nat by lia.
    rewrite <-take_drop_commute, take_take. f_equal. unfold k. destruct (Z.ltb_spec size (nsize n - off)); lia. }
  rewrite length_take, length_drop. unfold i32. rewrite Z.mod_small by lia.
  destruct (Z.ltb_spec k (2 ^ 31)); [|lia].
  replace (Z.of_nat (Nat.min (Z.to_nat k) (length (contents r) - Z.to_nat off))) with k by (unfold capacity in *; lia).
  destruct (Z.ltb_spec (Z.of_nat (length (contents r))) (off + k)); [unfold capacity in *; lia|done].
Qed.

(** ** Directories *)

Definition dir_map (r : RamfsNode) : gmap (list Z) Z := list_to_map (entries r).

Lemma find_child_Some l nm i : find_child l nm = Some i → ∃ c, l !! i = Some (nm, c).
Proof.
  revert i. induction l as [|[x c] l IH]; intros i Hi; simpl in Hi; [done|]. case_decide as Hx.
  - injection Hi as <-. exists c. by rewrite Hx.
  - destruct (find_child l nm) as [j|]; [|done]. injection Hi as <-. by apply IH.
Qed.
Lemma find_child_None l nm : find_child l nm = None → nm ∉ l.*1.
Proof.
  induction l as [|[x c] l IH]; simpl; [set_solver|]. case_decide; [done|].
  destruct (find_child l nm); [done|]. intros _. specialize (IH eq_refl). set_solver.
Qed.
Lemma find_child_map l nm :
  NoDup l.*1 → match find_child l nm with Some i => ∃ c, l !! i = Some (nm, c) ∧ (list_to_map l : gmap (list Z) Z) !! nm = Some c
                | None => (list_to_map l : gmap (list Z) Z) !! nm = None end.
Proof.
  intros Hnd. destruct (find_child l nm) as [i|] eqn:E.
  - destruct (find_child_Some _ _ _ E) as [c Hc]. exists c. split; [done|].
    apply elem_of_list_to_map_1; [done|]. by eapply list_elem_of_lookup_2.
  - apply not_elem_of_list_to_map_1. by apply find_child_None.
Qed.

(** Nothing but the heap and the inode counter changed. *)
Definition only_heap s s' : Prop :=
  vnodes s' = vnodes s ∧ rams s' = rams s ∧ vfs_root s' = vfs_root s ∧ mount_table s' = mount_table s.

Lemma ramfs_lookup_lemma s d n r nm :
  vnodes s !! d = Some n → rams s !! d = Some r → dir_ok n r →
  ramfs_lookup d nm s = Done (default 0 (dir_map r !! nm)) s.
Proof.
  intros Hv Hr [Ht _ _ _ Hnd]. unfold ramfs_lookup. rewrite (vnode_bind _ _ n) by done. rewrite Ht.
  change (negb (VFS_DIRECTORY =? VFS_DIRECTORY)) with false. cbv iota. rewrite (ram_bind _ _ r) by done.
  unfold ramfs_find_child, dir_map. pose proof (find_child_map (entries r) nm Hnd) as Hf.
  destruct (find_child (entries r) nm) as [i|]; [|by rewrite Hf].
  destruct Hf as (c & Hc & ->). unfold kopt. by rewrite Hc.
Qed.

(** Adding a node that no directory refers to. *)
Lemma fs_ok_add s h ino a n r :
  fs_ok s → kh_ok h → rams s !! a = None → NoDup (owns a r) →
  (∀ x, x ∈ owns a r → x ∈ kh_live h ∧ x ∉ owned (rams s)) → (∀ x, x ∈ owned (rams s) → x ∈ kh_live h) →
  nops n = RamfsOps → (file_ok n r ∨ dir_ok n r) → entries r = [] →
  fs_ok (put_node h a n r (with_inode ino s)).
Proof.
  intros [Hh Hnd Hl Hn Ht Hk] Hh' Ha Hno Hfr Hl' Hops Hok He.
  assert (delete a (rams s) = rams s) as Hdel by (by apply delete_id). split; simpl.
  - done.
  - rewrite owned_insert, Hdel. apply NoDup_app. naive_solver.
  - intros x. rewrite owned_insert, Hdel, elem_of_app. naive_solver.
  - intros b rb Hb. rewrite lookup_insert in Hb. rewrite lookup_insert. case_decide; simplify_eq; [eauto|]. by apply Hn.
  - rewrite targets_insert, Hdel, He. done.
  - intros x. rewrite targets_insert, Hdel, He. simpl. intros Hx. rewrite lookup_insert. case_decide; [by eexists|]. by apply Hk.
Qed.

Definition new_node (ino type : Z) : VfsNode := mkNode ino type 0 0 0 0 RamfsOps.
(** The outcomes of allocating a node of a type. *)
Definition alloc_outcome s (type : Z) (o : outcome (Fs H) Z) : Prop :=
  (∃ s', o = Panic s' ∧ kh_full (fheap s')) ∨
  (∃ s', o = Done 0 s' ∧ only_heap s s' ∧ fs_ok s' ∧ kh_full (fheap s')) ∨
  (∃ c ch h ino', c ≠ 0 ∧ c ∉ owned (rams s) ∧ rams s !! c = None ∧
     let s' := put_node h c (new_node (next_inode s) type) (mkRam 0 [] ch []) (with_inode ino' s) in
     o = Done c s' ∧ fs_ok s').

Lemma fresh_not_owned s c : fs_ok s → c ∉ kh_live (fheap s) → c ∉ owned (rams s) ∧ rams s !! c = None.
Proof.
  intros Hok Hc. assert (c ∉ owned (rams s)) as Hn by (intros ?%(fs_live s Hok); done).
  split; [done|]. apply eq_None_not_Some. intros Hs. by apply Hn, owned_addr.
Qed.

Lemma fs_alloc_law s size flags :
  kh_ok (fheap s) → 0 < size ≤ 2 ^ 62 →
  (∃ h, fs_alloc size flags s = Panic (with_fheap h s) ∧ kh_full h) ∨
  (∃ h, fs_alloc size flags s = Done 0 (with_fheap h s) ∧ kh_ok h ∧ kh_live h = kh_live (fheap s) ∧ kh_full h) ∨
  (∃ a h, fs_alloc size flags s = Done a (with_fheap h s) ∧ kh_ok h ∧ a ≠ 0 ∧ a ∉ kh_live (fheap s) ∧
     kh_live h = {[ a ]} ∪ kh_live (fheap s)).
Proof.
  intros Hok Hs. unfold fs_alloc, zoom.
  destruct (kh_alloc_law (fheap s) size flags Hok Hs) as [(h & -> & ?)|[(h & -> & ?)|(a & h & -> & ?)]]; eauto 10.
Qed.
Lemma fs_free_law s a :
  kh_ok (fheap s) → a ∈ kh_live (fheap s) →
  ∃ h, fs_free a s = Done tt (with_fheap h s) ∧ kh_ok h ∧ kh_live h = kh_live (fheap s) ∖ {[ a ]} ∧ (kh_full (fheap s) → kh_full h).
Proof.
  intros Hok Ha. unfold fs_free, zoom. destruct (kh_free_law (fheap s) a Hok Ha) as (h & -> & ?). eauto.
Qed.

Lemma alloc_node_lemma s type :
  fs_ok s → type = VFS_FILE ∨ type = VFS_DIRECTORY → alloc_outcome s type (ramfs_alloc_node type s).
Proof.
  intros Hok Hty. unfold ramfs_alloc_node.
  destruct (fs_alloc_law s SIZEOF_RAMFS_NODE 1) as [(h & E & Hx)|[(h & E & Hh & Hl & Hx)|(c & h & E & Hh & Hc & Hcl & Hl)]];
    [apply Hok|done|left; eexists; split; [by apply bind_Panic|done]| |]; kbind E.
  { right. left. eexists. split; [done|]. split; [done|]. split; [by apply fs_ok_heap|done]. }
  destruct (Z.eqb_spec c 0); [done|]. destruct (fresh_not_owned s c Hok Hcl) as [Hco Hcr].
  rewrite kget_bind, kmod_bind. cbv zeta. set (s1 := with_inode _ _).
  assert (∀ x, x ∈ owned (rams s) → x ∈ kh_live h) as Hl1 by (intros x Hx%(fs_live s Hok); rewrite Hl; set_solver +Hx).
  destruct Hty as [-> | ->].
  - change (VFS_FILE =? VFS_DIRECTORY) with false. right. right. exists c, 0, h, (u64 (next_inode s + 1)).
    do 3 (split; [done|]). cbv zeta. split; [reflexivity|].
    apply fs_ok_add; try done.
    + apply NoDup_singleton.
    + intros x Hx. apply list_elem_of_singleton in Hx as ->. rewrite Hl. set_solver +Hco.
    + left. split; simpl; done.
  - change (VFS_DIRECTORY =? VFS_DIRECTORY) with true. cbv iota.
    destruct (fs_alloc_law s1 (SIZEOF_RAMFS_DIR_ENTRY * RAMFS_MAX_CHILDREN) 1)
      as [(h' & E' & Hx)|[(h' & E' & Hh' & Hl' & Hx)|(ch & h' & E' & Hh' & Hch & Hchl & Hl')]];
      [done|done|left; eexists; split; [by apply bind_Panic|done]| |]; kbind E'.
    + right. left. simpl in Hl'. change (0 =? 0) with true. cbv iota.
      destruct (fs_free_law (with_fheap h' s1) c) as (h2 & E2 & Hh2 & Hl2 & Hx2); [done|simpl; rewrite Hl', Hl; set_solver +|].
      kbind E2. simpl in Hl2.
      eexists. split; [done|]. split; [done|]. split; [|exact (Hx2 Hx)].
      assert (fs_ok (with_fheap h2 s)) as [] by (apply fs_ok_heap; [done|done|]; rewrite Hl2, Hl', Hl; set_solver +Hcl).
      by split.
    + simpl in Hl', Hchl. destruct (Z.eqb_spec ch 0); [done|].
      assert (ch ≠ c) as Hne by (intros ->; apply Hchl; rewrite Hl; set_solver +).
      assert (ch ∉ owned (rams s)) as Hcho by (intros Hx%Hl1; done).
      right. right. exists c, ch, h', (u64 (next_inode s + 1)).
    do 3 (split; [done|]). cbv zeta. split; [reflexivity|].
      apply fs_ok_add; try done.
      * unfold owns. simpl. destruct (Z.eqb_spec ch 0); [done|]. apply NoDup_cons. split; [set_solver +Hne|apply NoDup_singleton].
      * unfold owns. simpl. destruct (Z.eqb_spec ch 0); [done|]. intros x. rewrite elem_of_cons, list_elem_of_singleton.
        rewrite Hl', Hl. intros [->| ->]; (split; [set_solver +|done]).
      * intros x Hx%Hl1. rewrite Hl'. set_solver +Hx.
      * right. split; simpl; try done. constructor.
Qed.

(** Changing the entries of a directory, in a store [m] where the other nodes already are. *)
Lemma dir_ok_entries n r l :
  dir_ok n r → Z.of_nat (length l) ≤ RAMFS_MAX_CHILDREN → NoDup l.*1 → dir_ok n (set_entries l r).
Proof. intros [Ht Hd Hc _ _] Hl Hn. by split. Qed.
Lemma owns_entries a l r : owns a (set_entries l r) = owns a r.
Proof. done. Qed.

(** The state after [name] in the directory [d] was bound to the new node [c]. *)
Definition linked h ino (d : Z) (rd : RamfsNode) (nm : list Z) (c type ch : Z) s : Fs H :=
  with_rams (<[d := set_entries (entries rd ++ [(nm, c)]) rd]> (<[c := mkRam 0 [] ch []]> (rams s)))
    (with_vnodes (<[c := new_node (next_inode s) type]> (vnodes s)) (with_inode ino (with_fheap h s))).

Definition create_outcome s (d : Z) (r : RamfsNode) (nm : list Z) (type : Z) (o : outcome (Fs H) Z) : Prop :=
  (∃ s', o = Panic s' ∧ kh_full (fheap s')) ∨
  (∃ s', o = Done 0 s' ∧ only_heap s s' ∧ fs_ok s' ∧
     (is_Some (dir_map r !! nm) ∨ num_children r = RAMFS_MAX_CHILDREN ∨ kh_full (fheap s'))) ∨
  (∃ c ch h ino, dir_map r !! nm = None ∧ num_children r < RAMFS_MAX_CHILDREN ∧ c ≠ 0 ∧ rams s !! c = None ∧
     o = Done c (linked h ino d r nm c type ch s) ∧ fs_ok (linked h ino d r nm c type ch s) ∧
     dir_map (set_entries (entries r ++ [(nm, c)]) r) = <[nm := c]> (dir_map r)).

Lemma list_to_map_snoc_fresh (l : list (list Z * Z)) nm c :
  nm ∉ l.*1 → (list_to_map (l ++ [(nm, c)]) : gmap (list Z) Z) = <[nm := c]> (list_to_map l).
Proof. intros Hn. by apply list_to_map_snoc. Qed.

Lemma ramfs_create_lemma s d n r nm type :
  fs_ok s → vnodes s !! d = Some n → rams s !! d = Some r → nops n = RamfsOps → dir_ok n r →
  Z.of_nat (length nm) ≤ RAMFS_NAME_MAX → type = VFS_FILE ∨ type = VFS_DIRECTORY →
  create_outcome s d r nm type (ramfs_create d nm type s).
Proof.
  intros Hok Hv Hr Hops Hd Hnm Hty. unfold ramfs_create. rewrite (vnode_bind _ _ n) by done. rewrite (do_type _ _ Hd).
  change (negb (VFS_DIRECTORY =? VFS_DIRECTORY)) with false. cbv iota. rewrite (ram_bind _ _ r) by done.
  destruct (Z.leb_spec RAMFS_MAX_CHILDREN (num_children r));
    [right; left; exists s; do 3 (split; [done|]); right; left; pose proof (do_count _ _ Hd); lia|].
  kbind (ramfs_lookup_lemma s d n r nm Hv Hr Hd).
  pose proof (find_child_map (entries r) nm (do_names _ _ Hd)) as Hf. fold (dir_map r) in Hf.
  destruct (decide (default 0 (dir_map r !! nm) = 0)) as [Hz|Hz];
    [rewrite Hz|destruct (Z.eqb_spec (default 0 (dir_map r !! nm)) 0); [done|]; right; left; exists s; do 3 (split; [done|]); left; by destruct (dir_map r !! nm)].
  assert (dir_map r !! nm = None) as Hnone.
  { destruct (find_child (entries r) nm) as [i|]; [|done]. destruct Hf as (c & Hc & E). rewrite E in Hz. simpl in Hz. subst c.
    assert (is_Some (rams s !! 0)) as Hs.
    { apply (fs_links s Hok). rewrite (targets_split _ _ _ Hr). apply elem_of_app. left.
      apply list_elem_of_fmap. exists (nm, 0). split; [done|]. by eapply list_elem_of_lookup_2. }
    apply owned_addr, (fs_live s Hok), (kh_live_pos _ _ (fs_heap s Hok)) in Hs. lia. }
  change (negb (0 =? 0)) with false. cbv iota.
  destruct (alloc_node_lemma s type Hok Hty) as [(s' & E & Hx)|[(s' & E & Hoh & Hok' & Hx)|(c & ch & h & ino & Hc & Hco & Hcr & E & Hok1)]].
  { left. exists s'. split; [by apply bind_Panic|done]. }
  { right. left. exists s'. kbind E. do 3 (split; [done|]). by right; right. }
  right. right. exists c, ch, h, ino. kbind E. destruct (Z.eqb_spec c 0); [done|].
  assert (d ≠ c) as Hdc by (intros ->; congruence). set (s1 := put_node _ _ _ _ _) in *.
  assert (rams s1 !! d = Some r) as Hr1 by (simpl; by rewrite lookup_insert_ne).
  kbind (upd_ram_Done s1 d r (λ r, set_entries (entries r ++ [(take (Z.to_nat RAMFS_NAME_MAX) nm, c)]) r) Hr1).
  rewrite (take_ge nm) by (unfold RAMFS_NAME_MAX in *; lia).
  assert (nm ∉ (entries r).*1) as Hnotin by (by apply not_elem_of_list_to_map in Hnone).
  do 4 (split; [done|]). split; [reflexivity|]. split; [|by apply list_to_map_snoc_fresh].
  assert (vnodes s1 !! d = Some n) as Hv1 by (simpl; by rewrite lookup_insert_ne).
  assert (linked h ino d r nm c type ch s = put_node h d n (set_entries (entries r ++ [(nm, c)]) r) s1) as ->.
  { unfold linked, put_node. simpl. rewrite (insert_id (<[c := _]> (vnodes s)) d n) by (by rewrite lookup_insert_ne). done. }
  pose proof (fs_nodup s1 Hok1) as Hnd. rewrite (owned_split _ _ _ Hr1) in Hnd. apply NoDup_app in Hnd as (Hnd1 & Hdis & _).
  assert (∀ x, x ∈ owned (rams s1) → x ∈ kh_live h) as Hl1 by apply (fs_live s1 Hok1).
  apply (fs_ok_update s1 h d n r); try done.
  - apply Hok1.
  - rewrite owns_entries. intros x Hx. split; [apply Hl1; rewrite (owned_split _ _ _ Hr1); apply elem_of_app; by left|by apply Hdis].
  - intros x Hx. apply Hl1. rewrite (owned_split _ _ _ Hr1). apply elem_of_app. by right.
  - right. apply dir_ok_entries; [done|rewrite length_app; unfold num_children, RAMFS_MAX_CHILDREN in *; simpl; lia|].
    rewrite fmap_app. apply NoDup_app. split_and!; [apply Hd|set_solver +Hnotin|apply NoDup_singleton].
  - simpl. rewrite fmap_app. simpl. rewrite <-app_assoc. pose proof (fs_tree s1 Hok1) as Ht.
    rewrite (targets_split _ _ _ Hr1) in Ht.
    assert (c ∉ (entries r).*2 ++ targets (delete d (rams s1))) as Hct.
    { rewrite <-(targets_split _ _ _ Hr1). simpl. rewrite targets_insert. simpl. rewrite delete_id by done.
      intros Hx%(fs_links s Hok). rewrite Hcr in Hx. by destruct Hx. }
    rewrite elem_of_app in Hct. rewrite NoDup_app in *. destruct Ht as (? & ? & ?). simpl. rewrite NoDup_cons.
    split_and!; [done|set_solver|set_solver +Hct|done].
  - intros x. simpl. rewrite fmap_app, elem_of_app. simpl. intros [Hx|Hx%list_elem_of_singleton].
    + apply (fs_links s1 Hok1). rewrite (targets_split _ _ _ Hr1). apply elem_of_app. by left.
    + subst x. rewrite lookup_insert_eq. by eexists.
Qed.

(** ** Unlinking *)

Lemma free_opt s p :
  kh_ok (fheap s) → (p ≠ 0 → p ∈ kh_live (fheap s)) →
  ∃ h, (if negb (p =? 0) then fs_free p else mret tt) s = Done tt (with_fheap h s) ∧ kh_ok h ∧
    ∀ x, x ∈ kh_live h ↔ x ∈ kh_live (fheap s) ∧ (p ≠ 0 → x ≠ p).
Proof.
  intros Hok Hp. destruct (Z.eqb_spec p 0); simpl.
  - exists (fheap s). split; [by destruct s|]. split; [done|]. naive_solver.
  - destruct (fs_free_law s p Hok (Hp ltac:(done))) as (h & E & Hh & Hl & _). exists h. split_and!; [done|done|].
    intros x. rewrite Hl, elem_of_difference, elem_of_singleton. naive_solver.
Qed.

Lemma elem_of_owns a r x : x ∈ owns a r ↔ x = a ∨ (data r ≠ 0 ∧ x = data r) ∨ (children r ≠ 0 ∧ x = children r).
Proof. unfold owns. destruct (Z.eqb_spec (data r) 0), (Z.eqb_spec (children r) 0); set_solver. Qed.

Lemma free_node_lemma s c r :
  fs_ok s → rams s !! c = Some r →
  ∃ h, ramfs_free_node c s = Done tt (mkFs h (delete c (vnodes s)) (delete c (rams s)) (next_inode s) (vfs_root s) (mount_table s)) ∧
    kh_ok h ∧ ∀ x, x ∈ kh_live h ↔ x ∈ kh_live (fheap s) ∧ x ∉ owns c r.
Proof.
  intros Hok Hr. unfold ramfs_free_node. rewrite (ram_bind _ _ r) by done.
  assert (∀ x, x ∈ owns c r → x ∈ kh_live (fheap s)) as Hl.
  { intros x Hx. apply (fs_live s Hok). rewrite (owned_split _ _ _ Hr). apply elem_of_app. by left. }
  assert (NoDup (owns c r)) as Hnd.
  { pose proof (fs_nodup s Hok) as Hnd. rewrite (owned_split _ _ _ Hr) in Hnd. by apply NoDup_app in Hnd as (? & _). }
  assert (data r ≠ 0 → c ≠ data r) as H1.
  { unfold owns in Hnd. destruct (Z.eqb_spec (data r) 0); [done|]. apply NoDup_cons in Hnd as [? _]. set_solver. }
  assert (children r ≠ 0 → c ≠ children r) as H2.
  { unfold owns in Hnd. destruct (Z.eqb_spec (children r) 0); [done|]. apply NoDup_cons in Hnd as [? _]. set_solver. }
  assert (data r ≠ 0 → children r ≠ 0 → children r ≠ data r) as H3.
  { unfold owns in Hnd. destruct (Z.eqb_spec (data r) 0), (Z.eqb_spec (children r) 0); try done.
    apply NoDup_cons in Hnd as [_ Hnd]. simpl in Hnd. apply NoDup_cons in Hnd as [? _]. set_solver. }
  setoid_rewrite elem_of_owns in Hl.
  destruct (free_opt s (data r)) as (h1 & E1 & Hh1 & Hl1); [apply Hok|naive_solver|]. kbind E1.
  destruct (free_opt (with_fheap h1 s) (children r)) as (h2 & E2 & Hh2 & Hl2); [done|simpl; rewrite Hl1; naive_solver|]. kbind E2.
  destruct (fs_free_law (with_fheap h2 (with_fheap h1 s)) c) as (h3 & E3 & Hh3 & Hl3 & _); [done|simpl; rewrite Hl2; simpl; rewrite Hl1; naive_solver|].
  kbind E3. exists h3. split_and!; [done|done|]. intros x. rewrite Hl3, elem_of_difference, elem_of_singleton. simpl.
  rewrite Hl2. simpl. rewrite Hl1, elem_of_owns. naive_solver.
Qed.

(** The state after the node [c] was freed and its entry removed. *)
Definition unlinked (h : H) (d : Z) (rd : RamfsNode) (c : Z) s : Fs H :=
  mkFs h (delete c (vnodes s)) (<[d := rd]> (delete c (rams s))) (next_inode s) (vfs_root s) (mount_table s).

Lemma fs_ok_unlinked s h d n r c rc idx nm :
  fs_ok s → vnodes s !! d = Some n → rams s !! d = Some r → nops n = RamfsOps → dir_ok n r →
  rams s !! c = Some rc → entries rc = [] → entries r !! idx = Some (nm, c) → c ≠ d →
  kh_ok h → (∀ x, x ∈ kh_live h ↔ x ∈ kh_live (fheap s) ∧ x ∉ owns c rc) →
  fs_ok (unlinked h d (set_entries (delete idx (entries r)) r) c s).
Proof.
  intros Hok Hv Hr Hops Hd Hc Hec Hidx Hcd Hh Hl. pose proof (delete_Permutation _ _ _ Hidx) as Hperm.
  assert (delete c (rams s) !! d = Some r) as Hr' by (by rewrite lookup_delete_ne).
  destruct Hok as [Hh0 Hnd Hl0 Hn Ht Hk].
  rewrite (owned_split _ _ _ Hc) in Hnd. apply NoDup_app in Hnd as (_ & Hdis & Hnd).
  rewrite (targets_split _ _ _ Hc), Hec in Ht. simpl in Ht. rewrite (targets_split _ _ _ Hr') in Ht.
  rewrite Hperm in Ht. simpl in Ht. apply NoDup_cons in Ht as [Hct Ht]. split; simpl.
  - done.
  - rewrite owned_insert, owns_entries, <-(owned_split _ _ _ Hr'). done.
  - intros x. rewrite owned_insert, owns_entries, <-(owned_split _ _ _ Hr'). intros Hx. apply Hl. split.
    + apply Hl0. rewrite (owned_split _ _ _ Hc). apply elem_of_app. by right.
    + intros Hx'. by apply (Hdis x).
  - intros b rb Hb. rewrite lookup_insert in Hb. case_decide; simplify_eq.
    + exists n. rewrite lookup_delete_ne by done. split_and!; [done|done|]. right. apply dir_ok_entries; [done| |].
      * pose proof (do_count _ _ Hd). unfold num_children in *. rewrite Hperm in H1. simpl in H1. lia.
      * pose proof (do_names _ _ Hd) as Hnn. rewrite Hperm in Hnn. simpl in Hnn. by apply NoDup_cons in Hnn as [_ ?].
    + apply lookup_delete_Some in Hb as [Hne Hb]. rewrite lookup_delete_ne by done. by apply Hn.
  - by rewrite targets_insert.
  - intros x. rewrite targets_insert. simpl. intros Hx. assert (x ≠ c) as Hxc by (intros ->; done).
    rewrite lookup_insert. case_decide; [by eexists|]. rewrite lookup_delete_ne by done. apply Hk.
    rewrite (targets_split _ _ _ Hc), Hec. simpl. rewrite (targets_split _ _ _ Hr'), Hperm. simpl. by right.
Qed.

Definition unlink_outcome s (d : Z) (r : RamfsNode) (nm : list Z) (o : outcome (Fs H) Z) : Prop :=
  match dir_map r !! nm with
  | None => o = Done (- ENOENT) s
  | Some c => ∃ cn cr, vnodes s !! c = Some cn ∧ rams s !! c = Some cr ∧
      if decide (ntype cn = VFS_DIRECTORY ∧ entries cr ≠ []) then o = Done (- ENOTEMPTY) s
      else ∃ h r', o = Done 0 (unlinked h d r' c s) ∧ fs_ok (unlinked h d r' c s) ∧ dir_map r' = delete nm (dir_map r)
  end.

Lemma ramfs_unlink_lemma s d n r nm :
  fs_ok s → vnodes s !! d = Some n → rams s !! d = Some r → nops n = RamfsOps → dir_ok n r →
  unlink_outcome s d r nm (ramfs_unlink d nm s).
Proof.
  intros Hok Hv Hr Hops Hd. unfold ramfs_unlink, unlink_outcome. rewrite (vnode_bind _ _ n) by done.
  rewrite (do_type _ _ Hd). change (negb (VFS_DIRECTORY =? VFS_DIRECTORY)) with false. cbv iota.
  rewrite (ram_bind _ _ r) by done. unfold ramfs_find_child.
  pose proof (find_child_map (entries r) nm (do_names _ _ Hd)) as Hf. fold (dir_map r) in Hf.
  destruct (find_child (entries r) nm) as [idx|]; [|by rewrite Hf]. destruct Hf as (c & Hidx & ->).
  assert (is_Some (rams s !! c)) as [cr Hcr].
  { apply (fs_links s Hok). rewrite (targets_split _ _ _ Hr). apply elem_of_app. left.
    apply list_elem_of_fmap. exists (nm, c). split; [done|]. by eapply list_elem_of_lookup_2. }
  destruct (fs_node s Hok c cr Hcr) as (cn & Hcn & Hcops & Hcok). exists cn, cr. split_and!; [done|done|].
  rewrite (kopt_bind _ _ _ c) by (by rewrite Hidx). rewrite (vnode_bind _ _ cn), (ram_bind _ _ cr) by done.
  assert ((ntype cn =? VFS_DIRECTORY) && (0 <? num_children cr) = bool_decide (ntype cn = VFS_DIRECTORY ∧ entries cr ≠ [])) as ->.
  { unfold num_children. destruct (Z.eqb_spec (ntype cn) VFS_DIRECTORY), (entries cr) eqn:E; simpl;
      case_bool_decide; try done; naive_solver. }
  case_decide as Hne; [by rewrite bool_decide_eq_true_2|]. rewrite bool_decide_eq_false_2 by done.
  assert (entries cr = []) as Hec.
  { destruct Hcok as [Hfo|Hdo]; [apply Hfo|]. destruct (entries cr); [done|]. destruct Hne. by split; [apply Hdo|]. }
  assert (c ≠ d) as Hcd by (intros ->; rewrite Hr in Hcr; simplify_eq; by rewrite Hec in Hidx).
  destruct (free_node_lemma s c cr Hok Hcr) as (h & E & Hh & Hl). kbind E.
  erewrite bind_Done; [|apply (upd_ram_Done _ d r); simpl; by rewrite lookup_delete_ne].
  exists h, (set_entries (delete idx (entries r)) r). split; [reflexivity|]. split; [by eapply fs_ok_unlinked|].
  unfold dir_map. simpl. pose proof (delete_Permutation _ _ _ Hidx) as Hperm. pose proof (do_names _ _ Hd) as Hnd.
  rewrite (list_to_map_proper _ ((nm, c) :: delete idx (entries r)) Hnd Hperm). simpl.
  rewrite Hperm in Hnd. simpl in Hnd. apply NoDup_cons in Hnd as [Hnn _].
  rewrite delete_insert_id; [done|]. by apply not_elem_of_list_to_map_1.
Qed.

(** ** Theorems *)

(** C8. [ramfs_write], for a write that ends below byte 2^31 of the file, implements writing a list of bytes: unless the heap
    cannot grow, in which case it stops the machine or returns -ENOMEM and no node changes, the file holds its old bytes with the written ones at the offset, a gap behind the old end reads as
    zeros, no other node changes, and the invariant of the store is kept. *)
Theorem ramfs_write_correct s a n r buf off :
  fs_ok s → vnodes s !! a = Some n → rams s !! a = Some r → nops n = RamfsOps → file_ok n r →
  0 ≤ off → off + Z.of_nat (length buf) < 2 ^ 31 →
  write_outcome s a n r buf off (ramfs_write a buf off s).
Proof. apply ramfs_write_lemma. Qed.

(** C30. A directory is a finite map: lookup finds what the map has, create binds a new name to a new node, or fails
    without effect because the name exists, the directory is full or the heap cannot grow (which may also stop the machine), unlink removes the binding and frees the node but refuses a missing name or a
    non-empty directory; the store stays a tree whose nodes own disjoint heap blocks. *)
Theorem ramfs_directory_correct s d n r nm type :
  fs_ok s → vnodes s !! d = Some n → rams s !! d = Some r → nops n = RamfsOps → dir_ok n r →
  Z.of_nat (length nm) ≤ RAMFS_NAME_MAX → type = VFS_FILE ∨ type = VFS_DIRECTORY →
  ramfs_lookup d nm s = Done (default 0 (dir_map r !! nm)) s ∧
  create_outcome s d r nm type (ramfs_create d nm type s) ∧
  unlink_outcome s d r nm (ramfs_unlink d nm s).
Proof.
  intros Hok Hv Hr Hops Hd Hnm Hty. split_and!.
  - by apply (ramfs_lookup_lemma s d n).
  - by apply (ramfs_create_lemma s d n).
  - by apply (ramfs_unlink_lemma s d n).
Qed.
End correct.

(** ** Witnesses *)

Definition addr1 : Z := payload block1.
Definition addr2 : Z := payload block2.
(** A store with one empty file, and one with one empty directory. *)
Definition file_store : Fs (Heap Z) :=
  mkFs heap_example {[ addr1 := mkNode 1 VFS_FILE 0 438 0 0 RamfsOps ]} {[ addr1 := mkRam 0 [] 0 [] ]} 2 0 [].
Definition dir_store : Fs (Heap Z) :=
  mkFs heap_example {[ addr1 := mkNode 1 VFS_DIRECTORY 0 493 0 0 RamfsOps ]} {[ addr1 := mkRam 0 [] addr2 [] ]} 2 addr1 [].

Lemma example_live a : a = addr1 ∨ a = addr2 → a ∈ kh_live heap_example.
Proof.
  intros Ha. apply (elem_of_live _ _ _ heap_example_repr). destruct Ha as [->| ->]; [exists block1|exists block2];
    (split; [|done]); apply elem_of_used; (split; [|done]); [by left|by right; left].
Qed.
Lemma empty_file_ok : file_ok (mkNode 1 VFS_FILE 0 438 0 0 RamfsOps) (mkRam 0 [] 0 []).
Proof. by split. Qed.
Lemma empty_dir_ok : dir_ok (mkNode 1 VFS_DIRECTORY 0 493 0 0 RamfsOps) (mkRam 0 [] addr2 []).
Proof. split; try done. constructor. Qed.
Lemma file_store_ok : fs_ok file_store.
Proof.
  split.
  - exists blocks_example. apply heap_example_repr.
  - vm_compute. repeat constructor; set_solver.
  - intros a Ha. apply example_live. left. vm_compute in Ha. vm_compute. set_solver.
  - intros a r Hr. simpl in Hr. apply lookup_singleton_Some in Hr as [<- <-]. eexists. split; [vm_compute; reflexivity|]. split; [done|]. left. apply empty_file_ok.
  - vm_compute. constructor.
  - intros a Ha. vm_compute in Ha. by apply elem_of_nil in Ha.
Qed.
Lemma dir_store_ok : fs_ok dir_store.
Proof.
  split.
  - exists blocks_example. apply heap_example_repr.
  - vm_compute. repeat constructor; set_solver.
  - intros a Ha. apply example_live. vm_compute in Ha. vm_compute. set_solver.
  - intros a r Hr. simpl in Hr. apply lookup_singleton_Some in Hr as [<- <-]. eexists. split; [vm_compute; reflexivity|]. split; [done|]. right. apply empty_dir_ok.
  - vm_compute. constructor.
  - intros a Ha. vm_compute in Ha. by apply elem_of_nil in Ha.
Qed.

Lemma ramfs_write_correct_witness :
  write_outcome file_store addr1 (mkNode 1 VFS_FILE 0 438 0 0 RamfsOps) (mkRam 0 [] 0 []) [65; 66; 67] 600
    (ramfs_write addr1 [65; 66; 67] 600 file_store).
Proof.
  apply ramfs_write_correct; [apply file_store_ok|vm_compute; reflexivity|vm_compute; reflexivity|done|apply empty_file_ok|lia|simpl; lia].
Defined.
Lemma ramfs_directory_correct_witness :
  ramfs_lookup addr1 [97] dir_store = Done (default 0 (dir_map (mkRam 0 [] addr2 []) !! [97])) dir_store ∧
  create_outcome dir_store addr1 (mkRam 0 [] addr2 []) [97] VFS_DIRECTORY (ramfs_create addr1 [97] VFS_DIRECTORY dir_store) ∧
  unlink_outcome dir_store addr1 (mkRam 0 [] addr2 []) [97] (ramfs_unlink addr1 [97] dir_store).
Proof.
  eapply ramfs_directory_correct; [apply dir_store_ok|vm_compute; reflexivity|vm_compute; reflexivity|done|apply empty_dir_ok|done|by right].
Defined.
