(* ===== verification/Vfs.v ===== *)
(** * The virtual file system

    [kernel/fs/vfs.c] and [kernel/fs/devfs.c] on the nodes of [Ramfs].  A call through a
    node's table of operations is a dispatch on which table it is.  NULL pointers
    are [None]; the credentials of the current process, if there is one, are an argument.
    The terminal behind /dev/tty is a parameter. *)
From S2P Require Import Prelude KHeap Path Ramfs.

Definition O_RDONLY : Z := 0.
Definition O_WRONLY : Z := 1.
Definition O_RDWR : Z := 2.
Definition O_CREAT : Z := 0x40.
Definition O_TRUNC : Z := 0x200.
Definition O_APPEND : Z := 0x400.
Definition O_ACCMODE : Z := 3.
Definition SEEK_SET : Z := 0.
Definition SEEK_CUR : Z := 1.
Definition SEEK_END : Z := 2.
Definition R_OK : Z := 4.
Definition W_OK : Z := 2.
Definition X_OK : Z := 1.
Definition VFS_OK : Z := 0.
Definition VFS_MAX_MOUNTS : Z := 8.

Record VfsFile : Type := mkFile { fnode : Z; foffset : Z; fflags : Z }.
Record VfsStat : Type := mkStat { st_inode : Z; st_type : Z; st_size : Z; st_mode : Z; st_uid : Z; st_gid : Z }.
(** The fields of [Process] that the file system reads. *)
Record Cred : Type := mkCred { euid : Z; egid : Z; umask : Z }.

Definition vfs_check_perm (n : VfsNode) (uid gid want : Z) : Z :=
  if uid =? 0 then 0 else
  let mode := nmode n in
  let perm :=
    if uid =? nuid n then Z.land (Z.shiftr mode 6) 7
    else if gid =? ngid n then Z.land (Z.shiftr mode 3) 7
    else Z.land mode 7 in
  if Z.land perm want =? want then 0 else - EACCES.

(** The next component, of at most [comp_size - 1] bytes, and the rest of the path. *)
Fixpoint copy_comp (path : list Z) (i comp_size : Z) : list Z * list Z :=
  match path with
  | [] => ([], [])
  | c :: path' =>
      if negb (c =? SLASH) && (i <? comp_size - 1)
      then let '(w, r) := copy_comp path' (i + 1) comp_size in (c :: w, r)
      else ([], path)
  end.
Definition path_next_component (path : list Z) (comp_size : Z) : option (list Z * list Z) :=
  match skip_slashes path with
  | [] => None
  | path' => let '(comp, rest) := copy_comp path' 0 comp_size in Some (comp, skip_slashes rest)
  end.

(** The index of the last slash, from [i]. *)
Fixpoint last_slash (path : list Z) (i : Z) (last : option Z) : option Z :=
  match path with
  | [] => last
  | c :: path' => last_slash path' (i + 1) (if c =? SLASH then Some i else last)
  end.

Section vfs.
Context {H : Type} `{KHeap H}.
(** The static nodes of devfs. *)
Context (dev_root_node dev_null_node dev_zero_node dev_tty_node : Z).
(** [tty_read(buf, size)] and [tty_write(buf, size)] of the terminal driver. *)
Context (tty_read : Z → K (Fs H) (Z * list Z)) (tty_write : list Z → K (Fs H) Z).
Implicit Types (s : Fs H).

(** ** devfs *)

Definition devfs_null_read (offset size : Z) : K (Fs H) (Z * list Z) := mret (0, []).
Definition devfs_null_write (buf : list Z) (offset : Z) : K (Fs H) Z := mret (i32 (Z.of_nat (length buf))).
Definition devfs_zero_read (offset size : Z) : K (Fs H) (Z * list Z) :=
  mret (i32 size, replicate (Z.to_nat size) 0).
Definition devfs_zero_write (buf : list Z) (offset : Z) : K (Fs H) Z := mret (i32 (Z.of_nat (length buf))).
Definition devfs_tty_read (offset size : Z) : K (Fs H) (Z * list Z) := tty_read size.
Definition devfs_tty_write (buf : list Z) (offset : Z) : K (Fs H) Z := tty_write buf.

(** "null", "zero" and "tty". *)
Definition dev_entries : list (list Z * Z) :=
  [([110; 117; 108; 108], dev_null_node); ([122; 101; 114; 111], dev_zero_node); ([116; 116; 121], dev_tty_node)].
Definition DEV_ENTRY_COUNT : Z := 3.
Definition devfs_dir_lookup (name : list Z) : K (Fs H) Z :=
  match find_child dev_entries name with
  | None => mret 0
  | Some i => kopt (λ _, snd <$> dev_entries !! i)
  end.
Definition devfs_dir_readdir (max : Z) : K (Fs H) (Z * list VfsDirEntry) :=
  let count := if DEV_ENTRY_COUNT <? max then DEV_ENTRY_COUNT else max in
  es ← dirents (take (Z.to_nat count) dev_entries);
  mret (i32 count, es).

Definition devfs_init_node (dn ino type mode : Z) (ops : Ops) : K (Fs H) unit :=
  kmod (λ s, with_vnodes (<[dn := mkNode ino type 0 mode 0 0 ops]> (vnodes s)) s).
Definition devfs_init : K (Fs H) Z :=
  devfs_init_node dev_root_node 1000 VFS_DIRECTORY 493 DevDirOps;;
  devfs_init_node dev_null_node 1001 VFS_FILE 438 DevNullOps;;
  devfs_init_node dev_zero_node 1002 VFS_FILE 438 DevZeroOps;;
  devfs_init_node dev_tty_node 1003 VFS_FILE 438 DevTtyOps;;
  mret dev_root_node.

(** ** Tables of operations; a missing entry is NULL *)

Definition op_read (o : Ops) (node : Z) : option (Z → Z → K (Fs H) (Z * list Z)) :=
  match o with
  | RamfsOps => Some (ramfs_read node)
  | DevNullOps => Some devfs_null_read
  | DevZeroOps => Some devfs_zero_read
  | DevTtyOps => Some devfs_tty_read
  | NoOps | DevDirOps => None
  end.
Definition op_write (o : Ops) (node : Z) : option (list Z → Z → K (Fs H) Z) :=
  match o with
  | RamfsOps => Some (ramfs_write node)
  | DevNullOps => Some devfs_null_write
  | DevZeroOps => Some devfs_zero_write
  | DevTtyOps => Some devfs_tty_write
  | NoOps | DevDirOps => None
  end.
Definition op_lookup (o : Ops) (dir : Z) : option (list Z → K (Fs H) Z) :=
  match o with
  | RamfsOps => Some (ramfs_lookup dir)
  | DevDirOps => Some devfs_dir_lookup
  | _ => None
  end.
Definition op_create (o : Ops) (dir : Z) : option (list Z → Z → K (Fs H) Z) :=
  match o with RamfsOps => Some (ramfs_create dir) | _ => None end.
Definition op_unlink (o : Ops) (dir : Z) : option (list Z → K (Fs H) Z) :=
  match o with RamfsOps => Some (ramfs_unlink dir) | _ => None end.
Definition op_readdir (o : Ops) (dir : Z) : option (Z → K (Fs H) (Z * list VfsDirEntry)) :=
  match o with
  | RamfsOps => Some (ramfs_readdir dir)
  | DevDirOps => Some devfs_dir_readdir
  | _ => None
  end.
Definition op_truncate (o : Ops) (node : Z) : option (Z → K (Fs H) unit) :=
  match o with RamfsOps => Some (ramfs_truncate node) | _ => None end.

(** ** Resolving paths *)

Definition vfs_init : K (Fs H) unit := kmod (with_root 0).
Definition vfs_set_root (root : Z) : K (Fs H) unit := kmod (with_root root).

Fixpoint find_mount (l : list (list Z * Z)) (name : list Z) : Z :=
  match l with
  | [] => 0
  | (n, r) :: l' => if negb (r =? 0) && bool_decide (name = n) then r else find_mount l' name
  end.
Definition vfs_find_mount (name : list Z) : K (Fs H) Z := kget (λ s, find_mount (mount_table s) name).

(** One level of the walk: the child of [node], or 0; [None] if [node] is not a
    directory that can be searched. *)
Definition walk_component (node : Z) (comp : list Z) : K (Fs H) (option Z) :=
  n ← vnode node;
  if negb (ntype n =? VFS_DIRECTORY) then mret None else
  match op_lookup (nops n) node with
  | None => mret None
  | Some lookup =>
      child ← lookup comp;
      root ← kget vfs_root;
      if (child =? 0) && (node =? root) then m ← vfs_find_mount comp; mret (Some m) else mret (Some child)
  end.

Fixpoint resolve_loop (fuel : nat) (node : Z) (cursor : list Z) : K (Fs H) Z :=
  match fuel with
  | O => kstuck
  | S fuel' =>
      match path_next_component cursor VFS_NAME_MAX with
      | None => mret node
      | Some (comp, cursor') =>
          child ← walk_component node comp;
          match child with
          | None => mret 0
          | Some c => if c =? 0 then mret 0 else resolve_loop fuel' c cursor'
          end
      end
  end.
(** The node, or 0. *)
Definition vfs_resolve (path : option (list Z)) : K (Fs H) Z :=
  root ← kget vfs_root;
  match path with
  | None => mret 0
  | Some p =>
      if bool_decide (head p ≠ Some SLASH) || (root =? 0) then mret 0
      else resolve_loop (S (length p)) root p
  end.

(** The walk of [vfs_resolve_parent] while the cursor is before the last slash, which
    is [before] bytes from the end of the path; an error number or the node. *)
Fixpoint parent_loop (fuel : nat) (node : Z) (cursor : list Z) (before : Z) : K (Fs H) (Z + Z) :=
  match fuel with
  | O => kstuck
  | S fuel' =>
      if Z.of_nat (length cursor) <=? before then mret (inr node) else
      match path_next_component cursor VFS_NAME_MAX with
      | None => mret (inr node)
      | Some (comp, cursor') =>
          child ← walk_component node comp;
          match child with
          | None => mret (inl ENOTDIR)
          | Some c =>
              if c =? 0 then mret (inl ENOENT) else
              if Z.of_nat (length cursor') <=? before then mret (inr c)
              else parent_loop fuel' c cursor' before
          end
      end
  end.
(** The error number, or the parent and the last component. *)
Definition vfs_resolve_parent (path : option (list Z)) (name_size : Z) : K (Fs H) (Z + Z * list Z) :=
  root ← kget vfs_root;
  match path with
  | None => mret (inl EINVAL)
  | Some p =>
      if bool_decide (head p ≠ Some SLASH) || (root =? 0) then mret (inl EINVAL) else
      match last_slash p 0 None with
      | None => mret (inl EINVAL)
      | Some i =>
          let name := drop (Z.to_nat (i + 1)) p in
          if bool_decide (name = []) then mret (inl EINVAL) else
          let name_out := take (Z.to_nat (name_size - 1)) name in
          if i =? 0 then mret (inr (root, name_out)) else
          r ← parent_loop (S (length p)) root p (Z.of_nat (length p) - i);
          match r with
          | inl e => mret (inl e)
          | inr node =>
              n ← vnode node;
              if negb (ntype n =? VFS_DIRECTORY) then mret (inl ENOTDIR) else mret (inr (node, name_out))
          end
      end
  end.

(** ** Operations on paths and files *)

(** Permission to write in a directory, for a process. *)
Definition check_parent (p : option Cred) (parent : Z) : K (Fs H) Z :=
  match p with
  | None => mret 0
  | Some c => n ← vnode parent; mret (vfs_check_perm n (euid c) (egid c) (Z.lor W_OK X_OK))
  end.

(** Creating a node in the parent of the path; a negative error or the node. *)
Definition create_at (p : option Cred) (path : option (list Z)) (type : Z) : K (Fs H) (Z + Z) :=
  pr ← vfs_resolve_parent path VFS_NAME_MAX;
  match pr with
  | inl e => mret (inl (- e))
  | inr (parent, name) =>
      perr ← check_parent p parent;
      if negb (perr =? 0) then mret (inl perr) else
      n ← vnode parent;
      match op_create (nops n) parent with
      | None => mret (inl (- EINVAL))
      | Some create =>
          node ← create name type;
          mret (if node =? 0 then inl (- ENOMEM) else inr node)
      end
  end.

Definition vfs_open (p : option Cred) (path : option (list Z)) (flags : Z) : K (Fs H) (Z * option VfsFile) :=
  node ← vfs_resolve path;
  found ←
    (if negb (node =? 0) then
       match p with
       | None => mret (inr node)
       | Some c =>
           let acc := Z.land flags O_ACCMODE in
           let want := Z.lor (if (acc =? O_RDONLY) || (acc =? O_RDWR) then R_OK else 0)
                             (if (acc =? O_WRONLY) || (acc =? O_RDWR) then W_OK else 0) in
           n ← vnode node;
           let perr := if negb (want =? 0) then vfs_check_perm n (euid c) (egid c) want else 0 in
           mret (if negb (perr =? 0) then inl perr else inr node)
       end
     else if Z.land flags O_CREAT =? 0 then mret (inl (- ENOENT)) else
       r ← create_at p path VFS_FILE;
       match r with
       | inl e => mret (inl e)
       | inr new =>
           (match p with
            | Some c => upd_vnode new (λ n, set_nmode (Z.land 438 (u32 (Z.lnot (umask c)))) (set_nowner (euid c) (egid c) n))
            | None => upd_vnode new (set_nmode 438)
            end);;
           mret (inr new)
       end);
  match (found : Z + Z) with
  | inl e => mret (e, None)
  | inr node =>
      n ← vnode node;
      if ntype n =? VFS_DIRECTORY then mret (- EISDIR, None) else
      (if negb (Z.land flags O_TRUNC =? 0) then
         match op_truncate (nops n) node with Some truncate => truncate 0 | None => mret tt end
       else mret tt);;
      n ← vnode node;
      mret (VFS_OK, Some (mkFile node (if negb (Z.land flags O_APPEND =? 0) then nsize n else 0) flags))
  end.

Definition vfs_close (file : option VfsFile) : K (Fs H) (Z * option VfsFile) :=
  match file with
  | None => mret (- EINVAL, None)
  | Some _ => mret (VFS_OK, Some (mkFile 0 0 0))
  end.

(** The result, the bytes read and the file with its new offset. *)
Definition vfs_read (file : option VfsFile) (buf_null : bool) (size : Z) : K (Fs H) (Z * list Z * option VfsFile) :=
  match file with
  | None => mret (- EINVAL, [], file)
  | Some f =>
      if (fnode f =? 0) || buf_null then mret (- EINVAL, [], file) else
      if Z.land (fflags f) O_ACCMODE =? O_WRONLY then mret (- EINVAL, [], file) else
      node ← vnode (fnode f);
      match op_read (nops node) (fnode f) with
      | None => mret (- EINVAL, [], file)
      | Some read =>
          r ← read (u32 (foffset f)) size;
          let '(n, bytes) := (r : Z * list Z) in
          mret (n, bytes, Some (if 0 <? n then mkFile (fnode f) (u64 (foffset f + n)) (fflags f) else f))
      end
  end.

(** [None] is a NULL buffer. *)
Definition vfs_write (file : option VfsFile) (buf : option (list Z)) : K (Fs H) (Z * option VfsFile) :=
  match file, buf with
  | Some f, Some b =>
      if fnode f =? 0 then mret (- EINVAL, file) else
      if Z.land (fflags f) O_ACCMODE =? O_RDONLY then mret (- EINVAL, file) else
      node ← vnode (fnode f);
      match op_write (nops node) (fnode f) with
      | None => mret (- EINVAL, file)
      | Some write =>
          let off := if negb (Z.land (fflags f) O_APPEND =? 0) then nsize node else foffset f in
          n ← write b (u32 off);
          mret (n, Some (mkFile (fnode f) (if 0 <? n then u64 (off + n) else off) (fflags f)))
      end
  | _, _ => mret (- EINVAL, file)
  end.

(** The sums are signed; an overflow is undefined. *)
Definition add_i64 (a b : Z) : option Z :=
  if (- 2 ^ 63 <=? a + b) && (a + b <? 2 ^ 63) then Some (a + b) else None.
Definition Some_i64 (o : option Z) : K (Fs H) (option Z) := kopt (λ _, Some <$> o).
Definition vfs_seek (file : option VfsFile) (offset whence : Z) : K (Fs H) (Z * option VfsFile) :=
  match file with
  | None => mret (- EINVAL, None)
  | Some f =>
      if fnode f =? 0 then mret (- EINVAL, file) else
      target ←
        (if whence =? SEEK_SET then mret (Some offset)
         else if whence =? SEEK_CUR then Some_i64 (add_i64 (i64 (foffset f)) offset)
         else if whence =? SEEK_END then
           node ← vnode (fnode f); Some_i64 (add_i64 (i64 (nsize node)) offset)
         else mret None);
      match (target : option Z) with
      | None => mret (- EINVAL, file)
      | Some t =>
          if t <? 0 then mret (- EINVAL, file)
          else mret (VFS_OK, Some (mkFile (fnode f) t (fflags f)))
      end
  end.

Definition vfs_stat (path : option (list Z)) : K (Fs H) (Z * option VfsStat) :=
  node ← vfs_resolve path;
  if node =? 0 then mret (- ENOENT, None) else
  n ← vnode node;
  mret (VFS_OK, Some (mkStat (inode_num n) (ntype n) (nsize n) (nmode n) (nuid n) (ngid n))).

Definition vfs_mkdir (p : option Cred) (path : option (list Z)) (mode : Z) : K (Fs H) Z :=
  root ← kget vfs_root;
  if bool_decide (path = None) || (root =? 0) then mret (- EINVAL) else
  existing ← vfs_resolve path;
  if negb (existing =? 0) then mret (- EEXIST) else
  r ← create_at p path VFS_DIRECTORY;
  match r with
  | inl e => mret e
  | inr dir =>
      (match p with
       | Some c => upd_vnode dir (λ n, set_nowner (euid c) (egid c) (set_nmode (Z.land mode (u32 (Z.lnot (umask c)))) n))
       | None => upd_vnode dir (set_nmode mode)
       end);;
      mret VFS_OK
  end.

(** The mount entries that fit after the [count] entries of the root. *)
Fixpoint mount_dirents (l : list (list Z * Z)) (count max : Z) : K (Fs H) (list VfsDirEntry) :=
  match l with
  | [] => mret []
  | (nm, r) :: l' =>
      if negb (count <? max) then mret [] else
      if r =? 0 then mount_dirents l' count max else
      n ← vnode r;
      rest ← mount_dirents l' (count + 1) max;
      mret (mkDirent nm (inode_num n) (ntype n) :: rest)
  end.
Definition vfs_readdir (path : option (list Z)) (max : Z) : K (Fs H) (Z * list VfsDirEntry) :=
  node ← vfs_resolve path;
  if node =? 0 then mret (- ENOENT, []) else
  n ← vnode node;
  if negb (ntype n =? VFS_DIRECTORY) then mret (- ENOTDIR, []) else
  match op_readdir (nops n) node with
  | None => mret (- EINVAL, [])
  | Some readdir =>
      r ← readdir max;
      let '(count, es) := (r : Z * list VfsDirEntry) in
      root ← kget vfs_root;
      if (node =? root) && (0 <=? count) then
        mounts ← kget mount_table;
        ms ← mount_dirents mounts count max;
        mret (count + Z.of_nat (length ms), es ++ ms)
      else mret (count, es)
  end.

Definition vfs_unlink (p : option Cred) (path : option (list Z)) : K (Fs H) Z :=
  root ← kget vfs_root;
  if bool_decide (path = None) || (root =? 0) then mret (- EINVAL) else
  pr ← vfs_resolve_parent path VFS_NAME_MAX;
  match pr with
  | inl e => mret (- e)
  | inr (parent, name) =>
      perr ← check_parent p parent;
      if negb (perr =? 0) then mret perr else
      n ← vnode parent;
      match op_unlink (nops n) parent with
      | None => mret (- EINVAL)
      | Some unlink => unlink name
      end
  end.

Definition vfs_mount (path : option (list Z)) (fs_root : Z) : K (Fs H) Z :=
  match path with
  | None => mret (- EINVAL)
  | Some p =>
      if fs_root =? 0 then mret (- EINVAL) else
      if bool_decide (head p ≠ Some SLASH) then mret (- EINVAL) else
      let name := tail p in
      if bool_decide (name = []) || bool_decide (SLASH ∈ name) then mret (- EINVAL) else
      mounts ← kget mount_table;
      if negb (find_mount mounts name =? 0) then mret (- EEXIST) else
      if VFS_MAX_MOUNTS <=? Z.of_nat (length mounts) then mret (- ENOMEM) else
      kmod (with_mounts (mounts ++ [(take (Z.to_nat (VFS_NAME_MAX - 1)) name, fs_root)]));;
      mret VFS_OK
  end.
End vfs.
