(* ===== verification/VfsCorrect.v ===== *)
(** * The virtual file system: correctness

    Resolving a path against the tree of directories it walks, reading back what was
    written through an open file, and the permission bits. *)
From S2P Require Import Prelude PageAlloc Kmalloc KmallocCorrect KHeap Path Ramfs RamfsCorrect Vfs.

(** ** Components *)

Lemma copy_comp_spec w r i n :
  SLASH ∉ w → (r = [] ∨ ∃ r', r = SLASH :: r') → i + Z.of_nat (length w) ≤ n - 1 →
  copy_comp (w ++ r) i n = (w, r).
Proof.
  revert i. induction w as [|c w IH]; intros i Hw Hr Hn; simpl.
  - destruct Hr as [->|[r' ->]]; simpl; [done|]. done.
  - destruct (Z.eqb_spec c SLASH); [set_solver|]. simpl in Hn. destruct (Z.ltb_spec i (n - 1)); [|lia]. simpl.
    rewrite IH; [done|set_solver|done|lia].
Qed.
(** Taking a component off a path takes it off the list of components. *)
Lemma next_component_spec p :
  Forall (λ c, Z.of_nat (length c) < VFS_NAME_MAX) (comps p) →
  match path_next_component p VFS_NAME_MAX with
  | None => comps p = []
  | Some (c, p') => comps p = c :: comps p' ∧ (length p' < length p)%nat
  end.
Proof.
  intros Hp. unfold path_next_component. destruct (skip_slashes p) as [|x q] eqn:Es.
  { by rewrite <-comps_skip, Es. }
  destruct (next_slash (x :: q)) as [w r] eqn:En. destruct (comps_next p x q w r Es En) as (Hw & Hsl & Hc & Hlt).
  rewrite Hc in Hp. apply Forall_cons in Hp as [Hl _]. destruct (next_slash_spec _ _ _ En) as (-> & _ & Hr).
  rewrite copy_comp_spec; [|done|done|unfold VFS_NAME_MAX in *; lia]. rewrite Hc, comps_skip. split; [done|].
  eapply Nat.le_lt_trans; [|exact Hlt]. clear. induction r as [|c r IH]; simpl; [done|]. destruct (c =? SLASH); simpl; lia.
Qed.

(** ** The walk *)

Section correct.
Context {H : Type} `{KHeap H}.
Context (dev_null_node dev_zero_node dev_tty_node : Z).
Implicit Types (s : Fs H).
Let dev_entries := dev_entries dev_null_node dev_zero_node dev_tty_node.
Let vfs_resolve := vfs_resolve (H := H) dev_null_node dev_zero_node dev_tty_node.
Let walk_component := walk_component (H := H) dev_null_node dev_zero_node dev_tty_node.

(** The names a directory binds, or [None] for a node that cannot be searched. *)
Definition dir_bindings s (a : Z) : option (gmap (list Z) Z) :=
  n ← vnodes s !! a;
  if decide (ntype n = VFS_DIRECTORY) then
    match nops n with
    | RamfsOps => dir_map <$> rams s !! a
    | DevDirOps => Some (list_to_map dev_entries)
    | _ => None
    end
  else None.
(** What a component names in a directory; in the root, mounts come after the entries. *)
Definition child s (a : Z) (c : list Z) : Z :=
  match dir_bindings s a with
  | None => 0
  | Some m => match m !! c with Some x => x | None => if decide (a = vfs_root s) then find_mount (mount_table s) c else 0 end
  end.
Definition path_lookup s (a : Z) (l : list (list Z)) : Z :=
  foldl (λ a c, if decide (a = 0) then 0 else child s a c) a l.

Record vfs_ok s : Prop := {
  vo_fs : fs_ok s;
  vo_root : is_Some (vnodes s !! vfs_root s) ∧ vfs_root s ≠ 0;
  vo_ram a n : vnodes s !! a = Some n → nops n = RamfsOps → ∃ r, rams s !! a = Some r ∧ (file_ok n r ∨ dir_ok n r);
  vo_null : vnodes s !! 0 = None;
  vo_mounts : Forall (λ p, is_Some (vnodes s !! p.2)) (mount_table s);
  vo_dev a n : vnodes s !! a = Some n → nops n = DevDirOps → Forall (λ p, is_Some (vnodes s !! p.2)) dev_entries;
}.

Lemma find_mount_ok s c :
  vfs_ok s → find_mount (mount_table s) c = 0 ∨ is_Some (vnodes s !! find_mount (mount_table s) c).
Proof.
  intros [_ _ _ _ Hm _]. induction Hm as [|[nm r] l Hr Hl IH]; simpl; [by left|].
  destruct (negb (r =? 0) && bool_decide (c = nm)); [by right|done].
Qed.
Lemma map_Forall_dev m c x : Forall (λ p : list Z * Z, is_Some (m !! p.2)) dev_entries →
  (list_to_map dev_entries : gmap (list Z) Z) !! c = Some x → is_Some ((m : gmap Z VfsNode) !! x).
Proof. intros Hf Hx%elem_of_list_to_map_2. by apply (proj1 (Forall_forall _ _) Hf (c, x)). Qed.

(** The bindings of a directory lead to nodes. *)
Lemma binding_ok s a m c x : vfs_ok s → dir_bindings s a = Some m → m !! c = Some x → is_Some (vnodes s !! x).
Proof.
  intros Hok Hm Hx. unfold dir_bindings in Hm. destruct (vnodes s !! a) as [n|] eqn:En; [|done]. simpl in Hm.
  case_decide; [|done]. destruct (nops n) eqn:Eo; try done.
  - destruct (vo_ram s Hok a n En Eo) as (r & Hr & _). rewrite Hr in Hm. injection Hm as <-.
    assert (is_Some (rams s !! x)) as [rx Hrx].
    { apply (fs_links s (vo_fs s Hok)). rewrite (targets_split _ _ _ Hr). apply elem_of_app. left.
      apply elem_of_list_to_map_2 in Hx. apply list_elem_of_fmap. by exists (c, x). }
    destruct (fs_node s (vo_fs s Hok) x rx Hrx) as (nx & -> & _). done.
  - injection Hm as <-. eapply map_Forall_dev; [|exact Hx]. by eapply (vo_dev s Hok).
Qed.
Lemma child_ok s a c : vfs_ok s → child s a c = 0 ∨ is_Some (vnodes s !! child s a c).
Proof.
  intros Hok. unfold child. destruct (dir_bindings s a) as [m|] eqn:Em; [|by left].
  destruct (m !! c) as [x|] eqn:Ex; [right; by eapply binding_ok|]. case_decide; [by apply find_mount_ok|by left].
Qed.

(** One level of the walk is [child]. *)
Lemma walk_component_spec s a c :
  vfs_ok s → is_Some (vnodes s !! a) →
  walk_component a c s = Done (if decide (dir_bindings s a = None) then None else Some (child s a c)) s.
Proof.
  intros Hok [n Hn]. unfold walk_component, Vfs.walk_component. rewrite (vnode_bind _ _ n) by done.
  unfold child, dir_bindings. rewrite Hn. cbn [mbind option_bind].
  destruct (Z.eqb_spec (ntype n) VFS_DIRECTORY) as [Ht|Ht]; [rewrite (decide_True (P := ntype n = _)) by done|by rewrite (decide_False (P := ntype n = _))].
  cbn [negb]. destruct (nops n) eqn:Eo; try done.
  - destruct (vo_ram s Hok a n Hn Eo) as (r & Hr & [Hf|Hd]); [by apply fo_type in Hf; rewrite Ht in Hf|]. rewrite Hr. simpl.
    kbind (ramfs_lookup_lemma s a n r c Hn Hr Hd). rewrite kget_bind.
    destruct (dir_map r !! c) as [x|] eqn:Ex; simpl.
    + assert (x ≠ 0) as Hx0.
      { intros ->. assert (is_Some (vnodes s !! 0)) as Hs; [|rewrite (vo_null s Hok) in Hs; by destruct Hs].
        eapply (binding_ok s a (dir_map r) c 0); [done| |done]. unfold dir_bindings. rewrite Hn. simpl.
        by rewrite decide_True, Eo, Hr. }
      destruct (Z.eqb_spec x 0); [done|]. done.
    + destruct (Z.eqb_spec a (vfs_root s)) as [->|]; [by rewrite decide_True|by rewrite decide_False].
  - cbn [op_lookup]. unfold devfs_dir_lookup. fold dev_entries.
    assert (NoDup dev_entries.*1) as Hnd by (vm_compute; repeat constructor; set_solver).
    pose proof (find_child_map dev_entries c Hnd) as Hf.
    destruct (find_child dev_entries c) as [i|].
    + destruct Hf as (x & Hi & ->). rewrite (kopt_bind _ _ _ x) by (by rewrite Hi). rewrite kget_bind.
      assert (x ≠ 0) as Hx0.
      { intros ->. assert (is_Some (vnodes s !! 0)) as Hs; [|rewrite (vo_null s Hok) in Hs; by destruct Hs].
        pose proof (vo_dev s Hok a n Hn Eo) as Hdev. eapply (proj1 (Forall_forall _ _) Hdev (c, 0)). by eapply list_elem_of_lookup_2. }
      destruct (Z.eqb_spec x 0); [done|]. done.
    + rewrite Hf, mret_bind, kget_bind. simpl.
      destruct (Z.eqb_spec a (vfs_root s)) as [->|]; [by rewrite decide_True|by rewrite decide_False].
Qed.

Lemma path_lookup_0 s l : path_lookup s 0 l = 0.
Proof. unfold path_lookup. by induction l. Qed.

Lemma resolve_loop_spec fuel s a p :
  vfs_ok s → is_Some (vnodes s !! a) → Forall (λ c, Z.of_nat (length c) < VFS_NAME_MAX) (comps p) → (length p < fuel)%nat →
  resolve_loop dev_null_node dev_zero_node dev_tty_node fuel a p s = Done (path_lookup s a (comps p)) s.
Proof.
  intros Hok. revert a p. induction fuel as [|fuel IH]; intros a p Ha Hp Hf; [lia|]. cbn [resolve_loop].
  pose proof (next_component_spec p Hp) as Hn. destruct (path_next_component p VFS_NAME_MAX) as [[c p']|]; [|by rewrite Hn].
  destruct Hn as [Hc Hlt]. rewrite Hc in Hp |- *. apply Forall_cons in Hp as [_ Hp].
  assert (a ≠ 0) as Ha0 by (intros ->; rewrite (vo_null s Hok) in Ha; by destruct Ha).
  kbind (walk_component_spec s a c Hok Ha). unfold path_lookup. cbn [foldl]. rewrite (decide_False (P := a = 0)) by done.
  fold (path_lookup s (child s a c) (comps p')).
  destruct (decide (dir_bindings s a = None)) as [Hnone|Hsome].
  - unfold child. rewrite Hnone. by rewrite path_lookup_0.
  - destruct (Z.eqb_spec (child s a c) 0) as [->|Hc0]; [by rewrite path_lookup_0|].
    apply IH; [|done|lia]. destruct (child_ok s a c Hok); done.
Qed.

(** ** Theorems *)

Lemma vfs_resolve_lemma s p :
  vfs_ok s → head p = Some SLASH → Forall (λ c, Z.of_nat (length c) < VFS_NAME_MAX) (comps p) →
  vfs_resolve (Some p) s = Done (path_lookup s (vfs_root s) (comps p)) s.
Proof.
  intros Hok Hh Hp. unfold vfs_resolve, Vfs.vfs_resolve. rewrite kget_bind, Hh.
  rewrite bool_decide_eq_false_2 by naive_solver. destruct (vo_root s Hok) as [Hr Hr0].
  destruct (Z.eqb_spec (vfs_root s) 0); [done|]. apply resolve_loop_spec; [done|done|done|lia].
Qed.

(** C9. [vfs_resolve] always returns and changes nothing: for an absolute path whose components have at most 255 bytes it gives
    the node found by following the components through the directories from the root, with mounts
    behind the entries of the root, and NULL if there is none. *)
Theorem vfs_resolve_correct s p :
  vfs_ok s → head p = Some SLASH → Forall (λ c, Z.of_nat (length c) < VFS_NAME_MAX) (comps p) →
  vfs_resolve (Some p) s = Done (path_lookup s (vfs_root s) (comps p)) s.
Proof. apply vfs_resolve_lemma. Qed.
End correct.

(** ** Reading back *)

Lemma splice_read l off buf : 0 ≤ off → take (length buf) (drop (Z.to_nat off) (splice l off buf)) = buf.
Proof.
  intros Ho. unfold splice. set (x := take (Z.to_nat off) (l ++ _)). assert (length x = Z.to_nat off) as Hx.
  { unfold x. rewrite length_take, length_app, length_replicate. lia. }
  rewrite <-Hx, drop_app_length, take_app_length. done.
Qed.

Section files.
Context {H : Type} `{KHeap H}.
Context (tty_read : Z → K (Fs H) (Z * list Z)) (tty_write : list Z → K (Fs H) Z).
Implicit Types (s : Fs H).

Lemma vfs_write_read_lemma s a n r flags off buf :
  fs_ok s → vnodes s !! a = Some n → rams s !! a = Some r → nops n = RamfsOps → file_ok n r → a ≠ 0 →
  Z.land flags O_ACCMODE = O_RDWR → Z.land flags O_APPEND = 0 →
  0 ≤ off → off + Z.of_nat (length buf) < 2 ^ 31 → buf ≠ [] →
  let len := Z.of_nat (length buf) in
  let f := mkFile a off flags in
  (∃ s', vfs_write tty_write (Some f) (Some buf) s = Panic s' ∧ kh_full (fheap s')) ∨
  (∃ f' s', vfs_write tty_write (Some f) (Some buf) s = Done (- ENOMEM, f') s' ∧ kh_full (fheap s')) ∨
  (∃ s', vfs_write tty_write (Some f) (Some buf) s = Done (len, Some (mkFile a (off + len) flags)) s' ∧
     vfs_seek (Some (mkFile a (off + len) flags)) off SEEK_SET s' = Done (VFS_OK, Some f) s' ∧
     vfs_read tty_read (Some f) false len s' = Done (len, buf, Some (mkFile a (off + len) flags)) s').
Proof.
  intros Hok Hv Hr Hops Hf Ha Hacc Happ Ho Hb Hne len f. unfold vfs_write. cbn [fnode fflags foffset f].
  destruct (Z.eqb_spec a 0); [done|]. rewrite Hacc. change (O_RDWR =? O_RDONLY) with false. cbv iota.
  rewrite (vnode_bind _ _ n) by done. rewrite Hops. cbn [op_write]. rewrite Happ. change (negb (0 =? 0)) with false. cbv iota zeta.
  rewrite u32_small by lia.
  assert (0 < len) as Hlen by (unfold len; destruct buf; [done|simpl; lia]).
  destruct (ramfs_write_lemma s a n r buf off Hok Hv Hr Hops Hf Ho Hb) as [(s' & E & Hx)|[(h & E & _ & Hx)|(h & r' & E & Hok' & Hf' & Hfb)]].
  - left. exists s'. split; [by apply bind_Panic|done].
  - right. left. kbind E. eauto.
  - right. right. kbind E. fold len. destruct (Z.ltb_spec 0 len); [|lia]. rewrite u64_small by lia.
    set (s' := put_node h a (written n buf off) r' s) in *. exists s'. split; [done|].
    assert (vnodes s' !! a = Some (written n buf off)) as Hv' by (simpl; by rewrite lookup_insert_eq).
    assert (rams s' !! a = Some r') as Hr' by (simpl; by rewrite lookup_insert_eq). split.
    + unfold vfs_seek. cbn [fnode foffset fflags]. destruct (Z.eqb_spec a 0); [done|]. change (SEEK_SET =? SEEK_SET) with true. cbv iota. rewrite mret_bind.
      destruct (Z.ltb_spec off 0); [lia|done].
    + unfold vfs_read. cbn [fnode fflags foffset f]. destruct (Z.eqb_spec a 0); [done|]. cbn [orb].
      rewrite Hacc. change (O_RDWR =? O_WRONLY) with false. cbv iota. rewrite (vnode_bind _ _ (written n buf off)) by done.
      change (nops (written n buf off)) with (nops n). rewrite Hops. cbn [op_read]. rewrite u32_small by lia.
      pose proof (ramfs_read_lemma s' a _ r' off len Hv' Hr' Hf' ltac:(lia) ltac:(lia)) as Hrd. cbv zeta in Hrd.
      rewrite Hfb in Hrd. unfold len at 2 3 in Hrd. rewrite Nat2Z.id, splice_read in Hrd by done. fold len in Hrd. kbind Hrd.
      destruct (Z.ltb_spec 0 len); [|lia]. rewrite u64_small by lia. done.
Qed.

(** What is written through an open file can be read back: [vfs_write] of up to 2^31 bytes to a file in memory, in all, stops the
    machine or returns -ENOMEM, each only when the heap cannot grow, or it returns the number of bytes, and after seeking
    back to where they went, [vfs_read] returns exactly them. *)
Theorem vfs_write_read s a n r flags off buf :
  fs_ok s → vnodes s !! a = Some n → rams s !! a = Some r → nops n = RamfsOps → file_ok n r → a ≠ 0 →
  Z.land flags O_ACCMODE = O_RDWR → Z.land flags O_APPEND = 0 →
  0 ≤ off → off + Z.of_nat (length buf) < 2 ^ 31 → buf ≠ [] →
  let len := Z.of_nat (length buf) in
  let f := mkFile a off flags in
  (∃ s', vfs_write tty_write (Some f) (Some buf) s = Panic s' ∧ kh_full (fheap s')) ∨
  (∃ f' s', vfs_write tty_write (Some f) (Some buf) s = Done (- ENOMEM, f') s' ∧ kh_full (fheap s')) ∨
  (∃ s', vfs_write tty_write (Some f) (Some buf) s = Done (len, Some (mkFile a (off + len) flags)) s' ∧
     vfs_seek (Some (mkFile a (off + len) flags)) off SEEK_SET s' = Done (VFS_OK, Some f) s' ∧
     vfs_read tty_read (Some f) false len s' = Done (len, buf, Some (mkFile a (off + len) flags)) s').
Proof. apply vfs_write_read_lemma. Qed.

(** ** Permissions *)

(** The class of bits that applies, and what they allow. *)
Definition allowed (n : VfsNode) (uid gid want : Z) : Prop :=
  let shift := if decide (uid = nuid n) then 6 else if decide (gid = ngid n) then 3 else 0 in
  uid = 0 ∨ ∀ i, 0 ≤ i < 3 → Z.testbit want i = true → Z.testbit (nmode n) (i + shift) = true.

Lemma land_subset m want k :
  0 ≤ want < 8 → 0 ≤ k →
  (Z.land (Z.land (Z.shiftr m k) 7) want =? want) = true ↔ ∀ i, 0 ≤ i < 3 → Z.testbit want i = true → Z.testbit m (i + k) = true.
Proof.
  intros Hw Hk. rewrite Z.eqb_eq. assert (∀ i, 3 ≤ i → Z.testbit want i = false) as Hhi.
  { intros i Hi. destruct (decide (want = 0)) as [->|]; [by rewrite Z.testbit_0_l|]. apply Z.bits_above_log2; [lia|].
    assert (Z.log2 want < 3); [apply Z.log2_lt_pow2; lia|lia]. }
  assert (∀ i, 0 ≤ i < 3 → Z.testbit 7 i = true) as H7.
  { intros i Hi. assert (i = 0 ∨ i = 1 ∨ i = 2) as [->|[->| ->]] by lia; done. }
  split.
  - intros E i Hi Hwi. rewrite <-E, !Z.land_spec, Z.shiftr_spec in Hwi by lia. apply andb_prop in Hwi as [Hwi _]. by apply andb_prop in Hwi as [? _].
  - intros Hall. apply Z.bits_inj'. intros i Hi. rewrite !Z.land_spec, Z.shiftr_spec by lia.
    destruct (decide (i < 3)); [|rewrite Hhi by lia; by rewrite andb_false_r].
    destruct (Z.testbit want i) eqn:E; [|by rewrite andb_false_r]. rewrite Hall, H7 by (done || lia). done.
Qed.
Lemma vfs_check_perm_spec n uid gid want :
  0 ≤ want < 8 → (vfs_check_perm n uid gid want = 0 ↔ allowed n uid gid want) ∧
    (vfs_check_perm n uid gid want = 0 ∨ vfs_check_perm n uid gid want = - EACCES).
Proof.
  intros Hw. unfold vfs_check_perm, allowed. destruct (Z.eqb_spec uid 0); [naive_solver|].
  assert (∀ k, 0 ≤ k → ((if Z.land (Z.land (Z.shiftr (nmode n) k) 7) want =? want then 0 else - EACCES) = 0 ↔
    uid = 0 ∨ ∀ i, 0 ≤ i < 3 → Z.testbit want i = true → Z.testbit (nmode n) (i + k) = true) ∧
    ((if Z.land (Z.land (Z.shiftr (nmode n) k) 7) want =? want then 0 else - EACCES) = 0 ∨
     (if Z.land (Z.land (Z.shiftr (nmode n) k) 7) want =? want then 0 else - EACCES) = - EACCES)) as Hk.
  { intros k Hk. pose proof (land_subset (nmode n) want k Hw Hk) as Hl.
    destruct (Z.land (Z.land (Z.shiftr (nmode n) k) 7) want =? want); (split; [|eauto]); naive_solver. }
  destruct (Z.eqb_spec uid (nuid n)); [rewrite decide_True by done; by apply Hk|rewrite decide_False by done].
  destruct (Z.eqb_spec gid (ngid n)); [rewrite decide_True by done; by apply Hk|rewrite decide_False by done].
  specialize (Hk 0 ltac:(lia)). by rewrite Z.shiftr_0_r in Hk.
Qed.
End files.

(** ** Witnesses *)

Lemma dir_store_vfs_ok : vfs_ok 1 2 3 dir_store.
Proof.
  split.
  - apply dir_store_ok.
  - split; [by eexists|done].
  - intros a n Hn _. simpl in Hn. apply lookup_singleton_Some in Hn as [<- <-]. eexists. split; [vm_compute; reflexivity|].
    right. apply empty_dir_ok.
  - done.
  - constructor.
  - intros a n Hn. simpl in Hn. by apply lookup_singleton_Some in Hn as [<- <-].
Qed.
Lemma vfs_resolve_correct_witness :
  vfs_resolve 1 2 3 (Some [47; 97; 47; 98]) dir_store =
    Done (path_lookup 1 2 3 dir_store addr1 (comps [47; 97; 47; 98])) dir_store.
Proof.
  apply (vfs_resolve_correct 1 2 3 dir_store [47; 97; 47; 98]); [apply dir_store_vfs_ok|done|].
  vm_compute. repeat constructor.
Defined.

Lemma vfs_write_read_witness :
  let f := mkFile addr1 5 O_RDWR in
  (∃ s', vfs_write (λ _, mret 0) (Some f) (Some [1; 2]) file_store = Panic s' ∧ kh_full (fheap s')) ∨
  (∃ f' s', vfs_write (λ _, mret 0) (Some f) (Some [1; 2]) file_store = Done (- ENOMEM, f') s' ∧ kh_full (fheap s')) ∨
  (∃ s', vfs_write (λ _, mret 0) (Some f) (Some [1; 2]) file_store = Done (2, Some (mkFile addr1 (5 + 2) O_RDWR)) s' ∧
     vfs_seek (Some (mkFile addr1 (5 + 2) O_RDWR)) 5 SEEK_SET s' = Done (VFS_OK, Some f) s' ∧
     vfs_read (λ _, mret (0, [])) (Some f) false 2 s' = Done (2, [1; 2], Some (mkFile addr1 (5 + 2) O_RDWR)) s').
Proof.
  apply (vfs_write_read (λ _, mret (0, [])) (λ _, mret 0) file_store addr1 (mkNode 1 VFS_FILE 0 438 0 0 RamfsOps) (mkRam 0 [] 0 []));
    [apply file_store_ok|vm_compute; reflexivity|vm_compute; reflexivity|done|apply empty_file_ok|done|done|done|done|done|done].
Defined.

(** A component of 256 bytes is cut into two, so the file it names is looked up in a directory of its first 255 bytes. *)
Lemma long_component_is_split :
  path_next_component (SLASH :: replicate 256 97) VFS_NAME_MAX = Some (replicate 255 97, [97]).
Proof. vm_compute. reflexivity. Qed.
