(* ===== verification/Fat32.v ===== *)
(** * The FAT32 file system

    [kernel/fs/fat32.c] and [fat32.h], over a block device ([drivers/blkdev.h]).  Volumes, nodes and their private
    data are keyed by address; a buffer taken from the heap only for the time of a call is an address with its bytes beside
    it.  The table of a volume is the list of its 32-bit entries, and an access outside it is undefined.  Names are lists of
    characters without the terminating zero. *)
From S2P Require Import Prelude KHeap.

(** ** Block devices *)

Definition SECTOR_SIZE : Z := 512.

(** What the file system expects of a device: [bd_read] and [bd_write] give 0 or an error; while the device works,
    they transfer whole sectors and change no other. *)
Class BlockDev (D : Type) : Type := {
  bd_read : Z → Z → K D (Z * list Z);       (* sector, count: error and bytes *)
  bd_write : Z → Z → list Z → K D Z;        (* sector, count, bytes: error *)
  bd_ok : D → Prop;
  bd_capacity : D → Z;
  bd_sector : D → Z → list Z;
  bd_sector_length d i : bd_ok d → 0 ≤ i < bd_capacity d → length (bd_sector d i) = 512%nat;
  bd_read_law d i n : bd_ok d → 0 ≤ i → 0 < n → i + n ≤ bd_capacity d →
    ∃ d', bd_read i n d = Done (0, concat (bd_sector d <$> seqZ i n)) d' ∧ bd_ok d' ∧ bd_capacity d' = bd_capacity d ∧
      ∀ j, bd_sector d' j = bd_sector d j;
  bd_write_law d i n l : bd_ok d → 0 ≤ i → 0 < n → i + n ≤ bd_capacity d → length l = Z.to_nat (512 * n) →
    ∃ d', bd_write i n l d = Done 0 d' ∧ bd_ok d' ∧ bd_capacity d' = bd_capacity d ∧
      ∀ j, bd_sector d' j = if decide (i ≤ j < i + n) then take 512 (drop (Z.to_nat (512 * (j - i))) l) else bd_sector d j;
}.

(** ** Data *)

Definition VFS_OK : Z := 0.
Definition VFS_FILE : Z := 0.
Definition VFS_DIRECTORY : Z := 1.
Definition ENOENT : Z := 2.
Definition EIO : Z := 5.
Definition ENOMEM : Z := 12.
Definition EISDIR : Z := 21.
Definition ENOSPC : Z := 28.
Definition CASE_OFFSET : Z := 32.
Definition NODE_CACHE_SIZE : Z := 256.
Definition FAT32_ATTR_VOLUME_ID : Z := 0x08.
Definition FAT32_ATTR_DIRECTORY : Z := 0x10.
Definition FAT32_ATTR_ARCHIVE : Z := 0x20.
Definition FAT32_ATTR_LFN : Z := 0x0F.
Definition FAT32_FREE : Z := 0.
Definition FAT32_EOC : Z := 0x0FFFFFF8.
Definition FAT32_ENTRY_MASK : Z := 0x0FFFFFFF.
Definition FAT32_BAD_CLUSTER : Z := 0x0FFFFFF7.
Definition FAT32_DIR_FREE : Z := 0xE5.
Definition FAT32_DIR_END : Z := 0.
Definition DIR_WALK_CONTINUE : Z := 0.
Definition DIR_WALK_STOP : Z := 1.
Definition GFP_ZERO : Z := 1.
Definition SIZEOF_DIRENT : Z := 32.
Definition SIZEOF_NODE_INFO : Z := 24.
Definition SIZEOF_VFS_NODE : Z := 56.
Definition SIZEOF_VOLUME : Z := 56.

(** The fields of the boot sector that are read. *)
Record Fat32Bpb : Type := mkBpb {
  bytes_per_sector : Z; bpb_sectors_per_cluster : Z; reserved_sectors : Z; num_fats : Z; root_entry_count : Z;
  total_sectors_32 : Z; fat_size_32 : Z; bpb_root_cluster : Z
}.
Record Fat32DirEntry : Type := mkDirent {
  de_name : list Z; attr : Z; nt_reserved : Z; create_time_tenths : Z; create_time : Z; create_date : Z; access_date : Z;
  first_cluster_hi : Z; modify_time : Z; modify_date : Z; first_cluster_lo : Z; file_size : Z
}.
(** [fat_ptr] is the address of the cached table and [fat] its entries; there is one device. *)
Record Fat32Volume : Type := mkVol {
  sectors_per_cluster : Z; bytes_per_cluster : Z; fat_start : Z; data_start : Z; root_cluster : Z; total_clusters : Z;
  fat_ptr : Z; fat : list Z; fat_sectors : Z; fat_dirty : Z; root_node : Z
}.
Record Fat32NodeInfo : Type := mkInfo { vol : Z; first_cluster : Z; dir_cluster : Z; dir_entry_idx : Z }.
Inductive FatOps : Type := fat32_file_ops | fat32_dir_ops.
Record VfsNode : Type := mkNode {
  inode_num : Z; type : Z; size : Z; mode : Z; uid : Z; gid : Z; ops : FatOps; private_data : Z
}.
Record VfsDirEntry : Type := mkVDirent { vd_name : list Z; vd_inode : Z; vd_type : Z }.

Record Fat (H D : Type) : Type := mkFat {
  fheap : H; dev : D;
  vols : gmap Z Fat32Volume; nodes : gmap Z VfsNode; infos : gmap Z Fat32NodeInfo;
  node_cache : list (Z * Z); next_fat_inode : Z
}.
Arguments mkFat {H D}.
Arguments fheap {H D}.
Arguments dev {H D}.
Arguments vols {H D}.
Arguments nodes {H D}.
Arguments infos {H D}.
Arguments node_cache {H D}.
Arguments next_fat_inode {H D}.

(** *** Layouts *)

Definition byte_at (l : list Z) (off : Z) : Z := default 0 (zget l off).
Definition num_at (l : list Z) (off n : Z) : Z := le_val (take (Z.to_nat n) (drop (Z.to_nat off) l)).

Definition bpb_of (l : list Z) : Fat32Bpb :=
  mkBpb (num_at l 11 2) (num_at l 13 1) (num_at l 14 2) (num_at l 16 1) (num_at l 17 2) (num_at l 32 4) (num_at l 36 4) (num_at l 44 4).
(** The entry in 32 bytes, and back; [None] when there are fewer bytes. *)
Definition dirent_of (l : list Z) : option Fat32DirEntry :=
  if (length l =? 32)%nat then
    Some (mkDirent (take 11 l) (num_at l 11 1) (num_at l 12 1) (num_at l 13 1) (num_at l 14 2) (num_at l 16 2) (num_at l 18 2)
      (num_at l 20 2) (num_at l 22 2) (num_at l 24 2) (num_at l 26 2) (num_at l 28 4))
  else None.
Definition dirent_bytes (e : Fat32DirEntry) : list Z :=
  de_name e ++ le_bytes 1 (attr e) ++ le_bytes 1 (nt_reserved e) ++ le_bytes 1 (create_time_tenths e) ++
  le_bytes 2 (create_time e) ++ le_bytes 2 (create_date e) ++ le_bytes 2 (access_date e) ++ le_bytes 2 (first_cluster_hi e) ++
  le_bytes 2 (modify_time e) ++ le_bytes 2 (modify_date e) ++ le_bytes 2 (first_cluster_lo e) ++ le_bytes 4 (file_size e).

Definition fat32_entry_cluster (e : Fat32DirEntry) : Z := Z.lor (u32 (Z.shiftl (first_cluster_hi e) 16)) (first_cluster_lo e).
Definition fat32_set_entry_cluster (cluster : Z) (e : Fat32DirEntry) : Fat32DirEntry :=
  mkDirent (de_name e) (attr e) (nt_reserved e) (create_time_tenths e) (create_time e) (create_date e) (access_date e)
    (Z.land (Z.shiftr cluster 16) 0xFFFF) (modify_time e) (modify_date e) (Z.land cluster 0xFFFF) (file_size e).
Definition set_file_size (n : Z) (e : Fat32DirEntry) : Fat32DirEntry :=
  mkDirent (de_name e) (attr e) (nt_reserved e) (create_time_tenths e) (create_time e) (create_date e) (access_date e)
    (first_cluster_hi e) (modify_time e) (modify_date e) (first_cluster_lo e) n.
Definition set_name0 (c : Z) (e : Fat32DirEntry) : Fat32DirEntry :=
  mkDirent (c :: drop 1 (de_name e)) (attr e) (nt_reserved e) (create_time_tenths e) (create_time e) (create_date e) (access_date e)
    (first_cluster_hi e) (modify_time e) (modify_date e) (first_cluster_lo e) (file_size e).
Definition zero_dirent : Fat32DirEntry := mkDirent (replicate 11 0) 0 0 0 0 0 0 0 0 0 0 0.
Definition named_dirent (name : list Z) (a cluster : Z) : Fat32DirEntry :=
  fat32_set_entry_cluster cluster (mkDirent name a 0 0 0 0 0 0 0 0 0 0).

(** ** 8.3 names *)

Definition lower (c : Z) : Z := if (65 <=? c) && (c <=? 90) then c + CASE_OFFSET else c.
Definition upper (c : Z) : Z := if (97 <=? c) && (c <=? 122) then c - CASE_OFFSET else c.
(** The length without the spaces at the end. *)
Fixpoint trim_len (n : nat) (l : list Z) : nat :=
  match n with
  | O => O
  | S n' => if bool_decide (l !! n' = Some 32) then trim_len n' l else n
  end.
Definition fat32_name_to_str (e : Fat32DirEntry) : list Z :=
  let base_len := trim_len 8 (de_name e) in
  let ext := drop 8 (de_name e) in
  let ext_len := trim_len 3 ext in
  (lower <$> take base_len (de_name e)) ++ (if (0 <? ext_len)%nat then 46 :: (lower <$> take ext_len ext) else []).

(** The characters before the first dot, and those after it if there is one. *)
Fixpoint split_dot (l : list Z) : list Z * option (list Z) :=
  match l with
  | [] => ([], None)
  | c :: l' => if c =? 46 then ([], Some l') else let r := split_dot l' in (c :: r.1, r.2)
  end.
Definition pad (n : nat) (l : list Z) : list Z := l ++ replicate (n - length l) 32.
(** [None] when the name does not fit. *)
Definition fat32_str_to_name (str : list Z) : option (list Z) :=
  let '(base, dot) := split_dot str in
  let ext := default [] dot in
  if (length base =? 0)%nat || (8 <? length base)%nat || (3 <? length ext)%nat then None
  else Some (pad 8 (upper <$> base) ++ pad 3 (upper <$> ext)).

(** The comparison without regard to case, of strings that end at the first zero. *)
Fixpoint ci_match (a b : list Z) : bool :=
  match a, b with
  | ca :: a', cb :: b' =>
      if (ca =? 0) || (cb =? 0) then (ca =? 0) && (cb =? 0) else if negb (lower ca =? lower cb) then false else ci_match a' b'
  | [], [] => true
  | c :: _, [] | [], c :: _ => c =? 0
  end.
Definition fat32_name_match (e : Fat32DirEntry) (name : list Z) : bool :=
  match fat32_str_to_name name with
  | None => ci_match (fat32_name_to_str e) name
  | Some fat_name => bool_decide (de_name e = fat_name)
  end.

(** -1 at the end of the directory, 1 for an entry to skip, 0 for a file or directory. *)
Definition fat32_entry_filter (e : Fat32DirEntry) : Z :=
  if byte_at (de_name e) 0 =? FAT32_DIR_END then -1 else
  if byte_at (de_name e) 0 =? FAT32_DIR_FREE then 1 else
  if attr e =? FAT32_ATTR_LFN then 1 else
  if negb (Z.land (attr e) FAT32_ATTR_VOLUME_ID =? 0) then 1 else 0.

Section fat32.
Context {H D : Type} `{KHeap H} `{BlockDev D}.
Implicit Types (s : Fat H D).

Definition with_heap (h : H) s : Fat H D := mkFat h (dev s) (vols s) (nodes s) (infos s) (node_cache s) (next_fat_inode s).
Definition with_dev (d : D) s : Fat H D := mkFat (fheap s) d (vols s) (nodes s) (infos s) (node_cache s) (next_fat_inode s).
Definition with_vols (m : gmap Z Fat32Volume) s : Fat H D := mkFat (fheap s) (dev s) m (nodes s) (infos s) (node_cache s) (next_fat_inode s).
Definition with_nodes (m : gmap Z VfsNode) s : Fat H D := mkFat (fheap s) (dev s) (vols s) m (infos s) (node_cache s) (next_fat_inode s).
Definition with_infos (m : gmap Z Fat32NodeInfo) s : Fat H D := mkFat (fheap s) (dev s) (vols s) (nodes s) m (node_cache s) (next_fat_inode s).
Definition with_cache (l : list (Z * Z)) s : Fat H D := mkFat (fheap s) (dev s) (vols s) (nodes s) (infos s) l (next_fat_inode s).
Definition with_inode (n : Z) s : Fat H D := mkFat (fheap s) (dev s) (vols s) (nodes s) (infos s) (node_cache s) n.

Definition f_alloc (sz flags : Z) : K (Fat H D) Z := zoom fheap with_heap (kh_alloc sz flags).
Definition f_free (a : Z) : K (Fat H D) unit := zoom fheap with_heap (kh_free a).
Definition dev_read (sector count : Z) : K (Fat H D) (Z * list Z) := zoom dev with_dev (bd_read sector count).
Definition dev_write (sector count : Z) (l : list Z) : K (Fat H D) Z := zoom dev with_dev (bd_write sector count l).
Definition volume (v : Z) : K (Fat H D) Fat32Volume := kopt (λ s, vols s !! v).
Definition node_at (a : Z) : K (Fat H D) VfsNode := kopt (λ s, nodes s !! a).
Definition to_fat32 (a : Z) : K (Fat H D) Fat32NodeInfo := n ← node_at a; kopt (λ s, infos s !! private_data n).
Definition upd_vol (v : Z) (f : Fat32Volume → Fat32Volume) : K (Fat H D) unit :=
  kupd (λ s, x ← vols s !! v; Some (with_vols (<[v := f x]> (vols s)) s)).
Definition upd_node (a : Z) (f : VfsNode → VfsNode) : K (Fat H D) unit :=
  kupd (λ s, x ← nodes s !! a; Some (with_nodes (<[a := f x]> (nodes s)) s)).
Definition upd_info (a : Z) (f : Fat32NodeInfo → Fat32NodeInfo) : K (Fat H D) unit :=
  kupd (λ s, n ← nodes s !! a; x ← infos s !! private_data n; Some (with_infos (<[private_data n := f x]> (infos s)) s)).

Definition set_size (z : Z) (n : VfsNode) : VfsNode :=
  mkNode (inode_num n) (type n) z (mode n) (uid n) (gid n) (ops n) (private_data n).
Definition set_first_cluster (c : Z) (i : Fat32NodeInfo) : Fat32NodeInfo := mkInfo (vol i) c (dir_cluster i) (dir_entry_idx i).
Definition set_fat (l : list Z) (d : Z) (x : Fat32Volume) : Fat32Volume :=
  mkVol (sectors_per_cluster x) (bytes_per_cluster x) (fat_start x) (data_start x) (root_cluster x) (total_clusters x)
    (fat_ptr x) l (fat_sectors x) d (root_node x).
Definition set_root_node (a : Z) (x : Fat32Volume) : Fat32Volume :=
  mkVol (sectors_per_cluster x) (bytes_per_cluster x) (fat_start x) (data_start x) (root_cluster x) (total_clusters x)
    (fat_ptr x) (fat x) (fat_sectors x) (fat_dirty x) a.

(** ** Node cache *)

Definition cache_find (cluster : Z) (l : list (Z * Z)) : Z :=
  match list_find (λ p, p.1 = cluster) l with Some (_, p) => p.2 | None => 0 end.
Definition cache_lookup (cluster : Z) : K (Fat H D) Z := kget (λ s, cache_find cluster (node_cache s)).
Definition cache_insert (cluster node : Z) : K (Fat H D) unit :=
  kmod (λ s, if Z.of_nat (length (node_cache s)) <? NODE_CACHE_SIZE then with_cache (node_cache s ++ [(cluster, node)]) s else s).

(** ** Clusters *)

Definition cluster_to_sector (x : Fat32Volume) (cluster : Z) : Z :=
  u32 (data_start x + u32 (u32 (cluster - 2) * sectors_per_cluster x)).
(** The value that follows from an entry of the table: the next cluster or 0. *)
Definition entry_next (e : Z) : Z :=
  let entry := Z.land e FAT32_ENTRY_MASK in
  if FAT32_EOC <=? entry then 0 else if entry =? FAT32_BAD_CLUSTER then 0 else entry.
(** The new entry keeps the four reserved bits. *)
Definition entry_set (e n : Z) : Z := Z.lor (Z.land e (u32 (Z.lnot FAT32_ENTRY_MASK))) n.
Definition fat_get (v i : Z) : K (Fat H D) Z := kopt (λ s, x ← vols s !! v; zget (fat x) i).
Definition fat_put (v i n : Z) : K (Fat H D) unit :=
  kupd (λ s, x ← vols s !! v; e ← zget (fat x) i; l ← zset (fat x) i (entry_set e n);
    Some (with_vols (<[v := set_fat l 1 x]> (vols s)) s)).

Definition fat32_next_cluster (v cluster : Z) : K (Fat H D) Z := e ← fat_get v cluster; mret (entry_next e).
Definition fat32_read_cluster (v cluster : Z) : K (Fat H D) (Z * list Z) :=
  x ← volume v; dev_read (cluster_to_sector x cluster) (sectors_per_cluster x).
Definition fat32_write_cluster (v cluster : Z) (buf : list Z) : K (Fat H D) Z :=
  x ← volume v; dev_write (cluster_to_sector x cluster) (sectors_per_cluster x) buf.

Fixpoint alloc_loop (l : list Z) (v : Z) : K (Fat H D) Z :=
  match l with
  | [] => mret 0
  | i :: l' =>
      e ← fat_get v i;
      if Z.land e FAT32_ENTRY_MASK =? FAT32_FREE
      then fat_put v i (Z.land FAT32_EOC FAT32_ENTRY_MASK);; mret i
      else alloc_loop l' v
  end.
Definition fat32_alloc_cluster (v : Z) : K (Fat H D) Z :=
  x ← volume v; alloc_loop (seqZ 2 (u32 (total_clusters x + 2) - 2)) v.

(** The number of entries bounds the length of a chain without a cycle. *)
Definition chain_fuel (x : Fat32Volume) : nat := S (length (fat x)).
Fixpoint free_chain_loop (fuel : nat) (v cluster : Z) : K (Fat H D) unit :=
  match fuel with
  | O => kstuck
  | S fuel' =>
      x ← volume v;
      if negb (cluster =? 0) && (cluster <? u32 (total_clusters x + 2)) then
        next ← fat32_next_cluster v cluster;
        fat_put v cluster FAT32_FREE;;
        free_chain_loop fuel' v next
      else mret tt
  end.
Definition fat32_free_chain (v cluster : Z) : K (Fat H D) unit := x ← volume v; free_chain_loop (chain_fuel x) v cluster.

Definition fat32_extend_chain (v last : Z) : K (Fat H D) Z :=
  new_cluster ← fat32_alloc_cluster v;
  if new_cluster =? 0 then mret 0 else
  (if negb (last =? 0) then fat_put v last (Z.land new_cluster FAT32_ENTRY_MASK) else mret tt);;
  mret new_cluster.

(** ** Nodes *)

Definition fat32_alloc_node (v ty first dir_c idx : Z) : K (Fat H D) Z :=
  cached ← (if negb (first =? 0) then cache_lookup first else mret 0);
  if negb (cached =? 0) then mret cached else
  info ← f_alloc SIZEOF_NODE_INFO GFP_ZERO;
  if info =? 0 then mret 0 else
  node ← f_alloc SIZEOF_VFS_NODE GFP_ZERO;
  if node =? 0 then f_free info;; mret 0 else
  ino ← kget next_fat_inode;
  kmod (with_inode (u64 (ino + 1)));;
  kmod (λ s, with_infos (<[info := mkInfo v first dir_c idx]> (infos s)) s);;
  kmod (λ s, with_nodes (<[node := mkNode ino ty 0 (if ty =? VFS_DIRECTORY then 493 else 420) 0 0
    (if ty =? VFS_DIRECTORY then fat32_dir_ops else fat32_file_ops) info]> (nodes s)) s);;
  (if negb (first =? 0) then cache_insert first node else mret tt);;
  mret node.

(** ** Reading and writing a chain *)

(** Enough rounds to reach the offset, or the end of a chain that has one. *)
Definition skip_fuel (x : Fat32Volume) (offset : Z) : nat := (Z.to_nat (offset / bytes_per_cluster x) + S (length (fat x)))%nat.
Fixpoint skip_loop (fuel : nat) (v bpc cluster cluster_offset offset : Z) : K (Fat H D) (Z * Z) :=
  if negb (cluster =? 0) && (u32 (cluster_offset + bpc) <=? offset) then
    match fuel with
    | O => kstuck
    | S fuel' => next ← fat32_next_cluster v cluster; skip_loop fuel' v bpc next (u32 (cluster_offset + bpc)) offset
    end
  else mret (cluster, cluster_offset).

Definition in_cluster_off (cluster_offset offset : Z) : Z := if cluster_offset <? offset then u32 (offset - cluster_offset) else 0.
Definition copy_size (bpc in_off size done : Z) : Z :=
  let avail := u32 (bpc - in_off) in let to_copy := u32 (size - done) in if avail <? to_copy then avail else to_copy.

Definition copy_fuel (x : Fat32Volume) (size : Z) : nat := (Z.to_nat size + length (fat x))%nat.
(** [true] on an error of the device; the bytes read so far. *)
Fixpoint read_loop (fuel : nat) (v bpc cluster cluster_offset offset size : Z) (acc : list Z) : K (Fat H D) (bool * list Z) :=
  let bytes_read := Z.of_nat (length acc) in
  if negb (cluster =? 0) && (bytes_read <? size) then
    match fuel with
    | O => kstuck
    | S fuel' =>
        r ← fat32_read_cluster v cluster;
        if negb (r.1 =? 0) then mret (true, acc) else
        let in_off := in_cluster_off cluster_offset offset in
        l ← kopt (λ _, part r.2 in_off (copy_size bpc in_off size bytes_read));
        next ← fat32_next_cluster v cluster;
        read_loop fuel' v bpc next (u32 (cluster_offset + bpc)) offset size (acc ++ l)
    end
  else mret (false, acc).

Definition fat32_read_chain (v start_cluster offset size : Z) : K (Fat H D) (Z * list Z) :=
  if start_cluster =? 0 then mret (0, []) else
  x ← volume v;
  let bpc := bytes_per_cluster x in
  cluster_buf ← f_alloc bpc 0;
  if cluster_buf =? 0 then mret (- ENOMEM, []) else
  p ← skip_loop (skip_fuel x offset) v bpc start_cluster 0 offset;
  r ← read_loop (copy_fuel x size) v bpc p.1 p.2 offset size [];
  f_free cluster_buf;;
  mret (if r.1 : bool then - EIO else i32 (Z.of_nat (length r.2)), r.2).

Definition fat32_init_cluster (v cluster : Z) : K (Fat H D) Z :=
  x ← volume v;
  rc ← fat32_write_cluster v cluster (replicate (Z.to_nat (bytes_per_cluster x)) 0);
  mret (if negb (rc =? 0) then - EIO else 0).

(** [None] when the disk is full; else the cluster, the one before it and the offset. *)
Fixpoint extend_loop (fuel : nat) (v bpc cluster prev cluster_offset offset : Z) : K (Fat H D) (option (Z * Z * Z)) :=
  if negb (cluster =? 0) && (u32 (cluster_offset + bpc) <=? offset) then
    match fuel with
    | O => kstuck
    | S fuel' =>
        next ← fat32_next_cluster v cluster;
        let off' := u32 (cluster_offset + bpc) in
        if (next =? 0) && (u32 (off' + bpc) <=? offset) then
          c ← fat32_extend_chain v cluster;
          if c =? 0 then mret None else
          fat32_init_cluster v c;;
          extend_loop fuel' v bpc c cluster off' offset
        else extend_loop fuel' v bpc next cluster off' offset
    end
  else mret (Some (cluster, prev, cluster_offset)).

(** 0, or the error. *)
Fixpoint write_loop (fuel : nat) (v bpc cluster cluster_offset offset : Z) (buf : list Z) (bytes_written : Z) : K (Fat H D) (Z * Z) :=
  let size := Z.of_nat (length buf) in
  if negb (cluster =? 0) && (bytes_written <? size) then
    match fuel with
    | O => kstuck
    | S fuel' =>
        r ← fat32_read_cluster v cluster;
        if negb (r.1 =? 0) then mret (- EIO, bytes_written) else
        let in_off := in_cluster_off cluster_offset offset in
        let to_copy := copy_size bpc in_off size bytes_written in
        src ← kopt (λ _, part buf bytes_written to_copy);
        cluster_buf ← kopt (λ _, patch r.2 in_off src);
        rc ← fat32_write_cluster v cluster cluster_buf;
        if negb (rc =? 0) then mret (- EIO, bytes_written) else
        let written := u32 (bytes_written + to_copy) in
        next ← fat32_next_cluster v cluster;
        if (next =? 0) && (written <? size) then
          c ← fat32_extend_chain v cluster;
          if c =? 0 then mret (- ENOSPC, written) else
          fat32_init_cluster v c;;
          write_loop fuel' v bpc c (u32 (cluster_offset + bpc)) offset buf written
        else write_loop fuel' v bpc next (u32 (cluster_offset + bpc)) offset buf written
    end
  else mret (0, bytes_written).

(** The result, and the first cluster after the call. *)
Definition fat32_write_chain (v first offset : Z) (buf : list Z) : K (Fat H D) (Z * Z) :=
  x ← volume v;
  let bpc := bytes_per_cluster x in
  cluster_buf ← f_alloc bpc 0;
  if cluster_buf =? 0 then mret (- ENOMEM, first) else
  c0 ← (if first =? 0 then c ← fat32_alloc_cluster v; if c =? 0 then mret 0 else fat32_init_cluster v c;; mret c else mret first);
  if c0 =? 0 then f_free cluster_buf;; mret (- ENOSPC, first) else
  p ← extend_loop (skip_fuel x offset) v bpc c0 0 0 offset;
  match p with
  | None => f_free cluster_buf;; mret (- ENOSPC, c0)
  | Some (cluster, prev, cluster_offset) =>
      c ← (if cluster =? 0 then c ← fat32_extend_chain v prev; if c =? 0 then mret 0 else fat32_init_cluster v c;; mret c else mret cluster);
      if c =? 0 then f_free cluster_buf;; mret (- ENOSPC, c0) else
      r ← write_loop (copy_fuel x (Z.of_nat (length buf))) v bpc c cluster_offset offset buf 0;
      f_free cluster_buf;;
      mret (if negb (r.1 =? 0) then r.1 else i32 r.2, c0)
  end.

(** ** Directories *)

Definition fat32_read_dir_entry (v dir_c idx : Z) : K (Fat H D) (Z * list Z) :=
  fat32_read_chain v dir_c (u32 (idx * SIZEOF_DIRENT)) SIZEOF_DIRENT.
Definition fat32_write_dir_entry (v dir_c idx : Z) (e : Fat32DirEntry) : K (Fat H D) Z :=
  r ← fat32_write_chain v dir_c (u32 (idx * SIZEOF_DIRENT)) (dirent_bytes e); mret r.1.

(** The visitor gets the entry, its index and its context, and gives its verdict and the new context. *)
Definition Visitor (C : Type) : Type := Fat32DirEntry → Z → C → K (Fat H D) (Z * C).

Fixpoint visit_entries {C} (n : nat) (buf : list Z) (idx : Z) (visitor : Visitor C) (ctx : C) : K (Fat H D) (Z * C) :=
  match n with
  | O => mret (DIR_WALK_CONTINUE, ctx)
  | S n' =>
      e ← kopt (λ _, dirent_of (take 32 buf));
      r ← visitor e idx ctx;
      if negb (r.1 =? DIR_WALK_CONTINUE) then mret r else visit_entries n' (drop 32 buf) (u32 (idx + 1)) visitor r.2
  end.
Fixpoint walk_loop {C} (fuel : nat) (v cluster base_idx : Z) (visitor : Visitor C) (ctx : C) : K (Fat H D) (Z * C) :=
  if cluster =? 0 then mret (0, ctx) else
  match fuel with
  | O => kstuck
  | S fuel' =>
      x ← volume v;
      let epc := bytes_per_cluster x / SIZEOF_DIRENT in
      buf ← f_alloc (bytes_per_cluster x) 0;
      if buf =? 0 then mret (- ENOMEM, ctx) else
      r ← fat32_read_cluster v cluster;
      if negb (r.1 =? 0) then f_free buf;; mret (- EIO, ctx) else
      o ← visit_entries (Z.to_nat epc) r.2 base_idx visitor ctx;
      f_free buf;;
      if negb (o.1 =? DIR_WALK_CONTINUE) then mret o else
      next ← fat32_next_cluster v cluster;
      walk_loop fuel' v next (u32 (base_idx + epc)) visitor o.2
  end.
Definition fat32_walk_dir {C} (v dir_c : Z) (visitor : Visitor C) (ctx : C) : K (Fat H D) (Z * C) :=
  x ← volume v; walk_loop (chain_fuel x) v dir_c 0 visitor ctx.

(** The context is the slot. *)
Definition free_slot_visitor : Visitor Z := λ e idx ctx,
  if (byte_at (de_name e) 0 =? FAT32_DIR_END) || (byte_at (de_name e) 0 =? FAT32_DIR_FREE)
  then mret (DIR_WALK_STOP, i32 idx) else mret (DIR_WALK_CONTINUE, ctx).

(** The last cluster of the chain and the number of clusters. *)
Fixpoint last_loop (fuel : nat) (v cluster prev count : Z) : K (Fat H D) (Z * Z) :=
  if cluster =? 0 then mret (prev, count) else
  match fuel with
  | O => kstuck
  | S fuel' => next ← fat32_next_cluster v cluster; last_loop fuel' v next cluster (u32 (count + 1))
  end.
Definition fat32_find_free_dir_slot (v dir_c : Z) : K (Fat H D) Z :=
  r ← fat32_walk_dir v dir_c free_slot_visitor (-1);
  if r.1 =? DIR_WALK_STOP then mret r.2 else
  if r.1 <? 0 then mret (-1) else
  x ← volume v;
  let epc := bytes_per_cluster x / SIZEOF_DIRENT in
  p ← last_loop (chain_fuel x) v dir_c 0 0;
  cluster ← fat32_extend_chain v p.1;
  if cluster =? 0 then mret (-1) else
  zero_buf ← f_alloc (bytes_per_cluster x) GFP_ZERO;
  if zero_buf =? 0 then mret (-1) else
  fat32_write_cluster v cluster (replicate (Z.to_nat (bytes_per_cluster x)) 0);;
  f_free zero_buf;;
  mret (i32 (u32 (p.2 * epc))).

(** ** Synchronisation *)

(** The bytes of the table. *)
Definition fat_bytes (l : list Z) : list Z := concat (le_bytes 4 <$> l).
(** The sectors from number [i]; [false] on an error of the device. *)
Fixpoint sync_loop (l : list Z) (x : Fat32Volume) : K (Fat H D) bool :=
  match l with
  | [] => mret true
  | i :: l' =>
      sector_buf ← kopt (λ _, part (fat_bytes (fat x)) (u32 (i * SECTOR_SIZE)) SECTOR_SIZE);
      rc ← dev_write (u32 (fat_start x + i)) 1 sector_buf;
      if negb (rc =? 0) then mret false else sync_loop l' x
  end.
Definition fat32_sync : K (Fat H D) Z :=
  c ← kget node_cache;
  match c with
  | [] => mret (-1)
  | (_, n) :: _ =>
      info ← to_fat32 n;
      x ← volume (vol info);
      if fat_dirty x =? 0 then mret 0 else
      ok ← sync_loop (seqZ 0 (fat_sectors x)) x;
      if negb ok then mret (- EIO) else
      upd_vol (vol info) (λ x, set_fat (fat x) 0 x);; mret 0
  end.

(** ** Operations of files *)

Definition fat32_read (node offset sz : Z) : K (Fat H D) (Z * list Z) :=
  info ← to_fat32 node;
  n ← node_at node;
  if type n =? VFS_FILE then
    if size n <=? offset then mret (0, []) else
    let avail := u32 (size n - offset) in
    fat32_read_chain (vol info) (first_cluster info) offset (if avail <? sz then avail else sz)
  else fat32_read_chain (vol info) (first_cluster info) offset sz.

(** The directory entry of the node gets its size and first cluster. *)
Definition update_dir_entry (node : Z) : K (Fat H D) unit :=
  info ← to_fat32 node;
  n ← node_at node;
  r ← fat32_read_dir_entry (vol info) (dir_cluster info) (dir_entry_idx info);
  if 0 <? r.1 then
    e ← kopt (λ _, dirent_of r.2);
    fat32_write_dir_entry (vol info) (dir_cluster info) (dir_entry_idx info)
      (fat32_set_entry_cluster (first_cluster info) (set_file_size (u32 (size n)) e));; mret tt
  else mret tt.

Definition fat32_write (node : Z) (buf : list Z) (offset : Z) : K (Fat H D) Z :=
  info ← to_fat32 node;
  n ← node_at node;
  if negb (type n =? VFS_FILE) then mret (- EISDIR) else
  r ← fat32_write_chain (vol info) (first_cluster info) offset buf;
  upd_info node (set_first_cluster r.2);;
  if r.1 <=? 0 then mret r.1 else
  let end_ := u32 (offset + u32 r.1) in
  (if size n <? end_ then upd_node node (set_size end_) else mret tt);;
  update_dir_entry node;;
  fat32_sync;;
  mret r.1.

(** The cluster after [i] more steps, or 0. *)
Fixpoint nth_cluster (l : list Z) (v cluster : Z) : K (Fat H D) Z :=
  match l with
  | [] => mret cluster
  | _ :: l' => if cluster =? 0 then mret cluster else next ← fat32_next_cluster v cluster; nth_cluster l' v next
  end.
Definition fat32_truncate (node sz : Z) : K (Fat H D) unit :=
  info ← to_fat32 node;
  n ← node_at node;
  if negb (type n =? VFS_FILE) then mret tt else
  (if sz =? 0 then
     (if negb (first_cluster info =? 0) then fat32_free_chain (vol info) (first_cluster info);; upd_info node (set_first_cluster 0) else mret tt);;
     upd_node node (set_size 0)
   else if sz <? size n then
     x ← volume (vol info);
     let bpc := bytes_per_cluster x in
     let keep_clusters := u32 (u32 (u32 sz + bpc) - 1) / bpc in
     cluster ← nth_cluster (seqZ 1 (keep_clusters - 1)) (vol info) (first_cluster info);
     (if negb (cluster =? 0) then
        next ← fat32_next_cluster (vol info) cluster;
        fat_put (vol info) cluster (Z.land FAT32_EOC FAT32_ENTRY_MASK);;
        if negb (next =? 0) then fat32_free_chain (vol info) next else mret tt
      else mret tt);;
     upd_node node (set_size sz)
   else mret tt);;
  update_dir_entry node;;
  fat32_sync;;
  mret tt.

(** ** Operations of directories *)

(** The context is the node found. *)
Definition lookup_visitor (name : list Z) (v dir_c : Z) : Visitor Z := λ e idx ctx,
  let f := fat32_entry_filter e in
  if f <? 0 then mret (DIR_WALK_STOP, ctx) else
  if 0 <? f then mret (DIR_WALK_CONTINUE, ctx) else
  if (byte_at (de_name e) 0 =? 46) && (byte_at (de_name e) 1 =? 32) then mret (DIR_WALK_CONTINUE, ctx) else
  if (byte_at (de_name e) 0 =? 46) && (byte_at (de_name e) 1 =? 46) && (byte_at (de_name e) 2 =? 32)
  then mret (DIR_WALK_CONTINUE, ctx) else
  if fat32_name_match e name then
    let ty := if negb (Z.land (attr e) FAT32_ATTR_DIRECTORY =? 0) then VFS_DIRECTORY else VFS_FILE in
    n ← fat32_alloc_node v ty (fat32_entry_cluster e) dir_c idx;
    (if negb (n =? 0) then upd_node n (set_size (file_size e)) else mret tt);;
    mret (DIR_WALK_STOP, n)
  else mret (DIR_WALK_CONTINUE, ctx).
Definition fat32_lookup (dir : Z) (name : list Z) : K (Fat H D) Z :=
  info ← to_fat32 dir;
  r ← fat32_walk_dir (vol info) (first_cluster info) (lookup_visitor name (vol info) (first_cluster info)) 0;
  mret r.2.

Definition dot_name : list Z := 46 :: replicate 10 32.
Definition dotdot_name : list Z := 46 :: 46 :: replicate 9 32.
(** The new cluster of a directory, with its first two entries; [None] on an error. *)
Definition new_dir_cluster (v parent : Z) : K (Fat H D) (option Z) :=
  c ← fat32_alloc_cluster v;
  if c =? 0 then mret None else
  x ← volume v;
  cbuf ← f_alloc (bytes_per_cluster x) GFP_ZERO;
  if cbuf =? 0 then mret None else
  l ← kopt (λ _, patch (replicate (Z.to_nat (bytes_per_cluster x)) 0) 0
    (dirent_bytes (named_dirent dot_name FAT32_ATTR_DIRECTORY c) ++ dirent_bytes (named_dirent dotdot_name FAT32_ATTR_DIRECTORY parent)));
  fat32_write_cluster v c l;;
  f_free cbuf;;
  mret (Some c).
Definition fat32_create (dir : Z) (name : list Z) (ty : Z) : K (Fat H D) Z :=
  info ← to_fat32 dir;
  let v := vol info in
  old ← fat32_lookup dir name;
  if negb (old =? 0) then mret 0 else
  match fat32_str_to_name name with
  | None => mret 0
  | Some fat_name =>
      c ← (if ty =? VFS_DIRECTORY then new_dir_cluster v (first_cluster info) else mret (Some 0));
      match c with
      | None => mret 0
      | Some new_cluster =>
          slot ← fat32_find_free_dir_slot v (first_cluster info);
          if slot <? 0 then mret 0 else
          fat32_write_dir_entry v (first_cluster info) (u32 slot)
            (named_dirent fat_name (if ty =? VFS_DIRECTORY then FAT32_ATTR_DIRECTORY else FAT32_ATTR_ARCHIVE) new_cluster);;
          fat32_sync;;
          fat32_alloc_node v ty new_cluster (first_cluster info) (u32 slot)
      end
  end.

(** The context is the result. *)
Definition unlink_visitor (name : list Z) (v dir_c : Z) : Visitor Z := λ e idx ctx,
  let f := fat32_entry_filter e in
  if f <? 0 then mret (DIR_WALK_STOP, ctx) else
  if 0 <? f then mret (DIR_WALK_CONTINUE, ctx) else
  if fat32_name_match e name then
    let fc := fat32_entry_cluster e in
    (if negb (fc =? 0) then fat32_free_chain v fc else mret tt);;
    fat32_write_dir_entry v dir_c idx (set_name0 FAT32_DIR_FREE e);;
    fat32_sync;;
    mret (DIR_WALK_STOP, VFS_OK)
  else mret (DIR_WALK_CONTINUE, ctx).
Definition fat32_unlink (dir : Z) (name : list Z) : K (Fat H D) Z :=
  info ← to_fat32 dir;
  r ← fat32_walk_dir (vol info) (first_cluster info) (unlink_visitor name (vol info) (first_cluster info)) (- ENOENT);
  if r.1 <? 0 then mret r.1 else mret r.2.

(** The context is the list of entries written; the caller's array has [max] elements. *)
Definition readdir_visitor (max : Z) : Visitor (list VfsDirEntry) := λ e _ ctx,
  let f := fat32_entry_filter e in
  if f <? 0 then mret (DIR_WALK_STOP, ctx) else
  if 0 <? f then mret (DIR_WALK_CONTINUE, ctx) else
  if byte_at (de_name e) 0 =? 46 then mret (DIR_WALK_CONTINUE, ctx) else
  if max <=? Z.of_nat (length ctx) then kstuck else
  let ctx' := ctx ++ [mkVDirent (fat32_name_to_str e) (fat32_entry_cluster e)
    (if negb (Z.land (attr e) FAT32_ATTR_DIRECTORY =? 0) then VFS_DIRECTORY else VFS_FILE)] in
  if max <=? Z.of_nat (length ctx') then mret (DIR_WALK_STOP, ctx') else mret (DIR_WALK_CONTINUE, ctx').
Definition fat32_readdir (dir max : Z) : K (Fat H D) (Z * list VfsDirEntry) :=
  info ← to_fat32 dir;
  r ← fat32_walk_dir (vol info) (first_cluster info) (readdir_visitor max) [];
  mret (i32 (Z.of_nat (length r.2)), r.2).

(** ** Mounting *)

(** The entries in the bytes of the table. *)
Fixpoint fat_entries (n : nat) (l : list Z) : list Z :=
  match n with O => [] | S n' => le_val (take 4 l) :: fat_entries n' (drop 4 l) end.
(** The bytes of the cache after the sectors [l]; [None] on an error of the device. *)
Fixpoint load_fat (l : list Z) (x : Fat32Volume) (buf : list Z) : K (Fat H D) (option (list Z)) :=
  match l with
  | [] => mret (Some buf)
  | i :: l' =>
      r ← dev_read (u32 (fat_start x + i)) 1;
      if negb (r.1 =? 0) then mret None else
      buf' ← kopt (λ _, patch buf (u32 (i * SECTOR_SIZE)) r.2);
      load_fat l' x buf'
  end.
Definition volume_of (b : Fat32Bpb) : Fat32Volume :=
  let ds := u32 (reserved_sectors b + u32 (num_fats b * fat_size_32 b)) in
  mkVol (bpb_sectors_per_cluster b) (u32 (bpb_sectors_per_cluster b * SECTOR_SIZE)) (reserved_sectors b) ds (bpb_root_cluster b)
    (u32 (total_sectors_32 b - ds) / bpb_sectors_per_cluster b) 0 [] (fat_size_32 b) 0 0.
Definition set_fat_cache (p : Z) (l : list Z) (x : Fat32Volume) : Fat32Volume :=
  mkVol (sectors_per_cluster x) (bytes_per_cluster x) (fat_start x) (data_start x) (root_cluster x) (total_clusters x)
    p l (fat_sectors x) 0 (root_node x).
Definition fat32_mount (device : Z) : K (Fat H D) Z :=
  if device =? 0 then mret 0 else
  r ← dev_read 0 1;
  if negb (r.1 =? 0) then mret 0 else
  let b := bpb_of r.2 in
  if negb (bytes_per_sector b =? 512) then mret 0 else
  if negb (root_entry_count b =? 0) then mret 0 else
  if fat_size_32 b =? 0 then mret 0 else
  if bpb_sectors_per_cluster b =? 0 then mret 0 else
  v ← f_alloc SIZEOF_VOLUME GFP_ZERO;
  if v =? 0 then mret 0 else
  let x := volume_of b in
  let nbytes := u32 (fat_sectors x * SECTOR_SIZE) in
  p ← f_alloc nbytes 0;
  if p =? 0 then f_free v;; mret 0 else
  l ← load_fat (seqZ 0 (fat_sectors x)) x (replicate (Z.to_nat nbytes) 0);
  match l with
  | None => f_free p;; f_free v;; mret 0
  | Some bytes =>
      kmod (λ s, with_vols (<[v := set_fat_cache p (fat_entries (Z.to_nat (nbytes / 4)) bytes) x]> (vols s)) s);;
      kmod (with_cache []);;
      root ← fat32_alloc_node v VFS_DIRECTORY (root_cluster x) 0 0;
      if root =? 0 then f_free p;; f_free v;; kmod (λ s, with_vols (delete v (vols s)) s);; mret 0 else
      upd_vol v (set_root_node root);;
      mret root
  end.
End fat32.
