(* ===== verification/Fat32Correct.v ===== *)
(** * Cluster chains

    The table of a volume as a set of chains, the contents of a chain as a list of bytes, and the routines that allocate
    clusters and follow, extend and free chains. *)
From S2P Require Import Prelude KHeap Fat32.

(** ** Blocks of equal length *)

Section blocks.
Context {A : Type}.
Implicit Types (l : list A) (ls : list (list A)).

Lemma length_concat_blocks n ls : Forall (λ l, length l = n) ls → length (concat ls) = (length ls * n)%nat.
Proof. induction 1 as [|l ls Hl _ IH]; [done|]. cbn [concat length]. rewrite length_app, IH, Hl. lia. Qed.
Lemma drop_concat_blocks n k ls : Forall (λ l, length l = n) ls → drop (k * n) (concat ls) = concat (drop k ls).
Proof.
  intros Hls. revert k. induction Hls as [|l ls Hl _ IH]; intros k; [cbn; by rewrite !drop_nil|]. destruct k as [|k]; [done|].
  cbn [concat drop]. rewrite <-IH, drop_app_ge by lia. f_equal. lia.
Qed.

Lemma filter_agree (P Q : A → Prop) `{∀ a, Decision (P a), ∀ a, Decision (Q a)} l :
  (∀ a, a ∈ l → P a ↔ Q a) → filter P l = filter Q l.
Proof.
  induction l as [|a l IH]; intros Hiff; [done|]. rewrite !filter_cons, IH by (intros b Hb; by apply Hiff, list_elem_of_further).
  pose proof (Hiff a (list_elem_of_here _ _)). by repeat case_decide; try tauto.
Qed.
Lemma filter_all (P : A → Prop) `{∀ a, Decision (P a)} l : (∀ a, a ∈ l → P a) → filter P l = l.
Proof.
  induction l as [|a l IH]; intros Hall; [done|]. rewrite filter_cons_True by (by apply Hall, list_elem_of_here).
  f_equal. apply IH. intros b Hb. by apply Hall, list_elem_of_further.
Qed.
End blocks.

(** ** Volumes *)

Definition is_free (e : Z) : Prop := Z.land e FAT32_ENTRY_MASK = 0.

(** A volume that fits its device, with a table that has an entry for each cluster. *)
Record vol_ok (x : Fat32Volume) (cap : Z) : Prop := {
  vo_spc : 0 < sectors_per_cluster x < 256;
  vo_bpc : bytes_per_cluster x = sectors_per_cluster x * 512;
  vo_total : 0 ≤ total_clusters x < 0x0FFFFFF0;
  vo_start : 0 ≤ fat_start x ∧ 0 ≤ fat_sectors x ∧ fat_start x + fat_sectors x ≤ data_start x;
  vo_cap : data_start x + total_clusters x * sectors_per_cluster x ≤ cap < 2 ^ 32;
  vo_len : Z.of_nat (length (fat x)) = fat_sectors x * 128;
  vo_fat : total_clusters x + 2 ≤ fat_sectors x * 128;
  vo_bytes : fat_sectors x * 512 < 2 ^ 32;
  vo_entries : Forall (λ e, 0 ≤ e < 2 ^ 32) (fat x);
}.
Definition in_data (x : Fat32Volume) (c : Z) : Prop := 2 ≤ c < total_clusters x + 2.
Definition sector_of (x : Fat32Volume) (c : Z) : Z := data_start x + (c - 2) * sectors_per_cluster x.

Lemma cluster_to_sector_ok x cap c : vol_ok x cap → in_data x c → cluster_to_sector x c = sector_of x c.
Proof.
  intros [] [? ?]. unfold cluster_to_sector, sector_of. rewrite (u32_small (c - 2)) by lia.
  rewrite (u32_small ((c - 2) * _)) by nia. apply u32_small. nia.
Qed.

(** The chain of clusters from [c], which is 0 at its end; the entry of none of them is the mark of a free cluster. *)
Fixpoint chain (x : Fat32Volume) (c : Z) (l : list Z) : Prop :=
  match l with
  | [] => c = 0
  | a :: l' => c = a ∧ in_data x a ∧ ∃ e, zget (fat x) a = Some e ∧ Z.land e FAT32_ENTRY_MASK ≠ 0 ∧ chain x (entry_next e) l'
  end.

Definition hd0 (l : list Z) : Z := default 0 (head l).
Lemma chain_hd x c l : chain x c l → c = hd0 l.
Proof. destruct l; [done|]. by intros [-> _]. Qed.
Lemma chain_fun x c l l' : chain x c l → chain x c l' → l = l'.
Proof.
  revert c l'. induction l as [|a l IH]; intros c l' Hl Hl'; destruct l' as [|a' l']; [done|..].
  - cbn in Hl. subst c. destruct Hl' as (<- & [? _] & _). lia.
  - cbn in Hl'. subst c. destruct Hl as (<- & [? _] & _). lia.
  - destruct Hl as (-> & _ & e & He & _ & Hl), Hl' as (-> & _ & e' & He' & _ & Hl'). rewrite He in He'. injection He' as <-.
    f_equal. by apply (IH (entry_next e)).
Qed.
Lemma chain_suffix x c l1 a l2 : chain x c (l1 ++ a :: l2) → chain x a (a :: l2).
Proof. revert c. induction l1 as [|b l1 IH]; intros c; [by intros (-> & ?)|]. intros (_ & _ & e & _ & _ & Hc). by apply (IH (entry_next e)). Qed.
Lemma chain_NoDup x c l : chain x c l → NoDup l.
Proof.
  revert c. induction l as [|a l IH]; intros c Hc; [constructor|]. apply NoDup_cons. split.
  - intros (l1 & l2 & ->)%list_elem_of_split. pose proof Hc as Hc'. apply (chain_suffix _ _ (a :: l1)) in Hc. destruct Hc' as (-> & Hc').
    pose proof (chain_fun x a (a :: l2) (a :: l1 ++ a :: l2) Hc (conj eq_refl Hc')) as Heq. apply (f_equal length) in Heq. cbn in Heq. rewrite length_app in Heq. cbn in Heq. lia.
  - destruct Hc as (_ & _ & e & _ & _ & Hc). by apply (IH (entry_next e)).
Qed.
Lemma chain_in_data x c l a : chain x c l → a ∈ l → in_data x a.
Proof. intros Hc (l1 & l2 & ->)%list_elem_of_split. by apply chain_suffix in Hc as (_ & ? & _). Qed.
Lemma clusters_length x cap c l : vol_ok x cap → chain x c l → (length l ≤ length (fat x))%nat.
Proof.
  intros [] Hc. assert (l ⊆+ seqZ 2 (total_clusters x)) as Hsub%submseteq_length.
  { apply NoDup_submseteq; [by eapply chain_NoDup|]. intros a Ha. apply elem_of_seqZ. destruct (chain_in_data _ _ _ _ Hc Ha). lia. }
  rewrite length_seqZ in Hsub. lia.
Qed.
(** The table may change outside of the chain. *)
Lemma chain_frame x x' c l : total_clusters x' = total_clusters x → (∀ a, a ∈ l → zget (fat x') a = zget (fat x) a) →
  chain x c l → chain x' c l.
Proof.
  intros Ht. revert c. induction l as [|a l IH]; intros c Hf; [done|]. intros (-> & Hd & e & He & Hn & Hc). split; [done|].
  split; [unfold in_data in *; by rewrite Ht|]. exists e. split; [rewrite Hf; [done|apply list_elem_of_here]|]. split; [done|].
  apply IH; [|done]. intros b Hb. by apply Hf, list_elem_of_further.
Qed.
(** A chain extended by a cluster [n] that the last one is made to point to. *)
Lemma chain_extend x x' c l p n : total_clusters x' = total_clusters x → in_data x n → chain x c (l ++ [p]) →
  (∀ a, a ∈ l → zget (fat x') a = zget (fat x) a) → (∃ e, zget (fat x') p = Some e ∧ Z.land e FAT32_ENTRY_MASK ≠ 0 ∧ entry_next e = n) →
  (∃ e, zget (fat x') n = Some e ∧ Z.land e FAT32_ENTRY_MASK ≠ 0 ∧ entry_next e = 0) → chain x' c (l ++ [p; n]).
Proof.
  intros Ht Hn. revert c. induction l as [|a l IH]; intros c Hc Hf (ep & Hp & Hp0 & Hpn) (en & Hen & Hn0 & Hnn).
  - destruct Hc as (-> & Hd & _). split; [done|]. split; [unfold in_data in *; by rewrite Ht|]. exists ep. split; [done|]. split; [done|].
    split; [done|]. split; [unfold in_data in *; by rewrite Ht|]. exists en. by split.
  - destruct Hc as (-> & Hd & e & He & He0 & Hc). split; [done|]. split; [unfold in_data in *; by rewrite Ht|].
    exists e. split; [rewrite Hf; [done|apply list_elem_of_here]|]. split; [done|]. apply IH; [done| |by exists ep|by exists en].
    intros b Hb. by apply Hf, list_elem_of_further.
Qed.

(** ** Entries of the table *)

Lemma entry_set_mask e n : 0 ≤ n < 2 ^ 28 → Z.land (entry_set e n) FAT32_ENTRY_MASK = n.
Proof.
  intros Hn. unfold entry_set. rewrite Z.land_lor_distr_l, <-Z.land_assoc.
  change (Z.land (u32 (Z.lnot FAT32_ENTRY_MASK)) FAT32_ENTRY_MASK) with 0. rewrite Z.land_0_r, Z.lor_0_l.
  change FAT32_ENTRY_MASK with (Z.ones 28). rewrite Z.land_ones by lia. by apply Z.mod_small.
Qed.
Lemma entry_set_range e n : 0 ≤ e → 0 ≤ n < 2 ^ 28 → 0 ≤ entry_set e n < 2 ^ 32.
Proof.
  intros He Hn. apply lor_range; [lia| |lia]. change (u32 (Z.lnot FAT32_ENTRY_MASK)) with 0xF0000000. set (y := Z.land e _).
  assert (0 ≤ y) by (apply Z.land_nonneg; lia). split; [done|]. destruct (decide (y = 0)) as [->|]; [lia|]. apply Z.log2_lt_pow2; [lia|].
  pose proof (Z.log2_land e 0xF0000000 He ltac:(lia)) as Hl. change (Z.log2 0xF0000000) with 31 in Hl. fold y in Hl. lia.
Qed.
Lemma entry_set_next e n : 0 ≤ n < 0x0FFFFFF7 → entry_next (entry_set e n) = n.
Proof.
  intros Hn. unfold entry_next. rewrite entry_set_mask by lia. unfold FAT32_EOC, FAT32_BAD_CLUSTER.
  destruct (Z.leb_spec 0x0FFFFFF8 n); [lia|]. destruct (Z.eqb_spec n 0x0FFFFFF7); [lia|done].
Qed.
Lemma entry_set_eoc e : entry_next (entry_set e (Z.land FAT32_EOC FAT32_ENTRY_MASK)) = 0.
Proof. unfold entry_next. rewrite entry_set_mask; [done|]. by vm_compute. Qed.

(** The free clusters, lowest first. *)
Definition free_entry (x : Fat32Volume) (c : Z) : Prop := Z.land (default 1 (zget (fat x) c)) FAT32_ENTRY_MASK = 0.
#[export] Instance free_entry_dec x c : Decision (free_entry x c) := decide (_ = _).
Definition free_clusters (x : Fat32Volume) : list Z := filter (free_entry x) (seqZ 2 (total_clusters x)).

Lemma elem_of_free x c : c ∈ free_clusters x ↔ in_data x c ∧ free_entry x c.
Proof. unfold free_clusters, in_data. rewrite list_elem_of_filter, elem_of_seqZ. split; intros [? ?]; split; try done; lia. Qed.
Lemma NoDup_free x : NoDup (free_clusters x).
Proof. apply NoDup_filter, NoDup_seqZ. Qed.
Lemma chain_not_free x c l a : chain x c l → a ∈ l → ¬ free_entry x a.
Proof.
  intros Hc (l1 & l2 & ->)%list_elem_of_split. apply chain_suffix in Hc as (_ & _ & e & He & Hn & _). unfold free_entry. by rewrite He.
Qed.

Lemma free_clusters_update x x' c F : free_clusters x = c :: F → total_clusters x' = total_clusters x →
  (∀ a, in_data x a → free_entry x' a ↔ free_entry x a ∧ a ≠ c) → free_clusters x' = F.
Proof.
  intros HF Ht Hiff. unfold free_clusters in *. rewrite Ht.
  transitivity (filter (λ a, a ≠ c) (filter (free_entry x) (seqZ 2 (total_clusters x)))).
  - rewrite list_filter_filter. apply filter_agree. intros a Ha%elem_of_seqZ. rewrite Hiff by (unfold in_data; lia). tauto.
  - rewrite HF. rewrite filter_cons_False by tauto. apply filter_all.
    intros a Ha ->. pose proof (NoDup_free x) as Hnd. unfold free_clusters in Hnd. rewrite HF in Hnd. by apply NoDup_cons in Hnd as [? _].
Qed.

(** ** The state of a volume *)

(** The sectors of a transfer, put together again. *)
Lemma concat_sectors i n (l : list Z) : 0 ≤ n → length l = Z.to_nat (512 * n) →
  concat ((λ j, take 512 (drop (Z.to_nat (512 * (j - i))) l)) <$> seqZ i n) = l.
Proof.
  intros Hn. revert i l. pattern n. apply natlike_ind; [|clear n Hn; intros n Hn IH|done]; intros i l Hl.
  { cbn. by destruct l. }
  rewrite seqZ_cons by lia. rewrite Z.pred_succ. cbn [fmap list_fmap concat]. rewrite Z.sub_diag, drop_0.
  transitivity (take 512 l ++ drop 512 l); [f_equal|apply take_drop]. rewrite <-(IH (Z.succ i) (drop 512 l)) by (rewrite length_drop; lia).
  f_equal. apply list_fmap_ext. intros k j Hk. apply lookup_seqZ in Hk as [-> Hk]. rewrite drop_drop. do 2 f_equal. lia.
Qed.

Section state.
Context {H D : Type} `{KHeap H} `{BlockDev D}.
Implicit Types (s : Fat H D) (d : D) (x : Fat32Volume).

Record fat_at s (v : Z) x : Prop := {
  fa_vol : vols s !! v = Some x;
  fa_ok : vol_ok x (bd_capacity (dev s));
  fa_dev : bd_ok (dev s);
}.
(** The bytes of a cluster and of a list of clusters. *)
Definition cdata d x (c : Z) : list Z := concat (bd_sector d <$> seqZ (sector_of x c) (sectors_per_cluster x)).
Definition contents d x (l : list Z) : list Z := concat (cdata d x <$> l).

(** From [s] to [s'] only the entries of the clusters [C] and the bytes of the clusters [B] of the volume [v] changed; a changed table is
    marked as such. *)
Record frame (v : Z) (C B : list Z) s x s' x' : Prop := {
  fr_heap : fheap s' = fheap s;
  fr_nodes : nodes s' = nodes s;
  fr_infos : infos s' = infos s;
  fr_cache : node_cache s' = node_cache s;
  fr_inode : next_fat_inode s' = next_fat_inode s;
  fr_vols : vols s' = <[v := x']> (vols s);
  fr_geom : x' = set_fat (fat x') (fat_dirty x') x;
  fr_fat c : c ∉ C → zget (fat x') c = zget (fat x) c;
  fr_data c : in_data x c → c ∉ B → cdata (dev s') x c = cdata (dev s) x c;
  fr_low j : j < data_start x → bd_sector (dev s') j = bd_sector (dev s) j;
  fr_clean : fat_dirty x' = 0 → fat x' = fat x ∧ fat_dirty x = 0;
}.

Lemma geom_data x l n d c : cdata d (set_fat l n x) c = cdata d x c.
Proof. done. Qed.
Lemma frame_refl v s x : vols s !! v = Some x → frame v [] [] s x s x.
Proof. intros Hv. split; try done; [by rewrite insert_id|by destruct x]. Qed.
Lemma frame_weaken v C B C' B' s x s' x' : frame v C B s x s' x' → C ⊆ C' → B ⊆ B' → frame v C' B' s x s' x'.
Proof.
  intros [] HC HB. split; try done.
  - intros c Hc. apply fr_fat0. intros Hin. by apply Hc, HC.
  - intros c Hd Hc. apply fr_data0; [done|]. intros Hin. by apply Hc, HB.
Qed.
Lemma frame_trans v C B s1 x1 s2 x2 s3 x3 : frame v C B s1 x1 s2 x2 → frame v C B s2 x2 s3 x3 → frame v C B s1 x1 s3 x3.
Proof.
  intros F1 F2. assert (∀ d c, cdata d x2 c = cdata d x1 c) as Hcd by (intros; by rewrite (fr_geom _ _ _ _ _ _ _ F1)).
  assert (∀ c, in_data x2 c ↔ in_data x1 c) as Hin by (intros c; unfold in_data; by rewrite (fr_geom _ _ _ _ _ _ _ F1)).
  assert (data_start x2 = data_start x1) as Hds by (by rewrite (fr_geom _ _ _ _ _ _ _ F1)).
  destruct F1, F2. split; try (etransitivity; eassumption).
  - rewrite fr_vols1, fr_vols0. by rewrite insert_insert_eq.
  - rewrite fr_geom1. rewrite fr_geom0. done.
  - intros c Hc. rewrite fr_fat1 by done. by apply fr_fat0.
  - intros c Hd Hc. rewrite <-Hcd. rewrite fr_data1 by (done || by apply Hin). rewrite Hcd. by apply fr_data0.
  - intros j Hj. rewrite fr_low1 by lia. by apply fr_low0.
  - intros [-> Hc]%fr_clean1. by apply fr_clean0.
Qed.
Lemma frame_contents v C B s x s' x' l : frame v C B s x s' x' → (∀ c, c ∈ l → in_data x c ∧ c ∉ B) →
  contents (dev s') x' l = contents (dev s) x l.
Proof.
  intros Hf Hl. unfold contents. f_equal. apply list_fmap_ext. intros i c Hi%list_elem_of_lookup_2.
  rewrite (fr_geom _ _ _ _ _ _ _ Hf), geom_data. destruct (Hl c Hi). by apply (fr_data _ _ _ _ _ _ _ Hf).
Qed.
Lemma frame_chain v C B s x s' x' c l : frame v C B s x s' x' → (∀ a, a ∈ l → a ∉ C) → chain x c l → chain x' c l.
Proof.
  intros Hf Hl. apply chain_frame; [by rewrite (fr_geom _ _ _ _ _ _ _ Hf)|]. intros a Ha. by apply (fr_fat _ _ _ _ _ _ _ Hf), Hl.
Qed.
Lemma frame_in_data v C B s x s' x' c : frame v C B s x s' x' → in_data x' c ↔ in_data x c.
Proof. intros Hf. unfold in_data. by rewrite (fr_geom _ _ _ _ _ _ _ Hf). Qed.

Lemma sector_range x cap c : vol_ok x cap → in_data x c →
  data_start x ≤ sector_of x c ∧ sector_of x c + sectors_per_cluster x ≤ cap.
Proof. intros [] [? ?]. unfold sector_of. split; nia. Qed.
Lemma cdata_length s v x c : fat_at s v x → in_data x c → length (cdata (dev s) x c) = Z.to_nat (bytes_per_cluster x).
Proof.
  intros [_ Hok Hd] Hc. pose proof (sector_range _ _ _ Hok Hc). pose proof (vo_start _ _ Hok). pose proof (vo_spc _ _ Hok). unfold cdata.
  rewrite (length_concat_blocks 512), length_fmap, length_seqZ, (vo_bpc _ _ Hok) by
    (apply Forall_fmap, Forall_forall; intros j Hj%elem_of_seqZ; apply bd_sector_length; [done|lia]). lia.
Qed.
Lemma contents_length s v x l : fat_at s v x → (∀ c, c ∈ l → in_data x c) →
  length (contents (dev s) x l) = (length l * Z.to_nat (bytes_per_cluster x))%nat.
Proof.
  intros Hf Hl. unfold contents. rewrite (length_concat_blocks (Z.to_nat (bytes_per_cluster x))), length_fmap; [done|].
  apply Forall_fmap, Forall_forall. intros c Hc. apply (cdata_length s v); [done|by apply Hl].
Qed.
Lemma contents_drop s v x l k : fat_at s v x → (∀ c, c ∈ l → in_data x c) →
  contents (dev s) x (drop k l) = drop (k * Z.to_nat (bytes_per_cluster x)) (contents (dev s) x l).
Proof.
  intros Hf Hl. unfold contents. rewrite drop_concat_blocks, fmap_drop; [done|].
  apply Forall_fmap, Forall_forall. intros c Hc. apply (cdata_length s v); [done|by apply Hl].
Qed.
Lemma contents_app d x l l' : contents d x (l ++ l') = contents d x l ++ contents d x l'.
Proof. unfold contents. by rewrite fmap_app, concat_app. Qed.
Lemma contents_cons d x c l : contents d x (c :: l) = cdata d x c ++ contents d x l.
Proof. done. Qed.

(** *** Clusters on the device *)

Lemma read_cluster_ok s v x c : fat_at s v x → in_data x c →
  ∃ s', fat32_read_cluster v c s = Done (0, cdata (dev s) x c) s' ∧ fat_at s' v x ∧ frame v [] [] s x s' x.
Proof.
  intros [Hv Hok Hd] Hc. pose proof (sector_range _ _ _ Hok Hc). pose proof (vo_start _ _ Hok). pose proof (vo_spc _ _ Hok).
  unfold fat32_read_cluster, volume. rewrite (kopt_bind (λ s, vols s !! v) _ s x Hv), (cluster_to_sector_ok _ _ _ Hok Hc).
  destruct (bd_read_law (dev s) (sector_of x c) (sectors_per_cluster x) Hd) as (d' & E & Hd' & Hcap & Hs); [lia..|].
  exists (with_dev d' s). unfold dev_read, zoom. rewrite E. split; [done|]. split.
  - split; [done|by cbn; rewrite Hcap|done].
  - split; try done; [by rewrite insert_id|by destruct x|]. intros c' _ _. unfold cdata. f_equal. apply list_fmap_ext. intros. apply Hs.
Qed.

Lemma write_cluster_ok s v x c l : fat_at s v x → in_data x c → length l = Z.to_nat (bytes_per_cluster x) →
  ∃ s', fat32_write_cluster v c l s = Done 0 s' ∧ fat_at s' v x ∧ frame v [] [c] s x s' x ∧ cdata (dev s') x c = l.
Proof.
  intros [Hv Hok Hd] Hc Hl. pose proof (sector_range _ _ _ Hok Hc). pose proof (vo_start _ _ Hok). pose proof (vo_spc _ _ Hok).
  unfold fat32_write_cluster, volume. rewrite (kopt_bind (λ s, vols s !! v) _ s x Hv), (cluster_to_sector_ok _ _ _ Hok Hc).
  rewrite (vo_bpc _ _ Hok) in Hl.
  destruct (bd_write_law (dev s) (sector_of x c) (sectors_per_cluster x) l Hd) as (d' & E & Hd' & Hcap & Hs); [lia..|].
  exists (with_dev d' s). unfold dev_write, zoom. rewrite E. split; [done|]. split; [|split].
  - split; [done|by cbn; rewrite Hcap|done].
  - split; try done; [by rewrite insert_id|by destruct x| |].
    + intros c' Hc' Hne. unfold cdata. f_equal. apply list_fmap_ext. intros i j Hj%list_elem_of_lookup_2%elem_of_seqZ. cbn. rewrite Hs.
      rewrite decide_False; [done|]. assert (c' ≠ c) by (intros ->; apply Hne, list_elem_of_here). unfold sector_of in *. nia.
    + intros j Hj. cbn. rewrite Hs, decide_False; [done|lia].
  - unfold cdata. cbn. etransitivity; [|apply (concat_sectors (sector_of x c) (sectors_per_cluster x) l); lia]. f_equal.
    apply list_fmap_ext. intros i j Hj%list_elem_of_lookup_2%elem_of_seqZ. by rewrite Hs, decide_True.
Qed.

(** *** Entries *)

Lemma next_cluster_ok s v x c l : vols s !! v = Some x → chain x c (c :: l) → fat32_next_cluster v c s = Done (hd0 l) s ∧ chain x (hd0 l) l.
Proof.
  intros Hv (_ & _ & e & He & _ & Hc). unfold fat32_next_cluster, fat_get.
  rewrite (kopt_bind (λ s, x ← vols s !! v; zget (fat x) c) _ s e) by (by rewrite Hv). pose proof (chain_hd _ _ _ Hc) as Hhd. split.
  - by rewrite Hhd.
  - by rewrite <-Hhd.
Qed.

Lemma fat_put_ok s v x c e n : fat_at s v x → zget (fat x) c = Some e → 0 ≤ n < 2 ^ 28 →
  ∃ x', fat_put v c n s = Done tt (with_vols (<[v := x']> (vols s)) s) ∧ fat_at (with_vols (<[v := x']> (vols s)) s) v x' ∧
    frame v [c] [] s x (with_vols (<[v := x']> (vols s)) s) x' ∧ zget (fat x') c = Some (entry_set e n).
Proof.
  intros [Hv Hok Hd] He Hn. pose proof (zget_Some_range _ _ _ He) as Hr. pose proof (zset_lt (fat x) c (entry_set e n) Hr) as Hs.
  set (l := <[Z.to_nat c := entry_set e n]> (fat x)) in *.
  exists (set_fat l 1 x). split; [|split; [|split]].
  - unfold fat_put, kupd. rewrite Hv. cbn [mbind option_bind]. rewrite He. cbn [mbind option_bind]. by rewrite Hs.
  - destruct Hok. split; [apply lookup_insert_eq| |done]. split; cbn; try done.
    + unfold l. by rewrite length_insert.
    + apply Forall_insert; [done|]. assert (0 ≤ e < 2 ^ 32).
      { unfold zget in He. destruct (c <? 0); [done|]. by eapply (Forall_lookup_1 _ _ _ _ vo_entries0). }
      apply entry_set_range; lia.
  - split; try done. intros c' Hc'. cbn. apply (zget_zset_ne _ _ _ _ _ Hs). intros ->. apply Hc', list_elem_of_here.
  - cbn. by apply (zget_zset_eq _ _ _ _ Hs).
Qed.

Lemma fat_get_ok s v x c e B (f : Z → K (Fat H D) B) : vols s !! v = Some x → zget (fat x) c = Some e → (fat_get v c ≫= f) s = f e s.
Proof. intros Hv He. unfold fat_get. apply kopt_bind. by rewrite Hv. Qed.

Lemma frame_free v C B s x s' x' c F : frame v C B s x s' x' → free_clusters x = c :: F →
  (∀ a, a ∈ C → ¬ free_entry x' a) → (∀ a, a ∈ C → a = c ∨ ¬ free_entry x a) → c ∈ C → free_clusters x' = F.
Proof.
  intros Hf HF HC HC' Hc. apply (free_clusters_update x x' c F HF); [by rewrite (fr_geom _ _ _ _ _ _ _ Hf)|].
  intros a Ha. destruct (decide (a ∈ C)) as [Hin|Hin].
  - split; [intros Hx; by apply (HC a) in Hx|]. intros [Hfa Hne]. by destruct (HC' a Hin).
  - unfold free_entry. rewrite (fr_fat _ _ _ _ _ _ _ Hf) by done. split; [|tauto]. intros Hx. split; [done|]. by intros ->.
Qed.

(** [fat32_alloc_cluster] takes the first free cluster, and marks it as the end of a chain. *)
Lemma alloc_cluster_ok s v x : fat_at s v x →
  match free_clusters x with
  | [] => fat32_alloc_cluster v s = Done 0 s
  | c :: F => ∃ s' x', fat32_alloc_cluster v s = Done c s' ∧ fat_at s' v x' ∧ frame v [c] [] s x s' x' ∧ dev s' = dev s ∧
      free_clusters x' = F ∧ ∃ e, zget (fat x') c = Some e ∧ Z.land e FAT32_ENTRY_MASK ≠ 0 ∧ entry_next e = 0
  end.
Proof.
  intros Hf. pose proof Hf as [Hv Hok Hd]. unfold fat32_alloc_cluster, volume. rewrite (kopt_bind (λ s, vols s !! v) _ s x Hv).
  pose proof Hok as []. rewrite u32_small by lia. replace (total_clusters x + 2 - 2) with (total_clusters x) by lia.
  assert (∀ l, (∀ a, a ∈ l → in_data x a) →
    match filter (free_entry x) l with
    | [] => alloc_loop l v s = Done 0 s
    | c :: _ => free_entry x c ∧ in_data x c ∧ alloc_loop l v s = (fat_put v c (Z.land FAT32_EOC FAT32_ENTRY_MASK) ≫= λ _, mret c) s
    end) as Hloop.
  { induction l as [|a l IH]; intros Hl; [done|]. rewrite filter_cons. cbn [alloc_loop].
    pose proof (Hl a (list_elem_of_here _ _)) as [? ?]. destruct (zget_lt (fat x) a) as (e & He); [lia|].
    rewrite (fat_get_ok s v x a e) by done. unfold FAT32_FREE. assert (free_entry x a ↔ Z.land e FAT32_ENTRY_MASK = 0) as Hiff by (unfold free_entry; by rewrite He).
    destruct (decide (free_entry x a)) as [E|E].
    - rewrite (proj2 (Z.eqb_eq _ _) (proj1 Hiff E)). split; [done|]. by split.
    - rewrite (proj2 (Z.eqb_neq _ _)) by tauto. apply IH. intros b Hb. by apply Hl, list_elem_of_further. }
  specialize (Hloop (seqZ 2 (total_clusters x))). destruct (free_clusters x) as [|c F] eqn:HF; unfold free_clusters in HF; rewrite HF in Hloop.
  { apply Hloop. intros a Ha%elem_of_seqZ. unfold in_data. lia. }
  destruct Hloop as (Hfree & [? ?] & E). { intros a Ha%elem_of_seqZ. unfold in_data. lia. }
  destruct (zget_lt (fat x) c) as (e & He); [lia|].
  destruct (fat_put_ok s v x c e (Z.land FAT32_EOC FAT32_ENTRY_MASK) Hf He) as (x' & Ep & Hf' & Hfr & He'); [vm_compute; split; congruence|].
  assert (Z.land (entry_set e (Z.land FAT32_EOC FAT32_ENTRY_MASK)) FAT32_ENTRY_MASK ≠ 0) as Hnz by (rewrite entry_set_mask; by vm_compute).
  eexists _, x'. split; [rewrite E; kbind Ep; done|]. split; [done|]. split; [done|]. split; [done|]. split.
  - apply (frame_free _ _ _ _ _ _ _ _ F Hfr HF); [|intros a Ha%list_elem_of_singleton; by left|apply list_elem_of_here].
    intros a Ha. apply list_elem_of_singleton in Ha as ->. unfold free_entry. by rewrite He'.
  - exists (entry_set e (Z.land FAT32_EOC FAT32_ENTRY_MASK)). split; [done|]. split; [done|]. apply entry_set_eoc.
Qed.

(** One cluster more at the end of a chain, cleared. *)
Lemma grow_ok s v x first l p c F : fat_at s v x → chain x first (l ++ [p]) → free_clusters x = c :: F →
  ∃ s' x' z, fat32_extend_chain v p s = Done c (with_vols (<[v := x']> (vols s)) s) ∧
    fat32_init_cluster v c (with_vols (<[v := x']> (vols s)) s) = Done z s' ∧ c ≠ 0 ∧
    fat_at s' v x' ∧ chain x' first (l ++ [p; c]) ∧ free_clusters x' = F ∧ c ∉ l ++ [p] ∧
    frame v [p; c] [c] s x s' x' ∧ cdata (dev s') x' c = replicate (Z.to_nat (bytes_per_cluster x)) 0.
Proof.
  intros Hf Hch HF. pose proof (alloc_cluster_ok s v x Hf) as Ha. rewrite HF in Ha. destruct Ha as (s1 & x1 & E1 & Hf1 & Hfr1 & Hd1 & HF1 & e1 & He1 & Hn1 & Hx1).
  assert (c ∈ free_clusters x) as Hcf by (rewrite HF; apply list_elem_of_here). apply elem_of_free in Hcf as [Hcd Hcf].
  assert (c ∉ l ++ [p]) as Hcn by (intros Hin; exact (chain_not_free _ _ _ _ Hch Hin Hcf)).
  assert (p ∈ l ++ [p]) as Hpl by (apply elem_of_app; right; apply list_elem_of_here).
  assert (p ≠ c) as Hpc by (intros ->; done). pose proof (chain_in_data _ _ _ _ Hch Hpl) as Hpd.
  pose proof (chain_suffix _ _ _ _ _ Hch) as (_ & _ & ep & Hep & _ & _).
  assert (zget (fat x1) p = Some ep) as Hep1.
  { rewrite (fr_fat _ _ _ _ _ _ _ Hfr1); [done|]. by intros ?%list_elem_of_singleton. }
  destruct Hcd as [Hc1 Hc2]. pose proof (vo_total _ _ (fa_ok _ _ _ Hf)) as Ht.
  destruct (fat_put_ok s1 v x1 p ep c Hf1 Hep1 ltac:(lia)) as (x2 & E2 & Hf2 & Hfr2 & He2). set (s2 := with_vols _ s1) in *.
  assert (s2 = with_vols (<[v := x2]> (vols s)) s) as Hs2.
  { unfold s2. rewrite (fr_vols _ _ _ _ _ _ _ Hfr1), insert_insert_eq. destruct Hfr1. unfold with_vols. by rewrite fr_heap0, fr_nodes0, fr_infos0, fr_cache0, fr_inode0, Hd1. }
  assert (frame v [p; c] [] s x s2 x2) as Hfr12.
  { apply (frame_trans v [p; c] [] s x s1 x1); (eapply frame_weaken; [eassumption|set_solver|set_solver]). }
  assert (in_data x2 c) as Hcd2 by (apply (frame_in_data _ _ _ _ _ _ _ _ Hfr12); by split).
  assert (bytes_per_cluster x2 = bytes_per_cluster x) as Hb2 by (by rewrite (fr_geom _ _ _ _ _ _ _ Hfr12)).
  destruct (write_cluster_ok s2 v x2 c (replicate (Z.to_nat (bytes_per_cluster x2)) 0) Hf2 Hcd2) as (s3 & E3 & Hf3 & Hfr3 & Hz); [apply length_replicate|].
  assert (fat32_extend_chain v p s = Done c s2) as Ee.
  { unfold fat32_extend_chain. kbind E1. rewrite (proj2 (Z.eqb_neq c 0)) by lia. destruct Hpd.
    rewrite (proj2 (Z.eqb_neq p 0)) by lia. cbn [negb]. replace (Z.land c FAT32_ENTRY_MASK) with c; [by kbind E2|].
    change FAT32_ENTRY_MASK with (Z.ones 28). rewrite Z.land_ones by lia. symmetry. apply Z.mod_small. lia. }
  assert (fat32_init_cluster v c s2 = Done 0 s3) as Ei.
  { unfold fat32_init_cluster, volume. rewrite (kopt_bind (λ s, vols s !! v) _ s2 x2 (fa_vol _ _ _ Hf2)). by kbind E3. }
  exists s3, x2, 0. rewrite <-Hs2. split; [done|]. split; [done|]. split; [lia|]. split; [done|].
  split; [|split; [|split; [done|split]]].
  - apply (chain_extend x); [by rewrite (fr_geom _ _ _ _ _ _ _ Hfr12)|by split|done| | |].
    + intros a Ha. apply (fr_fat _ _ _ _ _ _ _ Hfr12). intros Hin. apply elem_of_cons in Hin as [->|Hin].
      * pose proof (chain_NoDup _ _ _ Hch) as Hnd. apply NoDup_app in Hnd as (_ & Hnd & _). by apply (Hnd p), list_elem_of_here.
      * apply list_elem_of_singleton in Hin as ->. apply Hcn, elem_of_app. by left.
    + exists (entry_set ep c). split; [done|]. rewrite entry_set_mask, entry_set_next by lia. split; [lia|done].
    + exists e1. split; [|done]. rewrite (fr_fat _ _ _ _ _ _ _ Hfr2); [done|]. by intros ?%list_elem_of_singleton.
  - apply (frame_free _ _ _ _ _ _ _ _ F Hfr12 HF); [| |set_solver].
    + intros a Ha. unfold free_entry. apply elem_of_cons in Ha as [->|Ha].
      * rewrite He2. cbn. rewrite entry_set_mask by lia. lia.
      * apply list_elem_of_singleton in Ha as ->. rewrite (fr_fat _ _ _ _ _ _ _ Hfr2); [by rewrite He1|]. by intros ?%list_elem_of_singleton.
    + intros a Ha. apply elem_of_cons in Ha as [->|Ha]; [right; exact (chain_not_free _ _ _ _ Hch Hpl)|]. left. by apply list_elem_of_singleton in Ha.
  - apply (frame_trans v [p; c] [c] s x s2 x2); (eapply frame_weaken; [eassumption|set_solver|set_solver]).
  - by rewrite Hz, Hb2.
Qed.
End state.
