(* ===== verification/Fat32Chains.v ===== *)
(** * Reading and writing chains

    [fat32_read_chain] reads the bytes of a chain, and [fat32_write_chain] writes into them, with the clusters it
    needs added to the chain. *)
From S2P Require Import Prelude KHeap Fat32 Fat32Correct.

Section chains.
Context {H D : Type} `{KHeap H} `{BlockDev D}.
Implicit Types (s : Fat H D) (x : Fat32Volume) (v : Z).

Lemma hd0_nonzero x c l : chain x c l → (hd0 l =? 0) = match l with [] => true | _ => false end.
Proof. destruct l as [|a l]; [done|]. intros (_ & [? ?] & _). cbn. apply Z.eqb_neq. lia. Qed.

(** The number of whole clusters before the offset, from the cluster that starts at [coff]. *)
Lemma skip_loop_ok v x offset s : vols s !! v = Some x → 0 < bytes_per_cluster x → 0 ≤ offset → ∀ l c fuel coff,
  chain x c l → 0 ≤ coff → coff + (Z.of_nat (length l) + 1) * bytes_per_cluster x < 2 ^ 32 → (length l ≤ fuel)%nat →
  ∃ k, skip_loop fuel v (bytes_per_cluster x) c coff offset s = Done (hd0 (drop k l), coff + Z.of_nat k * bytes_per_cluster x) s ∧
    chain x (hd0 (drop k l)) (drop k l) ∧ (k ≤ length l)%nat ∧ (k = 0%nat ∨ coff + Z.of_nat k * bytes_per_cluster x ≤ offset) ∧
    (drop k l = [] ∨ offset < coff + (Z.of_nat k + 1) * bytes_per_cluster x).
Proof.
  intros Hv Hb Ho. induction l as [|a l IH]; intros c fuel coff Hc Hc0 Hlim Hfu.
  - cbn in Hc. subst c. exists 0%nat. destruct fuel; cbn; (split; [do 2 f_equal; f_equal; lia|]); by auto.
  - pose proof (chain_hd _ _ _ Hc) as Hhd. pose proof (hd0_nonzero _ _ _ Hc) as Hnz. rewrite <-Hhd in Hnz. cbn [hd0 head default from_option] in Hhd. cbn [length] in *.
    destruct fuel as [|fuel]; [lia|]. cbn [skip_loop]. rewrite Hnz. cbn [negb andb]. rewrite (u32_small (coff + _)) by nia.
    destruct (Z.leb_spec (coff + bytes_per_cluster x) offset) as [Hle|Hgt].
    + subst c. destruct (next_cluster_ok s v x a l Hv Hc) as [En Hcl]. kbind En.
      destruct (IH _ fuel (coff + bytes_per_cluster x) Hcl) as (k & E & Hck & Hk & Hpos & Hend); [lia|lia|lia|].
      exists (S k). cbn [drop]. rewrite E. split; [do 2 f_equal; lia|]. split; [done|]. split; [lia|]. split; [right|].
      * destruct Hpos as [->|]; lia.
      * destruct Hend; [by left|right; lia].
    + exists 0%nat. cbn [drop]. rewrite <-(chain_hd _ _ _ Hc). split; [do 2 f_equal; lia|]. split; [done|]. split; [lia|]. split; [by left|right; lia].
Qed.


(** What is left to read: the bytes from the offset on, when the cluster that holds it is reached. *)
Lemma read_loop_ok v x offset size : 0 ≤ offset → 0 ≤ size < 2 ^ 32 → ∀ l c fuel coff acc s, fat_at s v x →
  chain x c l → 0 ≤ coff → offset < coff + bytes_per_cluster x ∨ l = [] → coff + (Z.of_nat (length l) + 1) * bytes_per_cluster x < 2 ^ 32 →
  (length l ≤ fuel)%nat → Z.of_nat (length acc) ≤ size →
  ∃ s', read_loop fuel v (bytes_per_cluster x) c coff offset size acc s =
      Done (false, acc ++ take (Z.to_nat size - length acc) (drop (Z.to_nat (offset - coff)) (contents (dev s) x l))) s' ∧
    fat_at s' v x ∧ frame v [] [] s x s' x.
Proof.
  intros Ho Hsz. induction l as [|a l IH]; intros c fuel coff acc s Hf Hc Hc0 Hpos Hlim Hfu Hacc.
  - cbn in Hc. subst c. exists s. split; [|split; [done|by apply frame_refl, fa_vol]]. cbn. rewrite drop_nil, take_nil, app_nil_r. by destruct fuel.
  - pose proof (chain_hd _ _ _ Hc) as Hhd. pose proof (hd0_nonzero _ _ _ Hc) as Hnz. rewrite <-Hhd in Hnz. cbn [hd0 head default from_option] in Hhd. cbn [length] in *.
    pose proof (vo_spc _ _ (fa_ok _ _ _ Hf)) as Hspc. pose proof (vo_bpc _ _ (fa_ok _ _ _ Hf)) as Hbpc.
    destruct fuel as [|fuel]; [lia|]. cbn [read_loop]. rewrite Hnz. cbn [negb andb].
    destruct (Z.ltb_spec (Z.of_nat (length acc)) size) as [Hlt|Hge].
    2: { exists s. split; [|split; [done|by apply frame_refl, fa_vol]]. replace (Z.to_nat size - length acc)%nat with 0%nat by lia. by rewrite take_0, app_nil_r. }
    subst c. assert (in_data x a) as Ha by (destruct Hc as (_ & ? & _); done).
    destruct (read_cluster_ok s v x a Hf Ha) as (s1 & E1 & Hf1 & Hfr1). kbind E1. cbn [fst snd Z.eqb negb].
    destruct Hpos as [Hpos|]; [|done]. pose proof (cdata_length s v x a Hf Ha) as Hlen.
    set (io := in_cluster_off coff offset). assert (io = Z.max 0 (offset - coff)) as Hio.
    { unfold io, in_cluster_off. destruct (Z.ltb_spec coff offset); [rewrite u32_small by lia; lia|lia]. }
    set (n := copy_size _ _ _ _). assert (n = Z.min (bytes_per_cluster x - io) (size - Z.of_nat (length acc))) as Hn.
    { unfold n, copy_size. rewrite !u32_small by lia. destruct (Z.ltb_spec (bytes_per_cluster x - io) (size - Z.of_nat (length acc))); lia. }
    rewrite (kopt_bind (λ _, part _ io n) _ s1 _ (part_ok (cdata (dev s) x a) io n ltac:(lia) ltac:(lia) ltac:(lia))).
    destruct (next_cluster_ok s1 v x a l (fa_vol _ _ _ Hf1) Hc) as [En Hcl]. kbind En. rewrite u32_small by nia.
    set (got := take (Z.to_nat n) _). assert (length got = Z.to_nat n) as Hgot by (unfold got; rewrite length_take, length_drop; lia).
    destruct (IH _ fuel (coff + bytes_per_cluster x) (acc ++ got) s1 Hf1 Hcl) as (s2 & E2 & Hf2 & Hfr2); [lia| |lia|lia|rewrite length_app; lia|].
    { left. lia. }
    exists s2. rewrite E2. split; [|split; [done|by eapply frame_trans]]. do 2 f_equal. rewrite <-app_assoc. f_equal.
    rewrite (frame_contents v [] [] s x s1 x l Hfr1) by (intros b Hb; split; [exact (chain_in_data _ _ _ _ Hcl Hb)|by intros ?%elem_of_nil]).
    replace (Z.to_nat (offset - (coff + bytes_per_cluster x))) with 0%nat by lia. rewrite drop_0, contents_cons, length_app, Hgot.
    replace (Z.to_nat (offset - coff)) with (Z.to_nat io) by lia. rewrite drop_app_le by lia. rewrite take_app, length_drop, Hlen. unfold got. f_equal.
    + destruct (decide (bytes_per_cluster x - io ≤ size - Z.of_nat (length acc))).
      * rewrite !take_ge; [done|rewrite length_drop; lia|rewrite length_drop; lia].
      * f_equal. lia.
    + destruct (decide (bytes_per_cluster x - io ≤ size - Z.of_nat (length acc))).
      * f_equal. lia.
      * replace (Z.to_nat size - (length acc + Z.to_nat n))%nat with 0%nat by lia. replace (Z.to_nat size - length acc - (Z.to_nat (bytes_per_cluster x) - Z.to_nat io))%nat with 0%nat by lia. by rewrite !take_0.
Qed.

(** ** Writing *)

(** No cluster is taken that [lim] bytes do not need. *)
Context {lim : Z}.

(** The chain [L] became [L'], with the first free clusters at its end, and its bytes are those it had, zeros in the new clusters,
    and [b] at the offset [off]. *)
Record wrote v s x (L : list Z) (off : nat) (b : list Z) s' x' (L' : list Z) : Prop := {
  wr_at : fat_at s' v x';
  wr_chain : chain x' (hd0 L') L';
  wr_frame : frame v L' L' s x s' x';
  wr_tight : L' = L ∨ (Z.of_nat (length L') - 1) * bytes_per_cluster x < lim;
  wr_new : ∃ new, L' = L ++ new ∧ free_clusters x = new ++ free_clusters x' ∧
    contents (dev s') x' L' = write_at (contents (dev s) x L ++ replicate (length new * Z.to_nat (bytes_per_cluster x)) 0) off b;
}.

Lemma hd0_app L L' : L ≠ [] → hd0 (L ++ L') = hd0 L.
Proof. by destruct L. Qed.

Lemma wrote_trans v s1 x1 L1 s2 x2 L2 s3 x3 L3 off b1 b2 : fat_at s1 v x1 → chain x1 (hd0 L1) L1 →
  wrote v s1 x1 L1 off b1 s2 x2 L2 → wrote v s2 x2 L2 (off + length b1) b2 s3 x3 L3 →
  (off + length b1 ≤ length (contents (dev s2) x2 L2))%nat → (off + length b1 + length b2 ≤ length (contents (dev s3) x3 L3))%nat →
  wrote v s1 x1 L1 off (b1 ++ b2) s3 x3 L3.
Proof.
  intros Hf1 Hc1 [Hf2 Hc2 Hfr2 Ht2 (n2 & -> & Hn2 & Hd2)] [Hf3 Hc3 Hfr3 Ht3 (n3 & -> & Hn3 & Hd3)] Hl2 Hl3.
  assert (bytes_per_cluster x2 = bytes_per_cluster x1) as Hb by (by rewrite (fr_geom _ _ _ _ _ _ _ Hfr2)).
  split; [done|done| | |].
  - eapply frame_trans; [|exact Hfr3]. eapply frame_weaken; [exact Hfr2|set_solver|set_solver].
  - rewrite Hb in Ht3. destruct Ht3 as [Ht3|]; [rewrite Ht3; exact Ht2|by right].
  - exists (n2 ++ n3). split; [by rewrite app_assoc|]. split; [by rewrite <-app_assoc, <-Hn3|]. rewrite Hd3, Hd2, Hb, length_app, Nat.mul_add_distr_r, replicate_add, app_assoc.
    set (A := contents (dev s1) x1 L1 ++ _). set (Z0 := replicate (length n3 * _) 0).
    assert (length (contents (dev s2) x2 (L1 ++ n2)) = length A) as HlA.
    { rewrite (contents_length s2 v x2) by (try done; intros c Hc; exact (chain_in_data _ _ _ _ Hc2 Hc)). rewrite Hb. unfold A.
      rewrite !length_app, length_replicate, (contents_length s1 v x1) by (try done; intros c Hc; exact (chain_in_data _ _ _ _ Hc1 Hc)). lia. }
    assert (length (contents (dev s3) x3 ((L1 ++ n2) ++ n3)) = (length A + length Z0)%nat) as HlB.
    { rewrite (contents_length s3 v x3) by (try done; intros c Hc; exact (chain_in_data _ _ _ _ Hc3 Hc)).
      rewrite (fr_geom _ _ _ _ _ _ _ Hfr3). cbn [bytes_per_cluster set_fat]. rewrite Hb. unfold Z0. rewrite length_replicate, <-HlA, length_app.
      rewrite (contents_length s2 v x2), Hb by (try done; intros c Hc; exact (chain_in_data _ _ _ _ Hc2 Hc)). lia. }
    rewrite <-write_at_app_l by lia. apply write_at_seq. rewrite length_app. lia.
Qed.

Lemma wrote_refl v s x L off : fat_at s v x → chain x (hd0 L) L → wrote v s x L off [] s x L.
Proof.
  intros Hf Hc. split; [done|done| |by left|].
  - eapply frame_weaken; [by apply frame_refl, fa_vol|set_solver|set_solver].
  - exists []. split; [by rewrite app_nil_r|]. split; [done|]. cbn. by rewrite app_nil_r, write_at_nil.
Qed.

(** Growing by one cluster. *)
Lemma wrote_grow v s x l p c F off : fat_at s v x → chain x (hd0 (l ++ [p])) (l ++ [p]) → free_clusters x = c :: F →
  (Z.of_nat (length l) + 1) * bytes_per_cluster x < lim →
  ∃ s' x' z, fat32_extend_chain v p s = Done c (with_vols (<[v := x']> (vols s)) s) ∧
    fat32_init_cluster v c (with_vols (<[v := x']> (vols s)) s) = Done z s' ∧ c ≠ 0 ∧
    wrote v s x (l ++ [p]) off [] s' x' (l ++ [p; c]).
Proof.
  intros Hf Hc HF Hlim. destruct (grow_ok s v x _ l p c F Hf Hc HF) as (s' & x' & z & E1 & E2 & Hc0 & Hf' & Hc' & HF' & Hcn & Hfr & Hz).
  exists s', x', z. split; [done|]. split; [done|]. split; [done|]. split; [done| | |right; rewrite length_app; cbn [length]; lia|].
  - replace (hd0 (l ++ [p; c])) with (hd0 (l ++ [p])); [done|]. by destruct l.
  - eapply frame_weaken; [exact Hfr|set_solver|set_solver].
  - exists [c]. split; [by rewrite <-app_assoc|]. split; [by rewrite HF'|]. rewrite write_at_nil.
    replace (l ++ [p; c]) with ((l ++ [p]) ++ [c]) by (by rewrite <-app_assoc). rewrite contents_app.
    rewrite (frame_contents _ _ _ _ _ _ _ _ Hfr).
    + f_equal. cbn. by rewrite Hz, app_nil_r, Nat.add_0_r.
    + intros a Ha. split; [exact (chain_in_data _ _ _ _ Hc Ha)|]. intros ?%list_elem_of_singleton. by subst.
Qed.

(** Writing into one cluster. *)
Lemma wrote_cluster v s x L1 a R io src : fat_at s v x → chain x (hd0 (L1 ++ a :: R)) (L1 ++ a :: R) →
  (io + length src ≤ Z.to_nat (bytes_per_cluster x))%nat →
  ∃ s', fat32_write_cluster v a (write_at (cdata (dev s) x a) io src) s = Done 0 s' ∧
    wrote v s x (L1 ++ a :: R) (length L1 * Z.to_nat (bytes_per_cluster x) + io) src s' x (L1 ++ a :: R).
Proof.
  intros Hf Hc Hio. assert (∀ b, b ∈ L1 ++ a :: R → in_data x b) as Hin by (intros b; apply (chain_in_data _ _ _ _ Hc)).
  assert (in_data x a) as Ha by (apply Hin; set_solver). pose proof (cdata_length s v x a Hf Ha) as Hlen.
  destruct (write_cluster_ok s v x a (write_at (cdata (dev s) x a) io src) Hf Ha) as (s' & E & Hf' & Hfr & Hd); [rewrite length_write_at; lia|].
  exists s'. split; [done|]. split; [done|done| |by left|].
  - eapply frame_weaken; [exact Hfr|set_solver|set_solver].
  - exists []. rewrite app_nil_r. split; [done|]. split; [done|]. cbn [length Nat.mul replicate]. rewrite app_nil_r, !contents_app, !contents_cons, Hd.
    pose proof (chain_NoDup _ _ _ Hc) as Hnd. apply NoDup_app in Hnd as (_ & Hn1 & Hn2). apply NoDup_cons in Hn2 as [Hn2 _].
    rewrite !(frame_contents _ _ _ _ _ _ _ _ Hfr).
    + rewrite <-(contents_length s v x L1 Hf) by (intros b Hb; apply Hin; set_solver). rewrite write_at_app_r, write_at_app_l by lia. done.
    + intros b Hb. split; [apply Hin; set_solver|]. intros ?%list_elem_of_singleton. by subst.
    + intros b Hb. split; [apply Hin; set_solver|]. intros ?%list_elem_of_singleton. subst. apply (Hn1 a Hb), list_elem_of_here.
Qed.

Lemma wrote_frame v s x L s1 off b s' x' L' : frame v [] [] s x s1 x → (∀ c, c ∈ L → in_data x c) →
  wrote v s1 x L off b s' x' L' → wrote v s x L off b s' x' L'.
Proof.
  intros Hfr HL [Hf Hc Hfr' Ht (new & -> & HF & Hd)]. split; [done|done| |done|].
  - eapply frame_trans; [|exact Hfr']. eapply frame_weaken; [exact Hfr|set_solver|set_solver].
  - exists new. split; [done|]. split; [done|]. rewrite Hd. do 2 f_equal. apply (frame_contents _ _ _ _ _ _ _ _ Hfr).
    intros c Hc'. split; [by apply HL|]. by intros ?%elem_of_nil.
Qed.
Lemma wrote_geom v s x L off b s' x' L' : wrote v s x L off b s' x' L' → bytes_per_cluster x' = bytes_per_cluster x.
Proof. intros [_ _ Hfr _ _]. by rewrite (fr_geom _ _ _ _ _ _ _ Hfr). Qed.
Lemma wrote_room v s x L off b s' x' L' : wrote v s x L off b s' x' L' →
  (length L' + length (free_clusters x') = length L + length (free_clusters x))%nat.
Proof. intros [_ _ _ _ (new & -> & -> & _)]. rewrite !length_app. lia. Qed.

(** The place in the chain where the byte [w] of the data goes. *)
Definition write_pos (bpc offset size w : Z) (L1 R : list Z) : Prop :=
  let pos := Z.of_nat (length L1) * bpc in
  (w < size → R ≠ [] ∧ pos ≤ offset + w < pos + bpc ∧ (w = 0 ∨ pos = offset + w)) ∧
  (w = size → offset + size ≤ Z.of_nat (length (L1 ++ R)) * bpc).

Lemma wrote_length v s x L off b s' x' L' : wrote v s x L off b s' x' L' →
  length (contents (dev s') x' L') = (length L' * Z.to_nat (bytes_per_cluster x))%nat.
Proof.
  intros W. pose proof W as [Hf Hc _ _ _]. rewrite (contents_length s' v x'), (wrote_geom _ _ _ _ _ _ _ _ _ W); [done..|].
  intros c. apply (chain_in_data _ _ _ _ Hc).
Qed.

(** One round of the loop: the part of the data that goes into the cluster [a]. *)
Lemma write_step v bpc offset buf fuel L1 a R w s x : let size := Z.of_nat (length buf) in let pos := Z.of_nat (length L1) * bpc in
  0 ≤ offset → 0 < bpc → offset + size + bpc < 2 ^ 32 → fat_at s v x → bytes_per_cluster x = bpc →
  chain x (hd0 (L1 ++ a :: R)) (L1 ++ a :: R) → 0 ≤ w < size → write_pos bpc offset size w L1 (a :: R) →
  ∃ n s2, n = Z.min (pos + bpc - (offset + w)) (size - w) ∧
    write_loop (S fuel) v bpc (hd0 (a :: R)) pos offset buf w s =
      (if (hd0 R =? 0) && (w + n <? size) then
         c ← fat32_extend_chain v a;
         if c =? 0 then mret (- ENOSPC, w + n) else
         fat32_init_cluster v c;;
         write_loop fuel v bpc c (pos + bpc) offset buf (w + n)
       else write_loop fuel v bpc (hd0 R) (pos + bpc) offset buf (w + n)) s2 ∧
    chain x (hd0 R) R ∧
    wrote v s x (L1 ++ a :: R) (Z.to_nat (offset + w)) (take (Z.to_nat n) (drop (Z.to_nat w) buf)) s2 x (L1 ++ a :: R).
Proof.
  intros size pos Ho Hb0 Hlim Hf Hb Hc Hw [Hp _]. destruct Hp as (_ & Hpos & Hw0); [lia|]. fold pos in Hpos, Hw0.
  assert (in_data x a) as Ha by (apply (chain_in_data _ _ _ _ Hc); set_solver).
  cbn [write_loop]. rewrite (hd0_nonzero _ _ _ (chain_suffix _ _ _ _ _ Hc)). cbn [negb andb]. fold size.
  destruct (Z.ltb_spec w size); [|lia]. change (hd0 (a :: R)) with a.
  destruct (read_cluster_ok s v x a Hf Ha) as (s1 & E1 & Hf1 & Hfr1). kbind E1. cbn [fst snd Z.eqb negb].
  pose proof (cdata_length s v x a Hf Ha) as Hlen.
  set (io := in_cluster_off pos offset). assert (io = offset + w - pos) as Hio.
  { unfold io, in_cluster_off. destruct (Z.ltb_spec pos offset); [rewrite u32_small by lia; lia|lia]. }
  set (n := copy_size bpc io size w). assert (n = Z.min (bpc - io) (size - w)) as Hn.
  { unfold n, copy_size. rewrite !u32_small by lia. destruct (Z.ltb_spec (bpc - io) (size - w)); lia. }
  rewrite (kopt_bind (λ _, part buf w n) _ s1 _ (part_ok buf w n ltac:(lia) ltac:(lia) ltac:(lia))).
  set (src := take (Z.to_nat n) (drop (Z.to_nat w) buf)). assert (length src = Z.to_nat n) as Hsrc by (unfold src; rewrite length_take, length_drop; lia).
  rewrite (kopt_bind (λ _, patch _ io src) _ s1 _ (patch_ok (cdata (dev s) x a) io src ltac:(lia) ltac:(lia))).
  assert (cdata (dev s) x a = cdata (dev s1) x a) as Hcd by (symmetry; apply (fr_data _ _ _ _ _ _ _ Hfr1); [done|by intros ?%elem_of_nil]).
  rewrite Hcd. destruct (wrote_cluster v s1 x L1 a R (Z.to_nat io) src Hf1 Hc ltac:(lia)) as (s2 & E2 & W2). kbind E2. cbn [Z.eqb negb].
  rewrite (u32_small (w + n)), (u32_small (pos + bpc)) by lia.
  replace (length L1 * Z.to_nat (bytes_per_cluster x) + Z.to_nat io)%nat with (Z.to_nat (offset + w)) in W2 by lia.
  destruct (next_cluster_ok s2 v x a R (fa_vol _ _ _ (wr_at _ _ _ _ _ _ _ _ _ W2)) (chain_suffix _ _ _ _ _ Hc)) as [En HcR]. kbind En.
  exists n, s2. split; [lia|]. split; [done|]. split; [done|].
  eapply wrote_frame; [exact Hfr1| |exact W2]. intros c. apply (chain_in_data _ _ _ _ Hc).
Qed.

Lemma write_loop_ok v bpc offset buf : 0 ≤ offset → 0 < bpc → offset + Z.of_nat (length buf) + bpc < 2 ^ 32 →
  offset + Z.of_nat (length buf) ≤ lim → ∀ fuel L1 R w s x,
  fat_at s v x → bytes_per_cluster x = bpc → chain x (hd0 (L1 ++ R)) (L1 ++ R) → 0 ≤ w ≤ Z.of_nat (length buf) →
  write_pos bpc offset (Z.of_nat (length buf)) w L1 R → Z.of_nat (length buf) - w ≤ Z.of_nat fuel →
  offset + Z.of_nat (length buf) ≤ Z.of_nat (length (L1 ++ R) + length (free_clusters x)) * bpc →
  ∃ s' x' L', write_loop fuel v bpc (hd0 R) (Z.of_nat (length L1) * bpc) offset buf w s = Done (0, Z.of_nat (length buf)) s' ∧
    wrote v s x (L1 ++ R) (Z.to_nat (offset + w)) (drop (Z.to_nat w) buf) s' x' L' ∧
    offset + Z.of_nat (length buf) ≤ Z.of_nat (length L') * bpc.
Proof.
  intros Ho Hb0 Hlim Htight. induction fuel as [|fuel IH]; intros L1 R w s x Hf Hb Hc Hw Hp Hfu Hroom.
  all: destruct (decide (w = Z.of_nat (length buf))) as [->|Hne].
  1, 3: exists s, x, (L1 ++ R); (split; [cbn; rewrite Z.ltb_irrefl, andb_false_r; done|]);
    (split; [|by apply Hp]); rewrite Nat2Z.id, drop_all; by apply wrote_refl.
  { lia. }
  destruct R as [|a R]; [by destruct (proj1 Hp ltac:(lia))|].
  destruct (write_step v bpc offset buf fuel L1 a R w s x) as (n & s2 & Hn & -> & HcR & W02); [done|done|done|done|done|done|lia|done|].
  destruct (proj1 Hp ltac:(lia)) as (_ & Hpos & Hw0). clear Hp. set (pos := Z.of_nat (length L1) * bpc) in *. rewrite (hd0_nonzero _ _ _ HcR).
  set (src := take _ _) in W02. assert (length src = Z.to_nat n) as Hsrc by (unfold src; rewrite length_take, length_drop; lia).
  assert (∀ s3 x3 R3, wrote v s x (L1 ++ a :: R) (Z.to_nat (offset + w)) src s3 x3 (L1 ++ a :: R3) → (w + n < Z.of_nat (length buf) → R3 ≠ []) →
    ∃ s' x' L', write_loop fuel v bpc (hd0 R3) (pos + bpc) offset buf (w + n) s3 = Done (0, Z.of_nat (length buf)) s' ∧
      wrote v s x (L1 ++ a :: R) (Z.to_nat (offset + w)) (drop (Z.to_nat w) buf) s' x' L' ∧ offset + Z.of_nat (length buf) ≤ Z.of_nat (length L') * bpc) as Hgo.
  { intros s3 x3 R3 W HR3. pose proof (wrote_geom _ _ _ _ _ _ _ _ _ W) as Hg. pose proof (wrote_room _ _ _ _ _ _ _ _ _ W) as Hr. pose proof W as [Hf3 Hc3 _ _ _].
    replace (L1 ++ a :: R3) with ((L1 ++ [a]) ++ R3) in * by (by rewrite <-app_assoc).
    destruct (IH (L1 ++ [a]) R3 (w + n) s3 x3 Hf3 ltac:(lia) Hc3 ltac:(lia)) as (s' & x' & L' & E & W' & HL').
    - split; rewrite !length_app; cbn [length]; [intros Hlt; split; [by apply HR3|lia]|intros; unfold pos in *; nia].
    - lia.
    - lia.
    - exists s', x', L'. split; [|split; [|done]].
      + rewrite <-E. f_equal. rewrite length_app. cbn [length]. unfold pos. lia.
      + replace (drop (Z.to_nat w) buf) with (src ++ drop (Z.to_nat (w + n)) buf).
        2: { unfold src. rewrite <-(take_drop (Z.to_nat n) (drop (Z.to_nat w) buf)) at 2. rewrite drop_drop. do 2 f_equal. lia. }
        apply (wrote_trans v s x _ s3 x3 ((L1 ++ [a]) ++ R3)); [done|done|done| | |].
        * by replace (Z.to_nat (offset + w) + length src)%nat with (Z.to_nat (offset + (w + n))) by lia.
        * rewrite (wrote_length _ _ _ _ _ _ _ _ _ W), !length_app. cbn [length]. unfold pos in *. nia.
        * rewrite (wrote_length _ _ _ _ _ _ _ _ _ W'), length_drop, Hg. nia. }
  destruct R as [|a2 R]; cbn [andb]; [|apply (Hgo s2 x); [exact W02|done]].
  destruct (Z.ltb_spec (w + n) (Z.of_nat (length buf))) as [Hlt|Hge]; [|apply (Hgo s2 x); [exact W02|lia]].
  destruct (free_clusters x) as [|c F] eqn:HF; [exfalso; rewrite length_app in Hroom; cbn [length] in Hroom; unfold pos in *; nia|].
  destruct (wrote_grow v s2 x L1 a c F (Z.to_nat (offset + w) + length src) (wr_at _ _ _ _ _ _ _ _ _ W02) Hc HF ltac:(unfold pos in *; nia)) as (s3 & x3 & z & Eg & Ez & Hc0 & Wg).
  kbind Eg. rewrite (proj2 (Z.eqb_neq _ _) Hc0). kbind Ez. apply (Hgo s3 x3 [c]); [|done].
  rewrite <-(app_nil_r src). apply (wrote_trans v s x _ s2 x (L1 ++ [a])); [done|done|exact W02|exact Wg| |].
  - rewrite (wrote_length _ _ _ _ _ _ _ _ _ W02), length_app, Hb. cbn [length]. unfold pos in *. nia.
  - rewrite (wrote_length _ _ _ _ _ _ _ _ _ Wg), length_app, Hb. cbn [length]. unfold pos in *. nia.
Qed.
End chains.
