(* ===== verification/Fat32Files.v ===== *)
(** * Chains with their buffers

    The routines on chains as a whole, the buffers they take from the heap included. *)
From S2P Require Import Prelude KHeap Fat32 Fat32Correct Fat32Chains.

Section files.
Context {H D : Type} `{KHeap H} `{BlockDev D}.
Context {lim : Z}.
Implicit Types (s : Fat H D) (x : Fat32Volume) (v : Z).
Abbreviation wrote := (wrote (lim := lim)).

Definition last0 (l : list Z) : Z := default 0 (last l).
Lemma last0_snoc l a : last0 (l ++ [a]) = a.
Proof. unfold last0. by rewrite last_snoc. Qed.

(** The first cluster of an empty file. *)
Lemma wrote_first v s x c F off : fat_at s v x → free_clusters x = c :: F → 0 < lim →
  ∃ s1 s' x' z, fat32_alloc_cluster v s = Done c s1 ∧ fat32_init_cluster v c s1 = Done z s' ∧ c ≠ 0 ∧ wrote v s x [] off [] s' x' [c].
Proof.
  intros Hf HF Hlim. pose proof (alloc_cluster_ok s v x Hf) as Ha. rewrite HF in Ha. destruct Ha as (s1 & x1 & E1 & Hf1 & Hfr1 & Hd1 & HF1 & e1 & He1 & Hn1 & Hx1).
  assert (c ∈ free_clusters x) as Hc by (rewrite HF; apply list_elem_of_here). apply elem_of_free in Hc as [Hcd _].
  assert (in_data x1 c) as Hcd1 by (by apply (frame_in_data _ _ _ _ _ _ _ _ Hfr1)).
  assert (bytes_per_cluster x1 = bytes_per_cluster x) as Hb by (by rewrite (fr_geom _ _ _ _ _ _ _ Hfr1)).
  destruct (write_cluster_ok s1 v x1 c (replicate (Z.to_nat (bytes_per_cluster x1)) 0) Hf1 Hcd1) as (s2 & E2 & Hf2 & Hfr2 & Hz); [apply length_replicate|].
  exists s1, s2, x1, 0. split; [done|]. split.
  { unfold fat32_init_cluster, volume. rewrite (kopt_bind (λ s, vols s !! v) _ s1 x1 (fa_vol _ _ _ Hf1)). by kbind E2. }
  split; [destruct Hcd; lia|]. split; [done| | |right; cbn; lia|].
  - split; [done|]. split; [done|]. exists e1. split; [done|]. by split.
  - apply (frame_trans v [c] [c] s x s1 x1); (eapply frame_weaken; [eassumption|set_solver|set_solver]).
  - exists [c]. split; [done|]. split; [by rewrite HF1|]. rewrite write_at_nil. cbn. by rewrite Hz, Hb, app_nil_r, Nat.add_0_r.
Qed.

Lemma wrote_any v s x L off off' s' x' L' : wrote v s x L off [] s' x' L' → wrote v s x L off' [] s' x' L'.
Proof. intros [Hf Hc Hfr Ht (new & HL & HF & Hd)]. split; [done..|]. exists new. split; [done|]. split; [done|]. rewrite Hd. by rewrite !write_at_nil. Qed.
Lemma wrote_grows v s1 x1 L1 s2 x2 L2 s3 x3 L3 : fat_at s1 v x1 → chain x1 (hd0 L1) L1 →
  wrote v s1 x1 L1 0 [] s2 x2 L2 → wrote v s2 x2 L2 0 [] s3 x3 L3 → wrote v s1 x1 L1 0 [] s3 x3 L3.
Proof. intros Hf Hc W1 W2. rewrite <-(app_nil_r []). eapply (wrote_trans v s1 x1 L1 s2 x2 L2); [done|done|done|exact W2|cbn; lia..]. Qed.

(** The loop that goes to the offset: it ends with as many clusters behind it as come before the one of the offset. *)
Lemma extend_loop_ok v bpc offset : 0 ≤ offset → 0 < bpc → offset + bpc < 2 ^ 32 → offset < lim → ∀ fuel L1 R s x,
  fat_at s v x → bytes_per_cluster x = bpc → chain x (hd0 (L1 ++ R)) (L1 ++ R) → Z.of_nat (length L1) ≤ offset / bpc →
  R ≠ [] ∨ Z.of_nat (length L1) = offset / bpc → offset / bpc - Z.of_nat (length L1) ≤ Z.of_nat fuel →
  offset / bpc ≤ Z.of_nat (length (L1 ++ R) + length (free_clusters x)) →
  ∃ s' x' L1' R', extend_loop fuel v bpc (hd0 R) (last0 L1) (Z.of_nat (length L1) * bpc) offset s =
      Done (Some (hd0 R', last0 L1', Z.of_nat (length L1') * bpc)) s' ∧ Z.of_nat (length L1') = offset / bpc ∧
    wrote v s x (L1 ++ R) 0 [] s' x' (L1' ++ R').
Proof.
  intros Ho Hb0 Hlim Htight. induction fuel as [|fuel IH]; intros L1 R s x Hf Hb Hc HL HR Hfu Hroom.
  all: pose proof (Z.mul_div_le offset bpc Hb0) as Hq1; pose proof (Z.mul_succ_div_gt offset bpc Hb0) as Hq2; set (q := offset / bpc) in *.
  all: destruct (decide (Z.of_nat (length L1) = q)) as [Hq|Hq].
  1, 3: exists s, x, L1, R; (split; [|split; [done|by apply wrote_refl]]); cbn [extend_loop];
    rewrite u32_small by nia; (destruct (Z.leb_spec (Z.of_nat (length L1) * bpc + bpc) offset); [nia|]); by rewrite andb_false_r.
  { lia. }
  destruct R as [|a R]; [by destruct HR|]. cbn [extend_loop]. pose proof (chain_suffix _ _ _ _ _ Hc) as HcR. rewrite (hd0_nonzero _ _ _ HcR).
  rewrite u32_small by nia. destruct (Z.leb_spec (Z.of_nat (length L1) * bpc + bpc) offset) as [_|]; [|nia]. cbn [negb andb].
  change (hd0 (a :: R)) with a. destruct (next_cluster_ok s v x a R (fa_vol _ _ _ Hf) HcR) as [En HcR']. kbind En. rewrite (hd0_nonzero _ _ _ HcR').
  rewrite u32_small by nia.
  assert (∀ s3 x3 R3, wrote v s x (L1 ++ a :: R) 0 [] s3 x3 (L1 ++ a :: R3) → R3 ≠ [] ∨ Z.of_nat (length L1) + 1 = q →
    ∃ s' x' L1' R', extend_loop fuel v bpc (hd0 R3) a (Z.of_nat (length L1) * bpc + bpc) offset s3 =
        Done (Some (hd0 R', last0 L1', Z.of_nat (length L1') * bpc)) s' ∧ Z.of_nat (length L1') = q ∧ wrote v s x (L1 ++ a :: R) 0 [] s' x' (L1' ++ R')) as Hgo.
  { intros s3 x3 R3 W HR3. pose proof (wrote_geom _ _ _ _ _ _ _ _ _ W) as Hg. pose proof (wrote_room _ _ _ _ _ _ _ _ _ W) as Hr. pose proof W as [Hf3 Hc3 _ _ _].
    replace (L1 ++ a :: R3) with ((L1 ++ [a]) ++ R3) in * by (by rewrite <-app_assoc).
    destruct (IH (L1 ++ [a]) R3 s3 x3 Hf3 ltac:(lia) Hc3) as (s' & x' & L1' & R' & E & Hl & W').
    1-4: rewrite ?length_app in *; cbn [length] in *; lia || (destruct HR3; [by left|right; lia]).
    exists s', x', L1', R'. rewrite last0_snoc, length_app in E. cbn [length] in E. split; [|split; [done|by eapply wrote_grows]].
    rewrite <-E. f_equal. lia. }
  destruct R as [|a2 R]; cbn [andb]; [|apply (Hgo s x); [by apply wrote_refl|by left]].
  destruct (Z.leb_spec (Z.of_nat (length L1) * bpc + bpc + bpc) offset) as [Hle|Hgt]; [|apply (Hgo s x); [by apply wrote_refl|right; nia]].
  destruct (free_clusters x) as [|c F] eqn:HF; [exfalso; rewrite length_app in Hroom; cbn [length] in Hroom; nia|].
  destruct (wrote_grow (lim := lim) v s x L1 a c F 0 Hf Hc HF ltac:(nia)) as (s3 & x3 & z & Eg & Ez & Hc0 & Wg).
  kbind Eg. rewrite (proj2 (Z.eqb_neq _ _) Hc0). kbind Ez. apply (Hgo s3 x3 [c]); [done|by left].
Qed.

(** ** Buffers *)

Lemma with_heap_twice h h' s : with_heap h (with_heap h' s) = with_heap h s.
Proof. done. Qed.
Lemma with_heap_id s : with_heap (fheap s) s = s.
Proof. by destruct s. Qed.
Lemma fat_at_heap h s v x : fat_at s v x → fat_at (with_heap h s) v x.
Proof. by intros []. Qed.

(** The heap has the same objects as before. *)
Definition same_live s s' : Prop := kh_ok (fheap s') ∧ kh_live (fheap s') = kh_live (fheap s).

(** The heap cannot grow: the reason for every failure for want of memory. *)
Definition full s : Prop := kh_full (fheap s).
Definition stopped {A} (o : outcome (Fat H D) A) : Prop := ∃ s', o = Panic s' ∧ full s'.
Lemma stopped_bind {A C} (m : K (Fat H D) A) (f : A → K (Fat H D) C) s : stopped (m s) → stopped ((m ≫= f) s).
Proof. intros (s' & HP & Hx). exists s'. split; [by apply bind_Panic|done]. Qed.

(** A buffer: the heap stops the machine, or gives nothing, or gives one that is new. *)
Lemma f_alloc_cases s n flags : kh_ok (fheap s) → 0 < n ≤ 2 ^ 62 →
  stopped (f_alloc n flags s) ∨ (∃ h, f_alloc n flags s = Done 0 (with_heap h s) ∧ full (with_heap h s) ∧ same_live s (with_heap h s)) ∨
  (∃ a h, f_alloc n flags s = Done a (with_heap h s) ∧ a ≠ 0 ∧ kh_ok h ∧ a ∉ kh_live (fheap s) ∧ kh_live h = {[a]} ∪ kh_live (fheap s)).
Proof.
  intros Hh Hn. unfold f_alloc, zoom.
  destruct (kh_alloc_law (fheap s) n flags Hh Hn) as [(h & E & Hx)|[(h & E & Hh' & Hl & Hx)|(a & h & E & Hh' & Ha & Hnl & Hl)]]; rewrite E.
  - left. exists (with_heap h s). by split.
  - right. left. exists h. split; [done|]. split; [done|]. by split.
  - right. right. exists a, h. by split.
Qed.

Lemma f_free_back s a h s2 : kh_ok h → a ∉ kh_live (fheap s) → kh_live h = {[a]} ∪ kh_live (fheap s) → fheap s2 = h →
  ∃ h', f_free a s2 = Done tt (with_heap h' s2) ∧ same_live s (with_heap h' s2).
Proof.
  intros Hh Hn Hl Hs2. destruct (kh_free_law h a Hh) as (h' & E & Hh' & Hl' & _); [rewrite Hl; set_solver|].
  exists h'. unfold f_free, zoom. rewrite Hs2, E. split; [done|]. split; [done|]. cbn. rewrite Hl', Hl. set_solver.
Qed.

(** ** Reading a chain *)

Lemma read_chain_ok s v x c l offset size : fat_at s v x → kh_ok (fheap s) → chain x c l → 0 ≤ offset → 0 ≤ size < 2 ^ 31 →
  (Z.of_nat (length l) + 1) * bytes_per_cluster x < 2 ^ 32 →
  let got := take (Z.to_nat size) (drop (Z.to_nat offset) (contents (dev s) x l)) in
  stopped (fat32_read_chain v c offset size s) ∨
  ∃ r s', fat32_read_chain v c offset size s = Done r s' ∧ fat_at s' v x ∧ same_live s s' ∧ frame v [] [] (with_heap (fheap s') s) x s' x ∧
    (r = (- ENOMEM, []) ∧ full s' ∨ r = (Z.of_nat (length got), got)).
Proof.
  intros Hf Hh Hc Ho Hsz Hlim got. pose proof Hf as [Hv Hok Hd]. pose proof (vo_spc _ _ Hok). pose proof (vo_bpc _ _ Hok).
  unfold fat32_read_chain. rewrite (chain_hd _ _ _ Hc), (hd0_nonzero _ _ _ Hc). destruct l as [|a l].
  { right. exists (0, []), s. split; [done|]. split; [done|]. split; [by split|]. split; [rewrite with_heap_id; by apply frame_refl|].
    right. unfold got. cbn. by rewrite drop_nil, take_nil. }
  cbn zeta. unfold volume. rewrite (kopt_bind (λ s, vols s !! v) _ s x Hv).
  destruct (f_alloc_cases s (bytes_per_cluster x) 0 Hh ltac:(lia)) as [HP|[(h & E & Href & Hs)|(cb & h & E & Hcb & Hhb & Hnb & Hlb)]].
  { left. by apply stopped_bind. }
  { right. exists (- ENOMEM, []), (with_heap h s). kbind E. split; [done|]. split; [by apply fat_at_heap|]. split; [done|].
    split; [apply frame_refl; done|]. left. by split. }
  right. kbind E. rewrite (proj2 (Z.eqb_neq _ _) Hcb). set (sh := with_heap h s). assert (fat_at sh v x) as Hfh by (by apply fat_at_heap).
  rewrite <-(chain_hd _ _ _ Hc). pose proof (clusters_length _ _ _ _ Hok Hc) as Hcl.
  destruct (skip_loop_ok v x offset sh (fa_vol _ _ _ Hfh) ltac:(lia) Ho (a :: l) c (skip_fuel x offset) 0 Hc) as (k & Es & Hck & Hk & Hpos & Hend);
    [lia|lia|unfold skip_fuel; lia|]. kbind Es. cbn [fst snd]. rewrite Z.add_0_l.
  destruct (read_loop_ok v x offset size Ho ltac:(lia) (drop k (a :: l)) _ (copy_fuel x size) (Z.of_nat k * bytes_per_cluster x) [] sh Hfh Hck) as (s2 & Er & Hf2 & Hfr2).
  { lia. } { destruct Hend as [->|]; [by right|left; lia]. } { rewrite length_drop. nia. } { rewrite length_drop. unfold copy_fuel. lia. } { cbn. lia. }
  kbind Er. cbn [fst snd app]. destruct (f_free_back s cb h s2 Hhb Hnb Hlb) as (h' & Ef & Hsl). { by rewrite (fr_heap _ _ _ _ _ _ _ Hfr2). }
  kbind Ef. assert (length got ≤ Z.to_nat size)%nat by (unfold got; rewrite length_take; lia).
  assert (take (Z.to_nat size - length (A:=Z) []) (drop (Z.to_nat (offset - Z.of_nat k * bytes_per_cluster x)) (contents (dev sh) x (drop k (a :: l)))) = got) as ->.
  { unfold got. cbn [length]. rewrite Nat.sub_0_r. f_equal. change (dev sh) with (dev s). destruct Hend as [Hend|Hend].
    - rewrite Hend. change (contents (dev s) x []) with (@nil Z). rewrite drop_nil. symmetry. apply drop_ge.
      rewrite (contents_length s v x) by (try done; intros b; apply (chain_in_data _ _ _ _ Hc)).
      apply (f_equal length) in Hend. rewrite length_drop in Hend. cbn [length] in *. destruct Hpos as [->|]; [lia|]. nia.
    - rewrite (contents_drop s v) by (try done; intros b; apply (chain_in_data _ _ _ _ Hc)). rewrite drop_drop. f_equal. destruct Hpos as [->|]; nia. }
  exists (Z.of_nat (length got), got), (with_heap h' s2). split; [|split; [by apply fat_at_heap|split; [done|split; [|by right]]]].
  - unfold mret, K_ret. do 2 f_equal. unfold i32. rewrite Z.mod_small by lia. destruct (Z.ltb_spec (Z.of_nat (length got)) (2 ^ 31)); [done|lia].
  - destruct Hfr2. by split.
Qed.

(** ** Writing a chain *)

Lemma wrote_heap v s x L off b s' x' L' h h' : wrote v (with_heap h s) x L off b s' x' L' → wrote v (with_heap h' s) x L off b (with_heap h' s') x' L'.
Proof. intros [Hf Hc [] Ht Hn]. split; [by apply fat_at_heap|done|by split|done|done]. Qed.

Lemma chain_app_r x c l1 l2 : chain x c (l1 ++ l2) → chain x (hd0 l2) l2.
Proof. destruct l2 as [|a l2]; [done|]. apply chain_suffix. Qed.

(** A cluster at the offset, when the chain ends just before it. *)
Lemma at_offset v s x L R : fat_at s v x → chain x (hd0 (L ++ R)) (L ++ R) → L ++ R ≠ [] → (length L < length (L ++ R) + length (free_clusters x))%nat →
  Z.of_nat (length L) * bytes_per_cluster x < lim →
  ∃ s' x' R', (if hd0 R =? 0 then c ← fat32_extend_chain v (last0 L); if c =? 0 then mret 0 else fat32_init_cluster v c;; mret c else mret (hd0 R)) s = Done (hd0 R') s' ∧
    R' ≠ [] ∧ wrote v s x (L ++ R) 0 [] s' x' (L ++ R').
Proof.
  intros Hf Hc HL Hroom Hlim. rewrite (hd0_nonzero _ _ _ (chain_app_r _ _ _ _ Hc)). destruct R as [|a R]; [|exists s, x, (a :: R); split; [done|]; split; [done|]; by apply wrote_refl].
  rewrite app_nil_r in *. destruct (free_clusters x) as [|c F] eqn:HF; [cbn [length] in Hroom; lia|].
  destruct (exists_last HL) as (l & p & ->). destruct (wrote_grow (lim := lim) v s x l p c F 0 Hf Hc HF ltac:(rewrite length_app in Hlim; cbn [length] in Hlim; lia)) as (s' & x' & z & Eg & Ez & Hc0 & Wg).
  exists s', x', [c]. rewrite last0_snoc. kbind Eg. rewrite (proj2 (Z.eqb_neq _ _) Hc0). kbind Ez. split; [done|]. split; [done|]. by rewrite <-app_assoc.
Qed.

(** With room for the data, the bytes of the chain are those it had and zeros, with the data at the offset. *)
Lemma write_chain_ok s v x first L offset buf : let size := Z.of_nat (length buf) in
  fat_at s v x → kh_ok (fheap s) → chain x first L → 0 ≤ offset → size < 2 ^ 31 → offset + size + bytes_per_cluster x < 2 ^ 32 →
  lim = offset + Z.max 1 size → lim ≤ Z.of_nat (length L + length (free_clusters x)) * bytes_per_cluster x →
  stopped (fat32_write_chain v first offset buf s) ∨
  (∃ h, fat32_write_chain v first offset buf s = Done (- ENOMEM, first) (with_heap h s) ∧ full (with_heap h s) ∧ same_live s (with_heap h s)) ∨
  ∃ s' x' L', fat32_write_chain v first offset buf s = Done (size, hd0 L') s' ∧ same_live s s' ∧
    wrote v (with_heap (fheap s') s) x L (Z.to_nat offset) buf s' x' L' ∧ offset + size ≤ Z.of_nat (length L') * bytes_per_cluster x.
Proof.
  intros size Hf Hh Hc Ho Hsz Hlim Hl0 Hroom. pose proof Hf as [Hv Hok Hd]. pose proof (vo_spc _ _ Hok). pose proof (vo_bpc _ _ Hok).
  unfold fat32_write_chain, volume. rewrite (kopt_bind (λ s, vols s !! v) _ s x Hv).
  destruct (f_alloc_cases s (bytes_per_cluster x) 0 Hh ltac:(lia)) as [HP|[(h & E & Href & Hs)|(cb & h & E & Hcb & Hhb & Hnb & Hlb)]].
  { left. by apply stopped_bind. }
  { right. left. exists h. kbind E. by split. }
  right. right. kbind E. rewrite (proj2 (Z.eqb_neq _ _) Hcb). set (sh := with_heap h s). assert (fat_at sh v x) as Hfh by (by apply fat_at_heap).
  (* the first cluster *)
  set (m0 := if first =? 0 then _ else _).
  assert (∃ s1 x1 L1, m0 sh = Done (hd0 L1) s1 ∧ L1 ≠ [] ∧ wrote v sh x L 0 [] s1 x1 L1) as (s1 & x1 & L1 & E1 & HL1 & W1).
  { unfold m0. rewrite (chain_hd _ _ _ Hc) in Hc |- *. rewrite (hd0_nonzero _ _ _ Hc). destruct L as [|a L]; [|by exists sh, x, (a :: L); split; [|split; [|apply wrote_refl]]].
    destruct (free_clusters x) as [|c F] eqn:HF; [exfalso; cbn [length] in Hroom; lia|].
    destruct (wrote_first v sh x c F 0 Hfh HF ltac:(lia)) as (s1 & s2 & x2 & z & Ea & Ei & Hc0 & W). exists s2, x2, [c]. split; [|done].
    kbind Ea. rewrite (proj2 (Z.eqb_neq _ _) Hc0). by kbind Ei. }
  kbind E1. pose proof (wrote_geom _ _ _ _ _ _ _ _ _ W1) as Hg1. pose proof (wrote_room _ _ _ _ _ _ _ _ _ W1) as Hr1. pose proof W1 as [Hf1 Hc1 _ _ _].
  rewrite (hd0_nonzero _ _ _ Hc1). destruct L1 as [|a L1]; [done|].
  (* the way to the offset *)
  destruct (extend_loop_ok v (bytes_per_cluster x) offset Ho ltac:(lia) ltac:(lia) ltac:(lia) (skip_fuel x offset) [] (a :: L1) s1 x1 Hf1 Hg1 Hc1) as (s2 & x2 & L2 & R2 & E2 & HL2 & W2).
  { cbn. apply Z.div_pos; lia. } { by left. } { unfold skip_fuel. cbn. lia. } { cbn [app]. rewrite Hr1. nia. }
  change (last0 []) with 0 in E2. change (Z.of_nat (length []) * bytes_per_cluster x) with 0 in E2. kbind E2. cbv beta iota.
  cbn [app] in W2. pose proof (wrote_grows _ _ _ _ _ _ _ _ _ _ Hfh (eq_rect _ (λ c, chain x c L) Hc _ (chain_hd _ _ _ Hc)) W1 W2) as W12.
  pose proof (wrote_geom _ _ _ _ _ _ _ _ _ W12) as Hg2. pose proof (wrote_room _ _ _ _ _ _ _ _ _ W12) as Hr2. pose proof W12 as [Hf2 Hc2 _ _ (new2 & HL2' & _)].
  pose proof (Z.mul_div_le offset (bytes_per_cluster x) ltac:(lia)) as Hq1. pose proof (Z.mul_succ_div_gt offset (bytes_per_cluster x) ltac:(lia)) as Hq2.
  destruct (at_offset v s2 x2 L2 R2 Hf2 Hc2) as (s3 & x3 & R3 & E3 & HR3 & W3).
  { pose proof W2 as [_ _ _ _ (n & Hn & _)]. by rewrite Hn. } { rewrite Hr2. nia. } { rewrite Hg2. nia. }
  kbind E3. pose proof W3 as [Hf3 Hc3 _ _ _]. pose proof (hd0_nonzero _ _ _ (chain_app_r _ _ _ _ Hc3)) as Hnz. rewrite Hnz. destruct R3 as [|c R3]; [done|].
  pose proof (wrote_grows _ _ _ _ _ _ _ _ _ _ Hfh (eq_rect _ (λ c, chain x c L) Hc _ (chain_hd _ _ _ Hc)) W12 W3) as W13.
  pose proof (wrote_geom _ _ _ _ _ _ _ _ _ W13) as Hg3. pose proof (wrote_room _ _ _ _ _ _ _ _ _ W13) as Hr3.
  destruct (write_loop_ok (lim := lim) v (bytes_per_cluster x) offset buf Ho ltac:(lia) Hlim ltac:(lia) (copy_fuel x size) L2 (c :: R3) 0 s3 x3 Hf3 Hg3 Hc3) as (s4 & x4 & L4 & E4 & W4 & HL4).
  { lia. } { split; [intros; split; [done|nia]|rewrite length_app; cbn [length]; nia]. } { unfold copy_fuel. lia. } { rewrite Hr3. nia. }
  kbind E4. rewrite Z.add_0_r, Z2Nat.inj_0, drop_0 in W4.
  assert (wrote v sh x L (Z.to_nat offset) buf s4 x4 L4) as W.
  { rewrite <-(app_nil_l buf). apply (wrote_trans v sh x L s3 x3 (L2 ++ c :: R3)); [done|by rewrite <-(chain_hd _ _ _ Hc)|by eapply wrote_any| | |].
    - cbn [length]. by rewrite Nat.add_0_r.
    - rewrite (wrote_length _ _ _ _ _ _ _ _ _ W13), length_app. cbn [length]. nia.
    - rewrite (wrote_length _ _ _ _ _ _ _ _ _ W4), Hg3. cbn [length]. nia. }
  destruct (f_free_back s cb h s4 Hhb Hnb Hlb) as (h' & Ef & Hsl). { by rewrite (fr_heap _ _ _ _ _ _ _ (wr_frame _ _ _ _ _ _ _ _ _ W)). }
  exists (with_heap h' s4), x4, L4. split; [|split; [done|split; [exact (wrote_heap _ _ _ _ _ _ _ _ _ _ _ W)|done]]].
  kbind Ef. cbn [fst snd Z.eqb negb]. unfold mret, K_ret. do 2 f_equal; [apply i32_small; lia|].
  pose proof W as [_ _ _ _ (n4 & HL4' & _)]. pose proof W4 as [_ _ _ _ (n4' & -> & _)].
  rewrite !hd0_app by (intros ?%app_nil; destruct_and!; done). pose proof W1 as [_ _ _ _ (n1 & Hn1 & _)].
  pose proof W2 as [_ _ _ _ (n & Hn & _)]. pose proof W3 as [_ _ _ _ (n3 & Hn3 & _)]. rewrite Hn3, Hn. by rewrite <-!app_assoc.
Qed.
End files.
