(* ===== verification/Fat32Sync.v ===== *)
(** * The table on the disk

    [fat32_sync] writes the cached table back, [fat32_mount] reads it, and [fat32_free_chain] gives the clusters of a chain
    back. *)
From S2P Require Import Prelude KHeap Fat32 Fat32Correct Fat32Chains Fat32Files.

(** ** Entries and bytes *)

Lemma le_val_le_bytes4 e : 0 ≤ e < 2 ^ 32 → le_val (le_bytes 4 e) = e.
Proof. by apply (le_val_le_bytes 4). Qed.
Lemma length_fat_bytes l : length (fat_bytes l) = (4 * length l)%nat.
Proof.
  unfold fat_bytes. rewrite (length_concat_blocks 4), length_fmap; [lia|]. apply Forall_fmap, Forall_forall. intros e _. cbn. by rewrite le_bytes_length.
Qed.
Lemma fat_entries_bytes l : Forall (λ e, 0 ≤ e < 2 ^ 32) l → fat_entries (length l) (fat_bytes l) = l.
Proof.
  unfold fat_bytes. induction 1 as [|e l He _ IH]; [done|]. cbn [length fat_entries fmap list_fmap concat].
  assert (length (le_bytes 4 e) = 4%nat) as H4 by (by rewrite le_bytes_length).
  rewrite take_app_length', drop_app_length', le_val_le_bytes4 by done. by rewrite IH.
Qed.

Section sync.
Context {H D : Type} `{KHeap H} `{BlockDev D}.
Implicit Types (s : Fat H D) (x : Fat32Volume) (v : Z).

Definition fat_sector x (i : Z) : list Z := take 512 (drop (Z.to_nat (512 * i)) (fat_bytes (fat x))).

(** The table on the disk is that of the volume, and the mark that they differ is right. *)
Definition on_disk s x : Prop := ∀ k, 0 ≤ k < fat_sectors x → bd_sector (dev s) (fat_start x + k) = fat_sector x k.
Definition marked s x : Prop := fat_dirty x = 0 → on_disk s x.
Lemma frame_marked v C B s x s' x' : frame v C B s x s' x' → vol_ok x (bd_capacity (dev s)) → marked s x → marked s' x'.
Proof.
  intros Hf Hok Hm Hc. destruct (fr_clean _ _ _ _ _ _ _ Hf Hc) as [Hfat Hc0]. pose proof (vo_start _ _ Hok) as (? & ? & ?).
  assert (fat_sectors x' = fat_sectors x ∧ fat_start x' = fat_start x) as [E1 E2] by (by rewrite (fr_geom _ _ _ _ _ _ _ Hf)).
  intros k Hk. rewrite E1 in Hk. rewrite E2, (fr_low _ _ _ _ _ _ _ Hf) by lia. unfold fat_sector. rewrite Hfat. by apply Hm.
Qed.

(** The volume that [fat32_sync] finds through the cache. *)
Definition sync_vol s v : Prop :=
  ∃ c a rest n i, node_cache s = (c, a) :: rest ∧ nodes s !! a = Some n ∧ infos s !! private_data n = Some i ∧ vol i = v.

Lemma sync_loop_ok v x n : 0 ≤ n → ∀ i s, fat_at s v x → 0 ≤ i → i + n = fat_sectors x →
  ∃ d, sync_loop (seqZ i n) x s = Done true (with_dev d s) ∧ fat_at (with_dev d s) v x ∧
    ∀ j, bd_sector d j = if decide (fat_start x + i ≤ j < fat_start x + i + n) then fat_sector x (j - fat_start x) else bd_sector (dev s) j.
Proof.
  intros Hn. pattern n. apply natlike_ind; [|clear n Hn; intros n Hn IH|done]; intros i s Hf Hi Hin.
  { exists (dev s). assert (with_dev (dev s) s = s) as -> by (by destruct s). split; [done|]. split; [done|]. intros j. by rewrite decide_False by lia. }
  rewrite seqZ_cons by lia. rewrite Z.pred_succ. cbn [sync_loop]. pose proof Hf as [Hv Hok Hd]. pose proof Hok as [? ? ? [? [? ?]] [? ?] Hlen ? ? _].
  rewrite (u32_small (i * SECTOR_SIZE)) by (unfold SECTOR_SIZE; lia).
  rewrite (kopt_bind (λ _, part _ _ _) _ s (fat_sector x i)).
  2: { rewrite part_ok by (unfold SECTOR_SIZE; rewrite ?length_fat_bytes; lia). unfold fat_sector, SECTOR_SIZE. do 3 f_equal. lia. }
  rewrite u32_small by nia.
  destruct (bd_write_law (dev s) (fat_start x + i) 1 (fat_sector x i) Hd) as (d1 & E1 & Hd1 & Hc1 & Hs1); [lia|lia|nia| |].
  { unfold fat_sector. rewrite length_take, length_drop, length_fat_bytes. lia. }
  assert (dev_write (fat_start x + i) 1 (fat_sector x i) s = Done 0 (with_dev d1 s)) as Ew by (unfold dev_write, zoom; by rewrite E1).
  kbind Ew. cbn [Z.eqb negb]. assert (fat_at (with_dev d1 s) v x) as Hf1 by (split; [done|by cbn; rewrite Hc1|done]).
  destruct (IH (Z.succ i) (with_dev d1 s) Hf1) as (d2 & E2 & Hf2 & Hs2); [lia|lia|]. exists d2. rewrite E2. split; [done|]. split; [exact Hf2|].
  intros j. rewrite Hs2. cbn. repeat case_decide; try lia; try done; rewrite Hs1.
  - rewrite decide_True by lia. replace (j - (fat_start x + i)) with 0 by lia. cbn. unfold fat_sector. rewrite drop_0, take_take. do 2 f_equal. do 2 f_equal. lia.
  - by rewrite decide_False by lia.
Qed.

(** The data of the clusters does not change, and the table is on the disk. *)
Lemma sync_ok s v x : fat_at s v x → sync_vol s v →
  ∃ s', fat32_sync s = Done 0 s' ∧ fat_at s' v (set_fat (fat x) 0 x) ∧ fheap s' = fheap s ∧ nodes s' = nodes s ∧ infos s' = infos s ∧
    node_cache s' = node_cache s ∧ (∀ c, in_data x c → cdata (dev s') x c = cdata (dev s) x c) ∧
    (∀ j, j < fat_start x → bd_sector (dev s') j = bd_sector (dev s) j) ∧
    (marked s x → on_disk s' (set_fat (fat x) 0 x)).
Proof.
  intros Hf (c & a & rest & n & i & Hca & Hn & Hi & Hvol). pose proof Hf as [Hv Hok Hd]. unfold fat32_sync. rewrite kget_bind, Hca. cbv beta iota.
  unfold to_fat32, node_at, volume. rewrite bind_assoc, (kopt_bind (λ s, nodes s !! a) _ s n Hn), (kopt_bind (λ s, infos s !! private_data n) _ s i Hi).
  rewrite Hvol, (kopt_bind (λ s, vols s !! v) _ s x Hv). pose proof Hok as [? ? ? [? [? ?]] _ _ _ _ _].
  destruct (Z.eqb_spec (fat_dirty x) 0) as [Hz|Hz].
  { exists s. split; [done|]. assert (set_fat (fat x) 0 x = x) as -> by (destruct x; cbn in *; by subst).
    split; [done|]. do 4 (split; [done|]). split; [done|]. split; [done|]. intros Hm. by apply Hm. }
  destruct (sync_loop_ok v x (fat_sectors x) ltac:(lia) 0 s Hf ltac:(lia) ltac:(lia)) as (d & E & Hf' & Hs). kbind E. cbn [negb].
  assert (upd_vol v (λ y, set_fat (fat y) 0 y) (with_dev d s) = Done tt (with_vols (<[v := set_fat (fat x) 0 x]> (vols s)) (with_dev d s))) as Eu.
  { unfold upd_vol, kupd. cbn [vols with_dev]. by rewrite Hv. }
  kbind Eu. eexists. split; [done|]. split; [|do 4 (split; [done|]); split; [|split]].
  - destruct Hf' as [? [] ?]. split; [apply lookup_insert_eq| |done]. by split.
  - intros c' Hc'. unfold cdata. f_equal. apply list_fmap_ext. intros k j Hj%list_elem_of_lookup_2%elem_of_seqZ. cbn. rewrite Hs, decide_False; [done|].
    pose proof (sector_range _ _ _ Hok Hc'). lia.
  - intros j Hj. cbn. by rewrite Hs, decide_False by lia.
  - intros _ k Hk. cbn in Hk |- *. rewrite Hs, decide_True by lia. unfold fat_sector. cbn. do 4 f_equal. lia.
Qed.

(** ** Mounting *)

Lemma read_sector_ok s v x j : fat_at s v x → 0 ≤ j < bd_capacity (dev s) →
  ∃ d, dev_read j 1 s = Done (0, bd_sector (dev s) j) (with_dev d s) ∧ bd_ok d ∧ bd_capacity d = bd_capacity (dev s) ∧ ∀ i, bd_sector d i = bd_sector (dev s) i.
Proof.
  intros [_ _ Hd] Hj. destruct (bd_read_law (dev s) j 1 Hd) as (d & E & Hd' & Hc & Hs); [lia..|]. exists d. split; [|done].
  unfold dev_read, zoom. rewrite E, seqZ_cons by lia. rewrite seqZ_nil by lia. cbn. by rewrite app_nil_r.
Qed.

(** The loop that reads the table: the sectors before number [i] are in place. *)
Lemma load_fat_ok v x y n : fat_start y = fat_start x → 0 ≤ n → ∀ i s buf, fat_at s v x → 0 ≤ i → i + n = fat_sectors x →
  on_disk s x →
  length buf = length (fat_bytes (fat x)) → take (Z.to_nat (512 * i)) buf = take (Z.to_nat (512 * i)) (fat_bytes (fat x)) →
  ∃ d, load_fat (seqZ i n) y buf s = Done (Some (fat_bytes (fat x))) (with_dev d s) ∧ fat_at (with_dev d s) v x.
Proof.
  intros Hy Hn. pattern n. apply natlike_ind; [|clear n Hn; intros n Hn IH|done]; intros i s buf Hf Hi Hin Hdisk Hl Hbuf.
  { exists (dev s). assert (with_dev (dev s) s = s) as -> by (by destruct s). split; [|done].
    pose proof (vo_len _ _ (fa_ok _ _ _ Hf)). rewrite length_fat_bytes in Hl. rewrite !take_ge in Hbuf by (rewrite ?length_fat_bytes; lia). rewrite seqZ_nil by lia. cbn. by rewrite Hbuf. }
  rewrite seqZ_cons by lia. rewrite Z.pred_succ. cbn [load_fat]. pose proof Hf as [Hv Hok Hd]. pose proof Hok as [? ? ? [? [? ?]] [? ?] Hlen ? ? ?].
  rewrite Hy, (u32_small (fat_start x + i)) by nia. destruct (read_sector_ok s v x (fat_start x + i) Hf) as (d1 & E1 & Hd1 & Hc1 & Hs1); [nia|].
  kbind E1. cbn [fst snd Z.eqb negb]. rewrite Hdisk by lia. rewrite length_fat_bytes in Hl.
  assert (length (fat_sector x i) = 512%nat) as Hls by (unfold fat_sector; rewrite length_take, length_drop, length_fat_bytes; lia).
  rewrite (u32_small (i * SECTOR_SIZE)) by (unfold SECTOR_SIZE; lia). unfold SECTOR_SIZE.
  rewrite (kopt_bind (λ _, patch _ _ _) _ _ _ (patch_ok buf (i * 512) (fat_sector x i) ltac:(lia) ltac:(lia))).
  assert (fat_at (with_dev d1 s) v x) as Hf1 by (split; [done|by cbn; rewrite Hc1|done]).
  destruct (IH (Z.succ i) (with_dev d1 s) (write_at buf (Z.to_nat (i * 512)) (fat_sector x i)) Hf1) as (d2 & E2 & Hf2); [lia|lia| | | |by exists d2; rewrite E2].
  - intros k Hk. cbn. rewrite Hs1. by apply Hdisk.
  - rewrite length_write_at, length_fat_bytes; lia.
  - unfold write_at. rewrite app_assoc, take_app_le by (rewrite length_app, length_take; lia).
    rewrite take_ge by (rewrite length_app, length_take; lia). replace (Z.to_nat (i * 512)) with (Z.to_nat (512 * i)) by lia. rewrite Hbuf.
    unfold fat_sector. replace (Z.to_nat (512 * Z.succ i)) with (Z.to_nat (512 * i) + 512)%nat by lia. by rewrite take_take_drop.
Qed.

(** A new node that is not in the cache. *)
Lemma alloc_node_ok s v ty first dir_c idx : kh_ok (fheap s) → first = 0 ∨ cache_find first (node_cache s) = 0 →
  stopped (fat32_alloc_node v ty first dir_c idx s) ∨
  (∃ s', fat32_alloc_node v ty first dir_c idx s = Done 0 s' ∧ full s' ∧ same_live s s') ∨
  ∃ a s' n, fat32_alloc_node v ty first dir_c idx s = Done a s' ∧ a ≠ 0 ∧ vols s' = vols s ∧ dev s' = dev s ∧ kh_ok (fheap s') ∧ kh_live (fheap s) ⊆ kh_live (fheap s') ∧
    nodes s' !! a = Some n ∧ type n = ty ∧ size n = 0 ∧ infos s' !! private_data n = Some (mkInfo v first dir_c idx) ∧
    ∀ b, b ≠ a → nodes s' !! b = nodes s !! b.
Proof.
  intros Hh Hc. unfold fat32_alloc_node, cache_lookup. set (m := if negb (first =? 0) then _ else _).
  assert (m s = Done 0 s) as Em.
  { unfold m. destruct (Z.eqb_spec first 0); [done|]. cbn [negb]. destruct Hc as [|Hc]; [done|]. unfold kget. by rewrite Hc. }
  kbind Em. cbn [Z.eqb negb].
  destruct (f_alloc_cases s SIZEOF_NODE_INFO GFP_ZERO Hh) as [HP|[(h & E & Hr & Hsl)|(ia & h & E & Hia & Hh1 & Hnl & Hlive)]].
  { unfold SIZEOF_NODE_INFO. lia. } { left. by apply stopped_bind. } { right. left. eexists. kbind E. by split. }
  kbind E. rewrite (proj2 (Z.eqb_neq _ _) Hia).
  destruct (f_alloc_cases (with_heap h s) SIZEOF_VFS_NODE GFP_ZERO Hh1) as [HP|[(h2 & E2 & Hr & Hh2 & Hl2)|(na & h2 & E2 & Hna & Hh2 & _ & Hl2)]].
  { unfold SIZEOF_VFS_NODE. lia. } { left. by apply stopped_bind. }
  { right. left. kbind E2. cbn [Z.eqb]. cbn in Hl2. destruct (kh_free_law h2 ia Hh2) as (h3 & E3 & Hh3 & Hl3 & Hx3); [rewrite Hl2, Hlive; set_solver|].
    exists (with_heap h3 s). split; [|split; [exact (Hx3 Hr)|split; [done|cbn; rewrite Hl3, Hl2, Hlive; set_solver]]]. assert (f_free ia (with_heap h2 (with_heap h s)) = Done tt (with_heap h3 s)) as Ef by (unfold f_free, zoom; cbn [fheap with_heap]; by rewrite E3).
    by kbind Ef. }
  right. right. kbind E2. rewrite (proj2 (Z.eqb_neq _ _) Hna), kget_bind, !kmod_bind. unfold cache_insert.
  assert (kh_live (fheap s) ⊆ kh_live h2) as Hsub by (rewrite Hl2; cbn [fheap with_heap]; rewrite Hlive; set_solver).
  destruct (negb (first =? 0)); [rewrite kmod_bind; destruct (_ <? NODE_CACHE_SIZE)|rewrite mret_bind].
  all: exists na; do 2 eexists; split; [done|]; split; [done|]; split; [done|]; split; [done|]; split; [done|]; split; [exact Hsub|]; split; [apply lookup_insert_eq|];
    split; [done|]; split; [done|]; split; [apply lookup_insert_eq|]; intros b Hb; by apply lookup_insert_ne.
Qed.

(** The boot sector of a volume. *)
Definition describes (b : Fat32Bpb) x : Prop :=
  bytes_per_sector b = 512 ∧ root_entry_count b = 0 ∧ fat_size_32 b ≠ 0 ∧ bpb_sectors_per_cluster b ≠ 0 ∧
  volume_of b = mkVol (sectors_per_cluster x) (bytes_per_cluster x) (fat_start x) (data_start x) (root_cluster x) (total_clusters x) 0 [] (fat_sectors x) 0 0.

Lemma mount_ok s v x : fat_at s v x → kh_ok (fheap s) → 0 < fat_start x → describes (bpb_of (bd_sector (dev s) 0)) x →
  on_disk s x →
  stopped (fat32_mount 1 s) ∨ (∃ s', fat32_mount 1 s = Done 0 s' ∧ full s') ∨
  ∃ root s' n i y, fat32_mount 1 s = Done root s' ∧ root ≠ 0 ∧ nodes s' !! root = Some n ∧ type n = VFS_DIRECTORY ∧
    infos s' !! private_data n = Some i ∧ first_cluster i = root_cluster x ∧ vols s' !! vol i = Some y ∧ fat y = fat x ∧
    set_fat_cache 0 [] (set_root_node 0 y) = volume_of (bpb_of (bd_sector (dev s) 0)).
Proof.
  intros Hf Hh Hs0 (Hb1 & Hb2 & Hb3 & Hb4 & Hvol) Hdisk. pose proof Hf as [Hv Hok Hd]. pose proof Hok as [? ? ? [? [? ?]] [? ?] Hlen ? Hent Hby].
  unfold fat32_mount. cbn [Z.eqb]. destruct (read_sector_ok s v x 0 Hf) as (d1 & E1 & Hd1 & Hc1 & Hs1); [nia|]. kbind E1. cbn [fst snd Z.eqb negb]. set (b := bpb_of _) in *.
  rewrite (proj2 (Z.eqb_eq _ _) Hb1), (proj2 (Z.eqb_eq _ _) Hb2). cbn [negb]. rewrite (proj2 (Z.eqb_neq _ _) Hb3), (proj2 (Z.eqb_neq _ _) Hb4). rewrite Hvol. cbn [fat_sectors root_cluster].
  set (s1 := with_dev d1 s). assert (fat_at s1 v x) as Hf1 by (split; [done|by cbn; rewrite Hc1|done]).
  destruct (f_alloc_cases s1 SIZEOF_VOLUME GFP_ZERO Hh) as [HP|[(h & E & Hr & _)|(va & h & E & Hva & Hh1 & Hnva & Hlva)]].
  { unfold SIZEOF_VOLUME. lia. } { left. by apply stopped_bind. } { right. left. eexists. kbind E. by split. }
  kbind E. rewrite (proj2 (Z.eqb_neq _ _) Hva). unfold SECTOR_SIZE. rewrite u32_small by lia.
  assert (fat_sectors x ≠ 0) as Hfs0. { intros E0. apply Hb3. apply (f_equal fat_sectors) in Hvol. cbn in Hvol. lia. }
  destruct (f_alloc_cases (with_heap h s1) (fat_sectors x * 512) 0 Hh1 ltac:(lia)) as [HP|[(h2 & E2 & Hr & Hh2 & Hl2)|(pa & h2 & E2 & Hpa & Hh2 & Hnpa & Hlpa)]].
  { left. by apply stopped_bind. }
  { right. left. kbind E2. cbn [Z.eqb]. cbn in Hl2. destruct (kh_free_law h2 va Hh2) as (h3 & E3 & _ & _ & Hx3); [rewrite Hl2, Hlva; set_solver|].
    exists (with_heap h3 s1). split; [|exact (Hx3 Hr)].
    assert (f_free va (with_heap h2 (with_heap h s1)) = Done tt (with_heap h3 s1)) as Ef by (unfold f_free, zoom; cbn [fheap with_heap]; by rewrite E3). by kbind Ef. }
  kbind E2. rewrite (proj2 (Z.eqb_neq _ _) Hpa). set (s2 := with_heap h2 _). set (y0 := mkVol _ _ _ _ _ _ _ _ _ _ _).
  destruct (load_fat_ok v x y0 (fat_sectors x) eq_refl ltac:(lia) 0 s2 (replicate (Z.to_nat (fat_sectors x * 512)) 0)) as (d3 & E3 & Hf3).
  { split; [done|by cbn; rewrite Hc1|done]. } { lia. } { lia. } { intros k Hk. cbn. rewrite Hs1. by apply Hdisk. }
  { rewrite length_replicate, length_fat_bytes. lia. } { done. }
  kbind E3. cbv beta iota. rewrite !kmod_bind. replace (Z.to_nat (fat_sectors x * 512 / 4)) with (length (fat x)) by lia. rewrite fat_entries_bytes by done.
  set (s4 := with_cache [] _). destruct (alloc_node_ok s4 va VFS_DIRECTORY (root_cluster x) 0 0 Hh2 ltac:(by right)) as [HP|[(s' & E4 & Hr & Hh5 & Hl5)|(root & s5 & n & E4 & Hr & Hv5 & _ & _ & _ & Hn & Hty & _ & Hi & _)]].
  { left. by apply stopped_bind. }
  { right. left. kbind E4. cbn [Z.eqb]. cbn in Hl5, Hlpa, Hnpa. destruct (kh_free_law (fheap s') pa Hh5) as (h6 & E6 & Hh6 & Hl6 & Hx6); [rewrite Hl5, Hlpa; set_solver|].
    destruct (kh_free_law h6 va Hh6) as (h7 & E7 & _ & _ & Hx7); [rewrite Hl6, Hl5, Hlpa; set_solver|].
    assert (f_free pa s' = Done tt (with_heap h6 s')) as Ef by (unfold f_free, zoom; by rewrite E6).
    assert (f_free va (with_heap h6 s') = Done tt (with_heap h7 s')) as Ef' by (unfold f_free, zoom; cbn [fheap with_heap]; by rewrite E7).
    kbind Ef. kbind Ef'. rewrite kmod_bind. eexists. split; [done|]. exact (Hx7 (Hx6 Hr)). }
  right. right. kbind E4. rewrite (proj2 (Z.eqb_neq _ _) Hr).
  assert (upd_vol va (set_root_node root) s5 = Done tt (with_vols (<[va := set_root_node root (set_fat_cache pa (fat x) y0)]> (vols s5)) s5)) as Eu.
  { unfold upd_vol, kupd. rewrite Hv5. unfold s4. cbn [vols with_cache with_vols]. by rewrite lookup_insert_eq. }
  kbind Eu. do 5 eexists. split; [done|]. split; [done|]. split; [exact Hn|]. split; [done|]. split; [exact Hi|]. split; [done|]. split; [apply lookup_insert_eq|]. done.
Qed.
End sync.
