(* ===== verification/Fat32Dir.v ===== *)
(** * Directories and released chains

    Walking the entries of a directory, looking a name up, and giving the clusters of a chain back. *)
From S2P Require Import Prelude KHeap Fat32 Fat32Correct Fat32Chains Fat32Files Fat32Sync.

(** ** Entries of a buffer *)

Definition entry_of (l : list Z) : Fat32DirEntry := default zero_dirent (dirent_of l).
Fixpoint entries (n : nat) (l : list Z) : list Fat32DirEntry :=
  match n with O => [] | S n' => entry_of (take 32 l) :: entries n' (drop 32 l) end.

Lemma dirent_of_take l : (32 ≤ length l)%nat → dirent_of (take 32 l) = Some (entry_of (take 32 l)).
Proof. intros Hl. unfold entry_of, dirent_of. rewrite length_take. by replace (32 `min` length l)%nat with 32%nat by lia. Qed.
Lemma length_entries n l : length (entries n l) = n.
Proof. revert l. induction n as [|n IH]; intros l; cbn; [done|]. by rewrite IH. Qed.
Lemma entries_app n m l l' : length l = (n * 32)%nat → entries (n + m) (l ++ l') = entries n l ++ entries m l'.
Proof.
  revert l. induction n as [|n IH]; intros l Hl.
  - destruct l; [done|cbn in Hl; lia].
  - cbn [Nat.add entries]. rewrite take_app_le, drop_app_le by lia. cbn [app]. f_equal. apply IH. rewrite length_drop. lia.
Qed.

Section dir.
Context {H D : Type} `{KHeap H} `{BlockDev D}.
Implicit Types (s : Fat H D) (x : Fat32Volume) (v : Z).

(** The visitor goes on at [e], and does nothing. *)
Definition quiet {C} (vis : Visitor C) (ctx : C) (e : Fat32DirEntry) : Prop := ∀ idx s, vis e idx ctx s = Done (DIR_WALK_CONTINUE, ctx) s.
(** The visitor does not go on after [e]. *)
Definition stops {C} (vis : Visitor C) (ctx : C) (e : Fat32DirEntry) : Prop :=
  ∀ idx s o s', vis e idx ctx s = Done o s' → (o.1 =? DIR_WALK_CONTINUE) = false.

Lemma visit_quiet {C} (vis : Visitor C) ctx n : ∀ buf idx s, length buf = (n * 32)%nat → Forall (quiet vis ctx) (entries n buf) →
  visit_entries n buf idx vis ctx s = Done (DIR_WALK_CONTINUE, ctx) s.
Proof.
  induction n as [|n IH]; intros buf idx s Hl Hq; [done|]. cbn [visit_entries entries] in *. apply Forall_cons in Hq as [Hq Hqs].
  rewrite (kopt_bind (λ _, dirent_of _) _ s _ (dirent_of_take buf ltac:(lia))). pose proof (Hq idx s) as E. kbind E. cbn [fst snd Z.eqb DIR_WALK_CONTINUE negb].
  apply IH; [rewrite length_drop; lia|done].
Qed.
Lemma visit_stop {C} (vis : Visitor C) ctx n : ∀ es1 e es2 buf idx s, length buf = (n * 32)%nat → entries n buf = es1 ++ e :: es2 →
  Forall (quiet vis ctx) es1 → stops vis ctx e → 0 ≤ idx → idx + Z.of_nat n < 2 ^ 32 →
  visit_entries n buf idx vis ctx s = vis e (idx + Z.of_nat (length es1)) ctx s.
Proof.
  induction n as [|n IH]; intros es1 e es2 buf idx s Hl He Hq Hs Hi Hlim; [by destruct es1|]. cbn [visit_entries entries] in *.
  rewrite (kopt_bind (λ _, dirent_of _) _ s _ (dirent_of_take buf ltac:(lia))). destruct es1 as [|e1 es1]; cbn [app] in He; injection He as He1 He2.
  - rewrite He1. cbn [length]. rewrite Z.add_0_r. destruct (vis e idx ctx s) as [o s'|s'|] eqn:E.
    + kbind E. by rewrite (Hs _ _ _ _ E).
    + by apply bind_Panic.
    + unfold mbind, K_bind. by rewrite E.
  - apply Forall_cons in Hq as [Hq Hqs]. rewrite He1. pose proof (Hq idx s) as E. kbind E. cbn [fst snd Z.eqb DIR_WALK_CONTINUE negb].
    rewrite u32_small by lia. rewrite (IH es1 e es2) by (done || lia || (rewrite length_drop; lia)). f_equal. cbn [length]. lia.
Qed.

(** ** Walking a directory *)

Definition epc x : nat := Z.to_nat (bytes_per_cluster x / SIZEOF_DIRENT).
Definition dir_entries s x (L : list Z) : list Fat32DirEntry := entries (length L * epc x) (contents (dev s) x L).

(** The state in which a cluster of the directory is visited: its buffer [b] is taken. *)
Record visiting s v x s1 (b : Z) : Prop := {
  vi_at : fat_at s1 v x;
  vi_ok : kh_ok (fheap s1);
  vi_new : b ∉ kh_live (fheap s);
  vi_live : kh_live (fheap s1) = {[b]} ∪ kh_live (fheap s);
  vi_frame : frame v [] [] (with_heap (fheap s1) s) x s1 x;
}.

Lemma walk_step {C} (vis : Visitor C) ctx v x a L fuel base s : fat_at s v x → kh_ok (fheap s) → chain x a (a :: L) →
  stopped (walk_loop (S fuel) v a base vis ctx s) ∨ (∃ s', walk_loop (S fuel) v a base vis ctx s = Done (- ENOMEM, ctx) s' ∧ full s') ∨
  ∃ s1 b, visiting s v x s1 b ∧ walk_loop (S fuel) v a base vis ctx s =
    (o ← visit_entries (epc x) (cdata (dev s) x a) base vis ctx;
     f_free b;;
     if negb (o.1 =? DIR_WALK_CONTINUE) then mret o else
     next ← fat32_next_cluster v a; walk_loop fuel v next (u32 (base + Z.of_nat (epc x))) vis o.2) s1.
Proof.
  intros Hf Hh Hc. pose proof Hf as [Hv Hok Hd]. pose proof (vo_spc _ _ Hok). pose proof (vo_bpc _ _ Hok).
  pose proof (chain_in_data _ _ _ a Hc (list_elem_of_here _ _)) as Ha. pose proof (hd0_nonzero _ _ _ Hc) as Hnz. change (hd0 (a :: L)) with a in Hnz.
  cbn [walk_loop]. rewrite Hnz. unfold volume. rewrite (kopt_bind (λ s, vols s !! v) _ s x Hv). fold (epc x).
  destruct (f_alloc_cases s (bytes_per_cluster x) 0 Hh ltac:(lia)) as [HP|[(h & E & Href & Hs)|(b & h & E & Hb0 & Hhb & Hnb & Hlb)]].
  { left. by apply stopped_bind. } { right. left. exists (with_heap h s). kbind E. by split. }
  right. right. kbind E. rewrite (proj2 (Z.eqb_neq _ _) Hb0). destruct (read_cluster_ok (with_heap h s) v x a (fat_at_heap h s v x Hf) Ha) as (s1 & E1 & Hf1 & Hfr1). kbind E1.
  cbn [fst snd Z.eqb negb]. exists s1, b. pose proof (fr_heap _ _ _ _ _ _ _ Hfr1) as Hh1. cbn in Hh1. split.
  - split; [done|by rewrite Hh1|done|by rewrite Hh1|by rewrite Hh1].
  - assert (Z.of_nat (epc x) = bytes_per_cluster x / SIZEOF_DIRENT) as -> by (unfold epc, SIZEOF_DIRENT; lia). done.
Qed.

Lemma visiting_back s v x s1 b : visiting s v x s1 b →
  ∃ h, f_free b s1 = Done tt (with_heap h s1) ∧ same_live s (with_heap h s1) ∧ fat_at (with_heap h s1) v x ∧ frame v [] [] (with_heap h s) x (with_heap h s1) x.
Proof.
  intros [Hf Hh Hn Hl Hfr]. destruct (f_free_back s b (fheap s1) s1 Hh Hn Hl eq_refl) as (h & E & Hsl). exists h. split; [done|]. split; [done|].
  split; [by apply fat_at_heap|]. destruct Hfr. by split.
Qed.
Lemma cluster_entries s v x a L : fat_at s v x → chain x a (a :: L) →
  length (cdata (dev s) x a) = (epc x * 32)%nat ∧ dir_entries s x (a :: L) = entries (epc x) (cdata (dev s) x a) ++ dir_entries s x L.
Proof.
  intros Hf Hc. pose proof (cdata_length s v x a Hf (chain_in_data _ _ _ a Hc (list_elem_of_here _ _))) as Hlen.
  pose proof (vo_spc _ _ (fa_ok _ _ _ Hf)). pose proof (vo_bpc _ _ (fa_ok _ _ _ Hf)).
  assert (length (cdata (dev s) x a) = (epc x * 32)%nat) as Hlen' by (rewrite Hlen; unfold epc, SIZEOF_DIRENT; lia). split; [done|].
  unfold dir_entries. cbn [length Nat.mul]. rewrite contents_cons. by apply entries_app.
Qed.

(** After a cluster the walk is at the next one, with the same directory. *)
Lemma visiting_next s v x s1 h a L : frame v [] [] (with_heap h s) x (with_heap h s1) x → fat_at (with_heap h s1) v x → chain x a (a :: L) →
  fat32_next_cluster v a (with_heap h s1) = Done (hd0 L) (with_heap h s1) ∧ chain x (hd0 L) L ∧
  dir_entries (with_heap h s1) x L = dir_entries s x L.
Proof.
  intros Hfr Hf Hc. destruct (next_cluster_ok (with_heap h s1) v x a L (fa_vol _ _ _ Hf) Hc) as [En HcL]. split; [done|]. split; [done|].
  unfold dir_entries. f_equal. apply (frame_contents _ _ _ _ _ _ _ _ Hfr). intros c Hin. split; [exact (chain_in_data _ _ _ _ HcL Hin)|by intros ?%elem_of_nil].
Qed.

Lemma walk_quiet {C} (vis : Visitor C) ctx v x : ∀ L c fuel base s, fat_at s v x → kh_ok (fheap s) → chain x c L → (length L ≤ fuel)%nat →
  Forall (quiet vis ctx) (dir_entries s x L) →
  stopped (walk_loop fuel v c base vis ctx s) ∨ (∃ s', walk_loop fuel v c base vis ctx s = Done (- ENOMEM, ctx) s' ∧ full s') ∨
  ∃ s', walk_loop fuel v c base vis ctx s = Done (0, ctx) s' ∧ fat_at s' v x ∧ same_live s s' ∧ frame v [] [] (with_heap (fheap s') s) x s' x.
Proof.
  induction L as [|a L IH]; intros c fuel base s Hf Hh Hc Hfu Hq.
  { right. right. cbn in Hc. subst c. exists s. split; [by destruct fuel|]. split; [done|]. split; [by split|]. rewrite with_heap_id. by apply frame_refl, fa_vol. }
  pose proof (chain_hd _ _ _ Hc) as Hhd. change (hd0 (a :: L)) with a in Hhd. subst c. destruct fuel as [|fuel]; [cbn in Hfu; lia|].
  destruct (cluster_entries s v x a L Hf Hc) as [Hlen Hes]. rewrite Hes in Hq. apply Forall_app in Hq as [Hq1 Hq2].
  destruct (walk_step vis ctx v x a L fuel base s Hf Hh Hc) as [HP|[HR|(s1 & b & Hvi & ->)]]; [by left|by right; left|].
  pose proof (visit_quiet vis ctx (epc x) (cdata (dev s) x a) base s1 Hlen Hq1) as Ev. kbind Ev.
  destruct (visiting_back s v x s1 b Hvi) as (h & Ef & Hsl & Hf' & Hfr'). kbind Ef. cbn [fst snd Z.eqb DIR_WALK_CONTINUE negb].
  destruct (visiting_next s v x s1 h a L Hfr' Hf' Hc) as (En & HcL & Hds). kbind En. rewrite <-Hds in Hq2.
  destruct (IH (hd0 L) fuel (u32 (base + Z.of_nat (epc x))) (with_heap h s1) Hf' (proj1 Hsl) HcL ltac:(cbn in Hfu; lia) Hq2) as [HP|[HR|(s' & E & Hf2 & Hsl2 & Hfr2)]]; [by left|by right; left|].
  right. right. exists s'. split; [done|]. split; [done|]. split; [destruct Hsl as [_ Hl], Hsl2 as [? Hl2]; split; [done|by rewrite Hl2]|].
  eapply frame_trans; [|exact Hfr2]. destruct Hfr'. by split.
Qed.

(** The first entry at which the visitor stops is visited with its index. *)
Lemma walk_stop {C} (vis : Visitor C) ctx v x e : stops vis ctx e → ∀ L c fuel base s es1 es2, fat_at s v x → kh_ok (fheap s) → chain x c L →
  (length L ≤ fuel)%nat → 0 ≤ base → base + Z.of_nat (length L * epc x) < 2 ^ 32 →
  dir_entries s x L = es1 ++ e :: es2 → Forall (quiet vis ctx) es1 →
  stopped (walk_loop fuel v c base vis ctx s) ∨ (∃ s', walk_loop fuel v c base vis ctx s = Done (- ENOMEM, ctx) s' ∧ full s') ∨
  ∃ s1 b, visiting s v x s1 b ∧
    walk_loop fuel v c base vis ctx s = (o ← vis e (base + Z.of_nat (length es1)) ctx; f_free b;; mret o) s1.
Proof.
  intros Hs. induction L as [|a L IH]; intros c fuel base s es1 es2 Hf Hh Hc Hfu Hb Hlim He Hq; [by destruct es1|].
  pose proof (chain_hd _ _ _ Hc) as Hhd. change (hd0 (a :: L)) with a in Hhd. subst c. destruct fuel as [|fuel]; [cbn in Hfu; lia|]. cbn [length Nat.mul] in Hlim.
  destruct (cluster_entries s v x a L Hf Hc) as [Hlen Hes]. rewrite Hes in He.
  destruct (walk_step vis ctx v x a L fuel base s Hf Hh Hc) as [HP|[HR|(s1 & b & Hvi & ->)]]; [by left|by right; left|].
  assert (length (entries (epc x) (cdata (dev s) x a)) = epc x) as Hle by apply length_entries.
  destruct (decide (length es1 < epc x)%nat) as [Hin|Hout].
  - right. right. exists s1, b. split; [done|]. assert (∃ r, entries (epc x) (cdata (dev s) x a) = es1 ++ e :: r) as (r & Hr).
    { apply (f_equal (take (epc x))) in He. rewrite take_app_le, take_ge in He by lia. rewrite He, take_app_ge by lia.
      destruct (epc x - length es1)%nat as [|k] eqn:Ek; [lia|]. cbn. by eexists. }
    unfold mbind, K_bind. rewrite (visit_stop vis ctx (epc x) es1 e r) by (done || lia || nia).
    destruct (vis e (base + Z.of_nat (length es1)) ctx s1) as [o s2|s2|] eqn:Ev; [|done|done].
    by rewrite (Hs _ _ _ _ Ev).
  - assert (dir_entries s x L = drop (epc x) es1 ++ e :: es2) as He2.
    { apply (f_equal (drop (epc x))) in He. rewrite drop_app_length' in He by done. by rewrite He, drop_app_le by lia. }
    assert (entries (epc x) (cdata (dev s) x a) = take (epc x) es1) as He1.
    { apply (f_equal (take (epc x))) in He. rewrite take_app_length' in He by done. by rewrite He, take_app_le by lia. }
    assert (Forall (quiet vis ctx) (entries (epc x) (cdata (dev s) x a))) as Hq1 by (rewrite He1; by apply Forall_take).
    pose proof (visit_quiet vis ctx (epc x) (cdata (dev s) x a) base s1 Hlen Hq1) as Ev. kbind Ev.
    destruct (visiting_back s v x s1 b Hvi) as (h & Ef & Hsl & Hf' & Hfr'). kbind Ef. cbn [fst snd Z.eqb DIR_WALK_CONTINUE negb].
    destruct (visiting_next s v x s1 h a L Hfr' Hf' Hc) as (En & HcL & Hds). kbind En. rewrite <-Hds in He2. rewrite u32_small by nia.
    destruct (IH (hd0 L) fuel (base + Z.of_nat (epc x)) (with_heap h s1) (drop (epc x) es1) es2 Hf' (proj1 Hsl) HcL) as [HP|[HR|(s2 & b2 & Hvi2 & E)]];
      [cbn in Hfu; lia|lia|lia|done|by apply Forall_drop|by left|by right; left|].
    right. right. exists s2, b2. split.
    + destruct Hvi2 as [? ? ? ? Hfr2], Hsl as [_ Hl]. cbn in Hl. split; [done|done|by rewrite <-Hl|by rewrite <-Hl|].
      eapply frame_trans; [|exact Hfr2]. destruct Hfr'. by split.
    + rewrite E, length_drop. by replace (base + Z.of_nat (epc x) + Z.of_nat (length es1 - epc x)) with (base + Z.of_nat (length es1)) by lia.
Qed.

(** ** Looking a name up *)

(** Entries that a lookup passes over. *)
Definition dot_entry (e : Fat32DirEntry) : bool :=
  (byte_at (de_name e) 0 =? 46) && (byte_at (de_name e) 1 =? 32) ||
  (byte_at (de_name e) 0 =? 46) && (byte_at (de_name e) 1 =? 46) && (byte_at (de_name e) 2 =? 32).
(** The first entry with the name, before the end of the directory, and its index. *)
Fixpoint dir_find (name : list Z) (i : Z) (es : list Fat32DirEntry) : option (Z * Fat32DirEntry) :=
  match es with
  | [] => None
  | e :: es' =>
      if fat32_entry_filter e <? 0 then None else
      if (0 <? fat32_entry_filter e) || dot_entry e || negb (fat32_name_match e name) then dir_find name (i + 1) es' else Some (i, e)
  end.

Lemma lookup_visitor_cases name v dc e (ctx : Z) :
  if fat32_entry_filter e <? 0 then (∀ idx s, lookup_visitor (H := H) (D := D) name v dc e idx ctx s = Done (DIR_WALK_STOP, ctx) s) else
  if (0 <? fat32_entry_filter e) || dot_entry e || negb (fat32_name_match e name) then quiet (lookup_visitor (H := H) (D := D) name v dc) ctx e else
  ∀ idx, lookup_visitor (H := H) (D := D) name v dc e idx ctx =
    (n ← fat32_alloc_node v (if negb (Z.land (attr e) FAT32_ATTR_DIRECTORY =? 0) then VFS_DIRECTORY else VFS_FILE) (fat32_entry_cluster e) dc idx;
     (if negb (n =? 0) then upd_node n (set_size (file_size e)) else mret tt);;
     mret (DIR_WALK_STOP, n)).
Proof.
  unfold lookup_visitor, quiet, dot_entry. destruct (fat32_entry_filter e <? 0); [done|]. destruct (0 <? fat32_entry_filter e); [done|]. cbn [orb].
  destruct ((byte_at (de_name e) 0 =? 46) && (byte_at (de_name e) 1 =? 32)); [done|]. cbn [orb].
  destruct ((byte_at (de_name e) 0 =? 46) && (byte_at (de_name e) 1 =? 46) && (byte_at (de_name e) 2 =? 32)); [done|]. cbn [orb].
  by destruct (fat32_name_match e name).
Qed.

(** The entries before the one that ends the search. *)
Lemma dir_find_split name v dc (ctx : Z) : ∀ es i,
  (dir_find name i es = None ∧ Forall (quiet (lookup_visitor (H := H) (D := D) name v dc) ctx) es) ∨
  ∃ es1 e es2, es = es1 ++ e :: es2 ∧ Forall (quiet (lookup_visitor (H := H) (D := D) name v dc) ctx) es1 ∧
    ((dir_find name i es = None ∧ ∀ idx s, lookup_visitor (H := H) (D := D) name v dc e idx ctx s = Done (DIR_WALK_STOP, ctx) s) ∨
     (dir_find name i es = Some (i + Z.of_nat (length es1), e) ∧ ∀ idx, lookup_visitor (H := H) (D := D) name v dc e idx ctx =
        (n ← fat32_alloc_node v (if negb (Z.land (attr e) FAT32_ATTR_DIRECTORY =? 0) then VFS_DIRECTORY else VFS_FILE) (fat32_entry_cluster e) dc idx;
         (if negb (n =? 0) then upd_node n (set_size (file_size e)) else mret tt);;
         mret (DIR_WALK_STOP, n)))).
Proof.
  induction es as [|e es IH]; intros i; [left; by split|]. pose proof (lookup_visitor_cases name v dc e ctx) as Hv. cbn [dir_find].
  destruct (fat32_entry_filter e <? 0); [right; exists [], e, es; split; [done|]; split; [done|]; by left|].
  destruct ((0 <? fat32_entry_filter e) || dot_entry e || negb (fat32_name_match e name)).
  - destruct (IH (i + 1)) as [[Hn Hq]|(es1 & e' & es2 & -> & Hq & Hcase)]; [left; split; [done|by constructor]|].
    right. exists (e :: es1), e', es2. split; [done|]. split; [by constructor|]. destruct Hcase as [?|[Hf Hr]]; [by left|right]. split; [|done].
    rewrite Hf. do 2 f_equal. cbn [length]. lia.
  - right. exists [], e, es. split; [done|]. split; [done|]. right. split; [|done]. cbn. by rewrite Z.add_0_r.
Qed.

(** The node that a lookup found: the one in the cache for the first cluster, or a new one. *)
Record found_entry s v (dc : Z) (i : Z) (e : Fat32DirEntry) (a : Z) s' : Prop := {
  fe_node : ∃ n, nodes s' !! a = Some n ∧ size n = file_size e ∧
    if decide (fat32_entry_cluster e ≠ 0 ∧ cache_find (fat32_entry_cluster e) (node_cache s) ≠ 0) then
      a = cache_find (fat32_entry_cluster e) (node_cache s) ∧ infos s' = infos s ∧
      ∃ n0, nodes s !! a = Some n0 ∧ n = set_size (file_size e) n0
    else
      type n = (if negb (Z.land (attr e) FAT32_ATTR_DIRECTORY =? 0) then VFS_DIRECTORY else VFS_FILE) ∧
      infos s' !! private_data n = Some (mkInfo v (fat32_entry_cluster e) dc i);
  fe_vols : vols s' = vols s;
  fe_dev : dev s' = dev s;
  fe_others : ∀ b, b ≠ a → nodes s' !! b = nodes s !! b;
}.

Lemma alloc_node_found s v dc i e b : kh_ok (fheap s) → b ∈ kh_live (fheap s) → (fat32_entry_cluster e ≠ 0 → cache_find (fat32_entry_cluster e) (node_cache s) ≠ 0 → is_Some (nodes s !! cache_find (fat32_entry_cluster e) (node_cache s))) →
  let m := (n ← fat32_alloc_node v (if negb (Z.land (attr e) FAT32_ATTR_DIRECTORY =? 0) then VFS_DIRECTORY else VFS_FILE) (fat32_entry_cluster e) dc i;
     (if negb (n =? 0) then upd_node n (set_size (file_size e)) else mret tt);; mret (DIR_WALK_STOP, n)) ≫= λ o, f_free b ≫= λ _, mret o in
  stopped (m s) ∨ (∃ s', m s = Done (DIR_WALK_STOP, 0) s' ∧ full s') ∨
  ∃ a s', m s = Done (DIR_WALK_STOP, a) s' ∧ a ≠ 0 ∧ found_entry s v dc i e a s'.
Proof.
  intros Hh Hb Hcache m. set (ty := if negb _ then _ else _) in m. set (fc := fat32_entry_cluster e) in *. unfold m. rewrite !bind_assoc.
  assert (∀ s' , kh_ok (fheap s') → b ∈ kh_live (fheap s') → ∃ h, f_free b s' = Done tt (with_heap h s') ∧ (full s' → full (with_heap h s'))) as Hfree.
  { intros s' Hh' Hb'. destruct (kh_free_law (fheap s') b Hh' Hb') as (h & E & _ & _ & Hx). exists h. split; [|exact Hx]. unfold f_free, zoom. by rewrite E. }
  destruct (decide (fc ≠ 0 ∧ cache_find fc (node_cache s) ≠ 0)) as [[Hfc Hca]|Hnc].
  - assert (fat32_alloc_node v ty fc dc i s = Done (cache_find fc (node_cache s)) s) as E.
    { unfold fat32_alloc_node. rewrite (proj2 (Z.eqb_neq _ _) Hfc). cbn [negb]. unfold cache_lookup. rewrite kget_bind. by rewrite (proj2 (Z.eqb_neq _ _) Hca). }
    kbind E. rewrite (proj2 (Z.eqb_neq _ _) Hca). cbn [negb]. destruct (Hcache Hfc Hca) as (n & Hn). rewrite bind_assoc.
    rewrite (bind_Done _ _ _ tt (with_nodes (<[cache_find fc (node_cache s) := set_size (file_size e) n]> (nodes s)) s)) by (unfold upd_node, kupd; by rewrite Hn).
    destruct (Hfree (with_nodes (<[cache_find fc (node_cache s) := set_size (file_size e) n]> (nodes s)) s) Hh Hb) as (h & Ef & _). rewrite mret_bind. kbind Ef.
    right. right. eexists _, _. split; [done|]. split; [done|]. split; [|done|done|intros b' Hb'; by apply lookup_insert_ne].
    eexists. split; [apply lookup_insert_eq|]. split; [done|]. rewrite decide_True by done. split; [done|]. split; [done|]. by exists n.
  - destruct (alloc_node_ok s v ty fc dc i Hh) as [HP|[(s' & E & Href & Hsl)|(a & s' & n & E & Ha & Hv & Hd & Hh' & Hl & Hn & Hty & _ & Hi & Ho)]].
    { destruct (decide (fc = 0)); [by left|right]. destruct (decide (cache_find fc (node_cache s) = 0)); [done|]. by destruct Hnc. }
    { left. by apply stopped_bind. }
    { right. left. kbind E. cbn [Z.eqb negb]. rewrite bind_assoc, mret_bind, mret_bind. destruct (Hfree s' (proj1 Hsl)) as (h & Ef & Hx); [by rewrite (proj2 Hsl)|]. kbind Ef. eexists. split; [done|]. exact (Hx Href). }
    right. right. kbind E. rewrite (proj2 (Z.eqb_neq _ _) Ha). cbn [negb]. rewrite bind_assoc.
    rewrite (bind_Done _ _ _ tt (with_nodes (<[a := set_size (file_size e) n]> (nodes s')) s')) by (unfold upd_node, kupd; by rewrite Hn).
    destruct (Hfree (with_nodes (<[a := set_size (file_size e) n]> (nodes s')) s') Hh') as (h & Ef & _); [by apply Hl|]. rewrite mret_bind. kbind Ef.
    eexists _, _. split; [done|]. split; [done|]. split; [|done|done|intros b' Hb'; cbn; rewrite lookup_insert_ne by done; by apply Ho].
    eexists. split; [apply lookup_insert_eq|]. split; [done|]. by rewrite decide_False.
Qed.

Lemma lookup_lemma s v x dir n info L name : fat_at s v x → kh_ok (fheap s) → nodes s !! dir = Some n → infos s !! private_data n = Some info → vol info = v →
  chain x (first_cluster info) L → Z.of_nat (length L * epc x) < 2 ^ 32 → 
  (∀ i e, dir_find name 0 (dir_entries s x L) = Some (i, e) → let a := cache_find (fat32_entry_cluster e) (node_cache s) in
    fat32_entry_cluster e ≠ 0 → a ≠ 0 → is_Some (nodes s !! a)) →
  stopped (fat32_lookup dir name s) ∨ (∃ s', fat32_lookup dir name s = Done 0 s' ∧ full s') ∨
  match dir_find name 0 (dir_entries s x L) with
  | None => ∃ s', fat32_lookup dir name s = Done 0 s' ∧ fat_at s' v x ∧ same_live s s' ∧ frame v [] [] (with_heap (fheap s') s) x s' x
  | Some (i, e) => ∃ a s1 s', fat32_lookup dir name s = Done a s' ∧ a ≠ 0 ∧ frame v [] [] (with_heap (fheap s1) s) x s1 x ∧ found_entry s1 v (first_cluster info) i e a s'
  end.
Proof.
  intros Hf Hh Hn Hi Hvol Hc Hlim Hcache. pose proof Hf as [Hv Hok _]. pose proof (clusters_length _ _ _ _ Hok Hc) as Hlen.
  unfold fat32_lookup, to_fat32, node_at. rewrite bind_assoc, (kopt_bind (λ s, nodes s !! dir) _ s n Hn), (kopt_bind (λ s, infos s !! private_data n) _ s info Hi), Hvol.
  unfold fat32_walk_dir, volume. rewrite bind_assoc, (kopt_bind (λ s, vols s !! v) _ s x Hv). set (vis := lookup_visitor name v (first_cluster info)).
  destruct (dir_find_split name v (first_cluster info) 0 (dir_entries s x L) 0) as [[-> Hq]|(es1 & e & es2 & Hes & Hq & Hcase)].
  - destruct (walk_quiet vis 0 v x L (first_cluster info) (chain_fuel x) 0 s Hf Hh Hc ltac:(unfold chain_fuel; lia) Hq) as [HP|[(s' & E & Href)|(s' & E & Hrest)]].
    + left. by apply stopped_bind.
    + right. left. exists s'. by kbind E.
    + right. right. exists s'. kbind E. by split.
  - assert (stops vis 0 e) as Hst.
    { intros idx t o t' Ho. destruct Hcase as [[_ Hs]|[_ Hs]]; unfold vis in Ho; rewrite Hs in Ho; [by injection Ho as <- _|].
      apply bind_inv in Ho as (a & t1 & _ & Ho). apply bind_inv in Ho as ([] & t2 & _ & Ho). by injection Ho as <- _. }
    destruct (walk_stop vis 0 v x e Hst L (first_cluster info) (chain_fuel x) 0 s es1 es2 Hf Hh Hc ltac:(unfold chain_fuel; lia) ltac:(lia) ltac:(lia) Hes Hq) as [HP|[(s' & E & Href)|(s1 & b & Hvi & E)]].
    { left. by apply stopped_bind. } { right. left. exists s'. by kbind E. }
    rewrite Z.add_0_l in E. destruct Hcase as [[-> Hs]|[Hdf Hs]].
    + right. right. rewrite (bind_Done _ _ _ _ _ (Hs _ s1)) in E. destruct (visiting_back s v x s1 b Hvi) as (h & Ef & Hsl & Hf' & Hfr'). rewrite (bind_Done _ _ _ _ _ Ef) in E.
      exists (with_heap h s1). kbind E. split; [done|]. split; [done|]. by split.
    + rewrite Hdf. pose proof (Hcache _ _ Hdf) as Hce. change (lookup_visitor name v (first_cluster info)) with vis in Hs. rewrite Hs in E. destruct Hvi as [Hf1 Hh1 Hnb Hlb Hfr1].
      destruct (alloc_node_found s1 v (first_cluster info) (Z.of_nat (length es1)) e b Hh1) as [HP|[(s' & Ea & Href)|(a & s' & Ea & Ha & Hfo)]].
      { rewrite Hlb. set_solver. } { destruct Hfr1. cbn in *. by rewrite fr_cache, fr_nodes. }
      { left. apply stopped_bind. by rewrite E. } { right. left. exists s'. rewrite Ea in E. kbind E. by split. }
      right. right. exists a, s1, s'. rewrite Ea in E. kbind E. by split.
Qed.

(** ** Giving a chain back *)

Lemma free_chain_loop_ok v : ∀ l x c fuel s, fat_at s v x → chain x c l → (length l < fuel)%nat →
  ∃ s' x', free_chain_loop fuel v c s = Done tt s' ∧ fat_at s' v x' ∧ frame v l [] s x s' x' ∧ dev s' = dev s ∧ ∀ a, a ∈ l → free_entry x' a.
Proof.
  induction l as [|a l IH]; intros x c fuel s Hf Hc Hfu; (destruct fuel as [|fuel]; [lia|]); cbn [free_chain_loop]; unfold volume;
    rewrite (kopt_bind (λ s, vols s !! v) _ s x (fa_vol _ _ _ Hf)).
  { cbn in Hc. subst c. exists s, x. split; [done|]. split; [done|]. split; [by apply frame_refl, fa_vol|]. split; [done|]. by intros ? ?%elem_of_nil. }
  pose proof (chain_hd _ _ _ Hc) as Hhd. change (hd0 (a :: l)) with a in Hhd. subst c. pose proof (chain_NoDup _ _ _ Hc) as [Hnin _]%NoDup_cons.
  pose proof Hc as (_ & [Ha1 Ha2] & e & He & _ & Hce). destruct (next_cluster_ok s v x a l (fa_vol _ _ _ Hf) Hc) as [En HcL].
  pose proof (fa_ok _ _ _ Hf) as []. rewrite u32_small by lia. rewrite (proj2 (Z.eqb_neq a 0)) by lia. cbn [negb andb]. destruct (Z.ltb_spec a (total_clusters x + 2)); [|lia].
  kbind En. destruct (fat_put_ok s v x a e FAT32_FREE Hf He) as (x1 & Ep & Hf1 & Hfr1 & He1); [by unfold FAT32_FREE|]. kbind Ep. set (s1 := with_vols _ s) in *.
  assert (chain x1 (hd0 l) l) as HcL1. { eapply frame_chain; [exact Hfr1| |done]. intros b Hb ->%list_elem_of_singleton. done. }
  destruct (IH x1 (hd0 l) fuel s1 Hf1 HcL1 ltac:(cbn in Hfu; lia)) as (s2 & x2 & E2 & Hf2 & Hfr2 & Hd2 & Hfree). exists s2, x2. split; [done|]. split; [done|]. split; [|split; [done|]].
  - apply (frame_trans v (a :: l) [] s x s1 x1); (eapply frame_weaken; [eassumption|set_solver|set_solver]).
  - intros b Hb. apply elem_of_cons in Hb as [->|Hb]; [|by apply Hfree]. unfold free_entry. rewrite (fr_fat _ _ _ _ _ _ _ Hfr2) by done.
    rewrite He1. cbn. by rewrite entry_set_mask by (by unfold FAT32_FREE).
Qed.
End dir.

(** ** 8.3 names *)

Lemma lower_upper c : lower (upper c) = lower c.
Proof.
  unfold lower, upper, CASE_OFFSET. destruct (Z.leb_spec 97 c), (Z.leb_spec c 122); cbn [andb];
    repeat match goal with |- context [(?a <=? ?b)] => destruct (Z.leb_spec a b) end; cbn [andb]; lia.
Qed.
Lemma upper_space c : c ≠ 32 → upper c ≠ 32.
Proof. unfold upper, CASE_OFFSET. destruct (Z.leb_spec 97 c), (Z.leb_spec c 122); cbn [andb]; lia. Qed.

Lemma trim_pad n l rest : (length l ≤ n)%nat → 32 ∉ l → trim_len n (l ++ replicate (n - length l) 32 ++ rest) = length l.
Proof.
  intros Hn Hl. remember (n - length l)%nat as k eqn:Hk. revert n rest Hn Hk. induction k as [|k IH]; intros n rest Hn Hk.
  - assert (n = length l) as -> by lia. destruct (length l) as [|m] eqn:E; [done|]. cbn [trim_len replicate app]. rewrite bool_decide_eq_false_2; [done|].
    rewrite lookup_app_l by lia. intros Hx%list_elem_of_lookup_2. done.
  - destruct n as [|n]; [lia|]. cbn [trim_len]. rewrite bool_decide_eq_true_2.
    + replace (l ++ replicate (S k) 32 ++ rest) with (l ++ replicate k 32 ++ 32 :: rest); [apply IH; lia|].
      f_equal. change (replicate (S k) 32) with ([32] ++ replicate k 32). rewrite <-app_assoc. replace ([32] ++ replicate k 32 ++ rest) with (replicate (S k) 32 ++ rest) by done.
      replace (S k) with (k + 1)%nat by lia. by rewrite replicate_add, <-app_assoc.
    + rewrite lookup_app_r by lia. rewrite lookup_app_l by (rewrite length_replicate; lia). apply lookup_replicate. split; [done|lia].
Qed.

Lemma split_dot_base base : 46 ∉ base → split_dot base = (base, None).
Proof.
  induction base as [|c base IH]; intros Hd; [done|]. cbn. apply not_elem_of_cons in Hd as [Hc Hd]. rewrite (proj2 (Z.eqb_neq c 46)) by done. by rewrite IH.
Qed.
Lemma split_dot_ext base ext : 46 ∉ base → split_dot (base ++ 46 :: ext) = (base, Some ext).
Proof.
  induction base as [|c base IH]; intros Hd; [done|]. cbn. apply not_elem_of_cons in Hd as [Hc Hd]. rewrite (proj2 (Z.eqb_neq c 46)) by done. by rewrite IH.
Qed.

Definition name_of (base ext : list Z) : list Z := match ext with [] => base | _ => base ++ 46 :: ext end.

Lemma name_roundtrip_lemma base ext e : base ≠ [] → (length base ≤ 8)%nat → (length ext ≤ 3)%nat → 46 ∉ base → 32 ∉ base → 32 ∉ ext →
  ∃ f, fat32_str_to_name (name_of base ext) = Some f ∧ length f = 11%nat ∧
    (de_name e = f → fat32_name_to_str e = lower <$> name_of base ext ∧ fat32_name_match e (name_of base ext) = true).
Proof.
  intros Hb0 Hb Hx Hd Hs1 Hs2. assert (fat32_str_to_name (name_of base ext) = Some (pad 8 (upper <$> base) ++ pad 3 (upper <$> ext))) as Hf.
  { unfold fat32_str_to_name, name_of. destruct ext as [|c ext]; [rewrite split_dot_base by done|rewrite split_dot_ext by done]; unfold default, from_option, id;
      (destruct (Nat.eqb_spec (length base) 0) as [E0|_]; [by apply nil_length_inv in E0|]); (destruct (Nat.ltb_spec 8 (length base)); [lia|]); cbn [orb length].
    - done.
    - cbn [length] in Hx. destruct (Nat.ltb_spec 3 (S (length ext))); [lia|done]. }
  exists (pad 8 (upper <$> base) ++ pad 3 (upper <$> ext)).
  assert (length (pad 8 (upper <$> base)) = 8%nat) as H8 by (unfold pad; rewrite length_app, length_replicate, length_fmap; lia).
  assert (length (pad 3 (upper <$> ext)) = 3%nat) as H3 by (unfold pad; rewrite length_app, length_replicate, length_fmap; lia).
  split; [done|]. split; [rewrite length_app; lia|]. intros He. split; [|unfold fat32_name_match; rewrite Hf; by apply bool_decide_eq_true_2].
  assert (∀ l, 32 ∉ l → 32 ∉ upper <$> l) as Hup by (intros l Hl (c & Hc & Hin)%list_elem_of_fmap; by apply (upper_space c); [intros ->|]).
  unfold fat32_name_to_str. rewrite He. unfold pad. rewrite <-app_assoc, !length_fmap.
  pose proof (trim_pad 8 (upper <$> base) ((upper <$> ext) ++ replicate (3 - length ext) 32) ltac:(by rewrite length_fmap) (Hup _ Hs1)) as Ht1. rewrite length_fmap in Ht1. rewrite Ht1.
  pose proof (trim_pad 3 (upper <$> ext) [] ltac:(by rewrite length_fmap) (Hup _ Hs2)) as Ht2. rewrite length_fmap, app_nil_r in Ht2.
  rewrite (app_assoc (upper <$> base)), drop_app_length', Ht2 by (rewrite length_app, length_replicate, length_fmap; lia).
  rewrite <-app_assoc, take_app_length' by (by rewrite length_fmap). rewrite take_app_length' by (by rewrite length_fmap).
  rewrite <-!list_fmap_compose. rewrite !(list_fmap_ext (lower ∘ upper) lower) by (intros; apply lower_upper).
  unfold name_of. destruct ext as [|c ext]; cbn [length Nat.ltb Nat.leb]; [by rewrite app_nil_r|]. by rewrite fmap_app.
Qed.
