(* ===== verification/Fat32Entries.v ===== *)
(** * Directory entries as the format defines them

    The 32 bytes of a directory entry, read and changed by their places in the FAT32 specification and not through the records and
    routines of [Fat32], with the lemmas that these agree. *)
From S2P Require Import Prelude KHeap Fat32 Fat32Correct Fat32Chains Fat32Files Fat32Sync Fat32Dir.

Definition byte (b : list Z) (i : nat) : Z := default 0 (b !! i).
Definition half (b : list Z) (i : nat) : Z := byte b i + 256 * byte b (i + 1).
Definition is_entry (b : list Z) : Prop := length b = 32%nat ∧ Forall (λ c, 0 ≤ c < 256) b.

(** What an entry says: the end of the directory, nothing (it is deleted, part of a long name, the label of the volume, or one of the entries . and ..),
    or the name, kind, first cluster and size of a file. *)
Record Named : Type := mkNamed { nm_name : list Z; nm_dir : bool; nm_cluster : Z; nm_size : Z }.
Inductive Meaning : Type := EndMark | Nothing | Names (r : Named).
Definition passed_over (b : list Z) : Prop :=
  byte b 0 = 229 ∨ byte b 11 = 15 ∨ Z.testbit (byte b 11) 3 = true ∨ (byte b 0 = 46 ∧ byte b 1 = 32) ∨ (byte b 0 = 46 ∧ byte b 1 = 46 ∧ byte b 2 = 32).
#[export] Instance passed_over_dec b : Decision (passed_over b) := _.
Definition means (b : list Z) : Meaning :=
  if decide (byte b 0 = 0) then EndMark else
  if decide (passed_over b) then Nothing else
  Names (mkNamed (take 11 b) (Z.testbit (byte b 11) 4) (half b 26 + 65536 * half b 20) (half b 28 + 65536 * half b 30)).
(** The first entry with the eleven bytes of the name, before the end of the directory, and its index. *)
Fixpoint first_named (name : list Z) (i : Z) (rs : list (list Z)) : option (Z * Named) :=
  match rs with
  | [] => None
  | b :: rs' =>
      match means b with
      | EndMark => None
      | Nothing => first_named name (i + 1) rs'
      | Names r => if decide (nm_name r = name) then Some (i, r) else first_named name (i + 1) rs'
      end
  end.
Fixpoint raw_entries (n : nat) (l : list Z) : list (list Z) := match n with O => [] | S n' => take 32 l :: raw_entries n' (drop 32 l) end.

(** A name of at most eight and three characters, as it is typed and as it is stored: in capitals, filled with spaces. *)
Record short_name (base ext : list Z) : Prop := {
  sn_base : base ≠ [] ∧ (length base ≤ 8)%nat ∧ 46 ∉ base;
  sn_ext : (length ext ≤ 3)%nat;
}.
Definition capital (c : Z) : Z := if decide (97 ≤ c ≤ 122) then c - 32 else c.
Definition stored_name (base ext : list Z) : list Z :=
  (capital <$> base) ++ replicate (8 - length base) 32 ++ (capital <$> ext) ++ replicate (3 - length ext) 32.
(** The entry with another first cluster and size. *)
Definition stamped (b : list Z) (cluster sz : Z) : list Z :=
  take 20 b ++ [cluster / 65536 mod 256; cluster / 16777216] ++ take 4 (drop 22 b) ++ [cluster mod 256; cluster / 256 mod 256] ++ le_bytes 4 sz.

(** ** Agreement with the code *)

Ltac thirty_two b H := do 32 (destruct b as [|? b]; [discriminate H|]); destruct b; [|discriminate H].
Ltac nat_numerals := repeat match goal with |- context [Z.to_nat (Zpos ?p)] =>
  let n := eval vm_compute in (Z.to_nat (Zpos p)) in change (Z.to_nat (Zpos p)) with n end.
Lemma entry_of_fields b : length b = 32%nat → let e := entry_of b in
  de_name e = take 11 b ∧ attr e = byte b 11 ∧ first_cluster_lo e = half b 26 ∧ first_cluster_hi e = half b 20 ∧ file_size e = half b 28 + 65536 * half b 30.
Proof.
  intros Hl. thirty_two b Hl. unfold entry_of, dirent_of, half, byte, num_at, le_val. nat_numerals. cbn -[Z.add Z.mul]. split_and!; lia || done.
Qed.

Lemma byte_range b i : Forall (λ c, 0 ≤ c < 256) b → 0 ≤ byte b i < 256.
Proof. intros Hb. unfold byte. destruct (b !! i) as [c|] eqn:E; [|simpl; lia]. exact (Forall_lookup_1 _ _ _ _ Hb E). Qed.
Lemma entry_cluster_sum b : is_entry b → fat32_entry_cluster (entry_of b) = half b 26 + 65536 * half b 20.
Proof.
  intros [Hl Hb]. destruct (entry_of_fields b Hl) as (_ & _ & Hlo & Hhi & _). unfold fat32_entry_cluster. rewrite Hlo, Hhi. unfold half.
  pose proof (byte_range b 20 Hb). pose proof (byte_range b (20 + 1) Hb). pose proof (byte_range b 26 Hb). pose proof (byte_range b (26 + 1) Hb).
  rewrite Z.shiftl_mul_pow2, u32_small, Z.lor_comm, lor_add by lia. lia.
Qed.
Lemma name_bytes b i : length b = 32%nat → (i < 11)%nat → byte_at (take 11 b) (Z.of_nat i) = byte b i.
Proof. intros Hl Hi. unfold byte_at, byte. by rewrite zget_nat, lookup_take_lt. Qed.

(** How the code sorts the entries. *)
Lemma means_filter b : is_entry b →
  match means b with
  | EndMark => (fat32_entry_filter (entry_of b) <? 0) = true
  | Nothing => (fat32_entry_filter (entry_of b) <? 0) = false ∧ (0 <? fat32_entry_filter (entry_of b)) || dot_entry (entry_of b) = true
  | Names r => (fat32_entry_filter (entry_of b) <? 0) = false ∧ (0 <? fat32_entry_filter (entry_of b)) || dot_entry (entry_of b) = false ∧
      r = mkNamed (de_name (entry_of b)) (negb (Z.land (attr (entry_of b)) FAT32_ATTR_DIRECTORY =? 0)) (fat32_entry_cluster (entry_of b)) (file_size (entry_of b))
  end.
Proof.
  intros He. pose proof He as [Hl Hb]. rewrite (entry_cluster_sum b He). destruct (entry_of_fields b Hl) as (Hn & Ha & _ & _ & Hs). rewrite Hs. clear Hs.
  unfold means, passed_over, fat32_entry_filter, dot_entry. rewrite Hn, Ha.
  assert (byte_at (take 11 b) 0 = byte b 0) as -> by exact (name_bytes b 0 Hl ltac:(lia)).
  assert (byte_at (take 11 b) 1 = byte b 1) as -> by exact (name_bytes b 1 Hl ltac:(lia)).
  assert (byte_at (take 11 b) 2 = byte b 2) as -> by exact (name_bytes b 2 Hl ltac:(lia)).
  unfold FAT32_DIR_END, FAT32_DIR_FREE, FAT32_ATTR_LFN, FAT32_ATTR_VOLUME_ID, FAT32_ATTR_DIRECTORY.
  change 0x08 with (2 ^ 3). change 0x10 with (2 ^ 4). rewrite !land_bit, !negb_involutive by lia.
  case_decide as H0; [by rewrite (proj2 (Z.eqb_eq _ _) H0)|]. rewrite (proj2 (Z.eqb_neq _ _) H0).
  case_decide as Hp.
  - destruct (Z.eqb_spec (byte b 0) 0xE5); [done|]. destruct (Z.eqb_spec (byte b 11) 0x0F); [done|]. destruct (Z.testbit (byte b 11) 3); [done|].
    split; [done|]. destruct Hp as [?|[?|[?|[[-> ->]|(-> & -> & ->)]]]]; done.
  - destruct (Z.eqb_spec (byte b 0) 0xE5); [tauto|]. destruct (Z.eqb_spec (byte b 11) 0x0F); [tauto|]. destruct (Z.testbit (byte b 11) 3); [tauto|].
    split; [done|]. split; [|done]. cbn [Z.ltb orb].
    destruct (Z.eqb_spec (byte b 0) 46), (Z.eqb_spec (byte b 1) 32), (Z.eqb_spec (byte b 1) 46), (Z.eqb_spec (byte b 2) 32); simpl; tauto || done.
Qed.
Lemma capital_upper (l : list Z) : capital <$> l = upper <$> l.
Proof.
  apply list_fmap_ext. intros _ c _. unfold capital, upper, CASE_OFFSET.
  case_decide; destruct (Z.leb_spec 97 c), (Z.leb_spec c 122); simpl; lia.
Qed.
Lemma short_name_match base ext e : short_name base ext → fat32_name_match e (name_of base ext) = bool_decide (de_name e = stored_name base ext).
Proof.
  intros [(Hb0 & Hb & Hd) Hx]. unfold fat32_name_match, stored_name. rewrite !capital_upper.
  assert (fat32_str_to_name (name_of base ext) = Some (pad 8 (upper <$> base) ++ pad 3 (upper <$> ext))) as ->.
  { unfold fat32_str_to_name, name_of. destruct ext as [|c ext]; [rewrite split_dot_base by done|rewrite split_dot_ext by done]; unfold default, from_option, id;
      (destruct (Nat.eqb_spec (length base) 0) as [E0|_]; [by apply nil_length_inv in E0|]); (destruct (Nat.ltb_spec 8 (length base)); [lia|]); cbn [orb length].
    - done.
    - cbn [length] in Hx. destruct (Nat.ltb_spec 3 (S (length ext))); [lia|done]. }
  unfold pad. by rewrite !length_fmap, <-app_assoc.
Qed.
Lemma dir_find_named base ext : short_name base ext → ∀ rs i, Forall is_entry rs →
  match first_named (stored_name base ext) i rs with
  | None => dir_find (name_of base ext) i (entry_of <$> rs) = None
  | Some (j, r) => ∃ e, dir_find (name_of base ext) i (entry_of <$> rs) = Some (j, e) ∧
      r = mkNamed (de_name e) (negb (Z.land (attr e) FAT32_ATTR_DIRECTORY =? 0)) (fat32_entry_cluster e) (file_size e)
  end.
Proof.
  intros Hsn rs. induction rs as [|b rs IH]; intros i Hrs; [done|]. apply Forall_cons in Hrs as [Hb Hrs]. cbn [first_named fmap list_fmap dir_find].
  pose proof (means_filter b Hb) as Hm. specialize (IH (i + 1) Hrs). destruct (means b) as [| |r].
  - by rewrite Hm.
  - destruct Hm as [-> ->]. exact IH.
  - destruct Hm as (-> & -> & ->). rewrite (short_name_match base ext) by done. cbn [orb nm_name].
    case_decide as Hn; [rewrite bool_decide_true by done; by eexists|rewrite bool_decide_false by done; exact IH].
Qed.
Lemma entries_raw n : ∀ l, entries n l = entry_of <$> raw_entries n l.
Proof. induction n as [|n IH]; intros l; [done|]. cbn. by rewrite IH. Qed.
Lemma raw_entries_ok n : ∀ l, length l = (n * 32)%nat → Forall (λ c, 0 ≤ c < 256) l → Forall is_entry (raw_entries n l).
Proof.
  induction n as [|n IH]; intros l Hl Hb; [constructor|]. cbn [raw_entries]. constructor.
  - split; [rewrite length_take; lia|by apply Forall_take].
  - apply IH; [rewrite length_drop; lia|by apply Forall_drop].
Qed.

(** ** Changing an entry *)

Lemma le_bytes_num b off n : is_entry b → 0 ≤ off → 0 ≤ n → off + n ≤ 32 → le_bytes n (num_at b off n) = take (Z.to_nat n) (drop (Z.to_nat off) b).
Proof.
  intros [Hl Hb] Ho Hn Hle. unfold num_at.
  rewrite <-(le_bytes_le_val (take _ _)) at 2 by (by apply Forall_take, Forall_drop). f_equal. rewrite length_take, length_drop. lia.
Qed.
Lemma halves cl : 0 ≤ cl < 2 ^ 32 → le_bytes 2 (Z.land (Z.shiftr cl 16) 0xFFFF) = [cl / 65536 mod 256; cl / 16777216] ∧
  le_bytes 2 (Z.land cl 0xFFFF) = [cl mod 256; cl / 256 mod 256].
Proof.
  intros Hc. change 0xFFFF with (Z.ones 16). rewrite !Z.land_ones, Z.shiftr_div_pow2 by lia. unfold le_bytes. cbn [seqZ fmap list_fmap Z.to_nat].
  change (seqZ 0 2) with [0; 1]. cbn [fmap list_fmap]. change (2 ^ (8 * 0)) with 1. change (2 ^ (8 * 1)) with 256. change (2 ^ 16) with 65536. split; (f_equal; [lia|]; f_equal; lia).
Qed.
Lemma dirent_stamped b cl sz : is_entry b → 0 ≤ cl < 2 ^ 32 →
  dirent_bytes (fat32_set_entry_cluster cl (set_file_size sz (entry_of b))) = stamped b cl sz.
Proof.
  intros He Hc. pose proof He as [Hl _]. destruct (halves cl Hc) as [Hhi Hlo]. unfold dirent_bytes, entry_of, dirent_of. rewrite Hl.
  cbn [Nat.eqb default from_option id de_name attr nt_reserved create_time_tenths create_time create_date access_date first_cluster_hi modify_time modify_date
    first_cluster_lo file_size fat32_set_entry_cluster set_file_size].
  rewrite !le_bytes_num, Hhi, Hlo by (first [done|lia]). unfold stamped. generalize (le_bytes 4 sz). intros l4. clear He. nat_numerals. by thirty_two b Hl.
Qed.
Lemma length_stamped b cl sz : length b = 32%nat → length (stamped b cl sz) = 32%nat.
Proof. intros Hl. unfold stamped. rewrite !length_app, !length_take, length_drop, le_bytes_length, Hl by lia. reflexivity. Qed.
Lemma stamped_entry b cl sz : is_entry b → 0 ≤ cl < 2 ^ 32 → is_entry (stamped b cl sz).
Proof.
  intros [Hl Hb] Hc. split; [by apply length_stamped|]. unfold stamped. rewrite !Forall_app. split_and!.
  - by apply Forall_take.
  - repeat constructor; lia.
  - by apply Forall_take, Forall_drop.
  - repeat constructor; lia.
  - unfold le_bytes. apply Forall_fmap, Forall_forall. intros i _. simpl. lia.
Qed.
