(* ===== verification/Fat32Theorems.v ===== *)
(** * What the FAT32 file system guarantees

    Files written and read through their nodes, the table across a mount, the release of chains and 8.3 names. *)
From S2P Require Import Prelude PageAlloc Kmalloc KmallocCorrect KHeap Fat32 Fat32Correct Fat32Chains Fat32Files Fat32Sync Fat32Dir Fat32Entries.

Section theorems.
Context {H D : Type} `{KHeap H} `{BlockDev D}.
Implicit Types (s : Fat H D) (x : Fat32Volume) (v : Z).

(** ** Chains that a change does not touch *)

Definition preserved s x s' x' (C : list Z) : Prop :=
  ∀ c l, chain x c l → (∀ a, a ∈ l → a ∉ C) → chain x' c l ∧ contents (dev s') x' l = contents (dev s) x l.
Lemma frame_preserved v C s x s' x' : frame v C C s x s' x' → preserved s x s' x' C.
Proof.
  intros Hf c l Hc Hl. split; [by eapply frame_chain|]. apply (frame_contents _ _ _ _ _ _ _ _ Hf).
  intros a Ha. split; [exact (chain_in_data _ _ _ _ Hc Ha)|by apply Hl].
Qed.
(** Clusters that were free are in no chain. *)
Lemma wrote_preserved lim v s x L off b s' x' L' : wrote (lim := lim) v s x L off b s' x' L' → preserved s x s' x' L.
Proof.
  intros W c l Hc Hl. apply (frame_preserved v L' _ _ _ _ (wr_frame _ _ _ _ _ _ _ _ _ W) c l Hc). intros a Ha Ha'.
  destruct (wr_new _ _ _ _ _ _ _ _ _ W) as (new & -> & HF & _). apply elem_of_app in Ha' as [Ha'|Ha']; [by apply (Hl a Ha)|].
  apply (chain_not_free _ _ _ _ Hc Ha). apply elem_of_free. rewrite HF. apply elem_of_app. by left.
Qed.

Lemma same_live_trans s1 s2 s3 : same_live s1 s2 → same_live s2 s3 → same_live s1 s3.
Proof. intros [_ H1'] [H2' H3']. split; [done|]. by rewrite H3'. Qed.

(** ** The directory entry of a file *)

Definition entry_bytes s x (DL : list Z) (idx : Z) : list Z := take 32 (drop (Z.to_nat (idx * 32)) (contents (dev s) x DL)).

Lemma dirent_of_32 l : length l = 32%nat → ∃ e, dirent_of l = Some e.
Proof. intros Hl. unfold dirent_of. rewrite Hl. by eexists. Qed.

(** Where the entry is in a directory. *)
Record entry_in x (c idx : Z) (DL : list Z) : Prop := {
  ei_chain : chain x c DL;
  ei_idx : 0 ≤ idx ∧ (idx + 1) * 32 ≤ Z.of_nat (length DL) * bytes_per_cluster x;
  ei_size : (Z.of_nat (length DL) + 1) * bytes_per_cluster x < 2 ^ 32;
}.

Definition new_entry (info : Fat32NodeInfo) (n : VfsNode) (e : Fat32DirEntry) : Fat32DirEntry :=
  fat32_set_entry_cluster (first_cluster info) (set_file_size (u32 (size n)) e).

Lemma update_dir_entry_ok s v x node n info DL : fat_at s v x → kh_ok (fheap s) → nodes s !! node = Some n →
  infos s !! private_data n = Some info → vol info = v → entry_in x (dir_cluster info) (dir_entry_idx info) DL →
  stopped (update_dir_entry node s) ∨
  ∃ s' x', update_dir_entry node s = Done tt s' ∧ fat_at s' v x' ∧ same_live s s' ∧ frame v DL DL (with_heap (fheap s') s) x s' x' ∧
    chain x' (dir_cluster info) DL ∧
    ((full s' ∧ contents (dev s') x' DL = contents (dev s) x DL) ∨
     ∃ e, dirent_of (entry_bytes s x DL (dir_entry_idx info)) = Some e ∧
       contents (dev s') x' DL = write_at (contents (dev s) x DL) (Z.to_nat (dir_entry_idx info * 32)) (dirent_bytes (new_entry info n e))).
Proof.
  intros Hf Hh Hn Hi Hvol [Hc [Hi1 Hi2] Hsz]. pose proof (vo_spc _ _ (fa_ok _ _ _ Hf)) as Hspc. pose proof (vo_bpc _ _ (fa_ok _ _ _ Hf)) as Hbpc.
  unfold update_dir_entry, to_fat32, node_at. rewrite bind_assoc, (kopt_bind (λ s, nodes s !! node) _ s n Hn), (kopt_bind (λ s, infos s !! private_data n) _ s info Hi).
  rewrite (kopt_bind (λ s, nodes s !! node) _ s n Hn), Hvol. unfold fat32_read_dir_entry, SIZEOF_DIRENT. rewrite (u32_small (dir_entry_idx info * 32)) by nia.
  assert (length (contents (dev s) x DL) = (length DL * Z.to_nat (bytes_per_cluster x))%nat) as HlD.
  { apply (contents_length s v); [done|]. intros a. apply (chain_in_data _ _ _ _ Hc). }
  destruct (read_chain_ok s v x (dir_cluster info) DL (dir_entry_idx info * 32) 32 Hf Hh Hc) as [HP|(r & s1 & E & Hf1 & Hsl1 & Hfr1 & Hr)]; [lia..| |].
  { left. by apply stopped_bind. }
  kbind E. change (take (Z.to_nat 32) _) with (entry_bytes s x DL (dir_entry_idx info)) in Hr.
  assert (frame v DL DL (with_heap (fheap s1) s) x s1 x) as Hfr1' by (eapply frame_weaken; [exact Hfr1|set_solver|set_solver]).
  assert (contents (dev s1) x DL = contents (dev s) x DL) as Hcd1.
  { apply (frame_contents _ _ _ _ _ _ _ _ Hfr1). intros a Ha. split; [exact (chain_in_data _ _ _ _ Hc Ha)|by intros ?%elem_of_nil]. }
  assert (length (entry_bytes s x DL (dir_entry_idx info)) = 32%nat) as Hl32 by (unfold entry_bytes; rewrite length_take, length_drop, HlD; nia).
  destruct Hr as [[-> Href]| ->].
  { right. exists s1, x. cbn. split; [done|]. split; [done|]. split; [done|]. split; [done|]. split; [done|]. by left. }
  rewrite Hl32. cbn [fst snd]. change (0 <? Z.of_nat 32) with true. destruct (dirent_of_32 _ Hl32) as (e & He).
  rewrite (kopt_bind (λ _, dirent_of _) _ s1 e He). unfold fat32_write_dir_entry. rewrite bind_assoc. unfold SIZEOF_DIRENT. rewrite (u32_small (dir_entry_idx info * 32)) by nia. fold (new_entry info n e).
  assert (length (dirent_bytes (new_entry info n e)) = 32%nat) as Hlb.
  { unfold dirent_bytes. rewrite !length_app, !le_bytes_length by lia. cbn [de_name new_entry fat32_set_entry_cluster set_file_size].
    unfold dirent_of in He. rewrite Hl32 in He. injection He as <-. cbn [de_name]. rewrite length_take, Hl32. lia. }
  destruct (write_chain_ok (lim := dir_entry_idx info * 32 + 32) s1 v x (dir_cluster info) DL (dir_entry_idx info * 32) (dirent_bytes (new_entry info n e)) Hf1 (proj1 Hsl1) Hc)
    as [HP|[(h & E2 & Href & Hsl2)|(s2 & x2 & L2 & E2 & Hsl2 & W & _)]]; [lia|rewrite Hlb; lia|rewrite Hlb; nia|rewrite Hlb; lia|nia| | |].
  { left. by apply stopped_bind. }
  { right. exists (with_heap h s1), x. kbind E2. split; [done|]. split; [by apply fat_at_heap|]. split; [exact (same_live_trans _ _ _ Hsl1 Hsl2)|].
    split; [destruct Hfr1'; by split|]. split; [done|]. left. by split. }
  right. exists s2, x2. kbind E2. split; [done|]. split; [exact (wr_at _ _ _ _ _ _ _ _ _ W)|].
  split; [exact (same_live_trans _ _ _ Hsl1 Hsl2)|].
  assert (L2 = DL) as -> by (destruct (wr_tight _ _ _ _ _ _ _ _ _ W) as [|Ht]; [done|]; destruct (wr_new _ _ _ _ _ _ _ _ _ W) as (new & -> & _);
    destruct new as [|a new]; [by rewrite app_nil_r|exfalso; rewrite length_app in Ht; cbn [length] in Ht; nia]).
  split; [|split].
  - eapply frame_trans; [|exact (wr_frame _ _ _ _ _ _ _ _ _ W)]. destruct Hfr1'. by split.
  - rewrite (chain_hd _ _ _ Hc). exact (wr_chain _ _ _ _ _ _ _ _ _ W).
  - right. exists e. split; [done|]. destruct (wr_new _ _ _ _ _ _ _ _ _ W) as (new & HL & _ & ->). assert (new = []) as ->.
    { apply (f_equal length) in HL. rewrite length_app in HL. destruct new; [done|cbn [length] in HL; lia]. }
    cbn [length Nat.mul replicate]. rewrite app_nil_r. f_equal. done.
Qed.

(** ** Files *)

(** A file of the volume: its node, its chain of clusters and the directory that has its entry. *)
Record fat_file s v x (node : Z) (n : VfsNode) (info : Fat32NodeInfo) (L DL : list Z) : Prop := {
  ff_at : fat_at s v x;
  ff_heap : kh_ok (fheap s);
  ff_sync : sync_vol s v;
  ff_node : nodes s !! node = Some n ∧ type n = VFS_FILE ∧ 0 ≤ size n;
  ff_info : infos s !! private_data n = Some info ∧ vol info = v;
  ff_chain : chain x (first_cluster info) L;
  ff_entry : entry_in x (dir_cluster info) (dir_entry_idx info) DL;
  ff_apart : ∀ a, a ∈ L → a ∉ DL;
  ff_marked : marked s x;
  ff_dirent : Forall (λ c, 0 ≤ c < 256) (entry_bytes s x DL (dir_entry_idx info));
}.

Lemma upd_info_ok s node n info f : nodes s !! node = Some n → infos s !! private_data n = Some info →
  upd_info node f s = Done tt (with_infos (<[private_data n := f info]> (infos s)) s).
Proof. intros Hn Hi. unfold upd_info, kupd. rewrite Hn. cbn [mbind option_bind]. by rewrite Hi. Qed.
Lemma upd_node_ok s node n f : nodes s !! node = Some n → upd_node node f s = Done tt (with_nodes (<[node := f n]> (nodes s)) s).
Proof. intros Hn. unfold upd_node, kupd. by rewrite Hn. Qed.

(** The size of the node after a write that ended at [end_]. *)
Lemma grow_size_ok s node n end_ : nodes s !! node = Some n →
  (if size n <? end_ then upd_node node (set_size end_) else mret tt) s =
    Done tt (with_nodes (<[node := set_size (Z.max (size n) end_) n]> (nodes s)) s).
Proof.
  intros Hn. destruct (Z.ltb_spec (size n) end_) as [Hlt|Hge].
  - rewrite (upd_node_ok s node n) by done. by replace (Z.max (size n) end_) with end_ by lia.
  - replace (Z.max (size n) end_) with (size n) by lia. rewrite insert_id; [by destruct s|]. rewrite Hn. by destruct n.
Qed.

(** What is left of a write when the data are in the clusters: the node, the directory entry and the table. *)
Lemma write_end s v x node n info DL end_ : fat_at s v x → kh_ok (fheap s) → sync_vol s v → marked s x → nodes s !! node = Some n →
  infos s !! private_data n = Some info → vol info = v → entry_in x (dir_cluster info) (dir_entry_idx info) DL → ∀ A (a : A),
  let n' := set_size (Z.max (size n) end_) n in
  let m := ((if size n <? end_ then upd_node node (set_size end_) else mret tt) ≫= λ _, update_dir_entry node ≫= λ _, fat32_sync ≫= λ _, mret a) in
  stopped (m s) ∨
  ∃ s' x', m s = Done a s' ∧ fat_at s' v x' ∧ same_live s s' ∧ sync_vol s' v ∧ on_disk s' x' ∧ preserved s x s' x' DL ∧
    nodes s' = <[node := n']> (nodes s) ∧ infos s' = infos s ∧ bytes_per_cluster x' = bytes_per_cluster x ∧ entry_in x' (dir_cluster info) (dir_entry_idx info) DL ∧
    ((full s' ∧ contents (dev s') x' DL = contents (dev s) x DL) ∨
     ∃ e, dirent_of (entry_bytes s x DL (dir_entry_idx info)) = Some e ∧
       contents (dev s') x' DL = write_at (contents (dev s) x DL) (Z.to_nat (dir_entry_idx info * 32)) (dirent_bytes (new_entry info n' e))).
Proof.
  intros Hf Hh Hsv Hm Hn Hi Hvol Hent A a n' m. unfold m. pose proof (grow_size_ok s node n end_ Hn) as E1. fold n' in E1. kbind E1. set (s1 := with_nodes _ s).
  assert (fat_at s1 v x) as Hf1 by (destruct Hf; by split).
  assert (nodes s1 !! node = Some n') as Hn1 by apply lookup_insert_eq.
  assert (sync_vol s1 v) as Hsv1.
  { destruct Hsv as (c & b & rest & nb & ib & Hc & Hnb & Hib & Hv). destruct (decide (b = node)) as [->|Hne].
    - exists c, node, rest, n', ib. rewrite Hn in Hnb. injection Hnb as <-. by repeat split.
    - exists c, b, rest, nb, ib. split; [done|]. split; [unfold s1; cbn; by rewrite lookup_insert_ne|done]. }
  destruct (update_dir_entry_ok s1 v x node n' info DL Hf1 Hh Hn1 Hi Hvol Hent) as [HP|(s2 & x2 & E2 & Hf2 & Hsl2 & Hfr2 & Hc2 & Hd2)].
  { left. by apply stopped_bind. }
  right. kbind E2. assert (sync_vol s2 v) as Hsv2.
  { destruct Hsv1 as (c & b & rest & nb & ib & Hc & Hnb & Hib & Hv). exists c, b, rest, nb, ib. destruct Hfr2. cbn in *. by rewrite fr_cache, fr_nodes, fr_infos. }
  destruct (sync_ok s2 v x2 Hf2 Hsv2) as (s3 & E3 & Hf3 & Hh3 & Hn3 & Hi3 & Hc3 & Hd3 & _ & Hdisk). kbind E3. exists s3, (set_fat (fat x2) 0 x2).
  assert (∀ l, (∀ a, a ∈ l → in_data x2 a) → contents (dev s3) (set_fat (fat x2) 0 x2) l = contents (dev s2) x2 l) as Hcont.
  { intros l Hl. unfold contents. f_equal. apply list_fmap_ext. intros i b Hb%list_elem_of_lookup_2. rewrite geom_data. by apply Hd3, Hl. }
  assert (∀ c l, chain x2 c l → chain (set_fat (fat x2) 0 x2) c l) as Hch by (intros c l; by apply chain_frame).
  assert (bytes_per_cluster x2 = bytes_per_cluster x) as Hb2 by (by rewrite (fr_geom _ _ _ _ _ _ _ Hfr2)).
  destruct Hsl2 as [Hh2 Hl2]. split; [done|]. split; [done|]. split; [split; [by rewrite Hh3|by rewrite Hh3]|]. split.
  { destruct Hsv2 as (c & b & rest & nb & ib & ?). exists c, b, rest, nb, ib. by rewrite Hc3, Hn3, Hi3. }
  split; [apply Hdisk; eapply (frame_marked _ _ _ _ _ _ _ Hfr2); [apply Hf|exact Hm]|]. split.
  { intros c l Hc Hl. destruct (frame_preserved v DL _ _ _ _ Hfr2 c l Hc Hl) as [Hc' Hd']. split; [by apply Hch|].
    rewrite Hcont; [exact Hd'|]. intros b. apply (chain_in_data _ _ _ _ Hc'). }
  split; [by rewrite Hn3, (fr_nodes _ _ _ _ _ _ _ Hfr2)|]. split; [by rewrite Hi3, (fr_infos _ _ _ _ _ _ _ Hfr2)|]. split; [done|].
  split. { destruct Hent. split; [by apply Hch|cbn; by rewrite Hb2|cbn; by rewrite Hb2]. }
  rewrite Hcont by (intros b; apply (chain_in_data _ _ _ _ Hc2)). unfold full. rewrite Hh3. exact Hd2.
Qed.

Lemma sync_vol_info s s' v a i : node_cache s' = node_cache s → nodes s' = nodes s → infos s' = <[a := i]> (infos s) →
  (∀ j, infos s !! a = Some j → vol i = vol j) → sync_vol s v → sync_vol s' v.
Proof.
  intros Hc Hn Hi Hv (c & b & rest & nb & ib & Hcb & Hnb & Hib & Hvb). exists c, b, rest, nb.
  destruct (decide (private_data nb = a)) as [<-|Hp]; rewrite Hc, Hn, Hi.
  - exists i. rewrite lookup_insert_eq, (Hv ib Hib). by repeat split.
  - exists ib. by rewrite lookup_insert_ne.
Qed.

(** The outcome of a write of [buf] at [offset]: the bytes of the file, its node and its entry. *)
Record written s v x node n info (L DL : list Z) (offset : Z) (buf : list Z) s' x' (L' : list Z) : Prop := {
  wn_file : fat_file s' v x' node (set_size (Z.max (size n) (offset + Z.of_nat (length buf))) n) (set_first_cluster (hd0 L') info) L' DL;
  wn_disk : on_disk s' x';
  wn_live : same_live s s';
  wn_bytes : ∃ new, L' = L ++ new ∧
    contents (dev s') x' L' =
      write_at (contents (dev s) x L ++ replicate (length new * Z.to_nat (bytes_per_cluster x)) 0) (Z.to_nat offset) buf;
  wn_tight : L' = L ∨ (Z.of_nat (length L') - 1) * bytes_per_cluster x < offset + Z.of_nat (length buf);
  wn_fits : offset + Z.of_nat (length buf) ≤ Z.of_nat (length L') * bytes_per_cluster x;
  wn_geom : bytes_per_cluster x' = bytes_per_cluster x;
  wn_entry : (full s' ∧ contents (dev s') x' DL = contents (dev s) x DL) ∨
    contents (dev s') x' DL = write_at (contents (dev s) x DL) (Z.to_nat (dir_entry_idx info * 32))
      (stamped (entry_bytes s x DL (dir_entry_idx info)) (hd0 L') (Z.max (size n) (offset + Z.of_nat (length buf))));
  wn_others : preserved s x s' x' (L ++ DL);
}.

(** The new entry, as its bytes. *)
Lemma entry_is_entry s v x c idx DL : fat_at s v x → entry_in x c idx DL → Forall (λ c, 0 ≤ c < 256) (entry_bytes s x DL idx) →
  is_entry (entry_bytes s x DL idx).
Proof.
  intros Hf [Hc [Hi1 Hi2] _] Hb. split; [|done]. unfold entry_bytes. pose proof (vo_spc _ _ (fa_ok _ _ _ Hf)). pose proof (vo_bpc _ _ (fa_ok _ _ _ Hf)).
  rewrite length_take, length_drop, (contents_length s v) by (try done; intros a; apply (chain_in_data _ _ _ _ Hc)). nia.
Qed.
Lemma le_bytes_u32 v : le_bytes 4 (u32 v) = le_bytes 4 v.
Proof.
  unfold le_bytes, u32. change (seqZ 0 4) with [0; 1; 2; 3]. cbn [fmap list_fmap].
  change (2 ^ (8 * 0)) with 1. change (2 ^ (8 * 1)) with 256. change (2 ^ (8 * 2)) with 65536. change (2 ^ (8 * 3)) with 16777216. change (2 ^ 32) with 4294967296.
  f_equal; [lia|]. f_equal; [lia|]. f_equal; [lia|]. f_equal. lia.
Qed.
Lemma chain_start x cap c l : vol_ok x cap → chain x c l → 0 ≤ hd0 l < 2 ^ 32.
Proof. intros [] Hc. destruct l as [|a l]; [done|]. destruct Hc as (_ & [? ?] & _). change (hd0 (a :: l)) with a. lia. Qed.
Lemma new_entry_stamped b info n e : dirent_of b = Some e → is_entry b → 0 ≤ first_cluster info < 2 ^ 32 →
  dirent_bytes (new_entry info n e) = stamped b (first_cluster info) (size n).
Proof.
  intros He Hb Hc. assert (e = entry_of b) as -> by (unfold entry_of; by rewrite He). unfold new_entry. rewrite dirent_stamped by done.
  unfold stamped. by rewrite le_bytes_u32.
Qed.

Lemma fat32_write_lemma s v x node n info L DL buf offset : fat_file s v x node n info L DL →
  0 ≤ offset → 0 < Z.of_nat (length buf) < 2 ^ 31 → offset + Z.of_nat (length buf) + bytes_per_cluster x < 2 ^ 32 →
  offset + Z.of_nat (length buf) ≤ Z.of_nat (length L + length (free_clusters x)) * bytes_per_cluster x →
  stopped (fat32_write node buf offset s) ∨
  (∃ h, fat32_write node buf offset s = Done (- ENOMEM) (with_heap h s) ∧ full (with_heap h s)) ∨
  ∃ s' x' L', fat32_write node buf offset s = Done (Z.of_nat (length buf)) s' ∧ written s v x node n info L DL offset buf s' x' L'.
Proof.
  intros [Hf Hh Hsv (Hn & Hty & Hn0) (Hi & Hvol) HcL Hent Hap Hm Hby] Ho Hsz Hlim Hroom.
  pose proof (vo_spc _ _ (fa_ok _ _ _ Hf)) as Hspc. pose proof (vo_bpc _ _ (fa_ok _ _ _ Hf)) as Hbpc.
  unfold fat32_write, to_fat32, node_at. rewrite bind_assoc, (kopt_bind (λ s, nodes s !! node) _ s n Hn), (kopt_bind (λ s, infos s !! private_data n) _ s info Hi).
  rewrite (kopt_bind (λ s, nodes s !! node) _ s n Hn), Hty, Hvol. cbn [Z.eqb VFS_FILE negb].
  destruct (write_chain_ok (lim := offset + Z.of_nat (length buf)) s v x (first_cluster info) L offset buf Hf Hh HcL Ho)
    as [HP|[(h & E & Href & Hsl)|(s1 & x1 & L1 & E & Hsl1 & W & HL1)]]; [lia|lia|lia|lia| | |].
  { left. by apply stopped_bind. }
  { right. left. exists h. kbind E. cbn [fst snd]. rewrite (bind_Done _ _ _ tt (with_heap h s)); [by split|].
    rewrite (upd_info_ok (with_heap h s) node n info) by done. f_equal. cbn. rewrite insert_id; [done|]. rewrite Hi. by destruct info. }
  kbind E. cbn [fst snd]. pose proof W as [Hf1 Hc1 Hfr1 Ht1 (new & HL & HF & Hd1)].
  assert (nodes s1 !! node = Some n) as Hn1 by (by rewrite (fr_nodes _ _ _ _ _ _ _ Hfr1)).
  assert (infos s1 !! private_data n = Some info) as Hi1 by (by rewrite (fr_infos _ _ _ _ _ _ _ Hfr1)).
  pose proof (upd_info_ok s1 node n info (set_first_cluster (hd0 L1)) Hn1 Hi1) as Eu. kbind Eu. set (s2 := with_infos _ s1).
  destruct (Z.leb_spec (Z.of_nat (length buf)) 0); [lia|]. rewrite (u32_small (Z.of_nat (length buf))), u32_small by lia.
  assert (chain x1 (dir_cluster info) DL ∧ contents (dev s1) x1 DL = contents (dev s) x DL) as [HcD HdD].
  { apply (wrote_preserved _ _ _ _ _ _ _ _ _ _ W (dir_cluster info) DL); [apply Hent|]. intros b HbD HbL. by apply (Hap b). }
  assert (bytes_per_cluster x1 = bytes_per_cluster x) as Hb1 by (exact (wrote_geom _ _ _ _ _ _ _ _ _ W)).
  destruct (write_end s2 v x1 node n (set_first_cluster (hd0 L1) info) DL (offset + Z.of_nat (length buf))) with (A := Z) (a := Z.of_nat (length buf))
    as [HP|(s3 & x3 & E3 & Hf3 & Hsl3 & Hsv3 & Hdisk & Hpre & Hn3 & Hi3 & Hb3 & Hent3 & Hd3)].
  { by destruct Hf1. } { apply Hsl1. }
  { apply (sync_vol_info s s2 v (private_data n) (set_first_cluster (hd0 L1) info)); [apply Hfr1|apply Hfr1|by cbn; rewrite (fr_infos _ _ _ _ _ _ _ Hfr1)| |done].
    intros j. rewrite Hi. by intros [= <-]. }
  { exact (frame_marked _ _ _ _ _ _ _ Hfr1 (fa_ok _ _ _ Hf) Hm). }
  { done. } { apply lookup_insert_eq. } { done. } { destruct Hent. split; [done|by rewrite Hb1|by rewrite Hb1]. }
  { by left. }
  right. right. exists s3, x3, L1. split; [exact E3|].
  assert (∀ a, a ∈ L1 → a ∉ DL) as Hap1.
  { intros a Ha HaD. rewrite HL in Ha. apply elem_of_app in Ha as [Ha|Ha]; [by apply (Hap a)|].
    apply (chain_not_free _ _ _ _ (ei_chain _ _ _ _ Hent) HaD). apply elem_of_free. rewrite HF. apply elem_of_app. by left. }
  destruct (Hpre (hd0 L1) L1 Hc1 Hap1) as [HcL3 HdL3].
  change (dev s2) with (dev s1) in Hd3. unfold entry_bytes in Hd3. change (dev s2) with (dev s1) in Hd3. rewrite HdD in Hd3.
  fold (entry_bytes s x DL (dir_entry_idx info)) in Hd3. pose proof (entry_is_entry s v x _ _ DL Hf Hent Hby) as Hie.
  pose proof (chain_start _ _ _ _ (fa_ok _ _ _ Hf1) Hc1) as Hst.
  assert ((full s3 ∧ contents (dev s3) x3 DL = contents (dev s) x DL) ∨ contents (dev s3) x3 DL = write_at (contents (dev s) x DL) (Z.to_nat (dir_entry_idx info * 32))
    (stamped (entry_bytes s x DL (dir_entry_idx info)) (hd0 L1) (Z.max (size n) (offset + Z.of_nat (length buf))))) as Hent'.
  { destruct Hd3 as [?|(e & He & Hd3)]; [by left|right]. rewrite Hd3. f_equal. by apply (new_entry_stamped _ (set_first_cluster (hd0 L1) info)). }
  split.
  - split; [done|apply Hsl3|done| |split; [|done]|done|done|done|by intros _|].
    + rewrite Hn3, lookup_insert_eq. split; [done|]. split; [done|]. cbn. lia.
    + rewrite Hi3. unfold s2. cbn. by rewrite lookup_insert_eq.
    + unfold entry_bytes. cbn [dir_entry_idx set_first_cluster]. destruct Hent' as [[_ ->]| ->]; [exact Hby|].
      rewrite <-(length_stamped _ (hd0 L1) (Z.max (size n) (offset + Z.of_nat (length buf))) (proj1 Hie)), write_at_take; [by apply stamped_entry|].
      rewrite length_stamped by apply Hie. destruct Hie as [Hie _]. unfold entry_bytes in Hie. rewrite length_take, length_drop in Hie. lia.
  - done.
  - apply (same_live_trans s s1 s3); [done|]. exact Hsl3.
  - exists new. split; [done|]. rewrite HdL3. exact Hd1.
  - exact Ht1.
  - done.
  - by rewrite Hb3.
  - exact Hent'.
  - intros c l Hc Hl. assert (∀ a, a ∈ l → a ∉ L) as HlL by (intros a Ha HaL; apply (Hl a Ha), elem_of_app; by left).
    destruct (wrote_preserved _ _ _ _ _ _ _ _ _ _ W c l Hc HlL) as [Hc' Hd']. destruct (Hpre c l Hc') as [Hc'' Hd''].
    { intros a Ha HaD. apply (Hl a Ha), elem_of_app. by right. }
    split; [done|]. rewrite Hd''. exact Hd'.
Qed.

Lemma fat32_read_lemma s v x node n info L DL offset sz : fat_file s v x node n info L DL → 0 ≤ offset < size n → 0 ≤ sz < 2 ^ 31 →
  (Z.of_nat (length L) + 1) * bytes_per_cluster x < 2 ^ 32 → size n ≤ Z.of_nat (length L) * bytes_per_cluster x →
  let got := take (Z.to_nat (Z.min sz (size n - offset))) (drop (Z.to_nat offset) (contents (dev s) x L)) in
  stopped (fat32_read node offset sz s) ∨
  ∃ r s', fat32_read node offset sz s = Done r s' ∧ fat_at s' v x ∧ same_live s s' ∧ frame v [] [] (with_heap (fheap s') s) x s' x ∧
    (r = (- ENOMEM, []) ∧ full s' ∨ r = (Z.min sz (size n - offset), got)).
Proof.
  intros [Hf Hh _ (Hn & Hty & _) (Hi & Hvol) HcL _ _ _ _] Ho Hsz Hlim Hfit got.
  unfold fat32_read, to_fat32, node_at. rewrite bind_assoc, (kopt_bind (λ s, nodes s !! node) _ s n Hn), (kopt_bind (λ s, infos s !! private_data n) _ s info Hi).
  rewrite (kopt_bind (λ s, nodes s !! node) _ s n Hn), Hty, Hvol. cbn [Z.eqb VFS_FILE]. destruct (Z.leb_spec (size n) offset); [lia|].
  pose proof (vo_spc _ _ (fa_ok _ _ _ Hf)). pose proof (vo_bpc _ _ (fa_ok _ _ _ Hf)).
  rewrite u32_small by nia. set (k := if size n - offset <? sz then _ else _).
  assert (k = Z.min sz (size n - offset)) as Hk by (unfold k; destruct (Z.ltb_spec (size n - offset) sz); lia).
  destruct (read_chain_ok s v x (first_cluster info) L offset k Hf Hh HcL ltac:(lia) ltac:(lia) Hlim) as [HP|(r & s' & E & Hf' & Hsl & Hfr & Hr)]; [by left|].
  right. exists r, s'. split; [done|]. split; [done|]. split; [done|]. split; [done|]. destruct Hr as [Hr| ->]; [by left|right]. fold got. rewrite Hk. fold got.
  f_equal. unfold got. rewrite length_take, length_drop, (contents_length s v x) by (try done; intros b; apply (chain_in_data _ _ _ _ HcL)). nia.
Qed.

(** C6. [fat32_write] of less than 2^31 bytes that end at least a cluster below 2^32, to a file on a volume with enough free clusters for them,
    either stops the machine or returns -ENOMEM with the volume as it was,
    each only when the heap cannot grow, or returns the number of bytes; the bytes of the file are then those it had, zeros up to the end of
    the clusters it got, and the data at the offset; it took no cluster more than it needs, its node has the new size, the bytes of its directory entry
    that hold the first cluster and the size are set (or the entry is as it was, only when the heap cannot grow), every sector of the first table on the disk
    has the bytes of the table of the volume, and no other chain of clusters changed. *)
Theorem fat32_write_correct s v x node n info L DL buf offset : fat_file s v x node n info L DL →
  0 ≤ offset → 0 < Z.of_nat (length buf) < 2 ^ 31 → offset + Z.of_nat (length buf) + bytes_per_cluster x < 2 ^ 32 →
  offset + Z.of_nat (length buf) ≤ Z.of_nat (length L + length (free_clusters x)) * bytes_per_cluster x →
  stopped (fat32_write node buf offset s) ∨
  (∃ h, fat32_write node buf offset s = Done (- ENOMEM) (with_heap h s) ∧ full (with_heap h s)) ∨
  ∃ s' x' L', fat32_write node buf offset s = Done (Z.of_nat (length buf)) s' ∧ written s v x node n info L DL offset buf s' x' L'.
Proof. apply fat32_write_lemma. Qed.

(** What [fat32_write] wrote to a file is what [fat32_read] reads from it; only when the heap cannot grow does the read
    stop the machine or return -ENOMEM instead. *)
Theorem fat32_write_read s v x node n info L DL buf offset s' : fat_file s v x node n info L DL →
  0 ≤ offset → 0 < Z.of_nat (length buf) < 2 ^ 31 → offset + Z.of_nat (length buf) + 2 * bytes_per_cluster x < 2 ^ 32 →
  (Z.of_nat (length L) + 1) * bytes_per_cluster x < 2 ^ 32 → size n ≤ Z.of_nat (length L) * bytes_per_cluster x →
  offset + Z.of_nat (length buf) ≤ Z.of_nat (length L + length (free_clusters x)) * bytes_per_cluster x →
  fat32_write node buf offset s = Done (Z.of_nat (length buf)) s' →
  stopped (fat32_read node offset (Z.of_nat (length buf)) s') ∨
  ∃ r s'', fat32_read node offset (Z.of_nat (length buf)) s' = Done r s'' ∧ (r = (- ENOMEM, []) ∧ full s'' ∨ r = (Z.of_nat (length buf), buf)).
Proof.
  intros Hff Ho Hsz Hlim HL Hfit Hroom Hw. pose proof (vo_spc _ _ (fa_ok _ _ _ (ff_at _ _ _ _ _ _ _ _ Hff))) as Hspc. pose proof (vo_bpc _ _ (fa_ok _ _ _ (ff_at _ _ _ _ _ _ _ _ Hff))) as Hbpc.
  destruct (fat32_write_lemma s v x node n info L DL buf offset Hff Ho Hsz) as [(s1 & E & _)|[(h & E & _)|(s1 & x1 & L1 & E & [Hff1 _ _ (new & HL1 & Hd1) Ht1 Hfit1 Hb _ _])]]; [lia|lia|..];
    rewrite E in Hw; [done| |]; injection Hw.
  { unfold ENOMEM. lia. }
  intros <-. set (n1 := set_size _ n) in Hff1. assert (size n1 = Z.max (size n) (offset + Z.of_nat (length buf))) as Hn1 by done.
  assert (length L ≤ length L1)%nat as HLL by (rewrite HL1, length_app; lia).
  destruct (fat32_read_lemma s1 v x1 node n1 _ L1 DL offset (Z.of_nat (length buf)) Hff1) as [HP|(r & s2 & E2 & _ & _ & _ & Hr)].
  { lia. } { lia. } { rewrite Hb. destruct Ht1 as [->|Ht1]; [done|nia]. } { rewrite Hb, Hn1. nia. }
  { by left. }
  right. exists r, s2. split; [exact E2|]. destruct Hr as [Hr| ->]; [by left|right].
  replace (Z.min (Z.of_nat (length buf)) (size n1 - offset)) with (Z.of_nat (length buf)) by lia. f_equal. rewrite Nat2Z.id, Hd1. apply write_at_take.
  pose proof (contents_length s1 v x1 L1 (ff_at _ _ _ _ _ _ _ _ Hff1)) as Hl. rewrite length_app, length_replicate.
  rewrite (contents_length s v x L (ff_at _ _ _ _ _ _ _ _ Hff)) by (intros b; apply (chain_in_data _ _ _ _ (ff_chain _ _ _ _ _ _ _ _ Hff))).
  apply (f_equal length) in HL1. rewrite length_app in HL1. nia.
Qed.

(** C32. After [fat32_sync] the table is on the disk, whether it was marked as changed or was there before: a [fat32_mount] that follows stops the machine or fails only when the
    heap cannot grow, and otherwise gives a root directory on a volume with the same geometry and the same table. *)
Theorem fat32_sync_mount s v x : fat_at s v x → kh_ok (fheap s) → sync_vol s v → marked s x → 0 < fat_start x →
  describes (bpb_of (bd_sector (dev s) 0)) x →
  ∃ s1, fat32_sync s = Done 0 s1 ∧
    (stopped (fat32_mount 1 s1) ∨ (∃ s2, fat32_mount 1 s1 = Done 0 s2 ∧ full s2) ∨
     ∃ root s2 n i y, fat32_mount 1 s1 = Done root s2 ∧ root ≠ 0 ∧ nodes s2 !! root = Some n ∧ type n = VFS_DIRECTORY ∧
       infos s2 !! private_data n = Some i ∧ first_cluster i = root_cluster x ∧ vols s2 !! vol i = Some y ∧ fat y = fat x ∧
       set_fat_cache 0 [] (set_root_node 0 y) = volume_of (bpb_of (bd_sector (dev s) 0))).
Proof.
  intros Hf Hh Hsv Hm Hs0 Hdes. destruct (sync_ok s v x Hf Hsv) as (s1 & E & Hf1 & Hh1 & _ & _ & _ & _ & Hlow & Hdisk). exists s1. split; [done|].
  rewrite <-(Hlow 0) in * by lia. apply (mount_ok s1 v (set_fat (fat x) 0 x)); [done|by rewrite Hh1|done|done|]. by apply Hdisk.
Qed.

(** ** Lookups *)

(** The entries of the directory with the clusters [L]. *)
Definition dir_raw s x (L : list Z) : list (list Z) := let l := contents (dev s) x L in raw_entries (length l / 32) l.
Definition kind_of (r : Named) : Z := if nm_dir r then VFS_DIRECTORY else VFS_FILE.
(** The node that the cache has for the first cluster of an entry is the node of that entry. *)
Definition not_stale s v (dc i : Z) (r : Named) : Prop :=
  let a := cache_find (nm_cluster r) (node_cache s) in
  nm_cluster r ≠ 0 → a ≠ 0 → ∃ n, nodes s !! a = Some n ∧ type n = kind_of r ∧ infos s !! private_data n = Some (mkInfo v (nm_cluster r) dc i).
(** The node [a] is that of the entry [r] with index [i] of the directory at cluster [dc], and the only one that changed. *)
Record found s v x (dc i : Z) (r : Named) (a : Z) s' : Prop := {
  fo_node : ∃ n, nodes s' !! a = Some n ∧ type n = kind_of r ∧ size n = nm_size r ∧ infos s' !! private_data n = Some (mkInfo v (nm_cluster r) dc i);
  fo_one : nm_cluster r ≠ 0 → cache_find (nm_cluster r) (node_cache s) ≠ 0 → a = cache_find (nm_cluster r) (node_cache s);
  fo_others : ∀ b, b ≠ a → nodes s' !! b = nodes s !! b;
  fo_vol : vols s' !! v = Some x;
  fo_data : preserved s x s' x [];
}.

Lemma dir_raw_entries s v x c L : fat_at s v x → chain x c L → Forall (λ c, 0 ≤ c < 256) (contents (dev s) x L) →
  dir_entries s x L = entry_of <$> dir_raw s x L ∧ Forall is_entry (dir_raw s x L).
Proof.
  intros Hf Hc Hb. unfold dir_entries, dir_raw. pose proof (vo_spc _ _ (fa_ok _ _ _ Hf)). pose proof (vo_bpc _ _ (fa_ok _ _ _ Hf)) as Hbpc.
  pose proof (contents_length s v x L Hf ltac:(intros a; apply (chain_in_data _ _ _ _ Hc))) as Hl.
  assert (Z.to_nat (bytes_per_cluster x) = epc x * 32)%nat as He.
  { unfold epc, SIZEOF_DIRENT. rewrite Hbpc. replace (sectors_per_cluster x * 512 / 32) with (sectors_per_cluster x * 16) by lia. lia. }
  assert (length (contents (dev s) x L) / 32 = length L * epc x)%nat as ->.
  { rewrite Hl, He, Nat.mul_assoc. by apply Nat.div_mul. }
  split; [apply entries_raw|]. apply raw_entries_ok; [|done]. rewrite Hl, He. lia.
Qed.
Lemma found_named s v x dc i e a s1 s' : vols s !! v = Some x → frame v [] [] (with_heap (fheap s1) s) x s1 x →
  let r := mkNamed (de_name e) (negb (Z.land (attr e) FAT32_ATTR_DIRECTORY =? 0)) (fat32_entry_cluster e) (file_size e) in
  not_stale s v dc i r → found_entry s1 v dc i e a s' → found s v x dc i r a s'.
Proof.
  intros Hv Hfr r Hns [(n & Hn & Hs & Hcase) Hvo Hd Ho]. unfold not_stale, r in Hns. cbn [nm_cluster] in Hns. pose proof Hfr as [_ Hfn Hfi Hfc _ Hfv _ _ _ _]. cbn in Hfn, Hfi, Hfc, Hfv.
  rewrite Hfc, Hfn in Hcase. split.
  - exists n. split; [done|]. case_decide as Hcc.
    + destruct Hcase as (-> & Hi & n0 & Hn0 & ->). destruct (Hns (proj1 Hcc) (proj2 Hcc)) as (n1 & Hn1 & Ht1 & Hi1). rewrite Hn0 in Hn1. injection Hn1 as <-.
      by rewrite Hi, Hfi.
    + by destruct Hcase.
  - intros Hc1 Hc2. rewrite decide_True in Hcase by done. by destruct Hcase.
  - intros b Hb. rewrite Ho, Hfn by done. done.
  - rewrite Hvo, Hfv. apply lookup_insert_eq.
  - intros c l Hc Hl. destruct (frame_preserved v [] _ _ _ _ Hfr c l Hc Hl) as [Hc' Hd']. split; [done|]. rewrite Hd. exact Hd'.
Qed.

(** C33. [fat32_lookup] of a name of at most eight and three characters reads the entries of the directory as the format defines them: without an entry with
    that name before the end mark it returns NULL and changes nothing; otherwise it returns a node with the kind, size, first cluster and place of the first such
    entry (the one that the cache has for the cluster, if any), changes no other node and no data, provided that what the cache has for the
    cluster is the node of the entry and not a stale one. Only when the heap cannot grow does it stop the machine or return NULL for another reason. *)
Theorem fat32_lookup_correct s v x dir n info L base ext : fat_at s v x → kh_ok (fheap s) → nodes s !! dir = Some n →
  infos s !! private_data n = Some info → vol info = v → chain x (first_cluster info) L → Z.of_nat (length L * epc x) < 2 ^ 32 →
  Forall (λ c, 0 ≤ c < 256) (contents (dev s) x L) → short_name base ext →
  (∀ i r, first_named (stored_name base ext) 0 (dir_raw s x L) = Some (i, r) → not_stale s v (first_cluster info) i r) →
  let name := name_of base ext in
  stopped (fat32_lookup dir name s) ∨ (∃ s', fat32_lookup dir name s = Done 0 s' ∧ full s') ∨
  match first_named (stored_name base ext) 0 (dir_raw s x L) with
  | None => ∃ s', fat32_lookup dir name s = Done 0 s' ∧ fat_at s' v x ∧ same_live s s' ∧ frame v [] [] (with_heap (fheap s') s) x s' x
  | Some (i, r) => ∃ a s', fat32_lookup dir name s = Done a s' ∧ a ≠ 0 ∧ found s v x (first_cluster info) i r a s'
  end.
Proof.
  intros Hf Hh Hn Hi Hvol Hc Hlim Hb Hsn Hns name. destruct (dir_raw_entries s v x _ L Hf Hc Hb) as [Hde Hie].
  pose proof (dir_find_named base ext Hsn (dir_raw s x L) 0 Hie) as Hdf. rewrite <-Hde in Hdf. fold name in Hdf.
  destruct (first_named _ 0 _) as [[i r]|].
  - destruct Hdf as (e & Hdf & ->). specialize (Hns i _ eq_refl).
    destruct (lookup_lemma s v x dir n info L name Hf Hh Hn Hi Hvol Hc Hlim) as [?|[?|Hres]]; [|by left|by right; left|right; right].
    + intros i' e' Hdf' a' Hz Ha'. rewrite Hdf in Hdf'. injection Hdf' as <- <-. destruct (Hns Hz Ha') as (n1 & Hn1 & _). by exists n1.
    + rewrite Hdf in Hres. destruct Hres as (a & s1 & s' & E & Ha & Hfr & Hfo). exists a, s'. split; [done|]. split; [done|].
      by apply (found_named s v x _ i e a s1 s' (fa_vol _ _ _ Hf)).
  - destruct (lookup_lemma s v x dir n info L name Hf Hh Hn Hi Hvol Hc Hlim) as [?|[?|Hres]]; [by rewrite Hdf|by left|by right; left|right; right].
    by rewrite Hdf in Hres.
Qed.

(** [fat32_free_chain] ends, makes exactly the clusters of the chain free and changes no other entry of the table. *)
Theorem fat32_free_chain_correct s v x c l : fat_at s v x → chain x c l →
  ∃ s' x', fat32_free_chain v c s = Done tt s' ∧ fat_at s' v x' ∧ frame v l [] s x s' x' ∧ ∀ a, in_data x a → (free_entry x' a ↔ a ∈ l ∨ free_entry x a).
Proof.
  intros Hf Hc. unfold fat32_free_chain, volume. rewrite (kopt_bind (λ s, vols s !! v) _ s x (fa_vol _ _ _ Hf)).
  pose proof (clusters_length _ _ _ _ (fa_ok _ _ _ Hf) Hc) as Hl.
  destruct (free_chain_loop_ok v l x c (chain_fuel x) s Hf Hc ltac:(unfold chain_fuel; lia)) as (s' & x' & E & Hf' & Hfr & _ & Hfree).
  exists s', x'. split; [done|]. split; [done|]. split; [done|]. intros a Ha. destruct (decide (a ∈ l)) as [Hin|Hin].
  - split; [by left|]. intros _. by apply Hfree.
  - unfold free_entry. rewrite (fr_fat _ _ _ _ _ _ _ Hfr) by done. tauto.
Qed.
End theorems.

(** A name of at most eight and three characters is stored in eleven bytes from which [fat32_name_to_str] gives it back in lower case, and
    the entry matches the name. *)
Theorem fat32_name_roundtrip base ext e : base ≠ [] → (length base ≤ 8)%nat → (length ext ≤ 3)%nat → 46 ∉ base → 32 ∉ base → 32 ∉ ext →
  ∃ f, fat32_str_to_name (name_of base ext) = Some f ∧ length f = 11%nat ∧
    (de_name e = f → fat32_name_to_str e = lower <$> name_of base ext ∧ fat32_name_match e (name_of base ext) = true).
Proof. apply name_roundtrip_lemma. Qed.
