(* ===== verification/Fat32Example.v ===== *)
(** * A volume on a RAM disk

    A disk in memory is a block device, and a small volume on it shows that the theorems about the file system apply. *)
From S2P Require Import Prelude PageAlloc Kmalloc KmallocCorrect KHeap Fat32 Fat32Correct Fat32Chains Fat32Files Fat32Sync Fat32Dir Fat32Entries Fat32Theorems.

(** ** The disk *)

Record RamDisk : Type := mkDisk { disk_cap : Z; disk_sectors : gmap Z (list Z) }.
Definition disk_sector (d : RamDisk) (i : Z) : list Z := default (replicate 512 0) (disk_sectors d !! i).
Definition disk_read (i n : Z) : K RamDisk (Z * list Z) := λ d,
  if (0 <=? i) && (i + n <=? disk_cap d) then Done (0, concat (disk_sector d <$> seqZ i n)) d else Done (- EIO, []) d.
Definition disk_put (i n : Z) (l : list Z) (m : gmap Z (list Z)) : gmap Z (list Z) :=
  foldr (λ j m, <[j := take 512 (drop (Z.to_nat (512 * (j - i))) l)]> m) m (seqZ i n).
Definition disk_write (i n : Z) (l : list Z) : K RamDisk Z := λ d,
  if (0 <=? i) && (i + n <=? disk_cap d) then Done 0 (mkDisk (disk_cap d) (disk_put i n l (disk_sectors d))) else Done (- EIO) d.
Definition disk_ok (d : RamDisk) : Prop := map_Forall (λ _ l, length l = 512%nat) (disk_sectors d).

Lemma disk_put_lookup i n l m j : disk_put i n l m !! j =
  if decide (i ≤ j < i + n) then Some (take 512 (drop (Z.to_nat (512 * (j - i))) l)) else m !! j.
Proof.
  unfold disk_put. transitivity (if decide (j ∈ seqZ i n) then Some (take 512 (drop (Z.to_nat (512 * (j - i))) l)) else m !! j).
  - induction (seqZ i n) as [|k ks IH]; [done|]. cbn [foldr]. destruct (decide (j = k)) as [->|Hne].
    + rewrite lookup_insert_eq, decide_True; [done|apply list_elem_of_here].
    + rewrite lookup_insert_ne, IH by done. repeat case_decide; try done; set_solver.
  - repeat case_decide; try done; rewrite elem_of_seqZ in *; lia.
Qed.

#[export] Instance ram_disk : BlockDev RamDisk.
Proof.
  refine {| bd_read := disk_read; bd_write := disk_write; bd_ok := disk_ok; bd_capacity := disk_cap; bd_sector := disk_sector |}.
  - intros d i Hd _. unfold disk_sector. destruct (disk_sectors d !! i) as [l|] eqn:E; [exact (Hd i l E)|apply length_replicate].
  - intros d i n Hd Hi Hn Hc. exists d. unfold disk_read. destruct (Z.leb_spec 0 i); [|lia]. by destruct (Z.leb_spec (i + n) (disk_cap d)); [|lia].
  - intros d i n l Hd Hi Hn Hc Hl. exists (mkDisk (disk_cap d) (disk_put i n l (disk_sectors d))). split; [|split; [|split; [done|]]].
    + unfold disk_write. destruct (Z.leb_spec 0 i); [|lia]. by destruct (Z.leb_spec (i + n) (disk_cap d)); [|lia].
    + intros j k. cbn. rewrite disk_put_lookup. case_decide; [|apply Hd]. intros [= <-]. rewrite length_take, length_drop. lia.
    + intros j. unfold disk_sector. cbn. rewrite disk_put_lookup. by case_decide.
Defined.

(** ** The volume *)

(** A boot sector, a table of one sector, a root directory at cluster 2 with the file A.TXT, whose only cluster is 3. *)
Definition fill (l : list Z) : list Z := l ++ replicate (512 - length l) 0.
Definition boot_sector : list Z :=
  fill (replicate 11 0 ++ le_bytes 2 512 ++ [1] ++ le_bytes 2 1 ++ [1] ++ replicate 15 0 ++ le_bytes 4 32 ++ le_bytes 4 1 ++ replicate 4 0 ++ le_bytes 4 2).
Definition table : list Z := [0x0FFFFFF8; 0x0FFFFFFF; 0x0FFFFFF8; 0x0FFFFFF8] ++ replicate 124 0.
Definition a_txt : Fat32DirEntry := set_file_size 4 (named_dirent ([65] ++ replicate 7 32 ++ [84; 88; 84]) FAT32_ATTR_ARCHIVE 3).
Definition disk_example : RamDisk :=
  mkDisk 32 (list_to_map [(0, boot_sector); (1, fat_bytes table); (2, fill (dirent_bytes a_txt)); (3, fill [1; 2; 3; 4])]).
Definition vol_example : Fat32Volume := mkVol 1 512 1 2 2 30 16 table 1 1 10.
Definition info_example : Fat32NodeInfo := mkInfo 1 3 2 0.
Definition node_example : VfsNode := mkNode 0x10001 VFS_FILE 4 420 0 0 fat32_file_ops 21.
Definition fat_example : Fat (Heap Z) RamDisk :=
  mkFat heap_example disk_example {[ 1 := vol_example ]}
    (list_to_map [(10, mkNode 0x10000 VFS_DIRECTORY 0 493 0 0 fat32_dir_ops 20); (11, node_example)])
    (list_to_map [(20, mkInfo 1 2 0 0); (21, info_example)]) [(2, 10); (3, 11)] 0x10002.

Lemma fat_example_at : fat_at fat_example 1 vol_example.
Proof.
  split; [done| |].
  - split; cbn; try lia; [reflexivity|]. refine (bool_decide_unpack (Forall (λ e, 0 ≤ e < 2 ^ 32) table) _). vm_compute. exact I.
  - unfold bd_ok, ram_disk, disk_ok. cbn [dev fat_example disk_example disk_sectors]. refine (bool_decide_unpack _ _). vm_compute. exact I.
Qed.
Lemma fat_example_heap : kh_ok (fheap fat_example).
Proof. exists blocks_example. apply heap_example_repr. Qed.
Lemma fat_example_sync : sync_vol fat_example 1.
Proof. by exists 2, 10, [(3, 11)], (mkNode 0x10000 VFS_DIRECTORY 0 493 0 0 fat32_dir_ops 20), (mkInfo 1 2 0 0). Qed.
Lemma chain_example c : c = 2 ∨ c = 3 → chain vol_example c [c].
Proof. intros [-> | ->]; (split; [done|]; split; [by split|]; by exists 0x0FFFFFF8). Qed.
Lemma fat_example_file : fat_file fat_example 1 vol_example 11 node_example info_example [3] [2].
Proof.
  split; [exact fat_example_at|exact fat_example_heap|exact fat_example_sync|by split|by split|by apply chain_example; right| | | |].
  - split; [by apply chain_example; left|by split|done].
  - intros a Ha Hb. apply list_elem_of_singleton in Ha as ->. apply list_elem_of_singleton in Hb. discriminate Hb.
  - intros Hd. discriminate Hd.
  - refine (bool_decide_unpack (Forall (λ c, 0 ≤ c < 256) (entry_bytes fat_example vol_example [2] 0)) _). vm_compute. exact I.
Qed.

(** The file gets a second cluster. *)
Definition data_example : list Z := [7; 8; 9].
Definition returned {S A} (o : outcome S A) (f : A → bool) : bool := match o with Done a _ => f a | _ => false end.
Lemma write_example : returned (fat32_write 11 data_example 511 fat_example) (λ r, r =? 3) = true.
Proof. vm_compute. reflexivity. Qed.

Lemma fat32_write_correct_witness :
  ∃ s' x' L', fat32_write 11 data_example 511 fat_example = Done 3 s' ∧ written fat_example 1 vol_example 11 node_example info_example [3] [2] 511 data_example s' x' L'.
Proof.
  pose proof write_example as Hw.
  destruct (fat32_write_correct fat_example 1 vol_example 11 node_example info_example [3] [2] data_example 511 fat_example_file)
    as [(s' & E & _)|[(h & E & _)|(s' & x' & L' & E & W)]].
  - lia.
  - cbn. lia.
  - cbn. lia.
  - vm_compute. congruence.
  - rewrite E in Hw. discriminate Hw.
  - rewrite E in Hw. discriminate Hw.
  - exists s', x', L'. by split.
Defined.

Definition state_of {S A} (d : S) (o : outcome S A) : S := match o with Done _ s => s | _ => d end.
Definition written_example : Fat (Heap Z) RamDisk := state_of fat_example (fat32_write 11 data_example 511 fat_example).
Lemma returned_state {S A} (d : S) (o : outcome S A) f : returned o f = true → ∃ a, o = Done a (state_of d o) ∧ f a = true.
Proof. destruct o as [a s| |]; [|done..]. intros Hf. by exists a. Qed.

Lemma fat32_write_read_witness :
  ∃ r s', fat32_read 11 511 3 written_example = Done r s' ∧ r = (3, data_example).
Proof.
  assert (fat32_write 11 data_example 511 fat_example = Done 3 written_example) as Hw.
  { destruct (returned_state fat_example _ _ write_example) as (a & E & Ha). apply Z.eqb_eq in Ha as ->. exact E. }
  assert (returned (fat32_read 11 511 3 written_example) (λ r, r.1 =? 3) = true) as Hr by (vm_compute; reflexivity).
  destruct (fat32_write_read fat_example 1 vol_example 11 node_example info_example [3] [2] data_example 511 written_example fat_example_file)
    as [(s' & E & _)|(r & s' & E & Hcase)]; try exact Hw; try (cbn; lia).
  - vm_compute. congruence.
  - change (Z.of_nat (length data_example)) with 3 in E. rewrite E in Hr. discriminate Hr.
  - change (Z.of_nat (length data_example)) with 3 in E, Hcase. exists r, s'. split; [exact E|]. destruct Hcase as [[-> _]|Hc]; [|exact Hc].
    rewrite E in Hr. discriminate Hr.
Defined.

Lemma fat32_sync_mount_witness :
  ∃ s1 root s2 n i y, fat32_sync fat_example = Done 0 s1 ∧ fat32_mount 1 s1 = Done root s2 ∧ nodes s2 !! root = Some n ∧
    infos s2 !! private_data n = Some i ∧ vols s2 !! vol i = Some y ∧ fat y = table.
Proof.
  destruct (fat32_sync_mount fat_example 1 vol_example fat_example_at fat_example_heap fat_example_sync) as (s1 & E & Hm).
  - intros Hd. discriminate Hd.
  - cbn. lia.
  - vm_compute. repeat split; congruence.
  - assert (returned (fat32_mount 1 (state_of fat_example (fat32_sync fat_example))) (λ r, negb (r =? 0)) = true) as Hr by (vm_compute; reflexivity).
    rewrite E in Hr. cbn [state_of] in Hr. destruct Hm as [(s2 & Em & _)|[(s2 & Em & _)|(root & s2 & n & i & y & Em & _ & Hn & _ & Hi & _ & Hv & Hf & _)]].
    + rewrite Em in Hr. discriminate Hr.
    + rewrite Em in Hr. discriminate Hr.
    + exists s1, root, s2, n, i, y. split; [exact E|]. split; [exact Em|]. split; [exact Hn|]. split; [exact Hi|]. split; [exact Hv|exact Hf].
Defined.

(** a.txt *)
Definition name_example : list Z := [97; 46; 116; 120; 116].
Lemma fat32_lookup_correct_witness :
  ∃ a s', fat32_lookup 10 name_example fat_example = Done a s' ∧ a ≠ 0 ∧
    found fat_example 1 vol_example 2 0 (mkNamed ([65] ++ replicate 7 32 ++ [84; 88; 84]) false 3 4) a s'.
Proof.
  assert (returned (fat32_lookup 10 name_example fat_example) (λ r, negb (r =? 0)) = true) as Hr by (vm_compute; reflexivity).
  assert (first_named (stored_name [97] [116; 120; 116]) 0 (dir_raw fat_example vol_example [2]) =
    Some (0, mkNamed ([65] ++ replicate 7 32 ++ [84; 88; 84]) false 3 4)) as Hd by (vm_compute; reflexivity).
  destruct (fat32_lookup_correct fat_example 1 vol_example 10 (mkNode 0x10000 VFS_DIRECTORY 0 493 0 0 fat32_dir_ops 20) (mkInfo 1 2 0 0) [2] [97] [116; 120; 116]
    fat_example_at fat_example_heap eq_refl eq_refl eq_refl) as [(s' & E & _)|[(s' & E & _)|Hres]].
  - apply chain_example. by left.
  - vm_compute. reflexivity.
  - refine (bool_decide_unpack (Forall (λ c, 0 ≤ c < 256) (contents disk_example vol_example [2])) _). vm_compute. exact I.
  - split; [split; [discriminate|split; [simpl; lia|by intros ?%list_elem_of_singleton]]|simpl; lia].
  - intros i r Hf. rewrite Hd in Hf. injection Hf as <- <-. intros _ _. exists node_example. vm_compute. repeat split.
  - change (name_of [97] [116; 120; 116]) with name_example in E. rewrite E in Hr. discriminate Hr.
  - change (name_of [97] [116; 120; 116]) with name_example in E. rewrite E in Hr. discriminate Hr.
  - rewrite Hd in Hres. exact Hres.
Defined.

Lemma fat32_free_chain_correct_witness :
  ∃ s' x', fat32_free_chain 1 3 fat_example = Done tt s' ∧ fat_at s' 1 x' ∧ free_entry x' 3.
Proof.
  destruct (fat32_free_chain_correct fat_example 1 vol_example 3 [3] fat_example_at) as (s' & x' & E & Hf & _ & Hfree).
  - apply chain_example. by right.
  - exists s', x'. split; [exact E|]. split; [exact Hf|]. apply Hfree; [by split|left; apply list_elem_of_here].
Defined.

Lemma fat32_name_roundtrip_witness :
  ∃ f, fat32_str_to_name name_example = Some f ∧ fat32_name_to_str (named_dirent f FAT32_ATTR_ARCHIVE 3) = name_example.
Proof.
  destruct (fat32_name_roundtrip [97] [116; 120; 116] a_txt) as (f & Hf & _ & Hback).
  - discriminate.
  - cbn. lia.
  - cbn. lia.
  - by intros ?%list_elem_of_singleton.
  - by intros ?%list_elem_of_singleton.
  - rewrite !not_elem_of_cons. repeat split; try lia. apply not_elem_of_nil.
  - vm_compute in Hf. injection Hf as <-. eexists. split; [reflexivity|]. exact (proj1 (Hback eq_refl)).
Defined.

(** ** The cache of nodes is not told of freed clusters *)

(** The file b.txt is created, a.txt removed, and b.txt written, which gives it the cluster of a.txt; a lookup of b.txt then finds
    the node of a.txt, whose entry is the first of the directory and not the second. *)
Definition name_b : list Z := [98; 46; 116; 120; 116].
Definition stale_steps : K (Fat (Heap Z) RamDisk) (Z * Z * Z) :=
  b ← fat32_create 10 name_b VFS_FILE;
  fat32_unlink 10 name_example;;
  fat32_write b data_example 0;;
  a ← fat32_lookup 10 name_b;
  i ← to_fat32 a;
  mret (b, a, dir_entry_idx i).
Lemma fat32_cache_stale : returned (stale_steps fat_example) (λ r, negb (r.1.1 =? r.1.2) && (r.1.2 =? 11) && (r.2 =? 0)) = true.
Proof. vm_compute. reflexivity. Qed.
