(* ===== verification/Pci.v ===== *)
(** * PCI enumeration

    [kernel/drivers/pci.c].  The configuration space belongs to the hardware: it is a function of the address that the
    kernel writes to the address port, an argument of the section, and what the kernel writes to it is recorded.  The table of
    devices is an array of 64 records, which is zero before the first call. *)
From S2P Require Import Prelude.

Definition PCI_MAX_DEVICES : Z := 64.
Definition PCI_REG_VENDOR_ID : Z := 0x00.
Definition PCI_REG_COMMAND : Z := 0x04.
Definition PCI_REG_CLASS : Z := 0x08.
Definition PCI_REG_HEADER_TYPE : Z := 0x0E.
Definition PCI_REG_BAR0 : Z := 0x10.
Definition PCI_REG_IRQ_LINE : Z := 0x3C.
Definition PCI_CMD_BUS_MASTER : Z := 4.
Definition PCI_HEADER_MULTIFUNCTION : Z := 0x80.
Definition PCI_VENDOR_NONE : Z := 0xFFFF.
Definition PCI_VENDOR_INVALID : Z := 0.
Definition PCI_HEADER_TYPE_MASK : Z := 0x7F.
Definition PCI_NUM_BARS : Z := 6.
Definition PCI_BAR_IO_MASK : Z := 0xFFFC.

Record PciAddress : Type := mkPciAddr { bus : Z; device : Z; function : Z }.
Record PciDevice : Type := mkPciDev {
  addr : PciAddress; vendor_id : Z; device_id : Z; class_code : Z; subclass : Z; prog_if : Z; revision : Z;
  header_type : Z; irq_line : Z; irq_pin : Z; bar : list Z
}.
Definition zero_pci : PciDevice := mkPciDev (mkPciAddr 0 0 0) 0 0 0 0 0 0 0 0 0 (replicate 6 0).
Record Pci : Type := mkPci { pci_devices : list PciDevice; pci_count : Z; cfg_writes : list (Z * Z) }.

Definition pci_config_addr (b d f off : Z) : Z :=
  Z.lor (Z.lor (Z.lor (Z.lor (2 ^ 31) (Z.shiftl b 16)) (Z.shiftl (Z.land d 0x1F) 11)) (Z.shiftl (Z.land f 0x07) 8)) (Z.land off 0xFC).
Definition pci_reg_byte (reg byte : Z) : Z := u8 (Z.land (Z.shiftr reg (byte * 8)) 0xFF).
Definition pci_bar_io_base (bar : Z) : Z := u16 (Z.land bar PCI_BAR_IO_MASK).

Section pci.
(** The configuration space, by the address that is written to the port. *)
Context (space : Z → Z).

Definition pci_config_read32 (b d f off : Z) : Z := space (pci_config_addr b d f off).
Definition pci_config_write32 (b d f off v : Z) : K Pci unit :=
  kmod (λ s, mkPci (pci_devices s) (pci_count s) (cfg_writes s ++ [(pci_config_addr b d f off, v)])).

Definition pci_populate_device (b dev func vendor devid : Z) : K Pci unit :=
  n ← kget pci_count;
  if PCI_MAX_DEVICES <=? n then mret tt else
  d ← kopt (λ s, zget (pci_devices s) n);
  let class_reg := pci_config_read32 b dev func PCI_REG_CLASS in
  let header := pci_reg_byte (pci_config_read32 b dev func PCI_REG_HEADER_TYPE) 2 in
  let bars := if Z.land header PCI_HEADER_TYPE_MASK =? 0
    then (λ i, pci_config_read32 b dev func (PCI_REG_BAR0 + i * 4)) <$> seqZ 0 PCI_NUM_BARS else bar d in
  let irq_reg := pci_config_read32 b dev func PCI_REG_IRQ_LINE in
  kupd (λ s, l ← zset (pci_devices s) n
      (mkPciDev (mkPciAddr b dev func) vendor devid (pci_reg_byte class_reg 3) (pci_reg_byte class_reg 2) (pci_reg_byte class_reg 1)
        (pci_reg_byte class_reg 0) header (pci_reg_byte irq_reg 0) (pci_reg_byte irq_reg 1) bars);
    Some (mkPci l (n + 1) (cfg_writes s))).

(** The identification of a function, with the check of its vendor. *)
Definition pci_vendor (b dev func : Z) : Z := Z.land (pci_config_read32 b dev func PCI_REG_VENDOR_ID) 0xFFFF.
Definition pci_devid (b dev func : Z) : Z := Z.land (Z.shiftr (pci_config_read32 b dev func PCI_REG_VENDOR_ID) 16) 0xFFFF.
Definition pci_absent (vendor : Z) : bool := (vendor =? PCI_VENDOR_NONE) || (vendor =? PCI_VENDOR_INVALID).
Definition pci_scan_function (b dev func : Z) : K Pci unit :=
  if pci_absent (pci_vendor b dev func) then mret tt else
  pci_populate_device b dev func (pci_vendor b dev func) (pci_devid b dev func).
Definition pci_scan_device (b dev : Z) : K Pci unit :=
  if pci_absent (pci_vendor b dev 0) then mret tt else
  pci_populate_device b dev 0 (pci_vendor b dev 0) (pci_devid b dev 0);;
  n ← kget pci_count;
  if 0 <? n then
    d ← kopt (λ s, zget (pci_devices s) (n - 1));
    if negb (Z.land (header_type d) PCI_HEADER_MULTIFUNCTION =? 0) then kfor (seqZ 1 7) (pci_scan_function b dev) else mret tt
  else mret tt.
Definition pci_init : K Pci unit :=
  kmod (λ s, mkPci (pci_devices s) 0 (cfg_writes s));;
  kfor (seqZ 0 256) (λ b, kfor (seqZ 0 32) (λ dev, pci_scan_device b dev)).

(** Pointers into the table are its indices, NULL is [None]. *)
Fixpoint find_device_loop (l : list PciDevice) (i vendor devid : Z) : option Z :=
  match l with
  | [] => None
  | d :: l' => if (vendor_id d =? vendor) && (device_id d =? devid) then Some i else find_device_loop l' (i + 1) vendor devid
  end.
Definition pci_find_device (vendor devid : Z) (s : Pci) : option Z :=
  find_device_loop (take (Z.to_nat (pci_count s)) (pci_devices s)) 0 vendor devid.
Definition pci_enable_bus_master (d : PciDevice) : K Pci unit :=
  let cmd := pci_config_read32 (bus (addr d)) (device (addr d)) (function (addr d)) PCI_REG_COMMAND in
  pci_config_write32 (bus (addr d)) (device (addr d)) (function (addr d)) PCI_REG_COMMAND (Z.lor cmd PCI_CMD_BUS_MASTER).
Definition pci_get_device_count (s : Pci) : Z := pci_count s.
Definition pci_get_device (index : Z) (s : Pci) : option Z :=
  if (index <? 0) || (pci_count s <=? index) then None else Some index.

(** ** What the code reads *)

(** What the code makes of a function, and which functions of a slot it looks at. *)
Definition read_device (b dev func : Z) : PciDevice :=
  let reg := pci_config_read32 b dev func in
  let header := pci_reg_byte (reg PCI_REG_HEADER_TYPE) 2 in
  mkPciDev (mkPciAddr b dev func) (pci_vendor b dev func) (pci_devid b dev func)
    (pci_reg_byte (reg PCI_REG_CLASS) 3) (pci_reg_byte (reg PCI_REG_CLASS) 2) (pci_reg_byte (reg PCI_REG_CLASS) 1) (pci_reg_byte (reg PCI_REG_CLASS) 0)
    header (pci_reg_byte (reg PCI_REG_IRQ_LINE) 0) (pci_reg_byte (reg PCI_REG_IRQ_LINE) 1)
    (if Z.land header PCI_HEADER_TYPE_MASK =? 0 then (λ i, reg (PCI_REG_BAR0 + i * 4)) <$> seqZ 0 PCI_NUM_BARS else replicate 6 0).
Definition read_function (b dev func : Z) : list PciDevice := if pci_absent (pci_vendor b dev func) then [] else [read_device b dev func].
Definition read_slot (b dev : Z) : list PciDevice :=
  if pci_absent (pci_vendor b dev 0) then [] else
  read_device b dev 0 :: (if Z.land (header_type (read_device b dev 0)) PCI_HEADER_MULTIFUNCTION =? 0 then [] else mjoin (read_function b dev <$> seqZ 1 7)).
Definition read_machine : list PciDevice := mjoin ((λ b, mjoin (read_slot b <$> seqZ 0 32)) <$> seqZ 0 256).

(** The table has the first 64 of the functions that were found. *)
Definition tabled (F : list PciDevice) (s : Pci) : Prop :=
  pci_count s = Z.of_nat (length (take 64 F)) ∧ pci_devices s = take 64 F ++ replicate (64 - length (take 64 F)) zero_pci.

Lemma tabled_full F G G' s : (64 ≤ length F)%nat → tabled (F ++ G) s → tabled (F ++ G') s.
Proof. unfold tabled. intros Hl. by rewrite !take_app_le by done. Qed.
Lemma populate_run F s b dev func : tabled F s →
  ∃ s', pci_populate_device b dev func (pci_vendor b dev func) (pci_devid b dev func) s = Done tt s' ∧
    tabled (F ++ [read_device b dev func]) s' ∧ cfg_writes s' = cfg_writes s.
Proof.
  intros Ht. pose proof Ht as [Hc Hd]. unfold pci_populate_device. rewrite kget_bind. unfold PCI_MAX_DEVICES.
  destruct (decide (64 ≤ length F)%nat) as [Hf|Hf].
  { rewrite length_take in Hc. replace (64 <=? pci_count s) with true by lia. exists s. split_and!; [done| |done].
    rewrite <-(app_nil_r F) in Ht. by apply (tabled_full _ []). }
  rewrite take_ge in Hc, Hd by lia. replace (64 <=? pci_count s) with false by lia.
  rewrite (kopt_bind _ _ _ zero_pci).
  2: { rewrite Hc, zget_nat, Hd, lookup_app_r, Nat.sub_diag by lia. by apply lookup_replicate_2; lia. }
  unfold kupd. rewrite zset_lt by (rewrite Hd, length_app, length_replicate; lia). eexists. split_and!; [done| |done].
  change (tabled (F ++ [read_device b dev func])
    (mkPci (<[Z.to_nat (pci_count s) := read_device b dev func]> (pci_devices s)) (pci_count s + 1) (cfg_writes s))).
  generalize (read_device b dev func). intros x. unfold tabled. simpl. rewrite take_ge by (rewrite length_app; simpl; lia). rewrite length_app. simpl. split; [lia|].
  rewrite Hc, Nat2Z.id, Hd. replace (64 - length F)%nat with (S (64 - (length F + 1))) by lia. simpl.
  rewrite insert_app_r_alt, Nat.sub_diag by lia. simpl. by rewrite <-app_assoc.
Qed.
Lemma scan_function_run F s b dev func : tabled F s →
  ∃ s', pci_scan_function b dev func s = Done tt s' ∧ tabled (F ++ read_function b dev func) s' ∧ cfg_writes s' = cfg_writes s.
Proof.
  intros Ht. unfold pci_scan_function, read_function. destruct (pci_absent _); [|by apply populate_run].
  exists s. by rewrite app_nil_r.
Qed.
(** A loop over things that each add what they find. *)
Lemma scan_loop {A} (body : A → K Pci unit) (found : A → list PciDevice) l :
  (∀ F s x, tabled F s → ∃ s', body x s = Done tt s' ∧ tabled (F ++ found x) s' ∧ cfg_writes s' = cfg_writes s) →
  ∀ F s, tabled F s → ∃ s', kfor l body s = Done tt s' ∧ tabled (F ++ mjoin (found <$> l)) s' ∧ cfg_writes s' = cfg_writes s.
Proof.
  intros Hb. induction l as [|x l IH]; intros F s Ht; [exists s; by rewrite app_nil_r|].
  destruct (Hb F s x Ht) as (s1 & E1 & T1 & W1). destruct (IH _ _ T1) as (s2 & E2 & T2 & W2).
  exists s2. cbn [kfor]. kbind E1. split_and!; [done| |congruence]. csimpl. by rewrite app_assoc.
Qed.
Lemma scan_device_run F s b dev : tabled F s →
  ∃ s', pci_scan_device b dev s = Done tt s' ∧ tabled (F ++ read_slot b dev) s' ∧ cfg_writes s' = cfg_writes s.
Proof.
  intros Ht. unfold pci_scan_device, read_slot. destruct (pci_absent _); [exists s; by rewrite app_nil_r|].
  destruct (populate_run F s b dev 0 Ht) as (s1 & E1 & T1 & W1). kbind E1. rewrite kget_bind. pose proof T1 as [Hc Hd].
  rewrite length_take, length_app in Hc. cbn [length] in Hc. replace (0 <? pci_count s1) with true by lia.
  destruct (zget_lt (pci_devices s1) (pci_count s1 - 1)) as (d & Ed).
  { rewrite Hd, length_app, length_replicate, length_take, length_app. cbn [length]. lia. }
  rewrite (kopt_bind _ _ _ d) by done.
  destruct (scan_loop (pci_scan_function b dev) (read_function b dev) (seqZ 1 7) ltac:(intros; by apply scan_function_run) _ _ T1) as (s2 & E2 & T2 & W2).
  destruct (decide (64 ≤ length F)%nat) as [Hf|Hf].
  { rewrite <-app_assoc in T2. destruct (negb _); [exists s2|exists s1]; (split_and!; [done|by eapply tabled_full|congruence]). }
  assert (d = read_device b dev 0) as ->.
  { rewrite Hd, take_ge in Ed by (rewrite length_app; simpl; lia). replace (pci_count s1 - 1) with (Z.of_nat (length F)) in Ed by lia.
    rewrite zget_nat, <-app_assoc, lookup_app_r, Nat.sub_diag in Ed by lia. by injection Ed. }
  destruct (Z.land _ _ =? 0); simpl; [by exists s1|]. exists s2. split_and!; [done| |congruence]. by rewrite <-app_assoc in T2.
Qed.
Lemma scan_run s : pci_devices s = replicate 64 zero_pci →
  ∃ s', pci_init s = Done tt s' ∧ tabled read_machine s' ∧ cfg_writes s' = cfg_writes s.
Proof.
  intros Hs. destruct (scan_loop (λ b, kfor (seqZ 0 32) (λ dev, pci_scan_device b dev)) (λ b, mjoin (read_slot b <$> seqZ 0 32)) (seqZ 0 256))
    with (F := @nil PciDevice) (s := mkPci (pci_devices s) 0 (cfg_writes s)) as (s' & E & T & W).
  - intros F s0 b. apply (scan_loop _ (read_slot b)). intros. by apply scan_device_run.
  - by split.
  - exists s'. unfold pci_init. rewrite kmod_bind. split_and!; [exact E|exact T|exact W].
Qed.
End pci.
Lemma find_loop_spec v d l : ∀ i, find_device_loop l i v d =
  (λ p, i + Z.of_nat p.1) <$> list_find (λ x, vendor_id x = v ∧ device_id x = d) l.
Proof.
  induction l as [|x l IH]; intros i; [done|]. simpl. destruct (decide (vendor_id x = v ∧ device_id x = d)) as [[-> ->]|Hn].
  - rewrite !Z.eqb_refl. simpl. by rewrite Z.add_0_r.
  - replace (_ && _) with false by lia. rewrite IH. destruct (list_find _ l) as [[k y]|]; simpl; [|done]. f_equal. lia.
Qed.

(** ** What is there *)

(** The hardware as the PCI specification describes it: every function has 256 bytes of configuration space, with the vendor at 0, the
    device at 2, the revision and the class at 8 to 11, the header type at 14 with the bit for several functions at its top, six
    base addresses from 16 on when the header type is 0, and the interrupt at 60 and 61. *)
Section hardware.
Context (conf : Z → Z → Z → Z → Z).
Definition word16 (b d f off : Z) : Z := conf b d f off + 256 * conf b d f (off + 1).
Definition word32 (b d f off : Z) : Z := word16 b d f off + 65536 * word16 b d f (off + 2).

(** A word at a multiple of 4 is read at the address that has bit 31 set, the bus from bit 16 on, the device from bit 11 on and the function
    from bit 8 on. *)
Record wired (space : Z → Z) : Prop := {
  wi_bytes : ∀ b d f off, 0 ≤ conf b d f off < 256;
  wi_words : ∀ b d f i, 0 ≤ b < 256 → 0 ≤ d < 32 → 0 ≤ f < 8 → 0 ≤ i < 64 →
    space (2147483648 + 65536 * b + 2048 * d + 256 * f + 4 * i) = word32 b d f (4 * i);
}.

Definition present (b d f : Z) : Prop := word16 b d f 0 ≠ 65535 ∧ word16 b d f 0 ≠ 0.
#[global] Instance present_dec b d f : Decision (present b d f) := _.
Definition described (b d f : Z) : PciDevice :=
  let byte := conf b d f in
  mkPciDev (mkPciAddr b d f) (word16 b d f 0) (word16 b d f 2) (byte 11) (byte 10) (byte 9) (byte 8) (byte 14) (byte 60) (byte 61)
    (if decide (byte 14 mod 128 = 0) then word32 b d f <$> [16; 20; 24; 28; 32; 36] else [0; 0; 0; 0; 0; 0]).
(** A slot without function 0 is empty; the other functions count when function 0 says that there are several. *)
Definition slot (b d : Z) : list PciDevice :=
  if decide (present b d 0) then
    described b d 0 :: (if decide (128 ≤ conf b d 0 14) then described b d <$> filter (present b d) [1; 2; 3; 4; 5; 6; 7] else [])
  else [].
Definition machine : list PciDevice := b ← seqZ 0 256; d ← seqZ 0 32; slot b d.
End hardware.

(** ** What the code reads is what is there *)

Lemma config_addr_sum b d f off : 0 ≤ b < 256 → 0 ≤ d < 32 → 0 ≤ f < 8 → 0 ≤ off < 256 →
  pci_config_addr b d f off = 2147483648 + 65536 * b + 2048 * d + 256 * f + 4 * (off / 4).
Proof.
  intros Hb Hd Hf Ho. unfold pci_config_addr. change 0x1F with (Z.ones 5). change 0x07 with (Z.ones 3).
  rewrite !Z.land_ones, !Z.shiftl_mul_pow2 by lia. rewrite (Z.mod_small d), (Z.mod_small f) by lia.
  assert (Z.land off 0xFC = off / 4 * 2 ^ 2) as ->.
  { rewrite <-Z.shiftl_mul_pow2 by lia. change 4 with (2 ^ 2) at 1. rewrite <-Z.shiftr_div_pow2 by lia. apply Z.bits_inj'. intros i Hi.
    rewrite Z.land_spec, Z.shiftl_spec by lia. destruct (decide (i < 2)) as [Hl|Hl].
    - rewrite (Z.testbit_neg_r _ (i - 2)) by lia. assert (i = 0 ∨ i = 1) as [->| ->] by lia; apply andb_false_r.
    - rewrite Z.shiftr_spec by lia. replace (i - 2 + 2) with i by lia. destruct (decide (i < 8)).
      + replace (Z.testbit 0xFC i) with true; [apply andb_true_r|]. assert (i = 2 ∨ i = 3 ∨ i = 4 ∨ i = 5 ∨ i = 6 ∨ i = 7) by lia.
        by destruct_or!; subst.
      + rewrite <-(Z.mod_small off (2 ^ 8)), Z.mod_pow2_bits_high by lia. done. }
  rewrite (Z.lor_comm (2 ^ 31)). change (2 ^ 31) with (1 * 2 ^ 31). rewrite (lor_add (b * 2 ^ 16)) by lia.
  rewrite (Z.lor_comm (_ + _)). replace (b * 2 ^ 16 + 1 * 2 ^ 31) with ((b + 2 ^ 15) * 2 ^ 16) by lia. rewrite (lor_add (d * 2 ^ 11)) by lia.
  rewrite (Z.lor_comm (_ + _)). replace (d * 2 ^ 11 + _) with ((d + (b + 2 ^ 15) * 2 ^ 5) * 2 ^ 11) by lia. rewrite (lor_add (f * 2 ^ 8)) by lia.
  rewrite Z.lor_comm. replace (f * 2 ^ 8 + _) with ((f + (d + (b + 2 ^ 15) * 2 ^ 5) * 2 ^ 3) * 2 ^ 8) by lia. rewrite lor_add by lia. lia.
Qed.
Lemma reg_byte_div reg i : 0 ≤ i → pci_reg_byte reg i = reg / 256 ^ i mod 256.
Proof.
  intros Hi. unfold pci_reg_byte. rewrite Z.shiftr_div_pow2 by lia. change 0xFF with (Z.ones 8). rewrite Z.land_ones by lia.
  rewrite Z.mul_comm, Z.pow_mul_r by lia. change (2 ^ 8) with 256. apply u8_small. lia.
Qed.

Section wired.
Context (conf : Z → Z → Z → Z → Z) (space : Z → Z) (Hw : wired conf space).
Lemma read32_word b d f off : 0 ≤ b < 256 → 0 ≤ d < 32 → 0 ≤ f < 8 → 0 ≤ off < 256 →
  pci_config_read32 space b d f off = word32 conf b d f (4 * (off / 4)).
Proof. intros. unfold pci_config_read32. rewrite config_addr_sum by done. apply (wi_words _ _ Hw); lia. Qed.
Lemma read_byte b d f off i : 0 ≤ b < 256 → 0 ≤ d < 32 → 0 ≤ f < 8 → 0 ≤ off < 256 → 0 ≤ i < 4 →
  pci_reg_byte (pci_config_read32 space b d f off) i = conf b d f (4 * (off / 4) + i).
Proof.
  intros. rewrite read32_word, reg_byte_div by lia. unfold word32, word16.
  set (o := 4 * (off / 4)). replace (o + 2 + 1) with (o + 3) by lia. assert (i = 0 ∨ i = 1 ∨ i = 2 ∨ i = 3) as Hi by lia.
  rewrite <-(Z.add_0_r o) at 1.
  generalize (wi_bytes _ _ Hw b d f (o + 0)), (wi_bytes _ _ Hw b d f (o + 1)), (wi_bytes _ _ Hw b d f (o + 2)), (wi_bytes _ _ Hw b d f (o + 3)).
  destruct Hi as [->|[->|[->| ->]]]; generalize (conf b d f (o + 0)), (conf b d f (o + 1)), (conf b d f (o + 2)), (conf b d f (o + 3));
    intros x y z w ????; [change (256 ^ 0) with 1|change (256 ^ 1) with 256|change (256 ^ 2) with 65536|change (256 ^ 3) with 16777216]; lia.
Qed.
Lemma read_vendor b d f : 0 ≤ b < 256 → 0 ≤ d < 32 → 0 ≤ f < 8 → pci_vendor space b d f = word16 conf b d f 0.
Proof.
  intros. unfold pci_vendor, PCI_REG_VENDOR_ID. rewrite read32_word by lia. change 0xFFFF with (Z.ones 16). rewrite Z.land_ones by lia.
  change (4 * (0x00 / 4)) with 0. unfold word32, word16. pose proof (wi_bytes _ _ Hw b d f 0). pose proof (wi_bytes _ _ Hw b d f (0 + 1)).
  change (2 ^ 16) with 65536. rewrite (Z.mul_comm 65536), Z.mod_add by lia. apply Z.mod_small. lia.
Qed.
Lemma read_devid b d f : 0 ≤ b < 256 → 0 ≤ d < 32 → 0 ≤ f < 8 → pci_devid space b d f = word16 conf b d f 2.
Proof.
  intros. unfold pci_devid, PCI_REG_VENDOR_ID. rewrite read32_word by lia. change 0xFFFF with (Z.ones 16).
  rewrite Z.land_ones, Z.shiftr_div_pow2 by lia. change (4 * (0x00 / 4)) with 0. unfold word32, word16.
  pose proof (wi_bytes _ _ Hw b d f 0). pose proof (wi_bytes _ _ Hw b d f (0 + 1)). pose proof (wi_bytes _ _ Hw b d f 2). pose proof (wi_bytes _ _ Hw b d f (2 + 1)).
  change (2 ^ 16) with 65536. change (0 + 2) with 2. rewrite (Z.mul_comm 65536), Z.div_add, Z.div_small, Z.add_0_l by lia. apply Z.mod_small. lia.
Qed.
Lemma absent_spec b d f : 0 ≤ b < 256 → 0 ≤ d < 32 → 0 ≤ f < 8 → pci_absent (pci_vendor space b d f) = bool_decide (¬ present conf b d f).
Proof.
  intros. rewrite read_vendor by lia. unfold pci_absent, present, PCI_VENDOR_NONE, PCI_VENDOR_INVALID. case_bool_decide; lia.
Qed.
Lemma multi_spec x : 0 ≤ x < 256 → (Z.land x PCI_HEADER_MULTIFUNCTION =? 0) = bool_decide (¬ 128 ≤ x).
Proof.
  intros Hx. assert (x < 128 ∨ ∃ y, x = y + 1 * 2 ^ 7 ∧ 0 ≤ y < 128) as [Hl|(y & -> & Hy)] by (destruct (decide (x < 128)); [by left|right; exists (x - 128); lia]).
  - rewrite bool_decide_true by lia. apply Z.eqb_eq, Z.bits_inj'. intros i Hi. rewrite Z.land_spec, Z.testbit_0_l. unfold PCI_HEADER_MULTIFUNCTION.
    change 0x80 with (2 ^ 7). destruct (decide (i = 7)) as [->|Hn]; [|by rewrite Z.pow2_bits_false, andb_false_r by lia].
    by rewrite <-(Z.mod_small x (2 ^ 7)), Z.mod_pow2_bits_high by lia.
  - rewrite bool_decide_false by lia. apply Z.eqb_neq. intros E. apply (f_equal (λ z, Z.testbit z 7)) in E. rewrite Z.land_spec, Z.testbit_0_l in E.
    rewrite <-lor_add, Z.lor_spec, Z.mul_pow2_bits in E by lia. by rewrite orb_true_r in E.
Qed.
Lemma read_device_spec b d f : 0 ≤ b < 256 → 0 ≤ d < 32 → 0 ≤ f < 8 → read_device space b d f = described conf b d f.
Proof.
  intros. unfold read_device, described. rewrite read_vendor, read_devid, !read_byte by (unfold PCI_REG_HEADER_TYPE, PCI_REG_CLASS, PCI_REG_IRQ_LINE; lia).
  unfold PCI_HEADER_TYPE_MASK. change 0x7F with (Z.ones 7). rewrite Z.land_ones by lia.
  change (4 * (PCI_REG_HEADER_TYPE / 4) + 2) with 14. f_equal; try done.
  destruct (Z.eqb_spec (conf b d f 14 mod 2 ^ 7) 0); [rewrite decide_True by done|by rewrite decide_False].
  change (seqZ 0 PCI_NUM_BARS) with [0; 1; 2; 3; 4; 5]. cbn [fmap list_fmap]. unfold PCI_REG_BAR0. by rewrite !read32_word by lia.
Qed.
Lemma read_function_spec b d f : 0 ≤ b < 256 → 0 ≤ d < 32 → 0 ≤ f < 8 →
  read_function space b d f = if decide (present conf b d f) then [described conf b d f] else [].
Proof.
  intros. unfold read_function. rewrite absent_spec, read_device_spec by done. by case_decide; [rewrite bool_decide_false by tauto|rewrite bool_decide_true].
Qed.
Lemma read_slot_spec b d : 0 ≤ b < 256 → 0 ≤ d < 32 → read_slot space b d = slot conf b d.
Proof.
  intros Hb Hd. unfold read_slot, slot. rewrite absent_spec, read_device_spec by lia.
  case_decide; [rewrite bool_decide_false by tauto|by rewrite bool_decide_true]. f_equal.
  cbn [header_type described]. rewrite multi_spec by apply (wi_bytes _ _ Hw). case_decide; [rewrite bool_decide_false by tauto|by rewrite bool_decide_true].
  change (seqZ 1 7) with [1; 2; 3; 4; 5; 6; 7].
  assert (∀ l, Forall (λ f, 0 ≤ f < 8) l → mjoin (read_function space b d <$> l) = described conf b d <$> filter (present conf b d) l) as ->; [|done|repeat constructor; lia].
  induction 1 as [|f l Hf _ IH]; [done|]. rewrite filter_cons. csimpl. rewrite IH, read_function_spec by done. by case_decide.
Qed.
Lemma bind_join {A B} (f : A → list B) l : l ≫= f = mjoin (f <$> l).
Proof. induction l as [|x l IH]; csimpl; [done|]. by rewrite IH. Qed.
Lemma read_machine_spec : read_machine space = machine conf.
Proof.
  unfold read_machine, machine. rewrite bind_join. f_equal.
  apply list_fmap_ext. intros _ b Hb%list_elem_of_lookup_2%elem_of_seqZ. rewrite bind_join. f_equal.
  apply list_fmap_ext. intros _ d Hd%list_elem_of_lookup_2%elem_of_seqZ. apply read_slot_spec; lia.
Qed.

(** C38. Enumeration finds the devices of the machine: over hardware that is wired as the PCI specification says, after the first [pci_init] the
    table has, in the order of bus, slot and function, the first 64 functions that are present, each with its place and the numbers, classes, header type,
    interrupt and (for header type 0) base addresses of its configuration space, and nothing was written to that space; [pci_find_device] then gives
    the first of them with a vendor and device number, or NULL when none has them. *)
Theorem pci_init_correct s : pci_devices s = replicate 64 zero_pci →
  ∃ s', pci_init space s = Done tt s' ∧ cfg_writes s' = cfg_writes s ∧
    pci_get_device_count s' = Z.min 64 (Z.of_nat (length (machine conf))) ∧
    (∀ i, 0 ≤ i < pci_get_device_count s' → pci_get_device i s' = Some i ∧ zget (pci_devices s') i = zget (machine conf) i) ∧
    ∀ v d, pci_find_device v d s' = (λ p, Z.of_nat p.1) <$> list_find (λ x, vendor_id x = v ∧ device_id x = d) (take 64 (machine conf)).
Proof.
  intros Hs. destruct (scan_run space s Hs) as (s' & E & [Hc Hd] & Hn). rewrite read_machine_spec in Hc, Hd. exists s'. unfold pci_get_device_count.
  assert (Z.of_nat (length (take 64 (machine conf))) = Z.min 64 (Z.of_nat (length (machine conf)))) as Hl by (rewrite length_take; lia).
  split_and!; [done|done|lia| |].
  - intros i Hi. split.
    + unfold pci_get_device. by replace (_ || _) with false by lia.
    + rewrite <-(Z2Nat.id i), !zget_nat, Hd, lookup_app_l by lia. apply lookup_take_lt. lia.
  - intros v d. unfold pci_find_device. rewrite Hd, Hc, Nat2Z.id, take_app_length, find_loop_spec.
    by destruct (list_find _ _) as [[]|].
Qed.
End wired.

(** A machine with a bridge at 0:0 and a block device at 0:3; what is absent reads as ones. *)
Definition conf_example (b d f off : Z) : Z :=
  if (b =? 0) && (f =? 0) && ((d =? 0) || (d =? 3)) then
    default 0 ((list_to_map (if d =? 0
      then [(0, 0x86); (1, 0x80); (2, 0x37); (3, 0x12); (8, 2); (11, 6)]
      else [(0, 0xF4); (1, 0x1A); (2, 0x01); (3, 0x10); (11, 1); (16, 0x01); (17, 0xC0); (60, 11); (61, 1)]) : gmap Z Z) !! off)
  else 255.
Definition space_of (conf : Z → Z → Z → Z → Z) (a : Z) : Z := word32 conf (a / 65536 mod 256) (a / 2048 mod 32) (a / 256 mod 8) (a mod 256).
Definition space_example : Z → Z := space_of conf_example.
Lemma space_of_wired conf : (∀ b d f off, 0 ≤ conf b d f off < 256) → wired conf (space_of conf).
Proof. intros Hc. split; [done|]. intros b d f i Hb Hd Hf Hi. unfold space_of. f_equal; lia. Qed.
Lemma conf_example_bytes b d f off : 0 ≤ conf_example b d f off < 256.
Proof.
  unfold conf_example. destruct (_ && _); [|lia].
  assert (∀ l : list (Z * Z), Forall (λ p, 0 ≤ p.2 < 256) l → 0 ≤ default 0 ((list_to_map l : gmap Z Z) !! off) < 256) as Hl.
  { induction 1 as [|[k v] l Hv _ IH]; simpl; [by rewrite lookup_empty|]. destruct (decide (k = off)) as [->|]; [by rewrite lookup_insert_eq|by rewrite lookup_insert_ne]. }
  apply Hl. destruct (d =? 0); repeat constructor; simpl; lia.
Qed.
Lemma pci_init_correct_witness : ∃ s', pci_init space_example (mkPci (replicate 64 zero_pci) 0 []) = Done tt s' ∧
  pci_find_device 0x1AF4 0x1001 s' = Some 1 ∧ pci_find_device 0x1AF4 0x1000 s' = None.
Proof.
  destruct (pci_init_correct conf_example space_example (space_of_wired _ conf_example_bytes) (mkPci (replicate 64 zero_pci) 0 []) eq_refl)
    as (s' & E & _ & _ & _ & Hf).
  exists s'. split; [exact E|]. rewrite !Hf. vm_compute. by split.
Defined.

(** A base address of memory (bit 0 clear) gives a port that is not 0, so [virtio_init_device] takes it for I/O space. *)
Lemma memory_bar_taken_for_ports : Z.testbit 0xFEBD1000 0 = false ∧ pci_bar_io_base 0xFEBD1000 = 0x1000.
Proof. done. Qed.
