(* ===== verification/Virtio.v ===== *)
(** * Virtqueues and the block device driver

    [kernel/drivers/virtio.c] (the queues), [kernel/drivers/virtio_blk.c] and
    [kernel/drivers/blkdev.c].  A queue has its descriptor table and its two rings as lists;
    the pages that the driver and the device share are bytes by physical address (the
    kernel reaches them through its direct map).  The device is not part of the source: it
    is a [VirtioDisk], with what the virtio specification says of a block device as laws,
    and serves the request that it is notified of after a number of polls. *)
From S2P Require Import Prelude PageAlloc Pmm Pci.

Definition VRING_DESC_F_NEXT : Z := 1.
Definition VRING_DESC_F_WRITE : Z := 2.
Definition VRING_DESC_NONE : Z := 0xFFFF.
Definition VIRTIO_REG_DEVICE_FEATURES : Z := 0x00.
Definition VIRTIO_REG_GUEST_FEATURES : Z := 0x04.
Definition VIRTIO_REG_QUEUE_ADDR : Z := 0x08.
Definition VIRTIO_REG_QUEUE_SIZE : Z := 0x0C.
Definition VIRTIO_REG_QUEUE_SELECT : Z := 0x0E.
Definition VIRTIO_REG_DEVICE_STATUS : Z := 0x12.
Definition VIRTIO_REG_CONFIG : Z := 0x14.
Definition VIRTIO_STATUS_ACK : Z := 1.
Definition VIRTIO_STATUS_DRIVER : Z := 2.
Definition VIRTIO_STATUS_DRIVER_OK : Z := 4.
Definition VIRTIO_BLK_VENDOR_ID : Z := 0x1AF4.
Definition VIRTIO_BLK_DEVICE_ID : Z := 0x1001.
Definition VIRTIO_MAX_QUEUES : Z := 4.
Definition SECTOR_SIZE : Z := 512.
Definition POLL_TIMEOUT : Z := 10000000.
Definition VIRTIO_BLK_T_IN : Z := 0.
Definition VIRTIO_BLK_T_OUT : Z := 1.
Definition VIRTIO_BLK_S_OK : Z := 0.
Definition VIRTIO_BLK_STATUS_INIT : Z := 0xFF.
Definition SIZEOF_REQ_HEADER : Z := 16.
Definition BLKDEV_MAX : Z := 4.

(** ** Queues *)

Record VringDesc : Type := mkDesc { d_addr : Z; d_len : Z; d_flags : Z; d_next : Z }.
Definition zero_desc : VringDesc := mkDesc 0 0 0 0.
Definition set_dnext (v : Z) (d : VringDesc) : VringDesc := mkDesc (d_addr d) (d_len d) (d_flags d) v.
Record Virtqueue : Type := mkVq {
  vsize : Z;
  desc : list VringDesc;
  avail_idx : Z;
  avail_ring : list Z;
  used_idx : Z;
  used_ring : list (Z * Z);      (* id and length *)
  free_head : Z;
  num_free : Z;
  last_used_idx : Z;
  vphys_addr : Z;
  vnum_pages : Z;
}.
Definition set_vdesc v (q : Virtqueue) := mkVq (vsize q) v (avail_idx q) (avail_ring q) (used_idx q) (used_ring q) (free_head q) (num_free q) (last_used_idx q) (vphys_addr q) (vnum_pages q).
Definition set_vfree h n (q : Virtqueue) := mkVq (vsize q) (desc q) (avail_idx q) (avail_ring q) (used_idx q) (used_ring q) h n (last_used_idx q) (vphys_addr q) (vnum_pages q).
Definition set_avail i r (q : Virtqueue) := mkVq (vsize q) (desc q) i r (used_idx q) (used_ring q) (free_head q) (num_free q) (last_used_idx q) (vphys_addr q) (vnum_pages q).
Definition set_vused i r (q : Virtqueue) := mkVq (vsize q) (desc q) (avail_idx q) (avail_ring q) i r (free_head q) (num_free q) (last_used_idx q) (vphys_addr q) (vnum_pages q).
Definition set_last_used v (q : Virtqueue) := mkVq (vsize q) (desc q) (avail_idx q) (avail_ring q) (used_idx q) (used_ring q) (free_head q) (num_free q) v (vphys_addr q) (vnum_pages q).

Definition vring_desc_size (qsz : Z) : Z := qsz * 16.
Definition vring_avail_size (qsz : Z) : Z := 2 * 2 + 2 * qsz + 2.
Definition vring_used_size (qsz : Z) : Z := 2 * 2 + 8 * qsz + 2.
Definition vring_total_size (qsz : Z) : Z :=
  u64 (PAGE_ALIGN_UP (u64 (vring_desc_size qsz + vring_avail_size qsz)) + vring_used_size qsz).

Definition get_desc (i : Z) : K Virtqueue VringDesc := kopt (λ q, zget (desc q) i).
Definition upd_desc (i : Z) (f : VringDesc → VringDesc) : K Virtqueue unit :=
  kupd (λ q, d ← zget (desc q) i; l ← zset (desc q) i (f d); Some (set_vdesc l q)).

Definition virtq_alloc_desc : K Virtqueue Z :=
  n ← kget num_free;
  if n =? 0 then mret VRING_DESC_NONE else
  idx ← kget free_head;
  d ← get_desc idx;
  kmod (set_vfree (d_next d) (u16 (n - 1)));;
  upd_desc idx (set_dnext VRING_DESC_NONE);;
  mret idx.
(** One descriptor goes back to the free list; the fuel is the size of the table. *)
Fixpoint free_chain_loop (fuel : nat) (idx : Z) : K Virtqueue unit :=
  match fuel with
  | O => kstuck
  | S fuel' =>
      d ← get_desc idx;
      let next := d_next d in
      h ← kget free_head;
      upd_desc idx (λ _, mkDesc 0 0 0 h);;
      n ← kget num_free;
      kmod (set_vfree idx (u16 (n + 1)));;
      if next =? VRING_DESC_NONE then mret tt else free_chain_loop fuel' next
  end.
Definition virtq_free_chain (head : Z) : K Virtqueue unit :=
  fuel ← kget (λ q, length (desc q));
  free_chain_loop fuel head.
(** The stores of [virtio_submit]; the notification is [Blk]'s. *)
Definition virtio_submit (head : Z) : K Virtqueue unit :=
  i ← kget avail_idx;
  kupd (λ q, l ← zset (avail_ring q) (i mod vsize q) head; Some (set_avail (avail_idx q) l q));;
  kmod (λ q, set_avail (u16 (i + 1)) (avail_ring q) q).
Definition virtq_has_used : K Virtqueue bool := kget (λ q, negb (last_used_idx q =? used_idx q)).
(** The head of the chain and the length. *)
Definition virtq_pop_used : K Virtqueue (Z * Z) :=
  e ← kopt (λ q, zget (used_ring q) (last_used_idx q mod vsize q));
  kmod (λ q, set_last_used (u16 (last_used_idx q + 1)) q);;
  mret (u16 e.1, e.2).

(** ** Set-up *)

(** [outs] is what was written to the ports of the device: width in bytes, port and value. *)
Record VirtioDevice : Type := mkVdev {
  vpci : Pci; vdpmm : Pmm; io_base : Z; virq : Z; queues : list Virtqueue; num_queues : Z; outs : list (Z * Z * Z)
}.
Definition with_vpci p (s : VirtioDevice) : VirtioDevice := mkVdev p (vdpmm s) (io_base s) (virq s) (queues s) (num_queues s) (outs s).
Definition with_vdpmm p (s : VirtioDevice) : VirtioDevice := mkVdev (vpci s) p (io_base s) (virq s) (queues s) (num_queues s) (outs s).
Definition with_queues l n (s : VirtioDevice) : VirtioDevice := mkVdev (vpci s) (vdpmm s) (io_base s) (virq s) l n (outs s).
Definition port_out (width port v : Z) : K VirtioDevice unit :=
  kmod (λ s, mkVdev (vpci s) (vdpmm s) (io_base s) (virq s) (queues s) (num_queues s) (outs s ++ [(width, port, v)])).
(** The table of a new queue: the free list has all descriptors. *)
Definition init_desc (qsz : Z) : list VringDesc :=
  (λ i, mkDesc 0 0 0 (if i + 1 <? qsz then i + 1 else VRING_DESC_NONE)) <$> seqZ 0 qsz.

Section setup.
(** The configuration space, and what the device answers at a port after what was written: neither is in the source. *)
Context (space : Z → Z) (port_in : list (Z * Z * Z) → Z → Z → Z).

Definition virtio_init_device (pci : PciDevice) : K VirtioDevice Z :=
  bar0 ← kopt (λ _, zget (bar pci) 0);
  kmod (λ s, mkVdev (vpci s) (vdpmm s) (pci_bar_io_base bar0) (irq_line pci) (queues s) 0 (outs s));;
  io ← kget io_base;
  if io =? 0 then mret (-1) else
  port_out 1 (u16 (io + VIRTIO_REG_DEVICE_STATUS)) 0;;
  port_out 1 (u16 (io + VIRTIO_REG_DEVICE_STATUS)) VIRTIO_STATUS_ACK;;
  port_out 1 (u16 (io + VIRTIO_REG_DEVICE_STATUS)) (Z.lor VIRTIO_STATUS_ACK VIRTIO_STATUS_DRIVER);;
  zoom vpci with_vpci (pci_enable_bus_master space pci);;
  mret 0.
Definition virtio_negotiate_features (supported : Z) : K VirtioDevice unit :=
  io ← kget io_base;
  device_features ← kget (λ s, port_in (outs s) 4 (u16 (io + VIRTIO_REG_DEVICE_FEATURES)));
  port_out 4 (u16 (io + VIRTIO_REG_GUEST_FEATURES)) (Z.land device_features supported).
Definition virtio_init_queue (queue_index : Z) : K VirtioDevice Z :=
  if VIRTIO_MAX_QUEUES <=? queue_index then mret (-1) else
  io ← kget io_base;
  port_out 2 (u16 (io + VIRTIO_REG_QUEUE_SELECT)) (u16 queue_index);;
  qsz ← kget (λ s, u16 (port_in (outs s) 2 (u16 (io + VIRTIO_REG_QUEUE_SIZE))));
  if qsz =? 0 then mret (-1) else
  let total := vring_total_size qsz in
  let pages_needed := u32 (u64 (u64 (total + PAGE_SIZE) - 1) / PAGE_SIZE) in
  phys ← zoom vdpmm with_vdpmm (pmm_alloc_contiguous pages_needed);
  if phys =? 0 then mret (-1) else
  kupd (λ s, l ← zset (queues s) queue_index
      (mkVq qsz (init_desc qsz) 0 (replicate (Z.to_nat qsz) 0) 0 (replicate (Z.to_nat qsz) (0, 0)) 0 qsz 0 phys pages_needed);
    Some (with_queues l (num_queues s) s));;
  port_out 4 (u16 (io + VIRTIO_REG_QUEUE_ADDR)) (u32 (phys / PAGE_SIZE));;
  kmod (λ s, with_queues (queues s) (if num_queues s <=? queue_index then queue_index + 1 else num_queues s) s);;
  mret 0.
Definition virtio_device_ready : K VirtioDevice unit :=
  io ← kget io_base;
  port_out 1 (u16 (io + VIRTIO_REG_DEVICE_STATUS)) (Z.lor (Z.lor VIRTIO_STATUS_ACK VIRTIO_STATUS_DRIVER) VIRTIO_STATUS_DRIVER_OK).
End setup.

(** ** Memory shared with the device *)

Abbreviation Dma := (gmap Z Z).
Fixpoint dma_put (a : Z) (l : list Z) (m : Dma) : Dma :=
  match l with
  | [] => m
  | b :: l' => dma_put (a + 1) l' (<[a := b]> m)
  end.
(** The bytes, when all are known. *)
Definition dma_get (a n : Z) (m : Dma) : option (list Z) := mapM (λ i, m !! (a + i)) (seqZ 0 n).
Definition holds (m : Dma) (a : Z) (l : list Z) : Prop := ∀ i v, l !! i = Some v → m !! (a + Z.of_nat i) = Some v.

Definition req_header (type sector : Z) : list Z := le_bytes 4 type ++ le_bytes 4 0 ++ le_bytes 8 sector.

(** A request as the virtio specification describes it: three descriptors that are chained by flag 1, for the header (the type in four bytes, four zeros and the
    sector in eight), the data and the status byte, apart from each other; flag 2 lets the device write. *)
Record request (t : list VringDesc) (m : Dma) (head type sector data len status flags : Z) : Prop := {
  rq_chain : ∃ hdr d st last, zget t head = Some (mkDesc hdr 16 1 d) ∧
    zget t d = Some (mkDesc data len flags st) ∧ zget t st = Some (mkDesc status 1 2 last) ∧
    holds m hdr (le_bytes 4 type ++ [0; 0; 0; 0] ++ le_bytes 8 sector);
  rq_apart : status < data ∨ data + len ≤ status;
}.
(** What is known of the device: it serves requests to read (type 0) and to write (type 1) sectors below its capacity, with 0 in the status byte. *)
Class VirtioDisk (D : Type) : Type := {
  dv_serve : list VringDesc → Z → Dma → D → Dma * D * Z;    (* the memory, the disk and the bytes written *)
  dv_latency : D → nat;                                      (* polls before the request is served *)
  dv_ok : D → Prop;
  dv_capacity : D → Z;
  dv_sector : D → Z → list Z;
  dv_in_time d : dv_ok d → Z.of_nat (dv_latency d) + 1 < POLL_TIMEOUT;
  dv_sector_length d i : dv_ok d → 0 ≤ i < dv_capacity d → length (dv_sector d i) = 512%nat;
  dv_in_law d t m head sector n data status : dv_ok d → 0 ≤ sector → 0 < n → sector + n ≤ dv_capacity d →
    request t m head 0 sector data (512 * n) status 3 →
    ∃ d' len, dv_serve t head m d = (dma_put status [0] (dma_put data (concat (dv_sector d <$> seqZ sector n)) m), d', len) ∧
      dv_ok d' ∧ dv_capacity d' = dv_capacity d ∧ ∀ j, dv_sector d' j = dv_sector d j;
  dv_out_law d t m head sector n data status l : dv_ok d → 0 ≤ sector → 0 < n → sector + n ≤ dv_capacity d →
    request t m head 1 sector data (512 * n) status 1 → length l = Z.to_nat (512 * n) → holds m data l →
    ∃ d' len, dv_serve t head m d = (dma_put status [0] m, d', len) ∧ dv_ok d' ∧ dv_capacity d' = dv_capacity d ∧
      ∀ j, dv_sector d' j = if decide (sector ≤ j < sector + n) then take 512 (drop (Z.to_nat (512 * (j - sector))) l) else dv_sector d j;
}.

(** ** The block device *)

(** [pending] is the request that the device works on, with the polls that are left. *)
Record Blk (D : Type) : Type := mkBlk {
  bpmm : Pmm; bvq : Virtqueue; dma : Dma; disk : D; pending : option (Z * nat); blk_capacity : Z; blk_initialized : Z
}.
Arguments mkBlk {D}.
Arguments bpmm {D}.
Arguments bvq {D}.
Arguments dma {D}.
Arguments disk {D}.
Arguments pending {D}.
Arguments blk_capacity {D}.
Arguments blk_initialized {D}.

Section blk.
Context {D : Type} `{VirtioDisk D}.
Implicit Types (s : Blk D).

Definition with_bpmm p s : Blk D := mkBlk p (bvq s) (dma s) (disk s) (pending s) (blk_capacity s) (blk_initialized s).
Definition with_bvq q s : Blk D := mkBlk (bpmm s) q (dma s) (disk s) (pending s) (blk_capacity s) (blk_initialized s).
Definition with_dma m s : Blk D := mkBlk (bpmm s) (bvq s) m (disk s) (pending s) (blk_capacity s) (blk_initialized s).
Definition with_device m d p s : Blk D := mkBlk (bpmm s) (bvq s) m d p (blk_capacity s) (blk_initialized s).
Definition pages_ {A} (m : K Pmm A) : K (Blk D) A := zoom bpmm with_bpmm m.
Definition on_vq {A} (m : K Virtqueue A) : K (Blk D) A := zoom bvq with_bvq m.
Definition store (a : Z) (l : list Z) : K (Blk D) unit := kmod (λ s, with_dma (dma_put a l (dma s)) s).

(** The end of [virtio_submit]: the device is notified, takes the entry before the index, and serves it after a number of polls. *)
Definition notify : K (Blk D) unit :=
  head ← on_vq (kopt (λ q, zget (avail_ring q) (u16 (avail_idx q - 1) mod vsize q)));
  kmod (λ s, with_device (dma s) (disk s) (Some (head, dv_latency (disk s))) s).
Definition device_poll : K (Blk D) unit :=
  p ← kget pending;
  match p with
  | None => mret tt
  | Some (head, S k) => kmod (λ s, with_device (dma s) (disk s) (Some (head, k)) s)
  | Some (head, O) =>
      r ← kget (λ s, dv_serve (desc (bvq s)) head (dma s) (disk s));
      kmod (with_device r.1.1 r.1.2 None);;
      on_vq (kupd (λ q, l ← zset (used_ring q) (used_idx q mod vsize q) (head, r.2); Some (set_vused (u16 (used_idx q + 1)) l q)))
  end.

Definition free_contiguous_pages (phys count : Z) : K (Blk D) unit :=
  kfor (seqZ 0 count) (λ i, pages_ (pmm_free_page (u64 (phys + u32 (i * PAGE_SIZE))))).

Definition blk_build_chain (req_phys data_phys data_bytes status_phys data_flags : Z) : K Virtqueue Z :=
  desc_hdr ← virtq_alloc_desc;
  desc_data ← virtq_alloc_desc;
  desc_stat ← virtq_alloc_desc;
  if (desc_hdr =? VRING_DESC_NONE) || (desc_data =? VRING_DESC_NONE) || (desc_stat =? VRING_DESC_NONE) then
    kfor [desc_hdr; desc_data; desc_stat] (λ i, if negb (i =? VRING_DESC_NONE) then virtq_free_chain i else mret tt);;
    mret VRING_DESC_NONE
  else
  upd_desc desc_hdr (λ _, mkDesc req_phys SIZEOF_REQ_HEADER VRING_DESC_F_NEXT desc_data);;
  upd_desc desc_data (λ _, mkDesc data_phys data_bytes data_flags desc_stat);;
  upd_desc desc_stat (λ _, mkDesc status_phys 1 VRING_DESC_F_WRITE VRING_DESC_NONE);;
  mret desc_hdr.

(** The polling loop: what is left of [timeout]; the fuel covers the polls of the request that is pending. *)
Fixpoint poll (fuel : nat) (timeout : Z) : K (Blk D) Z :=
  match fuel with
  | O => kstuck
  | S fuel' =>
      device_poll;;
      used ← on_vq virtq_has_used;
      if used : bool then mret timeout else
      if 0 <? timeout - 1 then poll fuel' (timeout - 1) else mret (timeout - 1)
  end.
Definition poll_fuel s : nat := match pending s with Some (_, k) => S (S k) | None => Z.to_nat POLL_TIMEOUT end.

(** The part of [blk_transfer] behind the allocations: the result and, for a read, the bytes that the caller gets; [memcpy]
    behind the end of the buffer of a write is undefined. *)
Definition blk_exchange (sector data_bytes : Z) (buf : list Z) (is_write : bool) (req_phys data_phys data_pages : Z) : K (Blk D) (Z * list Z) :=
  store req_phys (req_header (if is_write then VIRTIO_BLK_T_OUT else VIRTIO_BLK_T_IN) sector);;
  (if is_write then
     if Z.of_nat (length buf) <? data_bytes then kstuck else store data_phys (take (Z.to_nat data_bytes) buf)
   else mret tt);;
  let status_phys := u64 (req_phys + SIZEOF_REQ_HEADER) in
  store status_phys [VIRTIO_BLK_STATUS_INIT];;
  let data_flags := if is_write then VRING_DESC_F_NEXT else VRING_DESC_F_WRITE + VRING_DESC_F_NEXT in
  desc_head ← on_vq (blk_build_chain req_phys data_phys data_bytes status_phys data_flags);
  if desc_head =? VRING_DESC_NONE then
    pages_ (pmm_free_page req_phys);; free_contiguous_pages data_phys data_pages;; mret (-1, [])
  else
  on_vq (virtio_submit desc_head);;
  notify;;
  fuel ← kget poll_fuel;
  timeout ← poll fuel POLL_TIMEOUT;
  if timeout =? 0 then
    on_vq (virtq_free_chain desc_head);;
    pages_ (pmm_free_page req_phys);; free_contiguous_pages data_phys data_pages;; mret (-1, [])
  else
  on_vq virtq_pop_used;;
  on_vq (virtq_free_chain desc_head);;
  status ← kopt (λ s, dma s !! status_phys);
  ret ← (if status =? VIRTIO_BLK_S_OK then
           if is_write then mret (0, []) else bytes ← kopt (λ s, dma_get data_phys data_bytes (dma s)); mret (0, bytes)
         else mret (-1, []));
  pages_ (pmm_free_page req_phys);;
  free_contiguous_pages data_phys data_pages;;
  mret ret.
Definition blk_transfer (sector count : Z) (buf : list Z) (is_write : bool) : K (Blk D) (Z * list Z) :=
  init ← kget blk_initialized;
  if init =? 0 then mret (-1, []) else
  if count =? 0 then mret (0, []) else
  cap ← kget blk_capacity;
  if cap <? u64 (sector + count) then mret (-1, []) else
  let data_bytes := u32 (count * SECTOR_SIZE) in
  req_phys ← pages_ pmm_alloc_page;
  if req_phys =? 0 then mret (-1, []) else
  let data_pages := u32 (u32 (data_bytes + PAGE_SIZE) - 1) / PAGE_SIZE in
  data_phys ← pages_ (pmm_alloc_contiguous data_pages);
  if data_phys =? 0 then pages_ (pmm_free_page req_phys);; mret (-1, []) else
  blk_exchange sector data_bytes buf is_write req_phys data_phys data_pages.
Definition virtio_blk_read (sector count : Z) : K (Blk D) (Z * list Z) := blk_transfer sector count [] false.
Definition virtio_blk_write (sector count : Z) (buf : list Z) : K (Blk D) Z := r ← blk_transfer sector count buf true; mret r.1.
Definition virtio_blk_capacity s : Z := blk_capacity s.
End blk.

(** ** The table of block devices *)

(** Devices are addresses, 0 is NULL. *)
Record BlkDevs : Type := mkBlkDevs { devices : list Z; device_count : Z }.
Definition blkdev_register (dev : Z) : K BlkDevs Z :=
  n ← kget device_count;
  if (dev =? 0) || (BLKDEV_MAX <=? n) then mret (-1) else
  kupd (λ s, l ← zset (devices s) n dev; Some (mkBlkDevs l (n + 1)));;
  mret n.
Definition blkdev_get (index : Z) : K BlkDevs Z :=
  if (index <? 0) || (BLKDEV_MAX <=? index) then mret 0 else kopt (λ s, zget (devices s) index).

(** ** Set-up of the block device *)

(** The static variables of the driver that [virtio_blk_init] sets, with the table of block devices. *)
Record BlkSetup : Type := mkSetup { blk_vdev : VirtioDevice; setup_capacity : Z; setup_initialized : Z; setup_devs : BlkDevs }.
Definition with_vdev v (s : BlkSetup) : BlkSetup := mkSetup v (setup_capacity s) (setup_initialized s) (setup_devs s).
Definition with_devs d (s : BlkSetup) : BlkSetup := mkSetup (blk_vdev s) (setup_capacity s) (setup_initialized s) d.
Definition on_vdev {A} (m : K VirtioDevice A) : K BlkSetup A := zoom blk_vdev with_vdev m.
(** [dev] is the address of the static [virtio_blk_blockdev], whose functions are [virtio_blk_read], [virtio_blk_write] and [virtio_blk_capacity]. *)
Definition virtio_blk_register_blkdev (dev : Z) : K BlkSetup unit := zoom setup_devs with_devs (blkdev_register dev);; mret tt.
Definition virtio_blk_init (space : Z → Z) (port_in : list (Z * Z * Z) → Z → Z → Z) (dev : Z) : K BlkSetup Z :=
  found ← kget (λ s, pci_find_device VIRTIO_BLK_VENDOR_ID VIRTIO_BLK_DEVICE_ID (vpci (blk_vdev s)));
  match found with
  | None => mret (-1)
  | Some i =>
      pci ← kopt (λ s, zget (pci_devices (vpci (blk_vdev s))) i);
      r ← on_vdev (virtio_init_device space pci);
      if negb (r =? 0) then mret (-1) else
      on_vdev (virtio_negotiate_features port_in 0);;
      r ← on_vdev (virtio_init_queue port_in 0);
      if negb (r =? 0) then mret (-1) else
      cap_lo ← kget (λ s, port_in (outs (blk_vdev s)) 4 (u16 (io_base (blk_vdev s) + VIRTIO_REG_CONFIG)));
      cap_hi ← kget (λ s, port_in (outs (blk_vdev s)) 4 (u16 (io_base (blk_vdev s) + VIRTIO_REG_CONFIG + 4)));
      kmod (λ s, mkSetup (blk_vdev s) (Z.lor (u64 (Z.shiftl (u32 cap_hi) 32)) (u32 cap_lo)) (setup_initialized s) (setup_devs s));;
      on_vdev virtio_device_ready;;
      kmod (λ s, mkSetup (blk_vdev s) (setup_capacity s) 1 (setup_devs s));;
      virtio_blk_register_blkdev dev;;
      mret 0
  end.
