(* ===== verification/VirtioCorrect.v ===== *)
(** * Correctness of the block device driver

    The descriptors that are not in use are a list without repetitions; a transfer takes
    three, hands them to the device, polls, and gives them back with its pages.  With a
    device that works, the driver is a [BlockDev], which is what the file system asks for. *)
From S2P Require Import Prelude PageAlloc Pmm Fat32 Virtio.

(** ** Descriptors *)

(** The descriptors [l] are linked in the table, from [h] to the end mark. *)
Fixpoint linked (t : list VringDesc) (h : Z) (l : list Z) : Prop :=
  match l with
  | [] => h = VRING_DESC_NONE
  | i :: l' => h = i ∧ ∃ d, zget t i = Some d ∧ linked t (d_next d) l'
  end.
Record free_list (q : Virtqueue) (fl : list Z) : Prop := {
  fl_count : num_free q = Z.of_nat (length fl);
  fl_linked : linked (desc q) (free_head q) fl;
  fl_nodup : NoDup fl;
  fl_size : Z.of_nat (length (desc q)) = vsize q;
  fl_small : 0 < vsize q ≤ VRING_DESC_NONE;
}.
(** What the descriptors do not change. *)
Definition rings (q : Virtqueue) : Z * Z * list Z * Z * list (Z * Z) * Z :=
  (vsize q, avail_idx q, avail_ring q, used_idx q, used_ring q, last_used_idx q).
Record rings_ok (q : Virtqueue) : Prop := {
  ro_avail : Z.of_nat (length (avail_ring q)) = vsize q;
  ro_used : Z.of_nat (length (used_ring q)) = vsize q;
  ro_idx : 0 ≤ used_idx q < 2 ^ 16;
  ro_aidx : 0 ≤ avail_idx q < 2 ^ 16;
  ro_seen : last_used_idx q = used_idx q;
}.

(** Different indices below [n] are at most [n]. *)
Lemma range_length (l : list Z) (n : nat) : NoDup l → (∀ x, x ∈ l → 0 ≤ x < Z.of_nat n) → (length l ≤ n)%nat.
Proof.
  intros Hn Hl. pose proof (submseteq_length l (seqZ 0 (Z.of_nat n))) as Hs. rewrite length_seqZ, Nat2Z.id in Hs.
  apply Hs, NoDup_submseteq; [done|]. intros x Hx. by apply elem_of_seqZ, Hl.
Qed.
Lemma linked_range t h l i : linked t h l → i ∈ l → 0 ≤ i < Z.of_nat (length t).
Proof.
  revert h. induction l as [|j l IH]; intros h; [by intros _ ?%elem_of_nil|].
  intros (-> & d & Hd & Hl) [->|Hi]%elem_of_cons; [by eapply zget_Some_range|by eapply IH].
Qed.
Lemma free_list_length q fl : free_list q fl → Z.of_nat (length fl) ≤ vsize q.
Proof.
  intros [_ Hl Hn Hs _]. rewrite <-Hs. apply Nat2Z.inj_le, range_length; [done|]. intros x. by apply linked_range with (1 := Hl).
Qed.
Lemma linked_upd t h l i d t' : linked t h l → i ∉ l → zset t i d = Some t' → linked t' h l.
Proof.
  revert h. induction l as [|j l IH]; intros h; [done|]. intros (-> & d0 & Hd & Hl) Hi Hz.
  apply not_elem_of_cons in Hi as [Hij Hi]. split; [done|]. exists d0. split; [|by apply IH].
  by rewrite (zget_zset_ne _ _ _ _ _ Hz).
Qed.
Lemma get_desc_run q i d : zget (desc q) i = Some d → get_desc i q = Done d q.
Proof. unfold get_desc, kopt. by intros ->. Qed.
Lemma upd_desc_run q i d f : zget (desc q) i = Some d →
  ∃ t, zset (desc q) i (f d) = Some t ∧ upd_desc i f q = Done tt (set_vdesc t q).
Proof.
  intros Hd. pose proof (zget_Some_range _ _ _ Hd). unfold upd_desc, kupd. rewrite Hd. simpl.
  rewrite zset_lt by lia. simpl. eauto.
Qed.

Lemma alloc_desc_run q i fl : free_list q (i :: fl) →
  ∃ q', virtq_alloc_desc q = Done i q' ∧ free_list q' fl ∧ rings q' = rings q ∧ i ∉ fl ∧ 0 ≤ i < VRING_DESC_NONE ∧
    (∃ d, zget (desc q') i = Some d ∧ d_next d = VRING_DESC_NONE) ∧
    (∀ j, j ≠ i → zget (desc q') j = zget (desc q) j).
Proof.
  intros Hf. pose proof (free_list_length _ _ Hf) as Hle. simpl in Hle. destruct Hf as [Hc Hl Hn Hs Hsm]. pose proof Hl as (Hh & d & Hd & Hr). pose proof (zget_Some_range _ _ _ Hd).
  apply NoDup_cons in Hn as [Hi Hn]. simpl in Hc.
  unfold virtq_alloc_desc. rewrite kget_bind. destruct (Z.eqb_spec (num_free q) 0); [lia|].
  rewrite kget_bind, Hh. kbind (get_desc_run _ _ _ Hd). rewrite kmod_bind.
  set (q1 := set_vfree _ _ q). destruct (upd_desc_run q1 i d (set_dnext VRING_DESC_NONE) Hd) as (t & Ht & E).
  kbind E. exists (set_vdesc t q1). split_and!; [done| |done|done|lia|lia| |].
  - split; simpl; [|by eapply linked_upd|done|by rewrite (length_zset _ _ _ _ Ht)|done].
    rewrite u16_small; unfold VRING_DESC_NONE in *; lia.
  - eexists. split; [apply (zget_zset_eq _ _ _ _ Ht)|done].
  - intros j Hj. by apply (zget_zset_ne _ _ _ _ _ Ht).
Qed.

(** A chain goes back to the list from its head on. *)
Lemma free_loop_run c : ∀ fuel q fl h, free_list q fl → linked (desc q) h c → NoDup (c ++ fl) → c ≠ [] →
  (length c ≤ fuel)%nat → ∃ q', free_chain_loop fuel h q = Done tt q' ∧ free_list q' (reverse c ++ fl) ∧ rings q' = rings q.
Proof.
  induction c as [|i c IH]; intros fuel q fl h Hf Hl Hn Hc Hlen; [done|]. clear Hc.
  destruct fuel as [|fuel]; [simpl in Hlen; lia|]. destruct Hl as (-> & d & Hd & Hl). simpl in Hn, Hlen.
  apply NoDup_cons in Hn as [Hi Hn]. pose proof Hf as [Hcnt Hlk Hnf Hs Hsm].
  pose proof (zget_Some_range _ _ _ Hd) as Hr.
  assert (Z.of_nat (length (i :: fl)) ≤ Z.of_nat (length (desc q))) as Hle.
  { apply Nat2Z.inj_le, range_length; [apply NoDup_cons; set_solver|].
    intros x [->|Hx]%elem_of_cons; [lia|by eapply linked_range]. }
  simpl. kbind (get_desc_run _ _ _ Hd). rewrite kget_bind.
  destruct (upd_desc_run q i d (λ _, mkDesc 0 0 0 (free_head q)) Hd) as (t & Ht & E). kbind E. rewrite kget_bind, kmod_bind.
  assert (i ∉ c ∧ i ∉ fl) as [Hic Hif] by set_solver.
  set (q1 := set_vfree _ _ _).
  assert (free_list q1 (i :: fl)) as Hf1.
  { split; simpl in *; [|split; [done|]|apply NoDup_cons; set_solver|by rewrite (length_zset _ _ _ _ Ht)|done].
    - rewrite u16_small; unfold VRING_DESC_NONE in *; lia.
    - eexists. split; [apply (zget_zset_eq _ _ _ _ Ht)|]. by apply (linked_upd _ _ _ _ _ _ Hlk Hif Ht). }
  destruct c as [|j c].
  { simpl in Hl. rewrite Hl. simpl. exists q1. split_and!; [done|exact Hf1|done]. }
  assert (linked (desc q1) (d_next d) (j :: c)) as Hl1 by (apply (linked_upd _ _ _ _ _ _ Hl Hic Ht)).
  pose proof (linked_range _ _ _ j Hl1 ltac:(left)) as Hj. pose proof Hl as [Hdj _]. simpl in Hj.
  rewrite (length_zset _ _ _ _ Ht) in Hj.
  destruct (Z.eqb_spec (d_next d) VRING_DESC_NONE); [unfold VRING_DESC_NONE in *; lia|].
  destruct (IH fuel q1 (i :: fl) (d_next d)) as (q' & E' & Hf' & Hr'); [done|done| |done|lia|].
  { rewrite <-Permutation_middle. apply NoDup_cons. done. }
  exists q'. split_and!; [done| |by rewrite Hr']. by rewrite reverse_cons, <-app_assoc.
Qed.
Lemma free_chain_run q fl h c : free_list q fl → linked (desc q) h c → NoDup (c ++ fl) → c ≠ [] →
  ∃ q', virtq_free_chain h q = Done tt q' ∧ free_list q' (reverse c ++ fl) ∧ rings q' = rings q.
Proof.
  intros Hf Hl Hn Hc. unfold virtq_free_chain. rewrite kget_bind. apply free_loop_run; [done..|].
  apply NoDup_app in Hn as (Hn & _ & _).
  apply range_length; [done|]. intros x Hx. by eapply linked_range.
Qed.

(** The three descriptors of a request. *)
Definition desc_chain (t : list VringDesc) (h d st req data len status flags : Z) : Prop :=
  zget t h = Some (mkDesc req SIZEOF_REQ_HEADER VRING_DESC_F_NEXT d) ∧ zget t d = Some (mkDesc data len flags st) ∧
  zget t st = Some (mkDesc status 1 VRING_DESC_F_WRITE VRING_DESC_NONE).
Lemma desc_chain_linked t h d st req data len status flags : desc_chain t h d st req data len status flags → linked t h [h; d; st].
Proof. intros (H1 & H2 & H3). repeat (split; [done|]; eexists; split; [done|]). done. Qed.
(** Writing a descriptor that is not in the free list. *)
Lemma write_desc q fl i d d' : free_list q fl → i ∉ fl → zget (desc q) i = Some d' →
  ∃ q', upd_desc i (λ _, d) q = Done tt q' ∧ free_list q' fl ∧ rings q' = rings q ∧ zget (desc q') i = Some d ∧
    ∀ j, j ≠ i → zget (desc q') j = zget (desc q) j.
Proof.
  intros [Hc Hl Hn Hs Hsm] Hi Hd. destruct (upd_desc_run q i d' (λ _, d) Hd) as (t & Ht & E).
  exists (set_vdesc t q). split_and!; [done| |done|by apply (zget_zset_eq _ _ _ _ Ht)|].
  - split; simpl; [done|by apply (linked_upd _ _ _ _ _ _ Hl Hi Ht)|done|by rewrite (length_zset _ _ _ _ Ht)|done].
  - intros j Hj. by apply (zget_zset_ne _ _ _ _ _ Ht).
Qed.
Lemma build_chain_run q h d st fl req data len status flags : free_list q (h :: d :: st :: fl) →
  ∃ q', blk_build_chain req data len status flags q = Done h q' ∧ free_list q' fl ∧ rings q' = rings q ∧
    desc_chain (desc q') h d st req data len status flags ∧ NoDup ([h; d; st] ++ fl) ∧ h < VRING_DESC_NONE.
Proof.
  intros Hf. pose proof (fl_nodup _ _ Hf) as Hn.
  assert (h ≠ d ∧ h ≠ st ∧ d ≠ st) as (Hhd & Hhs & Hds) by (repeat setoid_rewrite NoDup_cons in Hn; set_solver).
  destruct (alloc_desc_run _ _ _ Hf) as (q1 & E1 & F1 & R1 & N1 & B1 & (x1 & G1 & _) & K1).
  destruct (alloc_desc_run _ _ _ F1) as (q2 & E2 & F2 & R2 & N2 & B2 & (x2 & G2 & _) & K2).
  destruct (alloc_desc_run _ _ _ F2) as (q3 & E3 & F3 & R3 & N3 & B3 & (x3 & G3 & _) & K3).
  unfold blk_build_chain. kbind E1. kbind E2. kbind E3.
  replace (_ || _ || _) with false by lia.
  rewrite <-K2 in G1 by done. rewrite <-K3 in G1, G2 by done.
  destruct (write_desc q3 fl h (mkDesc req SIZEOF_REQ_HEADER VRING_DESC_F_NEXT d) x1) as (q4 & E4 & F4 & R4 & G4 & K4); [done|set_solver|done|].
  destruct (write_desc q4 fl d (mkDesc data len flags st) x2) as (q5 & E5 & F5 & R5 & G5 & K5); [done|set_solver|by rewrite K4|].
  destruct (write_desc q5 fl st (mkDesc status 1 VRING_DESC_F_WRITE VRING_DESC_NONE) x3) as (q6 & E6 & F6 & R6 & G6 & K6);
    [done|done|by rewrite K5, K4|].
  kbind E4. kbind E5. kbind E6. exists q6. split_and!; [done|done|congruence| |done|lia].
  split_and!; [by rewrite K6, K5|by rewrite K6|done].
Qed.

(** ** Shared memory *)

Lemma dma_put_lookup l : ∀ a m k, dma_put a l m !! k =
  if decide (a ≤ k < a + Z.of_nat (length l)) then l !! Z.to_nat (k - a) else m !! k.
Proof.
  induction l as [|b l IH]; intros a m k; simpl; [case_decide; [lia|done]|]. rewrite IH.
  destruct (decide (k = a)) as [->|Hk].
  - rewrite decide_False by lia. rewrite decide_True by lia. rewrite lookup_insert_eq. by replace (a - a) with 0 by lia.
  - rewrite lookup_insert_ne by done. repeat case_decide; try lia; [|done].
    by replace (Z.to_nat (k - a)) with (S (Z.to_nat (k - (a + 1)))) by lia.
Qed.
Lemma holds_put m a l : holds (dma_put a l m) a l.
Proof.
  intros i v Hi. pose proof (lookup_lt_Some _ _ _ Hi). rewrite dma_put_lookup, decide_True by lia.
  by replace (Z.to_nat _) with i by lia.
Qed.
Lemma holds_other m a l b l' : holds m a l → (a + Z.of_nat (length l) ≤ b ∨ b + Z.of_nat (length l') ≤ a) → holds (dma_put b l' m) a l.
Proof.
  intros Hh Hd i v Hi. pose proof (lookup_lt_Some _ _ _ Hi). rewrite dma_put_lookup, decide_False by lia. by apply Hh.
Qed.
Lemma dma_get_holds m a l : holds m a l → dma_get a (Z.of_nat (length l)) m = Some l.
Proof.
  intros Hh. unfold dma_get. apply mapM_Some. apply Forall2_same_length_lookup. rewrite length_seqZ, Nat2Z.id. split; [done|].
  intros i x v [-> _]%lookup_seqZ Hi. by apply Hh.
Qed.

(** ** The driver *)

Section blk.
Context {D : Type} `{VirtioDisk D}.
Implicit Types (s : Blk D) (q : Virtqueue).

(** The pages of a transfer of [n] sectors. *)
Definition data_pages (n : Z) : Z := (512 * n + 4095) / 4096.
(** The driver between two calls. *)
Record blk_ready s : Prop := {
  br_pmm : pmm_ok (bpmm s);
  br_queue : ∃ fl, free_list (bvq s) fl ∧ (3 ≤ length fl)%nat;
  br_rings : rings_ok (bvq s);
  br_idle : pending s = None;
  br_init : blk_initialized s = 1;
  br_disk : dv_ok (disk s);
  br_capacity : blk_capacity s = dv_capacity (disk s);
}.
(** There are a page for the request, the lowest free one, and a run of [n] pages besides. *)
Definition room (F : gset Z) (n : Z) : Prop := ∃ r st, r ∈ F ∧ (∀ x, x ∈ F → r ≤ x) ∧ 0 ≤ st ∧ pages st n ⊆ F ∖ {[r]}.
(** The driver between two calls, with memory for the largest transfer, on a device that has fewer sectors than a
    32-bit number of bytes can address. *)
Record blk_ok s : Prop := {
  bo_pmm : pmm_ok (bpmm s);
  bo_room : ∃ start, 0 ≤ start ∧ pages start (1 + data_pages (blk_capacity s)) ⊆ free_set (bpmm s);
  bo_queue : ∃ fl, free_list (bvq s) fl ∧ (3 ≤ length fl)%nat;
  bo_rings : rings_ok (bvq s);
  bo_idle : pending s = None;
  bo_init : blk_initialized s = 1;
  bo_disk : dv_ok (disk s);
  bo_capacity : blk_capacity s = dv_capacity (disk s);
  bo_small : blk_capacity s < 2 ^ 23 - 8;
}.

Lemma blk_ok_ready s : blk_ok s → blk_ready s.
Proof. by intros []. Qed.
Lemma free_contiguous_run s start n : pmm_ok (bpmm s) → 0 < start → 0 ≤ n ≤ 2 ^ 20 → start + n ≤ total_pages (bpmm s) →
  ∃ p, free_contiguous_pages (start * 4096) n s = Done tt (with_bpmm p s) ∧ pmm_ok p ∧ total_pages p = total_pages (bpmm s) ∧
    free_set p = free_set (bpmm s) ∪ pages start n.
Proof.
  intros Hok Hst Hn Ht. pose proof (ok_total _ (ok_core _ Hok)).
  destruct (kfor_seqZ_ind (λ i s', ∃ p, s' = with_bpmm p s ∧ pmm_ok p ∧ total_pages p = total_pages (bpmm s) ∧
      free_set p = free_set (bpmm s) ∪ pages start i) (λ i, pages_ (pmm_free_page (u64 (start * 4096 + u32 (i * PAGE_SIZE))))) 0 n s)
    as (s' & E & p & -> & Hp); [lia| | |].
  - exists (bpmm s). split_and!; [by destruct s|done|done|]. rewrite pages_nil by lia. set_solver.
  - intros i _ Hi (p & -> & Hp & Htp & Hf). unfold PAGE_SIZE. rewrite u32_small, u64_small by lia.
    destruct (free_page_lemma p (start * 4096 + i * 4096)) as (p' & E & Hp' & _ & Htp' & Hs); [done|lia|].
    exists (with_bpmm p' s). split; [unfold pages_, zoom; simpl; by rewrite E|]. exists p'. split_and!; [done|done|congruence|].
    unfold free_spec in Hs. replace ((start * 4096 + i * 4096) / 4096) with (start + i) in Hs by lia.
    rewrite decide_True in Hs by lia. rewrite Hs, Hf, pages_snoc by lia. set_solver.
  - exists p. split; [exact E|]. by rewrite Z.add_0_l in Hp.
Qed.

(** The device fills the next entry of the used ring. *)
Definition finish h len q : Virtqueue :=
  set_vused (u16 (used_idx q + 1)) (<[Z.to_nat (used_idx q mod vsize q) := (h, len)]> (used_ring q)) q.
Lemma device_poll_done s m d len h : pending s = Some (h, O) → rings_ok (bvq s) → 0 < vsize (bvq s) →
  dv_serve (desc (bvq s)) h (dma s) (disk s) = (m, d, len) →
  device_poll s = Done tt (mkBlk (bpmm s) (finish h len (bvq s)) m d None (blk_capacity s) (blk_initialized s)).
Proof.
  intros Hp Hr Hv Hd. pose proof (ro_used _ Hr). pose proof (Z.mod_pos_bound (used_idx (bvq s)) (vsize (bvq s)) Hv).
  unfold device_poll. rewrite kget_bind, Hp, kget_bind, Hd, kmod_bind. unfold on_vq, zoom, kupd, finish. simpl.
  by rewrite zset_lt by lia.
Qed.
Lemma device_poll_wait s h k : pending s = Some (h, S k) → device_poll s = Done tt (with_device (dma s) (disk s) (Some (h, k)) s).
Proof. intros Hp. unfold device_poll. by rewrite kget_bind, Hp. Qed.
Lemma has_used_run s : on_vq virtq_has_used s = Done (negb (last_used_idx (bvq s) =? used_idx (bvq s))) s.
Proof. by destruct s. Qed.
Lemma poll_run m d len h k : ∀ fuel s timeout, pending s = Some (h, k) → rings_ok (bvq s) → 0 < vsize (bvq s) → (k < fuel)%nat →
  Z.of_nat k < timeout - 1 → dv_serve (desc (bvq s)) h (dma s) (disk s) = (m, d, len) →
  poll fuel timeout s = Done (timeout - Z.of_nat k)
    (mkBlk (bpmm s) (finish h len (bvq s)) m d None (blk_capacity s) (blk_initialized s)).
Proof.
  induction k as [|k IH]; intros [|fuel] s timeout Hp Hr Hv Hf Ht Hd; try lia; simpl; pose proof (ro_seen _ Hr) as Hs.
  - kbind (device_poll_done _ _ _ _ _ Hp Hr Hv Hd). erewrite bind_Done by apply has_used_run. simpl. rewrite Hs.
    pose proof (ro_idx _ Hr). destruct (Z.eqb_spec (used_idx (bvq s)) (u16 (used_idx (bvq s) + 1))) as [Eq|_]; [unfold u16 in Eq; lia|].
    simpl. unfold mret, K_ret. f_equal. lia.
  - kbind (device_poll_wait _ _ _ Hp). erewrite bind_Done by apply has_used_run. simpl.
    rewrite Hs, Z.eqb_refl. simpl. replace (0 <? timeout - 1) with true by lia.
    rewrite (IH fuel (with_device (dma s) (disk s) (Some (h, k)) s)) by (first [done|lia]). f_equal. lia.
Qed.

(** A device that is later than the patience of the loop: the loop gives up after [timeout] polls, with the request still at the device. *)
Lemma poll_late h : ∀ fuel s timeout k, pending s = Some (h, k) → rings_ok (bvq s) → 0 < timeout ≤ Z.of_nat k → (k < fuel)%nat →
  poll fuel timeout s = Done 0 (with_device (dma s) (disk s) (Some (h, k - Z.to_nat timeout)%nat) s).
Proof.
  induction fuel as [|fuel IH]; intros s timeout [|k] Hp Hr Ht Hf; try lia; simpl.
  kbind (device_poll_wait _ _ _ Hp). erewrite bind_Done by apply has_used_run. simpl. rewrite (ro_seen _ Hr), Z.eqb_refl. simpl.
  destruct (Z.ltb_spec 0 (timeout - 1)).
  - rewrite (IH _ _ k) by (first [done|lia]). unfold with_device. simpl. by replace (k - Z.to_nat (timeout - 1))%nat with (S k - Z.to_nat timeout)%nat by lia.
  - assert (timeout = 1) as -> by lia. simpl. by rewrite Nat.sub_0_r.
Qed.

Lemma submit_run q fl h : free_list q fl → rings_ok q →
  ∃ q', virtio_submit h q = Done tt q' ∧ free_list q' fl ∧ rings_ok q' ∧ desc q' = desc q ∧
    zget (avail_ring q') (u16 (avail_idx q' - 1) mod vsize q') = Some h.
Proof.
  intros [Hc Hl Hn Hs Hsm] [Ha Hu Hi Hai Hse].
  pose proof (Z.mod_pos_bound (avail_idx q) (vsize q) ltac:(lia)) as Hm.
  eexists. split.
  { unfold virtio_submit. rewrite kget_bind. unfold mbind, K_bind, kupd. rewrite zset_lt by lia. done. }
  split_and!; [done| |done|].
  - split; simpl; [by rewrite length_insert|done..| |done]. apply u16_range.
  - simpl. replace (u16 (u16 (avail_idx q + 1) - 1)) with (avail_idx q) by (unfold u16; lia).
    eapply zget_zset_eq, zset_lt. lia.
Qed.
Lemma pop_run q h len : rings_ok q → 0 < vsize q → ∃ q', virtq_pop_used (finish h len q) = Done (u16 h, len) q' ∧
  rings_ok q' ∧ (∀ fl, free_list q fl → free_list q' fl) ∧ desc q' = desc q.
Proof.
  intros [Ha Hu Hi Hai Hse] Hv. pose proof (Z.mod_pos_bound (used_idx q) (vsize q) Hv). unfold virtq_pop_used.
  eexists. split.
  { rewrite (kopt_bind _ _ _ (h, len)); [done|]. simpl. rewrite Hse.
    eapply zget_zset_eq, zset_lt. lia. }
  split_and!; [|by intros fl []|done]. split; simpl; [done|by rewrite length_insert|apply u16_range|done|by rewrite Hse].
Qed.
Lemma rings_same q q' : rings q' = rings q → rings_ok q → rings_ok q'.
Proof. intros [= E1 E2 E3 E4 E5 E6] []. split; congruence. Qed.

(** The sectors after a transfer. *)
Definition moved (w : bool) (sector n : Z) (l : list Z) (d d' : D) : Prop :=
  dv_ok d' ∧ dv_capacity d' = dv_capacity d ∧
  ∀ j, dv_sector d' j = if decide (w = true ∧ sector ≤ j < sector + n) then take 512 (drop (Z.to_nat (512 * (j - sector))) l) else dv_sector d j.
Definition req_type (w : bool) : Z := if w then VIRTIO_BLK_T_OUT else VIRTIO_BLK_T_IN.
Definition req_flags (w : bool) : Z := if w then VRING_DESC_F_NEXT else VRING_DESC_F_WRITE + VRING_DESC_F_NEXT.
(** Both kinds of request, as the device serves them. *)
Lemma serve (w : bool) d t m head sector n data status l : dv_ok d → 0 ≤ sector → 0 < n → sector + n ≤ dv_capacity d →
  request t m head (req_type w) sector data (512 * n) status (req_flags w) →
  (w = true → length l = Z.to_nat (512 * n) ∧ holds m data l) →
  ∃ d' len, dv_serve t head m d = (dma_put status [VIRTIO_BLK_S_OK] (if w then m else dma_put data (concat (dv_sector d <$> seqZ sector n)) m), d', len) ∧
    moved w sector n l d d'.
Proof.
  intros Hd Hs Hn Hc Hr Hl. destruct w.
  - destruct Hl as [Hl Hh]; [done|].
    destruct (dv_out_law d t m head sector n data status l) as (d' & len & E & Hd' & Hc' & Hj); [done..|].
    exists d', len. split; [done|]. unfold moved. split_and!; [done..|]. intros j. rewrite Hj. repeat case_decide; naive_solver.
  - destruct (dv_in_law d t m head sector n data status) as (d' & len & E & Hd' & Hc' & Hj); [done..|].
    exists d', len. split; [done|]. unfold moved. split_and!; [done..|]. intros j. rewrite Hj. case_decide; naive_solver.
Qed.
Lemma sectors_length d sector n : dv_ok d → 0 ≤ sector → 0 ≤ n → sector + n ≤ dv_capacity d →
  length (concat (dv_sector d <$> seqZ sector n)) = Z.to_nat (512 * n).
Proof.
  intros Hd Hs Hn Hc. assert (∀ x, x ∈ seqZ sector n → length (dv_sector d x) = 512%nat) as Hx.
  { intros x Hx%elem_of_seqZ. apply dv_sector_length; [done|lia]. }
  replace (Z.to_nat (512 * n)) with (length (seqZ sector n) * 512)%nat by (rewrite length_seqZ; lia).
  induction (seqZ sector n) as [|x xs IH]; [done|]. csimpl. rewrite length_app, Hx, IH by set_solver. lia.
Qed.

(** The two allocations of a transfer: a page for the request and a run for the data. *)
Lemma take_pages s n : pmm_ok (bpmm s) → 0 < n → let F := free_set (bpmm s) in
  (¬ room F n ∧ ∃ p, pages_ pmm_alloc_page s = Done 0 (with_bpmm p s) ∧ pmm_ok p ∧ free_set p = F) ∨
  (¬ room F n ∧ ∃ r p p', pages_ pmm_alloc_page s = Done (r * 4096) (with_bpmm p s) ∧
    pages_ (pmm_alloc_contiguous n) (with_bpmm p s) = Done 0 (with_bpmm p' s) ∧ pmm_ok p' ∧ 0 < r < total_pages p' ∧ F = {[r]} ∪ free_set p') ∨
  (room F n ∧ ∃ r p st p', pages_ pmm_alloc_page s = Done (r * 4096) (with_bpmm p s) ∧
    pages_ (pmm_alloc_contiguous n) (with_bpmm p s) = Done (st * 4096) (with_bpmm p' s) ∧
    pmm_ok p' ∧ total_pages p' = total_pages (bpmm s) ∧ 0 < r < total_pages (bpmm s) ∧ 0 < st ∧ st + n ≤ total_pages (bpmm s) ∧
    (r < st ∨ st + n ≤ r) ∧ F = {[r]} ∪ (free_set p' ∪ pages st n)).
Proof.
  intros Hok Hn F. destruct (alloc_page_lemma (bpmm s) Hok) as (r0 & p & E & Hp & _ & Ht & Ha).
  assert (pages_ pmm_alloc_page s = Done r0 (with_bpmm p s)) as Ep by (unfold pages_, zoom; by rewrite E).
  destruct Ha as [(He & -> & Hf)|(r & Hr & Hmin & -> & Hf)].
  { left. split; [intros (r & _ & Hr & _); fold F in He; set_solver|]. exists p. split_and!; [done|done|]. unfold F. rewrite Hf. done. }
  pose proof (pmm_ok_frames _ _ Hok Hr) as Hrt. unfold PAGE_SIZE in *. fold F in Hr, Hf, Hmin.
  destruct (alloc_contiguous_lemma p n Hp ltac:(lia)) as (r1 & p' & E' & Hp' & _ & Ht' & Hc). rewrite Hf in Hc.
  assert (pages_ (pmm_alloc_contiguous n) (with_bpmm p s) = Done r1 (with_bpmm p' s)) as Ec by (unfold pages_, zoom; simpl; by rewrite E').
  right. destruct Hc as [(-> & Hf' & [?|Hno])|(st & Hst & -> & Hsub & _ & Hf')]; [lia| |].
  - left. split.
    + intros (r' & st & Hr' & Hmin' & Hst & Hsub). assert (r' = r) as -> by (apply Z.le_antisymm; [by apply Hmin'|by apply Hmin]). by apply (Hno st).
    + exists r, p, p'. split_and!; [done|done|done|lia|lia|]. rewrite Hf'. apply set_eq. intros x. rewrite elem_of_union, elem_of_difference, elem_of_singleton.
      destruct (decide (x = r)) as [->|]; tauto.
  - right. assert (st + n - 1 ∈ free_set p) as Hlast by (rewrite Hf; apply Hsub, elem_of_pages; lia).
    pose proof (pmm_ok_frames _ _ Hp Hlast). split; [exists r, st; split_and!; [done|done|lia|done]|].
    exists r, p, st, p'. split_and!; [done|done|done|congruence|lia|lia|lia|lia| |].
    + destruct (decide (r < st)); [by left|]. right. destruct (decide (st + n ≤ r)); [done|].
      assert (r ∈ F ∖ {[r]}) as Hbad by (apply Hsub, elem_of_pages; lia). set_solver.
    + rewrite Hf'. apply set_eq. intros x. rewrite !elem_of_union, !elem_of_difference, elem_of_singleton.
      pose proof (Hsub x) as Hx. rewrite elem_of_difference, elem_of_singleton in Hx.
      destruct (decide (x = r)) as [->|]; [tauto|]. destruct (decide (x ∈ pages st n)); tauto.
Qed.
Lemma room_of_run p start m n : pmm_ok p → 0 ≤ start → 0 < n ≤ m → pages start (1 + m) ⊆ free_set p → room (free_set p) n.
Proof.
  intros Hp Hs Hn Hsub. assert (start ∈ free_set p) as Hin by (apply Hsub, elem_of_pages; lia).
  destruct (alloc_page_lemma p Hp) as (r0 & p' & _ & _ & _ & _ & [(He & _)|(r & Hr & Hmin & _)]); [set_solver|].
  exists r, (start + 1). split_and!; [done|done|lia|]. intros x Hx%elem_of_pages. pose proof (Hmin _ Hin).
  apply elem_of_difference. split; [apply Hsub, elem_of_pages; lia|set_solver by lia].
Qed.

(** The pages come back: the end of a transfer. *)
Lemma give_pages s r st n : pmm_ok (bpmm s) → 0 < r < total_pages (bpmm s) → 0 < st → 0 ≤ n ≤ 2 ^ 20 → st + n ≤ total_pages (bpmm s) →
  ∃ p p', pages_ (pmm_free_page (r * 4096)) s = Done tt (with_bpmm p s) ∧
    free_contiguous_pages (st * 4096) n (with_bpmm p s) = Done tt (with_bpmm p' s) ∧ pmm_ok p' ∧
    total_pages p' = total_pages (bpmm s) ∧ free_set p' = {[r]} ∪ (free_set (bpmm s) ∪ pages st n).
Proof.
  intros Hok Hr Hst Hn Hle. destruct (free_page_lemma (bpmm s) (r * 4096) Hok ltac:(lia)) as (p & E & Hp & _ & Ht & Hf).
  destruct (free_contiguous_run (with_bpmm p s) st n) as (p' & E' & Hp' & Ht' & Hf'); [done|lia|lia|simpl; lia|].
  exists p, p'. split_and!; [unfold pages_, zoom; by rewrite E|done|done|simpl in Ht'; congruence|].
  rewrite Hf'. simpl. unfold free_spec in Hf. rewrite Hf, Z.div_mul by lia. rewrite decide_True by lia. set_solver.
Qed.
(** The memory that the device finds has the request. *)
Lemma request_in_memory (w : bool) t m h d st r sd n sector l :
  desc_chain t h d st (r * 4096) (sd * 4096) (512 * n) (r * 4096 + 16) (req_flags w) → (r < sd ∨ sd * 4096 + 512 * n ≤ r * 4096) → 0 < n →
  length l = Z.to_nat (512 * n) →
  let m1 := dma_put (r * 4096) (req_header (req_type w) sector) m in
  let m2 := if w then dma_put (sd * 4096) l m1 else m1 in
  let m3 := dma_put (r * 4096 + 16) [VIRTIO_BLK_STATUS_INIT] m2 in
  request t m3 h (req_type w) sector (sd * 4096) (512 * n) (r * 4096 + 16) (req_flags w) ∧ (w = true → holds m3 (sd * 4096) l).
Proof.
  intros (C1 & C2 & C3) Hap Hn Hl m1 m2 m3.
  assert (length (req_header (req_type w) sector) = 16%nat) as Hh.
  { unfold req_header. by rewrite !length_app, !le_bytes_length. }
  split; [split; [exists (r * 4096), d, st, VRING_DESC_NONE; split_and!; [done..|]|lia]|].
  - change (le_bytes 4 (req_type w) ++ _) with (req_header (req_type w) sector). apply holds_other; [|left; rewrite Hh; lia]. destruct w; [apply holds_other; [|rewrite Hh, Hl; lia]|]; apply holds_put.
  - intros ->. apply holds_other; [apply holds_put|]. rewrite Hl. simpl. lia.
Qed.

(** The device is given the chain, and has served it when the driver has seen so. *)
Lemma hand_over s fl h m d len : free_list (bvq s) fl → rings_ok (bvq s) → dv_ok (disk s) →
  dv_serve (desc (bvq s)) h (dma s) (disk s) = (m, d, len) →
  ∃ q q', on_vq (virtio_submit h) s = Done tt (with_bvq q s) ∧
    notify (with_bvq q s) = Done tt (with_device (dma s) (disk s) (Some (h, dv_latency (disk s))) (with_bvq q s)) ∧
    (let s1 := with_device (dma s) (disk s) (Some (h, dv_latency (disk s))) (with_bvq q s) in
     poll (poll_fuel s1) POLL_TIMEOUT s1 = Done (POLL_TIMEOUT - Z.of_nat (dv_latency (disk s))) (with_device m d None (with_bvq (finish h len q) s))) ∧
    virtq_pop_used (finish h len q) = Done (u16 h, len) q' ∧ rings_ok q' ∧ free_list q' fl ∧ desc q' = desc (bvq s).
Proof.
  intros Hf Hr Hd E. destruct (submit_run _ _ h Hf Hr) as (q & Eq & Fq & Rq & Dq & Gq).
  pose proof (fl_small _ _ Fq). pose proof (dv_in_time _ Hd). destruct (pop_run q h len Rq) as (q' & Ep & Rp & Fp & Dp); [lia|].
  exists q, q'. split_and!; [unfold on_vq, zoom; by rewrite Eq| | |done|done|by apply Fp|congruence].
  - unfold notify. rewrite (bind_Done _ _ _ h (with_bvq q s)); [done|]. unfold on_vq, zoom, kopt. simpl. by rewrite Gq.
  - cbv zeta. rewrite (poll_run m d len h (dv_latency (disk s))); [done|done|done|simpl; lia|unfold poll_fuel; simpl; lia|lia|]. simpl. by rewrite Dq.
Qed.
Lemma store_run s a l : store a l s = Done tt (with_dma (dma_put a l (dma s)) s).
Proof. done. Qed.

Lemma on_vq_run {A} (f : K Virtqueue A) s a q : f (bvq s) = Done a q → on_vq f s = Done a (with_bvq q s).
Proof. unfold on_vq, zoom. by intros ->. Qed.
Lemma copy_in_run (w : bool) s a n buf : (w = true → length buf = Z.to_nat n) →
  (if w then if Z.of_nat (length buf) <? n then kstuck else store a (take (Z.to_nat n) buf) else mret tt) s =
  Done tt (with_dma (if w then dma_put a buf (dma s) else dma s) s).
Proof.
  intros Hb. destruct w; [|by destruct s]. rewrite Hb by done. destruct (Z.ltb_spec (Z.of_nat (Z.to_nat n)) n); [lia|].
  rewrite take_ge by (rewrite Hb by done; lia). done.
Qed.
Lemma copy_out_run (w : bool) s a l n : (w = false → n = Z.of_nat (length l) ∧ holds (dma s) a l) →
  (if w then mret (0, []) else bytes ← kopt (λ s, dma_get a n (dma s)); mret (0, bytes)) s = Done (0, if w then [] else l) s.
Proof.
  intros Hl. destruct w; [done|]. destruct Hl as [-> Hl]; [done|]. by rewrite (kopt_bind _ _ _ l) by by apply dma_get_holds.
Qed.
Lemma moved_read sector n l l' d d' : moved false sector n l d d' → moved false sector n l' d d'.
Proof. intros (? & ? & Hj). unfold moved. split_and!; [done..|]. intros j. rewrite Hj. repeat case_decide; naive_solver. Qed.

Lemma exchange_run s sector n buf (w : bool) r sd : pmm_ok (bpmm s) → (∃ fl, free_list (bvq s) fl ∧ (3 ≤ length fl)%nat) →
  rings_ok (bvq s) → dv_ok (disk s) → 0 ≤ sector → 0 < n < 2 ^ 23 - 8 → sector + n ≤ dv_capacity (disk s) →
  (w = true → length buf = Z.to_nat (512 * n)) →
  0 < r < total_pages (bpmm s) → 0 < sd → sd + data_pages n ≤ total_pages (bpmm s) → (r < sd ∨ sd + data_pages n ≤ r) →
  ∃ p q m d, blk_exchange sector (512 * n) buf w (r * 4096) (sd * 4096) (data_pages n) s =
      Done (0, if w then [] else concat (dv_sector (disk s) <$> seqZ sector n)) (mkBlk p q m d None (blk_capacity s) (blk_initialized s)) ∧
    pmm_ok p ∧ free_set p = {[r]} ∪ (free_set (bpmm s) ∪ pages sd (data_pages n)) ∧
    (∃ fl, free_list q fl ∧ (3 ≤ length fl)%nat) ∧ num_free q = num_free (bvq s) ∧ rings_ok q ∧ moved w sector n buf (disk s) d.
Proof.
  intros Hp (fl & Hf & Hfl) Hro Hd Hs Hn Hc Hbuf Hr Hsd Hle Hap.
  destruct fl as [|h [|dd [|st fl]]]; [simpl in Hfl; lia..|].
  pose proof (ok_total _ (ok_core _ Hp)). unfold blk_exchange. unfold SIZEOF_REQ_HEADER. rewrite (u64_small (r * 4096 + 16)) by lia.
  fold (req_type w) (req_flags w).
  set (l := if w then buf else replicate (Z.to_nat (512 * n)) 0).
  assert (length l = Z.to_nat (512 * n)) as Hl by (destruct w; [by apply Hbuf|apply length_replicate]).
  kbind (store_run s (r * 4096) (req_header (req_type w) sector)). erewrite bind_Done by by apply copy_in_run.
  erewrite bind_Done by apply store_run. set (s1 := with_dma _ (with_dma _ _)).
  destruct (build_chain_run (bvq s) h dd st fl (r * 4096) (sd * 4096) (512 * n) (r * 4096 + 16) (req_flags w) Hf)
    as (q1 & E3 & F1 & R1 & C1 & N1 & Hh).
  erewrite bind_Done by (apply on_vq_run; exact E3). destruct (Z.eqb_spec h VRING_DESC_NONE); [lia|].
  destruct (request_in_memory w (desc q1) (dma s) h dd st r sd n sector l C1) as [Hreq Hhold]; [unfold data_pages in *; lia|lia|done|].
  destruct (serve w (disk s) (desc q1) (dma s1) h sector n (sd * 4096) (r * 4096 + 16) l) as (d & len & Ed & Hmv);
    [done|lia|lia|done|by destruct w|by destruct w; auto|].
  destruct (hand_over (with_bvq q1 s1) fl h _ d len F1 (rings_same _ _ R1 Hro) Hd Ed) as (q2 & q3 & E4 & E5 & E6 & E7 & R3 & F3 & D3).
  kbind E4. kbind E5. rewrite kget_bind. kbind E6.
  replace (_ =? 0) with false by (pose proof (dv_in_time _ Hd); simpl; lia). set (s2 := with_device _ d None _).
  erewrite bind_Done by (apply on_vq_run; exact E7).
  destruct (free_chain_run q3 fl h [h; dd; st]) as (q4 & E9 & F4 & R4); [done|rewrite D3; by eapply desc_chain_linked|done|done|].
  erewrite bind_Done by (apply on_vq_run; exact E9). set (s3 := with_bvq q4 _).
  rewrite (kopt_bind _ _ _ VIRTIO_BLK_S_OK); [|simpl; by rewrite lookup_insert_eq].
  change (VIRTIO_BLK_S_OK =? VIRTIO_BLK_S_OK) with true. cbv iota.
  erewrite bind_Done; [|apply (copy_out_run w s3 (sd * 4096) (concat (dv_sector (disk s) <$> seqZ sector n)))].
  2: { intros ->. pose proof (sectors_length (disk s) sector n Hd Hs ltac:(lia) Hc) as Hlen. split; [lia|].
       apply holds_other; [apply holds_put|]. rewrite Hlen. unfold data_pages in *. simpl. lia. }
  destruct (give_pages s3 r sd (data_pages n)) as (p & p' & E11 & E12 & Hp' & _ & Hfs); [done|done|lia|unfold data_pages; lia|done|].
  kbind E11. kbind E12. exists p', q4. eexists _, d. split; [done|]. split_and!; [done|done| | |by eapply rings_same|].
  - eexists. split; [done|]. rewrite length_app. simpl. lia.
  - rewrite (fl_count _ _ F4), (fl_count _ _ Hf), length_app. simpl. lia.
  - destruct w; [done|by eapply moved_read].
Qed.

Lemma transfer_cases s sector n buf (w : bool) : blk_ready s → 0 ≤ sector → 0 < n < 2 ^ 23 - 8 → sector + n ≤ blk_capacity s → blk_capacity s < 2 ^ 64 →
  (w = true → length buf = Z.to_nat (512 * n)) →
  (¬ room (free_set (bpmm s)) (data_pages n) ∧ ∃ p, blk_transfer sector n buf w s = Done (-1, []) (with_bpmm p s) ∧ pmm_ok p ∧ free_set p = free_set (bpmm s)) ∨
  (room (free_set (bpmm s)) (data_pages n) ∧
   ∃ s', blk_transfer sector n buf w s = Done (0, if w then [] else concat (dv_sector (disk s) <$> seqZ sector n)) s' ∧ blk_ready s' ∧
    blk_capacity s' = blk_capacity s ∧ free_set (bpmm s') = free_set (bpmm s) ∧ num_free (bvq s') = num_free (bvq s) ∧
    moved w sector n buf (disk s) (disk s')).
Proof.
  intros Hb Hs Hn Hc H64 Hbuf. pose proof (br_capacity _ Hb) as Hcap.
  unfold blk_transfer. rewrite kget_bind, (br_init _ Hb). change (1 =? 0) with false. cbv iota.
  destruct (Z.eqb_spec n 0); [lia|]. rewrite kget_bind. rewrite (u64_small (sector + n)) by lia.
  destruct (Z.ltb_spec (blk_capacity s) (sector + n)); [lia|].
  unfold SECTOR_SIZE, PAGE_SIZE. rewrite (u32_small (n * 512)), (u32_small (n * 512 + 4096)), (u32_small (n * 512 + 4096 - 1)) by lia.
  replace ((n * 512 + 4096 - 1) / 4096) with (data_pages n) by (unfold data_pages; f_equal; lia).
  replace (n * 512) with (512 * n) by lia.
  destruct (take_pages s (data_pages n) (br_pmm _ Hb)) as [(Hno & p & E1 & Hp & Hf)|[(Hno & r & p & p' & E1 & E2 & Hp & Hr & Hf)|
    (Hroom & r & p & st & p' & E1 & E2 & Hp & Ht & Hr & Hst & Hle & Hap & Hfs)]]; [unfold data_pages; lia| | |].
  - left. split; [done|]. exists p. kbind E1. done.
  - left. split; [done|]. kbind E1. destruct (Z.eqb_spec (r * 4096) 0); [lia|]. kbind E2. change (0 =? 0) with true. cbv iota.
    destruct (free_page_lemma p' (r * 4096) Hp ltac:(lia)) as (p2 & E3 & Hp2 & _ & _ & Hf2). exists p2.
    assert (pages_ (pmm_free_page (r * 4096)) (with_bpmm p' s) = Done tt (with_bpmm p2 s)) as E4 by (unfold pages_, zoom; simpl; by rewrite E3).
    kbind E4. split_and!; [done|done|]. unfold free_spec in Hf2. rewrite Hf2, Z.div_mul, decide_True, Hf by lia. set_solver.
  - right. split; [done|]. kbind E1. destruct (Z.eqb_spec (r * 4096) 0); [lia|]. kbind E2. destruct (Z.eqb_spec (st * 4096) 0); [lia|].
    destruct (exchange_run (with_bpmm p' s) sector n buf w r st) as (p2 & q & m & d & E3 & Hp2 & Hf2 & Hq & Hnf & Hro & Hmv);
      [done|exact (br_queue _ Hb)|exact (br_rings _ Hb)|exact (br_disk _ Hb)|lia|lia|simpl; lia|done|simpl; lia|lia|simpl; lia|lia|].
    rewrite E3. eexists. split; [done|]. simpl in *. rewrite <-Hfs in Hf2. split_and!; [|done..].
    pose proof Hmv as (Hok & Hcd & _). split; simpl; [done|done|done|done|exact (br_init _ Hb)|done|congruence].
Qed.
Lemma transfer_lemma s sector n buf (w : bool) : blk_ok s → 0 ≤ sector → 0 < n → sector + n ≤ blk_capacity s →
  (w = true → length buf = Z.to_nat (512 * n)) →
  ∃ s', blk_transfer sector n buf w s = Done (0, if w then [] else concat (dv_sector (disk s) <$> seqZ sector n)) s' ∧ blk_ok s' ∧
    blk_capacity s' = blk_capacity s ∧ free_set (bpmm s') = free_set (bpmm s) ∧ num_free (bvq s') = num_free (bvq s) ∧
    moved w sector n buf (disk s) (disk s').
Proof.
  intros Hb Hs Hn Hc Hbuf. pose proof (bo_small _ Hb) as Hsm. destruct (bo_room _ Hb) as (st & Hst & Hroom).
  destruct (transfer_cases s sector n buf w (blk_ok_ready _ Hb) Hs ltac:(lia) Hc ltac:(lia) Hbuf) as [(Hno & _)|(_ & s' & E & [] & Hcap & Hf & Hnum & Hmv)].
  - destruct Hno. apply (room_of_run _ st (data_pages (blk_capacity s))); [apply Hb|done|unfold data_pages; lia|done].
  - exists s'. split_and!; [done| |done..]. split; [done| |done..|by rewrite Hcap]. exists st. rewrite Hcap, Hf. done.
Qed.
End blk.
