(* ===== verification/VirtioTheorems.v ===== *)
(** * The block device driver on a device

    A disk in memory that serves virtio requests, the theorem about the driver, and the driver as the block device of the
    file system. *)
From S2P Require Import Prelude PageAlloc Pmm Pci Fat32 Fat32Example Virtio VirtioCorrect.

(** ** A device *)

(** [late] is the number of polls before a request is served. *)
Record VDisk : Type := mkVDisk { vdisk : RamDisk; late : nat }.
Definition vd_serve (t : list VringDesc) (head : Z) (m : Dma) (d : VDisk) : Dma * VDisk * Z :=
  default (m, d, 0) (
    hd ← zget t head;
    dd ← zget t (d_next hd);
    sd ← zget t (d_next dd);
    hdr ← dma_get (d_addr hd) 16 m;
    let sector := le_val (drop 8 hdr) in
    let n := d_len dd / 512 in
    if le_val (take 4 hdr) =? 0 then
      Some (dma_put (d_addr sd) [0] (dma_put (d_addr dd) (concat (disk_sector (vdisk d) <$> seqZ sector n)) m), d, d_len dd + 1)
    else
    l ← dma_get (d_addr dd) (d_len dd) m;
    Some (dma_put (d_addr sd) [0] m, mkVDisk (mkDisk (disk_cap (vdisk d)) (disk_put sector n l (disk_sectors (vdisk d)))) (late d), 1)).

Lemma request_serve t m head type sector data len status flags d :
  request t m head type sector data len status flags → 0 ≤ sector < 2 ^ 64 → type = 0 ∨ type = 1 →
  vd_serve t head m d = default (m, d, 0) (
    if type =? 0 then
      Some (dma_put status [0] (dma_put data (concat (disk_sector (vdisk d) <$> seqZ sector (len / 512))) m), d, len + 1)
    else
    l ← dma_get data len m;
    Some (dma_put status [0] m, mkVDisk (mkDisk (disk_cap (vdisk d)) (disk_put sector (len / 512) l (disk_sectors (vdisk d)))) (late d), 1)).
Proof.
  intros [(hdr & dd & st & last & E1 & E2 & E3 & Hh) _] Hs Ht. unfold vd_serve. rewrite E1. simpl. rewrite E2. simpl. rewrite E3. simpl.
  change (_ ++ _) with (req_header type sector) in Hh.
  assert (length (req_header type sector) = 16%nat) as Hl by (unfold req_header; by rewrite !length_app, !le_bytes_length).
  assert (le_val (drop 8 (req_header type sector)) = sector) as Hs8 by exact (le_val_le64 sector Hs).
  assert (le_val (take 4 (req_header type sector)) = type) as Ht4 by (destruct Ht as [-> | ->]; reflexivity).
  pose proof (dma_get_holds _ _ _ Hh) as E4. rewrite Hl in E4. remember (req_header type sector) as hb eqn:Ehb.
  change (Z.of_nat 16) with 16 in E4. rewrite E4. cbn -[take drop]. by rewrite Hs8, Ht4.
Qed.
#[export] Instance vdisk_device : VirtioDisk VDisk.
Proof.
  refine {| dv_serve := vd_serve; dv_latency := late; dv_capacity d := disk_cap (vdisk d); dv_sector d := disk_sector (vdisk d);
    dv_ok d := disk_ok (vdisk d) ∧ disk_cap (vdisk d) < 2 ^ 64 ∧ Z.of_nat (late d) + 1 < POLL_TIMEOUT |}.
  - by intros d (_ & _ & Ht).
  - intros d i (Hd & _) Hi. exact (bd_sector_length (vdisk d) i Hd Hi).
  - intros d t m head sector n data status Hd Hs Hn Hc Hr. pose proof Hd as (_ & Hc64 & _).
    rewrite (request_serve _ _ _ _ _ _ _ _ _ d Hr) by (first [lia|by left]). simpl.
    replace (512 * n / 512) with n by lia. eexists _, _. split; [done|]. split; [exact Hd|done].
  - intros d t m head sector n data status l Hd Hs Hn Hc Hr Hl Hh. pose proof Hd as (Hdo & Hc64 & Hlt).
    rewrite (request_serve _ _ _ _ _ _ _ _ _ d Hr) by (first [lia|by right]).
    change (1 =? 0) with false. cbv iota.
    pose proof (dma_get_holds _ _ _ Hh) as E. replace (Z.of_nat (length l)) with (512 * n) in E by lia. rewrite E. clear E. simpl.
    replace (512 * n / 512) with n by lia.
    destruct (@bd_write_law RamDisk ram_disk (vdisk d) sector n l Hdo Hs Hn Hc Hl) as (d' & E & Hok & Hcap & Hj). simpl in E. unfold disk_write in E.
    replace ((0 <=? sector) && (sector + n <=? disk_cap (vdisk d))) with true in E by lia. injection E as <-.
    eexists _, _. split; [done|]. split; [exact (conj Hok (conj Hc64 Hlt))|]. split; [done|exact Hj].
Defined.

(** ** The driver *)

(** A read or a write of sectors of the device, with [virtio_blk_read] and [virtio_blk_write]. *)
Section theorems.
Context {D : Type} `{VirtioDisk D}.

#[export] Instance virtio_blockdev : BlockDev (Blk D).
Proof.
  refine {| bd_read := virtio_blk_read; bd_write := virtio_blk_write; bd_ok := blk_ok; bd_capacity := virtio_blk_capacity;
    bd_sector s := dv_sector (disk s) |}.
  - intros s i Hs Hi. apply dv_sector_length; [apply Hs|]. by rewrite <-(bo_capacity _ Hs).
  - intros s i n Hs Hi Hn Hc. destruct (transfer_lemma s i n [] false Hs Hi Hn Hc) as (s' & E & Hs' & Hc' & _ & _ & _ & _ & Hj); [done|].
    exists s'. split_and!; [done..|]. intros j. rewrite Hj. case_decide; naive_solver.
  - intros s i n l Hs Hi Hn Hc Hl. destruct (transfer_lemma s i n l true Hs Hi Hn Hc) as (s' & E & Hs' & Hc' & _ & _ & _ & _ & Hj); [done|].
    exists s'. split_and!; [unfold virtio_blk_write; by kbind E|done|done|]. intros j. rewrite Hj. repeat case_decide; naive_solver.
Defined.

(** C7. [blk_transfer], the part of the driver that both directions share: between two calls on a device that serves requests as the virtio
    specification says, a transfer of 0 < n < 2^23 - 8 sectors (whose bytes a 32-bit number can count) returns 0 when the sectors are on the device and there are
    free pages for the request and, in a row, for the data, and -1 otherwise. When it returns 0 a read has given the bytes of the sectors, and a write has
    replaced exactly those sectors by the bytes given; when it returns -1 the device is as it was. In both cases every page and every descriptor that was
    taken is free again, and the driver is ready for the next call. *)
Theorem blk_transfer_correct s sector n buf (w : bool) : blk_ready s → blk_capacity s < 2 ^ 64 → 0 ≤ sector → 0 < n < 2 ^ 23 - 8 → sector + n < 2 ^ 64 →
  (w = true → length buf = Z.to_nat (512 * n)) →
  ∃ r s', blk_transfer sector n buf w s = Done r s' ∧ blk_ready s' ∧ blk_capacity s' = blk_capacity s ∧
    free_set (bpmm s') = free_set (bpmm s) ∧ num_free (bvq s') = num_free (bvq s) ∧
    ((r = (-1, []) ∧ (blk_capacity s < sector + n ∨ ¬ room (free_set (bpmm s)) ((512 * n + 4095) / 4096)) ∧ disk s' = disk s) ∨
     (r = (0, if w then [] else concat (dv_sector (disk s) <$> seqZ sector n)) ∧ sector + n ≤ blk_capacity s ∧
      room (free_set (bpmm s)) ((512 * n + 4095) / 4096) ∧
      ∀ j, dv_sector (disk s') j =
        if decide (w = true ∧ sector ≤ j < sector + n) then take 512 (drop (Z.to_nat (512 * (j - sector))) buf) else dv_sector (disk s) j)).
Proof.
  intros Hs Hc64 H0 Hn H64 Hbuf. destruct (decide (sector + n ≤ blk_capacity s)) as [Hc|Hc].
  - destruct (transfer_cases s sector n buf w Hs H0 Hn Hc Hc64 Hbuf) as [(Hno & p & E & Hp & Hf)|(Hroom & s' & E & Hr & Hcap & Hf & Hnum & _ & _ & Hj)].
    + exists (-1, []), (with_bpmm p s). split_and!; [done|by destruct Hs|done|done|done|]. left. split_and!; [done|by right|done].
    + eexists _, s'. split_and!; [done|done|done|done|done|]. by right.
  - exists (-1, []), s. split_and!; [|done|done|done|done|left; split_and!; [done|left; lia|done]].
    unfold blk_transfer. rewrite kget_bind, (br_init _ Hs). change (1 =? 0) with false. cbv iota.
    destruct (Z.eqb_spec n 0); [lia|]. rewrite kget_bind, u64_small by lia. by destruct (Z.ltb_spec (blk_capacity s) (sector + n)); [|lia].
Qed.
End theorems.

(** ** A queue when it is set up *)

Lemma init_desc_linked qsz k : 0 < qsz → 0 ≤ k ≤ qsz → linked (init_desc qsz) (if k <? qsz then k else VRING_DESC_NONE) (seqZ k (qsz - k)).
Proof.
  intros Hq Hk. remember (Z.to_nat (qsz - k)) as j eqn:Ej. revert k Hk Ej. induction j as [|j IH]; intros k Hk Ej.
  - replace k with qsz by lia. rewrite Z.sub_diag, Z.ltb_irrefl. done.
  - rewrite (seqZ_cons k) by lia. destruct (Z.ltb_spec k qsz); [|lia]. split; [done|].
    exists (mkDesc 0 0 0 (if k + 1 <? qsz then k + 1 else VRING_DESC_NONE)). split.
    + unfold init_desc, zget. destruct (Z.ltb_spec k 0); [lia|]. rewrite list_lookup_fmap, lookup_seqZ_lt by lia. simpl.
      by rewrite Z2Nat.id by lia.
    + simpl. replace (Z.pred (qsz - k)) with (qsz - Z.succ k) by lia. apply (IH (k + 1)); lia.
Qed.

(** The pages of a queue: the used ring begins on a page of its own. *)
Definition vring_frames (qsz : Z) : Z := (18 * qsz + 6 + 4095) / 4096 + (8 * qsz + 6 + 4095) / 4096.
Lemma vring_pages qsz : 0 < qsz < 2 ^ 16 → u32 (u64 (u64 (vring_total_size qsz + PAGE_SIZE) - 1) / PAGE_SIZE) = vring_frames qsz.
Proof.
  intros Hq. unfold vring_total_size, vring_desc_size, vring_avail_size, vring_used_size.
  rewrite (u64_small (qsz * 16 + _)) by lia. rewrite PAGE_ALIGN_UP_spec by (unfold PAGE_SIZE; lia). unfold PAGE_SIZE.
  set (a := (_ + 4095) / 4096). assert (a = (18 * qsz + 6 + 4095) / 4096) as Ha by (unfold a; f_equal; lia).
  assert (0 ≤ a ≤ 2 ^ 10) by lia. clearbody a. unfold vring_frames. rewrite <-Ha. clear Ha.
  rewrite (u64_small (a * 4096 + _)), (u64_small (a * 4096 + _ + 4096)), (u64_small (a * 4096 + _ + 4096 - 1)) by lia.
  rewrite u32_small by lia. lia.
Qed.
Lemma init_queue_free qsz a r u k phys n : 0 < qsz ≤ VRING_DESC_NONE → free_list (mkVq qsz (init_desc qsz) a r u k 0 qsz 0 phys n) (seqZ 0 qsz).
Proof.
  intros Hq. pose proof (init_desc_linked qsz 0 ltac:(lia) ltac:(lia)) as Hl. rewrite Z.sub_0_r in Hl.
  destruct (Z.ltb_spec 0 qsz); [|lia].
  split; simpl; [rewrite length_seqZ; lia|done|apply NoDup_seqZ|unfold init_desc; rewrite length_fmap, length_seqZ; lia|done].
Qed.
(** The queue that [virtio_init_queue] sets up has every descriptor in its free list, both rings empty, and the pages of the
    three parts; when the device has no queue or there are not enough pages the driver fails and changes no queue. *)
Lemma init_queue_run port_in s i : pmm_ok (vdpmm s) → 0 ≤ i < VIRTIO_MAX_QUEUES → length (queues s) = 4%nat →
  ∃ r s', virtio_init_queue port_in i s = Done r s' ∧ pmm_ok (vdpmm s') ∧ vpci s' = vpci s ∧ io_base s' = io_base s ∧
    ((r = -1 ∧ queues s' = queues s ∧ free_set (vdpmm s') = free_set (vdpmm s)) ∨
     ∃ q st, r = 0 ∧ zget (queues s') i = Some q ∧ free_list q (seqZ 0 (vsize q)) ∧ rings_ok q ∧ 0 < st ∧ vphys_addr q = st * PAGE_SIZE ∧
       16 * vsize q + (6 + 2 * vsize q) + (6 + 8 * vsize q) ≤ vnum_pages q * PAGE_SIZE ∧
       free_set (vdpmm s') = free_set (vdpmm s) ∖ pages st (vnum_pages q) ∧ pages st (vnum_pages q) ⊆ free_set (vdpmm s)).
Proof.
  intros Hp Hi Hl. unfold virtio_init_queue, VIRTIO_MAX_QUEUES in *. destruct (Z.leb_spec 4 i); [lia|].
  rewrite kget_bind. erewrite (bind_Done (port_out _ _ _)) by reflexivity. rewrite kget_bind.
  set (qsz := u16 _). set (s1 := mkVdev _ _ _ _ _ _ _). pose proof (u16_range (port_in (outs s1) 2 (u16 (io_base s + VIRTIO_REG_QUEUE_SIZE)))) as Hq.
  change (0 ≤ qsz < 2 ^ 16) in Hq. clearbody qsz.
  destruct (Z.eqb_spec qsz 0) as [|Hz]; [eexists _, _; split; [done|]; split_and!; [done..|by left]|].
  rewrite (vring_pages qsz) by lia. remember (vring_frames qsz) as n eqn:En. assert (0 ≤ n) by (subst n; unfold vring_frames; lia).
  destruct (alloc_contiguous_lemma (vdpmm s) n Hp) as (r & p & E & Hp' & _ & _ & Hr); [done|].
  erewrite bind_Done by (unfold zoom; simpl; by rewrite E).
  destruct Hr as [(-> & Hf & _)|(st & Hst & -> & Hsub & _ & Hf)]; [eexists _, _; split; [done|]; split_and!; [done..|by left]|].
  destruct (Z.eqb_spec (st * PAGE_SIZE) 0); [unfold PAGE_SIZE in *; lia|].
  eexists 0, _. split; [unfold mbind, K_bind, kupd; simpl; rewrite zset_lt by (simpl; lia); done|].
  split_and!; [done..|]. right. eexists _, st. split; [done|]. split; [simpl; eapply zget_zset_eq, zset_lt; simpl; lia|].
  split_and!; [apply init_queue_free; unfold VRING_DESC_NONE; simpl; lia| |done|done| |done|done].
  - split; simpl; rewrite ?length_replicate; lia.
  - subst n. unfold vring_frames, PAGE_SIZE. simpl. lia.
Qed.
Lemma init_device_run space d bar0 s : zget (bar d) 0 = Some bar0 → ∃ r s', virtio_init_device space d s = Done r s' ∧
  (r = if pci_bar_io_base bar0 =? 0 then -1 else 0) ∧ vdpmm s' = vdpmm s ∧ queues s' = queues s ∧ io_base s' = pci_bar_io_base bar0 ∧
  pci_devices (vpci s') = pci_devices (vpci s) ∧ pci_count (vpci s') = pci_count (vpci s).
Proof.
  intros Hb. unfold virtio_init_device. rewrite (kopt_bind _ _ _ bar0), kmod_bind, kget_bind by done. simpl.
  destruct (pci_bar_io_base bar0 =? 0); [by eexists _, _|]. by eexists _, _.
Qed.

(** The driver after [virtio_blk_init]: with a device [d] and shared memory [m]. *)
Definition blk_of {D} (s : BlkSetup) (q : Virtqueue) (m : Dma) (d : D) : Blk D :=
  mkBlk (vdpmm (blk_vdev s)) q m d None (setup_capacity s) (setup_initialized s).

(** A fifth device is refused, and a slot that was not filled gives what the table had. *)
Lemma blkdev_register_full s dev : device_count s = BLKDEV_MAX → blkdev_register dev s = Done (-1) s.
Proof. intros E. unfold blkdev_register. rewrite kget_bind, E. by rewrite orb_true_r. Qed.
Lemma blkdev_register_get s dev : dev ≠ 0 → length (devices s) = 4%nat → 0 ≤ device_count s < BLKDEV_MAX →
  ∃ s', blkdev_register dev s = Done (device_count s) s' ∧ blkdev_get (device_count s) s' = Done dev s' ∧ device_count s' = device_count s + 1 ∧
    ∀ i, 0 ≤ i < BLKDEV_MAX → i ≠ device_count s → zget (devices s') i = zget (devices s) i.
Proof.
  unfold BLKDEV_MAX. intros Hd Hl Hc.
  eexists. split.
  { unfold blkdev_register. rewrite kget_bind. unfold BLKDEV_MAX. replace (_ || _) with false by lia.
    unfold mbind, K_bind, kupd. rewrite zset_lt by lia. done. }
  split_and!; [|done|].
  - unfold blkdev_get, BLKDEV_MAX. replace (_ || _) with false by lia. unfold kopt. simpl. by erewrite zget_zset_eq by (apply zset_lt; lia).
  - intros i Hi Hne. simpl. eapply zget_zset_ne; [apply zset_lt; lia|done].
Qed.
Lemma blkdev_got i v s : 0 ≤ i < BLKDEV_MAX → blkdev_get i s = Done v s → zget (devices s) i = Some v.
Proof. unfold BLKDEV_MAX. intros Hi. unfold blkdev_get, BLKDEV_MAX. replace (_ || _) with false by lia. by intros [? _]%kopt_inv. Qed.
Lemma on_vdev_run {A} (f : K VirtioDevice A) s a v : f (blk_vdev s) = Done a v → on_vdev f s = Done a (with_vdev v s).
Proof. unfold on_vdev, zoom. by intros ->. Qed.

Lemma capacity_join hi lo : 0 ≤ hi < 2 ^ 32 → 0 ≤ lo < 2 ^ 32 → Z.lor (u64 (Z.shiftl hi 32)) lo = hi * 2 ^ 32 + lo.
Proof. intros Hh Hl. rewrite Z.shiftl_mul_pow2, u64_small, Z.lor_comm, lor_add by lia. lia. Qed.

(** C37. [virtio_blk_init] makes the driver ready: on a machine whose enumeration found a block device with ports, it returns 0 or -1;
    with -1 (no queue, or no memory for it) the driver stays as uninitialised as it was and no block device is registered; with 0 the driver
    fulfils what its transfers ask for, with the capacity that the device gave, and is the next block device, for every device of that capacity
    whose queue has at least three entries, as long as there is memory for the largest transfer. *)
Theorem virtio_blk_init_correct {D} `{VirtioDisk D} space port_in dev s i pci bar0 :
  pmm_ok (vdpmm (blk_vdev s)) → length (queues (blk_vdev s)) = 4%nat → length (devices (setup_devs s)) = 4%nat →
  0 ≤ device_count (setup_devs s) < BLKDEV_MAX → dev ≠ 0 →
  pci_find_device VIRTIO_BLK_VENDOR_ID VIRTIO_BLK_DEVICE_ID (vpci (blk_vdev s)) = Some i →
  zget (pci_devices (vpci (blk_vdev s))) i = Some pci → zget (bar pci) 0 = Some bar0 → pci_bar_io_base bar0 ≠ 0 →
  ∃ r s', virtio_blk_init space port_in dev s = Done r s' ∧
    ((r = -1 ∧ setup_initialized s' = setup_initialized s ∧ setup_devs s' = setup_devs s ∧ free_set (vdpmm (blk_vdev s')) = free_set (vdpmm (blk_vdev s))) ∨
     ∃ q, r = 0 ∧ zget (queues (blk_vdev s')) 0 = Some q ∧ zget (devices (setup_devs s')) (device_count (setup_devs s)) = Some dev ∧
       (∃ told, let answer off := u32 (port_in told 4 (u16 (pci_bar_io_base bar0 + VIRTIO_REG_CONFIG + off))) in
         setup_capacity s' = answer 4 * 2 ^ 32 + answer 0) ∧
       ∀ m (d : D), dv_ok d → dv_capacity d = setup_capacity s' → setup_capacity s' < 2 ^ 23 - 8 → 3 ≤ vsize q →
         (∃ start, 0 ≤ start ∧ pages start (1 + data_pages (setup_capacity s')) ⊆ free_set (vdpmm (blk_vdev s'))) →
         blk_ok (blk_of s' q m d)).
Proof.
  intros Hp Hl Hdl Hdc Hdev Hf Hpci Hb Hio. unfold virtio_blk_init. rewrite kget_bind, Hf, (kopt_bind _ _ _ pci) by done.
  destruct (init_device_run space pci bar0 (blk_vdev s) Hb) as (r1 & v1 & E1 & -> & Hp1 & Hq1 & Hio1 & _).
  erewrite bind_Done by (apply on_vdev_run; exact E1). destruct (Z.eqb_spec (pci_bar_io_base bar0) 0); [done|]. change (negb (0 =? 0)) with false. cbv iota.
  erewrite (bind_Done (on_vdev (virtio_negotiate_features _ _))) by reflexivity. set (s1 := with_vdev _ (with_vdev _ s)).
  destruct (init_queue_run port_in (blk_vdev s1) 0) as (r2 & v2 & E2 & Hp2 & _ & Hio2 & Hr); [by simpl; rewrite Hp1|done|by simpl; rewrite Hq1|].
  erewrite bind_Done by (apply on_vdev_run; exact E2).
  destruct Hr as [(-> & _ & Hfs)|(q & st & -> & Hq & Hfl & Hro & _)].
  { eexists _, _. split; [done|]. left. split_and!; [done..|]. simpl in *. by rewrite Hfs, Hp1. }
  change (negb (0 =? 0)) with false. cbv iota. rewrite !kget_bind, kmod_bind.
  erewrite (bind_Done (on_vdev virtio_device_ready)) by reflexivity. rewrite kmod_bind.
  destruct (blkdev_register_get (setup_devs s) dev) as (ds & Er & Hg & _); [done|done|done|].
  unfold virtio_blk_register_blkdev. rewrite bind_assoc. erewrite bind_Done by (unfold zoom; simpl; by rewrite Er).
  eexists 0, _. split; [done|]. right. exists q. split_and!; [done|done|by apply blkdev_got| |].
  { exists (outs v2). simpl in *. rewrite Hio2, Hio1, Z.add_0_r. apply capacity_join; apply u32_range. }
  intros m d Hd Hc Hsm Hv Hroom. split; simpl; [done|done| |done|done|done|done|done|done].
  exists (seqZ 0 (vsize q)). split; [done|]. rewrite length_seqZ. lia.
Qed.
(** ** Witnesses *)

Definition queue_example : Virtqueue := mkVq 4 (init_desc 4) 0 (replicate 4 0) 0 (replicate 4 (0, 0)) 0 4 0 0x5000 1.
(** A disk of [cap] sectors whose second has other bytes than zero, which serves a request at the fourth poll. *)
Definition blk_example (cap : Z) : Blk VDisk :=
  mkBlk pmm_example queue_example ∅ (mkVDisk (mkDisk cap {[ 1 := replicate 512 7 ]}) 3) None cap 1.
Lemma blk_example_ok : blk_ok (blk_example 8).
Proof.
  split; [exact pmm_example_ok| | | |done|done| |done|done].
  - exists 1. split; [done|]. refine (bool_decide_unpack _ _). vm_compute. exact I.
  - exists (seqZ 0 4). split; [by apply init_queue_free|vm_compute; lia].
  - by split.
  - split; [|done]. refine (bool_decide_unpack (map_Forall (λ _ l, length l = 512%nat) _) _). vm_compute. exact I.
Qed.
Lemma blk_transfer_correct_witness :
  ∃ s', blk_transfer 2 1 (replicate 512 5) true (blk_example 8) = Done (0, []) s' ∧ dv_sector (disk s') 2 = replicate 512 5 ∧ dv_sector (disk s') 1 = replicate 512 7.
Proof.
  destruct (blk_transfer_correct (blk_example 8) 2 1 (replicate 512 5) true (blk_ok_ready _ blk_example_ok) ltac:(done) ltac:(done) ltac:(done) ltac:(done) ltac:(done))
    as (r & s' & E & _ & _ & _ & _ & [(-> & _)|(-> & _ & _ & Hj)]).
  - vm_compute in E. discriminate E.
  - exists s'. split; [exact E|]. rewrite !Hj. split; reflexivity.
Defined.

(** The number of bytes of a transfer has 32 bits: a read of 2^23 + 1 sectors is taken for one of a single sector, and succeeds. *)
Lemma transfer_length_wraps :
  match virtio_blk_read 0 (2 ^ 23 + 1) (blk_example (2 ^ 24)) with
  | Done (r, bytes) _ => r = 0 ∧ length bytes = 512%nat
  | _ => False
  end.
Proof. vm_compute. by split. Qed.

(** A machine whose block device has a queue of four entries and eight sectors. *)
Definition ports_example (told : list (Z * Z * Z)) (width port : Z) : Z :=
  if port =? 0xC00C then 4 else if port =? 0xC014 then 8 else 0.
Definition pci_blk_example : PciDevice := mkPciDev (mkPciAddr 0 3 0) VIRTIO_BLK_VENDOR_ID VIRTIO_BLK_DEVICE_ID 1 0 0 0 0 11 1 [0xC001; 0; 0; 0; 0; 0].
Definition setup_example : BlkSetup :=
  mkSetup (mkVdev (mkPci [pci_blk_example] 1 []) pmm_example 0 0 (replicate 4 queue_example) 0 []) 0 0 (mkBlkDevs (replicate 4 0) 0).
Lemma virtio_blk_init_correct_witness : ∃ s' q, virtio_blk_init space_example ports_example 0x9000 setup_example = Done 0 s' ∧
  zget (queues (blk_vdev s')) 0 = Some q ∧ blk_ok (blk_of s' q ∅ (mkVDisk (mkDisk 8 ∅) 3)).
Proof.
  destruct (virtio_blk_init_correct (D := VDisk) space_example ports_example 0x9000 setup_example 0 pci_blk_example 0xC001
    pmm_example_ok eq_refl eq_refl ltac:(done) ltac:(done) eq_refl eq_refl eq_refl ltac:(done)) as (r & s' & E & Hr).
  assert (virtio_blk_init space_example ports_example 0x9000 setup_example = Done 0
    (match virtio_blk_init space_example ports_example 0x9000 setup_example with Done _ s => s | _ => setup_example end)) as E0 by (vm_compute; reflexivity).
  rewrite E in E0. injection E0 as ->. destruct Hr as [(Hr & _)|(q & _ & Hq & _ & _ & Hok)]; [discriminate Hr|].
  exists s', q. split; [exact E|]. split; [exact Hq|]. revert Hq Hok.
  assert (s' = match virtio_blk_init space_example ports_example 0x9000 setup_example with Done _ s => s | _ => setup_example end) as -> by by rewrite E.
  clear E. intros Hq Hok. vm_compute in Hq. injection Hq as <-. apply Hok.
  - split; [|by vm_compute]. refine (bool_decide_unpack (map_Forall (λ _ l, length l = 512%nat) _) _). vm_compute. exact I.
  - vm_compute. reflexivity.
  - vm_compute. reflexivity.
  - vm_compute. discriminate.
  - exists 3. split; [done|]. refine (bool_decide_unpack _ _). vm_compute. exact I.
Defined.
