(* ===== verification/Acpi.v ===== *)
(** * ACPI tables

    [kernel/drivers/acpi.c].  The tables are in memory that the firmware wrote: a partial function from physical addresses to bytes
    (the kernel reaches them through its direct map).  The structures are packed, so a field is a number of bytes at an offset. *)
From S2P Require Import Prelude.

Definition ACPI_MAX_CPUS : Z := 16.
Definition ACPI_MAX_ISOS : Z := 16.
Definition MADT_ENTRY_LOCAL_APIC : Z := 0.
Definition MADT_ENTRY_IO_APIC : Z := 1.
Definition MADT_ENTRY_ISO : Z := 2.
Definition MADT_ENTRY_LOCAL_APIC_64 : Z := 5.
Definition SIZEOF_SDT_HEADER : Z := 36.
Definition SIZEOF_MADT : Z := 44.
Definition sig_rsdp : list Z := [82; 83; 68; 32; 80; 84; 82; 32].
Definition sig_xsdt : list Z := [88; 83; 68; 84].
Definition sig_rsdt : list Z := [82; 83; 68; 84].
Definition sig_apic : list Z := [65; 80; 73; 67].

Record AcpiMadtIso : Type := mkIso { iso_type : Z; iso_length : Z; iso_bus : Z; iso_source : Z; iso_gsi : Z; iso_flags : Z }.
Definition zero_iso : AcpiMadtIso := mkIso 0 0 0 0 0 0.
Record AcpiInfo : Type := mkInfo {
  cpu_apic_ids : list Z; cpu_count : Z; io_apic_address : Z; io_apic_id : Z; local_apic_address : Z;
  isos : list AcpiMadtIso; iso_count : Z; has_legacy_pics : Z
}.
Definition zero_info : AcpiInfo := mkInfo (replicate 16 0) 0 0 0 0 (replicate 16 zero_iso) 0 0.
Record Acpi : Type := mkAcpi { acpi_info : AcpiInfo; acpi_initialized : Z }.

Definition set_lapic a p (i : AcpiInfo) := mkInfo (cpu_apic_ids i) (cpu_count i) (io_apic_address i) (io_apic_id i) a (isos i) (iso_count i) p.
Definition set_ioapic a d (i : AcpiInfo) := mkInfo (cpu_apic_ids i) (cpu_count i) a d (local_apic_address i) (isos i) (iso_count i) (has_legacy_pics i).
Definition set_cpus l n (i : AcpiInfo) := mkInfo l n (io_apic_address i) (io_apic_id i) (local_apic_address i) (isos i) (iso_count i) (has_legacy_pics i).
Definition set_isos l n (i : AcpiInfo) := mkInfo (cpu_apic_ids i) (cpu_count i) (io_apic_address i) (io_apic_id i) (local_apic_address i) l n (has_legacy_pics i).

Section acpi.
(** The memory of the firmware. *)
Context (mem : Z → option Z).

Definition bytes_at (a n : Z) : option (list Z) := mapM (λ i, mem (a + i)) (seqZ 0 n).
Definition field (a n : Z) : option Z := le_val <$> bytes_at a n.
Definition rd (a n : Z) : K Acpi Z := kopt (λ _, field a n).
Definition rd_bytes (a n : Z) : K Acpi (list Z) := kopt (λ _, bytes_at a n).

Definition info_get {A} (f : AcpiInfo → A) : K Acpi A := kget (λ s, f (acpi_info s)).
Definition info_mod (f : AcpiInfo → AcpiInfo) : K Acpi unit := kmod (λ s, mkAcpi (f (acpi_info s)) (acpi_initialized s)).
Definition info_upd (f : AcpiInfo → option AcpiInfo) : K Acpi unit := kupd (λ s, i ← f (acpi_info s); Some (mkAcpi i (acpi_initialized s))).

Definition acpi_checksum (a len : Z) : K Acpi bool :=
  bytes ← rd_bytes a len;
  mret (foldl (λ sum b, u8 (sum + b)) 0 bytes =? 0).

Definition madt_entry (ptr type length : Z) : K Acpi unit :=
  if type =? MADT_ENTRY_LOCAL_APIC then
    flags ← rd (ptr + 4) 4;
    n ← info_get cpu_count;
    if negb (Z.land flags 1 =? 0) && (n <? ACPI_MAX_CPUS) then
      id ← rd (ptr + 3) 1;
      info_upd (λ i, l ← zset (cpu_apic_ids i) n id; Some (set_cpus l (n + 1) i))
    else mret tt
  else if type =? MADT_ENTRY_IO_APIC then
    a ← rd (ptr + 4) 4;
    id ← rd (ptr + 2) 1;
    info_mod (set_ioapic a id)
  else if type =? MADT_ENTRY_ISO then
    n ← info_get iso_count;
    if n <? ACPI_MAX_ISOS then
      b ← rd (ptr + 2) 1;
      src ← rd (ptr + 3) 1;
      gsi ← rd (ptr + 4) 4;
      fl ← rd (ptr + 8) 2;
      info_upd (λ i, l ← zset (isos i) n (mkIso type length b src gsi fl); Some (set_isos l (n + 1) i))
    else mret tt
  else if type =? MADT_ENTRY_LOCAL_APIC_64 then
    if 12 <=? length then
      a ← rd (ptr + 4) 8;
      info_mod (λ i, set_lapic a (has_legacy_pics i) i)
    else mret tt
  else mret tt.
(** Every entry that is taken has at least two bytes: the fuel is the length of the table. *)
Fixpoint madt_walk (fuel : nat) (ptr end_ : Z) : K Acpi unit :=
  match fuel with
  | O => kstuck
  | S fuel' =>
      if ptr + 2 <=? end_ then
        type ← rd ptr 1;
        len ← rd (ptr + 1) 1;
        if (len <? 2) || (end_ <? ptr + len) then mret tt else
        madt_entry ptr type len;;
        madt_walk fuel' (ptr + len) end_
      else mret tt
  end.
Definition parse_madt (madt : Z) : K Acpi unit :=
  lapic ← rd (madt + 36) 4;
  flags ← rd (madt + 40) 4;
  info_mod (set_lapic lapic (Z.land flags 1));;
  len ← rd (madt + 4) 4;
  madt_walk (S (Z.to_nat len)) (madt + SIZEOF_MADT) (madt + len).

Definition process_sdt (phys : Z) : K Acpi unit :=
  len ← rd (phys + 4) 4;
  ok ← acpi_checksum phys len;
  if negb ok then mret tt else
  sig ← rd_bytes phys 4;
  if decide (sig = sig_apic) then parse_madt phys else mret tt.

(** The table of the addresses of the others, [width] bytes each. *)
Definition acpi_root (phys width : Z) (sig : list Z) : K Acpi Z :=
  s ← rd_bytes phys 4;
  if negb (bool_decide (s = sig)) then mret (-1) else
  len ← rd (phys + 4) 4;
  ok ← acpi_checksum phys len;
  if negb ok then mret (-1) else
  let entry_count := u32 (u64 (len - SIZEOF_SDT_HEADER) / width) in
  kfor (seqZ 0 entry_count) (λ i, a ← rd (phys + SIZEOF_SDT_HEADER + width * i) width; process_sdt a);;
  kmod (λ s, mkAcpi (acpi_info s) 1);;
  mret 0.
Definition acpi_init (rsdp_phys : Z) : K Acpi Z :=
  if rsdp_phys =? 0 then mret (-1) else
  kmod (λ s, mkAcpi zero_info (acpi_initialized s));;
  sig ← rd_bytes rsdp_phys 8;
  if negb (bool_decide (sig = sig_rsdp)) then mret (-1) else
  ok ← acpi_checksum rsdp_phys 20;
  if negb ok then mret (-1) else
  let rsdt :=
    rsdt_address ← rd (rsdp_phys + 16) 4;
    if rsdt_address =? 0 then mret (-1) else acpi_root rsdt_address 4 sig_rsdt in
  revision ← rd (rsdp_phys + 15) 1;
  if 2 <=? revision then
    len ← rd (rsdp_phys + 20) 4;
    ok ← acpi_checksum rsdp_phys len;
    if negb ok then mret (-1) else
    xsdt_address ← rd (rsdp_phys + 24) 8;
    if negb (xsdt_address =? 0) then acpi_root xsdt_address 8 sig_xsdt else rsdt
  else rsdt.
Definition acpi_get_info (s : Acpi) : option AcpiInfo := if acpi_initialized s =? 0 then None else Some (acpi_info s).
End acpi.
