(* ===== verification/AcpiCorrect.v ===== *)
(** * Correctness of the reading of ACPI tables

    What the firmware says, as data: the processors, controllers and overrides of a MADT and the other tables, and the bytes
    that the ACPI specification gives them.  From memory with these bytes [acpi_init] learns exactly what the tables say. *)
From S2P Require Import Prelude Acpi.

(** ** Firmware *)

Inductive MadtEntry : Type :=
  | LocalApic (processor apic flags : Z)
  | IoApic (id address base : Z)
  | Iso (bus source gsi flags : Z)
  | LocalApicAt (address : Z)
  | OtherEntry (type : Z) (payload : list Z).
Definition encode (e : MadtEntry) : list Z :=
  match e with
  | LocalApic p a f => [0; 8; p; a] ++ le_bytes 4 f
  | IoApic i a b => [1; 12; i; 0] ++ le_bytes 4 a ++ le_bytes 4 b
  | Iso b s g f => [2; 10; b; s] ++ le_bytes 4 g ++ le_bytes 2 f
  | LocalApicAt a => [5; 12; 0; 0] ++ le_bytes 8 a
  | OtherEntry t p => [t; 2 + Z.of_nat (length p)] ++ p
  end.
Definition entry_ok (e : MadtEntry) : Prop :=
  match e with
  | LocalApic _ a f => 0 ≤ a < 2 ^ 8 ∧ 0 ≤ f < 2 ^ 32
  | IoApic i a _ => 0 ≤ i < 2 ^ 8 ∧ 0 ≤ a < 2 ^ 32
  | Iso b s g f => 0 ≤ b < 2 ^ 8 ∧ 0 ≤ s < 2 ^ 8 ∧ 0 ≤ g < 2 ^ 32 ∧ 0 ≤ f < 2 ^ 16
  | LocalApicAt a => 0 ≤ a < 2 ^ 64
  | OtherEntry t p => 0 ≤ t < 2 ^ 8 ∧ t ∉ [0; 1; 2; 5] ∧ (length p < 254)%nat
  end.
(** A table is a MADT or another one; [rest] is the part of the header behind the length, with the checksum. *)
Inductive Table : Type :=
  | Madt (rest : list Z) (lapic flags : Z) (entries : list MadtEntry)
  | OtherTable (sig rest body : list Z).
Definition sdt (sig rest body : list Z) : list Z := sig ++ le_bytes 4 (36 + Z.of_nat (length body)) ++ rest ++ body.
Definition madt_body (lapic flags : Z) (es : list MadtEntry) : list Z := le_bytes 4 lapic ++ le_bytes 4 flags ++ concat (encode <$> es).
Definition table_bytes (t : Table) : list Z :=
  match t with
  | Madt rest l f es => sdt sig_apic rest (madt_body l f es)
  | OtherTable sig rest body => sdt sig rest body
  end.
Definition table_ok (t : Table) : Prop :=
  Z.of_nat (length (table_bytes t)) < 2 ^ 32 ∧
  match t with
  | Madt rest l f es => length rest = 28%nat ∧ 0 ≤ l < 2 ^ 32 ∧ 0 ≤ f < 2 ^ 32 ∧ Forall entry_ok es
  | OtherTable sig rest body => length rest = 28%nat ∧ length sig = 4%nat ∧ sig ≠ sig_apic
  end.
(** A table counts when its bytes sum to 0. *)
Definition sums (l : list Z) : bool := foldr Z.add 0 l mod 256 =? 0.

(** What a machine has: at most 16 processors and overrides are of interest. *)
Record Hardware : Type := mkHw { hw_cpus : list Z; hw_ioapic : Z * Z; hw_isos : list AcpiMadtIso; hw_lapic : Z; hw_pics : Z }.
Definition see (h : Hardware) (e : MadtEntry) : Hardware :=
  match e with
  | LocalApic _ a f => mkHw (if Z.odd f then take 16 (hw_cpus h ++ [a]) else hw_cpus h) (hw_ioapic h) (hw_isos h) (hw_lapic h) (hw_pics h)
  | IoApic i a _ => mkHw (hw_cpus h) (i, a) (hw_isos h) (hw_lapic h) (hw_pics h)
  | Iso b s g f => mkHw (hw_cpus h) (hw_ioapic h) (take 16 (hw_isos h ++ [mkIso 2 10 b s g f])) (hw_lapic h) (hw_pics h)
  | LocalApicAt a => mkHw (hw_cpus h) (hw_ioapic h) (hw_isos h) a (hw_pics h)
  | OtherEntry _ _ => h
  end.
Definition learn (h : Hardware) (t : Table) : Hardware :=
  if sums (table_bytes t) then
    match t with
    | Madt _ l f es => foldl see (mkHw (hw_cpus h) (hw_ioapic h) (hw_isos h) l (f mod 2)) es
    | OtherTable _ _ _ => h
    end
  else h.
Definition no_hardware : Hardware := mkHw [] (0, 0) [] 0 0.
(** The record of the kernel has it: the arrays begin with the lists. *)
Record shows (i : AcpiInfo) (h : Hardware) : Prop := {
  sh_cpus : cpu_count i = Z.of_nat (length (hw_cpus h)) ∧ ∃ l, cpu_apic_ids i = hw_cpus h ++ l ∧ length (hw_cpus h ++ l) = 16%nat;
  sh_ioapic : (io_apic_id i, io_apic_address i) = hw_ioapic h;
  sh_isos : iso_count i = Z.of_nat (length (hw_isos h)) ∧ ∃ l, isos i = hw_isos h ++ l ∧ length (hw_isos h ++ l) = 16%nat;
  sh_lapic : local_apic_address i = hw_lapic h;
  sh_pics : has_legacy_pics i = hw_pics h;
}.

(** ** Memory *)

Section memory.
Context (mem : Z → option Z).
Definition has (a : Z) (l : list Z) : Prop := ∀ i v, l !! i = Some v → mem (a + Z.of_nat i) = Some v.

Lemma has_app a l1 l2 : has a (l1 ++ l2) ↔ has a l1 ∧ has (a + Z.of_nat (length l1)) l2.
Proof.
  split.
  - intros Hh. split; intros i v Hi; [apply Hh; by apply lookup_app_l_Some|]. rewrite <-Z.add_assoc, <-Nat2Z.inj_add. apply Hh.
    rewrite lookup_app_r by lia. by replace (length l1 + i - length l1)%nat with i by lia.
  - intros [H1 H2] i v [Hi|[Hl Hi]]%lookup_app_Some; [by apply H1|]. apply H2 in Hi. rewrite <-Hi. f_equal. lia.
Qed.
Lemma has_eq x y l : has x l → x = y → has y l.
Proof. by intros ? <-. Qed.
Lemma bytes_at_has a l n : has a l → n = Z.of_nat (length l) → bytes_at mem a n = Some l.
Proof.
  intros Hh ->. unfold bytes_at. apply mapM_Some, Forall2_same_length_lookup. rewrite length_seqZ, Nat2Z.id. split; [done|].
  intros i x v [-> _]%lookup_seqZ Hi. by apply Hh.
Qed.
Lemma rd_has a n v s : has a (le_bytes n v) → 0 ≤ n → 0 ≤ v < 2 ^ (8 * n) → rd mem a n s = Done v s.
Proof.
  intros Hh Hn Hv. unfold rd, kopt, field. rewrite (bytes_at_has a (le_bytes n v)); [|done|rewrite le_bytes_length; lia].
  simpl. by rewrite le_val_le_bytes.
Qed.
Lemma rd_byte a v s : mem a = Some v → rd mem a 1 s = Done v s.
Proof.
  intros Hm. unfold rd, kopt, field. rewrite (bytes_at_has a [v]); [|intros [|i] x Hx; [|done]|done].
  - simpl. unfold le_val. simpl. by rewrite Z.add_0_r.
  - injection Hx as <-. by rewrite Z.add_0_r.
Qed.
Lemma rd_bytes_has a l n s : has a l → n = Z.of_nat (length l) → rd_bytes mem a n s = Done l s.
Proof. intros Hh Hn. unfold rd_bytes, kopt. by rewrite (bytes_at_has a l n). Qed.
Lemma sum_fold l : ∀ c, 0 ≤ c → foldl (λ sum b, u8 (sum + b)) (c mod 256) l = (c + foldr Z.add 0 l) mod 256.
Proof.
  induction l as [|b l IH]; intros c Hc; simpl; [by rewrite Z.add_0_r|].
  assert (u8 (c mod 256 + b) = ((c mod 256 + b) mod 256) mod 256) as -> by (unfold u8; change (2 ^ 8) with 256; by rewrite Z.mod_mod).
  rewrite IH by lia. unfold u8. rewrite Z.add_mod_idemp_l by lia. rewrite <-Z.add_assoc, Z.add_mod_idemp_l by lia. done.
Qed.
Lemma checksum_run a l n s : has a l → n = Z.of_nat (length l) → acpi_checksum mem a n s = Done (sums l) s.
Proof.
  intros Hh Hn. unfold acpi_checksum. kbind (rd_bytes_has a l n s Hh Hn). unfold sums. pose proof (sum_fold l 0 ltac:(lia)) as E.
  change (0 mod 256) with 0 in E. by rewrite E.
Qed.

(** ** Entries *)

(** The array [l ++ r] with one more element behind [l], or the same when it is full. *)
Lemma zset_next {A} (l r : list A) x : r ≠ [] → zset (l ++ r) (Z.of_nat (length l)) x = Some ((l ++ [x]) ++ tail r).
Proof.
  intros Hr. destruct r as [|y r]; [done|]. rewrite zset_lt by (rewrite length_app; simpl; lia).
  by rewrite Nat2Z.id, insert_app_r_alt, Nat.sub_diag, <-app_assoc by lia.
Qed.
Definition etype (e : MadtEntry) : Z := match e with LocalApic _ _ _ => 0 | IoApic _ _ _ => 1 | Iso _ _ _ _ => 2 | LocalApicAt _ => 5 | OtherEntry t _ => t end.
Definition elen (e : MadtEntry) : Z := Z.of_nat (length (encode e)).

Lemma land1_odd f : (Z.land f 1 =? 0) = negb (Z.odd f).
Proof. change 1 with (Z.ones 1). rewrite Z.land_ones by lia. change (2 ^ 1) with 2. rewrite Zmod_odd. by destruct (Z.odd f). Qed.
Lemma cpu_entry_run ptr p a f s h : has ptr (encode (LocalApic p a f)) → entry_ok (LocalApic p a f) → shows (acpi_info s) h →
  ∃ s', madt_entry mem ptr 0 8 s = Done tt s' ∧ shows (acpi_info s') (see h (LocalApic p a f)) ∧ acpi_initialized s' = acpi_initialized s.
Proof.
  intros Hh [Ha Hf] Hs. apply has_app in Hh as [Hh1 Hh2]. pose proof Hs as [[Hc (r & Hr & Hl)] ? ? ? ?]. unfold madt_entry.
  change (0 =? MADT_ENTRY_LOCAL_APIC) with true. cbv iota. kbind (rd_has (ptr + 4) 4 f s Hh2 ltac:(lia) Hf).
  unfold info_get. rewrite kget_bind, land1_odd, negb_involutive. unfold see. rewrite length_app in Hl.
  destruct (Z.odd f); simpl; [|by exists s; destruct h]. unfold ACPI_MAX_CPUS.
  destruct (Z.ltb_spec (cpu_count (acpi_info s)) 16).
  - kbind (rd_byte (ptr + 3) a s (Hh1 3%nat a eq_refl)). unfold info_upd, kupd. rewrite Hr, Hc, zset_next by (intros ->; simpl in Hl; lia).
    simpl. eexists. split; [done|]. split; [|done]. rewrite take_ge by (rewrite length_app; simpl; lia).
    split; simpl; [|done..]. rewrite !length_app. simpl. split; [lia|]. exists (tail r). split; [done|]. rewrite !length_app. destruct r; simpl in *; lia.
  - exists s. split; [done|]. split; [|done]. rewrite take_app_le, take_ge by lia. by destruct h.
Qed.
Lemma iso_entry_run ptr b src g f s h : has ptr (encode (Iso b src g f)) → entry_ok (Iso b src g f) → shows (acpi_info s) h →
  ∃ s', madt_entry mem ptr 2 10 s = Done tt s' ∧ shows (acpi_info s') (see h (Iso b src g f)) ∧ acpi_initialized s' = acpi_initialized s.
Proof.
  intros Hh (Hb & Hsr & Hg & Hf) Hs. apply has_app in Hh as [Hh1 Hh2]. apply has_app in Hh2 as [Hh2 Hh3].
  rewrite le_bytes_length in Hh3 by lia. rewrite <-Z.add_assoc in Hh3.
  pose proof Hs as [? ? [Hc (r & Hr & Hl)] ? ?]. unfold madt_entry. rewrite length_app in Hl.
  change (2 =? MADT_ENTRY_LOCAL_APIC) with false. change (2 =? MADT_ENTRY_IO_APIC) with false. change (2 =? MADT_ENTRY_ISO) with true. cbv iota.
  unfold info_get. rewrite kget_bind. unfold see, ACPI_MAX_ISOS. destruct (Z.ltb_spec (iso_count (acpi_info s)) 16).
  - kbind (rd_byte (ptr + 2) b s (Hh1 2%nat b eq_refl)). kbind (rd_byte (ptr + 3) src s (Hh1 3%nat src eq_refl)).
    kbind (rd_has (ptr + 4) 4 g s Hh2 ltac:(lia) Hg). kbind (rd_has (ptr + 8) 2 f s Hh3 ltac:(lia) Hf).
    unfold info_upd, kupd. rewrite Hr, Hc, zset_next by (intros ->; simpl in Hl; lia).
    simpl. eexists. split; [done|]. split; [|done]. rewrite take_ge by (rewrite length_app; simpl; lia).
    split; simpl; [done..| |done|done]. rewrite !length_app. simpl. split; [lia|]. exists (tail r). split; [done|]. rewrite !length_app. destruct r; simpl in *; lia.
  - exists s. split; [done|]. split; [|done]. rewrite take_app_le, take_ge by lia. by destruct h.
Qed.
Lemma entry_run ptr e s h : has ptr (encode e) → entry_ok e → shows (acpi_info s) h →
  ∃ s', madt_entry mem ptr (etype e) (elen e) s = Done tt s' ∧ shows (acpi_info s') (see h e) ∧ acpi_initialized s' = acpi_initialized s.
Proof.
  intros Hh He Hs. destruct e as [p a f|i a b|b src g f|a|t p].
  - by apply cpu_entry_run.
  - destruct He as [Hi Ha]. apply has_app in Hh as [Hh1 [Hh2 _]%has_app]. unfold madt_entry.
    change (etype (IoApic i a b) =? MADT_ENTRY_LOCAL_APIC) with false. change (etype (IoApic i a b) =? MADT_ENTRY_IO_APIC) with true. cbv iota.
    kbind (rd_has (ptr + 4) 4 a s Hh2 ltac:(lia) Ha). kbind (rd_byte (ptr + 2) i s (Hh1 2%nat i eq_refl)).
    eexists. split; [done|]. split; [|done]. destruct Hs. by split.
  - by apply iso_entry_run.
  - apply has_app in Hh as [_ Hh2]. unfold madt_entry. replace (elen (LocalApicAt a)) with 12 by done. change (etype (LocalApicAt a)) with 5.
    change (5 =? MADT_ENTRY_LOCAL_APIC) with false. change (5 =? MADT_ENTRY_IO_APIC) with false. change (5 =? MADT_ENTRY_ISO) with false.
    change (5 =? MADT_ENTRY_LOCAL_APIC_64) with true. change (12 <=? 12) with true. cbv iota.
    kbind (rd_has (ptr + 4) 8 a s Hh2 ltac:(lia) He). eexists. split; [done|]. split; [|done]. destruct Hs. by split.
  - destruct He as (_ & Ht & _). assert (t ≠ 0 ∧ t ≠ 1 ∧ t ≠ 2 ∧ t ≠ 5) as (? & ? & ? & ?) by set_solver.
    unfold madt_entry, MADT_ENTRY_LOCAL_APIC, MADT_ENTRY_IO_APIC, MADT_ENTRY_ISO, MADT_ENTRY_LOCAL_APIC_64. change (etype (OtherEntry t p)) with t.
    rewrite !(proj2 (Z.eqb_neq t _)) by done. by exists s.
Qed.
Lemma encode_head e : entry_ok e → ∃ r, encode e = etype e :: elen e :: r ∧ 2 ≤ elen e < 256.
Proof.
  destruct e as [p a f|i a b|b src g f|a|t p]; intros He; [by eexists..|]. destruct He as (_ & _ & Hp). unfold elen. simpl.
  exists p. split; [do 2 f_equal; lia|lia].
Qed.
Lemma entries_length es : Forall entry_ok es → (length es ≤ length (concat (encode <$> es)))%nat.
Proof.
  induction 1 as [|e es He _ IH]; [done|]. destruct (encode_head e He) as (r & E & _). csimpl. rewrite length_app, E. simpl. lia.
Qed.
Lemma entry_header ptr e s : has ptr (encode e) → entry_ok e → rd mem ptr 1 s = Done (etype e) s ∧ rd mem (ptr + 1) 1 s = Done (elen e) s.
Proof.
  intros Hh He. destruct (encode_head e He) as (r & E & _). rewrite E in Hh.
  split; apply rd_byte; [rewrite <-(Z.add_0_r ptr); by apply (Hh 0%nat)|by apply (Hh 1%nat)].
Qed.
Lemma walk_run es : ∀ fuel ptr s h, has ptr (concat (encode <$> es)) → Forall entry_ok es → shows (acpi_info s) h → (length es < fuel)%nat →
  ∃ s', madt_walk mem fuel ptr (ptr + Z.of_nat (length (concat (encode <$> es)))) s = Done tt s' ∧
    shows (acpi_info s') (foldl see h es) ∧ acpi_initialized s' = acpi_initialized s.
Proof.
  induction es as [|e es IH]; intros [|fuel] ptr s h Hh He Hs Hf; simpl in Hf; try lia.
  - exists s. cbn [madt_walk]. by replace (ptr + 2 <=? _) with false by (simpl; lia).
  - csimpl in Hh. csimpl. apply Forall_cons in He as [He Hes]. apply has_app in Hh as [Hh1 Hh2]. rewrite length_app, Nat2Z.inj_add.
    destruct (encode_head e He) as (_ & _ & Hlen). fold (elen e) in *. fold (elen e).
    destruct (entry_header ptr e s Hh1 He) as [E1 E2]. destruct (entry_run ptr e s h Hh1 He Hs) as (s1 & E3 & Hs1 & Hi1).
    cbn [madt_walk]. replace (ptr + 2 <=? _) with true by lia. kbind E1. kbind E2. replace (_ || _) with false by lia. kbind E3.
    destruct (IH fuel (ptr + elen e) s1 (see h e)) as (s2 & E4 & Hs2 & Hi2); [done|done|done|lia|].
    exists s2. rewrite Z.add_assoc. split_and!; [done|done|congruence].
Qed.

(** ** Tables *)

Lemma sdt_length sig rest body : length sig = 4%nat → length rest = 28%nat → Z.of_nat (length (sdt sig rest body)) = 36 + Z.of_nat (length body).
Proof. intros Hs Hr. unfold sdt. rewrite !length_app, le_bytes_length, Hs, Hr by lia. lia. Qed.
Lemma sdt_sig sig rest body : length sig = 4%nat → take 4 (sdt sig rest body) = sig.
Proof. intros Hs. by apply take_app_length'. Qed.
Lemma sdt_has a sig rest body : has a (sdt sig rest body) → length sig = 4%nat → length rest = 28%nat →
  has a sig ∧ has (a + 4) (le_bytes 4 (36 + Z.of_nat (length body))) ∧ has (a + 36) body.
Proof.
  intros [H1 [H2 [_ H3]%has_app]%has_app]%has_app Hs Hr. rewrite le_bytes_length, Hs, Hr in H3 by lia. rewrite Hs in H2.
  split_and!; [done|done|]. by rewrite <-!Z.add_assoc in H3.
Qed.
Lemma parse_madt_run a rest l f es s h : has a (table_bytes (Madt rest l f es)) → table_ok (Madt rest l f es) → shows (acpi_info s) h →
  ∃ s', parse_madt mem a s = Done tt s' ∧ acpi_initialized s' = acpi_initialized s ∧
    shows (acpi_info s') (foldl see (mkHw (hw_cpus h) (hw_ioapic h) (hw_isos h) l (f mod 2)) es).
Proof.
  intros Hh (Hlen & Hr & Hl & Hf & Hes) Hs. change (Z.of_nat (length (sdt sig_apic rest (madt_body l f es))) < 2 ^ 32) in Hlen. rewrite sdt_length in Hlen by done.
  destruct (sdt_has _ _ _ _ Hh eq_refl Hr) as (_ & H2 & [H3 [H4 H5]%has_app]%has_app). rewrite le_bytes_length in H4, H5 by lia.
  rewrite le_bytes_length in H5 by lia. rewrite <-!Z.add_assoc in H4, H5.
  assert (length (madt_body l f es) = (8 + length (concat (encode <$> es)))%nat) as Hb.
  { unfold madt_body. rewrite !length_app, !le_bytes_length by lia. lia. }
  unfold parse_madt. kbind (rd_has (a + 36) 4 l s H3 ltac:(lia) Hl). kbind (rd_has (a + 40) 4 f s H4 ltac:(lia) Hf).
  unfold info_mod. rewrite kmod_bind. set (s1 := mkAcpi _ _).
  kbind (rd_has (a + 4) 4 _ s1 H2 ltac:(lia) ltac:(lia)).
  destruct (walk_run es (S (Z.to_nat (36 + Z.of_nat (length (madt_body l f es))))) (a + 44) s1
    (mkHw (hw_cpus h) (hw_ioapic h) (hw_isos h) l (f mod 2))) as (s' & E & Hs' & Hi'); [eapply has_eq; [exact H5|lia]|done| | |].
  - destruct Hs. split; simpl; [done..|]. change 1 with (Z.ones 1). by rewrite Z.land_ones.
  - pose proof (entries_length es Hes). lia.
  - exists s'. unfold SIZEOF_MADT. rewrite Hb in *. split_and!; [|done|done]. rewrite <-E. f_equal. lia.
Qed.
Lemma process_run a t s h : has a (table_bytes t) → table_ok t → shows (acpi_info s) h →
  ∃ s', process_sdt mem a s = Done tt s' ∧ acpi_initialized s' = acpi_initialized s ∧ shows (acpi_info s') (learn h t).
Proof.
  intros Hh Ht Hs. assert (∃ sig rest body, table_bytes t = sdt sig rest body ∧ length sig = 4%nat ∧ length rest = 28%nat) as (sig & rest & body & E & Hsig & Hrest).
  { destruct t; destruct Ht as [_ Ht]; simpl; naive_solver. }
  pose proof Ht as [Hlen _]. rewrite E in Hlen, Hh. destruct (sdt_has _ _ _ _ Hh Hsig Hrest) as (H1 & H2 & _).
  rewrite sdt_length in Hlen by done. unfold process_sdt. kbind (rd_has (a + 4) 4 _ s H2 ltac:(lia) ltac:(lia)).
  kbind (checksum_run a _ _ s Hh (eq_sym (sdt_length _ _ _ Hsig Hrest))). unfold learn. rewrite E. destruct (sums _); simpl; [|by exists s].
  kbind (rd_bytes_has a sig 4 s H1 ltac:(lia)). rewrite <-E in Hh. destruct t as [rest' l f es|sig' rest' body'].
  - change (sdt sig_apic rest' (madt_body l f es) = sdt sig rest body) in E. apply (f_equal (take 4)) in E. rewrite !sdt_sig in E by done.
    rewrite <-E, decide_True by done. by eapply parse_madt_run.
  - change (sdt sig' rest' body' = sdt sig rest body) in E. destruct Ht as (_ & _ & Hs4 & Hne).
    apply (f_equal (take 4)) in E. rewrite !sdt_sig in E by done. rewrite <-E, decide_False by done. by exists s.
Qed.
Lemma has_nth w addrs base i a : 0 ≤ w → has base (concat (le_bytes w <$> addrs)) → addrs !! i = Some a →
  has (base + w * Z.of_nat i) (le_bytes w a).
Proof.
  intros Hw. revert base i. induction addrs as [|x addrs IH]; intros base i Hh Hi; [done|]. csimpl in Hh. apply has_app in Hh as [H1 H2].
  rewrite le_bytes_length, Z2Nat.id in H2 by lia. destruct i as [|i]; simpl in Hi.
  - injection Hi as ->. by rewrite Z.mul_0_r, Z.add_0_r.
  - apply (has_eq (base + w + w * Z.of_nat i)); [by apply IH|lia].
Qed.
Lemma addresses_length w l : 0 ≤ w → Z.of_nat (length (concat (le_bytes w <$> l))) = w * Z.of_nat (length l).
Proof. intros Hw. induction l as [|x l IH]; csimpl; [lia|]. rewrite length_app, le_bytes_length by done. lia. Qed.
(** The tables that a root table names. *)
Definition names (addrs : list Z) (ts : list Table) : Prop := Forall2 (λ a t, has a (table_bytes t) ∧ table_ok t) addrs ts.
Lemma root_run w phys sig rest addrs ts s h : w = 4 ∨ w = 8 → length sig = 4%nat → length rest = 28%nat →
  has phys (sdt sig rest (concat (le_bytes w <$> addrs))) → sums (sdt sig rest (concat (le_bytes w <$> addrs))) = true →
  36 + w * Z.of_nat (length addrs) < 2 ^ 32 → Forall (λ a, 0 ≤ a < 2 ^ (8 * w)) addrs → names addrs ts → shows (acpi_info s) h →
  ∃ s', acpi_root mem phys w sig s = Done 0 s' ∧ acpi_initialized s' = 1 ∧ shows (acpi_info s') (foldl learn h ts).
Proof.
  intros Hw Hsig Hrest Hh Hsum Hlen Hall Hn Hs. destruct (sdt_has _ _ _ _ Hh Hsig Hrest) as (H1 & H2 & H3).
  pose proof (addresses_length w addrs ltac:(lia)) as Hl. unfold acpi_root. kbind (rd_bytes_has phys sig 4 s H1 ltac:(lia)).
  rewrite bool_decide_true by done. cbn [negb]. rewrite Hl in H2. kbind (rd_has (phys + 4) 4 _ s H2 ltac:(lia) ltac:(lia)).
  assert (36 + w * Z.of_nat (length addrs) = Z.of_nat (length (sdt sig rest (concat (le_bytes w <$> addrs))))) as Hls by (rewrite sdt_length by done; lia).
  kbind (checksum_run phys _ _ s Hh Hls). rewrite Hsum. cbn [negb]. unfold SIZEOF_SDT_HEADER.
  replace (u32 _) with (Z.of_nat (length addrs)).
  2: { rewrite u64_small by lia. replace (36 + w * Z.of_nat (length addrs) - 36) with (Z.of_nat (length addrs) * w) by lia. rewrite Z.div_mul, u32_small by lia. done. }
  destruct (kfor_seqZ_ind (λ i s', shows (acpi_info s') (foldl learn h (take (Z.to_nat i) ts)))
    (λ i, a ← rd mem (phys + 36 + w * i) w; process_sdt mem a) 0 (Z.of_nat (length addrs)) s) as (s1 & E & Hs1); [lia|done| |].
  - intros i s1 Hi Hs1. destruct (lookup_lt_is_Some_2 addrs (Z.to_nat i)) as (a & Ha); [lia|].
    destruct (Forall2_lookup_l _ _ _ _ _ Hn Ha) as (t & Ht & Hat & Hok).
    pose proof (has_nth w addrs (phys + 36) (Z.to_nat i) a ltac:(lia) H3 Ha) as Hrd. rewrite Z2Nat.id in Hrd by lia.
    pose proof (Forall_lookup_1 _ _ _ _ Hall Ha) as Hra. kbind (rd_has _ w a s1 Hrd ltac:(lia) Hra).
    destruct (process_run a t s1 _ Hat Hok Hs1) as (s2 & E2 & _ & Hs2). exists s2. split; [done|].
    replace (Z.to_nat (i + 1)) with (S (Z.to_nat i)) by lia. by rewrite (take_S_r _ _ _ Ht), foldl_app.
  - kbind E. rewrite kmod_bind. eexists. split_and!; [done|done|]. simpl. rewrite Z.add_0_l, Nat2Z.id in Hs1.
    pose proof (Forall2_length _ _ _ Hn). by rewrite take_ge in Hs1 by lia.
Qed.

(** ** The root pointer *)

Record Rsdp : Type := mkRsdp { rp_check : Z; rp_oem : list Z; rp_revision : Z; rp_rsdt : Z; rp_xsdt : Z; rp_tail : list Z }.
Definition rsdp1 (p : Rsdp) : list Z := sig_rsdp ++ [rp_check p] ++ rp_oem p ++ [rp_revision p] ++ le_bytes 4 (rp_rsdt p).
(** The second part is there from revision 2 on. *)
Definition rsdp_bytes (p : Rsdp) : list Z :=
  rsdp1 p ++ (if 2 <=? rp_revision p then le_bytes 4 36 ++ le_bytes 8 (rp_xsdt p) ++ rp_tail p else []).
Record rsdp_ok (p : Rsdp) : Prop := {
  ro_oem : length (rp_oem p) = 6%nat;
  ro_tail : length (rp_tail p) = 4%nat;
  ro_rsdt : 0 ≤ rp_rsdt p < 2 ^ 32;
  ro_xsdt : 0 ≤ rp_xsdt p < 2 ^ 64;
  ro_sum1 : sums (rsdp1 p) = true;
  ro_sum2 : 2 ≤ rp_revision p → sums (rsdp_bytes p) = true;
}.
(** The table to use: its width and address. *)
Definition rp_root (p : Rsdp) : Z * Z := if (2 <=? rp_revision p) && negb (rp_xsdt p =? 0) then (8, rp_xsdt p) else (4, rp_rsdt p).

Lemma rsdp_fields a p : has a (rsdp_bytes p) → rsdp_ok p →
  has a sig_rsdp ∧ has a (rsdp1 p) ∧ mem (a + 15) = Some (rp_revision p) ∧ has (a + 16) (le_bytes 4 (rp_rsdt p)) ∧
  (2 ≤ rp_revision p → has (a + 20) (le_bytes 4 36) ∧ has (a + 24) (le_bytes 8 (rp_xsdt p)) ∧ Z.of_nat (length (rsdp_bytes p)) = 36) ∧
  Z.of_nat (length (rsdp1 p)) = 20.
Proof.
  intros Hh [Ho Ht _ _ _ _]. unfold rsdp_bytes in Hh. apply has_app in Hh as [H1 H2].
  assert (length (rsdp1 p) = 20%nat) as Hl by (unfold rsdp1; rewrite !length_app, le_bytes_length, Ho by lia; done).
  rewrite Hl in H2. pose proof H1 as H1'. unfold rsdp1 in H1'. apply has_app in H1' as [Hsig [_ [_ [Hrev Hrs]%has_app]%has_app]%has_app].
  rewrite Ho in Hrev, Hrs. split_and!; [done|done| | | |by rewrite Hl].
  - replace (a + 15) with (a + Z.of_nat (length sig_rsdp) + Z.of_nat 1 + Z.of_nat 6 + Z.of_nat 0) by (simpl; lia). by apply Hrev.
  - eapply has_eq; [exact Hrs|simpl; lia].
  - intros Hr. unfold rsdp_bytes. replace (2 <=? rp_revision p) with true in * by lia. apply has_app in H2 as [H2 [H3 _]%has_app].
    split_and!; [eapply has_eq; [exact H2|lia]|eapply has_eq; [exact H3|rewrite le_bytes_length; lia]|].
    rewrite length_app, Hl, !length_app, !le_bytes_length, Ht by lia. lia.
Qed.
Lemma init_lemma a p sig rest addrs ts s : a ≠ 0 → has a (rsdp_bytes p) → rsdp_ok p →
  let '(w, root) := rp_root p in
  root ≠ 0 → sig = (if w =? 8 then sig_xsdt else sig_rsdt) → length rest = 28%nat →
  has root (sdt sig rest (concat (le_bytes w <$> addrs))) → sums (sdt sig rest (concat (le_bytes w <$> addrs))) = true →
  36 + w * Z.of_nat (length addrs) < 2 ^ 32 → Forall (λ a, 0 ≤ a < 2 ^ (8 * w)) addrs → names addrs ts →
  ∃ s', acpi_init mem a s = Done 0 s' ∧ acpi_get_info s' = Some (acpi_info s') ∧ shows (acpi_info s') (foldl learn no_hardware ts).
Proof.
  intros Ha Hh Hp. destruct (rp_root p) as [w root] eqn:Er. intros Hr0 -> Hrest Hroot Hsum Hlen Hall Hn.
  destruct (rsdp_fields a p Hh Hp) as (F1 & F2 & F3 & F4 & F5 & F6).
  assert (∃ s', acpi_root mem root w (if w =? 8 then sig_xsdt else sig_rsdt) (mkAcpi zero_info (acpi_initialized s)) = Done 0 s' ∧
    acpi_initialized s' = 1 ∧ shows (acpi_info s') (foldl learn no_hardware ts)) as (s' & E & Hi & Hs).
  { apply (root_run w root _ rest addrs); [unfold rp_root in Er; destruct (_ && _); naive_solver|by destruct (w =? 8)|done..|].
    split; simpl; [|done| |done|done]; (split; [done|]); eexists; by split. }
  exists s'. unfold acpi_get_info. rewrite Hi. split_and!; [|done|done]. unfold acpi_init.
  destruct (Z.eqb_spec a 0); [done|]. rewrite kmod_bind. set (s0 := mkAcpi _ _) in *. kbind (rd_bytes_has a sig_rsdp 8 s0 F1 eq_refl).
  rewrite bool_decide_true by done. cbn [negb]. kbind (checksum_run a _ 20 s0 F2 (eq_sym F6)). rewrite (ro_sum1 _ Hp). cbn [negb].
  kbind (rd_byte (a + 15) _ s0 F3). unfold rp_root in Er. destruct (Z.leb_spec 2 (rp_revision p)) as [Hv|Hv]; simpl in Er.
  - destruct F5 as (G1 & G2 & G3); [done|]. kbind (rd_has (a + 20) 4 36 s0 G1 ltac:(lia) ltac:(lia)).
    kbind (checksum_run a _ 36 s0 Hh (eq_sym G3)). rewrite (ro_sum2 _ Hp Hv). cbn [negb].
    kbind (rd_has (a + 24) 8 _ s0 G2 ltac:(lia) (ro_xsdt _ Hp)). destruct (Z.eqb_spec (rp_xsdt p) 0); simpl in Er |- *; simplify_eq/=; [|done].
    kbind (rd_has (a + 16) 4 _ s0 F4 ltac:(lia) (ro_rsdt _ Hp)). by destruct (Z.eqb_spec (rp_rsdt p) 0).
  - simplify_eq. kbind (rd_has (a + 16) 4 _ s0 F4 ltac:(lia) (ro_rsdt _ Hp)). by destruct (Z.eqb_spec (rp_rsdt p) 0).
Qed.
End memory.

(** C39. ACPI discovery learns what the firmware says: when memory has a root pointer with correct sums, a root table (the XSDT from revision 2
    on when there is one, and otherwise the RSDT) and the tables that it names, [acpi_init] returns 0 and its record has the enabled processors
    and the overrides of the MADTs with correct sums, in order and up to 16 of each, and the last addresses given for the interrupt controllers;
    tables with a wrong sum, other tables and entries of other types are passed over. *)
Theorem acpi_init_correct mem a p sig rest addrs ts s : a ≠ 0 → has mem a (rsdp_bytes p) → rsdp_ok p →
  let '(w, root) := rp_root p in
  root ≠ 0 → sig = (if w =? 8 then sig_xsdt else sig_rsdt) → length rest = 28%nat →
  has mem root (sdt sig rest (concat (le_bytes w <$> addrs))) → sums (sdt sig rest (concat (le_bytes w <$> addrs))) = true →
  36 + w * Z.of_nat (length addrs) < 2 ^ 32 → Forall (λ a, 0 ≤ a < 2 ^ (8 * w)) addrs → names mem addrs ts →
  ∃ s', acpi_init mem a s = Done 0 s' ∧ acpi_get_info s' = Some (acpi_info s') ∧ shows (acpi_info s') (foldl learn no_hardware ts).
Proof. apply init_lemma. Qed.

(** ** Witness *)

Definition place (a : Z) (l : list Z) (m : Z → option Z) : Z → option Z :=
  λ x, if (a <=? x) && (x <? a + Z.of_nat (length l)) then l !! Z.to_nat (x - a) else m x.
Definition check_byte (l : list Z) : Z := (- foldr Z.add 0 l) mod 256.
Definition rest_for (sig body : list Z) : list Z := [1; check_byte (sdt sig ([1; 0] ++ replicate 26 0) body)] ++ replicate 26 0.
(** Two processors of which one is disabled, an I/O controller and an override. *)
Definition madt_example : Table :=
  let es := [LocalApic 0 3 1; LocalApic 1 4 0; IoApic 2 0xFEC00000 0; Iso 0 0 2 5; OtherEntry 4 [255; 0; 0; 1]] in
  Madt (rest_for sig_apic (madt_body 0xFEE00000 1 es)) 0xFEE00000 1 es.
Definition rsdt_rest : list Z := rest_for sig_rsdt (concat (le_bytes 4 <$> [0x3000])).
Definition rsdp_example : Rsdp := mkRsdp (check_byte (rsdp1 (mkRsdp 0 (replicate 6 65) 0 0x2000 0 []))) (replicate 6 65) 0 0x2000 0 [0; 0; 0; 0].
Definition firmware_example : Z → option Z :=
  place 0x1000 (rsdp_bytes rsdp_example) (place 0x2000 (sdt sig_rsdt rsdt_rest (concat (le_bytes 4 <$> [0x3000])))
    (place 0x3000 (table_bytes madt_example) (λ _, None))).
Lemma has_check mem a l : forallb (λ i, bool_decide (mem (a + Z.of_nat i) = l !! i)) (seq 0 (length l)) = true → has mem a l.
Proof.
  intros Hf i v Hi. rewrite <-Hi. rewrite forallb_forall in Hf. specialize (Hf i).
  rewrite bool_decide_eq_true in Hf. apply Hf, in_seq. apply lookup_lt_Some in Hi. lia.
Qed.
Lemma acpi_init_correct_witness : ∃ s', acpi_init firmware_example 0x1000 (mkAcpi zero_info 0) = Done 0 s' ∧
  shows (acpi_info s') (mkHw [3] (2, 0xFEC00000) [mkIso 2 10 0 0 2 5] 0xFEE00000 1).
Proof.
  destruct (acpi_init_correct firmware_example 0x1000 rsdp_example sig_rsdt rsdt_rest [0x3000] [madt_example] (mkAcpi zero_info 0)) as (s' & E & _ & Hs).
  - discriminate.
  - apply has_check. vm_compute. reflexivity.
  - split; vm_compute; try done; congruence.
  - discriminate.
  - reflexivity.
  - reflexivity.
  - apply has_check. vm_compute. reflexivity.
  - vm_compute. reflexivity.
  - vm_compute. reflexivity.
  - constructor; [split; [discriminate|reflexivity]|constructor].
  - constructor; [|constructor]. split; [apply has_check; vm_compute; reflexivity|]. split; [vm_compute; reflexivity|].
    split; [vm_compute; reflexivity|]. split; [done|]. split; [done|]. repeat constructor; set_solver by lia.
  - exists s'. split; [exact E|exact Hs].
Defined.

(** An entry for a processor of only two bytes, as the length says, is read to its eighth byte: the fields come from what follows, here the
    next entry, and a processor is recorded that no entry describes. *)
Lemma short_entry_read_on :
  let mem := place 0x3044 ([0; 2] ++ encode (OtherEntry 9 [1; 0; 0; 0])) (λ _, None) in
  match madt_walk mem 10 0x3044 (0x3044 + 8) (mkAcpi zero_info 0) with
  | Done _ s => cpu_count (acpi_info s) = 1 ∧ cpu_apic_ids (acpi_info s) !! 0%nat = Some 6
  | _ => False
  end.
Proof. vm_compute. done. Qed.
(** A length of less than 36 in the root table wraps: the loop goes over more than four thousand million entries. *)
Lemma short_root_table_wraps : u32 (u64 (20 - SIZEOF_SDT_HEADER) / 8) = 2 ^ 32 - 2.
Proof. done. Qed.
