(* ===== verification/Font.v ===== *)
(** * The console font

    The bitmaps of [kernel/drivers/font8x16.c]: 128 glyphs of 16 rows, one byte per
    row, the most significant bit being the leftmost pixel. *)
From S2P Require Import Prelude.

Definition FONT_WIDTH : Z := 8.
Definition FONT_HEIGHT : Z := 16.

Definition font8x16_data : list (list Z) := [
  [0; 0; 0; 0; 0; 0; 0; 0; 0; 0; 0; 0; 0; 0; 0; 0];
  [0; 0; 0x7E; 0x81; 0xA5; 0x81; 0x81; 0xBD; 0x99; 0x81; 0x81; 0x7E; 0; 0; 0; 0];
  [0; 0; 0x7E; 0xFF; 0xDB; 0xFF; 0xFF; 0xC3; 0xE7; 0xFF; 0xFF; 0x7E; 0; 0; 0; 0];
  [0; 0; 0; 0; 0x6C; 0xFE; 0xFE; 0xFE; 0xFE; 0x7C; 0x38; 0x10; 0; 0; 0; 0];
  [0; 0; 0; 0; 0x10; 0x38; 0x7C; 0xFE; 0x7C; 0x38; 0x10; 0; 0; 0; 0; 0];
  [0; 0; 0; 0x18; 0x3C; 0x3C; 0xE7; 0xE7; 0xE7; 0x18; 0x18; 0x3C; 0; 0; 0; 0];
  [0; 0; 0; 0x18; 0x3C; 0x7E; 0xFF; 0xFF; 0x7E; 0x18; 0x18; 0x3C; 0; 0; 0; 0];
  [0; 0; 0; 0; 0; 0; 0x18; 0x3C; 0x3C; 0x18; 0; 0; 0; 0; 0; 0];
  [0xFF; 0xFF; 0xFF; 0xFF; 0xFF; 0xFF; 0xE7; 0xC3; 0xC3; 0xE7; 0xFF; 0xFF; 0xFF; 0xFF; 0xFF; 0xFF];
  [0; 0; 0; 0; 0; 0x3C; 0x66; 0x42; 0x42; 0x66; 0x3C; 0; 0; 0; 0; 0];
  [0xFF; 0xFF; 0xFF; 0xFF; 0xFF; 0xC3; 0x99; 0xBD; 0xBD; 0x99; 0xC3; 0xFF; 0xFF; 0xFF; 0xFF; 0xFF];
  [0; 0; 0x1E; 0x0E; 0x1A; 0x32; 0x78; 0xCC; 0xCC; 0xCC; 0xCC; 0x78; 0; 0; 0; 0];
  [0; 0; 0x3C; 0x66; 0x66; 0x66; 0x66; 0x3C; 0x18; 0x7E; 0x18; 0x18; 0; 0; 0; 0];
  [0; 0; 0x3F; 0x33; 0x3F; 0x30; 0x30; 0x30; 0x30; 0x70; 0xF0; 0xE0; 0; 0; 0; 0];
  [0; 0; 0x7F; 0x63; 0x7F; 0x63; 0x63; 0x63; 0x63; 0x67; 0xE7; 0xE6; 0xC0; 0; 0; 0];
  [0; 0; 0; 0x18; 0x18; 0xDB; 0x3C; 0xE7; 0x3C; 0xDB; 0x18; 0x18; 0; 0; 0; 0];
  [0; 0x80; 0xC0; 0xE0; 0xF0; 0xF8; 0xFE; 0xF8; 0xF0; 0xE0; 0xC0; 0x80; 0; 0; 0; 0];
  [0; 0x02; 0x06; 0x0E; 0x1E; 0x3E; 0xFE; 0x3E; 0x1E; 0x0E; 0x06; 0x02; 0; 0; 0; 0];
  [0; 0; 0x18; 0x3C; 0x7E; 0x18; 0x18; 0x18; 0x7E; 0x3C; 0x18; 0; 0; 0; 0; 0];
  [0; 0; 0x66; 0x66; 0x66; 0x66; 0x66; 0x66; 0x66; 0; 0x66; 0x66; 0; 0; 0; 0];
  [0; 0; 0x7F; 0xDB; 0xDB; 0xDB; 0x7B; 0x1B; 0x1B; 0x1B; 0x1B; 0x1B; 0; 0; 0; 0];
  [0; 0x7C; 0xC6; 0x60; 0x38; 0x6C; 0xC6; 0xC6; 0x6C; 0x38; 0x0C; 0xC6; 0x7C; 0; 0; 0];
  [0; 0; 0; 0; 0; 0; 0; 0; 0xFE; 0xFE; 0xFE; 0xFE; 0; 0; 0; 0];
  [0; 0; 0x18; 0x3C; 0x7E; 0x18; 0x18; 0x18; 0x7E; 0x3C; 0x18; 0x7E; 0; 0; 0; 0];
  [0; 0; 0x18; 0x3C; 0x7E; 0x18; 0x18; 0x18; 0x18; 0x18; 0x18; 0x18; 0; 0; 0; 0];
  [0; 0; 0x18; 0x18; 0x18; 0x18; 0x18; 0x18; 0x18; 0x7E; 0x3C; 0x18; 0; 0; 0; 0];
  [0; 0; 0; 0; 0; 0x18; 0x0C; 0xFE; 0x0C; 0x18; 0; 0; 0; 0; 0; 0];
  [0; 0; 0; 0; 0; 0x30; 0x60; 0xFE; 0x60; 0x30; 0; 0; 0; 0; 0; 0];
  [0; 0; 0; 0; 0; 0; 0xC0; 0xC0; 0xC0; 0xFE; 0; 0; 0; 0; 0; 0];
  [0; 0; 0; 0; 0; 0x24; 0x66; 0xFF; 0x66; 0x24; 0; 0; 0; 0; 0; 0];
  [0; 0; 0; 0; 0x10; 0x38; 0x38; 0x7C; 0x7C; 0xFE; 0xFE; 0; 0; 0; 0; 0];
  [0; 0; 0; 0; 0xFE; 0xFE; 0x7C; 0x7C; 0x38; 0x38; 0x10; 0; 0; 0; 0; 0];
  [0; 0; 0; 0; 0; 0; 0; 0; 0; 0; 0; 0; 0; 0; 0; 0];
  [0; 0; 0x18; 0x3C; 0x3C; 0x3C; 0x18; 0x18; 0x18; 0; 0x18; 0x18; 0; 0; 0; 0];
  [0; 0x63; 0x63; 0x63; 0x22; 0; 0; 0; 0; 0; 0; 0; 0; 0; 0; 0];
  [0; 0; 0; 0x36; 0x36; 0x7F; 0x36; 0x36; 0x7F; 0x36; 0x36; 0; 0; 0; 0; 0];
  [0x0C; 0x0C; 0x3E; 0x63; 0x61; 0x60; 0x3E; 0x03; 0x03; 0x43; 0x63; 0x3E; 0x0C; 0x0C; 0; 0];
  [0; 0; 0; 0; 0x43; 0x63; 0x06; 0x0C; 0x18; 0x30; 0x63; 0x61; 0; 0; 0; 0];
  [0; 0; 0x1C; 0x36; 0x36; 0x1C; 0x6E; 0x3B; 0x33; 0x33; 0x33; 0x6E; 0; 0; 0; 0];
  [0; 0x0C; 0x0C; 0x0C; 0x06; 0; 0; 0; 0; 0; 0; 0; 0; 0; 0; 0];
  [0; 0; 0x0C; 0x18; 0x30; 0x30; 0x30; 0x30; 0x30; 0x30; 0x18; 0x0C; 0; 0; 0; 0];
  [0; 0; 0x30; 0x18; 0x0C; 0x0C; 0x0C; 0x0C; 0x0C; 0x0C; 0x18; 0x30; 0; 0; 0; 0];
  [0; 0; 0; 0; 0; 0x66; 0x3C; 0xFF; 0x3C; 0x66; 0; 0; 0; 0; 0; 0];
  [0; 0; 0; 0; 0; 0x18; 0x18; 0x7E; 0x18; 0x18; 0; 0; 0; 0; 0; 0];
  [0; 0; 0; 0; 0; 0; 0; 0; 0; 0x18; 0x18; 0x18; 0x0C; 0; 0; 0];
  [0; 0; 0; 0; 0; 0; 0; 0xFE; 0; 0; 0; 0; 0; 0; 0; 0];
  [0; 0; 0; 0; 0; 0; 0; 0; 0; 0; 0x18; 0x18; 0; 0; 0; 0];
  [0; 0; 0; 0; 0x01; 0x03; 0x06; 0x0C; 0x18; 0x30; 0x60; 0xC0; 0x80; 0; 0; 0];
  [0; 0; 0x3C; 0x66; 0xC3; 0xC3; 0xDB; 0xDB; 0xC3; 0xC3; 0x66; 0x3C; 0; 0; 0; 0];
  [0; 0; 0x18; 0x38; 0x78; 0x18; 0x18; 0x18; 0x18; 0x18; 0x18; 0x7E; 0; 0; 0; 0];
  [0; 0; 0x7C; 0xC6; 0x06; 0x0C; 0x18; 0x30; 0x60; 0xC0; 0xC6; 0xFE; 0; 0; 0; 0];
  [0; 0; 0x7C; 0xC6; 0x06; 0x06; 0x3C; 0x06; 0x06; 0x06; 0xC6; 0x7C; 0; 0; 0; 0];
  [0; 0; 0x0C; 0x1C; 0x3C; 0x6C; 0xCC; 0xFE; 0x0C; 0x0C; 0x0C; 0x1E; 0; 0; 0; 0];
  [0; 0; 0xFE; 0xC0; 0xC0; 0xC0; 0xFC; 0x06; 0x06; 0x06; 0xC6; 0x7C; 0; 0; 0; 0];
  [0; 0; 0x38; 0x60; 0xC0; 0xC0; 0xFC; 0xC6; 0xC6; 0xC6; 0xC6; 0x7C; 0; 0; 0; 0];
  [0; 0; 0xFE; 0xC6; 0x06; 0x06; 0x0C; 0x18; 0x30; 0x30; 0x30; 0x30; 0; 0; 0; 0];
  [0; 0; 0x7C; 0xC6; 0xC6; 0xC6; 0x7C; 0xC6; 0xC6; 0xC6; 0xC6; 0x7C; 0; 0; 0; 0];
  [0; 0; 0x7C; 0xC6; 0xC6; 0xC6; 0x7E; 0x06; 0x06; 0x06; 0x0C; 0x78; 0; 0; 0; 0];
  [0; 0; 0; 0; 0x18; 0x18; 0; 0; 0; 0x18; 0x18; 0; 0; 0; 0; 0];
  [0; 0; 0; 0; 0x18; 0x18; 0; 0; 0; 0x18; 0x18; 0x0C; 0; 0; 0; 0];
  [0; 0; 0; 0x06; 0x0C; 0x18; 0x30; 0x60; 0x30; 0x18; 0x0C; 0x06; 0; 0; 0; 0];
  [0; 0; 0; 0; 0; 0x7E; 0; 0; 0x7E; 0; 0; 0; 0; 0; 0; 0];
  [0; 0; 0; 0x60; 0x30; 0x18; 0x0C; 0x06; 0x0C; 0x18; 0x30; 0x60; 0; 0; 0; 0];
  [0; 0; 0x7C; 0xC6; 0xC6; 0x0C; 0x18; 0x18; 0x18; 0; 0x18; 0x18; 0; 0; 0; 0];
  [0; 0; 0; 0x7C; 0xC6; 0xC6; 0xDE; 0xDE; 0xDE; 0xDC; 0xC0; 0x7C; 0; 0; 0; 0];
  [0; 0; 0x10; 0x38; 0x6C; 0xC6; 0xC6; 0xFE; 0xC6; 0xC6; 0xC6; 0xC6; 0; 0; 0; 0];
  [0; 0; 0xFC; 0x66; 0x66; 0x66; 0x7C; 0x66; 0x66; 0x66; 0x66; 0xFC; 0; 0; 0; 0];
  [0; 0; 0x3C; 0x66; 0xC2; 0xC0; 0xC0; 0xC0; 0xC0; 0xC2; 0x66; 0x3C; 0; 0; 0; 0];
  [0; 0; 0xF8; 0x6C; 0x66; 0x66; 0x66; 0x66; 0x66; 0x66; 0x6C; 0xF8; 0; 0; 0; 0];
  [0; 0; 0xFE; 0x66; 0x62; 0x68; 0x78; 0x68; 0x60; 0x62; 0x66; 0xFE; 0; 0; 0; 0];
  [0; 0; 0xFE; 0x66; 0x62; 0x68; 0x78; 0x68; 0x60; 0x60; 0x60; 0xF0; 0; 0; 0; 0];
  [0; 0; 0x3C; 0x66; 0xC2; 0xC0; 0xC0; 0xDE; 0xC6; 0xC6; 0x66; 0x3A; 0; 0; 0; 0];
  [0; 0; 0xC6; 0xC6; 0xC6; 0xC6; 0xFE; 0xC6; 0xC6; 0xC6; 0xC6; 0xC6; 0; 0; 0; 0];
  [0; 0; 0x3C; 0x18; 0x18; 0x18; 0x18; 0x18; 0x18; 0x18; 0x18; 0x3C; 0; 0; 0; 0];
  [0; 0; 0x1E; 0x0C; 0x0C; 0x0C; 0x0C; 0x0C; 0xCC; 0xCC; 0xCC; 0x78; 0; 0; 0; 0];
  [0; 0; 0xE6; 0x66; 0x66; 0x6C; 0x78; 0x78; 0x6C; 0x66; 0x66; 0xE6; 0; 0; 0; 0];
  [0; 0; 0xF0; 0x60; 0x60; 0x60; 0x60; 0x60; 0x60; 0x62; 0x66; 0xFE; 0; 0; 0; 0];
  [0; 0; 0xC6; 0xEE; 0xFE; 0xFE; 0xD6; 0xC6; 0xC6; 0xC6; 0xC6; 0xC6; 0; 0; 0; 0];
  [0; 0; 0xC6; 0xE6; 0xF6; 0xFE; 0xDE; 0xCE; 0xC6; 0xC6; 0xC6; 0xC6; 0; 0; 0; 0];
  [0; 0; 0x7C; 0xC6; 0xC6; 0xC6; 0xC6; 0xC6; 0xC6; 0xC6; 0xC6; 0x7C; 0; 0; 0; 0];
  [0; 0; 0xFC; 0x66; 0x66; 0x66; 0x7C; 0x60; 0x60; 0x60; 0x60; 0xF0; 0; 0; 0; 0];
  [0; 0; 0x7C; 0xC6; 0xC6; 0xC6; 0xC6; 0xC6; 0xC6; 0xD6; 0xDE; 0x7C; 0x0C; 0x0E; 0; 0];
  [0; 0; 0xFC; 0x66; 0x66; 0x66; 0x7C; 0x6C; 0x66; 0x66; 0x66; 0xE6; 0; 0; 0; 0];
  [0; 0; 0x7C; 0xC6; 0xC6; 0x60; 0x38; 0x0C; 0x06; 0xC6; 0xC6; 0x7C; 0; 0; 0; 0];
  [0; 0; 0xFF; 0xDB; 0x99; 0x18; 0x18; 0x18; 0x18; 0x18; 0x18; 0x3C; 0; 0; 0; 0];
  [0; 0; 0xC6; 0xC6; 0xC6; 0xC6; 0xC6; 0xC6; 0xC6; 0xC6; 0xC6; 0x7C; 0; 0; 0; 0];
  [0; 0; 0xC6; 0xC6; 0xC6; 0xC6; 0xC6; 0xC6; 0xC6; 0x6C; 0x38; 0x10; 0; 0; 0; 0];
  [0; 0; 0xC6; 0xC6; 0xC6; 0xC6; 0xD6; 0xD6; 0xD6; 0xFE; 0xEE; 0x6C; 0; 0; 0; 0];
  [0; 0; 0xC6; 0xC6; 0x6C; 0x7C; 0x38; 0x38; 0x7C; 0x6C; 0xC6; 0xC6; 0; 0; 0; 0];
  [0; 0; 0xCC; 0xCC; 0xCC; 0xCC; 0x78; 0x30; 0x30; 0x30; 0x30; 0x78; 0; 0; 0; 0];
  [0; 0; 0xFE; 0xC6; 0x86; 0x0C; 0x18; 0x30; 0x60; 0xC2; 0xC6; 0xFE; 0; 0; 0; 0];
  [0; 0; 0x3C; 0x30; 0x30; 0x30; 0x30; 0x30; 0x30; 0x30; 0x30; 0x3C; 0; 0; 0; 0];
  [0; 0; 0; 0x80; 0xC0; 0xE0; 0x70; 0x38; 0x1C; 0x0E; 0x06; 0x02; 0; 0; 0; 0];
  [0; 0; 0x3C; 0x0C; 0x0C; 0x0C; 0x0C; 0x0C; 0x0C; 0x0C; 0x0C; 0x3C; 0; 0; 0; 0];
  [0x10; 0x38; 0x6C; 0xC6; 0; 0; 0; 0; 0; 0; 0; 0; 0; 0; 0; 0];
  [0; 0; 0; 0; 0; 0; 0; 0; 0; 0; 0; 0; 0xFF; 0; 0; 0];
  [0x30; 0x30; 0x18; 0; 0; 0; 0; 0; 0; 0; 0; 0; 0; 0; 0; 0];
  [0; 0; 0; 0; 0; 0x78; 0x0C; 0x7C; 0xCC; 0xCC; 0xCC; 0x76; 0; 0; 0; 0];
  [0; 0; 0xE0; 0x60; 0x60; 0x78; 0x6C; 0x66; 0x66; 0x66; 0x66; 0x7C; 0; 0; 0; 0];
  [0; 0; 0; 0; 0; 0x7C; 0xC6; 0xC0; 0xC0; 0xC0; 0xC6; 0x7C; 0; 0; 0; 0];
  [0; 0; 0x1C; 0x0C; 0x0C; 0x3C; 0x6C; 0xCC; 0xCC; 0xCC; 0xCC; 0x76; 0; 0; 0; 0];
  [0; 0; 0; 0; 0; 0x7C; 0xC6; 0xFE; 0xC0; 0xC0; 0xC6; 0x7C; 0; 0; 0; 0];
  [0; 0; 0x38; 0x6C; 0x64; 0x60; 0xF0; 0x60; 0x60; 0x60; 0x60; 0xF0; 0; 0; 0; 0];
  [0; 0; 0; 0; 0; 0x76; 0xCC; 0xCC; 0xCC; 0xCC; 0xCC; 0x7C; 0x0C; 0xCC; 0x78; 0];
  [0; 0; 0xE0; 0x60; 0x60; 0x6C; 0x76; 0x66; 0x66; 0x66; 0x66; 0xE6; 0; 0; 0; 0];
  [0; 0; 0x18; 0x18; 0; 0x38; 0x18; 0x18; 0x18; 0x18; 0x18; 0x3C; 0; 0; 0; 0];
  [0; 0; 0x06; 0x06; 0; 0x0E; 0x06; 0x06; 0x06; 0x06; 0x06; 0x06; 0x66; 0x66; 0x3C; 0];
  [0; 0; 0xE0; 0x60; 0x60; 0x66; 0x6C; 0x78; 0x78; 0x6C; 0x66; 0xE6; 0; 0; 0; 0];
  [0; 0; 0x38; 0x18; 0x18; 0x18; 0x18; 0x18; 0x18; 0x18; 0x18; 0x3C; 0; 0; 0; 0];
  [0; 0; 0; 0; 0; 0xEC; 0xFE; 0xD6; 0xD6; 0xD6; 0xD6; 0xC6; 0; 0; 0; 0];
  [0; 0; 0; 0; 0; 0xDC; 0x66; 0x66; 0x66; 0x66; 0x66; 0x66; 0; 0; 0; 0];
  [0; 0; 0; 0; 0; 0x7C; 0xC6; 0xC6; 0xC6; 0xC6; 0xC6; 0x7C; 0; 0; 0; 0];
  [0; 0; 0; 0; 0; 0xDC; 0x66; 0x66; 0x66; 0x66; 0x66; 0x7C; 0x60; 0x60; 0xF0; 0];
  [0; 0; 0; 0; 0; 0x76; 0xCC; 0xCC; 0xCC; 0xCC; 0xCC; 0x7C; 0x0C; 0x0C; 0x1E; 0];
  [0; 0; 0; 0; 0; 0xDC; 0x76; 0x66; 0x60; 0x60; 0x60; 0xF0; 0; 0; 0; 0];
  [0; 0; 0; 0; 0; 0x7C; 0xC6; 0x60; 0x38; 0x0C; 0xC6; 0x7C; 0; 0; 0; 0];
  [0; 0; 0x10; 0x30; 0x30; 0xFC; 0x30; 0x30; 0x30; 0x30; 0x36; 0x1C; 0; 0; 0; 0];
  [0; 0; 0; 0; 0; 0xCC; 0xCC; 0xCC; 0xCC; 0xCC; 0xCC; 0x76; 0; 0; 0; 0];
  [0; 0; 0; 0; 0; 0xC6; 0xC6; 0xC6; 0xC6; 0xC6; 0x6C; 0x38; 0; 0; 0; 0];
  [0; 0; 0; 0; 0; 0xC6; 0xC6; 0xD6; 0xD6; 0xD6; 0xFE; 0x6C; 0; 0; 0; 0];
  [0; 0; 0; 0; 0; 0xC6; 0x6C; 0x38; 0x38; 0x38; 0x6C; 0xC6; 0; 0; 0; 0];
  [0; 0; 0; 0; 0; 0xC6; 0xC6; 0xC6; 0xC6; 0xC6; 0xC6; 0x7E; 0x06; 0x0C; 0xF8; 0];
  [0; 0; 0; 0; 0; 0xFE; 0xCC; 0x18; 0x30; 0x60; 0xC6; 0xFE; 0; 0; 0; 0];
  [0; 0; 0x0E; 0x18; 0x18; 0x18; 0x70; 0x18; 0x18; 0x18; 0x18; 0x0E; 0; 0; 0; 0];
  [0; 0; 0x18; 0x18; 0x18; 0x18; 0; 0x18; 0x18; 0x18; 0x18; 0x18; 0; 0; 0; 0];
  [0; 0; 0x70; 0x18; 0x18; 0x18; 0x0E; 0x18; 0x18; 0x18; 0x18; 0x70; 0; 0; 0; 0];
  [0; 0; 0x76; 0xDC; 0; 0; 0; 0; 0; 0; 0; 0; 0; 0; 0; 0];
  [0; 0; 0; 0; 0x10; 0x38; 0x6C; 0xC6; 0xC6; 0xFE; 0; 0; 0; 0; 0; 0]
].

Lemma font_length : length font8x16_data = 128%nat.
Proof. vm_compute. reflexivity. Qed.
Lemma font_rows : Forall (λ g, length g = 16%nat ∧ Forall (λ b, 0 ≤ b < 256) g) font8x16_data.
Proof. refine (bool_decide_unpack _ _). vm_compute. exact I. Qed.
Lemma font_glyph ch : ∃ g, zget font8x16_data (Z.land ch 0x7F) = Some g ∧ length g = 16%nat.
Proof.
  assert (0 ≤ Z.land ch 0x7F < 128) as Hr by (change 0x7F with (Z.ones 7); rewrite Z.land_ones by lia; apply Z.mod_pos_bound; lia).
  destruct (zget_lt font8x16_data (Z.land ch 0x7F)) as (g & Hg); [rewrite font_length; lia|].
  exists g. split; [done|]. unfold zget in Hg. destruct (Z.ltb_spec (Z.land ch 0x7F) 0); [lia|].
  by apply (Forall_lookup_1 _ _ _ _ font_rows) in Hg as [? _].
Qed.
(** The space has no pixel set. *)
Lemma font_space : zget font8x16_data 0x20 = Some (replicate 16 0).
Proof. vm_compute. reflexivity. Qed.
