(* ===== verification/FbConsole.v ===== *)
(** * The framebuffer console

    [kernel/drivers/fb_console.c]: a text console drawn pixel by pixel into the
    framebuffer of the boot loader.  Memory is a map from the addresses of buffers
    to their bytes; an access outside a buffer is undefined. *)
From S2P Require Import Prelude Font.

(** [Framebuffer] of [kernel/boot/bootinfo.h]. *)
Record Framebuffer : Type := mkFramebuffer {
  address : Z; width : Z; height : Z; pitch : Z; bpp : Z;
  red_mask_size : Z; red_mask_shift : Z; green_mask_size : Z; green_mask_shift : Z; blue_mask_size : Z; blue_mask_shift : Z;
}.

Record Fb : Type := mkFb {
  buffers : gmap Z (list Z);
  fb_addr : Z; backbuf : Z; render_target : Z;
  fb_width : Z; fb_height : Z; fb_pitch : Z; fb_bpp : Z;
  fb_red_shift : Z; fb_green_shift : Z; fb_blue_shift : Z;
  cols : Z; rows : Z; cur_col : Z; cur_row : Z;
  fg_color : Z; bg_color : Z;
  fb_initialized : Z; fb_dirty : Z;
}.

Definition with_buffers b s := mkFb b (fb_addr s) (backbuf s) (render_target s) (fb_width s) (fb_height s) (fb_pitch s) (fb_bpp s)
  (fb_red_shift s) (fb_green_shift s) (fb_blue_shift s) (cols s) (rows s) (cur_col s) (cur_row s) (fg_color s) (bg_color s) (fb_initialized s) (fb_dirty s).
Definition with_cursor c r s := mkFb (buffers s) (fb_addr s) (backbuf s) (render_target s) (fb_width s) (fb_height s) (fb_pitch s) (fb_bpp s)
  (fb_red_shift s) (fb_green_shift s) (fb_blue_shift s) (cols s) (rows s) c r (fg_color s) (bg_color s) (fb_initialized s) (fb_dirty s).
Definition with_colors f b s := mkFb (buffers s) (fb_addr s) (backbuf s) (render_target s) (fb_width s) (fb_height s) (fb_pitch s) (fb_bpp s)
  (fb_red_shift s) (fb_green_shift s) (fb_blue_shift s) (cols s) (rows s) (cur_col s) (cur_row s) f b (fb_initialized s) (fb_dirty s).
Definition with_dirty d s := mkFb (buffers s) (fb_addr s) (backbuf s) (render_target s) (fb_width s) (fb_height s) (fb_pitch s) (fb_bpp s)
  (fb_red_shift s) (fb_green_shift s) (fb_blue_shift s) (cols s) (rows s) (cur_col s) (cur_row s) (fg_color s) (bg_color s) (fb_initialized s) d.

(** Stores to and loads from the buffer at an address. *)
Definition poke (base off : Z) (b : list Z) : K Fb unit :=
  kupd (λ s, l ← buffers s !! base; l' ← patch l off b; Some (with_buffers (<[base := l']> (buffers s)) s)).
Definition peek (base off n : Z) : K Fb (list Z) := kopt (λ s, l ← buffers s !! base; part l off n).

Definition pack_color (rgb : Z) (s : Fb) : Z :=
  let r := Z.land (Z.shiftr rgb 16) 0xFF in
  let g := Z.land (Z.shiftr rgb 8) 0xFF in
  let b := Z.land rgb 0xFF in
  Z.lor (Z.lor (u32 (Z.shiftl r (fb_red_shift s))) (u32 (Z.shiftl g (fb_green_shift s)))) (u32 (Z.shiftl b (fb_blue_shift s))).

Definition put_pixel (x y color : Z) : K Fb unit :=
  s ← kget id;
  if (fb_width s <=? x) || (fb_height s <=? y) then mret tt else
  let bytes_per_pixel := fb_bpp s / 8 in
  poke (render_target s) (u64 (u64 (y * fb_pitch s) + u32 (x * bytes_per_pixel))) (le_bytes 4 color).

Definition render_glyph (col row ch : Z) : K Fb unit :=
  let px := u32 (col * FONT_WIDTH) in
  let py := u32 (row * FONT_HEIGHT) in
  glyph ← kopt (λ _, zget font8x16_data (Z.land ch 0x7F));
  kfor (seqZ 0 FONT_HEIGHT) (λ gy,
    bits ← kopt (λ _, zget glyph gy);
    kfor (seqZ 0 FONT_WIDTH) (λ gx,
      s ← kget id;
      let color := if negb (Z.land bits (Z.shiftr 0x80 gx) =? 0) then fg_color s else bg_color s in
      put_pixel (u32 (px + gx)) (u32 (py + gy)) color));;
  kmod (with_dirty 1).

Definition clear_cell (col row : Z) : K Fb unit :=
  let px := u32 (col * FONT_WIDTH) in
  let py := u32 (row * FONT_HEIGHT) in
  kfor (seqZ 0 FONT_HEIGHT) (λ gy,
    kfor (seqZ 0 FONT_WIDTH) (λ gx,
      bg ← kget bg_color;
      put_pixel (u32 (px + gx)) (u32 (py + gy)) bg));;
  kmod (with_dirty 1).

Definition scroll_up : K Fb unit :=
  s ← kget id;
  let row_bytes := u64 (fb_pitch s * FONT_HEIGHT) in
  let copy_size := u64 (row_bytes * u32 (rows s - 1)) in
  src ← peek (render_target s) row_bytes copy_size;
  poke (render_target s) 0 src;;
  poke (render_target s) (u64 (row_bytes * u32 (rows s - 1))) (replicate (Z.to_nat row_bytes) 0);;
  kmod (with_dirty 1).

Definition newline : K Fb unit :=
  r ← kget cur_row;
  n ← kget rows;
  kmod (with_cursor 0 (u32 (r + 1)));;
  if n <=? u32 (r + 1) then scroll_up;; kmod (with_cursor 0 (u32 (n - 1))) else mret tt.

Definition fb_console_clear : K Fb unit :=
  s ← kget id;
  if fb_initialized s =? 0 then mret tt else
  poke (render_target s) 0 (replicate (Z.to_nat (u64 (fb_pitch s * fb_height s))) 0);;
  kmod (λ s, with_dirty 1 (with_cursor 0 0 s)).

(** The fields that [fb_console_init] sets. *)
Definition init_fields (fb : Framebuffer) (s : Fb) : Fb :=
  let s1 := mkFb (buffers s) (address fb) 0 (address fb) (width fb) (height fb) (pitch fb) (bpp fb)
    (red_mask_shift fb) (green_mask_shift fb) (blue_mask_shift fb)
    (u32 (width fb / FONT_WIDTH)) (u32 (height fb / FONT_HEIGHT)) 0 0 0 0 1 0 in
  with_colors (pack_color 0xAAAAAA s1) (pack_color 0x000000 s1) s1.
Definition fb_console_init (fb : option Framebuffer) : K Fb Z :=
  match fb with
  | None => mret (-1)
  | Some fb =>
      if (address fb =? 0) || (bpp fb <? 24) then mret (-1) else
      kmod (init_fields fb);;
      fb_console_clear;;
      mret 0
  end.

Definition fb_console_putchar (c : Z) : K Fb unit :=
  s ← kget id;
  if fb_initialized s =? 0 then mret tt else
  if c =? 10 then newline else
  if c =? 13 then kmod (with_cursor 0 (cur_row s)) else
  if c =? 9 then
    let col := Z.land (u32 (cur_col s + 8)) (u32 (Z.lnot 7)) in
    kmod (with_cursor col (cur_row s));;
    if cols s <=? col then newline else mret tt
  else if c =? 8 then
    if 0 <? cur_col s then kmod (with_cursor (cur_col s - 1) (cur_row s));; clear_cell (cur_col s - 1) (cur_row s) else mret tt
  else if (0x20 <=? c) && (c <? 0x7F) then
    render_glyph (cur_col s) (cur_row s) c;;
    kmod (with_cursor (u32 (cur_col s + 1)) (cur_row s));;
    if cols s <=? u32 (cur_col s + 1) then newline else mret tt
  else mret tt.

Definition fb_console_puts (str : list Z) : K Fb unit := kfor str fb_console_putchar.

Definition fb_console_set_colors (fg bg : Z) : K Fb unit := kmod (λ s, with_colors (pack_color fg s) (pack_color bg s) s).
Definition fb_console_get_cursor : K Fb (Z * Z) := kget (λ s, (cur_col s, cur_row s)).
Definition fb_console_set_cursor (col row : Z) : K Fb unit := kmod (λ s,
  with_cursor (if cols s <=? col then u32 (cols s - 1) else col) (if rows s <=? row then u32 (rows s - 1) else row) s).

(** [for (c = a; c < b; c++) clear_cell(c, row)], and the loop with [<=], which has no end at the largest number. *)
Definition clear_cells (a b row : Z) : K Fb unit := kfor (seqZ a (b - a)) (λ c, clear_cell c row).
Definition clear_upto (b row : Z) : K Fb unit := if b =? 2 ^ 32 - 1 then kstuck else clear_cells 0 (b + 1) row.

Definition fb_console_erase_display (mode : Z) : K Fb unit :=
  s ← kget id;
  if fb_initialized s =? 0 then mret tt else
  (if mode =? 2 then
     poke (render_target s) 0 (replicate (Z.to_nat (u64 (fb_pitch s * fb_height s))) 0);;
     kmod (with_cursor 0 0)
   else if mode =? 0 then
     clear_cells (cur_col s) (cols s) (cur_row s);;
     kfor (seqZ (u32 (cur_row s + 1)) (rows s - u32 (cur_row s + 1))) (λ r, clear_cells 0 (cols s) r)
   else if mode =? 1 then
     kfor (seqZ 0 (cur_row s)) (λ r, clear_cells 0 (cols s) r);;
     clear_upto (cur_col s) (cur_row s)
   else mret tt);;
  kmod (with_dirty 1).

Definition fb_console_erase_line (mode : Z) : K Fb unit :=
  s ← kget id;
  if fb_initialized s =? 0 then mret tt else
  (if mode =? 2 then clear_cells 0 (cols s) (cur_row s)
   else if mode =? 0 then clear_cells (cur_col s) (cols s) (cur_row s)
   else if mode =? 1 then clear_upto (cur_col s) (cur_row s)
   else mret tt);;
  kmod (with_dirty 1).

Definition fb_console_flush : K Fb unit :=
  s ← kget id;
  if (fb_initialized s =? 0) || (backbuf s =? 0) || (fb_dirty s =? 0) then mret tt else
  b ← peek (backbuf s) 0 (u64 (fb_pitch s * fb_height s));
  poke (fb_addr s) 0 b;;
  kmod (with_dirty 0).
