(* ===== verification/FbTerm.v ===== *)
(** * The framebuffer console shows a text terminal

    The abstract terminal is a grid of characters with colours and a cursor.  Every
    operation of [FbConsole] keeps the pixels of the framebuffer equal to the
    drawing of the grid. *)
From S2P Require Import Prelude Font FbConsole.

(** ** The terminal *)

Record Cell : Type := mkCell { c_ch : Z; c_fg : Z; c_bg : Z }.
Definition blank : Cell := mkCell 0x20 0 0.

Record Term : Type := mkTerm {
  t_cols : Z; t_rows : Z; t_pack : Z → Z;
  t_col : Z; t_row : Z; t_fg : Z; t_bg : Z;
  grid : Z → Z → Cell;
}.

Definition t_cursor c r t := mkTerm (t_cols t) (t_rows t) (t_pack t) c r (t_fg t) (t_bg t) (grid t).
Definition t_colors fg bg t := mkTerm (t_cols t) (t_rows t) (t_pack t) (t_col t) (t_row t) fg bg (grid t).
Definition t_grid g t := mkTerm (t_cols t) (t_rows t) (t_pack t) (t_col t) (t_row t) (t_fg t) (t_bg t) g.

(** The cells for which [p] holds become [f]. *)
Definition fill (p : Z → Z → bool) (f : Cell) (g : Z → Z → Cell) : Z → Z → Cell := λ c r, if p c r then f else g c r.
Definition erased t : Cell := mkCell 0x20 0 (t_bg t).
Definition t_erase (p : Z → Z → bool) t : Term := t_grid (fill p (erased t) (grid t)) t.

Definition t_newline t : Term :=
  if t_row t + 1 <? t_rows t then t_cursor 0 (t_row t + 1) t
  else t_cursor 0 (t_rows t - 1) (t_grid (λ c r, if r =? t_rows t - 1 then blank else grid t c (r + 1)) t).

Definition t_putchar (c : Z) t : Term :=
  if c =? 10 then t_newline t else
  if c =? 13 then t_cursor 0 (t_row t) t else
  if c =? 9 then
    let col := t_col t / 8 * 8 + 8 in
    if t_cols t <=? col then t_newline t else t_cursor col (t_row t) t
  else if c =? 8 then
    if 0 <? t_col t then t_erase (λ x y, (x =? t_col t - 1) && (y =? t_row t)) (t_cursor (t_col t - 1) (t_row t) t) else t
  else if (0x20 <=? c) && (c <? 0x7F) then
    let t' := t_grid (fill (λ x y, (x =? t_col t) && (y =? t_row t)) (mkCell c (t_fg t) (t_bg t)) (grid t)) t in
    if t_cols t <=? t_col t + 1 then t_newline t' else t_cursor (t_col t + 1) (t_row t) t'
  else t.

Definition t_set_colors (fg bg : Z) t : Term := t_colors (t_pack t fg) (t_pack t bg) t.
Definition t_set_cursor (col row : Z) t : Term := t_cursor (Z.min col (t_cols t - 1)) (Z.min row (t_rows t - 1)) t.

Definition t_erase_display (mode : Z) t : Term :=
  if mode =? 2 then t_cursor 0 0 (t_grid (λ _ _, blank) t) else
  if mode =? 0 then t_erase (λ x y, (t_row t <? y) || (y =? t_row t) && (t_col t <=? x)) t else
  if mode =? 1 then t_erase (λ x y, (y <? t_row t) || (y =? t_row t) && (x <=? t_col t)) t else t.
Definition t_erase_line (mode : Z) t : Term :=
  if mode =? 2 then t_erase (λ _ y, y =? t_row t) t else
  if mode =? 0 then t_erase (λ x y, (y =? t_row t) && (t_col t <=? x)) t else
  if mode =? 1 then t_erase (λ x y, (y =? t_row t) && (x <=? t_col t)) t else t.

(** ** The drawing of a terminal *)

(** The colour of the pixel [gx], [gy] of a cell. *)
Definition cell_pixel (e : Cell) (gx gy : Z) : Z :=
  let bits := default 0 (zget font8x16_data (Z.land (c_ch e) 0x7F) ≫= λ g, zget g gy) in
  if negb (Z.land bits (Z.shiftr 0x80 gx) =? 0) then c_fg e else c_bg e.
Definition pixel_at (p : Z) (l : list Z) (x y : Z) : list Z := take 4 (drop (Z.to_nat (y * p + x * 4)) l).

(** A screen with pixels of four bytes. *)
Record geometry (s : Fb) : Prop := {
  ge_init : fb_initialized s = 1;
  ge_bpp : fb_bpp s = 32;
  ge_pitch : 4 * fb_width s ≤ fb_pitch s;
  ge_width : 8 ≤ fb_width s < 2 ^ 30;
  ge_height : 16 ≤ fb_height s < 2 ^ 31;
  ge_size : fb_pitch s * fb_height s < 2 ^ 63;
  ge_cols : cols s = fb_width s / 8;
  ge_rows : rows s = fb_height s / 16;
}.

Record shows (s : Fb) (t : Term) : Prop := {
  sh_geom : geometry s;
  sh_size : t_cols t = cols s ∧ t_rows t = rows s;
  sh_pack : ∀ c, t_pack t c = pack_color c s;
  sh_cursor : t_col t = cur_col s ∧ t_row t = cur_row s;
  sh_inside : 0 ≤ cur_col s < cols s ∧ 0 ≤ cur_row s < rows s;
  sh_colors : t_fg t = fg_color s ∧ t_bg t = bg_color s;
  sh_pixels : ∃ l, buffers s !! render_target s = Some l ∧ Z.of_nat (length l) = fb_pitch s * fb_height s ∧
    ∀ x y, 0 ≤ x < 8 * cols s → 0 ≤ y < 16 * rows s →
      pixel_at (fb_pitch s) l x y = le_bytes 4 (cell_pixel (grid t (x / 8) (y / 16)) (x mod 8) (y mod 16));
}.

(** ** Pixels *)

Lemma le_bytes_4 v : length (le_bytes 4 v) = 4%nat.
Proof. by rewrite le_bytes_length. Qed.

Section pixels.
Context (w h p : Z).
Hypothesis Hp : 4 * w ≤ p.
Hypothesis Hw : 0 < w.

(** Different pixels are different bytes. *)
Lemma pixel_apart x y x' y' : 0 ≤ x < w → 0 ≤ x' < w → 0 ≤ y → 0 ≤ y' → ¬ (x' = x ∧ y' = y) →
  y' * p + x' * 4 + 4 ≤ y * p + x * 4 ∨ y * p + x * 4 + 4 ≤ y' * p + x' * 4.
Proof.
  intros Hx Hx' Hy Hy' Hne. destruct (Z.lt_trichotomy y y') as [Hlt|[->|Hlt]].
  - right. assert ((y + 1) * p ≤ y' * p) by (apply Z.mul_le_mono_nonneg_r; lia). lia.
  - lia.
  - left. assert ((y' + 1) * p ≤ y * p) by (apply Z.mul_le_mono_nonneg_r; lia). lia.
Qed.
Lemma pixel_inside x y : 0 ≤ x < w → 0 ≤ y < h → 0 ≤ y * p + x * 4 ∧ y * p + x * 4 + 4 ≤ p * h.
Proof. intros Hx Hy. assert ((y + 1) * p ≤ h * p) by (apply Z.mul_le_mono_nonneg_r; lia). split; [nia|lia]. Qed.

Definition plot (l : list Z) (x y c : Z) : list Z := write_at l (Z.to_nat (y * p + x * 4)) (le_bytes 4 c).
Lemma plot_length l x y c : Z.of_nat (length l) = p * h → 0 ≤ x < w → 0 ≤ y < h → Z.of_nat (length (plot l x y c)) = p * h.
Proof. intros Hl Hx Hy. pose proof (pixel_inside x y Hx Hy). unfold plot. rewrite length_write_at; [done|]. rewrite le_bytes_4. lia. Qed.
Lemma plot_pixel l x y c x' y' : Z.of_nat (length l) = p * h → 0 ≤ x < w → 0 ≤ y < h → 0 ≤ x' < w → 0 ≤ y' < h →
  pixel_at p (plot l x y c) x' y' = if decide (x' = x ∧ y' = y) then le_bytes 4 c else pixel_at p l x' y'.
Proof.
  intros Hl Hx Hy Hx' Hy'. pose proof (pixel_inside x y Hx Hy). pose proof (pixel_inside x' y' Hx' Hy').
  unfold pixel_at, plot. case_decide as Hd.
  - destruct Hd as [-> ->]. rewrite <-(le_bytes_4 c) at 1. apply write_at_take. rewrite le_bytes_4. lia.
  - apply write_at_take_ne; rewrite le_bytes_4; [lia|]. pose proof (pixel_apart x y x' y' Hx Hx' ltac:(lia) ltac:(lia) Hd). lia.
Qed.
End pixels.

(** ** Painting a cell *)

(** The console with other bytes in its buffer. *)
Definition draw (l : list Z) (s : Fb) : Fb := with_buffers (<[render_target s := l]> (buffers s)) s.
Definition canvas (s : Fb) (l : list Z) : Prop := Z.of_nat (length l) = fb_pitch s * fb_height s.
(** The pixel buffer [l'] is [l] with the pixels that satisfy [q] in the colours [f]. *)
Definition repainted (s : Fb) (q : Z → Z → Prop) `{∀ x y, Decision (q x y)} (f : Z → Z → Z) (l l' : list Z) : Prop :=
  ∀ x y, 0 ≤ x < fb_width s → 0 ≤ y < fb_height s →
    pixel_at (fb_pitch s) l' x y = if decide (q x y) then le_bytes 4 (f x y) else pixel_at (fb_pitch s) l x y.

Lemma put_pixel_ok s l x y c : geometry s → canvas s l → 0 ≤ x < fb_width s → 0 ≤ y < fb_height s →
  put_pixel x y c (draw l s) = Done tt (draw (plot (fb_pitch s) l x y c) s).
Proof.
  intros [_ Hb Hp Hw Hh Hs _ _] Hl Hx Hy. unfold put_pixel. rewrite kget_bind. cbn [id fb_width fb_height fb_bpp fb_pitch render_target draw with_buffers].
  rewrite (proj2 (Z.leb_gt _ _) (proj2 Hx)), (proj2 (Z.leb_gt _ _) (proj2 Hy)). cbn [orb]. rewrite Hb. change (32 / 8) with 4.
  pose proof (pixel_inside (fb_width s) (fb_height s) (fb_pitch s) Hp ltac:(lia) x y Hx Hy) as [Hi1 Hi2].
  assert (0 ≤ y * fb_pitch s) by nia. rewrite (u32_small (x * 4)), (u64_small (y * _)), u64_small by lia.
  unfold poke, kupd. cbn [buffers draw with_buffers]. rewrite lookup_insert_eq. cbn [mbind option_bind].
  rewrite patch_ok by (try rewrite le_bytes_4; unfold canvas in Hl; lia). unfold draw, with_buffers. cbn. by rewrite insert_insert_eq.
Qed.

Lemma paint_row s l px y f (b : Z → K Fb unit) : geometry s → canvas s l → 0 ≤ px → px + 8 ≤ fb_width s → 0 ≤ y < fb_height s →
  (∀ gx l', 0 ≤ gx < 8 → canvas s l' → b gx (draw l' s) = put_pixel (px + gx) y (f gx) (draw l' s)) →
  ∃ l', kfor (seqZ 0 8) b (draw l s) = Done tt (draw l' s) ∧ canvas s l' ∧
    repainted s (λ x' y', px ≤ x' < px + 8 ∧ y' = y) (λ x' _, f (x' - px)) l l'.
Proof.
  intros Hg Hl Hpx Hw Hy Hb. pose proof Hg as [_ _ Hp Hw' _ _ _ _].
  destruct (kfor_seqZ_ind (λ i s', ∃ l', s' = draw l' s ∧ canvas s l' ∧ repainted s (λ x' y', px ≤ x' < px + i ∧ y' = y) (λ x' _, f (x' - px)) l l') b 0 8 (draw l s))
    as (s' & E & l' & -> & Hl' & Hr); [lia| | |by exists l'].
  - exists l. split; [done|]. split; [done|]. intros x' y' _ _. rewrite decide_False by lia. done.
  - intros i s' Hi (l' & -> & Hl' & Hr). rewrite Hb by (done || lia). rewrite put_pixel_ok by (done || lia). eexists. split; [done|].
    exists (plot (fb_pitch s) l' (px + i) y (f i)). split; [done|]. split; [apply (plot_length (fb_width s)); (done || lia)|].
    intros x' y' Hx' Hy'. rewrite (plot_pixel (fb_width s) (fb_height s)) by (done || lia). destruct (decide (x' = px + i ∧ y' = y)) as [[-> ->]|Hne].
    + rewrite decide_True by lia. do 2 f_equal. lia.
    + rewrite Hr by done. destruct (decide (px ≤ x' < px + i ∧ y' = y)) as [Hd|Hd]; [rewrite decide_True by lia|rewrite decide_False by lia]; done.
Qed.

Lemma paint_cell s l px py f (b : Z → K Fb unit) : geometry s → canvas s l → 0 ≤ px → px + 8 ≤ fb_width s → 0 ≤ py → py + 16 ≤ fb_height s →
  (∀ gy l', 0 ≤ gy < 16 → canvas s l' → ∃ l'', b gy (draw l' s) = Done tt (draw l'' s) ∧ canvas s l'' ∧
     repainted s (λ x' y', px ≤ x' < px + 8 ∧ y' = py + gy) (λ x' _, f (x' - px) gy) l' l'') →
  ∃ l', kfor (seqZ 0 16) b (draw l s) = Done tt (draw l' s) ∧ canvas s l' ∧
    repainted s (λ x' y', px ≤ x' < px + 8 ∧ py ≤ y' < py + 16) (λ x' y', f (x' - px) (y' - py)) l l'.
Proof.
  intros Hg Hl Hpx Hw Hpy Hh Hb.
  destruct (kfor_seqZ_ind (λ i s', ∃ l', s' = draw l' s ∧ canvas s l' ∧ repainted s (λ x' y', px ≤ x' < px + 8 ∧ py ≤ y' < py + i) (λ x' y', f (x' - px) (y' - py)) l l') b 0 16 (draw l s))
    as (s' & E & l' & -> & Hl' & Hr); [lia| | |by exists l'].
  - exists l. split; [done|]. split; [done|]. intros x' y' _ _. rewrite decide_False by lia. done.
  - intros i s' Hi (l' & -> & Hl' & Hr). destruct (Hb i l') as (l2 & E & Hl2 & Hr2); [lia|done|]. exists (draw l2 s). split; [done|]. exists l2. split; [done|]. split; [done|].
    intros x' y' Hx' Hy'. rewrite Hr2 by done. destruct (decide (px ≤ x' < px + 8 ∧ y' = py + i)) as [[? ->]|Hne].
    + rewrite decide_True by lia. do 2 f_equal. lia.
    + rewrite Hr by done. destruct (decide (px ≤ x' < px + 8 ∧ py ≤ y' < py + i)) as [Hd|Hd]; [rewrite decide_True by lia|rewrite decide_False by lia]; done.
Qed.

(** ** The console shows the terminal *)

Lemma draw_self s l : buffers s !! render_target s = Some l → draw l s = s.
Proof. intros Hl. unfold draw. rewrite insert_id by done. by destruct s. Qed.
Lemma geometry_draw l s : geometry s → geometry (draw l s).
Proof. by intros []. Qed.

(** Terminals that differ only outside the screen look the same. *)
Lemma shows_ext s t t' : shows s t → t_cols t' = t_cols t → t_rows t' = t_rows t → t_pack t' = t_pack t →
  t_col t' = t_col t → t_row t' = t_row t → t_fg t' = t_fg t → t_bg t' = t_bg t →
  (∀ c r, 0 ≤ c < t_cols t → 0 ≤ r < t_rows t → grid t' c r = grid t c r) → shows s t'.
Proof.
  intros [Hg [Hc Hr] Hp [Hx Hy] Hi [Hf Hb] (l & Hl & Hlen & Hpx)] E1 E2 E3 E4 E5 E6 E7 Hgr. split; [done|by rewrite E1, E2|by rewrite E3|by rewrite E4, E5|done|by rewrite E6, E7|].
  exists l. split; [done|]. split; [done|]. intros x y Hx' Hy'. rewrite Hpx by done. rewrite Hgr; [done|lia|lia].
Qed.

(** One cell of the screen is painted. *)
Lemma shows_cell s t l l' col row e d : shows s t → buffers s !! render_target s = Some l → canvas s l' → 0 ≤ col → 0 ≤ row →
  repainted s (λ x y, col * 8 ≤ x < col * 8 + 8 ∧ row * 16 ≤ y < row * 16 + 16) (λ x y, cell_pixel e (x - col * 8) (y - row * 16)) l l' →
  shows (with_dirty d (draw l' s)) (t_grid (fill (λ x y, (x =? col) && (y =? row)) e (grid t)) t).
Proof.
  intros [Hg [Hc Hr] Hp [Hx Hy] Hi [Hf Hb] (l0 & Hl0 & Hlen & Hpx)] Hl Hcv Hc0 Hr0 Hrep. rewrite Hl in Hl0. injection Hl0 as <-.
  pose proof Hg as [? ? ? ? ? ? Hgc Hgr]. split; [by destruct Hg|done|done|done|done|done|]. exists l'. cbn. split; [apply lookup_insert_eq|]. split; [exact Hcv|].
  intros x y Hx' Hy'. rewrite Hrep by lia. unfold fill. destruct (decide (col * 8 ≤ x < col * 8 + 8 ∧ row * 16 ≤ y < row * 16 + 16)) as [Hd|Hd].
  - assert (x / 8 = col ∧ y / 16 = row) as [-> ->] by lia. rewrite !Z.eqb_refl. cbn [andb]. do 2 f_equal; lia.
  - rewrite Hpx by done. destruct (Z.eqb_spec (x / 8) col), (Z.eqb_spec (y / 16) row); cbn [andb]; (done || exfalso; lia).
Qed.

(** The place of a cell on the screen. *)
Lemma cell_place s col row : geometry s → 0 ≤ col < cols s → 0 ≤ row < rows s →
  u32 (col * FONT_WIDTH) = col * 8 ∧ u32 (row * FONT_HEIGHT) = row * 16 ∧ col * 8 + 8 ≤ fb_width s ∧ row * 16 + 16 ≤ fb_height s.
Proof.
  intros [_ _ _ Hw Hh _ Hc Hr] Hcol Hrow. unfold FONT_WIDTH, FONT_HEIGHT. assert (col * 8 + 8 ≤ fb_width s ∧ row * 16 + 16 ≤ fb_height s) as [? ?] by lia.
  rewrite !u32_small by lia. done.
Qed.

Lemma space_pixel fg bg gx gy : cell_pixel (mkCell 0x20 fg bg) gx gy = bg.
Proof.
  unfold cell_pixel. cbn [c_ch c_fg c_bg]. change (Z.land 0x20 0x7F) with 0x20. rewrite font_space. cbn [mbind option_bind].
  assert (default 0 (zget (replicate 16 0) gy) = 0) as ->; [|by rewrite Z.land_0_l].
  unfold zget. destruct (gy <? 0); [done|]. destruct (replicate 16 0 !! Z.to_nat gy) as [v|] eqn:E; [|done]. by apply lookup_replicate in E as [-> _].
Qed.

Lemma render_glyph_ok s t ch : shows s t →
  ∃ s', render_glyph (cur_col s) (cur_row s) ch s = Done tt s' ∧
    shows s' (t_grid (fill (λ x y, (x =? t_col t) && (y =? t_row t)) (mkCell ch (t_fg t) (t_bg t)) (grid t)) t).
Proof.
  intros Hs. pose proof Hs as [Hg [Hc Hr] _ [Hx Hy] [Hi1 Hi2] [Hf Hb] (l & Hl & Hlen & _)].
  destruct (cell_place s (cur_col s) (cur_row s) Hg Hi1 Hi2) as (Ec & Er & Hw & Hh). pose proof Hg as [_ _ _ ? ? _ _ _].
  unfold render_glyph. rewrite Ec, Er. destruct (font_glyph ch) as (g & Hgl & Hlg). rewrite (kopt_bind (λ _, zget font8x16_data (Z.land ch 0x7F)) _ s g Hgl).
  set (e := mkCell ch (fg_color s) (bg_color s)).
  edestruct (paint_cell s l (cur_col s * 8) (cur_row s * 16) (cell_pixel e)) as (l' & E & Hl' & Hrep); [done|exact Hlen|lia|done|lia|done| |].
  2: { rewrite (draw_self s l Hl) in E. kbind E. eexists. split; [done|]. rewrite Hf, Hb, Hx, Hy. by eapply shows_cell; [..|lia|lia|]. }
  intros gy l1 Hgy Hl1. destruct (zget_lt g gy) as (bits & Hbits); [lia|]. cbv beta. rewrite (kopt_bind (λ _, zget g gy) _ (draw l1 s) bits Hbits).
  apply (paint_row s l1 (cur_col s * 8) (cur_row s * 16 + gy) (λ gx, cell_pixel e gx gy)); [done|done|lia|done|lia|].
  intros gx l2 Hgx Hl2. rewrite kget_bind. rewrite !u32_small by lia. f_equal. unfold cell_pixel. cbn [e c_ch c_fg c_bg]. rewrite Hgl. cbn [mbind option_bind]. by rewrite Hbits.
Qed.

Lemma clear_cell_ok s t col row : shows s t → 0 ≤ col < cols s → 0 ≤ row < rows s →
  ∃ s', clear_cell col row s = Done tt s' ∧ shows s' (t_erase (λ x y, (x =? col) && (y =? row)) t).
Proof.
  intros Hs Hcol Hrow. pose proof Hs as [Hg _ _ _ _ [_ Hb] (l & Hl & Hlen & _)].
  destruct (cell_place s col row Hg Hcol Hrow) as (Ec & Er & Hw & Hh). pose proof Hg as [_ _ _ ? ? _ _ _]. unfold clear_cell. rewrite Ec, Er.
  edestruct (paint_cell s l (col * 8) (row * 16) (cell_pixel (erased t))) as (l' & E & Hl' & Hrep); [done|exact Hlen|lia|done|lia|done| |].
  2: { rewrite (draw_self s l Hl) in E. kbind E. eexists. split; [done|]. by eapply shows_cell; [..|lia|lia|]. }
  intros gy l1 Hgy Hl1. apply (paint_row s l1 (col * 8) (row * 16 + gy) (λ gx, cell_pixel (erased t) gx gy)); [done|done|lia|done|lia|].
  intros gx l2 Hgx Hl2. rewrite kget_bind. rewrite !u32_small by lia. f_equal. unfold erased. rewrite space_pixel. by rewrite Hb.
Qed.

Lemma shows_cursor s t c r : shows s t → 0 ≤ c < cols s → 0 ≤ r < rows s → shows (with_cursor c r s) (t_cursor c r t).
Proof. intros [[] Hsz Hp _ _ Hcol Hpx] Hc Hr. by split. Qed.
Lemma shows_dirty s t d : shows s t → shows (with_dirty d s) t.
Proof. intros [[] ? ? ? ? ? ?]. by split. Qed.

(** *** Filling with zeros *)

Lemma take_zeros n k m : (k + n ≤ m)%nat → take n (drop k (replicate m 0)) = replicate n 0.
Proof. intros. rewrite drop_replicate, take_replicate. f_equal. lia. Qed.
Lemma blank_pixel gx gy : le_bytes 4 (cell_pixel blank gx gy) = replicate 4 0.
Proof. unfold blank. by rewrite space_pixel. Qed.

Lemma zero_screen s t : shows s t →
  ∃ s', poke (render_target s) 0 (replicate (Z.to_nat (u64 (fb_pitch s * fb_height s))) 0) s = Done tt s' ∧
    cols s' = cols s ∧ rows s' = rows s ∧ shows s' (t_grid (λ _ _, blank) t).
Proof.
  intros [Hg Hsz Hp Hc Hi Hcol (l & Hl & Hlen & _)]. pose proof Hg as [_ _ Hpi Hw Hh Hs Hgc Hgr].
  assert (0 ≤ fb_pitch s * fb_height s) by nia. rewrite u64_small by lia. unfold poke, kupd. rewrite Hl. cbn [mbind option_bind].
  rewrite patch_ok by (rewrite ?length_replicate; lia). eexists. split; [done|]. split; [done|]. split; [done|].
  split; [by destruct Hg|done|done|done|done|done|]. eexists. split; [apply lookup_insert_eq|].
  split; [rewrite length_write_at; [done|rewrite length_replicate; lia]|]. intros x y Hx Hy. cbn in Hx, Hy. cbn [t_grid grid]. rewrite blank_pixel. unfold pixel_at.
  pose proof (pixel_inside (fb_width s) (fb_height s) (fb_pitch s) Hpi ltac:(lia) x y ltac:(lia) ltac:(lia)) as [? ?]. cbn [fb_pitch with_buffers].
  rewrite write_at_take_in by (rewrite ?length_replicate; lia). apply take_zeros. lia.
Qed.

(** *** Scrolling *)

Definition scrolled t : Z → Z → Cell := λ c r, if r =? t_rows t - 1 then blank else grid t c (r + 1).

(** The bytes after the rows moved up: the last row is zero. *)
Definition scroll_bytes (l : list Z) (rb cp : nat) : list Z := write_at (write_at l 0 (take cp (drop rb l))) cp (replicate rb 0).

Lemma scroll_length l rb cp : (rb + cp ≤ length l)%nat → length (scroll_bytes l rb cp) = length l.
Proof.
  intros Hl. unfold scroll_bytes. rewrite !length_write_at; rewrite ?length_write_at; rewrite ?length_replicate, ?length_take, ?length_drop; lia.
Qed.
Lemma scroll_take l rb cp k : (rb + cp ≤ length l)%nat →
  ((k + 4 ≤ cp)%nat → take 4 (drop k (scroll_bytes l rb cp)) = take 4 (drop (k + rb) l)) ∧
  ((cp ≤ k ∧ k + 4 ≤ cp + rb)%nat → take 4 (drop k (scroll_bytes l rb cp)) = replicate 4 0).
Proof.
  intros Hl. unfold scroll_bytes. assert (length (take cp (drop rb l)) = cp) as Hlt by (rewrite length_take, length_drop; lia).
  assert (length (write_at l 0 (take cp (drop rb l))) = length l) as Hlw by (apply length_write_at; lia). split; intros Hk.
  - rewrite write_at_take_ne by (rewrite ?Hlw, ?length_replicate; lia). rewrite write_at_take_in by lia. rewrite Nat.sub_0_r, skipn_firstn_comm, take_take, drop_drop.
    f_equal; [lia|f_equal; lia].
  - rewrite write_at_take_in by (rewrite ?Hlw, ?length_replicate; lia). apply take_zeros. lia.
Qed.

(** Wherever the cursor is. *)
Lemma scroll_up_ok s t a b : shows s t →
  ∃ s', scroll_up (with_cursor a b s) = Done tt (with_cursor a b s') ∧ cols s' = cols s ∧ rows s' = rows s ∧ shows s' (t_grid (scrolled t) t).
Proof.
  intros [Hg [Hc Hr] Hp Hcu Hi Hcol (l & Hl & Hlen & Hpx)]. pose proof Hg as [_ _ Hpi Hw Hh Hs Hgc Hgr].
  set (p := fb_pitch s) in *. set (n := rows s) in *. assert (1 ≤ n ∧ n * 16 ≤ fb_height s) as [Hn1 Hn2] by lia.
  assert (p * 16 * n ≤ p * fb_height s) as Hfit by nia. assert (0 ≤ p * 16 * (n - 1) ∧ 0 ≤ p) as [? ?] by nia.
  unfold scroll_up. rewrite kget_bind. cbv zeta. cbn [id with_cursor fb_pitch rows render_target]. fold p n. unfold FONT_HEIGHT. set (sc := with_cursor a b s).
  rewrite (u32_small (n - 1)), (u64_small (p * 16)) by lia. rewrite u64_small by lia.
  unfold peek. rewrite (kopt_bind (λ s, l ← buffers s !! _; part l _ _) _ sc (take (Z.to_nat (p * 16 * (n - 1))) (drop (Z.to_nat (p * 16)) l)))
    by (cbn [sc with_cursor buffers]; rewrite Hl; cbn [mbind option_bind]; apply part_ok; lia).
  assert (length (take (Z.to_nat (p * 16 * (n - 1))) (drop (Z.to_nat (p * 16)) l)) = Z.to_nat (p * 16 * (n - 1))) as Hlt by (rewrite length_take, length_drop; lia).
  set (l1 := write_at l 0 (take (Z.to_nat (p * 16 * (n - 1))) (drop (Z.to_nat (p * 16)) l))).
  assert (Z.of_nat (length l1) = p * fb_height s) as Hl1 by (unfold l1; rewrite length_write_at by lia; done).
  assert (poke (render_target s) 0 (take (Z.to_nat (p * 16 * (n - 1))) (drop (Z.to_nat (p * 16)) l)) sc = Done tt (draw l1 sc)) as E1.
  { unfold poke, kupd. cbn [sc with_cursor buffers]. rewrite Hl. cbn [mbind option_bind]. by rewrite patch_ok by lia. }
  kbind E1. set (l2 := scroll_bytes l (Z.to_nat (p * 16)) (Z.to_nat (p * 16 * (n - 1)))).
  assert (poke (render_target s) (p * 16 * (n - 1)) (replicate (Z.to_nat (p * 16)) 0) (draw l1 sc) = Done tt (draw l2 sc)) as E2.
  { unfold poke, kupd, draw. cbn [sc with_cursor buffers with_buffers render_target]. rewrite lookup_insert_eq. cbn [mbind option_bind].
    rewrite patch_ok by (rewrite ?length_replicate; lia). unfold with_buffers. cbn. by rewrite insert_insert_eq. }
  kbind E2. exists (with_dirty 1 (draw l2 s)). split; [done|]. split; [done|]. split; [done|]. split; [by destruct Hg|done|done|done|done|done|]. exists l2. cbn.
  split; [apply lookup_insert_eq|]. split; [unfold l2; rewrite scroll_length by lia; done|]. fold p n. intros x y Hx Hy. unfold pixel_at, scrolled, l2. rewrite Hr.
  assert (0 ≤ y * p) by nia. destruct (scroll_take l (Z.to_nat (p * 16)) (Z.to_nat (p * 16 * (n - 1))) (Z.to_nat (y * p + x * 4)) ltac:(lia)) as [Ht1 Ht2].
  destruct (Z.eqb_spec (y / 16) (n - 1)) as [Hy16|Hy16].
  - rewrite blank_pixel. apply Ht2. assert (16 * (n - 1) * p ≤ y * p ∧ (y + 1) * p ≤ 16 * n * p) by (split; apply Z.mul_le_mono_nonneg_r; lia). lia.
  - rewrite Ht1 by (assert ((y + 1) * p ≤ 16 * (n - 1) * p) by (apply Z.mul_le_mono_nonneg_r; lia); lia).
    specialize (Hpx x (y + 16) Hx ltac:(lia)). unfold pixel_at in Hpx. replace (y / 16 + 1) with ((y + 16) / 16) by lia. replace (y mod 16) with ((y + 16) mod 16) by lia.
    rewrite <-Hpx. do 2 f_equal. lia.
Qed.

Lemma newline_ok s t a : shows s t → ∃ s', newline (with_cursor a (cur_row s) s) = Done tt s' ∧ shows s' (t_newline t).
Proof.
  intros Hs. pose proof Hs as [Hg [Hc Hr] _ [Hx Hy] [Hi1 Hi2] _ _]. pose proof Hg as [_ _ _ ? ? _ ? ?].
  unfold newline, t_newline. rewrite !kget_bind, kmod_bind. cbn [with_cursor cur_row rows]. rewrite u32_small by lia. rewrite Hy, Hr.
  destruct (Z.leb_spec (rows s) (cur_row s + 1)), (Z.ltb_spec (cur_row s + 1) (rows s)); try lia.
  - destruct (scroll_up_ok s t 0 (cur_row s + 1) Hs) as (s1 & E1 & Hc1 & Hr1 & Hs1). change (with_cursor 0 (cur_row s + 1) (with_cursor a (cur_row s) s)) with (with_cursor 0 (cur_row s + 1) s).
    kbind E1. eexists. split; [done|]. rewrite u32_small by lia. unfold scrolled in Hs1. rewrite Hr in Hs1. apply (shows_cursor s1 _ 0 (rows s - 1) Hs1); lia.
  - eexists. split; [done|]. apply (shows_cursor s t 0 (cur_row s + 1) Hs); lia.
Qed.

(** ** The operations *)

Lemma tab_stop c : 0 ≤ c < 2 ^ 31 → Z.land (u32 (c + 8)) (u32 (Z.lnot 7)) = c / 8 * 8 + 8.
Proof.
  intros Hc. rewrite u32_small by lia. change (u32 (Z.lnot 7)) with (Z.land (u64 (Z.lnot (2 ^ 3 - 1))) (Z.ones 32)).
  rewrite Z.land_assoc, (land_align _ 3) by lia. rewrite Z.land_ones, Z.mod_small by lia. lia.
Qed.

Lemma putchar_ok c s t : shows s t → ∃ s', fb_console_putchar c s = Done tt s' ∧ shows s' (t_putchar c t).
Proof.
  intros Hs. pose proof Hs as [Hg [Hc Hr] _ [Hx Hy] [Hi1 Hi2] _ _]. pose proof Hg as [Hin _ _ ? ? _ ? ?].
  assert (with_cursor (cur_col s) (cur_row s) s = s) as Hself by (by destruct s).
  unfold fb_console_putchar, t_putchar. rewrite kget_bind. cbn [id]. rewrite Hin. change (1 =? 0) with false. cbv iota.
  destruct (c =? 10).
  { pose proof (newline_ok s t (cur_col s) Hs) as Hn. by rewrite Hself in Hn. }
  destruct (c =? 13); [eexists; split; [done|]; rewrite Hy; apply shows_cursor; [done|lia|lia]|].
  destruct (c =? 9).
  { cbv zeta. rewrite tab_stop, Hx, Hy, Hc, kmod_bind by lia. destruct (Z.leb_spec (cols s) (cur_col s / 8 * 8 + 8)); [by apply newline_ok|].
    eexists. split; [done|]. apply shows_cursor; [done|lia|lia]. }
  destruct (c =? 8).
  { rewrite Hx, Hy. destruct (Z.ltb_spec 0 (cur_col s)); [|by exists s]. rewrite kmod_bind.
    apply clear_cell_ok; [apply shows_cursor; [done|lia|lia]|cbn; lia|cbn; lia]. }
  destruct ((0x20 <=? c) && (c <? 0x7F)); [|by exists s]. cbv zeta.
  destruct (render_glyph_ok s t c Hs) as (s1 & E1 & Hs1). kbind E1. rewrite kmod_bind, u32_small by lia.
  pose proof Hs1 as [_ [Hc1 Hr1] _ [Hx1 Hy1] _ _ _]. cbn in Hc1, Hr1, Hx1, Hy1. rewrite Hx, Hy, Hc in *.
  destruct (Z.leb_spec (cols s) (cur_col s + 1)).
  - destruct (newline_ok s1 _ (cur_col s + 1) Hs1) as (s2 & E2 & Hs2). rewrite <-Hy1 in E2. by exists s2.
  - eexists. split; [done|]. apply shows_cursor; [done|lia|lia].
Qed.

Lemma set_colors_ok fg bg s t : shows s t → ∃ s', fb_console_set_colors fg bg s = Done tt s' ∧ shows s' (t_set_colors fg bg t).
Proof. intros [[] Hsz Hp Hc Hi _ Hpx]. eexists. split; [done|]. unfold t_set_colors. rewrite !Hp. by split. Qed.
Lemma set_cursor_ok c r s t : shows s t → 0 ≤ c → 0 ≤ r → ∃ s', fb_console_set_cursor c r s = Done tt s' ∧ shows s' (t_set_cursor c r t).
Proof.
  intros Hs Hc Hr. pose proof Hs as [Hg [Ec Er] _ _ [Hi1 Hi2] _ _]. pose proof Hg as [_ _ _ ? ? _ ? ?]. eexists. split; [done|]. unfold t_set_cursor. rewrite Ec, Er.
  assert ((if cols s <=? c then u32 (cols s - 1) else c) = Z.min c (cols s - 1)) as -> by (rewrite u32_small by lia; destruct (Z.leb_spec (cols s) c); lia).
  assert ((if rows s <=? r then u32 (rows s - 1) else r) = Z.min r (rows s - 1)) as -> by (rewrite u32_small by lia; destruct (Z.leb_spec (rows s) r); lia).
  apply shows_cursor; [done|lia|lia].
Qed.

(** *** Erasing *)

Lemma erase_erase s t p q r : shows s (t_erase q (t_erase p t)) →
  (∀ c y, 0 ≤ c < t_cols t → 0 ≤ y < t_rows t → r c y = p c y || q c y) → shows s (t_erase r t).
Proof.
  intros Hs Hr. apply (shows_ext _ _ _ Hs); try done. intros c y Hc Hy. cbn [t_erase t_grid grid t_bg t_cols t_rows] in *. unfold fill.
  rewrite (Hr c y) by done. unfold erased. cbn. by destruct (p c y), (q c y).
Qed.
Lemma erase_eq s t p q : shows s (t_erase p t) → (∀ c y, 0 ≤ c < t_cols t → 0 ≤ y < t_rows t → q c y = p c y) → shows s (t_erase q t).
Proof. intros Hs Hq. apply (shows_ext _ _ _ Hs); try done. intros c y Hc Hy. cbn [t_erase t_grid grid t_cols t_rows] in *. unfold fill. by rewrite Hq. Qed.
Lemma erase_none s t p : shows s t → (∀ c y, 0 ≤ c < t_cols t → 0 ≤ y < t_rows t → p c y = false) → shows s (t_erase p t).
Proof. intros Hs Hp. apply (shows_ext _ _ _ Hs); try done. intros c y Hc Hy. cbn. unfold fill. by rewrite Hp. Qed.

(** A loop that erases more in every round. *)
Lemma erase_loop s t (p : Z → Z → Z → bool) (b : Z → K Fb unit) m n : 0 ≤ n → shows s (t_erase (p m) t) →
  (∀ i s1, m ≤ i < m + n → shows s1 (t_erase (p i) t) → ∃ s2, b i s1 = Done tt s2 ∧ shows s2 (t_erase (p (i + 1)) t)) →
  ∃ s', kfor (seqZ m n) b s = Done tt s' ∧ shows s' (t_erase (p (m + n)) t).
Proof. intros Hn H0 Hb. by apply (kfor_seqZ_ind (λ i s', shows s' (t_erase (p i) t))). Qed.

Lemma clear_cells_ok a b row s t : shows s t → 0 ≤ a → b ≤ t_cols t → 0 ≤ row < t_rows t →
  ∃ s', clear_cells a b row s = Done tt s' ∧ shows s' (t_erase (λ x y, (y =? row) && (a <=? x) && (x <? b)) t).
Proof.
  intros Hs Ha Hb Hrow. unfold clear_cells. destruct (decide (b ≤ a)) as [Hle|Hlt].
  { exists s. assert (seqZ a (b - a) = []) as -> by (by apply seqZ_nil; lia). split; [done|]. apply erase_none; [done|]. intros. lia. }
  destruct (erase_loop s t (λ i x y, (y =? row) && (a <=? x) && (x <? i)) (λ c, clear_cell c row) a (b - a)) as (s' & E & Hs'); [lia| | |].
  - apply erase_none; [done|]. intros. lia.
  - intros i s1 Hi Hs1. pose proof Hs1 as [_ [Hc1 Hr1] _ _ _ _ _]. cbn in Hc1, Hr1. destruct (clear_cell_ok s1 _ i row Hs1) as (s2 & E2 & Hs2); [lia|lia|].
    exists s2. split; [done|]. apply (erase_erase _ _ _ _ _ Hs2). intros. lia.
  - exists s'. split; [done|]. by replace (a + (b - a)) with b in Hs' by lia.
Qed.
Lemma clear_upto_ok b row s t : shows s t → 0 ≤ b < t_cols t → 0 ≤ row < t_rows t →
  ∃ s', clear_upto b row s = Done tt s' ∧ shows s' (t_erase (λ x y, (y =? row) && (0 <=? x) && (x <? b + 1)) t).
Proof.
  intros Hs Hb Hrow. pose proof Hs as [[_ _ _ ? ? _ ? ?] [Hc _] _ _ _ _ _]. unfold clear_upto. destruct (Z.eqb_spec b (2 ^ 32 - 1)); [lia|].
  apply clear_cells_ok; [done|lia|lia|done].
Qed.
(** Rows from [m], [n] of them. *)
Lemma clear_rows_ok m n w s t : shows s t → 0 ≤ m → m + n ≤ t_rows t → w = t_cols t →
  ∃ s', kfor (seqZ m n) (λ r, clear_cells 0 w r) s = Done tt s' ∧ shows s' (t_erase (λ _ y, (m <=? y) && (y <? m + n)) t).
Proof.
  intros Hs Hm Hn ->. destruct (decide (n ≤ 0)) as [Hle|Hlt].
  { exists s. assert (seqZ m n = []) as -> by (by apply seqZ_nil; lia). split; [done|]. apply erase_none; [done|]. intros. lia. }
  destruct (erase_loop s t (λ i _ y, (m <=? y) && (y <? i)) (λ r, clear_cells 0 (t_cols t) r) m n) as (s' & E & Hs'); [lia| | |by exists s'].
  - apply erase_none; [done|]. intros. lia.
  - intros i s1 Hi Hs1. destruct (clear_cells_ok 0 (t_cols t) i s1 _ Hs1) as (s2 & E2 & Hs2); [lia|cbn; lia|cbn; lia|].
    exists s2. split; [done|]. apply (erase_erase _ _ _ _ _ Hs2). intros. lia.
Qed.

Lemma erase_line_ok mode s t : shows s t → ∃ s', fb_console_erase_line mode s = Done tt s' ∧ shows s' (t_erase_line mode t).
Proof.
  intros Hs. pose proof Hs as [[Hin _ _ ? ? _ ? ?] [Hc Hr] _ [Hx Hy] [Hi1 Hi2] _ _]. unfold fb_console_erase_line, t_erase_line. rewrite kget_bind. cbn [id]. rewrite Hin, Hx, Hy, <-Hc.
  change (1 =? 0) with false. cbv iota.
  destruct (mode =? 2); [|destruct (mode =? 0); [|destruct (mode =? 1)]].
  - destruct (clear_cells_ok 0 (t_cols t) (cur_row s) s t Hs) as (s' & E & Hs'); [lia|lia|lia|]. kbind E. eexists. split; [done|]. apply shows_dirty, (erase_eq _ _ _ _ Hs'). lia.
  - destruct (clear_cells_ok (cur_col s) (t_cols t) (cur_row s) s t Hs) as (s' & E & Hs'); [lia|lia|lia|]. kbind E. eexists. split; [done|]. apply shows_dirty, (erase_eq _ _ _ _ Hs'). lia.
  - destruct (clear_upto_ok (cur_col s) (cur_row s) s t Hs) as (s' & E & Hs'); [lia|lia|]. kbind E. eexists. split; [done|]. apply shows_dirty, (erase_eq _ _ _ _ Hs'). lia.
  - eexists. split; [done|]. by apply shows_dirty.
Qed.

Lemma erase_display_ok mode s t : shows s t → ∃ s', fb_console_erase_display mode s = Done tt s' ∧ shows s' (t_erase_display mode t).
Proof.
  intros Hs. pose proof Hs as [[Hin _ _ ? ? _ ? ?] [Hc Hr] _ [Hx Hy] [Hi1 Hi2] _ _]. unfold fb_console_erase_display, t_erase_display. rewrite kget_bind. cbn [id].
  rewrite Hin, Hx, Hy, <-Hc, <-Hr. change (1 =? 0) with false. cbv iota. rewrite u32_small by lia.
  destruct (mode =? 2); [|destruct (mode =? 0); [|destruct (mode =? 1)]].
  - destruct (zero_screen s t Hs) as (s1 & E1 & Hc1 & Hr1 & Hs1). rewrite bind_assoc. kbind E1. rewrite kmod_bind. eexists. split; [done|]. apply shows_dirty, shows_cursor; [done|lia|lia].
  - destruct (clear_cells_ok (cur_col s) (t_cols t) (cur_row s) s t Hs) as (s1 & E1 & Hs1); [lia|lia|lia|]. rewrite bind_assoc. kbind E1.
    destruct (clear_rows_ok (cur_row s + 1) (t_rows t - (cur_row s + 1)) (t_cols t) s1 _ Hs1) as (s2 & E2 & Hs2); [lia|cbn; lia|done|]. kbind E2.
    eexists. split; [done|]. apply shows_dirty, (erase_erase _ _ _ _ _ Hs2). lia.
  - destruct (clear_rows_ok 0 (cur_row s) (t_cols t) s t Hs) as (s1 & E1 & Hs1); [lia|lia|done|]. rewrite bind_assoc. kbind E1.
    destruct (clear_upto_ok (cur_col s) (cur_row s) s1 _ Hs1) as (s2 & E2 & Hs2); [cbn; lia|cbn; lia|]. kbind E2.
    eexists. split; [done|]. apply shows_dirty, (erase_erase _ _ _ _ _ Hs2). lia.
  - eexists. split; [done|]. by apply shows_dirty.
Qed.

Lemma clear_ok s t : shows s t → ∃ s', fb_console_clear s = Done tt s' ∧ shows s' (t_cursor 0 0 (t_grid (λ _ _, blank) t)).
Proof.
  intros Hs. pose proof Hs as [[Hin _ _ ? ? _ ? ?] _ _ _ _ _ _]. unfold fb_console_clear. rewrite kget_bind. cbn [id]. rewrite Hin. change (1 =? 0) with false. cbv iota.
  destruct (zero_screen s t Hs) as (s1 & E & Hc & Hr & Hs1). kbind E. eexists. split; [done|]. apply shows_dirty, shows_cursor; [done|lia|lia].
Qed.
Lemma pack_zero s t : shows s t → t_pack t 0 = 0.
Proof. intros [_ _ Hp _ _ _ _]. rewrite Hp. unfold pack_color. rewrite Z.shiftr_0_l, Z.land_0_l, Z.shiftr_0_l, Z.land_0_l, !Z.shiftl_0_l. done. Qed.

(** *** Initialisation *)

(** A framebuffer the console can use, with its bytes. *)
Record usable (fb : Framebuffer) (s : Fb) : Prop := {
  us_addr : address fb ≠ 0;
  us_bpp : bpp fb = 32;
  us_pitch : 4 * width fb ≤ pitch fb;
  us_width : 8 ≤ width fb < 2 ^ 30;
  us_height : 16 ≤ height fb < 2 ^ 31;
  us_size : pitch fb * height fb < 2 ^ 63;
  us_shifts : 0 ≤ red_mask_shift fb < 32 ∧ 0 ≤ green_mask_shift fb < 32 ∧ 0 ≤ blue_mask_shift fb < 32;
  us_bytes : ∃ l, buffers s !! address fb = Some l ∧ Z.of_nat (length l) = pitch fb * height fb;
}.
(** The word of a pixel of the colour 0xRRGGBB: each of the three bytes at its place in the word. *)
Definition fb_pack (fb : Framebuffer) (c : Z) : Z :=
  let lane v shift := (v mod 256 * 2 ^ shift) mod 2 ^ 32 in
  Z.lor (Z.lor (lane (c / 65536) (red_mask_shift fb)) (lane (c / 256) (green_mask_shift fb))) (lane c (blue_mask_shift fb)).
(** The empty terminal of a framebuffer. *)
Definition t_init (fb : Framebuffer) : Term :=
  mkTerm (width fb / 8) (height fb / 16) (fb_pack fb) 0 0 (fb_pack fb 0xAAAAAA) (fb_pack fb 0) (λ _ _, blank).

Lemma pack_ok fb s c : usable fb s → fb_pack fb c = pack_color c (init_fields fb s).
Proof.
  intros [_ _ _ _ _ _ (Hr & Hg & Hb) _]. unfold fb_pack, pack_color, u32.
  change (fb_red_shift (init_fields fb s)) with (red_mask_shift fb). change (fb_green_shift (init_fields fb s)) with (green_mask_shift fb).
  change (fb_blue_shift (init_fields fb s)) with (blue_mask_shift fb).
  change 0xFF with (Z.ones 8). rewrite !Z.land_ones, !Z.shiftl_mul_pow2, !Z.shiftr_div_pow2 by lia. done.
Qed.
Lemma init_ok fb s : usable fb s → ∃ s', fb_console_init (Some fb) s = Done 0 s' ∧ shows s' (t_init fb).
Proof.
  intros Hu. pose proof (λ c, pack_ok fb s c Hu) as Hpk. destruct Hu as [Ha Hb Hp Hw Hh Hs _ (l & Hl & Hlen)]. unfold fb_console_init. rewrite (proj2 (Z.eqb_neq _ _) Ha), Hb. change (32 <? 24) with false. cbn [orb]. rewrite kmod_bind.
  set (s1 := init_fields fb s). assert (geometry s1) as Hg.
  { split; [done|done|done|done|done|done| |]; cbn; unfold FONT_WIDTH, FONT_HEIGHT; rewrite u32_small by lia; done. }
  unfold fb_console_clear. rewrite bind_assoc, kget_bind. cbn [id]. change (fb_initialized s1 =? 0) with false. cbv iota.
  assert (0 ≤ pitch fb * height fb) by nia. change (fb_pitch s1) with (pitch fb). change (fb_height s1) with (height fb). rewrite u64_small by lia.
  set (z := replicate (Z.to_nat (pitch fb * height fb)) 0). assert (poke (render_target s1) 0 z s1 = Done tt (draw z s1)) as E.
  { unfold poke, kupd. change (buffers s1 !! render_target s1) with (buffers s !! address fb). rewrite Hl. cbn [mbind option_bind].
    rewrite patch_ok by (unfold z; rewrite ?length_replicate; lia). unfold write_at. rewrite take_0, drop_ge by (unfold z; rewrite length_replicate; lia). by rewrite app_nil_r. }
  rewrite bind_assoc. kbind E. rewrite kmod_bind. eexists. split; [done|]. pose proof Hg as [_ _ _ _ _ _ Hgc Hgr].
  split; [by destruct Hg|exact (conj (eq_sym Hgc) (eq_sym Hgr))|exact Hpk|done| |cbn; by rewrite !Hpk|].
  - change (cols (with_dirty 1 (with_cursor 0 0 (draw z s1)))) with (cols s1). change (rows (with_dirty 1 (with_cursor 0 0 (draw z s1)))) with (rows s1).
    rewrite Hgc, Hgr. change (fb_width s1) with (width fb). change (fb_height s1) with (height fb). cbn. lia.
  - exists z. cbn. split; [apply lookup_insert_eq|]. split; [unfold z; rewrite length_replicate; lia|]. intros x y Hx Hy. rewrite blank_pixel. apply take_zeros.
    unfold FONT_WIDTH, FONT_HEIGHT in *. rewrite u32_small in Hx, Hy by lia.
    pose proof (pixel_inside (width fb) (height fb) (pitch fb) Hp ltac:(lia) x y ltac:(lia) ltac:(lia)). lia.
Qed.
