(* ===== verification/Ansi.v ===== *)
(** * The ANSI escape sequence parser

    [kernel/drivers/ansi.c], over the operations of a console.  [FbConsole] is one
    console and the abstract terminal of [FbTerm] another. *)
From S2P Require Import Prelude.

(** What the parser uses of [kernel/drivers/fb_console.h]. *)
Class Console (C : Type) : Type := {
  con_putchar : Z → K C unit;
  con_set_colors : Z → Z → K C unit;
  con_get_cursor : K C (Z * Z);
  con_set_cursor : Z → Z → K C unit;
  con_erase_display : Z → K C unit;
  con_erase_line : Z → K C unit;
}.

Definition STATE_NORMAL : Z := 0.
Definition STATE_ESC : Z := 1.
Definition STATE_CSI : Z := 2.
Definition MAX_PARAMS : Z := 8.
Definition ansi_colors : list Z := [0x000000; 0xAA0000; 0x00AA00; 0xAA5500; 0x0000AA; 0xAA00AA; 0x00AAAA; 0xAAAAAA].
Definition ansi_bright : list Z := [0x555555; 0xFF5555; 0x55FF55; 0xFFFF55; 0x5555FF; 0xFF55FF; 0x55FFFF; 0xFFFFFF].
Definition DEFAULT_FG : Z := 0xAAAAAA.
Definition DEFAULT_BG : Z := 0x000000.

Record Ansi (C : Type) : Type := mkAnsi {
  con : C;
  state : Z;
  params : list Z;
  param_count : Z;
  cur_fg : Z; cur_bg : Z; bold : Z;
}.
Arguments mkAnsi {C}.
Arguments con {C}.
Arguments state {C}.
Arguments params {C}.
Arguments param_count {C}.
Arguments cur_fg {C}.
Arguments cur_bg {C}.
Arguments bold {C}.

Section ansi.
Context {C : Type} `{Console C}.
Implicit Types (a : Ansi C).

Definition with_con c a : Ansi C := mkAnsi c (state a) (params a) (param_count a) (cur_fg a) (cur_bg a) (bold a).
Definition with_state n a : Ansi C := mkAnsi (con a) n (params a) (param_count a) (cur_fg a) (cur_bg a) (bold a).
Definition with_params l n a : Ansi C := mkAnsi (con a) (state a) l n (cur_fg a) (cur_bg a) (bold a).
Definition with_sgr f b d a : Ansi C := mkAnsi (con a) (state a) (params a) (param_count a) f b d.
Definition on_con {A} (m : K C A) : K (Ansi C) A := zoom con with_con m.

Definition ansi_init : K (Ansi C) unit :=
  kmod (λ a, mkAnsi (con a) STATE_NORMAL (params a) 0 DEFAULT_FG DEFAULT_BG 0).
Definition ansi_reset : K (Ansi C) unit := ansi_init.

Definition get_param (idx def : Z) : K (Ansi C) Z :=
  n ← kget param_count;
  if idx <? n then
    p ← kopt (λ a, zget (params a) idx);
    mret (if 0 <? p then p else def)
  else mret def.

(** One parameter of [ESC\[...m]. *)
Definition sgr_param (p : Z) : K (Ansi C) unit :=
  a ← kget id;
  if p =? 0 then kmod (with_sgr DEFAULT_FG DEFAULT_BG 0) else
  if p =? 1 then kmod (with_sgr (cur_fg a) (cur_bg a) 1) else
  if (30 <=? p) && (p <=? 37) then
    f ← kopt (λ _, zget (if negb (bold a =? 0) then ansi_bright else ansi_colors) (p - 30));
    kmod (with_sgr f (cur_bg a) (bold a))
  else if p =? 39 then kmod (with_sgr DEFAULT_FG (cur_bg a) (bold a)) else
  if (40 <=? p) && (p <=? 47) then
    b ← kopt (λ _, zget ansi_colors (p - 40));
    kmod (with_sgr (cur_fg a) b (bold a))
  else if p =? 49 then kmod (with_sgr (cur_fg a) DEFAULT_BG (bold a)) else
  if (90 <=? p) && (p <=? 97) then
    f ← kopt (λ _, zget ansi_bright (p - 90));
    kmod (with_sgr f (cur_bg a) (bold a))
  else if (100 <=? p) && (p <=? 107) then
    b ← kopt (λ _, zget ansi_bright (p - 100));
    kmod (with_sgr (cur_fg a) b (bold a))
  else mret tt.

Definition set_colors : K (Ansi C) unit := a ← kget id; on_con (con_set_colors (cur_fg a) (cur_bg a)).
Definition handle_sgr : K (Ansi C) unit :=
  n ← kget param_count;
  if n =? 0 then kmod (with_sgr DEFAULT_FG DEFAULT_BG 0);; set_colors else
  kfor (seqZ 0 n) (λ i, p ← kopt (λ a, zget (params a) i); sgr_param p);;
  set_colors.

Definition dispatch_csi (final : Z) : K (Ansi C) unit :=
  cursor ← on_con con_get_cursor;
  let cur_col := cursor.1 in
  let cur_row := cursor.2 in
  if final =? 65 then
    n ← get_param 0 1;
    on_con (con_set_cursor cur_col (if n <=? i32 cur_row then u32 (cur_row - u32 n) else 0))
  else if final =? 66 then
    n ← get_param 0 1;
    on_con (con_set_cursor cur_col (u32 (cur_row + u32 n)))
  else if final =? 67 then
    n ← get_param 0 1;
    on_con (con_set_cursor (u32 (cur_col + u32 n)) cur_row)
  else if final =? 68 then
    n ← get_param 0 1;
    on_con (con_set_cursor (if n <=? i32 cur_col then u32 (cur_col - u32 n) else 0) cur_row)
  else if (final =? 72) || (final =? 102) then
    row ← get_param 0 1;
    col ← get_param 1 1;
    on_con (con_set_cursor (u32 (if col - 1 <? 0 then 0 else col - 1)) (u32 (if row - 1 <? 0 then 0 else row - 1)))
  else if final =? 74 then
    mode ← get_param 0 0;
    on_con (con_erase_display mode)
  else if final =? 75 then
    mode ← get_param 0 0;
    on_con (con_erase_line mode)
  else if final =? 109 then handle_sgr
  else mret tt.

(** A digit of a parameter; the product is an [int], wrapped around where C leaves it undefined. *)
Definition param_digit (c : Z) : K (Ansi C) unit :=
  n ← kget param_count;
  let n := if n =? 0 then 1 else n in
  p ← kopt (λ a, zget (params a) (n - 1));
  kupd (λ a, l ← zset (params a) (n - 1) (i32 (p * 10 + (c - 48))); Some (with_params l n a)).

Definition ansi_putchar (c : Z) : K (Ansi C) unit :=
  st ← kget state;
  if st =? STATE_NORMAL then
    if c =? 27 then kmod (with_state STATE_ESC) else on_con (con_putchar c)
  else if st =? STATE_ESC then
    if c =? 91 then kmod (λ a, with_state STATE_CSI (with_params (replicate (Z.to_nat MAX_PARAMS) 0) 0 a))
    else kmod (with_state STATE_NORMAL)
  else if st =? STATE_CSI then
    if (48 <=? c) && (c <=? 57) then param_digit c
    else if c =? 59 then kmod (λ a, if param_count a <? MAX_PARAMS then with_params (params a) (param_count a + 1) a else a)
    else dispatch_csi c;; kmod (with_state STATE_NORMAL)
  else mret tt.

Definition ansi_puts (str : list Z) : K (Ansi C) unit := kfor str ansi_putchar.
End ansi.
