(* ===== verification/AnsiCorrect.v ===== *)
(** * The terminal that programs see

    The parser of [Ansi] keeps its state well formed whatever bytes it is given, and does the
    same on two consoles of which one implements the other: on the framebuffer and on the grid of
    characters that it shows. *)
From S2P Require Import Prelude Font FbConsole FbTerm Ansi.

#[export] Instance fb_console : Console Fb := {|
  con_putchar := fb_console_putchar;
  con_set_colors := fb_console_set_colors;
  con_get_cursor := fb_console_get_cursor;
  con_set_cursor := fb_console_set_cursor;
  con_erase_display := fb_console_erase_display;
  con_erase_line := fb_console_erase_line;
|}.
(** The abstract terminal. *)
#[export] Instance term_console : Console Term := {|
  con_putchar c := kmod (t_putchar c);
  con_set_colors f b := kmod (t_set_colors f b);
  con_get_cursor := kget (λ t, (t_col t, t_row t));
  con_set_cursor c r := kmod (t_set_cursor c r);
  con_erase_display m := kmod (t_erase_display m);
  con_erase_line m := kmod (t_erase_line m);
|}.

(** ** Consoles that implement others *)

(** Both computations complete with the same result, from related states to related states. *)
Definition both {S1 S2 A} (R : S1 → S2 → Prop) (m1 : K S1 A) (m2 : K S2 A) : Prop :=
  ∀ s1 s2, R s1 s2 → ∃ x s1' s2', m1 s1 = Done x s1' ∧ m2 s2 = Done x s2' ∧ R s1' s2'.

Class ConsoleSim {C1 C2 : Type} `{Console C1} `{Console C2} (R : C1 → C2 → Prop) : Prop := {
  sim_putchar c : both R (con_putchar c) (con_putchar c);
  sim_set_colors f b : both R (con_set_colors f b) (con_set_colors f b);
  sim_set_cursor c r : 0 ≤ c → 0 ≤ r → both R (con_set_cursor c r) (con_set_cursor c r);
  sim_get_cursor c1 c2 : R c1 c2 → ∃ c r, con_get_cursor c1 = Done (c, r) c1 ∧ con_get_cursor c2 = Done (c, r) c2 ∧ 0 ≤ c < 2 ^ 31 ∧ 0 ≤ r < 2 ^ 31;
  sim_erase_display m : both R (con_erase_display m) (con_erase_display m);
  sim_erase_line m : both R (con_erase_line m) (con_erase_line m);
}.

#[export] Instance fb_term_sim : ConsoleSim shows.
Proof.
  split.
  - intros c s t Hs. destruct (putchar_ok c s t Hs) as (s' & E & Hs'). by exists tt, s', (t_putchar c t).
  - intros f b s t Hs. destruct (set_colors_ok f b s t Hs) as (s' & E & Hs'). by exists tt, s', (t_set_colors f b t).
  - intros c r Hc Hr s t Hs. destruct (set_cursor_ok c r s t Hs Hc Hr) as (s' & E & Hs'). by exists tt, s', (t_set_cursor c r t).
  - intros s t Hs. pose proof Hs as [[_ _ _ ? ? _ ? ?] _ _ [Hx Hy] [Hi1 Hi2] _ _]. exists (cur_col s), (cur_row s).
    split; [done|]. split; [by cbn; unfold kget; rewrite Hx, Hy|]. lia.
  - intros m s t Hs. destruct (erase_display_ok m s t Hs) as (s' & E & Hs'). by exists tt, s', (t_erase_display m t).
  - intros m s t Hs. destruct (erase_line_ok m s t Hs) as (s' & E & Hs'). by exists tt, s', (t_erase_line m t).
Qed.

(** ** The state of the parser *)

Definition palette : list Z := ansi_colors ++ ansi_bright.
(** What the variables of [ansi.c] can hold. *)
Record ansi_typed {C} (a : Ansi C) : Prop := {
  ty_state : state a = STATE_NORMAL ∨ state a = STATE_ESC ∨ state a = STATE_CSI;
  ty_length : Z.of_nat (length (params a)) = MAX_PARAMS;
  ty_params : Forall (λ p, - 2 ^ 31 ≤ p < 2 ^ 31) (params a);
  ty_count : 0 ≤ param_count a ≤ MAX_PARAMS;
  ty_colors : cur_fg a ∈ palette ∧ cur_bg a ∈ palette;
  ty_bold : bold a = 0 ∨ bold a = 1;
}.

Lemma default_typed : DEFAULT_FG ∈ palette ∧ DEFAULT_BG ∈ palette.
Proof. split; refine (bool_decide_unpack _ _); vm_compute; exact I. Qed.
Lemma color_typed i c : zget ansi_colors i = Some c → c ∈ palette.
Proof. unfold zget. destruct (i <? 0); [done|]. intros Hc%list_elem_of_lookup_2. apply elem_of_app. by left. Qed.
Lemma bright_typed i c : zget ansi_bright i = Some c → c ∈ palette.
Proof. unfold zget. destruct (i <? 0); [done|]. intros Hc%list_elem_of_lookup_2. apply elem_of_app. by right. Qed.

(** ** Simulation *)

Section sim.
Context {C1 C2 : Type} `{Console C1} `{Console C2} (R : C1 → C2 → Prop) `{!ConsoleSim R}.

(** The same parser on another console. *)
Definition retarget (c : C2) (a : Ansi C1) : Ansi C2 := mkAnsi c (state a) (params a) (param_count a) (cur_fg a) (cur_bg a) (bold a).
(** From [a] on its console, and from the same state on the console [c], both complete alike. *)
Definition alike {A} (m1 : K (Ansi C1) A) (m2 : K (Ansi C2) A) (a : Ansi C1) (c : C2) : Prop :=
  ∃ x a' c', m1 a = Done x a' ∧ m2 (retarget c a) = Done x (retarget c' a') ∧ R (con a') c' ∧ ansi_typed a'.

Lemma alike_bind {A B} (m1 : K (Ansi C1) A) (m2 : K (Ansi C2) A) (f1 : A → K (Ansi C1) B) (f2 : A → K (Ansi C2) B) a c :
  alike m1 m2 a c → (∀ x a' c', R (con a') c' → ansi_typed a' → alike (f1 x) (f2 x) a' c') → alike (m1 ≫= f1) (m2 ≫= f2) a c.
Proof.
  intros (x & a' & c' & E1 & E2 & Hr & Ht) Hf. destruct (Hf x a' c' Hr Ht) as (y & b & d & F1 & F2 & Hr' & Ht'). exists y, b, d. kbind E1. kbind E2. done.
Qed.
Lemma alike_mod (f1 : Ansi C1 → Ansi C1) (f2 : Ansi C2 → Ansi C2) a c :
  f2 (retarget c a) = retarget c (f1 a) → con (f1 a) = con a → ansi_typed (f1 a) → R (con a) c → alike (kmod f1) (kmod f2) a c.
Proof. intros Hf Hc Ht Hr. exists tt, (f1 a), c. unfold kmod. by rewrite Hf, Hc. Qed.
Lemma alike_con {A} (m1 : K C1 A) (m2 : K C2 A) a c : both R m1 m2 → R (con a) c → ansi_typed a → alike (on_con m1) (on_con m2) a c.
Proof.
  intros Hm Hr [? ? ? ? ? ?]. destruct (Hm _ _ Hr) as (x & c1 & c2 & E1 & E2 & Hr'). exists x, (with_con c1 a), c2.
  unfold on_con, zoom. cbn [retarget con]. rewrite E1, E2. split; [done|]. split; [done|]. split; [done|]. by split.
Qed.

Lemma typed_sgr (a : Ansi C1) f b d : ansi_typed a → f ∈ palette → b ∈ palette → d = 0 ∨ d = 1 → ansi_typed (with_sgr f b d a).
Proof. intros [? ? ? ? ? ?] Hf Hb Hd. by split. Qed.
Lemma typed_state (a : Ansi C1) st : ansi_typed a → st = STATE_NORMAL ∨ st = STATE_ESC ∨ st = STATE_CSI → ansi_typed (with_state st a).
Proof. intros [? ? ? ? ? ?] Hst. by split. Qed.

Lemma alike_sgr f b d a c : R (con a) c → ansi_typed a → f ∈ palette → b ∈ palette → d = 0 ∨ d = 1 →
  alike (kmod (with_sgr f b d)) (kmod (with_sgr f b d)) a c.
Proof. intros Hr Ht Hf Hb Hd. apply alike_mod; [done|done|by apply typed_sgr|done]. Qed.
(** A colour from a table. *)
Lemma alike_color (l : list Z) i (k1 : Z → K (Ansi C1) unit) (k2 : Z → K (Ansi C2) unit) a c : Z.of_nat (length l) = 8 → 0 ≤ i < 8 →
  (∀ v, zget l i = Some v → alike (k1 v) (k2 v) a c) → alike (kopt (λ _, zget l i) ≫= k1) (kopt (λ _, zget l i) ≫= k2) a c.
Proof.
  intros Hl Hi Hk. destruct (zget_lt l i) as (v & Hv); [lia|]. destruct (Hk v Hv) as (x & a' & c' & E1 & E2 & Hr). exists x, a', c'.
  rewrite (kopt_bind (λ _, zget l i) _ a v Hv), (kopt_bind (λ _, zget l i) _ (retarget c a) v Hv). done.
Qed.

Lemma sgr_param_alike p a c : R (con a) c → ansi_typed a → alike (sgr_param p) (sgr_param p) a c.
Proof.
  intros Hr Ht. pose proof Ht as [_ _ _ _ [Hf Hb] Hd]. destruct default_typed as [Hdf Hdb]. unfold sgr_param, alike. rewrite !kget_bind. cbn [id].
  change (cur_fg (retarget c a)) with (cur_fg a). change (cur_bg (retarget c a)) with (cur_bg a). change (bold (retarget c a)) with (bold a).
  destruct (p =? 0); [by apply alike_sgr; try apply default_typed; [..|left]|].
  destruct (p =? 1); [by apply alike_sgr; [..|right]|].
  destruct (Z.leb_spec 30 p), (Z.leb_spec p 37); cbn [andb].
  { apply alike_color; [by destruct (negb _)|lia|]. intros v Hv. apply alike_sgr; try done. by destruct (negb _); [eapply bright_typed|eapply color_typed]. }
  all: destruct (p =? 39); [by apply alike_sgr|].
  all: destruct (Z.leb_spec 40 p), (Z.leb_spec p 47); cbn [andb]; try lia.
  all: try (apply alike_color; [done|lia|]; intros v Hv; apply alike_sgr; try done; by eapply color_typed).
  all: destruct (p =? 49); [by apply alike_sgr|].
  all: destruct (Z.leb_spec 90 p), (Z.leb_spec p 97); cbn [andb]; try lia.
  all: try (apply alike_color; [done|lia|]; intros v Hv; apply alike_sgr; try done; by eapply bright_typed).
  all: destruct (Z.leb_spec 100 p), (Z.leb_spec p 107); cbn [andb]; try lia.
  all: try (apply alike_color; [done|lia|]; intros v Hv; apply alike_sgr; try done; by eapply bright_typed).
  all: by exists tt, a, c.
Qed.

(** A parameter, and its range. *)
Lemma get_param_ok idx def a c : ansi_typed a → 0 ≤ idx →
  ∃ p, get_param idx def a = Done p a ∧ get_param idx def (retarget c a) = Done p (retarget c a) ∧ (p = def ∨ 0 < p < 2 ^ 31).
Proof.
  intros [_ Hl Hp Hn _ _] Hi. unfold get_param. rewrite !kget_bind. cbn [param_count retarget]. destruct (Z.ltb_spec idx (param_count a)); [|by exists def; auto].
  destruct (zget_lt (params a) idx) as (p & Hg); [lia|]. exists (if 0 <? p then p else def).
  rewrite (kopt_bind (λ a, zget (params a) idx) _ a p Hg), (kopt_bind (λ a, zget (params a) idx) _ (retarget c a) p Hg). split; [done|]. split; [done|].
  destruct (Z.ltb_spec 0 p); [right|by left]. unfold zget in Hg. destruct (idx <? 0); [done|]. apply (Forall_lookup_1 _ _ _ _ Hp) in Hg. lia.
Qed.
Lemma alike_param {A} idx def (k1 : Z → K (Ansi C1) A) (k2 : Z → K (Ansi C2) A) a c : ansi_typed a → 0 ≤ idx →
  (∀ p, p = def ∨ 0 < p < 2 ^ 31 → alike (k1 p) (k2 p) a c) → alike (get_param idx def ≫= k1) (get_param idx def ≫= k2) a c.
Proof.
  intros Ht Hi Hk. destruct (get_param_ok idx def a c Ht Hi) as (p & E1 & E2 & Hp). destruct (Hk p Hp) as (x & a' & c' & F1 & F2 & Hr).
  exists x, a', c'. kbind E1. kbind E2. done.
Qed.

Lemma set_colors_alike a c : R (con a) c → ansi_typed a → alike set_colors set_colors a c.
Proof.
  intros Hr Ht. unfold set_colors, alike. rewrite !kget_bind. cbn [id]. change (cur_fg (retarget c a)) with (cur_fg a). change (cur_bg (retarget c a)) with (cur_bg a).
  apply alike_con; [apply sim_set_colors|done|done].
Qed.

Lemma kfor_alike {A} (l : list A) (b1 : A → K (Ansi C1) unit) (b2 : A → K (Ansi C2) unit) a c : R (con a) c → ansi_typed a →
  (∀ x a c, x ∈ l → R (con a) c → ansi_typed a → alike (b1 x) (b2 x) a c) → alike (kfor l b1) (kfor l b2) a c.
Proof.
  revert a c. induction l as [|x l IH]; intros a c Hr Ht Hb; [by exists tt, a, c|]. cbn [kfor].
  apply alike_bind; [by apply Hb; [left|..]|]. intros _ a' c' Hr' Ht'. apply IH; [done|done|]. intros y b d Hy. apply Hb. by right.
Qed.

Lemma handle_sgr_alike a c : R (con a) c → ansi_typed a → alike handle_sgr handle_sgr a c.
Proof.
  intros Hr Ht. pose proof Ht as [_ _ _ Hn _ _]. unfold handle_sgr, alike. rewrite !kget_bind. cbn [param_count retarget]. destruct (param_count a =? 0).
  - apply alike_bind; [apply alike_sgr; try done; try apply default_typed; by left|]. intros _ a' c'. apply set_colors_alike.
  - apply alike_bind; [|intros _ a' c'; apply set_colors_alike]. apply kfor_alike; [done|done|]. intros i b d Hi Hr' Ht'. apply elem_of_seqZ in Hi.
    destruct (zget_lt (params b) i) as (p & Hp); [rewrite (ty_length _ Ht'); unfold MAX_PARAMS in *; lia|]. destruct (sgr_param_alike p b d Hr' Ht') as (x & b' & d' & E1 & E2 & Hres).
    exists x, b', d'. rewrite (kopt_bind (λ a, zget (params a) i) _ b p Hp), (kopt_bind (λ a, zget (params a) i) _ (retarget d b) p Hp). done.
Qed.

Lemma dispatch_alike final a c : R (con a) c → ansi_typed a → alike (dispatch_csi final) (dispatch_csi final) a c.
Proof.
  intros Hr Ht. destruct (sim_get_cursor _ _ Hr) as (col & row & E1 & E2 & Hcol & Hrow). unfold dispatch_csi, alike.
  assert (on_con con_get_cursor a = Done (col, row) a) as F1 by (unfold on_con, zoom; rewrite E1; by destruct a).
  assert (on_con con_get_cursor (retarget c a) = Done (col, row) (retarget c a)) as F2 by (unfold on_con, zoom; cbn [con retarget]; by rewrite E2).
  kbind F1. kbind F2. cbn [fst snd]. rewrite !(i32_small row), !(i32_small col) by done.
  repeat (case_match; [first [apply handle_sgr_alike; done|apply alike_param; [done|lia|]; intros p Hp]|]); [..|by exists tt, a, c].
  - apply alike_con; [apply sim_set_cursor|done|done]; [lia|]. case_match; [|lia]. apply u32_range.
  - apply alike_con; [apply sim_set_cursor|done|done]; [lia|apply u32_range].
  - apply alike_con; [apply sim_set_cursor|done|done]; [apply u32_range|lia].
  - apply alike_con; [apply sim_set_cursor|done|done]; [|lia]. case_match; [|lia]. apply u32_range.
  - apply alike_param; [done|lia|]. intros q Hq. apply alike_con; [apply sim_set_cursor; apply u32_range|done|done].
  - apply alike_con; [apply sim_erase_display|done|done].
  - apply alike_con; [apply sim_erase_line|done|done].
Qed.

Lemma param_digit_alike ch a c : R (con a) c → ansi_typed a → alike (param_digit ch) (param_digit ch) a c.
Proof.
  intros Hr [Hst Hl Hp Hn Hcol Hb]. unfold param_digit, alike. rewrite !kget_bind. cbn [param_count retarget]. set (n := if param_count a =? 0 then 1 else param_count a).
  assert (1 ≤ n ≤ MAX_PARAMS) as Hn1 by (unfold n, MAX_PARAMS in *; destruct (Z.eqb_spec (param_count a) 0); lia).
  destruct (zget_lt (params a) (n - 1)) as (p & Hg); [lia|]. rewrite (kopt_bind (λ a, zget (params a) (n - 1)) _ a p Hg), (kopt_bind (λ a, zget (params a) (n - 1)) _ (retarget c a) p Hg).
  unfold kupd. cbn [params retarget]. rewrite (zset_lt (params a)) by lia. cbn [mbind option_bind]. eexists _, _, c. split; [done|]. split; [done|]. split; [done|]. split; cbn.
  - done.
  - by rewrite length_insert.
  - apply Forall_insert; [done|]. auto with width.
  - lia.
  - done.
  - done.
Qed.

(** Every byte keeps the state of the parser well formed, and both consoles related. *)
Lemma putchar_alike ch a c : R (con a) c → ansi_typed a → alike (ansi_putchar ch) (ansi_putchar ch) a c.
Proof.
  intros Hr Ht. pose proof Ht as [Hst Hl Hp Hn Hcol Hb]. unfold ansi_putchar, alike. rewrite !kget_bind. cbn [state retarget].
  destruct (state a =? STATE_NORMAL); [|destruct (state a =? STATE_ESC); [|destruct (state a =? STATE_CSI)]].
  - destruct (ch =? 27); [apply alike_mod; [done|done|apply typed_state; auto|done]|]. apply alike_con; [apply sim_putchar|done|done].
  - destruct (ch =? 91); [|apply alike_mod; [done|done|apply typed_state; auto|done]].
    apply alike_mod; [done|done| |done]. split; cbn; [by right; right|done|apply Forall_replicate; lia|unfold MAX_PARAMS; lia|done|done].
  - destruct ((48 <=? ch) && (ch <=? 57)); [by apply param_digit_alike|]. destruct (ch =? 59).
    + apply alike_mod; cbn [param_count retarget]; destruct (Z.ltb_spec (param_count a) MAX_PARAMS); try done. split; cbn; (done || lia).
    + apply alike_bind; [by apply dispatch_alike|]. intros _ a' c' Hr' Ht'. apply alike_mod; [done|done|apply typed_state; auto|done].
  - by exists tt, a, c.
Qed.
Lemma puts_alike str a c : R (con a) c → ansi_typed a → alike (ansi_puts str) (ansi_puts str) a c.
Proof. intros Hr Ht. apply kfor_alike; [done|done|]. intros ch b d _. apply putchar_alike. Qed.
End sim.

(** ** Decimal parameters *)

(** The digits of a number of at most ten digits. *)
Fixpoint dec_digits (n : nat) (v : Z) : list Z :=
  match n with
  | O => []
  | S n' => if v <? 10 then [48 + v] else dec_digits n' (v / 10) ++ [48 + v mod 10]
  end.
Definition dec (v : Z) : list Z := dec_digits 10 v.
(** [ESC\[row;colH]. *)
Definition csi_position (row col : Z) : list Z := [27; 91] ++ dec row ++ [59] ++ dec col ++ [72].

Section position.
Context {C : Type} `{Console C}.
Implicit Types (a : Ansi C).

Lemma ansi_puts_app l1 l2 a : ansi_puts (l1 ++ l2) a = (ansi_puts l1 ≫= λ _, ansi_puts l2) a.
Proof. apply kfor_app. Qed.

Lemma digit_ok a n p d : state a = STATE_CSI → 1 ≤ n → param_count a = n ∨ param_count a = 0 ∧ n = 1 → zget (params a) (n - 1) = Some p →
  0 ≤ d < 10 → 0 ≤ p * 10 + d < 2 ^ 31 →
  ansi_putchar (48 + d) a = Done tt (with_params (<[Z.to_nat (n - 1) := p * 10 + d]> (params a)) n a).
Proof.
  intros Hs Hn Hc Hp Hd Hv. unfold ansi_putchar. rewrite kget_bind, Hs. change (STATE_CSI =? STATE_NORMAL) with false. change (STATE_CSI =? STATE_ESC) with false. rewrite Z.eqb_refl.
  assert ((48 <=? 48 + d) && (48 + d <=? 57) = true) as -> by lia. unfold param_digit. rewrite kget_bind.
  assert ((if param_count a =? 0 then 1 else param_count a) = n) as -> by (destruct (Z.eqb_spec (param_count a) 0); lia). cbv zeta.
  rewrite (kopt_bind (λ a, zget (params a) (n - 1)) _ a p Hp). unfold kupd. rewrite zset_lt by (by eapply zget_Some_range). cbn [mbind option_bind].
  rewrite i32_small by lia. do 4 f_equal. lia.
Qed.

Lemma digits_ok k : ∀ v a n, 0 ≤ v < 10 ^ Z.of_nat k → v < 2 ^ 31 → state a = STATE_CSI → 1 ≤ n → param_count a = n ∨ param_count a = 0 ∧ n = 1 →
  zget (params a) (n - 1) = Some 0 → (0 < k)%nat →
  ansi_puts (dec_digits k v) a = Done tt (with_params (<[Z.to_nat (n - 1) := v]> (params a)) n a).
Proof.
  induction k as [|k IH]; intros v a n Hv Hv2 Hs Hn Hc Hp Hk; [lia|]. cbn [dec_digits]. destruct (Z.ltb_spec v 10).
  { unfold ansi_puts. cbn [kfor]. rewrite (bind_Done _ _ _ _ _ (digit_ok a n 0 v Hs Hn Hc Hp ltac:(lia) ltac:(lia))). by rewrite Z.mul_0_l. }
  rewrite Nat2Z.inj_succ, Z.pow_succ_r in Hv by lia. assert (0 < k)%nat by (destruct k; [rewrite Z.pow_0_r in Hv; lia|lia]).
  rewrite ansi_puts_app. rewrite (bind_Done _ _ _ _ _ (IH (v / 10) a n ltac:(lia) ltac:(lia) Hs Hn Hc Hp ltac:(done))).
  pose proof (zget_Some_range _ _ _ Hp) as Hr. set (a1 := with_params _ n a). unfold ansi_puts. cbn [kfor].
  assert (zget (params a1) (n - 1) = Some (v / 10)) as Hg.
  { unfold zget. destruct (Z.ltb_spec (n - 1) 0); [lia|]. cbn. apply list_lookup_insert_eq. lia. }
  rewrite (bind_Done _ _ _ _ _ (digit_ok a1 n (v / 10) (v mod 10) Hs Hn (or_introl eq_refl) Hg ltac:(lia) ltac:(lia))).
  unfold mret, K_ret, a1, with_params. cbn. rewrite list_insert_insert_eq. do 4 f_equal. lia.
Qed.

Lemma position_dispatch a row col p c' : params a = [row; col; 0; 0; 0; 0; 0; 0] → param_count a = 2 → 1 ≤ row < 2 ^ 31 → 1 ≤ col < 2 ^ 31 →
  con_get_cursor (con a) = Done p (con a) → con_set_cursor (col - 1) (row - 1) (con a) = Done tt c' → dispatch_csi 72 a = Done tt (with_con c' a).
Proof.
  intros Hp Hn Hr Hc Eg Es. unfold dispatch_csi. assert (on_con con_get_cursor a = Done p a) as E1 by (unfold on_con, zoom; rewrite Eg; by destruct a). kbind E1.
  change (72 =? 65) with false. change (72 =? 66) with false. change (72 =? 67) with false. change (72 =? 68) with false. change ((72 =? 72) || (72 =? 102)) with true. cbv iota zeta.
  assert (get_param 0 1 a = Done row a) as E2.
  { unfold get_param. rewrite kget_bind, Hn. change (0 <? 2) with true. cbv iota. rewrite (kopt_bind (λ a, zget (params a) 0) _ a row) by (by rewrite Hp). by destruct (Z.ltb_spec 0 row); [|lia]. }
  assert (get_param 1 1 a = Done col a) as E3.
  { unfold get_param. rewrite kget_bind, Hn. change (1 <? 2) with true. cbv iota. rewrite (kopt_bind (λ a, zget (params a) 1) _ a col) by (by rewrite Hp). by destruct (Z.ltb_spec 0 col); [|lia]. }
  kbind E2. kbind E3. destruct (Z.ltb_spec (col - 1) 0); [lia|]. destruct (Z.ltb_spec (row - 1) 0); [lia|]. rewrite !u32_small by lia. unfold on_con, zoom. by rewrite Es.
Qed.

Lemma position_lemma a row col p c' : state a = STATE_NORMAL → 1 ≤ row < 2 ^ 31 → 1 ≤ col < 2 ^ 31 →
  con_get_cursor (con a) = Done p (con a) → con_set_cursor (col - 1) (row - 1) (con a) = Done tt c' →
  ansi_puts (csi_position row col) a = Done tt (with_con c' (with_state STATE_NORMAL (with_params [row; col; 0; 0; 0; 0; 0; 0] 2 a))).
Proof.
  intros Hs Hr Hc Eg Es. unfold csi_position. rewrite ansi_puts_app. set (a1 := with_state STATE_CSI (with_params (replicate (Z.to_nat MAX_PARAMS) 0) 0 a)).
  assert (ansi_puts [27; 91] a = Done tt a1) as E1.
  { unfold ansi_puts. cbn [kfor]. rewrite (bind_Done _ _ _ tt (with_state STATE_ESC a)); [|unfold ansi_putchar; by rewrite kget_bind, Hs]. done. }
  kbind E1. rewrite ansi_puts_app. assert (0 ≤ row < 10 ^ Z.of_nat 10 ∧ 0 ≤ col < 10 ^ Z.of_nat 10) as [Hr10 Hc10] by (change (10 ^ Z.of_nat 10) with 10000000000; lia).
  pose proof (digits_ok 10 row a1 1 Hr10 ltac:(lia) eq_refl ltac:(lia) ltac:(right; done) eq_refl ltac:(lia)) as E2. unfold dec. kbind E2. rewrite ansi_puts_app.
  set (a2 := with_params _ 1 a1). set (a3 := with_params [row; 0; 0; 0; 0; 0; 0; 0] 2 a1). assert (ansi_puts [59] a2 = Done tt a3) as E3 by done. kbind E3. rewrite ansi_puts_app.
  pose proof (digits_ok 10 col a3 2 Hc10 ltac:(lia) eq_refl ltac:(lia) ltac:(left; done) eq_refl ltac:(lia)) as E4. kbind E4.
  set (a4 := with_params _ 2 a3). pose proof (position_dispatch a4 row col p c' eq_refl eq_refl Hr Hc Eg Es) as E5.
  unfold ansi_puts. cbn [kfor]. assert (ansi_putchar 72 a4 = Done tt (with_state STATE_NORMAL (with_con c' a4))) as E6; [|by kbind E6].
  unfold ansi_putchar. rewrite kget_bind. change (state a4) with STATE_CSI. change (STATE_CSI =? STATE_NORMAL) with false. change (STATE_CSI =? STATE_ESC) with false. rewrite Z.eqb_refl.
  change ((48 <=? 72) && (72 <=? 57)) with false. change (72 =? 59) with false. cbv iota. by kbind E5.
Qed.
End position.

(** ** Theorems *)

(** The parser before the first byte. *)
Definition ansi_start {C} (c : C) : Ansi C := mkAnsi c STATE_NORMAL (replicate (Z.to_nat MAX_PARAMS) 0) 0 DEFAULT_FG DEFAULT_BG 0.
Lemma start_typed {C} (c : C) : ansi_typed (ansi_start c).
Proof. split; cbn; [by left|done|apply Forall_replicate; lia|unfold MAX_PARAMS; lia|apply default_typed|by left]. Qed.

(** Every byte keeps the variables of the parser and of the console in the ranges of their types: the state is one of the three, there are
    at most eight parameters, each an [int], the colours are of the palette, and the cursor stays on the screen. *)
Theorem ansi_putchar_typed ch a t : ansi_typed a → shows (con a) t →
  ∃ a' t', ansi_putchar ch a = Done tt a' ∧ ansi_typed a' ∧ shows (con a') t' ∧ 0 ≤ cur_col (con a') < cols (con a') ∧ 0 ≤ cur_row (con a') < rows (con a').
Proof.
  intros Ht Hs. destruct (putchar_alike shows ch a t Hs Ht) as ([] & a' & t' & E & _ & Hs' & Ht'). exists a', t'. split; [done|]. split; [done|]. split; [done|]. apply Hs'.
Qed.

(** The sequence ESC \[ row ; col H, with the numbers in decimal, moves the cursor to that row and column, counted from one, or to the last ones
    of the screen, and changes nothing else on it. *)
Theorem csi_position_correct a t row col : ansi_typed a → shows (con a) t → state a = STATE_NORMAL → 1 ≤ row < 2 ^ 31 → 1 ≤ col < 2 ^ 31 →
  ∃ a', ansi_puts (csi_position row col) a = Done tt a' ∧ state a' = STATE_NORMAL ∧ shows (con a') (t_set_cursor (col - 1) (row - 1) t).
Proof.
  intros Ht Hs Hn Hr Hc. destruct (set_cursor_ok (col - 1) (row - 1) (con a) t Hs ltac:(lia) ltac:(lia)) as (s' & E & Hs').
  eexists. split; [by apply (position_lemma a row col (cur_col (con a), cur_row (con a)) s')|]. by split.
Qed.

(** ** Examples *)

(** A screen of four columns and two rows. *)
Definition fb_example : Framebuffer := mkFramebuffer 0x1000 32 32 128 32 8 16 8 8 8 0.
Definition fb_zero (l : list Z) : Fb := mkFb {[ 0x1000 := l ]} 0 0 0 0 0 0 0 0 0 0 0 0 0 0 0 0 0 0.
Definition fb_start : Fb := fb_zero (replicate (Z.to_nat 4096) 7).
Lemma fb_example_usable : usable fb_example fb_start.
Proof. split; cbn; try lia. eexists. split; [apply lookup_singleton_eq|]. by rewrite length_replicate. Qed.

Lemma fb_example_shows : ∃ s, shows s (t_init fb_example).
Proof. destruct (init_ok fb_example fb_start fb_example_usable) as (s & _ & Hs). by exists s. Qed.
Lemma ansi_putchar_typed_witness : ∃ (a' : Ansi Fb) t', ansi_typed a' ∧ shows (con a') t'.
Proof.
  destruct fb_example_shows as (s & Hs). destruct (ansi_putchar_typed 65 (ansi_start s) (t_init fb_example) (start_typed s) Hs) as (a' & t' & _ & Ht & Hs' & _).
  by exists a', t'.
Defined.
Lemma csi_position_correct_witness : ∃ a' : Ansi Fb, state a' = STATE_NORMAL ∧ shows (con a') (t_set_cursor 2 1 (t_init fb_example)).
Proof.
  destruct fb_example_shows as (s & Hs). destruct (csi_position_correct (ansi_start s) (t_init fb_example) 2 3 (start_typed s) Hs eq_refl ltac:(lia) ltac:(lia)) as (a' & _ & Hn & Hs').
  by exists a'.
Defined.

(** An empty first parameter is not counted: ESC \[ ; 5 H goes to row 5 and column 1 instead of row 1 and column 5. *)
Lemma csi_empty_parameter :
  ∃ t, ansi_puts [27; 91; 59; 53; 72] (ansi_start (mkTerm 80 25 id 0 0 0 0 (λ _ _, blank))) = Done tt t ∧ t_row (con t) = 4 ∧ t_col (con t) = 0.
Proof. eexists. split; [vm_compute; reflexivity|]. by split. Qed.
(** With 24 bits per pixel, which [fb_console_init] accepts, the four bytes of the last pixel end outside the framebuffer. *)
Lemma fb_24bpp_overrun :
  (fb_console_init (Some (mkFramebuffer 0x1000 8 16 24 24 8 16 8 8 8 0)) ≫= λ _, fb_console_putchar 65) (fb_zero (replicate (Z.to_nat (24 * 16)) 0)) = Stuck.
Proof. vm_compute. reflexivity. Qed.
