(* ===== verification/AnsiSpec.v ===== *)
(** * What the escape sequences mean

    A description of terminal input that does not follow the parser: the input is a list of characters, of escape sequences and
    of control sequences with their parameters, each with its bytes and with what it does to a grid of characters with a cursor
    and colours.  The parser of [ansi.c] on the framebuffer console shows the result, pixel by pixel. *)
From S2P Require Import Prelude Font FbConsole FbTerm Ansi AnsiCorrect.

(** ** Input *)

(** A parameter is the list of its digits, and may have none. *)
Inductive Item : Type :=
  | Char (c : Z)
  | Escape (c : Z)
  | Csi (params : list (list Z)) (final : Z).

Definition digits (w : list Z) : list Z := (λ d, 48 + d) <$> w.
Definition encode (i : Item) : list Z :=
  match i with
  | Char c => [c]
  | Escape c => [27; c]
  | Csi [] f => [27; 91; f]
  | Csi (w :: ws) f => [27; 91] ++ digits w ++ concat ((λ w, 59 :: digits w) <$> ws) ++ [f]
  end.
Definition value (w : list Z) : Z := foldl (λ v d, v * 10 + d) 0 w.

Definition param_ok (w : list Z) : Prop := Forall (λ d, 0 ≤ d < 10) w ∧ value w < 2 ^ 31.
(** A character is not ESC, and what follows ESC in an escape sequence is not a bracket.  A control sequence has at most eight parameters, the first of
    them not empty, and ends with a byte that is neither a digit nor a semicolon. *)
Definition item_ok (i : Item) : Prop :=
  match i with
  | Char c => c ≠ 27
  | Escape c => c ≠ 91
  | Csi ps f => Forall param_ok ps ∧ (length ps ≤ 8)%nat ∧ head ps ≠ Some [] ∧ ¬ (48 ≤ f ≤ 57) ∧ f ≠ 59
  end.

(** ** Meaning *)

(** The terminal, and the colours and the weight that sequences chose last. *)
Record Screen : Type := mkScreen { term : Term; ink : Z; paper : Z; heavy : bool }.

(** The colours of the terminal as 0xRRGGBB, by the bits of their number for red, green and blue; dark yellow is brown. *)
Definition mix (k level : Z) : Z :=
  (if Z.testbit k 0 then level * 65536 else 0) + (if Z.testbit k 1 then level * 256 else 0) + (if Z.testbit k 2 then level else 0).
Definition dark (k : Z) : Z := if k =? 3 then 0xAA5500 else mix k 0xAA.
Definition light (k : Z) : Z := 0x555555 + mix k 0xAA.

(** One parameter of the sequence that chooses colours: to (ink, paper, heavy). *)
Definition choose (s : Z * Z * bool) (p : Z) : Z * Z * bool :=
  let '(i, b, h) := s in
  if decide (p = 0) then (0xAAAAAA, 0x000000, false) else
  if decide (p = 1) then (i, b, true) else
  if decide (30 ≤ p ≤ 37) then (if h then light (p - 30) else dark (p - 30), b, h) else
  if decide (p = 39) then (0xAAAAAA, b, h) else
  if decide (40 ≤ p ≤ 47) then (i, dark (p - 40), h) else
  if decide (p = 49) then (i, 0x000000, h) else
  if decide (90 ≤ p ≤ 97) then (light (p - 90), b, h) else
  if decide (100 ≤ p ≤ 107) then (i, light (p - 100), h) else s.

(** A parameter that is missing, empty or zero stands for [def]. *)
Definition arg (ps : list Z) (i : nat) (def : Z) : Z := match ps !! i with Some v => if decide (v = 0) then def else v | None => def end.
(** The cursor at a column and a row, or at the nearest ones of the screen. *)
Definition move_to (col row : Z) (t : Term) : Term :=
  t_cursor (Z.max 0 (Z.min col (t_cols t - 1))) (Z.max 0 (Z.min row (t_rows t - 1))) t.

Inductive CsiCommand : Type := Up | Down | Forward | Back | Position | EraseDisplay | EraseLine | Colours | Other.
Definition command (final : Z) : CsiCommand :=
  if decide (final = 65) then Up else if decide (final = 66) then Down else if decide (final = 67) then Forward else
  if decide (final = 68) then Back else if decide (final = 72 ∨ final = 102) then Position else if decide (final = 74) then EraseDisplay else
  if decide (final = 75) then EraseLine else if decide (final = 109) then Colours else Other.

Definition on_term (f : Term → Term) (s : Screen) : Screen := mkScreen (f (term s)) (ink s) (paper s) (heavy s).
Definition perform (ps : list Z) (final : Z) (s : Screen) : Screen :=
  let col := t_col (term s) in
  let row := t_row (term s) in
  match command final with
  | Up => on_term (move_to col (row - arg ps 0 1)) s
  | Down => on_term (move_to col (row + arg ps 0 1)) s
  | Forward => on_term (move_to (col + arg ps 0 1) row) s
  | Back => on_term (move_to (col - arg ps 0 1) row) s
  | Position => on_term (move_to (arg ps 1 1 - 1) (arg ps 0 1 - 1)) s
  | EraseDisplay => on_term (t_erase_display (arg ps 0 0)) s
  | EraseLine => on_term (t_erase_line (arg ps 0 0)) s
  | Colours =>
      let '(i, b, h) := foldl choose (ink s, paper s, heavy s) (match ps with [] => [0] | _ => ps end) in
      mkScreen (t_set_colors i b (term s)) i b h
  | Other => s
  end.

Definition interpret (s : Screen) (i : Item) : Screen :=
  match i with
  | Char c => on_term (t_putchar c) s
  | Escape _ => s
  | Csi ps f => perform (value <$> ps) f s
  end.
Definition screen_init (fb : Framebuffer) : Screen := mkScreen (t_init fb) 0xAAAAAA 0x000000 false.

(** ** Parameters *)

Section parameters.
Context {C : Type} `{Console C}.
Implicit Types (a : Ansi C).

Lemma value_mono w : ∀ p, 0 ≤ p → Forall (λ d, 0 ≤ d < 10) w → p ≤ foldl (λ v d, v * 10 + d) p w.
Proof.
  induction w as [|d w IH]; intros p Hp Hw; cbn [foldl]; [lia|]. apply Forall_cons in Hw as [Hd Hw].
  specialize (IH (p * 10 + d) ltac:(lia) Hw). lia.
Qed.
Lemma param_range w : param_ok w → 0 ≤ value w < 2 ^ 31.
Proof. intros [Hd Hv]. split; [|done]. by apply (value_mono w 0). Qed.

(** The digits of a parameter, in its place. *)
Lemma field_ok w : ∀ a n p, state a = STATE_CSI → 1 ≤ n → param_count a = n ∨ param_count a = 0 ∧ n = 1 ∧ w ≠ [] →
  zget (params a) (n - 1) = Some p → 0 ≤ p → Forall (λ d, 0 ≤ d < 10) w → foldl (λ v d, v * 10 + d) p w < 2 ^ 31 →
  ansi_puts (digits w) a = Done tt (with_params (<[Z.to_nat (n - 1) := foldl (λ v d, v * 10 + d) p w]> (params a)) n a).
Proof.
  induction w as [|d w IH]; intros a n p Hs Hn Hc Hp H0 Hw Hv.
  { destruct Hc as [Hc|(_ & _ & ?)]; [|done]. cbn [foldl]. rewrite list_insert_id; [by rewrite <-Hc; destruct a|].
    unfold zget in Hp. by destruct (n - 1 <? 0). }
  apply Forall_cons in Hw as [Hd Hw]. cbn [foldl] in *. pose proof (value_mono w (p * 10 + d) ltac:(lia) Hw) as Hm.
  unfold ansi_puts, digits. rewrite fmap_cons. cbn [kfor].
  kbind (digit_ok a n p d Hs Hn ltac:(naive_solver) Hp Hd ltac:(lia)). pose proof (zget_Some_range _ _ _ Hp) as Hr.
  pose proof (IH (with_params (<[Z.to_nat (n - 1) := p * 10 + d]> (params a)) n a) n (p * 10 + d) Hs Hn (or_introl eq_refl)) as E.
  unfold ansi_puts, digits in E. rewrite E; [|clear E|lia|done|done].
  - unfold with_params. cbn. by rewrite list_insert_insert_eq.
  - unfold zget. destruct (Z.ltb_spec (n - 1) 0); [lia|]. cbn. apply list_lookup_insert_eq. lia.
Qed.

(** The values that the parser has for the parameters [vs]. *)
Definition padded (vs : list Z) : list Z := vs ++ replicate (8 - length vs) 0.
Lemma padded_insert vs v : (length vs < 8)%nat → <[length vs := v]> (padded vs) = padded (vs ++ [v]).
Proof.
  intros Hl. unfold padded. rewrite length_app. cbn [length]. replace (8 - length vs)%nat with (S (8 - (length vs + 1))) by lia. cbn [replicate].
  rewrite <-(Nat.add_0_r (length vs)) at 1. rewrite insert_app_r. cbn. by rewrite <-app_assoc.
Qed.
Lemma padded_next vs : (length vs < 8)%nat → zget (padded vs) (Z.of_nat (length vs)) = Some 0.
Proof.
  intros Hl. rewrite zget_nat. unfold padded. rewrite lookup_app_r, Nat.sub_diag by lia. apply lookup_replicate. lia.
Qed.

Lemma fields_ok ws : ∀ a vs, state a = STATE_CSI → params a = padded vs → param_count a = Z.of_nat (length vs) → (1 ≤ length vs)%nat →
  (length vs + length ws ≤ 8)%nat → Forall param_ok ws →
  ansi_puts (concat ((λ w, 59 :: digits w) <$> ws)) a =
    Done tt (with_params (padded (vs ++ (value <$> ws))) (Z.of_nat (length (vs ++ (value <$> ws)))) a).
Proof.
  induction ws as [|w ws IH]; intros a vs Hs Hp Hc H1 Hl Hw.
  { cbn [fmap list_fmap]. rewrite app_nil_r, <-Hp, <-Hc. by destruct a. }
  apply Forall_cons in Hw as [Hw Hws]. pose proof (param_range w Hw) as Hv. destruct Hw as [Hd _]. cbn [length] in Hl.
  rewrite fmap_cons. cbn [concat]. rewrite ansi_puts_app. set (a1 := with_params (params a) (param_count a + 1) a).
  assert (ansi_putchar 59 a = Done tt a1) as E1.
  { unfold ansi_putchar. rewrite kget_bind, Hs. change (STATE_CSI =? STATE_NORMAL) with false. change (STATE_CSI =? STATE_ESC) with false. rewrite Z.eqb_refl.
    unfold kmod, MAX_PARAMS. cbn. by destruct (Z.ltb_spec (param_count a) 8); [|lia]. }
  assert (ansi_puts (59 :: digits w) a = Done tt (with_params (padded (vs ++ [value w])) (Z.of_nat (length (vs ++ [value w]))) a)) as E.
  { unfold ansi_puts. cbn [kfor]. kbind E1. change (kfor (digits w) ansi_putchar a1) with (ansi_puts (digits w) a1).
    rewrite (field_ok w a1 (param_count a + 1) 0); [|done|lia|by left|replace (param_count a + 1 - 1) with (Z.of_nat (length vs)) by lia; cbn; rewrite Hp; apply padded_next; lia|lia|done|apply Hv].
    unfold a1, with_params. cbn. replace (Z.to_nat (param_count a + 1 - 1)) with (length vs) by lia. rewrite Hp, padded_insert by lia.
    rewrite length_app. cbn [length]. do 2 f_equal. f_equal. lia. }
  kbind E. rewrite (IH (with_params (padded (vs ++ [value w])) (Z.of_nat (length (vs ++ [value w]))) a) (vs ++ [value w])); try done; try (rewrite length_app; cbn; lia).
  unfold with_params. cbn. by rewrite <-!app_assoc.
Qed.

(** The parser at the end of the parameters of a control sequence. *)
Lemma params_ok ps f a : state a = STATE_NORMAL → item_ok (Csi ps f) →
  ∃ l, encode (Csi ps f) = l ++ [f] ∧
    ansi_puts l a = Done tt (with_state STATE_CSI (with_params (padded (value <$> ps)) (Z.of_nat (length ps)) a)).
Proof.
  intros Hs (Hp & Hl & Hh & _). set (a1 := with_state STATE_CSI (with_params (padded []) 0 a)).
  assert (ansi_puts [27; 91] a = Done tt a1) as E1.
  { unfold ansi_puts. cbn [kfor]. rewrite (bind_Done _ _ _ tt (with_state STATE_ESC a)); [|unfold ansi_putchar; by rewrite kget_bind, Hs]. done. }
  destruct ps as [|w ws]; [by exists [27; 91]|]. exists ([27; 91] ++ digits w ++ concat ((λ w, 59 :: digits w) <$> ws)).
  split; [cbn [encode]; by rewrite <-!app_assoc|]. apply Forall_cons in Hp as [Hw Hws]. pose proof (param_range w Hw) as Hv. destruct Hw as [Hd _].
  rewrite ansi_puts_app. kbind E1. rewrite ansi_puts_app.
  assert (ansi_puts (digits w) a1 = Done tt (with_params (padded [value w]) 1 a1)) as E2.
  { apply (field_ok w a1 1 0); try done; [right; split_and!; [done|done|naive_solver]|apply Hv]. }
  kbind E2. rewrite (fields_ok ws (with_params (padded [value w]) 1 a1) [value w]); try done; cbn [length] in *; [|lia..].
  cbn [app fmap list_fmap length]. by rewrite length_fmap.
Qed.

Lemma get_param_arg a vs i def : params a = padded vs → param_count a = Z.of_nat (length vs) → Forall (λ v, 0 ≤ v) vs →
  get_param (Z.of_nat i) def a = Done (arg vs i def) a.
Proof.
  intros Hp Hc Hv. unfold get_param, arg. rewrite kget_bind, Hc. destruct (vs !! i) as [v|] eqn:E.
  - pose proof (lookup_lt_Some _ _ _ E). destruct (Z.ltb_spec (Z.of_nat i) (Z.of_nat (length vs))); [|lia].
    rewrite (kopt_bind _ _ _ v) by (rewrite Hp, zget_nat; unfold padded; by rewrite lookup_app_l).
    pose proof (Forall_lookup_1 _ _ _ _ Hv E) as Hv0. cbv beta in Hv0. case_decide; destruct (Z.ltb_spec 0 v); (done || lia).
  - apply lookup_ge_None in E. destruct (Z.ltb_spec (Z.of_nat i) (Z.of_nat (length vs))); [lia|done].
Qed.

(** ** Colours *)

Lemma dark_ok k : 0 ≤ k < 8 → zget ansi_colors k = Some (dark k).
Proof. intros Hk. assert (k = 0 ∨ k = 1 ∨ k = 2 ∨ k = 3 ∨ k = 4 ∨ k = 5 ∨ k = 6 ∨ k = 7) as Hc by lia. by destruct_or! Hc; subst k. Qed.
Lemma light_ok k : 0 ≤ k < 8 → zget ansi_bright k = Some (light k).
Proof. intros Hk. assert (k = 0 ∨ k = 1 ∨ k = 2 ∨ k = 3 ∨ k = 4 ∨ k = 5 ∨ k = 6 ∨ k = 7) as Hc by lia. by destruct_or! Hc; subst k. Qed.

(** The colours of the parser. *)
Definition chosen (s : Z * Z * bool) a : Ansi C := with_sgr s.1.1 s.1.2 (Z.b2z s.2) a.
Lemma sgr_param_ok s p a : sgr_param p (chosen s a) = Done tt (chosen (choose s p) a).
Proof.
  destruct s as [[i b] h]. unfold sgr_param, choose. rewrite kget_bind. cbn [id chosen fst snd].
  change (cur_fg (with_sgr i b (Z.b2z h) a)) with i. change (cur_bg (with_sgr i b (Z.b2z h) a)) with b. change (bold (with_sgr i b (Z.b2z h) a)) with (Z.b2z h).
  assert (∀ l k v (g : Z → K (Ansi C) unit) a', zget l k = Some v → (kopt (λ _, zget l k) ≫= g) a' = g v a') as Hk by (intros; by apply kopt_bind).
  destruct (Z.eqb_spec p 0), (decide (p = 0)); [done|lia|lia|]. destruct (Z.eqb_spec p 1), (decide (p = 1)); [done|lia|lia|].
  destruct (decide (30 ≤ p ≤ 37)).
  { replace ((30 <=? p) && (p <=? 37)) with true by lia. destruct h; cbn [Z.b2z Z.eqb negb].
    - by rewrite (Hk _ _ _ _ _ (light_ok (p - 30) ltac:(lia))).
    - by rewrite (Hk _ _ _ _ _ (dark_ok (p - 30) ltac:(lia))). }
  replace ((30 <=? p) && (p <=? 37)) with false by lia. destruct (Z.eqb_spec p 39), (decide (p = 39)); [done|lia|lia|].
  destruct (decide (40 ≤ p ≤ 47)).
  { replace ((40 <=? p) && (p <=? 47)) with true by lia. by rewrite (Hk _ _ _ _ _ (dark_ok (p - 40) ltac:(lia))). }
  replace ((40 <=? p) && (p <=? 47)) with false by lia. destruct (Z.eqb_spec p 49), (decide (p = 49)); [done|lia|lia|].
  destruct (decide (90 ≤ p ≤ 97)).
  { replace ((90 <=? p) && (p <=? 97)) with true by lia. by rewrite (Hk _ _ _ _ _ (light_ok (p - 90) ltac:(lia))). }
  replace ((90 <=? p) && (p <=? 97)) with false by lia. destruct (decide (100 ≤ p ≤ 107)).
  { replace ((100 <=? p) && (p <=? 107)) with true by lia. by rewrite (Hk _ _ _ _ _ (light_ok (p - 100) ltac:(lia))). }
  by replace ((100 <=? p) && (p <=? 107)) with false by lia.
Qed.
Lemma sgr_loop_ok vs s a : params a = padded vs →
  kfor (seqZ 0 (Z.of_nat (length vs))) (λ i, p ← kopt (λ a, zget (params a) i); sgr_param p) (chosen s a) = Done tt (chosen (foldl choose s vs) a).
Proof.
  intros Hp. destruct (kfor_seqZ_ind (λ i a', a' = chosen (foldl choose s (take (Z.to_nat i) vs)) a)
    (λ i, p ← kopt (λ a, zget (params a) i); sgr_param p) 0 (Z.of_nat (length vs)) (chosen s a)) as (a' & -> & ->); [lia|done| |].
  - intros i a' Hi ->. destruct (lookup_lt_is_Some_2 vs (Z.to_nat i)) as [v Hv]; [lia|]. eexists. rewrite (kopt_bind _ _ _ v).
    + split; [apply sgr_param_ok|]. f_equal. replace (Z.to_nat (i + 1)) with (S (Z.to_nat i)) by lia. by rewrite (take_S_r _ _ v), foldl_app.
    + cbn [params chosen with_sgr]. rewrite Hp. replace i with (Z.of_nat (Z.to_nat i)) by lia. rewrite zget_nat. unfold padded. by rewrite lookup_app_l by lia.
  - rewrite Z.add_0_l, Nat2Z.id, firstn_all. done.
Qed.
End parameters.

(** ** Control sequences *)

(** The cursor is on the screen. *)
Definition inside (t : Term) : Prop := 0 ≤ t_col t < t_cols t ∧ 0 ≤ t_row t < t_rows t ∧ t_cols t < 2 ^ 31 ∧ t_rows t < 2 ^ 31.
(** The parser in the state [st] with the parameters [vs], over a screen. *)
Definition parser (s : Screen) (vs : list Z) (st : Z) : Ansi Term :=
  mkAnsi (term s) st (padded vs) (Z.of_nat (length vs)) (ink s) (paper s) (Z.b2z (heavy s)).

Lemma arg_range vs i def : Forall (λ v, 0 ≤ v < 2 ^ 31) vs → arg vs i def = def ∨ 0 < arg vs i def < 2 ^ 31.
Proof.
  intros Hv. unfold arg. destruct (vs !! i) as [v|] eqn:E; [|by left]. case_decide; [by left|right].
  pose proof (Forall_lookup_1 _ _ _ _ Hv E) as Hr. cbv beta in Hr. lia.
Qed.
Lemma param_bind {A} s vs st i def (k : Z → K (Ansi Term) A) : Forall (λ v, 0 ≤ v < 2 ^ 31) vs →
  (get_param (Z.of_nat i) def ≫= k) (parser s vs st) = k (arg vs i def) (parser s vs st).
Proof.
  intros Hv. apply bind_Done, get_param_arg; [done|done|]. eapply Forall_impl; [exact Hv|]. intros v Hr. cbv beta in Hr |- *. lia.
Qed.
Lemma cursor_ok s vs st c r c' r' : inside (term s) → 0 ≤ c → 0 ≤ r → c = Z.max 0 c' ∨ t_cols (term s) ≤ c' ∧ t_cols (term s) ≤ c → r = Z.max 0 r' ∨ t_rows (term s) ≤ r' ∧ t_rows (term s) ≤ r →
  on_con (con_set_cursor c r) (parser s vs st) = Done tt (parser (on_term (move_to c' r') s) vs st).
Proof.
  intros (Hc & Hr & _ & _) H0 H1 Hcc Hrr. unfold on_con, zoom. cbn.
  assert (t_set_cursor c r (term s) = move_to c' r' (term s)) as E by (unfold t_set_cursor, move_to; f_equal; lia). rewrite E. done.
Qed.

Lemma colours_ok s vs st : Forall (λ v, 0 ≤ v < 2 ^ 31) vs →
  handle_sgr (parser s vs st) = Done tt (parser (perform vs 109 s) vs st).
Proof.
  intros Hv. unfold handle_sgr, perform. change (command 109) with Colours. cbv iota. rewrite kget_bind.
  change (param_count (parser s vs st)) with (Z.of_nat (length vs)).
  assert (∀ c, set_colors (chosen c (parser s vs st)) = Done tt (parser (mkScreen (t_set_colors c.1.1 c.1.2 (term s)) c.1.1 c.1.2 c.2) vs st)) as Hset by done.
  destruct vs as [|v vs]; [done|]. destruct (Z.eqb_spec (Z.of_nat (length (v :: vs))) 0); [done|].
  change (parser s (v :: vs) st) with (chosen (ink s, paper s, heavy s) (parser s (v :: vs) st)) at 1.
  pose proof (sgr_loop_ok (v :: vs) (ink s, paper s, heavy s) (parser s (v :: vs) st) eq_refl) as E. kbind E. rewrite Hset.
  by destruct (foldl choose (ink s, paper s, heavy s) (v :: vs)) as [[i b] h].
Qed.

Lemma perform_ok vs f s st : inside (term s) → Forall (λ v, 0 ≤ v < 2 ^ 31) vs →
  dispatch_csi f (parser s vs st) = Done tt (parser (perform vs f s) vs st).
Proof.
  intros Hin Hv. pose proof Hin as (Hc & Hr & Hcm & Hrm). unfold dispatch_csi.
  assert (on_con con_get_cursor (parser s vs st) = Done (t_col (term s), t_row (term s)) (parser s vs st)) as E by done. kbind E. cbn [fst snd].
  rewrite !i32_small by lia. pose proof (arg_range vs 0 1 Hv) as H01. pose proof (arg_range vs 1 1 Hv) as H11.
  destruct (decide (f = 109)) as [->|H109]; [by apply colours_ok|]. unfold perform, command.
  destruct (Z.eqb_spec f 65); [rewrite decide_True by done; rewrite (param_bind s vs st 0 1) by done|rewrite decide_False by done].
  { apply cursor_ok; [done|lia| |left; lia|]; destruct (Z.leb_spec (arg vs 0 1) (t_row (term s))); rewrite ?(u32_small (arg vs 0 1)) by lia; rewrite ?u32_small by lia; lia. }
  destruct (Z.eqb_spec f 66); [rewrite decide_True by done; rewrite (param_bind s vs st 0 1) by done|rewrite decide_False by done].
  { apply cursor_ok; [done|lia|apply u32_range|left; lia|]. rewrite (u32_small (arg vs 0 1)), u32_small by lia. left. lia. }
  destruct (Z.eqb_spec f 67); [rewrite decide_True by done; rewrite (param_bind s vs st 0 1) by done|rewrite decide_False by done].
  { apply cursor_ok; [done|apply u32_range|lia| |left; lia]. rewrite (u32_small (arg vs 0 1)), u32_small by lia. left. lia. }
  destruct (Z.eqb_spec f 68); [rewrite decide_True by done; rewrite (param_bind s vs st 0 1) by done|rewrite decide_False by done].
  { apply cursor_ok; [done| |lia| |left; lia]; destruct (Z.leb_spec (arg vs 0 1) (t_col (term s))); rewrite ?(u32_small (arg vs 0 1)) by lia; rewrite ?u32_small by lia; lia. }
  destruct (decide (f = 72 ∨ f = 102)) as [Hf|Hf].
  { replace ((f =? 72) || (f =? 102)) with true by lia. rewrite (param_bind s vs st 0 1), (param_bind s vs st 1 1) by done.
    destruct (Z.ltb_spec (arg vs 1 1 - 1) 0); [lia|]. destruct (Z.ltb_spec (arg vs 0 1 - 1) 0); [lia|].
    apply cursor_ok; [done|apply u32_range|apply u32_range|rewrite u32_small by lia; lia..]. }
  replace ((f =? 72) || (f =? 102)) with false by lia.
  destruct (Z.eqb_spec f 74); [rewrite decide_True by done; by rewrite (param_bind s vs st 0 0) by done|rewrite decide_False by done].
  destruct (Z.eqb_spec f 75); [rewrite decide_True by done; by rewrite (param_bind s vs st 0 0) by done|rewrite decide_False by done].
  rewrite decide_False by done. by destruct (Z.eqb_spec f 109).
Qed.

(** ** Items *)

(** The parser between two items. *)
Definition at_rest (a : Ansi Term) (s : Screen) : Prop :=
  state a = STATE_NORMAL ∧ con a = term s ∧ cur_fg a = ink s ∧ cur_bg a = paper s ∧ bold a = Z.b2z (heavy s).
Lemma item_run i a s : item_ok i → at_rest a s → inside (term s) →
  ∃ a', ansi_puts (encode i) a = Done tt a' ∧ at_rest a' (interpret s i).
Proof.
  intros Hi (Hs & Hc & Hf & Hb & Hh) Hin. destruct i as [c|c|ps f].
  - exists (with_con (t_putchar c (term s)) a). split; [|done]. unfold ansi_puts. cbn [encode kfor].
    rewrite (bind_Done _ _ _ tt (with_con (t_putchar c (term s)) a)); [done|]. unfold ansi_putchar. rewrite kget_bind, Hs.
    cbn [Z.eqb STATE_NORMAL]. destruct (Z.eqb_spec c 27); [done|]. unfold on_con, zoom. cbn. by rewrite <-Hc.
  - exists (with_state STATE_NORMAL (with_state STATE_ESC a)). split; [|done]. unfold ansi_puts. cbn [encode kfor].
    rewrite (bind_Done _ _ _ tt (with_state STATE_ESC a)) by (unfold ansi_putchar; by rewrite kget_bind, Hs).
    rewrite (bind_Done _ _ _ tt (with_state STATE_NORMAL (with_state STATE_ESC a))); [done|].
    unfold ansi_putchar. rewrite kget_bind. cbn. by destruct (Z.eqb_spec c 91).
  - destruct (params_ok ps f a Hs Hi) as (l & -> & E). destruct Hi as (Hp & _ & _ & Hd & Hsc). rewrite ansi_puts_app. kbind E.
    assert (with_state STATE_CSI (with_params (padded (value <$> ps)) (Z.of_nat (length ps)) a) = parser s (value <$> ps) STATE_CSI) as ->.
    { unfold parser. rewrite length_fmap, <-Hc, <-Hf, <-Hb, <-Hh. done. }
    assert (Forall (λ v, 0 ≤ v < 2 ^ 31) (value <$> ps)) as Hv.
    { apply Forall_fmap. eapply Forall_impl; [exact Hp|]. intros w. apply param_range. }
    exists (with_state STATE_NORMAL (parser (perform (value <$> ps) f s) (value <$> ps) STATE_CSI)). split; [|done].
    unfold ansi_puts. cbn [kfor]. rewrite (bind_Done _ _ _ tt (with_state STATE_NORMAL (parser (perform (value <$> ps) f s) (value <$> ps) STATE_CSI))); [done|].
    unfold ansi_putchar. rewrite kget_bind. change (state (parser s (value <$> ps) STATE_CSI)) with STATE_CSI.
    change (STATE_CSI =? STATE_NORMAL) with false. change (STATE_CSI =? STATE_ESC) with false. rewrite Z.eqb_refl.
    replace ((48 <=? f) && (f <=? 57)) with false by lia. destruct (Z.eqb_spec f 59); [done|].
    by kbind (perform_ok (value <$> ps) f s STATE_CSI Hin Hv).
Qed.
Lemma shows_inside s t : shows s t → inside t.
Proof. intros [[_ _ _ ? ? _ ? ?] [Hc Hr] _ [Hx Hy] Hi _ _]. unfold inside. rewrite Hx, Hy, Hc, Hr. lia. Qed.

(** On the framebuffer. *)
Lemma items_run items : ∀ (a : Ansi Fb) s, Forall item_ok items → ansi_typed a → shows (con a) (term s) → at_rest (retarget (term s) a) s →
  ∃ a', ansi_puts (concat (encode <$> items)) a = Done tt a' ∧ shows (con a') (term (foldl interpret s items)).
Proof.
  induction items as [|i items IH]; intros a s Hi Ht Hs Hr; [by exists a|]. apply Forall_cons in Hi as [Hi Hit]. rewrite fmap_cons. cbn [concat foldl].
  rewrite ansi_puts_app. destruct (puts_alike shows (encode i) a (term s) Hs Ht) as ([] & a1 & c1 & E1 & E2 & Hs1 & Ht1).
  destruct (item_run i _ s Hi Hr (shows_inside _ _ Hs)) as (a2 & E3 & Hr2). rewrite E2 in E3. injection E3 as <-.
  pose proof Hr2 as (_ & Hc & _). cbn in Hc. kbind E1. apply IH; [done|done|by rewrite <-Hc|by rewrite <-Hc].
Qed.

(** ** The screen *)

(** C15. After [fb_console_init] on a framebuffer of 32 bits per pixel and [ansi_init]: whatever bytes are written, [ansi_putchar] never reads or
    writes outside its tables and the framebuffer, and the screen shows some grid of characters.  When the bytes are those of characters, of
    two-byte escape sequences and of control sequences of at most eight decimal parameters below 2^31, the first of them not empty, every pixel of the screen is
    that of the terminal that these mean: the characters drawn at the cursor in the chosen colours, with scrolling; A, B, C and D move the cursor up, down,
    forward and back and H and f to a position, never off the screen; J and K erase a part of the screen or of the line in the background
    colour; m chooses the colours of the palette, of which bold makes the dark ones light; every other sequence does nothing.  The whole screen erased
    by 2J, which also moves the cursor to the top left corner, and the line that scrolling brings in are black, whatever the background colour is. *)
Theorem ansi_screen_correct fb s : usable fb s →
  let write bytes := (on_con (fb_console_init (Some fb)) ≫= λ _, ansi_init ≫= λ _, ansi_puts bytes) (ansi_start s) in
  (∀ bytes, ∃ a t, write bytes = Done tt a ∧ shows (con a) t) ∧
  (∀ items, Forall item_ok items →
     ∃ a, write (concat (encode <$> items)) = Done tt a ∧ shows (con a) (term (foldl interpret (screen_init fb) items))).
Proof.
  intros Hu write. destruct (init_ok fb s Hu) as (s' & E & Hs).
  assert (∀ bytes, write bytes = ansi_puts bytes (ansi_start s')) as Hw.
  { intros bytes. unfold write. assert (on_con (fb_console_init (Some fb)) (ansi_start s) = Done 0 (ansi_start s')) as E1 by (unfold on_con, zoom; cbn [con ansi_start]; by rewrite E).
    by kbind E1. }
  split; setoid_rewrite Hw.
  - intros bytes. destruct (puts_alike shows bytes (ansi_start s') (t_init fb) Hs (start_typed _)) as ([] & a & t & F1 & _ & Hr & _). by exists a, t.
  - intros items Hi. apply (items_run items (ansi_start s') (screen_init fb)); [done|apply start_typed|done|done].
Qed.

(** "Hi", a new line, red, "!" on a screen of four columns and two rows. *)
Definition hello : list Item := [Char 72; Char 105; Char 10; Csi [[3; 1]] 109; Char 33].
Lemma ansi_screen_correct_witness :
  ∃ a, (on_con (fb_console_init (Some fb_example)) ≫= λ _, ansi_init ≫= λ _, ansi_puts [72; 105; 10; 27; 91; 51; 49; 109; 33]) (ansi_start fb_start) = Done tt a ∧
    shows (con a) (term (foldl interpret (screen_init fb_example) hello)) ∧
    grid (term (foldl interpret (screen_init fb_example) hello)) 0 1 = mkCell 33 0xAA0000 0.
Proof.
  destruct (ansi_screen_correct fb_example fb_start fb_example_usable) as [_ Hi]. destruct (Hi hello) as (a & E & Hs).
  - repeat constructor; cbn; try lia; try done.
  - exists a. split; [exact E|]. split; [exact Hs|]. vm_compute. reflexivity.
Defined.
