(* ===== verification/Vt.v ===== *)
(** * Virtual terminals

    [kernel/drivers/vt.c]: six screens of characters in the heap, one of which is
    shown on the framebuffer console. *)
From S2P Require Import Prelude PageAlloc Kmalloc KmallocCorrect KHeap Font FbConsole.

Definition VT_COUNT : Z := 6.
Definition SIZEOF_VTCELL : Z := 12.
Record VtCell : Type := mkVtCell { ch : Z; fg : Z; bg : Z }.
Record VirtualTerminal : Type := mkVt {
  buffer : Z;
  vt_col : Z; vt_row : Z;
  vt_fg : Z; vt_bg : Z;
  ansi_state : Z; ansi_params : list Z; ansi_param_count : Z; vt_bold : Z;
}.
Definition set_vt_cursor c r v := mkVt (buffer v) c r (vt_fg v) (vt_bg v) (ansi_state v) (ansi_params v) (ansi_param_count v) (vt_bold v).

Record Vts (H : Type) : Type := mkVts {
  vheap : H;
  fbc : Fb;
  cells : gmap Z (list VtCell);          (* the buffers *)
  vts : list VirtualTerminal;
  active_vt : Z; screen_cols : Z; screen_rows : Z; vt_initialized : Z;
}.
Arguments mkVts {H}.
Arguments vheap {H}.
Arguments fbc {H}.
Arguments cells {H}.
Arguments vts {H}.
Arguments active_vt {H}.
Arguments screen_cols {H}.
Arguments screen_rows {H}.
Arguments vt_initialized {H}.

Section vt.
Context {H : Type} `{KHeap H}.
Implicit Types (s : Vts H).

Definition with_vheap h s : Vts H := mkVts h (fbc s) (cells s) (vts s) (active_vt s) (screen_cols s) (screen_rows s) (vt_initialized s).
Definition with_fbc f s : Vts H := mkVts (vheap s) f (cells s) (vts s) (active_vt s) (screen_cols s) (screen_rows s) (vt_initialized s).
Definition with_cells c s : Vts H := mkVts (vheap s) (fbc s) c (vts s) (active_vt s) (screen_cols s) (screen_rows s) (vt_initialized s).
Definition with_vts l s : Vts H := mkVts (vheap s) (fbc s) (cells s) l (active_vt s) (screen_cols s) (screen_rows s) (vt_initialized s).
Definition with_active n s : Vts H := mkVts (vheap s) (fbc s) (cells s) (vts s) n (screen_cols s) (screen_rows s) (vt_initialized s).
Definition on_fb {A} (m : K Fb A) : K (Vts H) A := zoom fbc with_fbc m.

Definition vt_at (i : Z) : K (Vts H) VirtualTerminal := kopt (λ s, zget (vts s) i).
Definition put_vt (i : Z) (v : VirtualTerminal) : K (Vts H) unit := kupd (λ s, l ← zset (vts s) i v; Some (with_vts l s)).
Definition cells_at (b : Z) : K (Vts H) (list VtCell) := kopt (λ s, cells s !! b).
Definition put_cells (b : Z) (l : list VtCell) : K (Vts H) unit := kmod (λ s, with_cells (<[b := l]> (cells s)) s).

(** One terminal of [vt_init]. *)
Definition vt_init_one (cols rows i : Z) : K (Vts H) unit :=
  b ← zoom vheap with_vheap (kh_alloc (u64 (u64 (cols * rows) * SIZEOF_VTCELL)) GFP_ZERO);
  v ← vt_at i;
  if b =? 0 then put_vt i (mkVt 0 (vt_col v) (vt_row v) (vt_fg v) (vt_bg v) (ansi_state v) (ansi_params v) (ansi_param_count v) (vt_bold v)) else
  put_vt i (mkVt b 0 0 0xAAAAAA 0x000000 0 (ansi_params v) 0 0);;
  put_cells b (replicate (Z.to_nat (u32 (cols * rows))) (mkVtCell 32 0xAAAAAA 0x000000)).
Definition vt_init (cols rows : Z) : K (Vts H) unit :=
  kmod (λ s, mkVts (vheap s) (fbc s) (cells s) (vts s) 0 cols rows (vt_initialized s));;
  kfor (seqZ 0 VT_COUNT) (vt_init_one cols rows);;
  kmod (λ s, mkVts (vheap s) (fbc s) (cells s) (vts s) (active_vt s) (screen_cols s) (screen_rows s) 1).

(** One cell of [vt_redraw]. *)
Definition redraw_cell (b row col : Z) : K (Vts H) unit :=
  n ← kget screen_cols;
  l ← cells_at b;
  e ← kopt (λ _, zget l (u32 (u32 (row * n) + col)));
  if negb (ch e =? 32) || negb (bg e =? 0) then
    on_fb (fb_console_set_colors (fg e) (bg e));;
    on_fb (fb_console_set_cursor col row);;
    on_fb (fb_console_putchar (ch e))
  else mret tt.
Definition vt_redraw : K (Vts H) unit :=
  i ← kget active_vt;
  v ← vt_at i;
  if buffer v =? 0 then mret tt else
  on_fb fb_console_clear;;
  s ← kget id;
  kfor (seqZ 0 (screen_rows s)) (λ row, kfor (seqZ 0 (screen_cols s)) (λ col, redraw_cell (buffer v) row col));;
  on_fb (fb_console_set_colors (vt_fg v) (vt_bg v));;
  on_fb (fb_console_set_cursor (vt_col v) (vt_row v)).

Definition vt_switch (n : Z) : K (Vts H) unit :=
  s ← kget id;
  if vt_initialized s =? 0 then mret tt else
  if (n <? 0) || (VT_COUNT <=? n) then mret tt else
  if n =? active_vt s then mret tt else
  old ← vt_at (active_vt s);
  cursor ← on_fb fb_console_get_cursor;
  put_vt (active_vt s) (set_vt_cursor cursor.1 cursor.2 old);;
  kmod (with_active n);;
  vt_redraw.

Definition vt_active : K (Vts H) Z := kget active_vt.

(** [memmove] of the rows from the second one up, and the last row in the colours of the terminal. *)
Definition vt_scroll (v : VirtualTerminal) : K (Vts H) unit :=
  s ← kget id;
  l ← cells_at (buffer v);
  let n := u32 (screen_rows s - 1) * screen_cols s in
  src ← kopt (λ _, if screen_cols s + n <=? Z.of_nat (length l) then Some (take (Z.to_nat n) (drop (Z.to_nat (screen_cols s)) l)) else None);
  put_cells (buffer v) (write_at l 0 src);;
  kfor (seqZ 0 (screen_cols s)) (λ c2,
    l ← cells_at (buffer v);
    l' ← kopt (λ _, zset l (u32 (u32 (u32 (screen_rows s - 1) * screen_cols s) + c2)) (mkVtCell 32 (vt_fg v) (vt_bg v)));
    put_cells (buffer v) l').

Definition vt_buffer_putchar (i c : Z) : K (Vts H) unit :=
  v ← vt_at i;
  s ← kget id;
  if buffer v =? 0 then mret tt else
  if c =? 10 then
    let row := u32 (vt_row v + 1) in
    if screen_rows s <=? row then vt_scroll v;; put_vt i (set_vt_cursor 0 (u32 (screen_rows s - 1)) v)
    else put_vt i (set_vt_cursor 0 row v)
  else if c =? 13 then put_vt i (set_vt_cursor 0 (vt_row v) v)
  else if c =? 8 then if 0 <? vt_col v then put_vt i (set_vt_cursor (vt_col v - 1) (vt_row v) v) else mret tt
  else if c =? 9 then
    let col := Z.land (u32 (vt_col v + 8)) (u32 (Z.lnot 7)) in
    if screen_cols s <=? col then
      let row := u32 (vt_row v + 1) in
      put_vt i (set_vt_cursor 0 (if screen_rows s <=? row then u32 (screen_rows s - 1) else row) v)
    else put_vt i (set_vt_cursor col (vt_row v) v)
  else if (0x20 <=? c) && (c <? 0x7F) then
    l ← cells_at (buffer v);
    l' ← kopt (λ _, zset l (u32 (u32 (vt_row v * screen_cols s) + vt_col v)) (mkVtCell c (vt_fg v) (vt_bg v)));
    put_cells (buffer v) l';;
    let col := u32 (vt_col v + 1) in
    if screen_cols s <=? col then
      let row := u32 (vt_row v + 1) in
      if screen_rows s <=? row then vt_scroll v;; put_vt i (set_vt_cursor 0 (u32 (screen_rows s - 1)) v)
      else put_vt i (set_vt_cursor 0 row v)
    else put_vt i (set_vt_cursor col (vt_row v) v)
  else mret tt.

Definition vt_putchar (vt_idx c : Z) : K (Vts H) unit :=
  s ← kget id;
  if (vt_initialized s =? 0) || (vt_idx <? 0) || (VT_COUNT <=? vt_idx) then mret tt else vt_buffer_putchar vt_idx c.
End vt.
