(* ===== verification/VtCorrect.v ===== *)
(** * Virtual terminals: writing and switching

    Writing to one terminal stays inside its buffer and touches no other, and after a switch the
    framebuffer shows the new terminal. *)
From S2P Require Import Prelude PageAlloc Kmalloc KmallocCorrect KHeap Font FbConsole FbTerm Vt.

Section vt.
Context {H : Type} `{KHeap H}.
Implicit Types (s : Vts H) (v : VirtualTerminal).

Definition printable (e : VtCell) : Prop := 0x20 ≤ ch e < 0x7F.
(** The buffer of a terminal and its cursor. *)
Record terminal_ok s (v : VirtualTerminal) (l : list VtCell) : Prop := {
  to_cells : cells s !! buffer v = Some l;
  to_length : Z.of_nat (length l) = screen_cols s * screen_rows s;
  to_chars : Forall printable l;
  to_cursor : 0 ≤ vt_col v < screen_cols s ∧ 0 ≤ vt_row v < screen_rows s;
}.
Record vt_ok s : Prop := {
  vo_screen : 0 < screen_cols s ∧ 0 < screen_rows s ∧ screen_cols s * screen_rows s < 2 ^ 31;
  vo_init : vt_initialized s = 1;
  vo_active : 0 ≤ active_vt s < VT_COUNT;
  vo_count : Z.of_nat (length (vts s)) = VT_COUNT;
  vo_terms : ∀ i v, zget (vts s) i = Some v → buffer v ≠ 0 → ∃ l, terminal_ok s v l;
  vo_apart : ∀ i j v w, zget (vts s) i = Some v → zget (vts s) j = Some w → i ≠ j → buffer v ≠ 0 → buffer v ≠ buffer w;
}.

(** ** Writing *)

(** Terminal [i] is now [v] with the cells [l]; nothing else changed. *)
Definition updated s (i : Z) v (l : list VtCell) s' : Prop :=
  ∃ vs, zset (vts s) i v = Some vs ∧ s' = with_vts vs (with_cells (<[buffer v := l]> (cells s)) s).

Lemma updated_ok s i v v' l l' s' : vt_ok s → zget (vts s) i = Some v → buffer v ≠ 0 → terminal_ok s v l → buffer v' = buffer v →
  length l' = length l → Forall printable l' → 0 ≤ vt_col v' < screen_cols s → 0 ≤ vt_row v' < screen_rows s → updated s i v' l' s' → vt_ok s'.
Proof.
  intros [Hs Hi Ha Hn Ht Hap] Hv Hb [Hc Hl _ _] Hb' Hl' Hp Hcol Hrow (vs & Hz & ->). split; cbn; [done|done|done|by rewrite (length_zset _ _ _ _ Hz)| |].
  - intros j w Hw Hbw. destruct (decide (j = i)) as [->|Hne].
    + rewrite (zget_zset_eq _ _ _ _ Hz) in Hw. injection Hw as <-. exists l'. split; cbn; [apply lookup_insert_eq|lia|done|done].
    + rewrite (zget_zset_ne _ _ _ _ _ Hz) in Hw by done. destruct (Ht j w Hw Hbw) as (lw & [Hcw ? ? ?]). exists lw. split; cbn; [|done|done|done].
      rewrite lookup_insert_ne; [done|]. rewrite Hb'. by apply (Hap i j v w).
  - intros j k w z Hw Hz' Hjk. destruct (decide (j = i)) as [->|Hj], (decide (k = i)) as [->|Hk]; [done|..].
    + rewrite (zget_zset_eq _ _ _ _ Hz) in Hw. injection Hw as <-. rewrite (zget_zset_ne _ _ _ _ _ Hz) in Hz' by done. rewrite Hb'. by apply (Hap i k).
    + rewrite (zget_zset_eq _ _ _ _ Hz) in Hz'. injection Hz' as <-. rewrite (zget_zset_ne _ _ _ _ _ Hz) in Hw by done. rewrite Hb'. by apply (Hap j i).
    + rewrite (zget_zset_ne _ _ _ _ _ Hz) in Hw by done. rewrite (zget_zset_ne _ _ _ _ _ Hz) in Hz' by done. by apply (Hap j k).
Qed.

Lemma put_vt_ok s i v v' l : zget (vts s) i = Some v → cells s !! buffer v' = Some l → ∃ s', put_vt i v' s = Done tt s' ∧ updated s i v' l s'.
Proof.
  intros Hv Hl. pose proof (zget_Some_range _ _ _ Hv) as Hr. unfold put_vt, kupd. rewrite zset_lt by done. cbn [mbind option_bind]. eexists. split; [done|].
  eexists. split; [by apply zset_lt|]. rewrite insert_id by done. by destruct s.
Qed.

(** The rows move up and the last one is blank, in the colours of the terminal. *)
Lemma vt_scroll_ok s v l : 0 < screen_cols s ∧ 0 < screen_rows s ∧ screen_cols s * screen_rows s < 2 ^ 31 → cells s !! buffer v = Some l →
  Z.of_nat (length l) = screen_cols s * screen_rows s → Forall printable l →
  ∃ l', vt_scroll v s = Done tt (with_cells (<[buffer v := l']> (cells s)) s) ∧ length l' = length l ∧ Forall printable l'.
Proof.
  intros (Hc & Hr & Hsz) Hl Hlen Hp. unfold vt_scroll. rewrite kget_bind. cbn [id]. unfold cells_at. rewrite (kopt_bind (λ s, cells s !! buffer v) _ s l Hl). cbv zeta.
  assert (screen_rows s ≤ screen_cols s * screen_rows s) by nia. rewrite (u32_small (screen_rows s - 1)) by lia.
  set (n := (screen_rows s - 1) * screen_cols s). assert (0 ≤ n ∧ screen_cols s + n = screen_cols s * screen_rows s) as [Hn0 Hn] by (unfold n; nia).
  set (src := take (Z.to_nat n) (drop (Z.to_nat (screen_cols s)) l)). assert (length src = Z.to_nat n) as Hls by (unfold src; rewrite length_take, length_drop; lia).
  rewrite (kopt_bind (λ _ : Vts H, if screen_cols s + n <=? Z.of_nat (length l) then Some src else None) _ s src) by (by destruct (Z.leb_spec (screen_cols s + n) (Z.of_nat (length l))); [|lia]).
  rewrite (bind_Done _ _ _ tt (with_cells (<[buffer v := write_at l 0 src]> (cells s)) s)) by done.
  assert (Forall printable (write_at l 0 src)) as Hp1.
  { unfold write_at. rewrite take_0, app_nil_l. apply Forall_app. split; [unfold src; by apply Forall_take, Forall_drop|by apply Forall_drop]. }
  assert (length (write_at l 0 src) = length l) as Hl1 by (apply length_write_at; lia).
  destruct (kfor_seqZ_ind (λ _ s', ∃ l', s' = with_cells (<[buffer v := l']> (cells s)) s ∧ length l' = length l ∧ Forall printable l') (λ c2,
    l ← kopt (λ s, cells s !! buffer v);
    l' ← kopt (λ _, zset l (u32 (u32 n + c2)) (mkVtCell 32 (vt_fg v) (vt_bg v)));
    put_cells (buffer v) l') 0 (screen_cols s) (with_cells (<[buffer v := write_at l 0 src]> (cells s)) s)) as (s' & E & l' & -> & Hl' & Hp'); [lia|by eexists| |by exists l'].
  intros i s' Hi (l' & -> & Hl' & Hp'). rewrite (kopt_bind (λ s, cells s !! buffer v) _ _ l') by apply lookup_insert_eq. rewrite !u32_small by (rewrite ?u32_small; lia).
  rewrite (kopt_bind (λ _, zset l' (n + i) _) _ _ (<[Z.to_nat (n + i) := mkVtCell 32 (vt_fg v) (vt_bg v)]> l')) by (apply zset_lt; lia).
  eexists. split; [done|]. eexists. split; [unfold with_cells; cbn; by rewrite insert_insert_eq|]. rewrite length_insert. split; [done|]. by apply Forall_insert.
Qed.

(** The cursor after the end of a row. *)
Lemma vt_newline_ok s i v l : vt_ok s → zget (vts s) i = Some v → cells s !! buffer v = Some l → Z.of_nat (length l) = screen_cols s * screen_rows s → Forall printable l →
  0 ≤ vt_row v < screen_rows s →
  ∃ s' r l', (if screen_rows s <=? u32 (vt_row v + 1) then vt_scroll v;; put_vt i (set_vt_cursor 0 (u32 (screen_rows s - 1)) v) else put_vt i (set_vt_cursor 0 (u32 (vt_row v + 1)) v)) s = Done tt s' ∧
    updated s i (set_vt_cursor 0 r v) l' s' ∧ 0 ≤ r < screen_rows s ∧ length l' = length l ∧ Forall printable l'.
Proof.
  intros [(Hc & Hr & Hsz) _ _ _ _ _] Hv Hl Hlen Hp Hrow. assert (screen_rows s ≤ screen_cols s * screen_rows s) by nia. rewrite !u32_small by lia.
  destruct (Z.leb_spec (screen_rows s) (vt_row v + 1)).
  - destruct (vt_scroll_ok s v l ltac:(done) Hl Hlen Hp) as (l' & E & Hl' & Hp'). kbind E.
    destruct (put_vt_ok (with_cells (<[buffer v := l']> (cells s)) s) i v (set_vt_cursor 0 (screen_rows s - 1) v) l' Hv) as (s' & E' & vs & Hz & ->); [apply lookup_insert_eq|].
    eexists _, (screen_rows s - 1), l'. split; [exact E'|]. split; [|split; [lia|done]]. exists vs. split; [done|]. unfold with_cells. cbn. by rewrite insert_insert_eq.
  - destruct (put_vt_ok s i v (set_vt_cursor 0 (vt_row v + 1) v) l Hv Hl) as (s' & E & Hu). exists s', (vt_row v + 1), l. split; [done|]. split; [done|]. split; [lia|done].
Qed.

(** What a write to terminal [i] leaves: every other terminal is as it was. *)
Definition wrote_to s (i : Z) s' : Prop :=
  vt_ok s' ∧ fbc s' = fbc s ∧ active_vt s' = active_vt s ∧
  ∀ j w, j ≠ i → zget (vts s) j = Some w → zget (vts s') j = Some w ∧ (buffer w ≠ 0 → cells s' !! buffer w = cells s !! buffer w).

Lemma wrote_same s i : vt_ok s → wrote_to s i s.
Proof. intros Hok. split; [done|]. split; [done|]. by split. Qed.
Lemma wrote_updated s i v v' l l' s' : vt_ok s → zget (vts s) i = Some v → buffer v ≠ 0 → terminal_ok s v l → buffer v' = buffer v →
  length l' = length l → Forall printable l' → 0 ≤ vt_col v' < screen_cols s → 0 ≤ vt_row v' < screen_rows s → updated s i v' l' s' → wrote_to s i s'.
Proof.
  intros Hok Hv Hb Ht Hb' Hl Hp Hc Hr Hu. split; [by eapply updated_ok|]. destruct Hu as (vs & Hz & ->). split; [done|]. split; [done|]. intros j w Hj Hw. cbn.
  rewrite (zget_zset_ne _ _ _ _ _ Hz) by done. split; [done|]. intros Hbw. rewrite lookup_insert_ne; [done|]. rewrite Hb'. by apply (vo_apart _ Hok i j v w).
Qed.

Lemma vt_buffer_putchar_ok s i c : vt_ok s → 0 ≤ i < VT_COUNT → ∃ s', vt_buffer_putchar i c s = Done tt s' ∧ wrote_to s i s'.
Proof.
  intros Hok Hi. destruct (zget_lt (vts s) i) as (v & Hv); [rewrite (vo_count _ Hok); lia|]. unfold vt_buffer_putchar, vt_at. rewrite (kopt_bind (λ s, zget (vts s) i) _ s v Hv), kget_bind. cbn [id].
  destruct (Z.eqb_spec (buffer v) 0) as [Hb|Hb]; [exists s; split; [done|by apply wrote_same]|]. destruct (vo_terms _ Hok i v Hv Hb) as (l & Ht). pose proof Ht as [Hl Hlen Hp [Hcol Hrow]].
  pose proof (vo_screen _ Hok) as (Hc & Hr & Hsz). assert (screen_cols s ≤ screen_cols s * screen_rows s ∧ screen_rows s ≤ screen_cols s * screen_rows s) as [? ?] by nia.
  assert (∀ c r, 0 ≤ c < screen_cols s → 0 ≤ r < screen_rows s → ∃ s', put_vt i (set_vt_cursor c r v) s = Done tt s' ∧ wrote_to s i s') as Hput.
  { intros c' r' Hc' Hr'. destruct (put_vt_ok s i v (set_vt_cursor c' r' v) l Hv Hl) as (s' & E & Hu). exists s'. split; [done|]. by apply (wrote_updated s i v (set_vt_cursor c' r' v) l l). }
  destruct (c =? 10).
  { destruct (vt_newline_ok s i v l Hok Hv Hl Hlen Hp Hrow) as (s' & r & l' & E & Hu & Hr' & Hl' & Hp'). exists s'. split; [exact E|]. by apply (wrote_updated s i v (set_vt_cursor 0 r v) l l'). }
  destruct (c =? 13); [apply Hput; lia|]. destruct (c =? 8).
  { destruct (Z.ltb_spec 0 (vt_col v)); [apply Hput; lia|]. exists s. split; [done|by apply wrote_same]. }
  destruct (c =? 9).
  { cbv zeta. rewrite tab_stop, !u32_small by lia. destruct (Z.leb_spec (screen_cols s) (vt_col v / 8 * 8 + 8)); [|apply Hput; lia].
    destruct (Z.leb_spec (screen_rows s) (vt_row v + 1)); apply Hput; lia. }
  destruct (Z.leb_spec 0x20 c), (Z.ltb_spec c 0x7F); cbn [andb]; try (exists s; split; [done|by apply wrote_same]).
  unfold cells_at. rewrite (kopt_bind (λ s, cells s !! buffer v) _ s l Hl). assert (0 ≤ vt_row v * screen_cols s + vt_col v < screen_cols s * screen_rows s) as Hix by nia.
  assert (0 ≤ vt_row v * screen_cols s) by nia. rewrite (u32_small (vt_row v * screen_cols s)), (u32_small (_ + vt_col v)) by lia. set (l1 := <[Z.to_nat (vt_row v * screen_cols s + vt_col v) := mkVtCell c (vt_fg v) (vt_bg v)]> l).
  rewrite (kopt_bind (λ _ : Vts H, zset l (vt_row v * screen_cols s + vt_col v) (mkVtCell c (vt_fg v) (vt_bg v))) _ s l1) by (apply zset_lt; lia).
  assert (length l1 = length l) as Hl1 by apply length_insert. assert (Forall printable l1) as Hp1 by (by apply Forall_insert).
  set (s1 := with_cells (<[buffer v := l1]> (cells s)) s). rewrite (bind_Done _ _ _ tt s1) by done. cbv zeta. rewrite (u32_small (vt_col v + 1)) by lia.
  assert (∀ v' l' s', updated s1 i v' l' s' → buffer v' = buffer v → updated s i v' l' s') as Hu1.
  { intros v' l' s' (vs & Hz & ->) Hb'. exists vs. split; [done|]. unfold s1, with_cells. cbn. by rewrite Hb', insert_insert_eq. }
  assert (cells s1 !! buffer v = Some l1) as Hcs1 by apply lookup_insert_eq.
  destruct (Z.leb_spec (screen_cols s) (vt_col v + 1)).
  - assert (vt_ok s1) as Hok1.
    { destruct (put_vt_ok s1 i v v l1 Hv Hcs1) as (s2 & _ & Hu). pose proof (updated_ok s i v v l l1 s2 Hok Hv Hb Ht eq_refl Hl1 Hp1 Hcol Hrow (Hu1 _ _ _ Hu eq_refl)) as Hok2.
      destruct Hu as (vs & Hz & ->). apply zset_Some in Hz as [_ ->]. unfold zget in Hv. destruct (i <? 0); [done|]. rewrite list_insert_id in Hok2 by done.
      unfold with_cells, with_vts in Hok2. cbn in Hok2. by rewrite insert_insert_eq in Hok2. }
    destruct (vt_newline_ok s1 i v l1 Hok1 Hv Hcs1) as (s' & r & l' & E & Hu & Hr' & Hl' & Hp'); [by rewrite Hl1|done|done|]. exists s'. split; [exact E|].
    apply (wrote_updated s i v (set_vt_cursor 0 r v) l l'); try done; [congruence|by apply Hu1].
  - destruct (put_vt_ok s1 i v (set_vt_cursor (vt_col v + 1) (vt_row v) v) l1 Hv Hcs1) as (s' & E & Hu). exists s'. split; [exact E|].
    apply (wrote_updated s i v (set_vt_cursor (vt_col v + 1) (vt_row v) v) l l1); try done; [cbn; lia|by apply Hu1].
Qed.

(** ** Switching *)

(** Two cells of the screen that look the same. *)
Definition looks (e e' : Cell) : Prop := ∀ gx gy, cell_pixel e gx gy = cell_pixel e' gx gy.
(** The cell of a terminal on a screen. *)
Definition on_screen (t : Term) (e : VtCell) : Cell := mkCell (ch e) (t_pack t (fg e)) (t_pack t (bg e)).
(** The cells of [l] for which [p] holds are on the screen, and the rest of it is blank. *)
Definition shown s (l : list VtCell) (p : Z → Z → bool) (t : Term) : Prop :=
  ∀ c r e, 0 ≤ c < screen_cols s → 0 ≤ r < screen_rows s → zget l (r * screen_cols s + c) = Some e →
    looks (grid t c r) (if p c r then on_screen t e else blank).

(** The terminal in the framebuffer has the size of the screen. *)
Record matches s (t : Term) : Prop := {
  ma_shows : shows (fbc s) t;
  ma_size : t_cols t = screen_cols s ∧ t_rows t = screen_rows s;
}.

Lemma on_fb_done {A} s (m : K Fb A) x f : m (fbc s) = Done x f → on_fb m s = Done x (with_fbc f s).
Proof. intros E. unfold on_fb, zoom. by rewrite E. Qed.
Lemma looks_refl e : looks e e.
Proof. done. Qed.

(** A character written inside the screen, not in its last place, fills one cell. *)
Lemma t_putchar_fill t c : 0x20 ≤ c < 0x7F → 0 ≤ t_col t < t_cols t → 0 ≤ t_row t < t_rows t → ¬ (t_col t = t_cols t - 1 ∧ t_row t = t_rows t - 1) →
  let t' := t_putchar c t in t_cols t' = t_cols t ∧ t_rows t' = t_rows t ∧ t_pack t' = t_pack t ∧
  ∀ x y, grid t' x y = if (x =? t_col t) && (y =? t_row t) then mkCell c (t_fg t) (t_bg t) else grid t x y.
Proof.
  intros Hc Hx Hy Hlast t'. unfold t', t_putchar. destruct (Z.eqb_spec c 10), (Z.eqb_spec c 13), (Z.eqb_spec c 9), (Z.eqb_spec c 8); try lia.
  assert ((0x20 <=? c) && (c <? 0x7F) = true) as -> by lia. cbv zeta. destruct (Z.leb_spec (t_cols t) (t_col t + 1)); [|done].
  unfold t_newline. cbn [t_row t_rows t_grid]. destruct (Z.ltb_spec (t_row t + 1) (t_rows t)); [done|lia].
Qed.

Lemma redraw_cell_ok s v l t row col (p : Z → Z → bool) : terminal_ok s v l → matches s t → shown s l p t → screen_cols s * screen_rows s < 2 ^ 31 →
  0 ≤ col < screen_cols s → 0 ≤ row < screen_rows s → p col row = false →
  (∀ e, zget l (screen_cols s * screen_rows s - 1) = Some e → ch e = 32 ∧ bg e = 0) →
  ∃ f t', redraw_cell (buffer v) row col s = Done tt (with_fbc f s) ∧ matches (with_fbc f s) t' ∧ t_pack t' = t_pack t ∧
    shown s l (λ c r, p c r || (c =? col) && (r =? row)) t'.
Proof.
  intros [Hl Hlen Hch _] [Hs [Hc Hr]] Hsh Hsz Hcol Hrow Hp Hlast. unfold redraw_cell, cells_at. rewrite kget_bind, (kopt_bind (λ s, cells s !! buffer v) _ s l Hl).
  assert (0 ≤ row * screen_cols s ∧ row * screen_cols s + col < screen_cols s * screen_rows s) as [? ?] by nia. rewrite (u32_small (row * screen_cols s)), u32_small by lia.
  destruct (zget_lt l (row * screen_cols s + col)) as (e & He); [lia|]. rewrite (kopt_bind (λ _ : Vts H, zget l (row * screen_cols s + col)) _ s e He).
  destruct (negb (ch e =? 32) || negb (bg e =? 0)) eqn:Hvis.
  - assert (printable e) as Hpr by (unfold zget in He; destruct (_ <? 0); [done|]; by apply (Forall_lookup_1 _ _ _ _ Hch) in He).
    destruct (set_colors_ok (fg e) (bg e) _ t Hs) as (f1 & E1 & Hs1). rewrite (bind_Done _ _ _ _ _ (on_fb_done s _ _ _ E1)).
    destruct (set_cursor_ok col row f1 _ Hs1 ltac:(lia) ltac:(lia)) as (f2 & E2 & Hs2). rewrite (bind_Done _ _ _ _ _ (on_fb_done (with_fbc f1 s) _ _ _ E2)).
    destruct (putchar_ok (ch e) f2 _ Hs2) as (f3 & E3 & Hs3). rewrite (on_fb_done (with_fbc f2 (with_fbc f1 s)) _ _ _ E3). set (t2 := t_set_cursor col row (t_set_colors (fg e) (bg e) t)) in *.
    assert (t_col t2 = col ∧ t_row t2 = row) as [Hx2 Hy2] by (cbn; lia).
    destruct (t_putchar_fill t2 (ch e) Hpr) as (Hc3 & Hr3 & Hp3 & Hg3); [rewrite Hx2; cbn; lia|rewrite Hy2; cbn; lia| |].
    { rewrite Hx2, Hy2. cbn. rewrite Hc, Hr. intros [-> ->]. destruct (Hlast e) as [He1 He2]; [rewrite <-He; f_equal; nia|]. rewrite He1, He2 in Hvis. done. }
    exists f3, (t_putchar (ch e) t2). split; [done|]. split; [split; [done|rewrite Hc3, Hr3; by split]|]. split; [by rewrite Hp3|]. intros c r e' Hc' Hr' He'. rewrite Hg3, Hx2, Hy2.
    destruct (Z.eqb_spec c col) as [->|], (Z.eqb_spec r row) as [->|]; cbn [andb].
    { rewrite He in He'. injection He' as <-. rewrite orb_true_r. unfold on_screen. by rewrite Hp3. }
    all: rewrite orb_false_r; pose proof (Hsh _ _ _ Hc' Hr' He') as Hlk; unfold on_screen in *; rewrite Hp3; exact Hlk.
  - apply orb_false_iff in Hvis as [Hv1 Hv2]. apply negb_false_iff, Z.eqb_eq in Hv1, Hv2. exists (fbc s), t. split; [by destruct s|]. split; [by destruct s|]. split; [done|].
    intros c r e' Hc' Hr' He'. pose proof (Hsh _ _ _ Hc' Hr' He') as Hlk. destruct (Z.eqb_spec c col) as [->|], (Z.eqb_spec r row) as [->|]; cbn [andb]; [|by rewrite orb_false_r..].
    rewrite He in He'. injection He' as <-. rewrite Hp in Hlk. rewrite orb_true_r. intros gx gy. rewrite Hlk. unfold on_screen, blank. rewrite Hv1, Hv2, (pack_zero _ _ Hs), !space_pixel. done.
Qed.

(** All cells. *)
Lemma redraw_loop s v l t : terminal_ok s v l → matches s t → shown s l (λ _ _, false) t → screen_cols s * screen_rows s < 2 ^ 31 → 0 < screen_cols s → 0 < screen_rows s →
  (∀ e, zget l (screen_cols s * screen_rows s - 1) = Some e → ch e = 32 ∧ bg e = 0) →
  ∃ f t', kfor (seqZ 0 (screen_rows s)) (λ row, kfor (seqZ 0 (screen_cols s)) (λ col, redraw_cell (buffer v) row col)) s = Done tt (with_fbc f s) ∧
    matches (with_fbc f s) t' ∧ t_pack t' = t_pack t ∧ shown s l (λ _ _, true) t'.
Proof.
  intros Ht Hm Hsh Hsz Hc Hr Hlast.
  pose (upto := λ (p : Z → Z → bool) s', ∃ f t', s' = with_fbc f s ∧ matches s' t' ∧ t_pack t' = t_pack t ∧ shown s l p t').
  assert (∀ p q s', upto p s' → (∀ c r, 0 ≤ c < screen_cols s → 0 ≤ r < screen_rows s → q c r = p c r) → upto q s') as Hext.
  { intros p q s' (f & t' & -> & Hm' & Hp' & Hs') Hq. exists f, t'. split; [done|]. split; [done|]. split; [done|]. intros c r e Hc' Hr' He. rewrite Hq by done. by apply Hs'. }
  assert (∀ p row col s', upto p s' → 0 ≤ col < screen_cols s → 0 ≤ row < screen_rows s → p col row = false →
    ∃ s2, redraw_cell (buffer v) row col s' = Done tt s2 ∧ upto (λ c r, p c r || (c =? col) && (r =? row)) s2) as Hstep.
  { intros p row col s' (f & t' & -> & Hm' & Hp' & Hs') Hcol Hrow Hp. destruct (redraw_cell_ok (with_fbc f s) v l t' row col p) as (f2 & t2 & E & Hm2 & Hp2 & Hs2); try done.
    { by destruct Ht. } exists (with_fbc f2 s). split; [done|]. exists f2, t2. split; [done|]. split; [done|]. split; [congruence|done]. }
  destruct (kfor_seqZ_ind (λ row, upto (λ _ r, r <? row)) (λ row, kfor (seqZ 0 (screen_cols s)) (λ col, redraw_cell (buffer v) row col)) 0 (screen_rows s) s) as (s' & E & Hu); [lia| | |].
  - apply (Hext (λ _ _, false)); [|lia]. exists (fbc s), t. split; [by destruct s|]. by split.
  - intros row s1 Hrow Hu1. destruct (kfor_seqZ_ind (λ col, upto (λ c r, (r <? row) || (r =? row) && (c <? col))) (λ col, redraw_cell (buffer v) row col) 0 (screen_cols s) s1) as (s2 & E2 & Hu2); [lia| | |].
    + apply (Hext _ _ _ Hu1). lia.
    + intros col s3 Hcol Hu3. destruct (Hstep _ row col s3 Hu3) as (s4 & E4 & Hu4); [lia|lia|lia|]. exists s4. split; [done|]. apply (Hext _ _ _ Hu4). lia.
    + exists s2. split; [done|]. apply (Hext _ _ _ Hu2). lia.
  - apply (Hext _ (λ _ _, true)) in Hu; [|lia]. destruct Hu as (f & t' & -> & Hm' & Hp' & Hs'). by exists f, t'.
Qed.

Lemma vt_redraw_ok s v l t : 0 < screen_cols s ∧ 0 < screen_rows s ∧ screen_cols s * screen_rows s < 2 ^ 31 → zget (vts s) (active_vt s) = Some v → buffer v ≠ 0 → terminal_ok s v l → matches s t →
  (∀ e, zget l (screen_cols s * screen_rows s - 1) = Some e → ch e = 32 ∧ bg e = 0) →
  ∃ f t', vt_redraw s = Done tt (with_fbc f s) ∧ matches (with_fbc f s) t' ∧ t_pack t' = t_pack t ∧ shown s l (λ _ _, true) t' ∧
    t_col t' = vt_col v ∧ t_row t' = vt_row v ∧ t_fg t' = t_pack t (vt_fg v) ∧ t_bg t' = t_pack t (vt_bg v).
Proof.
  intros (Hc0 & Hr0 & Hsz) Hv Hb Ht [Hs [Hc Hr]] Hlast. pose proof (to_cursor _ _ _ Ht) as [Hcol Hrow].
  unfold vt_redraw, vt_at. rewrite kget_bind, (kopt_bind (λ s0, zget (vts s0) (active_vt s)) _ s v Hv). destruct (Z.eqb_spec (buffer v) 0); [done|].
  destruct (clear_ok _ t Hs) as (f1 & E1 & Hs1). rewrite (bind_Done _ _ _ _ _ (on_fb_done s _ _ _ E1)), kget_bind. cbn [id].
  destruct (redraw_loop (with_fbc f1 s) v l (t_cursor 0 0 (t_grid (λ _ _, blank) t))) as (f2 & t2 & E2 & [Hs2 [Hc2 Hr2]] & Hp2 & Hsh2); try done.
  { by destruct Ht. } kbind E2.
  destruct (set_colors_ok (vt_fg v) (vt_bg v) _ t2 Hs2) as (f3 & E3 & Hs3). rewrite (bind_Done _ _ _ _ _ (on_fb_done _ _ _ _ E3)).
  destruct (set_cursor_ok (vt_col v) (vt_row v) f3 _ Hs3 ltac:(lia) ltac:(lia)) as (f4 & E4 & Hs4). eexists f4, _. split; [exact (on_fb_done (with_fbc f3 (with_fbc f2 (with_fbc f1 s))) _ _ _ E4)|].
  cbn in Hc2, Hr2. split; [split; [exact Hs4|done]|]. split; [by cbn; rewrite Hp2|]. split; [done|]. cbn. rewrite Hp2, Hc2, Hr2. cbn. split; [lia|]. split; [lia|done].
Qed.

(** ** Theorems *)

(** Writing any byte to any virtual terminal completes: it stays inside the buffer of that terminal, its cursor stays on the screen, and no other
    terminal and nothing in the framebuffer changes. *)
Theorem vt_putchar_correct s i c : vt_ok s → ∃ s', vt_putchar i c s = Done tt s' ∧ wrote_to s i s'.
Proof.
  intros Hok. unfold vt_putchar. rewrite kget_bind. cbn [id]. rewrite (vo_init _ Hok). change (1 =? 0) with false. cbn [orb].
  destruct (Z.ltb_spec i 0), (Z.leb_spec VT_COUNT i); cbn [orb]; try (exists s; split; [done|by apply wrote_same]). apply vt_buffer_putchar_ok; [done|lia].
Qed.

(** After [vt_switch] to another terminal, whose last cell is blank, the framebuffer shows the cells of that terminal, each in its
    colours, with its cursor and its colours for what follows, and the terminal that was left keeps the cursor it had. *)
Theorem vt_switch_correct s t n v l old : vt_ok s → matches s t → 0 ≤ n < VT_COUNT → n ≠ active_vt s → zget (vts s) n = Some v → buffer v ≠ 0 → terminal_ok s v l →
  (∀ e, zget l (screen_cols s * screen_rows s - 1) = Some e → ch e = 32 ∧ bg e = 0) → zget (vts s) (active_vt s) = Some old →
  ∃ s' t', vt_switch n s = Done tt s' ∧ active_vt s' = n ∧ matches s' t' ∧ shown s l (λ _ _, true) t' ∧
    t_col t' = vt_col v ∧ t_row t' = vt_row v ∧ t_fg t' = t_pack t (vt_fg v) ∧ t_bg t' = t_pack t (vt_bg v) ∧
    zget (vts s') (active_vt s) = Some (set_vt_cursor (t_col t) (t_row t) old) ∧ cells s' = cells s.
Proof.
  intros Hok [Hs [Hc Hr]] Hn Hne Hv Hb Ht Hlast Hold. pose proof Hs as [_ _ _ [Hx Hy] [Hi1 Hi2] _ _]. unfold vt_switch. rewrite kget_bind. cbn [id]. rewrite (vo_init _ Hok). change (1 =? 0) with false.
  destruct (Z.ltb_spec n 0), (Z.leb_spec VT_COUNT n); try lia. cbn [orb]. destruct (Z.eqb_spec n (active_vt s)); [done|]. unfold vt_at. rewrite (kopt_bind (λ s0, zget (vts s0) (active_vt s)) _ s old Hold).
  assert (on_fb fb_console_get_cursor s = Done (t_col t, t_row t) s) as E1 by (unfold on_fb, zoom; cbn; rewrite Hx, Hy; by destruct s). kbind E1. cbn [fst snd].
  pose proof (zget_Some_range _ _ _ Hold) as Hra. set (vs := <[Z.to_nat (active_vt s) := set_vt_cursor (t_col t) (t_row t) old]> (vts s)).
  assert (zset (vts s) (active_vt s) (set_vt_cursor (t_col t) (t_row t) old) = Some vs) as Hz by (by apply zset_lt).
  assert (put_vt (active_vt s) (set_vt_cursor (t_col t) (t_row t) old) s = Done tt (with_vts vs s)) as E2 by (unfold put_vt, kupd; by rewrite Hz). kbind E2. rewrite kmod_bind.
  set (s2 := with_active n (with_vts vs s)). assert (zget (vts s2) (active_vt s2) = Some v) as Hv2 by (cbn; by rewrite (zget_zset_ne _ _ _ _ _ Hz)).
  destruct (vt_redraw_ok s2 v l t (vo_screen _ Hok) Hv2 Hb) as (f & t' & E & Hm & _ & Hsh & Hx' & Hy' & Hf' & Hb'); [by destruct Ht|by split|done|].
  exists (with_fbc f s2), t'. split; [exact E|]. split; [done|]. split; [done|]. split; [done|]. split; [done|]. split; [done|]. split; [done|]. split; [done|]. split; [exact (zget_zset_eq _ _ _ _ Hz)|done].
Qed.
End vt.

(** ** Examples *)

(** A screen of four columns and two rows, with two terminals that have a buffer. *)
Definition vt_fields (b : Z) : VirtualTerminal := mkVt b 0 0 0xAAAAAA 0 0 (replicate 8 0) 0 0.
Definition cell_a : VtCell := mkVtCell 65 0xFF0000 0.
Definition cell_blank : VtCell := mkVtCell 32 0xAAAAAA 0.
Definition fb4 : Framebuffer := mkFramebuffer 0x1000 32 32 128 32 8 16 8 8 8 0.
Definition fb4_start : Fb := mkFb {[ 0x1000 := replicate (Z.to_nat 4096) 0 ]} 0 0 0 0 0 0 0 0 0 0 0 0 0 0 0 0 0 0.
Definition fb4_console : Fb := match fb_console_init (Some fb4) fb4_start with Done _ s => s | _ => fb4_start end.
Definition cells_a (last : VtCell) : list VtCell := cell_a :: replicate 6 cell_blank ++ [last].
Definition vts_example (last : VtCell) : Vts (Heap Z) :=
  mkVts heap_example fb4_console {[ 0x100 := replicate 8 cell_blank; 0x200 := cells_a last ]}
    [vt_fields 0x100; vt_fields 0x200; vt_fields 0; vt_fields 0; vt_fields 0; vt_fields 0] 0 4 2 1.

Lemma vts_example_terms last : printable last → ∀ i v, zget (vts (vts_example last)) i = Some v → buffer v ≠ 0 → ∃ l, terminal_ok (vts_example last) v l.
Proof.
  intros Hl i v Hv Hb. unfold zget in Hv. destruct (i <? 0); [done|]. cbn in Hv. destruct (Z.to_nat i) as [|[|[|[|[|[|k]]]]]]; cbn in Hv; try done; try (injection Hv as <-; done).
  - injection Hv as <-. exists (replicate 8 cell_blank). split; [apply lookup_insert_eq|done|by apply Forall_replicate|done].
  - injection Hv as <-. exists (cells_a last). split; [cbn; rewrite lookup_insert_ne by done; apply lookup_singleton_eq|done| |done].
    apply Forall_cons. split; [done|]. apply Forall_app. split; [by apply Forall_replicate|by apply Forall_singleton].
Qed.
Lemma vts_example_ok last : printable last → vt_ok (vts_example last).
Proof.
  intros Hl. split; [done|done|done|done|by apply vts_example_terms|]. intros i j v w Hv Hw Hij Hb Heq.
  unfold zget in Hv, Hw. destruct (Z.ltb_spec i 0); [done|]. destruct (Z.ltb_spec j 0); [done|]. assert (Z.to_nat i ≠ Z.to_nat j) as Hne by lia. cbn in Hv, Hw.
  destruct (Z.to_nat i) as [|[|[|[|[|[|k]]]]]]; cbn in Hv; try done; try (injection Hv as <-; done); destruct (Z.to_nat j) as [|[|[|[|[|[|k']]]]]]; cbn in Hw;
    try done; injection Hv as <-; injection Hw as <-; done.
Qed.
Lemma fb4_usable : usable fb4 fb4_start.
Proof. split; cbn; try lia. eexists. split; [apply lookup_singleton_eq|]. by rewrite length_replicate. Qed.
Lemma fb4_shows : shows fb4_console (t_init fb4).
Proof. destruct (init_ok fb4 fb4_start fb4_usable) as (s & E & Hs). unfold fb4_console. by rewrite E. Qed.

Lemma vt_putchar_correct_witness : ∃ s', vt_putchar 1 66 (vts_example cell_blank) = Done tt s' ∧ wrote_to (vts_example cell_blank) 1 s'.
Proof. apply vt_putchar_correct, vts_example_ok. done. Defined.
Lemma vt_switch_correct_witness : ∃ s' t', vt_switch 1 (vts_example cell_blank) = Done tt s' ∧ active_vt s' = 1 ∧ matches s' t' ∧
  shown (vts_example cell_blank) (cells_a cell_blank) (λ _ _, true) t'.
Proof.
  destruct (vts_example_terms cell_blank ltac:(done) 1 (vt_fields 0x200) eq_refl ltac:(done)) as (l & Hl). pose proof (to_cells _ _ _ Hl) as Hc. vm_compute in Hc. injection Hc as <-.
  destruct (vt_switch_correct (vts_example cell_blank) (t_init fb4) 1 (vt_fields 0x200) (cells_a cell_blank) (vt_fields 0x100)) as (s' & t' & E & Ha & Hm & Hsh & _).
  - by apply vts_example_ok.
  - split; [exact fb4_shows|done].
  - done.
  - done.
  - done.
  - done.
  - exact Hl.
  - intros e He. vm_compute in He. by injection He as <-.
  - done.
  - exists s', t'. split; [exact E|]. split; [exact Ha|]. split; [exact Hm|exact Hsh].
Defined.

(** With a character in the last cell the redraw scrolls: after the switch the last row of the framebuffer is empty, although the
    terminal has a character in it. *)
Definition pixels (s : Vts (Heap Z)) : list Z := default [] (buffers (fbc s) !! 0x1000).
Definition switched (last : VtCell) : list Z := match vt_switch 1 (vts_example last) with Done _ s => pixels s | _ => [] end.
Lemma vt_redraw_scrolls : drop (Z.to_nat (128 * 16)) (switched cell_a) = replicate (Z.to_nat (128 * 16)) 0.
Proof. vm_compute. reflexivity. Qed.
