(* ===== verification/Net.v ===== *)
(** * The network stack: sending

    [kernel/net/net_util.c], [netif.c], [arp.c], and the sending half of [ethernet.c],
    [ipv4.c], [udp.c] and [tcp.c].  Packets are lists of bytes; a packed header is a
    record with its layout.  Multi-byte fields are read and written as the little
    endian machine does, so a field in network byte order has its bytes
    swapped, as in the code.  Handing a frame to an interface is a parameter. *)
From S2P Require Import Prelude KHeap Spinlock.

(** ** Byte order *)

Definition htons (h : Z) : Z := u16 (Z.lor (Z.shiftr h 8) (Z.shiftl h 8)).
Definition ntohs (n : Z) : Z := htons n.
Definition htonl (h : Z) : Z :=
  Z.lor (Z.lor (Z.land (Z.shiftr h 24) 0xFF) (Z.land (Z.shiftr h 8) 0xFF00))
    (Z.lor (Z.land (u32 (Z.shiftl h 8)) 0xFF0000) (Z.land (u32 (Z.shiftl h 24)) 0xFF000000)).
Definition ntohl (n : Z) : Z := htonl n.
Definition IP4 (a b c d : Z) : Z := Z.lor (Z.lor a (Z.shiftl b 8)) (Z.lor (Z.shiftl c 16) (Z.shiftl d 24)).

(** The bytes of a 16-bit and a 32-bit variable in memory, and reading them. *)
Definition st16 (v : Z) : list Z := [v mod 256; v / 256 mod 256].
Definition st32 (v : Z) : list Z := [v mod 256; v / 256 mod 256; v / 65536 mod 256; v / 16777216 mod 256].
Definition ld16 (l : list Z) : option Z :=
  match l with a :: b :: _ => Some (a + 256 * b) | _ => None end.
Definition ld32 (l : list Z) : option Z :=
  match l with a :: b :: c :: d :: _ => Some (a + 256 * b + 65536 * c + 16777216 * d) | _ => None end.

(** ** The Internet checksum *)

Fixpoint sum_words (p : list Z) (sum : Z) : Z :=
  match p with
  | a :: b :: p' => sum_words p' (u32 (sum + Z.lor (Z.shiftl a 8) b))
  | [a] => u32 (sum + Z.shiftl a 8)
  | [] => sum
  end.
(** [while (sum >> 16)]; two passes are enough for a 32-bit sum. *)
Fixpoint fold_carry (fuel : nat) (sum : Z) : option Z :=
  if Z.shiftr sum 16 =? 0 then Some sum else
  match fuel with
  | O => None
  | S fuel' => fold_carry fuel' (u32 (Z.land sum 0xFFFF + Z.shiftr sum 16))
  end.
Definition net_checksum (data : list Z) : option Z := (λ s, u16 (Z.lnot s)) <$> fold_carry 2 (sum_words data 0).

(** ** Headers *)

Definition ETH_ALEN : Z := 6.
Definition ETH_HEADER_SIZE : Z := 14.
Definition ETH_MTU : Z := 1500.
Definition ETH_TYPE_ARP : Z := 0x0806.
Definition ETH_TYPE_IPV4 : Z := 0x0800.
Definition ARP_HTYPE_ETHER : Z := 1.
Definition ARP_PTYPE_IPV4 : Z := 0x0800.
Definition ARP_OP_REQUEST : Z := 1.
Definition ARP_OP_REPLY : Z := 2.
Definition ARP_PACKET_SIZE : Z := 28.
Definition ARP_CACHE_SIZE : Z := 16.
Definition IPV4_HEADER_SIZE : Z := 20.
Definition IPV4_PROTO_ICMP : Z := 1.
Definition IPV4_PROTO_TCP : Z := 6.
Definition IPV4_PROTO_UDP : Z := 17.
Definition IPV4_DEFAULT_TTL : Z := 64.
Definition ICMP_TYPE_ECHO_REPLY : Z := 0.
Definition ICMP_TYPE_ECHO_REQUEST : Z := 8.
Definition ICMP_HEADER_SIZE : Z := 8.
Definition UDP_HEADER_SIZE : Z := 8.
Definition TCP_HEADER_SIZE : Z := 20.
Definition TCP_FIN : Z := 1.
Definition TCP_SYN : Z := 2.
Definition TCP_RST : Z := 4.
Definition TCP_PSH : Z := 8.
Definition TCP_ACK : Z := 16.
Definition SOCK_RXBUF_SIZE : Z := 8192.
Definition NETIF_MAX : Z := 4.

Record EthHeader : Type := mkEth { eth_dst : list Z; eth_src : list Z; ethertype : Z }.
Definition eth_bytes (h : EthHeader) : list Z := eth_dst h ++ eth_src h ++ st16 (ethertype h).

Record ArpPacket : Type := mkArp {
  htype : Z; ptype : Z; hlen : Z; plen : Z; oper : Z; sha : list Z; spa : Z; tha : list Z; tpa : Z
}.
Definition arp_bytes (p : ArpPacket) : list Z :=
  st16 (htype p) ++ st16 (ptype p) ++ [hlen p; plen p] ++ st16 (oper p) ++ sha p ++ st32 (spa p) ++ tha p ++ st32 (tpa p).
Definition arp_of (l : list Z) : option ArpPacket :=
  ht ← ld16 l; pt ← ld16 (drop 2 l); hl ← l !! 4%nat; pl ← l !! 5%nat; op ← ld16 (drop 6 l);
  sp ← ld32 (drop 14 l); tp ← ld32 (drop 24 l);
  Some (mkArp ht pt hl pl op (take 6 (drop 8 l)) sp (take 6 (drop 18 l)) tp).

Record Ipv4Header : Type := mkIp {
  ver_ihl : Z; tos : Z; total_len : Z; ip_id : Z; flags_frag : Z; ttl : Z; protocol : Z; ip_checksum : Z; src_ip : Z; dst_ip : Z
}.
Definition ip_bytes (h : Ipv4Header) : list Z :=
  [ver_ihl h; tos h] ++ st16 (total_len h) ++ st16 (ip_id h) ++ st16 (flags_frag h) ++ [ttl h; protocol h] ++
  st16 (ip_checksum h) ++ st32 (src_ip h) ++ st32 (dst_ip h).
Definition ip_of (l : list Z) : option Ipv4Header :=
  v ← l !! 0%nat; t ← l !! 1%nat; tl ← ld16 (drop 2 l); i ← ld16 (drop 4 l); f ← ld16 (drop 6 l);
  tt' ← l !! 8%nat; p ← l !! 9%nat; c ← ld16 (drop 10 l); s ← ld32 (drop 12 l); d ← ld32 (drop 16 l);
  Some (mkIp v t tl i f tt' p c s d).

Record IcmpHeader : Type := mkIcmp { icmp_type : Z; icmp_code : Z; icmp_checksum : Z; icmp_id : Z; icmp_sequence : Z }.
Definition icmp_bytes (h : IcmpHeader) : list Z :=
  [icmp_type h; icmp_code h] ++ st16 (icmp_checksum h) ++ st16 (icmp_id h) ++ st16 (icmp_sequence h).
Definition icmp_of (l : list Z) : option IcmpHeader :=
  t ← l !! 0%nat; c ← l !! 1%nat; k ← ld16 (drop 2 l); i ← ld16 (drop 4 l); s ← ld16 (drop 6 l);
  Some (mkIcmp t c k i s).

Record UdpHeader : Type := mkUdp { udp_src_port : Z; udp_dst_port : Z; udp_length : Z; udp_checksum : Z }.
Definition udp_bytes (h : UdpHeader) : list Z :=
  st16 (udp_src_port h) ++ st16 (udp_dst_port h) ++ st16 (udp_length h) ++ st16 (udp_checksum h).
Definition udp_of (l : list Z) : option UdpHeader :=
  s ← ld16 l; d ← ld16 (drop 2 l); n ← ld16 (drop 4 l); c ← ld16 (drop 6 l); Some (mkUdp s d n c).

Record TcpHeader : Type := mkTcp {
  tcp_src_port : Z; tcp_dst_port : Z; tcp_seq : Z; tcp_ack : Z; tcp_data_off : Z; tcp_flags : Z; tcp_window : Z; tcp_cksum : Z; tcp_urgent : Z
}.
Definition tcp_bytes (h : TcpHeader) : list Z :=
  st16 (tcp_src_port h) ++ st16 (tcp_dst_port h) ++ st32 (tcp_seq h) ++ st32 (tcp_ack h) ++ [tcp_data_off h; tcp_flags h] ++
  st16 (tcp_window h) ++ st16 (tcp_cksum h) ++ st16 (tcp_urgent h).
Definition tcp_of (l : list Z) : option TcpHeader :=
  s ← ld16 l; d ← ld16 (drop 2 l); q ← ld32 (drop 4 l); a ← ld32 (drop 8 l); o ← l !! 12%nat; f ← l !! 13%nat;
  w ← ld16 (drop 14 l); c ← ld16 (drop 16 l); u ← ld16 (drop 18 l);
  Some (mkTcp s d q a o f w c u).

(** The checksum of TCP adds the words as the machine reads them. *)
Fixpoint sum_le (p : list Z) (sum : Z) : Z :=
  match p with
  | a :: b :: p' => sum_le p' (u32 (sum + (a + 256 * b)))
  | [a] => u32 (sum + a)
  | [] => sum
  end.
Definition pseudo_bytes (src dst len : Z) : list Z :=
  st32 src ++ st32 dst ++ [0; IPV4_PROTO_TCP] ++ st16 (htons (u16 len)).
Definition tcp_checksum (src dst : Z) (segment : list Z) : option Z :=
  (λ s, u16 (Z.lnot s)) <$>
    fold_carry 2 (sum_le segment (sum_le (pseudo_bytes src dst (Z.of_nat (length segment))) 0)).

(** ** State *)

Record NetIf : Type := mkNif { mac : list Z; nif_ip : Z; netmask : Z; gateway : Z }.
Record ArpEntry : Type := mkArpEntry { ae_ip : Z; ae_mac : list Z; ae_valid : Z }.

(** The socket control block ([kernel/net/socket.h]); the wait queues are the lists of threads they hold. *)
Record Socket : Type := mkSocket {
  sk_type : Z; sk_state : Z; local_ip : Z; local_port : Z; remote_ip : Z; remote_port : Z;
  rx_buf : list Z; rx_head : Z; rx_tail : Z; rx_count : Z;
  snd_una : Z; snd_nxt : Z; rcv_nxt : Z;
  sk_lock : Spinlock; rx_wq : list Z; accept_wq : list Z;
  accept_queue : list Z; accept_head : Z; accept_tail : Z; sk_closed : Z
}.

Record Net (H : Type) : Type := mkNet {
  nheap : H;
  nrflags : Z;
  interfaces : list Z;
  nifs : gmap Z NetIf;
  arp_cache : list ArpEntry;
  arp_next_slot : Z;
  ip_id_counter : Z;
  socket_table : list Z;
  socket_table_lock : Spinlock;
  ephemeral_port_next : Z;
  sockets : gmap Z Socket;
  runnable : list Z;              (* threads woken by the wait queues, in order *)
}.
Arguments mkNet {H}.
Arguments nheap {H}.
Arguments nrflags {H}.
Arguments interfaces {H}.
Arguments nifs {H}.
Arguments arp_cache {H}.
Arguments arp_next_slot {H}.
Arguments ip_id_counter {H}.
Arguments socket_table {H}.
Arguments socket_table_lock {H}.
Arguments ephemeral_port_next {H}.
Arguments sockets {H}.
Arguments runnable {H}.

Section net.
Context {H : Type} `{KHeap H}.
(** [nif->send(nif, frame, len)] of the driver. *)
Context (nif_send : Z → list Z → K (Net H) Z).
Implicit Types (s : Net H).

Definition with_interfaces (l : list Z) s : Net H :=
  mkNet (nheap s) (nrflags s) l (nifs s) (arp_cache s) (arp_next_slot s) (ip_id_counter s) (socket_table s)
    (socket_table_lock s) (ephemeral_port_next s) (sockets s) (runnable s).
Definition with_nifs (m : gmap Z NetIf) s : Net H :=
  mkNet (nheap s) (nrflags s) (interfaces s) m (arp_cache s) (arp_next_slot s) (ip_id_counter s) (socket_table s)
    (socket_table_lock s) (ephemeral_port_next s) (sockets s) (runnable s).
Definition with_arp (c : list ArpEntry) (n : Z) s : Net H :=
  mkNet (nheap s) (nrflags s) (interfaces s) (nifs s) c n (ip_id_counter s) (socket_table s)
    (socket_table_lock s) (ephemeral_port_next s) (sockets s) (runnable s).
Definition with_ip_id (n : Z) s : Net H :=
  mkNet (nheap s) (nrflags s) (interfaces s) (nifs s) (arp_cache s) (arp_next_slot s) n (socket_table s)
    (socket_table_lock s) (ephemeral_port_next s) (sockets s) (runnable s).

(** ** Interfaces *)

Definition netif_register (nif : Z) : K (Net H) Z :=
  n ← kget (λ s, Z.of_nat (length (interfaces s)));
  if NETIF_MAX <=? n then mret (-1) else
  kmod (λ s, with_interfaces (interfaces s ++ [nif]) s);;
  mret n.
(** The address of the first interface, or 0. *)
Definition netif_get_default : K (Net H) Z := kget (λ s, default 0 (head (interfaces s))).
Definition nif_of (a : Z) : K (Net H) NetIf := kopt (λ s, nifs s !! a).

(** ** ARP cache *)

Definition arp_init : K (Net H) unit :=
  kmod (with_arp (replicate (Z.to_nat ARP_CACHE_SIZE) (mkArpEntry 0 (replicate 6 0) 0)) 0).
Definition arp_match (ip : Z) (e : ArpEntry) : bool := negb (ae_valid e =? 0) && (ae_ip e =? ip).

(** The loop that updates an entry that is present. *)
Fixpoint arp_update (l : list ArpEntry) (ip : Z) (m : list Z) : option (list ArpEntry) :=
  match l with
  | [] => None
  | e :: l' => if arp_match ip e then Some (mkArpEntry (ae_ip e) m (ae_valid e) :: l') else cons e <$> arp_update l' ip m
  end.
Definition arp_insert (ip : Z) (m : list Z) : K (Net H) unit :=
  cache ← kget arp_cache;
  slot ← kget arp_next_slot;
  match arp_update cache ip m with
  | Some cache' => kmod (with_arp cache' slot)
  | None => kupd (λ s, cache' ← zset cache slot (mkArpEntry ip m 1); Some (with_arp cache' ((slot + 1) mod ARP_CACHE_SIZE) s))
  end.
Fixpoint arp_find (l : list ArpEntry) (ip : Z) : option (list Z) :=
  match l with
  | [] => None
  | e :: l' => if arp_match ip e then Some (ae_mac e) else arp_find l' ip
  end.
Definition arp_lookup (ip : Z) : K (Net H) (option (list Z)) := kget (λ s, arp_find (arp_cache s) ip).

(** ** Sending

    Each layer builds its packet in a buffer on the stack.  The length is added up in
    32 bits, and copying a payload longer than the buffer is undefined. *)

Definition eth_send (nif : Z) (dst : list Z) (type : Z) (payload : list Z) : K (Net H) Z :=
  if ETH_MTU <? Z.of_nat (length payload) then mret (-1) else
  n ← nif_of nif;
  nif_send nif (eth_bytes (mkEth dst (mac n) (htons type)) ++ payload).

Definition ipv4_send (nif dst proto : Z) (payload : list Z) : K (Net H) Z :=
  let total := u32 (IPV4_HEADER_SIZE + Z.of_nat (length payload)) in
  if ETH_MTU <? total then mret (-1) else
  if ETH_MTU - IPV4_HEADER_SIZE <? Z.of_nat (length payload) then kstuck else
  n ← nif_of nif;
  id ← kget ip_id_counter;
  kmod (with_ip_id (u16 (id + 1)));;
  let hdr ck := mkIp 0x45 0 (htons (u16 total)) (htons id) 0 IPV4_DEFAULT_TTL proto ck (nif_ip n) dst in
  ck ← kopt (λ _, net_checksum (ip_bytes (hdr 0)));
  let next_hop := if negb (Z.land dst (netmask n) =? Z.land (nif_ip n) (netmask n)) then gateway n else dst in
  dst_mac ← arp_lookup next_hop;
  match dst_mac with
  | None => mret (-1)
  | Some m => eth_send nif m ETH_TYPE_IPV4 (ip_bytes (hdr (htons ck)) ++ payload)
  end.

Definition udp_send (nif src_port dst dst_port : Z) (payload : list Z) : K (Net H) Z :=
  let total := u32 (UDP_HEADER_SIZE + Z.of_nat (length payload)) in
  if 1480 <? total then mret (-1) else
  if 1480 - UDP_HEADER_SIZE <? Z.of_nat (length payload) then kstuck else
  ipv4_send nif dst IPV4_PROTO_UDP (udp_bytes (mkUdp src_port dst_port (htons (u16 total)) 0) ++ payload).

Definition tcp_segment (src sport dst dport seq ack flags : Z) (payload : list Z) : option (list Z) :=
  let hdr ck := mkTcp sport dport (htonl seq) (htonl ack) (u8 (Z.shiftl (TCP_HEADER_SIZE / 4) 4)) flags (htons SOCK_RXBUF_SIZE) ck 0 in
  ck ← tcp_checksum src dst (tcp_bytes (hdr 0) ++ payload);
  Some (tcp_bytes (hdr ck) ++ payload).
Definition tcp_send (nif src sport dst dport seq ack flags : Z) (payload : list Z) : K (Net H) Z :=
  let total := u32 (TCP_HEADER_SIZE + Z.of_nat (length payload)) in
  if 1480 <? total then mret (-1) else
  if 1480 - TCP_HEADER_SIZE <? Z.of_nat (length payload) then kstuck else
  seg ← kopt (λ _, tcp_segment src sport dst dport seq ack flags payload);
  ipv4_send nif dst IPV4_PROTO_TCP seg.
End net.
