(* ===== verification/Socket.v ===== *)
(** * Sockets

    [kernel/net/socket.c]: the socket table, the calls of the socket API and the
    delivery of datagrams and TCP segments.  A call that may sleep is one pass of
    its waiting loop: it returns, or the thread is on a wait queue and
    runs the pass again when it is woken. *)
From S2P Require Import Prelude KHeap Spinlock Net.

Definition AF_INET : Z := 2.
Definition SOCK_STREAM : Z := 1.
Definition SOCK_DGRAM : Z := 2.
Definition SOCK_STATE_CLOSED : Z := 0.
Definition SOCK_STATE_LISTEN : Z := 1.
Definition SOCK_STATE_SYN_SENT : Z := 2.
Definition SOCK_STATE_SYN_RECV : Z := 3.
Definition SOCK_STATE_ESTABLISHED : Z := 4.
Definition SOCK_STATE_FIN_WAIT_1 : Z := 5.
Definition SOCK_STATE_FIN_WAIT_2 : Z := 6.
Definition SOCK_STATE_CLOSE_WAIT : Z := 7.
Definition SOCK_STATE_LAST_ACK : Z := 8.
Definition SOCK_STATE_TIME_WAIT : Z := 9.
Definition SOCKET_MAX : Z := 64.
Definition SOCK_BACKLOG_MAX : Z := 8.
Definition SIZEOF_SOCKET : Z := 8400.
Definition SIZEOF_UDP_META : Z := 8.

Definition EIO : Z := 5.
Definition EBADF : Z := 9.
Definition ENOMEM : Z := 12.
Definition EINVAL : Z := 22.
Definition ENOSYS : Z := 38.
Definition ENETUNREACH : Z := 101.
Definition ENOTCONN : Z := 107.
Definition ECONNREFUSED : Z := 111.

(** ** Fields *)

Definition set_sk_state (v : Z) (k : Socket) : Socket :=
  mkSocket (sk_type k) v (local_ip k) (local_port k) (remote_ip k) (remote_port k) (rx_buf k) (rx_head k) (rx_tail k) (rx_count k)
    (snd_una k) (snd_nxt k) (rcv_nxt k) (sk_lock k) (rx_wq k) (accept_wq k) (accept_queue k) (accept_head k) (accept_tail k) (sk_closed k).
Definition set_local (ip port : Z) (k : Socket) : Socket :=
  mkSocket (sk_type k) (sk_state k) ip port (remote_ip k) (remote_port k) (rx_buf k) (rx_head k) (rx_tail k) (rx_count k)
    (snd_una k) (snd_nxt k) (rcv_nxt k) (sk_lock k) (rx_wq k) (accept_wq k) (accept_queue k) (accept_head k) (accept_tail k) (sk_closed k).
Definition set_remote (ip port : Z) (k : Socket) : Socket :=
  mkSocket (sk_type k) (sk_state k) (local_ip k) (local_port k) ip port (rx_buf k) (rx_head k) (rx_tail k) (rx_count k)
    (snd_una k) (snd_nxt k) (rcv_nxt k) (sk_lock k) (rx_wq k) (accept_wq k) (accept_queue k) (accept_head k) (accept_tail k) (sk_closed k).
Definition set_rx (buf : list Z) (hd tl cnt : Z) (k : Socket) : Socket :=
  mkSocket (sk_type k) (sk_state k) (local_ip k) (local_port k) (remote_ip k) (remote_port k) buf hd tl cnt
    (snd_una k) (snd_nxt k) (rcv_nxt k) (sk_lock k) (rx_wq k) (accept_wq k) (accept_queue k) (accept_head k) (accept_tail k) (sk_closed k).
Definition set_seqs (una nxt rcv : Z) (k : Socket) : Socket :=
  mkSocket (sk_type k) (sk_state k) (local_ip k) (local_port k) (remote_ip k) (remote_port k) (rx_buf k) (rx_head k) (rx_tail k) (rx_count k)
    una nxt rcv (sk_lock k) (rx_wq k) (accept_wq k) (accept_queue k) (accept_head k) (accept_tail k) (sk_closed k).
Definition set_sk_lock (l : Spinlock) (k : Socket) : Socket :=
  mkSocket (sk_type k) (sk_state k) (local_ip k) (local_port k) (remote_ip k) (remote_port k) (rx_buf k) (rx_head k) (rx_tail k) (rx_count k)
    (snd_una k) (snd_nxt k) (rcv_nxt k) l (rx_wq k) (accept_wq k) (accept_queue k) (accept_head k) (accept_tail k) (sk_closed k).
Definition set_wqs (rx ac : list Z) (k : Socket) : Socket :=
  mkSocket (sk_type k) (sk_state k) (local_ip k) (local_port k) (remote_ip k) (remote_port k) (rx_buf k) (rx_head k) (rx_tail k) (rx_count k)
    (snd_una k) (snd_nxt k) (rcv_nxt k) (sk_lock k) rx ac (accept_queue k) (accept_head k) (accept_tail k) (sk_closed k).
Definition set_accept (q : list Z) (hd tl : Z) (k : Socket) : Socket :=
  mkSocket (sk_type k) (sk_state k) (local_ip k) (local_port k) (remote_ip k) (remote_port k) (rx_buf k) (rx_head k) (rx_tail k) (rx_count k)
    (snd_una k) (snd_nxt k) (rcv_nxt k) (sk_lock k) (rx_wq k) (accept_wq k) q hd tl (sk_closed k).

(** A zeroed block with the type set, its lock free and its wait queues empty. *)
Definition new_socket (type : Z) : Socket :=
  mkSocket type SOCK_STATE_CLOSED 0 0 0 0 (replicate (Z.to_nat SOCK_RXBUF_SIZE) 0) 0 0 0 0 0 0
    SPINLOCK_INIT [] [] (replicate (Z.to_nat SOCK_BACKLOG_MAX) 0) 0 0 0.

(** ** The receive ring *)

Definition rx_put (k : Socket) (b : Z) : option Socket :=
  buf ← zset (rx_buf k) (rx_head k) b;
  Some (set_rx buf (u32 (rx_head k + 1) mod SOCK_RXBUF_SIZE) (rx_tail k) (rx_count k) k).
Fixpoint rx_puts (k : Socket) (data : list Z) : option Socket :=
  match data with [] => Some k | b :: data' => k' ← rx_put k b; rx_puts k' data' end.
Definition rx_add (n : Z) (k : Socket) : Socket := set_rx (rx_buf k) (rx_head k) (rx_tail k) (u32 (rx_count k + n)) k.
Definition rx_enqueue (k : Socket) (data : list Z) : option (Z * Socket) :=
  if SOCK_RXBUF_SIZE <? u32 (rx_count k + Z.of_nat (length data)) then Some (-1, k) else
  k' ← rx_puts k data;
  Some (0, rx_add (Z.of_nat (length data)) k').

Definition rx_advance (k : Socket) : Socket :=
  set_rx (rx_buf k) (rx_head k) (u32 (rx_tail k + 1) mod SOCK_RXBUF_SIZE) (rx_count k) k.
(** Copying [n] bytes out of the ring. *)
Fixpoint rx_gets (n : nat) (k : Socket) : option (list Z * Socket) :=
  match n with
  | O => Some ([], k)
  | S n' => b ← zget (rx_buf k) (rx_tail k); '(l, k') ← rx_gets n' (rx_advance k); Some (b :: l, k')
  end.
Fixpoint rx_skip (n : nat) (k : Socket) : Socket :=
  match n with O => k | S n' => rx_skip n' (rx_advance k) end.

(** [UdpRxMeta] as it lies in the ring. *)
Definition meta_bytes (src_ip src_port data_len : Z) : list Z := st32 src_ip ++ st16 src_port ++ st16 data_len.

(** ** Waiting *)

Inductive Blk (A : Type) : Type := Blocked | Returned (a : A).
Arguments Blocked {A}.
Arguments Returned {A} a.

(** The table searches. *)
Fixpoint find_in (m : gmap Z Socket) (p : Socket → bool) (l : list Z) : option Z :=
  match l with
  | [] => Some 0
  | a :: l' => if a =? 0 then find_in m p l' else k ← m !! a; if p k then Some a else find_in m p l'
  end.
Fixpoint free_slot (l : list Z) (i : Z) : option Z :=
  match l with
  | [] => None
  | a :: l' => if a =? 0 then Some i else free_slot l' (i + 1)
  end.
Definition exact_match (port type rip rport : Z) (k : Socket) : bool :=
  (sk_type k =? type) && (local_port k =? port) && (remote_ip k =? rip) && (remote_port k =? rport).
Definition wild_match (port type : Z) (k : Socket) : bool :=
  (sk_type k =? type) && (local_port k =? port) && ((remote_ip k =? 0) || (sk_state k =? SOCK_STATE_LISTEN)).

Section socket.
Context {H : Type} `{KHeap H}.
Context (nif_send : Z → list Z → K (Net H) Z).
Implicit Types (s : Net H).

Definition with_nheap (h : H) s : Net H :=
  mkNet h (nrflags s) (interfaces s) (nifs s) (arp_cache s) (arp_next_slot s) (ip_id_counter s) (socket_table s)
    (socket_table_lock s) (ephemeral_port_next s) (sockets s) (runnable s).
Definition with_table (t : list Z) s : Net H :=
  mkNet (nheap s) (nrflags s) (interfaces s) (nifs s) (arp_cache s) (arp_next_slot s) (ip_id_counter s) t
    (socket_table_lock s) (ephemeral_port_next s) (sockets s) (runnable s).
Definition with_table_lock (l : Spinlock) (fl : Z) s : Net H :=
  mkNet (nheap s) fl (interfaces s) (nifs s) (arp_cache s) (arp_next_slot s) (ip_id_counter s) (socket_table s)
    l (ephemeral_port_next s) (sockets s) (runnable s).
Definition with_port (p : Z) s : Net H :=
  mkNet (nheap s) (nrflags s) (interfaces s) (nifs s) (arp_cache s) (arp_next_slot s) (ip_id_counter s) (socket_table s)
    (socket_table_lock s) p (sockets s) (runnable s).
Definition with_sockets (m : gmap Z Socket) s : Net H :=
  mkNet (nheap s) (nrflags s) (interfaces s) (nifs s) (arp_cache s) (arp_next_slot s) (ip_id_counter s) (socket_table s)
    (socket_table_lock s) (ephemeral_port_next s) m (runnable s).
Definition with_nflags (fl : Z) s : Net H :=
  mkNet (nheap s) fl (interfaces s) (nifs s) (arp_cache s) (arp_next_slot s) (ip_id_counter s) (socket_table s)
    (socket_table_lock s) (ephemeral_port_next s) (sockets s) (runnable s).
Definition with_runnable (l : list Z) s : Net H :=
  mkNet (nheap s) (nrflags s) (interfaces s) (nifs s) (arp_cache s) (arp_next_slot s) (ip_id_counter s) (socket_table s)
    (socket_table_lock s) (ephemeral_port_next s) (sockets s) l.

Definition sk_of (a : Z) : K (Net H) Socket := kopt (λ s, sockets s !! a).
Definition upd_sk (a : Z) (f : Socket → Socket) : K (Net H) unit :=
  kupd (λ s, k ← sockets s !! a; Some (with_sockets (<[a := f k]> (sockets s)) s)).
Definition updo_sk {A} (a : Z) (f : Socket → option (A * Socket)) : K (Net H) A :=
  λ s, match k ← sockets s !! a; f k with
       | Some (r, k') => Done r (with_sockets (<[a := k']> (sockets s)) s)
       | None => Stuck
       end.
Definition n_alloc (size flags : Z) : K (Net H) Z := zoom nheap with_nheap (kh_alloc size flags).
Definition n_free (a : Z) : K (Net H) unit := zoom nheap with_nheap (kh_free a).

Definition sk_acquire (a : Z) : K (Net H) unit :=
  kupd (λ s, k ← sockets s !! a; '(l, fl) ← spinlock_acquire (sk_lock k) (nrflags s);
             Some (with_nflags fl (with_sockets (<[a := set_sk_lock l k]> (sockets s)) s))).
Definition sk_release (a : Z) : K (Net H) unit :=
  kupd (λ s, k ← sockets s !! a; let '(l, fl) := spinlock_release (sk_lock k) in
             Some (with_nflags fl (with_sockets (<[a := set_sk_lock l k]> (sockets s)) s))).
Definition table_acquire : K (Net H) unit :=
  kupd (λ s, '(l, fl) ← spinlock_acquire (socket_table_lock s) (nrflags s); Some (with_table_lock l fl s)).
Definition table_release : K (Net H) unit :=
  kmod (λ s, let '(l, fl) := spinlock_release (socket_table_lock s) in with_table_lock l fl s).

(** [wq_wake] and [wq_wake_all] on the queues of a socket; [wq_sleep] queues the
    thread and gives up the lock of the socket. *)
Definition wake_rx (a : Z) : K (Net H) unit :=
  k ← sk_of a;
  match rx_wq k with
  | [] => mret tt
  | t :: q => upd_sk a (set_wqs q (accept_wq k));; kmod (λ s, with_runnable (runnable s ++ [t]) s)
  end.
Definition wake_accept (a : Z) : K (Net H) unit :=
  k ← sk_of a;
  match accept_wq k with
  | [] => mret tt
  | t :: q => upd_sk a (set_wqs (rx_wq k) q);; kmod (λ s, with_runnable (runnable s ++ [t]) s)
  end.
Definition wake_all (a : Z) : K (Net H) unit :=
  k ← sk_of a;
  upd_sk a (set_wqs [] []);;
  kmod (λ s, with_runnable (runnable s ++ rx_wq k ++ accept_wq k) s).
Definition sleep_rx (self a : Z) : K (Net H) unit :=
  upd_sk a (λ k, set_wqs (rx_wq k ++ [self]) (accept_wq k) k);; sk_release a.
Definition sleep_accept (self a : Z) : K (Net H) unit :=
  upd_sk a (λ k, set_wqs (rx_wq k) (accept_wq k ++ [self]) k);; sk_release a.

(** ** Creation, lookup and release *)

(** Put a socket in the first free slot of the table; -1 when it is full. *)
Definition table_add (a : Z) : K (Net H) Z :=
  table_acquire;;
  t ← kget socket_table;
  idx ← (match free_slot t 0 with
         | Some i => kupd (λ s, t' ← zset t i a; Some (with_table t' s));; mret i
         | None => mret (-1)
         end);
  table_release;;
  mret idx.

Definition socket_create (family type protocol : Z) : K (Net H) Z :=
  if negb (family =? AF_INET) then mret (- ENOSYS) else
  if negb (type =? SOCK_DGRAM) && negb (type =? SOCK_STREAM) then mret (- EINVAL) else
  a ← n_alloc SIZEOF_SOCKET 1;
  if a =? 0 then mret (- ENOMEM) else
  kmod (λ s, with_sockets (<[a := new_socket type]> (sockets s)) s);;
  idx ← table_add a;
  if idx <? 0 then
    kmod (λ s, with_sockets (delete a (sockets s)) s);; n_free a;; mret (- ENOMEM)
  else mret idx.

Definition socket_get (idx : Z) : K (Net H) Z :=
  if (idx <? 0) || (SOCKET_MAX <=? idx) then mret 0 else kopt (λ s, zget (socket_table s) idx).

Definition socket_free (idx : Z) : K (Net H) unit :=
  if (idx <? 0) || (SOCKET_MAX <=? idx) then mret tt else
  table_acquire;;
  a ← kopt (λ s, zget (socket_table s) idx);
  kupd (λ s, t' ← zset (socket_table s) idx 0; Some (with_table t' s));;
  table_release;;
  if a =? 0 then mret tt else
  upd_sk a (λ k, mkSocket (sk_type k) (sk_state k) (local_ip k) (local_port k) (remote_ip k) (remote_port k) (rx_buf k)
    (rx_head k) (rx_tail k) (rx_count k) (snd_una k) (snd_nxt k) (rcv_nxt k) (sk_lock k) (rx_wq k) (accept_wq k)
    (accept_queue k) (accept_head k) (accept_tail k) 1);;
  wake_all a;;
  kmod (λ s, with_sockets (delete a (sockets s)) s);;
  n_free a.

Definition socket_alloc_ephemeral_port : K (Net H) Z :=
  table_acquire;;
  p ← kget ephemeral_port_next;
  let next := u16 (p + 1) in
  kmod (with_port (if 65534 <? next then 49152 else next));;
  table_release;;
  mret (htons p).

(** ** The socket calls *)

Definition socket_bind (a ip port : Z) : K (Net H) Z :=
  if a =? 0 then mret (- EINVAL) else
  sk_acquire a;;
  upd_sk a (set_local ip port);;
  sk_release a;;
  mret 0.

Definition socket_listen (a backlog : Z) : K (Net H) Z :=
  if a =? 0 then mret (- EINVAL) else
  k ← sk_of a;
  if negb (sk_type k =? SOCK_STREAM) then mret (- EINVAL) else
  sk_acquire a;;
  upd_sk a (set_sk_state SOCK_STATE_LISTEN);;
  sk_release a;;
  mret 0.

(** The waiting loop of [socket_accept] and what follows it; the result is the
    index of the child with its remote port and address. *)
Definition accept_pass (self a : Z) : K (Net H) (Blk (Z * Z * Z)) :=
  sk_acquire a;;
  k ← sk_of a;
  if (accept_head k =? accept_tail k) && (sk_closed k =? 0) then sleep_accept self a;; mret Blocked else
  if negb (sk_closed k =? 0) then sk_release a;; mret (Returned (- EBADF, 0, 0)) else
  child ← kopt (λ _, zget (accept_queue k) (accept_head k));
  upd_sk a (set_accept (accept_queue k) (Z.rem (accept_head k + 1) SOCK_BACKLOG_MAX) (accept_tail k));;
  sk_release a;;
  idx ← table_add child;
  if idx <? 0 then
    kmod (λ s, with_sockets (delete child (sockets s)) s);; n_free child;; mret (Returned (- ENOMEM, 0, 0))
  else
    c ← sk_of child;
    mret (Returned (idx, remote_port c, remote_ip c)).
Definition socket_accept (self a : Z) : K (Net H) (Blk (Z * Z * Z)) :=
  if a =? 0 then mret (Returned (- EINVAL, 0, 0)) else
  k ← sk_of a;
  if negb (sk_state k =? SOCK_STATE_LISTEN) then mret (Returned (- EINVAL, 0, 0)) else accept_pass self a.

(** The waiting loop of [socket_connect] and what follows it. *)
Definition connect_pass (self a : Z) : K (Net H) (Blk Z) :=
  sk_acquire a;;
  k ← sk_of a;
  if (sk_state k =? SOCK_STATE_SYN_SENT) && (sk_closed k =? 0) then sleep_rx self a;; mret Blocked else
  sk_release a;;
  mret (Returned (if sk_state k =? SOCK_STATE_ESTABLISHED then 0 else - ECONNREFUSED)).
Definition socket_connect (self a ip port : Z) : K (Net H) (Blk Z) :=
  if a =? 0 then mret (Returned (- EINVAL)) else
  sk_acquire a;;
  upd_sk a (set_remote ip port);;
  k ← sk_of a;
  (if local_port k =? 0 then p ← socket_alloc_ephemeral_port; upd_sk a (λ k, set_local (local_ip k) p k) else mret tt);;
  if sk_type k =? SOCK_DGRAM then
    upd_sk a (set_sk_state SOCK_STATE_ESTABLISHED);; sk_release a;; mret (Returned 0)
  else
  nif ← netif_get_default;
  if nif =? 0 then sk_release a;; mret (Returned (- ENETUNREACH)) else
  n ← nif_of nif;
  upd_sk a (λ k, set_sk_state SOCK_STATE_SYN_SENT (set_seqs 1000 1001 (rcv_nxt k) (set_local (nif_ip n) (local_port k) k)));;
  sk_release a;;
  n' ← nif_of nif;
  k' ← sk_of a;
  tcp_send nif_send nif (nif_ip n') (local_port k') ip port 1000 0 TCP_SYN [];;
  connect_pass self a.

Definition socket_sendto (a : Z) (buf : list Z) (ip port : Z) : K (Net H) Z :=
  if a =? 0 then mret (- EINVAL) else
  k ← sk_of a;
  if negb (sk_type k =? SOCK_DGRAM) then mret (- EINVAL) else
  nif ← netif_get_default;
  if nif =? 0 then mret (- ENETUNREACH) else
  (if local_port k =? 0 then p ← socket_alloc_ephemeral_port; upd_sk a (λ k, set_local (local_ip k) p k) else mret tt);;
  k' ← sk_of a;
  r ← udp_send nif_send nif (local_port k') ip port buf;
  mret (if r =? 0 then i32 (Z.of_nat (length buf)) else r).

(** The loop of [socket_send]: one segment for each pass. *)
Fixpoint send_loop (fuel : nat) (nif a : Z) (buf : list Z) : K (Net H) unit :=
  match buf, fuel with
  | [], _ => mret tt
  | _, O => kstuck
  | _, S fuel' =>
    let chunk := take 1440 buf in
    sk_acquire a;;
    k ← sk_of a;
    upd_sk a (set_seqs (snd_una k) (u32 (snd_nxt k + Z.of_nat (length chunk))) (rcv_nxt k));;
    sk_release a;;
    k' ← sk_of a;
    tcp_send nif_send nif (local_ip k') (local_port k') (remote_ip k') (remote_port k') (snd_nxt k) (rcv_nxt k')
      (Z.lor TCP_ACK TCP_PSH) chunk;;
    send_loop fuel' nif a (drop 1440 buf)
  end.
Definition socket_send (a : Z) (buf : list Z) : K (Net H) Z :=
  if a =? 0 then mret (- EINVAL) else
  k ← sk_of a;
  if sk_type k =? SOCK_DGRAM then socket_sendto a buf (remote_ip k) (remote_port k) else
  if negb (sk_state k =? SOCK_STATE_ESTABLISHED) then mret (- ENOTCONN) else
  nif ← netif_get_default;
  if nif =? 0 then mret (- ENETUNREACH) else
  send_loop (length buf) nif a buf;;
  mret (i32 (Z.of_nat (length buf))).

(** [socket_recv]: the value returned and the bytes written to the buffer. *)
Definition socket_recv (self a len : Z) : K (Net H) (Blk (Z * list Z)) :=
  if a =? 0 then mret (Returned (- EINVAL, [])) else
  sk_acquire a;;
  k ← sk_of a;
  if (rx_count k =? 0) && (sk_closed k =? 0) && negb (sk_state k =? SOCK_STATE_CLOSE_WAIT)
  then sleep_rx self a;; mret Blocked else
  if rx_count k =? 0 then sk_release a;; mret (Returned (0, [])) else
  let to_copy := if rx_count k <? len then rx_count k else len in
  dst ← updo_sk a (rx_gets (Z.to_nat to_copy));
  upd_sk a (rx_add (- to_copy));;
  sk_release a;;
  mret (Returned (i32 to_copy, dst)).

(** [socket_recvfrom]: the value returned, the bytes written to the buffer and
    the address and port of the sender. *)
Definition socket_recvfrom (self a len : Z) : K (Net H) (Blk (Z * list Z * Z * Z)) :=
  if a =? 0 then mret (Returned (- EINVAL, [], 0, 0)) else
  sk_acquire a;;
  k ← sk_of a;
  if (rx_count k =? 0) && (sk_closed k =? 0) then sleep_rx self a;; mret Blocked else
  if rx_count k =? 0 then sk_release a;; mret (Returned (0, [], 0, 0)) else
  if rx_count k <? SIZEOF_UDP_META then sk_release a;; mret (Returned (- EIO, [], 0, 0)) else
  meta ← updo_sk a (rx_gets (Z.to_nat SIZEOF_UDP_META));
  upd_sk a (rx_add (- SIZEOF_UDP_META));;
  src_ip ← kopt (λ _, ld32 meta);
  src_port ← kopt (λ _, ld16 (drop 4 meta));
  data_len ← kopt (λ _, ld16 (drop 6 meta));
  k' ← sk_of a;
  let c1 := if len <? data_len then len else data_len in
  let to_copy := if rx_count k' <? c1 then rx_count k' else c1 in
  dst ← updo_sk a (rx_gets (Z.to_nat to_copy));
  upd_sk a (rx_skip (Z.to_nat (data_len - to_copy)));;
  upd_sk a (rx_add (- data_len));;
  sk_release a;;
  mret (Returned (to_copy, dst, src_ip, src_port)).

(** ** Delivery *)

Definition find_socket (port type rip rport : Z) : K (Net H) Z :=
  a ← kopt (λ s, find_in (sockets s) (exact_match port type rip rport) (socket_table s));
  if negb (a =? 0) then mret a else
  kopt (λ s, find_in (sockets s) (wild_match port type) (socket_table s)).

Definition socket_udp_deliver (src src_port dst dst_port : Z) (data : list Z) : K (Net H) unit :=
  a ← find_socket dst_port SOCK_DGRAM 0 0;
  if a =? 0 then mret tt else
  sk_acquire a;;
  r ← updo_sk a (λ k, rx_enqueue k (meta_bytes src src_port (u16 (Z.of_nat (length data)))));
  (if r =? 0 then updo_sk a (λ k, rx_enqueue k data);; mret tt else mret tt);;
  sk_release a;;
  wake_rx a.

(** The acknowledgement sent by several states. *)
Definition send_ack (a src src_port : Z) : K (Net H) unit :=
  nif ← netif_get_default;
  if nif =? 0 then mret tt else
  k ← sk_of a;
  tcp_send nif_send nif (local_ip k) (local_port k) src src_port (snd_nxt k) (rcv_nxt k) TCP_ACK [];;
  mret tt.
Definition has (flags f : Z) : bool := negb (Z.land flags f =? 0).

Definition send_syn_ack (child src src_port : Z) : K (Net H) unit :=
  nif ← netif_get_default;
  if nif =? 0 then mret tt else
  c ← sk_of child;
  upd_sk child (set_seqs (snd_una c) (u32 (snd_nxt c + 1)) (rcv_nxt c));;
  tcp_send nif_send nif (local_ip c) (local_port c) src src_port (snd_nxt c) (rcv_nxt c) (Z.lor TCP_SYN TCP_ACK) [];;
  mret tt.
(** A SYN for a listening socket: the child, the SYN-ACK and the accept queue. *)
Definition listen_syn (a src src_port seq : Z) : K (Net H) unit :=
  child ← n_alloc SIZEOF_SOCKET 1;
  if child =? 0 then sk_release a else
  k ← sk_of a;
  kmod (λ s, with_sockets (<[child := set_sk_state SOCK_STATE_SYN_RECV (set_seqs 2000 2000 (u32 (seq + 1))
    (set_remote src src_port (set_local (local_ip k) (local_port k) (new_socket SOCK_STREAM))))]> (sockets s)) s);;
  send_syn_ack child src src_port;;
  k' ← sk_of a;
  let next := Z.rem (accept_tail k' + 1) SOCK_BACKLOG_MAX in
  (if negb (next =? accept_head k') then
     q ← kopt (λ _, zset (accept_queue k') (accept_tail k') child);
     upd_sk a (set_accept q (accept_head k') next)
   else
     kmod (λ s, with_sockets (delete child (sockets s)) s);; n_free child);;
  sk_release a.

(** The state machine, on a socket whose lock is held. *)
Definition tcp_established (a src src_port ack flags : Z) (payload : list Z) : K (Net H) unit :=
  if has flags TCP_RST then upd_sk a (set_sk_state SOCK_STATE_CLOSED);; sk_release a;; wake_rx a else
  (if has flags TCP_ACK then upd_sk a (λ k, set_seqs ack (snd_nxt k) (rcv_nxt k) k) else mret tt);;
  (if 0 <? Z.of_nat (length payload) then
     updo_sk a (λ k, rx_enqueue k payload);;
     upd_sk a (λ k, set_seqs (snd_una k) (snd_nxt k) (u32 (rcv_nxt k + Z.of_nat (length payload))) k);;
     send_ack a src src_port
   else mret tt);;
  (if has flags TCP_FIN then
     upd_sk a (λ k, set_sk_state SOCK_STATE_CLOSE_WAIT (set_seqs (snd_una k) (snd_nxt k) (u32 (rcv_nxt k + 1)) k));;
     send_ack a src src_port
   else mret tt);;
  sk_release a;;
  if (0 <? Z.of_nat (length payload)) || has flags TCP_FIN then wake_rx a else mret tt.
Definition tcp_time_wait (a src src_port seq : Z) : K (Net H) unit :=
  upd_sk a (λ k, set_sk_state SOCK_STATE_TIME_WAIT (set_seqs (snd_una k) (snd_nxt k) (u32 (seq + 1)) k));;
  send_ack a src src_port.
Definition tcp_syn_sent (a src src_port seq ack flags : Z) : K (Net H) unit :=
  if Z.land flags (Z.lor TCP_SYN TCP_ACK) =? Z.lor TCP_SYN TCP_ACK then
    upd_sk a (λ k, set_sk_state SOCK_STATE_ESTABLISHED (set_seqs ack (snd_nxt k) (u32 (seq + 1)) k));;
    send_ack a src src_port;;
    sk_release a;;
    wake_rx a
  else if has flags TCP_RST then upd_sk a (set_sk_state SOCK_STATE_CLOSED);; sk_release a;; wake_rx a
  else sk_release a.
Definition tcp_syn_recv (a ack flags : Z) : K (Net H) unit :=
  if has flags TCP_ACK then
    upd_sk a (λ k, set_sk_state SOCK_STATE_ESTABLISHED (set_seqs ack (snd_nxt k) (rcv_nxt k) k));;
    sk_release a;;
    k ← sk_of a;
    parent ← kopt (λ s, find_in (sockets s)
      (λ p, (sk_state p =? SOCK_STATE_LISTEN) && (local_port p =? local_port k)) (socket_table s));
    if parent =? 0 then mret tt else wake_accept parent
  else sk_release a.
Definition tcp_step (a src src_port seq ack flags : Z) (payload : list Z) : K (Net H) unit :=
  k ← sk_of a;
  let st := sk_state k in
  if st =? SOCK_STATE_LISTEN then
    if has flags TCP_SYN then listen_syn a src src_port seq else sk_release a
  else if st =? SOCK_STATE_SYN_RECV then tcp_syn_recv a ack flags
  else if st =? SOCK_STATE_SYN_SENT then tcp_syn_sent a src src_port seq ack flags
  else if st =? SOCK_STATE_ESTABLISHED then tcp_established a src src_port ack flags payload
  else if st =? SOCK_STATE_FIN_WAIT_1 then
    (if has flags TCP_ACK && has flags TCP_FIN then tcp_time_wait a src src_port seq
     else if has flags TCP_ACK then upd_sk a (set_sk_state SOCK_STATE_FIN_WAIT_2)
     else mret tt);; sk_release a
  else if st =? SOCK_STATE_FIN_WAIT_2 then
    (if has flags TCP_FIN then tcp_time_wait a src src_port seq else mret tt);; sk_release a
  else if st =? SOCK_STATE_LAST_ACK then
    (if has flags TCP_ACK then upd_sk a (set_sk_state SOCK_STATE_CLOSED) else mret tt);; sk_release a
  else sk_release a.

(** What [socket_tcp_deliver] does with the fields of the segment. *)
Definition tcp_demux (src src_port dst dst_port seq ack flags : Z) (payload : list Z) : K (Net H) unit :=
  a1 ← find_socket dst_port SOCK_STREAM src src_port;
  a ← (if a1 =? 0 then find_socket dst_port SOCK_STREAM 0 0 else mret a1);
  if a =? 0 then
    nif ← netif_get_default;
    if negb (nif =? 0) && negb (has flags TCP_RST) then
      tcp_send nif_send nif dst dst_port src src_port ack (u32 (seq + 1)) (Z.lor TCP_RST TCP_ACK) [];; mret tt
    else mret tt
  else
  sk_acquire a;;
  tcp_step a src src_port seq ack flags payload.
Definition socket_tcp_deliver (src src_port dst dst_port : Z) (segment : list Z) : K (Net H) unit :=
  hdr ← kopt (λ _, tcp_of segment);
  let data_off := u8 (Z.shiftr (tcp_data_off hdr) 4 * 4) in
  tcp_demux src src_port dst dst_port (ntohl (tcp_seq hdr)) (ntohl (tcp_ack hdr)) (tcp_flags hdr)
    (drop (Z.to_nat data_off) segment).
End socket.
