(* ===== verification/NetRx.v ===== *)
(** * The network stack: receiving

    The receiving half of [kernel/net/ethernet.c], [arp.c], [ipv4.c], [icmp.c], [udp.c]
    and [tcp.c], with [loopback.c] and [net.c].  A handler gets the bytes that are
    really there and the length its caller claims; a read past the bytes is undefined. *)
From S2P Require Import Prelude KHeap Spinlock Net Socket.

(** The first [n] bytes at a pointer. *)
Definition slice (data : list Z) (n : Z) : option (list Z) :=
  if n <=? Z.of_nat (length data) then Some (take (Z.to_nat n) data) else None.

(** The static [lo_nif] lies outside the heap; its address is a constant of the image. *)
Definition LO_NIF : Z := 8.

Section rx.
Context {H : Type} `{KHeap H}.
Context (nif_send : Z → list Z → K (Net H) Z).
Implicit Types (s : Net H).

Definition icmp_rx (nif src : Z) (data : list Z) (len : Z) : K (Net H) unit :=
  if len <? ICMP_HEADER_SIZE then mret tt else
  msg ← kopt (λ _, slice data len);
  ck ← kopt (λ _, net_checksum msg);
  if negb (ck =? 0) then mret tt else
  hdr ← kopt (λ _, icmp_of msg);
  if (icmp_type hdr =? ICMP_TYPE_ECHO_REQUEST) && (icmp_code hdr =? 0) then
    if ETH_MTU <? len then kstuck else
    let reply ck := icmp_bytes (mkIcmp ICMP_TYPE_ECHO_REPLY 0 ck (icmp_id hdr) (icmp_sequence hdr)) ++
                    drop (Z.to_nat ICMP_HEADER_SIZE) msg in
    ck' ← kopt (λ _, net_checksum (reply 0));
    ipv4_send nif_send nif src IPV4_PROTO_ICMP (reply (htons ck'));;
    mret tt
  else mret tt.

Definition udp_rx (src dst : Z) (data : list Z) (len : Z) : K (Net H) unit :=
  if len <? UDP_HEADER_SIZE then mret tt else
  hdr ← kopt (λ _, udp_of data);
  let udp_len := ntohs (udp_length hdr) in
  if (udp_len <? UDP_HEADER_SIZE) || (len <? udp_len) then mret tt else
  payload ← kopt (λ _, slice (drop (Z.to_nat UDP_HEADER_SIZE) data) (udp_len - UDP_HEADER_SIZE));
  socket_udp_deliver src (udp_src_port hdr) dst (udp_dst_port hdr) payload.

Definition tcp_rx (src dst : Z) (data : list Z) (len : Z) : K (Net H) unit :=
  if len <? TCP_HEADER_SIZE then mret tt else
  hdr ← kopt (λ _, tcp_of data);
  let data_off := u8 (Z.shiftr (tcp_data_off hdr) 4 * 4) in
  if (data_off <? TCP_HEADER_SIZE) || (len <? data_off) then mret tt else
  seg ← kopt (λ _, slice data len);
  ck ← kopt (λ _, tcp_checksum src dst seg);
  if negb (ck =? 0) then mret tt else
  socket_tcp_deliver nif_send src (tcp_src_port hdr) dst (tcp_dst_port hdr) seg.

Definition ipv4_rx (nif : Z) (data : list Z) (len : Z) : K (Net H) unit :=
  if len <? IPV4_HEADER_SIZE then mret tt else
  hdr ← kopt (λ _, ip_of data);
  let version := Z.shiftr (ver_ihl hdr) 4 in
  let ihl := Z.land (ver_ihl hdr) 0x0F in
  if negb (version =? 4) || (ihl <? 5) then mret tt else
  let hdr_len := ihl * 4 in
  if len <? hdr_len then mret tt else
  header ← kopt (λ _, slice data hdr_len);
  ck ← kopt (λ _, net_checksum header);
  if negb (ck =? 0) then mret tt else
  n ← nif_of nif;
  let bcast := Z.lor (nif_ip n) (u32 (Z.lnot (netmask n))) in
  if negb (dst_ip hdr =? nif_ip n) && negb (dst_ip hdr =? 0xFFFFFFFF) && negb (dst_ip hdr =? bcast) then mret tt else
  let payload := drop (Z.to_nat hdr_len) data in
  let payload_len := u32 (ntohs (total_len hdr) - hdr_len) in
  if len <? u32 (hdr_len + payload_len) then mret tt else
  if protocol hdr =? IPV4_PROTO_ICMP then icmp_rx nif (src_ip hdr) payload payload_len
  else if protocol hdr =? IPV4_PROTO_UDP then udp_rx (src_ip hdr) (dst_ip hdr) payload payload_len
  else if protocol hdr =? IPV4_PROTO_TCP then tcp_rx (src_ip hdr) (dst_ip hdr) payload payload_len
  else mret tt.

Definition arp_rx (nif : Z) (data : list Z) (len : Z) : K (Net H) unit :=
  if len <? ARP_PACKET_SIZE then mret tt else
  pkt ← kopt (λ _, arp_of data);
  if negb (ntohs (htype pkt) =? ARP_HTYPE_ETHER) then mret tt else
  if negb (ntohs (ptype pkt) =? ARP_PTYPE_IPV4) then mret tt else
  if negb (hlen pkt =? ETH_ALEN) || negb (plen pkt =? 4) then mret tt else
  arp_insert (spa pkt) (sha pkt);;
  n ← nif_of nif;
  if (ntohs (oper pkt) =? ARP_OP_REQUEST) && (tpa pkt =? nif_ip n) then
    let reply := mkArp (htons ARP_HTYPE_ETHER) (htons ARP_PTYPE_IPV4) ETH_ALEN 4 (htons ARP_OP_REPLY)
                   (mac n) (nif_ip n) (sha pkt) (spa pkt) in
    eth_send nif_send nif (sha pkt) ETH_TYPE_ARP (arp_bytes reply);;
    mret tt
  else mret tt.

Definition eth_rx (nif : Z) (frame : list Z) (len : Z) : K (Net H) unit :=
  if len <? ETH_HEADER_SIZE then mret tt else
  raw ← kopt (λ _, ld16 (drop 12 frame));
  let payload := drop (Z.to_nat ETH_HEADER_SIZE) frame in
  let payload_len := len - ETH_HEADER_SIZE in
  let type := ntohs raw in
  if type =? ETH_TYPE_ARP then arp_rx nif payload payload_len
  else if type =? ETH_TYPE_IPV4 then ipv4_rx nif payload payload_len
  else mret tt.

(** ** The loopback interface and initialisation *)

Definition loopback_send (nif : Z) (frame : list Z) : K (Net H) Z :=
  if Z.of_nat (length frame) <? ETH_HEADER_SIZE then mret (-1) else
  ipv4_rx nif (drop (Z.to_nat ETH_HEADER_SIZE) frame) (Z.of_nat (length frame) - ETH_HEADER_SIZE);;
  mret 0.

Definition loopback_init : K (Net H) Z :=
  kmod (λ s, with_nifs (<[LO_NIF := mkNif (replicate 6 0) (IP4 127 0 0 1) (IP4 255 0 0 0) 0]> (nifs s)) s);;
  slot ← netif_register LO_NIF;
  mret (if slot <? 0 then -1 else 0).

Definition net_init : K (Net H) unit :=
  arp_init;;
  loopback_init;;
  nif ← netif_get_default;
  if nif =? 0 then mret tt else
  n ← nif_of nif;
  kmod (λ s, with_nifs (<[nif := mkNif (mac n) (IP4 10 0 2 15) (IP4 255 255 255 0) (IP4 10 0 2 2)]> (nifs s)) s).
End rx.

(** [nif->send] of an image whose other interfaces are [drv]: the loopback
    interface feeds the frame back into the stack, one level of nesting per unit of [fuel]. *)
Fixpoint stack_send {H} `{KHeap H} (drv : Z → list Z → K (Net H) Z) (fuel : nat) (nif : Z) (frame : list Z) : K (Net H) Z :=
  if nif =? LO_NIF then
    match fuel with
    | O => kstuck
    | S fuel' => loopback_send (stack_send drv fuel') nif frame
    end
  else drv nif frame.
