(* ===== verification/NetCorrect.v ===== *)
(** * Correctness of packets and checksums

    The Internet checksum of a packet with its checksum field filled in verifies; what a
    layer sends, the same layer of the receiver decodes; a datagram or segment handed to
    [udp_send] or [tcp_send] is what the receiver delivers to its sockets. *)
From S2P Require Import Prelude KHeap Spinlock Net Socket NetRx.

(** ** Byte order *)

Lemma htons_eq h : 0 ≤ h < 65536 → htons h = 256 * (h mod 256) + h / 256.
Proof.
  intros Hh. unfold htons. rewrite Z.shiftr_div_pow2, Z.shiftl_mul_pow2 by lia.
  rewrite lor_add by lia. unfold u16. lia.
Qed.
Lemma htons_range h : 0 ≤ h < 65536 → 0 ≤ htons h < 65536.
Proof. intros Hh. rewrite htons_eq by done. lia. Qed.
Lemma ntohs_htons h : 0 ≤ h < 65536 → ntohs (htons h) = h.
Proof.
  intros Hh. unfold ntohs. rewrite (htons_eq (htons h)) by by apply htons_range.
  rewrite htons_eq by done. lia.
Qed.
Lemma st16_htons h : 0 ≤ h < 65536 → st16 (htons h) = [h / 256; h mod 256].
Proof. intros Hh. unfold st16. rewrite htons_eq by done. f_equal; [lia|]. f_equal. lia. Qed.

Lemma land_byte x n : 0 ≤ n → Z.land x (255 * 2 ^ n) = x / 2 ^ n mod 256 * 2 ^ n.
Proof.
  intros Hn. rewrite <-(Z.shiftl_mul_pow2 255), <-(Z.shiftl_mul_pow2 (_ mod _)) by done.
  change 256 with (2 ^ 8). rewrite <-Z.land_ones, <-Z.shiftr_div_pow2 by lia. change (Z.ones 8) with 255.
  apply Z.bits_inj'. intros i Hi. rewrite Z.land_spec.
  destruct (decide (i < n)).
  - rewrite !Z.shiftl_spec_low by lia. by rewrite andb_false_r.
  - rewrite !Z.shiftl_spec, Z.land_spec, Z.shiftr_spec by lia. do 2 f_equal. lia.
Qed.
Lemma htonl_eq h :
  0 ≤ h < 2 ^ 32 →
  htonl h = h / 2 ^ 24 + (h / 2 ^ 16 mod 256) * 2 ^ 8 + (h / 2 ^ 8 mod 256) * 2 ^ 16 + (h mod 256) * 2 ^ 24.
Proof.
  intros Hh. unfold htonl. rewrite !Z.shiftr_div_pow2, !Z.shiftl_mul_pow2 by lia.
  replace 0xFF with (255 * 2 ^ 0) by done. replace 0xFF00 with (255 * 2 ^ 8) by done.
  replace 0xFF0000 with (255 * 2 ^ 16) by done. replace 0xFF000000 with (255 * 2 ^ 24) by done.
  rewrite !land_byte by lia. unfold u32.
  replace (h / 2 ^ 24 / 2 ^ 0 mod 256 * 2 ^ 0) with (h / 2 ^ 24) by lia.
  replace (h / 2 ^ 8 / 2 ^ 8 mod 256) with (h / 2 ^ 16 mod 256) by lia.
  replace ((h * 2 ^ 8) mod 2 ^ 32 / 2 ^ 16 mod 256) with (h / 2 ^ 8 mod 256) by lia.
  replace ((h * 2 ^ 24) mod 2 ^ 32 / 2 ^ 24 mod 256) with (h mod 256) by lia.
  rewrite lor_add by lia.
  replace (h / 2 ^ 8 mod 256 * 2 ^ 16) with ((h / 2 ^ 8 mod 256) * 2 ^ 16) by done.
  rewrite (lor_add (h / 2 ^ 8 mod 256 * 2 ^ 16) (h mod 256) 24) by lia.
  replace (h / 2 ^ 8 mod 256 * 2 ^ 16 + h mod 256 * 2 ^ 24)
    with ((h / 2 ^ 8 mod 256 + h mod 256 * 2 ^ 8) * 2 ^ 16) by lia.
  rewrite lor_add by lia. lia.
Qed.
Lemma htonl_range h : 0 ≤ h < 2 ^ 32 → 0 ≤ htonl h < 2 ^ 32.
Proof. intros Hh. rewrite htonl_eq by done. lia. Qed.
Lemma ntohl_htonl h : 0 ≤ h < 2 ^ 32 → ntohl (htonl h) = h.
Proof.
  intros Hh. unfold ntohl. rewrite (htonl_eq (htonl h)) by by apply htonl_range.
  rewrite htonl_eq by done.
  assert (h = h / 2 ^ 24 * 2 ^ 24 + h / 2 ^ 16 mod 256 * 2 ^ 16 + h / 2 ^ 8 mod 256 * 2 ^ 8 + h mod 256) as E by lia.
  set (a := h / 2 ^ 24) in *. set (b := h / 2 ^ 16 mod 256) in *. set (c := h / 2 ^ 8 mod 256) in *. set (d := h mod 256) in *.
  assert (0 ≤ a < 256 ∧ 0 ≤ b < 256 ∧ 0 ≤ c < 256 ∧ 0 ≤ d < 256) by (unfold a, b, c, d; lia).
  clearbody a b c d. lia.
Qed.

Lemma ld16_st16 v l : 0 ≤ v < 65536 → ld16 (st16 v ++ l) = Some v.
Proof. intros Hv. simpl. f_equal. lia. Qed.
Lemma ld32_st32 v l : 0 ≤ v < 2 ^ 32 → ld32 (st32 v ++ l) = Some v.
Proof. intros Hv. simpl. f_equal. lia. Qed.

(** ** Checksums *)

Definition bytes (l : list Z) : Prop := Forall (λ b, 0 ≤ b < 256) l.

(** The sums without wrap-around: big endian words, and words as the machine reads them. *)
Fixpoint wsum (p : list Z) : Z :=
  match p with a :: b :: p' => 256 * a + b + wsum p' | [a] => 256 * a | [] => 0 end.
Fixpoint lsum (p : list Z) : Z :=
  match p with a :: b :: p' => a + 256 * b + lsum p' | [a] => a | [] => 0 end.

(** Induction two bytes at a time. *)
Lemma pair_ind (P : list Z → Prop) :
  P [] → (∀ a, P [a]) → (∀ a b l, P l → P (a :: b :: l)) → ∀ l, P l.
Proof.
  intros H0 H1 H2 l. assert (P l ∧ ∀ a, P (a :: l)) as [? _]; [|done].
  induction l as [|b l [IH1 IH2]]; split; auto.
Qed.
Lemma bytes_cons a l : bytes (a :: l) ↔ 0 ≤ a < 256 ∧ bytes l.
Proof. unfold bytes. by rewrite Forall_cons. Qed.
Lemma bytes_app l k : bytes (l ++ k) ↔ bytes l ∧ bytes k.
Proof. unfold bytes. by rewrite Forall_app. Qed.

Lemma wsum_range p : bytes p → 0 ≤ wsum p ≤ 65535 * Z.of_nat (length p).
Proof.
  induction p as [|a|a b p IH] using pair_ind; cbn [wsum length]; rewrite ?bytes_cons; intros; destruct_and?;
    try specialize (IH ltac:(done)); lia.
Qed.
Lemma lsum_range p : bytes p → 0 ≤ lsum p ≤ 65535 * Z.of_nat (length p).
Proof.
  induction p as [|a|a b p IH] using pair_ind; cbn [lsum length]; rewrite ?bytes_cons; intros; destruct_and?;
    try specialize (IH ltac:(done)); lia.
Qed.
Lemma sum_words_eq p s :
  bytes p → 0 ≤ s → s + 65536 * Z.of_nat (length p) < 2 ^ 32 → sum_words p s = s + wsum p.
Proof.
  revert s. induction p as [|a|a b p IH] using pair_ind; intros s; cbn [wsum sum_words length]; rewrite ?bytes_cons;
    intros Hb Hs Hl; destruct_and?; rewrite ?Z.shiftl_mul_pow2 by lia.
  - lia.
  - usimpl. lia.
  - rewrite Z.lor_comm, lor_add by lia. usimpl. rewrite IH by (try done; lia). lia.
Qed.
Lemma sum_le_eq p s :
  bytes p → 0 ≤ s → s + 65536 * Z.of_nat (length p) < 2 ^ 32 → sum_le p s = s + lsum p.
Proof.
  revert s. induction p as [|a|a b p IH] using pair_ind; intros s; cbn [lsum sum_le length]; rewrite ?bytes_cons;
    intros Hb Hs Hl; destruct_and?.
  - lia.
  - usimpl. lia.
  - usimpl. rewrite IH by (try done; lia). lia.
Qed.

Lemma fold_carry_spec s :
  0 ≤ s < 2 ^ 32 →
  ∃ r, fold_carry 2 s = Some r ∧ 0 ≤ r < 65536 ∧ r mod 65535 = s mod 65535 ∧ (r = 0 ↔ s = 0).
Proof.
  intros Hs. cbn [fold_carry]. change 0xFFFF with (Z.ones 16). rewrite !Z.land_ones, !Z.shiftr_div_pow2 by lia.
  change (Z.ones 16) with 65535.
  destruct (Z.eqb_spec (s / 2 ^ 16) 0); [exists s; split_and!; [done|lia..]|].
  rewrite (u32_small (s mod 2 ^ 16 + s / 2 ^ 16)) by lia.
  set (s1 := s mod 2 ^ 16 + s / 2 ^ 16). assert (s = s1 + 65535 * (s / 2 ^ 16) ∧ 0 < s1 < 131072) as [Es1 Hs1] by lia.
  assert (s1 mod 65535 = s mod 65535) as Em1 by (rewrite Es1, (Z.mul_comm 65535), Z.mod_add by lia; done). clearbody s1.
  destruct (Z.eqb_spec (s1 / 2 ^ 16) 0); [exists s1; split_and!; [done|try exact Em1; clear Em1 Es1; lia..]|].
  rewrite (u32_small (s1 mod 2 ^ 16 + s1 / 2 ^ 16)) by lia.
  set (s2 := s1 mod 2 ^ 16 + s1 / 2 ^ 16). assert (s1 = s2 + 65535 ∧ 0 < s2 < 65536) as [Es2 Hs2] by lia. clearbody s2.
  assert (s2 mod 65535 = s1 mod 65535) as Em2 by (replace s1 with (s2 + 1 * 65535) by lia; by rewrite Z.mod_add).
  destruct (Z.eqb_spec (s2 / 2 ^ 16) 0); [|lia]. exists s2. rewrite <-Em1. split_and!; [done|try exact Em2; clear Em1 Em2 Es1 Es2; lia..].
Qed.
Lemma lnot_u16 r : 0 ≤ r < 65536 → u16 (Z.lnot r) = 65535 - r.
Proof. intros Hr. unfold u16, Z.lnot. lia. Qed.

(** Adding the complement to the sum makes it verify. *)
Lemma complement_verifies s r :
  0 ≤ s → s + 65536 < 2 ^ 32 → fold_carry 2 s = Some r → fold_carry 2 (s + u16 (Z.lnot r)) = Some 65535.
Proof.
  intros Hs0 Hs Hr. destruct (fold_carry_spec s) as (r' & E & Hr' & Hm & Hz); [lia|].
  assert (r' = r) as -> by congruence. rewrite lnot_u16 by done.
  destruct (fold_carry_spec (s + (65535 - r))) as (q & -> & Hq & Hmq & Hzq); [lia|]. f_equal.
  assert ((s + (65535 - r)) mod 65535 = 0) as H0.
  { assert (∃ k, s = r + 65535 * k) as [k ->].
    { exists (s / 65535 - r / 65535). pose proof (Z.div_mod s 65535). pose proof (Z.div_mod r 65535). lia. }
    replace (r + 65535 * k + (65535 - r)) with ((k + 1) * 65535) by lia. apply Z.mod_mul. lia. }
  rewrite H0 in Hmq. assert (q ≠ 0) by lia.
  pose proof (Z.div_mod q 65535). assert (q / 65535 = 1) by (clear -Hq Hmq H; lia). lia.
Qed.

Lemma net_checksum_total data :
  bytes data → Z.of_nat (length data) ≤ 2000 → ∃ c, net_checksum data = Some c ∧ 0 ≤ c < 65536.
Proof.
  intros Hb Hl. pose proof (wsum_range _ Hb). unfold net_checksum. rewrite sum_words_eq by (try done; lia).
  destruct (fold_carry_spec (0 + wsum data)) as (r & -> & _); [lia|]. eexists. split; [done|]. apply u16_range.
Qed.
(** A packet with the checksum [c] of the packet [data0] added to its sum verifies. *)
Lemma net_checksum_verifies data0 data c :
  bytes data0 → bytes data → Z.of_nat (length data0) ≤ 2000 → Z.of_nat (length data) ≤ 2000 →
  net_checksum data0 = Some c → wsum data = wsum data0 + c → net_checksum data = Some 0.
Proof.
  intros Hb0 Hb Hl0 Hl Hc Hw. pose proof (wsum_range _ Hb0). unfold net_checksum in *.
  rewrite sum_words_eq in Hc by (try done; lia). apply fmap_Some in Hc as (r & Hr & ->).
  rewrite sum_words_eq, Hw by (try done; lia). rewrite Z.add_0_l in *.
  by rewrite (complement_verifies (wsum data0) r) by (try done; lia).
Qed.

(** ** Headers *)

Definition is8 (v : Z) : Prop := 0 ≤ v < 256.
Definition is16 (v : Z) : Prop := 0 ≤ v < 65536.
Definition is32 (v : Z) : Prop := 0 ≤ v < 2 ^ 32.

Lemma bytes_st16 v : bytes (st16 v).
Proof. repeat (apply bytes_cons; split; [lia|]). by apply Forall_nil. Qed.
Lemma bytes_st32 v : bytes (st32 v).
Proof. repeat (apply bytes_cons; split; [lia|]). by apply Forall_nil. Qed.

Ltac bytes_tac :=
  unfold is8, is16, is32 in *; rewrite ?bytes_app, ?bytes_cons; split_and!;
  first [lia | apply bytes_st16 | apply bytes_st32 | by apply Forall_nil | done].

Record ip_wf (h : Ipv4Header) : Prop := {
  iw_ver : is8 (ver_ihl h); iw_tos : is8 (tos h); iw_len : is16 (total_len h); iw_id : is16 (ip_id h);
  iw_frag : is16 (flags_frag h); iw_ttl : is8 (ttl h); iw_proto : is8 (protocol h); iw_ck : is16 (ip_checksum h);
  iw_src : is32 (src_ip h); iw_dst : is32 (dst_ip h)
}.
Lemma ip_roundtrip h l : ip_wf h → ip_of (ip_bytes h ++ l) = Some h.
Proof.
  intros [? ? ? ? ? ? ? ? ? ?]. unfold is8, is16, is32 in *. destruct h as [v t tl i f tt' p c s d].
  cbn [ver_ihl tos total_len ip_id flags_frag ttl protocol ip_checksum src_ip dst_ip] in *.
  unfold ip_of, ip_bytes, st16, st32. cbn. do 2 f_equal; lia.
Qed.
Lemma ip_bytes_ok h : ip_wf h → bytes (ip_bytes h) ∧ length (ip_bytes h) = 20%nat.
Proof.
  intros [? ? ? ? ? ? ? ? ? ?]. split; [|done]. unfold ip_bytes.
  bytes_tac.
Qed.
Record udp_wf (h : UdpHeader) : Prop := {
  uw_src : is16 (udp_src_port h); uw_dst : is16 (udp_dst_port h); uw_len : is16 (udp_length h); uw_ck : is16 (udp_checksum h)
}.
Lemma udp_roundtrip h l : udp_wf h → udp_of (udp_bytes h ++ l) = Some h.
Proof.
  intros [? ? ? ?]. unfold is16 in *. destruct h as [s d n c]. cbn [udp_src_port udp_dst_port udp_length udp_checksum] in *.
  unfold udp_of, udp_bytes, st16. cbn. do 2 f_equal; lia.
Qed.
Record tcp_wf (h : TcpHeader) : Prop := {
  tw_src : is16 (tcp_src_port h); tw_dst : is16 (tcp_dst_port h); tw_seq : is32 (tcp_seq h); tw_ack : is32 (tcp_ack h);
  tw_off : is8 (tcp_data_off h); tw_flags : is8 (tcp_flags h); tw_win : is16 (tcp_window h); tw_ck : is16 (tcp_cksum h);
  tw_urg : is16 (tcp_urgent h)
}.
Lemma tcp_roundtrip h l : tcp_wf h → tcp_of (tcp_bytes h ++ l) = Some h.
Proof.
  intros [? ? ? ? ? ? ? ? ?]. unfold is8, is16, is32 in *. destruct h as [s d q a o f w c u].
  cbn [tcp_src_port tcp_dst_port tcp_seq tcp_ack tcp_data_off tcp_flags tcp_window tcp_cksum tcp_urgent] in *.
  unfold tcp_of, tcp_bytes, st16, st32. cbn. do 2 f_equal; lia.
Qed.
Lemma tcp_bytes_ok h : tcp_wf h → bytes (tcp_bytes h) ∧ length (tcp_bytes h) = 20%nat.
Proof.
  intros [? ? ? ? ? ? ? ? ?]. split; [|done]. unfold tcp_bytes.
  bytes_tac.
Qed.
Record arp_wf (p : ArpPacket) : Prop := {
  aw_ht : is16 (htype p); aw_pt : is16 (ptype p); aw_op : is16 (oper p); aw_spa : is32 (spa p); aw_tpa : is32 (tpa p);
  aw_sha : length (sha p) = 6%nat; aw_tha : length (tha p) = 6%nat
}.
Lemma arp_roundtrip p l : arp_wf p → arp_of (arp_bytes p ++ l) = Some p.
Proof.
  intros [? ? ? ? ? Hs Ht]. unfold is16, is32 in *. destruct p as [h t hl pl o sh sp th tp].
  cbn [htype ptype hlen plen oper sha spa tha tpa] in *.
  do 7 (destruct sh as [|? sh]; try done). do 7 (destruct th as [|? th]; try done).
  unfold arp_of, arp_bytes, st16, st32. cbn. do 2 f_equal; lia.
Qed.

(** ** From [ipv4_send] to the protocol handlers *)

Lemma slice_app l pad n : n = Z.of_nat (length l) → slice (l ++ pad) n = Some l.
Proof.
  intros ->. unfold slice. rewrite length_app. destruct (Z.leb_spec (Z.of_nat (length l)) (Z.of_nat (length l + length pad))); [|lia].
  rewrite Nat2Z.id. by rewrite take_app_length.
Qed.
Lemma drop_app_Z {A} (l k : list A) n : n = Z.of_nat (length l) → drop (Z.to_nat n) (l ++ k) = k.
Proof. intros ->. rewrite Nat2Z.id. apply drop_app_length. Qed.

Record nif_ok (n : NetIf) : Prop := {
  no_mac : length (mac n) = 6%nat; no_ip : is32 (nif_ip n); no_mask : is32 (netmask n); no_gw : is32 (gateway n)
}.
Definition next_hop (n : NetIf) (dst : Z) : Z :=
  if negb (Z.land dst (netmask n) =? Z.land (nif_ip n) (netmask n)) then gateway n else dst.
(** An interface that accepts packets for the address. *)
Definition accepts (n : NetIf) (dst : Z) : Prop :=
  dst = nif_ip n ∨ dst = 0xFFFFFFFF ∨ dst = Z.lor (nif_ip n) (u32 (Z.lnot (netmask n))).

(** The header [ipv4_send] builds. *)
Definition sent_header (n : NetIf) (id dst proto plen ck : Z) : Ipv4Header :=
  mkIp 0x45 0 (htons (u16 (20 + plen))) (htons id) 0 IPV4_DEFAULT_TTL proto ck (nif_ip n) dst.

Lemma sent_header_wf n id dst proto plen ck :
  nif_ok n → is16 id → is32 dst → is8 proto → 0 ≤ plen ≤ 1480 → is16 ck → ip_wf (sent_header n id dst proto plen ck).
Proof.
  intros [? ? ? ?] ? ? ? ? ?. split; cbn; try done; unfold is8, is16, IPV4_DEFAULT_TTL; try lia.
  - apply htons_range, u16_range.
  - by apply htons_range.
Qed.
Lemma sent_header_checksum n id dst proto plen :
  nif_ok n → is16 id → is32 dst → is8 proto → 0 ≤ plen ≤ 1480 →
  ∃ ck, net_checksum (ip_bytes (sent_header n id dst proto plen 0)) = Some ck ∧ is16 ck ∧
    net_checksum (ip_bytes (sent_header n id dst proto plen (htons ck))) = Some 0.
Proof.
  intros Hn Hid Hd Hp Hl.
  assert (∀ ck, is16 ck → bytes (ip_bytes (sent_header n id dst proto plen ck)) ∧
    length (ip_bytes (sent_header n id dst proto plen ck)) = 20%nat) as Hb by (intros; by apply ip_bytes_ok, sent_header_wf).
  destruct (Hb 0) as [Hb0 Hl0]; [done|].
  destruct (net_checksum_total _ Hb0) as (ck & Hck & Hr); [lia|]. exists ck. split_and!; [done|done|].
  destruct (Hb (htons ck)) as [Hb1 Hl1]; [by apply htons_range|].
  apply (net_checksum_verifies _ _ ck Hb0 Hb1); [lia|lia|done|].
  unfold ip_bytes, sent_header.
  cbn [ver_ihl tos total_len ip_id flags_frag ttl protocol ip_checksum src_ip dst_ip].
  rewrite (st16_htons ck) by done. unfold st16, st32. cbn [app wsum]. lia.
Qed.

(** ** TCP checksums *)

Definition tcp_sum (src dst : Z) (seg : list Z) : Z :=
  lsum (pseudo_bytes src dst (Z.of_nat (length seg))) + lsum seg.
Lemma tcp_checksum_eq src dst seg :
  bytes seg → Z.of_nat (length seg) ≤ 2000 →
  tcp_checksum src dst seg = (λ r, u16 (Z.lnot r)) <$> fold_carry 2 (tcp_sum src dst seg).
Proof.
  intros Hb Hl. assert (bytes (pseudo_bytes src dst (Z.of_nat (length seg)))) as Hp
    by (unfold pseudo_bytes, IPV4_PROTO_TCP; bytes_tac).
  pose proof (lsum_range _ Hp) as Hr. change (length (pseudo_bytes _ _ _)) with 12%nat in Hr.
  unfold tcp_checksum, tcp_sum. rewrite (sum_le_eq (pseudo_bytes _ _ _)) by (try done; cbn; lia).
  rewrite sum_le_eq by (try done; lia). by rewrite Z.add_0_l.
Qed.
Lemma tcp_sum_range src dst seg :
  bytes seg → Z.of_nat (length seg) ≤ 2000 → 0 < tcp_sum src dst seg < 2 ^ 31.
Proof.
  intros Hb Hl. pose proof (lsum_range _ Hb). unfold tcp_sum, pseudo_bytes, st32, st16, IPV4_PROTO_TCP. cbn [app lsum]. lia.
Qed.
(** A segment is accepted exactly when its sum is a multiple of 65535. *)
Lemma tcp_checksum_zero src dst seg :
  bytes seg → Z.of_nat (length seg) ≤ 2000 →
  ∃ c, tcp_checksum src dst seg = Some c ∧ is16 c ∧ (c = 0 ↔ tcp_sum src dst seg mod 65535 = 0).
Proof.
  intros Hb Hl. rewrite tcp_checksum_eq by done. pose proof (tcp_sum_range src dst seg Hb Hl) as Hr.
  destruct (fold_carry_spec (tcp_sum src dst seg)) as (r & -> & Hr' & Hm & Hz); [lia|].
  eexists. split; [done|]. rewrite lnot_u16 by done. unfold is16. split; [lia|]. rewrite <-Hm.
  split; intros E; [assert (r = 65535) as -> by lia; done|].
  assert (r ≠ 0) by lia. clear -E Hr' H. pose proof (Z.div_mod r 65535). lia.
Qed.

(** The segment [tcp_send] builds. *)
Definition sent_tcp (sport dport seq ack flags ck : Z) : TcpHeader :=
  mkTcp sport dport (htonl seq) (htonl ack) 80 flags (htons SOCK_RXBUF_SIZE) ck 0.
Lemma sent_tcp_wf sport dport seq ack flags ck :
  is16 sport → is16 dport → is32 seq → is32 ack → is8 flags → is16 ck → tcp_wf (sent_tcp sport dport seq ack flags ck).
Proof.
  intros. split; cbn; try done; try by apply htonl_range.
Qed.
Lemma tcp_segment_spec src sport dst dport seq ack flags payload :
  is16 sport → is16 dport → is32 seq → is32 ack → is8 flags → bytes payload → Z.of_nat (length payload) ≤ 1460 →
  ∃ ck, is16 ck ∧
    let seg := tcp_bytes (sent_tcp sport dport seq ack flags ck) ++ payload in
    tcp_segment src sport dst dport seq ack flags payload = Some seg ∧ bytes seg ∧
    tcp_sum src dst seg mod 65535 = 0.
Proof.
  intros Hs Hd Hq Ha Hf Hb Hl.
  assert (∀ ck, is16 ck → bytes (tcp_bytes (sent_tcp sport dport seq ack flags ck) ++ payload)) as Hbytes.
  { intros ck Hck. apply bytes_app. split; [|done]. by apply tcp_bytes_ok, sent_tcp_wf. }
  set (seg0 := tcp_bytes (sent_tcp sport dport seq ack flags 0) ++ payload).
  assert (Z.of_nat (length seg0) = 20 + Z.of_nat (length payload)) as Hl0 by (unfold seg0; rewrite length_app; cbn; lia).
  assert (bytes seg0) as Hb0 by by apply Hbytes.
  pose proof (tcp_sum_range src dst seg0 Hb0 ltac:(lia)) as Hr.
  destruct (fold_carry_spec (tcp_sum src dst seg0)) as (r & Hfold & Hr' & Hm & Hz); [lia|].
  exists (65535 - r). split; [unfold is16; lia|]. split_and!; [|apply Hbytes; unfold is16; lia|].
  - unfold tcp_segment. change (u8 (Z.shiftl (TCP_HEADER_SIZE / 4) 4)) with 80.
    cbv zeta. fold (sent_tcp sport dport seq ack flags 0) seg0. rewrite tcp_checksum_eq by (try done; lia).
    rewrite Hfold. cbn -[Z.sub tcp_bytes u16]. by rewrite lnot_u16.
  - assert (tcp_sum src dst (tcp_bytes (sent_tcp sport dport seq ack flags (65535 - r)) ++ payload) =
      tcp_sum src dst seg0 + (65535 - r)) as ->.
    { unfold tcp_sum. rewrite length_app. unfold seg0 at 1. rewrite length_app.
      change (length (tcp_bytes _)) with 20%nat. unfold seg0, tcp_bytes, st32, st16.
      cbn [app lsum tcp_src_port tcp_dst_port tcp_seq tcp_ack tcp_data_off tcp_flags tcp_window tcp_cksum tcp_urgent sent_tcp].
      lia. }
    assert (∃ k, tcp_sum src dst seg0 = r + 65535 * k) as [k ->].
    { exists (tcp_sum src dst seg0 / 65535 - r / 65535).
      pose proof (Z.div_mod (tcp_sum src dst seg0) 65535). pose proof (Z.div_mod r 65535). lia. }
    replace (r + 65535 * k + (65535 - r)) with ((k + 1) * 65535) by lia. by apply Z.mod_mul.
Qed.

Section transport.
Context {H : Type} `{KHeap H}.
Implicit Types (s r : Net H).

Definition frame_of (m src : list Z) (packet : list Z) : list Z := eth_bytes (mkEth m src (htons ETH_TYPE_IPV4)) ++ packet.

Lemma ipv4_send_spec nif n dst proto payload m s :
  nifs s !! nif = Some n → nif_ok n → is16 (ip_id_counter s) → is32 dst → is8 proto →
  Z.of_nat (length payload) ≤ 1480 → arp_find (arp_cache s) (next_hop n dst) = Some m →
  ∃ ck, is16 ck ∧
    let hdr := sent_header n (ip_id_counter s) dst proto (Z.of_nat (length payload)) ck in
    net_checksum (ip_bytes hdr) = Some 0 ∧
    ∀ nif_send, ipv4_send nif_send nif dst proto payload s =
      nif_send nif (frame_of m (mac n) (ip_bytes hdr ++ payload)) (with_ip_id (u16 (ip_id_counter s + 1)) s).
Proof.
  intros Hn Hok Hid Hd Hp Hl Hm. set (plen := Z.of_nat (length payload)) in *.
  destruct (sent_header_checksum n (ip_id_counter s) dst proto plen) as (ck & Hck & Hr & Hv); [done..|lia|].
  exists (htons ck). split; [by apply htons_range|]. split; [done|]. intros nif_send.
  unfold ipv4_send. fold plen. unfold IPV4_HEADER_SIZE, ETH_MTU. rewrite (u32_small (20 + plen)) by lia.
  destruct (Z.ltb_spec 1500 (20 + plen)); [lia|]. destruct (Z.ltb_spec (1500 - 20) plen); [lia|].
  unfold nif_of. rewrite (kopt_bind _ _ _ n) by done. rewrite kget_bind, kmod_bind.
  rewrite (kopt_bind _ _ _ ck) by exact Hck.
  unfold arp_lookup. rewrite kget_bind. cbn [arp_cache with_ip_id]. fold (next_hop n dst). rewrite Hm.
  unfold eth_send. rewrite length_app.
  replace (length (ip_bytes _)) with 20%nat by done. unfold ETH_MTU.
  destruct (Z.ltb_spec 1500 (Z.of_nat (20 + length payload))); [lia|].
  unfold nif_of. rewrite (kopt_bind _ _ _ n) by done. done.
Qed.

(** A frame with an IPv4 packet for this host reaches the handler of its protocol
    with the payload, whatever padding follows it. *)
Lemma eth_rx_spec nif_send nif n m src hdr payload pad r :
  nifs r !! nif = Some n → length m = 6%nat → length src = 6%nat → ip_wf hdr → ver_ihl hdr = 0x45 →
  net_checksum (ip_bytes hdr) = Some 0 → accepts n (dst_ip hdr) →
  Z.of_nat (length payload) ≤ 1480 → ntohs (total_len hdr) = 20 + Z.of_nat (length payload) →
  Z.of_nat (length pad) < 2 ^ 31 →
  let frame := frame_of m src (ip_bytes hdr ++ payload) ++ pad in
  eth_rx nif_send nif frame (Z.of_nat (length frame)) r =
    (if protocol hdr =? IPV4_PROTO_ICMP then icmp_rx nif_send nif (src_ip hdr) (payload ++ pad) (Z.of_nat (length payload))
     else if protocol hdr =? IPV4_PROTO_UDP then udp_rx (src_ip hdr) (dst_ip hdr) (payload ++ pad) (Z.of_nat (length payload))
     else if protocol hdr =? IPV4_PROTO_TCP then tcp_rx nif_send (src_ip hdr) (dst_ip hdr) (payload ++ pad) (Z.of_nat (length payload))
     else mret tt) r.
Proof.
  intros Hn Hm Hs Hwf Hv Hck Hacc Hl Ht Hp frame.
  assert (length (eth_bytes (mkEth m src (htons ETH_TYPE_IPV4))) = 14%nat) as He
    by (unfold eth_bytes; rewrite !length_app; cbn; lia).
  destruct (ip_bytes_ok _ Hwf) as [_ Hi].
  assert (frame = eth_bytes (mkEth m src (htons ETH_TYPE_IPV4)) ++ ip_bytes hdr ++ payload ++ pad) as ->
    by (unfold frame, frame_of; by rewrite <-!app_assoc).
  assert (ld16 (drop 12 (eth_bytes (mkEth m src (htons ETH_TYPE_IPV4)) ++ ip_bytes hdr ++ payload ++ pad)) =
    Some (htons ETH_TYPE_IPV4)) as Hty.
  { unfold eth_bytes. cbn [eth_dst eth_src ethertype]. rewrite (app_assoc m), <-(app_assoc (m ++ src)).
    rewrite drop_app_length' by (rewrite length_app; lia). by apply ld16_st16, htons_range. }
  unfold eth_rx, ETH_HEADER_SIZE. rewrite !length_app, He, Hi.
  destruct (Z.ltb_spec (Z.of_nat (14 + (20 + (length payload + length pad)))) 14); [lia|].
  rewrite (kopt_bind _ _ _ (htons ETH_TYPE_IPV4)) by exact Hty. cbv zeta.
  rewrite ntohs_htons by (unfold ETH_TYPE_IPV4; lia). rewrite drop_app_Z by lia.
  change (ETH_TYPE_IPV4 =? ETH_TYPE_ARP) with false. change (ETH_TYPE_IPV4 =? ETH_TYPE_IPV4) with true. cbv iota.
  unfold ipv4_rx, IPV4_HEADER_SIZE.
  set (len := Z.of_nat (14 + (20 + (length payload + length pad))) - 14).
  assert (len = 20 + Z.of_nat (length payload) + Z.of_nat (length pad)) as Elen by lia.
  destruct (Z.ltb_spec len 20); [lia|].
  rewrite (kopt_bind _ _ _ hdr) by by apply ip_roundtrip. rewrite Hv.
  change (Z.shiftr 69 4) with 4. change (Z.land 69 0x0F) with 5. change (negb (4 =? 4) || (5 <? 5)) with false. cbv iota zeta.
  change (5 * 4) with 20. destruct (Z.ltb_spec len 20); [lia|].
  rewrite (kopt_bind _ _ _ (ip_bytes hdr)) by (by apply slice_app; lia).
  rewrite (kopt_bind _ _ _ 0) by done. change (negb (0 =? 0)) with false. cbv iota.
  unfold nif_of. rewrite (kopt_bind _ _ _ n) by done.
  assert (negb (dst_ip hdr =? nif_ip n) && negb (dst_ip hdr =? 0xFFFFFFFF) &&
    negb (dst_ip hdr =? Z.lor (nif_ip n) (u32 (Z.lnot (netmask n)))) = false) as ->.
  { destruct Hacc as [->|[->| ->]]; rewrite ?Z.eqb_refl; cbn [negb andb]; by rewrite ?andb_false_r. }
  rewrite Ht. replace (20 + Z.of_nat (length payload) - 20) with (Z.of_nat (length payload)) by lia.
  rewrite (u32_small (Z.of_nat (length payload))) by lia. rewrite u32_small by lia.
  destruct (Z.ltb_spec len (20 + Z.of_nat (length payload))); [lia|].
  rewrite drop_app_Z by lia. by repeat case_match.
Qed.
End transport.
