(* ===== verification/SocketCorrect.v ===== *)
(** * Correctness of sockets

    The receive ring of a socket refines a queue of bytes, and of datagrams for UDP;
    the TCP state machine appends in-order data to it and acknowledges it. *)
From S2P Require Import Prelude KHeap Spinlock Net Socket NetRx NetCorrect.

(** ** The receive ring *)

(** The bytes between the tail and the head. *)
Record rx_data (k : Socket) (q : list Z) : Prop := {
  rd_buf : Z.of_nat (length (rx_buf k)) = SOCK_RXBUF_SIZE;
  rd_tail : 0 ≤ rx_tail k < SOCK_RXBUF_SIZE;
  rd_size : Z.of_nat (length q) ≤ SOCK_RXBUF_SIZE;
  rd_head : rx_head k = (rx_tail k + Z.of_nat (length q)) mod SOCK_RXBUF_SIZE;
  rd_data i b : q !! i = Some b → zget (rx_buf k) ((rx_tail k + Z.of_nat i) mod SOCK_RXBUF_SIZE) = Some b;
}.
Definition rx_ring (k : Socket) (q : list Z) : Prop := rx_data k q ∧ rx_count k = Z.of_nat (length q).
(** The other fields of the socket are those of [k]. *)
Definition rx_only (k k' : Socket) : Prop := k' = set_rx (rx_buf k') (rx_head k') (rx_tail k') (rx_count k') k.

Lemma rx_only_trans k1 k2 k3 : rx_only k1 k2 → rx_only k2 k3 → rx_only k1 k3.
Proof. unfold rx_only. intros -> E. rewrite E. done. Qed.
Lemma rx_data_ext k k' q :
  rx_buf k' = rx_buf k → rx_head k' = rx_head k → rx_tail k' = rx_tail k → rx_data k q → rx_data k' q.
Proof. intros E1 E2 E3 []. split; rewrite ?E1, ?E2, ?E3; done. Qed.

Lemma rx_put_spec k q b :
  rx_data k q → Z.of_nat (length q) < SOCK_RXBUF_SIZE →
  ∃ k', rx_put k b = Some k' ∧ rx_data k' (q ++ [b]) ∧ rx_only k k' ∧ rx_count k' = rx_count k.
Proof.
  intros [Hb Ht Hs Hh Hd] Hl. unfold SOCK_RXBUF_SIZE in *. unfold rx_put, SOCK_RXBUF_SIZE.
  destruct (zset (rx_buf k) (rx_head k) b) as [buf|] eqn:Hz; [|rewrite zset_lt in Hz by lia; done].
  eexists. split; [done|]. split_and!; [|done|done].
  split; cbn [rx_buf rx_head rx_tail rx_count set_rx]; unfold SOCK_RXBUF_SIZE; rewrite ?length_app; cbn [length].
  - by rewrite (length_zset _ _ _ _ Hz).
  - lia.
  - lia.
  - unfold u32. lia.
  - intros i c Hi. apply lookup_app_Some in Hi as [Hi|[Hle Hi]].
    + rewrite (zget_zset_ne _ _ _ _ _ Hz); [by apply Hd|]. apply lookup_lt_Some in Hi. lia.
    + apply list_lookup_singleton_Some in Hi as [Hi <-].
      replace ((rx_tail k + Z.of_nat i) mod 8192) with (rx_head k) by (rewrite Hh; f_equal; lia).
      by rewrite (zget_zset_eq _ _ _ _ Hz).
Qed.
Lemma rx_puts_spec k q data :
  rx_data k q → Z.of_nat (length q) + Z.of_nat (length data) ≤ SOCK_RXBUF_SIZE →
  ∃ k', rx_puts k data = Some k' ∧ rx_data k' (q ++ data) ∧ rx_only k k' ∧ rx_count k' = rx_count k.
Proof.
  revert k q. induction data as [|b data IH]; intros k q Hk Hl; cbn [length rx_puts] in *.
  - exists k. rewrite app_nil_r. split_and!; [done|done|by destruct k|done].
  - destruct (rx_put_spec k q b Hk) as (k1 & -> & Hk1 & Ho1 & Hc1); [lia|].
    destruct (IH k1 (q ++ [b]) Hk1) as (k2 & E & Hk2 & Ho2 & Hc2); [rewrite length_app; cbn; lia|].
    exists k2. cbn. rewrite E, <-app_assoc in *. split_and!; [done|done|by eapply rx_only_trans|congruence].
Qed.
Lemma rx_enqueue_fits k q data :
  rx_ring k q → Z.of_nat (length q) + Z.of_nat (length data) ≤ SOCK_RXBUF_SIZE →
  ∃ k', rx_enqueue k data = Some (0, k') ∧ rx_ring k' (q ++ data) ∧ rx_only k k'.
Proof.
  intros [Hk Hc] Hl. unfold rx_enqueue. unfold SOCK_RXBUF_SIZE in Hl. rewrite Hc, u32_small by lia. unfold SOCK_RXBUF_SIZE.
  destruct (Z.ltb_spec 8192 (Z.of_nat (length q) + Z.of_nat (length data))); [lia|].
  destruct (rx_puts_spec k q data Hk Hl) as (k' & -> & Hk' & Ho & Hc'). eexists. split; [done|]. split; [split|].
  - by apply (rx_data_ext k').
  - cbn. rewrite Hc', Hc, length_app, u32_small; lia.
  - rewrite Ho. by destruct k.
Qed.
Lemma rx_enqueue_full k q data :
  rx_ring k q → SOCK_RXBUF_SIZE < Z.of_nat (length q) + Z.of_nat (length data) < 2 ^ 32 →
  rx_enqueue k data = Some (-1, k).
Proof.
  intros [Hk Hc] Hl. unfold rx_enqueue. rewrite Hc, u32_small by lia.
  by destruct (Z.ltb_spec SOCK_RXBUF_SIZE (Z.of_nat (length q) + Z.of_nat (length data))); [|lia].
Qed.

(** Taking bytes moves only the tail. *)
Definition tail_only (k k' : Socket) : Prop := k' = set_rx (rx_buf k) (rx_head k) (rx_tail k') (rx_count k) k.
Lemma rx_advance_spec k b q : rx_data k (b :: q) → zget (rx_buf k) (rx_tail k) = Some b ∧ rx_data (rx_advance k) q.
Proof.
  intros [Hb Ht Hs Hh Hd]. unfold SOCK_RXBUF_SIZE in *. cbn [length] in *. split.
  - rewrite <-(Hd 0%nat b) by done. f_equal. lia.
  - split; unfold rx_advance; cbn [rx_buf rx_head rx_tail rx_count set_rx]; unfold SOCK_RXBUF_SIZE, u32; try lia.
    intros i c Hi. rewrite <-(Hd (S i) c) by done. f_equal. lia.
Qed.
Lemma tail_only_advance k k' : tail_only (rx_advance k) k' → tail_only k k'.
Proof. unfold tail_only. intros E. rewrite E. done. Qed.
Lemma rx_gets_spec n k q :
  rx_data k q → (n ≤ length q)%nat →
  ∃ k', rx_gets n k = Some (take n q, k') ∧ rx_data k' (drop n q) ∧ tail_only k k'.
Proof.
  revert k q. induction n as [|n IH]; intros k q Hk Hn.
  - exists k. split_and!; [done|done|by destruct k].
  - destruct q as [|b q]; [cbn in Hn; lia|]. destruct (rx_advance_spec _ _ _ Hk) as [Hb Hk'].
    destruct (IH _ _ Hk') as (k2 & E & Hk2 & Ho); [cbn in Hn; lia|]. exists k2.
    cbn [rx_gets take drop]. rewrite Hb. cbn [mbind option_bind]. rewrite E. split_and!; [done|done|].
    by apply tail_only_advance.
Qed.
Lemma rx_skip_spec n k q :
  rx_data k q → (n ≤ length q)%nat → rx_data (rx_skip n k) (drop n q) ∧ tail_only k (rx_skip n k).
Proof.
  revert k q. induction n as [|n IH]; intros k q Hk Hn; [by destruct k|].
  destruct q as [|b q]; [cbn in Hn; lia|]. destruct (rx_advance_spec _ _ _ Hk) as [_ Hk'].
  cbn [rx_skip drop]. destruct (IH _ _ Hk') as [? ?]; [cbn in Hn; lia|]. by split; [|apply tail_only_advance].
Qed.
Lemma rx_add_spec k q n :
  rx_data k q → u32 (rx_count k + n) = Z.of_nat (length q) → rx_ring (rx_add n k) q ∧ rx_only k (rx_add n k).
Proof. intros Hk Hc. split; [split|done]; [by apply (rx_data_ext k)|done]. Qed.

(** ** Running the calls *)

Section calls.
Context {H : Type} `{KHeap H}.
Implicit Types (s : Net H).

(** The socket [a] and the processor flags of [s] replaced. *)
Definition at_sk (a : Z) (k : Socket) (fl : Z) s : Net H := with_nflags fl (with_sockets (<[a := k]> (sockets s)) s).
Definition held (fl : Z) (k : Socket) : Socket := set_sk_lock {| locked := 1; saved_flags := fl |} k.
Definition unheld (fl : Z) (k : Socket) : Socket := set_sk_lock {| locked := 0; saved_flags := fl |} k.

Lemma sk_acquire_Done a k s :
  sockets s !! a = Some k → locked (sk_lock k) = 0 →
  sk_acquire a s = Done tt (at_sk a (held (nrflags s) k) (cli (nrflags s)) s).
Proof. intros Hk Hl. unfold sk_acquire, kupd. rewrite Hk. cbn. by rewrite spinlock_acquire_free. Qed.
Lemma sockets_at a k fl s : sockets (at_sk a k fl s) !! a = Some k.
Proof. cbn. by rewrite lookup_insert_eq. Qed.
Lemma at_at a k k' fl fl' s : at_sk a k' fl' (at_sk a k fl s) = at_sk a k' fl' s.
Proof. unfold at_sk. destruct s. unfold with_nflags, with_sockets. cbn. by rewrite insert_insert_eq. Qed.
Lemma sk_release_at a k fl s fl' :
  sk_lock k = {| locked := 1; saved_flags := fl' |} → sk_release a (at_sk a k fl s) = Done tt (at_sk a (unheld fl' k) fl' s).
Proof.
  intros Hl. unfold sk_release, kupd. rewrite sockets_at. cbn. rewrite Hl. cbn.
  unfold at_sk, with_nflags, with_sockets. cbn. by rewrite insert_insert_eq.
Qed.
Lemma sk_of_bind {A} a k s (f : Socket → K (Net H) A) : sockets s !! a = Some k → (sk_of a ≫= f) s = f k s.
Proof. intros Hk. by apply (kopt_bind (λ s, sockets s !! a)). Qed.
Lemma sk_of_at {A} a k fl s (f : Socket → K (Net H) A) : (sk_of a ≫= f) (at_sk a k fl s) = f k (at_sk a k fl s).
Proof. unfold sk_of. rewrite (kopt_bind _ _ _ k); [done|]. apply sockets_at. Qed.
Lemma upd_sk_at a g k fl s : upd_sk a g (at_sk a k fl s) = Done tt (at_sk a (g k) fl s).
Proof.
  unfold upd_sk, kupd. rewrite sockets_at. cbn. f_equal. unfold at_sk, with_nflags, with_sockets. cbn. by rewrite insert_insert_eq.
Qed.
Lemma updo_sk_at {A} a (g : Socket → option (A * Socket)) k fl s r k' :
  g k = Some (r, k') → updo_sk a g (at_sk a k fl s) = Done r (at_sk a k' fl s).
Proof.
  intros Hg. unfold updo_sk. rewrite sockets_at. cbn. rewrite Hg. f_equal.
  unfold at_sk, with_nflags, with_sockets. cbn. by rewrite insert_insert_eq.
Qed.
(** The first sleeper of the receive queue, if any, becomes runnable. *)
Definition woken_rx (k : Socket) : Socket := set_wqs (tail (rx_wq k)) (accept_wq k) k.
Lemma wake_rx_at a k fl s :
  wake_rx a (at_sk a k fl s) =
    Done tt (at_sk a (woken_rx k) fl (with_runnable (runnable s ++ take 1 (rx_wq k)) s)).
Proof.
  unfold wake_rx. rewrite sk_of_at. destruct (rx_wq k) as [|t q] eqn:E.
  - unfold mret, K_ret. f_equal. replace (woken_rx k) with k by (destruct k; cbn in E; by subst).
    unfold at_sk, with_nflags, with_sockets, with_runnable. destruct s. cbn. by rewrite app_nil_r.
  - kbind (upd_sk_at a (set_wqs q (accept_wq k)) k fl s). unfold kmod. f_equal. unfold woken_rx. rewrite E. done.
Qed.

(** ** Datagrams *)

Record Dgram : Type := mkDgram { dg_src : Z; dg_port : Z; dg_data : list Z }.
Definition dg_wf (d : Dgram) : Prop := is32 (dg_src d) ∧ is16 (dg_port d) ∧ Z.of_nat (length (dg_data d)) < 65536.
Definition dg_bytes (d : Dgram) : list Z :=
  meta_bytes (dg_src d) (dg_port d) (Z.of_nat (length (dg_data d))) ++ dg_data d.
(** The ring of the socket holds the datagrams [D], oldest first. *)
Definition dg_queue (k : Socket) (D : list Dgram) : Prop := rx_ring k (concat (dg_bytes <$> D)) ∧ Forall dg_wf D.

Lemma length_dg d : Z.of_nat (length (dg_bytes d)) = 8 + Z.of_nat (length (dg_data d)).
Proof. unfold dg_bytes. rewrite length_app. change (length (meta_bytes _ _ _)) with 8%nat. lia. Qed.
Lemma concat_snoc {A} (l : list (list A)) x : concat (l ++ [x]) = concat l ++ x.
Proof. rewrite concat_app. cbn. by rewrite app_nil_r. Qed.

(** Delivery of a datagram for which there is room appends it and wakes one reader. *)
Lemma udp_deliver_lemma a k D d dst dport s :
  find_socket dport SOCK_DGRAM 0 0 s = Done a s → a ≠ 0 →
  sockets s !! a = Some k → locked (sk_lock k) = 0 → dg_queue k D → dg_wf d →
  Z.of_nat (length (concat (dg_bytes <$> D))) + Z.of_nat (length (dg_bytes d)) ≤ SOCK_RXBUF_SIZE →
  ∃ k', socket_udp_deliver (dg_src d) (dg_port d) dst dport (dg_data d) s =
      Done tt (at_sk a k' (nrflags s) (with_runnable (runnable s ++ take 1 (rx_wq k)) s)) ∧
    dg_queue k' (D ++ [d]) ∧ locked (sk_lock k') = 0 ∧ rx_wq k' = tail (rx_wq k) ∧ sk_closed k' = sk_closed k.
Proof.
  intros Hf Ha Hk Hl [Hq HD] (Hs & Hp & Hd) Hroom. rewrite length_dg in Hroom.
  unfold socket_udp_deliver. kbind Hf. destruct (Z.eqb_spec a 0); [done|].
  kbind (sk_acquire_Done a k s Hk Hl). rewrite u16_small by lia.
  set (meta := meta_bytes (dg_src d) (dg_port d) (Z.of_nat (length (dg_data d)))).
  assert (rx_ring (held (nrflags s) k) (concat (dg_bytes <$> D))) as Hq0.
  { destruct Hq. split; [by apply (rx_data_ext k)|done]. }
  destruct (rx_enqueue_fits _ _ meta Hq0) as (k1 & E1 & Hq1 & Ho1); [change (length meta) with 8%nat; lia|].
  kbind (updo_sk_at a (λ k, rx_enqueue k meta) _ (cli (nrflags s)) s 0 k1 E1). change (0 =? 0) with true. cbv iota.
  destruct (rx_enqueue_fits _ _ (dg_data d) Hq1) as (k2 & E2 & Hq2 & Ho2);
    [rewrite length_app; change (length meta) with 8%nat; lia|].
  rewrite bind_assoc. kbind (updo_sk_at a (λ k, rx_enqueue k (dg_data d)) _ (cli (nrflags s)) s 0 k2 E2). rewrite mret_bind.
  assert (rx_only (held (nrflags s) k) k2) as Ho by by eapply rx_only_trans.
  kbind (sk_release_at a k2 (cli (nrflags s)) s (nrflags s) ltac:(by rewrite Ho)).
  rewrite wake_rx_at. replace (rx_wq (unheld (nrflags s) k2)) with (rx_wq k) by by rewrite Ho.
  eexists. split; [done|]. split_and!.
  - split.
    + rewrite fmap_app, concat_app. cbn [fmap list_fmap concat]. rewrite app_nil_r. unfold dg_bytes at 2. rewrite app_assoc.
      destruct Hq2. split; [by apply (rx_data_ext k2)|done].
    + apply Forall_app. split; [done|]. apply Forall_singleton. done.
  - done.
  - cbn. by rewrite Ho.
  - cbn. by rewrite Ho.
Qed.

(** What [socket_recvfrom] does to the ring when a datagram is in front of it. *)
Lemma recv_ring k d q len :
  dg_wf d → rx_ring k (dg_bytes d ++ q) → 0 ≤ len →
  let n := Z.of_nat (length (dg_data d)) in
  ∃ k1 k2, rx_gets (Z.to_nat SIZEOF_UDP_META) k = Some (meta_bytes (dg_src d) (dg_port d) n, k1) ∧
    rx_count (rx_add (- SIZEOF_UDP_META) k1) = n + Z.of_nat (length q) ∧
    rx_gets (Z.to_nat (Z.min len n)) (rx_add (- SIZEOF_UDP_META) k1) = Some (take (Z.to_nat len) (dg_data d), k2) ∧
    let k3 := rx_add (- n) (rx_skip (Z.to_nat (n - Z.min len n)) k2) in rx_ring k3 q ∧ rx_only k k3.
Proof.
  intros (Hs & Hp & Hd) [Hq Hc] Hlen n. pose proof (rd_size _ _ Hq) as Hsz. unfold SOCK_RXBUF_SIZE in Hsz.
  rewrite length_app, Nat2Z.inj_add, length_dg in Hsz, Hc. fold n in Hsz, Hc, Hd.
  unfold dg_bytes in Hq. fold n in Hq. rewrite <-app_assoc in Hq. set (meta := meta_bytes (dg_src d) (dg_port d) n) in *.
  unfold SIZEOF_UDP_META. change (Z.to_nat 8) with 8%nat.
  destruct (rx_gets_spec 8 _ _ Hq) as (k1 & E1 & Hq1 & Ho1); [rewrite !length_app; change (length meta) with 8%nat; lia|].
  rewrite (take_app_length' meta) in E1 by done. rewrite (drop_app_length' meta) in Hq1 by done.
  assert (rx_count k1 = rx_count k) as Hc1 by by rewrite Ho1.
  destruct (rx_add_spec k1 _ (Z.opp 8) Hq1) as [[Hq2 Hc2] Ho2]; [rewrite Hc1, Hc, length_app; unfold u32; lia|].
  destruct (rx_gets_spec (Z.to_nat (Z.min len n)) _ _ Hq2) as (k2 & E2 & Hq3 & Ho3); [rewrite length_app; lia|].
  destruct (rx_skip_spec (Z.to_nat (n - Z.min len n)) _ _ Hq3) as [Hq4 Ho4]; [rewrite length_drop, length_app; lia|].
  rewrite drop_drop, drop_app_length' in Hq4 by lia.
  exists k1, k2. split; [done|split; [|split]].
  - rewrite Hc2, length_app. lia.
  - rewrite E2. do 2 f_equal. rewrite take_app_le by lia.
    destruct (Z.min_spec len n) as [[? ->]|[? ->]]; [done|]. by rewrite !take_ge by lia.
  - destruct (rx_add_spec _ q (- n) Hq4) as [Hq5 Ho5].
    { rewrite Ho4, Ho3. cbn [rx_count set_rx]. rewrite Hc2, length_app. unfold u32. lia. }
    split; [done|]. rewrite Ho5, Ho4, Ho3, Ho2, Ho1. done.
Qed.

(** [socket_recvfrom] takes the oldest datagram, cut to the length of the buffer. *)
Lemma recvfrom_lemma self a len k d D s :
  a ≠ 0 → sockets s !! a = Some k → locked (sk_lock k) = 0 → dg_queue k (d :: D) → 0 ≤ len < 2 ^ 31 →
  ∃ k', socket_recvfrom self a len s =
      Done (Returned (Z.min len (Z.of_nat (length (dg_data d))), take (Z.to_nat len) (dg_data d), dg_src d, dg_port d))
           (at_sk a k' (nrflags s) s) ∧
    dg_queue k' D ∧ locked (sk_lock k') = 0 ∧ rx_wq k' = rx_wq k ∧ sk_closed k' = sk_closed k.
Proof.
  intros Ha Hk Hl [[Hq Hc] HD] Hlen. apply Forall_cons in HD as [Hwf HD]. rewrite fmap_cons in Hq, Hc. cbn [concat] in Hq, Hc.
  set (q := concat (dg_bytes <$> D)) in *. set (k0 := held (nrflags s) k).
  assert (rx_ring k0 (dg_bytes d ++ q)) as Hq0 by (split; [by apply (rx_data_ext k)|done]).
  destruct (recv_ring k0 d q len Hwf Hq0) as (k1 & k2 & E1 & Hc1 & E2 & Hq3 & Ho3); [lia|].
  set (n := Z.of_nat (length (dg_data d))) in *. destruct Hwf as (Hs & Hp & Hd).
  unfold socket_recvfrom. destruct (Z.eqb_spec a 0) as [|_]; [done|]. kbind (sk_acquire_Done a k s Hk Hl). rewrite sk_of_at.
  cbn [rx_count held set_sk_lock sk_closed]. rewrite length_app, Nat2Z.inj_add, length_dg in Hc.
  destruct (Z.eqb_spec (rx_count k) 0) as [|_]; [lia|]. cbn [andb].
  destruct (Z.ltb_spec (rx_count k) SIZEOF_UDP_META) as [|_]; [unfold SIZEOF_UDP_META in *; lia|].
  kbind (updo_sk_at a (rx_gets (Z.to_nat SIZEOF_UDP_META)) k0 (cli (nrflags s)) s _ k1 E1).
  kbind (upd_sk_at a (rx_add (- SIZEOF_UDP_META)) k1 (cli (nrflags s)) s).
  rewrite (kopt_bind _ _ _ (dg_src d)) by (by apply ld32_st32).
  rewrite (kopt_bind _ _ _ (dg_port d)) by (apply (ld16_st16 _ (st16 _)); done).
  rewrite (kopt_bind _ _ _ n) by (apply (ld16_st16 _ []); lia).
  rewrite sk_of_at, Hc1. cbv zeta.
  replace (if len <? n then len else n) with (Z.min len n) by (destruct (Z.ltb_spec len n); lia).
  destruct (Z.ltb_spec (n + Z.of_nat (length q)) (Z.min len n)); [lia|].
  kbind (updo_sk_at a (rx_gets (Z.to_nat (Z.min len n))) _ (cli (nrflags s)) s _ k2 E2).
  kbind (upd_sk_at a (rx_skip (Z.to_nat (n - Z.min len n))) k2 (cli (nrflags s)) s).
  kbind (upd_sk_at a (rx_add (- n)) (rx_skip (Z.to_nat (n - Z.min len n)) k2) (cli (nrflags s)) s).
  set (k3 := rx_add (- n) (rx_skip (Z.to_nat (n - Z.min len n)) k2)) in *. clearbody k3.
  kbind (sk_release_at a k3 (cli (nrflags s)) s (nrflags s) ltac:(by rewrite Ho3)).
  exists (unheld (nrflags s) k3). split; [done|]. split_and!; [|done|by rewrite Ho3..].
  destruct Hq3. split; [split; [by apply (rx_data_ext k3)|done]|done].
Qed.

(** ** Streams *)

(** A driver whose send function leaves the stack alone. *)
Definition quiet (nif_send : Z → list Z → K (Net H) Z) : Prop := ∀ nif f s, ∃ r, nif_send nif f s = Done r s.
Record stack_ok s : Prop := {
  st_id : is16 (ip_id_counter s);
  st_nif a n : nifs s !! a = Some n → nif_ok n;
  st_if a : a ∈ interfaces s → a ≠ 0 ∧ is_Some (nifs s !! a);
}.
Record sk_wf (k : Socket) : Prop := {
  sw_lip : is32 (local_ip k); sw_lport : is16 (local_port k); sw_rip : is32 (remote_ip k); sw_rport : is16 (remote_port k);
  sw_una : is32 (snd_una k); sw_nxt : is32 (snd_nxt k); sw_rcv : is32 (rcv_nxt k)
}.

Lemma with_ip_id_id s : with_ip_id (ip_id_counter s) s = s.
Proof. by destruct s. Qed.

(** With such a driver, sending only moves the counter of identifications. *)
Lemma tcp_send_quiet nif_send nif n src sport dst dport seq ack flags payload s :
  quiet nif_send → nifs s !! nif = Some n → nif_ok n → is16 (ip_id_counter s) → is32 dst →
  is16 sport → is16 dport → is32 seq → is32 ack → is8 flags → bytes payload → Z.of_nat (length payload) ≤ 1460 →
  ∃ r id, tcp_send nif_send nif src sport dst dport seq ack flags payload s = Done r (with_ip_id id s) ∧ is16 id.
Proof.
  intros Hq Hn Hok Hid Hdst Hsp Hdp Hseq Hack Hfl Hb Hl.
  destruct (tcp_segment_spec src sport dst dport seq ack flags payload) as (ck & Hck & Hseg & _ & _); [done..|].
  set (seg := tcp_bytes _ ++ payload) in Hseg.
  assert (length seg = (20 + length payload)%nat) as Hls by (unfold seg; by rewrite length_app).
  unfold tcp_send, TCP_HEADER_SIZE. rewrite u32_small by lia.
  destruct (Z.ltb_spec 1480 (20 + Z.of_nat (length payload))); [lia|].
  destruct (Z.ltb_spec (1480 - 20) (Z.of_nat (length payload))); [lia|].
  rewrite (kopt_bind _ _ _ seg) by exact Hseg.
  destruct (arp_find (arp_cache s) (next_hop n dst)) as [m|] eqn:Hm.
  - destruct (ipv4_send_spec nif n dst IPV4_PROTO_TCP seg m s) as (ck' & _ & _ & E); [done..|lia|done|].
    rewrite E. destruct (Hq nif (frame_of m (mac n) (ip_bytes (sent_header n (ip_id_counter s) dst IPV4_PROTO_TCP (Z.of_nat (length seg)) ck') ++ seg))
      (with_ip_id (u16 (ip_id_counter s + 1)) s)) as (r & ->). do 2 eexists. split; [done|]. apply u16_range.
  - destruct (sent_header_checksum n (ip_id_counter s) dst IPV4_PROTO_TCP (Z.of_nat (length seg))) as (c & Hc & _); [done..|lia|].
    unfold ipv4_send, IPV4_HEADER_SIZE, ETH_MTU. rewrite (u32_small (20 + Z.of_nat (length seg))) by lia.
    destruct (Z.ltb_spec 1500 (20 + Z.of_nat (length seg))); [lia|].
    destruct (Z.ltb_spec (1500 - 20) (Z.of_nat (length seg))); [lia|].
    unfold nif_of. rewrite (kopt_bind _ _ _ n) by done. rewrite kget_bind, kmod_bind.
    rewrite (kopt_bind _ _ _ c) by exact Hc.
    unfold arp_lookup. rewrite kget_bind. cbn [arp_cache with_ip_id]. fold (next_hop n dst). rewrite Hm.
    do 2 eexists. split; [done|]. apply u16_range.
Qed.

Lemma at_ip_id a k fl id s : with_ip_id id (at_sk a k fl s) = at_sk a k fl (with_ip_id id s).
Proof. done. Qed.
Lemma send_ack_at nif_send a k fl src sport s :
  quiet nif_send → stack_ok s → sk_wf k → is32 src → is16 sport →
  ∃ id, send_ack nif_send a src sport (at_sk a k fl s) = Done tt (at_sk a k fl (with_ip_id id s)) ∧ is16 id.
Proof.
  intros Hq [Hid Hnif Hif] [] Hs Hp. unfold send_ack, netif_get_default. rewrite kget_bind.
  change (interfaces (at_sk a k fl s)) with (interfaces s).
  destruct (interfaces s) as [|nif l] eqn:Ei; cbn [head default].
  - change (0 =? 0) with true. exists (ip_id_counter s). by rewrite with_ip_id_id.
  - destruct (Hif nif) as [Hne [n Hn]]; [left|]. cbn. destruct (Z.eqb_spec nif 0); [done|]. rewrite sk_of_at.
    destruct (tcp_send_quiet nif_send nif n (local_ip k) (local_port k) src sport (snd_nxt k) (rcv_nxt k) TCP_ACK [] (at_sk a k fl s))
      as (r & id & E & Hid'); [try done..|]; [by apply (Hnif nif)|by apply Forall_nil|].
    kbind E. exists id. by rewrite at_ip_id.
Qed.

(** In-order or not, the payload of a segment for an established connection that fits is
    appended to the ring, acknowledged, and one reader is woken. *)
Lemma tcp_data_lemma nif_send a k q src sport dst dport seq ack flags payload s :
  quiet nif_send → stack_ok s → sk_wf k → is32 src → is16 sport → is32 ack →
  find_socket dport SOCK_STREAM src sport s = Done a s → a ≠ 0 →
  sockets s !! a = Some k → locked (sk_lock k) = 0 → sk_state k = SOCK_STATE_ESTABLISHED → rx_ring k q →
  has flags TCP_RST = false → has flags TCP_FIN = false → has flags TCP_ACK = true →
  0 < Z.of_nat (length payload) → Z.of_nat (length q) + Z.of_nat (length payload) ≤ SOCK_RXBUF_SIZE →
  ∃ k' id, tcp_demux nif_send src sport dst dport seq ack flags payload s =
      Done tt (at_sk a k' (nrflags s) (with_runnable (runnable s ++ take 1 (rx_wq k)) (with_ip_id id s))) ∧ is16 id ∧
    rx_ring k' (q ++ payload) ∧ locked (sk_lock k') = 0 ∧ sk_wf k' ∧ sk_state k' = SOCK_STATE_ESTABLISHED ∧
    rcv_nxt k' = u32 (rcv_nxt k + Z.of_nat (length payload)) ∧ snd_una k' = ack ∧ rx_wq k' = tail (rx_wq k) ∧
    sk_closed k' = sk_closed k.
Proof.
  intros Hqt Hst Hwf Hs Hp Hack Hf Ha Hk Hl Hest Hq Hrst Hfin Hackf Hpos Hroom.
  unfold tcp_demux. kbind Hf. destruct (Z.eqb_spec a 0) as [|_]; [done|]. rewrite mret_bind.
  destruct (Z.eqb_spec a 0) as [|_]; [done|]. kbind (sk_acquire_Done a k s Hk Hl).
  set (k0 := held (nrflags s) k). set (fl := cli (nrflags s)). unfold tcp_step. rewrite sk_of_at. cbv zeta.
  replace (sk_state k0) with SOCK_STATE_ESTABLISHED by done. unfold SOCK_STATE_LISTEN, SOCK_STATE_ESTABLISHED, SOCK_STATE_SYN_RECV, SOCK_STATE_SYN_SENT.
  change (4 =? 1) with false. change (4 =? 3) with false. change (4 =? 2) with false. change (4 =? 4) with true. cbv iota.
  unfold tcp_established. rewrite Hrst, Hfin, Hackf, orb_false_r. cbv iota.
  kbind (upd_sk_at a (λ k, set_seqs ack (snd_nxt k) (rcv_nxt k) k) k0 fl s).
  set (k1 := set_seqs ack (snd_nxt k0) (rcv_nxt k0) k0).
  destruct (Z.ltb_spec 0 (Z.of_nat (length payload))); [|lia].
  destruct (rx_enqueue_fits k1 q payload) as (k2 & E2 & Hq2 & Ho2); [destruct Hq; split; [by apply (rx_data_ext k)|done]|done|].
  rewrite bind_assoc. kbind (updo_sk_at a (λ k, rx_enqueue k payload) k1 fl s 0 k2 E2).
  set (g := λ k, set_seqs (snd_una k) (snd_nxt k) (u32 (rcv_nxt k + Z.of_nat (length payload))) k).
  rewrite bind_assoc. kbind (upd_sk_at a g k2 fl s).
  assert (∃ b h t c, g k2 = set_rx b h t c (set_seqs ack (snd_nxt k) (u32 (rcv_nxt k + Z.of_nat (length payload))) k0))
    as (b & h & t & c & Ek) by (rewrite Ho2; do 4 eexists; done).
  assert (sk_wf (g k2)) as Hwf2 by (rewrite Ek; destruct Hwf; split; try done; apply u32_range).
  destruct (send_ack_at nif_send a (g k2) fl src sport s Hqt Hst Hwf2 Hs Hp) as (id & E3 & Hid). kbind E3. rewrite mret_bind.
  kbind (sk_release_at a (g k2) fl (with_ip_id id s) (nrflags s) ltac:(by rewrite Ek)).
  rewrite wake_rx_at. replace (rx_wq (unheld (nrflags s) (g k2))) with (rx_wq k) by by rewrite Ek.
  do 2 eexists. split; [done|]. split; [done|].
  set (k3 := g k2) in *. assert (rx_ring k3 (q ++ payload)) as Hq3 by (destruct Hq2; split; [by apply (rx_data_ext k2)|done]). clearbody k3.
  split_and!; try (by rewrite Ek); [|].
  - destruct Hq3. split; [by apply (rx_data_ext k3)|done].
  - by destruct Hwf2.
Qed.

(** [socket_recv] takes the oldest bytes. *)
Lemma recv_lemma self a len k q s :
  a ≠ 0 → sockets s !! a = Some k → locked (sk_lock k) = 0 → rx_ring k q → q ≠ [] → 0 ≤ len < 2 ^ 32 →
  ∃ k', socket_recv self a len s =
      Done (Returned (Z.min len (Z.of_nat (length q)), take (Z.to_nat len) q)) (at_sk a k' (nrflags s) s) ∧
    rx_ring k' (drop (Z.to_nat len) q) ∧ locked (sk_lock k') = 0 ∧ rx_only k (set_sk_lock (sk_lock k) k').
Proof.
  intros Ha Hk Hl [Hq Hc] Hne Hlen. pose proof (rd_size _ _ Hq) as Hsz. unfold SOCK_RXBUF_SIZE in Hsz.
  assert (0 < Z.of_nat (length q)) by (destruct q; [done|cbn; lia]).
  unfold socket_recv. destruct (Z.eqb_spec a 0) as [|_]; [done|]. kbind (sk_acquire_Done a k s Hk Hl). rewrite sk_of_at.
  set (k0 := held (nrflags s) k). replace (rx_count k0) with (Z.of_nat (length q)) by done.
  destruct (Z.eqb_spec (Z.of_nat (length q)) 0) as [|_]; [lia|]. cbn [andb]. cbv zeta.
  replace (if Z.of_nat (length q) <? len then Z.of_nat (length q) else len) with (Z.min len (Z.of_nat (length q)))
    by (destruct (Z.ltb_spec (Z.of_nat (length q)) len); lia).
  set (n := Z.min len (Z.of_nat (length q))).
  destruct (rx_gets_spec (Z.to_nat n) k0 q) as (k1 & E1 & Hq1 & Ho1); [by apply (rx_data_ext k)|lia|].
  kbind (updo_sk_at a (rx_gets (Z.to_nat n)) k0 (cli (nrflags s)) s _ k1 E1).
  kbind (upd_sk_at a (rx_add (- n)) k1 (cli (nrflags s)) s).
  destruct (rx_add_spec k1 _ (- n) Hq1) as [Hq2 Ho2].
  { rewrite Ho1. cbn [rx_count set_rx]. replace (rx_count k0) with (Z.of_nat (length q)) by done.
    rewrite length_drop. unfold u32. lia. }
  set (k2 := rx_add (- n) k1) in *. assert (rx_only k0 k2) as Ho by (rewrite Ho2, Ho1; done). clearbody k2.
  kbind (sk_release_at a k2 (cli (nrflags s)) s (nrflags s) ltac:(by rewrite Ho)).
  exists (unheld (nrflags s) k2). split_and!.
  - unfold mret, K_ret. do 3 f_equal; [unfold i32; destruct (Z.ltb_spec (n mod 2 ^ 32) (2 ^ 31)); lia|].
    unfold n. destruct (Z.min_spec len (Z.of_nat (length q))) as [[? ->]|[? ->]]; [done|]. by rewrite !take_ge by lia.
  - replace (drop (Z.to_nat len) q) with (drop (Z.to_nat n) q).
    { destruct Hq2. split; [by apply (rx_data_ext k2)|done]. }
    unfold n. destruct (Z.min_spec len (Z.of_nat (length q))) as [[? ->]|[? ->]]; [done|]. by rewrite !drop_ge by lia.
  - done.
  - rewrite Ho. by destruct k.
Qed.
End calls.
