(* ===== verification/NetTheorems.v ===== *)
(** * Theorems of the network stack

    End to end delivery of datagrams and of stream data between two stacks, and two
    properties of passive opens that keep [accept] from ever returning. *)
From S2P Require Import Prelude PageAlloc Kmalloc KmallocCorrect KHeap Spinlock Net Socket NetRx NetCorrect SocketCorrect.

Section theorems.
Context {H : Type} `{KHeap H}.
Implicit Types (s r : Net H).

(** The default interface [nif] of [s] is [n], and the next hop for [dst] has the address [m]. *)
Record route s (nif : Z) (n : NetIf) (dst : Z) (m : list Z) : Prop := {
  rt_default : head (interfaces s) = Some nif;
  rt_nif : nifs s !! nif = Some n;
  rt_dst : is32 dst;
  rt_arp : arp_find (arp_cache s) (next_hop n dst) = Some m;
  rt_mac : length m = 6%nat;
}.
Lemma route_nonzero s nif n dst m : stack_ok s → route s nif n dst m → nif ≠ 0 ∧ nif_ok n.
Proof.
  intros [_ Hn Hif] [Hd Hl _ _ _]. split; [|by apply (Hn nif)]. apply Hif. destruct (interfaces s); [done|].
  injection Hd as ->. by left.
Qed.
Lemma netif_get_default_route {A} s nif n dst m (f : Z → K (Net H) A) :
  route s nif n dst m → (netif_get_default ≫= f) s = f nif s.
Proof. intros [Hd _ _ _ _]. unfold netif_get_default. rewrite kget_bind. by rewrite Hd. Qed.

(** ** Datagrams *)

(** What [udp_send] hands to the interface, the receiver delivers to its sockets. *)
Lemma udp_transport nif n m sport dst dport payload s :
  stack_ok s → route s nif n dst m → is16 sport → is16 dport → Z.of_nat (length payload) ≤ 1472 →
  ∃ frame,
    (∀ nif_send, udp_send nif_send nif sport dst dport payload s = nif_send nif frame (with_ip_id (u16 (ip_id_counter s + 1)) s)) ∧
    ∀ nif_send nif' n' pad r, nifs r !! nif' = Some n' → accepts n' dst → Z.of_nat (length pad) < 2 ^ 31 →
      eth_rx nif_send nif' (frame ++ pad) (Z.of_nat (length (frame ++ pad))) r =
        socket_udp_deliver (nif_ip n) sport dst dport payload r.
Proof.
  intros Hst Hrt Hs Hd Hl. destruct (route_nonzero _ _ _ _ _ Hst Hrt) as [_ Hok]. destruct Hst as [Hid _ _], Hrt as [_ Hn Hdst Harp Hm].
  set (hdr := mkUdp sport dport (htons (u16 (u32 (8 + Z.of_nat (length payload))))) 0).
  assert (u16 (u32 (8 + Z.of_nat (length payload))) = 8 + Z.of_nat (length payload)) as El by (rewrite u32_small, u16_small by lia; done).
  assert (udp_wf hdr) as Hwf by (split; cbn; try done; rewrite El; apply htons_range; lia).
  assert (Z.of_nat (length (udp_bytes hdr ++ payload)) = 8 + Z.of_nat (length payload)) as Elen
    by (rewrite length_app; change (length (udp_bytes hdr)) with 8%nat; lia).
  destruct (ipv4_send_spec nif n dst IPV4_PROTO_UDP (udp_bytes hdr ++ payload) m s) as (ck & Hck & Hv & E); [done..|lia|done|].
  rewrite Elen in *. eexists. split.
  { intros nif_send. unfold udp_send, UDP_HEADER_SIZE.
    destruct (Z.ltb_spec 1480 (u32 (8 + Z.of_nat (length payload)))) as [Hlt|_]; [rewrite u32_small in Hlt; lia|].
    destruct (Z.ltb_spec (1480 - 8) (Z.of_nat (length payload))); [lia|]. apply E. }
  intros nif_send nif' n' pad r Hn' Hacc Hpad.
  rewrite (eth_rx_spec nif_send nif' n'); try done; [|by apply Hok|apply sent_header_wf; try done; lia|lia| ].
  2: { cbn [total_len sent_header]. rewrite u16_small by lia. rewrite ntohs_htons by lia. lia. }
  cbn [protocol sent_header src_ip dst_ip]. change (IPV4_PROTO_UDP =? IPV4_PROTO_ICMP) with false.
  change (IPV4_PROTO_UDP =? IPV4_PROTO_UDP) with true. cbv iota.
  unfold udp_rx, UDP_HEADER_SIZE. rewrite Elen. destruct (Z.ltb_spec (8 + Z.of_nat (length payload)) 8); [lia|].
  rewrite <-app_assoc. rewrite (kopt_bind _ _ _ hdr) by by apply udp_roundtrip.
  change (udp_src_port hdr) with sport. change (udp_dst_port hdr) with dport.
  change (udp_length hdr) with (htons (u16 (u32 (8 + Z.of_nat (length payload))))). cbv zeta. rewrite El, ntohs_htons by lia.
  destruct (Z.ltb_spec (8 + Z.of_nat (length payload)) 8); [lia|]. rewrite Z.ltb_irrefl. cbn [orb].
  rewrite (drop_app_Z (udp_bytes hdr)) by done.
  rewrite (kopt_bind _ _ _ payload) by (apply slice_app; lia). done.
Qed.

(** C20. Datagrams are delivered end to end: a [socket_sendto] of at most 1472 bytes hands one frame to
    the interface, and when a receiver that accepts the address gets that frame, with any padding,
    the datagram with the address and port of the sender joins the queue of the socket bound to the port, if its ring has room for it, and
    [socket_recvfrom] returns the oldest datagram of that queue whole or cut to its buffer. *)
Theorem udp_end_to_end a ka nif n m buf ip port s :
  stack_ok s → route s nif n ip m → a ≠ 0 → sockets s !! a = Some ka → sk_type ka = SOCK_DGRAM →
  is16 (local_port ka) → local_port ka ≠ 0 → is16 port → Z.of_nat (length buf) ≤ 1472 →
  ∃ frame,
    (∀ nif_send, socket_sendto nif_send a buf ip port s =
       (x ← nif_send nif frame; mret (if x =? 0 then Z.of_nat (length buf) else x)) (with_ip_id (u16 (ip_id_counter s + 1)) s)) ∧
    ∀ nif_send nif' n' pad r b kb D self len,
      nifs r !! nif' = Some n' → accepts n' ip → Z.of_nat (length pad) < 2 ^ 31 →
      find_socket port SOCK_DGRAM 0 0 r = Done b r → b ≠ 0 → sockets r !! b = Some kb → locked (sk_lock kb) = 0 →
      dg_queue kb D → 0 ≤ len < 2 ^ 31 →
      let d := mkDgram (nif_ip n) (local_port ka) buf in
      Z.of_nat (length (concat (dg_bytes <$> D))) + Z.of_nat (length (dg_bytes d)) ≤ SOCK_RXBUF_SIZE →
      ∃ r1 k1, eth_rx nif_send nif' (frame ++ pad) (Z.of_nat (length (frame ++ pad))) r = Done tt r1 ∧
        sockets r1 !! b = Some k1 ∧ dg_queue k1 (D ++ [d]) ∧
        ∃ d0 D' r2 k2, D ++ [d] = d0 :: D' ∧
          socket_recvfrom self b len r1 =
            Done (Returned (Z.min len (Z.of_nat (length (dg_data d0))), take (Z.to_nat len) (dg_data d0), dg_src d0, dg_port d0)) r2 ∧
          sockets r2 !! b = Some k2 ∧ dg_queue k2 D'.
Proof.
  intros Hst Hrt Ha Hka Hty Hlp Hlp0 Hp Hl.
  destruct (udp_transport nif n m (local_port ka) ip port buf s Hst Hrt Hlp Hp Hl) as (frame & Hsend & Hrx).
  destruct (route_nonzero _ _ _ _ _ Hst Hrt) as [Hnz Hok]. exists frame. split.
  { intros nif_send. unfold socket_sendto. destruct (Z.eqb_spec a 0) as [|_]; [done|].
    rewrite (sk_of_bind a ka) by done. rewrite Hty. change (negb (SOCK_DGRAM =? SOCK_DGRAM)) with false. cbv iota.
    rewrite (netif_get_default_route _ _ _ _ _ _ Hrt). destruct (Z.eqb_spec nif 0) as [|_]; [done|].
    destruct (Z.eqb_spec (local_port ka) 0) as [|_]; [done|]. rewrite mret_bind, (sk_of_bind a ka) by done.
    unfold mbind, K_bind. rewrite Hsend. repeat (case_match; try done).
    all: unfold i32 in *; rewrite ?Z.mod_small in * by lia; destruct (Z.ltb_spec (Z.of_nat (length buf)) (2 ^ 31)); [done|lia]. }
  intros nif_send nif' n' pad r b kb D self len Hn' Hacc Hpad Hf Hb Hkb Hlk HD Hlen d Hroom.
  rewrite (Hrx nif_send nif' n' pad r Hn' Hacc Hpad).
  destruct (udp_deliver_lemma b kb D d ip port r Hf Hb Hkb Hlk HD) as (k1 & E1 & HD1 & Hl1 & _); [|done|].
  { split; [apply Hok|]. split; [done|]. cbn. lia. }
  set (r1 := at_sk b k1 _ _) in E1. assert (sockets r1 !! b = Some k1) as Hk1 by apply sockets_at.
  exists r1, k1. split; [exact E1|]. split; [done|]. split; [done|].
  destruct (D ++ [d]) as [|d0 D'] eqn:ED; [by destruct D|].
  destruct (recvfrom_lemma self b len k1 d0 D' r1 Hb Hk1 Hl1 HD1 Hlen) as (k2 & E2 & HD2 & _).
  exists d0, D'. eexists _, k2. split; [done|]. split; [exact E2|]. split; [apply sockets_at|done].
Qed.

(** ** Streams *)

(** The frame [tcp_send] hands to the interface, and when the receiver's [tcp_rx] accepts it. *)
Lemma tcp_transport nif n m src sport dst dport seq ack flags payload s :
  stack_ok s → route s nif n dst m → is16 sport → is16 dport → is32 seq → is32 ack → is8 flags →
  bytes payload → Z.of_nat (length payload) ≤ 1460 →
  ∃ frame,
    (∀ nif_send, tcp_send nif_send nif src sport dst dport seq ack flags payload s =
       nif_send nif frame (with_ip_id (u16 (ip_id_counter s + 1)) s)) ∧
    ∀ nif_send nif' n' pad r, nifs r !! nif' = Some n' → accepts n' dst → Z.of_nat (length pad) < 2 ^ 31 →
      eth_rx nif_send nif' (frame ++ pad) (Z.of_nat (length (frame ++ pad))) r =
        if (lsum (st32 (nif_ip n)) - lsum (st32 src)) mod 65535 =? 0
        then tcp_demux nif_send (nif_ip n) sport dst dport seq ack flags payload r
        else Done tt r.
Proof.
  intros Hst Hrt Hs Hd Hseq Hack Hfl Hb Hl. destruct (route_nonzero _ _ _ _ _ Hst Hrt) as [_ Hok].
  destruct Hst as [Hid _ _], Hrt as [_ Hn Hdst Harp Hm].
  destruct (tcp_segment_spec src sport dst dport seq ack flags payload) as (ck & Hck & Hseg & Hbs & Hsum); [done..|].
  set (hdr := sent_tcp sport dport seq ack flags ck) in *. set (seg := tcp_bytes hdr ++ payload) in *.
  assert (tcp_wf hdr) as Hwf by by apply sent_tcp_wf.
  assert (Z.of_nat (length seg) = 20 + Z.of_nat (length payload)) as Elen
    by (unfold seg; rewrite length_app; change (length (tcp_bytes hdr)) with 20%nat; lia).
  destruct (ipv4_send_spec nif n dst IPV4_PROTO_TCP seg m s) as (ck' & Hck' & Hv & E); [done..|lia|done|].
  rewrite Elen in *. eexists. split.
  { intros nif_send. unfold tcp_send, TCP_HEADER_SIZE.
    destruct (Z.ltb_spec 1480 (u32 (20 + Z.of_nat (length payload)))) as [Hlt|_]; [rewrite u32_small in Hlt; lia|].
    destruct (Z.ltb_spec (1480 - 20) (Z.of_nat (length payload))); [lia|]. rewrite (kopt_bind _ _ _ seg) by exact Hseg. apply E. }
  intros nif_send nif' n' pad r Hn' Hacc Hpad.
  rewrite (eth_rx_spec nif_send nif' n'); try done; [|by apply Hok|apply sent_header_wf; try done; lia|lia| ].
  2: { cbn [total_len sent_header]. rewrite u16_small by lia. rewrite ntohs_htons by lia. lia. }
  cbn [protocol sent_header src_ip dst_ip]. change (IPV4_PROTO_TCP =? IPV4_PROTO_ICMP) with false.
  change (IPV4_PROTO_TCP =? IPV4_PROTO_UDP) with false. change (IPV4_PROTO_TCP =? IPV4_PROTO_TCP) with true. cbv iota.
  unfold tcp_rx, TCP_HEADER_SIZE. rewrite Elen. destruct (Z.ltb_spec (20 + Z.of_nat (length payload)) 20); [lia|].
  rewrite (kopt_bind _ _ _ hdr) by (unfold seg; rewrite <-app_assoc; by apply tcp_roundtrip).
  change (u8 (Z.shiftr (tcp_data_off hdr) 4 * 4)) with 20. cbv zeta. change (20 <? 20) with false.
  destruct (Z.ltb_spec (20 + Z.of_nat (length payload)) 20); [lia|]. cbn [orb].
  rewrite (kopt_bind _ _ _ seg) by (by apply slice_app).
  destruct (tcp_checksum_zero (nif_ip n) dst seg Hbs) as (c & Hc & _ & Hz); [lia|].
  rewrite (kopt_bind _ _ _ c) by exact Hc.
  assert (tcp_sum (nif_ip n) dst seg mod 65535 = (lsum (st32 (nif_ip n)) - lsum (st32 src)) mod 65535) as Em.
  { replace (tcp_sum (nif_ip n) dst seg) with (lsum (st32 (nif_ip n)) - lsum (st32 src) + tcp_sum src dst seg)
      by (unfold tcp_sum, pseudo_bytes, st32; cbn [app lsum]; lia).
    rewrite Z.add_mod, Hsum, Z.add_0_r, Z.mod_mod by lia. done. }
  rewrite Em in Hz. clear Em Hc E.
  destruct (Z.eqb_spec ((lsum (st32 (nif_ip n)) - lsum (st32 src)) mod 65535) 0) as [E0|E0].
  - rewrite (proj2 Hz E0). change (negb (0 =? 0)) with false. cbv iota. unfold socket_tcp_deliver.
    rewrite (kopt_bind _ _ _ hdr) by (by apply tcp_roundtrip).
    change (u8 (Z.shiftr (tcp_data_off hdr) 4 * 4)) with 20. cbv zeta. unfold seg. rewrite (drop_app_Z (tcp_bytes hdr)) by done.
    change (tcp_seq hdr) with (htonl seq). change (tcp_ack hdr) with (htonl ack). rewrite !ntohl_htonl by done. done.
  - destruct (Z.eqb_spec c 0) as [->|]; [by destruct (E0 (proj1 Hz eq_refl))|]. done.
Qed.

Lemma send_loop_cons nif_send f nif a x l :
  send_loop nif_send (S f) nif a (x :: l) =
    (sk_acquire a;;
     k ← sk_of a;
     upd_sk a (set_seqs (snd_una k) (u32 (snd_nxt k + Z.of_nat (length (take 1440 (x :: l))))) (rcv_nxt k));;
     sk_release a;;
     k' ← sk_of a;
     tcp_send nif_send nif (local_ip k') (local_port k') (remote_ip k') (remote_port k') (snd_nxt k) (rcv_nxt k')
       (Z.lor TCP_ACK TCP_PSH) (take 1440 (x :: l));;
     send_loop nif_send f nif a (drop 1440 (x :: l)) : K (Net H) unit).
Proof. reflexivity. Qed.
(** The loop of [socket_send] on data for one segment. *)
Lemma send_loop_single nif_send nif a buf (s : Net H) :
  0 < Z.of_nat (length buf) ≤ 1440 →
  send_loop nif_send (length buf) nif a buf s =
    (sk_acquire a;;
     k ← sk_of a;
     upd_sk a (set_seqs (snd_una k) (u32 (snd_nxt k + Z.of_nat (length buf))) (rcv_nxt k));;
     sk_release a;;
     k' ← sk_of a;
     tcp_send nif_send nif (local_ip k') (local_port k') (remote_ip k') (remote_port k') (snd_nxt k) (rcv_nxt k')
       (Z.lor TCP_ACK TCP_PSH) buf;;
     mret tt) s.
Proof.
  intros Hl. assert (take 1440 buf = buf ∧ drop 1440 buf = []) as [Et Ed] by (split; [apply take_ge|apply drop_ge]; lia).
  destruct buf as [|x l]; [cbn in Hl; lia|]. change (length (x :: l)) with (S (length l)) at 1. rewrite send_loop_cons, Et, Ed.
  by destruct (length l).
Qed.

(** C3. Stream data is delivered end to end: a [socket_send] of at most 1440 bytes on an established
    connection, whose local address is that of the interface, hands one segment to the interface, and when the peer gets it, with any padding, and its connected
    socket has room for the bytes in its receive ring, that socket holds the bytes after those not yet read, expects the sequence number after them, and [socket_recv]
    returns the oldest bytes in order. *)
Theorem tcp_end_to_end a ka nif n m buf s :
  stack_ok s → route s nif n (remote_ip ka) m → a ≠ 0 → sockets s !! a = Some ka → locked (sk_lock ka) = 0 → sk_wf ka →
  sk_type ka = SOCK_STREAM → sk_state ka = SOCK_STATE_ESTABLISHED → local_ip ka = nif_ip n →
  bytes buf → 0 < Z.of_nat (length buf) ≤ 1440 →
  ∃ frame ka',
    (∀ nif_send, socket_send nif_send a buf s =
       (_ ← nif_send nif frame; mret (Z.of_nat (length buf)))
         (with_ip_id (u16 (ip_id_counter s + 1)) (at_sk a ka' (nrflags s) s))) ∧
    snd_nxt ka' = u32 (snd_nxt ka + Z.of_nat (length buf)) ∧
    ∀ nif_send nif' n' pad r b kb q self len,
      quiet nif_send → stack_ok r → nifs r !! nif' = Some n' → accepts n' (remote_ip ka) → Z.of_nat (length pad) < 2 ^ 31 →
      find_socket (remote_port ka) SOCK_STREAM (nif_ip n) (local_port ka) r = Done b r → b ≠ 0 →
      sockets r !! b = Some kb → locked (sk_lock kb) = 0 → sk_wf kb → sk_state kb = SOCK_STATE_ESTABLISHED → rx_ring kb q →
      Z.of_nat (length q) + Z.of_nat (length buf) ≤ SOCK_RXBUF_SIZE → 0 ≤ len < 2 ^ 32 →
      ∃ r1 k1, eth_rx nif_send nif' (frame ++ pad) (Z.of_nat (length (frame ++ pad))) r = Done tt r1 ∧
        sockets r1 !! b = Some k1 ∧ rx_ring k1 (q ++ buf) ∧ rcv_nxt k1 = u32 (rcv_nxt kb + Z.of_nat (length buf)) ∧
        ∃ r2 k2, socket_recv self b len r1 =
            Done (Returned (Z.min len (Z.of_nat (length (q ++ buf))), take (Z.to_nat len) (q ++ buf))) r2 ∧
          sockets r2 !! b = Some k2 ∧ rx_ring k2 (drop (Z.to_nat len) (q ++ buf)).
Proof.
  intros Hst Hrt Ha Hka Hlk Hwf Hty Hest Hlip Hb Hl. pose proof Hwf as [Hw1 Hw2 Hw3 Hw4 Hw5 Hw6 Hw7].
  destruct (route_nonzero _ _ _ _ _ Hst Hrt) as [Hnz Hok].
  set (ka' := unheld (nrflags s) (set_seqs (snd_una ka) (u32 (snd_nxt ka + Z.of_nat (length buf))) (rcv_nxt ka) (held (nrflags s) ka))).
  set (s1 := at_sk a ka' (nrflags s) s).
  assert (route s1 nif n (remote_ip ka) m) as Hrt1 by (destruct Hrt; by split).
  assert (stack_ok s1) as Hst1 by (destruct Hst; by split).
  destruct (tcp_transport nif n m (nif_ip n) (local_port ka) (remote_ip ka) (remote_port ka) (snd_nxt ka) (rcv_nxt ka)
    (Z.lor TCP_ACK TCP_PSH) buf s1) as (frame & Hsend & Hrx); [done..|lia|].
  exists frame, ka'. split; [|split; [done|]].
  { intros nif_send. unfold socket_send. destruct (Z.eqb_spec a 0) as [|_]; [done|].
    rewrite (sk_of_bind a ka) by done. rewrite Hty, Hest.
    change (SOCK_STREAM =? SOCK_DGRAM) with false. change (negb (SOCK_STATE_ESTABLISHED =? SOCK_STATE_ESTABLISHED)) with false. cbv iota.
    rewrite (netif_get_default_route _ _ _ _ _ _ Hrt). destruct (Z.eqb_spec nif 0) as [|_]; [done|].
    unfold mbind at 1, K_bind at 1. rewrite send_loop_single by lia. kbind (sk_acquire_Done a ka s Hka Hlk).
    rewrite sk_of_at. kbind (upd_sk_at a (set_seqs (snd_una (held (nrflags s) ka))
      (u32 (snd_nxt (held (nrflags s) ka) + Z.of_nat (length buf))) (rcv_nxt (held (nrflags s) ka))) (held (nrflags s) ka) (cli (nrflags s)) s).
    kbind (sk_release_at a (set_seqs (snd_una ka) (u32 (snd_nxt ka + Z.of_nat (length buf))) (rcv_nxt ka) (held (nrflags s) ka))
      (cli (nrflags s)) s (nrflags s) eq_refl).
    rewrite sk_of_at. fold ka' s1.
    change (local_ip ka') with (local_ip ka). rewrite Hlip. unfold mbind, K_bind.
    change (tcp_send nif_send nif (nif_ip n) (local_port ka') (remote_ip ka') (remote_port ka') (snd_nxt (held (nrflags s) ka)) (rcv_nxt ka')
      (Z.lor TCP_ACK TCP_PSH) buf s1) with
      (tcp_send nif_send nif (nif_ip n) (local_port ka) (remote_ip ka) (remote_port ka) (snd_nxt ka) (rcv_nxt ka) (Z.lor TCP_ACK TCP_PSH) buf s1).
    rewrite Hsend. change (ip_id_counter s1) with (ip_id_counter s). unfold i32. rewrite Z.mod_small by lia.
    destruct (Z.ltb_spec (Z.of_nat (length buf)) (2 ^ 31)) as [_|]; [|lia]. unfold mret, K_ret. by destruct (nif_send nif frame _). }
  intros nif_send nif' n' pad r b kb q self len Hq Hstr Hn' Hacc Hpad Hf Hbnz Hkb Hlkb Hwfb Hestb Hring Hroom Hlen.
  rewrite (Hrx nif_send nif' n' pad r Hn' Hacc Hpad). rewrite Z.sub_diag. change (0 mod 65535 =? 0) with true. cbv iota.
  destruct (tcp_data_lemma nif_send b kb q (nif_ip n) (local_port ka) (remote_ip ka) (remote_port ka) (snd_nxt ka) (rcv_nxt ka)
    (Z.lor TCP_ACK TCP_PSH) buf r) as (k1 & id & E1 & _ & Hr1 & Hl1 & _ & _ & Hrcv & _); [try done..|]; [apply Hok|lia|].
  set (r1 := at_sk b k1 _ _) in E1. assert (sockets r1 !! b = Some k1) as Hk1 by apply sockets_at.
  exists r1, k1. split_and!; [done..|].
  destruct (recv_lemma self b len k1 (q ++ buf) r1 Hbnz Hk1 Hl1 Hr1) as (k2 & E2 & Hr2 & _); [|done|].
  { destruct q; [|done]. destruct buf; [cbn in Hl; lia|done]. }
  eexists _, k2. split; [exact E2|]. split; [apply sockets_at|done].
Qed.

(** A segment whose source address for the checksum is 0, such as the SYN-ACK of a socket listening on any
    address, is never accepted by the peer: whatever the peer's sockets, its stack
    drops the frame (unless the words of the interface address happen to add up to a multiple of 65535). *)
Theorem tcp_any_address_dropped nif n m sport dst dport seq ack flags payload s :
  stack_ok s → route s nif n dst m → is16 sport → is16 dport → is32 seq → is32 ack → is8 flags →
  bytes payload → Z.of_nat (length payload) ≤ 1460 → lsum (st32 (nif_ip n)) mod 65535 ≠ 0 →
  ∃ frame,
    (∀ nif_send, tcp_send nif_send nif 0 sport dst dport seq ack flags payload s =
       nif_send nif frame (with_ip_id (u16 (ip_id_counter s + 1)) s)) ∧
    ∀ nif_send nif' n' pad r, nifs r !! nif' = Some n' → accepts n' dst → Z.of_nat (length pad) < 2 ^ 31 →
      eth_rx nif_send nif' (frame ++ pad) (Z.of_nat (length (frame ++ pad))) r = Done tt r.
Proof.
  intros Hst Hrt Hs Hd Hseq Hack Hfl Hb Hl Hne.
  destruct (tcp_transport nif n m 0 sport dst dport seq ack flags payload s) as (frame & Hsend & Hrx); [done..|].
  exists frame. split; [done|]. intros. rewrite (Hrx nif_send nif' n') by done. rewrite Z.sub_0_r.
  by destruct (Z.eqb_spec (lsum (st32 (nif_ip n)) mod 65535) 0).
Qed.

(** ** Passive opens *)

Lemma find_in_ext m m' p p' l :
  (∀ x k, x ∈ l → x ≠ 0 → m !! x = Some k → ∃ k', m' !! x = Some k' ∧ p' k' = p k) →
  (∀ x, x ∈ l → x ≠ 0 → is_Some (m !! x)) → find_in m' p' l = find_in m p l.
Proof.
  induction l as [|x l IH]; intros Hp Hl; [done|]. cbn [find_in]. destruct (Z.eqb_spec x 0).
  - apply IH; intros; [eapply Hp|apply Hl]; set_solver.
  - destruct (Hl x) as [k Hk]; [left|done|]. destruct (Hp x k) as (k' & Hk' & Ep); [left|done|done|].
    rewrite Hk, Hk'. cbn. rewrite Ep. destruct (p k); [done|]. apply IH; intros; [eapply Hp|apply Hl]; set_solver.
Qed.

(** What the table searches see of a socket. *)
Definition same_match (k k' : Socket) : Prop :=
  sk_type k' = sk_type k ∧ sk_state k' = sk_state k ∧ local_port k' = local_port k ∧
  remote_ip k' = remote_ip k ∧ remote_port k' = remote_port k.
Lemma find_socket_same port type rip rport a s s' :
  find_socket port type rip rport s = Done a s →
  (∀ x, x ∈ socket_table s → x ≠ 0 → is_Some (sockets s !! x)) → socket_table s' = socket_table s →
  (∀ x k, x ∈ socket_table s → sockets s !! x = Some k → ∃ k', sockets s' !! x = Some k' ∧ same_match k k') →
  find_socket port type rip rport s' = Done a s'.
Proof.
  intros Hf Hl Et Hs. unfold find_socket, kopt, mbind, K_bind in *. rewrite Et.
  rewrite (find_in_ext (sockets s) (sockets s') (exact_match port type rip rport) (exact_match port type rip rport)); [|..|done].
  2: { intros x k Hx Hne Hk. destruct (Hs x k Hx Hk) as (k' & Hk' & E1 & E2 & E3 & E4 & E5). exists k'. split; [done|].
       unfold exact_match. by rewrite E1, E3, E4, E5. }
  destruct (find_in (sockets s) (exact_match _ _ _ _) _) as [a0|]; [|done].
  destruct (negb (a0 =? 0)); [by injection Hf as ->|]. rewrite Et.
  rewrite (find_in_ext (sockets s) (sockets s') (wild_match port type) (wild_match port type)); [|..|done].
  2: { intros x k Hx Hne Hk. destruct (Hs x k Hx Hk) as (k' & Hk' & E1 & E2 & E3 & E4 & E5). exists k'. split; [done|].
       unfold wild_match. by rewrite E1, E2, E3, E4. }
  destruct (find_in (sockets s) (wild_match _ _) _); [|done].
  by injection Hf as ->.
Qed.

(** A listening socket with threads asleep in [accept] and no connection waiting. *)
Record idle_listener s (a : Z) (k : Socket) : Prop := {
  il_sk : sockets s !! a = Some k; il_nz : a ≠ 0; il_lock : locked (sk_lock k) = 0;
  il_state : sk_state k = SOCK_STATE_LISTEN; il_empty : accept_head k = accept_tail k;
  il_head : 0 ≤ accept_head k < SOCK_BACKLOG_MAX; il_queue : Z.of_nat (length (accept_queue k)) = SOCK_BACKLOG_MAX;
  il_wf : sk_wf k; il_table x : x ∈ socket_table s → x ≠ 0 → is_Some (sockets s !! x);
}.

Lemma tcp_demux_run nif_send a k src sport dst dport seq ack flags payload s :
  find_socket dport SOCK_STREAM src sport s = Done a s → a ≠ 0 → sockets s !! a = Some k → locked (sk_lock k) = 0 →
  tcp_demux nif_send src sport dst dport seq ack flags payload s =
    tcp_step nif_send a src sport seq ack flags payload (at_sk a (held (nrflags s) k) (cli (nrflags s)) s).
Proof.
  intros Hf Ha Hk Hl. unfold tcp_demux. kbind Hf. destruct (Z.eqb_spec a 0) as [|_]; [done|]. rewrite mret_bind.
  destruct (Z.eqb_spec a 0) as [|_]; [done|]. by kbind (sk_acquire_Done a k s Hk Hl).
Qed.

Lemma send_syn_ack_spec nif_send child c src sport s :
  quiet nif_send → stack_ok s → sockets s !! child = Some c → sk_wf c → is32 src → is16 sport →
  ∃ c' id, send_syn_ack nif_send child src sport s = Done tt (with_ip_id id (with_sockets (<[child:=c']> (sockets s)) s)).
Proof.
  intros Hqt [Hid Hnif Hif] Hc [] Hs Hp. unfold send_syn_ack, netif_get_default. rewrite kget_bind.
  destruct (interfaces s) as [|nif l] eqn:Ei; cbn [head default].
  - exists c, (ip_id_counter s). change (0 =? 0) with true. cbv iota. unfold mret, K_ret. f_equal.
    unfold with_sockets, with_ip_id. rewrite insert_id by done. by destruct s.
  - destruct (Hif nif) as [Hne [n Hn]]; [left|]. cbn. destruct (Z.eqb_spec nif 0); [done|].
    rewrite (sk_of_bind child c) by done.
    set (c1 := set_seqs (snd_una c) (u32 (snd_nxt c + 1)) (rcv_nxt c) c).
    set (s3 := with_sockets (<[child:=c1]> (sockets s)) s).
    assert (upd_sk child (set_seqs (snd_una c) (u32 (snd_nxt c + 1)) (rcv_nxt c)) s = Done tt s3) as E2.
    { unfold upd_sk, kupd. by rewrite Hc. }
    kbind E2.
    destruct (tcp_send_quiet nif_send nif n (local_ip c) (local_port c) src sport (snd_nxt c) (rcv_nxt c) (Z.lor TCP_SYN TCP_ACK) [] s3)
      as (r & id & E & _); [try done..|]; [by apply (Hnif nif)|by apply Forall_nil|].
    kbind E. by exists c1, id.
Qed.

(** A SYN puts a child in the accept queue of the listener, and wakes nobody. *)
Lemma listen_syn_spec nif_send a k child h src sport seq s :
  quiet nif_send → stack_ok s → idle_listener s a k → is32 src → is16 sport → is32 seq →
  kh_alloc SIZEOF_SOCKET 1 (nheap s) = Done child h → child ≠ 0 → sockets s !! child = None →
  ∃ s' k', listen_syn nif_send a src sport seq (at_sk a (held (nrflags s) k) (cli (nrflags s)) s) = Done tt s' ∧
    sockets s' !! a = Some k' ∧ same_match k k' ∧ locked (sk_lock k') = 0 ∧ accept_wq k' = accept_wq k ∧ rx_wq k' = rx_wq k ∧
    accept_head k' = accept_head k ∧ accept_tail k' ≠ accept_head k' ∧ zget (accept_queue k') (accept_head k') = Some child ∧
    (∀ x, x ≠ a → x ≠ child → sockets s' !! x = sockets s !! x) ∧
    socket_table s' = socket_table s ∧ runnable s' = runnable s.
Proof.
  intros Hqt Hst [Hk Ha Hl Hls He Hh Hq Hwf Htab] Hs Hp Hseq Hal Hc Hfresh. unfold SOCK_BACKLOG_MAX in *.
  set (fl := cli (nrflags s)). set (k0 := held (nrflags s) k). assert (child ≠ a) as Hca by congruence.
  unfold listen_syn, n_alloc. set (s0 := at_sk a k0 fl s). set (s1 := with_nheap h s0).
  assert (zoom nheap with_nheap (kh_alloc SIZEOF_SOCKET 1) s0 = Done child s1) as E1.
  { unfold zoom. change (nheap s0) with (nheap s). by rewrite Hal. }
  kbind E1. destruct (Z.eqb_spec child 0) as [|_]; [done|].
  rewrite (sk_of_bind a k0) by apply sockets_at. rewrite kmod_bind.
  set (c0 := set_sk_state SOCK_STATE_SYN_RECV _). set (s2 := with_sockets (<[child:=c0]> (sockets s1)) s1).
  destruct (send_syn_ack_spec nif_send child c0 src sport s2) as (c & id & E3); [done| |apply lookup_insert_eq| |done|done|].
  { destruct Hst as [Hid Hnif Hif]. by split. }
  { destruct Hwf. split; try done. apply u32_range. }
  kbind E3.
  rewrite (sk_of_bind a k0) by (cbn; rewrite !lookup_insert_ne by done; apply lookup_insert_eq).
  change (accept_tail k0) with (accept_tail k). change (accept_head k0) with (accept_head k). rewrite <-He.
  set (next := Z.rem (accept_head k + 1) SOCK_BACKLOG_MAX).
  assert (next ≠ accept_head k) as Hnx.
  { unfold next, SOCK_BACKLOG_MAX. rewrite Z.rem_mod_nonneg by lia. lia. }
  destruct (Z.eqb_spec next (accept_head k)); [done|]. cbn [negb]. cbv zeta.
  change (accept_queue k0) with (accept_queue k). destruct (zset (accept_queue k) (accept_head k) child) as [q|] eqn:Ez;
    [|rewrite zset_lt in Ez by lia; done].
  rewrite bind_assoc. rewrite (kopt_bind _ _ _ q) by done.
  set (s4 := with_ip_id id (with_sockets (<[child:=c]> (sockets s2)) s2)).
  set (k1 := set_accept q (accept_head k) next k0).
  assert (s4 = at_sk a k0 fl s4) as E4.
  { unfold s4, at_sk, with_nflags, with_sockets, with_ip_id, s2, s1, s0. cbn. f_equal.
    symmetry. apply insert_id. rewrite !lookup_insert_ne by done. apply lookup_insert_eq. }
  rewrite E4. kbind (upd_sk_at a (set_accept q (accept_head k) next) k0 fl s4). cbv beta. fold k1.
  rewrite (sk_release_at a k1 fl s4 (nrflags s)) by done.
  do 2 eexists. split; [done|]. split; [apply sockets_at|]. split_and!; try done.
  - exact (zget_zset_eq _ _ _ _ Ez).
  - intros x Hxa Hxc. cbn. by rewrite !lookup_insert_ne.
Qed.

(** A passive open never wakes [accept]: with a thread asleep in [socket_accept] on an idle listener, the SYN of a peer puts
    a connection in the accept queue and the ACK that completes the handshake goes to the listener
    again, because the new socket is in no table; after both the thread still sleeps and no
    thread became runnable, although the accept queue holds the connection. *)
Theorem accept_lost_wakeup nif_send a k child h src sport dst dport seq ack s :
  quiet nif_send → stack_ok s → idle_listener s a k → is32 src → is16 sport → is32 seq →
  find_socket dport SOCK_STREAM src sport s = Done a s →
  kh_alloc SIZEOF_SOCKET 1 (nheap s) = Done child h → child ≠ 0 → sockets s !! child = None →
  ∃ s1 s2 k', tcp_demux nif_send src sport dst dport seq 0 TCP_SYN [] s = Done tt s1 ∧
    tcp_demux nif_send src sport dst dport (u32 (seq + 1)) ack TCP_ACK [] s1 = Done tt s2 ∧
    runnable s2 = runnable s ∧ sockets s2 !! a = Some k' ∧ accept_wq k' = accept_wq k ∧
    accept_head k' ≠ accept_tail k' ∧ zget (accept_queue k') (accept_head k') = Some child.
Proof.
  intros Hqt Hst Hil Hs Hp Hseq Hf Hal Hc Hfresh. pose proof Hil as [Hk Ha Hl Hls _ _ _ _ Htab].
  destruct (listen_syn_spec nif_send a k child h src sport seq s) as
    (s1 & k1 & E1 & Hk1 & Hm & Hl1 & Hw & _ & Hh & Hne & Hz & Hother & Ht & Hrun); [done..|].
  pose proof Hm as (_ & Hst1 & _).
  assert (find_socket dport SOCK_STREAM src sport s1 = Done a s1) as Hf1.
  { apply (find_socket_same _ _ _ _ _ s); [done|done|done|]. intros x kx Hx Hkx. destruct (decide (x = a)) as [->|Hxa].
    - exists k1. split; [done|]. by assert (kx = k) as -> by congruence.
    - exists kx. rewrite Hother; [by split|done|congruence]. }
  exists s1. eexists. eexists. split; [|split; [|split_and!]].
  - rewrite (tcp_demux_run _ a k) by done. unfold tcp_step. rewrite sk_of_at. cbn [sk_state held set_sk_lock]. rewrite Hls. exact E1.
  - rewrite (tcp_demux_run _ a k1) by done. unfold tcp_step. rewrite sk_of_at. cbn [sk_state held set_sk_lock]. rewrite Hst1, Hls.
    change (SOCK_STATE_LISTEN =? SOCK_STATE_LISTEN) with true. change (has TCP_ACK TCP_SYN) with false. cbv iota zeta.
    by apply sk_release_at.
  - done.
  - apply sockets_at.
  - done.
  - cbn. congruence.
  - done.
Qed.
End theorems.

(** A UDP socket with a remote address is never the target of a datagram. *)
Lemma connected_udp_unreachable k port :
  remote_ip k ≠ 0 → sk_state k ≠ SOCK_STATE_LISTEN → exact_match port SOCK_DGRAM 0 0 k = false ∧ wild_match port SOCK_DGRAM k = false.
Proof.
  intros Hr Hs. unfold exact_match, wild_match.
  destruct (Z.eqb_spec (remote_ip k) 0); [done|]. destruct (Z.eqb_spec (sk_state k) SOCK_STATE_LISTEN); [done|].
  by rewrite !andb_false_r.
Qed.

(** A datagram whose metadata fits but whose data does not leaves the metadata alone in the ring. *)
Lemma udp_metadata_alone k q meta data :
  rx_ring k q → Z.of_nat (length q) + Z.of_nat (length meta) ≤ SOCK_RXBUF_SIZE →
  SOCK_RXBUF_SIZE < Z.of_nat (length q) + Z.of_nat (length meta) + Z.of_nat (length data) < 2 ^ 32 →
  ∃ k1, rx_enqueue k meta = Some (0, k1) ∧ rx_enqueue k1 data = Some (-1, k1) ∧ rx_ring k1 (q ++ meta).
Proof.
  intros Hq H1 H2. destruct (rx_enqueue_fits k q meta Hq H1) as (k1 & E1 & Hq1 & _). exists k1. split_and!; [done| |done].
  apply (rx_enqueue_full k1 (q ++ meta)); [done|]. rewrite length_app. lia.
Qed.

(** ** Examples *)

(** Two hosts on one link, each with its interface at the address 16 and the other in its ARP cache. *)
Definition host (ip peer table : Z) (socks : gmap Z Socket) : Net (Heap Z) :=
  mkNet heap_example 0 [16] {[ 16 := mkNif [2; 0; 0; 0; 0; 1] ip (IP4 255 255 255 0) (IP4 10 0 2 2) ]}
    [mkArpEntry peer [2; 0; 0; 0; 0; 2] 1] 1 7 [table] SPINLOCK_INIT 49152 socks [].
Definition ipA : Z := IP4 10 0 2 15.
Definition ipB : Z := IP4 10 0 2 16.
Definition sock (type state lip lport rip rport : Z) : Socket :=
  set_sk_state state (set_remote rip rport (set_local lip lport (new_socket type))).
Definition udpA := sock SOCK_DGRAM 0 0 1024 0 0.
Definition udpB := sock SOCK_DGRAM 0 0 7 0 0.
Definition tcpA := sock SOCK_STREAM SOCK_STATE_ESTABLISHED ipA 1024 ipB 80.
Definition tcpB := sock SOCK_STREAM SOCK_STATE_ESTABLISHED ipB 80 ipA 1024.
Definition listener : Socket := set_wqs [] [5] (sock SOCK_STREAM SOCK_STATE_LISTEN 0 80 0 0).
Definition silent : Z → list Z → K (Net (Heap Z)) Z := λ _ _ s, Done 0 s.

Lemma sock_ring type state lip lport rip rport : rx_ring (sock type state lip lport rip rport) [].
Proof.
  split; [|done]. split; try (cbn; unfold SOCK_RXBUF_SIZE; lia); try done.
Qed.
Lemma host_ok ip peer t m : is32 ip → stack_ok (host ip peer t m).
Proof.
  intros Hip. split; cbn.
  - unfold is16. lia.
  - intros a n [<- <-]%lookup_singleton_Some. split; cbn; try done; vm_compute; done.
  - intros a ->%list_elem_of_singleton. split; [done|]. rewrite lookup_singleton_eq. eauto.
Qed.
Lemma host_route t m dst :
  dst = ipA ∨ dst = ipB →
  route (host ipA dst t m) 16 (mkNif [2; 0; 0; 0; 0; 1] ipA (IP4 255 255 255 0) (IP4 10 0 2 2)) dst [2; 0; 0; 0; 0; 2].
Proof. intros [->| ->]; split; try done; vm_compute; done. Qed.
Lemma silent_quiet : quiet silent.
Proof. by exists 0. Qed.
Lemma sock_wf type state lip lport rip rport :
  is32 lip → is16 lport → is32 rip → is16 rport → sk_wf (sock type state lip lport rip rport).
Proof. by split. Qed.

Lemma ip_example : is32 ipA ∧ is32 ipB.
Proof. vm_compute. done. Qed.

Lemma udp_end_to_end_witness : ∃ frame r1 k1,
  (∀ nif_send, socket_sendto nif_send 100 [1; 2; 3] ipB 7 (host ipA ipB 100 {[ 100 := udpA ]}) =
     (x ← nif_send 16 frame; mret (if x =? 0 then 3 else x)) (with_ip_id 8 (host ipA ipB 100 {[ 100 := udpA ]}))) ∧
  eth_rx silent 16 (frame ++ [0; 0]) (Z.of_nat (length (frame ++ [0; 0]))) (host ipB ipA 200 {[ 200 := udpB ]}) = Done tt r1 ∧
  sockets r1 !! 200 = Some k1 ∧ dg_queue k1 [mkDgram ipA 1024 [1; 2; 3]].
Proof.
  destruct (udp_end_to_end 100 udpA 16 _ _ [1; 2; 3] ipB 7 (host ipA ipB 100 {[ 100 := udpA ]})
    (host_ok ipA _ _ _ (proj1 ip_example)) (host_route 100 _ ipB (or_intror eq_refl))) as (frame & Hs & Hr); try done.
  destruct (Hr silent 16 (mkNif [2; 0; 0; 0; 0; 1] ipB (IP4 255 255 255 0) (IP4 10 0 2 2)) [0; 0] (host ipB ipA 200 {[ 200 := udpB ]})
    200 udpB [] 1 100) as (r1 & k1 & E & Hk & HD & _); try done; try lia.
  - by left.
  - by exists frame, r1, k1.
Defined.

Lemma tcp_end_to_end_witness : ∃ frame ka' r1 k1,
  (∀ nif_send, socket_send nif_send 100 [1; 2; 3] (host ipA ipB 100 {[ 100 := tcpA ]}) =
     (_ ← nif_send 16 frame; mret 3) (with_ip_id 8 (at_sk 100 ka' 0 (host ipA ipB 100 {[ 100 := tcpA ]})))) ∧
  eth_rx silent 16 (frame ++ []) (Z.of_nat (length (frame ++ []))) (host ipB ipA 200 {[ 200 := tcpB ]}) = Done tt r1 ∧
  sockets r1 !! 200 = Some k1 ∧ rx_ring k1 [1; 2; 3] ∧ rcv_nxt k1 = 3.
Proof.
  destruct (tcp_end_to_end 100 tcpA 16 _ _ [1; 2; 3] (host ipA ipB 100 {[ 100 := tcpA ]})
    (host_ok ipA _ _ _ (proj1 ip_example)) (host_route 100 _ ipB (or_intror eq_refl))) as (frame & ka' & Hs & _ & Hr); try done.
  { repeat (apply bytes_cons; split; [lia|]). by apply Forall_nil. }
  destruct (Hr silent 16 (mkNif [2; 0; 0; 0; 0; 1] ipB (IP4 255 255 255 0) (IP4 10 0 2 2)) [] (host ipB ipA 200 {[ 200 := tcpB ]})
    200 tcpB [] 1 100 silent_quiet (host_ok ipB _ _ _ (proj2 ip_example))) as (r1 & k1 & E & Hk & HD & Hrcv & _); try done; try lia.
  - by left.
  - by exists frame, ka', r1, k1.
Defined.

Lemma tcp_any_address_dropped_witness : ∃ frame,
  (∀ nif_send, tcp_send nif_send 16 0 80 ipB 1024 2000 1 18 [] (host ipA ipB 0 ∅) =
     nif_send 16 frame (with_ip_id 8 (host ipA ipB 0 ∅))) ∧
  eth_rx silent 16 (frame ++ []) (Z.of_nat (length (frame ++ []))) (host ipB ipA 200 {[ 200 := tcpB ]}) =
    Done tt (host ipB ipA 200 {[ 200 := tcpB ]}).
Proof.
  destruct (tcp_any_address_dropped 16 _ _ 80 ipB 1024 2000 1 18 [] (host ipA ipB 0 ∅)
    (host_ok ipA _ _ _ (proj1 ip_example)) (host_route 0 ∅ ipB (or_intror eq_refl))) as (frame & Hs & Hr); try done; [by apply Forall_nil|].
  exists frame. split; [done|].
  apply (Hr silent 16 (mkNif [2; 0; 0; 0; 0; 1] ipB (IP4 255 255 255 0) (IP4 10 0 2 2))); [done|by left|done].
Defined.

Definition outcome_val {S} (o : outcome S Z) : option Z := match o with Done a _ => Some a | _ => None end.
Lemma outcome_val_Done {S} (o : outcome S Z) a : outcome_val o = Some a → ∃ s, o = Done a s.
Proof. destruct o; [|done..]. intros [= ->]. eauto. Qed.

Definition listening : Net (Heap Z) := host ipB ipA 200 {[ 200 := listener ]}.
Definition child : Z := 18446744072635810256.
Lemma listening_idle : idle_listener listening 200 listener.
Proof. split; try done. intros x ->%list_elem_of_singleton _. by exists listener. Qed.
Lemma listening_found : find_socket 80 SOCK_STREAM ipA 1024 listening = Done 200 listening.
Proof. vm_compute. reflexivity. Qed.
Lemma listening_fresh : sockets listening !! child = None.
Proof. apply lookup_singleton_ne. discriminate. Qed.
Lemma listening_alloc : ∃ h, kh_alloc SIZEOF_SOCKET 1 (nheap listening) = Done child h.
Proof. apply outcome_val_Done. vm_compute. reflexivity. Qed.

Lemma accept_lost_wakeup_witness : ∃ s1 s2 k',
  tcp_demux silent ipA 1024 ipB 80 9 0 TCP_SYN [] listening = Done tt s1 ∧
  tcp_demux silent ipA 1024 ipB 80 10 2001 TCP_ACK [] s1 = Done tt s2 ∧
  runnable s2 = [] ∧ sockets s2 !! 200 = Some k' ∧ accept_wq k' = [5] ∧ accept_head k' ≠ accept_tail k'.
Proof.
  destruct listening_alloc as [h E].
  destruct (accept_lost_wakeup silent 200 listener child h ipA 1024 ipB 80 9 2001 listening silent_quiet
    (host_ok ipB _ _ _ (proj2 ip_example)) listening_idle (proj1 ip_example) ltac:(split; lia) ltac:(split; lia) listening_found E
    ltac:(discriminate) listening_fresh) as (s1 & s2 & k' & E1 & E2 & Hr & Hk & Hw & Hne & _).
  exists s1, s2, k'. split; [exact E1|]. split; [exact E2|]. split; [exact Hr|]. split; [exact Hk|]. split; [exact Hw|exact Hne].
Defined.

(** An ICMP packet whose total length is less than its header makes the receiver read past the packet. *)
Definition short_packet : list Z :=
  let hdr ck := mkIp 0x45 0 (htons 10) 0 0 64 IPV4_PROTO_ICMP ck ipA ipB in
  ip_bytes (hdr (htons (default 0 (net_checksum (ip_bytes (hdr 0)))))).
Lemma ipv4_short_total_length : ipv4_rx silent 16 short_packet 20 (host ipB ipA 0 ∅) = Stuck.
Proof. vm_compute. reflexivity. Qed.

(** Without another interface the loopback interface is the default one, and every packet for it is
    dropped for want of an ARP entry. *)
Lemma loopback_drops (h : Heap Z) :
  ∃ s, net_init (mkNet h 0 [] ∅ [] 0 1 [] SPINLOCK_INIT 49152 ∅ []) = Done tt s ∧ interfaces s = [LO_NIF] ∧
    udp_send silent LO_NIF 1024 (IP4 127 0 0 1) 7 [] s = Done (-1) (with_ip_id 2 s).
Proof. eexists. split; [vm_compute; reflexivity|]. split; vm_compute; reflexivity. Qed.
