(* ===== verification/Fd.v ===== *)
(** * File descriptors

    [kernel/proc/fd.c] and the system calls of [kernel/arch/x86_64/syscall.c] that make,
    copy and close descriptors, with the pipes they refer to.  A descriptor names an
    end of a pipe, another node or, for a socket, no node; the two nodes of a pipe lie
    inside the pipe, so a node and its end determine each other. *)
From S2P Require Import Prelude KHeap Pipe.

Definition MAX_FDS : Z := 64.
Definition O_RDONLY : Z := 0.
Definition O_WRONLY : Z := 1.
Definition EBADF : Z := 9.
Definition ENOMEM : Z := 12.
Definition SIZEOF_FDTABLE : Z := 2048.
Definition SIZEOF_PIPE : Z := 4304.

Inductive Node : Type := NoNode | PipeEnd (p : Z) (e : End) | OtherNode (a : Z).
#[export] Instance End_eq_dec : EqDecision End.
Proof. solve_decision. Defined.
#[export] Instance Node_eq_dec : EqDecision Node.
Proof. solve_decision. Defined.

Record VfsFile : Type := mkFile { node : Node; offset : Z; flags : Z }.
Record FdEntry : Type := mkEntry { file : VfsFile; in_use : Z }.
Definition used (e : FdEntry) : bool := negb (in_use e =? 0).
Definition zero_entry : FdEntry := mkEntry (mkFile NoNode 0 0) 0.

(** ** One table *)

Definition fd_table_init : list FdEntry := replicate (Z.to_nat MAX_FDS) zero_entry.
Fixpoint alloc_loop (t : list FdEntry) (i : Z) : Z * list FdEntry :=
  match t with
  | [] => (-1, [])
  | e :: t' => if used e then let '(r, t'') := alloc_loop t' (i + 1) in (r, e :: t'') else (i, mkEntry (file e) 1 :: t')
  end.
Definition fd_alloc (t : list FdEntry) : Z * list FdEntry := alloc_loop t 0.
Definition fd_free (t : list FdEntry) (fd : Z) : option (list FdEntry) :=
  if (0 <=? fd) && (fd <? MAX_FDS) then e ← zget t fd; zset t fd (mkEntry (file e) 0) else Some t.
(** The entry, or [None] for NULL; the outer [None] is an access outside the table. *)
Definition fd_get (t : list FdEntry) (fd : Z) : option (option FdEntry) :=
  if (fd <? 0) || (MAX_FDS <=? fd) then Some None else
  e ← zget t fd; Some (if used e then Some e else None).

(** ** The tables and the pipes *)

Record Fds (H : Type) : Type := mkFds { dheap : H; fd_tables : gmap Z (list FdEntry); pipes : gmap Z PipeNode }.
Arguments mkFds {H}.
Arguments dheap {H}.
Arguments fd_tables {H}.
Arguments pipes {H}.

Section fd.
Context {H : Type} `{KHeap H}.
Implicit Types (s : Fds H).

Definition with_dheap (h : H) s : Fds H := mkFds h (fd_tables s) (pipes s).
Definition with_tables (m : gmap Z (list FdEntry)) s : Fds H := mkFds (dheap s) m (pipes s).
Definition with_pipes (m : gmap Z PipeNode) s : Fds H := mkFds (dheap s) (fd_tables s) m.
Definition d_alloc (size flags : Z) : K (Fds H) Z := zoom dheap with_dheap (kh_alloc size flags).
Definition d_free (a : Z) : K (Fds H) unit := zoom dheap with_dheap (kh_free a).

Definition table (ft : Z) : K (Fds H) (list FdEntry) := kopt (λ s, fd_tables s !! ft).
Definition set_table (ft : Z) (t : list FdEntry) : K (Fds H) unit := kmod (λ s, with_tables (<[ft := t]> (fd_tables s)) s).
Definition set_entry (ft fd : Z) (e : FdEntry) : K (Fds H) unit :=
  kupd (λ s, t ← fd_tables s !! ft; t' ← zset t fd e; Some (with_tables (<[ft := t']> (fd_tables s)) s)).

Definition free_entry (ft fd : Z) : K (Fds H) unit :=
  kupd (λ s, t ← fd_tables s !! ft; t' ← fd_free t fd; Some (with_tables (<[ft := t']> (fd_tables s)) s)).

(** [pipe_close] and [pipe_addref] on a node that is an end of a pipe, and nothing on another one. *)
Definition close_node (n : Node) : K (Fds H) unit :=
  match n with
  | PipeEnd a e =>
      p ← kopt (λ s, pipes s !! a);
      let '(p', freed) := pipe_close e p in
      if freed : bool then kmod (λ s, with_pipes (delete a (pipes s)) s);; d_free a
      else kmod (λ s, with_pipes (<[a := p']> (pipes s)) s)
  | _ => mret tt
  end.
Definition addref_node (n : Node) : K (Fds H) unit :=
  match n with
  | PipeEnd a e =>
      p ← kopt (λ s, pipes s !! a);
      kmod (λ s, with_pipes (<[a := pipe_addref e p]> (pipes s)) s)
  | _ => mret tt
  end.

(** The address of the copy, or 0. *)
Definition fd_table_dup (src : Z) : K (Fds H) Z :=
  if src =? 0 then mret 0 else
  dst ← d_alloc SIZEOF_FDTABLE 0;
  if dst =? 0 then mret 0 else
  t ← table src;
  set_table dst t;;
  kfor t (λ e, if used e then addref_node (node (file e)) else mret tt);;
  mret dst.

(** ** System calls on the table [ft] of the calling process *)

Definition sys_close (ft fd : Z) : K (Fds H) Z :=
  t ← table ft;
  f ← kopt (λ _, fd_get t fd);
  match f with
  | None => mret (- EBADF)
  | Some e =>
      close_node (node (file e));;
      set_entry ft fd (mkEntry (mkFile NoNode 0 0) (in_use e));;
      free_entry ft fd;;
      mret 0
  end.

Definition sys_dup (ft oldfd : Z) : K (Fds H) Z :=
  t ← table ft;
  f ← kopt (λ _, fd_get t oldfd);
  match f with
  | None => mret (- EBADF)
  | Some e =>
      let '(newfd, t') := fd_alloc t in
      if newfd <? 0 then mret (- ENOMEM) else
      set_table ft t';;
      set_entry ft newfd (mkEntry (file e) 1);;
      addref_node (node (file e));;
      mret newfd
  end.

Definition sys_dup2 (ft oldfd newfd : Z) : K (Fds H) Z :=
  if (MAX_FDS <=? oldfd) || (MAX_FDS <=? newfd) then mret (- EBADF) else
  if oldfd =? newfd then mret newfd else
  t ← table ft;
  f ← kopt (λ _, fd_get t oldfd);
  match f with
  | None => mret (- EBADF)
  | Some e =>
      d ← kopt (λ _, zget t newfd);
      (if used d then close_node (node (file d));; set_entry ft newfd (mkEntry (file d) 0) else mret tt);;
      set_entry ft newfd (mkEntry (file e) 1);;
      addref_node (node (file e));;
      mret newfd
  end.

(** The descriptor part of [sys_open]: [r] is what [vfs_open] does, an error or the open file, never an end of a pipe. *)
Definition sys_open (ft : Z) (r : Z + VfsFile) : K (Fds H) Z :=
  t ← table ft;
  let '(fd, t') := fd_alloc t in
  if fd <? 0 then mret (- ENOMEM) else
  set_table ft t';;
  match r with
  | inl err => free_entry ft fd;; mret err
  | inr f => set_entry ft fd (mkEntry f 1);; mret fd
  end.

(** The table of a new process ([init_launch]); the address or 0. *)
Definition new_table : K (Fds H) Z :=
  a ← d_alloc SIZEOF_FDTABLE 0;
  if a =? 0 then mret 0 else
  set_table a fd_table_init;;
  mret a.

(** The result and, when it is 0, the two descriptors. *)
Definition sys_pipe (ft : Z) : K (Fds H) (Z * Z * Z) :=
  a ← d_alloc SIZEOF_PIPE 1;
  if a =? 0 then mret (- ENOMEM, 0, 0) else
  kmod (λ s, with_pipes (<[a := pipe_create]> (pipes s)) s);;
  t ← table ft;
  let '(rfd, t1) := fd_alloc t in
  set_table ft t1;;
  if rfd <? 0 then
    close_node (PipeEnd a ReadEnd);; close_node (PipeEnd a WriteEnd);; mret (- ENOMEM, 0, 0)
  else
  let '(wfd, t2) := fd_alloc t1 in
  set_table ft t2;;
  if wfd <? 0 then
    free_entry ft rfd;;
    close_node (PipeEnd a ReadEnd);; close_node (PipeEnd a WriteEnd);; mret (- ENOMEM, 0, 0)
  else
  set_entry ft rfd (mkEntry (mkFile (PipeEnd a ReadEnd) 0 O_RDONLY) 1);;
  set_entry ft wfd (mkEntry (mkFile (PipeEnd a WriteEnd) 0 O_WRONLY) 1);;
  mret (0, rfd, wfd).

(** The loop of [sys_exit] over the descriptors. *)
Definition exit_step (ft i : Z) : K (Fds H) unit :=
  t ← table ft;
  e ← kopt (λ _, zget t i);
  if used e then
    close_node (node (file e));;
    set_entry ft i (mkEntry (file e) 0)
  else mret tt.
Definition exit_close (ft : Z) : K (Fds H) unit :=
  if ft =? 0 then mret tt else kfor (seqZ 0 MAX_FDS) (exit_step ft).
End fd.
