(* ===== verification/FdCorrect.v ===== *)
(** * Correctness of file descriptors

    The reference counts of a pipe are the numbers of descriptors, in all the tables, that
    name its two ends; every system call on descriptors keeps it so, and no
    call touches a pipe that was freed. *)
From S2P Require Import Prelude PageAlloc Kmalloc KmallocCorrect KHeap Pipe Fd.

(** ** Counting references *)

(** What a node, an entry, a table contribute to the references to the end [e] of the pipe [a]. *)
Definition one (n : Node) (a : Z) (e : End) : Z := if decide (n = PipeEnd a e) then 1 else 0.
Definition ent (en : FdEntry) (a : Z) (e : End) : Z := if used en then one (node (file en)) a e else 0.
Fixpoint tab (t : list FdEntry) (a : Z) (e : End) : Z :=
  match t with [] => 0 | en :: t' => ent en a e + tab t' a e end.
Fixpoint tabs (l : list (Z * list FdEntry)) (a : Z) (e : End) : Z :=
  match l with [] => 0 | (_, t) :: l' => tab t a e + tabs l' a e end.

Lemma one_range n a e : 0 ≤ one n a e ≤ 1.
Proof. unfold one. case_decide; lia. Qed.
Lemma fd_ent_range en a e : 0 ≤ ent en a e ≤ 1.
Proof. unfold ent. pose proof (one_range (node (file en)) a e). destruct (used en); lia. Qed.
Lemma tab_range t a e : 0 ≤ tab t a e ≤ Z.of_nat (length t).
Proof. induction t as [|en t IH]; cbn; [lia|]. pose proof (fd_ent_range en a e). lia. Qed.
Lemma tab_insert t i en en' a e :
  t !! i = Some en → tab (<[i := en']> t) a e = tab t a e - ent en a e + ent en' a e.
Proof.
  revert i. induction t as [|x t IH]; intros [|i] Hi; try done.
  - injection Hi as ->. cbn. lia.
  - change (<[S i := en']> (x :: t)) with (x :: <[i := en']> t). cbn [tab]. rewrite (IH i) by done. lia.
Qed.
Lemma tab_zset t i en en' t' a e :
  zget t i = Some en → zset t i en' = Some t' → tab t' a e = tab t a e - ent en a e + ent en' a e.
Proof.
  intros Hg [Hr ->]%zset_Some. apply tab_insert. unfold zget in Hg. by destruct (i <? 0).
Qed.
Lemma tab_lookup t i en a e : zget t i = Some en → ent en a e ≤ tab t a e.
Proof.
  unfold zget. destruct (i <? 0); [done|]. generalize (Z.to_nat i). clear i. intros i. revert i.
  induction t as [|x t IH]; intros [|i] Hi; try done; cbn in *.
  - injection Hi as ->. pose proof (tab_range t a e). lia.
  - specialize (IH i Hi). pose proof (fd_ent_range x a e). lia.
Qed.
Lemma tabs_perm l k a e : l ≡ₚ k → tabs l a e = tabs k a e.
Proof. induction 1 as [|[? ?]|[? ?] [? ?]|]; cbn; lia. Qed.
Definition refs (m : gmap Z (list FdEntry)) : Z → End → Z := tabs (map_to_list m).

Lemma refs_delete m ft t a e : m !! ft = Some t → refs m a e = tab t a e + refs (delete ft m) a e.
Proof.
  intros Ht. unfold refs. rewrite <-(insert_delete_id m ft t Ht) at 1.
  by rewrite (tabs_perm _ _ _ _ (map_to_list_insert _ _ _ (lookup_delete_eq m ft))).
Qed.
Lemma refs_insert m ft t t' a e : m !! ft = Some t → refs (<[ft := t']> m) a e = refs m a e - tab t a e + tab t' a e.
Proof.
  intros Ht. rewrite (refs_delete m ft t) by done.
  rewrite (refs_delete (<[ft := t']> m) ft t') by apply lookup_insert_eq. rewrite delete_insert_eq. lia.
Qed.
Lemma refs_insert_new m ft t a e : m !! ft = None → refs (<[ft := t]> m) a e = refs m a e + tab t a e.
Proof.
  intros Ht. unfold refs. rewrite (tabs_perm _ _ _ _ (map_to_list_insert _ _ _ Ht)). cbn. lia.
Qed.
Lemma refs_nonneg m a e : 0 ≤ refs m a e.
Proof.
  unfold refs. induction (map_to_list m) as [|[ft t] l IH]; cbn; [lia|]. pose proof (tab_range t a e). lia.
Qed.
Lemma refs_bound m a e :
  (∀ ft t, m !! ft = Some t → Z.of_nat (length t) = MAX_FDS) → refs m a e ≤ 64 * Z.of_nat (size m).
Proof.
  intros Hl. unfold refs. rewrite <-length_map_to_list.
  assert (∀ x, x ∈ map_to_list m → Z.of_nat (length x.2) = 64) as Hx.
  { intros [ft t] Hx%elem_of_map_to_list. by apply (Hl ft). }
  induction (map_to_list m) as [|[ft t] l IH]; cbn; [lia|].
  pose proof (tab_range t a e). pose proof (Hx (ft, t) ltac:(by left)). cbn in *.
  assert (tabs l a e ≤ 64 * Z.of_nat (length l)) by (apply IH; intros; apply Hx; by right). lia.
Qed.

(** ** The invariant *)

Definition end_count (e : End) (p : PipeNode) : Z := match e with ReadEnd => reader_count p | WriteEnd => writer_count p end.
Definition cnt (m : gmap Z PipeNode) (a : Z) (e : End) : Z := match m !! a with Some p => end_count e p | None => 0 end.
Definition MAX_TABLES : Z := 2 ^ 25.

Section inv.
Context {H : Type} `{KHeap H}.
Implicit Types (s : Fds H) (d : Z → End → Z).

(** The counts are the references plus [d], the references that are being made or dropped. *)
Record fds_inv s d : Prop := {
  fi_heap : kh_ok (dheap s);
  fi_table ft t : fd_tables s !! ft = Some t → Z.of_nat (length t) = MAX_FDS ∧ ft ∈ kh_live (dheap s) ∧ pipes s !! ft = None;
  fi_pipe a p : pipes s !! a = Some p → a ∈ kh_live (dheap s) ∧ 0 < reader_count p + writer_count p;
  fi_size : Z.of_nat (size (fd_tables s)) ≤ MAX_TABLES;
  fi_cnt a e : cnt (pipes s) a e = refs (fd_tables s) a e + d a e;
  fi_range a e : 0 ≤ cnt (pipes s) a e;
}.
Definition none : Z → End → Z := λ _ _, 0.
Definition fds_ok s : Prop := fds_inv s none.

Lemma fds_inv_ext s d d' : (∀ a e, d a e = d' a e) → fds_inv s d → fds_inv s d'.
Proof. intros Hd []. split; try done. intros. rewrite <-Hd. auto. Qed.

Lemma refs_small s d a e : fds_inv s d → 0 ≤ refs (fd_tables s) a e ≤ 2 ^ 31.
Proof.
  intros [_ Ht _ Hs _ _]. split; [apply refs_nonneg|]. etrans; [apply refs_bound; intros; by eapply Ht|].
  unfold MAX_TABLES in Hs. lia.
Qed.

(** Changing an entry. *)
Lemma set_table_inv s d ft t t' :
  fds_inv s d → fd_tables s !! ft = Some t → length t' = length t →
  fds_inv (with_tables (<[ft := t']> (fd_tables s)) s) (λ a e, d a e + tab t a e - tab t' a e).
Proof.
  intros [Hh Ht Hp Hs Hc Hr] Hft Hl. split; cbn; try done.
  - intros ft' t0. destruct (decide (ft' = ft)) as [->|].
    + rewrite lookup_insert_eq. intros [= <-]. rewrite Hl. by apply Ht.
    + rewrite lookup_insert_ne by done. apply Ht.
  - rewrite map_size_insert_Some by done. done.
  - intros a e. rewrite (refs_insert _ _ t) by done. rewrite Hc. lia.
Qed.
Lemma set_entry_inv s d ft t fd en en' :
  fds_inv s d → fd_tables s !! ft = Some t → zget t fd = Some en →
  ∃ t', zset t fd en' = Some t' ∧
    set_entry ft fd en' s = Done tt (with_tables (<[ft := t']> (fd_tables s)) s) ∧
    fds_inv (with_tables (<[ft := t']> (fd_tables s)) s) (λ a e, d a e + ent en a e - ent en' a e).
Proof.
  intros Hi Hft Hg. destruct (zset t fd en') as [t'|] eqn:Hz; [|rewrite zset_lt in Hz; [done|by eapply zget_Some_range]].
  exists t'. split; [done|]. split; [unfold set_entry, kupd; rewrite Hft; cbn; by rewrite Hz|].
  eapply fds_inv_ext; [|by apply (set_table_inv s d ft t); [| |eapply length_zset]].
  intros a e. cbn. rewrite (tab_zset _ _ _ _ _ a e Hg Hz). lia.
Qed.

(** Adding and dropping a reference. *)
Definition is_pipe (n : Node) : Prop := match n with PipeEnd _ _ => True | _ => False end.
Lemma one_not_pipe n a e : ¬ is_pipe n → one n a e = 0.
Proof. unfold one. intros Hn. case_decide; [by subst|done]. Qed.
Lemma cnt_insert m a p a' e' : cnt (<[a := p]> m) a' e' = if decide (a' = a) then end_count e' p else cnt m a' e'.
Proof. unfold cnt. case_decide; [subst; by rewrite lookup_insert_eq|by rewrite lookup_insert_ne]. Qed.

Lemma addref_inv s d n :
  fds_inv s d → (∀ a e, d a e + one n a e ≤ 0) → (∀ a e, n = PipeEnd a e → is_Some (pipes s !! a)) →
  ∃ s', addref_node n s = Done tt s' ∧ fds_inv s' (λ a e, d a e + one n a e) ∧
    fd_tables s' = fd_tables s ∧ dom (pipes s') = dom (pipes s).
Proof.
  intros Hi Hd Hn. destruct n as [|a e|x].
  1, 3: exists s; split_and!; [done| |done|done]; eapply fds_inv_ext; [|exact Hi]; intros; rewrite one_not_pipe by auto; lia.
  destruct (Hn a e eq_refl) as [p Hp]. unfold addref_node. rewrite (kopt_bind _ _ _ p) by done. unfold kmod.
  pose proof (refs_small s d) as Hsm. destruct Hi as [Hh Ht Hpi Hs Hc Hr].
  eexists. split; [done|]. split; [|cbn; split; [done|]; rewrite dom_insert_L; apply elem_of_dom_2 in Hp; set_solver].
  assert (end_count e (pipe_addref e p) = end_count e p + 1) as He.
  { pose proof (Hc a e) as Hca. unfold cnt in Hca. rewrite Hp in Hca.
    pose proof (Hsm a e ltac:(by split)). pose proof (Hd a e) as Hda. pose proof (Hr a e) as Hra. unfold cnt in Hra. rewrite Hp in Hra.
    unfold one in Hda. rewrite decide_True in Hda by done. destruct e; cbn in *; apply u32_small; lia. }
  assert (∀ e', e' ≠ e → end_count e' (pipe_addref e p) = end_count e' p) as He' by (intros [] ?; destruct e; done).
  assert (∀ a' e', cnt (<[a := pipe_addref e p]> (pipes s)) a' e' = cnt (pipes s) a' e' + one (PipeEnd a e) a' e') as Hcnt.
  { intros a' e'. rewrite cnt_insert. unfold one, cnt. destruct (decide (a' = a)) as [->|Hne].
    - rewrite Hp. destruct (decide (e' = e)) as [->|Hee]; [rewrite He, decide_True by done; lia|].
      rewrite He' by done. rewrite decide_False by congruence. lia.
    - rewrite decide_False by congruence. lia. }
  split; cbn; try done.
  - intros ft t Hft. destruct (Ht ft t Hft) as (? & ? & Hn'). split_and!; [done..|]. rewrite lookup_insert_ne; [done|congruence].
  - intros a' p' Hp'. destruct (decide (a' = a)) as [->|]; [|rewrite lookup_insert_ne in Hp' by done; by apply Hpi].
    rewrite lookup_insert_eq in Hp'. injection Hp' as <-. destruct (Hpi a p Hp) as [? Hpos]. split; [done|].
    destruct e; cbn in He |- *; lia.
  - intros a' e'. rewrite Hcnt, Hc. lia.
  - intros a' e'. rewrite Hcnt. pose proof (Hr a' e'). pose proof (one_range (PipeEnd a e) a' e'). lia.
Qed.

Lemma cnt_delete m a a' e' : cnt (delete a m) a' e' = if decide (a' = a) then 0 else cnt m a' e'.
Proof. unfold cnt. case_decide; [subst; by rewrite lookup_delete_eq|by rewrite lookup_delete_ne]. Qed.

(** The counts of a pipe after [pipe_close]. *)
Lemma pipe_close_count e p :
  1 ≤ end_count e p < 2 ^ 32 →
  (∀ e', end_count e' (pipe_close e p).1 = end_count e' p - if decide (e' = e) then 1 else 0) ∧
  (pipe_close e p).2 = bool_decide (reader_count (pipe_close e p).1 + writer_count (pipe_close e p).1 = 0 ∧
    reader_count (pipe_close e p).1 = 0).
Proof.
  intros Hr. split.
  - intros e'. case_decide; destruct e', e; try done; cbn in *; rewrite ?u32_small by lia; lia.
  - unfold pipe_close. set (p' := match e with ReadEnd => _ | WriteEnd => _ end). cbn [fst snd].
    case_bool_decide; lia.
Qed.

Lemma close_inv s d n :
  fds_inv s d → (∀ a e, d a e ≤ 1) → (∀ a e, n = PipeEnd a e → 1 ≤ cnt (pipes s) a e) →
  ∃ s', close_node n s = Done tt s' ∧ fds_inv s' (λ a e, d a e - one n a e) ∧ fd_tables s' = fd_tables s.
Proof.
  intros Hi Hd Hn. destruct n as [|a e|x].
  1, 3: exists s; split_and!; [done| |done]; eapply fds_inv_ext; [|exact Hi]; intros; rewrite one_not_pipe by auto; lia.
  specialize (Hn a e eq_refl). pose proof (refs_small s d a e Hi) as Hsm. destruct Hi as [Hh Ht Hpi Hs Hc Hr].
  destruct (pipes s !! a) as [p|] eqn:Hp; [|unfold cnt in Hn; rewrite Hp in Hn; lia].
  assert (1 ≤ end_count e p < 2 ^ 32) as Hrange.
  { pose proof (Hc a e) as Hca. pose proof (Hd a e). unfold cnt in *. rewrite Hp in *. lia. }
  destruct (pipe_close_count e p Hrange) as [Hcl Hfr].
  unfold close_node. rewrite (kopt_bind _ _ _ p) by done. destruct (pipe_close e p) as [p' freed]. cbn [fst snd] in *. subst freed.
  assert (∀ e', end_count e' p = cnt (pipes s) a e') as Hold by (intros; unfold cnt; by rewrite Hp).
  assert (∀ e', 0 ≤ end_count e' p') as Hge.
  { intros e'. rewrite Hcl. pose proof (Hr a e'). pose proof (Hold e'). case_decide; subst; lia. }
  pose proof (Hge ReadEnd) as HgR. pose proof (Hge WriteEnd) as HgW. cbn in HgR, HgW.
  case_bool_decide as Hz.
  - (* the last reference: the pipe is freed *)
    destruct (kh_free_law (dheap s) a Hh) as (h' & Ef & Hh' & Hl' & _); [by eapply Hpi|].
    rewrite kmod_bind. unfold d_free, zoom. cbn [dheap with_pipes]. rewrite Ef.
    eexists. split; [done|]. split; [|done].
    assert (∀ e', end_count e' p' = 0) as Hz' by (intros []; cbn; lia).
    assert (∀ a' e', cnt (delete a (pipes s)) a' e' = cnt (pipes s) a' e' - one (PipeEnd a e) a' e') as Hcnt.
    { intros a' e'. rewrite cnt_delete. unfold one. destruct (decide (a' = a)) as [->|].
      - pose proof (Hcl e') as Hce. rewrite Hz', Hold in Hce. destruct (decide (e' = e)) as [->|]; [rewrite decide_True by done; lia|].
        rewrite decide_False by congruence. lia.
      - rewrite decide_False by congruence. lia. }
    split; cbn; try done.
    + intros ft t Hft. destruct (Ht ft t Hft) as (? & ? & Hn'). split_and!; [done| |].
      * rewrite Hl'. assert (ft ≠ a) by congruence. set_solver.
      * destruct (decide (ft = a)); [congruence|]. by rewrite lookup_delete_ne.
    + intros a' p2 [Hne Hp2]%lookup_delete_Some. destruct (Hpi a' p2 Hp2). split; [rewrite Hl'; set_solver|done].
    + intros a' e'. rewrite Hcnt, Hc. lia.
    + intros a' e'. rewrite cnt_delete. case_decide; [lia|apply Hr].
  - eexists. split; [done|]. split; [|done].
    assert (∀ a' e', cnt (<[a := p']> (pipes s)) a' e' = cnt (pipes s) a' e' - one (PipeEnd a e) a' e') as Hcnt.
    { intros a' e'. rewrite cnt_insert. unfold one. destruct (decide (a' = a)) as [->|].
      - rewrite Hcl, Hold. destruct (decide (e' = e)) as [->|]; [rewrite decide_True by done; lia|].
        rewrite decide_False by congruence. lia.
      - rewrite decide_False by congruence. lia. }
    split; cbn; try done.
    + intros ft t Hft. destruct (Ht ft t Hft) as (? & ? & Hn'). split_and!; [done..|]. rewrite lookup_insert_ne; [done|congruence].
    + intros a' p2 Hp2. destruct (decide (a' = a)) as [->|]; [|rewrite lookup_insert_ne in Hp2 by done; by apply Hpi].
      rewrite lookup_insert_eq in Hp2. injection Hp2 as <-. destruct (Hpi a p Hp) as [? _]. split; [done|]. lia.
    + intros a' e'. rewrite Hcnt, Hc. lia.
    + intros a' e'. rewrite cnt_insert. case_decide; [apply Hge|apply Hr].
Qed.

(** ** Allocating and reading entries *)

Lemma alloc_loop_spec t i r t' :
  alloc_loop t i = (r, t') → 0 ≤ i →
  (r = -1 ∧ t' = t) ∨
  (∃ n en, r = i + Z.of_nat n ∧ t !! n = Some en ∧ used en = false ∧ t' = <[n := mkEntry (file en) 1]> t).
Proof.
  revert i r t'. induction t as [|en t IH]; intros i r t' E Hi; cbn in E.
  - injection E as <- <-. by left.
  - destruct (used en) eqn:Hu.
    + destruct (alloc_loop t (i + 1)) as [r0 t0] eqn:E0. injection E as <- <-.
      destruct (IH _ _ _ E0 ltac:(lia)) as [[-> ->]|(n & en' & -> & Hn & Hu' & ->)]; [by left|].
      right. exists (S n), en'. split_and!; [lia|done|done|done].
    + injection E as <- <-. right. exists 0%nat, en. split_and!; [lia|done|done|done].
Qed.
(** A new descriptor is a free entry of the table, which only becomes used. *)
Lemma fd_alloc_spec t r t' :
  fd_alloc t = (r, t') →
  (r = -1 ∧ t' = t) ∨
  (∃ en, 0 ≤ r ∧ zget t r = Some en ∧ used en = false ∧ zset t r (mkEntry (file en) 1) = Some t').
Proof.
  intros E. destruct (alloc_loop_spec t 0 r t' E ltac:(lia)) as [?|(n & en & -> & Hn & Hu & ->)]; [by left|].
  right. exists en. rewrite Z.add_0_l, zget_nat. split_and!; [lia|done|done|].
  rewrite zset_lt by (apply lookup_lt_Some in Hn; lia). by rewrite Nat2Z.id.
Qed.
Lemma fd_get_spec t fd :
  Z.of_nat (length t) = MAX_FDS →
  fd_get t fd = Some None ∨ (∃ en, fd_get t fd = Some (Some en) ∧ zget t fd = Some en ∧ used en = true ∧ 0 ≤ fd < MAX_FDS).
Proof.
  intros Hl. unfold fd_get. destruct (Z.ltb_spec fd 0); [by left|]. destruct (Z.leb_spec MAX_FDS fd); [by left|]. cbn.
  destruct (zget_lt t fd) as [en Hg]; [lia|]. rewrite Hg. cbn. destruct (used en) eqn:Hu; [|by left].
  right. exists en. done.
Qed.
Lemma ent_used en a e : used en = true → ent en a e = one (node (file en)) a e.
Proof. unfold ent. by intros ->. Qed.
Lemma ent_unused en a e : used en = false → ent en a e = 0.
Proof. unfold ent. by intros ->. Qed.
Lemma ent_set f a e : ent (mkEntry f 1) a e = one (node f) a e.
Proof. done. Qed.

(** A used entry holds a reference. *)
Lemma held_ref s d ft t fd en :
  fds_inv s d → fd_tables s !! ft = Some t → zget t fd = Some en → used en = true →
  ∀ a e, node (file en) = PipeEnd a e → 1 ≤ refs (fd_tables s) a e.
Proof.
  intros Hi Hft Hg Hu a e Hn. rewrite (refs_delete _ _ _ a e Hft). pose proof (tab_lookup t fd en a e Hg) as Hl.
  rewrite (ent_used _ _ _ Hu) in Hl. unfold one in Hl. rewrite decide_True in Hl by done.
  pose proof (refs_nonneg (delete ft (fd_tables s)) a e). lia.
Qed.

(** ** The calls *)

Ltac inv_ext H := eapply fds_inv_ext; [|exact H]; intros ? ?; cbv beta; unfold none.
(** A call from a state that satisfies the invariant stops the machine, because the heap cannot grow, or keeps the invariant;
    the tables of the other processes are as before. *)
Definition kept {A} s (ft : Z) (o : outcome (Fds H) A) : Prop :=
  (∃ s', o = Panic s' ∧ kh_full (dheap s')) ∨
  (∃ r s', o = Done r s' ∧ fds_ok s' ∧ is_Some (fd_tables s' !! ft) ∧
     ∀ ft' t', ft' ≠ ft → fd_tables s !! ft' = Some t' → fd_tables s' !! ft' = Some t').

Lemma kept_same {A} s ft t (r : A) : fds_ok s → fd_tables s !! ft = Some t → kept s ft (Done r s).
Proof. intros Hs Hft. right. exists r, s. by rewrite Hft. Qed.
Lemma kept_tables {A} s s' ft t (r : A) :
  fds_ok s' → fd_tables s' = <[ft := t]> (fd_tables s) → kept s ft (Done r s').
Proof.
  intros Hs E. right. exists r, s'. rewrite E, lookup_insert_eq. split_and!; [done|done|done|].
  intros ft' t' Hne Ht. by rewrite lookup_insert_ne.
Qed.
Lemma table_bind {A} s ft t (f : list FdEntry → K (Fds H) A) : fd_tables s !! ft = Some t → (table ft ≫= f) s = f t s.
Proof. intros Ht. by apply (kopt_bind (λ s, fd_tables s !! ft)). Qed.
Lemma set_table_bind {A} s ft t (f : unit → K (Fds H) A) :
  (set_table ft t ≫= f) s = f tt (with_tables (<[ft := t]> (fd_tables s)) s).
Proof. done. Qed.
Lemma free_entry_inv s d ft t fd en :
  fds_inv s d → fd_tables s !! ft = Some t → zget t fd = Some en → 0 ≤ fd < MAX_FDS →
  ∃ t', free_entry ft fd s = Done tt (with_tables (<[ft := t']> (fd_tables s)) s) ∧
    fds_inv (with_tables (<[ft := t']> (fd_tables s)) s) (λ a e, d a e + ent en a e).
Proof.
  intros Hi Hft Hg Hr. destruct (set_entry_inv s d ft t fd en (mkEntry (file en) 0) Hi Hft Hg) as (t' & Hz & _ & Hi').
  exists t'. split.
  - unfold free_entry, kupd, fd_free. rewrite Hft. cbn. destruct (Z.leb_spec 0 fd); [|lia]. destruct (Z.ltb_spec fd MAX_FDS); [|lia].
    cbn. rewrite Hg. cbn. by rewrite Hz.
  - inv_ext Hi'. rewrite (ent_unused (mkEntry _ 0)) by done. lia.
Qed.
Lemma with_tables_twice (s : Fds H) ft t t' m :
  m = <[ft := t]> (fd_tables s) → with_tables (<[ft := t']> m) s = with_tables (<[ft := t']> (fd_tables s)) s.
Proof. intros ->. by rewrite insert_insert_eq. Qed.

Lemma sys_close_kept s ft t fd : fds_ok s → fd_tables s !! ft = Some t → kept s ft (sys_close ft fd s).
Proof.
  intros Hi Hft. unfold sys_close. rewrite (table_bind s ft t) by done.
  destruct (fi_table _ _ Hi ft t Hft) as (Hl & _).
  destruct (fd_get_spec t fd Hl) as [E|(en & E & Hg & Hu & Hr)]; [rewrite (kopt_bind _ _ _ None) by exact E; by apply (kept_same s ft t)|rewrite (kopt_bind _ _ _ (Some en)) by exact E].
  destruct (close_inv s none (node (file en)) Hi) as (s1 & E1 & Hi1 & Ht1); [unfold none; lia| |].
  { intros a e Hn. rewrite (fi_cnt _ _ Hi). unfold none. pose proof (held_ref _ _ _ _ _ _ Hi Hft Hg Hu a e Hn). lia. }
  kbind E1. rewrite <-Ht1 in Hft.
  destruct (set_entry_inv s1 _ ft t fd en (mkEntry (mkFile NoNode 0 0) (in_use en)) Hi1 Hft Hg) as (t2 & Hz2 & E2 & Hi2). kbind E2.
  set (s2 := with_tables (<[ft := t2]> (fd_tables s1)) s1) in *.
  destruct (free_entry_inv s2 _ ft t2 fd (mkEntry (mkFile NoNode 0 0) (in_use en)) Hi2) as (t3 & E3 & Hi3);
    [apply lookup_insert_eq|by eapply zget_zset_eq|done|]. kbind E3.
  apply (kept_tables s _ ft t3).
  - inv_ext Hi3. rewrite (ent_used en) by done. lia.
  - cbn. by rewrite insert_insert_eq, Ht1.
Qed.

Lemma sys_dup_kept s ft t fd : fds_ok s → fd_tables s !! ft = Some t → kept s ft (sys_dup ft fd s).
Proof.
  intros Hi Hft. unfold sys_dup. rewrite (table_bind s ft t) by done.
  destruct (fi_table _ _ Hi ft t Hft) as (Hl & _).
  destruct (fd_get_spec t fd Hl) as [E|(en & E & Hg & Hu & Hr)]; [rewrite (kopt_bind _ _ _ None) by exact E; by apply (kept_same s ft t)|rewrite (kopt_bind _ _ _ (Some en)) by exact E].
  destruct (fd_alloc t) as [nfd t1] eqn:Ea.
  destruct (fd_alloc_spec t nfd t1 Ea) as [[-> ->]|(en0 & Hn0 & Hg0 & Hu0 & Hz0)]; [by apply (kept_same s ft t)|].
  destruct (Z.ltb_spec nfd 0); [lia|].
  pose proof (set_table_inv s none ft t t1 Hi Hft (length_zset _ _ _ _ Hz0)) as Hi1.
  rewrite set_table_bind. set (s1 := with_tables (<[ft := t1]> (fd_tables s)) s) in *.
  assert (fd_tables s1 !! ft = Some t1) as Hft1 by apply lookup_insert_eq.
  destruct (set_entry_inv s1 _ ft t1 nfd _ (mkEntry (file en) 1) Hi1 Hft1 (zget_zset_eq _ _ _ _ Hz0)) as (t2 & Hz2 & E2 & Hi2). kbind E2.
  set (s2 := with_tables (<[ft := t2]> (fd_tables s1)) s1) in *.
  assert (fds_inv s2 (λ a e, - one (node (file en)) a e)) as Hi2'.
  { inv_ext Hi2. rewrite (tab_zset _ _ _ _ _ _ _ Hg0 Hz0).
    rewrite !ent_set, (ent_unused en0) by done. lia. }
  destruct (addref_inv s2 _ (node (file en)) Hi2') as (s3 & E3 & Hi3 & Ht3 & _).
  { intros. lia. }
  { intros a e Hn. pose proof (held_ref _ _ _ _ _ _ Hi Hft Hg Hu a e Hn). pose proof (fi_cnt _ _ Hi a e) as Hc.
    unfold cnt, none in Hc. change (pipes s2) with (pipes s). destruct (pipes s !! a); [done|lia]. }
  kbind E3. apply (kept_tables s _ ft t2).
  - inv_ext Hi3. lia.
  - rewrite Ht3. cbn. by rewrite insert_insert_eq.
Qed.

Lemma sys_dup2_kept s ft t o n :
  fds_ok s → fd_tables s !! ft = Some t → 0 ≤ n → kept s ft (sys_dup2 ft o n s).
Proof.
  intros Hi Hft Hn0. unfold sys_dup2. destruct (_ || _) eqn:Eb; [by apply (kept_same s ft t)|].
  apply orb_false_iff in Eb as [_ Hn1%Z.leb_gt]. destruct (Z.eqb_spec o n) as [|Hon]; [by apply (kept_same s ft t)|].
  rewrite (table_bind s ft t) by done. destruct (fi_table _ _ Hi ft t Hft) as (Hl & _).
  destruct (fd_get_spec t o Hl) as [E|(en & E & Hg & Hu & Hr)]; [rewrite (kopt_bind _ _ _ None) by exact E; by apply (kept_same s ft t)|rewrite (kopt_bind _ _ _ (Some en)) by exact E].
  destruct (zget_lt t n) as [dn Hd]; [lia|]. rewrite (kopt_bind _ _ _ dn) by done.
  assert (∃ s1 t1, (if used dn then close_node (node (file dn));; set_entry ft n (mkEntry (file dn) 0) else mret tt) s = Done tt s1 ∧
    fds_ok s1 ∧ fd_tables s1 = <[ft := t1]> (fd_tables s) ∧ zget t1 o = Some en ∧
    (∃ dn', zget t1 n = Some dn' ∧ used dn' = false)) as (s1 & t1 & E1 & Hi1 & Ht1 & Hg1 & dn' & Hd1 & Hud).
  { destruct (used dn) eqn:Hud.
    - destruct (close_inv s none (node (file dn)) Hi) as (s1 & E1 & Hi1 & Ht1); [unfold none; lia| |].
      { intros a e Hna. rewrite (fi_cnt _ _ Hi). unfold none. pose proof (held_ref _ _ _ _ _ _ Hi Hft Hd Hud a e Hna). lia. }
      kbind E1. rewrite <-Ht1 in Hft.
      destruct (set_entry_inv s1 _ ft t n dn (mkEntry (file dn) 0) Hi1 Hft Hd) as (t2 & Hz2 & E2 & Hi2). rewrite E2.
      eexists _, t2. split; [done|]. split_and!.
      + inv_ext Hi2. rewrite (ent_used dn), (ent_unused (mkEntry _ 0)) by done. lia.
      + cbn. by rewrite Ht1.
      + by rewrite (zget_zset_ne _ _ _ _ _ Hz2).
      + eexists. split; [by eapply zget_zset_eq|done].
    - exists s, t. split_and!; [done|done|by rewrite insert_id|done|by exists dn]. }
  kbind E1. assert (fd_tables s1 !! ft = Some t1) as Hft1 by (rewrite Ht1; apply lookup_insert_eq).
  destruct (set_entry_inv s1 _ ft t1 n dn' (mkEntry (file en) 1) Hi1 Hft1 Hd1) as (t2 & Hz2 & E2 & Hi2). kbind E2.
  destruct (addref_inv _ _ (node (file en)) Hi2) as (s3 & E3 & Hi3 & Ht3 & _).
  { intros. cbv beta. unfold none. rewrite ent_set, (ent_unused dn') by done. lia. }
  { intros a e Hna. pose proof (held_ref _ _ _ _ _ _ Hi1 Hft1 Hg1 Hu a e Hna). pose proof (fi_cnt _ _ Hi1 a e) as Hc.
    unfold cnt, none in Hc. cbn. destruct (pipes s1 !! a); [done|lia]. }
  kbind E3. apply (kept_tables s _ ft t2).
  - inv_ext Hi3. rewrite ent_set, (ent_unused dn') by done. lia.
  - rewrite Ht3. cbn. by rewrite Ht1, insert_insert_eq.
Qed.

Lemma d_alloc_inv s size flags :
  fds_ok s → 0 < size ≤ 2 ^ 62 →
  (∃ s', d_alloc size flags s = Panic s' ∧ kh_full (dheap s')) ∨
  (∃ s', d_alloc size flags s = Done 0 s' ∧ fds_ok s' ∧ fd_tables s' = fd_tables s ∧ pipes s' = pipes s ∧ kh_full (dheap s')) ∨
  (∃ a s', d_alloc size flags s = Done a s' ∧ fds_ok s' ∧ fd_tables s' = fd_tables s ∧ pipes s' = pipes s ∧
     a ≠ 0 ∧ fd_tables s' !! a = None ∧ pipes s' !! a = None ∧ a ∈ kh_live (dheap s')).
Proof.
  intros Hi Hsz. unfold d_alloc, zoom. pose proof Hi as [Hh Ht Hp Hs Hc Hr].
  destruct (kh_alloc_law (dheap s) size flags Hh Hsz) as [(h' & E & Hx)|[(h' & E & Hh' & Hl & Hx)|(a & h' & E & Hh' & Ha & Hf & Hl)]]; rewrite E.
  - left. eauto.
  - right. left. exists (with_dheap h' s). split_and!; try done. split; cbn; try done; rewrite Hl; auto.
  - right. right. exists a, (with_dheap h' s). split_and!; try done.
    + split; cbn; try done; rewrite Hl; intros; [edestruct Ht as (?&?&?)|edestruct Hp as (?&?)]; try done; split_and?; try done; set_solver.
    + cbn. destruct (fd_tables s !! a) eqn:E'; [|done]. by edestruct Ht as (?&?&?).
    + cbn. destruct (pipes s !! a) eqn:E'; [|done]. by edestruct Hp as (?&?).
    + cbn. rewrite Hl. set_solver.
Qed.

Lemma sys_open_kept s ft t r :
  fds_ok s → fd_tables s !! ft = Some t → (∀ f, r = inr f → ¬ is_pipe (node f)) → kept s ft (sys_open ft r s).
Proof.
  intros Hi Hft Hr. unfold sys_open. rewrite (table_bind s ft t) by done. destruct (fi_table _ _ Hi ft t Hft) as (Hl & _).
  destruct (fd_alloc t) as [nfd t1] eqn:Ea.
  destruct (fd_alloc_spec t nfd t1 Ea) as [[-> ->]|(en0 & Hn0 & Hg0 & Hu0 & Hz0)]; [by apply (kept_same s ft t)|].
  destruct (Z.ltb_spec nfd 0); [lia|]. pose proof (zget_Some_range _ _ _ Hg0) as Hrange. rewrite Hl in Hrange.
  pose proof (set_table_inv s none ft t t1 Hi Hft (length_zset _ _ _ _ Hz0)) as Hi1.
  rewrite set_table_bind. set (s1 := with_tables (<[ft := t1]> (fd_tables s)) s) in *.
  assert (fd_tables s1 !! ft = Some t1) as Hft1 by apply lookup_insert_eq.
  destruct r as [err|f].
  - destruct (free_entry_inv s1 _ ft t1 nfd _ Hi1 Hft1 (zget_zset_eq _ _ _ _ Hz0)) as (t2 & E2 & Hi2); [lia|]. kbind E2.
    apply (kept_tables s _ ft t2); [|cbn; by rewrite insert_insert_eq].
    inv_ext Hi2. rewrite (tab_zset _ _ _ _ _ _ _ Hg0 Hz0), (ent_unused en0) by done. lia.
  - destruct (set_entry_inv s1 _ ft t1 nfd _ (mkEntry f 1) Hi1 Hft1 (zget_zset_eq _ _ _ _ Hz0)) as (t2 & Hz2 & E2 & Hi2). kbind E2.
    apply (kept_tables s _ ft t2); [|cbn; by rewrite insert_insert_eq].
    inv_ext Hi2. rewrite (tab_zset _ _ _ _ _ _ _ Hg0 Hz0), (ent_unused en0) by done.
    rewrite (ent_set f), (one_not_pipe (node f)) by by apply Hr. lia.
Qed.

(** Giving up both ends of a pipe that nobody refers to. *)
Definition both (a : Z) : Z → End → Z := λ a' e', one (PipeEnd a ReadEnd) a' e' + one (PipeEnd a WriteEnd) a' e'.
Lemma both_le a a' e' : both a a' e' ≤ 1.
Proof. unfold both, one. repeat case_decide; try lia. congruence. Qed.
Lemma close_both s a :
  fds_inv s (both a) →
  ∃ s', (close_node (PipeEnd a ReadEnd);; close_node (PipeEnd a WriteEnd)) s = Done tt s' ∧ fds_ok s' ∧ fd_tables s' = fd_tables s.
Proof.
  intros Hi. destruct (close_inv s _ (PipeEnd a ReadEnd) Hi) as (s1 & E1 & Hi1 & Ht1); [apply both_le| |].
  { intros a' e' [= <- <-]. rewrite (fi_cnt _ _ Hi). pose proof (refs_nonneg (fd_tables s) a ReadEnd).
    unfold both, one. rewrite decide_True by done. case_decide; lia. }
  kbind E1. destruct (close_inv s1 _ (PipeEnd a WriteEnd) Hi1) as (s2 & E2 & Hi2 & Ht2).
  { intros a' e'. cbv beta. pose proof (one_range (PipeEnd a ReadEnd) a' e'). pose proof (both_le a a' e'). lia. }
  { intros a' e' [= <- <-]. rewrite (fi_cnt _ _ Hi1). pose proof (refs_nonneg (fd_tables s1) a WriteEnd).
    unfold both, one. rewrite (decide_True (P := PipeEnd a WriteEnd = _)) by done. rewrite decide_False by done. lia. }
  exists s2. split_and!; [done| |congruence]. inv_ext Hi2. unfold both. lia.
Qed.
Lemma new_pipe_inv s a :
  fds_ok s → pipes s !! a = None → fd_tables s !! a = None → a ∈ kh_live (dheap s) →
  fds_inv (with_pipes (<[a := pipe_create]> (pipes s)) s) (both a).
Proof.
  intros [Hh Ht Hp Hs Hc Hr] Hn Hnt Hl.
  assert (∀ a' e', cnt (<[a := pipe_create]> (pipes s)) a' e' = cnt (pipes s) a' e' + both a a' e') as Hcnt.
  { intros a' e'. rewrite cnt_insert. unfold both, one, cnt. destruct (decide (a' = a)) as [->|].
    - rewrite Hn. destruct e'; repeat case_decide; try congruence; done.
    - rewrite !decide_False by congruence. lia. }
  split; cbn; try done.
  - intros ft t Hft. destruct (Ht ft t Hft) as (? & ? & ?). split_and!; [done..|]. rewrite lookup_insert_ne; [done|congruence].
  - intros a' p Hp'. destruct (decide (a' = a)) as [->|]; [|rewrite lookup_insert_ne in Hp' by done; by apply Hp].
    rewrite lookup_insert_eq in Hp'. injection Hp' as <-. done.
  - intros a' e'. rewrite Hcnt, Hc. unfold none. lia.
  - intros a' e'. rewrite Hcnt. pose proof (Hr a' e'). pose proof (one_range (PipeEnd a ReadEnd) a' e').
    pose proof (one_range (PipeEnd a WriteEnd) a' e'). unfold both. lia.
Qed.

(** The second half of [sys_pipe], when the first descriptor is allocated. *)
Lemma pipe_second s a ft t rfd en0 t1 :
  fds_inv s (λ a' e', both a a' e' + tab t a' e' - tab t1 a' e') → fd_tables s !! ft = Some t1 → Z.of_nat (length t) = MAX_FDS →
  zget t rfd = Some en0 → used en0 = false → zset t rfd (mkEntry (file en0) 1) = Some t1 →
  ∃ r s' t', (let '(wfd, t2) := fd_alloc t1 in
    set_table ft t2;;
    if wfd <? 0 then
      free_entry ft rfd;;
      close_node (PipeEnd a ReadEnd);; close_node (PipeEnd a WriteEnd);; mret (- ENOMEM, 0, 0)
    else
    set_entry ft rfd (mkEntry (mkFile (PipeEnd a ReadEnd) 0 O_RDONLY) 1);;
    set_entry ft wfd (mkEntry (mkFile (PipeEnd a WriteEnd) 0 O_WRONLY) 1);;
    mret (0, rfd, wfd)) s = Done r s' ∧ fds_ok s' ∧ fd_tables s' = <[ft := t']> (fd_tables s).
Proof.
  intros Hi Hft Hl Hg0 Hu0 Hz0. pose proof (zget_zset_eq _ _ _ _ Hz0) as Hg1.
  pose proof (zget_Some_range _ _ _ Hg0) as Hrange. rewrite Hl in Hrange.
  destruct (fd_alloc t1) as [wfd t2] eqn:Ea.
  destruct (fd_alloc_spec t1 wfd t2 Ea) as [[-> ->]|(en1 & Hn1 & Hgw & Hu1 & Hz1)].
  - rewrite set_table_bind. rewrite insert_id by done. change (-1 <? 0) with true. cbv iota.
    replace (with_tables (fd_tables s) s) with s by by destruct s.
    destruct (free_entry_inv s _ ft t1 rfd _ Hi Hft Hg1 Hrange) as (t3 & E3 & Hi3). kbind E3.
    set (s3 := with_tables (<[ft := t3]> (fd_tables s)) s) in *.
    destruct (close_both s3 a) as (s4 & E4 & Hi4 & Ht4).
    { inv_ext Hi3. rewrite (tab_zset _ _ _ _ _ _ _ Hg0 Hz0), (ent_unused en0) by done. lia. }
    eexists _, s4, t3. split; [|split; [done|by rewrite Ht4]].
    unfold mbind, K_bind in E4 |- *. destruct (close_node (PipeEnd a ReadEnd) s3); [|done..]. by rewrite E4.
  - assert (wfd ≠ rfd) as Hne by (intros ->; by simplify_eq).
    destruct (Z.ltb_spec wfd 0); [lia|].
    pose proof (set_table_inv s _ ft t1 t2 Hi Hft (length_zset _ _ _ _ Hz1)) as Hi2.
    rewrite set_table_bind. set (s2 := with_tables (<[ft := t2]> (fd_tables s)) s) in *.
    assert (fd_tables s2 !! ft = Some t2) as Hft2 by apply lookup_insert_eq.
    assert (zget t2 rfd = Some (mkEntry (file en0) 1)) as Hg2 by by rewrite (zget_zset_ne _ _ _ _ _ Hz1).
    destruct (set_entry_inv s2 _ ft t2 rfd _ (mkEntry (mkFile (PipeEnd a ReadEnd) 0 O_RDONLY) 1) Hi2 Hft2 Hg2) as (t3 & Hz3 & E3 & Hi3). kbind E3.
    set (s3 := with_tables (<[ft := t3]> (fd_tables s2)) s2) in *.
    assert (zget t3 wfd = Some (mkEntry (file en1) 1)) as Hg3.
    { rewrite (zget_zset_ne _ _ _ _ _ Hz3) by done. by eapply zget_zset_eq. }
    destruct (set_entry_inv s3 _ ft t3 wfd _ (mkEntry (mkFile (PipeEnd a WriteEnd) 0 O_WRONLY) 1) Hi3 (lookup_insert_eq _ _ _) Hg3)
      as (t4 & Hz4 & E4 & Hi4). kbind E4.
    eexists _, _, t4. split; [done|]. split; [|cbn; by rewrite !insert_insert_eq].
    inv_ext Hi4. rewrite (tab_zset _ _ _ _ _ _ _ Hgw Hz1), (ent_unused en1) by done.
    rewrite (tab_zset _ _ _ _ _ _ _ Hg0 Hz0), (ent_unused en0) by done. rewrite !ent_set. unfold both. cbn [node]. lia.
Qed.
Lemma sys_pipe_kept s ft t : fds_ok s → fd_tables s !! ft = Some t → kept s ft (sys_pipe ft s).
Proof.
  intros Hi Hft. unfold sys_pipe. unfold mbind at 1, K_bind at 1.
  destruct (d_alloc_inv s SIZEOF_PIPE 1 Hi) as [(s1 & E & Hx)|[(s1 & E & Hi1 & Ht1 & _ & Hx)|(a & s1 & E & Hi1 & Ht1 & _ & Ha & Hna & Hnp & Hla)]];
    [unfold SIZEOF_PIPE; lia|rewrite E..].
  - left. eauto.
  - change (0 =? 0) with true. cbv iota. right. eexists _, s1. rewrite Ht1, Hft. split_and!; done.
  - destruct (Z.eqb_spec a 0) as [|_]; [done|]. rewrite kmod_bind. rewrite <-Ht1 in Hft.
    pose proof (new_pipe_inv s1 a Hi1 Hnp Hna Hla) as Hi2. set (s2 := with_pipes (<[a := pipe_create]> (pipes s1)) s1) in *.
    rewrite (table_bind s2 ft t) by done. destruct (fi_table _ _ Hi1 ft t Hft) as (Hl & _).
    destruct (fd_alloc t) as [rfd t1] eqn:Ea.
    destruct (fd_alloc_spec t rfd t1 Ea) as [[-> ->]|(en0 & Hn0 & Hg0 & Hu0 & Hz0)].
    + rewrite set_table_bind. change (-1 <? 0) with true. cbv iota.
      rewrite insert_id by done. replace (with_tables (fd_tables s2) s2) with s2 by done.
      destruct (close_both s2 a Hi2) as (s3 & E3 & Hi3 & Ht3). unfold mbind, K_bind in E3 |- *.
      destruct (close_node (PipeEnd a ReadEnd) s2); [|done..]. rewrite E3. right. eexists _, s3.
      rewrite Ht3. change (fd_tables s2) with (fd_tables s1). rewrite Hft, Ht1. split_and!; done.
    + pose proof (set_table_inv s2 _ ft t t1 Hi2 Hft (length_zset _ _ _ _ Hz0)) as Hi3.
      rewrite set_table_bind. destruct (Z.ltb_spec rfd 0); [lia|].
      set (s3 := with_tables (<[ft := t1]> (fd_tables s2)) s2) in *.
      destruct (pipe_second s3 a ft t rfd en0 t1 Hi3 (lookup_insert_eq _ _ _) Hl Hg0 Hu0 Hz0) as (r & s' & t' & E' & Hi' & Ht').
      rewrite E'. apply (kept_tables s _ ft t'); [done|]. rewrite Ht'. cbn. by rewrite insert_insert_eq, Ht1.
Qed.

Lemma tab_app t1 t2 a e : tab (t1 ++ t2) a e = tab t1 a e + tab t2 a e.
Proof. induction t1 as [|x t1 IH]; cbn; [done|]. rewrite IH. lia. Qed.
(** A reference in a state that satisfies the invariant is to a pipe that exists. *)
Lemma ref_pipe s a e : fds_ok s → 1 ≤ refs (fd_tables s) a e → is_Some (pipes s !! a).
Proof. intros Hi Hr. pose proof (fi_cnt _ _ Hi a e) as Hc. unfold cnt, none in Hc. destruct (pipes s !! a); [done|lia]. Qed.

(** The loop of [fd_table_dup]: every descriptor of the copy gets its reference. *)
Lemma dup_loop s t :
  fds_inv s (λ a e, - tab t a e) → (∀ a e, 1 ≤ tab t a e → is_Some (pipes s !! a)) →
  ∃ s', kfor t (λ en, if used en then addref_node (node (file en)) else mret tt) s = Done tt s' ∧ fds_ok s' ∧
    fd_tables s' = fd_tables s.
Proof.
  intros Hi Hp.
  destruct (kfor_ind (λ dn s', fds_inv s' (λ a e, tab dn a e - tab t a e) ∧ fd_tables s' = fd_tables s ∧ dom (pipes s') = dom (pipes s))
    (λ en, if used en then addref_node (node (file en)) else mret tt) t s) as (s' & E & Hi' & Ht' & _).
  - split_and!; [|done|done]. inv_ext Hi. cbn [tab]. lia.
  - intros dn en rest s1 El (Hi1 & Ht1 & Hd1). destruct (used en) eqn:Hu.
    + destruct (addref_inv s1 _ (node (file en)) Hi1) as (s2 & E2 & Hi2 & Ht2 & Hd2).
      * intros a e. cbv beta. rewrite El, tab_app. cbn [tab]. rewrite (ent_used en) by done.
        pose proof (tab_range rest a e). lia.
      * intros a e Hn. apply elem_of_dom. rewrite Hd1. apply elem_of_dom, (Hp a e). rewrite El, tab_app. cbn [tab].
        rewrite (ent_used en) by done. unfold one. rewrite decide_True by done.
        pose proof (tab_range dn a e). pose proof (tab_range rest a e). lia.
      * exists s2. split; [done|]. split_and!; [|congruence|congruence]. inv_ext Hi2. rewrite tab_app. cbn [tab].
        rewrite (ent_used en) by done. lia.
    + exists s1. split; [done|]. split_and!; [|done|done]. inv_ext Hi1. rewrite tab_app. cbn [tab].
      rewrite (ent_unused en) by done. lia.
  - exists s'. split_and!; [done| |done]. inv_ext Hi'. lia.
Qed.

(** [fd_table_dup] stops the machine, fails, or makes an equal table at a new address. *)
Definition dup_outcome s (t : list FdEntry) (o : outcome (Fds H) Z) : Prop :=
  (∃ s', o = Panic s' ∧ kh_full (dheap s')) ∨
  (∃ s', o = Done 0 s' ∧ fds_ok s' ∧ fd_tables s' = fd_tables s ∧ kh_full (dheap s')) ∨
  (∃ dst s', o = Done dst s' ∧ fds_ok s' ∧ dst ≠ 0 ∧ fd_tables s !! dst = None ∧ fd_tables s' = <[dst := t]> (fd_tables s)).

(** A table at an address that was just allocated. *)
Lemma add_table_inv s dst t :
  fds_ok s → fd_tables s !! dst = None → pipes s !! dst = None → dst ∈ kh_live (dheap s) → Z.of_nat (length t) = MAX_FDS →
  Z.of_nat (size (fd_tables s)) < MAX_TABLES →
  fds_inv (with_tables (<[dst := t]> (fd_tables s)) s) (λ a e, - tab t a e).
Proof.
  intros [Hh Ht Hp Hs Hc Hr] Hn Hnp Hl Hlen Hsz. split; cbn; try done.
  - intros ft t0. destruct (decide (ft = dst)) as [->|].
    + rewrite lookup_insert_eq. by intros [= <-].
    + rewrite lookup_insert_ne by done. apply Ht.
  - rewrite map_size_insert_None by done. lia.
  - intros a e. rewrite refs_insert_new by done. rewrite Hc. unfold none. lia.
Qed.
Lemma fd_table_dup_lemma s src t :
  fds_ok s → src ≠ 0 → fd_tables s !! src = Some t → Z.of_nat (size (fd_tables s)) < MAX_TABLES →
  dup_outcome s t (fd_table_dup src s).
Proof.
  intros Hi Hs0 Hft Hsz. unfold fd_table_dup. destruct (Z.eqb_spec src 0) as [|_]; [done|]. unfold mbind at 1, K_bind at 1.
  destruct (d_alloc_inv s SIZEOF_FDTABLE 0 Hi) as [(s1 & E & Hx)|[(s1 & E & Hi1 & Ht1 & _ & Hx)|(a & s1 & E & Hi1 & Ht1 & _ & Ha & Hna & Hnp & Hla)]];
    [unfold SIZEOF_FDTABLE; lia|rewrite E..].
  - left. eauto.
  - right. left. exists s1. done.
  - right. right. destruct (Z.eqb_spec a 0) as [|_]; [done|]. rewrite <-Ht1 in Hft. rewrite (table_bind s1 src t) by done.
    rewrite set_table_bind. destruct (fi_table _ _ Hi1 src t Hft) as (Hl & _). rewrite <-Ht1 in Hsz.
    destruct (dup_loop _ t (add_table_inv s1 a t Hi1 Hna Hnp Hla Hl Hsz)) as (s3 & E3 & Hi3 & Ht3).
    { intros x e Hx. cbn. apply (ref_pipe s1 x e Hi1). rewrite (refs_delete _ _ _ x e Hft).
      pose proof (refs_nonneg (delete src (fd_tables s1)) x e). lia. }
    kbind E3. exists a, s3. rewrite Ht3. cbn. rewrite Ht1 in *. split_and!; done.
Qed.

Lemma tab_init a e : tab fd_table_init a e = 0.
Proof. unfold fd_table_init. induction (Z.to_nat MAX_FDS) as [|n IH]; [done|]. rewrite replicate_S. cbn [tab]. by rewrite IH. Qed.
Lemma new_table_lemma s :
  fds_ok s → Z.of_nat (size (fd_tables s)) < MAX_TABLES → dup_outcome s fd_table_init (new_table s).
Proof.
  intros Hi Hsz. unfold new_table. unfold mbind at 1, K_bind at 1.
  destruct (d_alloc_inv s SIZEOF_FDTABLE 0 Hi) as [(s1 & E & Hx)|[(s1 & E & Hi1 & Ht1 & _ & Hx)|(a & s1 & E & Hi1 & Ht1 & _ & Ha & Hna & Hnp & Hla)]];
    [unfold SIZEOF_FDTABLE; lia|rewrite E..].
  - left. eauto.
  - right. left. exists s1. done.
  - right. right. destruct (Z.eqb_spec a 0) as [|_]; [done|]. rewrite set_table_bind. rewrite <-Ht1 in Hsz.
    pose proof (add_table_inv s1 a fd_table_init Hi1 Hna Hnp Hla ltac:(done) Hsz) as Hi2.
    eexists a, _. split; [done|]. rewrite <-Ht1. split_and!; [|done..]. inv_ext Hi2. by rewrite tab_init.
Qed.

(** The first [i] descriptors of the table at [ft] are closed, and nothing else changed in the tables of [s]. *)
Definition closed_upto s (ft i : Z) s' : Prop :=
  fds_ok s' ∧ ∃ t', fd_tables s' = <[ft := t']> (fd_tables s) ∧ Z.of_nat (length t') = MAX_FDS ∧
    (∀ j en, 0 ≤ j < i → zget t' j = Some en → used en = false) ∧
    (∀ j t, i ≤ j → fd_tables s !! ft = Some t → zget t' j = zget t j).

Lemma closed_upto_start s ft t : fds_ok s → fd_tables s !! ft = Some t → closed_upto s ft 0 s.
Proof. intros Hi Ht. split; [done|]. exists t. rewrite insert_id by done. split_and!; [done|by eapply fi_table|lia|]. intros j t' _ Ht'. congruence. Qed.
Lemma closed_upto_end s ft s' : closed_upto s ft MAX_FDS s' →
  ∃ t', fds_ok s' ∧ fd_tables s' = <[ft := t']> (fd_tables s) ∧ Forall (λ en, used en = false) t'.
Proof.
  intros (Hi & t' & Ht & Hl & Hu & _). exists t'. split_and!; [done..|]. apply Forall_lookup. intros j en Hj. apply (Hu (Z.of_nat j)).
  - apply lookup_lt_Some in Hj. lia.
  - by rewrite zget_nat.
Qed.

(** One round of the loop of [sys_exit]. *)
Lemma exit_step_lemma s ft i s1 : 0 ≤ i < MAX_FDS → closed_upto s ft i s1 →
  ∃ s', exit_step ft i s1 = Done tt s' ∧ closed_upto s ft (i + 1) s'.
Proof.
  intros Hir (Hi1 & t1 & Ht1 & Hl1 & Hu1 & Hk1). unfold exit_step.
  assert (fd_tables s1 !! ft = Some t1) as Hft1 by (rewrite Ht1; apply lookup_insert_eq).
  rewrite (table_bind s1 ft t1) by done. destruct (zget_lt t1 i) as [en Hg]; [lia|]. rewrite (kopt_bind _ _ _ en) by done.
  destruct (used en) eqn:Hu.
  - destruct (close_inv s1 none (node (file en)) Hi1) as (s2 & E2 & Hi2 & Ht2); [unfold none; lia| |].
    { intros a e Hn. rewrite (fi_cnt _ _ Hi1). unfold none. pose proof (held_ref _ _ _ _ _ _ Hi1 Hft1 Hg Hu a e Hn). lia. }
    kbind E2. rewrite <-Ht2 in Hft1.
    destruct (set_entry_inv s2 _ ft t1 i en (mkEntry (file en) 0) Hi2 Hft1 Hg) as (t3 & Hz3 & E3 & Hi3). rewrite E3.
    eexists. split; [done|]. split.
    + inv_ext Hi3. rewrite (ent_used en), (ent_unused (mkEntry _ 0)) by done. lia.
    + exists t3. split_and!; [cbn; by rewrite Ht2, Ht1, insert_insert_eq|by rewrite (length_zset _ _ _ _ Hz3)| |].
      2: { intros j t Hj Ht. rewrite (zget_zset_ne _ _ _ _ _ Hz3) by lia. apply Hk1; [lia|done]. }
      intros j en' Hj Hg'. destruct (decide (j = i)) as [->|].
      * rewrite (zget_zset_eq _ _ _ _ Hz3) in Hg'. by injection Hg' as <-.
      * rewrite (zget_zset_ne _ _ _ _ _ Hz3) in Hg' by done. apply (Hu1 j); [lia|done].
  - exists s1. split; [done|]. split; [done|]. exists t1. split_and!; [done..| |].
    + intros j en' Hj Hg'. destruct (decide (j = i)) as [->|]; [congruence|]. apply (Hu1 j); [lia|done].
    + intros j t Hj. apply Hk1. lia.
Qed.

(** Exiting closes every descriptor of the process. *)
Lemma exit_close_lemma s ft t :
  fds_ok s → ft ≠ 0 → fd_tables s !! ft = Some t →
  ∃ s' t', exit_close ft s = Done tt s' ∧ fds_ok s' ∧ fd_tables s' = <[ft := t']> (fd_tables s) ∧
    Forall (λ en, used en = false) t'.
Proof.
  intros Hi Hf0 Hft. unfold exit_close. destruct (Z.eqb_spec ft 0) as [|_]; [done|].
  destruct (kfor_seqZ_ind (closed_upto s ft) (exit_step ft) 0 MAX_FDS s) as (s' & E & Hc).
  - unfold MAX_FDS. lia.
  - by eapply closed_upto_start.
  - intros i s1 Hir. by apply exit_step_lemma.
  - destruct (closed_upto_end s ft s' Hc) as (t' & ? & ? & ?). by exists s', t'.
Qed.
End inv.

(** ** All calls together *)

Inductive Call : Type :=
| Close (ft fd : Z) | Dup (ft fd : Z) | Dup2 (ft o n : Z) | MkPipe (ft : Z) | Open (ft : Z) (r : Z + VfsFile)
| Fork (ft : Z) | Exit (ft : Z) | New.

Section calls.
Context {H : Type} `{KHeap H}.
Implicit Types (s : Fds H).

Definition run (c : Call) : K (Fds H) unit :=
  match c with
  | Close ft fd => sys_close ft fd;; mret tt
  | Dup ft fd => sys_dup ft fd;; mret tt
  | Dup2 ft o n => sys_dup2 ft o n;; mret tt
  | MkPipe ft => sys_pipe ft;; mret tt
  | Open ft r => sys_open ft r;; mret tt
  | Fork ft => fd_table_dup ft;; mret tt
  | Exit ft => exit_close ft
  | New => new_table;; mret tt
  end.
(** The caller has a table, descriptor arguments are unsigned, an opened file is no pipe and there is room for another process. *)
Definition admissible (c : Call) s : Prop :=
  match c with
  | Close ft _ | Dup ft _ | MkPipe ft | Exit ft => ft ≠ 0 ∧ is_Some (fd_tables s !! ft)
  | Dup2 ft _ n => is_Some (fd_tables s !! ft) ∧ 0 ≤ n
  | Open ft r => is_Some (fd_tables s !! ft) ∧ ∀ f, r = inr f → ¬ is_pipe (node f)
  | Fork ft => ft ≠ 0 ∧ is_Some (fd_tables s !! ft) ∧ Z.of_nat (size (fd_tables s)) < MAX_TABLES
  | New => Z.of_nat (size (fd_tables s)) < MAX_TABLES
  end.
Inductive fstep : Fds H → Fds H → Prop :=
| fstep_run c s s' : admissible c s → run c s = Done tt s' → fstep s s'.

Definition runs_ok s (o : outcome (Fds H) unit) : Prop := (∃ s', o = Panic s' ∧ kh_full (dheap s')) ∨ (∃ s', o = Done tt s' ∧ fds_ok s').
Lemma runs_kept {A} s ft (m : K (Fds H) A) : kept s ft (m s) → runs_ok s ((m;; mret tt) s).
Proof.
  intros [(s' & E & Hx)|(r & s' & E & Hi & _)]; [left; exists s'; split; [by apply bind_Panic|done]|right; exists s'; by kbind E].
Qed.
Lemma runs_dup s t (m : K (Fds H) Z) : dup_outcome s t (m s) → runs_ok s ((m;; mret tt) s).
Proof.
  intros [(s' & E & Hx)|[(s' & E & Hi & _)|(a & s' & E & Hi & _)]]; [left; exists s'; split; [by apply bind_Panic|done]|right; exists s'; by kbind E..].
Qed.
Lemma run_ok c s : fds_ok s → admissible c s → runs_ok s (run c s).
Proof.
  intros Hi Ha. destruct c as [ft fd|ft fd|ft o n|ft|ft r|ft|ft|]; cbn in *.
  - destruct Ha as [_ [t Ht]]. by eapply runs_kept, sys_close_kept.
  - destruct Ha as [_ [t Ht]]. by eapply runs_kept, sys_dup_kept.
  - destruct Ha as [[t Ht] Hn]. by eapply runs_kept, sys_dup2_kept.
  - destruct Ha as [_ [t Ht]]. by eapply runs_kept, sys_pipe_kept.
  - destruct Ha as [[t Ht] Hr]. by eapply runs_kept, sys_open_kept.
  - destruct Ha as (Hne & [t Ht] & Hs). by eapply runs_dup, fd_table_dup_lemma.
  - destruct Ha as [Hne [t Ht]]. destruct (exit_close_lemma s ft t Hi Hne Ht) as (s' & t' & E & Hi' & _). right. by exists s'.
  - by eapply runs_dup, new_table_lemma.
Qed.
Lemma reachable_fds s s' : fds_ok s → rtc fstep s s' → fds_ok s'.
Proof.
  intros Hi Hr. induction Hr as [|s1 s2 s3 Hst _ IH]; [done|]. apply IH. destruct Hst as [c s s' Ha E].
  destruct (run_ok c s Hi Ha) as [(s'' & E' & _)|(s'' & E' & Hi')]; congruence.
Qed.
Lemma fds_empty h : kh_ok h → fds_ok (mkFds h ∅ ∅).
Proof. intros Hh. by split. Qed.

(** C13. Descriptors and pipes: in every state reached from an empty one by any sequence of the calls of any processes,
    the reader and writer counts of every pipe are the numbers of open descriptors, in all tables, that name its two ends; a pipe lives
    exactly as long as some descriptor names it; and the next call, whatever it is, never uses a freed pipe
    and completes, unless the heap cannot grow. *)
Theorem fd_refcounts h s :
  kh_ok h → rtc fstep (mkFds h ∅ ∅) s →
  (∀ a p, pipes s !! a = Some p →
     reader_count p = refs (fd_tables s) a ReadEnd ∧ writer_count p = refs (fd_tables s) a WriteEnd ∧
     0 < refs (fd_tables s) a ReadEnd + refs (fd_tables s) a WriteEnd) ∧
  (∀ ft t fd en a e, fd_tables s !! ft = Some t → zget t fd = Some en → used en = true → node (file en) = PipeEnd a e →
     is_Some (pipes s !! a)) ∧
  (∀ c, admissible c s → runs_ok s (run c s)).
Proof.
  intros Hh Hr. pose proof (reachable_fds _ _ (fds_empty h Hh) Hr) as Hi. split_and!.
  - intros a p Hp. pose proof (fi_cnt _ _ Hi a) as Hc. unfold cnt, none in Hc. rewrite Hp in Hc.
    pose proof (Hc ReadEnd). pose proof (Hc WriteEnd). destruct (fi_pipe _ _ Hi a p Hp). cbn in *. lia.
  - intros ft t fd en a e Hft Hg Hu Hn. apply (ref_pipe s a e Hi). by eapply held_ref.
  - intros c Ha. by apply run_ok.
Qed.
End calls.

(** ** Example: a process *)

Definition after (o : outcome (Fds (Heap Z)) unit) (s : Fds (Heap Z)) : Fds (Heap Z) := match o with Done _ s' => s' | _ => s end.
Definition fds0 : Fds (Heap Z) := mkFds heap_example ∅ ∅.
Definition fds1 : Fds (Heap Z) := after (run New fds0) fds0.
Definition example_table : Z := 18446744072635810256.
Lemma heap_example_ok : kh_ok heap_example.
Proof. exists blocks_example. apply heap_example_repr. Qed.
Lemma fds_example_steps : rtc fstep fds0 fds1.
Proof. apply rtc_once, (fstep_run New); [vm_compute; congruence|vm_compute; reflexivity]. Qed.
Lemma fds_example_table : is_Some (fd_tables fds1 !! example_table).
Proof. vm_compute. eexists. reflexivity. Qed.
Lemma fd_refcounts_witness :
  (∀ a p, pipes fds1 !! a = Some p →
     reader_count p = refs (fd_tables fds1) a ReadEnd ∧ writer_count p = refs (fd_tables fds1) a WriteEnd ∧
     0 < refs (fd_tables fds1) a ReadEnd + refs (fd_tables fds1) a WriteEnd) ∧
  runs_ok fds1 (run (MkPipe example_table) fds1).
Proof.
  destruct (fd_refcounts heap_example fds1 heap_example_ok fds_example_steps) as (H1 & _ & H3).
  split; [exact H1|]. apply H3. split; [discriminate|exact fds_example_table].
Defined.
