(* ===== verification/Process.v ===== *)
(** * Processes and signals

    [kernel/proc/process.c], [kernel/proc/signal.c] and the system calls of
    [kernel/arch/x86_64/syscall.c] on processes: fork, exit, wait, kill, signal,
    sigreturn, identities and process groups.  The state joins the scheduler, the page
    tables, the descriptor tables and the pipes of the other files.  [umem] holds the bytes
    that the page tables of each process map; an access of the kernel to another user address
    is a page fault, for which no handler is registered, and stops the machine
    ([default_exception_handler] of [kernel/arch/x86_64/isr.c]).  A routine that may give up the
    processor says in its result whether another thread runs; the state is then that thread's. *)
From S2P Require Import Prelude PageAlloc Spinlock KHeap Vmm Sched Pipe Fd.

Definition NSIG : Z := 32.
Definition SIGKILL : Z := 9.
Definition SIGPIPE : Z := 13.
Definition SIGCHLD : Z := 17.
Definition SIGCONT : Z := 18.
Definition SIGSTOP : Z := 19.
Definition SIGTSTP : Z := 20.
Definition SIG_DFL : Z := 0.
Definition SIG_IGN : Z := 1.
Definition PROC_ALIVE : Z := 0.
Definition PROC_ZOMBIE : Z := 1.
Definition PROC_TERMINATED : Z := 2.
Definition PROC_STOPPED : Z := 3.
Definition MAX_PROCESSES : Z := 64.
Definition USER_ADDR_LIMIT : Z := 0x0000800000000000.
Definition WNOHANG : Z := 1.
Definition SIZEOF_PROCESS : Z := 1072.
Definition SIZEOF_SIGFRAME : Z := 160.
Definition EPERM : Z := 1.
Definition ESRCH : Z := 3.
Definition ECHILD : Z := 10.
Definition EINVAL : Z := 22.
Definition ENOSYS : Z := 38.

(** ** Data *)

Record SignalFrame : Type := mkSf {
  trampoline : list Z; user_rip : Z; user_rsp : Z; user_rflags : Z; sf_rax : Z; sf_rbx : Z; sf_rbp : Z;
  sf_r12 : Z; sf_r13 : Z; sf_r14 : Z; sf_r15 : Z; sf_rdi : Z; sf_rsi : Z; sf_rdx : Z; sf_r8 : Z; sf_r9 : Z; sf_r10 : Z;
  sf_signo : Z; ret_addr : Z
}.
Record SyscallFrame : Type := mkFrame {
  fr15 : Z; fr14 : Z; fr13 : Z; fr12 : Z; frbp : Z; frbx : Z; frcx : Z; fr11 : Z; frsp : Z
}.
Record SigState : Type := mkSig { pending : Z; handlers : list Z; restoring : Z; restore_frame : SignalFrame }.
Definition zero_sf : SignalFrame := mkSf (replicate 16 0) 0 0 0 0 0 0 0 0 0 0 0 0 0 0 0 0 0 0.

Record Process : Type := mkProc {
  pid : Z; pgid : Z; pstate : Z; exit_status : Z; main_thread : Z; page_table : Z; fd_table : Z; brk_current : Z; brk_start : Z;
  cwd : list Z; uid : Z; gid : Z; euid : Z; egid : Z; umask : Z; sig : SigState; parent : Z; pnext : Z
}.
(** The address of the wait queue inside the process. *)
Definition child_exit_wq (p : Z) : Z := p + 1024.

Definition set_pstate (v : Z) (p : Process) : Process :=
  mkProc (pid p) (pgid p) v (exit_status p) (main_thread p) (page_table p) (fd_table p) (brk_current p) (brk_start p) (cwd p)
    (uid p) (gid p) (euid p) (egid p) (umask p) (sig p) (parent p) (pnext p).
Definition set_exit (st v : Z) (p : Process) : Process :=
  mkProc (pid p) (pgid p) st v (main_thread p) (page_table p) (fd_table p) (brk_current p) (brk_start p) (cwd p)
    (uid p) (gid p) (euid p) (egid p) (umask p) (sig p) (parent p) (pnext p).
Definition set_sig (v : SigState) (p : Process) : Process :=
  mkProc (pid p) (pgid p) (pstate p) (exit_status p) (main_thread p) (page_table p) (fd_table p) (brk_current p) (brk_start p) (cwd p)
    (uid p) (gid p) (euid p) (egid p) (umask p) v (parent p) (pnext p).
Definition set_thread (v : Z) (p : Process) : Process :=
  mkProc (pid p) (pgid p) (pstate p) (exit_status p) v (page_table p) (fd_table p) (brk_current p) (brk_start p) (cwd p)
    (uid p) (gid p) (euid p) (egid p) (umask p) (sig p) (parent p) (pnext p).
Definition set_page_table (v : Z) (p : Process) : Process :=
  mkProc (pid p) (pgid p) (pstate p) (exit_status p) (main_thread p) v (fd_table p) (brk_current p) (brk_start p) (cwd p)
    (uid p) (gid p) (euid p) (egid p) (umask p) (sig p) (parent p) (pnext p).
Definition set_fd_table (v : Z) (p : Process) : Process :=
  mkProc (pid p) (pgid p) (pstate p) (exit_status p) (main_thread p) (page_table p) v (brk_current p) (brk_start p) (cwd p)
    (uid p) (gid p) (euid p) (egid p) (umask p) (sig p) (parent p) (pnext p).
Definition set_pgid (v : Z) (p : Process) : Process :=
  mkProc (pid p) v (pstate p) (exit_status p) (main_thread p) (page_table p) (fd_table p) (brk_current p) (brk_start p) (cwd p)
    (uid p) (gid p) (euid p) (egid p) (umask p) (sig p) (parent p) (pnext p).
Definition set_ids (u eu g eg : Z) (p : Process) : Process :=
  mkProc (pid p) (pgid p) (pstate p) (exit_status p) (main_thread p) (page_table p) (fd_table p) (brk_current p) (brk_start p) (cwd p)
    u g eu eg (umask p) (sig p) (parent p) (pnext p).
Definition set_umask (v : Z) (p : Process) : Process :=
  mkProc (pid p) (pgid p) (pstate p) (exit_status p) (main_thread p) (page_table p) (fd_table p) (brk_current p) (brk_start p) (cwd p)
    (uid p) (gid p) (euid p) (egid p) v (sig p) (parent p) (pnext p).

(** ** Signal state *)

Definition sig_init (ss : SigState) : SigState := mkSig 0 (replicate (Z.to_nat NSIG) SIG_DFL) 0 (restore_frame ss).
Definition set_pending (v : Z) (ss : SigState) : SigState := mkSig v (handlers ss) (restoring ss) (restore_frame ss).
Definition set_restoring (v : Z) (f : SignalFrame) (ss : SigState) : SigState := mkSig (pending ss) (handlers ss) v f.
(** [pending |= 1u << signo] and [pending &= ~(1u << signo)]. *)
Definition raise (signo : Z) (ss : SigState) : SigState := set_pending (Z.lor (pending ss) (u32 (Z.shiftl 1 signo))) ss.
Definition lower (signo : Z) (ss : SigState) : SigState :=
  set_pending (Z.land (pending ss) (u32 (Z.lnot (u32 (Z.shiftl 1 signo))))) ss.
Definition is_pending (signo : Z) (ss : SigState) : bool := negb (Z.land (pending ss) (u32 (Z.shiftl 1 signo)) =? 0).

(** The previous handler and the new state. *)
Definition sig_set_handler (ss : SigState) (signo handler : Z) : option (Z * SigState) :=
  if (signo <? 1) || (NSIG <=? signo) || (signo =? SIGKILL) || (signo =? SIGSTOP) then Some (SIG_DFL, ss) else
  old ← zget (handlers ss) signo;
  hs ← zset (handlers ss) signo handler;
  Some (old, mkSig (pending ss) hs (restoring ss) (restore_frame ss)).

(** 0 terminates, 1 is ignored, 2 continues, 3 stops. *)
Definition default_action (signo : Z) : Z :=
  if signo =? SIGCHLD then 1 else if signo =? SIGCONT then 2 else
  if (signo =? SIGSTOP) || (signo =? SIGTSTP) then 3 else 0.
Definition sigreturn_trampoline : list Z := [0xB8; 22; 0; 0; 0; 0x0F; 0x05; 0x0F; 0x0B; 0; 0; 0; 0; 0; 0; 0].

(** ** User memory *)

Definition user_ptr_valid (ptr len : Z) : bool :=
  if (ptr =? 0) || (len =? 0) then false else
  let end_ := u64 (ptr + len) in (ptr <? end_) && (end_ <=? USER_ADDR_LIMIT).
Fixpoint write_bytes (a : Z) (l : list Z) (m : gmap Z Z) : option (gmap Z Z) :=
  match l with
  | [] => Some m
  | b :: l' => match m !! a with Some _ => write_bytes (a + 1) l' (<[a := b]> m) | None => None end
  end.
Definition read_bytes (a n : Z) (m : gmap Z Z) : option (list Z) := mapM (λ i, m !! (a + i)) (seqZ 0 n).

Definition sf_words (f : SignalFrame) : list Z :=
  [user_rip f; user_rsp f; user_rflags f; sf_rax f; sf_rbx f; sf_rbp f; sf_r12 f; sf_r13 f; sf_r14 f; sf_r15 f;
   sf_rdi f; sf_rsi f; sf_rdx f; sf_r8 f; sf_r9 f; sf_r10 f; sf_signo f; ret_addr f].
Definition sf_bytes (f : SignalFrame) : list Z := trampoline f ++ concat (le64 <$> sf_words f).
Definition word (l : list Z) (i : nat) : Z := le_val (take 8 (drop (16 + 8 * i) l)).
Definition sf_of (l : list Z) : SignalFrame :=
  mkSf (take 16 l) (word l 0) (word l 1) (word l 2) (word l 3) (word l 4) (word l 5) (word l 6) (word l 7) (word l 8) (word l 9)
    (word l 10) (word l 11) (word l 12) (word l 13) (word l 14) (word l 15) (word l 16) (word l 17).

(** ** The kernel *)

Record ForkContext : Type := mkFork {
  fk_rip : Z; fk_rsp : Z; fk_rflags : Z; fk_rbp : Z; fk_rbx : Z; fk_r12 : Z; fk_r13 : Z; fk_r14 : Z; fk_r15 : Z
}.

Record Kern (H P : Type) : Type := mkKern {
  ksched : Sched H;
  kvmm : Vmm P;
  ktables : gmap Z (list FdEntry);
  kpipes : gmap Z PipeNode;
  procs : gmap Z Process;
  proc_list : Z;
  next_pid : Z;
  proc_table : list Z;
  sig_pending_arg : Z;
  saved : SyscallFrame;            (* syscall_saved_user_* *)
  umem : gmap Z (gmap Z Z);
  g_fork_child_args : Z * ForkContext;
}.
Arguments mkKern {H P}.
Arguments ksched {H P}.
Arguments kvmm {H P}.
Arguments ktables {H P}.
Arguments kpipes {H P}.
Arguments procs {H P}.
Arguments proc_list {H P}.
Arguments next_pid {H P}.
Arguments proc_table {H P}.
Arguments sig_pending_arg {H P}.
Arguments saved {H P}.
Arguments umem {H P}.
Arguments g_fork_child_args {H P}.

(** What a call that may sleep or never come back does: it returns a value, or another thread runs. *)
Inductive Ran (A : Type) : Type := Away | Back (a : A).
Arguments Away {A}.
Arguments Back {A} a.

Section process.
Context {H P : Type} `{KHeap H} `{PageAlloc P}.
(** The addresses of [wait_lock], [fork_child_entry] and [g_fork_child_args] in the kernel image. *)
Context (wait_lock fork_entry fork_args : Z).
Implicit Types (s : Kern H P).

Definition with_ksched (x : Sched H) s : Kern H P :=
  mkKern x (kvmm s) (ktables s) (kpipes s) (procs s) (proc_list s) (next_pid s) (proc_table s) (sig_pending_arg s) (saved s) (umem s) (g_fork_child_args s).
Definition with_kvmm (x : Vmm P) s : Kern H P :=
  mkKern (ksched s) x (ktables s) (kpipes s) (procs s) (proc_list s) (next_pid s) (proc_table s) (sig_pending_arg s) (saved s) (umem s) (g_fork_child_args s).
Definition with_procs (m : gmap Z Process) s : Kern H P :=
  mkKern (ksched s) (kvmm s) (ktables s) (kpipes s) m (proc_list s) (next_pid s) (proc_table s) (sig_pending_arg s) (saved s) (umem s) (g_fork_child_args s).
Definition with_list (hd n : Z) s : Kern H P :=
  mkKern (ksched s) (kvmm s) (ktables s) (kpipes s) (procs s) hd n (proc_table s) (sig_pending_arg s) (saved s) (umem s) (g_fork_child_args s).
Definition with_ptable (t : list Z) s : Kern H P :=
  mkKern (ksched s) (kvmm s) (ktables s) (kpipes s) (procs s) (proc_list s) (next_pid s) t (sig_pending_arg s) (saved s) (umem s) (g_fork_child_args s).
Definition with_arg (v : Z) s : Kern H P :=
  mkKern (ksched s) (kvmm s) (ktables s) (kpipes s) (procs s) (proc_list s) (next_pid s) (proc_table s) v (saved s) (umem s) (g_fork_child_args s).
Definition with_umem (m : gmap Z (gmap Z Z)) s : Kern H P :=
  mkKern (ksched s) (kvmm s) (ktables s) (kpipes s) (procs s) (proc_list s) (next_pid s) (proc_table s) (sig_pending_arg s) (saved s) m (g_fork_child_args s).
Definition with_saved (f : SyscallFrame) s : Kern H P :=
  mkKern (ksched s) (kvmm s) (ktables s) (kpipes s) (procs s) (proc_list s) (next_pid s) (proc_table s) (sig_pending_arg s) f (umem s) (g_fork_child_args s).
Definition with_fork_args (x : Z * ForkContext) s : Kern H P :=
  mkKern (ksched s) (kvmm s) (ktables s) (kpipes s) (procs s) (proc_list s) (next_pid s) (proc_table s) (sig_pending_arg s) (saved s) (umem s) x.

(** The parts of the state that the other components own. *)
Definition sch {A} (m : K (Sched H) A) : K (Kern H P) A := zoom ksched with_ksched m.
Definition vm {A} (m : K (Vmm P) A) : K (Kern H P) A := zoom kvmm with_kvmm m.
Definition get_fds s : Fds H := mkFds (kheap (ksched s)) (ktables s) (kpipes s).
Definition set_fds (x : Fds H) s : Kern H P :=
  mkKern (with_heap (dheap x) (ksched s)) (kvmm s) (fd_tables x) (pipes x) (procs s) (proc_list s) (next_pid s) (proc_table s)
    (sig_pending_arg s) (saved s) (umem s) (g_fork_child_args s).
Definition fds {A} (m : K (Fds H) A) : K (Kern H P) A := zoom get_fds set_fds m.

Definition proc (a : Z) : K (Kern H P) Process := kopt (λ s, procs s !! a).
Definition upd_proc (a : Z) (f : Process → Process) : K (Kern H P) unit :=
  kupd (λ s, p ← procs s !! a; Some (with_procs (<[a := f p]> (procs s)) s)).

(** [proc_get_cr3(proc_get_by_tid(tid))] *)
Definition cr3_of s (tid : Z) : Z :=
  let kernel := kernel_pml4_phys (kvmm s) in
  if negb (tid <? MAX_PROCESSES) then kernel else
  match a ← zget (proc_table s) tid; procs s !! a with
  | Some p => if page_table p =? 0 then kernel else page_table p
  | None => kernel
  end.
(** [sched_schedule()]: whether another thread runs, which then goes on where it was. *)
Definition sched_schedule : K (Kern H P) bool := λ s,
  (switched ← sch (Sched.sched_schedule (cr3_of s) InSchedule);
   (if switched : bool then sch resume_current else mret tt);;
   mret switched) s.

(** A store to, and a load from, the user memory of process [p]. *)
Definition user_store (p a : Z) (l : list Z) : K (Kern H P) unit := λ s,
  match write_bytes a l (default ∅ (umem s !! p)) with
  | Some m => Done tt (with_umem (<[p := m]> (umem s)) s)
  | None => Panic s
  end.
Definition user_load (p a n : Z) : K (Kern H P) (list Z) := λ s,
  match read_bytes a n (default ∅ (umem s !! p)) with Some l => Done l s | None => Panic s end.

(** ** Process control blocks *)

Definition proc_setup (p : Z) : K (Kern H P) unit :=
  n ← kget next_pid;
  hd ← kget proc_list;
  upd_proc p (λ x, mkProc n n PROC_ALIVE (exit_status x) (main_thread x) (page_table x) (fd_table x) (brk_current x) (brk_start x)
    [47] (uid x) (gid x) (euid x) (egid x) 18 (sig_init (sig x)) (parent x) hd);;
  sch (wq_init (child_exit_wq p));;
  kmod (with_list p (u32 (n + 1))).

Definition zero_proc : Process := mkProc 0 0 0 0 0 0 0 0 0 [] 0 0 0 0 0 (mkSig 0 (replicate 32 0) 0 zero_sf) 0 0.
(** [kmalloc(sizeof(Process), GFP_ZERO)] *)
Definition alloc_proc : K (Kern H P) Z :=
  a ← sch (heap_alloc SIZEOF_PROCESS 1);
  (if a =? 0 then mret tt else kmod (λ s, with_procs (<[a := zero_proc]> (procs s)) s));;
  mret a.
Definition free_proc (a : Z) : K (Kern H P) unit :=
  sch (heap_free a);;
  sch (kmod (λ x : Sched H, with_wqs (delete (child_exit_wq a) (wqs x)) x));;
  kmod (λ s, with_umem (delete a (umem s)) (with_procs (delete a (procs s)) s)).
(** [kfree] of a descriptor table, or of NULL. *)
Definition free_table (ft : Z) : K (Kern H P) unit :=
  if ft =? 0 then mret tt else
  fds (d_free ft;; kmod (λ x : Fds H, with_tables (delete ft (fd_tables x)) x)).

Definition set_table_slot (tid p : Z) : K (Kern H P) unit :=
  if tid <? MAX_PROCESSES then kupd (λ s, t ← zset (proc_table s) tid p; Some (with_ptable t s)) else mret tt.
Definition proc_set_main_thread (p t : Z) : K (Kern H P) unit :=
  upd_proc p (set_thread t);;
  th ← sch (th t);
  set_table_slot (tid th) p.

Definition proc_init : K (Kern H P) unit :=
  p ← alloc_proc;
  if p =? 0 then kpanic else
  proc_setup p;;
  t ← sch (kget current_thread);
  proc_set_main_thread p t.

Definition proc_create (entry arg : Z) : K (Kern H P) Z :=
  p ← alloc_proc;
  if p =? 0 then mret 0 else
  t ← sch (thread_create entry arg);
  if t =? 0 then free_proc p;; mret 0 else
  proc_setup p;;
  upd_proc p (set_page_table 0);;
  proc_set_main_thread p t;;
  sch (sched_add_thread t);;
  mret p.

Definition proc_create_user : K (Kern H P) Z :=
  p ← alloc_proc;
  if p =? 0 then mret 0 else
  proc_setup p;;
  pml4 ← vm vmm_create_user_pml4;
  upd_proc p (set_page_table pml4);;
  mret p.

Definition proc_get_by_tid (tid : Z) : K (Kern H P) Z :=
  if tid <? MAX_PROCESSES then kopt (λ s, zget (proc_table s) tid) else mret 0.
Definition proc_current : K (Kern H P) Z :=
  t ← sch (kget current_thread);
  if t =? 0 then mret 0 else
  th ← sch (th t);
  proc_get_by_tid (tid th).

(** The first process of the list that satisfies a test, or 0; the fuel is the number of processes. *)
Fixpoint list_find (fuel : nat) (m : gmap Z Process) (f : Process → bool) (a : Z) : option Z :=
  if a =? 0 then Some 0 else
  match fuel with
  | O => None
  | S fuel' => p ← m !! a; if f p then Some a else list_find fuel' m f (pnext p)
  end.
Definition find_proc (f : Process → bool) : K (Kern H P) Z :=
  kopt (λ s, list_find (size (procs s)) (procs s) f (proc_list s)).
Definition proc_get_by_pid (n : Z) : K (Kern H P) Z :=
  find_proc (λ p, (pid p =? n) && negb (pstate p =? PROC_TERMINATED)).
Definition proc_find_zombie_child (a : Z) : K (Kern H P) Z :=
  find_proc (λ p, (parent p =? a) && (pstate p =? PROC_ZOMBIE)).
Definition proc_find_stopped_child (a : Z) : K (Kern H P) Z :=
  find_proc (λ p, (parent p =? a) && (pstate p =? PROC_STOPPED) && negb (exit_status p =? 0)).
Definition proc_has_children (a : Z) : K (Kern H P) Z :=
  c ← find_proc (λ p, (parent p =? a) && negb (pstate p =? PROC_TERMINATED));
  mret (if c =? 0 then 0 else 1).
(** The result and the exit status written to [*status_out]. *)
Definition proc_reap (child : Z) : K (Kern H P) (Z * Z) :=
  if child =? 0 then mret (- EINVAL, 0) else
  c ← proc child;
  if negb (pstate c =? PROC_ZOMBIE) then mret (- EINVAL, 0) else
  upd_proc child (set_pstate PROC_TERMINATED);;
  mret (i32 (pid c), exit_status c).

(** The callback takes and returns what its [ctx] points to. *)
Fixpoint foreach_loop {C} (fuel : nat) (cb : Z → C → K (Kern H P) C) (a : Z) (ctx : C) (count : Z) : K (Kern H P) (Z * C) :=
  if a =? 0 then mret (count, ctx) else
  match fuel with
  | O => kstuck
  | S fuel' =>
      p ← proc a;
      if negb (pstate p =? PROC_TERMINATED) then
        ctx' ← cb a ctx;
        p' ← proc a;
        foreach_loop fuel' cb (pnext p') ctx' (i32 (count + 1))
      else foreach_loop fuel' cb (pnext p) ctx count
  end.
Definition proc_foreach {C} (cb : Z → C → K (Kern H P) C) (ctx : C) : K (Kern H P) (Z * C) :=
  fuel ← kget (λ s, size (procs s));
  hd ← kget proc_list;
  foreach_loop fuel cb hd ctx 0.

(** ** Fork *)

Definition proc_fork (par : Z) (ctx : ForkContext) : K (Kern H P) Z :=
  if par =? 0 then mret 0 else
  p ← proc par;
  if page_table p =? 0 then mret 0 else
  child_pml4 ← vm (vmm_fork_address_space (page_table p));
  if child_pml4 =? 0 then mret 0 else
  child ← alloc_proc;
  if child =? 0 then vm (vmm_destroy_user_pml4 child_pml4);; mret 0 else
  proc_setup child;;
  upd_proc child (λ c, mkProc (pid c) (pgid p) (pstate c) (exit_status c) (main_thread c) child_pml4 (fd_table c)
    (brk_current p) (brk_start p) (cwd p) (uid p) (gid p) (euid p) (egid p) (umask p) (sig c) par (pnext c));;
  kmod (λ s, with_umem (<[child := default ∅ (umem s !! par)]> (umem s)) s);;
  ft ← fds (fd_table_dup (fd_table p));
  upd_proc child (set_fd_table ft);;
  kmod (with_fork_args (child, ctx));;
  t ← sch (thread_create fork_entry fork_args);
  if t =? 0 then
    free_table ft;;
    vm (vmm_destroy_user_pml4 child_pml4);;
    free_proc child;;
    mret 0
  else
  proc_set_main_thread child t;;
  sch (sched_add_thread t);;
  mret child.

(** What the thread of a forked child does first: the user registers it returns with. *)
Definition fork_child_entry : K (Kern H P) (Z * SyscallFrame) :=
  args ← kget g_fork_child_args;
  t ← sch (kget current_thread);
  th ← sch (th t);
  sch (kmod (with_kernel_stack (kernel_stack_top th)));;
  child ← proc args.1;
  sch (kmod (with_cr3 (page_table child)));;
  let c := args.2 in
  mret (0, mkFrame (fk_r15 c) (fk_r14 c) (fk_r13 c) (fk_r12 c) (fk_rbp c) (fk_rbx c) (fk_rip c) (fk_rflags c) (fk_rsp c)).

(** ** Sending signals *)

Definition sig_continue (p : Z) : K (Kern H P) unit :=
  x ← proc p;
  if negb (pstate x =? PROC_STOPPED) then mret tt else
  upd_proc p (set_pstate PROC_ALIVE);;
  sch (upd_th (main_thread x) (set_state THREAD_READY));;
  sch (sched_add_thread (main_thread x)).

Definition post (p signo : Z) : K (Kern H P) unit :=
  upd_proc p (λ x, set_sig (raise signo (sig x)) x);;
  x ← proc p;
  if (signo =? SIGCONT) && (pstate x =? PROC_STOPPED) then sig_continue p else mret tt.
Definition sig_send (n signo : Z) : K (Kern H P) Z :=
  if (signo <? 1) || (NSIG <=? signo) then mret (- EINVAL) else
  p ← proc_get_by_pid n;
  if p =? 0 then mret (- ESRCH) else
  post p signo;;
  mret 0.
(** The context of the callback is the count. *)
Definition sig_group_cb (g signo : Z) (a count : Z) : K (Kern H P) Z :=
  p ← proc a;
  if pgid p =? g then post a signo;; mret (i32 (count + 1)) else mret count.
Definition sig_send_group (g signo : Z) : K (Kern H P) Z :=
  if (signo <? 1) || (NSIG <=? signo) then mret (- EINVAL) else
  r ← proc_foreach (sig_group_cb g signo) 0;
  mret (if 0 <? r.2 then 0 else - ESRCH).

(** ** Delivering signals *)

Definition notify_parent (p : Z) : K (Kern H P) unit :=
  x ← proc p;
  if parent x =? 0 then mret tt else
  sch (wq_wake (child_exit_wq (parent x)));;
  par ← proc (parent x);
  sig_send (pid par) SIGCHLD;;
  mret tt.
Definition sig_stop (p signo : Z) : K (Kern H P) bool :=
  upd_proc p (set_exit PROC_STOPPED signo);;
  x ← proc p;
  sch (upd_th (main_thread x) (set_state THREAD_STOPPED));;
  sch (sched_remove_thread (main_thread x));;
  notify_parent p;;
  sched_schedule.
Definition sig_terminate (p signo : Z) : K (Kern H P) bool :=
  upd_proc p (set_exit PROC_ZOMBIE (128 + signo));;
  x ← proc p;
  sch (upd_th (main_thread x) (set_state THREAD_DEAD));;
  sched_schedule.

Definition sig_restore_context (p : Z) : K (Kern H P) (Z * SyscallFrame) :=
  x ← proc p;
  let sf := restore_frame (sig x) in
  upd_proc p (λ x, set_sig (set_restoring 0 sf (sig x)) x);;
  kmod (with_arg 0);;
  mret (i64 (sf_rax sf),
    mkFrame (sf_r15 sf) (sf_r14 sf) (sf_r13 sf) (sf_r12 sf) (sf_rbp sf) (sf_rbx sf) (user_rip sf) (user_rflags sf) (user_rsp sf)).

(** The new frame, or [None] when the user stack is not valid. *)
Definition sig_setup_frame (p : Z) (frame : SyscallFrame) (handler signo ret : Z) : K (Kern H P) (option SyscallFrame) :=
  let rsp := Z.land (u64 (frsp frame - SIZEOF_SIGFRAME)) (u64 (Z.lnot 0xF)) in
  if negb (user_ptr_valid rsp SIZEOF_SIGFRAME) then mret None else
  let sf := mkSf sigreturn_trampoline (frcx frame) (frsp frame) (fr11 frame) (u64 ret) (frbx frame) (frbp frame)
              (fr12 frame) (fr13 frame) (fr14 frame) (fr15 frame) 0 0 0 0 0 0 signo rsp in
  user_store p rsp (sf_bytes sf);;
  kmod (with_arg signo);;
  mret (Some (mkFrame 0 0 0 0 0 0 handler (fr11 frame) rsp)).

(** The loop over the signals; each pass takes the lowest one that is pending. *)
Fixpoint deliver_loop (signals : list Z) (p : Z) (frame : SyscallFrame) (ret : Z) : K (Kern H P) (Ran (Z * SyscallFrame)) :=
  match signals with
  | [] => mret (Back (ret, frame))
  | signo :: rest =>
      x ← proc p;
      if negb (is_pending signo (sig x)) then deliver_loop rest p frame ret else
      upd_proc p (λ x, set_sig (lower signo (sig x)) x);;
      let gone (m : K (Kern H P) bool) : K (Kern H P) (Ran (Z * SyscallFrame)) :=
        away ← m; mret (if away : bool then Away else Back (ret, frame)) in
      if signo =? SIGKILL then gone (sig_terminate p signo) else
      if signo =? SIGSTOP then gone (sig_stop p signo) else
      h ← kopt (λ _, zget (handlers (sig x)) signo);
      if h =? SIG_IGN then deliver_loop rest p frame ret else
      if h =? SIG_DFL then
        let action := default_action signo in
        if (action =? 1) || (action =? 2) then deliver_loop rest p frame ret else
        if action =? 3 then gone (sig_stop p signo) else gone (sig_terminate p signo)
      else
        f ← sig_setup_frame p frame h signo ret;
        match f with
        | Some frame' => mret (Back (ret, frame'))
        | None => gone (sig_terminate p signo)
        end
  end.
Definition sig_maybe_deliver (frame : SyscallFrame) (ret : Z) : K (Kern H P) (Ran (Z * SyscallFrame)) :=
  p ← proc_current;
  if p =? 0 then mret (Back (ret, frame)) else
  x ← proc p;
  if negb (restoring (sig x) =? 0) then r ← sig_restore_context p; mret (Back r) else
  if pending (sig x) =? 0 then mret (Back (ret, frame)) else
  deliver_loop (seqZ 1 (NSIG - 1)) p frame ret.

(** ** System calls *)

Definition sys_signal (signo handler : Z) : K (Kern H P) Z :=
  p ← proc_current;
  if p =? 0 then mret (- ENOSYS) else
  x ← proc p;
  r ← kopt (λ _, sig_set_handler (sig x) (i32 signo) handler);
  upd_proc p (set_sig r.2);;
  mret (i64 r.1).
Definition sys_kill (pid_arg signo : Z) : K (Kern H P) Z :=
  let n := i64 pid_arg in
  if n <? 0 then sig_send_group (u32 (- n)) (i32 signo) else
  if n =? 0 then
    p ← proc_current;
    if p =? 0 then mret (- ENOSYS) else
    x ← proc p;
    sig_send_group (pgid x) (i32 signo)
  else sig_send (u32 n) (i32 signo).
Definition sys_sigreturn : K (Kern H P) Z :=
  p ← proc_current;
  if p =? 0 then mret (- ENOSYS) else
  rsp ← kget (λ s, frsp (saved s));
  if negb (user_ptr_valid rsp SIZEOF_SIGFRAME) then mret (- EINVAL) else
  l ← user_load p rsp SIZEOF_SIGFRAME;
  upd_proc p (λ x, set_sig (set_restoring 1 (sf_of l) (sig x)) x);;
  mret 0.

(** Closing an end of a pipe wakes the threads that sleep on its queue for the other end
    ([readers_wq] and [writers_wq] lie inside the pipe), before a pipe without references is freed. *)
Definition pipe_wq (a : Z) (e : End) : Z := a + match e with ReadEnd => 4272 | WriteEnd => 4240 end.
Definition wake_on_close (ft i : Z) : K (Kern H P) unit :=
  t ← fds (table ft);
  e ← kopt (λ _, zget t i);
  match node (file e) with
  | PipeEnd a n => if used e then sch (wq_wake_all (pipe_wq a n));; mret tt else mret tt
  | _ => mret tt
  end.
Definition exit_descriptors (ft : Z) : K (Kern H P) unit :=
  if ft =? 0 then mret tt else
  kfor (seqZ 0 MAX_FDS) (λ i, wake_on_close ft i;; fds (exit_step ft i)).

(** [sys_exit] does not return: another thread runs, or the loop on [hlt] does. *)
Definition sys_exit (status : Z) : K (Kern H P) bool :=
  p ← proc_current;
  x ← proc p;
  exit_descriptors (fd_table x);;
  upd_proc p (set_exit PROC_ZOMBIE (i32 status));;
  notify_parent p;;
  t ← sch (kget current_thread);
  sch (upd_th t (set_state THREAD_DEAD));;
  sched_schedule.

Definition wait_encode_exit (raw : Z) : Z := i32 (Z.shiftl (Z.land raw 0xFF) 8).
Definition wait_encode_stopped (signo : Z) : Z := Z.lor (i32 (Z.shiftl signo 8)) 0x7F.

(** [*(int32_t * )status_addr = encoded] *)
Definition put_status (p status_addr encoded : Z) : K (Kern H P) unit :=
  if status_addr =? 0 then mret tt else user_store p status_addr (le_bytes 4 encoded).
(** From taking the wait lock to a result or to sleep; a thread that was asleep makes another pass. *)
Definition wait_pass (p status_addr flags : Z) : K (Kern H P) (Ran Z) :=
  sch (lock_acquire wait_lock);;
  zombie ← proc_find_zombie_child p;
  if negb (zombie =? 0) then
    z ← proc zombie;
    r ← proc_reap zombie;
    sch (lock_release wait_lock);;
    put_status p status_addr (wait_encode_exit (exit_status z));;
    mret (Back r.1)
  else
  stopped ← proc_find_stopped_child p;
  if negb (stopped =? 0) then
    z ← proc stopped;
    upd_proc stopped (λ x, set_exit (pstate x) 0 x);;
    sch (lock_release wait_lock);;
    put_status p status_addr (wait_encode_stopped (exit_status z));;
    mret (Back (pid z))
  else
  has ← proc_has_children p;
  if has =? 0 then sch (lock_release wait_lock);; mret (Back (- ECHILD)) else
  if negb (Z.land flags WNOHANG =? 0) then sch (lock_release wait_lock);; mret (Back 0) else
  (λ s, sch (wq_sleep (cr3_of s) (child_exit_wq p) wait_lock) s);;
  mret Away.
Definition sys_wait (status_addr flags : Z) : K (Kern H P) (Ran Z) :=
  p ← proc_current;
  if p =? 0 then mret (Back (- ENOSYS)) else
  if negb (status_addr =? 0) && negb (user_ptr_valid status_addr 4) then mret (Back (- EINVAL)) else
  wait_pass p status_addr flags.

Definition sys_fork : K (Kern H P) Z :=
  p ← proc_current;
  if p =? 0 then mret (- ENOSYS) else
  f ← kget saved;
  child ← proc_fork p (mkFork (frcx f) (frsp f) (fr11 f) (frbp f) (frbx f) (fr12 f) (fr13 f) (fr14 f) (fr15 f));
  if child =? 0 then mret (- ENOMEM) else
  c ← proc child;
  mret (pid c).

Definition sys_getpid : K (Kern H P) Z :=
  p ← proc_current; if p =? 0 then mret (-1) else x ← proc p; mret (pid x).
Definition sys_getppid : K (Kern H P) Z :=
  p ← proc_current;
  if p =? 0 then mret (- ENOSYS) else
  x ← proc p;
  if parent x =? 0 then mret 0 else y ← proc (parent x); mret (pid y).
Definition sys_getuid : K (Kern H P) Z :=
  p ← proc_current; if p =? 0 then mret 0 else x ← proc p; mret (euid x).
Definition sys_getgid : K (Kern H P) Z :=
  p ← proc_current; if p =? 0 then mret 0 else x ← proc p; mret (egid x).
Definition sys_setuid (new : Z) : K (Kern H P) Z :=
  p ← proc_current;
  if p =? 0 then mret (- ENOSYS) else
  x ← proc p;
  if negb (euid x =? 0) then mret (- EPERM) else
  upd_proc p (set_ids (u32 new) (u32 new) (gid x) (egid x));;
  mret 0.
Definition sys_setgid (new : Z) : K (Kern H P) Z :=
  p ← proc_current;
  if p =? 0 then mret (- ENOSYS) else
  x ← proc p;
  if negb (euid x =? 0) then mret (- EPERM) else
  upd_proc p (set_ids (uid x) (euid x) (u32 new) (u32 new));;
  mret 0.
Definition sys_setpgid (pid_arg pgid_arg : Z) : K (Kern H P) Z :=
  cur ← proc_current;
  if cur =? 0 then mret (- ENOSYS) else
  target ← (if pid_arg =? 0 then mret cur else proc_get_by_pid (u32 pid_arg));
  if target =? 0 then mret (- ESRCH) else
  t ← proc target;
  upd_proc target (set_pgid (if pgid_arg =? 0 then pid t else u32 pgid_arg));;
  mret 0.
Definition sys_getpgid (pid_arg : Z) : K (Kern H P) Z :=
  cur ← proc_current;
  if cur =? 0 then mret (- ENOSYS) else
  if pid_arg =? 0 then x ← proc cur; mret (pgid x) else
  target ← proc_get_by_pid (u32 pid_arg);
  if target =? 0 then mret (- ESRCH) else
  t ← proc target;
  mret (pgid t).
Definition sys_umask (new : Z) : K (Kern H P) Z :=
  p ← proc_current;
  if p =? 0 then mret (- ENOSYS) else
  x ← proc p;
  upd_proc p (set_umask (Z.land (u32 new) 511));;
  mret (umask x).

(** ** Entry and return of a system call *)

(** [syscall_entry]: [frame] is the user context pushed on the kernel stack, [dispatch] the handler;
    the result is the user's RAX, RDI and context. *)
Definition syscall_entry (frame : SyscallFrame) (dispatch : K (Kern H P) (Ran Z)) : K (Kern H P) (Ran (Z * Z * SyscallFrame)) :=
  kmod (with_saved frame);;
  r ← dispatch;
  match r with
  | Away => mret Away
  | Back ret =>
      kmod (with_arg 0);;
      d ← sig_maybe_deliver frame ret;
      match d with
      | Away => mret Away
      | Back (rax, frame') => arg ← kget sig_pending_arg; mret (Back (rax, arg, frame'))
      end
  end.
End process.
