(* ===== verification/ProcessCorrect.v ===== *)
(** * Processes and signals: lemmas and theorems

    The user frame of a signal and the way back from its handler, the process list, [fork]
    and [wait]. *)
From S2P Require Import Prelude PageAlloc Spinlock KHeap Vmm Sched Pipe Fd Process.

(** ** User memory *)

(** The [i]-th word after the trampoline. *)
Lemma word_lookup tr ws i w :
  length tr = 16%nat → ws !! i = Some w → 0 ≤ w < 2 ^ 64 → word (tr ++ concat (le64 <$> ws)) i = w.
Proof.
  intros Ht Hw Hr. unfold word. rewrite drop_app_ge by lia. replace (16 + 8 * i - length tr)%nat with (8 * i)%nat by lia.
  transitivity (le_val (le64 w)); [|by apply le_val_le64]. f_equal.
  clear Hr Ht tr. revert i Hw. induction ws as [|w' ws IH]; intros [|i] Hw; try done.
  - injection Hw as ->. cbn [fmap list_fmap concat]. rewrite Nat.mul_0_r, drop_0. by rewrite take_app_length' by done.
  - cbn [fmap list_fmap concat]. rewrite drop_app_ge by (rewrite (le_bytes_length 8) by lia; lia).
    rewrite (le_bytes_length 8) by lia. replace (8 * S i - Z.to_nat 8)%nat with (8 * i)%nat by lia. by apply IH.
Qed.

Lemma sf_of_bytes f :
  length (trampoline f) = 16%nat → Forall (λ w, 0 ≤ w < 2 ^ 64) (sf_words f) → sf_of (sf_bytes f) = f.
Proof.
  intros Ht Hw. rewrite Forall_lookup in Hw.
  assert (∀ i w, sf_words f !! i = Some w → word (sf_bytes f) i = w) as Hi by (intros i w E; by apply word_lookup, (Hw i)).
  unfold sf_of.
  rewrite (Hi 0%nat (user_rip f) eq_refl), (Hi 1%nat (user_rsp f) eq_refl), (Hi 2%nat (user_rflags f) eq_refl), (Hi 3%nat (sf_rax f) eq_refl), (Hi 4%nat (sf_rbx f) eq_refl), (Hi 5%nat (sf_rbp f) eq_refl),
    (Hi 6%nat (sf_r12 f) eq_refl), (Hi 7%nat (sf_r13 f) eq_refl), (Hi 8%nat (sf_r14 f) eq_refl), (Hi 9%nat (sf_r15 f) eq_refl), (Hi 10%nat (sf_rdi f) eq_refl), (Hi 11%nat (sf_rsi f) eq_refl),
    (Hi 12%nat (sf_rdx f) eq_refl), (Hi 13%nat (sf_r8 f) eq_refl), (Hi 14%nat (sf_r9 f) eq_refl), (Hi 15%nat (sf_r10 f) eq_refl), (Hi 16%nat (sf_signo f) eq_refl), (Hi 17%nat (ret_addr f) eq_refl).
  unfold sf_bytes. rewrite take_app_length' by done. by destruct f.
Qed.

Lemma sf_bytes_length f : length (trampoline f) = 16%nat → length (sf_bytes f) = Z.to_nat SIZEOF_SIGFRAME.
Proof. intros Ht. unfold sf_bytes. rewrite length_app, Ht. by destruct f. Qed.

(** A range of user addresses that is mapped. *)
Definition mapped (m : gmap Z Z) (a n : Z) : Prop := ∀ i, 0 ≤ i < n → is_Some (m !! (a + i)).

Lemma write_bytes_ok l : ∀ a m, mapped m a (Z.of_nat (length l)) →
  ∃ m', write_bytes a l m = Some m' ∧ (∀ i v, l !! i = Some v → m' !! (a + Z.of_nat i) = Some v) ∧
    (∀ b, b < a ∨ a + Z.of_nat (length l) ≤ b → m' !! b = m !! b).
Proof.
  induction l as [|v l IH]; intros a m Hm; cbn [write_bytes length] in *.
  { exists m. split_and!; [done| |done]. by intros [|]. }
  destruct (Hm 0) as [w Hw]; [lia|]. rewrite Z.add_0_r in Hw. rewrite Hw.
  destruct (IH (a + 1) (<[a := v]> m)) as (m' & -> & Hin & Hout).
  { intros i Hi. rewrite lookup_insert_ne by lia. rewrite <-Z.add_assoc. apply Hm. lia. }
  exists m'. split_and!; [done| |].
  - intros [|i] u Hu.
    + injection Hu as <-. rewrite Z.add_0_r, Hout by lia. apply lookup_insert_eq.
    + replace (a + Z.of_nat (S i)) with (a + 1 + Z.of_nat i) by lia. by apply Hin.
  - intros b Hb. rewrite Hout by lia. apply lookup_insert_ne. lia.
Qed.

Lemma read_bytes_ok m a n l :
  Z.of_nat (length l) = n → (∀ i v, l !! i = Some v → m !! (a + Z.of_nat i) = Some v) → read_bytes a n m = Some l.
Proof.
  intros Hl Hm. unfold read_bytes. apply mapM_Some, Forall2_same_length_lookup_2; [rewrite length_seqZ; lia|].
  intros i x y Hx Hy. apply lookup_seqZ in Hx as [-> _]. rewrite Z.add_0_l. by apply Hm.
Qed.

(** ** Signal sets *)

Lemma testbit_u32 v n : 0 ≤ n < 32 → Z.testbit (u32 v) n = Z.testbit v n.
Proof. intros. unfold u32. by rewrite Z.mod_pow2_bits_low by lia. Qed.
Lemma is_pending_testbit j ss : 0 ≤ j < 32 → is_pending j ss = Z.testbit (pending ss) j.
Proof.
  intros Hj. unfold is_pending. rewrite u32_small.
  - rewrite land_bit_zero by lia. by rewrite negb_involutive.
  - rewrite Z.shiftl_1_l. split; [lia|]. apply Z.pow_lt_mono_r; lia.
Qed.
Lemma is_pending_lower j k ss :
  0 ≤ j < 32 → 0 ≤ k < 32 → is_pending j (lower k ss) = negb (j =? k) && is_pending j ss.
Proof.
  intros Hj Hk. rewrite !is_pending_testbit by done. unfold lower. cbn.
  rewrite Z.land_spec, testbit_u32, Z.lnot_spec, testbit_u32, testbit_shiftl_1 by lia.
  destruct (Z.eqb_spec j k); case_bool_decide; try done; simpl; by rewrite ?andb_true_r, ?andb_false_r.
Qed.
Lemma is_pending_raise j k ss :
  0 ≤ j < 32 → 0 ≤ k < 32 → is_pending j (raise k ss) = (j =? k) || is_pending j ss.
Proof.
  intros Hj Hk. rewrite !is_pending_testbit by done. unfold raise. cbn.
  rewrite Z.lor_spec, testbit_u32, testbit_shiftl_1 by lia.
  destruct (Z.eqb_spec j k); case_bool_decide; try done; simpl; by rewrite ?orb_true_r, ?orb_false_r.
Qed.

(** A signal that delivery passes over: it is ignored, by choice or by default. *)
Definition skipped (ss : SigState) (signo : Z) : Prop :=
  signo ≠ SIGKILL ∧ signo ≠ SIGSTOP ∧ ∃ h, zget (handlers ss) signo = Some h ∧
    (h = SIG_IGN ∨ h = SIG_DFL ∧ (default_action signo = 1 ∨ default_action signo = 2)).

Section process.
Context {H P : Type} `{KHeap H} `{PageAlloc P}.
Implicit Types (s : Kern H P).

Lemma sch_get {A} (f : Sched H → A) s : sch (kget f) s = Done (f (ksched s)) s.
Proof. by destruct s. Qed.
Lemma proc_bind {A} s a x (k : Process → K (Kern H P) A) : procs s !! a = Some x → (proc a ≫= k) s = k x s.
Proof. intros E. by apply kopt_bind. Qed.
Lemma upd_proc_bind {A} s a x f (k : unit → K (Kern H P) A) :
  procs s !! a = Some x → (upd_proc a f ≫= k) s = k tt (with_procs (<[a := f x]> (procs s)) s).
Proof. intros E. apply bind_Done. unfold upd_proc, kupd. by rewrite E. Qed.

(** The running thread is that of process [p]. *)
Definition running s (p : Z) (x : Process) : Prop :=
  ∃ t, current_thread (ksched s) ≠ 0 ∧ threads (ksched s) !! current_thread (ksched s) = Some t ∧
    tid t < MAX_PROCESSES ∧ zget (proc_table s) (tid t) = Some p ∧ p ≠ 0 ∧ procs s !! p = Some x.

Lemma running_current s p x : running s p x → proc_current s = Done p s.
Proof.
  intros (t & Ht & Et & Hlt & Ep & _). unfold proc_current. kbind (sch_get current_thread s).
  rewrite (proj2 (Z.eqb_neq _ _) Ht).
  assert (sch (th (current_thread (ksched s))) s = Done t s) as Eth.
  { unfold sch, zoom, th, kopt. rewrite Et. by destruct s. }
  kbind Eth. unfold proc_get_by_tid. rewrite (proj2 (Z.ltb_lt _ _) Hlt). unfold kopt. by rewrite Ep.
Qed.
Lemma running_proc s p x : running s p x → p ≠ 0 ∧ procs s !! p = Some x.
Proof. by intros (t & _ & _ & _ & _ & ? & ?). Qed.
Lemma running_upd s p x y : running s p x → running (with_procs (<[p := y]> (procs s)) s) p y.
Proof. intros (t & ? & ? & ? & ? & ? & ?). exists t. split_and!; try done. apply lookup_insert_eq. Qed.

(** ** Delivery *)

Lemma with_procs_id s p x : procs s !! p = Some x → with_procs (<[p := set_sig (sig x) x]> (procs s)) s = s.
Proof. intros E. rewrite insert_id by (rewrite E; by destruct x). by destruct s. Qed.

(** The signals of [l] that are pending are all passed over, and cleared. *)
Lemma deliver_skip p frame ret rest l : ∀ s x, procs s !! p = Some x →
  Forall (λ j, 0 ≤ j < 32 ∧ (is_pending j (sig x) = true → skipped (sig x) j)) l →
  ∃ ss, deliver_loop (l ++ rest) p frame ret s =
      deliver_loop rest p frame ret (with_procs (<[p := set_sig ss x]> (procs s)) s) ∧
    handlers ss = handlers (sig x) ∧ restoring ss = restoring (sig x) ∧
    (∀ j, 0 ≤ j < 32 → is_pending j ss = is_pending j (sig x) && bool_decide (j ∉ l)).
Proof.
  induction l as [|j l IH]; intros s x Ex Hl.
  { exists (sig x). rewrite with_procs_id by done. split_and!; [done..|]. intros. by rewrite andb_true_r. }
  inversion Hl as [|?? [Hj Hsk] Hl']; subst. cbn [app deliver_loop]. rewrite (proc_bind s p x) by done.
  destruct (is_pending j (sig x)) eqn:Ej; cbn [negb].
  - destruct (Hsk eq_refl) as (Hk & Hs & h & Eh & Hh). rewrite (upd_proc_bind s p x) by done.
    rewrite (proj2 (Z.eqb_neq _ _) Hk), (proj2 (Z.eqb_neq _ _) Hs). rewrite (kopt_bind _ _ _ h) by done.
    destruct (IH (with_procs (<[p := set_sig (lower j (sig x)) x]> (procs s)) s) (set_sig (lower j (sig x)) x))
      as (ss & E & E1 & E2 & E3); [by apply lookup_insert_eq| |].
    { eapply Forall_impl; [exact Hl'|]. cbn. intros k [Hk' Hs']. split; [done|].
      rewrite is_pending_lower by done. intros [_ Hp]%andb_true_iff. exact (Hs' Hp). }
    exists ss. split_and!; [|done..|].
    + transitivity (deliver_loop (l ++ rest) p frame ret (with_procs (<[p := set_sig (lower j (sig x)) x]> (procs s)) s)).
      * destruct Hh as [->|[-> [Ha|Ha]]]; [done|rewrite Ha; done..].
      * rewrite E. cbn. by rewrite insert_insert_eq.
    + intros k Hk'. rewrite E3 by done. cbn. rewrite is_pending_lower by done.
      destruct (Z.eqb_spec k j) as [->|]; cbn; [rewrite bool_decide_eq_false_2 by set_solver; by rewrite andb_false_r|].
      f_equal. apply bool_decide_ext. set_solver.
  - destruct (IH s x Ex Hl') as (ss & E & E1 & E2 & E3). exists ss. split_and!; [done..|].
    intros k Hk'. rewrite E3 by done. destruct (decide (k = j)) as [->|]; [by rewrite Ej|].
    f_equal. apply bool_decide_ext. set_solver.
Qed.

Lemma user_store_ok s p a l : mapped (default ∅ (umem s !! p)) a (Z.of_nat (length l)) →
  ∃ m, user_store p a l s = Done tt (with_umem (<[p := m]> (umem s)) s) ∧
    (∀ i v, l !! i = Some v → m !! (a + Z.of_nat i) = Some v).
Proof.
  intros Hm. destruct (write_bytes_ok l a _ Hm) as (m & E & Hin & _). exists m. split; [|done].
  unfold user_store. by rewrite E.
Qed.

(** ** The frame of a signal *)

Definition word_ok (v : Z) : Prop := 0 ≤ v < 2 ^ 64.
Definition frame_ok (f : SyscallFrame) : Prop :=
  word_ok (fr15 f) ∧ word_ok (fr14 f) ∧ word_ok (fr13 f) ∧ word_ok (fr12 f) ∧ word_ok (frbp f) ∧ word_ok (frbx f) ∧
  word_ok (frcx f) ∧ word_ok (fr11 f) ∧ word_ok (frsp f).
Definition sig_rsp (frame : SyscallFrame) : Z := Z.land (u64 (frsp frame - SIZEOF_SIGFRAME)) (u64 (Z.lnot 0xF)).
Definition sig_frame (frame : SyscallFrame) (signo ret : Z) : SignalFrame :=
  mkSf sigreturn_trampoline (frcx frame) (frsp frame) (fr11 frame) (u64 ret) (frbx frame) (frbp frame)
    (fr12 frame) (fr13 frame) (fr14 frame) (fr15 frame) 0 0 0 0 0 0 signo (sig_rsp frame).
Definition handler_frame (frame : SyscallFrame) (h : Z) : SyscallFrame :=
  mkFrame 0 0 0 0 0 0 h (fr11 frame) (sig_rsp frame).

Lemma sig_frame_bytes frame signo ret : frame_ok frame → 0 ≤ signo < 32 → user_ptr_valid (sig_rsp frame) SIZEOF_SIGFRAME = true →
  sf_of (sf_bytes (sig_frame frame signo ret)) = sig_frame frame signo ret.
Proof.
  intros (?&?&?&?&?&?&?&?&?) Hs Hv. apply sf_of_bytes; [done|].
  assert (word_ok (sig_rsp frame)) as Hr.
  { unfold sig_rsp. change 0xF with (2 ^ 4 - 1). rewrite land_align by (pose proof (u64_range (frsp frame - SIZEOF_SIGFRAME)); lia).
    pose proof (u64_range (frsp frame - SIZEOF_SIGFRAME)). unfold word_ok. change (2 ^ 4) with 16. lia. }
  pose proof (u64_range ret). unfold word_ok in *.
  repeat (apply Forall_cons; split; [cbn; lia|]). by apply Forall_nil.
Qed.

Lemma setup_frame_ok s p frame h signo ret :
  user_ptr_valid (sig_rsp frame) SIZEOF_SIGFRAME = true →
  mapped (default ∅ (umem s !! p)) (sig_rsp frame) SIZEOF_SIGFRAME →
  ∃ m, sig_setup_frame p frame h signo ret s =
      Done (Some (handler_frame frame h)) (with_arg signo (with_umem (<[p := m]> (umem s)) s)) ∧
    read_bytes (sig_rsp frame) SIZEOF_SIGFRAME m = Some (sf_bytes (sig_frame frame signo ret)).
Proof.
  intros Hv Hm. assert (length (sf_bytes (sig_frame frame signo ret)) = Z.to_nat SIZEOF_SIGFRAME) as Hl by by apply sf_bytes_length.
  destruct (user_store_ok s p (sig_rsp frame) (sf_bytes (sig_frame frame signo ret))) as (m & E & Hin); [by rewrite Hl|].
  exists m. split; [|apply read_bytes_ok; [by rewrite Hl|done]].
  unfold sig_setup_frame. fold (sig_rsp frame). rewrite Hv. cbn [negb]. fold (sig_frame frame signo ret). by kbind E.
Qed.

(** A caught signal whose turn it is reaches its handler. *)
Lemma deliver_handler s p x frame ret signo h :
  running s p x → restoring (sig x) = 0 → 1 ≤ signo < NSIG → signo ≠ SIGKILL → signo ≠ SIGSTOP →
  is_pending signo (sig x) = true → zget (handlers (sig x)) signo = Some h → h ≠ SIG_IGN → h ≠ SIG_DFL →
  (∀ j, 1 ≤ j < signo → is_pending j (sig x) = true → skipped (sig x) j) →
  user_ptr_valid (sig_rsp frame) SIZEOF_SIGFRAME = true →
  mapped (default ∅ (umem s !! p)) (sig_rsp frame) SIZEOF_SIGFRAME →
  ∃ ss m, sig_maybe_deliver frame ret s = Done (Back (ret, handler_frame frame h))
      (with_arg signo (with_umem (<[p := m]> (umem s)) (with_procs (<[p := set_sig ss x]> (procs s)) s))) ∧
    handlers ss = handlers (sig x) ∧
    (∀ j, 1 ≤ j < NSIG → is_pending j ss = is_pending j (sig x) && (signo <? j)) ∧
    read_bytes (sig_rsp frame) SIZEOF_SIGFRAME m = Some (sf_bytes (sig_frame frame signo ret)).
Proof.
  unfold NSIG. intros Hrun Hr Hs Hk Hst Hp Eh Hi Hd Hlow Hv Hm. destruct (running_proc _ _ _ Hrun) as [Hp0 Ex].
  assert (pending (sig x) ≠ 0) as Hpend.
  { intros E. rewrite is_pending_testbit, E, Z.testbit_0_l in Hp by lia. done. }
  assert (seqZ 1 (NSIG - 1) = seqZ 1 (signo - 1) ++ signo :: seqZ (signo + 1) (31 - signo)) as Hseq.
  { unfold NSIG. replace (32 - 1) with ((signo - 1) + (32 - signo)) by lia. rewrite seqZ_app by lia. f_equal.
    rewrite seqZ_cons by lia. f_equal; [lia|]. f_equal; lia. }
  destruct (deliver_skip p frame ret (signo :: seqZ (signo + 1) (31 - signo)) (seqZ 1 (signo - 1)) s x Ex) as (ss & E & E1 & E2 & E3).
  { apply Forall_forall. intros j Hj%elem_of_seqZ. split; [lia|]. apply Hlow. lia. }
  set (s1 := with_procs (<[p := set_sig ss x]> (procs s)) s) in *.
  assert (procs s1 !! p = Some (set_sig ss x)) as Ex1 by apply lookup_insert_eq.
  destruct (setup_frame_ok (with_procs (<[p := set_sig (lower signo ss) (set_sig ss x)]> (procs s1)) s1) p frame h signo ret Hv Hm)
    as (m & Em & Hread).
  exists (lower signo ss), m. split_and!; [|done| |done].
  - unfold sig_maybe_deliver. kbind (running_current _ _ _ Hrun). rewrite (proj2 (Z.eqb_neq _ _) Hp0).
    rewrite (proc_bind s p x) by done. rewrite Hr, (proj2 (Z.eqb_neq _ _) Hpend). cbn [negb Z.eqb]. rewrite Hseq, E.
    cbn [deliver_loop]. rewrite (proc_bind s1 p (set_sig ss x)) by done. cbn [sig set_sig].
    rewrite E3, Hp by lia. rewrite bool_decide_eq_true_2 by (rewrite elem_of_seqZ; lia). cbn [negb andb].
    rewrite (upd_proc_bind s1 p (set_sig ss x)) by done.
    rewrite (proj2 (Z.eqb_neq _ _) Hk), (proj2 (Z.eqb_neq _ _) Hst). rewrite (kopt_bind _ _ _ h) by (by rewrite E1).
    rewrite (proj2 (Z.eqb_neq _ _) Hi), (proj2 (Z.eqb_neq _ _) Hd). kbind Em. cbn. by rewrite insert_insert_eq.
  - intros j Hj. rewrite is_pending_lower, E3 by lia. destruct (is_pending j (sig x)); [|by rewrite andb_false_r].
    cbn. destruct (Z.ltb_spec signo j); destruct (Z.eqb_spec j signo); cbn; try lia; try done.
    + apply bool_decide_eq_true_2. rewrite elem_of_seqZ. lia.
    + apply bool_decide_eq_false_2. rewrite elem_of_seqZ. lia.
Qed.

Lemma i64_u64 v : - 2 ^ 63 ≤ v < 2 ^ 63 → i64 (u64 v) = v.
Proof.
  intros Hv. unfold i64, u64. rewrite Z.mod_mod by done. cbn zeta. destruct (Z.ltb_spec v 0).
  - rewrite <-(Z.mod_add v 1), (Z.mod_small (v + 1 * 2 ^ 64)) by lia. destruct (Z.ltb_spec (v + 1 * 2 ^ 64) (2 ^ 63)); lia.
  - rewrite Z.mod_small by lia. destruct (Z.ltb_spec v (2 ^ 63)); lia.
Qed.

(** [sigreturn] from the stack of the handler restores the interrupted context. *)
Lemma sigreturn_lemma s p x frame ret signo regs :
  running s p x → frame_ok frame → 0 ≤ signo < 32 → - 2 ^ 63 ≤ ret < 2 ^ 63 →
  user_ptr_valid (sig_rsp frame) SIZEOF_SIGFRAME = true → frsp regs = sig_rsp frame →
  read_bytes (sig_rsp frame) SIZEOF_SIGFRAME (default ∅ (umem s !! p)) = Some (sf_bytes (sig_frame frame signo ret)) →
  ∃ s', syscall_entry regs (r ← sys_sigreturn; mret (Back r)) s = Done (Back (ret, 0, frame)) s' ∧
    procs s' = <[p := set_sig (set_restoring 0 (sig_frame frame signo ret) (sig x)) x]> (procs s) ∧ umem s' = umem s.
Proof.
  intros Hrun Hf Hs Hret Hv Hrsp Hread. destruct (running_proc _ _ _ Hrun) as [Hp0 Ex].
  set (s1 := with_saved regs s). assert (running s1 p x) as Hrun1 by exact Hrun.
  set (x1 := set_sig (set_restoring 1 (sig_frame frame signo ret) (sig x)) x).
  set (s2 := with_procs (<[p := x1]> (procs s1)) s1).
  assert (sys_sigreturn s1 = Done 0 s2) as E1.
  { unfold sys_sigreturn. kbind (running_current _ _ _ Hrun1). rewrite (proj2 (Z.eqb_neq _ _) Hp0), kget_bind.
    change (frsp (saved s1)) with (frsp regs). rewrite Hrsp, Hv. cbn [negb].
    assert (user_load p (sig_rsp frame) SIZEOF_SIGFRAME s1 = Done (sf_bytes (sig_frame frame signo ret)) s1) as El.
    { unfold user_load. change (umem s1) with (umem s). by rewrite Hread. }
    kbind El. rewrite (upd_proc_bind s1 p x) by done. by rewrite sig_frame_bytes. }
  set (s3 := with_arg 0 s2). assert (running s3 p x1) as Hrun3 by exact (running_upd s1 p x x1 Hrun1).
  destruct (running_proc _ _ _ Hrun3) as [_ Ex3].
  exists (with_arg 0 (with_procs (<[p := set_sig (set_restoring 0 (sig_frame frame signo ret) (sig x1)) x1]> (procs s3)) s3)).
  split_and!; [|cbn; by rewrite insert_insert_eq|done].
  unfold syscall_entry. rewrite kmod_bind. fold s1. rewrite bind_assoc. kbind E1. rewrite mret_bind, kmod_bind. fold s3.
  assert (sig_maybe_deliver regs 0 s3 = Done (Back (ret, frame))
    (with_arg 0 (with_procs (<[p := set_sig (set_restoring 0 (sig_frame frame signo ret) (sig x1)) x1]> (procs s3)) s3))) as Ed.
  { unfold sig_maybe_deliver. kbind (running_current _ _ _ Hrun3). rewrite (proj2 (Z.eqb_neq _ _) Hp0), (proc_bind s3 p x1) by done.
    cbn [negb Z.eqb sig set_sig x1 set_restoring restoring]. unfold sig_restore_context. rewrite bind_assoc, (proc_bind s3 p x1) by done.
    rewrite bind_assoc, (upd_proc_bind s3 p x1) by done. rewrite bind_assoc, kmod_bind, mret_bind.
    change (restore_frame (sig x1)) with (sig_frame frame signo ret). unfold sig_frame at 1. cbn [sf_rax].
    rewrite i64_u64 by done. by destruct frame. }
  by kbind Ed.
Qed.
End process.
