(* ===== verification/ProcessWait.v ===== *)
(** * The process list, [wait] and [exit]

    The linked list of processes represents a list of addresses; the lookups terminate and
    find its first match; what each pass of [sys_wait] does, and that a child that exits wakes its parent. *)
From S2P Require Import Prelude PageAlloc Spinlock Kmalloc KmallocCorrect KHeap Vmm Sched SchedCorrect WaitQueueCorrect Pipe Fd FdCorrect Process ProcessCorrect.

(** ** The process list *)

Fixpoint proc_chain (m : gmap Z Process) (a : Z) (l : list Z) : Prop :=
  match l with
  | [] => a = 0
  | b :: l' => a = b ∧ b ≠ 0 ∧ ∃ x, m !! b = Some x ∧ proc_chain m (pnext x) l'
  end.
(** The first process of [l] that satisfies [f], or 0. *)
Fixpoint first_of (m : gmap Z Process) (f : Process → bool) (l : list Z) : Z :=
  match l with
  | [] => 0
  | a :: l' => match m !! a with Some p => if f p then a else first_of m f l' | None => 0 end
  end.

Lemma proc_chain_lookup m l : ∀ a b, proc_chain m a l → b ∈ l → is_Some (m !! b).
Proof.
  induction l as [|c l IH]; intros a b Hc Hb; [by apply not_elem_of_nil in Hb|].
  destruct Hc as (_ & _ & x & Ex & Hc). apply elem_of_cons in Hb as [->|Hb]; [by eexists|by eapply IH].
Qed.
Lemma proc_chain_length m a l : proc_chain m a l → NoDup l → (length l ≤ size m)%nat.
Proof.
  intros Hc Hn. rewrite <-size_dom. replace (length l) with (size (list_to_set l : gset Z)) by by apply size_list_to_set.
  apply subseteq_size. intros b Hb%elem_of_list_to_set. by apply elem_of_dom, (proc_chain_lookup m l a).
Qed.
Lemma list_find_ok m f l : ∀ a fuel, proc_chain m a l → (length l ≤ fuel)%nat → list_find fuel m f a = Some (first_of m f l).
Proof.
  induction l as [|b l IH]; intros a fuel Hc Hf; cbn [proc_chain length first_of] in *.
  { subst. by destruct fuel. }
  destruct Hc as (-> & Hb & x & Ex & Hc). destruct fuel as [|fuel]; [lia|]. cbn [list_find].
  rewrite (proj2 (Z.eqb_neq _ _) Hb), Ex. cbn. destruct (f x); [done|]. apply IH; [done|lia].
Qed.

(** The first match, with the processes before it that do not match. *)
Lemma first_of_found m f l a : first_of m f l = a → a ≠ 0 →
  ∃ l1 l2 x, l = l1 ++ a :: l2 ∧ m !! a = Some x ∧ f x = true ∧ ∀ b y, b ∈ l1 → m !! b = Some y → f y = false.
Proof.
  revert a. induction l as [|b l IH]; intros a Ha H0; cbn in Ha; [by subst|].
  destruct (m !! b) as [x|] eqn:Ex; [|by subst]. destruct (f x) eqn:Ef.
  - subst. exists [], l, x. split_and!; [done..|]. intros ?? Hb. by apply not_elem_of_nil in Hb.
  - destruct (IH a Ha H0) as (l1 & l2 & y & -> & Ey & Hy & Hl). exists (b :: l1), l2, y. split_and!; [done..|].
    intros c z [->|Hc]%elem_of_cons Ez; [congruence|by eapply Hl].
Qed.
Lemma first_of_none m f l : ∀ a, proc_chain m a l → first_of m f l = 0 → ∀ b y, b ∈ l → m !! b = Some y → f y = false.
Proof.
  induction l as [|c l IH]; intros a Hc Hf b y Hb Ey; [by apply not_elem_of_nil in Hb|].
  destruct Hc as (_ & Hc0 & x & Ex & Hc). cbn in Hf. rewrite Ex in Hf. destruct (f x) eqn:Ef; [done|].
  apply elem_of_cons in Hb as [->|Hb]; [congruence|by eapply IH].
Qed.

Definition is_zombie (p : Z) (x : Process) : bool := (parent x =? p) && (pstate x =? PROC_ZOMBIE).
Definition is_stopped (p : Z) (x : Process) : bool := (parent x =? p) && (pstate x =? PROC_STOPPED) && negb (exit_status x =? 0).
Definition is_child (p : Z) (x : Process) : bool := (parent x =? p) && negb (pstate x =? PROC_TERMINATED).

(** The words that [wait] stores: the low byte of the exit status, or the signal, in the second byte, and 127 in the first for a stop. *)
Lemma wait_encode_exit_val v : wait_encode_exit v = v mod 256 * 256.
Proof.
  unfold wait_encode_exit. change 0xFF with (Z.ones 8). rewrite Z.land_ones, Z.shiftl_mul_pow2 by lia.
  pose proof (Z.mod_pos_bound v 256 ltac:(lia)). change (2 ^ 8) with 256. rewrite i32_small by lia. done.
Qed.
Lemma i32_mod256 v : i32 v mod 256 = v mod 256.
Proof.
  unfold i32. assert (v mod 2 ^ 32 mod 256 = v mod 256) as E by (apply Z.mod_mod_divide; by exists (2 ^ 24)).
  destruct (_ <? _); [done|]. change (2 ^ 32) with (2 ^ 24 * 256) at 2. by rewrite Zminus_mod, Z_mod_mult, Z.sub_0_r, E, Zmod_mod.
Qed.
Lemma wait_encode_stopped_val v : wait_encode_stopped v = i32 (v * 256) + 127.
Proof.
  unfold wait_encode_stopped. rewrite Z.shiftl_mul_pow2 by lia. change (2 ^ 8) with 256.
  assert (∃ k, i32 (v * 256) = k * 2 ^ 8) as (k & ->); [|rewrite Z.lor_comm, lor_add; lia].
  unfold i32. change (2 ^ 32) with (16777216 * 256). rewrite Z.mul_mod_distr_r by lia. change (2 ^ 8) with 256.
  destruct (_ <? _); [by exists (v mod 16777216)|exists (v mod 16777216 - 16777216); lia].
Qed.

Section wait.
Context {H P : Type} `{KHeap H} `{PageAlloc P}.
Context (wait_lock : Z).
Implicit Types (s : Kern H P).

(** The processes are the list [l]. *)
Definition plist s (l : list Z) : Prop := proc_chain (procs s) (proc_list s) l ∧ NoDup l.

Lemma find_proc_ok s l f : plist s l → find_proc f s = Done (first_of (procs s) f l) s.
Proof.
  intros [Hc Hn]. unfold find_proc, kopt. rewrite (list_find_ok _ _ l); [done..|]. by eapply proc_chain_length.
Qed.
Lemma sch_Done {A} (m : K (Sched H) A) s a k : m (ksched s) = Done a k → sch m s = Done a (with_ksched k s).
Proof. intros E. unfold sch, zoom. by rewrite E. Qed.

(** The scheduler's state with the lock taken, and once it is released again. *)
Definition wait_locked s : Sched H :=
  with_rflags (cli (rflags (ksched s)))
    (with_locks (<[wait_lock := {| locked := 1; saved_flags := rflags (ksched s) |}]> (locks (ksched s))) (ksched s)).
Definition wait_unlocked s : Sched H :=
  with_locks (<[wait_lock := {| locked := 0; saved_flags := rflags (ksched s) |}]> (locks (ksched s))) (ksched s).

Lemma acquire_bind {A} s w (k : unit → K (Kern H P) A) : locks (ksched s) !! wait_lock = Some w → locked w = 0 →
  (sch (lock_acquire wait_lock) ≫= k) s = k tt (with_ksched (wait_locked s) s).
Proof.
  intros Ew Hw. apply bind_Done, sch_Done. unfold lock_acquire, kupd. rewrite Ew. cbn. by rewrite spinlock_acquire_free.
Qed.
Lemma release_bind {A} s m (k : unit → K (Kern H P) A) :
  (sch (lock_release wait_lock) ≫= k) (with_procs m (with_ksched (wait_locked s) s)) = k tt (with_procs m (with_ksched (wait_unlocked s) s)).
Proof.
  apply bind_Done. unfold sch, zoom, lock_release, kupd. cbn. rewrite lookup_insert_eq. cbn. rewrite insert_insert_eq.
  by destruct s as [[] ? ? ? ? ? ? ? ? ? ? ?].
Qed.

(** What [*status_addr = v] leaves in the memory of [p]. *)
Definition status_in s' s (p addr v : Z) : Prop :=
  if addr =? 0 then umem s' = umem s else ∃ m, umem s' = <[p := m]> (umem s) ∧ read_bytes addr 4 m = Some (le_bytes 4 v).
Lemma put_status_ok s p addr v : (addr ≠ 0 → mapped (default ∅ (umem s !! p)) addr 4) →
  ∃ s', put_status p addr v s = Done tt s' ∧ status_in s' s p addr v ∧ procs s' = procs s ∧ ksched s' = ksched s ∧
    proc_list s' = proc_list s.
Proof.
  intros Hm. unfold put_status, status_in. destruct (Z.eqb_spec addr 0); [by exists s|].
  destruct (user_store_ok s p addr (le_bytes 4 v)) as (m & -> & Hin); [by apply Hm|].
  eexists. split_and!; [done| |done..]. exists m. split; [done|]. by apply read_bytes_ok.
Qed.

(** ** One pass of [sys_wait] *)

Definition zombie_of s p l : Z := first_of (procs s) (is_zombie p) l.
Definition stopped_of s p l : Z := first_of (procs s) (is_stopped p) l.
Definition child_of s p l : Z := first_of (procs s) (is_child p) l.

(** The lock is free and the status can be written. *)
Definition wait_ready s (p addr : Z) : Prop :=
  (∃ w, locks (ksched s) !! wait_lock = Some w ∧ locked w = 0) ∧ (addr ≠ 0 → mapped (default ∅ (umem s !! p)) addr 4).
(** The outcome of a pass that returns [r], leaves the processes [m] and reports [v] (if any). *)
Definition wait_returns s p addr (o : outcome (Kern H P) (Ran Z)) (r : Z) (m : gmap Z Process) (v : option Z) : Prop :=
  ∃ s', o = Done (Back r) s' ∧ procs s' = m ∧ ksched s' = wait_unlocked s ∧ proc_list s' = proc_list s ∧
    match v with Some v => status_in s' s p addr v | None => umem s' = umem s end.

Lemma wait_zombie s l p addr flags : plist s l → wait_ready s p addr → zombie_of s p l ≠ 0 →
  ∃ x, procs s !! zombie_of s p l = Some x ∧ is_zombie p x = true ∧
    wait_returns s p addr (wait_pass wait_lock p addr flags s) (i32 (pid x))
      (<[zombie_of s p l := set_pstate PROC_TERMINATED x]> (procs s)) (Some (wait_encode_exit (exit_status x))).
Proof.
  intros Hl ((w & Ew & Hw) & Hm) Hz. set (z := zombie_of s p l) in *.
  destruct (first_of_found _ _ _ z eq_refl Hz) as (_ & _ & x & _ & Ex & Hx & _). exists x. split_and!; [done..|].
  set (s1 := with_ksched (wait_locked s) s). assert (procs s1 !! z = Some x) as Ex1 by done.
  set (m := <[z := set_pstate PROC_TERMINATED x]> (procs s)).
  assert (proc_find_zombie_child p s1 = Done z s1) as Ez by exact (find_proc_ok s1 l (is_zombie p) Hl).
  assert (proc_reap z s1 = Done (i32 (pid x), exit_status x) (with_procs m s1)) as Er.
  { unfold proc_reap. rewrite (proj2 (Z.eqb_neq _ _) Hz), (proc_bind s1 z x) by done.
    apply andb_true_iff in Hx as [_ ->]. cbn [negb]. by rewrite (upd_proc_bind s1 z x). }
  destruct (put_status_ok (with_procs m (with_ksched (wait_unlocked s) s)) p addr (wait_encode_exit (exit_status x)) Hm)
    as (s' & Es & Hst & Hp & Hk & Hpl).
  exists s'. split_and!; [|done..]. unfold wait_pass. rewrite (acquire_bind _ w) by done. fold s1. kbind Ez.
  rewrite (proj2 (Z.eqb_neq _ _) Hz). cbn [negb]. rewrite (proc_bind s1 z x) by done. kbind Er.
  etransitivity; [exact (release_bind s m _)|]. by kbind Es.
Qed.

Lemma wait_stopped s l p addr flags : plist s l → wait_ready s p addr → zombie_of s p l = 0 → stopped_of s p l ≠ 0 →
  ∃ x, procs s !! stopped_of s p l = Some x ∧ is_stopped p x = true ∧
    wait_returns s p addr (wait_pass wait_lock p addr flags s) (pid x)
      (<[stopped_of s p l := set_exit (pstate x) 0 x]> (procs s)) (Some (wait_encode_stopped (exit_status x))).
Proof.
  intros Hl ((w & Ew & Hw) & Hm) Hz Ht. set (z := stopped_of s p l) in *.
  destruct (first_of_found _ _ _ z eq_refl Ht) as (_ & _ & x & _ & Ex & Hx & _). exists x. split_and!; [done..|].
  set (s1 := with_ksched (wait_locked s) s). assert (procs s1 !! z = Some x) as Ex1 by done.
  set (m := <[z := set_exit (pstate x) 0 x]> (procs s)).
  assert (proc_find_zombie_child p s1 = Done 0 s1) as Ez.
  { transitivity (Done (zombie_of s p l) s1); [exact (find_proc_ok s1 l (is_zombie p) Hl)|by rewrite Hz]. }
  assert (proc_find_stopped_child p s1 = Done z s1) as Et by exact (find_proc_ok s1 l (is_stopped p) Hl).
  destruct (put_status_ok (with_procs m (with_ksched (wait_unlocked s) s)) p addr (wait_encode_stopped (exit_status x)) Hm)
    as (s' & Es & Hst & Hp & Hk & Hpl).
  exists s'. split_and!; [|done..]. unfold wait_pass. rewrite (acquire_bind _ w) by done. fold s1. kbind Ez. cbn [negb Z.eqb].
  kbind Et. rewrite (proj2 (Z.eqb_neq _ _) Ht). cbn [negb]. rewrite (proc_bind s1 z x), (upd_proc_bind s1 z x) by done.
  etransitivity; [exact (release_bind s m _)|]. by kbind Es.
Qed.

Lemma with_procs_self s k : with_procs (procs s) (with_ksched k s) = with_ksched k s.
Proof. done. Qed.

(** With no child to report: no child, or no wish to wait, or sleep. *)
Lemma wait_nothing s l p addr flags : plist s l → wait_ready s p addr → zombie_of s p l = 0 → stopped_of s p l = 0 →
  wait_pass wait_lock p addr flags s =
    (if child_of s p l =? 0 then Done (Back (- ECHILD)) (with_ksched (wait_unlocked s) s)
     else if negb (Z.land flags WNOHANG =? 0) then Done (Back 0) (with_ksched (wait_unlocked s) s)
     else ((λ s, sch (wq_sleep (cr3_of s) (child_exit_wq p) wait_lock) s);; mret Away : K (Kern H P) (Ran Z)) (with_ksched (wait_locked s) s)).
Proof.
  intros Hl ((w & Ew & Hw) & Hm) Hz Ht. set (s1 := with_ksched (wait_locked s) s).
  assert (proc_find_zombie_child p s1 = Done 0 s1) as Ez.
  { transitivity (Done (zombie_of s p l) s1); [exact (find_proc_ok s1 l (is_zombie p) Hl)|by rewrite Hz]. }
  assert (proc_find_stopped_child p s1 = Done 0 s1) as Et.
  { transitivity (Done (stopped_of s p l) s1); [exact (find_proc_ok s1 l (is_stopped p) Hl)|by rewrite Ht]. }
  assert (proc_has_children p s1 = Done (if child_of s p l =? 0 then 0 else 1) s1) as Ec.
  { unfold proc_has_children. by kbind (find_proc_ok s1 l (is_child p) Hl). }
  unfold wait_pass. rewrite (acquire_bind _ w) by done. fold s1. kbind Ez. cbn [negb Z.eqb]. kbind Et. cbn [negb Z.eqb]. kbind Ec.
  rewrite <-(with_procs_self s (wait_unlocked s)).
  destruct (child_of s p l =? 0); cbn [Z.eqb]; [exact (release_bind s (procs s) _)|].
  destruct (Z.land flags WNOHANG =? 0); cbn [negb]; [done|exact (release_bind s (procs s) _)].
Qed.
(** With a child that has nothing to report yet, a pass without WNOHANG goes to sleep. *)
Lemma wait_sleeps s l p addr flags c lw lq : plist s l → wait_ready s p addr → zombie_of s p l = 0 → stopped_of s p l = 0 →
  child_of s p l ≠ 0 → Z.land flags WNOHANG = 0 → can_sleep (ksched s) (child_exit_wq p) wait_lock c lw lq →
  ∃ k, wait_pass wait_lock p addr flags s = Done Away (with_ksched k s) ∧ asleep (ksched s) (child_exit_wq p) wait_lock c lw lq k.
Proof.
  intros Hl Hr Hz Ht Hc Hf Hs. rewrite (wait_nothing s l) by done. rewrite (proj2 (Z.eqb_neq _ _) Hc), Hf. cbn [negb Z.eqb].
  destruct (wq_sleep_lemma (cr3_of (with_ksched (wait_locked s) s)) (wait_locked s) (child_exit_wq p) wait_lock c lw lq) as (k & E & Ha).
  { destruct Hs. split; try done. unfold wait_locked. simpl. by rewrite lookup_insert_eq. }
  exists k. split; [etransitivity; [apply bind_Done; exact (sch_Done _ (with_ksched (wait_locked s) s) _ _ E)|done]|].
  destruct Ha as [? ? ? Hlo ?]. split; try done. intros j Hj. rewrite Hlo by done. unfold wait_locked. simpl. by rewrite lookup_insert_ne.
Qed.
End wait.

(** ** Exit *)

(** Replacing a process without changing its link keeps the list. *)
Lemma proc_chain_upd m l c x y : ∀ a, m !! c = Some x → pnext y = pnext x → proc_chain m a l → proc_chain (<[c := y]> m) a l.
Proof.
  induction l as [|b l IH]; intros a Ec Hn Hc; [done|]. destruct Hc as (-> & Hb & z & Ez & Hc). split_and!; [done..|].
  destruct (decide (b = c)) as [->|].
  - rewrite Ec in Ez. injection Ez as <-. exists y. rewrite lookup_insert_eq, Hn. split; [done|by apply IH].
  - exists z. rewrite lookup_insert_ne by done. split; [done|by apply IH].
Qed.
(** Among processes whose ids differ, the first that satisfies a test on the id is the one that has it. *)
Lemma first_of_unique m f l : ∀ a p y, proc_chain m a l → p ∈ l → m !! p = Some y → f y = true →
  (∀ b z, b ∈ l → m !! b = Some z → f z = true → b = p) → first_of m f l = p.
Proof.
  intros a p y Hc Hp Ep Hf Hu. destruct (decide (first_of m f l = 0)) as [E|E].
  - pose proof (first_of_none _ _ _ _ Hc E p y Hp Ep). congruence.
  - destruct (first_of_found _ _ _ _ eq_refl E) as (l1 & l2 & x & El & Ex & Hx & _). apply (Hu _ x); [|done..].
    rewrite El at 2. apply elem_of_app. right. by left.
Qed.

Section exit.
Context {H P : Type} `{KHeap H} `{PageAlloc P}.
Implicit Types (s : Kern H P).

Definition pids_unique s (l : list Z) : Prop :=
  ∀ a b x y, a ∈ l → b ∈ l → procs s !! a = Some x → procs s !! b = Some y → pid x = pid y → a = b.

Lemma plist_upd s l c x y : plist s l → procs s !! c = Some x → pnext y = pnext x → plist (with_procs (<[c := y]> (procs s)) s) l.
Proof. intros [Hc Hn] Ex Hp. split; [by eapply proc_chain_upd|done]. Qed.

(** Sending a signal other than SIGCONT to a process sets its bit. *)
Lemma sig_send_ok s l p y signo : plist s l → pids_unique s l → p ∈ l → p ≠ 0 → procs s !! p = Some y →
  pstate y ≠ PROC_TERMINATED → 1 ≤ signo < NSIG → signo ≠ SIGCONT →
  sig_send (pid y) signo s = Done 0 (with_procs (<[p := set_sig (raise signo (sig y)) y]> (procs s)) s).
Proof.
  intros Hl Hu Hp Hp0 Ey Hst Hs Hc. unfold sig_send. destruct (Z.ltb_spec signo 1); [lia|]. destruct (Z.leb_spec NSIG signo); [lia|].
  cbn [orb]. assert (proc_get_by_pid (pid y) s = Done p s) as E.
  { unfold proc_get_by_pid. rewrite (find_proc_ok s l) by done. f_equal. eapply first_of_unique; [apply Hl|done|done| |].
    - rewrite Z.eqb_refl. destruct (Z.eqb_spec (pstate y) PROC_TERMINATED); done.
    - intros b z Hb Ez [Hpid%Z.eqb_eq _]%andb_true_iff. by eapply Hu. }
  kbind E. rewrite (proj2 (Z.eqb_neq _ _) Hp0).
  set (s' := with_procs (<[p := set_sig (raise signo (sig y)) y]> (procs s)) s).
  assert (post p signo s = Done tt s') as Ep.
  { unfold post. rewrite (upd_proc_bind s p y) by done. fold s'. rewrite (proc_bind s' p (set_sig (raise signo (sig y)) y)) by apply lookup_insert_eq.
    by rewrite (proj2 (Z.eqb_neq _ _) Hc). }
  by kbind Ep.
Qed.

(** Giving up the processor for good, when another thread is ready. *)
Lemma leave_ok s lq n t : runq (ksched s) (n :: lq) → current_thread (ksched s) ≠ 0 → current_thread (ksched s) ∉ n :: lq →
  threads (ksched s) !! current_thread (ksched s) = Some t → state t ≠ THREAD_RUNNING →
  (idle_thread (ksched s) ≠ 0 → is_Some (threads (ksched s) !! idle_thread (ksched s))) →
  ∃ k, sched_schedule s = Done true (with_ksched k s) ∧ runq k lq ∧ current_thread k = n ∧
    locks k = locks (ksched s) ∧ kheap k = kheap (ksched s).
Proof.
  intros Hq Hc0 Hnin Et Hst Hidle.
  pose proof (sched_schedule_lemma (cr3_of s) (ksched s) (n :: lq) _ t InSchedule Hq eq_refl Et Hc0 ltac:(done) Hidle) as Hr.
  unfold schedule_result in Hr. rewrite decide_False in Hr by naive_solver. cbn [next_of tail] in Hr.
  destruct Hr as (k1 & E1 & Hq1 & Hc1 & Hev & _ & _ & _ & _ & _ & Hlo & Hhe & _). rewrite (proj2 (Z.eqb_neq (state t) _) Hst) in Hq1. cbn in Hq1. rewrite app_nil_r in Hq1.
  assert (n ≠ current_thread (ksched s)) as Hne by set_solver. rewrite (proj2 (Z.eqb_neq _ _) Hne) in E1. cbn [negb] in E1.
  destruct (chain_lookup _ _ n (proj1 Hq) ltac:(left)) as (tn & Etn). destruct (Hev n tn Etn) as (nx & En).
  destruct (resume_ok k1 _ ltac:(rewrite Hc1; exact En)) as (k2 & E2 & Ht & Hh & Htl & Hcur & _ & Hlo2 & Hhe2).
  exists k2. split_and!; [|unfold runq; by rewrite Ht, Hh, Htl|congruence..].
  unfold sched_schedule. kbind (sch_Done _ s _ _ E1). rewrite bind_Done with (a := tt) (s' := with_ksched k2 s); [done|].
  unfold sch, zoom. cbn. rewrite E2. done.
Qed.
End exit.
