(* ===== verification/ProcessExit.v ===== *)
(** * Exit

    A process that exits closes its descriptors, waking the threads that sleep on its pipes,
    becomes a zombie, and makes its parent runnable with SIGCHLD pending. *)
From S2P Require Import Prelude PageAlloc Spinlock Kmalloc KmallocCorrect KHeap Vmm Sched SchedCorrect WaitQueueCorrect Pipe Fd FdCorrect Process ProcessCorrect ProcessWait.

Section exit.
Context {H P : Type} `{KHeap H} `{PageAlloc P}.
Implicit Types (s : Kern H P) (W : gmap Z (list Z)).

(** What closing descriptors leaves alone. *)
Record kern_same s s' : Prop := {
  ks_procs : procs s' = procs s;
  ks_list : proc_list s' = proc_list s;
  ks_table : proc_table s' = proc_table s;
  ks_umem : umem s' = umem s;
  ks_current : current_thread (ksched s') = current_thread (ksched s);
  ks_idle : idle_thread (ksched s') = idle_thread (ksched s);
  ks_locks : locks (ksched s') = locks (ksched s);
}.

(** The current thread is in no queue. *)
Definition apart (c : Z) (l : list Z) W : Prop := c ∉ l ∧ ∀ q w, W !! q = Some w → c ∉ w.
(** The descriptors of the table [t] that name pipes have their wait queues in [W], and none of these is [q0]. *)
Definition pipes_queued (t : list FdEntry) W (q0 : Z) : Prop :=
  ∀ i en a e, zget t i = Some en → used en = true → node (file en) = PipeEnd a e → is_Some (W !! pipe_wq a e) ∧ pipe_wq a e ≠ q0.

(** The state of the loop of [sys_exit] before round [i]. *)
Record exiting s (ft : Z) (lq : list Z) W (q0 i : Z) s' : Prop := {
  ex_fds : closed_upto (get_fds s) ft i (get_fds s');
  ex_same : kern_same s s';
  ex_cur : threads (ksched s') !! current_thread (ksched s) = threads (ksched s) !! current_thread (ksched s);
  ex_idle : is_Some (threads (ksched s) !! idle_thread (ksched s)) → is_Some (threads (ksched s') !! idle_thread (ksched s));
  ex_queues : ∃ wk W', queues (ksched s') (lq ++ wk) W' ∧ W' !! q0 = W !! q0 ∧ apart (current_thread (ksched s)) (lq ++ wk) W' ∧
    (∀ q, is_Some (W !! q) → is_Some (W' !! q));
}.

Lemma fds_Done {A} (m : K (Fds H) A) s a d : m (get_fds s) = Done a d → fds m s = Done a (set_fds d s).
Proof. intros E. unfold fds, zoom. by rewrite E. Qed.
Lemma get_set_fds (d : Fds H) s : get_fds (set_fds d s) = d.
Proof. by destruct d. Qed.
Lemma set_get_fds s : set_fds (get_fds s) s = s.
Proof. by destruct s as [[] ? ? ? ? ? ? ? ? ? ? ?]. Qed.

(** Waking the sleepers of one pipe. *)
Lemma exiting_wake s ft lq W q0 i s1 q : exiting s ft lq W q0 i s1 → is_Some (W !! q) → q ≠ q0 →
  ∃ s2, (sch (wq_wake_all q);; mret tt : K (Kern H P) unit) s1 = Done tt s2 ∧ exiting s ft lq W q0 i s2 ∧
    get_fds s2 = get_fds s1.
Proof.
  intros [Hf [] Hc Hi (wk & W' & Hq & E0 & [Hnl Hnw] & Hd)] HW Hne. destruct (Hd q HW) as [w Ew].
  destruct (wake_all_queues _ _ _ q w Hq Ew) as (k & E & Hq' & (Hh & Hcu & Hid & Hlo & _) & Hev & Hout).
  exists (with_ksched k s1). split_and!; [by kbind (sch_Done _ s1 _ _ E)| |].
  2: { unfold get_fds. cbn. by rewrite Hh. }
  split.
  - unfold get_fds. cbn. by rewrite Hh.
  - split; cbn; congruence.
  - cbn. rewrite Hout; [done|]. apply not_elem_of_app. split; [done|by apply (Hnw q)].
  - intros [t Ht]%Hi. cbn. by eapply evolves_is_Some.
  - exists (wk ++ w), (<[q := []]> W'). rewrite app_assoc. split_and!; [done|by rewrite lookup_insert_ne| |].
    + split; [apply not_elem_of_app; split; [done|by apply (Hnw q)]|]. intros q' w'. destruct (decide (q' = q)) as [->|].
      * rewrite lookup_insert_eq. intros [= <-]. apply not_elem_of_nil.
      * rewrite lookup_insert_ne by done. apply Hnw.
    + intros q' Hq''. destruct (decide (q' = q)) as [->|]; [rewrite lookup_insert_eq; by eexists|].
      rewrite lookup_insert_ne by done. by apply Hd.
Qed.

Lemma exiting_round s ft t lq W q0 i s1 : ktables s !! ft = Some t → pipes_queued t W q0 → 0 ≤ i < MAX_FDS →
  exiting s ft lq W q0 i s1 →
  ∃ s2, (wake_on_close ft i;; fds (exit_step ft i)) s1 = Done tt s2 ∧ exiting s ft lq W q0 (i + 1) s2.
Proof.
  intros Ht Hpq Hir Hex. pose proof (ex_fds _ _ _ _ _ _ _ Hex) as (_ & t1 & Ht1 & Hl1 & _ & Hk).
  assert (fds (table ft) s1 = Done t1 s1) as Et.
  { rewrite (fds_Done (table ft) s1 t1 (get_fds s1)); [by rewrite set_get_fds|]. unfold table, kopt. rewrite Ht1. by rewrite lookup_insert_eq. }
  destruct (zget_lt t1 i) as [en Hg]; [lia|].
  assert (∃ s2, wake_on_close ft i s1 = Done tt s2 ∧ exiting s ft lq W q0 i s2) as (s2 & E2 & Hex2).
  { unfold wake_on_close. kbind Et. rewrite (kopt_bind _ _ _ en) by done.
    destruct (node (file en)) as [|a e|] eqn:En; [by exists s1| |by exists s1]. destruct (used en) eqn:Hu; [|by exists s1].
    rewrite (Hk i t) in Hg by (done || lia). destruct (Hpq i en a e Hg Hu En) as [HW Hne].
    destruct (exiting_wake _ _ _ _ _ _ _ _ Hex HW Hne) as (s2 & E & ? & _). by exists s2. }
  kbind E2. destruct (exit_step_lemma _ ft i _ Hir (ex_fds _ _ _ _ _ _ _ Hex2)) as (d & Ed & Hcl).
  exists (set_fds d s2). split; [by apply fds_Done|]. destruct Hex2 as [_ [] Hc Hi (wk & W' & Hq & ?)].
  split; [by rewrite get_set_fds|by split|done|done|].
  exists wk, W'. split; [|done]. destruct Hq as [Hq1 Hq2 Hq3 Hq4]. by split.
Qed.

Lemma exit_descriptors_ok s ft t lq W q0 :
  fds_ok (get_fds s) → (ft ≠ 0 → ktables s !! ft = Some t) → pipes_queued t W q0 →
  queues (ksched s) lq W → apart (current_thread (ksched s)) lq W →
  ∃ s' wk W', exit_descriptors ft s = Done tt s' ∧ kern_same s s' ∧ fds_ok (get_fds s') ∧
    (ft ≠ 0 → ∃ t', ktables s' = <[ft := t']> (ktables s) ∧ Forall (λ en, used en = false) t') ∧
    queues (ksched s') (lq ++ wk) W' ∧ W' !! q0 = W !! q0 ∧ apart (current_thread (ksched s)) (lq ++ wk) W' ∧
    threads (ksched s') !! current_thread (ksched s) = threads (ksched s) !! current_thread (ksched s) ∧
    (is_Some (threads (ksched s) !! idle_thread (ksched s)) → is_Some (threads (ksched s') !! idle_thread (ksched s))).
Proof.
  intros Hok Ht Hpq Hq Ha. unfold exit_descriptors. destruct (Z.eqb_spec ft 0) as [->|Hft].
  { exists s, [], W. rewrite app_nil_r. split_and!; try done; by split. }
  specialize (Ht Hft).
  destruct (kfor_seqZ_ind (exiting s ft lq W q0) (λ i, wake_on_close ft i;; fds (exit_step ft i)) 0 MAX_FDS s) as (s' & E & Hex).
  - unfold MAX_FDS. lia.
  - split; [by eapply closed_upto_start|by split|done|done|]. exists [], W. by rewrite app_nil_r.
  - intros i s1 Hir. by apply exiting_round with t.
  - destruct Hex as [Hf Hs Hc Hi (wk & W' & Hq' & E0 & Ha' & _)]. destruct (closed_upto_end _ _ _ Hf) as (t' & Hok' & Ht' & Hu).
    exists s', wk, W'. split_and!; try done. intros _. by exists t'.
Qed.

(** ** The parent *)

(** What [sys_exit] of process [c] needs from the state: the process list, the parent [p] asleep in [sys_wait]
    first on its queue with the thread [pt], and the queues of the pipes that [c] has open. *)
Record can_exit s (c : Z) (x : Process) (p : Z) (y : Process) (pt : Z) (l lq : list Z) W (t : list FdEntry) : Prop := {
  ce_running : running s c x;
  ce_list : plist s l;
  ce_pids : pids_unique s l;
  ce_parent : parent x = p ∧ p ∈ l ∧ p ≠ 0 ∧ p ≠ c ∧ procs s !! p = Some y ∧ pstate y ≠ PROC_TERMINATED;
  ce_in : c ∈ l;
  ce_fds : fds_ok (get_fds s) ∧ (fd_table x ≠ 0 → ktables s !! fd_table x = Some t) ∧ pipes_queued t W (child_exit_wq p);
  ce_queues : queues (ksched s) lq W ∧ apart (current_thread (ksched s)) lq W;
  ce_wait : ∃ w, W !! child_exit_wq p = Some (pt :: w);
  ce_idle : idle_thread (ksched s) ≠ 0 → is_Some (threads (ksched s) !! idle_thread (ksched s));
}.
Definition exited s c x p y (status : Z) : gmap Z Process :=
  <[p := set_sig (raise SIGCHLD (sig y)) y]> (<[c := set_exit PROC_ZOMBIE (i32 status) x]> (procs s)).

(** Telling the parent, from a state where the process is a zombie. *)
Lemma notify_ok s c x p y pt w l lq W :
  plist s l → pids_unique s l → procs s !! c = Some x → parent x = p → p ∈ l → p ≠ 0 → procs s !! p = Some y →
  pstate y ≠ PROC_TERMINATED → queues (ksched s) lq W → W !! child_exit_wq p = Some (pt :: w) → apart (current_thread (ksched s)) lq W →
  ∃ k, notify_parent c s = Done tt (with_procs (<[p := set_sig (raise SIGCHLD (sig y)) y]> (procs s)) (with_ksched k s)) ∧
    runq k (lq ++ [pt]) ∧ same_rest (ksched s) k ∧ current_thread (ksched s) ∉ lq ++ [pt] ∧
    evolves (woken [pt]) (threads (ksched s)) (threads k) ∧
    threads k !! current_thread (ksched s) = threads (ksched s) !! current_thread (ksched s).
Proof.
  intros Hl Hu Ex Hpar Hp Hp0 Ey Hst Hq EW [Hnl Hnw]. destruct (wake_queues _ _ _ _ _ _ Hq EW) as (k & E & Hq' & Hrest & Hev & Hout).
  assert (current_thread (ksched s) ∉ lq ++ [pt]) as Hnin.
  { apply not_elem_of_app. split; [done|]. intros Hpt%list_elem_of_singleton. apply (Hnw _ _ EW). rewrite Hpt. by left. }
  exists k. split_and!; [|apply Hq'|done|done|done|by apply Hout].
  unfold notify_parent. rewrite (proc_bind s c x) by done. rewrite Hpar, (proj2 (Z.eqb_neq _ _) Hp0).
  kbind (sch_Done _ s _ _ E). rewrite (proc_bind _ p y) by done.
  by kbind (sig_send_ok (with_ksched k s) l p y SIGCHLD Hl Hu Hp Hp0 Ey Hst ltac:(done) ltac:(done)).
Qed.

Lemma pids_unique_upd s l c x z : pids_unique s l → procs s !! c = Some x → pid z = pid x →
  pids_unique (with_procs (<[c := z]> (procs s)) s) l.
Proof.
  intros Hu Ex Hp. assert (∀ a u, (<[c := z]> (procs s)) !! a = Some u → ∃ v, procs s !! a = Some v ∧ pid v = pid u) as Hback.
  { intros a u. destruct (decide (a = c)) as [->|].
    - rewrite lookup_insert_eq. intros [= <-]. by exists x.
    - rewrite lookup_insert_ne by done. by exists u. }
  intros a b u v Ha Hb Eu Ev Huv. destruct (Hback a u Eu) as (u' & Eu' & ?), (Hback b v Ev) as (v' & Ev' & ?).
  apply (Hu a b u' v'); congruence.
Qed.

Lemma exit_lemma s c x p y pt l lq W t status : can_exit s c x p y pt l lq W t →
  ∃ s' lq', sys_exit status s = Done true s' ∧ procs s' = exited s c x p y status ∧ proc_list s' = proc_list s ∧ umem s' = umem s ∧
    locks (ksched s') = locks (ksched s) ∧ fds_ok (get_fds s') ∧
    (fd_table x ≠ 0 → ∃ t', ktables s' !! fd_table x = Some t' ∧ Forall (λ en, used en = false) t') ∧
    runq (ksched s') lq' ∧ pt ∈ current_thread (ksched s') :: lq'.
Proof.
  intros [Hrun Hl Hu (Hpar & Hp & Hp0 & Hpc & Ey & Hst) Hcl (Hok & Htab & Hpq) (Hq & Ha) (w & EW) Hidle].
  destruct (running_proc _ _ _ Hrun) as [Hc0 Ex]. pose proof Hrun as (tc & Hcur0 & Etc & _).
  destruct (exit_descriptors_ok s (fd_table x) t lq W _ Hok Htab Hpq Hq Ha) as
    (s1 & wk & W1 & E1 & Hsame & Hok1 & Hcl1 & Hq1 & EW1 & Ha1 & Hc1 & Hi1). destruct Hsame as [Sp Sl St Su Sc Si So].
  set (x2 := set_exit PROC_ZOMBIE (i32 status) x). set (s2 := with_procs (<[c := x2]> (procs s1)) s1).
  assert (procs s1 !! c = Some x) as Ex1 by by rewrite Sp.
  assert (plist s1 l) as Hl1 by (unfold plist; by rewrite Sp, Sl).
  assert (pids_unique s1 l) as Hu1 by (unfold pids_unique; by rewrite Sp).
  destruct (notify_ok s2 c x2 p y pt w l (lq ++ wk) W1) as (k & E3 & Hq3 & (Hh & Hcu & Hid & Hlo & _) & Hnin & Hev & Hck); try done.
  { by apply plist_upd with x. } { by apply pids_unique_upd with x. } { apply lookup_insert_eq. }
  { cbn. rewrite lookup_insert_ne by done. by rewrite Sp. } { by rewrite EW1. } { change (ksched s2) with (ksched s1). by rewrite Sc. }
  change (ksched s2) with (ksched s1) in *. rewrite Sc in *.
  set (k' := with_threads (<[current_thread (ksched s) := set_state THREAD_DEAD tc]> (threads k)) k).
  set (s3 := with_procs (<[p := set_sig (raise SIGCHLD (sig y)) y]> (procs s2)) (with_ksched k s2)) in *.
  assert (threads k !! current_thread (ksched s) = Some tc) as Etk by (rewrite Hck, Hc1; done).
  assert (runq k' ((lq ++ wk) ++ [pt])) as Hqk by by apply (queue_is_upd _ _ _ _ _ (set_state THREAD_DEAD)).
  destruct ((lq ++ wk) ++ [pt]) as [|n lr] eqn:El; [by destruct (lq ++ wk)|].
  destruct (leave_ok (with_ksched k' s3) lr n (set_state THREAD_DEAD tc)) as (k4 & E4 & Hq4 & Hc4 & Hlo4 & Hhe4); try done.
  { change (current_thread k ≠ 0). by rewrite Hcu. } { change (current_thread k ∉ n :: lr). by rewrite Hcu. }
  { cbn. rewrite Hcu. apply lookup_insert_eq. }
  { change (idle_thread k ≠ 0 → is_Some (<[current_thread (ksched s) := set_state THREAD_DEAD tc]> (threads k) !! idle_thread k)). rewrite Hid, Si.
    intros Hi0. apply lookup_insert_is_Some'. right. eapply evolves_is_Some; [exact Hev|]. by apply Hi1, Hidle. }
  exists (with_ksched k4 (with_ksched k' s3)), lr. split_and!; try done.
  - unfold sys_exit. kbind (running_current _ _ _ Hrun). rewrite (proc_bind s c x) by done. kbind E1.
    rewrite (upd_proc_bind s1 c x) by done. fold x2 s2. kbind E3. kbind (sch_get current_thread s3).
    change (current_thread (ksched s3)) with (current_thread k). rewrite Hcu.
    rewrite (bind_Done _ _ s3 tt (with_ksched k' s3)); [exact E4|]. apply sch_Done, upd_th_Done. exact Etk.
  - cbn. unfold exited. by rewrite Sp.
  - cbn. cbn in Hlo4. congruence.
  - cbn in Hhe4. unfold get_fds. cbn. rewrite Hhe4, Hh. exact Hok1.
  - intros Hf. destruct (Hcl1 Hf) as (t' & Et' & Hu'). exists t'. cbn. rewrite Et', lookup_insert_eq. done.
  - cbn. rewrite Hc4, <-El. apply elem_of_app. right. by left.
Qed.
End exit.
