(* ===== verification/ProcessFork.v ===== *)
(** * Fork

    What [proc_fork] leaves behind when it succeeds and when it runs out of memory late. *)
From S2P Require Import Prelude PageAlloc Spinlock KHeap Vmm Sched SchedCorrect Pipe Fd Process ProcessCorrect.

Section fork.
Context {H P : Type} `{KHeap H} `{PageAlloc P}.
Context (fork_entry fork_args : Z).
Implicit Types (s : Kern H P).

Lemma upd_proc_inv s a f s' : upd_proc a f s = Done tt s' → ∃ x, procs s !! a = Some x ∧ s' = with_procs (<[a := f x]> (procs s)) s.
Proof. unfold upd_proc. intros E%kupd_inv. destruct (procs s !! a) as [x|]; [|done]. exists x. split; [done|]. by injection E. Qed.

(** The part of the state that an operation of the scheduler leaves alone. *)
Definition user_side s s' : Prop := procs s' = procs s ∧ proc_list s' = proc_list s ∧ g_fork_child_args s' = g_fork_child_args s.
Lemma sch_inv {A} (m : K (Sched H) A) s a s' : sch m s = Done a s' → ∃ k, m (ksched s) = Done a k ∧ s' = with_ksched k s.
Proof. apply zoom_inv. Qed.

Lemma set_main_thread_inv p t s s' : proc_set_main_thread p t s = Done tt s' →
  ∃ x u, procs s !! p = Some x ∧ procs s' = <[p := set_thread t x]> (procs s) ∧ proc_list s' = proc_list s ∧
    g_fork_child_args s' = g_fork_child_args s ∧ ksched s' = ksched s ∧ threads (ksched s) !! t = Some u.
Proof.
  unfold proc_set_main_thread. intros E. kinv E as [] s1 E1. apply upd_proc_inv in E1 as (x & Ex & ->).
  kinv E as u s2 E2. apply sch_inv in E2 as (k & Eu & ->). unfold th in Eu. apply kopt_inv in Eu as [Eu ->]. exists x, u.
  unfold set_table_slot in E. destruct (tid u <? MAX_PROCESSES).
  - apply kupd_inv in E. destruct (zset _ _ _) as [tb|]; [|done]. injection E as <-. by split_and!.
  - injection E as <-. by split_and!.
Qed.

Lemma add_thread_keeps (t : Z) (k k' : Sched H) a u : sched_add_thread t k = Done tt k' → threads k !! a = Some u →
  ∃ u', threads k' !! a = Some u' ∧ entry u' = entry u ∧ tid u' = tid u.
Proof.
  assert (∀ b f (m m' : Sched H) v, (∀ w, entry (f w) = entry w ∧ tid (f w) = tid w) → upd_th b f m = Done tt m' → threads m !! a = Some v →
    ∃ v', threads m' !! a = Some v' ∧ entry v' = entry v ∧ tid v' = tid v) as Hupd.
  { unfold upd_th. intros b f m m' v Hf E%kupd_inv Ev. destruct (threads m !! b) as [w|] eqn:Ew; [|done]. injection E as <-. cbn.
    destruct (decide (a = b)) as [->|]; [rewrite lookup_insert_eq|rewrite lookup_insert_ne by done; by exists v].
    rewrite Ev in Ew. injection Ew as <-. exists (f v). split; [done|apply Hf]. }
  unfold sched_add_thread, queue_push. intros E Eu. kinv E as [] k1 E1. eapply Hupd in E1 as (u1 & Eu1 & He1 & Ht1); [|done|exact Eu].
  kinv E as [] k2 E2. eapply Hupd in E2 as (u2 & Eu2 & He2 & Ht2); [|done|exact Eu1].
  rewrite kget_bind in E. kinv E as [] k3 E3. injection E as <-. cbn.
  destruct (negb (queue_tail k2 =? 0)).
  - eapply Hupd in E3 as (u3 & Eu3 & He3 & Ht3); [|done|exact Eu2]. exists u3. split_and!; [done|congruence..].
  - injection E3 as <-. exists u2. split_and!; [done|congruence..].
Qed.

Lemma thread_create_inv (e ar : Z) (k k' : Sched H) t : thread_create e ar k = Done t k' → t ≠ 0 →
  ∃ u, threads k' !! t = Some u ∧ entry u = e ∧ arg u = ar.
Proof.
  unfold thread_create. intros E Ht. kinv E as a k1 _. destruct (a =? 0); [by injection E as <- _|].
  kinv E as st k2 _. destruct (st =? 0); [kinv E as [] k3 _; by injection E as <- _|].
  rewrite kget_bind, kmod_bind in E. unfold new_thread in E. rewrite kmod_bind in E. injection E as <- <-.
  eexists. split; [apply lookup_insert_eq|done].
Qed.

(** The end of a fork that succeeds: the new process, its thread, and what the global variable holds. *)
Lemma fork_success par ctx s c s' : proc_fork fork_entry fork_args par ctx s = Done c s' → c ≠ 0 →
  g_fork_child_args s' = (c, ctx) ∧
  ∃ x u, procs s' !! c = Some x ∧ threads (ksched s') !! main_thread x = Some u ∧ entry u = fork_entry.
Proof.
  unfold proc_fork. intros E Hc. destruct (par =? 0); [by injection E as <- _|].
  kinv E as p s1 E1. destruct (page_table p =? 0); [by injection E as <- _|].
  kinv E as pml4 s2 E2. destruct (pml4 =? 0); [by injection E as <- _|].
  kinv E as ch s3 E3. destruct (ch =? 0); [kinv E as [] s4 _; by injection E as <- _|].
  kinv E as [] s4 E4. kinv E as [] s5 E5. rewrite kmod_bind in E. kinv E as ft s6 E6. kinv E as [] s7 E7. rewrite kmod_bind in E.
  kinv E as t s8 E8. apply sch_inv in E8 as (k & Ek & ->). destruct (t =? 0) eqn:Et.
  { kinv E as [] s9 _. kinv E as [] s10 _. kinv E as [] s11 _. by injection E as <- _. }
  apply Z.eqb_neq in Et. destruct (thread_create_inv _ _ _ _ _ Ek Et) as (u & Eu & He & _).
  kinv E as [] s9 E9. apply set_main_thread_inv in E9 as (x & v & Ex & Ep & _ & Eg & Es & Ev).
  kinv E as [] s10 E10. apply sch_inv in E10 as (k' & Ek' & ->). injection E as <- <-.
  rewrite Es in Ek'. destruct (add_thread_keeps _ _ _ t u Ek' Eu) as (u' & Eu' & He' & _).
  split; [by cbn; rewrite Eg|]. exists (set_thread t x), u'. cbn. rewrite Ep, lookup_insert_eq. split_and!; [done..|congruence].
Qed.

(** The registers with which a child returns to user mode. *)
Definition fork_frame (c : ForkContext) : SyscallFrame :=
  mkFrame (fk_r15 c) (fk_r14 c) (fk_r13 c) (fk_r12 c) (fk_rbp c) (fk_rbx c) (fk_rip c) (fk_rflags c) (fk_rsp c).
Lemma child_entry_ok s c ctx x t : g_fork_child_args s = (c, ctx) → procs s !! c = Some x →
  threads (ksched s) !! current_thread (ksched s) = Some t →
  ∃ s', fork_child_entry s = Done (0, fork_frame ctx) s' ∧ cpu_cr3 (ksched s') = page_table x ∧ procs s' = procs s ∧
    syscall_kernel_rsp (ksched s') = kernel_stack_top t.
Proof.
  intros Eg Ex Et. unfold fork_child_entry. rewrite kget_bind, Eg. kbind (sch_get current_thread s).
  assert (sch (th (current_thread (ksched s))) s = Done t s) as Eth.
  { unfold sch, zoom, th, kopt. rewrite Et. by destruct s. }
  kbind Eth. rewrite (bind_Done _ _ s tt (with_ksched (with_kernel_stack (kernel_stack_top t) (ksched s)) s)) by done.
  rewrite (proc_bind _ c x) by done. eexists. split; [done|]. done.
Qed.

(** ** Running out of memory for the thread *)

Lemma proc_setup_inv p s s' : proc_setup p s = Done tt s' → proc_list s' = p.
Proof.
  unfold proc_setup. rewrite !kget_bind. intros E. kinv E as [] s1 _. kinv E as [] s2 _. injection E as <-. done.
Qed.
Lemma fds_keeps {A} (m : K (Fds H) A) s a s' : fds m s = Done a s' → proc_list s' = proc_list s ∧ procs s' = procs s.
Proof. intros (d & _ & ->)%zoom_inv. done. Qed.
Lemma vm_keeps {A} (m : K (Vmm P) A) s a s' : vm m s = Done a s' → proc_list s' = proc_list s ∧ procs s' = procs s.
Proof. intros (d & _ & ->)%zoom_inv. done. Qed.
Lemma alloc_proc_inv s a s' : alloc_proc s = Done a s' → proc_list s' = proc_list s.
Proof.
  unfold alloc_proc. intros E. kinv E as b s1 E1. apply sch_inv in E1 as (k & _ & ->). kinv E as [] s2 E2. injection E as <- <-.
  destruct (b =? 0); by injection E2 as <-.
Qed.
Lemma free_proc_inv a s s' : free_proc a s = Done tt s' → proc_list s' = proc_list s ∧ procs s' !! a = None.
Proof.
  unfold free_proc. intros E. kinv E as [] s1 E1. apply sch_inv in E1 as (k & _ & ->). kinv E as [] s2 E2.
  apply sch_inv in E2 as (k2 & _ & ->). injection E as <-. split; [done|]. apply lookup_delete_eq.
Qed.
Lemma free_table_keeps ft s s' : free_table ft s = Done tt s' → proc_list s' = proc_list s.
Proof. unfold free_table. destruct (ft =? 0); [by injection 1 as <-|]. by intros [? _]%fds_keeps. Qed.

(** A fork that fails leaves the list as it was, or with a freed process at its head. *)
Lemma fork_failure par ctx s s' : proc_fork fork_entry fork_args par ctx s = Done 0 s' →
  proc_list s' = proc_list s ∨ (proc_list s' ≠ 0 ∧ procs s' !! proc_list s' = None).
Proof.
  unfold proc_fork. intros E. destruct (par =? 0); [injection E as <-; by left|].
  kinv E as p s1 E1. unfold proc in E1. apply kopt_inv in E1 as [_ ->]. destruct (page_table p =? 0); [injection E as <-; by left|].
  kinv E as pml4 s2 E2. apply vm_keeps in E2 as [L2 _]. destruct (pml4 =? 0); [injection E as <-; by left|].
  kinv E as ch s3 E3. apply alloc_proc_inv in E3. destruct (ch =? 0) eqn:Ech.
  { kinv E as [] s4 E4. apply vm_keeps in E4 as [L4 _]. injection E as <-. left. congruence. }
  kinv E as [] s4 E4. apply proc_setup_inv in E4. kinv E as [] s5 E5. apply upd_proc_inv in E5 as (x5 & _ & ->).
  rewrite kmod_bind in E. kinv E as ft s6 E6. apply fds_keeps in E6 as [L6 _]. kinv E as [] s7 E7. apply upd_proc_inv in E7 as (x7 & _ & ->).
  rewrite kmod_bind in E. kinv E as t s8 E8. apply sch_inv in E8 as (k & _ & ->). cbn in L6. destruct (t =? 0).
  - kinv E as [] s9 E9. apply free_table_keeps in E9. kinv E as [] s10 E10. apply vm_keeps in E10 as [L10 _].
    kinv E as [] s11 E11. apply free_proc_inv in E11 as [L11 N11]. injection E as <-. right. cbn in E9.
    assert (proc_list s11 = ch) as -> by congruence. split; [by apply Z.eqb_neq|done].
  - kinv E as [] s9 _. kinv E as [] s10 _. injection E as -> _. done.
Qed.
Lemma dangling_head s f : proc_list s ≠ 0 → procs s !! proc_list s = None → find_proc f s = Stuck.
Proof.
  intros H0' E. unfold find_proc, kopt. destruct (size (procs s)); cbn [list_find]; rewrite (proj2 (Z.eqb_neq _ _) H0'), ?E; done.
Qed.
End fork.
