(* ===== verification/ProcessTheorems.v ===== *)
(** * Processes and signals: theorems

    Delivery of a signal and the return from its handler; exit and wait; fork; with the
    executions in which the code does not do what it means to. *)
From S2P Require Import Prelude PageAlloc Pmm Spinlock Kmalloc KmallocCorrect KHeap Vmm VmmTheorems Sched SchedCorrect WaitQueueCorrect Pipe Fd FdCorrect Process ProcessCorrect ProcessWait ProcessExit ProcessFork.

Section theorems.
Context {H P : Type} `{KHeap H} `{PageAlloc P}.
Context (wait_lock fork_entry fork_args : Z).
Implicit Types (s : Kern H P).

(** C10. Signals: when a system call ends with a caught signal pending and every lower pending one is ignored, the user program
    continues in the handler with the signal's number as argument, on a frame below its stack; the signals up to this one are no
    longer pending and the others still are.  A [sigreturn] made with the stack pointer the handler was entered with,
    in any later state that has not overwritten the frame, resumes the interrupted program with all its registers and
    the result of the interrupted call. *)
Theorem signal_round_trip s p x frame ret signo h :
  running s p x → restoring (sig x) = 0 → 1 ≤ signo < NSIG → signo ≠ SIGKILL → signo ≠ SIGSTOP →
  is_pending signo (sig x) = true → zget (handlers (sig x)) signo = Some h → h ≠ SIG_IGN → h ≠ SIG_DFL →
  (∀ j, 1 ≤ j < signo → is_pending j (sig x) = true → skipped (sig x) j) →
  user_ptr_valid (sig_rsp frame) SIZEOF_SIGFRAME = true →
  mapped (default ∅ (umem s !! p)) (sig_rsp frame) SIZEOF_SIGFRAME →
  frame_ok frame → - 2 ^ 63 ≤ ret < 2 ^ 63 →
  ∃ s' x', sig_maybe_deliver frame ret s = Done (Back (ret, handler_frame frame h)) s' ∧ sig_pending_arg s' = signo ∧
    procs s' = <[p := x']> (procs s) ∧ (∀ j, 1 ≤ j < NSIG → is_pending j (sig x') = is_pending j (sig x) && (signo <? j)) ∧
    ∀ s2 x2 regs, running s2 p x2 → frsp regs = sig_rsp frame →
      read_bytes (sig_rsp frame) SIZEOF_SIGFRAME (default ∅ (umem s2 !! p)) =
        read_bytes (sig_rsp frame) SIZEOF_SIGFRAME (default ∅ (umem s' !! p)) →
      ∃ s3, syscall_entry regs (r ← sys_sigreturn; mret (Back r)) s2 = Done (Back (ret, 0, frame)) s3.
Proof.
  intros Hrun Hr Hs Hk Hst Hp Eh Hi Hd Hlow Hv Hm Hf Hret.
  destruct (deliver_handler s p x frame ret signo h) as (ss & m & E & _ & Hpend & Hread); try done.
  eexists _, (set_sig ss x). split_and!; [exact E|done|done|done|].
  intros s2 x2 regs Hrun2 Hrsp Hmem. unfold NSIG in Hs.
  destruct (sigreturn_lemma s2 p x2 frame ret signo regs Hrun2 Hf ltac:(lia) Hret Hv Hrsp) as (s3 & E3 & _); [|by exists s3].
  rewrite Hmem. cbn. by rewrite lookup_insert_eq.
Qed.

(** C16. Exit and wait: when a process exits while its parent sleeps in [wait], [sys_exit] does not come back; all its descriptors
    are closed and the pipe counts stay right; its parent has SIGCHLD pending and its thread is the running one or in the run
    queue; and if it is the only zombie child, the parent's next pass of [wait] returns its id and its status and marks it reaped. *)
Theorem exit_wakes_parent s c x p y pt l lq W t status :
  can_exit s c x p y pt l lq W t →
  ∃ s' lq' y', sys_exit status s = Done true s' ∧ fds_ok (get_fds s') ∧
    (fd_table x ≠ 0 → ∃ t', ktables s' !! fd_table x = Some t' ∧ Forall (λ en, used en = false) t') ∧
    procs s' !! p = Some y' ∧ is_pending SIGCHLD (sig y') = true ∧
    runq (ksched s') lq' ∧ pt ∈ current_thread (ksched s') :: lq' ∧
    ((∀ b z, b ∈ l → procs s !! b = Some z → is_zombie p z = false) →
     ∀ s2 addr flags, procs s2 = procs s' → proc_list s2 = proc_list s' → wait_ready wait_lock s2 p addr →
       wait_returns wait_lock s2 p addr (wait_pass wait_lock p addr flags s2) (i32 (pid x))
         (<[c := set_pstate PROC_TERMINATED (set_exit PROC_ZOMBIE (i32 status) x)]> (procs s2)) (Some (status mod 256 * 256))).
Proof.
  intros Hce. destruct (exit_lemma _ _ _ _ _ _ _ _ _ _ status Hce) as (s' & lq' & E & Ep & El & _ & _ & Hok & Hcl & Hq & Hpt).
  destruct Hce as [Hrun Hl _ (Hpar & Hp & Hp0 & Hpc & Ey & Hst) Hcl' _ _ _ _]. destruct (running_proc _ _ _ Hrun) as [Hc0 Ex].
  exists s', lq', (set_sig (raise SIGCHLD (sig y)) y). split_and!; try done.
  { rewrite Ep. apply lookup_insert_eq. } { cbn [sig set_sig]. by rewrite is_pending_raise. }
  intros Hno s2 addr flags Ep2 El2 Hready. set (xz := set_exit PROC_ZOMBIE (i32 status) x).
  assert (procs s2 !! c = Some xz) as Ec by (rewrite Ep2, Ep; unfold exited; rewrite lookup_insert_ne by done; apply lookup_insert_eq).
  assert (plist s2 l) as Hl2.
  { split; [|apply Hl]. rewrite Ep2, El2, Ep, El. unfold exited. eapply proc_chain_upd with (x := y); [by rewrite lookup_insert_ne|done|].
    by apply proc_chain_upd with x; [..|apply Hl]. }
  assert (zombie_of s2 p l = c) as Hz.
  { eapply first_of_unique; [apply Hl2|done|exact Ec|unfold is_zombie; cbn; by rewrite Hpar, Z.eqb_refl|].
    intros b z Hb Ez Hzb. destruct (decide (b = c)) as [|Hbc]; [done|]. exfalso. rewrite Ep2, Ep in Ez. unfold exited in Ez.
    destruct (decide (b = p)) as [->|Hbp].
    - rewrite lookup_insert_eq in Ez. injection Ez as <-. pose proof (Hno p y Hp Ey) as Hn. unfold is_zombie in *. cbn in Hzb. congruence.
    - rewrite !lookup_insert_ne in Ez by done. pose proof (Hno b z Hb Ez). congruence. }
  destruct (wait_zombie wait_lock s2 l p addr flags Hl2 Hready) as (x' & Ex' & _ & Hret); [by rewrite Hz|].
  rewrite Hz in *. rewrite Ec in Ex'. injection Ex' as <-.
  rewrite wait_encode_exit_val in Hret. cbn [exit_status set_exit xz] in Hret. rewrite i32_mod256 in Hret. exact Hret.
Qed.

(** C31. One pass of [wait] over the list of processes, with the lock of [wait] free: it reports the first zombie child, which becomes
    TERMINATED, with the low byte of its exit status in the second byte of the status word; else the first stopped child not yet
    reported, whose stop signal is cleared, with the signal in the second byte and 127 in the first.  With neither it returns ECHILD if there is no
    child and 0 under WNOHANG.  Each of these is returned with the lock released and the interrupt flag as before, the status stored in the
    caller's memory when asked for, and no other process changed.  With a child and without WNOHANG the thread goes to sleep: when another
    thread can run and the scheduler's lock is free, the pass ends with the lock released, the thread blocked at the end of the queue that
    the exit of a child wakes, its registers saved, the next thread running, and no process changed. *)
Theorem wait_correct s l p addr flags :
  plist s l → wait_ready wait_lock s p addr →
  let pass := wait_pass wait_lock p addr flags s in
  (zombie_of s p l ≠ 0 → ∃ x, procs s !! zombie_of s p l = Some x ∧ is_zombie p x = true ∧
     wait_returns wait_lock s p addr pass (i32 (pid x))
       (<[zombie_of s p l := set_pstate PROC_TERMINATED x]> (procs s)) (Some (exit_status x mod 256 * 256))) ∧
  (zombie_of s p l = 0 → stopped_of s p l ≠ 0 → ∃ x, procs s !! stopped_of s p l = Some x ∧ is_stopped p x = true ∧
     wait_returns wait_lock s p addr pass (pid x)
       (<[stopped_of s p l := set_exit (pstate x) 0 x]> (procs s)) (Some (i32 (exit_status x * 256) + 127))) ∧
  (zombie_of s p l = 0 → stopped_of s p l = 0 → child_of s p l = 0 →
     wait_returns wait_lock s p addr pass (- ECHILD) (procs s) None) ∧
  (zombie_of s p l = 0 → stopped_of s p l = 0 → child_of s p l ≠ 0 → Z.land flags WNOHANG ≠ 0 →
     wait_returns wait_lock s p addr pass 0 (procs s) None) ∧
  (zombie_of s p l = 0 → stopped_of s p l = 0 → child_of s p l ≠ 0 → Z.land flags WNOHANG = 0 →
     ∀ c lw lq, can_sleep (ksched s) (child_exit_wq p) wait_lock c lw lq →
       ∃ k, pass = Done Away (with_ksched k s) ∧ asleep (ksched s) (child_exit_wq p) wait_lock c lw lq k).
Proof.
  intros Hl Hr pass. split_and!.
  - intros Hz. setoid_rewrite <-wait_encode_exit_val. by apply wait_zombie.
  - intros Hz Ht. setoid_rewrite <-wait_encode_stopped_val. by apply wait_stopped.
  - intros Hz Ht Hc. unfold pass. rewrite (wait_nothing wait_lock s l) by done. rewrite Hc. by eexists.
  - intros Hz Ht Hc Hf. unfold pass. rewrite (wait_nothing wait_lock s l) by done.
    rewrite (proj2 (Z.eqb_neq _ _) Hc), (proj2 (Z.eqb_neq _ _) Hf). by eexists.
  - intros Hz Ht Hc Hf c lw lq Hs. by apply (wait_sleeps wait_lock s l).
Qed.

(** Two forks in a row: the second one overwrites the global variable that the thread of the first child has not read yet.  That
    thread starts at [fork_child_entry] and, whatever the scheduler did meanwhile, enters user mode with the registers of the
    second fork and in the address space of the second child. *)
Theorem fork_twice_shares_args par1 par2 ctx1 ctx2 s c1 s1 c2 s2 :
  proc_fork fork_entry fork_args par1 ctx1 s = Done c1 s1 → c1 ≠ 0 →
  proc_fork fork_entry fork_args par2 ctx2 s1 = Done c2 s2 → c2 ≠ 0 →
  ∃ x1 u1 x2, procs s1 !! c1 = Some x1 ∧ threads (ksched s1) !! main_thread x1 = Some u1 ∧ entry u1 = fork_entry ∧
    procs s2 !! c2 = Some x2 ∧
    ∀ (k : Sched H) t, current_thread k = main_thread x1 → threads k !! main_thread x1 = Some t →
      ∃ s3, fork_child_entry (with_ksched k s2) = Done (0, fork_frame ctx2) s3 ∧ cpu_cr3 (ksched s3) = page_table x2.
Proof.
  intros E1 H1' E2 H2'. destruct (fork_success _ _ _ _ _ _ _ E1 H1') as (_ & x1 & u1 & Ex1 & Eu1 & He1).
  destruct (fork_success _ _ _ _ _ _ _ E2 H2') as (Eg & x2 & _ & Ex2 & _). exists x1, u1, x2. split_and!; [done..|].
  intros k t Hc Ht. destruct (child_entry_ok (with_ksched k s2) c2 ctx2 x2 t) as (s3 & E3 & Hcr & _); [done|done| |by exists s3].
  cbn. by rewrite Hc.
Qed.

(** A fork that fails after it linked the child leaves the process list with a freed process at its head, and
    every later search of the list uses the freed memory. *)
Theorem fork_failure_dangles par ctx s s' f :
  proc_fork fork_entry fork_args par ctx s = Done 0 s' → proc_list s' ≠ proc_list s → find_proc f s' = Stuck.
Proof. intros E Hne. destruct (fork_failure _ _ _ _ _ _ E) as [|[H0' Hn]]; [done|]. by apply dangling_head. Qed.

(** The word on top of the stack when a handler starts, which its [ret] jumps to, is the code of the trampoline and not its
    address: it is not even a canonical address. *)
Lemma handler_return_address frame signo ret :
  le_val (take 8 (sf_bytes (sig_frame frame signo ret))) = 0x0F050F00000016B8 ∧ USER_ADDR_LIMIT < 0x0F050F00000016B8 < 0xFFFF800000000000 ∧
  ret_addr (sig_frame frame signo ret) = sig_rsp frame.
Proof. done. Qed.

(** A status pointer that is in the user half but not mapped stops the machine. *)
Lemma wait_status_fault s l p addr flags w : plist s l → locks (ksched s) !! wait_lock = Some w → locked w = 0 →
  zombie_of s p l ≠ 0 → addr ≠ 0 → default ∅ (umem s !! p) !! addr = None →
  ∃ s', wait_pass wait_lock p addr flags s = Panic s'.
Proof.
  intros Hl Ew Hw Hz Ha Hm. set (z := zombie_of s p l) in *.
  destruct (first_of_found _ _ _ z eq_refl Hz) as (_ & _ & x & _ & Ex & Hx & _).
  set (s1 := with_ksched (wait_locked wait_lock s) s). assert (procs s1 !! z = Some x) as Ex1 by done.
  assert (proc_find_zombie_child p s1 = Done z s1) as Ez by exact (find_proc_ok s1 l (is_zombie p) Hl).
  assert (proc_reap z s1 = Done (i32 (pid x), exit_status x) (with_procs (<[z := set_pstate PROC_TERMINATED x]> (procs s)) s1)) as Er.
  { unfold proc_reap. rewrite (proj2 (Z.eqb_neq _ _) Hz), (proc_bind s1 z x) by done.
    apply andb_true_iff in Hx as [_ ->]. cbn [negb]. by rewrite (upd_proc_bind s1 z x). }
  eexists. unfold wait_pass. rewrite (acquire_bind _ _ w) by done. fold s1. kbind Ez.
  rewrite (proj2 (Z.eqb_neq _ _) Hz). cbn [negb]. rewrite (proc_bind s1 z x) by done. kbind Er.
  etransitivity; [exact (release_bind wait_lock s _ _)|]. apply bind_Panic. unfold put_status. rewrite (proj2 (Z.eqb_neq _ _) Ha).
  unfold user_store. cbn [umem with_procs with_ksched]. change (le_bytes 4 ?v) with (v / 2 ^ (8 * 0) mod 256 :: ((λ i, v / 2 ^ (8 * i) mod 256) <$> [1; 2; 3])).
  cbn [write_bytes]. by rewrite Hm.
Qed.
End theorems.

(** ** Witnesses *)

(** A process 1000 (id 5) and its child 2000 (id 6); thread 100 is the parent's, 200 the child's. *)
Definition proc_example (n st thr par nx pend : Z) (hs : list Z) : Process :=
  mkProc n n st 0 thr 4096 0 0 0 [47] 0 0 0 0 18 (mkSig pend hs 0 zero_sf) par nx.
Definition handlers_example : list Z := <[2%nat := 0x401000]> (<[1%nat := SIG_IGN]> (replicate 32 0)).
Definition kernel_example (cur tst : Z) (wq : gmap Z WaitQueue) (child_st pend : Z) : Kern (Heap Z) Pmm :=
  mkKern
    (mkSched heap_example
       (list_to_map [(100, mkThread 1 tst zero_ctx 0 0 0x9000 0 0 0 InYield); (200, mkThread 2 THREAD_RUNNING zero_ctx 0 0 0xA000 0 0 0 InSchedule)])
       0 0 0 SPINLOCK_INIT cur 3 0x202 zero_ctx 0 0 4096 0 wq {[ 16 := SPINLOCK_INIT ]})
    vmm_example ∅ ∅
    (list_to_map [(1000, proc_example 5 PROC_ALIVE 100 0 0 pend handlers_example); (2000, proc_example 6 child_st 200 1000 1000 0 (replicate 32 0))])
    2000 7 (<[2%nat := 2000]> (<[1%nat := 1000]> (replicate 64 0))) 0 (mkFrame 0 0 0 0 0 0 0x401000 0x202 0x1100)
    {[ 1000 := list_to_map ((λ i, (0x1000 + i, 0)) <$> seqZ 0 256) ]} (0, mkFork 0 0 0 0 0 0 0 0 0).
Definition parent_runs : Kern (Heap Z) Pmm := kernel_example 100 THREAD_RUNNING ∅ PROC_ZOMBIE 6.
Definition child_runs : Kern (Heap Z) Pmm :=
  kernel_example 200 THREAD_BLOCKED {[ 2024 := mkWq SPINLOCK_INIT 100 100 ]} PROC_ALIVE 0.

Lemma example_mapped a n : Forall (λ i, is_Some (default ∅ (umem parent_runs !! 1000) !! (a + i))) (seqZ 0 n) →
  mapped (default ∅ (umem parent_runs !! 1000)) a n.
Proof. intros Hf i Hi. rewrite Forall_forall in Hf. apply Hf, elem_of_seqZ. lia. Qed.
Lemma example_plist cur tst wq st pend : plist (kernel_example cur tst wq st pend) [2000; 1000].
Proof.
  split; [|by repeat constructor; set_solver]. cbn [proc_chain]. split_and!; [done..|]. eexists. split; [reflexivity|].
  split_and!; [done..|]. eexists. split; reflexivity.
Qed.

Definition frame_example : SyscallFrame := mkFrame 15 14 13 12 5 3 0x402000 0x202 0x1100.
(** SIGHUP (ignored) and SIGINT (caught) are pending. *)
Lemma signal_round_trip_witness :
  ∃ s', sig_maybe_deliver frame_example 42 parent_runs = Done (Back (42, handler_frame frame_example 0x401000)) s' ∧
    sig_pending_arg s' = 2.
Proof.
  destruct (signal_round_trip parent_runs 1000 (proc_example 5 PROC_ALIVE 100 0 0 6 handlers_example) frame_example 42 2 0x401000)
    as (s' & x' & E & Ha & _).
  - eexists. split_and!; [discriminate|reflexivity|reflexivity|reflexivity|discriminate|reflexivity].
  - reflexivity.
  - unfold NSIG. lia.
  - discriminate.
  - discriminate.
  - reflexivity.
  - reflexivity.
  - discriminate.
  - discriminate.
  - intros j Hj _. assert (j = 1) as -> by lia. split_and!; [discriminate|discriminate|]. exists SIG_IGN. split; [reflexivity|by left].
  - reflexivity.
  - apply example_mapped. refine (bool_decide_unpack _ _). vm_compute. exact I.
  - repeat split; discriminate.
  - lia.
  - exists s'. split; [exact E|exact Ha].
Defined.

(** The parent runs, its child is alive and ready. *)
Definition parent_waits : Kern (Heap Z) Pmm :=
  let s := kernel_example 100 THREAD_RUNNING {[ 2024 := mkWq SPINLOCK_INIT 0 0 ]} PROC_ALIVE 0 in with_ksched (with_queue 200 200 (ksched s)) s.
Lemma parent_can_sleep : can_sleep (ksched parent_waits) (child_exit_wq 1000) 16 100 [] [200].
Proof.
  split.
  - eexists. split_and!; [reflexivity|done|]. split_and!; [by intros [|] ?|constructor|done|done].
  - split_and!; [|by repeat constructor; set_solver|done|done]. apply chain_cons. split_and!; [done|by eexists|]. by intros [|[]] ?.
  - split_and!; [done|done|by eexists].
  - split_and!; set_solver.
  - by eexists.
  - done.
  - split_and!; [done|done|set_solver|by eexists].
Qed.
Lemma wait_correct_witness :
  (∃ s', wait_pass 16 1000 0x1000 0 parent_runs = Done (Back 6) s' ∧
    procs s' = <[2000 := set_pstate PROC_TERMINATED (proc_example 6 PROC_ZOMBIE 200 1000 1000 0 (replicate 32 0))]> (procs parent_runs)) ∧
  ∃ k, wait_pass 16 1000 0x1000 0 parent_waits = Done Away (with_ksched k parent_waits) ∧ current_thread k = 200.
Proof.
  split.
  - destruct (wait_correct 16 parent_runs [2000; 1000] 1000 0x1000 0) as [Hz _].
    + apply example_plist.
    + split; [by eexists|]. intros _. apply example_mapped. refine (bool_decide_unpack _ _). vm_compute. exact I.
    + change (zombie_of parent_runs 1000 [2000; 1000]) with 2000 in Hz. destruct (Hz ltac:(discriminate)) as (x & Ex & _ & s' & E & Ep & _).
      injection Ex as <-. exists s'. split; [exact E|exact Ep].
  - destruct (wait_correct 16 parent_waits [2000; 1000] 1000 0x1000 0) as (_ & _ & _ & _ & Hs).
    + apply (example_plist 100 THREAD_RUNNING {[ 2024 := mkWq SPINLOCK_INIT 0 0 ]} PROC_ALIVE 0).
    + split; [by eexists|]. intros _. apply example_mapped. refine (bool_decide_unpack _ _). vm_compute. exact I.
    + destruct (Hs eq_refl eq_refl ltac:(discriminate) eq_refl 100 [] [200] parent_can_sleep) as (k & E & [_ _ _ _ [Hc _]]).
      exists k. split; [exact E|exact Hc].
Defined.

Lemma child_can_exit :
  can_exit child_runs 2000 (proc_example 6 PROC_ALIVE 200 1000 1000 0 (replicate 32 0))
    1000 (proc_example 5 PROC_ALIVE 100 0 0 0 handlers_example) 100 [2000; 1000] [] {[ 2024 := [100] ]} [].
Proof.
  split.
  - eexists. split_and!; [discriminate|reflexivity|reflexivity|reflexivity|discriminate|reflexivity].
  - apply example_plist.
  - intros a b x y Ha Hb Ex Ey Hp. rewrite !elem_of_cons, elem_of_nil in Ha, Hb.
    destruct Ha as [->|[->|[]]], Hb as [->|[->|[]]]; try reflexivity; vm_compute in Ex, Ey; injection Ex as <-; injection Ey as <-; discriminate Hp.
  - split_and!; [reflexivity|set_solver|discriminate|discriminate|reflexivity|discriminate].
  - set_solver.
  - split_and!; [apply (fds_empty heap_example heap_example_ok)|by intros []|]. intros i en a e Hi. apply zget_Some_range in Hi. cbn in Hi. lia.
  - split.
    + split.
      * split_and!; [by intros [|]|by constructor|done..].
      * intros q w [<- <-]%lookup_singleton_Some. split; [|done]. exists (mkWq SPINLOCK_INIT 100 100). split_and!; [done..|].
        split_and!; [|by repeat constructor; set_solver|done..]. intros [|[]] a Ha; [|done..]. injection Ha as <-. split; [done|by eexists].
      * intros q w a _ _. apply not_elem_of_nil.
      * intros q q' w w' a [<- _]%lookup_singleton_Some [<- _]%lookup_singleton_Some. done.
    + split; [apply not_elem_of_nil|]. intros q w [_ <-]%lookup_singleton_Some. cbn. set_solver.
  - by exists [].
  - by intros [].
Qed.
Lemma exit_wakes_parent_witness : ∃ s', sys_exit 3 child_runs = Done true s' ∧ current_thread (ksched s') = 100.
Proof.
  destruct (exit_wakes_parent 16 _ _ _ _ _ _ _ _ _ _ 3 child_can_exit) as (s' & _ & _ & E & _). exists s'. split; [exact E|].
  assert (match sys_exit 3 child_runs with Done _ s => current_thread (ksched s) | _ => 0 end = 100) as Hc by (vm_compute; reflexivity).
  by rewrite E in Hc.
Defined.

Definition ctx_example (rip : Z) : ForkContext := mkFork rip 0x1100 0x202 5 3 12 13 14 15.
Definition fork_example (ctx : ForkContext) (s : Kern (Heap Z) Pmm) : outcome (Kern (Heap Z) Pmm) Z := proc_fork 24 32 1000 ctx s.
Definition state_of (o : outcome (Kern (Heap Z) Pmm) Z) : Kern (Heap Z) Pmm := match o with Done _ s => s | _ => parent_runs end.
Definition result_of (o : outcome (Kern (Heap Z) Pmm) Z) : Z := match o with Done a _ => a | _ => 0 end.
Definition returned (o : outcome (Kern (Heap Z) Pmm) Z) : bool := match o with Done _ _ => true | _ => false end.
Lemma returned_eq o : returned o = true → o = Done (result_of o) (state_of o).
Proof. by destruct o. Qed.
Definition forked1 : outcome (Kern (Heap Z) Pmm) Z := fork_example (ctx_example 0x401100) parent_runs.
Definition forked2 : outcome (Kern (Heap Z) Pmm) Z := fork_example (ctx_example 0x401200) (state_of forked1).
Definition table_of (c : Z) (s : Kern (Heap Z) Pmm) : Z := match procs s !! c with Some x => page_table x | None => 0 end.

(** The two children have different address spaces, and the first one enters that of the second. *)
Lemma fork_twice_shares_args_witness :
  table_of (result_of forked1) (state_of forked2) ≠ table_of (result_of forked2) (state_of forked2) ∧
  ∃ x1 x2, procs (state_of forked1) !! result_of forked1 = Some x1 ∧ procs (state_of forked2) !! result_of forked2 = Some x2 ∧
    ∀ (k : Sched (Heap Z)) t, current_thread k = main_thread x1 → threads k !! main_thread x1 = Some t →
      ∃ s3, fork_child_entry (with_ksched k (state_of forked2)) = Done (0, fork_frame (ctx_example 0x401200)) s3 ∧
        cpu_cr3 (ksched s3) = page_table x2.
Proof.
  split; [vm_compute; discriminate|].
  destruct (fork_twice_shares_args 24 32 1000 1000 (ctx_example 0x401100) (ctx_example 0x401200) parent_runs
    (result_of forked1) (state_of forked1) (result_of forked2) (state_of forked2)) as (x1 & u1 & x2 & E1 & _ & _ & E2 & Hk).
  - apply (returned_eq forked1). vm_compute. reflexivity.
  - vm_compute. discriminate.
  - apply (returned_eq forked2). vm_compute. reflexivity.
  - vm_compute. discriminate.
  - exists x1, x2. split; [exact E1|]. split; [exact E2|exact Hk].
Defined.

(** A heap of four pages that cannot grow holds the process but not the stack of its thread. *)
Definition small_heap : Heap Z := KmallocCorrect.after ((kmalloc_init;; mret 0) (mkHeap 4 0 0 ∅ ∅)).
Lemma fork_failure_dangles_witness : ∃ s', fork_example (ctx_example 0x401100)
    (with_ksched (with_heap small_heap (ksched parent_runs)) parent_runs) = Done 0 s' ∧ proc_get_by_pid 5 s' = Stuck.
Proof.
  set (s0 := with_ksched (with_heap small_heap (ksched parent_runs)) parent_runs).
  exists (state_of (fork_example (ctx_example 0x401100) s0)).
  assert (fork_example (ctx_example 0x401100) s0 = Done 0 (state_of (fork_example (ctx_example 0x401100) s0))) as E.
  { replace 0 with (result_of (fork_example (ctx_example 0x401100) s0)) at 3 by (vm_compute; reflexivity).
    apply returned_eq. vm_compute. reflexivity. }
  split; [exact E|]. apply (fork_failure_dangles 24 32 1000 (ctx_example 0x401100) s0); [exact E|]. vm_compute. discriminate.
Defined.
