(* ===== verification/Procfs.v ===== *)
(** * The process file system

    [kernel/fs/procfs.c] and the reading side of [kernel/arch/x86_64/pit.c]: files whose
    text is made when they are read, from the page allocator, the heap, the timer and the
    list of processes.  The state is the system the text is made from and the static nodes;
    a node pointer is a [Node].  A buffer of characters is a list, with the state of the
    routines that fill it. *)
From Stdlib Require Import Ascii.
From S2P Require Import Prelude PageAlloc Pmm Kmalloc KHeap Vmm Sched Process Ramfs.

Definition PROCFS_SCRATCH_SIZE : Z := 512.
Definition PROCFS_PID_POOL : Z := 8.

(** The characters of a string literal. *)
Definition codes (s : string) : list Z := (λ a, Z.of_N (N_of_ascii a)) <$> String.list_ascii_of_string s.

(** ** The system the files describe *)

Record Sys (B : Type) : Type := mkSys { skern : Kern (Heap B) Pmm; pit_freq : Z }.
Arguments mkSys {B}.
Arguments skern {B}.
Arguments pit_freq {B}.

(** ** Formatting *)

(** One character, while there is room for the NUL. *)
Fixpoint procfs_append_str (pos max : Z) (s : list Z) : K (list Z) Z :=
  match s with
  | c :: s' =>
      if pos <? max - 1 then
        kupd (λ buf, zset buf pos c);;
        procfs_append_str (pos + 1) max s'
      else mret pos
  | [] => mret pos
  end.
(** The loop that fills [tmp] for as long as it has room for [limit] digits; the digit stored last comes first. *)
Fixpoint decimal_loop (limit : nat) (val : Z) (tmp : list Z) : list Z :=
  if 0 <? val then
    match limit with
    | O => tmp
    | S limit' => decimal_loop limit' (val / 10) (48 + val mod 10 :: tmp)
    end
  else tmp.
Definition procfs_append_u64 (pos max val : Z) : K (list Z) Z :=
  procfs_append_str pos max (if val =? 0 then [48] else decimal_loop 20 val []).

(** ** Nodes *)

(** The tables of operations and the generators. *)
Inductive ProcfsOps : Type := procfs_file_ops | procfs_pid_dir_ops | procfs_root_dir_ops.
Inductive procfs_gen_fn : Type := gen_meminfo_fn | gen_uptime_fn | gen_pid_status_fn.
Record ProcVnode : Type := mkPnode { p_inode_num : Z; p_type : Z; p_size : Z; p_mode : Z; p_ops : option ProcfsOps }.
Record ProcfsFileNode : Type := mkPfile { fvnode : ProcVnode; generate : option procfs_gen_fn; gen_ctx : Z }.
Record ProcfsDirNode : Type := mkPdir { dvnode : ProcVnode; dpid : Z }.

Record Procfs (B : Type) : Type := mkProcfs {
  psys : Sys B;
  meminfo_node : ProcfsFileNode;
  uptime_node : ProcfsFileNode;
  pid_dirs : list ProcfsDirNode;
  pid_dirs_next : Z;
  pid_status_nodes : list ProcfsFileNode;
  pid_status_next : Z;
  procfs_root_node : ProcfsDirNode;
}.
Arguments mkProcfs {B}.
Arguments psys {B}.
Arguments meminfo_node {B}.
Arguments uptime_node {B}.
Arguments pid_dirs {B}.
Arguments pid_dirs_next {B}.
Arguments pid_status_nodes {B}.
Arguments pid_status_next {B}.
Arguments procfs_root_node {B}.
(** A pointer to one of the static nodes. *)
Inductive Node : Type := MeminfoNode | UptimeNode | RootNode | PidDir (slot : Z) | PidStatus (slot : Z).

Section procfs.
Context {B : Type} `{HeapBacking B}.
Implicit Types (s : Procfs B).

Definition kern s : Kern (Heap B) Pmm := skern (psys s).
Definition with_kern (k : Kern (Heap B) Pmm) s : Procfs B :=
  mkProcfs (mkSys k (pit_freq (psys s))) (meminfo_node s) (uptime_node s) (pid_dirs s) (pid_dirs_next s)
    (pid_status_nodes s) (pid_status_next s) (procfs_root_node s).
(** A routine of the kernel, and of its heap. *)
Definition kernel {A} (m : K (Kern (Heap B) Pmm) A) : K (Procfs B) A := zoom kern with_kern m.
Definition heap {A} (m : K (Heap B) A) : K (Procfs B) A :=
  kernel (zoom (λ k, kheap (ksched k)) (λ h k, with_ksched (with_heap h (ksched k)) k) m).

Definition pit_get_ticks s : Z := pit_ticks (ksched (kern s)).
Definition pit_get_uptime_ms s : Z :=
  if pit_freq (psys s) =? 0 then 0 else u64 (pit_get_ticks s * 1000) / pit_freq (psys s).

(** ** Generators *)

(** The text in the buffer, as pairs of a label and a number; the calls in a row. *)
Fixpoint append_fields (pos bufsz : Z) (l : list (list Z + Z)) : K (list Z) Z :=
  match l with
  | inl t :: l' => pos ← procfs_append_str pos bufsz t; append_fields pos bufsz l'
  | inr n :: l' => pos ← procfs_append_u64 pos bufsz n; append_fields pos bufsz l'
  | [] => mret pos
  end.
(** A generator reads the system and gives what it does to the buffer. *)
Definition gen_meminfo (bufsz : Z) : K (Procfs B) (K (list Z) Z) :=
  total_pages ← kget (λ s, pmm_get_total_pages (vpmm (kvmm (kern s))));
  free_pages ← kget (λ s, pmm_get_free_pages (vpmm (kvmm (kern s))));
  let total_kb := u64 (total_pages * PAGE_SIZE) / 1024 in
  let free_kb := u64 (free_pages * PAGE_SIZE) / 1024 in
  hs ← heap kmalloc_get_stats;
  mret (append_fields 0 bufsz [
    inl (codes "MemTotal: "); inr total_kb;
    inl (codes " kB" ++ [10] ++ codes "MemFree: "); inr free_kb;
    inl (codes " kB" ++ [10] ++ codes "HeapUsed: "); inr (total_used hs);
    inl (codes " B" ++ [10] ++ codes "HeapFree: "); inr (total_free hs);
    inl (codes " B" ++ [10] ++ codes "HeapMapped: "); inr (heap_mapped hs);
    inl (codes " B" ++ [10])]).
Definition gen_uptime (bufsz : Z) : K (Procfs B) (K (list Z) Z) :=
  ms ← kget pit_get_uptime_ms;
  let secs := ms / 1000 in
  let frac := ms mod 1000 in
  mret (append_fields 0 bufsz ([inr secs; inl (codes ".")] ++
    (if frac <? 100 then [inl (codes "0")] ++ (if frac <? 10 then [inl (codes "0")] else []) else []) ++
    [inr frac; inl [10]])).
Definition state_str (st : Z) : list Z :=
  if st =? PROC_ALIVE then codes "running" else
  if st =? PROC_ZOMBIE then codes "zombie" else
  if st =? PROC_TERMINATED then codes "terminated" else
  if st =? PROC_STOPPED then codes "stopped" else codes "unknown".
Definition gen_pid_status (bufsz ctx : Z) : K (Procfs B) (K (list Z) Z) :=
  p ← kernel (proc_get_by_pid (u32 ctx));
  if p =? 0 then mret (mret 0) else
  x ← kernel (proc p);
  ppid ← (if negb (parent x =? 0) then y ← kernel (proc (parent x)); mret (pid y) else mret 0);
  mret (append_fields 0 bufsz [
    inl (codes "Pid: "); inr (pid x);
    inl ([10] ++ codes "State: "); inl (state_str (pstate x));
    inl ([10] ++ codes "PPid: "); inr ppid;
    inl ([10] ++ codes "Pgid: "); inr (pgid x);
    inl ([10] ++ codes "Uid: "); inr (uid x);
    inl ([10] ++ codes "Gid: "); inr (gid x); inl [10]]).

(** ** Files *)

Definition file_node (n : Node) : K (Procfs B) ProcfsFileNode :=
  match n with
  | MeminfoNode => kget meminfo_node
  | UptimeNode => kget uptime_node
  | PidStatus slot => kopt (λ s, zget (pid_status_nodes s) slot)
  | _ => kstuck
  end.
Definition dir_node (n : Node) : K (Procfs B) ProcfsDirNode :=
  match n with
  | RootNode => kget procfs_root_node
  | PidDir slot => kopt (λ s, zget (pid_dirs s) slot)
  | _ => kstuck
  end.
Definition call_generate (g : procfs_gen_fn) (bufsz ctx : Z) : K (Procfs B) (K (list Z) Z) :=
  match g with
  | gen_meminfo_fn => gen_meminfo bufsz
  | gen_uptime_fn => gen_uptime bufsz
  | gen_pid_status_fn => gen_pid_status bufsz ctx
  end.
(** The result and the bytes that are copied to the caller; [scratch] is what the stack has at first. *)
Definition procfs_file_read (scratch : list Z) (node : Node) (offset size : Z) : K (Procfs B) (Z * list Z) :=
  pn ← file_node node;
  match generate pn with
  | None => mret (0, [])
  | Some g =>
      fill ← call_generate g PROCFS_SCRATCH_SIZE (gen_ctx pn);
      match fill scratch with
      | Done total buf =>
          if total <=? 0 then mret (0, []) else
          if u32 total <=? offset then mret (0, []) else
          let avail := u32 (u32 total - offset) in
          let to_copy := if size <? avail then size else avail in
          mret (i32 to_copy, take (Z.to_nat to_copy) (drop (Z.to_nat offset) buf))
      | _ => kstuck
      end
  end.

(** ** Directories *)

(** The next slot of a pool; the counter is an [int]. *)
Definition next_slot (get : Procfs B → Z) (set : Z → Procfs B → Procfs B) : K (Procfs B) Z :=
  n ← kget get;
  if n <? 2 ^ 31 - 1 then kmod (set (n + 1));; mret (n `rem` PROCFS_PID_POOL) else kstuck.
Definition set_status_next (n : Z) s : Procfs B :=
  mkProcfs (psys s) (meminfo_node s) (uptime_node s) (pid_dirs s) (pid_dirs_next s) (pid_status_nodes s) n (procfs_root_node s).
Definition set_dirs_next (n : Z) s : Procfs B :=
  mkProcfs (psys s) (meminfo_node s) (uptime_node s) (pid_dirs s) n (pid_status_nodes s) (pid_status_next s) (procfs_root_node s).
Definition set_status_node (slot : Z) (x : ProcfsFileNode) s : option (Procfs B) :=
  l ← zset (pid_status_nodes s) slot x;
  Some (mkProcfs (psys s) (meminfo_node s) (uptime_node s) (pid_dirs s) (pid_dirs_next s) l (pid_status_next s) (procfs_root_node s)).
Definition set_dir_node (slot : Z) (x : ProcfsDirNode) s : option (Procfs B) :=
  l ← zset (pid_dirs s) slot x;
  Some (mkProcfs (psys s) (meminfo_node s) (uptime_node s) l (pid_dirs_next s) (pid_status_nodes s) (pid_status_next s) (procfs_root_node s)).

Definition procfs_pid_lookup (dir : Node) (name : list Z) : K (Procfs B) (option Node) :=
  pd ← dir_node dir;
  if negb (bool_decide (name = codes "status")) then mret None else
  slot ← next_slot pid_status_next set_status_next;
  kupd (set_status_node slot
    (mkPfile (mkPnode (u32 (3000 + u32 (dpid pd * 10) + 1)) VFS_FILE 0 292 (Some procfs_file_ops)) (Some gen_pid_status_fn) (dpid pd)));;
  mret (Some (PidStatus slot)).
(** The count and the entries that are written. *)
Definition procfs_pid_readdir (max : Z) : K (Procfs B) (Z * list VfsDirEntry) :=
  if max <? 1 then mret (0, []) else mret (1, [mkDirent (codes "status") 0 VFS_FILE]).

Fixpoint parse_uint_loop (s : list Z) (val : Z) : option Z :=
  match s with
  | c :: s' => if (c <? 48) || (57 <? c) then None else parse_uint_loop s' (u32 (u32 (val * 10) + (c - 48)))
  | [] => Some val
  end.
Definition procfs_parse_uint (s : list Z) : option Z :=
  match s with
  | [] => None
  | _ => parse_uint_loop s 0
  end.
Definition procfs_root_lookup (name : list Z) : K (Procfs B) (option Node) :=
  if bool_decide (name = codes "meminfo") then mret (Some MeminfoNode) else
  if bool_decide (name = codes "uptime") then mret (Some UptimeNode) else
  match procfs_parse_uint name with
  | None => mret None
  | Some n =>
      p ← kernel (proc_get_by_pid n);
      if p =? 0 then mret None else
      slot ← next_slot pid_dirs_next set_dirs_next;
      kupd (set_dir_node slot (mkPdir (mkPnode (u32 (2000 + n)) VFS_DIRECTORY 0 365 (Some procfs_pid_dir_ops)) n));;
      mret (Some (PidDir slot))
  end.
(** The callback; its context is the entries written so far, of which there is room for [max]. *)
Definition procfs_enum_pid (max : Z) (p : Z) (entries : list VfsDirEntry) : K (Kern (Heap B) Pmm) (list VfsDirEntry) :=
  if max <=? Z.of_nat (length entries) then mret entries else
  x ← proc p;
  let pidbuf := if pid x =? 0 then [48] else decimal_loop 10 (pid x) [] in
  mret (entries ++ [mkDirent pidbuf (u32 (2000 + pid x)) VFS_DIRECTORY]).
Definition procfs_root_readdir (max : Z) : K (Procfs B) (Z * list VfsDirEntry) :=
  m ← kget (λ s, p_inode_num (fvnode (meminfo_node s)));
  u ← kget (λ s, p_inode_num (fvnode (uptime_node s)));
  let entries := take (Z.to_nat max) [mkDirent (codes "meminfo") m VFS_FILE; mkDirent (codes "uptime") u VFS_FILE] in
  r ← kernel (proc_foreach (procfs_enum_pid max) entries);
  mret (i32 (Z.of_nat (length r.2)), r.2).

Definition procfs_init_file (ino : Z) (gen : procfs_gen_fn) (ctx : Z) : ProcfsFileNode :=
  mkPfile (mkPnode ino VFS_FILE 0 292 (Some procfs_file_ops)) (Some gen) ctx.
Definition procfs_init : K (Procfs B) Node :=
  kmod (λ s, mkProcfs (psys s) (procfs_init_file 2001 gen_meminfo_fn 0) (procfs_init_file 2002 gen_uptime_fn 0)
    (pid_dirs s) 0 (pid_status_nodes s) 0
    (mkPdir (mkPnode 2000 VFS_DIRECTORY 0 365 (Some procfs_root_dir_ops)) 0));;
  mret RootNode.
End procfs.
