(* ===== verification/ProcfsCorrect.v ===== *)
(** * The process file system: what its files say

    The text that a generator leaves in the buffer, that reads at any offset give its
    pieces, and that every process the root directory lists can be looked up by the name it
    is listed with, down to a status file that describes it. *)
From S2P Require Import Prelude PageAlloc Pmm Kmalloc KmallocCorrect KHeap Vmm Sched Process ProcessCorrect ProcessWait ProcessTheorems Ramfs Printf PrintfCorrect Procfs.

(** ** Text *)

Lemma decimal_loop_digits n : ∀ fuel val acc, 0 ≤ val < 10 ^ Z.of_nat n → (n ≤ fuel)%nat → (n + length acc ≤ 21)%nat →
  digit_loop fuel val 10 acc = Some (decimal_loop n val acc).
Proof.
  induction n as [|n IH]; intros fuel val acc Hv Hf Hl.
  - assert (val = 0) as -> by (cbn in Hv; lia). by destruct fuel.
  - destruct fuel as [|fuel]; [lia|]. cbn [digit_loop decimal_loop]. destruct (Z.ltb_spec 0 val); [|done].
    destruct (Z.ltb_spec (Z.of_nat (length acc)) 21); [|lia]. unfold digit_char. destruct (Z.ltb_spec (val mod 10) 10); [|lia].
    apply IH; [|lia|cbn; lia]. rewrite Nat2Z.inj_succ, Z.pow_succ_r in Hv by lia. lia.
Qed.
Lemma decimal_number n val : (n ≤ 20)%nat → 0 ≤ val < 10 ^ Z.of_nat n → (if val =? 0 then [48] else decimal_loop n val []) = number 10 val.
Proof. intros Hn Hv. unfold number. destruct (val =? 0); [done|]. by rewrite (decimal_loop_digits n) by (cbn; lia). Qed.

(** What the buffer holds after the calls: the text, cut so that there is room for a NUL. *)
Definition field_text (f : list Z + Z) : list Z := match f with inl t => t | inr n => number 10 n end.
Definition field_ok (f : list Z + Z) : Prop := match f with inl _ => True | inr n => 0 ≤ n < 2 ^ 64 end.
Definition fills (max : nat) (run : K (list Z) Z) (t t' : list Z) : Prop :=
  ∀ tl, (max ≤ length (t ++ tl))%nat →
    ∃ tl', run (t ++ tl) = Done (Z.of_nat (length (take (max - 1) (t ++ t')))) (take (max - 1) (t ++ t') ++ tl') ∧
      length (take (max - 1) (t ++ t') ++ tl') = length (t ++ tl).

Lemma append_str_ok max s : (0 < max)%nat → ∀ t, (length t ≤ max - 1)%nat →
  fills max (procfs_append_str (Z.of_nat (length t)) (Z.of_nat max) s) t s.
Proof.
  intros Hm. induction s as [|c s IH]; intros t Ht tl Htl; cbn [procfs_append_str].
  - exists tl. rewrite app_nil_r, take_ge by lia. done.
  - destruct (Z.ltb_spec (Z.of_nat (length t)) (Z.of_nat max - 1)) as [Hlt|Hge].
    + rewrite length_app in Htl. destruct tl as [|x tl]; [cbn in Htl; lia|]. cbn in Htl.
      rewrite (bind_Done _ _ _ tt ((t ++ [c]) ++ tl)).
      2: { unfold kupd. rewrite zset_lt by (rewrite length_app; cbn; lia). by rewrite Nat2Z.id, insert_app_r_alt, Nat.sub_diag, <-app_assoc by lia. }
      replace (Z.of_nat (length t) + 1) with (Z.of_nat (length (t ++ [c]))) by (rewrite length_app; cbn; lia).
      destruct (IH (t ++ [c])) with (tl := tl) as (tl' & E & El); [rewrite length_app; cbn; lia|rewrite !length_app; cbn; lia|].
      rewrite <-!app_assoc in E, El. cbn [app] in E, El. rewrite <-app_assoc. cbn [app]. exists tl'. rewrite E, El. split; [done|]. by rewrite !length_app.
    + exists tl. replace (max - 1)%nat with (length t) by lia. rewrite take_app_length. done.
Qed.
Lemma append_fields_ok max l : (0 < max)%nat → Forall field_ok l → ∀ t, (length t ≤ max - 1)%nat →
  fills max (append_fields (Z.of_nat (length t)) (Z.of_nat max) l) t (concat (field_text <$> l)).
Proof.
  intros Hm. induction l as [|f l IH]; intros Hl t Ht tl Htl; cbn [append_fields concat fmap list_fmap].
  { exists tl. rewrite app_nil_r, take_ge by lia. done. }
  apply Forall_cons in Hl as [Hf Hl]. set (t1 := take (max - 1) (t ++ field_text f)).
  assert (∃ tl1, (match f with inl u => procfs_append_str (Z.of_nat (length t)) (Z.of_nat max) u | inr n => procfs_append_u64 (Z.of_nat (length t)) (Z.of_nat max) n end) (t ++ tl)
    = Done (Z.of_nat (length t1)) (t1 ++ tl1) ∧ length (t1 ++ tl1) = length (t ++ tl)) as (tl1 & E & El).
  { destruct f as [u|n]; [by apply append_str_ok|]. unfold procfs_append_u64. rewrite decimal_number; [|done|cbn in Hf; lia]. by apply append_str_ok. }
  destruct (IH Hl t1) with (tl := tl1) as (tl2 & E2 & El2); [unfold t1; rewrite length_take; lia|lia|].
  assert (take (max - 1) (t1 ++ concat (field_text <$> l)) = take (max - 1) (t ++ field_text f ++ concat (field_text <$> l))) as Et.
  { unfold t1. rewrite (app_assoc t). destruct (decide (length (t ++ field_text f) ≤ max - 1)%nat); [by rewrite (take_ge (t ++ _)) by lia|].
    rewrite (take_app_le (t ++ field_text f)) by lia. rewrite take_app_le by (rewrite length_take; lia). by rewrite take_take, Nat.min_id. }
  rewrite Et in E2, El2. exists tl2. split; [|lia]. destruct f; kbind E; exact E2.
Qed.

(** ** Reading *)

Section read.
Context {B : Type} `{HeapBacking B}.
Implicit Types (s : Procfs B) (x : Process).

Lemma with_kern_id s : with_kern (kern s) s = s.
Proof. by destruct s as [[]]. Qed.
Lemma kernel_Done {A} (m : K (Kern (Heap B) Pmm) A) s a : m (kern s) = Done a (kern s) → kernel m s = Done a s.
Proof. intros E. unfold kernel, zoom. by rewrite E, with_kern_id. Qed.
Lemma heap_Done {A} (m : K (Heap B) A) s a : m (kheap (ksched (kern s))) = Done a (kheap (ksched (kern s))) → heap m s = Done a s.
Proof. intros E. apply kernel_Done. unfold zoom. rewrite E. by destruct s as [[[[]]]]. Qed.

(** Reading the file gives the pieces of [t], and changes nothing. *)
Definition reads s (node : Node) (t : list Z) : Prop :=
  ∀ scratch offset size, length scratch = 512%nat → 0 ≤ offset < 2 ^ 32 → 0 ≤ size < 2 ^ 32 →
    let piece := take (Z.to_nat size) (drop (Z.to_nat offset) t) in
    procfs_file_read scratch node offset size s = Done (Z.of_nat (length piece), piece) s.

(** A generator whose calls write the fields [l]. *)
Lemma generated_reads s node pn g l : file_node node s = Done pn s → generate pn = Some g → Forall field_ok l →
  call_generate g 512 (gen_ctx pn) s = Done (append_fields 0 512 l) s → (length (concat (field_text <$> l)) < 512)%nat →
  reads s node (concat (field_text <$> l)).
Proof.
  intros Ef Eg Hl Ec Hlen scratch offset size Hs Ho Hz. unfold procfs_file_read, PROCFS_SCRATCH_SIZE. kbind Ef. rewrite Eg. kbind Ec.
  destruct (append_fields_ok 512 l ltac:(lia) Hl [] ltac:(cbn; lia) scratch ltac:(cbn; lia)) as (tl & E & El). cbn [app] in E, El.
  rewrite take_ge in E, El by lia. set (t := concat (field_text <$> l)) in *. change (Z.of_nat (length [])) with 0 in E.
  change (Z.of_nat 512) with 512 in E. rewrite E. cbv zeta. rewrite (u32_small (Z.of_nat (length t))) by lia.
  destruct (Z.leb_spec (Z.of_nat (length t)) 0).
  { destruct t; [|cbn in *; lia]. by rewrite drop_nil, take_nil. }
  destruct (Z.leb_spec (Z.of_nat (length t)) offset).
  { rewrite (drop_ge t) by lia. by rewrite take_nil. }
  rewrite u32_small by lia. rewrite drop_app_le by lia.
  destruct (Z.ltb_spec size (Z.of_nat (length t) - offset)).
  - rewrite take_app_le by (rewrite length_drop; lia). rewrite length_take, length_drop, i32_small by lia. do 2 f_equal. lia.
  - rewrite (take_ge (drop _ t) (Z.to_nat size)) by (rewrite length_drop; lia). rewrite length_drop, i32_small by lia.
    replace (Z.to_nat (Z.of_nat (length t) - offset)) with (length (drop (Z.to_nat offset) t)) by (rewrite length_drop; lia). rewrite take_app_length. do 2 f_equal. lia.
Qed.

Lemma number_length n : 0 ≤ n < 2 ^ 64 → (length (number 10 n) ≤ 20)%nat.
Proof. intros Hn. by destruct (number_ok 10 n (or_introl eq_refl) Hn) as (_ & _ & ?). Qed.

(** The lines of a status file. *)
Definition status_text x (ppid : Z) : list Z :=
  codes "Pid: " ++ number 10 (pid x) ++ [10] ++ codes "State: " ++ state_str (pstate x) ++ [10] ++
  codes "PPid: " ++ number 10 ppid ++ [10] ++ codes "Pgid: " ++ number 10 (pgid x) ++ [10] ++
  codes "Uid: " ++ number 10 (uid x) ++ [10] ++ codes "Gid: " ++ number 10 (gid x) ++ [10].
(** The fields that are printed fit their types. *)
Definition status_ok x : Prop := 0 ≤ pid x < 2 ^ 32 ∧ 0 ≤ pgid x < 2 ^ 32 ∧ 0 ≤ uid x < 2 ^ 32 ∧ 0 ≤ gid x < 2 ^ 32.
Definition ppid_of s x : Z := if parent x =? 0 then 0 else default 0 (pid <$> procs (kern s) !! parent x).

Lemma state_str_length st : (length (state_str st) ≤ 10)%nat.
Proof. unfold state_str. repeat case_match; cbn; lia. Qed.

Lemma status_reads s slot pn p x : zget (pid_status_nodes s) slot = Some pn → generate pn = Some gen_pid_status_fn → 0 ≤ gen_ctx pn < 2 ^ 32 →
  proc_get_by_pid (gen_ctx pn) (kern s) = Done p (kern s) → p ≠ 0 → procs (kern s) !! p = Some x → status_ok x →
  (parent x ≠ 0 → is_Some (procs (kern s) !! parent x)) → 0 ≤ ppid_of s x < 2 ^ 32 → reads s (PidStatus slot) (status_text x (ppid_of s x)).
Proof.
  intros En Eg Hc Ep Hp Ex (H1 & H2 & H3 & H4) Hpar Hpp.
  assert (status_text x (ppid_of s x) = concat (field_text <$> [
    inl (codes "Pid: "); inr (pid x); inl ([10] ++ codes "State: "); inl (state_str (pstate x));
    inl ([10] ++ codes "PPid: "); inr (ppid_of s x); inl ([10] ++ codes "Pgid: "); inr (pgid x);
    inl ([10] ++ codes "Uid: "); inr (uid x); inl ([10] ++ codes "Gid: "); inr (gid x); inl [10]])) as Et.
  { unfold status_text. cbn [fmap list_fmap concat field_text]. by rewrite app_nil_r, <-!app_assoc. }
  rewrite Et. eapply generated_reads; [by cbn; unfold kopt; rewrite En|done| | |].
  - repeat constructor; cbn; lia.
  - cbn [call_generate]. unfold gen_pid_status. rewrite u32_small by lia. kbind (kernel_Done _ _ _ Ep). rewrite (proj2 (Z.eqb_neq p 0)) by done.
    assert (kernel (proc p) s = Done x s) as E1 by (apply kernel_Done; unfold proc, kopt; by rewrite Ex). kbind E1.
    unfold ppid_of. destruct (Z.eqb_spec (parent x) 0) as [|Hn]; cbn [negb]; [done|]. destruct (Hpar Hn) as [y Ey].
    assert (kernel (proc (parent x)) s = Done y s) as E2 by (apply kernel_Done; unfold proc, kopt; by rewrite Ey).
    rewrite bind_assoc. kbind E2. by rewrite Ey.
  - rewrite <-Et. unfold status_text. rewrite !length_app. pose proof (state_str_length (pstate x)).
    pose proof (number_length (pid x) ltac:(lia)). pose proof (number_length (ppid_of s x) ltac:(lia)). pose proof (number_length (pgid x) ltac:(lia)).
    pose proof (number_length (uid x) ltac:(lia)). pose proof (number_length (gid x) ltac:(lia)). cbn. lia.
Qed.
End read.

(** ** Directories *)

Lemma parse_uint_digits l : Forall (is_digit 10) l → ∀ val,
  parse_uint_loop l (u32 val) = Some (u32 (foldl (λ acc c, acc * 10 + digit_value c) val l)).
Proof.
  induction l as [|c l IH]; intros Hl val; [done|]. apply Forall_cons in Hl as [[Hc Hd] Hl]. cbn [parse_uint_loop foldl]. unfold digit_value in *.
  destruct (Z.ltb_spec c 97); [|lia]. destruct (Z.ltb_spec c 48); [lia|]. destruct (Z.ltb_spec 57 c); [lia|]. cbn [orb].
  rewrite <-IH by done. f_equal. unfold u32. rewrite Z.add_mod_idemp_l, <-Z.add_mod_idemp_l, Z.mul_mod_idemp_l, Z.add_mod_idemp_l by done. done.
Qed.
(** The name of a process in the root directory is its number, and no other name. *)
Lemma parse_uint_number n : 0 ≤ n < 2 ^ 32 → procfs_parse_uint (number 10 n) = Some n.
Proof.
  intros Hn. destruct (number_ok 10 n (or_introl eq_refl) ltac:(lia)) as (_ & (Hv & Hd & Hne & _) & _). unfold procfs_parse_uint.
  destruct (number 10 n) as [|c l] eqn:E; [done|]. rewrite <-E in *. change 0 with (u32 0). rewrite parse_uint_digits by done.
  unfold value in Hv. rewrite Hv. f_equal. by apply u32_small.
Qed.
Lemma number_not_word n w : 0 ≤ n < 2 ^ 32 → head w = Some 109 ∨ head w = Some 117 → number 10 n ≠ w.
Proof.
  intros Hn Hw E. destruct (number_ok 10 n (or_introl eq_refl) ltac:(lia)) as (_ & (_ & Hd & Hne & _) & _). rewrite E in *.
  destruct w as [|c w]; [done|]. apply Forall_cons in Hd as [[Hc Hd] _]. cbn in Hw. unfold digit_value in Hd. destruct Hw as [[= ->]|[= ->]]; cbn in Hd; lia.
Qed.

Section walk.
Context {B : Type} `{HeapBacking B}.
Implicit Types (s : Procfs B) (x : Process).

(** The static nodes as they are after [procfs_init] and any number of look-ups: full pools, and counters that have not reached [INT_MAX]. *)
Record procfs_ok s : Prop := {
  po_meminfo : meminfo_node s = procfs_init_file 2001 gen_meminfo_fn 0;
  po_uptime : uptime_node s = procfs_init_file 2002 gen_uptime_fn 0;
  po_dirs : length (pid_dirs s) = 8%nat;
  po_files : length (pid_status_nodes s) = 8%nat;
  po_dirs_next : 0 ≤ pid_dirs_next s < 2 ^ 31 - 1;
  po_files_next : 0 ≤ pid_status_next s < 2 ^ 31 - 1;
}.

Lemma next_slot_ok s get set : 0 ≤ get s < 2 ^ 31 - 1 → next_slot get set s = Done (get s mod 8) (set (get s + 1) s).
Proof.
  intros Hn. unfold next_slot. rewrite kget_bind. destruct (Z.ltb_spec (get s) (2 ^ 31 - 1)); [|lia]. rewrite kmod_bind. unfold PROCFS_PID_POOL.
  by rewrite Z.rem_mod_nonneg by lia.
Qed.

Lemma root_lookup_ok s p n : procfs_ok s → 0 ≤ n < 2 ^ 32 → proc_get_by_pid n (kern s) = Done p (kern s) → p ≠ 0 →
  ∃ slot s1, procfs_root_lookup (number 10 n) s = Done (Some (PidDir slot)) s1 ∧ psys s1 = psys s ∧
    pid_status_nodes s1 = pid_status_nodes s ∧ pid_status_next s1 = pid_status_next s ∧ (dpid <$> zget (pid_dirs s1) slot = Some n).
Proof.
  intros Hs Hn Ep Hp. unfold procfs_root_lookup. rewrite !bool_decide_eq_false_2 by (apply number_not_word; [done|by (left + right)]).
  rewrite parse_uint_number by done. kbind (kernel_Done _ _ _ Ep). rewrite (proj2 (Z.eqb_neq p 0)) by done.
  set (slot := pid_dirs_next s mod 8). assert (0 ≤ slot < 8) as Hslot by (unfold slot; lia).
  kbind (next_slot_ok s pid_dirs_next set_dirs_next (po_dirs_next _ Hs)). fold slot.
  exists slot. eexists. split; [erewrite bind_Done; [reflexivity|]; unfold kupd, set_dir_node; cbn [pid_dirs set_dirs_next];
    rewrite zset_lt by (rewrite (po_dirs _ Hs); lia); reflexivity|]. cbn. split_and!; [done..|].
  unfold zget. rewrite (proj2 (Z.ltb_ge slot 0)) by lia. rewrite list_lookup_insert_eq by (rewrite (po_dirs _ Hs); lia). done.
Qed.
Lemma pid_lookup_ok s slot d : length (pid_status_nodes s) = 8%nat → 0 ≤ pid_status_next s < 2 ^ 31 - 1 → zget (pid_dirs s) slot = Some d →
  ∃ file pn s1, procfs_pid_lookup (PidDir slot) (codes "status") s = Done (Some (PidStatus file)) s1 ∧ psys s1 = psys s ∧
    zget (pid_status_nodes s1) file = Some pn ∧ generate pn = Some gen_pid_status_fn ∧ gen_ctx pn = dpid d.
Proof.
  intros Hl Hn Ed. unfold procfs_pid_lookup. cbn [dir_node]. rewrite (kopt_bind (λ s, zget (pid_dirs s) slot) _ s d Ed).
  rewrite bool_decide_eq_true_2 by done. cbn [negb]. set (file := pid_status_next s mod 8). assert (0 ≤ file < 8) as Hfile by (unfold file; lia).
  kbind (next_slot_ok s pid_status_next set_status_next Hn). fold file. exists file. do 2 eexists.
  split; [erewrite bind_Done; [reflexivity|]; unfold kupd, set_status_node; cbn [pid_status_nodes set_status_next];
    rewrite zset_lt by lia; reflexivity|]. cbn. split; [done|].
  unfold zget. rewrite (proj2 (Z.ltb_ge file 0)) by lia. rewrite list_lookup_insert_eq by lia. done.
Qed.

(** The entries of the processes of [l] that have not terminated. *)
Definition listed (m : gmap Z Process) (l : list Z) : list VfsDirEntry :=
  omap (λ p, x ← m !! p; if pstate x =? PROC_TERMINATED then None else Some (mkDirent (number 10 (pid x)) (u32 (2000 + pid x)) VFS_DIRECTORY)) l.
Lemma foreach_enum (k : Kern (Heap B) Pmm) (max : nat) l : (∀ p x, p ∈ l → procs k !! p = Some x → 0 ≤ pid x < 2 ^ 32) →
  ∀ a fuel es count, proc_chain (procs k) a l → (length l ≤ fuel)%nat → (length es ≤ max)%nat →
  ∃ n, foreach_loop fuel (procfs_enum_pid (Z.of_nat max)) a es count k = Done (n, take max (es ++ listed (procs k) l)) k.
Proof.
  induction l as [|b l IH]; intros Hpid a fuel es count Hc Hf He.
  { cbn in Hc. subst a. exists count. cbn. rewrite app_nil_r, take_ge by lia. by destruct fuel. }
  destruct Hc as (-> & Hb & x & Ex & Hc). destruct fuel as [|fuel]; [cbn in Hf; lia|]. cbn [foreach_loop length] in *.
  assert (∀ p y, p ∈ l → procs k !! p = Some y → 0 ≤ pid y < 2 ^ 32) as Hpid' by (intros p y Hp; apply Hpid; by right).
  rewrite (proj2 (Z.eqb_neq b 0)) by done. assert (proc b k = Done x k) as Ep by (unfold proc, kopt; by rewrite Ex). kbind Ep.
  unfold listed. cbn [omap list_omap]. rewrite Ex. cbn [mbind option_bind]. destruct (pstate x =? PROC_TERMINATED); cbn [negb]; [by apply IH; [..|lia|]|].
  set (e := mkDirent _ _ _). assert (procfs_enum_pid (Z.of_nat max) b es k = Done (take max (es ++ [e])) k) as Ee.
  { unfold procfs_enum_pid. destruct (Z.leb_spec (Z.of_nat max) (Z.of_nat (length es))).
    - replace max with (length es) by lia. by rewrite take_app_length.
    - kbind Ep. rewrite decimal_number; [|lia|]; [|split; [|transitivity (2 ^ 32); [|done]]; apply (Hpid b x); [by left|done|by left|done]].
      rewrite take_ge by (rewrite length_app; cbn; lia). done. }
  kbind Ee. kbind Ep. destruct (IH Hpid' (pnext x) fuel (take max (es ++ [e])) (i32 (count + 1)) Hc ltac:(lia)) as (n & E); [rewrite length_take; lia|].
  exists n. rewrite E. do 2 f_equal. change (omap _ l) with (listed (procs k) l).
  replace (es ++ e :: listed (procs k) l) with ((es ++ [e]) ++ listed (procs k) l) by (by rewrite <-app_assoc).
  destruct (decide (length (es ++ [e]) ≤ max)%nat); [by rewrite (take_ge (es ++ [e])) by lia|].
  rewrite (take_app_le (es ++ [e])) by lia. rewrite take_app_le by (rewrite length_take; lia). by rewrite take_take, Nat.min_id.
Qed.
Lemma root_readdir_ok s l max : procfs_ok s → plist (kern s) l → (∀ p x, p ∈ l → procs (kern s) !! p = Some x → 0 ≤ pid x < 2 ^ 32) → 0 ≤ max < 2 ^ 31 →
  let es := take (Z.to_nat max) ([mkDirent (codes "meminfo") 2001 VFS_FILE; mkDirent (codes "uptime") 2002 VFS_FILE] ++ listed (procs (kern s)) l) in
  procfs_root_readdir max s = Done (Z.of_nat (length es), es) s.
Proof.
  intros Hs [Hc Hn] Hpid Hmax es. unfold procfs_root_readdir. rewrite !kget_bind, (po_meminfo _ Hs), (po_uptime _ Hs).
  set (es0 := take (Z.to_nat max) [_; _]).
  destruct (foreach_enum (kern s) (Z.to_nat max) l Hpid (proc_list (kern s)) (size (procs (kern s))) es0 0 Hc) as (n & E);
    [by eapply proc_chain_length|unfold es0; rewrite length_take; lia|].
  assert (kernel (proc_foreach (procfs_enum_pid max) es0) s = Done (n, es) s) as Ek.
  { apply kernel_Done. unfold proc_foreach. rewrite !kget_bind. rewrite Z2Nat.id in E by lia. rewrite E. do 2 f_equal. unfold es, es0.
    set (two := [_; _]). destruct (decide (length two ≤ Z.to_nat max)%nat); [by rewrite (take_ge two) by lia|].
    rewrite (take_app_le two) by lia. rewrite take_app_le by (rewrite length_take; lia). by rewrite take_take, Nat.min_id. }
  kbind Ek. cbn [snd]. unfold mret, K_ret. rewrite i32_small; [done|]. unfold es. rewrite length_take. lia.
Qed.

(** The live process with this number. *)
Lemma get_by_pid_ok (k : Kern (Heap B) Pmm) l p x : plist k l → p ∈ l → procs k !! p = Some x → pstate x ≠ PROC_TERMINATED →
  (∀ q y, q ∈ l → procs k !! q = Some y → pstate y ≠ PROC_TERMINATED → pid y = pid x → q = p) → proc_get_by_pid (pid x) k = Done p k.
Proof.
  intros Hl Hp Ex Hst Hu. unfold proc_get_by_pid. rewrite (find_proc_ok k l) by done. f_equal. eapply first_of_unique; [apply Hl|done|done| |].
  - by rewrite Z.eqb_refl, (proj2 (Z.eqb_neq _ _) Hst).
  - intros q y Hq Ey [E1%Z.eqb_eq E2]%andb_true_iff. apply (Hu q y); [done|done| |done]. intros E3. by rewrite E3 in E2.
Qed.
Lemma procfs_walk_lemma s l p x : procfs_ok s → plist (kern s) l → p ∈ l → procs (kern s) !! p = Some x → pstate x ≠ PROC_TERMINATED → status_ok x →
  (∀ q y, q ∈ l → procs (kern s) !! q = Some y → pstate y ≠ PROC_TERMINATED → pid y = pid x → q = p) →
  (parent x ≠ 0 → is_Some (procs (kern s) !! parent x)) → 0 ≤ ppid_of s x < 2 ^ 32 →
  ∃ d f s1 s2, procfs_root_lookup (number 10 (pid x)) s = Done (Some d) s1 ∧ procfs_pid_lookup d (codes "status") s1 = Done (Some f) s2 ∧
    psys s2 = psys s ∧ reads s2 f (status_text x (ppid_of s x)).
Proof.
  intros Hs Hl Hp Ex Hst Hok Hu Hpar Hpp. pose proof (get_by_pid_ok _ _ _ _ Hl Hp Ex Hst Hu) as Eg. pose proof Hok as (Hpid & _).
  assert (p ≠ 0) as Hp0.
  { destruct Hl as [Hc _]. clear -Hc Hp. revert Hc. generalize (proc_list (kern s)). induction Hp as [|? ? ? ? IH]; intros ? (-> & ? & ? & ? & ?); [done|by eapply IH]. }
  destruct (root_lookup_ok s p (pid x) Hs Hpid Eg Hp0) as (slot & s1 & E1 & Hsys & Hfiles & Hnext & Ed).
  apply fmap_Some in Ed as (d & Ed & Edp). destruct (pid_lookup_ok s1 slot d) as (file & pn & s2 & E2 & Hsys2 & En & Eg2 & Ec); [by rewrite Hfiles, (po_files _ Hs)|rewrite Hnext; apply Hs|done|].
  exists (PidDir slot), (PidStatus file), s1, s2. assert (psys s2 = psys s) as Hsys' by congruence. split_and!; [done..|].
  assert (ppid_of s x = ppid_of s2 x) as Epp by (unfold ppid_of, kern; by rewrite Hsys'). assert (kern s2 = kern s) as Ekern by (unfold kern; by rewrite Hsys').
  rewrite Epp in *. eapply (status_reads s2 file pn p x); rewrite ?Ekern, ?Ec, <-?Edp; done || lia.
Qed.
End walk.

(** ** The two files of the root *)

(** Three digits. *)
Definition thousandths (n : Z) : list Z := [48 + n / 100; 48 + n / 10 mod 10; 48 + n mod 10].
Lemma thousandths_ok n : 0 ≤ n < 1000 →
  concat (field_text <$> ((if n <? 100 then [inl (codes "0")] ++ (if n <? 10 then [inl (codes "0")] else []) else []) ++ [inr n])) = thousandths n.
Proof.
  intros Hn. assert (Forall (λ n, concat (field_text <$> ((if n <? 100 then [inl (codes "0")] ++ (if n <? 10 then [inl (codes "0")] else []) else []) ++ [inr n])) = thousandths n) (seqZ 0 1000)) as Hall.
  { apply (bool_decide_unpack _). by vm_compute. }
  rewrite Forall_forall in Hall. apply Hall, elem_of_seqZ. lia.
Qed.

Section files.
Context {B : Type} `{HeapBacking B}.
Implicit Types (s : Procfs B).

(** The uptime in seconds, with three digits behind the point. *)
Lemma uptime_reads s : procfs_ok s → 0 ≤ pit_freq (psys s) →
  let ms := pit_get_uptime_ms s in reads s UptimeNode (number 10 (ms / 1000) ++ codes "." ++ thousandths (ms mod 1000) ++ [10]).
Proof.
  intros Hs Hf ms. assert (0 ≤ ms < 2 ^ 64) as Hms.
  { unfold ms, pit_get_uptime_ms. pose proof (u64_range (pit_get_ticks s * 1000)). destruct (Z.eqb_spec (pit_freq (psys s)) 0); [lia|].
    split; [apply Z.div_pos; lia|]. apply Z.div_lt_upper_bound; nia. }
  set (l := [inr (ms / 1000); inl (codes ".")] ++ ((if ms mod 1000 <? 100 then [inl (codes "0")] ++ (if ms mod 1000 <? 10 then [inl (codes "0")] else []) else []) ++ [inr (ms mod 1000)]) ++ [inl [10]] : list (list Z + Z)).
  assert (concat (field_text <$> l) = number 10 (ms / 1000) ++ codes "." ++ thousandths (ms mod 1000) ++ [10]) as Et.
  { unfold l. rewrite <-(thousandths_ok (ms mod 1000)) by lia. set (mid := (_ ++ [inr (ms mod 1000)] : list (list Z + Z))).
    rewrite !fmap_app, !concat_app. cbn [fmap list_fmap concat field_text]. by rewrite !app_nil_r, <-app_assoc. }
  rewrite <-Et. eapply generated_reads; [by cbn; unfold kget; rewrite (po_uptime _ Hs)|done| | |].
  - unfold l. repeat apply Forall_app_2; repeat constructor; cbn; try lia. repeat case_match; repeat constructor.
  - cbn [call_generate]. unfold gen_uptime. rewrite kget_bind. fold ms. unfold l. by rewrite <-!app_assoc.
  - rewrite Et, !length_app. pose proof (number_length (ms / 1000) ltac:(lia)). cbn. lia.
Qed.

(** The pages of the page allocator in kilobytes, and the bytes of the heap's blocks. *)
Definition meminfo_text (total free used unused mapped : Z) : list Z :=
  codes "MemTotal: " ++ number 10 total ++ codes " kB" ++ [10] ++ codes "MemFree: " ++ number 10 free ++ codes " kB" ++ [10] ++
  codes "HeapUsed: " ++ number 10 used ++ codes " B" ++ [10] ++ codes "HeapFree: " ++ number 10 unused ++ codes " B" ++ [10] ++
  codes "HeapMapped: " ++ number 10 mapped ++ codes " B" ++ [10].
Lemma meminfo_reads s bs : procfs_ok s → let p := vpmm (kvmm (kern s)) in let h := kheap (ksched (kern s)) in
  0 ≤ total_pages p < 2 ^ 52 → 0 ≤ free_pages p < 2 ^ 52 → heap_repr h bs →
  reads s MeminfoNode (meminfo_text (4 * total_pages p) (4 * free_pages p) (sum_size (used bs)) (sum_size (frees bs)) (heap_current_end h - HEAP_START)).
Proof.
  intros Hs p h Ht Hf Hr. pose proof (heap_repr_wf _ _ Hr) as (Hok & Hg & _). pose proof (heap_repr_end_ok _ _ Hr) as [He _].
  pose proof (sum_size_bound _ _ _ Hok Hg) as Hb. unfold HEAP_MAX, HEAP_START, HEAP_SIZE_MAX in *.
  set (l := [inl (codes "MemTotal: "); inr (4 * total_pages p); inl (codes " kB" ++ [10] ++ codes "MemFree: "); inr (4 * free_pages p);
    inl (codes " kB" ++ [10] ++ codes "HeapUsed: "); inr (sum_size (used bs)); inl (codes " B" ++ [10] ++ codes "HeapFree: "); inr (sum_size (frees bs));
    inl (codes " B" ++ [10] ++ codes "HeapMapped: "); inr (heap_current_end h - HEAP_START); inl (codes " B" ++ [10])] : list (list Z + Z)).
  assert (concat (field_text <$> l) = meminfo_text (4 * total_pages p) (4 * free_pages p) (sum_size (used bs)) (sum_size (frees bs)) (heap_current_end h - HEAP_START)) as Et.
  { unfold l, meminfo_text. cbn [fmap list_fmap concat field_text]. by rewrite app_nil_r, <-!app_assoc. }
  unfold HEAP_START in *. rewrite <-Et. eapply generated_reads; [by cbn; unfold kget; rewrite (po_meminfo _ Hs)|done| | |].
  - unfold l. repeat constructor; cbn; unfold HEAP_START in *; lia.
  - cbn [call_generate]. unfold gen_meminfo. rewrite !kget_bind. fold p. unfold pmm_get_total_pages, pmm_get_free_pages, PAGE_SIZE.
    kbind (heap_Done _ s _ (kmalloc_get_stats_lemma _ _ Hr)). cbn [total_used total_free heap_mapped stats_of]. fold h. unfold l.
    rewrite !u64_small by lia. replace (total_pages p * 4096 / 1024) with (4 * total_pages p) by lia. by replace (free_pages p * 4096 / 1024) with (4 * free_pages p) by lia.
  - rewrite Et. unfold meminfo_text. rewrite !length_app. pose proof (number_length (4 * total_pages p) ltac:(lia)). pose proof (number_length (4 * free_pages p) ltac:(lia)).
    pose proof (number_length (sum_size (used bs)) ltac:(lia)). pose proof (number_length (sum_size (frees bs)) ltac:(lia)).
    pose proof (number_length (heap_current_end h - 0xFFFFFFFFC0000000) ltac:(lia)). cbn [length codes]. cbn. lia.
Qed.
End files.

(** ** The tree *)

(** The processes of [l] are the list of the kernel, their numbers fit their types and differ, and their parents exist. *)
Record described {B} (s : Procfs B) (l : list Z) : Prop := {
  de_list : plist (kern s) l;
  de_ok p x : p ∈ l → procs (kern s) !! p = Some x → status_ok x;
  de_unique p x q y : p ∈ l → q ∈ l → procs (kern s) !! p = Some x → procs (kern s) !! q = Some y →
    pstate x ≠ PROC_TERMINATED → pstate y ≠ PROC_TERMINATED → pid y = pid x → q = p;
  de_parent p x : p ∈ l → procs (kern s) !! p = Some x → parent x ≠ 0 → is_Some (procs (kern s) !! parent x);
  de_ppid p x : p ∈ l → procs (kern s) !! p = Some x → 0 ≤ ppid_of s x < 2 ^ 32;
}.

(** C35. The tree below /proc.  The root directory lists the two files and then every process that
    has not terminated, in the order of the kernel's list, as far as the caller has room;
    and each process, looked up by its decimal number and then by the name status, gives a
    file whose reads, at any offset and of any size, are the pieces of the text that has its
    number, its state, its parent's number, its group and its user and group identities.
    Nothing of this changes the system. *)
Theorem procfs_tree_correct {B} `{HeapBacking B} (s : Procfs B) l max : procfs_ok s → described s l → 0 ≤ max < 2 ^ 31 →
  (let es := take (Z.to_nat max) ([mkDirent (codes "meminfo") 2001 VFS_FILE; mkDirent (codes "uptime") 2002 VFS_FILE] ++ listed (procs (kern s)) l) in
   procfs_root_readdir max s = Done (Z.of_nat (length es), es) s) ∧
  ∀ p x, p ∈ l → procs (kern s) !! p = Some x → pstate x ≠ PROC_TERMINATED →
    ∃ d f s1 s2, procfs_root_lookup (number 10 (pid x)) s = Done (Some d) s1 ∧ procfs_pid_lookup d (codes "status") s1 = Done (Some f) s2 ∧
      psys s2 = psys s ∧ reads s2 f (status_text x (ppid_of s x)).
Proof.
  intros Hs Hd Hmax. split.
  - apply root_readdir_ok; [done|apply Hd| |done]. intros p x Hp Ex. apply (de_ok _ _ Hd p x Hp Ex).
  - intros p x Hp Ex Hst. apply (procfs_walk_lemma s l p x); [done|apply Hd|done|done|done|by eapply de_ok| |by eapply de_parent|by eapply de_ppid].
    intros q y Hq Ey Hy He. by eapply (de_unique s l Hd p x q y).
Qed.

(** The system of two processes, 5 and its child 6, after [procfs_init]. *)
Definition zero_node : ProcVnode := mkPnode 0 0 0 0 None.
Definition procfs_boot : Procfs Z :=
  mkProcfs (mkSys parent_runs 100) (mkPfile zero_node None 0) (mkPfile zero_node None 0)
    (replicate 8 (mkPdir zero_node 0)) 0 (replicate 8 (mkPfile zero_node None 0)) 0 (mkPdir zero_node 0).
Definition procfs_example : Procfs Z := match procfs_init procfs_boot with Done _ s => s | _ => procfs_boot end.
Lemma procfs_example_ok : procfs_ok procfs_example.
Proof. by split. Qed.
Lemma procfs_example_described : described procfs_example [2000; 1000].
Proof.
  assert (∀ p x, p ∈ [2000; 1000] → procs (kern procfs_example) !! p = Some x →
    p = 2000 ∧ x = proc_example 6 PROC_ZOMBIE 200 1000 1000 0 (replicate 32 0) ∨ p = 1000 ∧ x = proc_example 5 PROC_ALIVE 100 0 0 6 handlers_example) as Hc.
  { intros p x Hp. rewrite !elem_of_cons in Hp. destruct Hp as [->|[->|Hp]]; [..|by apply not_elem_of_nil in Hp].
    - intros E. left. split; [done|]. by injection E.
    - intros E. right. split; [done|]. by injection E. }
  split; [apply example_plist|..].
  - intros p x Hp Ex. destruct (Hc p x Hp Ex) as [[-> ->]|[-> ->]]; by vm_compute.
  - intros p x q y Hp Hq Ex Ey _ _. destruct (Hc p x Hp Ex) as [[-> ->]|[-> ->]], (Hc q y Hq Ey) as [[-> ->]|[-> ->]]; done.
  - intros p x Hp Ex. destruct (Hc p x Hp Ex) as [[-> ->]|[-> ->]]; [by eexists|done].
  - intros p x Hp Ex. destruct (Hc p x Hp Ex) as [[-> ->]|[-> ->]]; by vm_compute.
Qed.
Lemma procfs_tree_correct_witness : ∃ d f s1 s2, procfs_root_lookup (number 10 6) procfs_example = Done (Some d) s1 ∧
  procfs_pid_lookup d (codes "status") s1 = Done (Some f) s2 ∧ psys s2 = psys procfs_example ∧
  reads s2 f (status_text (proc_example 6 PROC_ZOMBIE 200 1000 1000 0 (replicate 32 0)) 5).
Proof.
  destruct (procfs_tree_correct procfs_example [2000; 1000] 10 procfs_example_ok procfs_example_described) as [_ Hw]; [lia|].
  apply (Hw 2000 (proc_example 6 PROC_ZOMBIE 200 1000 1000 0 (replicate 32 0))); [by left|reflexivity|discriminate].
Defined.

(** The process that the directory found for [n] stands for after [k] other look-ups of [m]. *)
Definition directory_after (n m : Z) (k : nat) : option Z :=
  match procfs_root_lookup (number 10 n) procfs_example with
  | Done (Some (PidDir slot)) s1 =>
      match kfor (replicate k tt) (λ _, procfs_root_lookup (number 10 m);; mret tt) s1 with
      | Done _ s2 => dpid <$> zget (pid_dirs s2) slot
      | _ => None
      end
  | _ => None
  end.
(** There are eight directory nodes: the ninth look-up makes an earlier one, that may be in use, the directory of another process. *)
Lemma procfs_nodes_shared : directory_after 5 6 7 = Some 5 ∧ directory_after 5 6 8 = Some 6.
Proof. by vm_compute. Qed.
(** The number in a name is taken modulo 2^32: 4294967301 is process 5. *)
Lemma procfs_name_wraps : procfs_parse_uint (number 10 4294967301) = Some 5.
Proof. by vm_compute. Qed.
