(* ===== verification/Exec.v ===== *)
(** * Arguments of a new program

    The parts of [sys_exec] in [kernel/arch/x86_64/syscall.c] that carry the argument
    vector over: [exec_copy_argv] copies it from the old address space into the kernel,
    [exec_setup_user_stack] writes it on the stack of the new one.  The state is the
    memory of the user address space that is active, byte by byte; an access to an
    unmapped byte is a page fault in the kernel, which stops the machine. *)
From S2P Require Import Prelude Vmm Process.

Definition MAX_EXEC_ARGS : Z := 32.
Definition MAX_EXEC_ARG_DATA : Z := 4096.
Definition E2BIG : Z := 7.
Definition EINVAL : Z := 22.

(** [data] has the [data_used] bytes that are set, [ptrs] the offsets in it of the [argc] arguments. *)
Record ExecArgv : Type := mkArgs { ptrs : list Z; data : list Z }.
Definition argc (a : ExecArgv) : Z := Z.of_nat (length (ptrs a)).
Definition data_used (a : ExecArgv) : Z := Z.of_nat (length (data a)).

Abbreviation UserMem := (gmap Z Z).

Definition user_bytes (a n : Z) : K UserMem (list Z) := λ m,
  match read_bytes a n m with Some l => Done l m | None => Panic m end.
Definition user_word (a : Z) : K UserMem Z := l ← user_bytes a 8; mret (le_val l).
Definition user_put (a : Z) (l : list Z) : K UserMem unit := λ m,
  match write_bytes a l m with Some m' => Done tt m' | None => Panic m end.

(** The loop that copies a string; [None] is -E2BIG. *)
Fixpoint copy_arg (fuel : nat) (ustr start : Z) (dat : list Z) : K UserMem (option (list Z)) :=
  match fuel with
  | O => kstuck
  | S fuel' =>
      if MAX_EXEC_ARG_DATA <=? Z.of_nat (length dat) then mret None else
      c ← user_bytes (u64 (ustr + (Z.of_nat (length dat) - start))) 1;
      let dat' := dat ++ c in
      if bool_decide (c = [0]) then mret (Some dat') else copy_arg fuel' ustr start dat'
  end.
(** The loop over the indices of the vector: the error, and the arguments so far. *)
Fixpoint copy_args (l : list Z) (argv_addr : Z) (args : ExecArgv) : K UserMem (Z * ExecArgv) :=
  match l with
  | [] => mret (0, args)
  | i :: l' =>
      ustr ← user_word (u64 (argv_addr + 8 * i));
      if ustr =? 0 then mret (0, args) else
      if negb (user_ptr_valid ustr 1) then mret (- EINVAL, args) else
      r ← copy_arg (S (Z.to_nat MAX_EXEC_ARG_DATA)) ustr (data_used args) (data args);
      match r with
      | None => mret (- E2BIG, args)
      | Some dat => copy_args l' argv_addr (mkArgs (ptrs args ++ [data_used args]) dat)
      end
  end.
Definition exec_copy_argv (argv_addr : Z) : K UserMem (Z * ExecArgv) :=
  let args := mkArgs [] [] in
  if argv_addr =? 0 then mret (0, args) else
  if negb (user_ptr_valid argv_addr 8) then mret (- EINVAL, args) else
  r ← copy_args (seqZ 0 MAX_EXEC_ARGS) argv_addr args;
  if negb (r.1 =? 0) then mret r else
  if argc r.2 =? MAX_EXEC_ARGS then
    more ← user_word (u64 (argv_addr + 8 * MAX_EXEC_ARGS));
    mret (if negb (more =? 0) then (- E2BIG, r.2) else r)
  else mret r.

(** The string at an offset of [data], up to its NUL; [None] would be a read beyond it. *)
Fixpoint string_in (l : list Z) : option (list Z) :=
  match l with
  | [] => None
  | c :: l' => if c =? 0 then Some [] else cons c <$> string_in l'
  end.
Definition arg_string (args : ExecArgv) (off : Z) : option (list Z) := string_in (drop (Z.to_nat off) (data args)).

(** Step 1, from the last argument on: the stack pointer and the addresses of the strings, in the order of the arguments. *)
Fixpoint push_strings (args : ExecArgv) (offs : list Z) (sp : Z) (str_addrs : list Z) : K UserMem (Z * list Z) :=
  match offs with
  | [] => mret (sp, str_addrs)
  | off :: offs' =>
      s ← kopt (λ _, arg_string args off);
      let sp := u64 (sp - (Z.of_nat (length s) + 1)) in
      user_put sp (s ++ [0]);;
      push_strings args offs' sp (sp :: str_addrs)
  end.
(** Step 4. *)
Fixpoint push_words (l : list Z) (sp : Z) : K UserMem Z :=
  match l with
  | [] => mret sp
  | a :: l' =>
      let sp := u64 (sp - 8) in
      user_put sp (le64 a);;
      push_words l' sp
  end.
(** The stack pointer and the address of the vector. *)
Definition exec_setup_user_stack (args : ExecArgv) : K UserMem (Z * Z) :=
  r ← push_strings args (reverse (ptrs args)) USER_STACK_TOP [];
  let sp := Z.land r.1 (u64 (Z.lnot 7)) in
  let sp := u64 (sp - 8) in
  user_put sp (le64 0);;
  sp ← push_words (reverse r.2) sp;
  mret (Z.land sp (u64 (Z.lnot 15)), if 0 <? argc args then sp else 0).
