(* ===== verification/ExecCorrect.v ===== *)
(** * Arguments of a new program: they arrive

    An argument vector in the old address space, the packed copy in the kernel and the
    vector on the new stack have the same strings. *)
From S2P Require Import Prelude Vmm Process ProcessCorrect Exec.

(** ** Strings and vectors in memory *)

Definition bytes_at (m : UserMem) (a : Z) (l : list Z) : Prop := ∀ i v, l !! i = Some v → m !! (a + Z.of_nat i) = Some v.
(** A string with its NUL, below the end of user memory. *)
Definition user_string (m : UserMem) (p : Z) (t : list Z) : Prop :=
  0 < p ∧ p + Z.of_nat (length t) < USER_ADDR_LIMIT ∧ 0 ∉ t ∧ bytes_at m p (t ++ [0]).
(** A vector of pointers to the strings [ts], with a NULL pointer at its end. *)
Fixpoint argv_at (m : UserMem) (a : Z) (ts : list (list Z)) : Prop :=
  match ts with
  | [] => bytes_at m a (le64 0)
  | t :: ts' => (∃ p, bytes_at m a (le64 p) ∧ user_string m p t) ∧ argv_at m (a + 8) ts'
  end.
(** The packed copy of [ts]. *)
Definition pack (ts : list (list Z)) : ExecArgv := mkArgs (offsets 0 ts) (layout ts).

Lemma bytes_at_app m a l1 l2 : bytes_at m a (l1 ++ l2) → bytes_at m a l1 ∧ bytes_at m (a + Z.of_nat (length l1)) l2.
Proof.
  intros Hb. split.
  - intros i v Hi. apply Hb. by apply lookup_app_l_Some.
  - intros i v Hi. rewrite <-Z.add_assoc, <-Nat2Z.inj_add. apply Hb. rewrite lookup_app_r by lia. rewrite <-Hi. f_equal. lia.
Qed.
Lemma user_bytes_ok m a l : bytes_at m a l → user_bytes a (Z.of_nat (length l)) m = Done l m.
Proof. intros Hb. unfold user_bytes. by rewrite (read_bytes_ok m a _ l). Qed.
Lemma user_word_ok m a w : 0 ≤ w < 2 ^ 64 → bytes_at m a (le64 w) → user_word a m = Done w m.
Proof.
  intros Hw Hb. unfold user_word. assert (user_bytes a 8 m = Done (le64 w) m) as E by exact (user_bytes_ok m a (le64 w) Hb). kbind E.
  by rewrite le_val_le64.
Qed.

Lemma layout_app ts us : layout (ts ++ us) = layout ts ++ layout us.
Proof. unfold layout. by rewrite fmap_app, concat_app. Qed.

(** ** Copying *)

Section copy.
Context (m : UserMem).

Lemma copy_arg_ok d0 p t2 : 0 ∉ t2 → ∀ fuel t1, bytes_at m (p + Z.of_nat (length t1)) (t2 ++ [0]) → 0 ≤ p → p + Z.of_nat (length (t1 ++ t2)) < USER_ADDR_LIMIT →
  (4097 - length (d0 ++ t1) ≤ fuel)%nat → (length (d0 ++ t1) ≤ 4096)%nat →
  copy_arg fuel p (Z.of_nat (length d0)) (d0 ++ t1) m =
    Done (if decide (Z.of_nat (length (d0 ++ t1 ++ t2 ++ [0])) ≤ 4096) then Some (d0 ++ t1 ++ t2 ++ [0]) else None) m.
Proof.
  unfold USER_ADDR_LIMIT. induction t2 as [|c t2 IH]; intros H0 fuel t1 Hb Hp Hlim Hf Hd; (destruct fuel as [|fuel]; [lia|]); cbn [copy_arg]; unfold MAX_EXEC_ARG_DATA;
    (destruct (Z.leb_spec 4096 (Z.of_nat (length (d0 ++ t1)))); [rewrite decide_False by (rewrite !length_app in *; cbn; rewrite ?length_app in *; cbn in *; lia); done|]);
    rewrite length_app in Hlim; replace (Z.of_nat (length (d0 ++ t1)) - Z.of_nat (length d0)) with (Z.of_nat (length t1)) by (rewrite length_app; lia);
    rewrite u64_small by lia.
  - assert (user_bytes (p + Z.of_nat (length t1)) 1 m = Done [0] m) as E by (by apply (user_bytes_ok m _ [0])).
    kbind E. rewrite bool_decide_eq_true_2, <-app_assoc by done. cbn [app]. rewrite decide_True; [done|]. rewrite !length_app in *. cbn. lia.
  - apply not_elem_of_cons in H0 as [Hc H0]. cbn [length app] in *. apply (bytes_at_app m _ [c]) in Hb as [Hb1 Hb2].
    assert (user_bytes (p + Z.of_nat (length t1)) 1 m = Done [c] m) as E by (by apply (user_bytes_ok m _ [c])).
    kbind E. rewrite bool_decide_eq_false_2 by congruence. rewrite <-app_assoc.
    assert (d0 ++ (t1 ++ [c]) ++ t2 ++ [0] = d0 ++ t1 ++ c :: t2 ++ [0]) as El by (by rewrite <-!app_assoc). rewrite <-El.
    apply (IH H0 fuel (t1 ++ [c])); rewrite ?length_app in *; cbn [length] in *; try lia.
    by replace (p + Z.of_nat (length t1 + 1)) with (p + Z.of_nat (length t1) + Z.of_nat 1) by lia.
Qed.

Lemma copy_args_ok a : 0 < a → ∀ (n : nat) ts0 ts, argv_at m (a + 8 * Z.of_nat (length ts0)) ts → (length ts0 + n = 32)%nat →
  a + 8 * 32 < 2 ^ 64 → (length (layout ts0) ≤ 4096)%nat →
  let us := ts0 ++ take n ts in
  ∃ args, copy_args (seqZ (Z.of_nat (length ts0)) (Z.of_nat n)) a (pack ts0) m = Done (if decide (length (layout us) ≤ 4096)%nat then 0 else - E2BIG, args) m ∧
    ((length (layout us) ≤ 4096)%nat → args = pack us).
Proof.
  intros Ha. induction n as [|n IH]; intros ts0 ts Hv Hn Hlim Hl us.
  - unfold us. cbn. rewrite app_nil_r, decide_True by done. by eexists.
  - rewrite Nat2Z.inj_succ, seqZ_cons, Z.pred_succ by lia. cbn [copy_args]. rewrite u64_small by lia. destruct ts as [|t ts]; cbn [argv_at] in Hv.
    { kbind (user_word_ok m _ 0 ltac:(lia) Hv). cbn [Z.eqb]. unfold us. rewrite take_nil, app_nil_r, decide_True by done. by eexists. }
    destruct Hv as ((p & Hp & Hp0 & Hpl & Ht0 & Hb) & Hv). unfold USER_ADDR_LIMIT in Hpl.
    kbind (user_word_ok m _ p ltac:(lia) Hp). rewrite (proj2 (Z.eqb_neq p 0)) by lia.
    assert (user_ptr_valid p 1 = true) as ->.
    { unfold user_ptr_valid, USER_ADDR_LIMIT. rewrite (proj2 (Z.eqb_neq p 0)) by lia. cbn [orb Z.eqb]. rewrite u64_small by lia. lia. }
    cbn [negb]. pose proof (copy_arg_ok (layout ts0) p t Ht0 (S (Z.to_nat MAX_EXEC_ARG_DATA)) []) as Ec. cbn [length app] in Ec. rewrite Z.add_0_r, app_nil_r in Ec.
    specialize (Ec Hb ltac:(lia) Hpl ltac:(unfold MAX_EXEC_ARG_DATA; lia) Hl). cbn [pack data]. unfold data_used. cbn [pack data].
    assert (layout ts0 ++ t ++ [0] = layout (ts0 ++ [t])) as El by (by rewrite layout_snoc). rewrite El in Ec. kbind Ec.
    assert (us = (ts0 ++ [t]) ++ take n ts) as Eu by (unfold us; cbn; by rewrite <-app_assoc).
    case_decide as Hd.
    + destruct (IH (ts0 ++ [t]) ts) as (args & E & Ea); [|rewrite length_app; cbn; lia|done|lia|].
      { rewrite length_app. cbn [length]. replace (a + 8 * Z.of_nat (length ts0 + 1)) with (a + 8 * Z.of_nat (length ts0) + 8) by lia. done. }
      rewrite <-Eu in E, Ea. exists args. split; [|done]. rewrite <-E. change (ptrs (pack ts0)) with (offsets 0 ts0).
      assert (mkArgs (offsets 0 ts0 ++ [Z.of_nat (length (layout ts0))]) (layout (ts0 ++ [t])) = pack (ts0 ++ [t])) as -> by (unfold pack; by rewrite offsets_snoc).
      rewrite length_app. cbn [length]. by replace (Z.of_nat (length ts0 + 1)) with (Z.succ (Z.of_nat (length ts0))) by lia.
    + exists (pack ts0). rewrite Eu, decide_False.
      * split; [done|]. intros Hx. exfalso. apply Hd. rewrite layout_app, length_app in Hx. lia.
      * rewrite layout_app, length_app. lia.
Qed.
End copy.

Lemma argv_at_nth m ts : ∀ a i t, argv_at m a ts → ts !! i = Some t → ∃ p, bytes_at m (a + 8 * Z.of_nat i) (le64 p) ∧ user_string m p t.
Proof.
  induction ts as [|u ts IH]; intros a i t Hv Hi; [done|]. destruct Hv as [(p & Hp & Hs) Hv]. destruct i as [|i].
  - injection Hi as ->. exists p. by rewrite Z.mul_0_r, Z.add_0_r.
  - replace (a + 8 * Z.of_nat (S i)) with (a + 8 + 8 * Z.of_nat i) by lia. by apply IH.
Qed.
Lemma argv_at_end m ts : ∀ a, argv_at m a ts → bytes_at m (a + 8 * Z.of_nat (length ts)) (le64 0).
Proof.
  induction ts as [|u ts IH]; intros a Hv; cbn [length].
  - by rewrite Z.mul_0_r, Z.add_0_r.
  - destruct Hv as [_ Hv]. replace (a + 8 * Z.of_nat (S (length ts))) with (a + 8 + 8 * Z.of_nat (length ts)) by lia. by apply IH.
Qed.

(** The vector fits the limits of the kernel. *)
Definition argv_fits (ts : list (list Z)) : Prop := (length ts ≤ 32)%nat ∧ (length (layout ts) ≤ 4096)%nat.
Lemma exec_copy_argv_lemma m a ts : argv_at m a ts → 0 < a → a + 8 ≤ USER_ADDR_LIMIT →
  ∃ args, exec_copy_argv a m = Done (if decide (argv_fits ts) then 0 else - E2BIG, args) m ∧ (argv_fits ts → args = pack ts).
Proof.
  intros Hv Ha Hlim. unfold exec_copy_argv. rewrite (proj2 (Z.eqb_neq a 0)) by lia.
  assert (user_ptr_valid a 8 = true) as ->.
  { unfold user_ptr_valid, USER_ADDR_LIMIT in *. rewrite (proj2 (Z.eqb_neq a 0)) by lia. cbn [orb Z.eqb]. rewrite u64_small by lia. lia. }
  cbn [negb]. unfold USER_ADDR_LIMIT in Hlim.
  destruct (copy_args_ok m a Ha 32 [] ts ltac:(by rewrite Z.mul_0_r, Z.add_0_r) eq_refl ltac:(lia) ltac:(cbn; lia)) as (args & E & Eargs).
  cbn [app] in E, Eargs. change (pack []) with (mkArgs [] []) in E. change (Z.of_nat (length [])) with 0 in E. change (Z.of_nat 32) with MAX_EXEC_ARGS in E.
  kbind E. cbn [fst snd]. destruct (decide (length (layout (take 32 ts)) ≤ 4096)%nat) as [Hd|Hd]; cbn [negb Z.eqb Z.opp E2BIG].
  2: { exists args. rewrite decide_False; [split; [done|]|].
       - intros [H1 H2]. by rewrite take_ge in Hd by done.
       - intros [H1 H2]. by rewrite take_ge in Hd by done. }
  rewrite (Eargs Hd). unfold argc. cbn [pack ptrs]. rewrite offsets_length. unfold MAX_EXEC_ARGS. rewrite length_take.
  destruct (decide (length ts ≤ 32)%nat) as [Hl|Hl].
  - rewrite take_ge in * by done. exists (pack ts). rewrite decide_True by done. split; [|done]. destruct (Z.eqb_spec (Z.of_nat (32 `min` length ts)) 32) as [E32|]; [|done].
    rewrite u64_small by lia. assert (user_word (a + 8 * 32) m = Done 0 m) as Ew.
    { apply user_word_ok; [lia|]. replace (a + 8 * 32) with (a + 8 * Z.of_nat (length ts)) by lia. by apply argv_at_end. }
    kbind Ew. done.
  - replace (32 `min` length ts)%nat with 32%nat by lia. cbn [Z.eqb Z.of_nat]. destruct (lookup_lt_is_Some_2 ts 32) as [t Et]; [lia|].
    destruct (argv_at_nth m ts a 32 t Hv Et) as (p & Hp & Hp0 & Hpl & _). unfold USER_ADDR_LIMIT in Hpl. rewrite u64_small by lia.
    change (Z.of_nat 32 =? 32) with true. cbv iota. assert (user_word (a + 8 * 32) m = Done p m) as Ew by (apply user_word_ok; [lia|done]). kbind Ew.
    rewrite (proj2 (Z.eqb_neq p 0)) by lia. exists (pack (take 32 ts)). rewrite decide_False by (intros [? _]; lia). split; [done|]. intros [? _]. lia.
Qed.

(** ** The new stack *)

(** What a store of [l] at [a] leaves: the bytes, and all others as they were. *)
Lemma user_put_ok m a l : mapped m a (Z.of_nat (length l)) →
  ∃ m', user_put a l m = Done tt m' ∧ bytes_at m' a l ∧ (∀ b, b < a ∨ a + Z.of_nat (length l) ≤ b → m' !! b = m !! b).
Proof. intros Hm. destruct (write_bytes_ok l a m Hm) as (m' & E & Hin & Hout). exists m'. unfold user_put. by rewrite E. Qed.
(** The memory changed in [lo, hi) only, and is still mapped there. *)
Definition changed_in (lo hi : Z) (m m' : UserMem) : Prop :=
  (∀ b, b < lo ∨ hi ≤ b → m' !! b = m !! b) ∧ (∀ b, is_Some (m !! b) → is_Some (m' !! b)).
Lemma bytes_at_is_Some m a l b : bytes_at m a l → a ≤ b < a + Z.of_nat (length l) → is_Some (m !! b).
Proof.
  intros Hb Hr. destruct (lookup_lt_is_Some_2 l (Z.to_nat (b - a))) as [v Hv]; [lia|]. exists v. rewrite <-(Hb _ _ Hv). f_equal. lia.
Qed.
Lemma put_changed m a l m' : bytes_at m' a l → (∀ b, b < a ∨ a + Z.of_nat (length l) ≤ b → m' !! b = m !! b) → changed_in a (a + Z.of_nat (length l)) m m'.
Proof.
  intros Hb Ho. split; [done|]. intros b Hs. destruct (decide (a ≤ b < a + Z.of_nat (length l))) as [Hr|Hr]; [by eapply bytes_at_is_Some|].
  by rewrite Ho by lia.
Qed.
Lemma changed_trans lo mid hi m1 m2 m3 : lo ≤ mid ≤ hi → changed_in mid hi m1 m2 → changed_in lo mid m2 m3 → changed_in lo hi m1 m3.
Proof. intros Hr [H1 H2] [H3 H4]. split; [|auto]. intros b Hb. rewrite H3, H1 by lia. done. Qed.
Lemma changed_bytes lo hi m m' a l : changed_in lo hi m m' → a + Z.of_nat (length l) ≤ lo ∨ hi ≤ a → bytes_at m a l → bytes_at m' a l.
Proof. intros [Ho _] Hr Hb i v Hi. rewrite Ho; [by apply Hb|]. apply lookup_lt_Some in Hi. lia. Qed.

(** The strings whose offsets are [offs], below [sp]; [size] is what they take. *)
Definition strings_size (ts : list (list Z)) : Z := Z.of_nat (length (layout ts)).
Lemma strings_size_cons t ts : strings_size (t :: ts) = Z.of_nat (length t) + 1 + strings_size ts.
Proof. unfold strings_size, layout. cbn. rewrite !length_app. cbn. lia. Qed.
Lemma strings_size_nonneg ts : 0 ≤ strings_size ts.
Proof. unfold strings_size. lia. Qed.
Definition placed (m : UserMem) (lo hi : Z) (p : Z) (t : list Z) : Prop := bytes_at m p (t ++ [0]) ∧ lo ≤ p ∧ p + Z.of_nat (length t) + 1 ≤ hi.

Lemma push_strings_ok args rts : ∀ offs sp addrs m, Forall2 (λ o t, arg_string args o = Some t) offs rts →
  strings_size rts ≤ sp < 2 ^ 64 → mapped m (sp - strings_size rts) (strings_size rts) →
  ∃ addrs' m', push_strings args offs sp addrs m = Done (sp - strings_size rts, addrs' ++ addrs) m' ∧
    changed_in (sp - strings_size rts) sp m m' ∧ Forall2 (placed m' (sp - strings_size rts) sp) addrs' (reverse rts).
Proof.
  induction rts as [|t rts IH]; intros offs sp addrs m Ho Hsp Hm; inversion Ho as [|off ? offs' ? Hoff Ho' E1 E2]; subst; cbn [push_strings].
  { change (strings_size []) with 0. rewrite Z.sub_0_r. exists [], m. split_and!; [done|split; [done|done]|constructor]. }
  rewrite strings_size_cons in *. pose proof (strings_size_nonneg rts). rewrite (kopt_bind (λ _, arg_string args off) _ m t Hoff).
  rewrite u64_small by lia. set (sp1 := sp - (Z.of_nat (length t) + 1)) in *.
  destruct (user_put_ok m sp1 (t ++ [0])) as (m1 & E & Hb & Hout).
  { intros i Hi. rewrite length_app in Hi. cbn in Hi. destruct (Hm (strings_size rts + i)) as [v Hv]; [lia|]. exists v. rewrite <-Hv. f_equal. lia. }
  kbind E. pose proof (put_changed _ _ _ _ Hb Hout) as Hc1. rewrite length_app in Hc1. cbn [length] in Hc1. replace (sp1 + Z.of_nat (length t + 1)) with sp in Hc1 by lia.
  destruct (IH offs' sp1 (sp1 :: addrs) m1 Ho') as (addrs' & m2 & E2 & Hc2 & Hp); [lia| |].
  { intros i Hi. apply Hc1. destruct (Hm i) as [v Hv]; [lia|]. exists v. rewrite <-Hv. f_equal. lia. }
  replace (sp - (Z.of_nat (length t) + 1 + strings_size rts)) with (sp1 - strings_size rts) by lia.
  exists (addrs' ++ [sp1]), m2. rewrite E2, <-app_assoc. split_and!; [done|eapply changed_trans; [|done|done]; lia|].
  rewrite reverse_cons. apply Forall2_app.
  - eapply Forall2_impl; [exact Hp|]. intros p u (H1 & H2 & H3). split_and!; [done|lia|lia].
  - constructor; [|constructor]. split_and!; [|lia|lia]. eapply changed_bytes; [exact Hc2|lia|done].
Qed.

Lemma push_words_ok rl : ∀ sp m, 8 * Z.of_nat (length rl) ≤ sp < 2 ^ 64 → mapped m (sp - 8 * Z.of_nat (length rl)) (8 * Z.of_nat (length rl)) →
  ∃ m', push_words rl sp m = Done (sp - 8 * Z.of_nat (length rl)) m' ∧ changed_in (sp - 8 * Z.of_nat (length rl)) sp m m' ∧
    ∀ i w, reverse rl !! i = Some w → bytes_at m' (sp - 8 * Z.of_nat (length rl) + 8 * Z.of_nat i) (le64 w).
Proof.
  induction rl as [|w rl IH]; intros sp m Hsp Hm; cbn [push_words length] in *.
  { rewrite Z.mul_0_r, Z.sub_0_r in *. exists m. split_and!; [done|by split|]. by intros [|i] w. }
  rewrite u64_small by lia. destruct (user_put_ok m (sp - 8) (le64 w)) as (m1 & E & Hb & Hout).
  { change (Z.of_nat (length (le64 w))) with 8. intros i Hi. destruct (Hm (8 * Z.of_nat (length rl) + i)) as [v Hv]; [lia|]. exists v. rewrite <-Hv. f_equal. lia. }
  kbind E. pose proof (put_changed _ _ _ _ Hb Hout) as Hc1. change (Z.of_nat (length (le64 w))) with 8 in Hc1. replace (sp - 8 + 8) with sp in Hc1 by lia.
  destruct (IH (sp - 8) m1) as (m2 & E2 & Hc2 & Hw); [lia| |].
  { intros i Hi. apply Hc1. destruct (Hm i) as [v Hv]; [lia|]. exists v. rewrite <-Hv. f_equal. lia. }
  replace (sp - 8 * Z.of_nat (S (length rl))) with (sp - 8 - 8 * Z.of_nat (length rl)) by lia. exists m2. split_and!; [done|eapply changed_trans; [|done|done]; lia|].
  intros i v. rewrite reverse_cons. intros [Hi|[Hi Hx]]%lookup_app_Some; [by apply Hw|].
  apply list_lookup_singleton_Some in Hx as [Hi0 <-]. rewrite length_reverse in Hi, Hi0. replace (sp - 8 - 8 * Z.of_nat (length rl) + 8 * Z.of_nat i) with (sp - 8) by lia.
  eapply changed_bytes; [exact Hc2|right; lia|done].
Qed.

(** The packed copy gives its strings back. *)
Lemma string_in_ok t r : 0 ∉ t → string_in (t ++ 0 :: r) = Some t.
Proof.
  induction t as [|c t IH]; intros H0; [done|]. apply not_elem_of_cons in H0 as [Hc H0]. cbn. rewrite (proj2 (Z.eqb_neq c 0)) by done. by rewrite IH.
Qed.
Lemma pack_strings ts : Forall (λ t, 0 ∉ t) ts → Forall2 (λ o t, arg_string (pack ts) o = Some t) (ptrs (pack ts)) ts.
Proof.
  intros H0. pose proof (layout_strings ts [] [] H0) as Hf. cbn [app length] in Hf. rewrite app_nil_r in Hf. eapply Forall2_impl; [exact Hf|].
  intros o t (_ & Ht & r & E). unfold arg_string. cbn [pack data]. rewrite E. by apply string_in_ok.
Qed.

Lemma argv_build m a ts : ∀ addrs, Forall2 (user_string m) addrs ts → (∀ i w, addrs !! i = Some w → bytes_at m (a + 8 * Z.of_nat i) (le64 w)) →
  bytes_at m (a + 8 * Z.of_nat (length ts)) (le64 0) → argv_at m a ts.
Proof.
  revert a. induction ts as [|t ts IH]; intros a addrs Hf Hw Hz; inversion Hf as [|p ? addrs' ? Hp Hf']; subst; cbn [argv_at length] in *.
  - by rewrite Z.mul_0_r, Z.add_0_r in Hz.
  - split.
    + exists p. split; [|done]. rewrite <-(Z.add_0_r a). by apply (Hw 0%nat).
    + apply (IH _ addrs' Hf').
      * intros i w Hi. replace (a + 8 + 8 * Z.of_nat i) with (a + 8 * Z.of_nat (S i)) by lia. by apply Hw.
      * by replace (a + 8 + 8 * Z.of_nat (length ts)) with (a + 8 * Z.of_nat (S (length ts))) by lia.
Qed.

Lemma size_reverse ts : strings_size (reverse ts) = strings_size ts.
Proof.
  induction ts as [|t ts IH]; [done|]. rewrite reverse_cons, strings_size_cons, <-IH. unfold strings_size. rewrite layout_app, length_app.
  unfold layout at 2. cbn. rewrite app_nil_r, length_app. cbn. lia.
Qed.
Lemma align_down x n : 0 ≤ n ≤ 64 → 0 ≤ x < 2 ^ 64 → Z.land x (u64 (Z.lnot (2 ^ n - 1))) = x - x mod 2 ^ n.
Proof. intros Hn Hx. rewrite land_align by done. pose proof (Z.div_mod x (2 ^ n)). lia. Qed.

(** The stack pointer and the vector that the new program starts with. *)
Definition stack_ready (m m' : UserMem) (ts : list (list Z)) (rsp argv : Z) : Prop :=
  rsp mod 16 = 0 ∧ USER_STACK_TOP - 8192 ≤ rsp ∧ changed_in rsp USER_STACK_TOP m m' ∧
  if decide (ts = []) then argv = 0 else rsp ≤ argv < USER_STACK_TOP ∧ argv mod 8 = 0 ∧ argv_at m' argv ts.

Lemma exec_setup_lemma m ts : argv_fits ts → Forall (λ t, 0 ∉ t) ts → mapped m (USER_STACK_TOP - 8192) 8192 →
  ∃ rsp argv m', exec_setup_user_stack (pack ts) m = Done (rsp, argv) m' ∧ stack_ready m m' ts rsp argv.
Proof.
  intros [Hn Hl] H0 Hm. unfold exec_setup_user_stack. pose proof (strings_size_nonneg ts) as Hs0. assert (strings_size ts ≤ 4096) as Hs1 by (unfold strings_size; lia).
  unfold USER_STACK_TOP in *. set (top := 0x00007FFFFFFFE000) in *. change top with 140737488347136 in *. clear top. set (size := strings_size ts) in *.
  assert (∀ lo n, 140737488347136 - 8192 ≤ lo → lo + n ≤ 140737488347136 → mapped m lo n) as Hmap.
  { intros lo n Hlo Hhi i Hi. destruct (Hm (lo + i - (140737488347136 - 8192))) as [v Hv]; [lia|]. exists v. rewrite <-Hv. f_equal. lia. }
  destruct (push_strings_ok (pack ts) (reverse ts) (reverse (ptrs (pack ts))) 140737488347136 [] m) as (addrs & m1 & E1 & Hc1 & Hp1).
  { by apply Forall2_reverse, pack_strings. }
  { rewrite size_reverse. fold size. lia. }
  { rewrite size_reverse. fold size. apply Hmap; lia. }
  rewrite size_reverse, reverse_involutive in *. fold size in E1, Hc1, Hp1. rewrite app_nil_r in E1. kbind E1. cbn [fst snd].
  change 7 with (2 ^ 3 - 1). rewrite align_down by lia. change (2 ^ 3) with 8. remember (140737488347136 - size) as sp1 eqn:Esp1. remember (sp1 - sp1 mod 8) as sp2 eqn:Esp2.
  assert (sp2 mod 8 = 0 ∧ sp1 - 8 < sp2 ≤ sp1) as [Hsp2 Hsp2'] by lia. rewrite (u64_small (sp2 - 8)) by lia.
  assert (∀ lo n, 140737488347136 - 8192 ≤ lo → lo + n ≤ 140737488347136 → mapped m1 lo n) as Hmap1 by (intros lo n Hlo Hhi i Hi; apply Hc1, (Hmap lo n); [done..|lia]).
  destruct (user_put_ok m1 (sp2 - 8) (le64 0)) as (m2 & E2 & Hb2 & Hout2); [apply Hmap1; [lia|change (Z.of_nat (length (le64 0))) with 8; lia]|].
  kbind E2. pose proof (put_changed _ _ _ _ Hb2 Hout2) as Hc2. change (Z.of_nat (length (le64 0))) with 8 in Hc2. replace (sp2 - 8 + 8) with sp2 in Hc2 by lia.
  assert (length addrs = length ts) as Ha by (by eapply Forall2_length).
  destruct (push_words_ok (reverse addrs) (sp2 - 8) m2) as (m3 & E3 & Hc3 & Hw); rewrite ?length_reverse, ?Ha, ?reverse_involutive in *; [lia| |].
  { intros i Hi. apply Hc2, (Hmap1 (sp2 - 8 - 8 * Z.of_nat (length ts)) (8 * Z.of_nat (length ts))); lia. }
  kbind E3. remember (sp2 - 8 - 8 * Z.of_nat (length ts)) as sp4 eqn:Esp4. assert (sp4 mod 8 = 0) as Hsp4 by lia.
  change 15 with (2 ^ 4 - 1). rewrite align_down by lia. change (2 ^ 4) with 16. unfold argc. cbn [pack ptrs]. rewrite offsets_length.
  assert (changed_in sp4 140737488347136 m m3) as Hc.
  { apply (changed_trans sp4 sp1 140737488347136 m m1 m3); [lia|exact Hc1|]. apply (changed_trans sp4 (sp2 - 8) sp1 m1 m2 m3); [lia| |exact Hc3].
    destruct Hc2 as [Hx Hy]. split; [|done]. intros b Hb. apply Hx. lia. }
  do 3 eexists. split; [reflexivity|]. split_and!; [lia|unfold USER_STACK_TOP; lia|split; [intros b Hb; apply Hc; unfold USER_STACK_TOP in *; lia|apply Hc]|].
  case_decide as Hts; [by subst|]. assert (0 < Z.of_nat (length ts)) as Hpos by (destruct ts; [done|cbn; lia]). rewrite (proj2 (Z.ltb_lt 0 _)) by done.
  split_and!; [lia|unfold USER_STACK_TOP; lia|done|]. apply (argv_build m3 sp4 ts addrs); [|done|].
  - apply Forall2_same_length_lookup_2; [done|]. intros i p t Hi Ht. destruct (Forall2_lookup_lr _ _ _ _ _ _ Hp1 Hi Ht) as (Hb & Hlo & Hhi).
    assert (bytes_at m3 p (t ++ [0])) as Hb3 by (eapply changed_bytes; [exact Hc3|right; lia|]; eapply changed_bytes; [exact Hc2|right; lia|done]).
    unfold user_string, USER_ADDR_LIMIT. split_and!; [lia|lia|by apply (Forall_lookup_1 _ _ _ _ H0 Ht)|done].
  - replace (sp4 + 8 * Z.of_nat (length ts)) with (sp2 - 8) by lia. eapply changed_bytes; [exact Hc3|right; lia|done].
Qed.

Lemma argv_no_nul m a ts : argv_at m a ts → Forall (λ t, 0 ∉ t) ts.
Proof. revert a. induction ts as [|t ts IH]; intros a Hv; [constructor|]. destruct Hv as [(p & _ & _ & _ & Ht & _) Hv]. constructor; [done|by eapply IH]. Qed.

(** C36. The arguments of exec arrive.  A vector of strings in the memory of the calling program is
    refused with E2BIG exactly when it has more than 32 strings or takes more than 4096
    bytes.  Otherwise the new program starts with a stack pointer that is a multiple of
    16, nothing below it or outside the stack is touched, and the vector it finds there,
    again ending in a null pointer, has the same strings in the same order: copied
    again it gives the same packed arguments. *)
Theorem exec_arguments_arrive m a ts m0 : argv_at m a ts → 0 < a → a + 8 ≤ USER_ADDR_LIMIT → mapped m0 (USER_STACK_TOP - 8192) 8192 →
  ∃ err args, exec_copy_argv a m = Done (err, args) m ∧
    if decide (argv_fits ts) then
      err = 0 ∧ ∃ rsp argv m', exec_setup_user_stack args m0 = Done (rsp, argv) m' ∧ stack_ready m0 m' ts rsp argv ∧
        (ts ≠ [] → exec_copy_argv argv m' = Done (0, args) m')
    else err = - E2BIG.
Proof.
  intros Hv Ha Hlim Hm. destruct (exec_copy_argv_lemma m a ts Hv Ha Hlim) as (args & E & Eargs). case_decide as Hfit; [|by eexists _, _].
  eexists _, _. split; [exact E|]. split; [done|]. rewrite (Eargs Hfit).
  destruct (exec_setup_lemma m0 ts Hfit (argv_no_nul _ _ _ Hv) Hm) as (rsp & argv & m' & E' & Hr). exists rsp, argv, m'. split_and!; [done|done|].
  intros Hne. destruct Hr as (_ & Hrsp & _ & Hargv). rewrite decide_False in Hargv by done. destruct Hargv as (Hle & _ & Hat).
  unfold USER_STACK_TOP in *. destruct (exec_copy_argv_lemma m' argv ts Hat ltac:(lia) ltac:(unfold USER_ADDR_LIMIT; lia)) as (args' & E2 & Eargs').
  by rewrite decide_True, (Eargs' Hfit) in E2.
Qed.

(** The vector of [ls -a] at 4096, its strings at 4200 and 4300, and a zeroed stack. *)
Definition old_memory : UserMem :=
  list_to_map (zip (seqZ 4096 24) (le64 4200 ++ le64 4300 ++ le64 0) ++ zip (seqZ 4200 3) [108; 115; 0] ++ zip (seqZ 4300 3) [45; 97; 0]).
Definition new_memory : UserMem := list_to_map ((λ a, (a, 0)) <$> seqZ (USER_STACK_TOP - 8192) 8192).
Lemma old_memory_argv : argv_at old_memory 4096 [[108; 115]; [45; 97]].
Proof.
  assert (∀ a l, Forall (λ i, l !! i = old_memory !! (a + Z.of_nat i)) (seq 0 (length l)) → bytes_at old_memory a l) as Hb.
  { intros a l Hl i v Hi. rewrite Forall_forall in Hl. rewrite <-Hl; [done|]. apply elem_of_seq. apply lookup_lt_Some in Hi. lia. }
  cbn [argv_at]. split_and!; [exists 4200|exists 4300|]; [split|split|]; [apply Hb; by vm_compute; repeat constructor| |apply Hb; by vm_compute; repeat constructor| |apply Hb; by vm_compute; repeat constructor].
  - split_and!; [done|done|set_solver|]. apply Hb. by vm_compute; repeat constructor.
  - split_and!; [done|done|set_solver|]. apply Hb. by vm_compute; repeat constructor.
Qed.
Lemma new_memory_mapped : mapped new_memory (USER_STACK_TOP - 8192) 8192.
Proof.
  intros i Hi. exists 0. unfold new_memory. apply elem_of_list_to_map_1.
  - rewrite <-list_fmap_compose. rewrite (list_fmap_ext _ id); [|done]. rewrite list_fmap_id. apply NoDup_seqZ.
  - apply list_elem_of_fmap. exists (USER_STACK_TOP - 8192 + i). split; [done|]. apply elem_of_seqZ. lia.
Qed.
Lemma exec_arguments_arrive_witness : ∃ err args, exec_copy_argv 4096 old_memory = Done (err, args) old_memory ∧
  if decide (argv_fits [[108; 115]; [45; 97]]) then
    err = 0 ∧ ∃ rsp argv m', exec_setup_user_stack args new_memory = Done (rsp, argv) m' ∧ stack_ready new_memory m' [[108; 115]; [45; 97]] rsp argv ∧
      ([[108; 115]; [45; 97]] ≠ [] → exec_copy_argv argv m' = Done (0, args) m')
  else err = - E2BIG.
Proof. apply (exec_arguments_arrive old_memory 4096 [[108; 115]; [45; 97]] new_memory old_memory_argv); [done|done|apply new_memory_mapped]. Defined.
(** The same, computed: the stack pointer, the address of the vector and its words. *)
Lemma exec_arguments_example : match exec_setup_user_stack (pack [[108; 115]; [45; 97]]) new_memory with
  | Done (rsp, argv) m' => (USER_STACK_TOP - rsp, USER_STACK_TOP - argv, le_val <$> read_bytes argv 8 m') = (32, 32, Some (USER_STACK_TOP - 6))
  | _ => False
  end.
Proof. by vm_compute. Qed.
(** Only the first word of the vector is checked: at the end of user memory the second is read beyond it, which stops the machine. *)
Lemma argv_beyond_limit : ∃ m, exec_copy_argv (USER_ADDR_LIMIT - 8) (list_to_map (zip (seqZ (USER_ADDR_LIMIT - 8) 8) (le64 4200) ++ zip (seqZ 4200 3) [108; 115; 0])) = Panic m.
Proof. eexists. by vm_compute. Qed.
