(* ===== verification/SysFile.v ===== *)
(** * System calls on files

    The handlers of [kernel/arch/x86_64/syscall.c] that pass a path or a descriptor to the virtual file system.  The state has the file
    system, the process that makes the call with its table of descriptors, and the memory of its address space, from which paths
    and buffers are read and into which results are stored.  The nodes of open files other than pipes are those of the
    file systems of [Vfs]; where a call goes on in the terminal or in a pipe, the result says so, and the models of these take over. *)
From S2P Require Import Prelude PageAlloc KHeap Path Ramfs Vfs Pipe Fd Process Exec.

Definition PATH_MAX : Z := 512.
Definition ENOENT : Z := 2.
Definition EBADF : Z := 9.
Definition ENOMEM : Z := 12.
Definition ENOTDIR : Z := 20.
Definition EINVAL : Z := 22.
Definition ESPIPE : Z := 29.
Definition ENOSYS : Z := 38.
Definition EPERM : Z := 1.
Definition FD_STDIN : Z := 0.
Definition FD_STDOUT : Z := 1.
Definition FD_STDERR : Z := 2.
Definition SIZEOF_VFSSTAT : Z := 40.
Definition SIZEOF_DIRENT : Z := 272.

(** The calling process, if there is one, with its table if it has one. *)
Record Sf (H : Type) : Type := mkCall { sfs : Fs H; sproc : option (Process * option (list FdEntry)); suser : UserMem }.
Arguments mkCall {H}.
Arguments sfs {H}.
Arguments sproc {H}.
Arguments suser {H}.
(** What is left of a call: nothing; a read or write of the terminal or of a pipe; or, after a write that returned -EPIPE, a signal to the process
    that called.  The end of a write to a pipe is [write_end] below. *)
Inductive Rest : Type :=
  | Ret (r : Z)
  | InTtyRead (buf_addr count : Z)
  | InTtyWrite (buf : list Z)
  | InPipeRead (pipe buf_addr count : Z)
  | InPipeWrite (pid pipe : Z) (buf : list Z)
  | Broken (pid : Z).

Definition set_cwd (v : list Z) (p : Process) : Process :=
  mkProc (pid p) (pgid p) (pstate p) (exit_status p) (main_thread p) (page_table p) (Process.fd_table p) (brk_current p) (brk_start p) v
    (uid p) (gid p) (Process.euid p) (Process.egid p) (Process.umask p) (sig p) (parent p) (pnext p).
Definition cred_of (p : Process) : Cred := mkCred (Process.euid p) (Process.egid p) (Process.umask p).

(** The string at an address of user memory; the fuel is the number of bytes of the memory. *)
Fixpoint user_cstring (fuel : nat) (a : Z) : K UserMem (list Z) :=
  match fuel with
  | O => kstuck
  | S fuel' =>
      c ← user_bytes a 1;
      if bool_decide (c = [0]) then mret [] else l ← user_cstring fuel' (u64 (a + 1)); mret (c ++ l)
  end.
(** A buffer up to its NUL. *)
Fixpoint upto_nul (l : list Z) : list Z := match l with [] => [] | c :: l' => if c =? 0 then [] else c :: upto_nul l' end.

Section sysfile.
Context {H : Type} `{KHeap H}.
(** The addresses of the nodes of devfs, the terminal as its node calls it, and what a stack buffer has before it is written. *)
Context (dev_null_node dev_zero_node dev_tty_node : Z) (tty_read : Z → K (Fs H) (Z * list Z)) (tty_write : list Z → K (Fs H) Z) (stack : list Z).
Implicit Types (s : Sf H).
Let vfs_resolve := vfs_resolve (H := H) dev_null_node dev_zero_node dev_tty_node.
Let vfs_open := vfs_open (H := H) dev_null_node dev_zero_node dev_tty_node.
Let vfs_stat := vfs_stat (H := H) dev_null_node dev_zero_node dev_tty_node.
Let vfs_mkdir := vfs_mkdir (H := H) dev_null_node dev_zero_node dev_tty_node.
Let vfs_readdir := vfs_readdir (H := H) dev_null_node dev_zero_node dev_tty_node.
Let vfs_unlink := vfs_unlink (H := H) dev_null_node dev_zero_node dev_tty_node.

Definition on_fs {A} (m : K (Fs H) A) : K (Sf H) A := zoom sfs (λ f s, mkCall f (sproc s) (suser s)) m.
Definition on_user {A} (m : K UserMem A) : K (Sf H) A := zoom suser (λ u s, mkCall (sfs s) (sproc s) u) m.
Definition proc_current : K (Sf H) (option Process) := kget (λ s, fst <$> sproc s).
Definition put_table (t : list FdEntry) : K (Sf H) unit :=
  kupd (λ s, p ← sproc s; Some (mkCall (sfs s) (Some (p.1, Some t)) (suser s))).
Definition put_proc (q : Process) : K (Sf H) unit := kupd (λ s, p ← sproc s; Some (mkCall (sfs s) (Some (q, p.2)) (suser s))).
Definition cred : K (Sf H) (option Cred) := p ← proc_current; mret (cred_of <$> p).

(** The error or the path. *)
Definition resolve_user_path (path_addr size : Z) : K (Sf H) (Z + list Z) :=
  if negb (user_ptr_valid path_addr 1) then mret (inl (- EINVAL)) else
  n ← kget (λ s, base.size (suser s));
  path ← on_user (user_cstring (S n) path_addr);
  p ← proc_current;
  let cwd := match p with Some p => cwd p | None => [SLASH] end in
  match path_normalize (Some cwd) (Some path) size (mkPathBuf stack 0) with
  | Done r b => mret (if r =? 0 then inr (upto_nul (out b)) else inl r)
  | _ => kstuck
  end.
(** The rest of a call that has a path, or its error. *)
Definition with_path {A} (path_addr : Z) (err : Z → A) (f : list Z → K (Sf H) A) : K (Sf H) A :=
  r ← resolve_user_path path_addr PATH_MAX;
  match r with inl e => mret (err e) | inr abs => f abs end.

(** The file of a descriptor, as the virtual file system takes it; [None] is the end of a pipe. *)
Definition vfile (f : Fd.VfsFile) : option Vfs.VfsFile :=
  match node f with
  | NoNode => Some (Vfs.mkFile 0 (offset f) (flags f))
  | OtherNode a => Some (Vfs.mkFile a (offset f) (flags f))
  | PipeEnd _ _ => None
  end.
(** Its new offset, in the table. *)
Definition put_file (t : list FdEntry) (fd : Z) (e : FdEntry) (f : option Vfs.VfsFile) : K (Sf H) unit :=
  match f with
  | None => mret tt
  | Some f =>
      t' ← kopt (λ _, zset t fd (mkEntry (Fd.mkFile (node (file e)) (foffset f) (fflags f)) (in_use e)));
      put_table t'
  end.

(** [vfs_write] and [vfs_read] of an entry: the pipe has an operation for its direction only. *)
Definition entry_write (n : Z) (t : list FdEntry) (fd : Z) (e : FdEntry) (buf : list Z) : K (Sf H) Rest :=
  match vfile (file e) with
  | Some f =>
      r ← on_fs (vfs_write tty_write (Some f) (Some buf));
      put_file t fd e r.2;;
      mret (if r.1 =? - EPIPE then Broken n else Ret r.1)
  | None =>
      if Z.land (flags (file e)) O_ACCMODE =? O_RDONLY then mret (Ret (- EINVAL)) else
      match node (file e) with PipeEnd a WriteEnd => mret (InPipeWrite n a buf) | _ => mret (Ret (- EINVAL)) end
  end.
Definition entry_read (t : list FdEntry) (fd : Z) (e : FdEntry) (buf_addr count : Z) : K (Sf H) Rest :=
  match vfile (file e) with
  | Some f =>
      r ← on_fs (vfs_read tty_read (Some f) false count);
      let '(n, bytes, f') := (r : Z * list Z * option Vfs.VfsFile) in
      on_user (user_put buf_addr bytes);; put_file t fd e f';; mret (Ret n)
  | None =>
      if Z.land (flags (file e)) O_ACCMODE =? O_WRONLY then mret (Ret (- EINVAL)) else
      match node (file e) with PipeEnd a ReadEnd => mret (InPipeRead a buf_addr count) | _ => mret (Ret (- EINVAL)) end
  end.

(** The table of the process, with NULL for no process and for no table. *)
Definition current_table : K (Sf H) (option (list FdEntry)) := kget (λ s, p ← sproc s; p.2).

Definition sys_write (fd buf_addr count : Z) : K (Sf H) Rest :=
  if negb (user_ptr_valid buf_addr count) then mret (Ret (- EINVAL)) else
  tab ← current_table;
  e ← match tab with Some t => kopt (λ _, fd_get t (i32 fd)) | None => mret None end;
  p ← proc_current;
  match tab, e, p with
  | Some t, Some e, Some p => buf ← on_user (user_bytes buf_addr (u32 count)); entry_write (pid p) t (i32 fd) e buf
  | _, _, _ =>
      if (fd =? FD_STDOUT) || (fd =? FD_STDERR) then buf ← on_user (user_bytes buf_addr (u32 count)); mret (InTtyWrite buf)
      else mret (Ret (- EBADF))
  end.
Definition sys_read (fd buf_addr count : Z) : K (Sf H) Rest :=
  if negb (user_ptr_valid buf_addr count) then mret (Ret (- EINVAL)) else
  tab ← current_table;
  match tab with
  | None => if fd =? FD_STDIN then mret (InTtyRead buf_addr (u32 count)) else mret (Ret (- ENOSYS))
  | Some t =>
      e ← kopt (λ _, fd_get t (i32 fd));
      match e with
      | Some e => entry_read t (i32 fd) e buf_addr (u32 count)
      | None => if fd =? FD_STDIN then mret (InTtyRead buf_addr (u32 count)) else mret (Ret (- EBADF))
      end
  end.
Definition sys_open (path_addr flags : Z) : K (Sf H) Z :=
  tab ← current_table;
  match tab with
  | None => mret (- ENOSYS)
  | Some t =>
      let '(fd, t1) := fd_alloc t in
      put_table t1;;
      if fd <? 0 then mret (- ENOMEM) else
      let failed (err : Z) : K (Sf H) Z := t2 ← kopt (λ _, fd_free t1 fd); put_table t2;; mret err in
      r ← resolve_user_path path_addr PATH_MAX;
      match r with
      | inl perr => failed perr
      | inr abs =>
          p ← cred;
          r ← on_fs (vfs_open p (Some abs) (u32 flags));
          let '(err, f) := (r : Z * option Vfs.VfsFile) in
          e ← kopt (λ _, zget t1 fd);
          match f with
          | Some f => t2 ← kopt (λ _, zset t1 fd (mkEntry (Fd.mkFile (OtherNode (fnode f)) (foffset f) (fflags f)) (in_use e))); put_table t2
          | None => mret tt
          end;;
          if negb (err =? 0) then failed err else mret fd
      end
  end.
Definition sys_lseek (fd off whence : Z) : K (Sf H) Z :=
  tab ← current_table;
  match tab with
  | None => mret (- ENOSYS)
  | Some t =>
      e ← kopt (λ _, fd_get t (i32 fd));
      match e with
      | None => mret (- EBADF)
      | Some e =>
          match vfile (file e) with
          | None => mret (- ESPIPE)
          | Some f => r ← on_fs (vfs_seek (Some f) (i64 off) (i32 whence)); put_file t (i32 fd) e r.2;; mret r.1
          end
      end
  end.
(** The fields of a [VfsStat] at an address of user memory; the padding between them is not written. *)
Definition put_stat (a : Z) (st : VfsStat) : K (Sf H) unit :=
  on_user (user_put a (le64 (st_inode st)));;
  on_user (user_put (a + 8) [st_type st]);;
  on_user (user_put (a + 16) (le64 (st_size st)));;
  on_user (user_put (a + 24) (le_bytes 4 (st_mode st)));;
  on_user (user_put (a + 28) (le_bytes 4 (st_uid st)));;
  on_user (user_put (a + 32) (le_bytes 4 (st_gid st))).
(** Pipes have zeros in their nodes, except for the type. *)
Definition sys_fstat (fd stat_addr : Z) : K (Sf H) Z :=
  tab ← current_table;
  match tab with
  | None => mret (- ENOSYS)
  | Some t =>
      if negb (user_ptr_valid stat_addr SIZEOF_VFSSTAT) then mret (- EINVAL) else
      e ← kopt (λ _, fd_get t (i32 fd));
      match e with
      | None => mret (- EBADF)
      | Some e =>
          match node (file e) with
          | NoNode => kstuck
          | PipeEnd _ _ => put_stat stat_addr (mkStat 0 VFS_PIPE 0 0 0 0);; mret 0
          | OtherNode a =>
              n ← on_fs (vnode a);
              put_stat stat_addr (mkStat (inode_num n) (ntype n) (nsize n) (nmode n) (nuid n) (ngid n));;
              mret 0
          end
      end
  end.
Definition sys_stat (path_addr stat_addr : Z) : K (Sf H) Z :=
  if negb (user_ptr_valid stat_addr SIZEOF_VFSSTAT) then mret (- EINVAL) else
  with_path path_addr id (λ abs,
    r ← on_fs (vfs_stat (Some abs));
    match r.2 with Some st => put_stat stat_addr st | None => mret tt end;;
    mret r.1).
Definition sys_mkdir (path_addr mode : Z) : K (Sf H) Z :=
  with_path path_addr id (λ abs, p ← cred; on_fs (vfs_mkdir p (Some abs) (u32 mode))).
(** The entries of a listing, each with the 256 bytes of its name, its inode and its type. *)
Fixpoint put_dirents (a : Z) (l : list VfsDirEntry) : K (Sf H) unit :=
  match l with
  | [] => mret tt
  | e :: l' =>
      on_user (user_put a (take 255 (de_name e ++ replicate 255 0) ++ [0]));;
      on_user (user_put (a + 256) (le64 (de_inode e)));;
      on_user (user_put (a + 264) [de_type e]);;
      put_dirents (a + SIZEOF_DIRENT) l'
  end.
Definition sys_readdir (path_addr entries_addr max : Z) : K (Sf H) Z :=
  if (0 <? max) && negb (user_ptr_valid entries_addr (u64 (max * SIZEOF_DIRENT))) then mret (- EINVAL) else
  with_path path_addr id (λ abs,
    if entries_addr =? 0 then mret (- EINVAL) else
    r ← on_fs (vfs_readdir (Some abs) (u32 max));
    put_dirents entries_addr r.2;;
    mret r.1).
Definition sys_unlink (path_addr : Z) : K (Sf H) Z :=
  with_path path_addr id (λ abs, p ← cred; on_fs (vfs_unlink p (Some abs))).

Definition sys_chdir (path_addr : Z) : K (Sf H) Z :=
  p ← proc_current;
  match p with
  | None => mret (- ENOSYS)
  | Some p =>
      with_path path_addr id (λ abs,
        a ← on_fs (vfs_resolve (Some abs));
        if a =? 0 then mret (- ENOENT) else
        n ← on_fs (vnode a);
        if negb (ntype n =? VFS_DIRECTORY) then mret (- ENOTDIR) else
        put_proc (set_cwd abs p);;
        mret 0)
  end.
(** [strncpy] fills the buffer with NULs. *)
Definition sys_getcwd (buf_addr size : Z) : K (Sf H) Z :=
  p ← proc_current;
  match p with
  | None => mret (- ENOSYS)
  | Some p =>
      if negb (user_ptr_valid buf_addr size) then mret (- EINVAL) else
      let cwd_len := Z.of_nat (length (cwd p)) + 1 in
      if size <? cwd_len then mret (- EINVAL) else
      on_user (user_put buf_addr (cwd p ++ replicate (Z.to_nat (size - Z.of_nat (length (cwd p)))) 0));;
      mret 0
  end.
Definition sys_chmod (path_addr mode : Z) : K (Sf H) Z :=
  with_path path_addr id (λ abs,
    a ← on_fs (vfs_resolve (Some abs));
    if a =? 0 then mret (- ENOENT) else
    p ← proc_current;
    match p with
    | None => mret (- ENOSYS)
    | Some p =>
        n ← on_fs (vnode a);
        if negb (Process.euid p =? 0) && negb (Process.euid p =? nuid n) then mret (- EPERM) else
        on_fs (upd_vnode a (set_nmode (Z.land (u32 mode) 0xFFF)));;
        mret 0
    end).
Definition sys_chown (path_addr new_uid new_gid : Z) : K (Sf H) Z :=
  with_path path_addr id (λ abs,
    a ← on_fs (vfs_resolve (Some abs));
    if a =? 0 then mret (- ENOENT) else
    p ← proc_current;
    match p with
    | None => mret (- ENOSYS)
    | Some p =>
        if negb (Process.euid p =? 0) then mret (- EPERM) else
        on_fs (upd_vnode a (λ n, set_nowner (if u32 new_uid =? 2 ^ 32 - 1 then nuid n else u32 new_uid)
          (if u32 new_gid =? 2 ^ 32 - 1 then ngid n else u32 new_gid) n));;
        mret 0
    end).
End sysfile.

(** The end of [sys_write], with the result of the write and the process that called. *)
Definition write_end {H P} `{KHeap H} `{PageAlloc P} (n r : Z) : K (Kern H P) Z :=
  (if r =? - EPIPE then sig_send n SIGPIPE;; mret tt else mret tt);;
  mret r.
