(* ===== verification/SysFileCorrect.v ===== *)
(** * Correctness of the system calls on files

    Paths of a process mean what its working directory and the path say together; what is written through a descriptor is read back
    through it; the mode and the owner of a file change only for those who may change them. *)
From S2P Require Import Prelude PageAlloc Kmalloc KmallocCorrect KHeap Path Ramfs RamfsCorrect Vfs VfsCorrect Pipe Fd Process ProcessCorrect ProcessWait Exec ExecCorrect SysFile.

(** ** Characters of paths *)

Lemma elem_of_split c s : c ≠ SLASH → c ∈ s ↔ ∃ w, w ∈ split_on SLASH s ∧ c ∈ w.
Proof.
  intros Hc. induction s as [|d s IH]; cbn [split_on].
  - split; [by intros ?%elem_of_nil|by intros (w & ->%list_elem_of_singleton & ?%elem_of_nil)].
  - rewrite elem_of_cons, IH. destruct (Z.eqb_spec d SLASH) as [->|Hd].
    + setoid_rewrite elem_of_cons. split; [intros [?|(w & ? & ?)]; [done|eauto]|intros (w & [->|?] & Hw); [by apply elem_of_nil in Hw|eauto]].
    + destruct (split_on_cons SLASH s) as (w & ws & ->). setoid_rewrite elem_of_cons. split.
      * intros [->|(x & [->|Hx] & Hcx)]; [exists (d :: w)|exists (d :: w)|exists x]; rewrite ?elem_of_cons; auto.
      * intros (x & [->|Hx] & Hcx); [apply elem_of_cons in Hcx as [?|?]|]; eauto.
Qed.
Lemma elem_of_comps c s : c ≠ SLASH → c ∈ s ↔ ∃ w, w ∈ comps s ∧ c ∈ w.
Proof.
  intros Hc. rewrite elem_of_split by done. unfold comps. setoid_rewrite list_elem_of_filter. split.
  - intros (w & Hw & Hcw). exists w. split_and!; [by intros ->; apply elem_of_nil in Hcw|done|done].
  - intros (w & (_ & Hw) & Hcw). eauto.
Qed.
Lemma canonical_sub l : ∀ st w, w ∈ foldl follow st l → w ∈ st ∨ w ∈ l.
Proof.
  induction l as [|c l IH]; intros st w; cbn [foldl]; [by left|]. intros [Hw|Hw]%IH; [|right; by right].
  unfold follow in Hw. repeat case_decide; [by left| |apply elem_of_app in Hw as [?|Hw]; [by left|right; apply list_elem_of_singleton in Hw as ->; left]].
  left. destruct (decide (st = [])) as [->|Hst]; [done|]. rewrite (app_removelast_last [] Hst). apply elem_of_app. by left.
Qed.
Lemma canonical_no_nul cwd path s : 0 ∉ cwd → 0 ∉ path → comps s = canonical (request cwd path) → 0 ∉ s.
Proof.
  intros Hc Hp E. rewrite elem_of_comps by done. rewrite E. intros (w & Hw & H0).
  apply (canonical_sub _ []) in Hw as [Hw%elem_of_nil|Hw]; [done|]. unfold request in Hw.
  case_decide; [|apply elem_of_app in Hw as [Hw|Hw]]; [apply Hp|apply Hc|apply Hp]; apply elem_of_comps; eauto.
Qed.
Lemma upto_nul_app l r : 0 ∉ l → upto_nul (l ++ 0 :: r) = l.
Proof.
  induction l as [|c l IH]; intros Hl; [done|]. apply not_elem_of_cons in Hl as [Hc Hl]. cbn. destruct (Z.eqb_spec c 0); [congruence|]. by rewrite IH.
Qed.

(** ** Strings of the user *)

Lemma user_byte_run m a c : m !! a = Some c → user_bytes a 1 m = Done [c] m.
Proof. intros E. unfold user_bytes, read_bytes. change (seqZ 0 1) with [0]. cbn [mapM]. by rewrite Z.add_0_r, E. Qed.
Lemma user_cstring_run m l : ∀ fuel a, bytes_at m a (l ++ [0]) → 0 ∉ l → 0 ≤ a → a + Z.of_nat (length l) < 2 ^ 63 → (length l < fuel)%nat →
  user_cstring fuel a m = Done l m.
Proof.
  induction l as [|c l IH]; intros [|fuel] a Hb H0 Ha Hl Hf; simpl in Hf, Hl; try lia.
  - pose proof (Hb 0%nat 0 eq_refl) as E. rewrite Z.add_0_r in E. cbn [user_cstring]. by kbind (user_byte_run _ _ _ E).
  - apply not_elem_of_cons in H0 as [Hc H0]. pose proof (Hb 0%nat c eq_refl) as E. rewrite Z.add_0_r in E. cbn [user_cstring].
    kbind (user_byte_run _ _ _ E). rewrite bool_decide_false by congruence. rewrite u64_small by lia.
    assert (user_cstring fuel (a + 1) m = Done l m) as E2; [|by kbind E2].
    apply IH; [|done|lia|lia|lia]. intros i v Hi. replace (a + 1 + Z.of_nat i) with (a + Z.of_nat (S i)) by lia. by apply Hb.
Qed.
Lemma bytes_at_size m a l : bytes_at m a l → (length l ≤ base.size m)%nat.
Proof.
  intros Hb. rewrite <-size_dom. transitivity (size (list_to_set (seqZ a (Z.of_nat (length l))) : gset Z)).
  - rewrite size_list_to_set by apply NoDup_seqZ. rewrite length_seqZ. lia.
  - apply subseteq_size. intros x [Hx1 Hx2]%elem_of_list_to_set%elem_of_seqZ. apply elem_of_dom.
    destruct (lookup_lt_is_Some_2 l (Z.to_nat (x - a))) as (v & Hv); [lia|]. exists v. apply Hb in Hv. by rewrite Z2Nat.id, Zplus_minus in Hv by lia.
Qed.

Section correct.
Context {H : Type} `{KHeap H}.
Context (dev_null_node dev_zero_node dev_tty_node : Z) (stack : list Z).
Implicit Types (s : Sf H).
Let path_lookup := path_lookup (H := H) dev_null_node dev_zero_node dev_tty_node.
Let vfs_ok := vfs_ok (H := H) dev_null_node dev_zero_node dev_tty_node.

(** The state of a call of the process [p], with the path [l] at the address [a]. *)
Record calls (s : Sf H) (p : Process) (tab : option (list FdEntry)) (a : Z) (l : list Z) : Prop := {
  ca_proc : sproc s = Some (p, tab);
  ca_cwd : hd_error (cwd p) = Some SLASH ∧ 0 ∉ cwd p ∧ Z.of_nat (length (cwd p)) < PATH_MAX;
  ca_path : user_string (suser s) a l;
  ca_stack : Z.of_nat (length stack) = PATH_MAX;
}.
(** The path that the process asked for does not fit in the kernel's buffer, or did not on the way. *)
Definition too_long (p : Process) (l : list Z) : Prop := overflows PATH_MAX (request (cwd p) l).
(** An absolute path for what the process asked for. *)
Definition meant (p : Process) (l abs : list Z) : Prop :=
  hd_error abs = Some SLASH ∧ comps abs = canonical (request (cwd p) l) ∧ 0 ∉ abs ∧ Z.of_nat (length abs) < PATH_MAX ∧ ¬ too_long p l.

Lemma resolve_user_run s p tab a l : calls s p tab a l →
  (resolve_user_path stack a PATH_MAX s = Done (inl (- ENAMETOOLONG)) s ∧ too_long p l) ∨
  ∃ abs, resolve_user_path stack a PATH_MAX s = Done (inr abs) s ∧ meant p l abs.
Proof.
  intros [Hp (Hc & Hc0 & Hcl) (Ha & Hlim & Hl0 & Hb) Hst]. unfold resolve_user_path, USER_ADDR_LIMIT, PATH_MAX in *.
  assert (user_ptr_valid a 1 = true) as ->.
  { unfold user_ptr_valid, USER_ADDR_LIMIT. rewrite (proj2 (Z.eqb_neq a 0)) by lia. cbn [orb Z.eqb]. rewrite u64_small by lia. lia. }
  cbn [negb]. rewrite kget_bind. pose proof (bytes_at_size _ _ _ Hb) as Hsz. rewrite length_app in Hsz.
  assert (on_user (user_cstring (S (base.size (suser s))) a) s = Done l s) as E.
  { unfold on_user, zoom. rewrite (user_cstring_run _ l) by (first [done|lia]). by destruct s. }
  kbind E. unfold proc_current. rewrite kget_bind, Hp. cbn [fmap option_fmap option_map fst].
  destruct (path_normalize_lemma (cwd p) l (mkPathBuf stack 0)) as (r & b & E1 & Hlen & Hr); [simpl; lia|lia|lia|done|].
  cbn [out] in E1, Hr, Hlen. rewrite Hst in E1, Hr. rewrite E1. destruct Hr as [(-> & (q & rest & Ho & _ & Hh & Hq) & Hno)|(-> & Hk)]; [right|by left].
  pose proof (canonical_no_nul _ _ _ Hc0 Hl0 Hq) as Hq0. exists q. cbn [Z.eqb]. rewrite Ho, upto_nul_app by done. split; [done|].
  split_and!; [done|done|done| |exact Hno]. unfold PATH_MAX. rewrite Ho in Hlen. rewrite length_app in Hlen. simpl in Hlen. lia.
Qed.
Lemma path_lookup_ok (s : Fs H) a l : vfs_ok s → is_Some (vnodes s !! a) → path_lookup s a l = 0 ∨ is_Some (vnodes s !! path_lookup s a l).
Proof.
  intros Hok. revert a. induction l as [|c l IH]; intros a Ha; [by right|]. unfold path_lookup, VfsCorrect.path_lookup. cbn [foldl].
  case_decide; [left; apply path_lookup_0|]. destruct (child_ok _ _ _ s a c Hok) as [->|Hc]; [left; apply path_lookup_0|by apply IH].
Qed.
(** The node that a path of the process names, or 0. *)
Definition named s (p : Process) (l : list Z) : Z := path_lookup (sfs s) (vfs_root (sfs s)) (canonical (request (cwd p) l)).
Lemma resolve_meant s p l abs : vfs_ok (sfs s) → meant p l abs → Forall (λ c, Z.of_nat (length c) < VFS_NAME_MAX) (canonical (request (cwd p) l)) →
  on_fs (vfs_resolve dev_null_node dev_zero_node dev_tty_node (Some abs)) s = Done (named s p l) s ∧
  (named s p l = 0 ∨ is_Some (vnodes (sfs s) !! named s p l)).
Proof.
  intros Hok (Hh & Hc & _) Hs. rewrite <-Hc in Hs. split.
  - unfold on_fs, zoom. rewrite (vfs_resolve_lemma _ _ _ (sfs s) abs Hok Hh Hs), Hc. by destruct s.
  - apply path_lookup_ok; [done|]. apply (vo_root _ _ _ _ Hok).
Qed.
Lemma on_vnode_run s a n : vnodes (sfs s) !! a = Some n → on_fs (vnode a) s = Done n s.
Proof. intros Hn. unfold on_fs, zoom, vnode, kopt. rewrite Hn. by destruct s. Qed.

(** ** The working directory *)

Lemma follow_plain st l : Forall (λ c, c ≠ [DOT] ∧ c ≠ [DOT; DOT]) l → foldl follow st l = st ++ l.
Proof.
  revert st. induction l as [|c l IH]; intros st Hl; cbn [foldl]; [by rewrite app_nil_r|]. apply Forall_cons in Hl as [[H1 H2] Hl].
  unfold follow at 2. rewrite !decide_False by done. rewrite IH by done. by rewrite <-app_assoc.
Qed.
Lemma follow_no_dots l : ∀ st, Forall (λ c, c ≠ [DOT] ∧ c ≠ [DOT; DOT]) st → Forall (λ c, c ≠ [DOT] ∧ c ≠ [DOT; DOT]) (foldl follow st l).
Proof.
  induction l as [|c l IH]; intros st Hst; cbn [foldl]; [done|]. apply IH. unfold follow. repeat case_decide; [done| |apply Forall_app; auto].
  destruct (decide (st = [])) as [->|Hne]; [done|]. rewrite (app_removelast_last [] Hne) in Hst. by apply Forall_app in Hst as [? _].
Qed.
Lemma request_after abs r q : comps abs = canonical r →
  canonical (request abs q) = if decide (hd_error q = Some SLASH) then canonical (comps q) else canonical (r ++ comps q).
Proof.
  intros E. unfold request. case_decide; [done|]. rewrite E. unfold canonical. rewrite !foldl_app. f_equal.
  rewrite follow_plain; [done|]. by apply follow_no_dots.
Qed.

Lemma getcwd_run s p tab buf n : sproc s = Some (p, tab) → Z.of_nat (length (cwd p)) < n → 0 < buf → buf + n ≤ USER_ADDR_LIMIT → mapped (suser s) buf n →
  ∃ u, sys_getcwd buf n s = Done 0 (mkCall (sfs s) (sproc s) u) ∧ bytes_at u buf (cwd p ++ [0]).
Proof.
  intros Hp Hn Hb Hlim Hm. unfold sys_getcwd, proc_current, USER_ADDR_LIMIT in *. rewrite kget_bind, Hp. cbn [fmap option_fmap option_map fst].
  assert (user_ptr_valid buf n = true) as ->.
  { unfold user_ptr_valid, USER_ADDR_LIMIT. replace ((buf =? 0) || (n =? 0)) with false by lia. rewrite u64_small by lia. lia. }
  cbn [negb]. replace (n <? _) with false by lia. set (l := cwd p ++ _).
  assert (Z.of_nat (length l) = n) as Hl by (unfold l; rewrite length_app, length_replicate; lia).
  destruct (user_put_ok (suser s) buf l) as (u & E & Hbu & _); [by rewrite Hl|]. exists u.
  erewrite bind_Done by (unfold on_user, zoom; by rewrite E). split; [by rewrite Hp|].
  assert (∃ r, l = (cwd p ++ [0]) ++ r) as (r & Er).
  { unfold l. replace (Z.to_nat (n - _)) with (S (Z.to_nat (n - Z.of_nat (length (cwd p)) - 1))) by lia. cbn [replicate].
    eexists. rewrite <-app_assoc. done. }
  rewrite Er in Hbu. by apply bytes_at_app in Hbu as [? _].
Qed.

(** C40. The working directory: [chdir] with a path of which no component is too long returns an error and changes nothing when the path names
    nothing, no directory, or does not fit in the 512 bytes that the kernel has for it; and otherwise it returns 0, changes only the working directory, and from then on a
    path that is not absolute means what the two paths mean one after the other; [getcwd] gives an absolute path of that directory. *)
Theorem sys_chdir_correct s p tab a l : calls s p tab a l → vfs_ok (sfs s) →
  Forall (λ c, Z.of_nat (length c) < VFS_NAME_MAX) (canonical (request (cwd p) l)) →
  (sys_chdir dev_null_node dev_zero_node dev_tty_node stack a s = Done (- ENAMETOOLONG) s ∧ too_long p l) ∨
  (sys_chdir dev_null_node dev_zero_node dev_tty_node stack a s = Done (- ENOENT) s ∧ named s p l = 0) ∨
  ∃ n, vnodes (sfs s) !! named s p l = Some n ∧
    ((sys_chdir dev_null_node dev_zero_node dev_tty_node stack a s = Done (- ENOTDIR) s ∧ ntype n ≠ VFS_DIRECTORY) ∨
     ∃ abs, let s' := mkCall (sfs s) (Some (set_cwd abs p, tab)) (suser s) in
       sys_chdir dev_null_node dev_zero_node dev_tty_node stack a s = Done 0 s' ∧ ntype n = VFS_DIRECTORY ∧ meant p l abs ∧
       (∀ q, canonical (request (cwd (set_cwd abs p)) q) =
         if decide (hd_error q = Some SLASH) then canonical (comps q) else canonical (request (cwd p) l ++ comps q)) ∧
       (∀ buf size, Z.of_nat (length abs) < size → 0 < buf → buf + size ≤ USER_ADDR_LIMIT → mapped (suser s) buf size →
         ∃ u, sys_getcwd buf size s' = Done 0 (mkCall (sfs s) (sproc s') u) ∧ bytes_at u buf (abs ++ [0]))).
Proof.
  intros Hc Hok Hs. pose proof (ca_proc _ _ _ _ _ Hc) as Hp. unfold sys_chdir at 1 2 3 4, proc_current. rewrite !kget_bind, Hp. cbn [fmap option_fmap option_map fst].
  unfold with_path. destruct (resolve_user_run s p tab a l Hc) as [[E Ht]|(abs & E & Hm)]; [left; by kbind E|]. right.
  rewrite !(bind_Done _ _ _ _ _ E). destruct (resolve_meant s p l abs Hok Hm Hs) as [E1 Hn]. rewrite !(bind_Done _ _ _ _ _ E1).
  destruct (Z.eqb_spec (named s p l) 0) as [Hz|Hz]; [by left|]. right. destruct Hn as [?|[n Hn]]; [done|]. exists n. split; [done|].
  rewrite !(bind_Done _ _ _ _ _ (on_vnode_run s _ n Hn)). destruct (Z.eqb_spec (ntype n) VFS_DIRECTORY) as [Hd|Hd]; cbn [negb]; [right|by left].
  exists abs. split_and!; [|done|done| |].
  - erewrite bind_Done by (unfold put_proc, kupd; by rewrite Hp). done.
  - intros q. apply request_after, Hm.
  - intros buf sz H1 H2 H3 H4. by apply (getcwd_run (mkCall (sfs s) (Some (set_cwd abs p, tab)) (suser s)) (set_cwd abs p) tab).
Qed.

(** ** Permissions *)

Lemma upd_vnode_run s a n f : vnodes (sfs s) !! a = Some n →
  on_fs (upd_vnode a f) s = Done tt (mkCall (with_vnodes (<[a := f n]> (vnodes (sfs s))) (sfs s)) (sproc s) (suser s)).
Proof. intros Hn. unfold on_fs, zoom, upd_vnode, kupd. by rewrite Hn. Qed.
(** Who may change the mode: for a path that names a node, [chmod] sets the lower twelve bits of its mode, and nothing else of any node, when the
    caller is its owner or root, and returns -EPERM and changes nothing for everybody else; [chown] does the same with the owner and
    the group, where -1 stands for no change, for root only. *)
Theorem sys_chmod_chown_correct s p tab a l n mode u g : calls s p tab a l → vfs_ok (sfs s) → ¬ too_long p l →
  Forall (λ c, Z.of_nat (length c) < VFS_NAME_MAX) (canonical (request (cwd p) l)) → vnodes (sfs s) !! named s p l = Some n →
  let change f := mkCall (with_vnodes (<[named s p l := f n]> (vnodes (sfs s))) (sfs s)) (sproc s) (suser s) in
  sys_chmod dev_null_node dev_zero_node dev_tty_node stack a mode s =
    (if decide (Process.euid p = 0 ∨ Process.euid p = nuid n) then Done 0 (change (set_nmode (Z.land (u32 mode) 0xFFF))) else Done (- EPERM) s) ∧
  sys_chown dev_null_node dev_zero_node dev_tty_node stack a u g s =
    (if decide (Process.euid p = 0) then
       Done 0 (change (set_nowner (if u32 u =? 2 ^ 32 - 1 then nuid n else u32 u) (if u32 g =? 2 ^ 32 - 1 then ngid n else u32 g)))
     else Done (- EPERM) s).
Proof.
  intros Hc Hok Ht Hs Hn change. pose proof (ca_proc _ _ _ _ _ Hc) as Hp. unfold sys_chmod, sys_chown, with_path.
  destruct (resolve_user_run s p tab a l Hc) as [[E Ht']|(abs & E & Hm)]; [done|]. rewrite !(bind_Done _ _ _ _ _ E).
  destruct (resolve_meant s p l abs Hok Hm Hs) as [E1 _]. rewrite !(bind_Done _ _ _ _ _ E1).
  assert (named s p l ≠ 0) as Hz by (intros Hz; rewrite Hz, (vo_null _ _ _ _ Hok) in Hn; done).
  destruct (Z.eqb_spec (named s p l) 0); [done|]. unfold proc_current. rewrite !kget_bind, Hp. cbn [fmap option_fmap option_map fst].
  rewrite (bind_Done _ _ _ _ _ (on_vnode_run s _ n Hn)). split.
  - destruct (Z.eqb_spec (Process.euid p) 0), (Z.eqb_spec (Process.euid p) (nuid n)); cbn [negb andb];
      first [rewrite decide_True by tauto; by kbind (upd_vnode_run s _ n (set_nmode (Z.land (u32 mode) 0xFFF)) Hn)|by rewrite decide_False by tauto].
  - destruct (Z.eqb_spec (Process.euid p) 0); cbn [negb]; [rewrite decide_True by done|by rewrite decide_False by done].
    erewrite bind_Done by (by apply upd_vnode_run). done.
Qed.
End correct.

(** ** Descriptors *)

Section descriptors.
Context {H : Type} `{KHeap H}.
Context (tty_read : Z → K (Fs H) (Z * list Z)) (tty_write : list Z → K (Fs H) Z).
Implicit Types (s : Sf H).

Lemma ptr_valid a n : 0 < a → 0 < n → a + n ≤ USER_ADDR_LIMIT → user_ptr_valid a n = true.
Proof.
  unfold user_ptr_valid, USER_ADDR_LIMIT. intros Ha Hn Hl. replace ((a =? 0) || (n =? 0)) with false by lia. rewrite u64_small by lia. lia.
Qed.
(** The descriptor [fd] of the calling process is open on the node [a]. *)
Record opened s (fd a off fl : Z) (p : Process) (t : list FdEntry) : Prop := {
  op_proc : sproc s = Some (p, Some t);
  op_fd : 0 ≤ fd < MAX_FDS;
  op_entry : ∃ u, zget t fd = Some (mkEntry (Fd.mkFile (OtherNode a) off fl) u) ∧ u ≠ 0;
}.
Lemma opened_get s fd a off fl p t : opened s fd a off fl p t → ∃ e, fd_get t (i32 fd) = Some (Some e) ∧
  file e = Fd.mkFile (OtherNode a) off fl ∧ i32 fd = fd ∧ current_table s = Done (Some t) s ∧ used e = true.
Proof.
  intros [Hp Hfd (u & Hz & Hu)]. unfold MAX_FDS in *. exists (mkEntry (Fd.mkFile (OtherNode a) off fl) u).
  assert (i32 fd = fd) as E by (apply i32_small; lia). assert (used (mkEntry (Fd.mkFile (OtherNode a) off fl) u) = true) as Hus.
  { unfold used. simpl. by destruct (Z.eqb_spec u 0). }
  split_and!; [|done|done|by unfold current_table, kget; rewrite Hp|done].
  rewrite E. unfold fd_get, MAX_FDS. replace (_ || _) with false by lia. rewrite Hz. simpl. by rewrite Hus.
Qed.
(** A new offset: the table differs at the descriptor only. *)
Lemma put_file_run s fd a off fl p t e off' : opened s fd a off fl p t → file e = Fd.mkFile (OtherNode a) off fl → used e = true →
  ∃ t', put_file t fd e (Some (Vfs.mkFile a off' fl)) s = Done tt (mkCall (sfs s) (Some (p, Some t')) (suser s)) ∧
    opened (mkCall (sfs s) (Some (p, Some t')) (suser s)) fd a off' fl p t' ∧ ∀ j, j ≠ fd → zget t' j = zget t j.
Proof.
  intros [Hp Hfd (u & Hz & Hu)] He Hus. pose proof (zget_Some_range _ _ _ Hz) as Hr. unfold put_file. rewrite He. cbn [node foffset fflags].
  destruct (zset t fd (mkEntry (Fd.mkFile (OtherNode a) off' fl) (in_use e))) as [t'|] eqn:E; [|by rewrite zset_lt in E by lia].
  exists t'. unfold mbind, K_bind, kopt, put_table, kupd. rewrite Hp. split_and!; [done| |].
  - split; [done|done|]. exists (in_use e). split; [by eapply zget_zset_eq|]. unfold used in Hus. intros Hz0. by rewrite Hz0 in Hus.
  - intros j Hj. by eapply zget_zset_ne.
Qed.
Lemma on_fs_run {A} (m : K (Fs H) A) s v f : m (sfs s) = Done v f → on_fs m s = Done v (mkCall f (sproc s) (suser s)).
Proof. unfold on_fs, zoom. by intros ->. Qed.

Lemma put_file_any s fd a off fl p t e f : opened s fd a off fl p t → ∃ s', put_file t fd e f s = Done tt s' ∧ sfs s' = sfs s.
Proof.
  intros [Hp Hfd (u & Hz & Hu)]. pose proof (zget_Some_range _ _ _ Hz). destruct f as [f|]; [|by exists s].
  unfold put_file, mbind, K_bind, kopt. rewrite zset_lt by lia. unfold put_table, kupd. rewrite Hp. by eexists.
Qed.
(** The state with another file system and another offset of the descriptor. *)
Definition moved_on s (f : Fs H) (p : Process) (t t' : list FdEntry) (fd a off fl : Z) (s' : Sf H) : Prop :=
  s' = mkCall f (Some (p, Some t')) (suser s) ∧ opened s' fd a off fl p t' ∧ ∀ j, j ≠ fd → zget t' j = zget t j.
Lemma opened_fs s f fd a off fl p t : opened s fd a off fl p t → opened (mkCall f (sproc s) (suser s)) fd a off fl p t.
Proof. by intros []. Qed.
Lemma write_run s fd a off fl p t src buf : opened s fd a off fl p t → bytes_at (suser s) src buf → user_ptr_valid src (Z.of_nat (length buf)) = true →
  Z.of_nat (length buf) < 2 ^ 32 → ∃ e, file e = Fd.mkFile (OtherNode a) off fl ∧ used e = true ∧
    sys_write tty_write fd src (Z.of_nat (length buf)) s =
    (w ← on_fs (vfs_write tty_write (Some (Vfs.mkFile a off fl)) (Some buf)); put_file t fd e w.2;; mret (if w.1 =? - EPIPE then Broken (pid p) else Ret w.1)) s.
Proof.
  intros Ho Hb Hv Hl. destruct (opened_get _ _ _ _ _ _ _ Ho) as (e & Eg & Ef & Ei & Et & Eu). exists e. split_and!; [done..|].
  unfold sys_write. rewrite Hv. cbn [negb]. kbind Et. rewrite (kopt_bind _ _ _ (Some e)) by done.
  assert (proc_current s = Done (Some p) s) as Ec by (unfold proc_current, kget; by rewrite (op_proc _ _ _ _ _ _ _ Ho)). kbind Ec. rewrite u32_small by lia.
  erewrite bind_Done by (unfold on_user, zoom; rewrite (user_bytes_ok _ _ _ Hb); done). rewrite Ei. unfold entry_write, vfile. rewrite Ef. by destruct s.
Qed.
Lemma lseek_run s fd a off fl p t o w v off' : opened s fd a off fl p t →
  vfs_seek (Some (Vfs.mkFile a off fl)) (i64 o) (i32 w) (sfs s) = Done (v, Some (Vfs.mkFile a off' fl)) (sfs s) →
  ∃ t' s', sys_lseek fd o w s = Done v s' ∧ moved_on s (sfs s) p t t' fd a off' fl s'.
Proof.
  intros Ho E. destruct (opened_get _ _ _ _ _ _ _ Ho) as (e & Eg & Ef & Ei & Et & Eu).
  destruct (put_file_run s fd a off fl p t e off' Ho Ef Eu) as (t' & Ep & Ho' & Hj). unfold sys_lseek. kbind Et.
  rewrite (kopt_bind _ _ _ (Some e)) by done. unfold vfile. rewrite Ef. cbn [node Fd.offset Fd.flags].
  assert (on_fs (vfs_seek (Some (Vfs.mkFile a off fl)) (i64 o) (i32 w)) s = Done (v, Some (Vfs.mkFile a off' fl)) s) as E' by (rewrite (on_fs_run _ _ _ _ E); by destruct s).
  kbind E'. cbn [fst snd]. rewrite Ei. kbind Ep. by eexists t', _.
Qed.
Lemma read_run s fd a off fl p t dst v bytes off' f : let n := Z.of_nat (length bytes) in
  opened s fd a off fl p t → user_ptr_valid dst n = true → mapped (suser s) dst n → 0 ≤ n < 2 ^ 32 →
  vfs_read tty_read (Some (Vfs.mkFile a off fl)) false n (sfs s) = Done (v, bytes, Some (Vfs.mkFile a off' fl)) f →
  ∃ t' u s', sys_read tty_read fd dst n s = Done (Ret v) s' ∧ moved_on (mkCall (sfs s) (sproc s) u) f p t t' fd a off' fl s' ∧
    bytes_at u dst bytes ∧ ∀ b, b < dst ∨ dst + n ≤ b → u !! b = suser s !! b.
Proof.
  intros n Ho Hv Hm Hn E. destruct (opened_get _ _ _ _ _ _ _ Ho) as (e & Eg & Ef & Ei & Et & Eu).
  destruct (user_put_ok (suser s) dst bytes Hm) as (u & Eput & Hu & Hout).
  assert (opened (mkCall f (sproc s) u) fd a off fl p t) as Ho1 by (by destruct Ho).
  destruct (put_file_run _ fd a off fl p t e off' Ho1 Ef Eu) as (t' & Ep & Ho' & Hj).
  unfold sys_read. rewrite Hv. cbn [negb]. kbind Et. rewrite (kopt_bind _ _ _ (Some e)) by done. rewrite u32_small by lia. rewrite Ei.
  unfold entry_read, vfile. rewrite Ef. cbn [node Fd.offset Fd.flags]. rewrite (bind_Done _ _ _ _ _ (on_fs_run _ _ _ _ E)).
  erewrite bind_Done by (unfold on_user, zoom; simpl; by rewrite Eput). kbind Ep. by eexists t', u, _.
Qed.

(** C14. Through a descriptor: [write] of a buffer that is not empty, ending below byte 2^31 of the file, to a descriptor that is open for reading and
    writing (and not for appending) on a file in memory stops the machine or returns -ENOMEM, each only when the heap cannot grow; or it returns the
    number of bytes, and after [lseek] to where it began, [read] of as many bytes into mapped memory of the process returns their number and leaves
    exactly the bytes that were written at the address it was given, and every other byte of the memory as it was; no other descriptor is touched. *)
Theorem sys_write_seek_read s fd a off fl p t n r src dst buf :
  opened s fd a off fl p t → fs_ok (sfs s) → vnodes (sfs s) !! a = Some n → rams (sfs s) !! a = Some r → nops n = RamfsOps → file_ok n r → a ≠ 0 →
  Z.land fl O_ACCMODE = O_RDWR → Z.land fl O_APPEND = 0 → 0 ≤ off → off + Z.of_nat (length buf) < 2 ^ 31 → buf ≠ [] →
  bytes_at (suser s) src buf → 0 < src → src + Z.of_nat (length buf) ≤ USER_ADDR_LIMIT →
  mapped (suser s) dst (Z.of_nat (length buf)) → 0 < dst → dst + Z.of_nat (length buf) ≤ USER_ADDR_LIMIT →
  let len := Z.of_nat (length buf) in
  (∃ s', sys_write tty_write fd src len s = Panic s' ∧ kh_full (fheap (sfs s'))) ∨
  (∃ s', sys_write tty_write fd src len s = Done (Ret (- ENOMEM)) s' ∧ kh_full (fheap (sfs s'))) ∨
  ∃ s1 s2 s3 t3, sys_write tty_write fd src len s = Done (Ret len) s1 ∧ sys_lseek fd off SEEK_SET s1 = Done 0 s2 ∧
    sys_read tty_read fd dst len s2 = Done (Ret len) s3 ∧ bytes_at (suser s3) dst buf ∧
    (∀ b, b < dst ∨ dst + len ≤ b → suser s3 !! b = suser s !! b) ∧
    opened s3 fd a (off + len) fl p t3 ∧ ∀ j, j ≠ fd → zget t3 j = zget t j.
Proof.
  intros Ho Hfs Hn Hr Hops Hfok Ha Hacc Happ Hoff Hlen Hne Hb Hs Hlim Hm Hd Hdlim len. unfold USER_ADDR_LIMIT in Hlim, Hdlim.
  assert (0 < len) as Hl0 by (unfold len; destruct buf; [done|simpl; lia]).
  pose proof (ptr_valid src len Hs Hl0 Hlim) as Hv. pose proof (ptr_valid dst len Hd Hl0 Hdlim) as Hdst.
  destruct (write_run s fd a off fl p t src buf Ho Hb Hv ltac:(lia)) as (e & Ef & Eu & Ew). fold len in Ew. rewrite Ew.
  destruct (vfs_write_read_lemma tty_read tty_write (sfs s) a n r fl off buf Hfs Hn Hr Hops Hfok Ha Hacc Happ Hoff Hlen Hne)
    as [(f & E & Hx)|[(f' & f & E & Hx)|(f & E1 & E2 & E3)]].
  - left. exists (mkCall f (sproc s) (suser s)). split; [|done]. apply bind_Panic. unfold on_fs, zoom. by rewrite E.
  - right. left. rewrite (bind_Done _ _ _ _ _ (on_fs_run _ _ _ _ E)).
    destruct (put_file_any _ fd a off fl p t e f' (opened_fs s f _ _ _ _ _ _ Ho)) as (s' & Ep & Hs'). kbind Ep. exists s'. by rewrite Hs'.
  - right. right. rewrite (bind_Done _ _ _ _ _ (on_fs_run _ _ _ _ E1)). cbn [fst snd].
    destruct (put_file_run _ fd a off fl p t e (off + len) (opened_fs s f _ _ _ _ _ _ Ho) Ef Eu) as (t1 & Ep & Ho1 & Hj1). kbind Ep.
    replace (_ =? - EPIPE) with false by (unfold EPIPE; lia).
    destruct (lseek_run (mkCall f (Some (p, Some t1)) (suser s)) fd a (off + len) fl p t1 off SEEK_SET VFS_OK off Ho1) as (t2 & s2 & E4 & -> & Ho2 & Hj2).
    { assert (i64 off = off) as -> by (unfold i64; rewrite Z.mod_small by lia; by destruct (Z.ltb_spec off (2 ^ 63)); [|lia]). exact E2. }
    destruct (read_run _ fd a off fl p t2 dst len buf (off + len) f Ho2 Hdst Hm ltac:(lia) E3) as (t3 & u & s3 & E5 & (-> & Ho3 & Hj3) & Hu & Hout).
    eexists _, _, _, t3. split_and!; [done|done|done|done|done|done|]. intros j Hj. by rewrite Hj3, Hj2, Hj1.
Qed.
End descriptors.

(** A write to a pipe that nobody reads raises SIGPIPE in the process that called, and in no other. *)
Lemma write_end_broken {H P} `{KHeap H} `{PageAlloc P} (s : Kern H P) l p y : plist s l → pids_unique s l → p ∈ l → p ≠ 0 →
  procs s !! p = Some y → pstate y ≠ PROC_TERMINATED →
  write_end (pid y) (- EPIPE) s = Done (- EPIPE) (with_procs (<[p := set_sig (raise SIGPIPE (sig y)) y]> (procs s)) s).
Proof.
  intros Hl Hu Hp Hp0 Ey Hs. unfold write_end. rewrite Z.eqb_refl, bind_assoc.
  by rewrite (bind_Done _ _ _ _ _ (sig_send_ok s l p y SIGPIPE Hl Hu Hp Hp0 Ey Hs ltac:(done) ltac:(done))).
Qed.

(** ** Witnesses *)

(** A process of user 7 in the root directory, with the path "." at 0x1000 of its memory and the file of [file_store] open; two bytes at 0x2000 are for results. *)
Definition caller : Process := mkProc 2 2 0 0 0 0 0 0 0 [SLASH] 7 7 7 7 18 (mkSig 0 (replicate 32 0) 0 zero_sf) 0 0.
Definition caller_memory : UserMem := list_to_map [(0x1000, DOT); (0x1001, 0); (0x1002, 65); (0x1003, 66); (0x2000, 0); (0x2001, 0)].
Definition caller_table : list FdEntry := mkEntry (Fd.mkFile (OtherNode addr1) 5 O_RDWR) 1 :: replicate 63 zero_entry.
Definition dir_call : Sf (Heap Z) := mkCall dir_store (Some (caller, None)) caller_memory.
Definition file_call : Sf (Heap Z) := mkCall file_store (Some (caller, Some caller_table)) caller_memory.

Lemma dir_call_calls : calls (replicate 512 0) dir_call caller None 0x1000 [DOT].
Proof.
  split; [done|split_and!; [done| |done]|split_and!; [done|done| |]|done].
  - unfold caller, SLASH. simpl. intros [E|E%elem_of_nil]%elem_of_cons; done.
  - unfold DOT. intros [E|E%elem_of_nil]%elem_of_cons; done.
  - intros [|[|i]] v; [intros [= <-]; vm_compute; reflexivity..|done].
Qed.
Lemma sys_chdir_correct_witness : ∃ abs,
  sys_chdir 1 2 3 (replicate 512 0) 0x1000 dir_call = Done 0 (mkCall dir_store (Some (set_cwd abs caller, None)) caller_memory) ∧ comps abs = [].
Proof.
  destruct (sys_chdir_correct 1 2 3 (replicate 512 0) dir_call caller None 0x1000 [DOT] dir_call_calls dir_store_vfs_ok)
    as [[E _]|[[E _]|(n & Hn & [[E _]|(abs & E & _ & (_ & Hc & _) & _)])]]; [vm_compute; constructor|vm_compute in E; discriminate E..|].
  exists abs. split; [exact E|]. rewrite Hc. reflexivity.
Defined.
Lemma sys_chmod_chown_correct_witness : sys_chmod 1 2 3 (replicate 512 0) 0x1000 420 dir_call = Done (- EPERM) dir_call.
Proof.
  destruct (sys_chmod_chown_correct 1 2 3 (replicate 512 0) dir_call caller None 0x1000 [DOT] (mkNode 1 VFS_DIRECTORY 0 493 0 0 RamfsOps) 420 0 0
    dir_call_calls dir_store_vfs_ok) as [E _].
  - intros [k Hk]. revert Hk. destruct k as [|[|k]]; vm_compute; congruence.
  - vm_compute. constructor.
  - vm_compute. reflexivity.
  - exact E.
Defined.
Lemma sys_write_seek_read_witness :
  (∃ s', sys_write (λ _, mret 0) 0 0x1002 2 file_call = Panic s' ∧ kh_full (fheap (sfs s'))) ∨
  (∃ s', sys_write (λ _, mret 0) 0 0x1002 2 file_call = Done (Ret (- ENOMEM)) s' ∧ kh_full (fheap (sfs s'))) ∨
  ∃ s1 s2 s3 t3, sys_write (λ _, mret 0) 0 0x1002 2 file_call = Done (Ret 2) s1 ∧ sys_lseek 0 5 SEEK_SET s1 = Done 0 s2 ∧
    sys_read (λ _, mret (0, [])) 0 0x2000 2 s2 = Done (Ret 2) s3 ∧ bytes_at (suser s3) 0x2000 [65; 66] ∧
    (∀ b, b < 0x2000 ∨ 0x2000 + 2 ≤ b → suser s3 !! b = caller_memory !! b) ∧
    opened s3 0 addr1 7 O_RDWR caller t3 ∧ ∀ j, j ≠ 0 → zget t3 j = zget caller_table j.
Proof.
  apply (sys_write_seek_read (λ _, mret (0, [])) (λ _, mret 0) file_call 0 addr1 5 O_RDWR caller caller_table
    (mkNode 1 VFS_FILE 0 438 0 0 RamfsOps) (mkRam 0 [] 0 []) 0x1002 0x2000 [65; 66]); try done.
  - split; [done|done|]. by exists 1.
  - apply file_store_ok.
  - intros [|[|i]] v; [intros [= <-]; vm_compute; reflexivity..|done].
  - intros i Hi. assert (i = 0 ∨ i = 1) as [->| ->] by (simpl in Hi; lia); vm_compute; eauto.
Defined.

(** A descriptor of a socket has no node, and [fstat] reads the node without looking: the kernel uses address 0. *)
Lemma fstat_of_socket (t : list FdEntry) fd off fl u : fd_get t fd = Some (Some (mkEntry (Fd.mkFile NoNode off fl) u)) → i32 fd = fd →
  sys_fstat fd 0x2000 (mkCall file_store (Some (caller, Some t)) caller_memory) = Stuck.
Proof.
  intros Hg Hi. unfold sys_fstat, current_table. rewrite kget_bind. cbn [sproc mbind option_bind snd].
  change (negb (user_ptr_valid 0x2000 SIZEOF_VFSSTAT)) with false. cbv iota. rewrite Hi.
  by rewrite (kopt_bind (λ _, fd_get t fd) _ _ _ Hg).
Qed.
