(* ===== verification/Tty.v ===== *)
(** * Terminal input: the line discipline and the keyboard

    [kernel/drivers/tty.c] collects characters into lines, which [tty_read] hands to
    processes through a ring buffer, and [kernel/drivers/keyboard.c] turns scan codes
    into characters, signals and switches of the virtual terminal. *)
From S2P Require Import Prelude PageAlloc Spinlock KHeap Vmm Sched Pipe Fd Process FbConsole Vt.

Definition TTY_BUF_SIZE : Z := 256.
Definition TTY_BUF_MASK : Z := TTY_BUF_SIZE - 1.
Definition TTY_LINE_MAX : Z := 256.
Definition TTY_CTRL_C : Z := 0x03.
Definition TTY_CTRL_Z : Z := 0x1A.
Definition SIGINT : Z := 2.

Record Tty : Type := mkTty {
  read_buf : list Z;
  read_head : Z; read_tail : Z;
  lines_ready : Z;
  line_buf : list Z;
  line_pos : Z;
  tty_fg_pgid : Z;
  tty_output_fn : Z;                 (* 0 is NULL, the serial port *)
  emitted : list (Z * Z);            (* the output function and the character, last first *)
}.
Definition set_ring b h n t := mkTty b h (read_tail t) n (line_buf t) (line_pos t) (tty_fg_pgid t) (tty_output_fn t) (emitted t).
Definition set_tail v t := mkTty (read_buf t) (read_head t) v (lines_ready t) (line_buf t) (line_pos t) (tty_fg_pgid t) (tty_output_fn t) (emitted t).
Definition set_lines v t := mkTty (read_buf t) (read_head t) (read_tail t) v (line_buf t) (line_pos t) (tty_fg_pgid t) (tty_output_fn t) (emitted t).
Definition set_line b p t := mkTty (read_buf t) (read_head t) (read_tail t) (lines_ready t) b p (tty_fg_pgid t) (tty_output_fn t) (emitted t).
Definition set_fg v t := mkTty (read_buf t) (read_head t) (read_tail t) (lines_ready t) (line_buf t) (line_pos t) v (tty_output_fn t) (emitted t).
Definition set_output v t := mkTty (read_buf t) (read_head t) (read_tail t) (lines_ready t) (line_buf t) (line_pos t) (tty_fg_pgid t) v (emitted t).
Definition add_output c t := mkTty (read_buf t) (read_head t) (read_tail t) (lines_ready t) (line_buf t) (line_pos t) (tty_fg_pgid t) (tty_output_fn t)
  ((tty_output_fn t, c) :: emitted t).

(** The kernel with its terminal. *)
Record TtyKern (H P : Type) : Type := mkTk { tkern : Kern H P; tty : Tty }.
Arguments mkTk {H P}.
Arguments tkern {H P}.
Arguments tty {H P}.

Section tty.
Context {H P : Type} `{KHeap H} `{PageAlloc P}.
(** The addresses of [tty_lock] and [tty_read_wq]. *)
Context (tty_lock tty_read_wq : Z).
Implicit Types (s : TtyKern H P).

Definition on_kern {A} (m : K (Kern H P) A) : K (TtyKern H P) A := zoom tkern (λ k s, mkTk k (tty s)) m.
Definition upd_tty (f : Tty → Tty) : K (TtyKern H P) unit := kmod (λ s, mkTk (tkern s) (f (tty s))).

Definition tty_emit (c : Z) : K (TtyKern H P) unit := upd_tty (add_output c).
Definition tty_init : K (TtyKern H P) unit :=
  upd_tty (λ t, mkTty (read_buf t) 0 0 0 (line_buf t) 0 (tty_fg_pgid t) 0 (emitted t)).
Definition tty_set_output (fn : Z) : K (TtyKern H P) unit := upd_tty (set_output fn).

(** [read_buf\[read_head & TTY_BUF_MASK\] = c; read_head++] *)
Definition ring_put (c : Z) : K (TtyKern H P) unit :=
  kupd (λ s, let t := tty s in
    b ← zset (read_buf t) (Z.land (read_head t) TTY_BUF_MASK) c;
    Some (mkTk (tkern s) (set_ring b (u32 (read_head t + 1)) (lines_ready t) t))).

(** Ctrl+C and Ctrl+Z. *)
Definition tty_signal (signo letter : Z) : K (TtyKern H P) unit :=
  g ← kget (λ s, tty_fg_pgid (tty s));
  (if negb (g =? 0) then on_kern (sig_send_group g signo);; mret tt else mret tt);;
  tty_emit 94;; tty_emit letter;; tty_emit 10.

Definition tty_newline : K (TtyKern H P) unit :=
  n ← kget (λ s, line_pos (tty s));
  kfor (seqZ 0 n) (λ i, c ← kopt (λ s, zget (line_buf (tty s)) i); ring_put c);;
  ring_put 10;;
  upd_tty (λ t, set_lines (u32 (lines_ready t + 1)) (set_line (line_buf t) 0 t));;
  on_kern (sch (wq_wake tty_read_wq));;
  tty_emit 10.

Definition tty_input_char (c : Z) : K (TtyKern H P) unit :=
  if c =? TTY_CTRL_C then tty_signal SIGINT 67 else
  if c =? TTY_CTRL_Z then tty_signal SIGTSTP 90 else
  if (c =? 8) || (c =? 127) then
    n ← kget (λ s, line_pos (tty s));
    if 0 <? n then
      upd_tty (λ t, set_line (line_buf t) (n - 1) t);;
      tty_emit 8;; tty_emit 32;; tty_emit 8
    else mret tt
  else if (c =? 10) || (c =? 13) then tty_newline
  else
    n ← kget (λ s, line_pos (tty s));
    if n <? TTY_LINE_MAX - 1 then
      kupd (λ s, l ← zset (line_buf (tty s)) n c; Some (mkTk (tkern s) (set_line l (n + 1) (tty s))));;
      tty_emit c
    else mret tt.

(** The bytes copied to the caller, [count] at most. *)
Fixpoint tty_copy (count : nat) : K (TtyKern H P) (list Z) :=
  match count with
  | O => mret []
  | S count' =>
      t ← kget tty;
      if read_tail t =? read_head t then mret [] else
      c ← kopt (λ s, zget (read_buf (tty s)) (Z.land (read_tail (tty s)) TTY_BUF_MASK));
      upd_tty (λ t, set_tail (u32 (read_tail t + 1)) t);;
      if c =? 10 then mret [c] else
      l ← tty_copy count';
      mret (c :: l)
  end.

(** [wq_sleep(&tty_read_wq, &tty_lock)] *)
Definition tty_sleep : K (TtyKern H P) unit :=
  λ s, on_kern (sch (wq_sleep (cr3_of (tkern s)) tty_read_wq tty_lock)) s.
(** From taking the lock to a result or to sleep; a thread that was asleep makes another pass. *)
Definition tty_read_pass (count : Z) : K (TtyKern H P) (Ran (Z * list Z)) :=
  on_kern (sch (lock_acquire tty_lock));;
  n ← kget (λ s, lines_ready (tty s));
  if n =? 0 then
    tty_sleep;;
    mret Away
  else
  on_kern (sch (lock_release tty_lock));;
  l ← tty_copy (Z.to_nat count);
  (if (0 <? Z.of_nat (length l)) && (default 0 (last l) =? 10)
   then upd_tty (λ t, set_lines (u32 (lines_ready t - 1)) t) else mret tt);;
  mret (Back (i32 (Z.of_nat (length l)), l)).
Definition tty_read (count : Z) : K (TtyKern H P) (Ran (Z * list Z)) :=
  if count =? 0 then mret (Back (0, [])) else
  p ← on_kern proc_current;
  (if negb (p =? 0) then x ← on_kern (proc p); upd_tty (set_fg (pgid x)) else mret tt);;
  tty_read_pass count.

Definition tty_set_fg_pid (n : Z) : K (TtyKern H P) unit := upd_tty (set_fg n).
Definition tty_set_fg_pgid (g : Z) : K (TtyKern H P) unit := upd_tty (set_fg g).

Definition tty_write (buf : list Z) : K (TtyKern H P) Z :=
  kfor buf tty_emit;;
  mret (i32 (Z.of_nat (length buf))).
End tty.

(** ** The keyboard *)

Definition scancode_to_ascii : list Z :=
  [0; 27; 49; 50; 51; 52; 53; 54; 55; 56; 57; 48; 45; 61; 8;
   9; 113; 119; 101; 114; 116; 121; 117; 105; 111; 112; 91; 93; 10;
   0;
   97; 115; 100; 102; 103; 104; 106; 107; 108; 59; 39; 96;
   0;
   92; 122; 120; 99; 118; 98; 110; 109; 44; 46; 47;
   0; 42; 0; 32; 0] ++ replicate 69 0.
Definition scancode_shift : list Z :=
  [0; 27; 33; 64; 35; 36; 37; 94; 38; 42; 40; 41; 95; 43; 8;
   9; 81; 87; 69; 82; 84; 89; 85; 73; 79; 80; 123; 125; 10;
   0;
   65; 83; 68; 70; 71; 72; 74; 75; 76; 58; 34; 126;
   0;
   124; 90; 88; 67; 86; 66; 78; 77; 60; 62; 63;
   0; 42; 0; 32; 0] ++ replicate 69 0.

Definition SC_LSHIFT_PRESS : Z := 0x2A.
Definition SC_RSHIFT_PRESS : Z := 0x36.
Definition SC_LSHIFT_RELEASE : Z := 0xAA.
Definition SC_RSHIFT_RELEASE : Z := 0xB6.
Definition SC_CTRL_PRESS : Z := 0x1D.
Definition SC_CTRL_RELEASE : Z := 0x9D.
Definition SC_ALT_PRESS : Z := 0x38.
Definition SC_ALT_RELEASE : Z := 0xB8.
Definition SC_CAPS_PRESS : Z := 0x3A.
Definition SC_EXTENDED_PREFIX : Z := 0xE0.
Definition SC_RELEASE_BIT : Z := 0x80.
Definition SC_F1 : Z := 0x3B.
Definition SC_F6 : Z := 0x40.

Record Keyboard : Type := mkKb { shift_held : Z; ctrl_held : Z; alt_held : Z; caps_lock : Z }.
(** What a scan code asks for: nothing, another virtual terminal, or a character. *)
Inductive KeyEvent : Type := NoKey | SwitchVt (n : Z) | Key (c : Z).

Definition keyboard_decode (k : Keyboard) (scancode : Z) : option (Keyboard * KeyEvent) :=
  if scancode =? SC_EXTENDED_PREFIX then Some (k, NoKey) else
  if (scancode =? SC_LSHIFT_PRESS) || (scancode =? SC_RSHIFT_PRESS) then Some (mkKb 1 (ctrl_held k) (alt_held k) (caps_lock k), NoKey) else
  if (scancode =? SC_LSHIFT_RELEASE) || (scancode =? SC_RSHIFT_RELEASE) then Some (mkKb 0 (ctrl_held k) (alt_held k) (caps_lock k), NoKey) else
  if scancode =? SC_CTRL_PRESS then Some (mkKb (shift_held k) 1 (alt_held k) (caps_lock k), NoKey) else
  if scancode =? SC_CTRL_RELEASE then Some (mkKb (shift_held k) 0 (alt_held k) (caps_lock k), NoKey) else
  if scancode =? SC_ALT_PRESS then Some (mkKb (shift_held k) (ctrl_held k) 1 (caps_lock k), NoKey) else
  if scancode =? SC_ALT_RELEASE then Some (mkKb (shift_held k) (ctrl_held k) 0 (caps_lock k), NoKey) else
  if scancode =? SC_CAPS_PRESS then Some (mkKb (shift_held k) (ctrl_held k) (alt_held k) (if caps_lock k =? 0 then 1 else 0), NoKey) else
  if negb (Z.land scancode SC_RELEASE_BIT =? 0) then Some (k, NoKey) else
  if negb (alt_held k =? 0) && (SC_F1 <=? scancode) && (scancode <=? SC_F6) then Some (k, SwitchVt (scancode - SC_F1)) else
  let shifted := Z.lxor (shift_held k) (caps_lock k) in
  c ← zget (if negb (shifted =? 0) then scancode_shift else scancode_to_ascii) scancode;
  let c := if negb (ctrl_held k =? 0) && (97 <=? c) && (c <=? 122) then c - 97 + 1 else c in
  Some (k, if negb (c =? 0) then Key c else NoKey).

(** The keyboard with the terminals it drives. *)
Record Input (H P : Type) : Type := mkInput { kb : Keyboard; terminals : Vts H; itty : TtyKern H P }.
Arguments mkInput {H P}.
Arguments kb {H P}.
Arguments terminals {H P}.
Arguments itty {H P}.

Section keyboard.
Context {H P : Type} `{KHeap H} `{PageAlloc P}.
Context (tty_read_wq : Z).

(** The interrupt handler, for the scan code that [inb] reads. *)
Definition keyboard_irq_handler (scancode : Z) : K (Input H P) unit :=
  r ← kopt (λ s, keyboard_decode (kb s) scancode);
  kmod (λ s, mkInput r.1 (terminals s) (itty s));;
  match r.2 with
  | NoKey => mret tt
  | SwitchVt n => zoom terminals (λ t s, mkInput (kb s) t (itty s)) (vt_switch n)
  | Key c => zoom itty (λ t s, mkInput (kb s) (terminals s) t) (tty_input_char tty_read_wq c)
  end.
Definition keyboard_init : K (Input H P) unit := kmod (λ s, mkInput (mkKb 0 0 0 0) (terminals s) (itty s)).
End keyboard.
