(* ===== verification/TtyCorrect.v ===== *)
(** * Terminal input: correctness

    The line discipline of [kernel/drivers/tty.c] refines a line editor: a line being
    typed, the queue of finished lines and the echo. Typing a line makes it readable and
    wakes the first sleeping reader; reading returns the oldest line; Ctrl+C signals the
    foreground group and no other process. *)
From S2P Require Import Prelude PageAlloc Spinlock Pmm Kmalloc KHeap Vmm Sched SchedCorrect WaitQueueCorrect Pipe Fd Process ProcessCorrect ProcessWait ProcessTheorems FbConsole Vt VtCorrect Tty.

(** ** The editor *)

Record Editor : Type := mkEd { ed_line : list Z; ed_queue : list Z; ed_echo : list Z }.
Definition is_erase (c : Z) : bool := (c =? 8) || (c =? 127).
Definition is_newline (c : Z) : bool := (c =? 10) || (c =? 13).
Definition edit (c : Z) (e : Editor) : Editor :=
  if is_erase c then
    match ed_line e with
    | [] => e
    | l => mkEd (take (length l - 1) l) (ed_queue e) (ed_echo e ++ [8; 32; 8])
    end
  else if is_newline c then mkEd [] (ed_queue e ++ ed_line e ++ [10]) (ed_echo e ++ [10])
  else if bool_decide (length (ed_line e) < 255)%nat then mkEd (ed_line e ++ [c]) (ed_queue e) (ed_echo e ++ [c])
  else e.
(** A character that sends no signal. *)
Definition plain (c : Z) : Prop := c ≠ TTY_CTRL_C ∧ c ≠ TTY_CTRL_Z.
(** There is room for the finished line. *)
Definition room (c : Z) (e : Editor) : Prop :=
  is_newline c = true → is_erase c = false → (length (ed_queue e) + length (ed_line e) < 256)%nat.

Definition newlines (q : list Z) : nat := length (filter (λ c, c = 10) q).
(** The ring holds the queue [q]. *)
Definition ring (t : Tty) (q : list Z) : Prop :=
  length (read_buf t) = 256%nat ∧ 0 ≤ read_tail t < 2 ^ 32 ∧ (length q ≤ 256)%nat ∧
  read_head t = u32 (read_tail t + Z.of_nat (length q)) ∧
  ∀ i c, q !! i = Some c → zget (read_buf t) ((read_tail t + Z.of_nat i) mod 256) = Some c.
(** The terminal is at the editor state [e]; [before] is what it had written earlier. *)
Definition holds (before : list (Z * Z)) (t : Tty) (e : Editor) : Prop :=
  ring t (ed_queue e) ∧ lines_ready t = Z.of_nat (newlines (ed_queue e)) ∧
  length (line_buf t) = 256%nat ∧ line_pos t = Z.of_nat (length (ed_line e)) ∧
  (length (ed_line e) ≤ 255)%nat ∧ take (length (ed_line e)) (line_buf t) = ed_line e ∧ 10 ∉ ed_line e ∧
  emitted t = reverse (pair (tty_output_fn t) <$> ed_echo e) ++ before.

(** What [tty_read] of [count] bytes takes off the queue. *)
Fixpoint first_line (count : nat) (q : list Z) : list Z :=
  match count, q with
  | S count', c :: q' => if c =? 10 then [c] else c :: first_line count' q'
  | _, _ => []
  end.

Lemma mask_mod x : Z.land x TTY_BUF_MASK = x mod 256.
Proof. change TTY_BUF_MASK with (Z.ones 8). by rewrite Z.land_ones by lia. Qed.
Lemma u32_mod256 x : u32 x mod 256 = x mod 256.
Proof. unfold u32. apply Z.mod_mod_divide. by exists (2 ^ 24). Qed.
Lemma newlines_app q1 q2 : newlines (q1 ++ q2) = (newlines q1 + newlines q2)%nat.
Proof. unfold newlines. by rewrite filter_app, length_app. Qed.
Lemma newlines_none l : 10 ∉ l → newlines l = 0%nat.
Proof.
  unfold newlines. induction l as [|c l IH]; [done|]. intros [Hc Hl]%not_elem_of_cons.
  rewrite filter_cons_False by done. by apply IH.
Qed.
Lemma newlines_le q : (newlines q ≤ length q)%nat.
Proof. apply length_filter. Qed.

(** Two places of the queue are different cells of the ring. *)
Lemma ring_apart a i j : 0 ≤ i < 256 → 0 ≤ j < 256 → (a + i) mod 256 = (a + j) mod 256 → i = j.
Proof.
  intros ? ? E.
  pose proof (Z.div_mod (a + i) 256 ltac:(lia)). pose proof (Z.div_mod (a + j) 256 ltac:(lia)). lia.
Qed.

Lemma tty_ring_push t q c n : ring t q → (length q < 256)%nat →
  ∃ b, zset (read_buf t) (Z.land (read_head t) TTY_BUF_MASK) c = Some b ∧
    ring (set_ring b (u32 (read_head t + 1)) n t) (q ++ [c]).
Proof.
  intros (Hl & Ht & Hq & Hh & Hg) Hlt.
  assert (Z.land (read_head t) TTY_BUF_MASK = (read_tail t + Z.of_nat (length q)) mod 256) as Ei
    by (by rewrite mask_mod, Hh, u32_mod256).
  pose proof (Z.mod_pos_bound (read_tail t + Z.of_nat (length q)) 256 ltac:(lia)).
  destruct (zset (read_buf t) (Z.land (read_head t) TTY_BUF_MASK) c) as [b|] eqn:Eb.
  2: { rewrite Ei, zset_lt in Eb by lia. done. }
  exists b. split; [done|]. pose proof Eb as [_ ->]%zset_Some. split_and!; cbn.
  - by rewrite length_insert.
  - lia.
  - lia.
  - rewrite length_app. cbn. lia.
  - rewrite length_app, Hh. cbn. unfold u32. rewrite Zplus_mod_idemp_l. f_equal. lia.
  - intros i d [Hd|[Hi Hd]]%lookup_app_Some.
    + rewrite (zget_zset_ne _ _ _ _ _ Eb); [by apply Hg|]. rewrite Ei.
      apply lookup_lt_Some in Hd. intros E%ring_apart; lia.
    + apply list_lookup_singleton_Some in Hd as [Hi0 <-].
      replace ((read_tail t + Z.of_nat i) mod 256) with (Z.land (read_head t) TTY_BUF_MASK); [by eapply zget_zset_eq|].
      rewrite Ei. do 2 f_equal. lia.
Qed.
Lemma tty_ring_pop t c q : ring t (c :: q) →
  read_tail t ≠ read_head t ∧ zget (read_buf t) (Z.land (read_tail t) TTY_BUF_MASK) = Some c ∧
  ring (set_tail (u32 (read_tail t + 1)) t) q.
Proof.
  intros (Hl & Ht & Hq & Hh & Hg). cbn [length] in *. split; [|split; [|split; [done|split; [apply u32_range|split_and!; cbn]]]].
  - rewrite Hh. unfold u32. intros E.
    pose proof (Z.div_mod (read_tail t + Z.of_nat (S (length q))) (2 ^ 32) ltac:(lia)). lia.
  - rewrite mask_mod. specialize (Hg 0%nat c eq_refl). by rewrite Z.add_0_r in Hg.
  - lia.
  - rewrite Hh. unfold u32. rewrite Zplus_mod_idemp_l. f_equal. lia.
  - intros i d Hd. specialize (Hg (S i) d Hd). rewrite <-Hg. f_equal.
    rewrite <-Z.add_mod_idemp_l, u32_mod256, Z.add_mod_idemp_l by lia. f_equal. lia.
Qed.
Lemma tty_ring_empty t : ring t [] → read_tail t = read_head t.
Proof. intros (_ & ? & _ & -> & _). by rewrite Z.add_0_r, u32_small. Qed.

Definition edits (cs : list Z) (e : Editor) : Editor := foldl (λ e c, edit c e) e cs.
(** Characters that neither send a signal nor end the line. *)
Definition text (cs : list Z) : Prop := Forall (λ c, plain c ∧ is_newline c = false) cs.

Lemma edits_queue cs e : text cs → ed_queue (edits cs e) = ed_queue e.
Proof.
  intros Ht. revert e. induction Ht as [|c cs [_ Hn] _ IH]; intros e; [done|]. cbn. unfold edits in IH. rewrite IH.
  unfold edit. rewrite Hn. destruct (is_erase c); [by destruct (ed_line e)|]. by case_bool_decide.
Qed.
Lemma first_line_length count q : (length (first_line count q) ≤ length q)%nat.
Proof. revert q. induction count as [|n IH]; intros [|c q]; cbn; try lia. destruct (c =? 10); cbn; [lia|]. specialize (IH q). lia. Qed.
Lemma first_line_app count q : first_line count q ++ drop (length (first_line count q)) q = q.
Proof. revert q. induction count as [|n IH]; intros [|c q]; cbn; try done. destruct (c =? 10); cbn; [by rewrite drop_0|]. by rewrite IH. Qed.
Lemma first_line_newlines count q :
  Z.of_nat (newlines (first_line count q)) =
    if (0 <? Z.of_nat (length (first_line count q))) && (default 0 (last (first_line count q)) =? 10) then 1 else 0.
Proof.
  revert q. induction count as [|n IH]; intros [|c q]; try done. cbn [first_line]. destruct (Z.eqb_spec c 10) as [->|Hc]; [done|].
  specialize (IH q). unfold newlines. rewrite filter_cons_False by done. fold (newlines (first_line n q)). rewrite IH.
  destruct (first_line n q) as [|d l]; [|done]. cbn -[Z.eqb]. by rewrite (proj2 (Z.eqb_neq _ _) Hc).
Qed.
(** A line that fits is returned whole. *)
Lemma first_line_whole count l q : 10 ∉ l → (length l < count)%nat → first_line count (l ++ 10 :: q) = l ++ [10].
Proof.
  revert count. induction l as [|c l IH]; intros [|count] Hl Hc; cbn in *; try lia; [done|].
  apply not_elem_of_cons in Hl as [Hc10 Hl]. rewrite (proj2 (Z.eqb_neq _ _)) by done. by rewrite IH by (done || lia).
Qed.

(** ** The operations *)

Section tty.
Context {H P : Type} `{KHeap H} `{PageAlloc P}.
Context (tty_lock tty_read_wq : Z).
Implicit Types (s : TtyKern H P) (k : Kern H P).

(** The threads [lw] sleep in [tty_read] and [l] is the run queue. *)
Definition readers k (lw l : list Z) : Prop :=
  waitq (ksched k) tty_read_wq lw ∧ runq (ksched k) l ∧ ∀ a, a ∈ lw → a ∉ l.
(** The parts of the kernel other than the scheduler. *)
Definition same_but_sched k k' : Prop := k' = with_ksched (ksched k') k.
(** Waking the first of the readers: it moves to the end of the run queue and is ready. *)
Definition wakes k k' (lw l : list Z) : Prop :=
  readers k' (drop 1 lw) (l ++ take 1 lw) ∧ same_but_sched k k' ∧
  ∀ x, lw !! 0%nat = Some x → ∃ t, threads (ksched k') !! x = Some t ∧ state t = THREAD_READY.

Lemma on_kern_bind {A B} (m : K (Kern H P) A) (f : A → K (TtyKern H P) B) s a k :
  m (tkern s) = Done a k → (on_kern m ≫= f) s = f a (mkTk k (tty s)).
Proof. intros E. apply bind_Done. unfold on_kern, zoom. by rewrite E. Qed.
Lemma upd_tty_bind {A} f (g : unit → K (TtyKern H P) A) s : (upd_tty f ≫= g) s = g tt (mkTk (tkern s) (f (tty s))).
Proof. done. Qed.

Lemma wake_readers k lw l : readers k lw l → ∃ r k', sch (wq_wake tty_read_wq) k = Done r k' ∧ wakes k k' lw l.
Proof.
  intros (Hw & Hr & Hd). destruct lw as [|x lw].
  - destruct (wq_wake_empty _ _ Hw) as (w & Ew & E). do 2 eexists. split; [by apply sch_Done|].
    split_and!; [|done..]. cbn. rewrite app_nil_r. split_and!; [|done|done].
    destruct Hw as (w' & Ew' & Hl & Hq). eexists. cbn. rewrite lookup_insert_eq. split_and!; [done..|].
    by destruct Hq as (? & ? & ? & ?).
  - destruct (wq_wake_lemma _ _ _ _ _ Hw Hr Hd) as (m & E & Hqr & Hqw & Hev & Hout).
    do 2 eexists. split; [by apply sch_Done|]. split_and!; [|done|].
    + cbn [take drop]. rewrite drop_0. split_and!.
      * eexists. cbn. rewrite lookup_insert_eq. by split_and!.
      * done.
      * destruct Hw as (? & _ & _ & (_ & [Hx _]%NoDup_cons & _)). intros a Ha [Hl|Hl%list_elem_of_singleton]%elem_of_app.
        -- by apply (Hd a); [apply elem_of_cons; right|].
        -- by subst.
    + intros y [= <-]. cbn. destruct Hw as (? & _ & _ & (Hc & _)).
      apply chain_cons in Hc as (_ & (t & Ht & _) & _). destruct (Hev x t Ht) as (n & En). eexists. split; [exact En|].
      cbn. unfold woken. rewrite decide_True; [done|]. by apply list_elem_of_singleton.
Qed.

Lemma holds_emit before t l q o c : holds before t (mkEd l q o) → holds before (add_output c t) (mkEd l q (o ++ [c])).
Proof.
  intros (? & ? & ? & ? & ? & ? & ? & Ho). split_and!; [done..|]. cbn [ed_echo add_output emitted tty_output_fn] in *.
  by rewrite Ho, fmap_app, reverse_app.
Qed.
Lemma holds_line before t l q o b l' : holds before t (mkEd l q o) → length b = 256%nat → (length l' ≤ 255)%nat →
  take (length l') b = l' → 10 ∉ l' → holds before (set_line b (Z.of_nat (length l')) t) (mkEd l' q o).
Proof. intros (? & ? & ? & ? & ? & ? & ? & Ho) ? ? ? ?. by split_and!. Qed.

(** Copying characters into the ring. *)
Lemma ring_put_ok s q c : ring (tty s) q → (length q < 256)%nat →
  ∃ b h, ring_put c s = Done tt (mkTk (tkern s) (set_ring b h (lines_ready (tty s)) (tty s))) ∧
    ring (set_ring b h (lines_ready (tty s)) (tty s)) (q ++ [c]).
Proof.
  intros Hr Hl. destruct (tty_ring_push _ _ c (lines_ready (tty s)) Hr Hl) as (b & Eb & Hr').
  exists b, (u32 (read_head (tty s) + 1)). split; [|done]. unfold ring_put, kupd. by rewrite Eb.
Qed.
Lemma put_line_ok s q l : ring (tty s) q → (length q + length l ≤ 256)%nat →
  take (length l) (line_buf (tty s)) = l →
  ∃ b h, kfor (seqZ 0 (Z.of_nat (length l))) (λ i, c ← kopt (λ s, zget (line_buf (tty s)) i); ring_put c) s =
      Done tt (mkTk (tkern s) (set_ring b h (lines_ready (tty s)) (tty s))) ∧
    ring (set_ring b h (lines_ready (tty s)) (tty s)) (q ++ l).
Proof.
  intros Hr Hl El.
  destruct (kfor_seqZ_ind (λ i s', ∃ b h, s' = mkTk (tkern s) (set_ring b h (lines_ready (tty s)) (tty s)) ∧ ring (tty s') (q ++ take (Z.to_nat i) l))
    (λ i, c ← kopt (λ s, zget (line_buf (tty s)) i); ring_put c) 0 (Z.of_nat (length l)) s) as (s' & E & b & h & -> & Hr').
  - lia.
  - exists (read_buf (tty s)), (read_head (tty s)). cbn. rewrite app_nil_r. by destruct s as [? []].
  - intros i s' Hi (b & h & -> & Hr'). destruct (lookup_lt_is_Some_2 l (Z.to_nat i) ltac:(lia)) as [c Ec].
    assert (zget (line_buf (tty s)) i = Some c) as Eg.
    { rewrite <-(Z2Nat.id i), zget_nat by lia. rewrite <-El, lookup_take_lt in Ec by lia. done. }
    rewrite (kopt_bind (λ s0 : TtyKern H P, zget (line_buf (tty s0)) i) _
      (mkTk (tkern s) (set_ring b h (lines_ready (tty s)) (tty s))) c Eg).
    destruct (ring_put_ok _ _ c Hr') as (b' & h' & E & Hr''); [rewrite length_app, length_take; lia|].
    eexists. split; [exact E|]. exists b', h'. split; [done|].
    rewrite Z2Nat.inj_add, Nat.add_1_r, (take_S_r _ _ c), app_assoc by (done || lia). done.
  - exists b, h. split; [done|]. rewrite Z.add_0_l, Nat2Z.id, firstn_all in Hr'. done.
Qed.

Lemma newline_lemma before s e lw l : holds before (tty s) e → (length (ed_queue e) + length (ed_line e) < 256)%nat →
  readers (tkern s) lw l →
  ∃ s', tty_newline tty_read_wq s = Done tt s' ∧ holds before (tty s') (mkEd [] (ed_queue e ++ ed_line e ++ [10]) (ed_echo e ++ [10])) ∧
    wakes (tkern s) (tkern s') lw l ∧ tty_fg_pgid (tty s') = tty_fg_pgid (tty s).
Proof.
  intros (Hr & Hn & Hlb & Hp & Hl & Ht & H10 & Ho) Hroom Hrd. unfold tty_newline. rewrite kget_bind, Hp.
  destruct (put_line_ok s (ed_queue e) (ed_line e) Hr) as (b & h & E & Hr1); [lia|done|]. kbind E.
  destruct (ring_put_ok (mkTk (tkern s) (set_ring b h (lines_ready (tty s)) (tty s))) _ 10 Hr1) as (b' & h' & E' & Hr2);
    [rewrite length_app; lia|]. kbind E'. rewrite upd_tty_bind.
  destruct (wake_readers _ _ _ Hrd) as (r & k' & Ek & Hw).
  erewrite on_kern_bind by exact Ek. eexists. split; [reflexivity|]. split_and!; [|done..].
  rewrite <-app_assoc in Hr2. pose proof (newlines_le (ed_queue e)).
  apply holds_emit. split_and!; cbn -[newlines u32]; try done; [|lia|set_solver].
  rewrite Hn, u32_small, !newlines_app by lia.
  rewrite (newlines_none (ed_line e)) by done. change (newlines [10]) with 1%nat. lia.
Qed.

(** Dropping the last character, and adding one. *)
Lemma holds_erase before t e : holds before t e → ed_line e ≠ [] →
  holds before (set_line (line_buf t) (line_pos t - 1) t) (mkEd (take (length (ed_line e) - 1) (ed_line e)) (ed_queue e) (ed_echo e)).
Proof.
  intros Hh Hne. destruct e as [el eq eo]. pose proof Hh as (_ & _ & Hlb & Hp & Hl & Ht & H10 & _). cbn in *.
  assert (0 < length el)%nat by (destruct el; [done|cbn; lia]).
  assert (length (take (length el - 1) el) = (length el - 1)%nat) as El by (rewrite length_take; lia).
  replace (line_pos t - 1) with (Z.of_nat (length (take (length el - 1) el))) by lia.
  eapply holds_line; [exact Hh|done|lia|rewrite El|].
  - transitivity (take (length el - 1) (take (length el) (line_buf t))); [|by rewrite Ht].
    rewrite take_take. f_equal. lia.
  - intros (i & Ei & _)%elem_of_take. apply H10, list_elem_of_lookup. by exists i.
Qed.
Lemma holds_append before t e c : holds before t e → (length (ed_line e) < 255)%nat → c ≠ 10 →
  holds before (set_line (<[length (ed_line e) := c]> (line_buf t)) (line_pos t + 1) t) (mkEd (ed_line e ++ [c]) (ed_queue e) (ed_echo e)).
Proof.
  intros Hh Hlt Hc. destruct e as [el eq eo]. pose proof Hh as (_ & _ & Hlb & Hp & Hl & Ht & H10 & _). cbn in *.
  assert (length (el ++ [c]) = S (length el)) as El by (rewrite length_app; cbn; lia).
  replace (line_pos t + 1) with (Z.of_nat (length (el ++ [c]))) by lia.
  eapply holds_line; [exact Hh|by rewrite length_insert|lia|rewrite El|].
  - rewrite (take_S_r _ _ c) by (apply list_lookup_insert_eq; lia). rewrite take_insert_ge by lia. by rewrite Ht.
  - rewrite not_elem_of_app, list_elem_of_singleton. split; [done|congruence].
Qed.

(** One character that sends no signal. *)
Lemma input_char_lemma before s e c lw l :
  plain c → holds before (tty s) e → room c e → readers (tkern s) lw l →
  ∃ s', tty_input_char tty_read_wq c s = Done tt s' ∧ holds before (tty s') (edit c e) ∧
    (if is_newline c then wakes (tkern s) (tkern s') lw l else tkern s' = tkern s) ∧
    tty_fg_pgid (tty s') = tty_fg_pgid (tty s).
Proof.
  intros [Hc Hz] Hh Hroom Hrd. unfold tty_input_char, edit.
  rewrite (proj2 (Z.eqb_neq _ _) Hc), (proj2 (Z.eqb_neq _ _) Hz). fold (is_erase c). fold (is_newline c).
  pose proof Hh as (_ & _ & Hlb & Hp & Hl & _). destruct (is_erase c) eqn:Ee.
  { assert (is_newline c = false) as -> by (unfold is_erase, is_newline in *; lia). rewrite kget_bind.
    destruct (decide (ed_line e = [])) as [El|El].
    { rewrite Hp, El. by exists s. }
    destruct (Z.ltb_spec 0 (line_pos (tty s))); [|destruct (ed_line e); [done|cbn in *; lia]].
    rewrite upd_tty_bind. eexists. split; [reflexivity|]. split_and!; [|done..].
    pose proof (holds_erase _ _ _ Hh El) as He. destruct (ed_line e); [done|].
    change [8; 32; 8] with ([8] ++ [32] ++ [8]). rewrite !app_assoc. by do 3 apply holds_emit. }
  destruct (is_newline c) eqn:En; [by apply newline_lemma; [|apply Hroom|]|].
  rewrite kget_bind. unfold TTY_LINE_MAX. destruct (Z.ltb_spec (line_pos (tty s)) (256 - 1)).
  2: { rewrite bool_decide_eq_false_2 by lia. by exists s. }
  rewrite bool_decide_eq_true_2 by lia.
  assert (c ≠ 10) as Hn by (unfold is_newline in En; lia).
  rewrite (bind_Done _ _ _ tt (mkTk (tkern s) (set_line (<[length (ed_line e) := c]> (line_buf (tty s))) (line_pos (tty s) + 1) (tty s)))).
  - eexists. split; [reflexivity|]. split_and!; [|done..]. apply holds_emit, holds_append; [done|lia|done].
  - unfold kupd. by rewrite zset_lt, Hp, Nat2Z.id by lia.
Qed.

(** A run of characters that end no line. *)
Lemma type_text before s e cs lw l : text cs → holds before (tty s) e → readers (tkern s) lw l →
  ∃ s', kfor cs (tty_input_char tty_read_wq) s = Done tt s' ∧ holds before (tty s') (edits cs e) ∧
    tkern s' = tkern s ∧ tty_fg_pgid (tty s') = tty_fg_pgid (tty s).
Proof.
  revert s e. induction cs as [|c cs IH]; intros s e Ht Hh Hr; [by exists s|].
  apply Forall_cons in Ht as [[Hp Hn] Ht].
  destruct (input_char_lemma before s e c lw l Hp Hh) as (s1 & E & Hh1 & Hk & Hf); [by unfold room; rewrite Hn|done|].
  rewrite Hn in Hk. destruct (IH s1 _ Ht Hh1) as (s2 & E2 & Hh2 & Hk2 & Hf2); [by rewrite Hk|].
  exists s2. cbn [kfor]. kbind E. split_and!; [done|done|congruence|congruence].
Qed.
Lemma type_line before s e cs lw l : text cs → holds before (tty s) e → readers (tkern s) lw l →
  (length (ed_queue e) + length (ed_line (edits cs e)) < 256)%nat →
  ∃ s', kfor (cs ++ [10]) (tty_input_char tty_read_wq) s = Done tt s' ∧ holds before (tty s') (edit 10 (edits cs e)) ∧
    wakes (tkern s) (tkern s') lw l.
Proof.
  intros Ht Hh Hr Hroom. destruct (type_text _ _ _ _ _ _ Ht Hh Hr) as (s1 & E & Hh1 & Hk & _).
  pose proof (edits_queue _ e Ht) as Eq.
  destruct (input_char_lemma before s1 (edits cs e) 10 lw l) as (s2 & E2 & Hh2 & Hw & _); [done|done|by intros _ _; rewrite Eq|by rewrite Hk|].
  exists s2. rewrite kfor_app. kbind E. cbn [kfor]. kbind E2. split_and!; [done..|]. by rewrite <-Hk.
Qed.

(** Reading from the ring. *)
Lemma copy_ok count s q : ring (tty s) q →
  ∃ v, tty_copy count s = Done (first_line count q) (mkTk (tkern s) (set_tail v (tty s))) ∧
    ring (set_tail v (tty s)) (drop (length (first_line count q)) q).
Proof.
  revert s q. induction count as [|n IH]; intros s q Hr.
  { exists (read_tail (tty s)). destruct s as [k []]. done. }
  cbn [tty_copy]. rewrite kget_bind. destruct q as [|c q].
  { rewrite (proj2 (Z.eqb_eq _ _) (tty_ring_empty _ Hr)). exists (read_tail (tty s)). by destruct s as [k []]. }
  destruct (tty_ring_pop _ _ _ Hr) as (Hne & Eg & Hr'). rewrite (proj2 (Z.eqb_neq _ _) Hne).
  rewrite (kopt_bind (λ s0 : TtyKern H P, zget (read_buf (tty s0)) (Z.land (read_tail (tty s0)) TTY_BUF_MASK)) _ s c Eg).
  rewrite upd_tty_bind. cbn [first_line]. destruct (c =? 10); [by eexists|].
  destruct (IH (mkTk (tkern s) (set_tail (u32 (read_tail (tty s) + 1)) (tty s))) q Hr') as (v & E & Hr2). exists v. by kbind E.
Qed.

(** The lock [tty_lock] is free. *)
Definition lock_free k : Prop := ∃ w, locks (ksched k) !! tty_lock = Some w ∧ locked w = 0.

Lemma lock_steps k : lock_free k → ∃ k1 k2,
  sch (lock_acquire tty_lock) k = Done tt k1 ∧ sch (lock_release tty_lock) k1 = Done tt k2 ∧ same_but_sched k k2.
Proof.
  intros (w & Ew & Hw). do 2 eexists. split_and!.
  - apply sch_Done. unfold lock_acquire, kupd. rewrite Ew. cbn. by rewrite spinlock_acquire_free.
  - apply sch_Done. unfold lock_release, kupd. cbn. by rewrite lookup_insert_eq.
  - done.
Qed.
Lemma pass_lemma before s e count : lock_free (tkern s) → holds before (tty s) e → (0 < newlines (ed_queue e))%nat → 0 < count →
  let r := first_line (Z.to_nat count) (ed_queue e) in
  ∃ s', tty_read_pass tty_lock tty_read_wq count s = Done (Back (Z.of_nat (length r), r)) s' ∧
    holds before (tty s') (mkEd (ed_line e) (drop (length r) (ed_queue e)) (ed_echo e)) ∧
    tty_fg_pgid (tty s') = tty_fg_pgid (tty s) ∧ same_but_sched (tkern s) (tkern s').
Proof.
  intros Hf Hh Hn Hc r. pose proof Hh as (Hr & Hl & Hlb & Hp & Hl5 & Ht & H10 & Ho). pose proof Hr as (_ & _ & Hq & _).
  destruct (lock_steps _ Hf) as (k1 & k2 & E1 & E2 & Hk). unfold tty_read_pass.
  rewrite (on_kern_bind _ _ _ _ _ E1), kget_bind. cbn [tty]. rewrite Hl, (proj2 (Z.eqb_neq _ 0)) by lia.
  rewrite (on_kern_bind _ _ (mkTk k1 (tty s)) _ _ E2).
  destruct (copy_ok (Z.to_nat count) (mkTk k2 (tty s)) _ Hr) as (v & E & Hr'). kbind E. fold r in Hr', E |- *.
  assert (newlines (ed_queue e) = (newlines r + newlines (drop (length r) (ed_queue e)))%nat) as Hsum
    by (by rewrite <-newlines_app; unfold r; rewrite first_line_app).
  pose proof (first_line_newlines (Z.to_nat count) (ed_queue e)) as Hnl. fold r in Hnl.
  pose proof (newlines_le (ed_queue e)). pose proof (first_line_length (Z.to_nat count) (ed_queue e)) as Hlen. fold r in Hlen.
  rewrite i32_small by lia.
  destruct ((0 <? Z.of_nat (length r)) && (default 0 (last r) =? 10)).
  - rewrite upd_tty_bind. eexists. split; [reflexivity|]. split; [|done]. split_and!; try done. cbn -[newlines u32]. rewrite Hl, u32_small by lia. lia.
  - eexists. split; [reflexivity|]. split; [|done]. split_and!; try done. cbn -[newlines]. lia.
Qed.
Lemma read_lemma before s e p x count : running (tkern s) p x → lock_free (tkern s) → holds before (tty s) e →
  (0 < newlines (ed_queue e))%nat → 0 < count →
  let r := first_line (Z.to_nat count) (ed_queue e) in
  ∃ s', tty_read tty_lock tty_read_wq count s = Done (Back (Z.of_nat (length r), r)) s' ∧
    holds before (tty s') (mkEd (ed_line e) (drop (length r) (ed_queue e)) (ed_echo e)) ∧
    tty_fg_pgid (tty s') = pgid x ∧ same_but_sched (tkern s) (tkern s').
Proof.
  intros Hrun Hf Hh Hn Hc r. destruct (running_proc _ _ _ Hrun) as [Hp0 Ep].
  unfold tty_read. rewrite (proj2 (Z.eqb_neq count 0)) by lia.
  rewrite (on_kern_bind _ _ _ _ _ (running_current _ _ _ Hrun)), (proj2 (Z.eqb_neq _ _) Hp0). cbn [negb].
  assert (proc p (tkern s) = Done x (tkern s)) as Epr by (unfold proc, kopt; by rewrite Ep).
  rewrite bind_assoc, (on_kern_bind _ _ (mkTk (tkern s) (tty s)) _ _ Epr), upd_tty_bind.
  apply (pass_lemma before (mkTk (tkern s) (set_fg (pgid x) (tty s))) e count Hf Hh Hn Hc).
Qed.

(** ** Signals from the keyboard *)

(** What a signal to group [g] makes of the process [x] at [a]; [l] is the list of processes. *)
Definition signalled (g signo : Z) (l : list Z) (a : Z) (x : Process) : Process :=
  if bool_decide (a ∈ l) && negb (pstate x =? PROC_TERMINATED) && (pgid x =? g) then set_sig (raise signo (sig x)) x else x.

Lemma signalled_cons g signo b l a x : a ≠ b → signalled g signo (b :: l) a x = signalled g signo l a x.
Proof.
  intros Hab. unfold signalled. rewrite (bool_decide_ext (a ∈ b :: l) (a ∈ l)); [done|].
  rewrite elem_of_cons. naive_solver.
Qed.
Lemma group_cb_ok g signo k b x n : signo ≠ SIGCONT → procs k !! b = Some x →
  ∃ n', sig_group_cb g signo b n k =
    Done n' (with_procs (<[b := if pgid x =? g then set_sig (raise signo (sig x)) x else x]> (procs k)) k).
Proof.
  intros Hs Ex. unfold sig_group_cb. erewrite proc_bind by exact Ex. destruct (pgid x =? g).
  - unfold post. rewrite bind_assoc. erewrite upd_proc_bind by exact Ex. rewrite bind_assoc.
    erewrite proc_bind by (cbn; apply lookup_insert_eq). rewrite (proj2 (Z.eqb_neq _ _) Hs). by eexists.
  - eexists. rewrite insert_id by done. by destruct k.
Qed.
Lemma foreach_group_ok g signo l : signo ≠ SIGCONT → NoDup l → ∀ k a n count fuel,
  proc_chain (procs k) a l → (length l ≤ fuel)%nat →
  ∃ r m, foreach_loop fuel (sig_group_cb g signo) a n count k = Done r (with_procs m k) ∧
    ∀ b, m !! b = signalled g signo l b <$> procs k !! b.
Proof.
  intros Hs. induction 1 as [|b l Hb Hnd IH]; intros k a n count fuel Hc Hf.
  { cbn in Hc. subst. exists (count, n), (procs k). split; [destruct fuel, k; done|]. intros c.
    destruct (procs k !! c); [|done]. cbn. by unfold signalled. }
  destruct Hc as (-> & Hb0 & x & Ex & Hc). destruct fuel as [|fuel]; [cbn in Hf; lia|]. cbn [foreach_loop length] in *.
  rewrite (proj2 (Z.eqb_neq _ _) Hb0). erewrite proc_bind by exact Ex. destruct (Z.eqb_spec (pstate x) PROC_TERMINATED) as [Et|Et]; cbn [negb].
  - destruct (IH k (pnext x) n count fuel Hc) as (r & m & E & Hm); [lia|]. exists r, m. split; [done|].
    intros c. rewrite Hm. destruct (decide (c = b)) as [->|Hcb].
    + rewrite Ex. cbn. f_equal. unfold signalled. rewrite Et. by rewrite !andb_false_r.
    + destruct (procs k !! c); [|done]. cbn. by rewrite signalled_cons.
  - destruct (group_cb_ok g signo k b x n Hs Ex) as (n' & E). kbind E.
    set (y := if pgid x =? g then set_sig (raise signo (sig x)) x else x) in *.
    assert (pnext y = pnext x) as Ey by (unfold y; by destruct (pgid x =? g)).
    erewrite proc_bind by (cbn; apply lookup_insert_eq). rewrite Ey.
    destruct (IH (with_procs (<[b := y]> (procs k)) k) (pnext x) n' (i32 (count + 1)) fuel) as (r & m & E2 & Hm); [|lia|].
    { by eapply proc_chain_upd. }
    exists r, m. split; [done|]. intros c. rewrite Hm. cbn [procs with_procs]. destruct (decide (c = b)) as [->|Hcb].
    + rewrite lookup_insert_eq, Ex. cbn. f_equal. unfold signalled. rewrite bool_decide_eq_false_2 by done.
      rewrite bool_decide_eq_true_2 by set_solver. cbn [andb]. by rewrite (proj2 (Z.eqb_neq _ _) Et).
    + rewrite lookup_insert_ne by done. destruct (procs k !! c); [|done]. cbn. by rewrite signalled_cons.
Qed.
Lemma send_group_ok g signo k l : 1 ≤ signo < NSIG → signo ≠ SIGCONT → plist k l →
  ∃ r m, sig_send_group g signo k = Done r (with_procs m k) ∧ ∀ b, m !! b = signalled g signo l b <$> procs k !! b.
Proof.
  intros Hr Hs [Hc Hn]. unfold sig_send_group.
  rewrite (proj2 (Z.ltb_ge _ _)), (proj2 (Z.leb_gt _ _)) by lia. cbn [orb].
  unfold proc_foreach. rewrite bind_assoc, kget_bind, bind_assoc, kget_bind.
  destruct (foreach_group_ok g signo l Hs Hn k (proc_list k) 0 0 (size (procs k)) Hc) as (r & m & E & Hm); [by eapply proc_chain_length|].
  do 2 eexists. kbind E. split; [reflexivity|done].
Qed.
Lemma tty_signal_ok signo letter s l : 1 ≤ signo < NSIG → signo ≠ SIGCONT → tty_fg_pgid (tty s) ≠ 0 → plist (tkern s) l →
  ∃ m, tty_signal signo letter s =
      Done tt (mkTk (with_procs m (tkern s)) (add_output 10 (add_output letter (add_output 94 (tty s))))) ∧
    ∀ b, m !! b = signalled (tty_fg_pgid (tty s)) signo l b <$> procs (tkern s) !! b.
Proof.
  intros Hr Hs Hg Hp. destruct (send_group_ok (tty_fg_pgid (tty s)) _ _ _ Hr Hs Hp) as (r & m & E & Hm).
  exists m. split; [|done]. unfold tty_signal. rewrite kget_bind, (proj2 (Z.eqb_neq _ _) Hg). cbn [negb].
  by rewrite bind_assoc, (on_kern_bind _ _ _ _ _ E).
Qed.
End tty.

(** ** The keyboard *)

Definition modifier (v : Z) : Prop := v = 0 ∨ v = 1.
Definition keyboard_ok (k : Keyboard) : Prop :=
  modifier (shift_held k) ∧ modifier (ctrl_held k) ∧ modifier (alt_held k) ∧ modifier (caps_lock k).
Definition event_ok (e : KeyEvent) : Prop :=
  match e with NoKey => True | SwitchVt n => 0 ≤ n < VT_COUNT | Key c => 0 < c < 128 end.
Definition decoded_ok (o : option (Keyboard * KeyEvent)) : Prop :=
  match o with Some (k, e) => keyboard_ok k ∧ event_ok e | None => False end.
#[export] Instance modifier_dec v : Decision (modifier v).
Proof. unfold modifier. apply _. Defined.
#[export] Instance keyboard_ok_dec k : Decision (keyboard_ok k).
Proof. unfold keyboard_ok. apply _. Defined.
#[export] Instance event_ok_dec e : Decision (event_ok e).
Proof. destruct e; apply _. Defined.
#[export] Instance decoded_ok_dec o : Decision (decoded_ok o).
Proof. destruct o as [[]|]; apply _. Defined.

Definition bits : list Z := [0; 1].
Lemma modifier_bits v : modifier v → v ∈ bits.
Proof. intros [->| ->]; set_solver. Qed.
(** Every scan code with every state of the modifiers. *)
Lemma decode_all :
  Forall (λ sh, Forall (λ ct, Forall (λ al, Forall (λ ca, Forall (λ c, decoded_ok (keyboard_decode (mkKb sh ct al ca) c))
    (seqZ 0 256)) bits) bits) bits) bits.
Proof. refine (bool_decide_unpack _ _). vm_compute. exact I. Qed.

(** The keyboard driver reads its tables within bounds for every scan code: the
    modifiers stay 0 or 1, a character is 7-bit ASCII, and a terminal number is below
    [VT_COUNT]. *)
Theorem keyboard_decode_typed k c : keyboard_ok k → 0 ≤ c < 256 → decoded_ok (keyboard_decode k c).
Proof.
  destruct k as [sh ct al ca]. intros (Hs & Hc & Ha & Hl) Hr. cbn in *. pose proof decode_all as Hd.
  rewrite Forall_forall in Hd. specialize (Hd sh (modifier_bits _ Hs)).
  rewrite Forall_forall in Hd. specialize (Hd ct (modifier_bits _ Hc)).
  rewrite Forall_forall in Hd. specialize (Hd al (modifier_bits _ Ha)).
  rewrite Forall_forall in Hd. specialize (Hd ca (modifier_bits _ Hl)).
  rewrite Forall_forall in Hd. apply Hd, elem_of_seqZ. lia.
Qed.
Lemma keyboard_decode_typed_witness : decoded_ok (keyboard_decode (mkKb 0 1 0 0) 0x2E).
Proof. apply keyboard_decode_typed; [by split_and!; (left + right)|lia]. Defined.

Section theorems.
Context {H P : Type} `{KHeap H} `{PageAlloc P}.
Context (tty_lock tty_read_wq : Z).

(** A character that sends no signal moves the terminal from an editor state to the
    next one: the line buffer, the ring of finished lines, the number of lines and the
    echo are those of [edit]. Only the end of a line touches the rest of the kernel: it
    makes the first thread asleep in [tty_read] runnable. *)
Theorem tty_input_correct before (s : TtyKern H P) e c lw l :
  plain c → holds before (tty s) e → room c e → readers tty_read_wq (tkern s) lw l →
  ∃ s', tty_input_char tty_read_wq c s = Done tt s' ∧ holds before (tty s') (edit c e) ∧
    (if is_newline c then wakes tty_read_wq (tkern s) (tkern s') lw l else tkern s' = tkern s).
Proof. intros Hp Hh Hr Hrd. destruct (input_char_lemma _ _ _ _ _ _ _ Hp Hh Hr Hrd) as (s' & E & ? & ? & _). by exists s'. Qed.

(** C17. A typed line can be read back. Typing [cs] (with its corrections) and a newline
    into a terminal with no unread line wakes the first sleeping reader. Whatever the
    kernel does before that process runs, its [tty_read] returns the edited line with
    its newline when the buffer is large enough, leaves no unread input and makes the
    group of the reader the foreground group. *)
Theorem tty_line_round_trip before (s : TtyKern H P) cs o lw l :
  text cs → holds before (tty s) (mkEd [] [] o) → readers tty_read_wq (tkern s) lw l →
  let line := ed_line (edits cs (mkEd [] [] o)) in
  ∃ s', kfor (cs ++ [10]) (tty_input_char tty_read_wq) s = Done tt s' ∧ wakes tty_read_wq (tkern s) (tkern s') lw l ∧
    ∀ (k : Kern H P) p x count, running k p x → lock_free tty_lock k → Z.of_nat (length line) < count →
      ∃ s2 : TtyKern H P, tty_read tty_lock tty_read_wq count (mkTk k (tty s')) = Done (Back (Z.of_nat (length line) + 1, line ++ [10])) s2 ∧
        read_tail (tty s2) = read_head (tty s2) ∧ lines_ready (tty s2) = 0 ∧ tty_fg_pgid (tty s2) = pgid x.
Proof.
  intros Ht Hh Hr line.
  destruct (type_text tty_read_wq _ _ _ _ _ _ Ht Hh Hr) as (s1 & _ & (_ & _ & _ & _ & Hlen & _ & H10 & _) & _).
  destruct (type_line tty_read_wq _ _ _ _ _ _ Ht Hh Hr) as (s' & E & Hh' & Hw); [cbn; fold line; unfold line in *; lia|].
  exists s'. split_and!; [done..|]. intros k p x count Hrun Hf Hc.
  set (e := edit 10 (edits cs (mkEd [] [] o))) in *.
  assert (ed_queue e = line ++ [10]) as Eq by (unfold e; cbn; by rewrite edits_queue).
  assert (first_line (Z.to_nat count) (ed_queue e) = line ++ [10]) as Efl by (rewrite Eq; apply first_line_whole; [done|lia]).
  destruct (read_lemma tty_lock tty_read_wq before (mkTk k (tty s')) e p x count) as (s2 & E2 & (Hr2 & Hl2 & _) & Hg & _);
    [done|done|done|rewrite Eq, newlines_app; change (newlines [10]) with 1%nat; lia|lia|].
  rewrite Efl in E2, Hr2, Hl2. cbn [ed_queue] in *. rewrite Eq, drop_all in Hr2, Hl2.
  exists s2. rewrite length_app, Nat2Z.inj_add in E2. split_and!; [exact E2|by apply tty_ring_empty|done|done].
Qed.

(** C34. Pressing C with Ctrl held, while Shift and Caps Lock are both off or both on and there is a foreground group, makes SIGINT
    pending in exactly the processes of that group that have not terminated,
    echoes ^C with a new line and changes nothing else: the line being typed and the modifiers stay. *)
Theorem ctrl_c_interrupts_group (s : Input H P) l :
  ctrl_held (kb s) ≠ 0 → shift_held (kb s) = caps_lock (kb s) → tty_fg_pgid (tty (itty s)) ≠ 0 → plist (tkern (itty s)) l →
  ∃ m, keyboard_irq_handler tty_read_wq 0x2E s =
      Done tt (mkInput (kb s) (terminals s) (mkTk (with_procs m (tkern (itty s))) (add_output 10 (add_output 67 (add_output 94 (tty (itty s))))))) ∧
    ∀ a, m !! a = signalled (tty_fg_pgid (tty (itty s))) SIGINT l a <$> procs (tkern (itty s)) !! a.
Proof.
  intros Hc Hs Hg Hp.
  destruct (tty_signal_ok SIGINT 67 (itty s) l ltac:(done) ltac:(done) Hg Hp) as (m & E & Hm). exists m. split; [|done].
  assert (keyboard_decode (kb s) 0x2E = Some (kb s, Key TTY_CTRL_C)) as Ed.
  { unfold keyboard_decode. rewrite Hs, Z.lxor_nilpotent, (proj2 (Z.eqb_neq _ _) Hc). cbn -[zget scancode_to_ascii].
    by rewrite andb_false_r. }
  unfold keyboard_irq_handler. rewrite (kopt_bind (λ s0 : Input H P, keyboard_decode (kb s0) 0x2E) _ s _ Ed).
  change (tty_signal SIGINT 67 (itty s)) with (tty_input_char tty_read_wq TTY_CTRL_C (itty s)) in E.
  rewrite kmod_bind. cbn [fst snd]. unfold zoom. cbn [itty]. by rewrite E.
Qed.
End theorems.

(** ** Witnesses *)

Definition tty_example (fg : Z) : Tty := mkTty (replicate 256 0) 0 0 0 (replicate 256 0) 0 fg 0 [].
(** Thread 100 sleeps in [tty_read]; afterwards it runs, for process 1000. *)
Definition reader_sleeps : TtyKern (Heap Z) Pmm :=
  mkTk (kernel_example 200 THREAD_BLOCKED {[ 3000 := mkWq SPINLOCK_INIT 100 100 ]} PROC_ALIVE 0) (tty_example 5).
Definition reader_runs : Kern (Heap Z) Pmm :=
  kernel_example 100 THREAD_RUNNING {[ 3000 := mkWq SPINLOCK_INIT 0 0 ]} PROC_ALIVE 0.

Lemma example_holds fg : holds [] (tty_example fg) (mkEd [] [] []).
Proof. split_and!; try done; [|cbn; lia|set_solver]. split_and!; try done. cbn. lia. Qed.
Lemma example_readers : readers 3000 (tkern reader_sleeps) [100] [].
Proof.
  split_and!.
  - eexists. split_and!; [done..|]. split_and!; [|by apply NoDup_singleton|done..].
    apply chain_cons. split_and!; [done|by eexists|]. by intros i a Hi.
  - split_and!; [by intros i a Hi|constructor|done..].
  - set_solver.
Qed.
Lemma example_running : running reader_runs 1000 (proc_example 5 PROC_ALIVE 100 0 0 0 handlers_example).
Proof. eexists. by split_and!. Qed.
Lemma example_lock : lock_free 16 reader_runs.
Proof. eexists. by split. Qed.

Lemma tty_input_correct_witness :
  ∃ s', tty_input_char 3000 10 reader_sleeps = Done tt s' ∧ holds [] (tty s') (mkEd [] [10] [10]) ∧
    wakes 3000 (tkern reader_sleeps) (tkern s') [100] [].
Proof.
  apply (tty_input_correct 3000 [] reader_sleeps (mkEd [] [] []) 10 [100] []);
    [by split|apply example_holds|by intros _ _; cbn; lia|apply example_readers].
Defined.

(** "hi", a backspace and "o" are read as "ho". *)
Lemma tty_line_round_trip_witness :
  ∃ s', kfor [104; 105; 8; 111; 10] (tty_input_char 3000) reader_sleeps = Done tt s' ∧
    ∃ s2, tty_read 16 3000 80 (mkTk reader_runs (tty s')) = Done (Back (3, [104; 111; 10])) s2 ∧ tty_fg_pgid (tty s2) = 5.
Proof.
  destruct (tty_line_round_trip 16 3000 [] reader_sleeps [104; 105; 8; 111] [] [100] []) as (s' & E & _ & Hread);
    [by repeat constructor|apply example_holds|apply example_readers|].
  exists s'. split; [exact E|].
  destruct (Hread reader_runs 1000 _ 80 example_running example_lock ltac:(vm_compute; done)) as (s2 & E2 & _ & _ & Hg).
  exists s2. split; [exact E2|exact Hg].
Defined.

Lemma ctrl_c_interrupts_group_witness :
  ∃ m, keyboard_irq_handler 3000 0x2E (mkInput (mkKb 0 1 0 0) (vts_example cell_blank) reader_sleeps) =
      Done tt (mkInput (mkKb 0 1 0 0) (vts_example cell_blank)
        (mkTk (with_procs m (tkern reader_sleeps)) (add_output 10 (add_output 67 (add_output 94 (tty reader_sleeps)))))) ∧
    pending ∘ sig <$> m !! 1000 = Some 4 ∧ pending ∘ sig <$> m !! 2000 = Some 0.
Proof.
  destruct (ctrl_c_interrupts_group 3000 (mkInput (mkKb 0 1 0 0) (vts_example cell_blank) reader_sleeps) [2000; 1000]) as (m & E & Hm);
    [done|done|done|apply example_plist|].
  exists m. split; [exact E|]. rewrite !Hm. by split.
Defined.

(** What a reader with a buffer of 256 bytes gets after [cs] was typed. *)
Definition typed_then_read (cs : list Z) : option (Z * Ran (Z * list Z)) :=
  match kfor cs (tty_input_char 3000) (mkTk reader_runs (tty_example 5)) with
  | Done _ s => match tty_read 16 3000 256 s with Done r _ => Some (lines_ready (tty s), r) | _ => None end
  | _ => None
  end.
(** Two long lines that are not read in between: the ring has no check for room, so the
    second line overwrites the first one and a read returns the end of the second. *)
Lemma tty_ring_overruns :
  typed_then_read (replicate 200 97 ++ [10] ++ replicate 200 98 ++ [10]) = Some (2, Back (146, replicate 145 98 ++ [10])).
Proof. vm_compute. reflexivity. Qed.
(** With Caps Lock on, the 1 key gives an exclamation mark, and Ctrl+C gives the letter C. *)
Lemma caps_lock_shifts : keyboard_decode (mkKb 0 0 0 1) 0x02 = Some (mkKb 0 0 0 1, Key 33) ∧
  keyboard_decode (mkKb 0 1 0 1) 0x2E = Some (mkKb 0 1 0 1, Key 67).
Proof. done. Qed.
