(* ===== verification/Shell.v ===== *)
(** * The shell: variables, jobs and command lines

    The parts of [userland/shell/shell.c] that work on the shell's own memory: its
    variables, its table of jobs, the expansion of variables in a line, splitting it
    into arguments in place, redirections, pipes and the search of PATH.  An array of
    characters is a list; an index outside it is undefined. *)
From S2P Require Import Prelude.

Definition MAX_ARGS : Z := 16.
Definition LINE_MAX : Z := 256.
Definition MAX_VARS : Z := 32.
Definition VAR_NAME_MAX : Z := 32.
Definition VAR_VALUE_MAX : Z := 128.
Definition MAX_JOBS : Z := 8.

(** The string in an array, up to its NUL. *)
Fixpoint cstring (l : list Z) : list Z :=
  match l with
  | [] => []
  | c :: l' => if c =? 0 then [] else c :: cstring l'
  end.
(** [strncpy(dst, src, n - 1); dst\[n - 1\] = 0], for an array of [n] characters. *)
Definition copy_string (n : Z) (src : list Z) : list Z :=
  take (Z.to_nat (n - 1)) (src ++ replicate (Z.to_nat n) 0) ++ [0].

Fixpoint sh_parse_octal (s : list Z) (val : Z) : Z :=
  match s with
  | c :: s' => if (48 <=? c) && (c <=? 55) then sh_parse_octal s' (u32 (u32 (val * 8) + (c - 48))) else val
  | [] => val
  end.
Definition mode_to_rwx (mode : Z) : list Z :=
  (λ bc : Z * Z, if negb (Z.land mode bc.1 =? 0) then bc.2 else 45) <$>
    [(256, 114); (128, 119); (64, 120); (32, 114); (16, 119); (8, 120); (4, 114); (2, 119); (1, 120)].

(** ** Variables *)

Record Vars : Type := mkVars { var_names : list (list Z); var_values : list (list Z); var_count : Z }.

(** The first index from [i] on, or -1. *)
Fixpoint findvar_loop (l : list Z) (name : list Z) : K Vars Z :=
  match l with
  | [] => mret (-1)
  | i :: l' =>
      n ← kopt (λ s, zget (var_names s) i);
      if bool_decide (cstring n = name) then mret i else findvar_loop l' name
  end.
Definition shell_findvar (name : list Z) : K Vars Z :=
  n ← kget var_count;
  findvar_loop (seqZ 0 n) name.
Definition shell_getvar (name : list Z) : K Vars (option (list Z)) :=
  i ← shell_findvar name;
  if 0 <=? i then v ← kopt (λ s, zget (var_values s) i); mret (Some (cstring v)) else mret None.
Definition shell_setvar (name value : list Z) : K Vars Z :=
  if (VAR_NAME_MAX <=? Z.of_nat (length name)) || (VAR_VALUE_MAX <=? Z.of_nat (length value)) then mret (-1) else
  i ← shell_findvar name;
  if 0 <=? i then
    kupd (λ s, v ← zset (var_values s) i (copy_string VAR_VALUE_MAX value); Some (mkVars (var_names s) v (var_count s)));;
    mret 0
  else
  n ← kget var_count;
  if MAX_VARS <=? n then mret (-1) else
  kupd (λ s, a ← zset (var_names s) n (copy_string VAR_NAME_MAX name);
    v ← zset (var_values s) n (copy_string VAR_VALUE_MAX value); Some (mkVars a v (n + 1)));;
  mret 0.
Definition shell_unsetvar (name : list Z) : K Vars Z :=
  i ← shell_findvar name;
  if i <? 0 then mret (-1) else
  kmod (λ s, mkVars (var_names s) (var_values s) (var_count s - 1));;
  n ← kget var_count;
  (if i <? n then
     a ← kopt (λ s, zget (var_names s) n);
     v ← kopt (λ s, zget (var_values s) n);
     kupd (λ s, l ← zset (var_names s) i a; r ← zset (var_values s) i v; Some (mkVars l r (var_count s)))
   else mret tt);;
  mret 0.

(** ** Jobs *)

Record Job : Type := mkJob { in_use : Z; job_id : Z; jpid : Z; jpgid : Z; stopped : Z; jcmd : list Z }.
Record Jobs : Type := mkJobs { job_table : list Job; next_job_id : Z }.

(** The first index of [l] whose job satisfies [f]. *)
Fixpoint job_first (l : list Z) (f : Job → bool) : K Jobs (option Z) :=
  match l with
  | [] => mret None
  | i :: l' =>
      j ← kopt (λ s, zget (job_table s) i);
      if f j then mret (Some i) else job_first l' f
  end.
Definition job_alloc (pid pgid : Z) (cmd : list Z) : K Jobs (option Z) :=
  r ← job_first (seqZ 0 MAX_JOBS) (λ j, in_use j =? 0);
  match r with
  | None => mret None
  | Some i =>
      kupd (λ s, t ← zset (job_table s) i (mkJob 1 (next_job_id s) pid pgid 0 (copy_string 128 cmd));
        Some (mkJobs t (i32 (next_job_id s + 1))));;
      mret (Some i)
  end.
Definition job_find_by_id (id : Z) : K Jobs (option Z) :=
  job_first (seqZ 0 MAX_JOBS) (λ j, negb (in_use j =? 0) && (job_id j =? id)).
Definition job_free (i : Z) : K Jobs unit :=
  kupd (λ s, j ← zget (job_table s) i;
    t ← zset (job_table s) i (mkJob 0 (job_id j) (jpid j) (jpgid j) (stopped j) (jcmd j)); Some (mkJobs t (next_job_id s))).

(** ** Expanding variables *)

Definition is_var_start (c : Z) : bool := ((65 <=? c) && (c <=? 90)) || ((97 <=? c) && (c <=? 122)) || (c =? 95).
Definition is_var_char (c : Z) : bool := is_var_start c || ((48 <=? c) && (c <=? 57)).

(** [input\[i\]]; the NUL is at the end of the list. *)
Definition char_at (s : list Z) (i : Z) : option Z := zget (s ++ [0]) i.

(** [if (wi >= output_size - 1) return -1; output\[wi++\] = c;] then [k]. *)
Definition put_char (size wi c : Z) (k : K (list Z) Z) : K (list Z) Z :=
  if u64 (size - 1) <=? wi then mret (-1) else
  kupd (λ out, zset out wi c);;
  k.
(** The end of the name that starts at [i]. *)
Fixpoint var_end (fuel : nat) (input : list Z) (i : Z) : option Z :=
  match fuel with
  | O => None
  | S fuel' => c ← char_at input i; if is_var_char c then var_end fuel' input (i + 1) else Some i
  end.
(** The name cut off to the array it is copied to. *)
Definition var_name (input : list Z) (start stop : Z) : list Z :=
  let nlen := stop - start in
  let nlen := if VAR_NAME_MAX <=? nlen then VAR_NAME_MAX - 1 else nlen in
  take (Z.to_nat nlen) (drop (Z.to_nat start) input).

Section expand.
(** [shell_getvar], which does not change the variables. *)
Context (getvar : list Z → option (list Z)).

Fixpoint expand_loop (fuel : nat) (input : list Z) (size ri wi in_single in_double : Z) : K (list Z) Z :=
  match fuel with
  | O => kstuck
  | S fuel' =>
      let next := expand_loop fuel' input size in
      ch ← kopt (λ _, char_at input ri);
      if ch =? 0 then kupd (λ out, zset out wi 0);; mret 0 else
      if (ch =? 39) && (in_double =? 0) then
        put_char size wi ch (next (ri + 1) (wi + 1) (if in_single =? 0 then 1 else 0) in_double) else
      if (ch =? 34) && (in_single =? 0) then
        put_char size wi ch (next (ri + 1) (wi + 1) in_single (if in_double =? 0 then 1 else 0)) else
      if negb (in_single =? 0) then put_char size wi ch (next (ri + 1) (wi + 1) in_single in_double) else
      if ch =? 92 then
        n ← kopt (λ _, char_at input (ri + 1));
        if negb (in_double =? 0) && ((n =? 36) || (n =? 34) || (n =? 92)) then
          put_char size wi n (next (ri + 2) (wi + 1) in_single in_double)
        else if (in_double =? 0) && (n =? 36) then
          put_char size wi 36 (next (ri + 2) (wi + 1) in_single in_double)
        else put_char size wi ch (next (ri + 1) (wi + 1) in_single in_double)
      else if ch =? 36 then
        n ← kopt (λ _, char_at input (ri + 1));
        if n =? 36 then put_char size wi 36 (next (ri + 2) (wi + 1) in_single in_double) else
        if is_var_start n then
          stop ← kopt (λ _, var_end (S (length input)) input (ri + 1));
          match getvar (var_name input (ri + 1) stop) with
          | Some val =>
              let vlen := Z.of_nat (length val) in
              if size <=? u64 (wi + vlen) then mret (-1) else
              kfor (zip (seqZ wi vlen) val) (λ ic, kupd (λ out, zset out ic.1 ic.2));;
              next stop (wi + vlen) in_single in_double
          | None => next stop wi in_single in_double
          end
        else put_char size wi 36 (next (ri + 1) (wi + 1) in_single in_double)
      else put_char size wi ch (next (ri + 1) (wi + 1) in_single in_double)
  end.
Definition expand_variables (input : list Z) (size : Z) : K (list Z) Z :=
  expand_loop (S (length input)) input size 0 0 0 0.
End expand.

(** ** Splitting a line *)

(** The state of a loop that reads at [ri] and writes at [wi]. *)
Definition line_get (i : Z) : K (list Z) Z := kopt (λ line, zget line i).
Definition line_set (i c : Z) : K (list Z) unit := kupd (λ line, zset line i c).

(** Cutting the line at its first newline. *)
Fixpoint strip_newline (fuel : nat) (i : Z) : K (list Z) unit :=
  match fuel with
  | O => kstuck
  | S fuel' =>
      c ← line_get i;
      if c =? 0 then mret tt else
      if c =? 10 then line_set i 0 else strip_newline fuel' (i + 1)
  end.
(** Copying up to the closing quote: the indices at the end. *)
Fixpoint single_loop (fuel : nat) (ri wi : Z) : K (list Z) (Z * Z) :=
  match fuel with
  | O => kstuck
  | S fuel' =>
      c ← line_get ri;
      if (c =? 0) || (c =? 39) then mret (ri, wi) else
      line_set wi c;; single_loop fuel' (ri + 1) (wi + 1)
  end.
Fixpoint double_loop (fuel : nat) (ri wi : Z) : K (list Z) (Z * Z) :=
  match fuel with
  | O => kstuck
  | S fuel' =>
      c ← line_get ri;
      if (c =? 0) || (c =? 34) then mret (ri, wi) else
      if c =? 92 then
        n ← line_get (ri + 1);
        if negb (n =? 0) && ((n =? 34) || (n =? 92) || (n =? 36)) then
          line_set wi n;; double_loop fuel' (ri + 2) (wi + 1)
        else line_set wi c;; double_loop fuel' (ri + 1) (wi + 1)
      else line_set wi c;; double_loop fuel' (ri + 1) (wi + 1)
  end.
(** [if (!line\[ri\]) ri--;] and the [ri++] of the loop. *)
Definition after_quote (ri : Z) : K (list Z) Z := c ← line_get ri; mret (if c =? 0 then ri else ri + 1).

(** [argv] is the list of the offsets of the arguments so far. *)
Fixpoint parse_loop (fuel : nat) (ri wi : Z) (in_token : bool) (argv : list Z) : K (list Z) (Z * bool * list Z) :=
  match fuel with
  | O => kstuck
  | S fuel' =>
      ch ← line_get ri;
      if ch =? 0 then mret (wi, in_token, argv) else
      if negb in_token && (ch =? 32) then parse_loop fuel' (ri + 1) wi false argv else
      if negb in_token && (MAX_ARGS <=? Z.of_nat (length argv)) then mret (wi, false, argv) else
      let argv := if in_token then argv else argv ++ [wi] in
      if ch =? 32 then line_set wi 0;; parse_loop fuel' (ri + 1) (wi + 1) false argv else
      if ch =? 39 then
        f ← kget length;
        r ← single_loop f (ri + 1) wi;
        ri' ← after_quote r.1;
        parse_loop fuel' ri' r.2 true argv
      else if ch =? 34 then
        f ← kget length;
        r ← double_loop f (ri + 1) wi;
        ri' ← after_quote r.1;
        parse_loop fuel' ri' r.2 true argv
      else if ch =? 92 then
        n ← line_get (ri + 1);
        if negb (n =? 0) then line_set wi n;; parse_loop fuel' (ri + 2) (wi + 1) true argv
        else line_set wi ch;; parse_loop fuel' (ri + 1) (wi + 1) true argv
      else line_set wi ch;; parse_loop fuel' (ri + 1) (wi + 1) true argv
  end.
(** The offsets of the arguments in the line, which is changed in place. *)
Definition parse_line : K (list Z) (list Z) :=
  f ← kget length;
  strip_newline f 0;;
  r ← parse_loop f 0 0 false [];
  (if r.1.2 : bool then line_set r.1.1 0 else mret tt);;
  mret r.2.

(** ** Redirections *)

(** File names are offsets in the line. *)
Record Redirect : Type := mkRedirect { in_file : option Z; out_file : option Z; append : Z }.

(** The name attached to an operator of [n] characters, or the next argument; [None] is the
    syntax error.  With it, how many arguments were taken. *)
Definition redirect_name (tok n : Z) (rest : list Z) : K (list Z) (option (Z * list Z)) :=
  c ← line_get (tok + n);
  if negb (c =? 0) then mret (Some (tok + n, rest)) else
  match rest with
  | [] => mret None
  | a :: rest' => mret (Some (a, rest'))
  end.
Fixpoint redirect_loop (fuel : nat) (args out : list Z) (r : Redirect) : K (list Z) (option (list Z * Redirect)) :=
  match args with
  | [] => mret (Some (out, r))
  | tok :: rest =>
      match fuel with
      | O => kstuck
      | S fuel' =>
          c ← line_get tok;
          d ← (if c =? 62 then line_get (tok + 1) else mret 0);
          if (c =? 62) && (d =? 62) then
            f ← redirect_name tok 2 rest;
            match f with
            | None => mret None
            | Some (a, rest') => redirect_loop fuel' rest' out (mkRedirect (in_file r) (Some a) 1)
            end
          else if c =? 62 then
            f ← redirect_name tok 1 rest;
            match f with
            | None => mret None
            | Some (a, rest') => redirect_loop fuel' rest' out (mkRedirect (in_file r) (Some a) 0)
            end
          else if c =? 60 then
            f ← redirect_name tok 1 rest;
            match f with
            | None => mret None
            | Some (a, rest') => redirect_loop fuel' rest' out (mkRedirect (Some a) (out_file r) (append r))
            end
          else redirect_loop fuel' rest (out ++ [tok]) r
      end
  end.
Definition parse_redirects (argv : list Z) : K (list Z) (option (list Z * Redirect)) :=
  redirect_loop (length argv) argv [] (mkRedirect None None 0).

(** ** Pipes, assignments and background commands *)

(** The index of the first unquoted bar. *)
Fixpoint find_pipe_loop (line : list Z) (i in_single in_double : Z) : option Z :=
  match line with
  | [] => None
  | ch :: line1 =>
      match line1 with
      | _ :: line2 =>
          if (ch =? 92) && (in_single =? 0) then find_pipe_loop line2 (i + 2) in_single in_double else
          if (ch =? 39) && (in_double =? 0) then find_pipe_loop line1 (i + 1) (if in_single =? 0 then 1 else 0) in_double else
          if (ch =? 34) && (in_single =? 0) then find_pipe_loop line1 (i + 1) in_single (if in_double =? 0 then 1 else 0) else
          if (ch =? 124) && (in_single =? 0) && (in_double =? 0) then Some i else
          find_pipe_loop line1 (i + 1) in_single in_double
      | [] => if (ch =? 124) && (in_single =? 0) && (in_double =? 0) then Some i else None
      end
  end.
Definition find_pipe (line : list Z) : option Z := find_pipe_loop line 0 0 0.
Fixpoint skip_spaces (s : list Z) : list Z :=
  match s with
  | c :: s' => if c =? 32 then skip_spaces s' else s
  | [] => []
  end.

Fixpoint var_chars (s : list Z) : list Z * list Z :=
  match s with
  | c :: s' => if is_var_char c then let r := var_chars s' in (c :: r.1, r.2) else ([], s)
  | [] => ([], [])
  end.
Definition try_assignment (arg : list Z) : bool :=
  match arg with
  | c :: s => is_var_start c && bool_decide (head (var_chars s).2 = Some 61)
  | [] => false
  end.
(** The assignment that [dispatch] and [cmd_export] make of an argument: split at the first [=]; [None] is "name too long". *)
Definition split_assignment (arg : list Z) : option (list Z * list Z) :=
  match arg with
  | c :: s =>
      let r := var_chars s in
      if VAR_NAME_MAX <=? Z.of_nat (length (c :: r.1)) then None else Some (c :: r.1, drop 1 r.2)
  | [] => None
  end.
Definition assign (arg : list Z) : K Vars Z :=
  match split_assignment arg with
  | Some (name, value) => shell_setvar name value
  | None => mret (-1)
  end.

(** The test of [main] for a trailing ampersand: the line without it. *)
Definition background (line : list Z) : option (list Z) :=
  match skip_spaces (reverse line) with
  | c :: l => if c =? 38 then Some (reverse l) else None
  | [] => None
  end.

(** ** One line of the main loop *)

(** What [main] does with a line: the error it reports, or what it runs. *)
Inductive Command : Type :=
  | TooLong
  | BadRedirect
  | InBackground (line : list Z)
  | Pipeline (left right : list Z)
  | Simple (args : list Z) (redir : Redirect).

(** The line that was read, up to its NUL or its newline. *)
Fixpoint stripped (bytes : list Z) : list Z :=
  match bytes with
  | c :: bytes' => if (c =? 0) || (c =? 10) then [] else c :: stripped bytes'
  | [] => []
  end.
(** The variable that an expansion reads. *)
Definition var_value (vars : Vars) (name : list Z) : option (list Z) :=
  match shell_getvar name vars with Done v _ => v | _ => None end.
(** The body of the loop up to the execution; the state is the array [expanded]. *)
Definition shell_command (vars : Vars) (bytes : list Z) : K (list Z) Command :=
  r ← expand_variables (var_value vars) (stripped bytes) (LINE_MAX * 2);
  if r <? 0 then mret TooLong else
  expanded ← kget cstring;
  match background expanded with
  | Some l =>
      kupd (λ s, zset s (Z.of_nat (length l)) 0);;
      mret (InBackground l)
  | None =>
      match find_pipe expanded with
      | Some pos =>
          kupd (λ s, zset s pos 0);;
          mret (Pipeline (take (Z.to_nat pos) expanded) (drop (Z.to_nat (pos + 1)) expanded))
      | None =>
          args ← parse_line;
          rr ← parse_redirects args;
          match rr with
          | Some (args', redir) => mret (Simple args' redir)
          | None => mret BadRedirect
          end
      end
  end.

(** ** PATH *)

Fixpoint split_colon (path : list Z) : list Z * option (list Z) :=
  match path with
  | [] => ([], None)
  | c :: path' => if c =? 58 then ([], Some path') else let r := split_colon path' in (c :: r.1, r.2)
  end.
Section path.
(** [stat] says that there is a regular file of this name. *)
Context (is_file : list Z → bool).
Fixpoint path_loop (fuel : nat) (path cmd : list Z) (size : Z) : option (list Z) :=
  match fuel with
  | O => None
  | S fuel' =>
      match path with
      | [] => None
      | _ =>
          let r := split_colon path in
          let full := r.1 ++ [47] ++ cmd in
          if (Z.of_nat (length full) <? size) && is_file full then Some full else
          match r.2 with
          | Some path' => path_loop fuel' path' cmd size
          | None => None
          end
      end
  end.
(** The resolved name, or [None] when there is none. *)
Definition resolve_command (cmd : list Z) (path : option (list Z)) (size : Z) : option (list Z) :=
  if bool_decide (47 ∈ cmd) then Some (take (Z.to_nat (size - 1)) cmd) else
  match path with
  | None => None
  | Some p => path_loop (S (length p)) p cmd size
  end.
End path.
