(* ===== verification/ShellCorrect.v ===== *)
(** * The shell: correctness

    The table of variables is a finite map.  Expansion and splitting of a line, done in
    arrays with explicit bounds, give the strings of reference definitions on lists. *)
From S2P Require Import Prelude Shell.

(** ** Strings in arrays *)

Lemma cstring_no_nul l : 0 ∉ cstring l.
Proof. induction l as [|c l IH]; cbn; [set_solver|]. destruct (Z.eqb_spec c 0); [set_solver|]. rewrite not_elem_of_cons. split; [done|apply IH]. Qed.
Lemma cstring_app l r : 0 ∉ l → cstring (l ++ 0 :: r) = l.
Proof.
  induction l as [|c l IH]; [done|]. intros [Hc Hl]%not_elem_of_cons. cbn. rewrite (proj2 (Z.eqb_neq c 0)) by done. by rewrite IH.
Qed.
Lemma copy_string_ok n s : 0 ∉ s → Z.of_nat (length s) < n → cstring (copy_string n s) = s.
Proof.
  intros H0 Hl. unfold copy_string. rewrite take_app_ge by lia.
  destruct (take (Z.to_nat (n - 1) - length s) (replicate (Z.to_nat n) 0)) as [|c r] eqn:E.
  - rewrite app_nil_r. by apply cstring_app.
  - assert (c = 0) as ->.
    { rewrite take_replicate in E. by destruct (_ `min` _)%nat; [|injection E]. }
    rewrite <-app_assoc. by apply cstring_app.
Qed.

(** ** Variables *)

(** The table holds the pairs of [l], in this order. *)
Record vars_at (s : Vars) (l : list (list Z * list Z)) : Prop := {
  va_count : var_count s = Z.of_nat (length l);
  va_room : (length l ≤ 32)%nat;
  va_names : length (var_names s) = 32%nat;
  va_values : length (var_values s) = 32%nat;
  va_distinct : NoDup l.*1;
  va_entry : ∀ i n v, l !! i = Some (n, v) →
    ∃ a b, var_names s !! i = Some a ∧ var_values s !! i = Some b ∧ cstring a = n ∧ cstring b = v;
}.
(** The table as a finite map, with values of less than 128 characters. *)
Definition vars_map (s : Vars) (m : gmap (list Z) (list Z)) : Prop :=
  (∃ l, vars_at s l ∧ m = list_to_map l) ∧ map_Forall (λ _ v, (length v < 128)%nat) m.

Lemma findvar_loop_ok s l name : vars_at s l → ∀ k j : nat, (j + k = length l)%nat → (∀ i n v, (i < j)%nat → l !! i = Some (n, v) → n ≠ name) →
  ∃ r, findvar_loop (seqZ (Z.of_nat j) (Z.of_nat k)) name s = Done r s ∧
    ((∃ i v, r = Z.of_nat i ∧ l !! i = Some (name, v)) ∨ r = -1 ∧ name ∉ l.*1).
Proof.
  intros Hs. induction k as [|k IH]; intros j Hj Hb.
  - exists (-1). split; [done|]. right. split; [done|]. rewrite list_elem_of_fmap. intros ([n v] & -> & [i Hi]%list_elem_of_lookup).
    apply (Hb i n v); [|done|done]. apply lookup_lt_Some in Hi. lia.
  - rewrite Nat2Z.inj_succ, seqZ_cons by lia. cbn [findvar_loop]. destruct (lookup_lt_is_Some_2 l j) as [[n v] Hl]; [lia|].
    destruct (va_entry _ _ Hs _ _ _ Hl) as (a & b & Ea & _ & Ec & _).
    rewrite (kopt_bind (λ s, zget (var_names s) (Z.of_nat j)) _ s a) by by rewrite zget_nat. case_bool_decide as Hn.
    + exists (Z.of_nat j). split; [done|]. left. exists j, v. split; [done|]. rewrite <-Hn, Ec. done.
    + replace (Z.succ (Z.of_nat j)) with (Z.of_nat (S j)) by lia. replace (Z.pred (Z.succ (Z.of_nat k))) with (Z.of_nat k) by lia.
      apply IH; [lia|]. intros i n' v' Hi Hl'. destruct (decide (i = j)) as [->|]; [congruence|apply (Hb i n' v'); [lia|done]].
Qed.
Lemma findvar_ok s l name : vars_at s l →
  ∃ r, shell_findvar name s = Done r s ∧ ((∃ i v, r = Z.of_nat i ∧ l !! i = Some (name, v)) ∨ r = -1 ∧ name ∉ l.*1).
Proof.
  intros Hs. unfold shell_findvar. rewrite kget_bind, (va_count _ _ Hs). apply (findvar_loop_ok s l name Hs (length l) 0%nat); [lia|]. intros; lia.
Qed.
Lemma map_at s l name i v : vars_at s l → l !! i = Some (name, v) → (list_to_map l : gmap (list Z) (list Z)) !! name = Some v.
Proof. intros Hs Hi. apply elem_of_list_to_map_1; [apply Hs|]. by apply list_elem_of_lookup_2 with i. Qed.

Lemma getvar_lemma s m name : vars_map s m → shell_getvar name s = Done (m !! name) s.
Proof.
  intros [(l & Hs & ->) Hshort]. unfold shell_getvar. destruct (findvar_ok s l name Hs) as (r & E & Hr). kbind E.
  destruct Hr as [(i & v & -> & Hi)|[-> Hn]].
  - destruct (va_entry _ _ Hs _ _ _ Hi) as (a & b & _ & Eb & _ & Ev). rewrite (proj2 (Z.leb_le 0 _)) by lia.
    rewrite (kopt_bind (λ s, zget (var_values s) (Z.of_nat i)) _ s b) by by rewrite zget_nat. rewrite (map_at _ _ _ _ _ Hs Hi), Ev. done.
  - cbn. by rewrite not_elem_of_list_to_map_1.
Qed.

Lemma map_of_list (m : gmap (list Z) (list Z)) l : NoDup l.*1 → (∀ n v, m !! n = Some v ↔ (n, v) ∈ l) → m = list_to_map l.
Proof. intros Hn Hm. apply map_eq. intros n. apply option_eq. intros v. by rewrite Hm, elem_of_list_to_map. Qed.
(** Entries with the same name are the same entry. *)
Lemma same_entry s l i j n v w : vars_at s l → l !! i = Some (n, v) → l !! j = Some (n, w) → i = j.
Proof. intros Hs Hi Hj. apply (NoDup_lookup l.*1 i j n (va_distinct _ _ Hs)); by rewrite list_lookup_fmap, ?Hi, ?Hj. Qed.

Lemma set_existing s l i name v value : vars_at s l → l !! i = Some (name, v) →
  list_to_map (<[i := (name, value)]> l) = <[name := value]> (list_to_map l : gmap (list Z) (list Z)) ∧ (<[i := (name, value)]> l).*1 = l.*1.
Proof.
  intros Hs Hi. assert ((<[i := (name, value)]> l).*1 = l.*1) as El.
  { rewrite list_fmap_insert. apply list_insert_id. by rewrite list_lookup_fmap, Hi. }
  split; [|done]. symmetry. apply map_of_list; [rewrite El; apply Hs|]. intros n w. rewrite list_elem_of_lookup. split.
  - rewrite lookup_insert. case_decide as Hn.
    + subst n. intros [= <-]. exists i. apply list_lookup_insert_eq. by eapply lookup_lt_Some.
    + intros [j Hj]%elem_of_list_to_map%list_elem_of_lookup; [|apply Hs]. exists j. rewrite list_lookup_insert_ne; [done|]. intros <-. congruence.
  - intros [j [(-> & [= -> ->] & _)|(Hne & Hj)]%list_lookup_insert_Some]; [apply lookup_insert_eq|].
    rewrite lookup_insert_ne by (intros <-; apply Hne; by eapply same_entry). by eapply map_at.
Qed.
Lemma set_new s l name value : vars_at s l → name ∉ l.*1 →
  list_to_map (l ++ [(name, value)]) = <[name := value]> (list_to_map l : gmap (list Z) (list Z)) ∧ NoDup (l ++ [(name, value)]).*1.
Proof.
  intros Hs Hn. assert (NoDup (l ++ [(name, value)]).*1) as Hnd.
  { rewrite fmap_app. apply NoDup_app. split_and!; [apply Hs| |apply NoDup_singleton]. cbn. intros x Hx ->%list_elem_of_singleton. done. }
  split; [|done]. symmetry. apply map_of_list; [done|]. intros n w. rewrite elem_of_app, list_elem_of_singleton, lookup_insert. case_decide as Hnn.
  - subst n. split; [by intros [= <-]; right|]. intros [Hin|[= ->]]; [|done]. exfalso. apply Hn, list_elem_of_fmap. by exists (name, w).
  - rewrite elem_of_list_to_map by apply Hs. split; [by left|]. by intros [?|[= -> ->]].
Qed.

Lemma setvar_lemma s m name value : vars_map s m → 0 ∉ name → 0 ∉ value →
  ∃ r s', shell_setvar name value s = Done r s' ∧
    (r = 0 ∧ vars_map s' (<[name := value]> m) ∧ (length name < 32)%nat ∧ (length value < 128)%nat ∨
     r = -1 ∧ s' = s ∧ ((32 ≤ length name)%nat ∨ (128 ≤ length value)%nat ∨ size m = 32%nat ∧ m !! name = None)).
Proof.
  intros [(l & Hs & ->) Hshort] Hn Hv. unfold shell_setvar, VAR_NAME_MAX, VAR_VALUE_MAX, MAX_VARS.
  destruct (Z.leb_spec 32 (Z.of_nat (length name))); [do 2 eexists; split; [reflexivity|]; right; split_and!; [done..|lia]|].
  destruct (Z.leb_spec 128 (Z.of_nat (length value))); [do 2 eexists; split; [reflexivity|]; right; split_and!; [done..|lia]|]. cbn [orb].
  destruct (findvar_ok s l name Hs) as (r & E & Hr). kbind E. pose proof Hs as [Hc Hroom Hln Hlv Hd He].
  destruct Hr as [(i & v & -> & Hi)|[-> Hnew]].
  - rewrite (proj2 (Z.leb_le 0 _)) by lia. pose proof (lookup_lt_Some _ _ _ Hi). exists 0. eexists. split.
    { erewrite bind_Done; [reflexivity|]. unfold kupd. rewrite zset_lt by lia. reflexivity. }
    left. split_and!; [done| |lia|lia]. destruct (set_existing s l i name v value Hs Hi) as [Em El]. split; [eexists; split; [|symmetry; exact Em]|apply map_Forall_insert_2; [lia|done]].
    split; cbn; try (rewrite ?length_insert; done); [by rewrite El|]. rewrite Nat2Z.id. intros j n w [(-> & [= -> ->] & _)|(Hne & Hj)]%list_lookup_insert_Some.
    + destruct (He _ _ _ Hi) as (a & b & Ea & Eb & Ea' & _). exists a, (copy_string 128 w). split_and!; [done|apply list_lookup_insert_eq; lia|done|].
      apply copy_string_ok; [done|lia].
    + destruct (He _ _ _ Hj) as (a & b & Ea & Eb & Ea' & Eb'). exists a, b. by rewrite list_lookup_insert_ne.
  - change (0 <=? -1) with false. cbv iota. rewrite kget_bind, Hc. destruct (Z.leb_spec 32 (Z.of_nat (length l))).
    { do 2 eexists. split; [reflexivity|]. right. split_and!; [done..|]. right. right. split; [|by apply not_elem_of_list_to_map_1].
      rewrite map_size_list_to_map by done. lia. }
    exists 0. eexists. split.
    { erewrite bind_Done; [reflexivity|]. unfold kupd. rewrite !zset_lt by lia. reflexivity. }
    left. split_and!; [done| |lia|lia]. destruct (set_new s l name value Hs Hnew) as [Em Hnd]. split; [eexists; split; [|symmetry; exact Em]|apply map_Forall_insert_2; [lia|done]].
    split; cbn; rewrite ?length_insert, ?length_app; cbn; try done; try lia. rewrite Nat2Z.id. intros j n w [Hj|[Hj Hx]]%lookup_app_Some.
    + destruct (He _ _ _ Hj) as (a & b & Ea & Eb & Ea' & Eb'). apply lookup_lt_Some in Hj. exists a, b. by rewrite !list_lookup_insert_ne by lia.
    + apply list_lookup_singleton_Some in Hx as [Hj0 [= -> ->]]. replace j with (length l) by lia.
      exists (copy_string 32 n), (copy_string 128 w). split_and!; [apply list_lookup_insert_eq; lia|apply list_lookup_insert_eq; lia|apply copy_string_ok; [done|lia]..].
Qed.

(** Removing entry [i] by moving the last one to its place. *)
Definition remove_at (i : nat) (l : list (list Z * list Z)) : list (list Z * list Z) :=
  match last l with
  | Some x => take (length l - 1) (<[i := x]> l)
  | None => l
  end.
Lemma remove_at_lookup i l x : last l = Some x → (i < length l)%nat → ∀ j,
  remove_at i l !! j = if decide (j < length l - 1)%nat then (if decide (j = i) then Some x else l !! j) else None.
Proof.
  intros Hx Hi j. unfold remove_at. rewrite Hx. case_decide.
  - rewrite lookup_take_lt by lia. case_decide as Hji; [subst; apply list_lookup_insert_eq; lia|by apply list_lookup_insert_ne].
  - apply lookup_take_ge. lia.
Qed.
Lemma last_entry (l : list (list Z * list Z)) i : (i < length l)%nat → ∃ x, last l = Some x ∧ l !! (length l - 1)%nat = Some x.
Proof. intros Hi. rewrite last_lookup. replace (pred (length l)) with (length l - 1)%nat by lia. destruct (lookup_lt_is_Some_2 l (length l - 1)%nat) as [x Hx]; [lia|]. by exists x. Qed.
Lemma remove_at_entry s l i j n v w u : vars_at s l → l !! i = Some (n, v) → remove_at i l !! j = Some (w, u) →
  ∃ k, l !! k = Some (w, u) ∧ k ≠ i ∧ k = (if decide (j = i) then length l - 1 else j)%nat ∧ (j < length l - 1)%nat.
Proof.
  intros Hs Hi Hj. pose proof (lookup_lt_Some _ _ _ Hi). destruct (last_entry l i) as (x & Hx & Hl); [done|].
  rewrite (remove_at_lookup i l x) in Hj by done. case_decide; [|done]. case_decide as Hji.
  - injection Hj as ->. exists (length l - 1)%nat. split_and!; [done|lia|done|lia].
  - exists j. by split_and!.
Qed.
Lemma remove_at_ok s l i name v : vars_at s l → l !! i = Some (name, v) →
  list_to_map (remove_at i l) = delete name (list_to_map l : gmap (list Z) (list Z)) ∧ NoDup (remove_at i l).*1.
Proof.
  intros Hs Hi. assert (NoDup (remove_at i l).*1) as Hnd.
  { apply NoDup_alt. intros j1 j2 n. rewrite !list_lookup_fmap. intros E1 E2.
    destruct (remove_at i l !! j1) as [[n1 v1]|] eqn:F1; [|done]. destruct (remove_at i l !! j2) as [[n2 v2]|] eqn:F2; [|done].
    injection E1 as ->. injection E2 as ->.
    destruct (remove_at_entry _ _ _ _ _ _ _ _ Hs Hi F1) as (k1 & Hk1 & Hne1 & Ek1 & Hl1).
    destruct (remove_at_entry _ _ _ _ _ _ _ _ Hs Hi F2) as (k2 & Hk2 & Hne2 & Ek2 & Hl2).
    pose proof (same_entry _ _ _ _ _ _ _ Hs Hk1 Hk2). repeat case_decide; lia. }
  split; [|done]. symmetry. apply map_of_list; [done|]. intros n w. rewrite lookup_delete_Some, list_elem_of_lookup. split.
  - intros [Hne [j Hj]%elem_of_list_to_map%list_elem_of_lookup]; [|apply Hs].
    assert (j ≠ i) as Hji by (intros ->; congruence). pose proof (lookup_lt_Some _ _ _ Hj). pose proof (lookup_lt_Some _ _ _ Hi).
    destruct (last_entry l i) as (x & Hx & Hl); [done|].
    destruct (decide (j = length l - 1)%nat) as [->|]; [exists i|exists j]; rewrite (remove_at_lookup i l x) by done;
      (rewrite decide_True by lia); [by rewrite decide_True, <-Hl by done|by rewrite decide_False by done].
  - intros [j Hj]. destruct (remove_at_entry _ _ _ _ _ _ _ _ Hs Hi Hj) as (k & Hk & Hne & _). split; [|by eapply map_at].
    intros <-. apply Hne. by eapply same_entry.
Qed.
Lemma unsetvar_lemma s m name : vars_map s m →
  ∃ s', vars_map s' (delete name m) ∧ shell_unsetvar name s = Done (if bool_decide (is_Some (m !! name)) then 0 else -1) s'.
Proof.
  intros [(l & Hs & ->) Hshort]. unfold shell_unsetvar. destruct (findvar_ok s l name Hs) as (r & E & Hr). kbind E. pose proof Hs as [Hc Hroom Hln Hlv Hd He].
  destruct Hr as [(i & v & -> & Hi)|[-> Hnew]].
  2: { exists s. rewrite (not_elem_of_list_to_map_1 (M := gmap (list Z)) l name Hnew), bool_decide_eq_false_2 by (by intros [? ?]).
       split; [|done]. rewrite delete_id by (by apply not_elem_of_list_to_map_1). split; [by exists l|done]. }
  rewrite (map_at _ _ _ _ _ Hs Hi), bool_decide_eq_true_2 by done. pose proof (lookup_lt_Some _ _ _ Hi) as Hil.
  destruct (Z.ltb_spec (Z.of_nat i) 0); [lia|]. rewrite kmod_bind, kget_bind. cbn [var_count]. rewrite Hc.
  destruct (remove_at_ok s l i name v Hs Hi) as [Em Hnd]. destruct (last_entry l i Hil) as ([n' v'] & Hx & Hl).
  assert (length (remove_at i l) = (length l - 1)%nat) as Hlen by (unfold remove_at; rewrite Hx, length_take, length_insert; lia).
  replace (Z.of_nat (length l) - 1) with (Z.of_nat (length l - 1)) by lia.
  destruct (Z.ltb_spec (Z.of_nat i) (Z.of_nat (length l - 1))).
  - destruct (He _ _ _ Hl) as (a & b & Ea & Eb & Ea' & Eb').
    eexists. split; [|cbn [var_names var_values];
      rewrite bind_assoc, (kopt_bind (λ s, zget (var_names s) (Z.of_nat (length l - 1))) _ _ a) by (by rewrite zget_nat);
      rewrite bind_assoc, (kopt_bind (λ s, zget (var_values s) (Z.of_nat (length l - 1))) _ _ b) by (by rewrite zget_nat);
      erewrite bind_Done; [reflexivity|]; unfold kupd; cbn [var_names var_values]; rewrite !zset_lt by lia; reflexivity].
    split; [exists (remove_at i l); split; [|by rewrite Em]|by apply map_Forall_delete]. split; cbn; rewrite ?length_insert, ?Nat2Z.id; try done; try lia.
    intros j w u Hj. destruct (remove_at_entry _ _ _ _ _ _ _ _ Hs Hi Hj) as (k & Hk & Hne & Ek & Hjl). case_decide.
    + subst. exists a, b. rewrite !list_lookup_insert_eq by lia. rewrite Hl in Hk. injection Hk as <- <-. by split_and!.
    + subst k. rewrite !list_lookup_insert_ne by done. by apply He.
  - eexists. split; [|reflexivity]. split; [exists (remove_at i l); split; [|by rewrite Em]|by apply map_Forall_delete]. split; cbn; try done; try lia.
    intros j w u Hj. destruct (remove_at_entry _ _ _ _ _ _ _ _ Hs Hi Hj) as (k & Hk & Hne & Ek & Hjl). case_decide; [lia|]. subst k. by apply He.
Qed.
