(* ===== verification/ShellLine.v ===== *)
(** * The shell: splitting a line into arguments

    [parse_line] works in place: it reads at one index and writes the arguments, each with
    its NUL, at another that is never ahead of it.  What it leaves in the line are the
    arguments that a reference reading of the quotes and backslashes gives. *)
From S2P Require Import Prelude Shell ShellCorrect.

(** ** Reading quotes *)

Inductive Quote : Type := Bare | Single | Double.
#[export] Instance Quote_eq_dec : EqDecision Quote.
Proof. solve_decision. Defined.
(** The arguments of a line; [cur] is the argument that is being read. *)
Fixpoint toks (q : Quote) (cur : option (list Z)) (l : list Z) : list (list Z) :=
  match l with
  | [] => match cur with Some t => [t] | None => [] end
  | c :: l1 =>
      let t := default [] cur in
      match q with
      | Bare =>
          if c =? 32 then match cur with Some t => t :: toks Bare None l1 | None => toks Bare None l1 end else
          if c =? 39 then toks Single (Some t) l1 else
          if c =? 34 then toks Double (Some t) l1 else
          if c =? 92 then match l1 with d :: l2 => toks Bare (Some (t ++ [d])) l2 | [] => [t ++ [92]] end
          else toks Bare (Some (t ++ [c])) l1
      | Single => if c =? 39 then toks Bare (Some t) l1 else toks Single (Some (t ++ [c])) l1
      | Double =>
          if c =? 34 then toks Bare (Some t) l1 else
          if c =? 92 then
            match l1 with
            | d :: l2 => if (d =? 34) || (d =? 92) || (d =? 36) then toks Double (Some (t ++ [d])) l2 else toks Double (Some (t ++ [92])) l1
            | [] => [t ++ [92]]
            end
          else toks Double (Some (t ++ [c])) l1
      end
  end.
(** The line up to its newline. *)
Fixpoint until_newline (l : list Z) : list Z :=
  match l with
  | c :: l' => if c =? 10 then [] else c :: until_newline l'
  | [] => []
  end.
Definition arguments (l : list Z) : list (list Z) := take 16 (toks Bare None (until_newline l)).

(** ** The line as it is rewritten *)

Implicit Types (p g R tl body rest : list Z) (c d x : Z).

(** What is written, and what was read and not yet overwritten. *)
Definition spot (p g : list Z) : Z := Z.of_nat (length p + length g).
Definition wrote (p : list Z) : Z := Z.of_nat (length p).

Lemma get_at {A} p g R (k : nat) c (f : Z → K (list Z) A) : R !! k = Some c →
  (line_get (spot p g + Z.of_nat k) ≫= f) (p ++ g ++ R) = f c (p ++ g ++ R).
Proof.
  intros Hk. unfold line_get. apply (kopt_bind (λ line, zget line (spot p g + Z.of_nat k))). unfold spot.
  rewrite <-Nat2Z.inj_add, zget_nat, app_assoc, lookup_app_r by (rewrite length_app; lia). rewrite <-Hk. f_equal. rewrite length_app. lia.
Qed.
Lemma get_here {A} p g c R (f : Z → K (list Z) A) : (line_get (spot p g) ≫= f) (p ++ g ++ c :: R) = f c (p ++ g ++ c :: R).
Proof. rewrite <-(Z.add_0_r (spot p g)). by apply (get_at p g (c :: R) 0). Qed.
Lemma get_next {A} p g c d R (f : Z → K (list Z) A) : (line_get (spot p g + 1) ≫= f) (p ++ g ++ c :: d :: R) = f d (p ++ g ++ c :: d :: R).
Proof. by apply (get_at p g (c :: d :: R) 1). Qed.
(** A character is read. *)
Lemma consume p g c R : p ++ g ++ c :: R = p ++ (g ++ [c]) ++ R.
Proof. by rewrite <-(app_assoc g). Qed.
Lemma spot_consume p g c : spot p (g ++ [c]) = spot p g + 1.
Proof. unfold spot. rewrite length_app. cbn. lia. Qed.
(** A character is written over one that was read. *)
Lemma put_bind {A} p x g R c (k : unit → K (list Z) A) : (line_set (wrote p) c ≫= k) (p ++ (x :: g) ++ R) = k tt ((p ++ [c]) ++ g ++ R).
Proof.
  apply bind_Done. unfold line_set, kupd, wrote. rewrite zset_lt by (rewrite !length_app; cbn; lia).
  by rewrite Nat2Z.id, insert_app_r_alt, Nat.sub_diag, <-app_assoc by lia.
Qed.
Lemma wrote_put p c : wrote (p ++ [c]) = wrote p + 1.
Proof. unfold wrote. rewrite length_app. cbn. lia. Qed.
Lemma spot_put p x g c : spot (p ++ [c]) g = spot p (x :: g).
Proof. unfold spot. rewrite length_app. cbn. lia. Qed.

(** One character is read and one is written. *)
Lemma shift {A} p g c d R (k : unit → K (list Z) A) :
  ∃ g', (line_set (wrote p) d ≫= k) (p ++ g ++ c :: R) = k tt ((p ++ [d]) ++ g' ++ R) ∧ spot (p ++ [d]) g' = spot p g + 1 ∧ length g' = length g.
Proof.
  rewrite consume. destruct (g ++ [c]) as [|x g'] eqn:E; [by destruct g|]. exists g'. rewrite put_bind. split_and!; [done| |].
  - rewrite (spot_put p x), <-E. apply spot_consume.
  - apply (f_equal length) in E. rewrite length_app in E. cbn in E. lia.
Qed.

(** ** Quotes *)

(** [rest] is left at the closing quote [q] or at the end. *)
Definition closed (q : Z) rest : Prop := rest = [] ∨ ∃ r, rest = q :: r.
(** The outcome of copying up to a closing quote. *)
Definition copies (loop : Z → Z → K (list Z) (Z * Z)) (q : Z) (quote : Quote) p g rest tl : Prop :=
  ∃ body g' rest', loop (spot p g) (wrote p) (p ++ g ++ rest ++ 0 :: tl) =
      Done (spot (p ++ body) g', wrote (p ++ body)) ((p ++ body) ++ g' ++ rest' ++ 0 :: tl) ∧
    closed q rest' ∧ 0 ∉ body ∧ 0 ∉ rest' ∧ (length rest' ≤ length rest)%nat ∧ g' ≠ [] ∧
    ∀ t, toks quote (Some t) rest = match rest' with [] => [t ++ body] | _ :: r => toks Bare (Some (t ++ body)) r end.

Lemma copies_stop (loop : Z → Z → K (list Z) (Z * Z)) q quote p g rest tl : closed q rest → 0 ∉ rest → g ≠ [] →
  loop (spot p g) (wrote p) (p ++ g ++ rest ++ 0 :: tl) = Done (spot p g, wrote p) (p ++ g ++ rest ++ 0 :: tl) →
  (∀ t, toks quote (Some t) rest = match rest with [] => [t] | _ :: r => toks Bare (Some t) r end) → copies loop q quote p g rest tl.
Proof.
  intros Hq H0 Hg E Ht. exists [], g, rest. rewrite app_nil_r. split_and!; [done|done|set_solver|done|lia|done|].
  intros t. by rewrite app_nil_r.
Qed.
(** A copied character, after [n] were read. *)
Lemma copies_step (loop loop' : Z → Z → K (list Z) (Z * Z)) q quote p g g1 rest rest1 tl d :
  copies loop' q quote (p ++ [d]) g1 rest1 tl → d ≠ 0 → (length rest1 ≤ length rest)%nat →
  loop (spot p g) (wrote p) (p ++ g ++ rest ++ 0 :: tl) = loop' (spot (p ++ [d]) g1) (wrote (p ++ [d])) ((p ++ [d]) ++ g1 ++ rest1 ++ 0 :: tl) →
  (∀ t, toks quote (Some t) rest = toks quote (Some (t ++ [d])) rest1) → copies loop q quote p g rest tl.
Proof.
  intros (body & g' & rest' & E & Hq & Hb & H0 & Hl & Hg & Ht) Hd Hle Eq Hs. exists (d :: body), g', rest'.
  replace (p ++ d :: body) with ((p ++ [d]) ++ body) by (by rewrite <-app_assoc). split_and!; [by rewrite Eq|done| |done|lia|done|].
  - rewrite not_elem_of_cons. split; [congruence|done].
  - intros t. rewrite Hs, Ht. destruct rest'; by rewrite <-app_assoc.
Qed.

Lemma single_loop_ok : ∀ fuel rest p g tl, 0 ∉ rest → (length rest < fuel)%nat → g ≠ [] → copies (single_loop fuel) 39 Single p g rest tl.
Proof.
  induction fuel as [|fuel IH]; intros rest p g tl H0 Hf Hg; [lia|]. destruct rest as [|c rest].
  { apply copies_stop; [by left|done|done| |done]. cbn [single_loop app]. by rewrite get_here. }
  pose proof H0 as [Hc0 H0']%not_elem_of_cons. cbn [length] in Hf. destruct (Z.eqb_spec c 39) as [->|Hc].
  { apply copies_stop; [right; by eexists|done|done| |done]. cbn [single_loop app]. by rewrite get_here. }
  destruct (shift p g c c (rest ++ 0 :: tl) (λ _, single_loop fuel (spot p g + 1) (wrote p + 1))) as (g1 & E & Es & Eg).
  apply (copies_step _ (single_loop fuel) _ _ _ _ g1 _ rest _ c); [|done|cbn; lia| |].
  - apply IH; [done|lia|]. intros ->. cbn in Eg. destruct g; [done|cbn in Eg; lia].
  - cbn [single_loop app]. rewrite get_here, (proj2 (Z.eqb_neq c 0)), (proj2 (Z.eqb_neq c 39)) by done. cbn [orb].
    rewrite E, Es, wrote_put. done.
  - intros t. cbn. by rewrite (proj2 (Z.eqb_neq c 39)).
Qed.

(** One character of a line in double quotes is copied as it is. *)
Lemma double_plain fuel rest p g tl c :
  (∀ p g, g ≠ [] → copies (double_loop fuel) 34 Double p g rest tl) → c ≠ 0 → g ≠ [] →
  double_loop (S fuel) (spot p g) (wrote p) (p ++ g ++ (c :: rest) ++ 0 :: tl) =
    (line_set (wrote p) c ≫= λ _, double_loop fuel (spot p g + 1) (wrote p + 1)) (p ++ g ++ (c :: rest) ++ 0 :: tl) →
  (∀ t, toks Double (Some t) (c :: rest) = toks Double (Some (t ++ [c])) rest) → copies (double_loop (S fuel)) 34 Double p g (c :: rest) tl.
Proof.
  intros IH Hc Hg E Ht.
  destruct (shift p g c c (rest ++ 0 :: tl) (λ _, double_loop fuel (spot p g + 1) (wrote p + 1))) as (g1 & E1 & Es & Eg).
  apply (copies_step _ (double_loop fuel) _ _ _ _ g1 _ rest _ c); [|done|cbn; lia| |done].
  - apply IH. intros ->. destruct g; [done|cbn in Eg; lia].
  - rewrite E. cbn [app]. by rewrite E1, Es, wrote_put.
Qed.
Lemma double_loop_ok : ∀ fuel rest p g tl, 0 ∉ rest → (length rest < fuel)%nat → g ≠ [] → copies (double_loop fuel) 34 Double p g rest tl.
Proof.
  induction fuel as [|fuel IH]; intros rest p g tl H0 Hf Hg; [lia|]. destruct rest as [|c rest].
  { apply copies_stop; [by left|done|done| |done]. cbn [double_loop app]. by rewrite get_here. }
  pose proof H0 as [Hc0 H0']%not_elem_of_cons. cbn [length] in Hf. destruct (Z.eqb_spec c 34) as [->|Hc].
  { apply copies_stop; [right; by eexists|done|done| |done]. cbn [double_loop app]. by rewrite get_here. }
  assert (∀ p g, g ≠ [] → copies (double_loop fuel) 34 Double p g rest tl) as IH' by (intros; apply IH; [done|lia|done]).
  destruct (Z.eqb_spec c 92) as [->|Hb].
  2: { apply double_plain; [done|done|done| |].
       - cbn [double_loop app]. rewrite get_here, (proj2 (Z.eqb_neq c 0)), (proj2 (Z.eqb_neq c 34)), (proj2 (Z.eqb_neq c 92)) by done. done.
       - intros t. cbn. by rewrite (proj2 (Z.eqb_neq c 34)), (proj2 (Z.eqb_neq c 92)). }
  destruct rest as [|d rest].
  { apply double_plain; [done|done|done| |done]. cbn [double_loop app]. rewrite get_here. cbn [Z.eqb orb Pos.eqb]. by rewrite get_next. }
  pose proof H0' as [Hd0 H0'']%not_elem_of_cons. cbn [length] in Hf.
  destruct ((d =? 34) || (d =? 92) || (d =? 36)) eqn:Ed.
  - destruct (shift p (g ++ [92]) d d (rest ++ 0 :: tl) (λ _, double_loop fuel (spot p g + 2) (wrote p + 1))) as (g1 & E1 & Es & Eg).
    apply (copies_step _ (double_loop fuel) _ _ _ _ g1 _ rest _ d); [|done|cbn; lia| |].
    + apply IH; [done|lia|]. intros ->. rewrite length_app in Eg. cbn in Eg. lia.
    + cbn [double_loop app]. rewrite get_here. cbn [Z.eqb orb Pos.eqb]. rewrite get_next, (proj2 (Z.eqb_neq d 0)), Ed by done. cbn [negb andb].
      rewrite consume, E1, Es, spot_consume, wrote_put. by replace (spot p g + 1 + 1) with (spot p g + 2) by lia.
    + intros t. cbn -[Z.eqb]. by rewrite Ed.
  - apply double_plain; [done|done|done| |].
    + cbn [double_loop app]. rewrite get_here. cbn [Z.eqb orb Pos.eqb]. rewrite get_next, Ed. by rewrite andb_false_r.
    + intros t. cbn -[Z.eqb]. by rewrite Ed.
Qed.

(** Writing keeps the length of the line. *)
Lemma line_set_length i c u line line' : line_set i c line = Done u line' → length line' = length line.
Proof. unfold line_set. intros [_ ->]%kupd_inv%zset_Some. apply length_insert. Qed.
Lemma line_get_same i c line line' : line_get i line = Done c line' → line' = line.
Proof. unfold line_get. by intros [_ ->]%kopt_inv. Qed.
Lemma single_loop_length fuel : ∀ ri wi r line line', single_loop fuel ri wi line = Done r line' → length line' = length line.
Proof.
  induction fuel as [|fuel IH]; intros ri wi r line line' E; [done|]. cbn in E. kinv E as c l1 F. apply line_get_same in F as ->.
  destruct (_ || _); [by injection E as _ <-|]. kinv E as u l2 F. apply line_set_length in F. rewrite <-F. by eapply IH.
Qed.
Lemma double_loop_length fuel : ∀ ri wi r line line', double_loop fuel ri wi line = Done r line' → length line' = length line.
Proof.
  assert (∀ i c (k : K (list Z) (Z * Z)) r line line', (∀ r l l', k l = Done r l' → length l' = length l) →
    (line_set i c ≫= λ _, k) line = Done r line' → length line' = length line) as Hs.
  { intros i c k r line line' Hk E. kinv E as u l2 F. apply line_set_length in F. rewrite <-F. by eapply Hk. }
  induction fuel as [|fuel IH]; intros ri wi r line line' E; [done|]. cbn in E. kinv E as c l1 F. apply line_get_same in F as ->.
  destruct (_ || _); [by injection E as _ <-|]. destruct (c =? 92); [|eapply Hs; [|exact E]; by intros; eapply IH].
  kinv E as n l2 F. apply line_get_same in F as ->. destruct (_ && _); (eapply Hs; [|exact E]; by intros; eapply IH).
Qed.

(** ** The line *)

Definition opt {A} (o : option A) : list A := match o with Some x => [x] | None => [] end.
Definition in_token {A} (o : option A) : bool := match o with Some _ => true | None => false end.


(** The loop from this point on leaves the arguments [ts] in the line. *)
Definition leaves (run : K (list Z) (Z * bool * list Z)) (line : list Z) (ts : list (list Z)) : Prop :=
  ∃ T cur p R, run line = Done (wrote p, in_token cur, offsets 0 (T ++ opt cur)) (p ++ R) ∧ p = layout T ++ default [] cur ∧
    T ++ opt cur = take 16 ts ∧ R ≠ [] ∧ length (p ++ R) = length line.
(** At an argument [t] that has begun, behind the arguments [T]. *)
Definition loop_ok (fuel : nat) tl : Prop := ∀ rest g T cur, 0 ∉ rest → (length rest < fuel)%nat → (length (T ++ opt cur) ≤ 16)%nat →
  let p := layout T ++ default [] cur in
  leaves (parse_loop fuel (spot p g) (wrote p) (in_token cur) (offsets 0 (T ++ opt cur))) (p ++ g ++ rest ++ 0 :: tl) (T ++ toks Bare cur rest).

Lemma leaves_eq run run' line line' ts : leaves run' line' ts → run line = run' line' → length line' = length line → leaves run line ts.
Proof. intros (T & cur & p & R & E & Hp & Ht & HR & Hl) Er Hll. exists T, cur, p, R. split_and!; [congruence|done..|congruence]. Qed.
(** A plain character of an argument, one or two characters having been read for it. *)
Lemma leaves_char fuel tl rest g T t c d ri' line : loop_ok fuel tl → 0 ∉ rest → (length rest < fuel)%nat → (length T < 16)%nat →
  let p := layout T ++ t in
  line = p ++ g ++ c :: rest ++ 0 :: tl → spot p g + 1 = ri' →
  leaves (line_set (wrote p) d ≫= λ _, parse_loop fuel ri' (wrote p + 1) true (offsets 0 (T ++ [t]))) line (T ++ toks Bare (Some (t ++ [d])) rest).
Proof.
  intros Hok H0 Hf HT p -> <-.
  destruct (shift p g c d (rest ++ 0 :: tl) (λ _, parse_loop fuel (spot p g + 1) (wrote p + 1) true (offsets 0 (T ++ [t])))) as (g1 & E1 & Es & Eg).
  assert (p ++ [d] = layout T ++ default [] (Some (t ++ [d]))) as Ep by (unfold p; cbn; by rewrite <-app_assoc).
  eapply leaves_eq; [apply (Hok rest g1 T (Some (t ++ [d]))); [done|done|rewrite length_app; cbn; lia]| |].
  - rewrite E1, <-Ep, Es, wrote_put. cbn [in_token opt]. by rewrite !offsets_snoc.
  - rewrite <-Ep, !length_app. cbn. rewrite !length_app. cbn. lia.
Qed.
(** A quoted part of an argument. *)
Lemma leaves_quote fuel tl rest g T t q quote (loop : nat → Z → Z → K (list Z) (Z * Z)) line : loop_ok fuel tl → 0 ∉ rest → (length rest < fuel)%nat →
  (length T < 16)%nat → (∀ f rest p g tl, 0 ∉ rest → (length rest < f)%nat → g ≠ [] → copies (loop f) q quote p g rest tl) →
  (∀ f ri wi r l l', loop f ri wi l = Done r l' → length l' = length l) →
  let p := layout T ++ t in
  line = p ++ g ++ q :: rest ++ 0 :: tl →
  leaves (f ← kget length; r ← loop f (spot p g + 1) (wrote p); ri' ← after_quote r.1; parse_loop fuel ri' r.2 true (offsets 0 (T ++ [t])))
    line (T ++ toks quote (Some t) rest).
Proof.
  intros Hok H0 Hf HT Hloop Hsame p ->. rewrite consume.
  destruct (Hloop (length (p ++ (g ++ [q]) ++ rest ++ 0 :: tl)) rest p (g ++ [q]) tl) as (body & g' & rest' & E & Hq & Hb & H0' & Hl & Hg & Ht);
    [done|rewrite !length_app; cbn; lia|by destruct g|]. rewrite spot_consume in E. rewrite Ht.
  assert (length ((p ++ body) ++ g' ++ rest' ++ 0 :: tl) = length (p ++ (g ++ [q]) ++ rest ++ 0 :: tl)) as Hlen by (by eapply Hsame).
  assert (p ++ body = layout T ++ default [] (Some (t ++ body))) as Ep by (unfold p; cbn; by rewrite <-app_assoc).
  destruct rest' as [|c r].
  - eapply leaves_eq; [apply (Hok [] g' T (Some (t ++ body))); [done|cbn; lia|rewrite length_app; cbn; lia]| |].
    + rewrite kget_bind. kbind E. cbn [fst snd]. unfold after_quote. rewrite bind_assoc, <-Ep. cbn [app]. rewrite get_here, mret_bind. cbn [Z.eqb in_token opt].
      by rewrite !offsets_snoc.
    + by rewrite <-Ep.
  - destruct Hq as [|[r' [= -> <-]]]; [done|]. apply not_elem_of_cons in H0' as [Hq0 H0'].
    eapply leaves_eq; [apply (Hok r (g' ++ [q]) T (Some (t ++ body))); [done|cbn in Hl; lia|rewrite length_app; cbn; lia]| |].
    + rewrite kget_bind. kbind E. cbn [fst snd]. unfold after_quote. rewrite bind_assoc, <-Ep. cbn [app]. rewrite get_here, mret_bind, (proj2 (Z.eqb_neq q 0)) by done.
      rewrite spot_consume, consume. cbn [in_token opt]. by rewrite !offsets_snoc.
    + by rewrite <-Ep, <-consume.
Qed.

(** The body of the loop in an argument. *)
Lemma leaves_token fuel tl rest g T t c : loop_ok fuel tl → 0 ∉ (c :: rest) → (length rest < fuel)%nat → (length T < 16)%nat → c ≠ 32 →
  let p := layout T ++ t in
  leaves (if c =? 39 then
        f ← kget length; r ← single_loop f (spot p g + 1) (wrote p); ri' ← after_quote r.1; parse_loop fuel ri' r.2 true (offsets 0 (T ++ [t]))
      else if c =? 34 then
        f ← kget length; r ← double_loop f (spot p g + 1) (wrote p); ri' ← after_quote r.1; parse_loop fuel ri' r.2 true (offsets 0 (T ++ [t]))
      else if c =? 92 then
        n ← line_get (spot p g + 1);
        if negb (n =? 0) then line_set (wrote p) n;; parse_loop fuel (spot p g + 2) (wrote p + 1) true (offsets 0 (T ++ [t]))
        else line_set (wrote p) c;; parse_loop fuel (spot p g + 1) (wrote p + 1) true (offsets 0 (T ++ [t]))
      else line_set (wrote p) c;; parse_loop fuel (spot p g + 1) (wrote p + 1) true (offsets 0 (T ++ [t])))
    (p ++ g ++ (c :: rest) ++ 0 :: tl) (T ++ toks Bare (Some t) (c :: rest)).
Proof.
  intros Hok [Hc0 H0]%not_elem_of_cons Hf HT H32 p. cbn [toks default]. rewrite (proj2 (Z.eqb_neq c 32)) by done.
  destruct (Z.eqb_spec c 39) as [->|H39]; [apply (leaves_quote fuel tl rest g T t 39 Single single_loop); try done; [apply single_loop_ok|apply single_loop_length]|].
  destruct (Z.eqb_spec c 34) as [->|H34]; [apply (leaves_quote fuel tl rest g T t 34 Double double_loop); try done; [apply double_loop_ok|apply double_loop_length]|].
  destruct (Z.eqb_spec c 92) as [->|H92]; [|by eapply leaves_char].
  destruct rest as [|d rest].
  - eapply leaves_eq; [|cbn [app]; rewrite get_next; cbn [Z.eqb negb]; reflexivity|done].
    eapply (leaves_char fuel tl [] g T t 92 92); done.
  - apply not_elem_of_cons in H0 as [Hd0 H0]. cbn [length] in Hf.
    eapply leaves_eq; [|cbn [app]; rewrite get_next, (proj2 (Z.eqb_neq d 0)) by done; cbn [negb]; reflexivity|done].
    eapply (leaves_char fuel tl rest (g ++ [92]) T t d d); [done|done|lia|done|by rewrite <-consume|unfold p; rewrite spot_consume; lia].
Qed.
Lemma parse_loop_ok tl : ∀ fuel, loop_ok fuel tl.
Proof.
  induction fuel as [|fuel IH]; intros rest g T cur H0 Hf HT p; [lia|]. destruct rest as [|c rest].
  { exists T, cur, p, (g ++ [0] ++ tl). cbn [parse_loop app]. rewrite get_here. split_and!; [done|done| |by destruct g|done].
    rewrite take_ge; [by destruct cur|]. by destruct cur. }
  cbn [length] in Hf. pose proof H0 as [Hc0 H0']%not_elem_of_cons. destruct cur as [t|]; cbn [opt in_token] in *.
  - rewrite length_app in HT. cbn [length] in HT. destruct (Z.eqb_spec c 32) as [->|Hc].
    + destruct (shift p g 32 0 (rest ++ 0 :: tl) (λ _, parse_loop fuel (spot p g + 1) (wrote p + 1) false (offsets 0 (T ++ [t])))) as (g1 & E1 & Es & Eg).
      assert (p ++ [0] = layout (T ++ [t]) ++ []) as Ep by (unfold p; by rewrite layout_snoc, app_nil_r, <-app_assoc).
      assert (T ++ toks Bare (Some t) (32 :: rest) = (T ++ [t]) ++ toks Bare None rest) as -> by (by rewrite <-app_assoc).
      eapply leaves_eq; [apply (IH rest g1 (T ++ [t]) None); [done|lia|rewrite app_nil_r, length_app; cbn; lia]| |].
      * cbn [parse_loop app]. rewrite get_here. cbn [Z.eqb negb andb Pos.eqb]. rewrite E1. cbn [default opt in_token]. rewrite <-Ep, Es, wrote_put, app_nil_r. done.
      * cbn [default]. rewrite <-Ep, !length_app. cbn [length]. lia.
    + eapply leaves_eq; [apply (leaves_token fuel tl rest g T t c); [done|done|lia|lia|done]| |done].
      cbn [parse_loop app]. rewrite get_here, (proj2 (Z.eqb_neq c 0)), (proj2 (Z.eqb_neq c 32)) by done. done.
  - rewrite app_nil_r in HT. destruct (Z.eqb_spec c 32) as [->|Hc].
    + eapply leaves_eq; [apply (IH rest (g ++ [32]) T None); [done|lia|by rewrite app_nil_r]| |].
      * cbn [parse_loop app]. rewrite get_here. cbn [Z.eqb negb andb Pos.eqb]. by rewrite spot_consume, consume.
      * cbn [app]. by rewrite <-consume.
    + destruct (decide (length T < 16)%nat) as [HT'|HT'].
      * assert (toks Bare None (c :: rest) = toks Bare (Some []) (c :: rest)) as -> by (cbn; by rewrite (proj2 (Z.eqb_neq c 32))).
        eapply leaves_eq; [apply (leaves_token fuel tl rest g T [] c); [done|done|lia|lia|done]| |done].
        cbn [parse_loop app]. rewrite get_here, (proj2 (Z.eqb_neq c 0)), (proj2 (Z.eqb_neq c 32)), app_nil_r by done. cbn [negb andb].
        rewrite offsets_length. unfold MAX_ARGS. rewrite (proj2 (Z.leb_gt _ _)) by lia. rewrite offsets_snoc.
        unfold p. cbn [default]. unfold wrote. rewrite app_nil_r. done.
      * exists T, None, p, (g ++ (c :: rest) ++ 0 :: tl). cbn [parse_loop app in_token opt]. rewrite get_here, (proj2 (Z.eqb_neq c 0)), (proj2 (Z.eqb_neq c 32)), app_nil_r by done.
        cbn [negb andb]. rewrite offsets_length. unfold MAX_ARGS. rewrite (proj2 (Z.leb_le _ _)) by lia. split_and!; [done|done| |by destruct g|done].
        rewrite take_app_le, take_ge by lia. done.
Qed.

Lemma strip_newline_ok : ∀ fuel f pre tl, 0 ∉ f → (length f < fuel)%nat →
  ∃ tl', strip_newline fuel (wrote pre) (pre ++ f ++ 0 :: tl) = Done tt (pre ++ until_newline f ++ 0 :: tl') ∧
    length (pre ++ until_newline f ++ 0 :: tl') = length (pre ++ f ++ 0 :: tl).
Proof.
  induction fuel as [|fuel IH]; intros f pre tl H0 Hf; [lia|].
  assert (∀ c R A (k : Z → K (list Z) A), (line_get (wrote pre) ≫= k) (pre ++ c :: R) = k c (pre ++ c :: R)) as Hget.
  { intros c R A k. replace (wrote pre) with (spot pre []) by (unfold spot, wrote; cbn; lia). apply (get_here pre [] c R k). }
  destruct f as [|c f]; cbn [strip_newline until_newline app]; rewrite Hget; [by exists tl|].
  apply not_elem_of_cons in H0 as [Hc0 H0]. cbn [length] in Hf. rewrite (proj2 (Z.eqb_neq c 0)) by done. destruct (Z.eqb_spec c 10) as [->|Hc].
  - exists (f ++ 0 :: tl). split; [|rewrite !length_app; cbn; by rewrite length_app]. unfold line_set, kupd, wrote. rewrite zset_lt by (rewrite length_app; cbn; lia).
    by rewrite Nat2Z.id, insert_app_r_alt, Nat.sub_diag by lia.
  - destruct (IH f (pre ++ [c]) tl) as (tl' & E & El); [done|lia|]. exists tl'. rewrite wrote_put in E. rewrite <-!app_assoc in E, El. by split.
Qed.

Lemma no_nul_snoc (t : list Z) c : 0 ∉ t → c ≠ 0 → 0 ∉ t ++ [c].
Proof. intros Ht Hc. rewrite not_elem_of_app, list_elem_of_singleton. split; [done|congruence]. Qed.
Lemma toks_no_nul n : ∀ l q cur, (length l ≤ n)%nat → 0 ∉ l → 0 ∉ default [] cur → Forall (λ t, 0 ∉ t) (toks q cur l).
Proof.
  induction n as [|n IH]; intros [|c l] q cur Hl H0 Hc; cbn [length] in Hl; try lia; try (cbn; destruct cur; by repeat constructor).
  apply not_elem_of_cons in H0 as [Hc0 H0]. set (t := default [] cur) in *.
  assert (∀ d l2, d :: l2 = l → d ≠ 0 ∧ 0 ∉ l2 ∧ (length l2 ≤ n)%nat) as Htwo.
  { intros d l2 <-. apply not_elem_of_cons in H0 as [? ?]. cbn in Hl. split_and!; [done|done|lia]. }
  assert (∀ q d, d ≠ 0 → Forall (λ t, 0 ∉ t) (toks q (Some (t ++ [d])) l)) as Hone by (intros; apply IH; [lia|done|by apply no_nul_snoc]).
  assert (∀ q, Forall (λ t, 0 ∉ t) (toks q (Some t) l)) as Hsame by (intros; apply IH; [lia|done|done]).
  destruct q; cbn [toks]; fold t.
  - destruct (c =? 32). { destruct cur; [constructor; [done|]|]; (apply IH; [lia|done|set_solver]). }
    destruct (c =? 39); [done|]. destruct (c =? 34); [done|]. destruct (c =? 92); [|by apply Hone].
    destruct l as [|d l2]; [repeat constructor; by apply no_nul_snoc|]. destruct (Htwo d l2 eq_refl) as (Hd & H2 & Hl2).
    apply IH; [done|done|by apply no_nul_snoc].
  - destruct (c =? 39); [done|by apply Hone].
  - destruct (c =? 34); [done|]. destruct (c =? 92); [|by apply Hone].
    destruct l as [|d l2]; [repeat constructor; by apply no_nul_snoc|]. destruct (Htwo d l2 eq_refl) as (Hd & H2 & Hl2).
    destruct (_ || _); [|by apply Hone]. apply IH; [done|done|by apply no_nul_snoc].
Qed.
(** The arguments that the offsets [argv] point to. *)
Definition strings_at (line argv : list Z) : list (list Z) := (λ a, cstring (drop (Z.to_nat a) line)) <$> argv.
Lemma strings_at_ok line argv ts : Forall2 (string_at line) argv ts → strings_at line argv = ts.
Proof.
  induction 1 as [|a t argv ts (Ha & H0 & r & E) _ IH]; [done|]. unfold strings_at in *. rewrite fmap_cons, IH, E. f_equal. by apply cstring_app.
Qed.

Lemma parse_line_lemma f tl : 0 ∉ f →
  ∃ argv line', parse_line (f ++ 0 :: tl) = Done argv line' ∧ Forall2 (string_at line') argv (arguments f) ∧ length line' = length (f ++ 0 :: tl).
Proof.
  intros H0. unfold parse_line. rewrite kget_bind.
  destruct (strip_newline_ok (length (f ++ 0 :: tl)) f [] tl H0) as (tl' & E & El); [rewrite length_app; cbn; lia|].
  cbn [app wrote length] in E, El. change (wrote []) with 0 in E. kbind E.
  set (n := until_newline f) in *. assert (0 ∉ n) as Hn.
  { unfold n. clear -H0. induction f as [|c f IH]; [done|]. apply not_elem_of_cons in H0 as [Hc H0]. cbn. destruct (c =? 10); [set_solver|].
    rewrite not_elem_of_cons. split; [done|by apply IH]. }
  destruct (parse_loop_ok tl' (length (f ++ 0 :: tl)) n [] [] None) as (T & cur & p & R & Er & Hp & Ht & HR & Hl);
    [done|rewrite <-El, length_app; cbn; lia|cbn; lia|].
  cbn [default app toks in_token opt offsets layout] in Er. change (spot (layout [] ++ []) []) with 0 in Er. change (wrote (layout [] ++ [])) with 0 in Er.
  assert (Forall (λ t, 0 ∉ t) (T ++ opt cur)) as Hnul.
  { rewrite Ht. apply Forall_take. eapply toks_no_nul; [reflexivity|done|cbn; set_solver]. }
  kbind Er. cbn [fst snd]. destruct cur as [t|]; cbn [in_token opt default] in *.
  - destruct R as [|x R]; [done|]. exists (offsets 0 (T ++ [t])), ((p ++ [0]) ++ R). split_and!.
    + rewrite (put_bind p x [] R 0 (λ _, mret (offsets 0 (T ++ [t])))). done.
    + replace ((p ++ [0]) ++ R) with (layout (T ++ [t]) ++ R) by (by rewrite Hp, layout_snoc, <-!app_assoc).
      change (arguments f) with (take 16 ([] ++ toks Bare None n)). rewrite <-Ht. exact (layout_strings (T ++ [t]) [] R Hnul).
    + etransitivity; [|exact El]. etransitivity; [|exact Hl]. rewrite !length_app. cbn. lia.
  - rewrite app_nil_r in *. exists (offsets 0 T), (p ++ R). split_and!; [done| |].
    + change (arguments f) with (take 16 ([] ++ toks Bare None n)). rewrite <-Ht, Hp. exact (layout_strings T [] R Hnul).
    + etransitivity; [exact Hl|exact El].
Qed.
