(* ===== verification/ShellExpand.v ===== *)
(** * The shell: expanding variables

    [expand_variables] writes the expansion of a line into an array of a given size, or
    reports that it does not fit; it never writes outside the array. *)
From Equations Require Import Equations.
From S2P Require Import Prelude Shell ShellCorrect ShellLine.

(** ** The expansion of a line *)

Lemma var_chars_length s : (length (var_chars s).2 ≤ length s)%nat.
Proof. induction s as [|c s IH]; cbn; [lia|]. destruct (is_var_char c); cbn; lia. Qed.

Definition next_char (l : list Z) : Z := default 0 (head l).
(** The characters that a backslash protects. *)
Definition escapes (q : Quote) (n : Z) : bool :=
  match q with
  | Bare => n =? 36
  | Double => (n =? 36) || (n =? 34) || (n =? 92)
  | Single => false
  end.
(** The quotes after a quote character [c]. *)
Definition toggle (q : Quote) (c : Z) : option Quote :=
  match q with
  | Bare => if c =? 39 then Some Single else if c =? 34 then Some Double else None
  | Single => if c =? 39 then Some Bare else None
  | Double => if c =? 34 then Some Bare else None
  end.

Section expansion.
Context (getvar : list Z → option (list Z)).

#[local] Obligation Tactic := intros; rewrite ?length_drop; cbn; (lia || (match goal with |- context [var_chars ?l] => pose proof (var_chars_length l) end; lia)).
Equations expansion (q : Quote) (l : list Z) : list Z by wf (length l) lt :=
  expansion q [] := [];
  expansion q (c :: l1) :=
    match toggle q c with
    | Some q' => c :: expansion q' l1
    | None =>
        if bool_decide (q = Single) then c :: expansion q l1 else
        if c =? 92 then
          if escapes q (next_char l1) then next_char l1 :: expansion q (drop 1 l1) else c :: expansion q l1
        else if c =? 36 then
          if next_char l1 =? 36 then 36 :: expansion q (drop 1 l1) else
          if is_var_start (next_char l1) then
            default [] (getvar (take 31 (var_chars l1).1)) ++ expansion q (var_chars l1).2
          else 36 :: expansion q l1
        else c :: expansion q l1
    end.

Lemma var_chars_app s : (var_chars s).1 ++ (var_chars s).2 = s.
Proof. induction s as [|c s IH]; [done|]. cbn. destruct (is_var_char c); [|done]. cbn. by rewrite IH. Qed.

(** The expansion of a string is a string. *)
Lemma expansion_no_nul q l : (∀ n v, getvar n = Some v → 0 ∉ v) → 0 ∉ l → 0 ∉ expansion q l.
Proof.
  intros Hg. remember (length l) as k eqn:Ek. revert q l Ek. induction k as [k IH] using lt_wf_ind. intros q l -> H0.
  destruct l as [|c l1]; simp expansion. apply not_elem_of_cons in H0 as [Hc H0].
  assert (∀ q' l', (length l' ≤ length l1)%nat → (∃ p, p ++ l' = l1) → 0 ∉ expansion q' l') as H1.
  { intros q' l' Hl [p <-]. eapply IH; [|reflexivity|set_solver]. cbn. lia. }
  assert (0 ∉ expansion q l1) as Hone by (apply H1; [done|by exists []]).
  assert (0 ∉ expansion q (drop 1 l1)) as Htwo by (apply H1; [rewrite length_drop; lia|exists (take 1 l1); apply take_drop]).
  destruct (toggle q c) as [q'|]; [apply not_elem_of_cons; split; [done|]; apply H1; [done|by exists []]|].
  assert (0 ∉ c :: expansion q l1) as Hkeep by (by apply not_elem_of_cons).
  destruct (bool_decide _); [done|]. destruct (c =? 92).
  { destruct (escapes q (next_char l1)) eqn:Ee; [|done]. apply not_elem_of_cons. split; [|done]. intros E. rewrite <-E in Ee. by destruct q. }
  destruct (c =? 36); [|done]. destruct (next_char l1 =? 36); [by apply not_elem_of_cons|]. destruct (is_var_start _); [|by apply not_elem_of_cons].
  apply not_elem_of_app. split; [|apply H1; [apply var_chars_length|eexists; apply var_chars_app]].
  destruct (getvar _) as [v|] eqn:Ev; [by eapply Hg|apply not_elem_of_nil].
Qed.
End expansion.
Lemma expansion_ext g g' q l : (∀ n, g n = g' n) → expansion g q l = expansion g' q l.
Proof.
  intros Hg. remember (length l) as k eqn:Ek. revert q l Ek. induction k as [k IH] using lt_wf_ind. intros q l ->.
  destruct l as [|c l1]; simp expansion; [done|]. pose proof (var_chars_length l1). rewrite Hg.
  assert (∀ q' l', (length l' ≤ length l1)%nat → expansion g q' l' = expansion g' q' l') as H1 by (intros; eapply IH; [|reflexivity]; cbn; lia).
  rewrite (H1 q l1), (H1 q (drop 1 l1)), (H1 q (var_chars l1).2) by (rewrite ?length_drop; lia).
  destruct (toggle q c); [by rewrite H1|done].
Qed.

(** ** Writing the output *)

(** The run puts [e] behind the output [o], with a NUL, when it fits an array of [size], and returns -1 otherwise. *)
Definition fits (size : Z) (run : K (list Z) Z) (o tl e : list Z) : Prop :=
  ∃ r out, run (o ++ tl) = Done r out ∧ length out = length (o ++ tl) ∧
    if decide (Z.of_nat (length (o ++ e)) < size) then r = 0 ∧ ∃ tl', out = o ++ e ++ 0 :: tl' else r = -1.

Section writing.
Context (size : Z).
Hypothesis Hsize : 0 < size < 2 ^ 64.

Lemma write_one {A} (o : list Z) x tl c (k : unit → K (list Z) A) :
  (kupd (λ out, zset out (Z.of_nat (length o)) c) ≫= k) (o ++ x :: tl) = k tt ((o ++ [c]) ++ tl).
Proof.
  apply bind_Done. unfold kupd. rewrite zset_lt by (rewrite length_app; cbn; lia).
  by rewrite Nat2Z.id, insert_app_r_alt, Nat.sub_diag, <-app_assoc by lia.
Qed.
Lemma fits_end o tl : size ≤ Z.of_nat (length (o ++ tl)) → Z.of_nat (length o) < size →
  fits size (kupd (λ out, zset out (Z.of_nat (length o)) 0);; mret 0) o tl [].
Proof.
  intros Hc Ho. rewrite length_app in Hc. destruct tl as [|x tl]; [cbn in Hc; lia|]. 
  exists 0, ((o ++ [0]) ++ tl). rewrite app_nil_r, decide_True by done. split_and!; [by rewrite write_one|rewrite !length_app; cbn; lia|done|].
  exists tl. by rewrite <-app_assoc.
Qed.
Lemma fits_put o tl e c k : size ≤ Z.of_nat (length (o ++ tl)) →
  (∀ tl', length (o ++ tl) = length ((o ++ [c]) ++ tl') → Z.of_nat (length (o ++ [c])) < size → fits size k (o ++ [c]) tl' e) →
  fits size (put_char size (Z.of_nat (length o)) c k) o tl (c :: e).
Proof.
  intros Hc Hk. unfold put_char. rewrite u64_small by lia. destruct (Z.leb_spec (size - 1) (Z.of_nat (length o))).
  - exists (-1), (o ++ tl). rewrite decide_False by (rewrite length_app; cbn; lia). by split_and!.
  - rewrite length_app in Hc. destruct tl as [|x tl]; [cbn in Hc; lia|].
    destruct (Hk tl) as (r & out & E & El & Hr); [rewrite !length_app; cbn; lia|rewrite length_app; cbn; lia|].
    exists r, out. rewrite write_one. rewrite <-app_assoc in Hr. cbn [app] in Hr. split_and!; [done|rewrite El, !length_app; cbn; lia|].
    case_decide; [|done]. destruct Hr as [-> (tl' & ->)]. split; [done|]. exists tl'. by rewrite <-app_assoc.
Qed.
(** Copying a value. *)
Lemma write_value {A} val : ∀ (o tl : list Z) (k : unit → K (list Z) A), (length val ≤ length tl)%nat →
  ∃ tl', (kfor (zip (seqZ (Z.of_nat (length o)) (Z.of_nat (length val))) val) (λ ic, kupd (λ out, zset out ic.1 ic.2)) ≫= k) (o ++ tl) =
    k tt ((o ++ val) ++ tl') ∧ length ((o ++ val) ++ tl') = length (o ++ tl).
Proof.
  induction val as [|c val IH]; intros o tl k Hl; [exists tl; by rewrite app_nil_r|]. destruct tl as [|x tl]; [cbn in Hl; lia|].
  cbn [length] in *. rewrite seqZ_cons by lia. cbn [zip zip_with kfor]. rewrite bind_assoc. cbn [fst snd]. rewrite write_one.
  replace (Z.succ (Z.of_nat (length o))) with (Z.of_nat (length (o ++ [c]))) by (rewrite length_app; cbn; lia).
  replace (Z.pred (Z.of_nat (S (length val)))) with (Z.of_nat (length val)) by lia.
  destruct (IH (o ++ [c]) tl k) as (tl' & E & El); [lia|]. exists tl'.
  replace (o ++ c :: val) with ((o ++ [c]) ++ val) by (by rewrite <-app_assoc). split; [exact E|]. rewrite El, !length_app. cbn. lia.
Qed.
Lemma fits_value o tl e val k : size ≤ Z.of_nat (length (o ++ tl)) → Z.of_nat (length val) < 2 ^ 32 → Z.of_nat (length o) < 2 ^ 63 →
  (∀ tl', length (o ++ tl) = length ((o ++ val) ++ tl') → Z.of_nat (length (o ++ val)) < size → fits size k (o ++ val) tl' e) →
  fits size (if size <=? u64 (Z.of_nat (length o) + Z.of_nat (length val)) then mret (-1) else
    kfor (zip (seqZ (Z.of_nat (length o)) (Z.of_nat (length val))) val) (λ ic, kupd (λ out, zset out ic.1 ic.2));; k) o tl (val ++ e).
Proof.
  intros Hc Hv Ho Hk. rewrite u64_small by lia. destruct (Z.leb_spec size (Z.of_nat (length o) + Z.of_nat (length val))).
  - exists (-1), (o ++ tl). rewrite decide_False by (rewrite !length_app; lia). by split_and!.
  - rewrite length_app in Hc. destruct (write_value val o tl (λ _, k)) as (tl' & E & El); [lia|].
    destruct (Hk tl') as (r & out & E2 & El2 & Hr); [done|rewrite length_app; lia|]. exists r, out. rewrite E.
    rewrite <-app_assoc in Hr. split_and!; [done|congruence|]. case_decide; [|done]. destruct Hr as [-> (tl2 & ->)]. split; [done|].
    exists tl2. by rewrite <-!app_assoc.
Qed.
End writing.

(** ** Reading the input *)

Lemma char_at_app pre rest (k : nat) c : (rest ++ [0]) !! k = Some c → char_at (pre ++ rest) (Z.of_nat (length pre) + Z.of_nat k) = Some c.
Proof.
  intros Hk. unfold char_at. rewrite <-Nat2Z.inj_add, zget_nat, <-app_assoc, lookup_app_r by lia. rewrite <-Hk. f_equal. lia.
Qed.
Lemma char_here pre c rest : char_at (pre ++ c :: rest) (Z.of_nat (length pre)) = Some c.
Proof. rewrite <-(Z.add_0_r (Z.of_nat (length pre))). by apply (char_at_app pre (c :: rest) 0). Qed.
Lemma char_end pre : char_at (pre ++ []) (Z.of_nat (length pre)) = Some 0.
Proof. rewrite <-(Z.add_0_r (Z.of_nat (length pre))). by apply (char_at_app pre [] 0). Qed.
Lemma char_next pre c rest : char_at (pre ++ c :: rest) (Z.of_nat (length pre) + 1) = Some (next_char rest).
Proof. apply (char_at_app pre (c :: rest) 1). by destruct rest. Qed.
Lemma var_end_ok : ∀ fuel rest pre, (length rest < fuel)%nat →
  var_end fuel (pre ++ rest) (Z.of_nat (length pre)) = Some (Z.of_nat (length pre + length (var_chars rest).1)).
Proof.
  induction fuel as [|fuel IH]; intros rest pre Hf; [lia|]. cbn [var_end]. destruct rest as [|c rest].
  - rewrite char_end. cbn. by rewrite Nat.add_0_r.
  - rewrite char_here. cbn -[is_var_char]. destruct (is_var_char c); [|cbn; by rewrite Nat.add_0_r]. cbn [length fst] in *.
    replace (Z.of_nat (length pre) + 1) with (Z.of_nat (length (pre ++ [c]))) by (rewrite length_app; cbn; lia).
    rewrite (cons_middle c pre rest), app_assoc, IH by lia. rewrite length_app. cbn. do 2 f_equal. lia.
Qed.
Lemma var_name_ok pre rest :
  var_name (pre ++ rest) (Z.of_nat (length pre)) (Z.of_nat (length pre + length (var_chars rest).1)) = take 31 (var_chars rest).1.
Proof.
  unfold var_name, VAR_NAME_MAX. replace (Z.of_nat (length pre + length (var_chars rest).1) - Z.of_nat (length pre)) with (Z.of_nat (length (var_chars rest).1)) by lia.
  rewrite Nat2Z.id, drop_app_length. rewrite <-(var_chars_app rest) at 3. destruct (Z.leb_spec 32 (Z.of_nat (length (var_chars rest).1))).
  - by rewrite take_app_le by lia.
  - by rewrite Nat2Z.id, take_app_length, take_ge by lia.
Qed.

Definition single_of (q : Quote) : Z := match q with Single => 1 | _ => 0 end.
Definition double_of (q : Quote) : Z := match q with Double => 1 | _ => 0 end.

Section loop.
Context (getvar : list Z → option (list Z)) (size : Z).
Hypothesis Hsize : 0 < size < 2 ^ 32.
Hypothesis Hvalues : ∀ n v, getvar n = Some v → Z.of_nat (length v) < 2 ^ 32.

(** From any point of the input the loop writes the expansion of the rest. *)
Definition expands (fuel : nat) : Prop := ∀ rest pre q o tl, 0 ∉ rest → (length rest < fuel)%nat →
  size ≤ Z.of_nat (length (o ++ tl)) → Z.of_nat (length o) < size →
  fits size (expand_loop getvar fuel (pre ++ rest) size (Z.of_nat (length pre)) (Z.of_nat (length o)) (single_of q) (double_of q)) o tl (expansion getvar q rest).

(** The continuation after one character of output and [n] of input. *)
Lemma expands_put fuel rest pre' q o tl c input ri wi : expands fuel → 0 ∉ rest → (length rest < fuel)%nat →
  size ≤ Z.of_nat (length (o ++ tl)) → input = pre' ++ rest → ri = Z.of_nat (length pre') → wi = Z.of_nat (length o) + 1 →
  fits size (put_char size (Z.of_nat (length o)) c (expand_loop getvar fuel input size ri wi (single_of q) (double_of q))) o tl (c :: expansion getvar q rest).
Proof.
  intros Hex H0 Hf Hc -> -> ->. apply fits_put; [lia|done|]. intros tl' El Hl.
  replace (Z.of_nat (length o) + 1) with (Z.of_nat (length (o ++ [c]))) by (rewrite length_app; cbn; lia). apply Hex; [done|done|by rewrite <-El|done].
Qed.
Lemma fits_kopt {A} (x : option A) c (k : A → K (list Z) Z) o tl e : x = Some c → fits size (k c) o tl e → fits size (kopt (λ _, x) ≫= k) o tl e.
Proof. intros -> (r & out & E & H). exists r, out. by rewrite (kopt_bind (λ _, Some c) k (o ++ tl) c). Qed.
(** A [$] that is neither quoted nor escaped. *)
Lemma expands_dollar fuel l1 pre q o tl : expands fuel → 0 ∉ l1 → (length l1 < fuel)%nat → size ≤ Z.of_nat (length (o ++ tl)) → Z.of_nat (length o) < size →
  let next := expand_loop getvar fuel (pre ++ 36 :: l1) size in let ri := Z.of_nat (length pre) in let wi := Z.of_nat (length o) in
  fits size (n ← kopt (λ _, char_at (pre ++ 36 :: l1) (ri + 1));
    if n =? 36 then put_char size wi 36 (next (ri + 2) (wi + 1) (single_of q) (double_of q)) else
    if is_var_start n then
      stop ← kopt (λ _, var_end (S (length (pre ++ 36 :: l1))) (pre ++ 36 :: l1) (ri + 1));
      match getvar (var_name (pre ++ 36 :: l1) (ri + 1) stop) with
      | Some val =>
          let vlen := Z.of_nat (length val) in
          if size <=? u64 (wi + vlen) then mret (-1) else
          kfor (zip (seqZ wi vlen) val) (λ ic, kupd (λ out, zset out ic.1 ic.2));;
          next stop (wi + vlen) (single_of q) (double_of q)
      | None => next stop wi (single_of q) (double_of q)
      end
    else put_char size wi 36 (next (ri + 1) (wi + 1) (single_of q) (double_of q))) o tl
    (if next_char l1 =? 36 then 36 :: expansion getvar q (drop 1 l1) else
     if is_var_start (next_char l1) then default [] (getvar (take 31 (var_chars l1).1)) ++ expansion getvar q (var_chars l1).2
     else 36 :: expansion getvar q l1).
Proof.
  intros IH H0 Hf Hc Ho next ri wi. eapply fits_kopt; [apply char_next|]. unfold next, ri, wi.
  assert (pre ++ 36 :: l1 = (pre ++ [36]) ++ l1) as E1 by (by rewrite <-app_assoc).
  assert (Z.of_nat (length pre) + 1 = Z.of_nat (length (pre ++ [36]))) as Er by (rewrite length_app; cbn; lia).
  destruct (Z.eqb_spec (next_char l1) 36) as [E36|].
  { destruct l1 as [|d l2]; [done|]. cbn in E36. subst d. cbn [drop length] in *. rewrite drop_0. apply not_elem_of_cons in H0 as [_ H0].
    eapply (expands_put _ _ (pre ++ [36; 36])); [done|done|lia|done|by rewrite <-app_assoc|rewrite length_app; cbn; lia|done]. }
  destruct (is_var_start (next_char l1)); [|by eapply expands_put].
  eapply fits_kopt; [rewrite Er, E1; apply var_end_ok; rewrite length_app; cbn; lia|]. rewrite Er, E1, var_name_ok.
  pose proof (var_chars_length l1). pose proof (var_chars_app l1) as Ev.
  assert (0 ∉ (var_chars l1).2) as H0' by (intros Hin; apply H0; rewrite <-Ev; apply elem_of_app; by right).
  assert ((pre ++ [36]) ++ l1 = ((pre ++ [36]) ++ (var_chars l1).1) ++ (var_chars l1).2) as E2 by (by rewrite <-(app_assoc (pre ++ [36])), Ev).
  rewrite E2, <-length_app. destruct (getvar _) as [val|] eqn:Eg; cbn [default].
  - apply fits_value; [done|by eapply Hvalues|lia|]. intros tl' El Hl. rewrite <-Nat2Z.inj_add, <-length_app.
    apply IH; [done|lia|by rewrite <-El|done].
  - apply IH; [done|lia|done|done].
Qed.
Lemma expand_loop_ok fuel : expands fuel.
Proof.
  induction fuel as [|fuel IH]; intros rest pre q o tl H0 Hf Hc Ho; [lia|]. cbn [expand_loop]. destruct rest as [|c l1].
  { eapply fits_kopt; [apply char_end|]. simp expansion. by apply fits_end. }
  apply not_elem_of_cons in H0 as [Hc0 H0]. cbn [length] in Hf. eapply fits_kopt; [apply char_here|]. rewrite (proj2 (Z.eqb_neq c 0)) by done.
  assert (pre ++ c :: l1 = (pre ++ [c]) ++ l1) as E1 by (by rewrite <-app_assoc).
  assert (Z.of_nat (length pre) + 1 = Z.of_nat (length (pre ++ [c]))) as Er by (rewrite length_app; cbn; lia).
  assert (∀ q' d, fits size (put_char size (Z.of_nat (length o)) d
      (expand_loop getvar fuel (pre ++ c :: l1) size (Z.of_nat (length pre) + 1) (Z.of_nat (length o) + 1) (single_of q') (double_of q'))) o tl
      (d :: expansion getvar q' l1)) as Hone by (intros; eapply expands_put; [done|done|lia|done|done|done|done]).
  assert (escapes q (next_char l1) = true → fits size (put_char size (Z.of_nat (length o)) (next_char l1)
      (expand_loop getvar fuel (pre ++ c :: l1) size (Z.of_nat (length pre) + 2) (Z.of_nat (length o) + 1) (single_of q) (double_of q))) o tl
      (next_char l1 :: expansion getvar q (drop 1 l1))) as Htwo.
  { intros He. destruct l1 as [|d l2]; [by destruct q|]. apply not_elem_of_cons in H0 as [Hd H0]. cbn [length drop next_char head default] in *. rewrite drop_0.
    eapply (expands_put _ _ (pre ++ [c; d])); [done|done|lia|done|by rewrite <-app_assoc|rewrite length_app; cbn; lia|done]. }
  simp expansion. destruct q; cbn [toggle single_of double_of negb Z.eqb andb escapes] in *.
  - rewrite !andb_true_r. destruct (c =? 39); [apply (Hone Single)|]. destruct (c =? 34); [apply (Hone Double)|].
    rewrite bool_decide_eq_false_2 by done. destruct (Z.eqb_spec c 92) as [->|].
    + eapply fits_kopt; [apply char_next|]. cbn [andb]. destruct (next_char l1 =? 36) eqn:En; [|apply (Hone Bare)]. apply Z.eqb_eq in En as En'. rewrite <-En' at 1.
      by apply Htwo.
    + destruct (Z.eqb_spec c 36) as [->|]; [|apply (Hone Bare)]. apply (expands_dollar fuel l1 pre Bare); [done|done|lia|done|done].
  - rewrite andb_true_r, andb_false_r. destruct (c =? 39); [apply (Hone Bare)|]. rewrite bool_decide_eq_true_2 by done. apply (Hone Single).
  - rewrite andb_false_r, andb_true_r. destruct (c =? 34); [apply (Hone Bare)|]. rewrite bool_decide_eq_false_2 by done.
    destruct (Z.eqb_spec c 92) as [->|].
    + eapply fits_kopt; [apply char_next|]. cbn [andb]. destruct (_ || _ || _) eqn:En; [by apply Htwo|apply (Hone Double)].
    + destruct (Z.eqb_spec c 36) as [->|]; [|apply (Hone Double)]. apply (expands_dollar fuel l1 pre Double); [done|done|lia|done|done].
Qed.
End loop.
