(* ===== verification/ShellTheorems.v ===== *)
(** * The shell: theorems

    What the variables, the expansion of a line and its splitting do, and their
    composition as [main] uses them. *)
From S2P Require Import Prelude Shell ShellCorrect ShellLine ShellExpand.

(** ** Redirections *)

(** The operator an argument starts with, and what follows it. *)
Inductive Operator : Type := Input | Truncate | Append.
Definition operator (t : list Z) : option (Operator * list Z) :=
  match t with
  | 62 :: 62 :: u => Some (Append, u)
  | 62 :: u => Some (Truncate, u)
  | 60 :: u => Some (Input, u)
  | _ => None
  end.
(** The files of a command: where its input comes from, where its output goes and whether it is appended. *)
Abbreviation Files := (option (list Z) * option (list Z) * Z)%type.
Definition redirected (op : Operator) (name : list Z) (f : Files) : Files :=
  match op with
  | Input => (Some name, f.1.2, f.2)
  | Truncate => (f.1.1, Some name, 0)
  | Append => (f.1.1, Some name, 1)
  end.
(** The arguments without the redirections, and the files; an operator takes what follows it in its argument, or the next
    argument, and without either the command is an error. *)
Fixpoint redirections (ts : list (list Z)) (f : Files) : option (list (list Z) * Files) :=
  match ts with
  | [] => Some ([], f)
  | t :: rest =>
      match operator t, rest with
      | None, _ => r ← redirections rest f; Some (t :: r.1, r.2)
      | Some (op, []), name :: rest' => redirections rest' (redirected op name f)
      | Some (op, []), [] => None
      | Some (op, name), _ => redirections rest (redirected op name f)
      end
  end.

Lemma string_at_char line a t (n : nat) : string_at line a t → (n ≤ length t)%nat → line_get (a + Z.of_nat n) line = Done (default 0 (t !! n)) line.
Proof.
  intros (Ha & H0 & r & Hd) Hn. unfold line_get, kopt. rewrite <-(Z2Nat.id a), <-Nat2Z.inj_add, zget_nat by done.
  rewrite <-lookup_drop, Hd. destruct (decide (n = length t)) as [->|].
  - rewrite lookup_app_r, Nat.sub_diag by lia. cbn. by rewrite (lookup_ge_None_2 t) by lia.
  - rewrite lookup_app_l by lia. destruct (lookup_lt_is_Some_2 t n) as [c Hc]; [lia|]. by rewrite Hc.
Qed.
Lemma string_at_drop line a t (n : nat) : string_at line a t → (n ≤ length t)%nat → string_at line (a + Z.of_nat n) (drop n t).
Proof.
  intros (Ha & H0 & r & Hd) Hn. split_and!; [lia| |].
  - intros Hin. apply H0. rewrite <-(take_drop n t). apply elem_of_app. by right.
  - exists r. replace (Z.to_nat (a + Z.of_nat n)) with (Z.to_nat a + n)%nat by lia. rewrite <-drop_drop, Hd, drop_app_le by done. done.
Qed.

Section redirect.
Context (line : list Z).
Abbreviation at_ := (string_at line).

(** What [redirect_name] finds for an operator of [n] characters. *)
Definition operand (u : list Z) (rest : list (list Z)) : option (list Z * list (list Z)) :=
  match u, rest with
  | _ :: _, _ => Some (u, rest)
  | [], a :: rest' => Some (a, rest')
  | [], [] => None
  end.
Lemma operator_plain c t : c ≠ 62 → c ≠ 60 → operator (c :: t) = None.
Proof. intros H1 H2. destruct c as [|p|p]; [done| |done]. do 6 (destruct p as [p|p|]; try done). Qed.
Lemma operator_truncate t : head t ≠ Some 62 → operator (62 :: t) = Some (Truncate, t).
Proof. destruct t as [|c t]; [done|]. intros H. destruct c as [|p|p]; [done| |done]. do 6 (destruct p as [p|p|]; try done). Qed.
Lemma redirections_operator t rest f op u : operator t = Some (op, u) →
  redirections (t :: rest) f = r ← operand u rest; redirections r.2 (redirected op r.1 f).
Proof. intros E. cbn [redirections]. rewrite E. by destruct u, rest. Qed.
Lemma redirections_plain t rest f : operator t = None → redirections (t :: rest) f = r ← redirections rest f; Some (t :: r.1, r.2).
Proof. intros E. cbn [redirections]. by rewrite E. Qed.

Lemma redirect_name_ok a t n argv ts : at_ a t → (n ≤ length t)%nat → Forall2 at_ argv ts →
  ∃ r, redirect_name a (Z.of_nat n) argv line = Done r line ∧
    match r, operand (drop n t) ts with
    | Some (x, argv'), Some (u, ts') => at_ x u ∧ Forall2 at_ argv' ts' ∧ (length argv' ≤ length argv)%nat
    | None, None => True
    | _, _ => False
    end.
Proof.
  intros Ha Hn Hf. unfold redirect_name. kbind (string_at_char _ _ _ _ Ha Hn). pose proof (string_at_drop _ _ _ _ Ha Hn) as Hd.
  pose proof Ha as (_ & H0 & _). destruct (drop n t) as [|c u] eqn:Ed.
  - assert (length t ≤ n)%nat by (apply (f_equal length) in Ed; rewrite length_drop in Ed; cbn in Ed; lia).
    rewrite (lookup_ge_None_2 t) by lia. cbn. destruct Hf as [|x u argv ts Hx Hf]; [by eexists|]. eexists. split; [reflexivity|]. cbn. split_and!; [done|done|lia].
  - assert (t !! n = Some c) as -> by (rewrite <-(Nat.add_0_r n), <-lookup_drop, Ed; done).
    assert (c ≠ 0) as Hc by (intros ->; apply H0; rewrite <-(take_drop n t), Ed; set_solver).
    change (default 0 (Some c)) with c. rewrite (proj2 (Z.eqb_neq c 0)) by done. eexists. split; [reflexivity|]. by split_and!.
Qed.

(** The files of a [Redirect], whose names are offsets in the line. *)
Definition name_at (x : option Z) (u : option (list Z)) : Prop := option_Forall2 at_ x u.
Definition files_at (r : Redirect) (f : Files) : Prop := name_at (in_file r) f.1.1 ∧ name_at (out_file r) f.1.2 ∧ append r = f.2.
Definition redirects_to (run : K (list Z) (option (list Z * Redirect))) (out : list Z) (e : option (list (list Z) * Files)) : Prop :=
  ∃ x, run line = Done x line ∧
    match x, e with
    | Some (argv, r), Some (ts, f) => ∃ argv', argv = out ++ argv' ∧ Forall2 at_ argv' ts ∧ files_at r f
    | None, None => True
    | _, _ => False
    end.

Lemma redirect_loop_ok fuel : ∀ argv ts out r f, (length argv ≤ fuel)%nat → Forall2 at_ argv ts → files_at r f →
  redirects_to (redirect_loop fuel argv out r) out (redirections ts f).
Proof.
  induction fuel as [|fuel IH]; intros argv ts out r f Hn Hf Hr; destruct Hf as [|a t argv ts Ha Hf]; cbn [length] in Hn; try lia.
  1,2: exists (Some (out, r)); split; [done|]; exists []; by rewrite app_nil_r.
  assert (∀ n u op r' , (n ≤ length t)%nat → drop n t = u → operator t = Some (op, u) →
    (∀ x name, at_ x name → files_at (r' x) (redirected op name f)) →
    redirects_to (g ← redirect_name a (Z.of_nat n) argv; match g with None => mret None | Some (x, rest') => redirect_loop fuel rest' out (r' x) end)
      out (redirections (t :: ts) f)) as Hop.
  { intros n u op r' Hl Hu Eo Hr'. destruct (redirect_name_ok a t n argv ts Ha Hl Hf) as (g & E & Hg). rewrite (redirections_operator _ _ _ _ _ Eo).
    unfold redirects_to. rewrite Hu in Hg. rewrite (bind_Done _ _ _ _ _ E). destruct g as [[x rest']|], (operand u ts) as [[name ts']|]; try done.
    - destruct Hg as (Hx & Hrest & Hlen). apply IH; [lia|done|by apply Hr'].
    - by exists None. }
  assert (operator t = None → redirects_to (redirect_loop fuel argv (out ++ [a]) r) out (redirections (t :: ts) f)) as Hplain.
  { intros Eo. rewrite redirections_plain by done. destruct (IH argv ts (out ++ [a]) r f) as (x & Ex & Hx); [lia|done|done|]. exists x. split; [done|].
    destruct x as [[argv1 r1]|], (redirections ts f) as [[ts1 f1]|]; try done. destruct Hx as (argv' & -> & Hf' & Hr').
    exists (a :: argv'). rewrite <-app_assoc. split_and!; [done|by constructor|done]. }
  destruct Hr as (Hi & Ho & Happ). cbn [redirect_loop]. pose proof (string_at_char _ _ _ 0 Ha ltac:(lia)) as E0.
  rewrite Z.add_0_r in E0. unfold redirects_to. rewrite (bind_Done _ _ _ _ _ E0). destruct t as [|c t].
  { change (default 0 ([] !! 0%nat)) with 0. cbn [Z.eqb andb]. rewrite mret_bind. by apply Hplain. }
  change (default 0 ((c :: t) !! 0%nat)) with c. destruct (Z.eqb_spec c 62) as [->|H62].
  - pose proof (string_at_char _ _ _ 1 Ha ltac:(cbn; lia)) as E1. rewrite (bind_Done _ _ _ _ _ E1).
    destruct t as [|d u]; [|change (default 0 ((62 :: d :: u) !! 1%nat)) with d; destruct (Z.eqb_spec d 62) as [->|Hd]]; cbn [andb].
    + apply (Hop 1%nat [] Truncate (λ x, mkRedirect (in_file r) (Some x) 0)); [cbn; lia|done|done|]. intros. split_and!; [done|by constructor|done].
    + apply (Hop 2%nat u Append (λ x, mkRedirect (in_file r) (Some x) 1)); [cbn; lia|done|done|]. intros. split_and!; [done|by constructor|done].
    + apply (Hop 1%nat (d :: u) Truncate (λ x, mkRedirect (in_file r) (Some x) 0)); [cbn; lia|done|apply operator_truncate; cbn; congruence|].
      intros. split_and!; [done|by constructor|done].
  - rewrite mret_bind. cbn [andb]. destruct (Z.eqb_spec c 60) as [->|H60]; [|by apply Hplain, operator_plain].
    apply (Hop 1%nat t Input (λ x, mkRedirect (Some x) (out_file r) (append r))); [cbn; lia|done|done|]. intros. split_and!; [by constructor|done|done].
Qed.
End redirect.

(** ** A line of the main loop *)

Lemma vars_value s m n v : vars_map s m → m !! n = Some v → 0 ∉ v ∧ (length v < 128)%nat.
Proof.
  intros [(l & Hs & ->) Hshort] Hv. split; [|by apply (Hshort n)]. apply elem_of_list_to_map in Hv as [i Hi]%list_elem_of_lookup; [|apply Hs].
  destruct (va_entry _ _ Hs _ _ _ Hi) as (a & b & _ & _ & _ & <-). apply cstring_no_nul.
Qed.
Lemma var_value_ok s m name : vars_map s m → var_value s name = m !! name.
Proof. intros Hm. unfold var_value. by rewrite (getvar_lemma _ _ _ Hm). Qed.
Lemma stripped_no_nul l : 0 ∉ stripped l.
Proof. induction l as [|c l IH]; cbn; [set_solver|]. destruct (Z.eqb_spec c 0); [set_solver|]. cbn. destruct (c =? 10); set_solver. Qed.

(** The two sides of the first bar outside quotes. *)
Fixpoint bar (q : Quote) (l : list Z) : option (list Z * list Z) :=
  match l with
  | [] => None
  | c :: l1 =>
      match toggle q c with
      | Some q' => prod_map (cons c) id <$> bar q' l1
      | None =>
          match l1 with
          | d :: l2 =>
              if (c =? 92) && negb (bool_decide (q = Single)) then prod_map (app [c; d]) id <$> bar q l2 else
              if (c =? 124) && bool_decide (q = Bare) then Some ([], l1) else prod_map (cons c) id <$> bar q l1
          | [] => if (c =? 124) && bool_decide (q = Bare) then Some ([], []) else None
          end
      end
  end.
Lemma bar_cons q c d l : bar q (c :: d :: l) =
  match toggle q c with
  | Some q' => prod_map (cons c) id <$> bar q' (d :: l)
  | None =>
      if (c =? 92) && negb (bool_decide (q = Single)) then prod_map (app [c; d]) id <$> bar q l else
      if (c =? 124) && bool_decide (q = Bare) then Some ([], d :: l) else prod_map (cons c) id <$> bar q (d :: l)
  end.
Proof. done. Qed.
Lemma find_pipe_loop_cons c d l i s t : find_pipe_loop (c :: d :: l) i s t =
  if (c =? 92) && (s =? 0) then find_pipe_loop l (i + 2) s t else
  if (c =? 39) && (t =? 0) then find_pipe_loop (d :: l) (i + 1) (if s =? 0 then 1 else 0) t else
  if (c =? 34) && (s =? 0) then find_pipe_loop (d :: l) (i + 1) s (if t =? 0 then 1 else 0) else
  if (c =? 124) && (s =? 0) && (t =? 0) then Some i else find_pipe_loop (d :: l) (i + 1) s t.
Proof. done. Qed.
(** The index [r] is where [l], that starts at [i], splits into [e]. *)
Definition splits (r : option Z) (i : Z) (l : list Z) (e : option (list Z * list Z)) : Prop :=
  match e with
  | Some (x, y) => l = x ++ 124 :: y ∧ r = Some (i + Z.of_nat (length x))
  | None => r = None
  end.
Lemma splits_app r i l e p : splits r (i + Z.of_nat (length p)) l e → splits r i (p ++ l) (prod_map (app p) id <$> e).
Proof. destruct e as [[x y]|]; [|done]. intros [-> ->]. cbn. rewrite <-app_assoc, length_app. split; [done|]. f_equal. lia. Qed.
Lemma find_pipe_bar n : ∀ l q i, (length l ≤ n)%nat → splits (find_pipe_loop l i (single_of q) (double_of q)) i l (bar q l).
Proof.
  induction n as [|n IH]; intros l q i Hn; (destruct l as [|c l1]; [done|]); cbn [length] in Hn; [lia|].
  assert (∀ q', splits (find_pipe_loop l1 (i + 1) (single_of q') (double_of q')) i (c :: l1) (prod_map (cons c) id <$> bar q' l1)) as Hone
    by (intros q'; apply (splits_app _ _ _ _ [c]), IH; lia).
  assert (splits (Some i) i (124 :: l1) (Some ([], l1))) as Hbar by (split; [done|f_equal; cbn; lia]).
  destruct l1 as [|d l2].
  - cbn. destruct q; cbn; destruct (Z.eqb_spec c 39), (Z.eqb_spec c 34), (Z.eqb_spec c 124); subst; done.
  - assert (splits (find_pipe_loop l2 (i + 2) (single_of q) (double_of q)) i (c :: d :: l2) (prod_map (app [c; d]) id <$> bar q l2)) as Htwo
      by (apply (splits_app _ _ _ _ [c; d]), IH; cbn in *; lia).
    pose proof (Hone Bare) as HB. pose proof (Hone Single) as HS. pose proof (Hone Double) as HD. clear Hone IH.
    destruct q; cbn -[bar find_pipe_loop splits Z.eqb] in *; (rewrite find_pipe_loop_cons, bar_cons; cbn -[bar find_pipe_loop splits Z.eqb]);
      destruct (Z.eqb_spec c 92), (Z.eqb_spec c 39), (Z.eqb_spec c 34), (Z.eqb_spec c 124); try lia; subst; assumption.
Qed.

(** A line that ends in an ampersand and spaces. *)
Definition ends_in_ampersand (l l' : list Z) : Prop := ∃ k, l = l' ++ 38 :: replicate k 32.
Lemma skip_spaces_ok l : ∃ k, l = replicate k 32 ++ skip_spaces l ∧ head (skip_spaces l) ≠ Some 32.
Proof.
  induction l as [|c l (k & E & Hh)]; [by exists O|]. cbn. destruct (Z.eqb_spec c 32) as [->|Hc].
  - exists (S k). split; [exact (f_equal (cons 32) E)|done].
  - exists O. split; [done|]. cbn. congruence.
Qed.
Lemma reverse_spaces (k : nat) : reverse (replicate k 32) = replicate k 32.
Proof. by rewrite reverse_replicate. Qed.
Lemma background_ok l : match background l with Some l' => ends_in_ampersand l l' | None => ∀ l', ¬ ends_in_ampersand l l' end.
Proof.
  unfold background. destruct (skip_spaces_ok (reverse l)) as (k & E & Hh). apply (f_equal reverse) in E. rewrite reverse_involutive, reverse_app, reverse_spaces in E.
  assert (∀ l', ends_in_ampersand l l' → skip_spaces (reverse l) = 38 :: reverse l') as Hends.
  { intros l' [j ->]. rewrite reverse_app, reverse_cons, reverse_spaces, <-app_assoc. clear. induction j as [|j IH]; [done|exact IH]. }
  destruct (skip_spaces (reverse l)) as [|c s]; [by intros l' ?%Hends|]. destruct (Z.eqb_spec c 38) as [->|Hc].
  - exists k. rewrite E, reverse_cons, <-app_assoc. done.
  - intros l' ?%Hends. congruence.
Qed.

(** What a command line means: the expansion of the line with the variables [m], which is too long for the array, or runs in
    the background, or is two commands around a bar, or one command with its redirections. *)
Definition means (m : gmap (list Z) (list Z)) (bytes : list Z) (c : Command) (line : list Z) : Prop :=
  let e := expansion (λ n, m !! n) Bare (stripped bytes) in
  let alone := (length e < 512)%nat ∧ (∀ l, ¬ ends_in_ampersand e l) ∧ bar Bare e = None in
  match c with
  | TooLong => (512 ≤ length e)%nat
  | InBackground l => (length e < 512)%nat ∧ ends_in_ampersand e l
  | Pipeline l r => (length e < 512)%nat ∧ (∀ l, ¬ ends_in_ampersand e l) ∧ bar Bare e = Some (l, r)
  | BadRedirect => alone ∧ redirections (arguments e) (None, None, 0) = None
  | Simple args r => alone ∧ ∃ ts f, redirections (arguments e) (None, None, 0) = Some (ts, f) ∧ Forall2 (string_at line) args ts ∧ files_at line r f
  end.

Lemma expand_variables_lemma s m input size out : vars_map s m → 0 ∉ input → 0 < size < 2 ^ 32 → size ≤ Z.of_nat (length out) →
  fits size (expand_variables (var_value s) input size) [] out (expansion (λ n, m !! n) Bare input).
Proof.
  intros Hm H0 Hsize Hout.
  assert (∀ n v, var_value s n = Some v → Z.of_nat (length v) < 2 ^ 32) as Hv.
  { intros n v. rewrite (var_value_ok _ _ _ Hm). intros E. destruct (vars_value _ _ _ _ Hm E). lia. }
  rewrite <-(expansion_ext (var_value s)) by (intros n; by apply var_value_ok).
  exact (expand_loop_ok (var_value s) size Hsize Hv (S (length input)) input [] Bare [] out H0 ltac:(lia) Hout ltac:(cbn; lia)).
Qed.

Lemma parse_redirects_lemma line argv ts : Forall2 (string_at line) argv ts →
  redirects_to line (parse_redirects argv) [] (redirections ts (None, None, 0)).
Proof. intros Hf. apply redirect_loop_ok; [done|done|]. split_and!; [constructor|constructor|done]. Qed.

Lemma bar_length e l r : bar Bare e = Some (l, r) → find_pipe e = Some (Z.of_nat (length l)) ∧ e = l ++ 124 :: r.
Proof. intros E. pose proof (find_pipe_bar (length e) e Bare 0 ltac:(lia)) as H. rewrite E in H. by destruct H as [? ?]. Qed.
Lemma bar_none e : bar Bare e = None → find_pipe e = None.
Proof. intros E. pose proof (find_pipe_bar (length e) e Bare 0 ltac:(lia)) as H. by rewrite E in H. Qed.

Lemma shell_command_lemma s m bytes out : vars_map s m → 512 ≤ Z.of_nat (length out) →
  ∃ c out', shell_command s bytes out = Done c out' ∧ length out' = length out ∧ means m bytes c out'.
Proof.
  intros Hm Hout. pose proof (stripped_no_nul bytes) as H0. unfold shell_command, means, LINE_MAX. cbv zeta.
  destruct (expand_variables_lemma s m (stripped bytes) 512 out Hm H0 ltac:(lia) Hout) as (r & out1 & E & Hl1 & Hr).
  set (e := expansion _ _ _) in *. cbn [app] in *. change (256 * 2) with 512. kbind E. case_decide as He.
  2: { subst r. exists TooLong, out1. split_and!; [done|done|lia]. }
  destruct Hr as [-> [tl ->]]. assert (0 ∉ e) as He0.
  { apply expansion_no_nul; [|done]. intros n v Hv. by eapply vars_value. }
  cbn [Z.ltb Z.compare]. rewrite kget_bind, cstring_app by done. pose proof (background_ok e) as Hb. destruct (background e) as [l|] eqn:Eb.
  { destruct Hb as [k Hk]. exists (InBackground l). eexists. split; [|split]; [| |split; [lia|by exists k]].
    - erewrite bind_Done; [reflexivity|]. unfold kupd. rewrite zset_lt by (rewrite Hk, !length_app; cbn; lia). reflexivity.
    - rewrite length_insert. exact Hl1. }
  destruct (bar Bare e) as [[l r]|] eqn:Ebar.
  { destruct (bar_length _ _ _ Ebar) as [Ef Es]. rewrite Ef. exists (Pipeline l r). eexists. split; [|split]; [| |split_and!; [lia|done|done]].
    - erewrite bind_Done; [|unfold kupd; rewrite zset_lt by (rewrite Es, !length_app; cbn; lia); reflexivity].
      replace (Z.of_nat (length l) + 1) with (Z.of_nat (length (l ++ [124]))) by (rewrite length_app; cbn; lia).
      rewrite !Nat2Z.id, Es, take_app_length. rewrite (cons_middle 124 l r), app_assoc, drop_app_length. reflexivity.
    - rewrite length_insert, <-(app_assoc l), <-Hl1. by rewrite Es. }
  rewrite (bar_none _ Ebar). destruct (parse_line_lemma e tl He0) as (argv & line & Ep & Hstr & Hl). kbind Ep.
  destruct (parse_redirects_lemma line argv _ Hstr) as (x & Ex & Hx). kbind Ex.
  destruct x as [[args r]|], (redirections (arguments e) _) as [[ts f]|] eqn:Er; try done.
  - destruct Hx as (argv' & -> & Hf & Hr). exists (Simple argv' r), line. split_and!; [done|congruence|lia|done|done|]. by exists ts, f.
  - exists BadRedirect, line. split_and!; [done|congruence|lia|done|done|done].
Qed.

(** C12. A line of the shell's main loop.  Whatever line is read, and whatever the variables
    are, [main] expands and splits it without leaving its arrays, and what it then runs is
    what the line means: the expansion of the line (variables outside single quotes, a
    missing one empty, backslashes and quotes kept), an error when that does not fit the
    array of 512 characters, a background command when it ends in an ampersand, the two
    commands around its first bar outside quotes, or else its arguments, in the order of
    the line and at most 16, without the redirections, whose last file names are those
    that are opened; a redirection without a file name is an error. *)
Theorem shell_command_correct s m bytes out : vars_map s m → 512 ≤ Z.of_nat (length out) →
  ∃ c out', shell_command s bytes out = Done c out' ∧ length out' = length out ∧ means m bytes c out'.
Proof. apply shell_command_lemma. Qed.

(** The table with one variable, [A = x y]. *)
Definition one_var : Vars := mkVars (copy_string 32 [65] :: replicate 31 (replicate 32 0)) (copy_string 128 [120; 32; 121] :: replicate 31 (replicate 128 0)) 1.
Lemma one_var_map : vars_map one_var {[ [65] := [120; 32; 121] ]}.
Proof.
  split; [|by apply map_Forall_singleton; cbn; lia]. exists [([65], [120; 32; 121])]. split; [|done]. split; try (cbn; done || lia).
  - cbn. apply NoDup_singleton.
  - intros [|i] n v [= <- <-]. by exists (copy_string 32 [65]), (copy_string 128 [120; 32; 121]).
Qed.
Lemma shell_command_correct_witness :
  ∃ c out', shell_command one_var [101; 32; 36; 65; 32; 62; 102; 10] (replicate 512 0) = Done c out' ∧ length out' = length (replicate 512 0) ∧
    means {[ [65] := [120; 32; 121] ]} [101; 32; 36; 65; 32; 62; 102; 10] c out'.
Proof. apply (shell_command_correct one_var _ [101; 32; 36; 65; 32; 62; 102; 10] (replicate 512 0) one_var_map). vm_compute. done. Defined.

(** The arguments and files that a command has, as strings; [None] is an error or no simple command. *)
Definition command_strings (s : Vars) (bytes : list Z) : option (list (list Z) * option (list Z)) :=
  match shell_command s bytes (replicate 512 0) with
  | Done (Simple args r) line => Some (strings_at line args, (λ a, cstring (drop (Z.to_nat a) line)) <$> out_file r)
  | _ => None
  end.
(** [e $A >f]: the value of a variable is split into words. *)
Lemma command_expands : command_strings one_var [101; 32; 36; 65; 32; 62; 102; 10] = Some ([[101]; [120]; [121]], Some [102]).
Proof. by vm_compute. Qed.
(** A backslash before a quote inside double quotes is removed by the expansion, and the splitting then takes the quote as the closing one: the
    arguments of the line itself keep the quote, those of the command do not. *)
Lemma escaped_quote_lost : let l := [101; 32; 34; 97; 92; 34; 98; 34; 10] in
  arguments l = [[101]; [97; 34; 98]] ∧ command_strings one_var l = Some ([[101]; [97; 98]], None).
Proof. by vm_compute. Qed.
(** An ampersand that a backslash protects still puts the command in the background. *)
Lemma escaped_ampersand : ∃ l out, shell_command one_var [101; 32; 92; 38; 10] (replicate 512 0) = Done (InBackground l) out ∧ l = [101; 32; 92].
Proof. do 2 eexists. split; [by vm_compute|done]. Qed.
(** A quoted redirection is a redirection: the quotes are gone when [parse_redirects] looks for the operators. *)
Lemma quoted_redirection : command_strings one_var [101; 32; 34; 62; 102; 34; 10] = Some ([[101]], Some [102]).
Proof. by vm_compute. Qed.

(** The variables are a finite map: a look-up gives the value that was set last, setting a
    variable adds or replaces exactly it and fails, changing nothing, only when its name
    or value is too long or the table of 32 is full, and removing one takes exactly it
    away, although the last entry is moved to its place. *)
Theorem shell_vars_correct s m name value : vars_map s m → 0 ∉ name → 0 ∉ value →
  shell_getvar name s = Done (m !! name) s ∧
  (∃ r s', shell_setvar name value s = Done r s' ∧
    (r = 0 ∧ vars_map s' (<[name := value]> m) ∧ (length name < 32)%nat ∧ (length value < 128)%nat ∨
     r = -1 ∧ s' = s ∧ ((32 ≤ length name)%nat ∨ (128 ≤ length value)%nat ∨ size m = 32%nat ∧ m !! name = None))) ∧
  (∃ s', vars_map s' (delete name m) ∧ shell_unsetvar name s = Done (if bool_decide (is_Some (m !! name)) then 0 else -1) s').
Proof. intros Hm Hn Hv. split_and!; [by apply getvar_lemma|by apply setvar_lemma|by apply unsetvar_lemma]. Qed.
Lemma shell_vars_correct_witness : shell_getvar [65] one_var = Done (Some [120; 32; 121]) one_var.
Proof. apply (shell_vars_correct one_var _ [65] [66] one_var_map); set_solver. Defined.
